(* ===== verification/_CoqProject ===== *)
-Q . S2P
Prelude.v
DecimalContext.v
PyTime.v
PyDate.v
MarketData.v
Timeframe.v
Session.v
Buckets.v
Context.v
Samples.v
CandleEngine.v
SessionStatistics.v
TickEngine.v
Requirements.v
Resampling.v
Coordinator.v
Planner.v
Warmup.v
Strategy.v
Lifecycle.v
Emission.v
Readiness.v
StrategyManager.v
Provisioning.v
Calculators.v
Scanner.v
Implementations.v
Ipc.v
IpcConsumer.v
IpcPublisher.v
IpcSystem.v
IpcReference.v
Sector.v
SectorMetrics.v
SectorRanking.v
SectorShadow.v
History.v
HistoryService.v
PlanningReadiness.v
Universe.v
UniverseStore.v
UniversePromotion.v
UniverseViews.v
PyNumber.v
FloatText.v
DhanWire.v
DhanNormalizer.v
PyText.v
DhanRest.v
DhanFeed.v
EventBus.v
Ingestion.v
MarketRuntime.v
SessionRefresh.v
AppLifecycle.v
CalendarDataset.v
CalendarParser.v
CalendarMonitor.v
Evidence.v
EvidenceObserver.v
