(* ===== verification/Prelude.v ===== *)
(** * ApexScan backend: a verification development

    The program (src/backend/app) ingests market data of a few hundred NSE
    instruments over a broker's binary feed, keeps a versioned context per
    instrument, builds candles and session statistics from ticks, warms historical
    series from the provider, evaluates strategy plug-ins on every context and
    publishes deduplicated and ranked results, in process and over a Redis stream.
    Around that core stand the market universe, durable daily history, sector
    intelligence, the trading calendar with its monitor, and the services that
    start, supervise and stop it all.

    ** Parts, files and correspondence

    Shared ground:

    - [Prelude]: Python exceptions and results, [Decimal], stable sorting,
      bounded deques, insertion-ordered dictionaries, the tactics ([dec_order],
      [zbool], [split_ifs]) and the hint database [apex] used everywhere.
    - [DecimalContext]: arithmetic of 28 digits, half to even.  [PyNumber]:
      floats and the numbers Python reads from texts.  [FloatText]: their bytes and
      round trips.  [PyTime], [PyDate],
      [PyText]: instants and time zones, the civil calendar and ISO dates, texts of
      times and tables.
    - [MarketData]: schemas/market_data.py.  [Samples]: concrete data the witnesses
      evaluate.

    The market engine, market_engine:

    - [Timeframe], [Session] (session.py and historical/calendar_window.py),
      [Buckets], [Context] (context.py and historical/context.py).
    - [CandleEngine]: candle_engine.py and historical/reconciliation.py.
    - [SessionStatistics]: session_statistics.py.
    - [TickEngine]: tick_engine.py with state.py, validation.py, sequence.py,
      events.py and tick_diagnostics.py.
    - [Requirements], [Resampling] (with session_candles.py), [Coordinator]
      (source.py, cache.py, coordinator.py), [Planner] and [Warmup] (the two halves of
      service.py): the historical layer, market_engine/historical.
    - [CalendarDataset]: calendar_data/dataset.py.

    Strategies:

    - [Strategy]: strategies/*.py, the plug-in contract, value objects, registry.
    - [Calculators], [Implementations]: strategies/implementations and
      services/strategy_catalog.py.
    - [Lifecycle], [Emission], [Readiness], [StrategyManager], [Provisioning]:
      strategy_manager/*.py, the state machine, dedup with promotion and ranking,
      triggers with readiness gates, the manager with its requirement coordinator,
      and the interleavings of its commands.
    - [Scanner]: services/cross_instrument_scanner.py.
    - [PlanningReadiness]: strategy_readiness/*.py.

    Data around the engine:

    - [Universe], [UniverseStore], [UniversePromotion], [UniverseViews]:
      market_universe/*.py.
    - [History], [HistoryService]: market_history/*.py.
    - [Sector], [SectorMetrics], [SectorRanking]: market_intelligence/sector;
      [SectorShadow]: services/sector_intelligence.
    - [Ipc], [IpcPublisher], [IpcConsumer], [IpcSystem], [IpcReference]: market_ipc.

    The provider, adapters/dhan:

    - [DhanWire]: live.py with models.py and ltt_diagnostics.py, the binary feed.
    - [DhanNormalizer]: normalizer.py.
    - [DhanRest], [DhanFeed]: the two halves of adapter.py.
    - [CalendarParser]: calendar_monitor_parser.py.

    Services that run it:

    - [EventBus]: events/bus.py.
    - [Ingestion], [MarketRuntime]: services/market_runtime.py.
    - [SessionRefresh]: the three services/session_statistics_*.py.
    - [CalendarMonitor]: services/calendar_monitor.py and
      adapters/dhan/calendar_monitor_source.py.
    - [AppLifecycle]: core/lifecycle.py, adapters/base/provider_coordinator.py and
      services/dhan_runtime_composition.py.
    - [Evidence]: tools/session_ohlc_evidence; [EvidenceObserver]:
      services/session_ohlc_evidence_observer.py.

    ** How they interact

    [AppLifecycle] starts the provider and the runtime; [MarketRuntime] subscribes the
    clients to [EventBus] and starts [Ingestion], which hands every decoded datum of
    [DhanFeed] to [TickEngine.process]: [classify] accepts or rejects it, the session
    classifier stamps it, the candle engine and the session statistics absorb it, and a
    new [MarketContext] is published.  [StrategyManager.handle] receives that context
    and evaluates the running strategies; [Scanner], [SectorShadow] and
    [EvidenceObserver] are clients of the same bus, and [Ingestion] hands its data to the
    publisher of [IpcPublisher] as well.  Starting a strategy registers its
    requirements, pushes the union of live timeframes to the candle engine through the
    interface [LiveTimeframeSink], configures [SessionRefresh] through
    [RefreshControl], and warms history: [Planner] resolves the window, [Coordinator]
    loads and caches it (over [DhanRest] in production), [Warmup] assembles the context
    that [TickEngine]'s registry installs; the candle engine takes authoritative repairs
    through [reconcile].  The trading calendar of [Session] is projected from
    [CalendarDataset], which [CalendarMonitor] compares with a second source.

    State is passed explicitly: an operation takes the component's record and
    returns the new one, with [result] where it may raise.  Definitions keep the
    names of the source without the leading underscore; where Python needs one
    method and the model several, the pieces are mapped to the same method.

    ** Conventions

    - Instants, durations, dates and times are integers (microseconds since the
      epoch, days since the epoch, microseconds of the day); Python's range limits
      on years are modelled only where a text is read ([PyDate], [PyText]).  A
      [ZoneInfo] is a parameter with its two conversions; theorems that need more ask
      for [FixedOffset], which the deployed zone satisfies.  Durations that the source
      turns into float seconds are whole seconds in the cases the theorems state.
    - A finite [Decimal] is its rational value; strings are ASCII.
    - A pydantic constructor is [mk_*]; predicates such as [candle_valid] say what
      it guarantees.  Value objects built by the code from validated parts are
      written directly, with a lemma that the constructor would accept them
      ([promote_constructed]).
    - Foreign code is an argument: observer sinks, the historical source, the plug-ins'
      [evaluate], clock readings and random numbers, HTTP requests and sockets (a list
      of replies), SHA-256, [html.parser] (the events of a page), the JSON of pydantic
      and of the stores (an encoder and a decoder), directory order.  What is relied on
      is a named class, record or hypothesis: [FixedOffset], [VerifiedFetch],
      [LiveTimeframeSink], [RefreshControl], [JsonCodecLaws], [StateCodecLaws].
    - Asynchronous code is a step relation where tasks can interleave: the fetch
      coordinator ([coordinator_step]), the manager's commands with [start] split at its
      [await] ([manager_step]), the start and the shutdown of the runtime with every wait a
      step ([runtime_step]), concurrent refreshes and promotions, producers with the awaits
      of a consumer's polls ([ipc_step]), and the supervisor of a run, a state machine over
      what it waits for.  The operations of the live connection and its consumers
      ([feed_run]) and the start of the application are each one step.  Warm-up and repair
      treat their fetches through [VerifiedFetch], an order-independent answer per plan,
      and are not interleaved with ticks at their awaits.
    - File stores are maps from paths to contents, or names to inodes where hard links
      matter, with each system call a step.
    - Loops without a structural measure carry fuel, and each has its lemma that the fuel
      suffices, so no theorem is about an exhausted loop: [previous_fuel] (the days of the
      calendar coverage before the reference), [buckets_fuel] (the interval length over
      the bucket width), [capacity_fuel] (the lookback, since each session walked back adds
      at least one bucket), with [previous_loop_total], [buckets_loop_answers] and
      [capacity_loop_total]; framing consumes at least one byte of the message per packet,
      a partition of a request at least one day per window, the walk of required dates is
      bounded by the source's 3660 days, the next trading date by its fortnight, and a
      promotion ends within [promote_fuel] steps because the source bounds its retries.

    ** What is proved

    - Tick engine: the invariant of every reachable state, monotone event times,
      the exact trace of ordinals and versions, rejection without effect,
      independence of instruments, the previous close within a session, counters.
    - Candle engine: live candles refine the OHLC of the runs of same-bucket
      ticks, the representation invariant, exact interval volume, taint after a
      continuity loss, exactness and idempotence of reconciliation, live data
      never authoritative, timeframe changes.
    - Session statistics: monotonicity, provenance, completeness on good feeds; what a
      refresh stages and that refreshes keep their cadence under any interleaving.
    - Calendar and buckets: the classifier's table, previous trading days without
      a gap, tiling and agreement of the two bucket functions; which datasets are
      accepted and what they project; a rendered holiday table is read back, comparison
      with the dataset is exact, and the monitor runs once a day.
    - Historical layer: the union of requirements, exact aggregation and
      reconstruction, base selection, one session candle per date, bounded and
      deduplicated loading, authoritative cache hits, progress, verification,
      sufficiency of resolved windows, assembly and repair.
    - Strategy layer: the lifecycle graph, exact emission per policy, ranking,
      ordered readiness gates, one evaluation cycle, requirements that follow
      the lifecycle under every interleaving, accuracy of the calculators against the
      exact formulas, soundness of the catalogue, the scanner's state as a reading of its
      event log, and the verdicts of planning readiness.
    - Universe and history: canonical content, differences, resolution, promotions that
      never share a version or show an incomplete file, the store as a map to the first
      bar, coverage and idempotent backfill.
    - Sector intelligence: one primary sector per date, metrics and ranking, evaluation
      that never fails and accounts for every fresh observation once.
    - Inter-process stream: whatever faults occur every published event is unread, pending,
      applied or refused for another date or universe version, applied at most once within
      the deduplication window, and a poll without faults leaves none behind; the reference
      state is recovered after a restart.
    - Provider: framing and decoding invert the wire format, exact universes, payloads
      entry by entry, a range loaded in windows that tile it, fan-out to every consumer of
      exactly the events it asks for, and reconnects that restore every subscription.
    - Services: the engine has processed exactly the data received, a run that ends is
      retried within the bound of its back-off, a shutdown leaves nothing behind but a task
      of a start it overtook, a failed start is cleaned up and readiness is reported as
      probed.
    - Session evidence: a wire price keeps its bytes, each verdict is given to exactly the
      records that deserve it, combination, and an observer that never accepts and meets
      its deadlines.

    The last lemmas of many files record a comment of the source that promises more than
    the code does, or a behaviour the code does not intend.

    ** Not modelled

    - Order-book depth, the health and subscription schemas of market_data.py: no modelled
      component reads them.
    - Settings and their environment parsing (except the session texts of
      [CalendarDataset]), logging, the HTTP interface with its response schemas, databases,
      migrations and the Redis client: configuration of, and calls into, libraries.
    - The constructors that only wire components together, and the frozen copies of
      metrics records.
    - The command line of the evidence tool, and the rendering of its records with the
      redaction of secrets: text output of modelled values.
    - The token exchange of the provider and deployment tooling (deploy/): calls of
      external processes and services. *)
From Stdlib Require Export ZArith QArith Qcanon Lqa Lia.
From stdpp Require Export base numbers gmap strings pretty sorting list.

Local Open Scope Z_scope.

(** * Python exceptions *)

(** The exception classes the modelled modules raise.  [ValidationError] is
    pydantic's (a subclass of [ValueError] in the source's library). *)
Inductive exn : Type :=
| ValueError (msg : string)
| KeyError (key : string)
| IndexError
| ValidationError (msg : string)
| OutsideCalendarCoverageError
| MissingSessionTimingError (day : Z)
| HistoricalSourceError
| HistoricalDataQualityError (msg : string)
| StrategyAlreadyTrackedError (strategy_id : string)
| StrategyNotTrackedError (strategy_id : string)
| InvalidStrategyTransitionError (strategy_id current_state command : string)
| StrategyLifecycleError (msg : string)
| StrategyNotFoundError (strategy_id : string)
| StrategyAlreadyRegisteredError (strategy_id : string)
| CancelledError
| TypeError (msg : string)
| ArithmeticError
| AssertionError
| RuntimeError (msg : string)
| NarrowCprInputError (msg : string)
| PreviousSessionBodyInputError (msg : string)
| PreviousSessionRangeInputError (msg : string)
| PreviousSessionRelativeRangeInputError (msg : string)
| DegenerateBaselineError
| UnknownEnabledStrategyError (strategy_id : string)
| ScannerPolicyConflictError (msg : string)
| RedisPublishError
| RedisError
| SectorDatasetError (msg : string)
| DuplicateConstituentError (identity : string)
| MixedTradingDateError (identity : string)
| SectorMembershipMismatchError (identity : string)
| DuplicateRankedConstituentError (identity : string)
| StockSectorContextMismatchError (identity : string)
| AdjustedDataUnavailableError
| UnsupportedReadinessRequirementError
| SnapshotNotFoundError (version : Z)
| EmptyUniverseError
| PromotionValidationError (unresolved : nat)
| FileNotFoundError
| FileExistsError
| UnicodeDecodeError
| NormalizationError
| InvalidOperation
| OverflowError
| UnknownProviderReferenceError
| UnsupportedProviderRequestError
| ProviderContractViolationError
| DhanFeedDisconnectedError
| ConnectionError
| TimeoutError
| LiveFeedStaleError
| ProviderNetworkError
| ProviderUnavailableError
| ProviderAuthenticationError
| ProviderTimeoutError
| ProviderRateLimitError
| ProviderBoundaryError (msg : string)
| UnsupportedLiveDatumError
| RuntimeLifecycleError
| ProviderLifecycleError
| ProviderConfigurationError
| ProviderInitializationError
| ProviderHealthCheckError
| ProviderOperationTimeoutError
| ProviderCleanupError
| ApplicationStartupError (msg : string)
| ApplicationShutdownError
| UniverseResolutionError
| AuthoritativeCalendarUnavailableError
| OSError.

#[global] Instance exn_eq_dec : EqDecision exn.
Proof. solve_decision. Defined.

(** The subclasses of [ProviderBoundaryError] in adapters/base/errors.py. *)
Definition is_provider_boundary_error (e : exn) : bool :=
  match e with
  | ProviderBoundaryError _ | NormalizationError | ProviderContractViolationError | ProviderAuthenticationError
  | ProviderNetworkError | ProviderRateLimitError | ProviderTimeoutError | ProviderUnavailableError
  | UnsupportedProviderRequestError | UnknownProviderReferenceError => true
  | _ => false
  end.

(** The subclasses of [ProviderLifecycleError] in adapters/base/provider_coordinator.py. *)
Definition is_provider_lifecycle_error (e : exn) : bool :=
  match e with
  | ProviderLifecycleError | ProviderConfigurationError | ProviderInitializationError | ProviderHealthCheckError
  | ProviderOperationTimeoutError | ProviderCleanupError => true
  | _ => false
  end.

(** What [except Exception] catches: everything but a cancellation. *)
Definition is_exception (e : exn) : bool := match e with CancelledError => false | _ => true end.

(** A Python call either returns a value or raises. *)
Inductive result (A : Type) : Type :=
| Ok (value : A)
| Raise (error : exn).
Arguments Ok {A} _.
Arguments Raise {A} _.

#[global] Instance result_ret : MRet result := @Ok.
#[global] Instance result_bind : MBind result :=
  fun A B k m => match m with Ok a => k a | Raise e => Raise e end.
#[global] Instance result_fmap : FMap result :=
  fun A B f m => match m with Ok a => Ok (f a) | Raise e => Raise e end.
#[global] Instance result_eq_dec {A} `{EqDecision A} : EqDecision (result A).
Proof. solve_decision. Defined.

(** [if bad: raise e]; the rest of the block runs in the continuation. *)
Definition raise_if (bad : bool) (e : exn) : result unit :=
  if bad then Raise e else Ok tt.

Definition is_ok {A} (r : result A) : bool :=
  match r with Ok _ => true | Raise _ => false end.

(** [[f(x) for x in xs]] where [f] may raise: the first exception wins. *)
Fixpoint traverse {A B} (f : A -> result B) (xs : list A) : result (list B) :=
  match xs with
  | [] => Ok []
  | x :: xs => y ← f x; ys ← traverse f xs; Ok (y :: ys)
  end.

(** [xs[i]] for a valid non-negative index; out of range it raises. *)
Definition list_index {A} (l : list A) (i : nat) : result A :=
  match l !! i with Some x => Ok x | None => Raise IndexError end.

(** [for x in xs: check(x)]. *)
Fixpoint for_each {A} (f : A -> result unit) (xs : list A) : result unit :=
  match xs with
  | [] => Ok tt
  | x :: xs => _ ← f x; for_each f xs
  end.

(** * Decimal prices *)

(** A finite Python [Decimal] is its numeric value: [==], [<] and [hash] of the
    source's library look at nothing else, and the modelled code never reads the
    exponent of a price. *)
Abbreviation Decimal := Qc (only parsing).

Definition dec_ltb (a b : Decimal) : bool := bool_decide (a < b)%Qc.
Definition dec_leb (a b : Decimal) : bool := bool_decide (a <= b)%Qc.
Definition dec_eqb (a b : Decimal) : bool := bool_decide (a = b).

(** Python's [max] and [min] keep the first argument unless the second is
    strictly better. *)
Definition dec_max (a b : Decimal) : Decimal := if dec_ltb a b then b else a.
Definition dec_min (a b : Decimal) : Decimal := if dec_ltb b a then b else a.

(** A decimal literal: [dec n k] is [n / 10^k]. *)
Definition dec (n : Z) (k : nat) : Decimal := Q2Qc (n # (Pos.of_nat (10 ^ k))).

(** * Python sequences *)

(** [sorted(xs, key=...)]: a stable insertion sort for a Boolean order. *)
Section Sorted.
Context {A : Type} (leb : A -> A -> bool).

Fixpoint insert_sorted (x : A) (l : list A) : list A :=
  match l with
  | [] => [x]
  | y :: l' => if leb x y then x :: y :: l' else y :: insert_sorted x l'
  end.

Fixpoint py_sorted (l : list A) : list A :=
  match l with
  | [] => []
  | x :: l' => insert_sorted x (py_sorted l')
  end.

End Sorted.

(** [xs[-n:]] for a positive [n]: the last [n] elements. *)
Definition last_n {A} (n : nat) (l : list A) : list A := drop (length l - n) l.

(** [deque(maxlen=n).append(x)]: a full deque drops from the left. *)
Definition deque_append {A} (n : nat) (l : list A) (x : A) : list A :=
  last_n n (l ++ [x]).

(** Adjacent pairs: [zip(xs, xs[1:], strict=False)]. *)
Definition pairwise {A} (l : list A) : list (A * A) := zip l (drop 1 l).

(** [all(...)] and [any(...)]. *)
Definition py_all {A} (f : A -> bool) (l : list A) : bool := forallb f l.
Definition py_any {A} (f : A -> bool) (l : list A) : bool := existsb f l.

(** [x is not None] *)
Definition is_not_none {A} (o : option A) : bool :=
  match o with Some _ => true | None => false end.

(** [tuple(dict.fromkeys(xs))]: duplicates removed, first occurrences kept. *)
Fixpoint from_keys {A} `{EqDecision A} (seen l : list A) : list A :=
  match l with
  | [] => []
  | x :: l => if bool_decide (x ∈ seen) then from_keys seen l else x :: from_keys (x :: seen) l
  end.

(** A stripped text within [min_length=1] and [max_length=most]. *)
Definition text_ok (s : string) (most : nat) : bool :=
  negb (String.eqb s EmptyString) && (String.length s <=? most)%nat.

(** [functools]-style loops over a list that threads a state. *)
Definition fold_state {A S} (f : S -> A -> S) (l : list A) (s : S) : S :=
  fold_left f l s.

(** * Automation *)

(** Decimal order goals: unfold to rationals and call [lra]. *)
Ltac dec_unfold :=
  unfold dec_max, dec_min, dec_ltb, dec_leb, dec_eqb in *;
  repeat case_bool_decide; subst.

Ltac dec_order :=
  repeat match goal with
  | H : @eq Qc ?a ?b |- _ => apply (f_equal this) in H
  | H : ~ (_ < _)%Qc |- _ => apply Qcnot_lt_le in H
  | H : ~ (_ <= _)%Qc |- _ => apply Qcnot_le_lt in H
  end;
  unfold Qclt, Qcle in *;
  repeat match goal with
  | H : this ?a = this ?b |- _ => assert (this a == this b)%Q by (rewrite H; reflexivity); clear H
  end;
  try lra.

(** Case analysis on the tests of a definition, one at a time. *)
Ltac split_ifs :=
  repeat match goal with
  | |- context [if ?b then _ else _] => destruct b eqn:?
  | H : context [if ?b then _ else _] |- _ => destruct b eqn:?
  end.

Ltac zbool :=
  repeat match goal with
  | H : (_ && _)%bool = true |- _ => apply andb_true_iff in H as [? ?]
  | H : (_ && _)%bool = false |- _ => apply andb_false_iff in H
  | H : (_ || _)%bool = true |- _ => apply orb_true_iff in H
  | H : (_ || _)%bool = false |- _ => apply orb_false_iff in H as [? ?]
  | H : negb _ = true |- _ => apply negb_true_iff in H
  | H : negb _ = false |- _ => apply negb_false_iff in H
  | H : (_ <? _) = true |- _ => apply Z.ltb_lt in H
  | H : (_ <? _) = false |- _ => apply Z.ltb_ge in H
  | H : (_ <=? _) = true |- _ => apply Z.leb_le in H
  | H : (_ <=? _) = false |- _ => apply Z.leb_gt in H
  | H : (_ =? _) = true |- _ => apply Z.eqb_eq in H
  | H : (_ =? _) = false |- _ => apply Z.eqb_neq in H
  | H : bool_decide _ = true |- _ => apply bool_decide_eq_true in H
  | H : bool_decide _ = false |- _ => apply bool_decide_eq_false in H
  end.

Create HintDb apex discriminated.

(** * Shared lemmas *)

Lemma raise_if_ok b e (u : unit) : raise_if b e = Ok u -> b = false.
Proof. by destruct b. Qed.

Lemma bind_ok {A B} (m : result A) (k : A -> result B) b :
  (m ≫= k) = Ok b <-> exists a, m = Ok a /\ k a = Ok b.
Proof.
  destruct m as [a|e]; cbn; split.
  - eauto.
  - by intros (a' & [= <-] & ?).
  - done.
  - by intros (a' & ? & _).
Qed.

Lemma bind_value {A B} (x : A) (k : A -> result B) : (Ok x ≫= k) = k x.
Proof. reflexivity. Qed.

Lemma bind_raise {A B} (m : result A) (k : A -> result B) e :
  (m ≫= k) = Raise e <-> m = Raise e \/ exists a, m = Ok a /\ k a = Raise e.
Proof.
  destruct m as [a|e']; cbn; split.
  - eauto.
  - intros [?|(a' & [= <-] & ?)]; [done|done].
  - intros [= ->]; auto.
  - intros [[= ->]|(a' & ? & _)]; done.
Qed.

(** What a call may do: return a value of [Q] or raise an error of [E]. *)
Definition yields {A} (E : exn -> Prop) (Q : A -> Prop) (r : result A) : Prop :=
  match r with Ok a => Q a | Raise e => E e end.

Lemma yields_bind {A B} (E : exn -> Prop) (P : A -> Prop) (Q : B -> Prop) m (k : A -> result B) :
  yields E P m -> (forall a, P a -> yields E Q (k a)) -> yields E Q (m ≫= k).
Proof. destruct m as [a|e]; cbn; auto. Qed.

Lemma yields_raise_if (E : exn -> Prop) (Q : unit -> Prop) b e :
  E e -> (b = false -> Q tt) -> yields E Q (raise_if b e).
Proof. destruct b; cbn; auto. Qed.

(** A guard in front of the rest of a call. *)
Lemma yields_guard {B} (E : exn -> Prop) (Q : B -> Prop) b e (r : result B) :
  E e -> (b = false -> yields E Q r) -> yields E Q (_ ← raise_if b e; r).
Proof. destruct b; cbn; auto. Qed.

Lemma yields_mono {A} (E E' : exn -> Prop) (Q Q' : A -> Prop) r :
  yields E Q r -> (forall e, E e -> E' e) -> (forall a, Q a -> Q' a) -> yields E' Q' r.
Proof. destruct r; cbn; auto. Qed.

Lemma traverse_ok {A B} (f : A -> result B) xs ys :
  traverse f xs = Ok ys <-> Forall2 (fun x y => f x = Ok y) xs ys.
Proof.
  revert ys. induction xs as [|x xs IH]; intros ys; cbn; split.
  - intros [= <-]. constructor.
  - by inversion 1.
  - intros (y & Hy & (ys' & Hys & [= <-])%bind_ok)%bind_ok.
    constructor; [done|]. by apply IH.
  - inversion 1 as [|? y ? ys' Hy Hys]; subst. rewrite Hy. cbn.
    apply IH in Hys. by rewrite Hys.
Qed.

Lemma traverse_raise {A B} (f : A -> result B) xs e : traverse f xs = Raise e -> exists x, x ∈ xs /\ f x = Raise e.
Proof.
  induction xs as [|x xs IH]; [done|]. cbn [traverse].
  intros [H|(y & _ & [H|(ys & _ & H)]%bind_raise)]%bind_raise; [exists x; split; [left|done]| |done].
  destruct (IH H) as (z & Hz & ?). exists z. split; [by right|done].
Qed.

Lemma traverse_pure {A B} (f : A -> result B) (g : A -> B) xs :
  Forall (fun x => f x = Ok (g x)) xs -> traverse f xs = Ok (g <$> xs).
Proof. induction 1 as [|x xs Hx _ IH]; [done|]. cbn. rewrite Hx. cbn. by rewrite IH. Qed.

Lemma traverse_total {A B} (f : A -> result B) (P : A -> B -> Prop) xs :
  (forall x, x ∈ xs -> exists y, f x = Ok y /\ P x y) -> exists ys, traverse f xs = Ok ys /\ Forall2 P xs ys.
Proof.
  induction xs as [|x xs IH]; intros H; [by exists []|]. destruct (H x ltac:(left)) as (y & Hy & Hp).
  destruct IH as (ys & Hys & Hps); [intros z Hz; apply H; by right|]. exists (y :: ys). cbn.
  rewrite Hy. cbn. rewrite Hys. by repeat constructor.
Qed.

Lemma yields_traverse {A B} (E : exn -> Prop) (P : A -> B -> Prop) (f : A -> result B) xs :
  (forall x, x ∈ xs -> yields E (P x) (f x)) -> yields E (Forall2 P xs) (traverse f xs).
Proof.
  induction xs as [|x xs IH]; intros H; [constructor|]. cbn [traverse].
  apply (yields_bind _ (P x)); [apply H; by left|]. intros y Hy.
  apply (yields_bind _ (Forall2 P xs)); [apply IH; intros z Hz; apply H; by right|].
  intros ys Hys. cbn. by constructor.
Qed.

Lemma for_each_ok {A} (f : A -> result unit) xs :
  for_each f xs = Ok tt <-> Forall (fun x => f x = Ok tt) xs.
Proof.
  induction xs as [|x xs IH]; cbn.
  - split; [constructor|done].
  - split.
    + intros ([] & ? & ?%IH)%bind_ok. by constructor.
    + intros [? ?%IH]%Forall_cons. apply bind_ok. by exists tt.
Qed.

(** ** Decimals *)

Lemma dec_ltb_lt a b : dec_ltb a b = true <-> (a < b)%Qc.
Proof. apply bool_decide_eq_true. Qed.

Lemma dec_leb_le a b : dec_leb a b = true <-> (a <= b)%Qc.
Proof. apply bool_decide_eq_true. Qed.

Lemma dec_eqb_eq a b : dec_eqb a b = true <-> a = b.
Proof. apply bool_decide_eq_true. Qed.

Lemma dec_max_ub_l a b : (a <= dec_max a b)%Qc.
Proof. dec_unfold; dec_order. Qed.

Lemma dec_max_ub_r a b : (b <= dec_max a b)%Qc.
Proof. dec_unfold; dec_order. Qed.

Lemma dec_min_lb_l a b : (dec_min a b <= a)%Qc.
Proof. dec_unfold; dec_order. Qed.

Lemma dec_min_lb_r a b : (dec_min a b <= b)%Qc.
Proof. dec_unfold; dec_order. Qed.

Lemma dec_max_case a b : dec_max a b = a \/ dec_max a b = b.
Proof. unfold dec_max. destruct (dec_ltb a b); auto. Qed.

Lemma dec_min_case a b : dec_min a b = a \/ dec_min a b = b.
Proof. unfold dec_min. destruct (dec_ltb b a); auto. Qed.

#[export] Hint Resolve dec_max_ub_l dec_max_ub_r dec_min_lb_l dec_min_lb_r
  Qcle_refl : apex.

(** ** Stable sorting *)

Section SortedLemmas.
Context {A : Type} (leb : A -> A -> bool).
Hypothesis leb_total : forall x y, leb x y = true \/ leb y x = true.
Hypothesis leb_trans : forall x y z, leb x y = true -> leb y z = true -> leb x z = true.

Lemma insert_sorted_perm x l : insert_sorted leb x l ≡ₚ x :: l.
Proof using Type.
  induction l as [|y l IH]; cbn; [done|].
  destruct (leb x y); [done|]. rewrite IH. apply perm_swap.
Qed.

Lemma py_sorted_perm l : py_sorted leb l ≡ₚ l.
Proof using Type.
  induction l as [|x l IH]; cbn; [done|].
  by rewrite insert_sorted_perm, IH.
Qed.

Lemma elem_of_py_sorted x l : x ∈ py_sorted leb l <-> x ∈ l.
Proof using Type. by rewrite py_sorted_perm. Qed.

Lemma length_py_sorted l : length (py_sorted leb l) = length l.
Proof using Type. by rewrite py_sorted_perm. Qed.

Lemma Forall_py_sorted (P : A -> Prop) l : Forall P (py_sorted leb l) <-> Forall P l.
Proof using Type. by rewrite py_sorted_perm. Qed.

Lemma insert_sorted_sorted x l :
  StronglySorted (fun a b => leb a b = true) l ->
  StronglySorted (fun a b => leb a b = true) (insert_sorted leb x l).
Proof using leb_total leb_trans.
  induction 1 as [|y l Hs IH Hall]; cbn; [by repeat constructor|].
  destruct (leb x y) eqn:E.
  - constructor; [by constructor|]. constructor; [done|].
    eapply Forall_impl; [exact Hall|]. cbn. eauto.
  - constructor; [done|]. rewrite insert_sorted_perm. constructor; [|done].
    destruct (leb_total x y); congruence.
Qed.

Lemma py_sorted_sorted l : StronglySorted (fun a b => leb a b = true) (py_sorted leb l).
Proof using leb_total leb_trans.
  induction l as [|x l IH]; cbn; [constructor|]. by apply insert_sorted_sorted.
Qed.

Lemma py_sorted_id l :
  StronglySorted (fun a b => leb a b = true) l -> py_sorted leb l = l.
Proof using Type.
  induction 1 as [|x l Hs IH Hall]; cbn; [done|]. rewrite IH.
  destruct l as [|y l]; cbn; [done|].
  apply Forall_cons in Hall as [Hxy _]. by rewrite Hxy.
Qed.

(** When distinct elements never compare equal both ways the order of the
    input does not matter. *)
Lemma py_sorted_unique l1 l2 :
  (forall x y, x ∈ l1 -> y ∈ l1 -> leb x y = true -> leb y x = true -> x = y) ->
  l1 ≡ₚ l2 -> py_sorted leb l1 = py_sorted leb l2.
Proof using leb_total leb_trans.
  intros Hanti Hp.
  pose proof (py_sorted_sorted l1) as H1. pose proof (py_sorted_sorted l2) as H2.
  assert (py_sorted leb l1 ≡ₚ py_sorted leb l2) as Hp'.
  { by rewrite !py_sorted_perm. }
  assert (forall x y, x ∈ py_sorted leb l1 -> y ∈ py_sorted leb l1 ->
    leb x y = true -> leb y x = true -> x = y) as Hanti'.
  { intros x y. rewrite !elem_of_py_sorted. apply Hanti. }
  clear Hp Hanti. revert H2 Hp'. generalize (py_sorted leb l2) as m2.
  revert H1 Hanti'. generalize (py_sorted leb l1) as m1. clear l1 l2.
  induction 1 as [|x m1 Hs IH Hx]; intros Hanti m2 H2 Hp.
  - by apply Permutation_nil_l in Hp.
  - destruct H2 as [|y m2 Hs2 Hy]; [by apply Permutation_nil_r in Hp|].
    assert (x = y) as ->.
    { assert (y ∈ x :: m1) as Hyin by (rewrite Hp; set_solver).
      assert (x ∈ y :: m2) as Hxin by (rewrite <- Hp; set_solver).
      apply elem_of_cons in Hyin as [->|Hyin]; [done|].
      apply elem_of_cons in Hxin as [->|Hxin]; [done|].
      rewrite Forall_forall in Hx, Hy.
      apply Hanti; [set_solver|set_solver|by apply Hx|by apply Hy]. }
    f_equal. apply IH; [|done|by apply Permutation_cons_inv in Hp].
    intros a b Ha Hb. apply Hanti; set_solver.
Qed.

End SortedLemmas.

Lemma StronglySorted_elem_impl {A} (R S : A -> A -> Prop) (l : list A) :
  (forall x y, x ∈ l -> y ∈ l -> R x y -> S x y) -> StronglySorted R l -> StronglySorted S l.
Proof.
  intros H Hs. induction Hs as [|x l Hs IH Hx]; [constructor|]. constructor.
  - apply IH. intros y z Hy Hz. apply H; by right.
  - rewrite Forall_forall in Hx |- *. intros y Hy. apply H; [left|by right|by apply Hx].
Qed.

Lemma StronglySorted_sublist {A} (R : A -> A -> Prop) (l1 l2 : list A) :
  l1 `sublist_of` l2 -> StronglySorted R l2 -> StronglySorted R l1.
Proof.
  induction 1 as [|x l1 l2 Hs IH|x l1 l2 Hs IH]; intros H; [constructor| |];
    apply StronglySorted_inv in H as [H Hx]; [|by apply IH].
  constructor; [by apply IH|]. rewrite Forall_forall in Hx |- *. intros y Hy. apply Hx.
  by eapply elem_of_sublist.
Qed.

(** Sorting distinct numbers, or elements with distinct numeric keys. *)
Lemma py_sorted_strict {A} (f : A -> Z) (l : list A) : NoDup (f <$> l) ->
  StronglySorted (fun a b => f a < f b) (py_sorted (fun a b => f a <=? f b) l).
Proof.
  intros Hn. assert (Hs : StronglySorted (fun a b => (f a <=? f b) = true) (py_sorted (fun a b => f a <=? f b) l)).
  { apply py_sorted_sorted; intros; lia. }
  assert (Hn' : NoDup (f <$> py_sorted (fun a b => f a <=? f b) l)) by (by rewrite py_sorted_perm).
  revert Hs Hn'. generalize (py_sorted (fun a b => f a <=? f b) l). clear. intros l Hs.
  induction Hs as [|x l Hs IH Hx]; intros Hn; [constructor|]. rewrite fmap_cons, NoDup_cons in Hn.
  destruct Hn as [Hx' Hn]. constructor; [by apply IH|]. rewrite Forall_forall in Hx |- *. intros y Hy.
  specialize (Hx y Hy). assert (f x <> f y); [|lia]. intros Heq. apply Hx', list_elem_of_fmap. by exists y.
Qed.

(** ** Sorted decimals *)

Lemma dec_leb_total a b : dec_leb a b = true \/ dec_leb b a = true.
Proof. rewrite !dec_leb_le. unfold Qcle. destruct (Qlt_le_dec (this a) (this b)); [left|right]; lra. Qed.

Lemma dec_leb_trans a b c : dec_leb a b = true -> dec_leb b c = true -> dec_leb a c = true.
Proof. rewrite !dec_leb_le. apply Qcle_trans. Qed.

(** Whatever the order of the baseline sessions, the median is the same. *)

Lemma dec_sorted_perm l l' : l ≡ₚ l' -> py_sorted dec_leb l = py_sorted dec_leb l'.
Proof.
  apply py_sorted_unique; [apply dec_leb_total|apply dec_leb_trans|].
  intros x y _ _ Hx%dec_leb_le Hy%dec_leb_le. by apply Qcle_antisym.
Qed.

(** ** Bounded deques *)

Lemma length_last_n {A} n (l : list A) : (length (last_n n l) <= n)%nat.
Proof. unfold last_n. rewrite length_drop. lia. Qed.

Lemma last_n_all {A} n (l : list A) : (length l <= n)%nat -> last_n n l = l.
Proof. intros. unfold last_n. by replace (length l - n)%nat with 0%nat by lia. Qed.

Lemma elem_of_last_n {A} n (l : list A) x : x ∈ last_n n l -> x ∈ l.
Proof. unfold last_n. intros H. rewrite <- (take_drop (length l - n) l). set_solver. Qed.

Lemma Forall_last_n {A} (P : A -> Prop) n l : Forall P l -> Forall P (last_n n l).
Proof. unfold last_n. apply Forall_drop. Qed.

Lemma last_n_suffix {A} n (l : list A) : last_n n l `suffix_of` l.
Proof. unfold last_n. exists (take (length l - n) l). by rewrite take_drop. Qed.

Lemma length_deque_append {A} n (l : list A) x : (length (deque_append n l x) <= n)%nat.
Proof. apply length_last_n. Qed.

Lemma Forall_deque_append {A} (P : A -> Prop) n l x :
  Forall P l -> P x -> Forall P (deque_append n l x).
Proof. intros. apply Forall_last_n. rewrite Forall_app. eauto. Qed.

Lemma deque_append_last {A} n (l : list A) x :
  (0 < n)%nat -> last (deque_append n l x) = Some x.
Proof.
  intros Hn. unfold deque_append, last_n. rewrite length_app. cbn.
  rewrite drop_app_le by lia. by rewrite last_snoc.
Qed.

Lemma StronglySorted_suffix {A} (R : A -> A -> Prop) l1 l2 :
  l1 `suffix_of` l2 -> StronglySorted R l2 -> StronglySorted R l1.
Proof.
  intros [k ->]. induction k as [|x k IH]; cbn; [done|].
  intros H. apply IH. by inversion H.
Qed.

#[export] Hint Resolve Forall_last_n Forall_deque_append : apex.

(** ** Duplicate detection by set size *)

Section Distinct.
Context {A : Type} `{Countable A}.

Lemma size_list_to_set_le (l : list A) : (size (list_to_set l : gset A) <= length l)%nat.
Proof.
  induction l as [|x l IH]; cbn.
  - by rewrite size_empty.
  - rewrite size_union_alt, size_singleton.
    assert (size (list_to_set l ∖ {[x]} : gset A) <= size (list_to_set l : gset A))%nat
      by (apply subseteq_size; set_solver). lia.
Qed.

(** [len(set(xs)) == len(xs)] *)
Lemma NoDup_size_list_to_set (l : list A) :
  size (list_to_set l : gset A) = length l -> NoDup l.
Proof.
  induction l as [|x l IH]; cbn; [constructor|]. intros Hs.
  destruct (decide (x ∈ l)) as [Hx|Hx].
  - rewrite subseteq_union_1_L in Hs by set_solver.
    pose proof (size_list_to_set_le l). lia.
  - constructor; [done|]. apply IH.
    rewrite size_union, size_singleton in Hs by set_solver. lia.
Qed.

End Distinct.

(** ** Python's string order *)

Lemma string_leb_total a b : String.leb a b = true \/ String.leb b a = true.
Proof. destruct (String.leb_total a b); auto. Qed.

Lemma string_leb_trans (a b c : string) :
  String.leb a b = true -> String.leb b c = true -> String.leb a c = true.
Proof.
  intros H1 H2. apply Is_true_true. etrans; [|apply Is_true_true; exact H2].
  by apply Is_true_true.
Qed.

(** ** Filters *)

Lemma Forall_filter_keep {A} (P Q : A -> Prop) `{!forall x, Decision (Q x)} (l : list A) :
  Forall P l -> Forall P (filter Q l).
Proof.
  rewrite !Forall_forall. intros Hall x [_ Hx]%list_elem_of_filter. by apply Hall.
Qed.
#[export] Hint Resolve Forall_filter_keep : apex.

Lemma filter_split_perm {A} (p : A -> bool) (l : list A) :
  filter (fun x => p x = true) l ++ filter (fun x => p x = false) l ≡ₚ l.
Proof.
  induction l as [|x l IH]; [done|]. rewrite !filter_cons. destruct (p x) eqn:E; repeat case_decide; try done.
  - cbn. by rewrite IH.
  - by rewrite <- Permutation_middle, IH.
Qed.

Lemma filter_keeps {A} (P : A -> Prop) `{!forall x, Decision (P x)} (l : list A) :
  (forall x, x ∈ l -> P x) -> filter P l = l.
Proof.
  induction l as [|x l IH]; intros Hl; [done|]. rewrite filter_cons, decide_True by (apply Hl; left).
  f_equal. apply IH. intros y Hy. apply Hl. by right.
Qed.

Lemma StronglySorted_filter {A} (R : A -> A -> Prop) (P : A -> Prop) `{!forall x, Decision (P x)} l :
  StronglySorted R l -> StronglySorted R (filter P l).
Proof.
  induction 1 as [|x l Hs IH Hx]; [constructor|]. rewrite filter_cons. case_decide; [|done].
  constructor; [done|]. by apply Forall_filter_keep.
Qed.

Lemma filter_none {A} (P : A -> Prop) `{!forall x, Decision (P x)} (l : list A) :
  (forall x, x ∈ l -> ~ P x) -> filter P l = [].
Proof.
  induction l as [|x l IH]; intros Hl; [done|]. rewrite filter_cons, decide_False by (apply Hl; left).
  apply IH. intros y Hy. apply Hl. by right.
Qed.

Lemma last_n_snoc {A} n (l : list A) x : last_n n (last_n n l ++ [x]) = last_n n (l ++ [x]).
Proof.
  unfold last_n. rewrite !length_app, length_drop. cbn.
  destruct (decide (length l <= n)%nat).
  - replace (length l - n)%nat with 0%nat by lia. rewrite drop_0.
    f_equal. lia.
  - destruct n as [|n].
    + rewrite !drop_ge; [done|rewrite length_app; cbn; lia|].
      rewrite length_app, length_drop. cbn. lia.
    + rewrite !drop_app_le by (rewrite ?length_drop; lia).
      rewrite drop_drop. do 2 f_equal. lia.
Qed.

Lemma fmap_last_n {A B} (f : A -> B) n (l : list A) : f <$> last_n n l = last_n n (f <$> l).
Proof. unfold last_n. by rewrite fmap_drop, length_fmap. Qed.

(** ** First occurrences *)

Section FromKeys.
Context {A : Type} `{EqDecision A}.

Lemma elem_of_from_keys (x : A) seen l : x ∈ from_keys seen l <-> x ∈ l /\ x ∉ seen.
Proof.
  revert seen. induction l as [|y l IH]; intros seen; cbn; [set_solver|].
  case_bool_decide as Hy; [rewrite IH; set_solver|].
  rewrite elem_of_cons, IH. destruct (decide (x = y)) as [->|]; set_solver.
Qed.

Lemma NoDup_from_keys seen (l : list A) : NoDup (from_keys seen l).
Proof.
  revert seen. induction l as [|y l IH]; intros seen; cbn; [constructor|].
  case_bool_decide; [done|]. constructor; [|done]. rewrite elem_of_from_keys. set_solver.
Qed.

Lemma from_keys_id seen (l : list A) :
  NoDup l -> (forall x, x ∈ l -> x ∉ seen) -> from_keys seen l = l.
Proof.
  intros Hl. revert seen. induction Hl as [|x l Hx Hl IH]; intros seen Hs; cbn; [done|].
  rewrite bool_decide_eq_false_2 by (apply Hs; set_solver). f_equal. apply IH. set_solver.
Qed.

(** [len(set(xs)) == len(xs)] through first occurrences. *)
Lemma from_keys_length (l : list A) :
  length (from_keys [] l) = length l <-> NoDup l.
Proof.
  split; [|intros; by rewrite from_keys_id by set_solver].
  assert (forall seen (l : list A), (length (from_keys seen l) <= length l)%nat) as Hle.
  { intros seen m. revert seen. induction m as [|y m IH]; intros seen; cbn; [done|].
    case_bool_decide; cbn; [specialize (IH seen)|specialize (IH (y :: seen))]; lia. }
  assert (forall seen (l : list A), length (from_keys seen l) = length l ->
    NoDup l /\ forall x, x ∈ l -> x ∉ seen) as Hmain.
  { intros seen m. revert seen. induction m as [|y m IH]; intros seen; cbn; [split; [constructor|set_solver]|].
    case_bool_decide as Hy; cbn; intros Hlen.
    - specialize (Hle seen m). lia.
    - injection Hlen as Hlen. apply IH in Hlen as [Hm Hseen]. split; [|set_solver].
      constructor; [|done]. intros Hin. apply Hseen in Hin. set_solver. }
  intros Hlen. by apply Hmain in Hlen as [? _].
Qed.

End FromKeys.

(** ** Insertion-ordered dictionaries *)

(** A Python [dict] whose iteration order matters: its items, oldest key first. *)
Abbreviation dict K V := (list (K * V)) (only parsing).

Section Dict.
Context {K V : Type} `{EqDecision K}.

Fixpoint dict_get (k : K) (d : dict K V) : option V :=
  match d with
  | [] => None
  | (k', v) :: d => if decide (k = k') then Some v else dict_get k d
  end.

(** [d[k] = v]: a known key keeps its place, a new one goes last. *)
Fixpoint dict_set (k : K) (v : V) (d : dict K V) : dict K V :=
  match d with
  | [] => [(k, v)]
  | (k', v') :: d => if decide (k = k') then (k, v) :: d else (k', v') :: dict_set k v d
  end.

(** [d.pop(k, None)] *)
Definition dict_pop (k : K) (d : dict K V) : dict K V := filter (fun p => p.1 <> k) d.

Lemma dict_get_set k k' v (d : dict K V) :
  dict_get k' (dict_set k v d) = if decide (k' = k) then Some v else dict_get k' d.
Proof.
  induction d as [|[k0 v0] d IH]; cbn; [done|].
  destruct (decide (k = k0)) as [->|Hn]; cbn.
  - by destruct (decide (k' = k0)).
  - rewrite IH. destruct (decide (k' = k0)) as [->|]; [|done]. by rewrite decide_False by congruence.
Qed.

Lemma dict_get_pop k k' (d : dict K V) :
  dict_get k' (dict_pop k d) = if decide (k' = k) then None else dict_get k' d.
Proof.
  unfold dict_pop. induction d as [|[k0 v0] d IH]; [cbn; by case_decide|].
  rewrite filter_cons. cbn [fst dict_get]. destruct (decide (k0 <> k)) as [Hk|Hk]; cbn; rewrite IH.
  - destruct (decide (k' = k0)) as [->|]; [|done]. by rewrite decide_False.
  - apply dec_stable in Hk as ->. by destruct (decide (k' = k)).
Qed.

Lemma dict_get_elem k v (d : dict K V) : dict_get k d = Some v -> (k, v) ∈ d.
Proof.
  induction d as [|[k0 v0] d IH]; cbn; [done|]. destruct (decide (k = k0)) as [->|].
  - intros [= ->]. left.
  - intros H. right. auto.
Qed.

Lemma dict_get_none k (d : dict K V) : dict_get k d = None <-> k ∉ d.*1.
Proof.
  induction d as [|[k0 v0] d IH]; cbn; [set_solver|]. destruct (decide (k = k0)) as [->|].
  - set_solver.
  - rewrite IH. set_solver.
Qed.

Lemma dict_elem_get k v (d : dict K V) : NoDup d.*1 -> (k, v) ∈ d -> dict_get k d = Some v.
Proof.
  induction d as [|[k0 v0] d IH]; cbn; [set_solver|].
  intros [Hk Hn]%NoDup_cons [[= -> ->]|H]%elem_of_cons; [by rewrite decide_True|].
  rewrite decide_False; [auto|]. intros ->. apply Hk. by apply (list_elem_of_fmap_2 fst) in H.
Qed.

Lemma dict_set_keys k v (d : dict K V) :
  (dict_set k v d).*1 = if decide (k ∈ d.*1) then d.*1 else d.*1 ++ [k].
Proof.
  induction d as [|[k0 v0] d IH]; [done|]. cbn.
  destruct (decide (k = k0)) as [->|Hk]; cbn; [by rewrite decide_True by set_solver|].
  rewrite IH. destruct (decide (k ∈ d.*1)).
  - by rewrite decide_True by set_solver.
  - by rewrite decide_False by set_solver.
Qed.

Lemma dict_set_NoDup k v (d : dict K V) : NoDup d.*1 -> NoDup (dict_set k v d).*1.
Proof.
  rewrite dict_set_keys. case_decide; [done|]. intros. apply NoDup_app. split_and!; [done| |].
  - set_solver.
  - apply NoDup_singleton.
Qed.

Lemma dict_pop_NoDup k (d : dict K V) : NoDup d.*1 -> NoDup (dict_pop k d).*1.
Proof.
  unfold dict_pop. induction d as [|[k0 v0] d IH]; [done|]. cbn [fmap list_fmap fst].
  intros [Hk Hn]%NoDup_cons. rewrite filter_cons. case_decide; [|auto]. cbn. constructor; [|auto].
  intros (p & -> & [_ Hp]%list_elem_of_filter)%list_elem_of_fmap. apply Hk.
  by apply (list_elem_of_fmap_2 fst).
Qed.

End Dict.
#[export] Hint Resolve dict_set_NoDup dict_pop_NoDup : apex.

Lemma dict_set_fresh {K V} `{EqDecision K} (k : K) (v : V) (d : dict K V) :
  k ∉ d.*1 -> dict_set k v d = d ++ [(k, v)].
Proof.
  induction d as [|[k' v'] d IH]; [done|]. cbn. intros [Hk Hd]%not_elem_of_cons.
  rewrite decide_False by done. by rewrite IH.
Qed.

(** Adding items under new and different keys appends them. *)
Lemma dict_fold_fresh {K V} `{EqDecision K} (batch base : dict K V) :
  NoDup (base ++ batch).*1 ->
  foldl (fun d kv => dict_set kv.1 kv.2 d) base batch = base ++ batch.
Proof.
  revert base. induction batch as [|[k v] batch IH]; intros base Hn; [by rewrite app_nil_r|].
  cbn. assert (Hk : k ∉ base.*1).
  { rewrite fmap_app in Hn. apply NoDup_app in Hn as (_ & H & _). intros Hin. apply (H k Hin). left. }
  rewrite dict_set_fresh by done. rewrite IH by (by rewrite <- app_assoc). by rewrite <- app_assoc.
Qed.

Lemma NoDup_filter_keys {K V} (P : K * V -> Prop) `{!forall x, Decision (P x)} (d : dict K V) :
  NoDup d.*1 -> NoDup (filter P d).*1.
Proof.
  induction d as [|kv d IH]; [done|]. cbn [fmap list_fmap]. intros [Hk Hn]%NoDup_cons. rewrite filter_cons.
  case_decide; [|by apply IH]. cbn. constructor; [|by apply IH].
  intros (kv' & Heq & [_ Hin]%list_elem_of_filter)%list_elem_of_fmap. apply Hk. rewrite Heq.
  by apply (list_elem_of_fmap_2 fst).
Qed.

(** ** Grouping *)

(** [grouped[f(x)].append(x)] over a [defaultdict(list)]. *)
Section Group.
Context {K A : Type} `{EqDecision K} (f : A -> K).

Definition dict_append (k : K) (x : A) (d : dict K (list A)) : dict K (list A) :=
  dict_set k (default [] (dict_get k d) ++ [x]) d.

Definition group_by (l : list A) : dict K (list A) :=
  fold_left (fun d x => dict_append (f x) x d) l [].

Lemma group_by_snoc l x : group_by (l ++ [x]) = dict_append (f x) x (group_by l).
Proof. unfold group_by. by rewrite fold_left_app. Qed.

(** [grouped.get(k, [])] is the sublist with that key, in order. *)
Lemma group_by_get k l : default [] (dict_get k (group_by l)) = filter (fun x => f x = k) l.
Proof.
  induction l as [|x l IH] using rev_ind; [done|].
  rewrite group_by_snoc, filter_app. unfold dict_append. rewrite dict_get_set, filter_cons, filter_nil.
  destruct (decide (k = f x)) as [->|Hk].
  - cbn. rewrite IH. by rewrite decide_True.
  - rewrite IH, decide_False by congruence. by rewrite app_nil_r.
Qed.

Lemma group_by_NoDup l : NoDup (group_by l).*1.
Proof.
  induction l as [|x l IH] using rev_ind; [constructor|]. rewrite group_by_snoc. by apply dict_set_NoDup.
Qed.

Lemma group_by_keys k l : k ∈ (group_by l).*1 <-> exists x, x ∈ l /\ f x = k.
Proof.
  induction l as [|x l IH] using rev_ind; [set_solver|].
  rewrite group_by_snoc. unfold dict_append. rewrite dict_set_keys.
  destruct (decide (f x ∈ (group_by l).*1)) as [Hx|Hx]; rewrite ?elem_of_app, IH; set_solver.
Qed.

End Group.

(** ** Maxima, minima and sums *)

(** [max(x, *l)] and [min(x, *l)] keep the first extremum. *)
Definition dec_maximum (x : Decimal) (l : list Decimal) : Decimal := fold_left dec_max l x.
Definition dec_minimum (x : Decimal) (l : list Decimal) : Decimal := fold_left dec_min l x.
Definition z_sum (l : list Z) : Z := fold_left Z.add l 0.

Lemma dec_max_trans_ub x y z : (x <= y)%Qc -> (x <= dec_max y z)%Qc.
Proof. dec_unfold; dec_order. Qed.

Lemma dec_min_trans_lb x y z : (y <= x)%Qc -> (dec_min y z <= x)%Qc.
Proof. dec_unfold; dec_order. Qed.

Lemma dec_maximum_spec x l :
  dec_maximum x l ∈ x :: l /\ Forall (fun y => (y <= dec_maximum x l)%Qc) (x :: l).
Proof.
  unfold dec_maximum. induction l as [|y l [IH1 IH2]] using rev_ind; [split; [left|repeat constructor; apply Qcle_refl]|].
  rewrite fold_left_app. cbn. split.
  - destruct (dec_max_case (fold_left dec_max l x) y) as [->| ->]; set_solver.
  - rewrite app_comm_cons. apply Forall_app. split; [|repeat constructor; auto with apex].
    eapply Forall_impl; [exact IH2|]. intros a. apply dec_max_trans_ub.
Qed.

Lemma dec_minimum_spec x l :
  dec_minimum x l ∈ x :: l /\ Forall (fun y => (dec_minimum x l <= y)%Qc) (x :: l).
Proof.
  unfold dec_minimum. induction l as [|y l [IH1 IH2]] using rev_ind; [split; [left|repeat constructor; apply Qcle_refl]|].
  rewrite fold_left_app. cbn. split.
  - destruct (dec_min_case (fold_left dec_min l x) y) as [->| ->]; set_solver.
  - rewrite app_comm_cons. apply Forall_app. split; [|repeat constructor; auto with apex].
    eapply Forall_impl; [exact IH2|]. intros a. apply dec_min_trans_lb.
Qed.

Lemma z_sum_cons x l : z_sum (x :: l) = x + z_sum l.
Proof.
  unfold z_sum. cbn. assert (forall a, fold_left Z.add l a = a + fold_left Z.add l 0) as H.
  { induction l as [|y l IH]; intros a; cbn; [lia|]. rewrite IH, (IH (0 + y)%Z). lia. }
  rewrite H. lia.
Qed.

Lemma z_sum_nonneg l : Forall (fun x => 0 <= x) l -> 0 <= z_sum l.
Proof.
  unfold z_sum. intros H. assert (forall a, 0 <= a -> 0 <= fold_left Z.add l a) as Hg; [|by apply Hg].
  induction H as [|x l Hx H IH]; intros a Ha; cbn; [done|]. apply IH. lia.
Qed.

(** ** Last elements *)

Lemma last_cons_default {A} (x : A) l d : List.last (x :: l) d = List.last l x.
Proof.
  revert x d. induction l as [|y l IH]; intros x d; [done|].
  change (List.last (y :: l) d = List.last (y :: l) x). by rewrite (IH y d), (IH y x).
Qed.

Lemma last_default {A} (x : A) l : last (x :: l) = Some (List.last l x).
Proof.
  revert x. induction l as [|y l IH]; intros x; [done|].
  change (last (y :: l) = Some (List.last (y :: l) x)). by rewrite IH, last_cons_default.
Qed.

Lemma last_fmap_default {A B} (f : A -> B) (l : list A) x :
  f (List.last l x) = List.last (f <$> l) (f x).
Proof.
  revert x. induction l as [|y l IH]; intros x; [done|].
  rewrite fmap_cons, !last_cons_default. apply IH.
Qed.

(** ** Sorting by a text *)

Lemma py_sorted_fmap {A B} (f : A -> B) (leb : A -> A -> bool) (leb' : B -> B -> bool) l :
  (forall x y, leb' (f x) (f y) = leb x y) -> f <$> py_sorted leb l = py_sorted leb' (f <$> l).
Proof.
  intros Hf. induction l as [|x l IH]; [done|]. cbn. rewrite <- IH.
  generalize (py_sorted leb l). intros m. induction m as [|y m IHm]; [done|]. cbn. rewrite Hf.
  destruct (leb x y); [done|]. cbn. by rewrite <- IHm.
Qed.

Lemma keyed_sorted {A} (f : A -> string) l :
  StronglySorted (fun a b => String.leb (f a) (f b) = true)
    (py_sorted (fun a b => String.leb (f a) (f b)) l).
Proof. apply py_sorted_sorted; [intros; apply string_leb_total|intros x y z; apply string_leb_trans]. Qed.

Lemma string_sorted l : StronglySorted (fun a b => String.leb a b = true) (py_sorted String.leb l).
Proof. apply (keyed_sorted id). Qed.

(** Order of tuples of strings of one length. *)
Fixpoint strings_leb (xs ys : list string) : bool :=
  match xs, ys with
  | x :: xs, y :: ys => if bool_decide (x = y) then strings_leb xs ys else String.leb x y
  | [], _ => true
  | _ :: _, [] => false
  end.

Lemma strings_leb_total xs ys : strings_leb xs ys = true \/ strings_leb ys xs = true.
Proof.
  revert ys. induction xs as [|x xs IH]; intros [|y ys]; cbn; auto.
  destruct (decide (x = y)) as [->|Hn].
  - rewrite !(bool_decide_true (y = y)) by done. apply IH.
  - rewrite !bool_decide_false by congruence. apply string_leb_total.
Qed.

Lemma strings_leb_trans xs ys zs :
  strings_leb xs ys = true -> strings_leb ys zs = true -> strings_leb xs zs = true.
Proof.
  revert ys zs. induction xs as [|x xs IH]; intros [|y ys] [|z zs]; cbn; try done.
  repeat case_bool_decide; subst; try done.
  - apply IH.
  - intros H1 H2. exfalso. apply H. by apply String.leb_antisym.
  - apply string_leb_trans.
Qed.

Lemma strings_leb_antisym xs ys : length xs = length ys ->
  strings_leb xs ys = true -> strings_leb ys xs = true -> xs = ys.
Proof.
  revert ys. induction xs as [|x xs IH]; intros [|y ys]; cbn; try done. intros [= Hl].
  destruct (decide (x = y)) as [->|Hn].
  - rewrite !(bool_decide_true (y = y)) by done. intros H1 H2. f_equal. by apply IH.
  - rewrite !bool_decide_false by congruence. intros H1 H2. destruct Hn. by apply String.leb_antisym.
Qed.

(** When no two elements share a key the input's order does not matter. *)
Lemma keyed_sorted_unique {A} (f : A -> string) l1 l2 :
  (forall x y, x ∈ l1 -> y ∈ l1 -> f x = f y -> x = y) -> l1 ≡ₚ l2 ->
  py_sorted (fun a b => String.leb (f a) (f b)) l1 = py_sorted (fun a b => String.leb (f a) (f b)) l2.
Proof.
  intros Hf. apply py_sorted_unique;
    [intros; apply string_leb_total|intros x y z; apply string_leb_trans|].
  intros x y Hx Hy H1 H2. apply Hf; [done|done|]. by apply String.leb_antisym.
Qed.

Lemma string_sorted_unique l1 l2 : l1 ≡ₚ l2 -> py_sorted String.leb l1 = py_sorted String.leb l2.
Proof. by apply (keyed_sorted_unique id). Qed.

Lemma NoDup_fmap_eq {A B} (f : A -> B) l x y : NoDup (f <$> l) -> x ∈ l -> y ∈ l -> f x = f y -> x = y.
Proof.
  induction l as [|z l IH]; [set_solver|]. rewrite fmap_cons, NoDup_cons. intros [Hz Hn] Hx Hy Heq.
  apply elem_of_cons in Hx as [->|Hx]; apply elem_of_cons in Hy as [->|Hy]; [done| | |by apply IH];
    exfalso; apply Hz, list_elem_of_fmap; eauto.
Qed.
