(* ===== verification/DecimalContext.v ===== *)
(** Decimal arithmetic under a context of 28 significant digits with
    [ROUND_HALF_EVEN], Python's default context and the [localcontext(prec=28)]
    of the strategy calculators: every operation returns the exact value rounded.
    The exponent limits of the context (a million digits) are not modelled.

    The lemmas are the ones numerical code rests on: rounding is monotone, exact
    on representable values, keeps the sign, and moves a value by at most
    5e-28 of its size. *)
From Stdlib Require Import Qpower Qabs Qround.
From S2P Require Import Prelude.

Local Open Scope Z_scope.

(** * Definitions *)

(** [10 ** e], also for negative [e]. *)
Definition pow10 (e : Z) : Q := Qpower 10 e.

(** The number of decimal digits of a positive number. *)
Fixpoint digits_fuel (fuel : nat) (n : Z) : Z :=
  match fuel with
  | O => 0
  | S fuel => if n <=? 0 then 0 else 1 + digits_fuel fuel (n / 10)
  end.

Definition digits (p : positive) : Z := digits_fuel (Pos.size_nat p) (Zpos p).

(** [Decimal.adjusted()] of a value: the exponent of its first digit. *)
Definition adjusted (q : Q) : Z :=
  match Qnum q with
  | Z0 => 0
  | Zpos n | Zneg n =>
      let k := digits n - digits (Qden q) in
      if Qle_bool (pow10 k) (Qabs q) then k else k - 1
  end.

(** [ROUND_HALF_EVEN] to an integer. *)
Definition round_half_even (s : Q) : Z :=
  let q := Qnum s / QDen s in
  let r := Qnum s mod QDen s in
  if 2 * r <? QDen s then q
  else if QDen s <? 2 * r then q + 1
  else if Z.even q then q else q + 1.

(** The [prec] attribute of the context. *)
Definition prec : Z := 28.

(** Rounding a value to the context. *)
Definition ctx_round (x : Decimal) : Decimal :=
  let e := adjusted x - (prec - 1) in
  Q2Qc (inject_Z (round_half_even (x / pow10 e)) * pow10 e).

(** [a + b], [a - b], [a * b], [a / b], [abs(a)] in the context. *)
Definition ctx_add (a b : Decimal) : Decimal := ctx_round (a + b)%Qc.
Definition ctx_sub (a b : Decimal) : Decimal := ctx_round (a - b)%Qc.
Definition ctx_mul (a b : Decimal) : Decimal := ctx_round (a * b)%Qc.
Definition ctx_div (a b : Decimal) : result Decimal :=
  _ ← raise_if (dec_eqb b (dec 0 0)) ArithmeticError; Ok (ctx_round (a / b)%Qc).
Definition dec_abs (a : Decimal) : Decimal := if dec_ltb a (dec 0 0) then (- a)%Qc else a.
Definition ctx_abs (a : Decimal) : Decimal := ctx_round (dec_abs a).

(** A value of at most 28 significant digits. *)
Definition representable (x : Decimal) : Prop :=
  exists m e, (this x == inject_Z m * pow10 e)%Q /\ Z.abs m < 10 ^ prec.

(** * Powers of ten *)

Lemma pow10_pos e : (0 < pow10 e)%Q.
Proof. apply Qpower_0_lt. reflexivity. Qed.

Lemma pow10_add a b : (pow10 (a + b) == pow10 a * pow10 b)%Q.
Proof. apply Qpower_plus. discriminate. Qed.

Lemma pow10_le a b : a <= b -> (pow10 a <= pow10 b)%Q.
Proof. intros. apply Qpower_le_compat_l; [done|discriminate]. Qed.

Lemma pow10_lt a b : a < b -> (pow10 a < pow10 b)%Q.
Proof. intros. by apply Qpower_lt_compat_l. Qed.

Lemma pow10_lt_inv a b : (pow10 a < pow10 b)%Q -> a < b.
Proof.
  intros H. destruct (Z_lt_le_dec a b) as [|Hle%pow10_le]; [done|lra].
Qed.

Lemma pow10_Z e : 0 <= e -> (pow10 e == inject_Z (10 ^ e))%Q.
Proof. intros. unfold pow10. rewrite Zpower_Qpower by done. reflexivity. Qed.

Lemma pow10_split a b : (pow10 a == pow10 (a - b) * pow10 b)%Q.
Proof. rewrite <- pow10_add. by replace (a - b + b) with a by lia. Qed.

(** * The position of the first digit *)

Lemma digits_fuel_spec fuel n : 0 < n -> n < 2 ^ Z.of_nat fuel ->
  0 < digits_fuel fuel n /\ 10 ^ (digits_fuel fuel n - 1) <= n < 10 ^ digits_fuel fuel n.
Proof.
  revert n. induction fuel as [|fuel IH]; intros n Hn Hlt; [cbn in Hlt; lia|].
  cbn [digits_fuel]. destruct (Z.leb_spec n 0); [lia|].
  rewrite Nat2Z.inj_succ, Z.pow_succ_r in Hlt by lia.
  destruct (Z_lt_le_dec n 10) as [Hsmall|Hbig].
  - rewrite Z.div_small by lia. destruct fuel; cbn; lia.
  - pose proof (Z.div_mod n 10 ltac:(lia)) as Hdm. pose proof (Z.mod_pos_bound n 10 ltac:(lia)).
    destruct (IH (n / 10)) as (Hpos & Hlo & Hhi); [lia|lia|].
    set (k := digits_fuel fuel (n / 10)) in *.
    split; [lia|]. replace (1 + k - 1) with (1 + (k - 1)) by lia.
    rewrite !Z.pow_add_r by lia. lia.
Qed.

Lemma digits_spec p : 0 < digits p /\ 10 ^ (digits p - 1) <= Zpos p < 10 ^ digits p.
Proof.
  apply digits_fuel_spec; [lia|].
  pose proof (Pos.size_gt p) as H. apply Pos2Z.pos_lt_pos in H.
  rewrite Pos2Z.inj_pow in H. replace (Z.of_nat (Pos.size_nat p)) with (Zpos (Pos.size p)); [done|].
  clear H. induction p; cbn [Pos.size Pos.size_nat]; rewrite ?Nat2Z.inj_succ; lia.
Qed.

(** The value of a fraction of two positives lies within a decade of the
    difference of their digit counts. *)
Lemma ratio_bounds n d : let k := digits n - digits d in
  (pow10 (k - 1) < Zpos n # d /\ Zpos n # d < pow10 (k + 1))%Q.
Proof.
  cbn zeta. destruct (digits_spec n) as (Hn & Hnl & Hnu), (digits_spec d) as (Hd & Hdl & Hdu).
  assert (Hq : (Zpos n # d == inject_Z (Zpos n) / inject_Z (Zpos d))%Q)
    by (unfold Qdiv, Qinv, inject_Z, Qmult, Qeq; cbn; lia).
  assert (Hd0 : (0 < inject_Z (Zpos d))%Q) by reflexivity.
  rewrite Hq. split.
  - apply Qlt_shift_div_l; [done|].
    apply Qlt_le_trans with (pow10 (digits n - digits d - 1) * pow10 (digits d))%Q.
    + apply Qmult_lt_l; [apply pow10_pos|]. rewrite pow10_Z by lia. by rewrite <- Zlt_Qlt.
    + rewrite <- pow10_add.
      replace (digits n - digits d - 1 + digits d) with (digits n - 1) by lia.
      rewrite pow10_Z by lia. by rewrite <- Zle_Qle.
  - apply Qlt_shift_div_r; [done|].
    apply Qlt_le_trans with (pow10 (digits n - digits d + 1) * pow10 (digits d - 1))%Q.
    + rewrite <- pow10_add.
      replace (digits n - digits d + 1 + (digits d - 1)) with (digits n) by lia.
      rewrite pow10_Z by lia. by rewrite <- Zlt_Qlt.
    + apply Qmult_le_l; [apply pow10_pos|]. rewrite pow10_Z by lia. by rewrite <- Zle_Qle.
Qed.

Lemma adjusted_spec q : ~ (q == 0)%Q ->
  (pow10 (adjusted q) <= Qabs q /\ Qabs q < pow10 (adjusted q + 1))%Q.
Proof.
  intros Hq. destruct q as [[|n|n] d]; [by exfalso; apply Hq| |];
    cbn [adjusted Qnum Qden Qabs]; unfold Z.abs; pose proof (ratio_bounds n d) as [Hlo Hhi];
    set (k := digits n - digits d) in *;
    (destruct (Qle_bool (pow10 k) (Zpos n # d)) eqn:E;
      [apply Qle_bool_iff in E; by split|];
      assert (~ (pow10 k <= Zpos n # d))%Q by (rewrite <- Qle_bool_iff, E; discriminate);
      replace (k - 1 + 1) with k by lia; split; lra).
Qed.

(** * Rounding to an integer *)

(** The integer nearest to [s], the even one of two. *)
Definition nearest_even (s : Q) (m : Z) : Prop :=
  ((Qabs (s - inject_Z m) < 1 # 2)
   \/ (Qabs (s - inject_Z m) == 1 # 2 /\ Z.even m = true))%Q.

Lemma nearest_even_near s m : nearest_even s m -> (Qabs (s - inject_Z m) <= 1 # 2)%Q.
Proof. intros [|[]]; lra. Qed.

Lemma nearest_even_le s t m n : (s <= t)%Q -> nearest_even s m -> nearest_even t n -> m <= n.
Proof.
  intros Hst Hm Hn. destruct (Z_le_gt_dec m n) as [|Hgt]; [done|exfalso].
  pose proof (nearest_even_near _ _ Hm) as [Hms _]%Qabs_Qle_condition.
  pose proof (nearest_even_near _ _ Hn) as [_ Hnt]%Qabs_Qle_condition.
  assert (Hle : (inject_Z n + 1 <= inject_Z m)%Q).
  { change 1%Q with (inject_Z 1). rewrite <- inject_Z_plus, <- Zle_Qle. lia. }
  destruct Hm as [[? _]%Qabs_Qlt_condition|[_ Hm]]; [lra|].
  destruct Hn as [[_ ?]%Qabs_Qlt_condition|[_ Hn]]; [lra|].
  assert (Heq : m = n + 1).
  { assert ((inject_Z m == inject_Z (n + 1))%Q) as H
      by (rewrite inject_Z_plus; change (inject_Z 1) with 1%Q; lra).
    unfold Qeq in H. cbn in H. lia. }
  rewrite Heq, Z.even_add, Hn in Hm. discriminate.
Qed.

Lemma round_half_even_spec s : nearest_even s (round_half_even s).
Proof.
  unfold nearest_even. set (q := Qnum s / QDen s). set (r := Qnum s mod QDen s).
  assert (Hs : (s == inject_Z q + (r # Qden s))%Q).
  { unfold Qeq. cbn. rewrite Pos2Z.inj_mul.
    pose proof (Z.div_mod (Qnum s) (QDen s) ltac:(lia)). fold q r in H. nia. }
  pose proof (Z.mod_pos_bound (Qnum s) (QDen s) ltac:(lia)) as Hr. fold r in Hr.
  assert (Hr0 : (0 <= r # Qden s)%Q) by (unfold Qle; cbn; lia).
  assert (Hr1 : (r # Qden s < 1)%Q) by (unfold Qlt; cbn; lia).
  unfold round_half_even. fold q r.
  assert (Hq1 : (inject_Z (q + 1) == inject_Z q + 1)%Q) by (rewrite inject_Z_plus; reflexivity).
  destruct (Z.ltb_spec (2 * r) (QDen s)) as [H1|H1]; [|destruct (Z.ltb_spec (QDen s) (2 * r)) as [H2|H2]].
  - left. assert ((r # Qden s < 1 # 2)%Q) by (unfold Qlt; cbn; lia).
    apply Qabs_Qlt_condition. rewrite Hs. lra.
  - left. assert ((1 # 2 < r # Qden s)%Q) by (unfold Qlt; cbn; lia).
    apply Qabs_Qlt_condition. rewrite Hq1, Hs. lra.
  - right. assert (Hhalf : (r # Qden s == 1 # 2)%Q) by (unfold Qeq; cbn; lia).
    destruct (Z.even q) eqn:E; split; try done.
    + rewrite Qabs_pos; rewrite Hs; lra.
    + rewrite Qabs_neg; rewrite Hq1, Hs; lra.
    + by rewrite Z.even_add, E.
Qed.

Lemma round_half_even_near s : (Qabs (s - inject_Z (round_half_even s)) <= 1 # 2)%Q.
Proof. apply nearest_even_near, round_half_even_spec. Qed.

Lemma round_half_even_le s t : (s <= t)%Q -> round_half_even s <= round_half_even t.
Proof. intros. eapply nearest_even_le; eauto using round_half_even_spec. Qed.

Lemma round_half_even_unique s m : nearest_even s m -> round_half_even s = m.
Proof.
  intros. apply Z.le_antisymm; eapply nearest_even_le; eauto using round_half_even_spec, Qle_refl.
Qed.

#[global] Instance round_half_even_proper : Proper (Qeq ==> eq) round_half_even.
Proof.
  intros s t H. apply Z.le_antisymm; apply round_half_even_le; rewrite H; apply Qle_refl.
Qed.

Lemma round_half_even_Z m : round_half_even (inject_Z m) = m.
Proof.
  unfold round_half_even. cbn. rewrite Z.div_1_r, Z.mod_1_r. reflexivity.
Qed.

(** * Rounding to the context *)

(** Half a unit of the 28th digit, relative to the value. *)
Definition unit_roundoff : Q := 5 # 10000000000000000000000000000.

Lemma ctx_round_value (x : Decimal) : let e := adjusted x - (prec - 1) in
  (this (ctx_round x) == inject_Z (round_half_even (this x / pow10 e)) * pow10 e)%Q.
Proof. apply Qred_correct. Qed.

Lemma scaled_back (x : Q) e : (x == x / pow10 e * pow10 e)%Q.
Proof. field. pose proof (pow10_pos e). lra. Qed.

Lemma round_scaled_0 (x : Q) e : (x == 0)%Q ->
  (inject_Z (round_half_even (x / pow10 e)) * pow10 e == 0)%Q.
Proof.
  intros H. assert (Hs : (x / pow10 e == inject_Z 0)%Q).
  { unfold Qdiv. rewrite H. apply Qmult_0_l. }
  rewrite Hs, round_half_even_Z. apply Qmult_0_l.
Qed.

Lemma ctx_round_error x : (Qabs (this (ctx_round x) - this x) <= unit_roundoff * Qabs (this x))%Q.
Proof.
  rewrite ctx_round_value. set (e := adjusted x - (prec - 1)).
  destruct (Qeq_dec (this x) 0) as [H0|Hn].
  { rewrite round_scaled_0, H0 by done. done. }
  destruct (adjusted_spec _ Hn) as [Hlo _].
  pose proof (pow10_pos e) as He.
  assert (Hscale : (inject_Z (round_half_even (this x / pow10 e)) * pow10 e - this x
    == - ((this x / pow10 e - inject_Z (round_half_even (this x / pow10 e))) * pow10 e))%Q)
    by (field; lra).
  rewrite Hscale, Qabs_opp, Qabs_Qmult, (Qabs_pos (pow10 e)) by lra.
  apply Qle_trans with ((1 # 2) * pow10 e)%Q.
  { apply Qmult_le_compat_r; [apply round_half_even_near|lra]. }
  assert (Hsplit : (pow10 (adjusted x) == inject_Z (10 ^ 27) * pow10 e)%Q).
  { rewrite (pow10_split _ e). unfold e.
    replace (adjusted x - (adjusted x - (prec - 1))) with 27 by (unfold prec; lia).
    by rewrite pow10_Z. }
  rewrite Hsplit in Hlo. unfold unit_roundoff.
  apply Qle_trans with ((5 # 10000000000000000000000000000) * (inject_Z (10 ^ 27) * pow10 e))%Q.
  - rewrite Qmult_assoc. apply Qmult_le_compat_r; [by vm_compute|lra].
  - apply Qmult_le_l; [by vm_compute|]. exact Hlo.
Qed.

(** The form the linear solver uses. *)
Lemma ctx_round_bounds x :
  (this x - unit_roundoff * Qabs (this x) <= this (ctx_round x)
   /\ this (ctx_round x) <= this x + unit_roundoff * Qabs (this x))%Q.
Proof. pose proof (ctx_round_error x) as [? ?]%Qabs_Qle_condition. split; lra. Qed.

Lemma ctx_round_nonneg x : (0 <= x)%Qc -> (0 <= ctx_round x)%Qc.
Proof.
  unfold Qcle. change (this 0%Qc) with 0%Q. intros H. destruct (ctx_round_bounds x) as [Hlo _].
  rewrite Qabs_pos in Hlo by done. unfold unit_roundoff in Hlo. lra.
Qed.

Lemma ctx_round_pos x : (0 < x)%Qc -> (0 < ctx_round x)%Qc.
Proof.
  unfold Qclt. change (this 0%Qc) with 0%Q. intros H. destruct (ctx_round_bounds x) as [Hlo _].
  rewrite Qabs_pos in Hlo by lra. unfold unit_roundoff in Hlo. lra.
Qed.

Lemma ctx_round_0 : ctx_round (dec 0 0) = dec 0 0.
Proof. vm_compute. by apply Qc_is_canon. Qed.

#[export] Hint Resolve ctx_round_nonneg ctx_round_pos : apex.

(** ** Exactness *)

Lemma ctx_round_exact x : representable x -> ctx_round x = x.
Proof.
  intros (m & e & Hx & Hm). apply Qc_is_canon. rewrite ctx_round_value.
  set (e' := adjusted x - (prec - 1)).
  destruct (Qeq_dec (this x) 0) as [H0|Hn].
  { by rewrite round_scaled_0. }
  assert (Hle : e' <= e).
  { destruct (adjusted_spec _ Hn) as [Hlo _].
    enough (adjusted x < prec + e) by (unfold e'; lia).
    apply pow10_lt_inv. apply Qle_lt_trans with (Qabs x); [done|].
    rewrite Hx, Qabs_Qmult, (Qabs_pos (pow10 e)), pow10_add by (pose proof (pow10_pos e); lra).
    apply Qmult_lt_r; [apply pow10_pos|].
    rewrite pow10_Z by (unfold prec; lia). change (Qabs (inject_Z m)) with (inject_Z (Z.abs m)).
    by rewrite <- Zlt_Qlt. }
  pose proof (pow10_pos e') as He'.
  assert (Hs : (this x / pow10 e' == inject_Z (m * 10 ^ (e - e')))%Q).
  { rewrite Hx, (pow10_split e e'), pow10_Z, inject_Z_mult by lia. field. lra. }
  rewrite Hs, round_half_even_Z, <- Hs. symmetry. apply scaled_back.
Qed.

Lemma round_half_even_abs s n : (Qabs s < inject_Z n)%Q -> Z.abs (round_half_even s) <= n.
Proof.
  intros [Hlo Hhi]%Qabs_Qlt_condition.
  assert (round_half_even s <= n) by (rewrite <- (round_half_even_Z n); apply round_half_even_le; lra).
  assert (- n <= round_half_even s)
    by (rewrite <- (round_half_even_Z (- n)); apply round_half_even_le; rewrite inject_Z_opp; lra).
  lia.
Qed.

Lemma ctx_round_representable x : representable (ctx_round x).
Proof.
  pose proof (ctx_round_value x) as Hv. cbn zeta in Hv. set (e := adjusted x - (prec - 1)) in *.
  set (m := round_half_even (this x / pow10 e)) in *.
  assert (Hm : Z.abs m <= 10 ^ prec).
  { apply round_half_even_abs. destruct (Qeq_dec (this x) 0) as [H0|Hn].
    { rewrite H0. reflexivity. }
    destruct (adjusted_spec _ Hn) as [_ Hhi]. pose proof (pow10_pos e).
    unfold Qdiv. rewrite Qabs_Qmult, (Qabs_pos (/ pow10 e)) by (apply Qinv_le_0_compat; lra).
    apply Qlt_shift_div_r; [done|]. rewrite <- pow10_Z, <- pow10_add by (unfold prec; lia).
    by replace (prec + e) with (adjusted x + 1) by (unfold e; lia). }
  destruct (Z.eq_dec (Z.abs m) (10 ^ prec)) as [Heq|Hne].
  - exists (m / 10), (e + 1).
    assert (Hdiv : m = m / 10 * 10).
    { unfold prec in Heq. change (10 ^ 28) with (10 ^ 27 * 10) in Heq.
      destruct (Z.abs_eq_or_opp m) as [E|E]; rewrite E in Heq.
      - rewrite Heq, Z.div_mul by lia. lia.
      - replace m with (- (10 ^ 27) * 10) by lia. rewrite Z.div_mul by lia. lia. }
    split; [|assert (0 < 10 ^ prec) by reflexivity; lia].
    rewrite Hv, pow10_add, Hdiv at 1. rewrite inject_Z_mult.
    change (pow10 1) with (inject_Z 10). ring.
  - exists m, e. split; [done|lia].
Qed.

Lemma representable_shift x k : representable x -> representable (x * Q2Qc (pow10 k))%Qc.
Proof.
  intros (m & e & Hx & Hm). exists m, (e + k). split; [|done].
  cbn. rewrite !Qred_correct, Hx, pow10_add. ring.
Qed.

Lemma ctx_round_idem x : ctx_round (ctx_round x) = ctx_round x.
Proof. apply ctx_round_exact, ctx_round_representable. Qed.

(** Multiplying a rounded value by a hundred loses nothing. *)
Lemma ctx_mul_hundred x : ctx_mul (ctx_round x) (dec 100 0) = (ctx_round x * dec 100 0)%Qc.
Proof.
  apply ctx_round_exact.
  replace (dec 100 0) with (Q2Qc (pow10 2)) by (by apply Qc_is_canon).
  apply representable_shift, ctx_round_representable.
Qed.

(** ** Symmetry and monotonicity *)

Lemma round_half_even_opp s : round_half_even (- s) = - round_half_even s.
Proof.
  apply round_half_even_unique. unfold nearest_even.
  rewrite inject_Z_opp, Z.even_opp.
  assert (H : (- s - - inject_Z (round_half_even s) == - (s - inject_Z (round_half_even s)))%Q) by ring.
  rewrite H, Qabs_opp. apply round_half_even_spec.
Qed.

Lemma this_opp (x : Qc) : (this (- x)%Qc == - this x)%Q.
Proof. apply Qred_correct. Qed.

Lemma ctx_round_opp x : ctx_round (- x)%Qc = (- ctx_round x)%Qc.
Proof.
  assert (Hv : this (- x)%Qc = (- this x)%Q) by (destruct x as [q Hq]; cbn; by rewrite Qred_opp, Hq).
  apply Qc_is_canon. change (this (- ctx_round x)%Qc) with (Qred (- this (ctx_round x))).
  rewrite Qred_correct, !ctx_round_value, Hv.
  replace (adjusted (- this x)) with (adjusted (this x))
    by (destruct (this x) as [[|n|n] d]; reflexivity).
  set (e := adjusted x - (prec - 1)).
  assert (Hd : (- this x / pow10 e == - (this x / pow10 e))%Q) by (field; pose proof (pow10_pos e); lra).
  rewrite Hd, round_half_even_opp, inject_Z_opp. ring.
Qed.

(** A positive value stays within its decade. *)
Lemma ctx_round_decade x : (0 < this x)%Q ->
  (pow10 (adjusted x) <= this (ctx_round x) /\ this (ctx_round x) <= pow10 (adjusted x + 1))%Q.
Proof.
  intros Hx. destruct (adjusted_spec (this x)) as [Hlo Hhi]; [lra|].
  rewrite (Qabs_pos (this x)) in Hlo, Hhi by lra.
  rewrite ctx_round_value. set (e := adjusted x - (prec - 1)). pose proof (pow10_pos e) as He.
  rewrite (pow10_split (adjusted x) e), (pow10_split (adjusted x + 1) e).
  replace (adjusted x - e) with 27 by (unfold e, prec; lia).
  replace (adjusted x + 1 - e) with 28 by (unfold e, prec; lia).
  rewrite (pow10_Z 27), (pow10_Z 28) by lia.
  split; (apply Qmult_le_compat_r; [|lra]); rewrite <- Zle_Qle.
  - rewrite <- (round_half_even_Z (10 ^ 27)). apply round_half_even_le.
    apply Qle_shift_div_l; [done|]. rewrite <- pow10_Z, <- pow10_add by lia.
    by replace (27 + e) with (adjusted x) by (unfold e, prec; lia).
  - rewrite <- (round_half_even_Z (10 ^ 28)). apply round_half_even_le.
    apply Qle_shift_div_r; [done|]. rewrite <- pow10_Z, <- pow10_add by lia.
    replace (28 + e) with (adjusted x + 1) by (unfold e, prec; lia). lra.
Qed.

Lemma ctx_round_le_pos x y : (0 < this x)%Q -> (x <= y)%Qc -> (ctx_round x <= ctx_round y)%Qc.
Proof.
  unfold Qcle. intros Hx Hxy. assert (Hy : (0 < this y)%Q) by lra.
  destruct (adjusted_spec (this x)) as [Hxl Hxh]; [lra|].
  destruct (adjusted_spec (this y)) as [Hyl Hyh]; [lra|].
  rewrite (Qabs_pos (this x)) in Hxl, Hxh by lra. rewrite (Qabs_pos (this y)) in Hyl, Hyh by lra.
  assert (Hadj : adjusted x <= adjusted y).
  { enough (adjusted x < adjusted y + 1) by lia. apply pow10_lt_inv. lra. }
  destruct (Z.eq_dec (adjusted x) (adjusted y)) as [Heq|Hne].
  - rewrite !ctx_round_value, Heq. set (e := adjusted y - (prec - 1)). pose proof (pow10_pos e).
    apply Qmult_le_compat_r; [|lra]. rewrite <- Zle_Qle. apply round_half_even_le.
    unfold Qdiv. apply Qmult_le_compat_r; [done|]. apply Qinv_le_0_compat. lra.
  - destruct (ctx_round_decade x Hx) as [_ H1], (ctx_round_decade y Hy) as [H2 _].
    pose proof (pow10_le (adjusted x + 1) (adjusted y) ltac:(lia)). lra.
Qed.

Lemma ctx_round_mono x y : (x <= y)%Qc -> (ctx_round x <= ctx_round y)%Qc.
Proof.
  intros Hxy. destruct (Qlt_le_dec 0 (this x)) as [Hx|Hx]; [by apply ctx_round_le_pos|].
  assert (Hxn : (0 <= ctx_round (- x))%Qc).
  { apply ctx_round_nonneg. unfold Qcle. rewrite this_opp. change (this 0%Qc) with 0%Q. lra. }
  rewrite ctx_round_opp in Hxn. unfold Qcle in *. rewrite this_opp in Hxn.
  change (this 0%Qc) with 0%Q in Hxn.
  destruct (Qlt_le_dec (this y) 0) as [Hy|Hy].
  - assert (H : (ctx_round (- y) <= ctx_round (- x))%Qc)
      by (apply ctx_round_le_pos; unfold Qcle; rewrite !this_opp; lra).
    rewrite !ctx_round_opp in H. unfold Qcle in H. rewrite !this_opp in H. lra.
  - assert (Hyn : (0 <= ctx_round y)%Qc) by (by apply ctx_round_nonneg).
    unfold Qcle in Hyn. change (this 0%Qc) with 0%Q in Hyn. lra.
Qed.

(** [abs] after a subtraction is exact and symmetric. *)
Lemma dec_abs_value a : (this (dec_abs a) == Qabs (this a))%Q.
Proof.
  unfold dec_abs. change (dec 0 0) with 0%Qc. dec_unfold; unfold Qclt in *;
    change (this 0%Qc) with 0%Q in *.
  - rewrite this_opp, Qabs_neg by lra. done.
  - rewrite Qabs_pos by lra. done.
Qed.

Lemma dec_abs_opp a : dec_abs (- a)%Qc = dec_abs a.
Proof. apply Qc_is_canon. by rewrite !dec_abs_value, this_opp, Qabs_opp. Qed.

Lemma representable_abs x : representable x -> representable (dec_abs x).
Proof.
  unfold dec_abs. intros (m & e & Hx & Hm). destruct (dec_ltb x (dec 0 0)); [|by exists m, e].
  exists (- m), e. split; [|lia]. cbn. rewrite Qred_correct, Hx, inject_Z_opp. ring.
Qed.

Lemma ctx_abs_round x : ctx_abs (ctx_round x) = dec_abs (ctx_round x).
Proof. apply ctx_round_exact, representable_abs, ctx_round_representable. Qed.

(** * Rounding lemmas for numerical code *)

(** The constants of the calculators. *)
Definition TWO : Decimal := dec 2 0.
Definition THREE : Decimal := dec 3 0.
Definition HUNDRED : Decimal := dec 100 0.

Lemma this_add (a b : Qc) : (this (a + b)%Qc == this a + this b)%Q.
Proof. apply Qred_correct. Qed.
Lemma this_sub (a b : Qc) : (this (a - b)%Qc == this a - this b)%Q.
Proof. unfold Qcminus. rewrite this_add, this_opp. reflexivity. Qed.
Lemma this_mul (a b : Qc) : (this (a * b)%Qc == this a * this b)%Q.
Proof. apply Qred_correct. Qed.
Lemma this_div (a b : Qc) : (this (a / b)%Qc == this a / this b)%Q.
Proof. unfold Qcdiv. rewrite this_mul. cbn. rewrite Qred_correct. reflexivity. Qed.

Lemma div_two (a : Qc) : (this (a / TWO)%Qc == (1 # 2) * this a)%Q.
Proof. rewrite this_div. apply Qmult_comm. Qed.
Lemma div_three (a : Qc) : (this (a / THREE)%Qc == (1 # 3) * this a)%Q.
Proof. rewrite this_div. apply Qmult_comm. Qed.

(** Rounding a value of known size. *)
Lemma ctx_round_within x b : (Qabs (this x) <= b)%Q ->
  (this x - unit_roundoff * b <= this (ctx_round x)
   /\ this (ctx_round x) <= this x + unit_roundoff * b)%Q.
Proof.
  intros H. destruct (ctx_round_bounds x) as [Hlo Hhi].
  assert (unit_roundoff * Qabs (this x) <= unit_roundoff * b)%Q
    by (apply Qmult_le_l; [by vm_compute|done]).
  lra.
Qed.

Lemma abs_within (x b : Q) : (- b <= x)%Q -> (x <= b)%Q -> (Qabs x <= b)%Q.
Proof. intros. apply Qabs_Qle_condition. lra. Qed.

(** One rounding step on an expression of value [e] and size [b], with the
    relative error written out for the linear solver. *)
Lemma ctx_step x (e b : Q) : (this x == e)%Q -> (- b <= e)%Q -> (e <= b)%Q ->
  (e - (5 # 10000000000000000000000000000) * b <= this (ctx_round x)
   /\ this (ctx_round x) <= e + (5 # 10000000000000000000000000000) * b)%Q.
Proof.
  intros He H1 H2. pose proof (ctx_round_within x b) as H. rewrite He in H.
  apply H. by apply abs_within.
Qed.

Lemma ctx_div_ok a b : b <> dec 0 0 -> ctx_div a b = Ok (ctx_round (a / b)%Qc).
Proof. intros H. unfold ctx_div, dec_eqb. by rewrite bool_decide_false. Qed.

Lemma three_div a : ctx_div a THREE = Ok (ctx_round (a / THREE)%Qc).
Proof. apply ctx_div_ok. intros H%(f_equal this). vm_compute in H. discriminate. Qed.
Lemma two_div a : ctx_div a TWO = Ok (ctx_round (a / TWO)%Qc).
Proof. apply ctx_div_ok. intros H%(f_equal this). vm_compute in H. discriminate. Qed.

Lemma pos_nonzero (b : Qc) : (0 < this b)%Q -> b <> dec 0 0.
Proof. intros H ->. change (this (dec 0 0)) with 0%Q in H. lra. Qed.

Lemma dec_leb_0_pos (b : Qc) : (0 < this b)%Q -> dec_leb b (dec 0 0) = false.
Proof.
  intros H. unfold dec_leb. apply bool_decide_false. unfold Qcle.
  change (this (dec 0 0)) with 0%Q. lra.
Qed.
