(* ===== verification/PyTime.v ===== *)
(** Dates, times, instants and time zones as the source uses Python's
    [datetime] and [zoneinfo].

    Everything is an integer number of microseconds ([datetime]'s resolution):
    a UTC instant counts from the Unix epoch, a time of day from midnight, a
    naive exchange-local ("wall") datetime from midnight of 1970-01-01 on the
    local clock, a [timedelta] is a difference.  A [date] is its day number with
    1970-01-01 as 0.  Aware datetimes that carry the same [ZoneInfo] are compared
    and subtracted on the wall clock by Python, and adding a [timedelta] moves
    the wall clock; only [astimezone] consults the zone. *)
From S2P Require Import Prelude.

Local Open Scope Z_scope.

Abbreviation instant := Z (only parsing).
Abbreviation wall := Z (only parsing).
Abbreviation date := Z (only parsing).
Abbreviation time := Z (only parsing).
Abbreviation timedelta := Z (only parsing).

Definition us_per_second : Z := 1000000.
Definition us_per_minute : Z := 60 * us_per_second.
Definition us_per_day : Z := 86400 * us_per_second.

(** [time(h, m)] *)
Definition hm (h m : Z) : time := h * 60 * us_per_minute + m * us_per_minute.

(** [datetime.combine(d, t)] on the wall clock, and its two projections. *)
Definition combine (d : date) (t : time) : wall := d * us_per_day + t.
Definition wall_date (w : wall) : date := w / us_per_day.
Definition wall_time (w : wall) : time := w mod us_per_day.

(** [date.weekday()]: Monday is 0; 1970-01-01 was a Thursday. *)
Definition weekday (d : date) : Z := (d + 3) mod 7.

(** A time of day as [datetime.time] allows it. *)
Definition valid_time (t : time) : bool := (0 <=? t) && (t <? us_per_day).

(** A [datetime] argument before validation: naive, or aware with its instant. *)
Inductive pydatetime : Type :=
| Naive (w : wall)
| Aware (i : instant).

(** [zoneinfo.ZoneInfo]: the time-zone database is data outside the repository,
    so a zone is a parameter with the two conversions [astimezone] performs
    ([wall_to_utc] with [fold=0], the only fold the code builds). *)
Record ZoneInfo : Type := {
  zone_key : string;
  utc_to_wall : instant -> wall;
  wall_to_utc : wall -> instant;
}.

(** What the time-zone database documents for a zone without transitions, such
    as Asia/Kolkata (+05:30 since 1945): a constant offset both ways. *)
Class FixedOffset (tz : ZoneInfo) (offset : timedelta) : Prop := {
  fixed_to_wall : forall i, utc_to_wall tz i = i + offset;
  fixed_to_utc : forall w, wall_to_utc tz w = w - offset;
}.

(** [instant.astimezone(tz).date()] and [.time()] *)
Definition local_date (tz : ZoneInfo) (i : instant) : date := wall_date (utc_to_wall tz i).
Definition local_time (tz : ZoneInfo) (i : instant) : time := wall_time (utc_to_wall tz i).

(** The exchange zone of the deployment. *)
Definition kolkata : ZoneInfo := {|
  zone_key := "Asia/Kolkata";
  utc_to_wall := fun i => i + 19800 * us_per_second;
  wall_to_utc := fun w => w - 19800 * us_per_second;
|}.

#[global] Instance kolkata_fixed : FixedOffset kolkata (19800 * us_per_second).
Proof. by split. Qed.

(** * Lemmas *)

Lemma us_per_day_pos : 0 < us_per_day.
Proof. reflexivity. Qed.

Lemma wall_date_combine d t : valid_time t = true -> wall_date (combine d t) = d.
Proof.
  unfold valid_time, wall_date, combine. intros H. zbool. pose proof us_per_day_pos.
  rewrite Z.div_add_l by lia. rewrite Z.div_small by lia. lia.
Qed.

Lemma wall_time_combine d t : valid_time t = true -> wall_time (combine d t) = t.
Proof.
  unfold valid_time, wall_time, combine. intros H. zbool. pose proof us_per_day_pos.
  rewrite Z.add_comm, Z.mod_add by lia. by apply Z.mod_small.
Qed.

Lemma combine_date_time w : combine (wall_date w) (wall_time w) = w.
Proof.
  unfold combine, wall_date, wall_time. pose proof us_per_day_pos.
  pose proof (Z.div_mod w us_per_day). lia.
Qed.

Lemma wall_time_valid w : valid_time (wall_time w) = true.
Proof.
  unfold valid_time, wall_time. pose proof us_per_day_pos.
  pose proof (Z.mod_pos_bound w us_per_day). lia.
Qed.

Lemma utc_wall_roundtrip tz off `{!FixedOffset tz off} i :
  wall_to_utc tz (utc_to_wall tz i) = i.
Proof. rewrite fixed_to_wall, fixed_to_utc. lia. Qed.

Lemma wall_utc_roundtrip tz off `{!FixedOffset tz off} w :
  utc_to_wall tz (wall_to_utc tz w) = w.
Proof. rewrite fixed_to_wall, fixed_to_utc. lia. Qed.

#[export] Hint Resolve wall_time_valid us_per_day_pos : apex.
