(* ===== verification/PyDate.v ===== *)
(** Calendar dates: the year, month and day of a [date], [date.isoformat()] and
    the [YYYY-MM-DD] form of [date.fromisoformat].

    A [date] is a day number ([PyTime]); the civil calendar is computed from the
    position of the day in its 400-year era, with years starting in March.  The
    facts about one era are checked by evaluation, the others follow from the
    periodicity of the calendar. *)
From Stdlib Require Import Ascii.
From S2P Require Import Prelude PyTime.

Local Open Scope Z_scope.

(** * The civil calendar *)

Definition days_per_era : Z := 146097.
(** The day number of 0000-03-01 is [- era_origin]. *)
Definition era_origin : Z := 719468.

(** Year of the era, month and day of the [doe]-th day of an era. *)
Definition civil_of_doe (doe : Z) : Z * Z * Z :=
  let yoe := (doe - doe / 1460 + doe / 36524 - doe / 146096) / 365 in
  let doy := doe - (365 * yoe + yoe / 4 - yoe / 100) in
  let mp := (5 * doy + 2) / 153 in
  (yoe, if mp <? 10 then mp + 3 else mp - 9, doy - (153 * mp + 2) / 5 + 1).

(** The day of the era of a day given by its year of the era, month and day. *)
Definition doe_of_civil (yoe m d : Z) : Z :=
  let mp := if 2 <? m then m - 3 else m + 9 in
  365 * yoe + yoe / 4 - yoe / 100 + ((153 * mp + 2) / 5 + d - 1).

(** [(d.year, d.month, d.day)] *)
Definition civil (d : date) : Z * Z * Z :=
  let z := d + era_origin in
  let '(yoe, m, day) := civil_of_doe (z mod days_per_era) in
  (yoe + z / days_per_era * 400 + (if m <=? 2 then 1 else 0), m, day).

Definition days_of_civil (y m d : Z) : date :=
  let y := if m <=? 2 then y - 1 else y in
  y / 400 * days_per_era + doe_of_civil (y mod 400) m d - era_origin.

Definition is_leap (y : Z) : bool :=
  (y mod 4 =? 0) && (negb (y mod 100 =? 0) || (y mod 400 =? 0)).

Definition days_in_month (y m : Z) : Z :=
  if m =? 2 then if is_leap y then 29 else 28
  else if (m =? 4) || (m =? 6) || (m =? 9) || (m =? 11) then 30 else 31.

(** [date(y, m, d)] *)
Definition py_date (y m d : Z) : result date :=
  _ ← raise_if (negb ((1 <=? y) && (y <=? 9999))) (ValueError "year is out of range");
  _ ← raise_if (negb ((1 <=? m) && (m <=? 12))) (ValueError "month must be in 1..12");
  _ ← raise_if (negb ((1 <=? d) && (d <=? days_in_month y m)))
    (ValueError "day is out of range for month");
  Ok (days_of_civil y m d).

(** The days [datetime.date] can represent. *)
Definition date_ok (d : date) : bool :=
  let '(y, _, _) := civil d in (1 <=? y) && (y <=? 9999).

(** * Text *)

Definition digit (n : Z) : ascii := Ascii.ascii_of_nat (48 + Z.to_nat n).
Definition digit_value (c : ascii) : option Z :=
  let n := Z.of_nat (Ascii.nat_of_ascii c) - 48 in
  if (0 <=? n) && (n <=? 9) then Some n else None.

(** The decimal digits of [n], most significant first, padded to [width]. *)
Fixpoint zfill (width : nat) (n : Z) (suffix : string) : string :=
  match width with
  | O => suffix
  | S width => zfill width (n / 10) (String (digit (n mod 10)) suffix)
  end.

Definition isoformat (d : date) : string :=
  let '(y, m, day) := civil d in
  zfill 4 y (String "-" (zfill 2 m (String "-" (zfill 2 day "")))).

(** Reads [width] digits; [None] when there are fewer. *)
Fixpoint read_digits (width : nat) (acc : Z) (s : string) : option (Z * string) :=
  match width, s with
  | O, _ => Some (acc, s)
  | S width, String c s => v ← digit_value c; read_digits width (acc * 10 + v) s
  | S _, EmptyString => None
  end.

Definition read_dash (s : string) : option string :=
  match s with
  | String c s => if bool_decide (c = "-"%char) then Some s else None
  | EmptyString => None
  end.

Definition read_iso (s : string) : option (Z * Z * Z) :=
  '(y, s) ← read_digits 4 0 s; s ← read_dash s;
  '(m, s) ← read_digits 2 0 s; s ← read_dash s;
  '(d, s) ← read_digits 2 0 s;
  match s with EmptyString => Some (y, m, d) | _ => None end.

(** [date.fromisoformat(s)] on the extended form. *)
Definition fromisoformat (s : string) : result date :=
  match read_iso s with
  | Some (y, m, d) => py_date y m d
  | None => Raise (ValueError "Invalid isoformat string")
  end.

(** * Lemmas *)

Fixpoint all_below (n : nat) (z : Z) (f : Z -> bool) : bool :=
  match n with O => true | S n => f z && all_below n (z + 1) f end.

Lemma all_below_spec n z f i : all_below n z f = true -> z <= i < z + Z.of_nat n -> f i = true.
Proof.
  revert z. induction n as [|n IH]; intros z H Hi; [lia|].
  cbn [all_below] in H. apply andb_true_iff in H as [Hz H].
  destruct (Z.eq_dec i z) as [->|]; [done|]. apply (IH (z + 1)); [done|lia].
Qed.

(** The year of the era as [civil_of_doe] computes it, the first day of a year of
    the era and its length. *)
Definition year_index (doe : Z) : Z := (doe - doe / 1460 + doe / 36524 - doe / 146096) / 365.
Definition year_start (yoe : Z) : Z := 365 * yoe + yoe / 4 - yoe / 100.
Definition year_length (yoe : Z) : Z := if is_leap (yoe + 1) then 366 else 365.

Lemma year_index_mono a b : 0 <= a <= b -> b < days_per_era -> year_index a <= year_index b.
Proof. unfold days_per_era, year_index. intros. apply Z.div_le_mono; [lia|]. Z.to_euclidean_division_equations. lia. Qed.

(** The 400 years of an era, each from its first to its last day. *)
Definition era_year_ok (yoe : Z) : bool :=
  (year_index (year_start yoe) =? yoe)
  && (year_index (year_start yoe + year_length yoe - 1) =? yoe)
  && (year_start yoe + year_length yoe
      =? if yoe =? 399 then days_per_era else year_start (yoe + 1)).

Lemma era_years_checked : all_below 400 0 era_year_ok = true.
Proof. vm_compute. reflexivity. Qed.

(** The 366 days of a year that starts in March. *)
Definition month_of_doy (doy : Z) : Z :=
  let mp := (5 * doy + 2) / 153 in if mp <? 10 then mp + 3 else mp - 9.
Definition day_of_doy (doy : Z) : Z := doy - (153 * ((5 * doy + 2) / 153) + 2) / 5 + 1.

Definition year_day_ok (doy : Z) : bool :=
  let m := month_of_doy doy in
  let d := day_of_doy doy in
  (doe_of_civil 0 m d =? doy) && (1 <=? m) && (m <=? 12) && (1 <=? d)
  && (d <=? if m =? 2 then if doy =? 365 then 29 else 28 else days_in_month 0 m).

Lemma year_days_checked : all_below 366 0 year_day_ok = true.
Proof. vm_compute. reflexivity. Qed.

Lemma year_of_doe n doe : (n <= 400)%nat -> 0 <= doe < year_start (Z.of_nat n) ->
  exists yoe, 0 <= yoe < Z.of_nat n /\ year_start yoe <= doe < year_start yoe + year_length yoe.
Proof.
  induction n as [|n IH]; intros Hn Hdoe; [change (year_start (Z.of_nat 0)) with 0 in Hdoe; lia|].
  destruct (Z_lt_le_dec doe (year_start (Z.of_nat n))) as [Hlt|Hge].
  { destruct IH as (yoe & ? & ?); [lia|lia|]. exists yoe. split; [lia|done]. }
  exists (Z.of_nat n). split; [lia|]. split; [done|].
  pose proof (all_below_spec _ _ _ (Z.of_nat n) era_years_checked ltac:(lia)) as Hok.
  unfold era_year_ok in Hok. zbool. rewrite Nat2Z.inj_succ, <- Z.add_1_r in Hdoe.
  assert (year_start (399 + 1) = 146096) by reflexivity.
  destruct (Z.eqb_spec (Z.of_nat n) 399) as [E|]; [rewrite E in *; unfold days_per_era in *|]; lia.
Qed.

(** What every day of an era satisfies. *)
Lemma era_day doe yoe m d : 0 <= doe < days_per_era -> civil_of_doe doe = (yoe, m, d) ->
  doe_of_civil yoe m d = doe /\ 0 <= yoe < 400 /\ 1 <= m <= 12
  /\ 1 <= d <= days_in_month (yoe + (if m <=? 2 then 1 else 0)) m.
Proof.
  intros Hdoe Hciv.
  assert (exists y, 0 <= y < 400 /\ year_start y <= doe < year_start y + year_length y)
    as (y & Hy & Hin).
  { destruct (Z_lt_le_dec doe (year_start (Z.of_nat 400))) as [Hlt|Hge].
    - destruct (year_of_doe 400 doe) as (y & ? & ?); [lia|lia|]. by exists y.
    - exists 399. split; [lia|]. change (year_start 399) with 145731.
      change (year_length 399) with 366. change (year_start (Z.of_nat 400)) with 146096 in Hge.
      unfold days_per_era in *. lia. }
  pose proof (all_below_spec _ _ _ y era_years_checked ltac:(lia)) as Hok.
  unfold era_year_ok in Hok. zbool.
  assert (0 <= year_start y) by (unfold year_start; Z.to_euclidean_division_equations; lia).
  assert (Hend : year_start y + year_length y <= days_per_era).
  { destruct (Z.eqb_spec y 399); [lia|].
    assert (year_start (y + 1) <= year_start 399)
      by (unfold year_start; Z.to_euclidean_division_equations; lia).
    assert (year_start 399 < days_per_era) by reflexivity. lia. }
  assert (Hidx : year_index doe = y).
  { apply Z.le_antisymm.
    - assert (year_index doe <= year_index (year_start y + year_length y - 1))
        by (apply year_index_mono; lia). lia.
    - assert (year_index (year_start y) <= year_index doe) by (apply year_index_mono; lia). lia. }
  unfold civil_of_doe in Hciv. fold (year_index doe) in Hciv. rewrite Hidx in Hciv.
  fold (year_start y) in Hciv. set (doy := doe - year_start y) in *.
  fold (month_of_doy doy) (day_of_doy doy) in Hciv. injection Hciv as <- <- <-.
  assert (Hdoy : 0 <= doy < year_length y) by (unfold doy; lia).
  assert (year_length y <= 366) by (unfold year_length; destruct (is_leap _); lia).
  pose proof (all_below_spec _ _ _ doy year_days_checked ltac:(lia)) as Hday.
  unfold year_day_ok in Hday. zbool.
  set (m := month_of_doy doy) in *. set (d := day_of_doy doy) in *.
  split; [|split; [done|split; [done|split; [done|]]]].
  - unfold doe_of_civil in *. fold (year_start y) (year_start 0) in *.
    change (year_start 0) with 0 in *. lia.
  - unfold days_in_month in *. destruct (Z.eqb_spec m 2) as [->|]; [|done].
    cbn [Z.leb]. change (2 <=? 2) with true. cbv iota. unfold year_length in Hdoy.
    destruct (is_leap (y + 1)), (Z.eqb_spec doy 365); lia.
Qed.

Lemma is_leap_period y k : is_leap (y + k * 400) = is_leap y.
Proof.
  unfold is_leap.
  assert (H4 : (y + k * 400) mod 4 = y mod 4)
    by (replace (y + k * 400) with (y + (k * 100) * 4) by lia; apply Z_mod_plus_full).
  assert (H100 : (y + k * 400) mod 100 = y mod 100)
    by (replace (y + k * 400) with (y + (k * 4) * 100) by lia; apply Z_mod_plus_full).
  by rewrite H4, H100, Z_mod_plus_full.
Qed.

(** A day number is recovered from its year, month and day, which form a date. *)
Lemma civil_spec d y m day : civil d = (y, m, day) ->
  days_of_civil y m day = d /\ 1 <= m <= 12 /\ 1 <= day <= days_in_month y m.
Proof.
  unfold civil. set (z := d + era_origin).
  assert (Hdoe : 0 <= z mod days_per_era < days_per_era) by (apply Z.mod_pos_bound; reflexivity).
  destruct (civil_of_doe (z mod days_per_era)) as [[yoe m'] d'] eqn:Hciv.
  pose proof (era_day _ _ _ _ Hdoe Hciv) as (Hback & Hyoe & Hm & Hd).
  intros [= <- <- <-]. split; [|split; [done|]].
  - assert (Hz : z = z / days_per_era * days_per_era + z mod days_per_era)
      by (rewrite Z.mul_comm; apply Z.div_mod; discriminate).
    unfold days_of_civil. set (era := z / days_per_era) in *.
    replace (if m' <=? 2 then yoe + era * 400 + (if m' <=? 2 then 1 else 0) - 1
             else yoe + era * 400 + (if m' <=? 2 then 1 else 0)) with (yoe + era * 400)
      by (destruct (m' <=? 2); lia).
    rewrite Z.div_add, Z.div_small, Z_mod_plus_full, Z.mod_small by lia.
    unfold z in *. lia.
  - replace (yoe + z / days_per_era * 400 + (if m' <=? 2 then 1 else 0))
      with (yoe + (if m' <=? 2 then 1 else 0) + z / days_per_era * 400) by lia.
    unfold days_in_month in *. by rewrite is_leap_period.
Qed.

Lemma py_date_civil d y m day : civil d = (y, m, day) -> date_ok d = true ->
  py_date y m day = Ok d.
Proof.
  intros Hciv Hok. pose proof (civil_spec _ _ _ _ Hciv) as (Hd & Hm & Hday).
  unfold date_ok in Hok. rewrite Hciv in Hok. zbool. unfold py_date.
  repeat (rewrite (proj2 (Z.leb_le _ _)) by lia). cbn. by rewrite Hd.
Qed.

(** ** Text *)

Lemma digit_value_digit n : 0 <= n <= 9 -> digit_value (digit n) = Some n.
Proof.
  intros H. unfold digit_value, digit. rewrite Ascii.nat_ascii_embedding by lia.
  rewrite Nat2Z.inj_add, Z2Nat.id by lia. replace (Z.of_nat 48 + n - 48) with n by lia.
  by rewrite (proj2 (Z.leb_le 0 n)), (proj2 (Z.leb_le n 9)) by lia.
Qed.

Lemma read_zfill width k n acc s : 0 <= n < 10 ^ Z.of_nat width ->
  read_digits (width + k) acc (zfill width n s) = read_digits k (acc * 10 ^ Z.of_nat width + n) s.
Proof.
  revert k n s. induction width as [|width IH]; intros k n s Hn.
  { cbn in *. f_equal. lia. }
  cbn [zfill]. replace (S width + k)%nat with (width + S k)%nat by lia.
  rewrite Nat2Z.inj_succ, Z.pow_succ_r in * by lia.
  pose proof (Z.div_mod n 10 ltac:(lia)). pose proof (Z.mod_pos_bound n 10 ltac:(lia)).
  rewrite IH by lia. cbn [read_digits]. rewrite digit_value_digit by lia. cbn [mbind option_bind].
  f_equal. lia.
Qed.

Lemma read_zfill_all width n s : 0 <= n < 10 ^ Z.of_nat width ->
  read_digits width 0 (zfill width n s) = Some (n, s).
Proof. intros H. pose proof (read_zfill width 0 n 0 s H) as E. by rewrite Nat.add_0_r in E. Qed.

Lemma zfill_length width n suffix : String.length (zfill width n suffix) = (width + String.length suffix)%nat.
Proof.
  revert n suffix. induction width as [|width IH]; intros n suffix; [done|]. cbn [zfill]. rewrite IH. cbn. lia.
Qed.

Lemma read_dash_dash s : read_dash (String "-" s) = Some s.
Proof. reflexivity. Qed.

Lemma days_in_month_le y m : days_in_month y m <= 31.
Proof. unfold days_in_month. split_ifs; lia. Qed.

(** [date.fromisoformat] undoes [isoformat] on every date Python has. *)
Lemma fromisoformat_isoformat d : date_ok d = true -> fromisoformat (isoformat d) = Ok d.
Proof.
  intros Hok. unfold isoformat. destruct (civil d) as [[y m] day] eqn:Hciv.
  pose proof (civil_spec _ _ _ _ Hciv) as (_ & Hm & Hday).
  pose proof (days_in_month_le y m).
  pose proof Hok as Hy. unfold date_ok in Hy. rewrite Hciv in Hy. zbool.
  unfold fromisoformat, read_iso.
  do 3 (rewrite read_zfill_all by lia; cbn [mbind option_bind]; rewrite ?read_dash_dash;
        cbn [mbind option_bind]).
  by apply py_date_civil.
Qed.

Lemma isoformat_inj a b : date_ok a = true -> date_ok b = true ->
  isoformat a = isoformat b -> a = b.
Proof.
  intros Ha Hb H. apply (f_equal fromisoformat) in H.
  rewrite !fromisoformat_isoformat in H by done. by injection H.
Qed.
