(* ===== verification/MarketData.v ===== *)
(** The broker-neutral market-data contracts of
    [backend/app/schemas/market_data.py]: immutable values and the validators
    that pydantic runs when one is built.  A [mk_*] function is the class's
    constructor (it raises [ValidationError] where the validators do); a record
    is the value it returns; [*_valid] says which records those are.

    Strings are ASCII. *)
From S2P Require Import Prelude PyTime.
From Stdlib Require Import Ascii.

Local Open Scope Z_scope.

(** * Strings *)

Definition is_space (c : ascii) : bool :=
  let n := nat_of_ascii c in
  ((9 <=? n)%nat && (n <=? 13)%nat) || (n =? 32)%nat.

Fixpoint lstrip (s : string) : string :=
  match s with
  | EmptyString => EmptyString
  | String c s' => if is_space c then lstrip s' else s
  end.

Fixpoint rstrip (s : string) : string :=
  match s with
  | EmptyString => EmptyString
  | String c s' =>
      match rstrip s' with
      | EmptyString => if is_space c then EmptyString else String c EmptyString
      | s'' => String c s''
      end
  end.

(** pydantic's [str_strip_whitespace] and Python's [str.strip]. *)
Definition strip (s : string) : string := lstrip (rstrip s).

Definition upper_ascii (c : ascii) : ascii :=
  let n := nat_of_ascii c in
  if (97 <=? n)%nat && (n <=? 122)%nat then ascii_of_nat (n - 32) else c.

(** [str.upper] on ASCII. *)
Fixpoint upper (s : string) : string :=
  match s with
  | EmptyString => EmptyString
  | String c s' => String (upper_ascii c) (upper s')
  end.

Definition is_empty (s : string) : bool :=
  match s with EmptyString => true | _ => false end.

(** * Identity *)

Inductive MarketSegment : Type :=
| EQUITY | DERIVATIVES | CURRENCY | COMMODITY | INDEX.

Inductive InstrumentClass : Type := CASH | FUTURE | OPTION | OTHER.

Inductive OptionType : Type := CALL | PUT.

#[global] Instance MarketSegment_eq_dec : EqDecision MarketSegment.
Proof. solve_decision. Defined.
#[global] Instance InstrumentClass_eq_dec : EqDecision InstrumentClass.
Proof. solve_decision. Defined.
#[global] Instance OptionType_eq_dec : EqDecision OptionType.
Proof. solve_decision. Defined.

#[global] Instance MarketSegment_countable : Countable MarketSegment.
Proof.
  refine (inj_countable
    (fun s => match s with EQUITY => 0 | DERIVATIVES => 1 | CURRENCY => 2 | COMMODITY => 3 | INDEX => 4 end)%nat
    (fun n => match n with 0 => Some EQUITY | 1 => Some DERIVATIVES | 2 => Some CURRENCY
      | 3 => Some COMMODITY | 4 => Some INDEX | _ => None end)%nat _).
  by intros [].
Defined.
#[global] Instance InstrumentClass_countable : Countable InstrumentClass.
Proof.
  refine (inj_countable
    (fun s => match s with CASH => 0 | FUTURE => 1 | OPTION => 2 | OTHER => 3 end)%nat
    (fun n => match n with 0 => Some CASH | 1 => Some FUTURE | 2 => Some OPTION
      | 3 => Some OTHER | _ => None end)%nat _).
  by intros [].
Defined.
#[global] Instance OptionType_countable : Countable OptionType.
Proof.
  refine (inj_countable (fun s => match s with CALL => true | PUT => false end)
    (fun b : bool => Some (if b then CALL else PUT)) _).
  by intros [].
Defined.

Record UnderlyingInstrument : Type := {
  und_exchange : string;
  und_symbol : string;
}.

Record Instrument : Type := {
  exchange : string;
  market_segment : MarketSegment;
  symbol : string;
  instrument_class : InstrumentClass;
  underlying : option UnderlyingInstrument;
  display_name : option string;
  listing_type : option string;
  series : option string;
  expiry : option date;
  strike_price : option Decimal;
  option_type : option OptionType;
}.

#[global] Instance UnderlyingInstrument_eq_dec : EqDecision UnderlyingInstrument.
Proof. solve_decision. Defined.
#[global] Instance Instrument_eq_dec : EqDecision Instrument.
Proof. solve_decision. Defined.
#[global] Instance UnderlyingInstrument_countable : Countable UnderlyingInstrument.
Proof.
  refine (inj_countable' (fun u => (und_exchange u, und_symbol u))
    (fun p => {| und_exchange := fst p; und_symbol := snd p |}) _).
  by intros [].
Defined.
#[global] Instance Instrument_countable : Countable Instrument.
Proof.
  refine (inj_countable'
    (fun i => ((exchange i, market_segment i, symbol i, instrument_class i),
               (underlying i, display_name i, listing_type i, series i),
               (expiry i, strike_price i, option_type i)))
    (fun p => let '((a, b, c, d), (e, f, g, h), (i, j, k)) := p in
      Build_Instrument a b c d e f g h i j k) _).
  by intros [].
Defined.

(** [_normalize_identity_component]: strip (model config), [min_length=1], upper. *)
Definition normalize_identity_component (value : string) : result string :=
  let v := strip value in
  _ ← raise_if (is_empty v) (ValidationError "min_length");
  Ok (upper v).

Definition normalize_optional_contract_component (value : option string)
    : result (option string) :=
  match value with
  | None => Ok None
  | Some s => v ← normalize_identity_component s; Ok (Some v)
  end.

Definition mk_underlying (exchange symbol : string) : result UnderlyingInstrument :=
  e ← normalize_identity_component exchange;
  s ← normalize_identity_component symbol;
  Ok {| und_exchange := e; und_symbol := s |}.

(** [Instrument._validate_contract_identity] *)
Definition validate_contract_identity (self : Instrument) : result unit :=
  match instrument_class self with
  | FUTURE =>
      _ ← raise_if (negb (is_not_none (underlying self)) || negb (is_not_none (expiry self)))
        (ValidationError "future contracts require an underlying and expiry");
      raise_if (is_not_none (strike_price self) || is_not_none (option_type self))
        (ValidationError "future contracts must not define option identity fields")
  | OPTION =>
      raise_if (negb (is_not_none (underlying self)) || negb (is_not_none (expiry self))
                || negb (is_not_none (strike_price self)) || negb (is_not_none (option_type self)))
        (ValidationError "option contracts require an underlying, expiry, strike price, and option type")
  | _ =>
      raise_if (is_not_none (underlying self) || is_not_none (expiry self)
                || is_not_none (strike_price self) || is_not_none (option_type self))
        (ValidationError "non-derivative instruments must not define derivative identity fields")
  end.

Definition opt_positive (p : option Decimal) : bool :=
  match p with Some v => dec_ltb 0 v | None => true end.

(** [Instrument(...)]: the record argument holds the raw field values. *)
Definition mk_instrument (raw : Instrument) : result Instrument :=
  e ← normalize_identity_component (exchange raw);
  s ← normalize_identity_component (symbol raw);
  dn ← normalize_optional_contract_component (display_name raw);
  lt ← normalize_optional_contract_component (listing_type raw);
  sr ← normalize_optional_contract_component (series raw);
  _ ← raise_if (negb (opt_positive (strike_price raw))) (ValidationError "greater_than");
  let self := {|
    exchange := e; market_segment := market_segment raw; symbol := s;
    instrument_class := instrument_class raw; underlying := underlying raw;
    display_name := dn; listing_type := lt; series := sr; expiry := expiry raw;
    strike_price := strike_price raw; option_type := option_type raw |} in
  _ ← validate_contract_identity self;
  Ok self.

(** A plain NSE cash equity. *)
Definition cash_equity (sym : string) : Instrument := {|
  exchange := "NSE"; market_segment := EQUITY; symbol := sym;
  instrument_class := CASH; underlying := None; display_name := None;
  listing_type := None; series := None; expiry := None; strike_price := None;
  option_type := None |}.

(** * Timestamps *)

(** [_require_aware_timestamp] (also [clock._as_utc] and [context._require_utc]):
    a naive datetime is rejected, an aware one is normalised to UTC. *)
Definition require_aware_timestamp (value : pydatetime) : result instant :=
  match value with
  | Naive _ => Raise (ValidationError "timestamps must be timezone-aware")
  | Aware i => Ok i
  end.

(** * Events *)

Record ProviderSessionOhlc : Type := {
  pso_open_price : Decimal;
  pso_high_price : Decimal;
  pso_low_price : Decimal;
  pso_close_price : Decimal;
}.

(** [ProviderSessionOhlc]: field bounds, then [_validate_ohlc_structure]. *)
Definition validate_ohlc_structure (self : ProviderSessionOhlc) : result unit :=
  _ ← raise_if (dec_ltb (pso_high_price self) (pso_low_price self))
    (ValidationError "session high price must be greater than or equal to low price");
  _ ← raise_if (negb (dec_leb (pso_low_price self) (pso_open_price self)
                      && dec_leb (pso_open_price self) (pso_high_price self)))
    (ValidationError "session open price must be within the high-low range");
  raise_if (negb (dec_leb (pso_low_price self) (pso_close_price self)
                  && dec_leb (pso_close_price self) (pso_high_price self)))
    (ValidationError "session close price must be within the high-low range").

Definition mk_provider_session_ohlc (o h l c : Decimal) : result ProviderSessionOhlc :=
  _ ← raise_if (negb (dec_ltb 0 o && dec_ltb 0 h && dec_ltb 0 l && dec_ltb 0 c))
    (ValidationError "greater_than");
  let self := {| pso_open_price := o; pso_high_price := h;
                 pso_low_price := l; pso_close_price := c |} in
  _ ← validate_ohlc_structure self;
  Ok self.

Record SessionStatisticsObservation : Type := {
  obs_instrument : Instrument;
  obs_trading_date : date;
  obs_observed_at : instant;
  obs_session_ohlc : ProviderSessionOhlc;
}.

Record Tick : Type := {
  tick_instrument : Instrument;
  tick_event_timestamp : instant;
  last_price : Decimal;
  tick_traded_quantity : option Z;
  session_cumulative_volume : option Z;
  tick_session_ohlc : option ProviderSessionOhlc;
}.

Record Quote : Type := {
  quote_instrument : Instrument;
  quote_event_timestamp : instant;
  bid_price : Decimal;
  ask_price : Decimal;
  bid_quantity : Z;
  ask_quantity : Z;
}.

Definition opt_nonneg (q : option Z) : bool :=
  match q with Some v => 0 <=? v | None => true end.

Definition mk_tick (i : Instrument) (ts : pydatetime) (price : Decimal)
    (traded cumulative : option Z) (ohlc : option ProviderSessionOhlc) : result Tick :=
  utc ← require_aware_timestamp ts;
  _ ← raise_if (negb (dec_ltb 0 price)) (ValidationError "greater_than");
  _ ← raise_if (negb (opt_nonneg traded && opt_nonneg cumulative))
    (ValidationError "greater_than_equal");
  Ok {| tick_instrument := i; tick_event_timestamp := utc; last_price := price;
        tick_traded_quantity := traded; session_cumulative_volume := cumulative;
        tick_session_ohlc := ohlc |}.

Definition mk_quote (i : Instrument) (ts : pydatetime) (bid ask : Decimal) (bq aq : Z)
    : result Quote :=
  utc ← require_aware_timestamp ts;
  _ ← raise_if (negb (dec_ltb 0 bid && dec_ltb 0 ask)) (ValidationError "greater_than");
  _ ← raise_if (negb ((0 <=? bq) && (0 <=? aq))) (ValidationError "greater_than_equal");
  _ ← raise_if (dec_ltb ask bid)
    (ValidationError "ask price must be greater than or equal to bid price");
  Ok {| quote_instrument := i; quote_event_timestamp := utc; bid_price := bid;
        ask_price := ask; bid_quantity := bq; ask_quantity := aq |}.

Record Candle : Type := {
  candle_instrument : Instrument;
  start_timestamp : instant;
  end_timestamp : instant;
  open_price : Decimal;
  high_price : Decimal;
  low_price : Decimal;
  close_price : Decimal;
  traded_quantity : Z;
}.

(** [Candle._validate_candle_interval_and_prices] *)
Definition validate_candle_interval_and_prices (self : Candle) : result unit :=
  _ ← raise_if (end_timestamp self <=? start_timestamp self)
    (ValidationError "candle end timestamp must be after start timestamp");
  _ ← raise_if (dec_ltb (high_price self) (low_price self))
    (ValidationError "candle high price must be greater than or equal to low price");
  _ ← raise_if (negb (dec_leb (low_price self) (open_price self)
                      && dec_leb (open_price self) (high_price self)))
    (ValidationError "candle open price must be within the high-low range");
  raise_if (negb (dec_leb (low_price self) (close_price self)
                  && dec_leb (close_price self) (high_price self)))
    (ValidationError "candle close price must be within the high-low range").

Definition mk_candle (self : Candle) : result Candle :=
  _ ← raise_if (negb (dec_ltb 0 (open_price self) && dec_ltb 0 (high_price self)
                      && dec_ltb 0 (low_price self) && dec_ltb 0 (close_price self)))
    (ValidationError "greater_than");
  _ ← raise_if (negb (0 <=? traded_quantity self)) (ValidationError "greater_than_equal");
  _ ← validate_candle_interval_and_prices self;
  Ok self.

Record HistoricalRequest : Type := {
  req_instrument : Instrument;
  req_start : instant;
  req_end : instant;
  req_interval : timedelta;
}.

Definition mk_historical_request (i : Instrument) (start stop : instant) (interval : timedelta)
    : result HistoricalRequest :=
  _ ← raise_if (stop <=? start)
    (ValidationError "historical end timestamp must be after start timestamp");
  _ ← raise_if (interval <=? 0) (ValidationError "historical interval must be positive");
  Ok {| req_instrument := i; req_start := start; req_end := stop; req_interval := interval |}.

Record HistoricalResult : Type := {
  res_request : HistoricalRequest;
  res_candles : list Candle;
}.

Inductive FeedContinuity : Type :=
| CONNECTED | DISCONNECTED | RECONNECTED | CONTINUITY_LOST.

Record FeedContinuityEvent : Type := {
  feed_status : FeedContinuity;
  feed_observed_at : instant;
}.

Record MarketReference : Type := {
  ref_instrument : Instrument;
  ref_previous_close : Decimal;
}.

#[global] Instance ProviderSessionOhlc_eq_dec : EqDecision ProviderSessionOhlc.
Proof. solve_decision. Defined.
#[global] Instance SessionStatisticsObservation_eq_dec : EqDecision SessionStatisticsObservation.
Proof. solve_decision. Defined.
#[global] Instance Tick_eq_dec : EqDecision Tick.
Proof. solve_decision. Defined.
#[global] Instance Quote_eq_dec : EqDecision Quote.
Proof. solve_decision. Defined.
#[global] Instance Candle_eq_dec : EqDecision Candle.
Proof. solve_decision. Defined.
#[global] Instance HistoricalRequest_eq_dec : EqDecision HistoricalRequest.
Proof. solve_decision. Defined.
#[global] Instance FeedContinuity_eq_dec : EqDecision FeedContinuity.
Proof. solve_decision. Defined.
#[global] Instance MarketReference_eq_dec : EqDecision MarketReference.
Proof. solve_decision. Defined.

(** [HistoricalResult._validate_candle_instruments] *)
Definition mk_historical_result (request : HistoricalRequest) (candles : list Candle)
    : result HistoricalResult :=
  _ ← raise_if
    (py_any (fun c => negb (bool_decide (candle_instrument c = req_instrument request))) candles)
    (ValidationError "historical candles must match the requested instrument");
  Ok {| res_request := request; res_candles := candles |}.

(** * Which records the constructors return *)

Record tick_valid (t : Tick) : Prop := {
  tick_price_pos : (0 < last_price t)%Qc;
  tick_cumulative_nonneg : forall v, session_cumulative_volume t = Some v -> 0 <= v;
}.

Record candle_valid (c : Candle) : Prop := {
  candle_low_pos : (0 < low_price c)%Qc;
  candle_open_lo : (low_price c <= open_price c)%Qc;
  candle_open_hi : (open_price c <= high_price c)%Qc;
  candle_close_lo : (low_price c <= close_price c)%Qc;
  candle_close_hi : (close_price c <= high_price c)%Qc;
  candle_interval : start_timestamp c < end_timestamp c;
  candle_qty : 0 <= traded_quantity c;
}.

Record ohlc_valid (a : ProviderSessionOhlc) : Prop := {
  ohlc_low_pos : (0 < pso_low_price a)%Qc;
  ohlc_open_lo : (pso_low_price a <= pso_open_price a)%Qc;
  ohlc_open_hi : (pso_open_price a <= pso_high_price a)%Qc;
  ohlc_close_lo : (pso_low_price a <= pso_close_price a)%Qc;
  ohlc_close_hi : (pso_close_price a <= pso_high_price a)%Qc;
}.

(** Turn the Boolean guards of a constructor into order facts. *)
Ltac guards :=
  repeat match goal with
  | H : mbind _ _ = Ok _ |- _ => apply bind_ok in H as (? & ? & ?)
  | H : raise_if _ _ = Ok _ |- _ => apply raise_if_ok in H
  | H : negb _ = false |- _ => apply negb_false_iff in H
  | H : (_ && _)%bool = true |- _ => apply andb_true_iff in H as [? ?]
  | H : (_ || _)%bool = false |- _ => apply orb_false_iff in H as [? ?]
  | H : dec_ltb _ _ = true |- _ => apply dec_ltb_lt in H
  | H : dec_leb _ _ = true |- _ => apply dec_leb_le in H
  | H : Ok _ = Ok _ |- _ => injection H as H; subst
  end; zbool.

Lemma dec_ltb_false a b : (b <= a)%Qc -> dec_ltb a b = false.
Proof. intros. apply bool_decide_eq_false_2. dec_order. Qed.

Lemma dec_ltb_true a b : (a < b)%Qc -> dec_ltb a b = true.
Proof. apply dec_ltb_lt. Qed.

Lemma dec_leb_true a b : (a <= b)%Qc -> dec_leb a b = true.
Proof. apply dec_leb_le. Qed.

Lemma mk_candle_ok c c' : mk_candle c = Ok c' <-> c' = c /\ candle_valid c.
Proof.
  split.
  - unfold mk_candle, validate_candle_interval_and_prices. intros H. guards.
    split; [done|]. by constructor.
  - intros [-> [? ? ? ? ? ? ?]]. unfold mk_candle, validate_candle_interval_and_prices.
    rewrite !(dec_ltb_true 0) by dec_order. rewrite !dec_leb_true by dec_order.
    rewrite dec_ltb_false by dec_order.
    replace (0 <=? traded_quantity c) with true by lia.
    by replace (end_timestamp c <=? start_timestamp c) with false by lia.
Qed.

Lemma mk_provider_session_ohlc_ok o h l c a :
  mk_provider_session_ohlc o h l c = Ok a ->
  ohlc_valid a /\ a = Build_ProviderSessionOhlc o h l c.
Proof.
  unfold mk_provider_session_ohlc, validate_ohlc_structure. intros H. guards.
  split; [|done]. by constructor.
Qed.

Lemma mk_tick_ok i ts p q v o t :
  mk_tick i ts p q v o = Ok t -> tick_valid t /\ tick_instrument t = i /\ ts = Aware (tick_event_timestamp t).
Proof.
  unfold mk_tick. intros H. guards. destruct ts; cbn in *; [done|]. guards.
  repeat split; cbn; [done|]. intros w ->. unfold opt_nonneg in *. zbool. lia.
Qed.

(** ** Identity normalisation *)

Lemma is_space_upper c : is_space (upper_ascii c) = is_space c.
Proof. by destruct c as [[] [] [] [] [] [] [] []]. Qed.

Lemma upper_ascii_idem c : upper_ascii (upper_ascii c) = upper_ascii c.
Proof. by destruct c as [[] [] [] [] [] [] [] []]. Qed.

Lemma upper_idem s : upper (upper s) = upper s.
Proof. induction s; cbn; [done|]. by rewrite upper_ascii_idem, IHs. Qed.

Lemma lstrip_upper s : lstrip (upper s) = upper (lstrip s).
Proof. induction s; cbn; [done|]. rewrite is_space_upper. by destruct (is_space a). Qed.

Lemma rstrip_upper s : rstrip (upper s) = upper (rstrip s).
Proof.
  induction s; cbn; [done|]. rewrite IHs, is_space_upper.
  destruct (rstrip s); cbn; [by destruct (is_space a)|done].
Qed.

Lemma strip_upper s : strip (upper s) = upper (strip s).
Proof. unfold strip. by rewrite rstrip_upper, lstrip_upper. Qed.

Lemma lstrip_idem s : lstrip (lstrip s) = lstrip s.
Proof. induction s; cbn; [done|]. destruct (is_space a) eqn:E; cbn; [done|by rewrite E]. Qed.

Lemma rstrip_idem s : rstrip (rstrip s) = rstrip s.
Proof.
  induction s; cbn; [done|]. destruct (rstrip s) as [|b s'] eqn:E.
  - destruct (is_space a) eqn:Ea; cbn; [done|by rewrite Ea].
  - cbn [rstrip] in *. by rewrite IHs.
Qed.

Lemma rstrip_lstrip s : rstrip (lstrip s) = lstrip (rstrip s).
Proof.
  induction s; cbn; [done|]. destruct (is_space a) eqn:Ea.
  - rewrite IHs. destruct (rstrip s); cbn; [done|by rewrite Ea].
  - cbn. destruct (rstrip s); cbn; by rewrite Ea.
Qed.

Lemma strip_idem s : strip (strip s) = strip s.
Proof. unfold strip. by rewrite rstrip_lstrip, rstrip_idem, lstrip_idem. Qed.

Lemma normalize_identity_idem s v :
  normalize_identity_component s = Ok v -> normalize_identity_component v = Ok v.
Proof.
  unfold normalize_identity_component. intros (? & H & [= <-])%bind_ok.
  apply raise_if_ok in H. rewrite strip_upper, strip_idem.
  destruct (strip s); [done|]. cbn. by rewrite upper_ascii_idem, upper_idem.
Qed.

Lemma normalize_optional_idem o v :
  normalize_optional_contract_component o = Ok v -> normalize_optional_contract_component v = Ok v.
Proof.
  destruct o as [s|]; cbn; [|by intros [= <-]].
  intros (w & Hw & [= <-])%bind_ok. cbn. apply normalize_identity_idem in Hw. by rewrite Hw.
Qed.

(** Canonicalisation is idempotent: rebuilding an instrument from its own
    fields returns the same instrument. *)
Lemma mk_instrument_idem raw i : mk_instrument raw = Ok i -> mk_instrument i = Ok i.
Proof.
  unfold mk_instrument.
  intros (e & He & (s & Hs & (dn & Hdn & (lt & Hlt & (sr & Hsr & (? & Hp & (? & Hv & [= <-])%bind_ok)%bind_ok)%bind_ok)%bind_ok)%bind_ok)%bind_ok)%bind_ok.
  cbn [exchange symbol display_name listing_type series strike_price].
  apply normalize_identity_idem in He, Hs. apply normalize_optional_idem in Hdn, Hlt, Hsr.
  rewrite He, Hs. cbn. rewrite Hdn, Hlt, Hsr. cbn. rewrite Hp. cbn. by rewrite Hv.
Qed.
