(* ===== verification/Timeframe.v ===== *)
(** The timeframe value object of [market_engine/timeframe.py]: an intraday
    bucket width or the whole regular session. *)
From S2P Require Import Prelude PyTime.

Local Open Scope Z_scope.

Inductive TimeframeKind : Type := INTRADAY | SESSION.

Record Timeframe : Type := {
  kind : TimeframeKind;
  duration : option timedelta;
}.

#[global] Instance TimeframeKind_eq_dec : EqDecision TimeframeKind.
Proof. solve_decision. Defined.
#[global] Instance Timeframe_eq_dec : EqDecision Timeframe.
Proof. solve_decision. Defined.
#[global] Instance Timeframe_countable : Countable Timeframe.
Proof.
  refine (inj_countable'
    (fun t => (match kind t with INTRADAY => true | SESSION => false end, duration t))
    (fun p => {| kind := if fst p : bool then INTRADAY else SESSION; duration := snd p |}) _).
  by intros [[] ?].
Defined.

(** [Timeframe.__post_init__] *)
Definition mk_timeframe (k : TimeframeKind) (d : option timedelta) : result Timeframe :=
  _ ← match k with
      | INTRADAY =>
          match d with
          | None => Raise (ValueError "an intraday timeframe requires a strictly positive duration")
          | Some d => raise_if (d <=? 0)
              (ValueError "an intraday timeframe requires a strictly positive duration")
          end
      | SESSION => raise_if (is_not_none d) (ValueError "a session timeframe must not carry a duration")
      end;
  Ok {| kind := k; duration := d |}.

(** [Timeframe.minutes(count)] *)
Definition minutes (count : Z) : result Timeframe :=
  _ ← raise_if (count <=? 0) (ValueError "timeframe minutes must be a positive integer");
  mk_timeframe INTRADAY (Some (count * us_per_minute)).

(** [Timeframe.session()] *)
Definition session_timeframe : Timeframe := {| kind := SESSION; duration := None |}.

(** [Timeframe.is_session] *)
Definition is_session (t : Timeframe) : bool :=
  match kind t with SESSION => true | INTRADAY => false end.

(** [Timeframe.label] *)
Definition label (t : Timeframe) : string :=
  match duration t with
  | None => "session"
  | Some d => pretty (d / us_per_second) +:+ "s"
  end.

(** The timeframes the constructor returns. *)
Definition timeframe_valid (t : Timeframe) : Prop :=
  match kind t, duration t with
  | INTRADAY, Some d => 0 < d
  | SESSION, None => True
  | _, _ => False
  end.

(** A literal intraday timeframe of [n] minutes. *)
Definition tf (n : Z) : Timeframe := {| kind := INTRADAY; duration := Some (n * us_per_minute) |}.

Lemma mk_timeframe_ok k d t :
  mk_timeframe k d = Ok t <-> t = {| kind := k; duration := d |} /\ timeframe_valid t.
Proof.
  unfold mk_timeframe, timeframe_valid. destruct k, d as [d|]; cbn; split;
    try (by intros []); try (by intros [-> ?]); try (by intros [= <-]).
  - intros H. destruct (d <=? 0) eqn:E; [done|]. injection H as <-. cbn. zbool. split; [done|lia].
  - intros [-> H]. cbn in H. by replace (d <=? 0) with false by lia.
Qed.

Lemma minutes_ok n : 0 < n -> minutes n = Ok (tf n).
Proof.
  intros. unfold minutes, tf, mk_timeframe, us_per_minute, us_per_second.
  replace (n <=? 0) with false by lia. cbn [raise_if mbind result_bind].
  by replace (n * (60 * 1000000) <=? 0) with false by lia.
Qed.

Lemma timeframe_valid_duration t d : timeframe_valid t -> duration t = Some d -> 0 < d.
Proof. unfold timeframe_valid. intros H E. rewrite E in H. by destruct (kind t). Qed.

Lemma is_session_duration t :
  timeframe_valid t -> is_session t = true <-> duration t = None.
Proof. unfold timeframe_valid, is_session. by destruct (kind t), (duration t). Qed.
