(* ===== verification/Session.v ===== *)
(** The deterministic market-session layer: [market_engine/session.py] and the
    calendar window of [market_engine/historical/calendar_window.py].

    State: immutable schedules, per-date overrides, closed and open dates, the
    coverage range.  Operations: the phase of a time of day, the trading-day
    test, the classifier of an instant, and the search for previous trading
    days over the authoritative coverage. *)
From S2P Require Import Prelude PyTime.

Local Open Scope Z_scope.

(** [context.MarketState] *)
Inductive MarketState : Type :=
| PRE_OPEN | OPENING_AUCTION | LIVE_SESSION | CLOSING_SESSION | MARKET_CLOSED
| HOLIDAY | EMERGENCY_HALT | CALENDAR_UNAVAILABLE.

#[global] Instance MarketState_eq_dec : EqDecision MarketState.
Proof. solve_decision. Defined.

(** [context.SessionContext] *)
Record SessionContext : Type := {
  ctx_trading_date : date;
  market_state : MarketState;
  exchange_timezone : string;
}.

#[global] Instance SessionContext_eq_dec : EqDecision SessionContext.
Proof. solve_decision. Defined.

(** * Intervals and schedules *)

Record TradingInterval : Type := {
  interval_start : time;
  interval_end : time;
}.

#[global] Instance TradingInterval_eq_dec : EqDecision TradingInterval.
Proof. solve_decision. Defined.

(** [TradingInterval.__post_init__] *)
Definition mk_interval (s e : time) : result TradingInterval :=
  _ ← raise_if (e <=? s) (ValueError "trading interval requires start < end");
  Ok {| interval_start := s; interval_end := e |}.

Record SessionSchedule : Type := {
  pre_open_start : time;
  opening_auction_start : time;
  regular_open : time;
  regular_close : time;
  closing_end : time;
}.

(** [SessionSchedule._validate_strictly_increasing] *)
Definition mk_schedule (self : SessionSchedule) : result SessionSchedule :=
  let boundaries := [pre_open_start self; opening_auction_start self;
                     regular_open self; regular_close self; closing_end self] in
  _ ← raise_if (negb (py_all (fun p => fst p <? snd p) (pairwise boundaries)))
    (ValidationError "session boundaries must be strictly increasing");
  Ok self.

(** [SessionSchedule.phase_for] *)
Definition phase_for (self : SessionSchedule) (moment : time) : MarketState :=
  if moment <? pre_open_start self then MARKET_CLOSED
  else if moment <? opening_auction_start self then PRE_OPEN
  else if moment <? regular_open self then OPENING_AUCTION
  else if moment <? regular_close self then LIVE_SESSION
  else if moment <? closing_end self then CLOSING_SESSION
  else MARKET_CLOSED.

(** [SessionSchedule.bounds]; the interval constructor cannot raise here, see
    [bounds_valid]. *)
Definition bounds (self : SessionSchedule) : TradingInterval :=
  {| interval_start := regular_open self; interval_end := regular_close self |}.

(** * Overrides *)

Record TradingSessionOverride : Type := {
  override_date : date;
  live_intervals : list TradingInterval;
}.

(** [TradingSessionOverride.__post_init__] *)
Definition mk_override (d : date) (intervals : list TradingInterval)
    : result TradingSessionOverride :=
  _ ← raise_if (match intervals with [] => true | _ => false end)
    (ValueError "session override requires at least one live interval");
  _ ← raise_if
    (py_any (fun p => interval_start (snd p) <=? interval_end (fst p)) (pairwise intervals))
    (ValueError "live_intervals must be chronologically ordered, non-overlapping, and separated by a strictly positive gap");
  Ok {| override_date := d; live_intervals := intervals |}.

(** [TradingSessionOverride.continuous] *)
Definition continuous (d : date) (s e : time) : result TradingSessionOverride :=
  iv ← mk_interval s e; mk_override d [iv].

Record EffectiveSchedule : Type := {
  eff_default : SessionSchedule;
  eff_overrides : gmap Z TradingSessionOverride;
}.

(** The duplicate-rejecting loop of [EffectiveSchedule.__init__]. *)
Fixpoint index_overrides (overrides : list TradingSessionOverride)
    (by_date : gmap Z TradingSessionOverride) : result (gmap Z TradingSessionOverride) :=
  match overrides with
  | [] => Ok by_date
  | o :: rest =>
      _ ← raise_if (is_not_none (by_date !! override_date o))
        (ValueError "duplicate session override for trading date");
      index_overrides rest (<[override_date o := o]> by_date)
  end.

(** [EffectiveSchedule(default=..., overrides=...)] *)
Definition mk_effective (d : SessionSchedule) (overrides : list TradingSessionOverride)
    : result EffectiveSchedule :=
  m ← index_overrides overrides ∅; Ok {| eff_default := d; eff_overrides := m |}.

(** [EffectiveSchedule.has_override] *)
Definition has_override (self : EffectiveSchedule) (d : date) : bool :=
  is_not_none (eff_overrides self !! d).

(** [EffectiveSchedule.intervals_for] *)
Definition intervals_for (self : EffectiveSchedule) (d : date) : list TradingInterval :=
  match eff_overrides self !! d with
  | Some o => live_intervals o
  | None => [bounds (eff_default self)]
  end.

(** [EffectiveSchedule.envelope_for]: [IndexError] on an override without
    intervals is excluded by its constructor; [None] stands for it. *)
Definition envelope_for (self : EffectiveSchedule) (d : date) : option TradingInterval :=
  match eff_overrides self !! d with
  | None => Some (bounds (eff_default self))
  | Some o =>
      match live_intervals o !! 0%nat, last (live_intervals o) with
      | Some f, Some l =>
          Some {| interval_start := interval_start f; interval_end := interval_end l |}
      | _, _ => None
      end
  end.

(** * The trading calendar *)

Record TradingCalendar : Type := {
  closed_dates : gset Z;
  open_sessions : gset Z;
  weekend_days : gset Z;
}.

(** [_SATURDAY] and [_SUNDAY]. *)
Definition default_weekend : list Z := [5; 6].

(** [TradingCalendar.__init__] *)
Definition mk_calendar (holidays closed opened : list date) (weekend : list Z)
    : result TradingCalendar :=
  let self := {| closed_dates := list_to_set holidays ∪ list_to_set closed;
                 open_sessions := list_to_set opened;
                 weekend_days := list_to_set weekend |} in
  _ ← raise_if (negb (bool_decide (closed_dates self ∩ open_sessions self = ∅)))
    (ValueError "dates cannot be both open and closed");
  Ok self.

(** [TradingCalendar.is_trading_day] *)
Definition is_trading_day (self : TradingCalendar) (d : date) : bool :=
  if bool_decide (d ∈ open_sessions self) then true
  else if bool_decide (weekday d ∈ weekend_days self) then false
  else negb (bool_decide (d ∈ closed_dates self)).

(** * Coverage and the classifier *)

Record CalendarCoverage : Type := {
  cov_start_date : date;
  cov_end_date : date;
}.

(** [CalendarCoverage.__post_init__] *)
Definition mk_coverage (s e : date) : result CalendarCoverage :=
  _ ← raise_if (e <? s) (ValueError "calendar coverage end date must not precede its start date");
  Ok {| cov_start_date := s; cov_end_date := e |}.

(** [CalendarCoverage.contains] *)
Definition contains (self : CalendarCoverage) (day : date) : bool :=
  (cov_start_date self <=? day) && (day <=? cov_end_date self).

Record MarketSessionClassifier : Type := {
  cls_schedule : SessionSchedule;
  cls_calendar : TradingCalendar;
  cls_timezone : ZoneInfo;
  cls_coverage : option CalendarCoverage;
}.

(** [MarketSessionClassifier._state_for] *)
Definition state_for (self : MarketSessionClassifier) (d : date) (t : time) (halt_active : bool)
    : MarketState :=
  if match cls_coverage self with Some c => negb (contains c d) | None => false end
  then CALENDAR_UNAVAILABLE
  else if negb (is_trading_day (cls_calendar self) d) then HOLIDAY
  else if halt_active then EMERGENCY_HALT
  else phase_for (cls_schedule self) t.

(** [MarketSessionClassifier.classify] at a UTC instant. *)
Definition classify_session (self : MarketSessionClassifier) (i : instant) (halt_active : bool)
    : SessionContext :=
  let d := local_date (cls_timezone self) i in
  {| ctx_trading_date := d;
     market_state := state_for self d (local_time (cls_timezone self) i) halt_active;
     exchange_timezone := zone_key (cls_timezone self) |}.

(** The same entry point before the awareness check. *)
Definition classify_datetime (self : MarketSessionClassifier) (v : pydatetime) (halt_active : bool)
    : result SessionContext :=
  match v with
  | Naive _ => Raise (ValueError "session classification requires a timezone-aware instant")
  | Aware i => Ok (classify_session self i halt_active)
  end.

(** * Previous trading days *)

Record HistoricalCalendarWindow : Type := {
  win_calendar : TradingCalendar;
  win_coverage : CalendarCoverage;
}.

(** The [while] loop of [previous_trading_day]; [None] is an exhausted bound. *)
Fixpoint previous_loop (self : HistoricalCalendarWindow) (fuel : nat) (cursor : date)
    : option (result date) :=
  match fuel with
  | O => None
  | S fuel =>
      if contains (win_coverage self) cursor then
        if is_trading_day (win_calendar self) cursor then Some (Ok cursor)
        else previous_loop self fuel (cursor - 1)
      else Some (Raise OutsideCalendarCoverageError)
  end.

(** One iteration per covered date below the reference, and one to leave. *)
Definition previous_fuel (self : HistoricalCalendarWindow) (reference : date) : nat :=
  Z.to_nat (reference - cov_start_date (win_coverage self)) + 1.

(** [HistoricalCalendarWindow.previous_trading_day] *)
Definition previous_trading_day (self : HistoricalCalendarWindow) (reference : date)
    : result date :=
  default (Raise OutsideCalendarCoverageError)
    (previous_loop self (previous_fuel self reference) (reference - 1)).

(** The [for _ in range(count)] loop: newest first. *)
Fixpoint collect_previous (self : HistoricalCalendarWindow) (count : nat) (cursor : date)
    : result (list date) :=
  match count with
  | O => Ok []
  | S count =>
      d ← previous_trading_day self cursor;
      rest ← collect_previous self count d;
      Ok (d :: rest)
  end.

(** [HistoricalCalendarWindow.previous_trading_days] *)
Definition previous_trading_days (self : HistoricalCalendarWindow) (reference : date) (count : Z)
    : result (list date) :=
  _ ← raise_if (count <? 1) (ValueError "count must be a positive integer");
  collected ← collect_previous self (Z.to_nat count) reference;
  Ok (reverse collected).

(** * Invariants of the constructed values *)

Record schedule_valid (s : SessionSchedule) : Prop := {
  sched_pre : valid_time (pre_open_start s) = true;
  sched_end : valid_time (closing_end s) = true;
  sched_12 : pre_open_start s < opening_auction_start s;
  sched_23 : opening_auction_start s < regular_open s;
  sched_34 : regular_open s < regular_close s;
  sched_45 : regular_close s < closing_end s;
}.

Definition interval_valid (iv : TradingInterval) : Prop :=
  interval_start iv < interval_end iv
  /\ valid_time (interval_start iv) = true /\ valid_time (interval_end iv) = true.

(** Ordered, disjoint and strictly gapped intervals. *)
Definition intervals_valid (ivs : list TradingInterval) : Prop :=
  ivs <> [] /\ Forall interval_valid ivs
  /\ StronglySorted (fun a b => interval_end a < interval_start b) ivs.

Definition effective_valid (e : EffectiveSchedule) : Prop :=
  schedule_valid (eff_default e)
  /\ map_Forall (fun d o => override_date o = d /\ intervals_valid (live_intervals o))
       (eff_overrides e).

(** The NSE regular session of the default settings. *)
Definition nse_schedule : SessionSchedule := {|
  pre_open_start := hm 9 0; opening_auction_start := hm 9 8;
  regular_open := hm 9 15; regular_close := hm 15 30; closing_end := hm 16 0 |}.

Lemma nse_schedule_valid : schedule_valid nse_schedule.
Proof. by split. Qed.

Lemma mk_schedule_ok s s' :
  valid_time (pre_open_start s) = true -> valid_time (closing_end s) = true ->
  mk_schedule s = Ok s' -> s' = s /\ schedule_valid s.
Proof.
  intros Hp He. unfold mk_schedule. cbn.
  intros (? & H%raise_if_ok & [= <-])%bind_ok. zbool. split; [done|]. by split.
Qed.

Lemma bounds_valid s : schedule_valid s -> interval_valid (bounds s).
Proof.
  intros [H1 H2 H3 H4 H5 H6]. unfold interval_valid, valid_time in *. cbn. zbool. lia.
Qed.

#[export] Hint Resolve bounds_valid nse_schedule_valid : apex.

(** ** Phases *)

(** On a valid schedule each phase is exactly one half-open stretch of the day. *)
Lemma phase_for_live s t :
  schedule_valid s -> phase_for s t = LIVE_SESSION <-> regular_open s <= t < regular_close s.
Proof.
  intros [_ _ H3 H4 H5 H6]. unfold phase_for. split.
  - intros H. split_ifs; try done. zbool. lia.
  - intros [? ?]. repeat match goal with |- context [?a <? ?b] =>
      first [replace (a <? b) with true by lia | replace (a <? b) with false by lia] end. done.
Qed.

(** The phases in clock order. *)
Definition phase_rank (m : MarketState) : option Z :=
  match m with
  | PRE_OPEN => Some 1 | OPENING_AUCTION => Some 2 | LIVE_SESSION => Some 3
  | CLOSING_SESSION => Some 4 | _ => None
  end.

Lemma phase_for_cases s t :
  schedule_valid s ->
  match phase_for s t with
  | PRE_OPEN => pre_open_start s <= t < opening_auction_start s
  | OPENING_AUCTION => opening_auction_start s <= t < regular_open s
  | LIVE_SESSION => regular_open s <= t < regular_close s
  | CLOSING_SESSION => regular_close s <= t < closing_end s
  | MARKET_CLOSED => t < pre_open_start s \/ closing_end s <= t
  | _ => False
  end.
Proof. intros []. unfold phase_for. split_ifs; zbool; lia. Qed.

Lemma phase_for_ordinary s t :
  phase_for s t <> HOLIDAY /\ phase_for s t <> EMERGENCY_HALT
  /\ phase_for s t <> CALENDAR_UNAVAILABLE.
Proof. unfold phase_for. split_ifs; done. Qed.

(** During one day the phases only move forward. *)
Lemma phase_rank_monotone s t1 t2 r1 r2 :
  schedule_valid s -> t1 <= t2 ->
  phase_rank (phase_for s t1) = Some r1 -> phase_rank (phase_for s t2) = Some r2 -> r1 <= r2.
Proof.
  intros Hs Ht H1 H2. pose proof (phase_for_cases s t1 Hs) as C1.
  pose proof (phase_for_cases s t2 Hs) as C2. destruct Hs.
  destruct (phase_for s t1), (phase_for s t2); cbn in *; simplify_eq; lia.
Qed.

(** ** The classifier *)

(** The decision table of [classify]: each state names its exact condition. *)
Definition session_spec (c : MarketSessionClassifier) (d : date) (t : time) (halt : bool)
    (m : MarketState) : Prop :=
  let covered := forall cov, cls_coverage c = Some cov ->
    cov_start_date cov <= d <= cov_end_date cov in
  let trading := is_trading_day (cls_calendar c) d = true in
  match m with
  | CALENDAR_UNAVAILABLE => ~ covered
  | HOLIDAY => covered /\ ~ trading
  | EMERGENCY_HALT => covered /\ trading /\ halt = true
  | m => covered /\ trading /\ halt = false /\ phase_for (cls_schedule c) t = m
  end.

Lemma state_for_spec c d t halt m :
  state_for c d t halt = m <-> session_spec c d t halt m.
Proof.
  assert (Hcov : match cls_coverage c with Some cv => negb (contains cv d) | None => false end = true
    <-> ~ forall cov, cls_coverage c = Some cov -> cov_start_date cov <= d <= cov_end_date cov).
  { destruct (cls_coverage c) as [cv|]; unfold contains.
    - split.
      + intros H HH. specialize (HH _ eq_refl). zbool. lia.
      + intros H. apply negb_true_iff, not_true_iff_false. intros HH. apply H.
        intros cov [= <-]. zbool. lia.
    - split; [done|]. intros H. exfalso. apply H. done. }
  unfold state_for, session_spec.
  destruct (match cls_coverage c with Some cv => negb (contains cv d) | None => false end) eqn:E1.
  - assert (~ forall cov, cls_coverage c = Some cov -> cov_start_date cov <= d <= cov_end_date cov)
      by (by apply Hcov).
    split; [by intros <-|]. destruct m; tauto.
  - assert (forall cov, cls_coverage c = Some cov -> cov_start_date cov <= d <= cov_end_date cov) as Hc.
    { intros cov Hcov'. rewrite Hcov' in E1. unfold contains in E1. zbool. lia. }
    clear Hcov E1. destruct (is_trading_day (cls_calendar c) d), halt; cbn.
    + split; [by intros <-|]. destruct m; intuition congruence.
    + pose proof (phase_for_ordinary (cls_schedule c) t) as (O1 & O2 & O3). split.
      * intros <-. destruct (phase_for (cls_schedule c) t); intuition congruence.
      * destruct m; intuition congruence.
    + split; [by intros <-|]. destruct m; intuition congruence.
    + split; [by intros <-|]. destruct m; intuition congruence.
Qed.

(** ** Previous trading days *)

(** The specification: the nearest earlier trading day, reached through covered
    non-trading days only. *)
Definition nearest_trading_day (w : HistoricalCalendarWindow) (reference d : date) : Prop :=
  d < reference
  /\ contains (win_coverage w) d = true
  /\ is_trading_day (win_calendar w) d = true
  /\ forall x, d < x < reference ->
       contains (win_coverage w) x = true /\ is_trading_day (win_calendar w) x = false.

Lemma previous_loop_total w fuel cursor :
  (Z.to_nat (cursor - cov_start_date (win_coverage w) + 1) < fuel)%nat ->
  is_Some (previous_loop w fuel cursor).
Proof.
  revert cursor. induction fuel as [|fuel IH]; intros cursor Hf; [lia|]. cbn.
  destruct (contains (win_coverage w) cursor) eqn:Ec; [|by eexists].
  destruct (is_trading_day _ _); [by eexists|].
  apply IH. unfold contains in Ec. zbool. lia.
Qed.

(** Enough fuel: the loop always answers. *)
Lemma previous_loop_answers w reference :
  is_Some (previous_loop w (previous_fuel w reference) (reference - 1)).
Proof. apply previous_loop_total. unfold previous_fuel. lia. Qed.

Lemma previous_loop_ok w fuel cursor d :
  previous_loop w fuel cursor = Some (Ok d) -> nearest_trading_day w (cursor + 1) d.
Proof.
  revert cursor. induction fuel as [|fuel IH]; intros cursor; cbn; [done|].
  destruct (contains (win_coverage w) cursor) eqn:Ec; [|done].
  destruct (is_trading_day _ cursor) eqn:Et.
  - intros [= <-]. unfold nearest_trading_day. repeat split; try done; lia.
  - intros (Hlt & Hc & Hd & Hall)%IH. repeat split; try done; [lia|..].
    all: intros; destruct (decide (x = cursor)) as [->|]; try done; apply Hall; lia.
Qed.

Lemma previous_loop_raise w fuel cursor e :
  previous_loop w fuel cursor = Some (Raise e) ->
  e = OutsideCalendarCoverageError /\ forall d, ~ nearest_trading_day w (cursor + 1) d.
Proof.
  revert cursor. induction fuel as [|fuel IH]; intros cursor; cbn; [done|].
  destruct (contains (win_coverage w) cursor) eqn:Ec.
  - destruct (is_trading_day _ cursor) eqn:Et; [done|].
    intros (-> & Hno)%IH. split; [done|]. intros d (Hlt & Hc & Hd & Hall).
    destruct (decide (d = cursor)) as [->|]; [congruence|].
    apply (Hno d). repeat split; try done; try lia; intros; apply Hall; lia.
  - intros [= <-]. split; [done|]. intros d (Hlt & Hc & Hd & Hall).
    destruct (decide (d = cursor)) as [->|]; [congruence|].
    destruct (Hall cursor); [lia|congruence].
Qed.

Lemma previous_trading_day_ok w reference d :
  previous_trading_day w reference = Ok d <-> nearest_trading_day w reference d.
Proof.
  unfold previous_trading_day.
  destruct (previous_loop_answers w reference) as [r Hr]. rewrite Hr. cbn.
  destruct r as [d'|e].
  - apply previous_loop_ok in Hr. replace (reference - 1 + 1) with reference in Hr by lia.
    split; [by intros [= <-]|]. intros Hd. f_equal.
    destruct Hr as (H1 & _ & H3 & H4), Hd as (G1 & _ & G3 & G4).
    destruct (Z.lt_trichotomy d' d) as [Hlt|[?|Hlt]]; [|done|].
    + destruct (H4 d); [lia|congruence].
    + destruct (G4 d'); [lia|congruence].
  - apply previous_loop_raise in Hr as [-> Hno].
    replace (reference - 1 + 1) with reference in Hno by lia.
    split; [done|]. intros Hd. by destruct (Hno d).
Qed.

Lemma previous_trading_day_raise w reference e :
  previous_trading_day w reference = Raise e ->
  e = OutsideCalendarCoverageError /\ forall d, ~ nearest_trading_day w reference d.
Proof.
  unfold previous_trading_day.
  destruct (previous_loop_answers w reference) as [r Hr]. rewrite Hr. cbn. intros ->.
  apply previous_loop_raise in Hr. by replace (reference - 1 + 1) with reference in Hr by lia.
Qed.

(** Each date of the run is the nearest trading day before the one after it. *)
Inductive descending_run (w : HistoricalCalendarWindow) : date -> list date -> Prop :=
| run_nil r : descending_run w r []
| run_cons r d ds : nearest_trading_day w r d -> descending_run w d ds -> descending_run w r (d :: ds).

Lemma collect_previous_ok w n r ds :
  collect_previous w n r = Ok ds <-> length ds = n /\ descending_run w r ds.
Proof.
  revert r ds. induction n as [|n IH]; intros r ds; cbn.
  - split; [intros [= <-]; split; [done|constructor]|]. intros [H _]. by destruct ds.
  - split.
    + intros (d & Hd%previous_trading_day_ok & (ds' & (Hl & Hr)%IH & [= <-])%bind_ok)%bind_ok.
      cbn. split; [lia|by constructor].
    + intros [Hl Hr]. destruct Hr as [|r d ds Hd Hr]; [done|].
      apply previous_trading_day_ok in Hd. rewrite Hd. cbn in *.
      assert (collect_previous w n d = Ok ds) as -> by (apply IH; split; [lia|done]). done.
Qed.

Lemma descending_run_sorted w r ds :
  descending_run w r ds -> StronglySorted (fun a b => b < a) (r :: ds).
Proof.
  induction 1 as [|r d ds Hd Hr IH]; [by repeat constructor|].
  constructor; [done|]. destruct Hd as [Hlt _]. constructor; [done|].
  inversion IH as [|? ? _ Hall]; subst. eapply Forall_impl; [exact Hall|]. cbn. lia.
Qed.

Lemma descending_run_trading w r ds :
  descending_run w r ds ->
  Forall (fun d => d < r /\ contains (win_coverage w) d = true
                   /\ is_trading_day (win_calendar w) d = true) ds.
Proof.
  induction 1 as [|r d ds Hd Hr IH]; [constructor|].
  destruct Hd as (? & ? & ? & _). constructor; [done|].
  eapply Forall_impl; [exact IH|]. cbn. intros x (? & ? & ?). repeat split; [lia|done|done].
Qed.

(** No trading day between the oldest collected one and the reference is skipped. *)
Lemma descending_run_complete w r ds x o :
  descending_run w r ds -> last ds = Some o -> o <= x < r ->
  is_trading_day (win_calendar w) x = true -> x ∈ ds.
Proof.
  intros Hr. revert o. induction Hr as [|r d ds Hd Hr IH]; intros o Hlast Hx Ht; [done|].
  destruct Hd as (Hlt & Hc & Htd & Hall).
  destruct (decide (x = d)) as [->|]; [apply list_elem_of_here|].
  destruct (decide (d < x)) as [|Hle].
  - destruct (Hall x); [lia|congruence].
  - destruct ds as [|d' ds]; [cbn in Hlast; simplify_eq; lia|].
    apply list_elem_of_further, (IH o); [done|lia|done].
Qed.

Lemma StronglySorted_reverse ds :
  StronglySorted (fun a b => b < a) ds -> StronglySorted Z.lt (reverse ds).
Proof.
  induction 1 as [|d ds Hs IH Hall]; [constructor|]. rewrite reverse_cons.
  apply StronglySorted_app. split; [|split; [done|]].
  2: { constructor; constructor. }
  intros x y Hx Hy%list_elem_of_singleton. subst. rewrite elem_of_reverse in Hx.
  rewrite Forall_forall in Hall. exact (Hall x Hx).
Qed.

(** * Properties *)

(** The classifier's decision table is exact and exclusive: an instant gets
    a market state if and only if that state's condition holds on its
    exchange-local date and time (out of coverage first, then non-trading day,
    then halt, then the clock phase), and the stamped trading date is the local
    date. *)
Theorem classify_session_exact (c : MarketSessionClassifier) (i : instant) (halt : bool)
    (m : MarketState) :
  (market_state (classify_session c i halt) = m
   <-> session_spec c (local_date (cls_timezone c) i) (local_time (cls_timezone c) i) halt m)
  /\ ctx_trading_date (classify_session c i halt) = local_date (cls_timezone c) i.
Proof. split; [apply state_for_spec|done]. Qed.

(** [previous_trading_days] answers with exactly [count] dates in
    increasing order, all covered trading days before the reference, and skips
    none: every trading day from the oldest one up to the reference is in the
    answer. *)
Theorem previous_trading_days_correct (w : HistoricalCalendarWindow) (reference : date)
    (count : Z) (ds : list date)
    (H : previous_trading_days w reference count = Ok ds) :
  Z.of_nat (length ds) = count
  /\ StronglySorted Z.lt ds
  /\ Forall (fun d => d < reference /\ contains (win_coverage w) d = true
                      /\ is_trading_day (win_calendar w) d = true) ds
  /\ (forall o x, head ds = Some o -> o <= x < reference ->
        is_trading_day (win_calendar w) x = true -> x ∈ ds).
Proof.
  unfold previous_trading_days in H.
  apply bind_ok in H as ([] & Hc%raise_if_ok & (l & (Hl & Hr)%collect_previous_ok & [= <-])%bind_ok).
  zbool. split_and!.
  - rewrite length_reverse. lia.
  - pose proof (descending_run_sorted _ _ _ Hr) as Hs. inversion Hs as [|? ? Hs' _]; subst.
    by apply StronglySorted_reverse.
  - by apply Forall_reverse, descending_run_trading.
  - intros o x Ho Hx Ht. rewrite elem_of_reverse.
    apply (descending_run_complete w reference l x o); try done. by rewrite <- head_reverse.
Qed.

(** A two-week window around Republic Day 2026 (Monday 26 January is closed). *)
Definition window_2026 : HistoricalCalendarWindow := {|
  win_calendar := {| closed_dates := {[20479]}; open_sessions := ∅;
                     weekend_days := list_to_set default_weekend |};
  win_coverage := {| cov_start_date := 20454; cov_end_date := 20818 |} |}.

Lemma previous_trading_days_correct_witness :
  previous_trading_days window_2026 20480 2 = Ok [20475; 20476]
  /\ StronglySorted Z.lt [20475; 20476].
Proof.
  assert (previous_trading_days window_2026 20480 2 = Ok [20475; 20476]) as H by reflexivity.
  split; [exact H|].
  exact (proj1 (proj2 (previous_trading_days_correct window_2026 20480 2 _ H))).
Defined.
