(* ===== verification/Buckets.v ===== *)
(** Session-relative candle buckets: [market_engine/buckets.py], the one
    algorithm the live candle engine and historical reconstruction share.

    Python's [timedelta // timedelta] floors, so it is [Z.div]; arithmetic on
    [open_local] is wall-clock arithmetic; only the returned bounds go through
    the zone. *)
From S2P Require Import Prelude PyTime Timeframe Session.

Local Open Scope Z_scope.

Abbreviation bucket := (Z * instant * instant)%type (only parsing).

(** [bucket_bounds] *)
Definition bucket_bounds (event_timestamp : instant) (trading_date : date)
    (timeframe : Timeframe) (interval : TradingInterval) (timezone : ZoneInfo) : bucket :=
  let open_local := combine trading_date (interval_start interval) in
  let close_local := combine trading_date (interval_end interval) in
  match duration timeframe with
  | None => (0, wall_to_utc timezone open_local, wall_to_utc timezone close_local)
  | Some d =>
      let local := utc_to_wall timezone event_timestamp in
      let index := (local - open_local) / d in
      let start_local := open_local + index * d in
      let end_local := Z.min (start_local + d) close_local in
      (index, wall_to_utc timezone start_local, wall_to_utc timezone end_local)
  end.

(** The [while cursor < close_local] loop of [session_buckets]; [None] is an
    exhausted bound. *)
Fixpoint buckets_loop (fuel : nat) (timezone : ZoneInfo) (d : timedelta) (close_local : wall)
    (index : Z) (cursor : wall) : option (list bucket) :=
  match fuel with
  | O => None
  | S fuel =>
      if cursor <? close_local then
        let end_local := Z.min (cursor + d) close_local in
        rest ← buckets_loop fuel timezone d close_local (index + 1) (cursor + d);
        Some ((index, wall_to_utc timezone cursor, wall_to_utc timezone end_local) :: rest)
      else Some []
  end.

(** One iteration per started bucket, and one to leave. *)
Definition buckets_fuel (d : timedelta) (open_local close_local : wall) : nat :=
  S (Z.to_nat ((close_local - open_local) / d + 1)).

(** [session_buckets] *)
Definition session_buckets (trading_date : date) (timeframe : Timeframe)
    (interval : TradingInterval) (timezone : ZoneInfo) : list bucket :=
  let open_local := combine trading_date (interval_start interval) in
  let close_local := combine trading_date (interval_end interval) in
  match duration timeframe with
  | None => [(0, wall_to_utc timezone open_local, wall_to_utc timezone close_local)]
  | Some d =>
      default [] (buckets_loop (buckets_fuel d open_local close_local) timezone d close_local 0 open_local)
  end.

(** Renumber a run of buckets from [index]: the inner loop of [day_buckets]. *)
Fixpoint renumber (index : Z) (bs : list bucket) : list bucket :=
  match bs with
  | [] => []
  | (_, s, e) :: bs => (index, s, e) :: renumber (index + 1) bs
  end.

(** The two nested loops of [day_buckets] with the running global index. *)
Fixpoint day_buckets_from (index : Z) (trading_date : date) (timeframe : Timeframe)
    (intervals : list TradingInterval) (timezone : ZoneInfo) : list bucket :=
  match intervals with
  | [] => []
  | iv :: rest =>
      let bs := session_buckets trading_date timeframe iv timezone in
      renumber index bs
        ++ day_buckets_from (index + Z.of_nat (length bs)) trading_date timeframe rest timezone
  end.

(** [day_buckets] *)
Definition day_buckets (trading_date : date) (timeframe : Timeframe)
    (intervals : list TradingInterval) (timezone : ZoneInfo) : list bucket :=
  day_buckets_from 0 trading_date timeframe intervals timezone.

(** * Closed form of the loop *)

(** Bucket [i] of an interval [[o, c)] cut in widths of [d]. *)
Definition nth_bucket (timezone : ZoneInfo) (d : timedelta) (o c : wall) (i : Z) : bucket :=
  (i, wall_to_utc timezone (o + i * d), wall_to_utc timezone (Z.min (o + i * d + d) c)).

(** How many buckets start before [c]. *)
Definition bucket_count (d : timedelta) (o c : wall) : nat := Z.to_nat ((c - o + d - 1) / d).

Lemma bucket_count_step d o c :
  0 < d -> o < c -> bucket_count d o c = S (bucket_count d (o + d) c).
Proof.
  intros Hd Hoc. unfold bucket_count.
  replace (c - o + d - 1) with (c - (o + d) + d - 1 + 1 * d) by lia.
  rewrite Z.div_add by lia.
  assert (0 <= (c - (o + d) + d - 1) / d) by (apply Z.div_pos; lia). lia.
Qed.

Lemma bucket_count_zero d o c : 0 < d -> c <= o -> bucket_count d o c = 0%nat.
Proof.
  intros Hd Hoc. unfold bucket_count.
  assert ((c - o + d - 1) / d < 1) by (apply Z.div_lt_upper_bound; lia). lia.
Qed.

Lemma buckets_loop_closed tz d c fuel k o :
  0 < d -> (bucket_count d (o + k * d) c < fuel)%nat ->
  buckets_loop fuel tz d c k (o + k * d)
  = Some (nth_bucket tz d o c <$> seqZ k (Z.of_nat (bucket_count d (o + k * d) c))).
Proof.
  intros Hd. revert k. induction fuel as [|fuel IH]; intros k Hf; [lia|]. cbn.
  destruct (o + k * d <? c) eqn:E; zbool.
  - rewrite (bucket_count_step d (o + k * d) c) in * by lia.
    replace (o + k * d + d) with (o + (k + 1) * d) in * by lia.
    rewrite IH by lia. rewrite Nat2Z.inj_succ, (seqZ_cons k) by lia. cbn.
    rewrite Z.pred_succ, <- Z.add_1_r.
    do 3 f_equal. unfold nth_bucket. do 3 f_equal. lia.
  - by rewrite bucket_count_zero by lia.
Qed.

(** The fuel of [session_buckets] is enough: with a positive width the loop
    ends, and its result has this closed form. *)
Lemma buckets_loop_answers tz d o c :
  0 < d ->
  buckets_loop (buckets_fuel d o c) tz d c 0 o
  = Some (nth_bucket tz d o c <$> seqZ 0 (Z.of_nat (bucket_count d o c))).
Proof.
  intros Hd. pose proof (buckets_loop_closed tz d c (buckets_fuel d o c) 0 o Hd) as H.
  replace (o + 0 * d) with o in H by lia. apply H.
  unfold buckets_fuel, bucket_count.
  destruct (decide (c <= o)).
  - assert ((c - o + d - 1) / d < 1) by (apply Z.div_lt_upper_bound; lia). lia.
  - assert ((c - o + d - 1) / d <= (c - o) / d + 1).
    { replace (c - o + d - 1) with ((c - o - 1) + 1 * d) by lia. rewrite Z.div_add by lia.
      assert ((c - o - 1) / d <= (c - o) / d) by (apply Z.div_le_mono; lia). lia. }
    assert (0 <= (c - o) / d) by (apply Z.div_pos; lia). lia.
Qed.

Lemma session_buckets_closed td t iv tz d :
  duration t = Some d -> 0 < d ->
  session_buckets td t iv tz
  = nth_bucket tz d (combine td (interval_start iv)) (combine td (interval_end iv))
    <$> seqZ 0 (Z.of_nat (bucket_count d (combine td (interval_start iv)) (combine td (interval_end iv)))).
Proof. intros Hd Hp. unfold session_buckets. rewrite Hd. by rewrite buckets_loop_answers. Qed.

Lemma session_buckets_session td iv tz :
  session_buckets td session_timeframe iv tz
  = [(0, wall_to_utc tz (combine td (interval_start iv)), wall_to_utc tz (combine td (interval_end iv)))].
Proof. done. Qed.

(** The index [bucket_bounds] computes is in range exactly inside the interval. *)
Lemma bucket_index_range d o c w :
  0 < d -> o <= w < c -> 0 <= (w - o) / d < Z.of_nat (bucket_count d o c).
Proof.
  intros Hd Hw. assert (0 <= (w - o) / d) by (apply Z.div_pos; lia). split; [done|].
  unfold bucket_count.
  assert ((w - o) / d + 1 <= (c - o + d - 1) / d).
  { apply Z.div_le_lower_bound; [lia|].
    pose proof (Z.mul_div_le (w - o) d). lia. }
  lia.
Qed.

Lemma bucket_count_start d o c i :
  0 < d -> 0 <= i -> i < Z.of_nat (bucket_count d o c) <-> o + i * d < c.
Proof.
  intros Hd Hi. unfold bucket_count. split; intros H.
  - assert (i + 1 <= (c - o + d - 1) / d) as Hle by lia.
    assert ((i + 1) * d <= c - o + d - 1); [|lia].
    pose proof (Z.mul_div_le (c - o + d - 1) d). nia.
  - assert (i + 1 <= (c - o + d - 1) / d) by (apply Z.div_le_lower_bound; lia). lia.
Qed.

Lemma elem_of_session_buckets td t iv tz d b :
  duration t = Some d -> 0 < d ->
  let o := combine td (interval_start iv) in
  let c := combine td (interval_end iv) in
  b ∈ session_buckets td t iv tz <-> exists i, 0 <= i /\ o + i * d < c /\ b = nth_bucket tz d o c i.
Proof.
  intros Hd Hp o c. rewrite (session_buckets_closed _ _ _ _ d) by done. fold o c.
  rewrite list_elem_of_fmap. setoid_rewrite elem_of_seqZ. split.
  - intros (i & -> & Hi). exists i. rewrite <- bucket_count_start by lia. split_and!; [lia|lia|done].
  - intros (i & H0 & Hi & ->). exists i. split; [done|].
    apply bucket_count_start in Hi; lia.
Qed.

(** The bucket located for an instant inside the interval is the enumerated one. *)
Lemma bucket_bounds_lookup td t iv tz e :
  timeframe_valid t ->
  let o := combine td (interval_start iv) in
  let c := combine td (interval_end iv) in
  o <= utc_to_wall tz e < c ->
  exists n, session_buckets td t iv tz !! n = Some (bucket_bounds e td t iv tz)
            /\ fst (fst (bucket_bounds e td t iv tz)) = Z.of_nat n.
Proof.
  intros Ht o c Hw. destruct (duration t) as [d|] eqn:Hd.
  - pose proof (timeframe_valid_duration _ _ Ht Hd) as Hp.
    pose proof (bucket_index_range d o c _ Hp Hw) as [H0 H1].
    exists (Z.to_nat ((utc_to_wall tz e - o) / d)).
    rewrite (session_buckets_closed _ _ _ _ d) by done. fold o c.
    rewrite list_lookup_fmap, lookup_seqZ_lt by lia.
    unfold bucket_bounds. rewrite Hd. fold o c. cbn.
    rewrite Z2Nat.id by lia. split; [|done]. by rewrite Z.add_0_l.
  - exists 0%nat. unfold session_buckets, bucket_bounds. rewrite Hd. done.
Qed.

(** Membership of an instant in a bucket, on the wall clock. *)
Lemma nth_bucket_covers d o c i w :
  0 < d -> 0 <= i -> o + i * d < c -> o <= w < c ->
  o + i * d <= w < Z.min (o + i * d + d) c <-> (w - o) / d = i.
Proof.
  intros Hd Hi Hs Hw. split.
  - intros [H1 H2]. symmetry. apply (Z.div_unique_pos _ _ _ (w - o - d * i)); lia.
  - intros <-. pose proof (Z.mul_div_le (w - o) d Hd). pose proof (Z.mul_succ_div_gt (w - o) d Hd).
    lia.
Qed.

Lemma bucket_bounds_intraday e td t iv tz d :
  duration t = Some d ->
  bucket_bounds e td t iv tz
  = nth_bucket tz d (combine td (interval_start iv)) (combine td (interval_end iv))
      ((utc_to_wall tz e - combine td (interval_start iv)) / d).
Proof. intros Hd. unfold bucket_bounds. by rewrite Hd. Qed.

(** ** Day buckets *)

Lemma renumber_index k bs : (fst ∘ fst) <$> renumber k bs = seqZ k (Z.of_nat (length bs)).
Proof.
  revert k. induction bs as [|[[i s] e] bs IH]; intros k; [done|]. cbn [renumber].
  rewrite fmap_cons, IH. cbn [length]. rewrite Nat2Z.inj_succ, (seqZ_cons k) by lia.
  cbn. by rewrite Z.pred_succ, Z.add_1_r.
Qed.

Lemma length_renumber k bs : length (renumber k bs) = length bs.
Proof. revert k. induction bs as [|[[i s] e] bs IH]; intros; cbn; auto. Qed.

Lemma renumber_id k bs : (fst ∘ fst) <$> bs = seqZ k (Z.of_nat (length bs)) -> renumber k bs = bs.
Proof.
  revert k. induction bs as [|[[i s] e] bs IH]; intros k; [done|].
  cbn [length]. rewrite Nat2Z.inj_succ, (seqZ_cons k) by lia. rewrite fmap_cons. cbn.
  rewrite Z.pred_succ. intros [= -> H]. f_equal. apply IH. rewrite H. by rewrite Z.add_1_r.
Qed.

Lemma session_buckets_index td t iv tz :
  timeframe_valid t ->
  (fst ∘ fst) <$> session_buckets td t iv tz = seqZ 0 (Z.of_nat (length (session_buckets td t iv tz))).
Proof.
  intros Ht. destruct (duration t) as [d|] eqn:Hd.
  - rewrite (session_buckets_closed _ _ _ _ d) by eauto using timeframe_valid_duration.
    rewrite length_fmap, length_seqZ, Nat2Z.id, <- list_fmap_compose.
    rewrite <- (list_fmap_id (seqZ 0 _)) at 2. done.
  - unfold session_buckets. rewrite Hd. done.
Qed.

Lemma day_buckets_from_index k td t ivs tz :
  (fst ∘ fst) <$> day_buckets_from k td t ivs tz
  = seqZ k (Z.of_nat (length (day_buckets_from k td t ivs tz))).
Proof.
  revert k. induction ivs as [|iv ivs IH]; intros k; [done|]. cbn [day_buckets_from].
  rewrite fmap_app, renumber_index, IH, length_app, length_renumber, Nat2Z.inj_add.
  by rewrite <- seqZ_app by lia.
Qed.

Lemma elem_of_renumber k bs b :
  b ∈ renumber k bs -> exists i, (i, snd (fst b), snd b) ∈ bs.
Proof.
  revert k. induction bs as [|[[i s] e] bs IH]; intros k; cbn [renumber].
  - by intros ?%elem_of_nil.
  - intros [->|H]%elem_of_cons; [exists i; cbn; set_solver|].
    destruct (IH _ H) as [j Hj]. exists j. set_solver.
Qed.

Lemma elem_of_day_buckets_from k td t ivs tz b :
  b ∈ day_buckets_from k td t ivs tz ->
  exists iv i, iv ∈ ivs /\ (i, snd (fst b), snd b) ∈ session_buckets td t iv tz.
Proof.
  revert k. induction ivs as [|iv ivs IH]; intros k; cbn [day_buckets_from].
  - by intros ?%elem_of_nil.
  - intros [H|H]%elem_of_app.
    + destruct (elem_of_renumber _ _ _ H) as [i Hi]. exists iv, i. set_solver.
    + destruct (IH _ H) as (iv' & i & ? & ?). exists iv', i. set_solver.
Qed.

(** Under a fixed offset a bucket lies inside its interval. *)
Lemma session_bucket_inside td t iv tz off `{!FixedOffset tz off} i s e :
  timeframe_valid t -> interval_start iv < interval_end iv ->
  (i, s, e) ∈ session_buckets td t iv tz ->
  wall_to_utc tz (combine td (interval_start iv)) <= s
  /\ s < e /\ e <= wall_to_utc tz (combine td (interval_end iv)).
Proof.
  intros Ht Hiv Hb. rewrite !(fixed_to_utc (tz := tz)).
  destruct (duration t) as [d|] eqn:Hd.
  - pose proof (timeframe_valid_duration _ _ Ht Hd) as Hp.
    destruct (proj1 (elem_of_session_buckets td t iv tz d _ Hd Hp) Hb) as (j & Hj & Hlt & Heq).
    unfold nth_bucket in Heq. rewrite !(fixed_to_utc (tz := tz)) in Heq. simplify_eq. nia.
  - unfold session_buckets in Hb. rewrite Hd in Hb. apply list_elem_of_singleton in Hb.
    rewrite !(fixed_to_utc (tz := tz)) in Hb. simplify_eq. unfold combine. lia.
Qed.

(** * Properties *)

(** Locating and enumerating agree, and the enumerated buckets partition
    the session: for an instant inside the interval, a bucket of
    [session_buckets] contains it if and only if it is the one [bucket_bounds]
    returns, and that one is enumerated at its own index. *)
Theorem bucket_bounds_partition (e : instant) (td : date) (t : Timeframe)
    (iv : TradingInterval) (tz : ZoneInfo) (off : timedelta)
    (Htz : FixedOffset tz off) (Ht : timeframe_valid t)
    (He : combine td (interval_start iv) <= utc_to_wall tz e < combine td (interval_end iv)) :
  (forall b, b ∈ session_buckets td t iv tz ->
     (snd (fst b) <= e < snd b <-> b = bucket_bounds e td t iv tz))
  /\ exists n, session_buckets td t iv tz !! n = Some (bucket_bounds e td t iv tz)
               /\ fst (fst (bucket_bounds e td t iv tz)) = Z.of_nat n.
Proof.
  split; [|by apply bucket_bounds_lookup].
  intros b Hb. destruct (duration t) as [d|] eqn:Hd.
  - pose proof (timeframe_valid_duration _ _ Ht Hd) as Hp.
    destruct (proj1 (elem_of_session_buckets td t iv tz d b Hd Hp) Hb) as (i & Hi & Hlt & ->).
    rewrite (bucket_bounds_intraday _ _ _ _ _ d) by done.
    rewrite fixed_to_wall in *. unfold nth_bucket at 1 2. cbn [fst snd].
    rewrite !fixed_to_utc.
    pose proof (nth_bucket_covers d (combine td (interval_start iv)) (combine td (interval_end iv))
      i (e + off) Hp Hi Hlt He) as Hc.
    split.
    + intros ?. f_equal. symmetry. apply Hc. lia.
    + intros [= Hidx _ _]. symmetry in Hidx. apply Hc in Hidx. lia.
  - unfold session_buckets in Hb. rewrite Hd in Hb. apply list_elem_of_singleton in Hb as ->.
    unfold bucket_bounds. rewrite Hd. split; [done|]. intros _. cbn [fst snd].
    rewrite fixed_to_wall in He. rewrite !fixed_to_utc. lia.
Qed.

(** The NSE regular session on 27 January 2026 and an event at 09:22 local. *)
Definition event_0922 : instant := combine 20480 (hm 9 22) - 19800 * us_per_second.

Lemma bucket_bounds_partition_witness :
  bucket_bounds event_0922 20480 (tf 5) (bounds nse_schedule) kolkata
  = (1, combine 20480 (hm 3 50), combine 20480 (hm 3 55))
  /\ exists n, session_buckets 20480 (tf 5) (bounds nse_schedule) kolkata !! n
               = Some (bucket_bounds event_0922 20480 (tf 5) (bounds nse_schedule) kolkata)
               /\ fst (fst (bucket_bounds event_0922 20480 (tf 5) (bounds nse_schedule) kolkata)) = Z.of_nat n.
Proof.
  split; [reflexivity|].
  apply (bucket_bounds_partition event_0922 20480 (tf 5) (bounds nse_schedule) kolkata
    (19800 * us_per_second) kolkata_fixed); [reflexivity|split; [discriminate|reflexivity]].
Defined.

(** The enumerated buckets tile the interval for every time zone: they are
    numbered from 0, the first starts at the open, the last ends at the close,
    each ends where the next one starts. *)
Theorem session_buckets_tile (td : date) (t : Timeframe) (iv : TradingInterval) (tz : ZoneInfo)
    (Ht : timeframe_valid t) (Hiv : interval_start iv < interval_end iv) :
  let bs := session_buckets td t iv tz in
  (fst ∘ fst) <$> bs = seqZ 0 (Z.of_nat (length bs))
  /\ (exists b, head bs = Some b /\ snd (fst b) = wall_to_utc tz (combine td (interval_start iv)))
  /\ (exists b, last bs = Some b /\ snd b = wall_to_utc tz (combine td (interval_end iv)))
  /\ (forall n b1 b2, bs !! n = Some b1 -> bs !! S n = Some b2 -> snd b1 = snd (fst b2)).
Proof.
  intros bs. split; [by apply session_buckets_index|]. subst bs.
  destruct (duration t) as [d|] eqn:Hd.
  - pose proof (timeframe_valid_duration _ _ Ht Hd) as Hp.
    rewrite (session_buckets_closed _ _ _ _ d) by done.
    set (o := combine td (interval_start iv)). set (c := combine td (interval_end iv)).
    assert (o < c) as Hoc by (unfold o, c, combine; lia).
    pose proof (bucket_count_step d o c Hp Hoc) as Hn.
    split_and!.
    + rewrite Hn, Nat2Z.inj_succ, seqZ_cons by lia. cbn. eexists. split; [done|]. cbn. f_equal. lia.
    + rewrite Hn. replace (Z.of_nat (S _)) with (Z.of_nat (bucket_count d (o + d) c) + 1) by lia.
      rewrite seqZ_app, fmap_app by lia. rewrite (seqZ_cons _ 1) by lia. replace (Z.pred 1) with 0 by lia.
      rewrite (seqZ_nil _ 0) by lia. rewrite fmap_cons, fmap_nil, last_snoc.
      eexists. split; [done|]. cbn. f_equal. set (k := Z.of_nat (bucket_count d (o + d) c)).
      assert (~ o + (k + 1) * d < c); [|lia].
      rewrite <- (bucket_count_start d o c (k + 1)) by lia. lia.
    + intros n b1 b2 H1 H2. rewrite list_lookup_fmap in H1, H2.
      apply fmap_Some in H1 as (i & Hi & ->), H2 as (j & Hj & ->).
      apply lookup_seqZ in Hi as [-> Hi], Hj as [-> Hj]. cbn. f_equal.
      assert (o + (0 + Z.of_nat (S n)) * d < c); [|lia].
      rewrite <- bucket_count_start by lia. lia.
  - unfold session_buckets. rewrite Hd. split_and!; [by eexists|by eexists|].
    intros n b1 b2 _ H2. by destruct n.
Qed.

Lemma session_buckets_tile_witness :
  length (session_buckets 20480 (tf 7) (bounds nse_schedule) kolkata) = 54%nat
  /\ exists b, last (session_buckets 20480 (tf 7) (bounds nse_schedule) kolkata) = Some b
               /\ snd b = wall_to_utc kolkata (combine 20480 (interval_end (bounds nse_schedule))).
Proof.
  split; [reflexivity|].
  apply (session_buckets_tile 20480 (tf 7) (bounds nse_schedule) kolkata); reflexivity.
Defined.

(** A trading day with several live intervals: the global indices are
    contiguous from 0, one interval gives back [session_buckets], and no bucket
    spans a closure (each one lies inside a single live interval). *)
Theorem day_buckets_correct (td : date) (t : Timeframe) (ivs : list TradingInterval)
    (tz : ZoneInfo) (off : timedelta) (Htz : FixedOffset tz off) (Ht : timeframe_valid t)
    (Hivs : intervals_valid ivs) :
  (fst ∘ fst) <$> day_buckets td t ivs tz = seqZ 0 (Z.of_nat (length (day_buckets td t ivs tz)))
  /\ (forall iv, ivs = [iv] -> day_buckets td t ivs tz = session_buckets td t iv tz)
  /\ (forall b, b ∈ day_buckets td t ivs tz -> exists iv, iv ∈ ivs
        /\ wall_to_utc tz (combine td (interval_start iv)) <= snd (fst b)
        /\ snd (fst b) < snd b
        /\ snd b <= wall_to_utc tz (combine td (interval_end iv))).
Proof.
  split_and!.
  - apply day_buckets_from_index.
  - intros iv ->. unfold day_buckets. cbn. rewrite app_nil_r.
    apply renumber_id, session_buckets_index, Ht.
  - intros b (iv & i & Hiv & Hb)%elem_of_day_buckets_from. exists iv. split; [done|].
    destruct Hivs as (_ & Hall & _). rewrite Forall_forall in Hall.
    eapply session_bucket_inside; [exact Htz|exact Ht|by apply Hall|exact Hb].
Qed.

(** A special session with a mid-day closure. *)
Definition two_blocks : list TradingInterval :=
  [{| interval_start := hm 9 15; interval_end := hm 10 0 |};
   {| interval_start := hm 11 30; interval_end := hm 12 0 |}].

Lemma day_buckets_correct_witness :
  intervals_valid two_blocks
  /\ (fst ∘ fst) <$> day_buckets 20480 (tf 15) two_blocks kolkata
     = seqZ 0 (Z.of_nat (length (day_buckets 20480 (tf 15) two_blocks kolkata))).
Proof.
  assert (intervals_valid two_blocks) as H.
  { split; [discriminate|]. split; repeat constructor. }
  split; [exact H|].
  exact (proj1 (day_buckets_correct 20480 (tf 15) two_blocks kolkata _ kolkata_fixed eq_refl H)).
Defined.
