(* ===== verification/Context.v ===== *)
(** Immutable snapshots: the historical value objects of
    [market_engine/historical/context.py] (with the requirement ordering key of
    [historical/requirements.py]) and the versioned [MarketContext] of
    [market_engine/context.py]. *)
From S2P Require Import Prelude PyTime MarketData Timeframe Session.

Local Open Scope Z_scope.

(** * Historical series *)

(** [timeframe_ordering_key] and the order [sorted] derives from it: intraday
    first by ascending duration, the whole session last. *)
Definition timeframe_ordering_key (t : Timeframe) : bool * Z :=
  (is_session t, default 0 (duration t)).

Definition key_leb (a b : bool * Z) : bool :=
  match fst a, fst b with
  | false, true => true
  | true, false => false
  | _, _ => snd a <=? snd b
  end.

Definition timeframe_leb (a b : Timeframe) : bool :=
  key_leb (timeframe_ordering_key a) (timeframe_ordering_key b).

Record HistoricalSeries : Type := {
  hs_timeframe : Timeframe;
  hs_candles : list Candle;
}.

#[global] Instance HistoricalSeries_eq_dec : EqDecision HistoricalSeries.
Proof. solve_decision. Defined.

(** The key [(c.start_timestamp, c.end_timestamp)], lexicographically. *)
Definition candle_leb (a b : Candle) : bool :=
  if start_timestamp a <? start_timestamp b then true
  else if start_timestamp b <? start_timestamp a then false
  else end_timestamp a <=? end_timestamp b.

(** One step of the adjacent-pair loop of [HistoricalSeries._validate_identity]. *)
Definition validate_adjacent (p : Candle * Candle) : result unit :=
  let '(previous, current) := p in
  _ ← raise_if ((start_timestamp current =? start_timestamp previous)
                && (end_timestamp current =? end_timestamp previous))
    (ValidationError "a historical series must not contain duplicate intervals");
  raise_if (start_timestamp current <? end_timestamp previous)
    (ValidationError "a historical series must not contain overlapping intervals").

(** [len({c.instrument for c in candles}) != 1] *)
Definition distinct_instruments (cs : list Candle) : gset Instrument :=
  list_to_set (candle_instrument <$> cs).

(** [HistoricalSeries(timeframe=..., candles=...)]: [_order_candles] before
    validation, [_validate_identity] after. *)
Definition mk_series (t : Timeframe) (candles : list Candle) : result HistoricalSeries :=
  let ordered := py_sorted candle_leb candles in
  _ ← raise_if (match ordered with [] => true | _ => false end)
    (ValidationError "a historical series must contain at least one candle");
  _ ← raise_if (negb (size (distinct_instruments ordered) =? 1)%nat)
    (ValidationError "all candles in a series must share one instrument");
  _ ← for_each validate_adjacent (pairwise ordered);
  Ok {| hs_timeframe := t; hs_candles := ordered |}.

(** [HistoricalSeries.instrument]: the first candle's. *)
Definition hs_instrument (s : HistoricalSeries) : option Instrument :=
  candle_instrument <$> head (hs_candles s).

Record PreviousSessionFacts : Type := {
  ps_trading_date : date;
  ps_candle : Candle;
}.

#[global] Instance PreviousSessionFacts_eq_dec : EqDecision PreviousSessionFacts.
Proof. solve_decision. Defined.

Record HistoricalContext : Type := {
  hc_instrument : Instrument;
  hc_previous_session : option PreviousSessionFacts;
  hc_series : list HistoricalSeries;
}.

#[global] Instance HistoricalContext_eq_dec : EqDecision HistoricalContext.
Proof. solve_decision. Defined.

(** [HistoricalContext(...)]: [_order_series], then [_validate_membership]. *)
Definition mk_historical_context (i : Instrument) (previous : option PreviousSessionFacts)
    (series : list HistoricalSeries) : result HistoricalContext :=
  let ordered := py_sorted (fun a b => timeframe_leb (hs_timeframe a) (hs_timeframe b)) series in
  let timeframes := hs_timeframe <$> ordered in
  _ ← raise_if (negb (size (list_to_set timeframes : gset Timeframe) =? length timeframes)%nat)
    (ValidationError "a historical context may hold at most one series per timeframe");
  _ ← for_each (fun item => raise_if (negb (bool_decide (hs_instrument item = Some i)))
    (ValidationError "every series must belong to the context instrument")) ordered;
  _ ← raise_if (match previous with
                | Some p => negb (bool_decide (candle_instrument (ps_candle p) = i))
                | None => false
                end)
    (ValidationError "previous-session facts must belong to the context instrument");
  Ok {| hc_instrument := i; hc_previous_session := previous; hc_series := ordered |}.

(** * Candle facts *)

Inductive CandleQuality : Type :=
| COMPLETE | INCOMPLETE_OHLC | INCOMPLETE_VOLUME | FEED_GAP.

#[global] Instance CandleQuality_eq_dec : EqDecision CandleQuality.
Proof. solve_decision. Defined.

Record PartialCandle : Type := {
  pc_start_timestamp : instant;
  pc_end_timestamp : instant;
  pc_open_price : Decimal;
  pc_high_price : Decimal;
  pc_low_price : Decimal;
  pc_close_price : Decimal;
  pc_traded_quantity : option Z;
  pc_quality : CandleQuality;
}.

Record IncompleteCandle : Type := {
  ic_instrument : Instrument;
  ic_timeframe : Timeframe;
  ic_start_timestamp : instant;
  ic_end_timestamp : instant;
  ic_open_price : Decimal;
  ic_high_price : Decimal;
  ic_low_price : Decimal;
  ic_close_price : Decimal;
  ic_traded_quantity : option Z;
  ic_quality : CandleQuality;
}.

Record TimeframeCandles : Type := {
  tc_timeframe : Timeframe;
  tc_partial : option PartialCandle;
  tc_finalized : list Candle;
  tc_incomplete : list IncompleteCandle;
}.

(** * Session statistics *)

Inductive SessionStatisticsQuality : Type := AUTHORITATIVE | UNAVAILABLE.

#[global] Instance SessionStatisticsQuality_eq_dec : EqDecision SessionStatisticsQuality.
Proof. solve_decision. Defined.

Record SessionStatistics : Type := {
  ss_trading_date : date;
  ss_open_price : option Decimal;
  ss_high_price : option Decimal;
  ss_low_price : option Decimal;
  ss_quality : SessionStatisticsQuality;
  ss_as_of : instant;
}.

#[global] Instance SessionStatistics_eq_dec : EqDecision SessionStatistics.
Proof. solve_decision. Defined.

(** [SessionStatistics._validate_quality_consistency] after the field bounds. *)
Definition validate_quality_consistency (self : SessionStatistics) : result unit :=
  _ ← raise_if (negb (opt_positive (ss_open_price self) && opt_positive (ss_high_price self)
                      && opt_positive (ss_low_price self))) (ValidationError "greater_than");
  match ss_quality self with
  | UNAVAILABLE =>
      raise_if (is_not_none (ss_open_price self) || is_not_none (ss_high_price self)
                || is_not_none (ss_low_price self))
        (ValidationError "unavailable session statistics must carry no prices")
  | AUTHORITATIVE =>
      match ss_open_price self, ss_high_price self, ss_low_price self with
      | Some o, Some h, Some l =>
          _ ← raise_if (dec_ltb h l)
            (ValidationError "session high price must be greater than or equal to low price");
          raise_if (negb (dec_leb l o && dec_leb o h))
            (ValidationError "session open price must be within the high-low range")
      | _, _, _ => Raise (ValidationError "authoritative session statistics require open, high, and low prices")
      end
  end.

(** * MarketContext *)

Inductive FactValue : Type :=
| FDecimal (d : Decimal) | FInt (n : Z) | FStr (s : string) | FBool (b : bool).

Record MarketFact : Type := {
  fact_name : string;
  fact_value : FactValue;
}.

Record MarketContext : Type := {
  mc_instrument : Instrument;
  mc_version : Z;
  mc_sequence : Z;
  mc_event_timestamp : instant;
  mc_observed_at : instant;
  mc_latest_tick : option Tick;
  mc_latest_quote : option Quote;
  mc_latest_candle : option Candle;
  mc_candle_sets : list TimeframeCandles;
  mc_session : option SessionContext;
  mc_facts : list MarketFact;
  mc_metadata : list (string * string);
  mc_historical : option HistoricalContext;
  mc_session_statistics : option SessionStatistics;
  mc_previous_close : option Decimal;
  mc_is_valid : bool;
}.

(** [MarketContext.initial] with the arguments the engine passes; the omitted
    ones keep their defaults. *)
Definition initial (i : Instrument) (sequence : Z) (event_timestamp observed_at : instant)
    (latest_tick : option Tick) (latest_quote : option Quote)
    (candle_sets : list TimeframeCandles) (session : option SessionContext)
    (historical : option HistoricalContext) (session_statistics : option SessionStatistics)
    (previous_close : option Decimal) : MarketContext := {|
  mc_instrument := i; mc_version := 1; mc_sequence := sequence;
  mc_event_timestamp := event_timestamp; mc_observed_at := observed_at;
  mc_latest_tick := latest_tick; mc_latest_quote := latest_quote; mc_latest_candle := None;
  mc_candle_sets := candle_sets; mc_session := session; mc_facts := []; mc_metadata := [];
  mc_historical := historical; mc_session_statistics := session_statistics;
  mc_previous_close := previous_close; mc_is_valid := true |}.

(** [MarketContext.with_update] *)
Definition with_update (self : MarketContext) (sequence : Z) (event_timestamp observed_at : instant)
    (latest_tick : option Tick) (latest_quote : option Quote)
    (candle_sets : list TimeframeCandles) (session : option SessionContext)
    (historical : option HistoricalContext) (session_statistics : option SessionStatistics)
    (previous_close : option Decimal) : MarketContext := {|
  mc_instrument := mc_instrument self; mc_version := mc_version self + 1;
  mc_sequence := sequence;
  mc_event_timestamp := event_timestamp; mc_observed_at := observed_at;
  mc_latest_tick := latest_tick; mc_latest_quote := latest_quote; mc_latest_candle := None;
  mc_candle_sets := candle_sets; mc_session := session; mc_facts := []; mc_metadata := [];
  mc_historical := historical; mc_session_statistics := session_statistics;
  mc_previous_close := previous_close; mc_is_valid := true |}.

(** * Lemmas *)

Lemma timeframe_leb_total a b : timeframe_leb a b = true \/ timeframe_leb b a = true.
Proof.
  unfold timeframe_leb, key_leb, timeframe_ordering_key. cbn.
  destruct (is_session a), (is_session b); auto; lia.
Qed.

Lemma timeframe_leb_trans a b c :
  timeframe_leb a b = true -> timeframe_leb b c = true -> timeframe_leb a c = true.
Proof.
  unfold timeframe_leb, key_leb, timeframe_ordering_key. cbn.
  destruct (is_session a), (is_session b), (is_session c); auto; try done; lia.
Qed.

(** Among constructed timeframes the key is injective, so the order is total. *)
Lemma timeframe_leb_antisym a b :
  timeframe_valid a -> timeframe_valid b ->
  timeframe_leb a b = true -> timeframe_leb b a = true -> a = b.
Proof.
  unfold timeframe_leb, key_leb, timeframe_ordering_key, timeframe_valid, is_session.
  destruct a as [[] [d|]], b as [[] [d'|]]; cbn; try done.
  intros. f_equal. f_equal. lia.
Qed.

Lemma candle_leb_total a b : candle_leb a b = true \/ candle_leb b a = true.
Proof. unfold candle_leb. split_ifs; zbool; auto; lia. Qed.

Lemma candle_leb_trans a b c :
  candle_leb a b = true -> candle_leb b c = true -> candle_leb a c = true.
Proof. unfold candle_leb. split_ifs; zbool; intros; try done; zbool; lia. Qed.

(** Chronological and disjoint: what a series promises about its candles. *)
Definition chronological (cs : list Candle) : Prop :=
  StronglySorted (fun a b => end_timestamp a <= start_timestamp b) cs.

Lemma pairwise_cons {A} (x y : A) l : pairwise (x :: y :: l) = (x, y) :: pairwise (y :: l).
Proof. done. Qed.

Lemma chronological_intro cs :
  Forall candle_valid cs ->
  (for_each validate_adjacent (pairwise cs) = Ok tt) -> chronological cs.
Proof.
  unfold chronological.
  induction cs as [|a cs IH]; intros Hv H; [constructor|].
  destruct cs as [|b cs]; [by repeat constructor|].
  rewrite pairwise_cons in H. cbn [for_each] in H. apply bind_ok in H as ([] & Hab & Hrest).
  apply Forall_cons in Hv as [Ha Hv]. specialize (IH Hv Hrest). constructor; [done|].
  unfold validate_adjacent in Hab. apply bind_ok in Hab as ([] & _ & Hab%raise_if_ok). zbool.
  apply Forall_cons in Hv as [Hb Hv]. destruct Hb.
  inversion IH as [|? ? _ Hall]; subst. constructor; [lia|].
  eapply Forall_impl; [exact Hall|]. cbn. lia.
Qed.

Lemma mk_series_ok t cs s :
  Forall candle_valid cs -> mk_series t cs = Ok s ->
  hs_timeframe s = t /\ hs_candles s ≡ₚ cs /\ hs_candles s <> [] /\ chronological (hs_candles s)
  /\ hs_candles s = py_sorted candle_leb cs.
Proof.
  intros Hv. unfold mk_series.
  intros ([] & H1%raise_if_ok & ([] & H2%raise_if_ok & ([] & H3 & [= <-])%bind_ok)%bind_ok)%bind_ok.
  cbn. split_and!; [done|apply py_sorted_perm|by destruct (py_sorted candle_leb cs)| |done].
  apply chronological_intro; [|done]. by apply Forall_py_sorted.
Qed.

(** A series is normalised: building it again from its own candles changes nothing. *)
Lemma mk_series_idem t cs s :
  mk_series t cs = Ok s -> mk_series t (hs_candles s) = Ok s.
Proof.
  unfold mk_series.
  intros ([] & H1 & ([] & H2 & ([] & H3 & [= <-])%bind_ok)%bind_ok)%bind_ok. cbn [hs_candles].
  rewrite (py_sorted_id _ (py_sorted candle_leb cs)).
  2: { apply py_sorted_sorted; [apply candle_leb_total|apply candle_leb_trans]. }
  rewrite H1. cbn. rewrite H2. cbn. by rewrite H3.
Qed.

Lemma mk_historical_context_ok i p ss c :
  mk_historical_context i p ss = Ok c ->
  hc_instrument c = i /\ hc_previous_session c = p /\ hc_series c ≡ₚ ss
  /\ NoDup (hs_timeframe <$> hc_series c)
  /\ Forall (fun s => hs_instrument s = Some i) (hc_series c).
Proof.
  unfold mk_historical_context.
  intros ([] & H1%raise_if_ok & ([] & H2%for_each_ok & ([] & H3 & [= <-])%bind_ok)%bind_ok)%bind_ok.
  cbn. split_and!; [done|done|apply py_sorted_perm| |].
  - zbool. apply Nat.eqb_eq in H1. by apply NoDup_size_list_to_set.
  - eapply Forall_impl; [exact H2|]. cbn. intros s Hs%raise_if_ok. by zbool.
Qed.
