(* ===== verification/Samples.v ===== *)
(** Concrete market data the witnesses evaluate: two NSE equities, a live
    session on 27 January 2026 (day 20480) and ticks at exchange-local times. *)
From S2P Require Import Prelude PyTime MarketData Timeframe Session.

Local Open Scope Z_scope.

Definition reliance : Instrument := cash_equity "RELIANCE".
Definition infy : Instrument := cash_equity "INFY".

Definition sample_date : date := 20480.

Definition live_session : SessionContext := {|
  ctx_trading_date := sample_date; market_state := LIVE_SESSION;
  exchange_timezone := "Asia/Kolkata" |}.

(** The UTC instant of an exchange-local time of the sample date. *)
Definition at_local (h m : Z) : instant := combine sample_date (hm h m) - 19800 * us_per_second.

(** A trade of [rupees] at [h:m] with the session cumulative volume [cum]. *)
Definition trade (i : Instrument) (h m rupees cum : Z) : Tick := {|
  tick_instrument := i; tick_event_timestamp := at_local h m; last_price := dec rupees 0;
  tick_traded_quantity := Some 1; session_cumulative_volume := Some cum;
  tick_session_ohlc := None |}.

Lemma trade_valid i h m rupees cum :
  (0 <? rupees) && (0 <=? cum) = true -> tick_valid (trade i h m rupees cum).
Proof.
  intros H. zbool. split; cbn.
  - unfold dec, Qclt. cbn [this Q2Qc]. rewrite !Qred_correct. unfold Qlt. cbn. lia.
  - intros v [= <-]. done.
Qed.

Definition lost : FeedContinuityEvent := {|
  feed_status := CONTINUITY_LOST; feed_observed_at := at_local 9 21 |}.

(** A daily or intraday candle with the given bounds and prices. *)
Definition bar (i : Instrument) (s e : instant) (o h l c v : Z) : Candle := {|
  candle_instrument := i; start_timestamp := s; end_timestamp := e;
  open_price := dec o 0; high_price := dec h 0; low_price := dec l 0; close_price := dec c 0;
  traded_quantity := v |}.

Lemma bar_valid i s e o h l c v :
  (0 <? l) && (l <=? o) && (o <=? h) && (l <=? c) && (c <=? h) && (s <? e) && (0 <=? v) = true ->
  candle_valid (bar i s e o h l c v).
Proof.
  intros H. zbool. split; cbn; try lia;
    unfold dec, Qclt, Qcle; cbn [this Q2Qc]; rewrite !Qred_correct; unfold Qlt, Qle; cbn; lia.
Qed.
