(* ===== verification/CandleEngine.v ===== *)
(** Live candle aggregation: [market_engine/candle_engine.py], with the pure
    reconciliation decisions of [market_engine/historical/reconciliation.py].

    State: one [TimeframeState] per (instrument, timeframe) in a map, the ordered
    active timeframes and the set of instruments whose feed continuity broke.
    Operations: [update] (one accepted tick), [record_continuity], [flush],
    [set_required_timeframes], [reconcile], [candle_sets_for]. *)
From S2P Require Import Prelude PyTime MarketData Timeframe Session Buckets Context Samples.

Local Open Scope Z_scope.

(** * Reconciliation decisions *)

Inductive ReconciliationOutcome : Type :=
| RECONCILED | ALREADY_RECONCILED | NO_MATCH | NO_AUTHORITATIVE_CANDLE
| CONFLICT | OUT_OF_WINDOW | CURRENT_DAY_WITHHELD.

#[global] Instance ReconciliationOutcome_eq_dec : EqDecision ReconciliationOutcome.
Proof. solve_decision. Defined.

Record CandleIdentity : Type := {
  id_instrument : Instrument;
  id_timeframe : Timeframe;
  id_start : instant;
  id_end : instant;
}.

#[global] Instance CandleIdentity_eq_dec : EqDecision CandleIdentity.
Proof. solve_decision. Defined.

Record ReconciliationResult : Type := {
  rr_identity : CandleIdentity;
  rr_outcome : ReconciliationOutcome;
  rr_candle : option Candle;
}.

(** [identity_of] *)
Definition identity_of (c : Candle) (t : Timeframe) : CandleIdentity := {|
  id_instrument := candle_instrument c; id_timeframe := t;
  id_start := start_timestamp c; id_end := end_timestamp c |}.

(** [identity_of_incomplete] *)
Definition identity_of_incomplete (c : IncompleteCandle) : CandleIdentity := {|
  id_instrument := ic_instrument c; id_timeframe := ic_timeframe c;
  id_start := ic_start_timestamp c; id_end := ic_end_timestamp c |}.

(** [match_outcome]: the first finalized candle with the identity decides, then
    the incomplete intervals. *)
Definition match_outcome (authoritative : Candle) (t : Timeframe)
    (incomplete : list IncompleteCandle) (finalized : list Candle) : ReconciliationOutcome :=
  let identity := identity_of authoritative t in
  match List.find (fun f => bool_decide (identity_of f t = identity)) finalized with
  | Some f => if bool_decide (f = authoritative) then ALREADY_RECONCILED else CONFLICT
  | None =>
      if py_any (fun i => bool_decide (identity_of_incomplete i = identity)) incomplete
      then RECONCILED else NO_MATCH
  end.

(** * Engine state *)

Record Bucket : Type := {
  b_index : Z;
  b_start_utc : instant;
  b_end_utc : instant;
  b_open : Decimal;
  b_high : Decimal;
  b_low : Decimal;
  b_close : Decimal;
  b_baseline : option Z;
  b_last_cumulative : option Z;
  b_feed_gap : bool;
  b_ohlc_broken : bool;
  b_volume_invalid : bool;
}.

Record TimeframeState : Type := {
  st_instrument : Instrument;
  st_timeframe : Timeframe;
  st_finalized : list Candle;
  st_incomplete : list IncompleteCandle;
  st_trading_date : option date;
  st_partial : option Bucket;
  st_previous_bucket_index : option Z;
  st_previous_bucket_end_cumulative : option Z;
}.

Record CandleEngine : Type := {
  ce_schedule : SessionSchedule;
  ce_timezone : ZoneInfo;
  ce_finalized_window : nat;
  ce_timeframes : list Timeframe;
  ce_states : gmap (Instrument * Timeframe) TimeframeState;
  ce_continuity_broken : gset Instrument;
}.

(** * Configuration *)

(** [_session_length]: the same-zone difference is on the wall clock. *)
Definition session_length (s : SessionSchedule) : timedelta :=
  let anchor := 10957 in
  combine anchor (regular_close s) - combine anchor (regular_open s).

(** [_validated] *)
Fixpoint validated_from (s : SessionSchedule) (ts : list Timeframe) (acc : gset Timeframe)
    : result (gset Timeframe) :=
  match ts with
  | [] => Ok acc
  | t :: ts =>
      _ ← raise_if (match duration t with Some d => session_length s <=? d | None => false end)
        (ValueError "an intraday timeframe must be shorter than the session");
      validated_from s ts ({[t]} ∪ acc)
  end.

Definition validated (s : SessionSchedule) (ts : list Timeframe) : result (gset Timeframe) :=
  validated_from s ts ∅.

(** The sort key [(tf.is_session, tf.label)] of [_ordered]. *)
Definition ordered_leb (a b : Timeframe) : bool :=
  match is_session a, is_session b with
  | false, true => true
  | true, false => false
  | _, _ => String.leb (label a) (label b)
  end.

(** [_ordered], given the iteration order of the set. *)
Definition ordered (iteration : list Timeframe) : list Timeframe := py_sorted ordered_leb iteration.

(** [CandleEngine.__init__] *)
Definition mk_candle_engine (s : SessionSchedule) (tz : ZoneInfo) (ts : list Timeframe) (window : Z)
    : result CandleEngine :=
  _ ← raise_if (window <=? 0) (ValueError "finalized_window must be a positive integer");
  v ← validated s ts;
  Ok {| ce_schedule := s; ce_timezone := tz; ce_finalized_window := Z.to_nat window;
        ce_timeframes := ordered (elements v); ce_states := ∅; ce_continuity_broken := ∅ |}.

(** [set_required_timeframes] *)
Definition set_required_timeframes (self : CandleEngine) (ts : list Timeframe)
    : result CandleEngine :=
  desired ← validated (ce_schedule self) ts;
  let removed : gset Timeframe := list_to_set (ce_timeframes self) ∖ desired in
  Ok {| ce_schedule := ce_schedule self; ce_timezone := ce_timezone self;
        ce_finalized_window := ce_finalized_window self;
        ce_timeframes := ordered (elements desired);
        ce_states := filter (fun kv => kv.1.2 ∉ removed) (ce_states self);
        ce_continuity_broken := ce_continuity_broken self |}.

(** * Buckets of one timeframe *)

(** [_interval_volume] *)
Definition interval_volume (b : Bucket) : option Z :=
  if b_volume_invalid b then None
  else match b_baseline b, b_last_cumulative b with
       | Some baseline, Some last =>
           let volume := last - baseline in
           if volume <? 0 then None else Some volume
       | _, _ => None
       end.

(** [_quality_for] *)
Definition quality_for (b : Bucket) : CandleQuality :=
  if b_feed_gap b then FEED_GAP
  else if b_ohlc_broken b then INCOMPLETE_OHLC
  else INCOMPLETE_VOLUME.

(** [_to_incomplete] *)
Definition to_incomplete (i : Instrument) (t : Timeframe) (b : Bucket) : IncompleteCandle := {|
  ic_instrument := i; ic_timeframe := t;
  ic_start_timestamp := b_start_utc b; ic_end_timestamp := b_end_utc b;
  ic_open_price := b_open b; ic_high_price := b_high b;
  ic_low_price := b_low b; ic_close_price := b_close b;
  ic_traded_quantity := interval_volume b; ic_quality := quality_for b |}.

(** [_partial_view] *)
Definition partial_view (b : Bucket) : PartialCandle := {|
  pc_start_timestamp := b_start_utc b; pc_end_timestamp := b_end_utc b;
  pc_open_price := b_open b; pc_high_price := b_high b;
  pc_low_price := b_low b; pc_close_price := b_close b;
  pc_traded_quantity := interval_volume b; pc_quality := quality_for b |}.

(** The cumulative-volume half of [_apply_tick]: the new [last_cumulative] and
    [volume_invalid]. *)
Definition advance_cumulative (b : Bucket) (t : Tick) : option Z * bool :=
  match session_cumulative_volume t with
  | None => (b_last_cumulative b, b_volume_invalid b)
  | Some cumulative =>
      if match b_last_cumulative b with Some l => cumulative <? l | None => false end
      then (b_last_cumulative b, true)
      else (Some cumulative, b_volume_invalid b)
  end.

(** [_apply_tick] *)
Definition apply_tick (b : Bucket) (t : Tick) : Bucket :=
  let price := last_price t in {|
    b_index := b_index b; b_start_utc := b_start_utc b; b_end_utc := b_end_utc b;
    b_open := b_open b; b_high := dec_max (b_high b) price; b_low := dec_min (b_low b) price;
    b_close := price; b_baseline := b_baseline b;
    b_last_cumulative := (advance_cumulative b t).1;
    b_feed_gap := b_feed_gap b; b_ohlc_broken := b_ohlc_broken b;
    b_volume_invalid := (advance_cumulative b t).2 |}.

(** [_open_bucket] *)
Definition open_bucket (continuity_broken : gset Instrument) (st : TimeframeState)
    (index : Z) (start_utc end_utc : instant) (t : Tick) : Bucket :=
  let contiguous := match st_previous_bucket_index st with
                    | Some p => index =? p + 1 | None => false end in
  let broken := bool_decide (st_instrument st ∈ continuity_broken) in
  let feed_gap := broken || (is_not_none (st_previous_bucket_index st) && negb contiguous) in
  let baseline := if feed_gap || negb contiguous then None
                  else st_previous_bucket_end_cumulative st in
  let price := last_price t in
  {| b_index := index; b_start_utc := start_utc; b_end_utc := end_utc;
     b_open := price; b_high := price; b_low := price; b_close := price;
     b_baseline := baseline; b_last_cumulative := session_cumulative_volume t;
     b_feed_gap := feed_gap; b_ohlc_broken := false; b_volume_invalid := false |}.

Definition with_partial (st : TimeframeState) (p : option Bucket) : TimeframeState := {|
  st_instrument := st_instrument st; st_timeframe := st_timeframe st;
  st_finalized := st_finalized st; st_incomplete := st_incomplete st;
  st_trading_date := st_trading_date st; st_partial := p;
  st_previous_bucket_index := st_previous_bucket_index st;
  st_previous_bucket_end_cumulative := st_previous_bucket_end_cumulative st |}.

(** [_finalize_partial] *)
Definition finalize_partial (window : nat) (st : TimeframeState) : TimeframeState :=
  match st_partial st with
  | None => st
  | Some b => {|
      st_instrument := st_instrument st; st_timeframe := st_timeframe st;
      st_finalized := st_finalized st;
      st_incomplete := deque_append window (st_incomplete st)
        (to_incomplete (st_instrument st) (st_timeframe st) b);
      st_trading_date := st_trading_date st; st_partial := None;
      st_previous_bucket_index := Some (b_index b);
      st_previous_bucket_end_cumulative :=
        if b_feed_gap b then None else b_last_cumulative b |}
  end.

(** [_reset_session]: the per-state part; the caller discards the instrument from
    the continuity set. *)
Definition reset_session (window : nat) (st : TimeframeState) (trading_date : date)
    : TimeframeState :=
  let st := finalize_partial window st in {|
    st_instrument := st_instrument st; st_timeframe := st_timeframe st;
    st_finalized := st_finalized st; st_incomplete := st_incomplete st;
    st_trading_date := Some trading_date; st_partial := None;
    st_previous_bucket_index := None; st_previous_bucket_end_cumulative := None |}.

(** [_state_for]: a fresh state for an unseen key. *)
Definition fresh_state (i : Instrument) (t : Timeframe) : TimeframeState := {|
  st_instrument := i; st_timeframe := t; st_finalized := []; st_incomplete := [];
  st_trading_date := None; st_partial := None; st_previous_bucket_index := None;
  st_previous_bucket_end_cumulative := None |}.

(** * Operations *)

(** The body of [_update_timeframe] on one state and the continuity set. *)
Definition step_state (window : nat) (schedule : SessionSchedule) (tz : ZoneInfo)
    (broken : gset Instrument) (st : TimeframeState) (t : Tick) (s : SessionContext)
    (tfr : Timeframe) : TimeframeState * gset Instrument :=
  let rollover := negb (bool_decide (st_trading_date st = Some (ctx_trading_date s))) in
  let broken := if rollover then broken ∖ {[st_instrument st]} else broken in
  let st := if rollover then reset_session window st (ctx_trading_date s) else st in
  let '(index, start_utc, end_utc) :=
    bucket_bounds (tick_event_timestamp t) (ctx_trading_date s) tfr (bounds schedule) tz in
  (match st_partial st with
   | Some b =>
       if b_index b =? index then with_partial st (Some (apply_tick b t))
       else let st := finalize_partial window st in
            with_partial st (Some (open_bucket broken st index start_utc end_utc t))
   | None => with_partial st (Some (open_bucket broken st index start_utc end_utc t))
   end, broken).

(** [_update_timeframe] *)
Definition update_timeframe (self : CandleEngine) (t : Tick) (s : SessionContext) (tfr : Timeframe)
    : CandleEngine :=
  let key := (tick_instrument t, tfr) in
  let st := default (fresh_state (tick_instrument t) tfr) (ce_states self !! key) in
  let '(st, broken) := step_state (ce_finalized_window self) (ce_schedule self) (ce_timezone self)
    (ce_continuity_broken self) st t s tfr in
  {| ce_schedule := ce_schedule self; ce_timezone := ce_timezone self;
     ce_finalized_window := ce_finalized_window self; ce_timeframes := ce_timeframes self;
     ce_states := <[key := st]> (ce_states self); ce_continuity_broken := broken |}.

(** [update] *)
Definition update (self : CandleEngine) (t : Tick) (s : SessionContext) : CandleEngine :=
  if negb (bool_decide (market_state s = LIVE_SESSION)) then self
  else fold_state (fun e tfr => update_timeframe e t s tfr) (ce_timeframes self) self.

(** [_CONTINUITY_LOSS] *)
Definition is_continuity_loss (f : FeedContinuity) : bool :=
  match f with DISCONNECTED | CONTINUITY_LOST => true | _ => false end.

Definition break_ohlc (b : Bucket) : Bucket := {|
  b_index := b_index b; b_start_utc := b_start_utc b; b_end_utc := b_end_utc b;
  b_open := b_open b; b_high := b_high b; b_low := b_low b; b_close := b_close b;
  b_baseline := b_baseline b; b_last_cumulative := b_last_cumulative b;
  b_feed_gap := b_feed_gap b; b_ohlc_broken := true; b_volume_invalid := b_volume_invalid b |}.

Definition with_states (self : CandleEngine) (m : gmap (Instrument * Timeframe) TimeframeState)
    (broken : gset Instrument) : CandleEngine := {|
  ce_schedule := ce_schedule self; ce_timezone := ce_timezone self;
  ce_finalized_window := ce_finalized_window self; ce_timeframes := ce_timeframes self;
  ce_states := m; ce_continuity_broken := broken |}.

(** [record_continuity] *)
Definition record_continuity (self : CandleEngine) (event : FeedContinuityEvent) : CandleEngine :=
  if negb (is_continuity_loss (feed_status event)) then self
  else with_states self
    ((fun st => with_partial st (break_ohlc <$> st_partial st)) <$> ce_states self)
    (set_map fst (dom (ce_states self)) ∪ ce_continuity_broken self).

(** [flush] *)
Definition flush (self : CandleEngine) (at_time : instant) : CandleEngine :=
  with_states self
    ((fun st => match st_partial st with
                | Some b => if b_end_utc b <=? at_time
                            then finalize_partial (ce_finalized_window self) st else st
                | None => st
                end) <$> ce_states self)
    (ce_continuity_broken self).

(** [_apply_reconciliation] *)
Definition apply_reconciliation (window : nat) (st : TimeframeState) (authoritative : Candle)
    (t : Timeframe) (identity : CandleIdentity) : TimeframeState :=
  let kept := filter (fun c => identity_of c t <> identity) (st_finalized st) ++ [authoritative] in
  let kept := py_sorted (fun a b => start_timestamp a <=? start_timestamp b) kept in {|
    st_instrument := st_instrument st; st_timeframe := st_timeframe st;
    st_finalized := last_n window kept;
    st_incomplete := last_n window
      (filter (fun c => identity_of_incomplete c <> identity) (st_incomplete st));
    st_trading_date := st_trading_date st; st_partial := st_partial st;
    st_previous_bucket_index := st_previous_bucket_index st;
    st_previous_bucket_end_cumulative := st_previous_bucket_end_cumulative st |}.

(** [min(retained)] of a non-empty list. *)
Fixpoint z_minimum (x : Z) (l : list Z) : Z :=
  match l with [] => x | y :: l => z_minimum (Z.min x y) l end.

(** [_is_out_of_window] *)
Definition is_out_of_window (st : TimeframeState) (authoritative : Candle) : bool :=
  let retained := (ic_start_timestamp <$> st_incomplete st) ++ (start_timestamp <$> st_finalized st)
                  ++ match st_partial st with Some b => [b_start_utc b] | None => [] end in
  match retained with
  | [] => false
  | x :: l => start_timestamp authoritative <? z_minimum x l
  end.

(** [reconcile] *)
Definition reconcile (self : CandleEngine) (authoritative : Candle) (t : Timeframe)
    : CandleEngine * ReconciliationResult :=
  let identity := identity_of authoritative t in
  let key := (candle_instrument authoritative, t) in
  match ce_states self !! key with
  | None => (self, {| rr_identity := identity; rr_outcome := NO_MATCH; rr_candle := None |})
  | Some st =>
      let outcome := match_outcome authoritative t (st_incomplete st) (st_finalized st) in
      if bool_decide (outcome = RECONCILED) then
        (with_states self
           (<[key := apply_reconciliation (ce_finalized_window self) st authoritative t identity]>
              (ce_states self)) (ce_continuity_broken self),
         {| rr_identity := identity; rr_outcome := outcome; rr_candle := Some authoritative |})
      else if bool_decide (outcome = NO_MATCH) && is_out_of_window st authoritative then
        (self, {| rr_identity := identity; rr_outcome := OUT_OF_WINDOW; rr_candle := None |})
      else
        (self, {| rr_identity := identity; rr_outcome := outcome;
                  rr_candle := if bool_decide (outcome = ALREADY_RECONCILED)
                               then Some authoritative else None |})
  end.

(** [candle_sets_for] *)
Definition candle_sets_for (self : CandleEngine) (i : Instrument) : list TimeframeCandles :=
  (fun t =>
     match ce_states self !! (i, t) with
     | Some st => {| tc_timeframe := t; tc_partial := partial_view <$> st_partial st;
                     tc_finalized := st_finalized st; tc_incomplete := st_incomplete st |}
     | None => {| tc_timeframe := t; tc_partial := None; tc_finalized := []; tc_incomplete := [] |}
     end) <$> ce_timeframes self.

(** * Representation invariant *)

Record bucket_ok (b : Bucket) : Prop := {
  bk_low_pos : (0 < b_low b)%Qc;
  bk_open_lo : (b_low b <= b_open b)%Qc;
  bk_open_hi : (b_open b <= b_high b)%Qc;
  bk_close_lo : (b_low b <= b_close b)%Qc;
  bk_close_hi : (b_close b <= b_high b)%Qc;
  bk_gap : b_feed_gap b = true -> b_baseline b = None;
}.

(** What a retained incomplete interval of stream [(i, t)] promises. *)
Record incomplete_ok (i : Instrument) (t : Timeframe) (c : IncompleteCandle) : Prop := {
  in_instrument : ic_instrument c = i;
  in_timeframe : ic_timeframe c = t;
  in_low_pos : (0 < ic_low_price c)%Qc;
  in_open_lo : (ic_low_price c <= ic_open_price c)%Qc;
  in_open_hi : (ic_open_price c <= ic_high_price c)%Qc;
  in_close_lo : (ic_low_price c <= ic_close_price c)%Qc;
  in_close_hi : (ic_close_price c <= ic_high_price c)%Qc;
  in_volume : forall v, ic_traded_quantity c = Some v -> 0 <= v;
  in_quality : ic_quality c <> COMPLETE;
  in_gap : ic_quality c = FEED_GAP -> ic_traded_quantity c = None;
}.

Record state_ok (window : nat) (i : Instrument) (t : Timeframe) (st : TimeframeState) : Prop := {
  so_instrument : st_instrument st = i;
  so_timeframe : st_timeframe st = t;
  so_partial : forall b, st_partial st = Some b -> bucket_ok b;
  so_incomplete : Forall (incomplete_ok i t) (st_incomplete st);
  so_incomplete_bound : (length (st_incomplete st) <= window)%nat;
  so_finalized_bound : (length (st_finalized st) <= window)%nat;
  so_finalized_sorted :
    StronglySorted (fun a b => (start_timestamp a <=? start_timestamp b) = true) (st_finalized st);
  so_finalized_instrument : Forall (fun c => candle_instrument c = i) (st_finalized st);
}.

Definition engine_ok (e : CandleEngine) : Prop :=
  map_Forall (fun k st => state_ok (ce_finalized_window e) k.1 k.2 st) (ce_states e).

Lemma interval_volume_nonneg b v : interval_volume b = Some v -> 0 <= v.
Proof.
  unfold interval_volume. destruct (b_volume_invalid b); [done|].
  destruct (b_baseline b), (b_last_cumulative b); try done. split_ifs; [done|].
  intros [= <-]. zbool. lia.
Qed.

Lemma interval_volume_baseline b v : interval_volume b = Some v -> is_Some (b_baseline b).
Proof. unfold interval_volume. destruct (b_volume_invalid b), (b_baseline b); eauto. Qed.

Lemma to_incomplete_ok i t b : bucket_ok b -> incomplete_ok i t (to_incomplete i t b).
Proof.
  intros []. constructor; cbn; try done.
  - apply interval_volume_nonneg.
  - unfold quality_for. by split_ifs.
  - unfold quality_for. destruct (b_feed_gap b) eqn:E; [|by destruct (b_ohlc_broken b)].
    intros _. destruct (interval_volume b) as [v|] eqn:Ev; [|done].
    apply interval_volume_baseline in Ev as [x Hx]. rewrite bk_gap0 in Hx; done.
Qed.

Lemma apply_tick_ok b t : tick_valid t -> bucket_ok b -> bucket_ok (apply_tick b t).
Proof.
  intros [Hp _] []. constructor; cbn; try done.
  all: dec_unfold; dec_order.
Qed.

Lemma open_bucket_ok broken st index s e t :
  tick_valid t -> bucket_ok (open_bucket broken st index s e t).
Proof.
  intros [Hp _]. constructor; cbn; try apply Qcle_refl; try done. by intros ->.
Qed.

Lemma break_ohlc_ok b : bucket_ok b -> bucket_ok (break_ohlc b).
Proof. intros []. by constructor. Qed.

Lemma finalize_partial_ok w i t st : state_ok w i t st -> state_ok w i t (finalize_partial w st).
Proof.
  intros [H1 H2 H3 H4 H5 H6 H7 H8]. unfold finalize_partial.
  destruct (st_partial st) as [b|] eqn:Eb; [|constructor; try done; by rewrite Eb].
  constructor; cbn; try done.
  - apply Forall_deque_append; [done|]. rewrite H1, H2. apply to_incomplete_ok. eauto.
  - apply length_deque_append.
Qed.

Lemma finalize_partial_none w st : st_partial (finalize_partial w st) = None.
Proof. unfold finalize_partial. by destruct (st_partial st) eqn:E. Qed.

Lemma with_partial_ok w i t st p :
  state_ok w i t st -> (forall b, p = Some b -> bucket_ok b) -> state_ok w i t (with_partial st p).
Proof. intros [] Hp. by constructor. Qed.

Lemma reset_session_ok w i t st d : state_ok w i t st -> state_ok w i t (reset_session w st d).
Proof. intros [] % finalize_partial_ok. by constructor. Qed.

Lemma fresh_state_ok w i t : state_ok w i t (fresh_state i t).
Proof. constructor; cbn; try done; try constructor; lia. Qed.

Lemma step_state_ok w sched tz broken i tfr st t s :
  tick_valid t -> state_ok w i tfr st ->
  state_ok w i tfr (step_state w sched tz broken st t s tfr).1.
Proof.
  intros Ht Hst. unfold step_state.
  destruct (bucket_bounds _ _ _ _ _) as [[index s'] e'].
  set (st' := if negb _ then reset_session w st (ctx_trading_date s) else st).
  set (br' := if negb _ then broken ∖ {[st_instrument st]} else broken).
  assert (state_ok w i tfr st') as Hst'.
  { subst st'. destruct (negb _); [by apply reset_session_ok|done]. }
  clearbody st' br'. cbn [fst].
  destruct (st_partial st') as [b|] eqn:Eb; [destruct (b_index b =? index)|].
  - apply with_partial_ok; [done|]. intros ? [= <-]. apply apply_tick_ok; [done|].
    by eapply so_partial.
  - apply with_partial_ok; [by apply finalize_partial_ok|]. intros ? [= <-]. by apply open_bucket_ok.
  - apply with_partial_ok; [done|]. intros ? [= <-]. by apply open_bucket_ok.
Qed.

#[export] Hint Resolve finalize_partial_ok with_partial_ok reset_session_ok fresh_state_ok
  step_state_ok open_bucket_ok apply_tick_ok break_ohlc_ok : apex.

(** * The engine as a transition system *)

(** One call of a mutating method, with the ticks the upstream validation lets
    through. *)
Inductive candle_step : CandleEngine -> CandleEngine -> Prop :=
| cs_update e t s : tick_valid t -> candle_step e (update e t s)
| cs_continuity e ev : candle_step e (record_continuity e ev)
| cs_flush e at_time : candle_step e (flush e at_time)
| cs_timeframes e ts e' : set_required_timeframes e ts = Ok e' -> candle_step e e'
| cs_reconcile e c t : candle_step e (reconcile e c t).1.

Definition candle_reachable (e : CandleEngine) : Prop :=
  exists s tz ts w e0, mk_candle_engine s tz ts w = Ok e0 /\ rtc candle_step e0 e.

Lemma update_timeframe_ok e t s tfr :
  tick_valid t -> engine_ok e -> engine_ok (update_timeframe e t s tfr).
Proof.
  intros Ht He. unfold update_timeframe.
  destruct (step_state _ _ _ _ _ _ _ _) as [st br] eqn:Est.
  apply map_Forall_insert_2; [|exact He]. cbn.
  replace st with (step_state (ce_finalized_window e) (ce_schedule e) (ce_timezone e)
    (ce_continuity_broken e)
    (default (fresh_state (tick_instrument t) tfr) (ce_states e !! (tick_instrument t, tfr)))
    t s tfr).1 by (by rewrite Est).
  apply step_state_ok; [done|].
  destruct (ce_states e !! _) as [st0|] eqn:E; cbn; [by apply He in E|apply fresh_state_ok].
Qed.

Lemma update_fold_ok ts e t s :
  tick_valid t -> engine_ok e ->
  engine_ok (fold_state (fun e tfr => update_timeframe e t s tfr) ts e).
Proof.
  intros Ht. revert e. induction ts as [|tfr ts IH]; intros e He; cbn; [done|].
  by apply IH, update_timeframe_ok.
Qed.

Lemma update_ok e t s : tick_valid t -> engine_ok e -> engine_ok (update e t s).
Proof. intros. unfold update. destruct (negb _); [done|by apply update_fold_ok]. Qed.

Lemma record_continuity_ok e ev : engine_ok e -> engine_ok (record_continuity e ev).
Proof.
  intros He. unfold record_continuity. destruct (negb _); [done|].
  intros k st. cbn. rewrite lookup_fmap. intros (st0 & Hk & ->)%fmap_Some_1.
  apply with_partial_ok; [by apply He in Hk|].
  intros b (b0 & Hb & ->)%fmap_Some. apply break_ohlc_ok.
  apply He in Hk. by eapply so_partial.
Qed.

Lemma flush_ok e a : engine_ok e -> engine_ok (flush e a).
Proof.
  intros He k st. cbn. rewrite lookup_fmap. intros (st0 & Hk & ->)%fmap_Some_1.
  apply He in Hk. destruct (st_partial st0); [|done]. split_ifs; eauto with apex.
Qed.

Lemma set_required_timeframes_ok e ts e' :
  engine_ok e -> set_required_timeframes e ts = Ok e' -> engine_ok e'.
Proof.
  intros He. unfold set_required_timeframes. intros (d & _ & [= <-])%bind_ok.
  intros k st [Hk _]%map_lookup_filter_Some. by apply He in Hk.
Qed.

Definition start_leb (a b : Candle) : bool := start_timestamp a <=? start_timestamp b.

Lemma start_leb_total a b : start_leb a b = true \/ start_leb b a = true.
Proof. unfold start_leb. lia. Qed.

Lemma start_leb_trans a b c :
  start_leb a b = true -> start_leb b c = true -> start_leb a c = true.
Proof. unfold start_leb. lia. Qed.

Lemma apply_reconciliation_ok w i t st c :
  candle_instrument c = i -> state_ok w i t st ->
  state_ok w i t (apply_reconciliation w st c t (identity_of c t)).
Proof.
  intros Hc [H1 H2 H3 H4 H5 H6 H7 H8]. constructor; cbn; try done.
  - apply Forall_last_n. by apply Forall_filter_keep.
  - apply length_last_n.
  - apply length_last_n.
  - eapply StronglySorted_suffix; [apply last_n_suffix|].
    apply (py_sorted_sorted start_leb); [apply start_leb_total|apply start_leb_trans].
  - apply Forall_last_n, Forall_py_sorted. apply Forall_app. split; [by apply Forall_filter_keep|].
    by constructor.
Qed.

Lemma reconcile_ok e c t : engine_ok e -> engine_ok (reconcile e c t).1.
Proof.
  intros He. unfold reconcile. destruct (ce_states e !! _) as [st|] eqn:Hk; [|done].
  destruct (bool_decide _); [|by destruct (_ && _)].
  apply map_Forall_insert_2; [|exact He].
  apply apply_reconciliation_ok; [done|]. by apply He in Hk.
Qed.

Lemma candle_step_ok e e' : candle_step e e' -> engine_ok e -> engine_ok e'.
Proof.
  destruct 1; eauto using update_ok, record_continuity_ok, flush_ok,
    set_required_timeframes_ok, reconcile_ok.
Qed.

Lemma mk_candle_engine_ok s tz ts w e : mk_candle_engine s tz ts w = Ok e -> engine_ok e.
Proof.
  unfold mk_candle_engine. intros ([] & _ & (v & _ & [= <-])%bind_ok)%bind_ok.
  apply map_Forall_empty.
Qed.

Lemma candle_reachable_ok e : candle_reachable e -> engine_ok e.
Proof.
  intros (s & tz & ts & w & e0 & H0%mk_candle_engine_ok & Hr).
  induction Hr; eauto using candle_step_ok.
Qed.

(** * Frame lemmas *)

Lemma update_timeframe_other e t s tfr k :
  k <> (tick_instrument t, tfr) -> ce_states (update_timeframe e t s tfr) !! k = ce_states e !! k.
Proof.
  intros Hk. unfold update_timeframe. destruct (step_state _ _ _ _ _ _ _ _) as [st br].
  cbn. by rewrite lookup_insert_ne.
Qed.

Lemma step_state_broken w sched tz br st t s tfr j :
  j <> st_instrument st -> j ∈ (step_state w sched tz br st t s tfr).2 <-> j ∈ br.
Proof.
  intros Hj. unfold step_state. destruct (bucket_bounds _ _ _ _ _) as [[? ?] ?]. cbn.
  destruct (negb _); set_solver.
Qed.

Lemma update_timeframe_broken e t s tfr j :
  engine_ok e -> j <> tick_instrument t ->
  j ∈ ce_continuity_broken (update_timeframe e t s tfr) <-> j ∈ ce_continuity_broken e.
Proof.
  intros He Hj. unfold update_timeframe.
  set (st := default _ _).
  destruct (step_state _ _ _ _ _ _ _ _) as [st' br] eqn:E. cbn.
  replace br with (step_state (ce_finalized_window e) (ce_schedule e) (ce_timezone e)
    (ce_continuity_broken e) st t s tfr).2 by (by rewrite E).
  apply step_state_broken. subst st.
  destruct (ce_states e !! _) as [st0|] eqn:Hk; cbn; [|done].
  apply He in Hk. by rewrite (so_instrument _ _ _ _ Hk).
Qed.

Lemma update_fold_other ts e t s j tfr :
  tick_valid t -> engine_ok e -> j <> tick_instrument t ->
  let e' := fold_state (fun e tfr => update_timeframe e t s tfr) ts e in
  ce_states e' !! (j, tfr) = ce_states e !! (j, tfr)
  /\ (j ∈ ce_continuity_broken e' <-> j ∈ ce_continuity_broken e).
Proof.
  intros Ht He Hj. revert e He. induction ts as [|t0 ts IH]; intros e He; cbn; [done|].
  destruct (IH (update_timeframe e t s t0)) as [IH1 IH2]; [by apply update_timeframe_ok|].
  unfold fold_state in *. rewrite IH1, IH2. split.
  - apply update_timeframe_other. congruence.
  - by apply update_timeframe_broken.
Qed.

Lemma update_fold_timeframes ts e t s :
  ce_timeframes (fold_state (fun e tfr => update_timeframe e t s tfr) ts e) = ce_timeframes e.
Proof.
  revert e. induction ts as [|t0 ts IH]; intros e; cbn; [done|].
  unfold fold_state in *. rewrite IH. unfold update_timeframe. by destruct (step_state _ _ _ _ _ _ _ _).
Qed.

(** * Refinement: candles are the OHLC of runs of ticks *)

(** The specification: open, high, low and close of a run of ticks. *)
Definition ohlc : Type := Decimal * Decimal * Decimal * Decimal.

Definition ohlc_of (ts : list Tick) : option ohlc :=
  match ts with
  | [] => None
  | t :: rest =>
      let p := last_price t in
      let ps := last_price <$> rest in
      Some (p, foldl dec_max p ps, foldl dec_min p ps, default p (last ps))
  end.

(** Ticks split into maximal runs with the same bucket index: the closed runs
    and the current one. *)
Definition run_step (idx : Tick -> Z) (g : list (list Tick) * list Tick) (t : Tick)
    : list (list Tick) * list Tick :=
  match g.2 with
  | [] => (g.1, [t])
  | c :: _ => if idx c =? idx t then (g.1, g.2 ++ [t]) else (g.1 ++ [g.2], [t])
  end.

Definition tick_runs (idx : Tick -> Z) (ts : list Tick) : list (list Tick) * list Tick :=
  foldl (run_step idx) ([], []) ts.

Definition bucket_ohlc (b : Bucket) : ohlc := (b_open b, b_high b, b_low b, b_close b).
Definition incomplete_ohlc (c : IncompleteCandle) : ohlc :=
  (ic_open_price c, ic_high_price c, ic_low_price c, ic_close_price c).

(** The bucket index the engine computes for a tick of trading date [td]. *)
Definition tick_index (sched : SessionSchedule) (tz : ZoneInfo) (td : date) (tfr : Timeframe)
    (t : Tick) : Z :=
  (bucket_bounds (tick_event_timestamp t) td tfr (bounds sched) tz).1.1.

(** Feed one session's ticks, in order. *)
Definition feed (s : SessionContext) (ts : list Tick) (e : CandleEngine) : CandleEngine :=
  fold_state (fun e t => update e t s) ts e.

Lemma ohlc_of_snoc ts t o h l c :
  ohlc_of ts = Some (o, h, l, c) ->
  ohlc_of (ts ++ [t]) = Some (o, dec_max h (last_price t), dec_min l (last_price t), last_price t).
Proof.
  destruct ts as [|x ts]; [done|]. cbn. intros [= <- <- <- _].
  rewrite fmap_app, fmap_cons, fmap_nil, !foldl_app, last_snoc. done.
Qed.

Lemma apply_tick_ohlc b ts t :
  ohlc_of ts = Some (bucket_ohlc b) -> ohlc_of (ts ++ [t]) = Some (bucket_ohlc (apply_tick b t)).
Proof. apply ohlc_of_snoc. Qed.

Section Refinement.
Context (w : nat) (sched : SessionSchedule) (tz : ZoneInfo) (td : date) (tfr : Timeframe).
#[local] Abbreviation idx := (tick_index sched tz td tfr).

(** The state of one stream represents the closed runs and the current run. *)
Record represents (g : list (list Tick) * list Tick) (st : TimeframeState) : Prop := {
  rep_date : st_trading_date st = Some td;
  rep_current : exists c rest b, g.2 = c :: rest /\ st_partial st = Some b
                /\ b_index b = idx c /\ ohlc_of g.2 = Some (bucket_ohlc b);
  rep_closed : Some ∘ incomplete_ohlc <$> st_incomplete st = last_n w (ohlc_of <$> g.1);
}.

Lemma step_state_open br st t s :
  ctx_trading_date s = td ->
  st_trading_date st = None -> st_partial st = None -> st_incomplete st = [] ->
  represents ([], [t]) (step_state w sched tz br st t s tfr).1.
Proof.
  intros Htd Hd Hp Hi. unfold step_state. rewrite Hd, Htd. cbn [negb bool_decide].
  unfold reset_session, finalize_partial. rewrite Hp. cbn.
  destruct (bucket_bounds _ _ _ _ _) as [[index a] b'] eqn:Eb.
  constructor; cbn; [done| |by rewrite Hi].
  eexists t, [], _. split_and!; try done. cbn. unfold tick_index. by rewrite Eb.
Qed.

Lemma step_state_represents br st t s g :
  ctx_trading_date s = td -> represents g st ->
  represents (run_step idx g t) (step_state w sched tz br st t s tfr).1.
Proof.
  intros Htd [Hd (c & rest & b & Hg & Hp & Hi & Ho) Hc]. unfold step_state. rewrite Htd.
  rewrite bool_decide_eq_true_2 by done. cbn [negb].
  unfold run_step. rewrite Hg. rewrite <- Hi.
  destruct (bucket_bounds _ _ _ _ _) as [[index a] b'] eqn:Eb.
  assert (idx t = index) as -> by (unfold tick_index; by rewrite Eb).
  cbn [fst]. rewrite Hp. destruct (b_index b =? index) eqn:E.
  - constructor; [done| |done].
    eexists c, (rest ++ [t]), _. split_and!; [done|done|done|].
    cbn [snd]. rewrite <- Hg. by apply apply_tick_ohlc.
  - constructor; cbn; [by unfold finalize_partial; rewrite Hp| |].
    + eexists t, [], _. split_and!; try done. cbn. unfold tick_index. by rewrite Eb.
    + unfold finalize_partial. rewrite Hp. cbn. unfold deque_append.
      rewrite fmap_last_n, fmap_app, Hc, fmap_app, !fmap_cons, !fmap_nil, last_n_snoc.
      rewrite <- Hg, Ho. done.
Qed.

End Refinement.

Lemma update_timeframe_fixed e t s tfr :
  let e' := update_timeframe e t s tfr in
  ce_schedule e' = ce_schedule e /\ ce_timezone e' = ce_timezone e
  /\ ce_finalized_window e' = ce_finalized_window e /\ ce_timeframes e' = ce_timeframes e.
Proof. unfold update_timeframe. by destruct (step_state _ _ _ _ _ _ _ _). Qed.

Lemma update_fold_fixed ts e t s :
  let e' := fold_state (fun e tfr => update_timeframe e t s tfr) ts e in
  ce_schedule e' = ce_schedule e /\ ce_timezone e' = ce_timezone e
  /\ ce_finalized_window e' = ce_finalized_window e /\ ce_timeframes e' = ce_timeframes e.
Proof.
  revert e. induction ts as [|t0 ts IH]; intros e; [done|].
  unfold fold_state in *. cbn [fold_left].
  destruct (IH (update_timeframe e t s t0)) as (-> & -> & -> & ->).
  apply update_timeframe_fixed.
Qed.

Lemma update_fold_not_in ts e t s tfr :
  tfr ∉ ts ->
  ce_states (fold_state (fun e tfr => update_timeframe e t s tfr) ts e) !! (tick_instrument t, tfr)
  = ce_states e !! (tick_instrument t, tfr).
Proof.
  revert e. induction ts as [|t0 ts IH]; intros e Hn; [done|].
  apply not_elem_of_cons in Hn as [H0 Hn].
  unfold fold_state in *. cbn [fold_left]. rewrite (IH _ Hn).
  apply update_timeframe_other. congruence.
Qed.

(** One tick moves each registered stream of its instrument by one [step_state]. *)
Lemma update_lookup ts e t s tfr :
  NoDup ts -> tfr ∈ ts ->
  exists br,
    ce_states (fold_state (fun e tfr => update_timeframe e t s tfr) ts e) !! (tick_instrument t, tfr)
    = Some (step_state (ce_finalized_window e) (ce_schedule e) (ce_timezone e) br
        (default (fresh_state (tick_instrument t) tfr) (ce_states e !! (tick_instrument t, tfr)))
        t s tfr).1.
Proof.
  revert e. induction ts as [|t0 ts IH]; intros e Hnd Hin; [by apply elem_of_nil in Hin|].
  apply NoDup_cons in Hnd as [H0 Hnd]. apply elem_of_cons in Hin as [->|Hin].
  - exists (ce_continuity_broken e). unfold fold_state. cbn [fold_left].
    etrans; [by apply (update_fold_not_in ts (update_timeframe e t s t0) t s t0)|].
    unfold update_timeframe. destruct (step_state _ _ _ _ _ _ _ _). cbn. apply lookup_insert_eq.
  - destruct (IH (update_timeframe e t s t0) Hnd Hin) as [br Hbr]. exists br.
    unfold fold_state in *. cbn [fold_left]. rewrite Hbr. destruct (update_timeframe_fixed e t s t0) as (-> & -> & -> & _).
    by rewrite update_timeframe_other by congruence.
Qed.

(** The simulation invariant of [feed] for one stream. *)
Definition stream_sim (td : date) (i : Instrument) (tfr : Timeframe) (e : CandleEngine)
    (g : list (list Tick) * list Tick) : Prop :=
  match ce_states e !! (i, tfr) with
  | None => g = ([], [])
  | Some st => represents (ce_finalized_window e) (ce_schedule e) (ce_timezone e) td tfr g st
  end.

Lemma stream_sim_step td i tfr e g t s :
  market_state s = LIVE_SESSION -> ctx_trading_date s = td -> tick_instrument t = i ->
  NoDup (ce_timeframes e) -> tfr ∈ ce_timeframes e ->
  stream_sim td i tfr e g ->
  stream_sim td i tfr (update e t s)
    (run_step (tick_index (ce_schedule e) (ce_timezone e) td tfr) g t).
Proof.
  intros Hs Hd <- Hnd Hin Hsim. unfold update. rewrite bool_decide_eq_true_2 by done. cbn [negb].
  destruct (update_fold_fixed (ce_timeframes e) e t s) as (E1 & E2 & E3 & _).
  destruct (update_lookup _ e t s tfr Hnd Hin) as [br Hbr].
  unfold stream_sim in *. rewrite Hbr, E1, E2, E3.
  destruct (ce_states e !! (tick_instrument t, tfr)) as [st|] eqn:Hst; cbn.
  - by apply step_state_represents.
  - subst g. cbn. by apply step_state_open.
Qed.

Lemma feed_sim td i tfr s ts e g :
  market_state s = LIVE_SESSION -> ctx_trading_date s = td ->
  Forall (fun t => tick_instrument t = i) ts ->
  NoDup (ce_timeframes e) -> tfr ∈ ce_timeframes e ->
  stream_sim td i tfr e g ->
  stream_sim td i tfr (feed s ts e)
    (foldl (run_step (tick_index (ce_schedule e) (ce_timezone e) td tfr)) g ts).
Proof.
  intros Hs Hd. revert e g. induction ts as [|t ts IH]; intros e g Hi Hnd Hin Hsim; [done|].
  apply Forall_cons in Hi as [Ht Hi].
  pose proof (stream_sim_step td i tfr e g t s Hs Hd Ht Hnd Hin Hsim) as H1.
  assert (ce_schedule (update e t s) = ce_schedule e /\ ce_timezone (update e t s) = ce_timezone e
    /\ ce_timeframes (update e t s) = ce_timeframes e) as (E1 & E2 & E4).
  { unfold update. destruct (negb _); [done|].
    by destruct (update_fold_fixed (ce_timeframes e) e t s) as (? & ? & ? & ?). }
  unfold feed, fold_state in *. cbn [fold_left foldl]. rewrite <- E1, <- E2.
  apply IH; rewrite ?E4; try done. by rewrite E1, E2.
Qed.

(** * Facts about runs, ordering and frames *)

Lemma run_step_concat idx g t : concat (run_step idx g t).1 ++ (run_step idx g t).2 = concat g.1 ++ g.2 ++ [t].
Proof.
  destruct g as [cl cur]. unfold run_step. cbn. destruct cur as [|c cur]; cbn; [done|].
  destruct (idx c =? idx t); cbn; [done|].
  rewrite concat_app. cbn. rewrite app_nil_r. by rewrite <- app_assoc.
Qed.

Lemma tick_runs_concat idx ts : concat (tick_runs idx ts).1 ++ (tick_runs idx ts).2 = ts.
Proof.
  unfold tick_runs. induction ts as [|t ts IH] using rev_ind; [done|].
  rewrite foldl_snoc, run_step_concat, app_assoc. by rewrite IH.
Qed.

Definition same_index (idx : Tick -> Z) (ts : list Tick) : Prop :=
  forall a b, a ∈ ts -> b ∈ ts -> idx a = idx b.

Lemma tick_runs_same idx ts :
  Forall (same_index idx) (tick_runs idx ts).1 /\ same_index idx (tick_runs idx ts).2.
Proof.
  unfold tick_runs. induction ts as [|t ts [IH1 IH2]] using rev_ind.
  - split; [constructor|]. intros a b Ha. by apply elem_of_nil in Ha.
  - rewrite foldl_snoc. destruct (foldl _ _ ts) as [cl cur]. unfold run_step. cbn in *.
    destruct cur as [|c cur]; cbn.
    + split; [done|]. intros a b Ha Hb. set_solver.
    + destruct (idx c =? idx t) eqn:E; cbn.
      * split; [done|]. zbool.
        assert (forall a, a ∈ c :: cur ++ [t] -> idx a = idx c) as Hall.
        { intros a. rewrite app_comm_cons, elem_of_app, list_elem_of_singleton.
          intros [Ha| ->]; [|done]. apply IH2; [done|set_solver]. }
        intros a b Ha Hb. by rewrite (Hall a Ha), (Hall b Hb).
      * split; [rewrite Forall_app; eauto|]. intros a b Ha Hb. set_solver.
Qed.

Lemma ordered_perm l : ordered l ≡ₚ l.
Proof. apply py_sorted_perm. Qed.

Lemma mk_candle_engine_nodup s tz ts w e :
  mk_candle_engine s tz ts w = Ok e -> NoDup (ce_timeframes e) /\ ce_states e = ∅.
Proof.
  unfold mk_candle_engine. intros ([] & _ & (v & _ & [= <-])%bind_ok)%bind_ok. cbn.
  split; [|done]. rewrite ordered_perm. apply NoDup_elements.
Qed.

Lemma ordered_leb_total a b : ordered_leb a b = true \/ ordered_leb b a = true.
Proof.
  unfold ordered_leb. destruct (is_session a), (is_session b); auto; apply String.leb_total.
Qed.

Lemma ordered_leb_trans a b c :
  ordered_leb a b = true -> ordered_leb b c = true -> ordered_leb a c = true.
Proof.
  unfold ordered_leb. destruct (is_session a), (is_session b), (is_session c); auto; try done;
    apply string_leb_trans.
Qed.

(** Durations of whole seconds. *)
Definition whole_seconds (t : Timeframe) : Prop :=
  forall d, duration t = Some d -> d mod us_per_second = 0.

Lemma string_snoc_inj (x y : string) : x +:+ "s" = y +:+ "s" -> x = y.
Proof.
  revert y. induction x as [|c x IH]; intros [|c' y]; cbn; try done.
  - intros [= <- H]. by destruct y.
  - intros [= -> H]. by destruct x.
  - intros [= -> H]. f_equal. by apply IH.
Qed.

Lemma label_inj a b :
  timeframe_valid a -> timeframe_valid b -> whole_seconds a -> whole_seconds b ->
  is_session a = is_session b -> label a = label b -> a = b.
Proof.
  unfold timeframe_valid, whole_seconds, label, is_session.
  destruct a as [[] [d|]], b as [[] [d'|]]; cbn; try done.
  intros Ha Hb Wa Wb _ Hl. apply string_snoc_inj, (inj pretty) in Hl.
  specialize (Wa d eq_refl). specialize (Wb d' eq_refl). do 2 f_equal.
  pose proof (Z.div_mod d us_per_second ltac:(done)).
  pose proof (Z.div_mod d' us_per_second ltac:(done)). lia.
Qed.

(** Live operations never write the authoritative window. *)
Definition finalized_of (e : CandleEngine) (k : Instrument * Timeframe) : list Candle :=
  from_option st_finalized [] (ce_states e !! k).

Lemma finalize_partial_finalized w st : st_finalized (finalize_partial w st) = st_finalized st.
Proof. unfold finalize_partial. by destruct (st_partial st). Qed.

Lemma step_state_finalized w sched tz br st t s tfr :
  st_finalized (step_state w sched tz br st t s tfr).1 = st_finalized st.
Proof.
  unfold step_state. destruct (bucket_bounds _ _ _ _ _) as [[? ?] ?]. cbn [fst].
  set (st' := if negb _ then reset_session w st (ctx_trading_date s) else st).
  assert (st_finalized st' = st_finalized st) as <-.
  { subst st'. destruct (negb _); [|done]. cbn. apply finalize_partial_finalized. }
  destruct (st_partial st') as [b|]; [destruct (b_index b =? _)|]; cbn; try done.
  apply finalize_partial_finalized.
Qed.

Lemma update_timeframe_finalized e t s tfr k :
  finalized_of (update_timeframe e t s tfr) k = finalized_of e k.
Proof.
  unfold finalized_of, update_timeframe.
  destruct (step_state _ _ _ _ _ _ _ _) as [st br] eqn:E. cbn.
  destruct (decide (k = (tick_instrument t, tfr))) as [->|Hk]; [|by rewrite lookup_insert_ne].
  rewrite lookup_insert_eq. cbn.
  pose proof (step_state_finalized (ce_finalized_window e) (ce_schedule e) (ce_timezone e)
    (ce_continuity_broken e)
    (default (fresh_state (tick_instrument t) tfr) (ce_states e !! (tick_instrument t, tfr)))
    t s tfr) as H. rewrite E in H. cbn in H. rewrite H.
  by destruct (ce_states e !! _).
Qed.

Lemma update_finalized e t s k : finalized_of (update e t s) k = finalized_of e k.
Proof.
  unfold update. destruct (negb _); [done|]. unfold fold_state.
  generalize (ce_timeframes e) as ts. intros ts. revert e.
  induction ts as [|t0 ts IH]; intros e; cbn; [done|].
  by rewrite IH, update_timeframe_finalized.
Qed.

Lemma record_continuity_finalized e ev k : finalized_of (record_continuity e ev) k = finalized_of e k.
Proof.
  unfold record_continuity, finalized_of. destruct (negb _); [done|]. cbn.
  rewrite lookup_fmap. by destruct (ce_states e !! k).
Qed.

Lemma flush_finalized e a k : finalized_of (flush e a) k = finalized_of e k.
Proof.
  unfold flush, finalized_of. cbn. rewrite lookup_fmap. destruct (ce_states e !! k) as [st|]; cbn; [|done].
  destruct (st_partial st); [|done]. split_ifs; [apply finalize_partial_finalized|done].
Qed.

(** ** Continuity, volume and timeframe changes *)

(** Every registered stream of the instrument already works on the date. *)
Definition on_date (e : CandleEngine) (i : Instrument) (td : date) (ts : list Timeframe) : Prop :=
  forall tfr, tfr ∈ ts -> exists st, ce_states e !! (i, tfr) = Some st /\ st_trading_date st = Some td.

Lemma step_state_same_day w sched tz br st t s tfr :
  st_trading_date st = Some (ctx_trading_date s) ->
  (step_state w sched tz br st t s tfr).2 = br
  /\ st_trading_date (step_state w sched tz br st t s tfr).1 = Some (ctx_trading_date s).
Proof.
  intros Hd. unfold step_state. rewrite bool_decide_eq_true_2 by done. cbn [negb].
  destruct (bucket_bounds _ _ _ _ _) as [[? ?] ?]. cbn [fst snd]. split; [done|].
  destruct (st_partial st) as [b|] eqn:Eb; [destruct (b_index b =? _)|]; cbn; try done.
  unfold finalize_partial. by rewrite Eb.
Qed.

Lemma update_same_day ts e t s :
  on_date e (tick_instrument t) (ctx_trading_date s) ts -> NoDup ts ->
  let e' := fold_state (fun e tfr => update_timeframe e t s tfr) ts e in
  ce_continuity_broken e' = ce_continuity_broken e
  /\ forall tfr st, tfr ∈ ts -> ce_states e !! (tick_instrument t, tfr) = Some st ->
       ce_states e' !! (tick_instrument t, tfr)
       = Some (step_state (ce_finalized_window e) (ce_schedule e) (ce_timezone e)
                 (ce_continuity_broken e) st t s tfr).1.
Proof.
  revert e. induction ts as [|t0 ts IH]; intros e Hon Hnd.
  { split; [done|]. intros tfr st Hin. by apply elem_of_nil in Hin. }
  apply NoDup_cons in Hnd as [H0 Hnd]. unfold fold_state in *. cbn [fold_left].
  destruct (Hon t0) as (st0 & Hst0 & Hd0); [apply list_elem_of_here|].
  pose proof (step_state_same_day (ce_finalized_window e) (ce_schedule e) (ce_timezone e)
    (ce_continuity_broken e) st0 t s t0 Hd0) as [Hbr _].
  assert (ce_continuity_broken (update_timeframe e t s t0) = ce_continuity_broken e) as Eb.
  { unfold update_timeframe. rewrite Hst0. cbn [default from_option id]. destruct (step_state _ _ _ _ _ _ _ _); exact Hbr. }
  assert (on_date (update_timeframe e t s t0) (tick_instrument t) (ctx_trading_date s) ts) as Hon'.
  { intros tfr Hin. destruct (Hon tfr) as (st & ? & ?); [by apply list_elem_of_further|].
    exists st. split; [|done]. rewrite update_timeframe_other; [done|]. intros [= ->]. done. }
  destruct (IH _ Hon' Hnd) as [IH1 IH2]. cbv zeta. rewrite IH1, Eb. split; [done|].
  destruct (update_timeframe_fixed e t s t0) as (E1 & E2 & E3 & _).
  intros tfr st Hin Hst. apply elem_of_cons in Hin as [->|Hin].
  - etrans; [by apply (update_fold_not_in ts (update_timeframe e t s t0) t s t0)|].
    unfold update_timeframe. rewrite Hst. cbn [default from_option id].
    destruct (step_state (ce_finalized_window e) (ce_schedule e) (ce_timezone e)
      (ce_continuity_broken e) st t s t0). apply lookup_insert_eq.
  - rewrite (IH2 tfr st Hin); [by rewrite E1, E2, E3, Eb|].
    rewrite update_timeframe_other; [done|]. intros [= ->]. done.
Qed.

Lemma open_bucket_broken br st index a z t :
  st_instrument st ∈ br ->
  quality_for (open_bucket br st index a z t) = FEED_GAP
  /\ interval_volume (open_bucket br st index a z t) = None.
Proof.
  intros H. unfold open_bucket, quality_for, interval_volume.
  rewrite (bool_decide_eq_true_2 _ H). done.
Qed.

(** The reported cumulative volumes never regress. *)
Fixpoint nondecreasing (x : Z) (l : list Z) : bool :=
  match l with [] => true | y :: l => (x <=? y) && nondecreasing y l end.

Lemma volume_invalid_sticky b ts :
  b_volume_invalid b = true -> interval_volume (foldl apply_tick b ts) = None.
Proof.
  revert b. induction ts as [|t ts IH]; intros b Hb; cbn.
  - unfold interval_volume. by rewrite Hb.
  - apply IH. cbn. unfold advance_cumulative.
    destruct (session_cumulative_volume t); [split_ifs|]; done.
Qed.

Lemma volume_delta b ts v0 c0 :
  b_baseline b = Some v0 -> b_last_cumulative b = Some c0 -> b_volume_invalid b = false ->
  v0 <= c0 ->
  interval_volume (foldl apply_tick b ts)
  = let reported := omap session_cumulative_volume ts in
    if nondecreasing c0 reported then Some (default c0 (last reported) - v0) else None.
Proof.
  revert b c0. induction ts as [|t ts IH]; intros b c0 Hb Hc Hi Hle.
  - cbn. unfold interval_volume. rewrite Hi, Hb, Hc. by replace (c0 - v0 <? 0) with false by lia.
  - cbn [foldl]. cbv zeta.
    change (omap session_cumulative_volume (t :: ts)) with
      (match session_cumulative_volume t with
       | Some y => y :: omap session_cumulative_volume ts
       | None => omap session_cumulative_volume ts end).
    destruct (session_cumulative_volume t) as [c|] eqn:Et.
    + cbn [nondecreasing]. destruct (c0 <=? c) eqn:Ele; zbool; cbn [andb].
      * rewrite (IH _ c); [|done| | |lia].
        2-3: cbn; unfold advance_cumulative; rewrite Et, Hc; replace (c <? c0) with false by lia; done.
        cbv zeta. rewrite last_cons. by destruct (last _).
      * apply volume_invalid_sticky. cbn. unfold advance_cumulative. rewrite Et, Hc.
        by replace (c <? c0) with true by lia.
    + apply IH; try done; cbn; unfold advance_cumulative; rewrite Et; done.
Qed.

Lemma validated_from_ok s ts acc v :
  validated_from s ts acc = Ok v ->
  v = list_to_set ts ∪ acc
  /\ Forall (fun t => forall d, duration t = Some d -> d < session_length s) ts.
Proof.
  revert acc. induction ts as [|t ts IH]; intros acc; cbn.
  - intros [= <-]. split; [set_solver|constructor].
  - intros ([] & H%raise_if_ok & (-> & Hall)%IH)%bind_ok. split; [set_solver|].
    constructor; [|done]. intros d Hd. rewrite Hd in H. zbool. lia.
Qed.

(** * Properties *)

(** [C1] Live candles are the OHLC of the ticks: after any live ticks of one
    instrument on one trading date, each registered stream of a new engine holds
    as its partial candle the open, high, low and close of the current run of
    same-bucket ticks, and as incomplete candles those of the closed runs (the
    newest [finalized_window] of them); the runs concatenate to the input. *)
Theorem live_candles_refine_ticks (sched : SessionSchedule) (tz : ZoneInfo)
    (tfs : list Timeframe) (window : Z) (e : CandleEngine) (i : Instrument) (tfr : Timeframe)
    (s : SessionContext) (ts : list Tick)
    (He : mk_candle_engine sched tz tfs window = Ok e) (Htf : tfr ∈ ce_timeframes e)
    (Hs : market_state s = LIVE_SESSION)
    (Hi : Forall (fun t => tick_instrument t = i) ts) (Hne : ts <> []) :
  let runs := tick_runs (tick_index sched tz (ctx_trading_date s) tfr) ts in
  concat runs.1 ++ runs.2 = ts
  /\ Forall (same_index (tick_index sched tz (ctx_trading_date s) tfr)) runs.1
  /\ same_index (tick_index sched tz (ctx_trading_date s) tfr) runs.2
  /\ exists st b, ce_states (feed s ts e) !! (i, tfr) = Some st
       /\ st_partial st = Some b /\ ohlc_of runs.2 = Some (bucket_ohlc b)
       /\ Some ∘ incomplete_ohlc <$> st_incomplete st
          = last_n (Z.to_nat window) (ohlc_of <$> runs.1).
Proof.
  intros runs. split; [apply tick_runs_concat|]. split; [apply tick_runs_same|].
  split; [apply tick_runs_same|].
  destruct (mk_candle_engine_nodup _ _ _ _ _ He) as [Hnd Hst].
  pose proof (feed_sim (ctx_trading_date s) i tfr s ts e ([], []) Hs eq_refl Hi Hnd Htf) as Hsim.
  assert (ce_schedule e = sched /\ ce_timezone e = tz) as [Hsched Htz].
  { unfold mk_candle_engine in He. by apply bind_ok in He as ([] & _ & (v & _ & [= <-])%bind_ok). }
  rewrite Hsched, Htz in Hsim.
  unfold stream_sim in Hsim. rewrite Hst, lookup_empty in Hsim. specialize (Hsim eq_refl).
  destruct (ce_states (feed s ts e) !! (i, tfr)) as [st|].
  - destruct Hsim as [_ (c & rest & b & Hg & Hp & _ & Ho) Hc].
    exists st, b. split_and!; try done. rewrite Hc. f_equal.
    clear -He Hnd. assert (forall e', ce_finalized_window (feed s ts e') = ce_finalized_window e') as ->.
    { induction ts as [|t ts IH]; intros e'; [done|]. unfold feed, fold_state in *. cbn [fold_left].
      rewrite IH. unfold update. destruct (negb _); [done|].
      by destruct (update_fold_fixed (ce_timeframes e') e' t s) as (_ & _ & ? & _). }
    unfold mk_candle_engine in He. by apply bind_ok in He as ([] & _ & (v & _ & [= <-])%bind_ok).
  - exfalso. pose proof (tick_runs_concat (tick_index sched tz (ctx_trading_date s) tfr) ts) as Hc.
    unfold tick_runs in Hc. rewrite Hsim in Hc. by cbn in Hc.
Qed.

(** [C5] Representation invariant of the candle engine: in every state reachable
    through ticks, continuity events, flushes, timeframe changes and
    reconciliations, both windows stay bounded, partial and incomplete candles
    are well-formed OHLC with non-negative volume and their own identity, no
    live interval is marked complete, a feed-gap interval carries no volume, and
    the finalized window is in start order. *)
Theorem candle_engine_invariant (e : CandleEngine) (H : candle_reachable e) : engine_ok e.
Proof. by apply candle_reachable_ok. Qed.

(** Live data is never authoritative: ticks, continuity events and flushes
    leave the finalized (authoritative) candles of every stream unchanged. *)
Theorem live_never_authoritative (e : CandleEngine) (k : Instrument * Timeframe) (t : Tick)
    (s : SessionContext) (ev : FeedContinuityEvent) (at_time : instant) :
  finalized_of (update e t s) k = finalized_of e k
  /\ finalized_of (record_continuity e ev) k = finalized_of e k
  /\ finalized_of (flush e at_time) k = finalized_of e k.
Proof.
  split_and!; [apply update_finalized|apply record_continuity_finalized|apply flush_finalized].
Qed.

(** Instrument isolation: a tick changes neither the streams nor the
    continuity taint of any other instrument. *)
Theorem update_isolated (e : CandleEngine) (t : Tick) (s : SessionContext) (j : Instrument)
    (tfr : Timeframe) (He : engine_ok e) (Ht : tick_valid t) (Hj : j <> tick_instrument t) :
  ce_states (update e t s) !! (j, tfr) = ce_states e !! (j, tfr)
  /\ (j ∈ ce_continuity_broken (update e t s) <-> j ∈ ce_continuity_broken e).
Proof.
  unfold update. destruct (negb _); [done|]. by apply update_fold_other.
Qed.

Lemma reconcile_unchanged e c t :
  (forall st, ce_states e !! (candle_instrument c, t) = Some st ->
     match_outcome c t (st_incomplete st) (st_finalized st) <> RECONCILED) ->
  (reconcile e c t).1 = e /\ rr_outcome (reconcile e c t).2 <> RECONCILED.
Proof.
  intros H. unfold reconcile. destruct (ce_states e !! _) as [st|]; [|done].
  specialize (H st eq_refl). rewrite (bool_decide_eq_false_2 _ H). by destruct (_ && _).
Qed.

Lemma reconcile_changed e c t st :
  ce_states e !! (candle_instrument c, t) = Some st ->
  match_outcome c t (st_incomplete st) (st_finalized st) = RECONCILED ->
  (reconcile e c t).1 = with_states e
    (<[(candle_instrument c, t) :=
       apply_reconciliation (ce_finalized_window e) st c t (identity_of c t)]> (ce_states e))
    (ce_continuity_broken e)
  /\ rr_outcome (reconcile e c t).2 = RECONCILED.
Proof. intros Hk H. unfold reconcile. rewrite Hk. by rewrite (bool_decide_eq_true_2 _ H). Qed.

Lemma match_outcome_not_reconciled c t inc fin :
  Forall (fun x => identity_of_incomplete x <> identity_of c t) inc ->
  match_outcome c t inc fin <> RECONCILED.
Proof.
  intros H. unfold match_outcome. destruct (List.find _ _); [by split_ifs|].
  destruct (py_any _ inc) eqn:E; [|done].
  apply existsb_exists in E as (x & Hx & Hid). zbool.
  rewrite Forall_forall in H. exfalso. apply (H x); [by apply list_elem_of_In|done].
Qed.

(** Reconciliation: it changes the engine only when it answers
    [RECONCILED], then the incomplete interval with the candle's identity is
    gone, the stream's partial candle and every other stream are untouched, and
    repeating the call changes nothing further. *)
Theorem reconcile_correct (e : CandleEngine) (c : Candle) (t : Timeframe) :
  let e' := (reconcile e c t).1 in
  (rr_outcome (reconcile e c t).2 <> RECONCILED -> e' = e)
  /\ (forall k, k <> (candle_instrument c, t) -> ce_states e' !! k = ce_states e !! k)
  /\ (forall st', ce_states e' !! (candle_instrument c, t) = Some st' ->
        exists st, ce_states e !! (candle_instrument c, t) = Some st
        /\ st_partial st' = st_partial st
        /\ (rr_outcome (reconcile e c t).2 = RECONCILED ->
            Forall (fun x => identity_of_incomplete x <> identity_of c t) (st_incomplete st')))
  /\ (reconcile e' c t).1 = e'.
Proof.
  assert ((exists st, ce_states e !! (candle_instrument c, t) = Some st
    /\ match_outcome c t (st_incomplete st) (st_finalized st) = RECONCILED)
    \/ forall st, ce_states e !! (candle_instrument c, t) = Some st ->
      match_outcome c t (st_incomplete st) (st_finalized st) <> RECONCILED) as [(st & Hk & Ho)|Hn].
  { destruct (ce_states e !! _) as [st|]; [|by right].
    destruct (decide (match_outcome c t (st_incomplete st) (st_finalized st) = RECONCILED));
      naive_solver. }
  - destruct (reconcile_changed e c t st Hk Ho) as [He' Hout]. rewrite He', Hout.
    assert (Forall (fun x => identity_of_incomplete x <> identity_of c t)
      (st_incomplete (apply_reconciliation (ce_finalized_window e) st c t (identity_of c t)))) as Hinc.
    { cbn. apply Forall_last_n. rewrite Forall_forall. by intros x [Hx _]%list_elem_of_filter. }
    cbv zeta. split_and!; [done| | |].
    + intros k Hne. cbn. by rewrite lookup_insert_ne.
    + cbn [ce_states with_states]. intros st'. rewrite lookup_insert_eq. intros [= <-].
      exists st. split_and!; done.
    + apply reconcile_unchanged. cbn [ce_states with_states]. intros st'.
      rewrite lookup_insert_eq. intros [= <-]. by apply match_outcome_not_reconciled.
  - destruct (reconcile_unchanged e c t Hn) as [He' Hout]. cbv zeta. rewrite !He'.
    split_and!; try done. intros st' Hst. exists st'. split_and!; done.
Qed.

(** The active timeframes have one canonical order: for whole-second
    timeframes the result of [_ordered] does not depend on the iteration order
    of the set. *)
Theorem ordered_deterministic (l1 l2 : list Timeframe) (Hp : l1 ≡ₚ l2)
    (Hv : Forall (fun t => timeframe_valid t /\ whole_seconds t) l1) :
  ordered l1 = ordered l2.
Proof.
  apply (py_sorted_unique ordered_leb); [apply ordered_leb_total|apply ordered_leb_trans| |done].
  rewrite Forall_forall in Hv. intros a b Ha Hb H1 H2.
  destruct (Hv a Ha) as [Va Wa], (Hv b Hb) as [Vb Wb].
  unfold ordered_leb in H1, H2.
  destruct (is_session a) eqn:Ea, (is_session b) eqn:Eb; try done;
    (apply label_inj; [done|done|done|done|congruence|by apply String.leb_antisym]).
Qed.

(** A continuity loss taints the rest of the session: as long as the
    registered timeframes of the instrument stay on the trading date, the next
    tick finds it still tainted; if the tick stays in the open bucket that
    candle is no longer trusted, and if it opens a bucket the new candle is a
    feed gap without volume. *)
Theorem continuity_taint_persists (e : CandleEngine) (ev : FeedContinuityEvent) (t : Tick)
    (s : SessionContext) (tfr : Timeframe) (He : engine_ok e)
    (Hloss : is_continuity_loss (feed_status ev) = true) (Hs : market_state s = LIVE_SESSION)
    (Hnd : NoDup (ce_timeframes e)) (Htf : tfr ∈ ce_timeframes e)
    (Hon : on_date e (tick_instrument t) (ctx_trading_date s) (ce_timeframes e)) :
  let e2 := update (record_continuity e ev) t s in
  tick_instrument t ∈ ce_continuity_broken e2
  /\ exists st b, ce_states e2 !! (tick_instrument t, tfr) = Some st /\ st_partial st = Some b
       /\ (b_ohlc_broken b = true
           \/ (quality_for b = FEED_GAP /\ interval_volume b = None)).
Proof.
  cbv zeta. unfold record_continuity. rewrite Hloss. cbn [negb].
  set (e1 := with_states e _ _). unfold update. rewrite bool_decide_eq_true_2 by done. cbn [negb].
  assert (on_date e1 (tick_instrument t) (ctx_trading_date s) (ce_timeframes e1)) as Hon1.
  { intros x Hx. destruct (Hon x Hx) as (st & Hst & Hd).
    exists (with_partial st (break_ohlc <$> st_partial st)). cbn. by rewrite lookup_fmap, Hst. }
  destruct (update_same_day (ce_timeframes e1) e1 t s Hon1 Hnd) as [-> Hup].
  destruct (Hon tfr Htf) as (st & Hst & Hd).
  assert (tick_instrument t ∈ ce_continuity_broken e1) as Hin.
  { cbn. apply elem_of_union_l, elem_of_map. exists (tick_instrument t, tfr).
    split; [done|]. by apply elem_of_dom_2 in Hst. }
  split; [done|].
  rewrite (Hup tfr (with_partial st (break_ohlc <$> st_partial st)) Htf).
  2: { cbn. by rewrite lookup_fmap, Hst. }
  unfold step_state. cbn [st_trading_date with_partial].
  rewrite bool_decide_eq_true_2 by done. cbn [negb].
  destruct (bucket_bounds _ _ _ _ _) as [[index a] z]. cbn [fst st_partial with_partial].
  assert (st_instrument st = tick_instrument t) as Hinst by (apply He in Hst; apply Hst).
  assert (forall b, st_instrument (finalize_partial (ce_finalized_window e1)
    (with_partial st b)) = tick_instrument t) as Hfin.
  { intros b. unfold finalize_partial. cbn. by destruct b. }
  destruct (st_partial st) as [b|]; cbn [fmap option_fmap option_map].
  - cbn [b_index break_ohlc]. destruct (b_index b =? index).
    + eexists _, _. split; [reflexivity|]. split; [reflexivity|]. by left.
    + eexists _, _. split; [reflexivity|]. split; [reflexivity|]. right. apply open_bucket_broken. by rewrite Hfin.
  - eexists _, _. split; [reflexivity|]. split; [reflexivity|]. right. apply open_bucket_broken. cbn. by rewrite Hinst.
Qed.

(** Interval volume is the exact cumulative delta: with a carried baseline
    the candle's volume is the last reported session cumulative minus the
    baseline when the reports never regress, and unavailable as soon as one
    does. *)
Theorem interval_volume_exact (b : Bucket) (ts : list Tick) (v0 c0 : Z)
    (Hb : b_baseline b = Some v0) (Hc : b_last_cumulative b = Some c0)
    (Hi : b_volume_invalid b = false) (Hle : v0 <= c0) :
  interval_volume (foldl apply_tick b ts)
  = let reported := omap session_cumulative_volume ts in
    if nondecreasing c0 reported then Some (default c0 (last reported) - v0) else None.
Proof. by apply volume_delta. Qed.

(** Changing the required timeframes: exactly the requested set becomes
    active (every intraday one shorter than the session), streams of timeframes
    that stay keep their state, streams of dropped ones disappear. *)
Theorem set_required_timeframes_correct (e : CandleEngine) (ts : list Timeframe)
    (e' : CandleEngine) (H : set_required_timeframes e ts = Ok e') :
  (forall t, t ∈ ce_timeframes e' <-> t ∈ ts)
  /\ Forall (fun t => forall d, duration t = Some d -> d < session_length (ce_schedule e)) ts
  /\ (forall i t, t ∈ ts -> ce_states e' !! (i, t) = ce_states e !! (i, t))
  /\ (forall i t, t ∈ ce_timeframes e -> t ∉ ts -> ce_states e' !! (i, t) = None).
Proof.
  unfold set_required_timeframes in H. apply bind_ok in H as (v & Hv & [= <-]).
  apply validated_from_ok in Hv as [-> Hall]. cbn [ce_timeframes ce_states].
  rewrite union_empty_r_L. split_and!; [|done| |].
  - intros t. rewrite ordered_perm, elem_of_elements, elem_of_list_to_set. done.
  - intros i t Ht. destruct (ce_states e !! (i, t)) as [st|] eqn:E.
    + apply map_lookup_filter_Some_2; [done|]. cbn.
      rewrite elem_of_difference, !elem_of_list_to_set. tauto.
    + by apply map_lookup_filter_None_2; left.
  - intros i t Ht Hn. apply map_lookup_filter_None_2. right. intros st _. cbn.
    rewrite elem_of_difference, !elem_of_list_to_set. tauto.
Qed.

(** * Witnesses *)

Definition sample_engine : CandleEngine := {|
  ce_schedule := nse_schedule; ce_timezone := kolkata; ce_finalized_window := 20;
  ce_timeframes := [tf 5]; ce_states := ∅; ce_continuity_broken := ∅ |}.

Lemma sample_engine_ok : mk_candle_engine nse_schedule kolkata [tf 5] 20 = Ok sample_engine.
Proof. reflexivity. Qed.

Definition sample_ticks : list Tick :=
  [trade reliance 9 15 100 100; trade reliance 9 17 103 120; trade reliance 9 20 101 150].

Lemma live_candles_refine_ticks_witness :
  exists st b, ce_states (feed live_session sample_ticks sample_engine) !! (reliance, tf 5) = Some st
    /\ st_partial st = Some b
    /\ ohlc_of [trade reliance 9 20 101 150] = Some (bucket_ohlc b).
Proof.
  destruct (live_candles_refine_ticks nse_schedule kolkata [tf 5] 20 sample_engine reliance (tf 5)
    live_session sample_ticks sample_engine_ok) as (_ & _ & _ & st & b & H1 & H2 & H3 & _).
  - apply list_elem_of_here.
  - reflexivity.
  - repeat constructor.
  - discriminate.
  - exists st, b. split; [exact H1|]. split; [exact H2|]. exact H3.
Defined.

Lemma candle_engine_invariant_witness :
  candle_reachable (update sample_engine (trade reliance 9 15 100 100) live_session)
  /\ engine_ok (update sample_engine (trade reliance 9 15 100 100) live_session).
Proof.
  assert (candle_reachable (update sample_engine (trade reliance 9 15 100 100) live_session)) as H.
  { exists nse_schedule, kolkata, [tf 5], 20, sample_engine. split; [reflexivity|].
    apply rtc_once, cs_update, trade_valid. reflexivity. }
  split; [exact H|]. exact (candle_engine_invariant _ H).
Defined.

Lemma update_isolated_witness :
  ce_states (update (update sample_engine (trade reliance 9 15 100 100) live_session)
    (trade infy 9 16 1500 10) live_session) !! (reliance, tf 5)
  = ce_states (update sample_engine (trade reliance 9 15 100 100) live_session) !! (reliance, tf 5).
Proof.
  refine (proj1 (update_isolated _ (trade infy 9 16 1500 10) live_session reliance (tf 5) _ _ _)).
  - apply update_ok; [apply trade_valid; reflexivity|apply map_Forall_empty].
  - apply trade_valid. reflexivity.
  - discriminate.
Defined.

Lemma ordered_deterministic_witness : ordered [tf 5; tf 15; tf 1] = ordered [tf 1; tf 15; tf 5].
Proof.
  apply (ordered_deterministic [tf 5; tf 15; tf 1] [tf 1; tf 15; tf 5]).
  - exact (Permutation_rev [tf 5; tf 15; tf 1]).
  - repeat constructor; cbn; by intros d [= <-].
Defined.

(** The state after two contiguous five-minute buckets. *)
Definition two_buckets : CandleEngine :=
  feed live_session [trade reliance 9 15 100 100; trade reliance 9 20 101 150] sample_engine.

Lemma two_buckets_ok : engine_ok two_buckets.
Proof.
  unfold two_buckets, feed, fold_state. cbn [fold_left].
  apply update_ok; [by apply trade_valid|]. apply update_ok; [by apply trade_valid|].
  apply map_Forall_empty.
Qed.

Lemma continuity_taint_persists_witness :
  reliance ∈ ce_continuity_broken
    (update (record_continuity two_buckets lost) (trade reliance 9 26 102 300) live_session).
Proof.
  refine (proj1 (continuity_taint_persists two_buckets lost (trade reliance 9 26 102 300)
    live_session (tf 5) two_buckets_ok eq_refl eq_refl _ _ _)).
  - apply NoDup_singleton.
  - apply list_elem_of_here.
  - intros x Hx. apply list_elem_of_singleton in Hx as ->. eexists. split; vm_compute; reflexivity.
Defined.

Definition carried_bucket : Bucket := {|
  b_index := 1; b_start_utc := at_local 9 20; b_end_utc := at_local 9 25;
  b_open := dec 101 0; b_high := dec 101 0; b_low := dec 101 0; b_close := dec 101 0;
  b_baseline := Some 100; b_last_cumulative := Some 150; b_feed_gap := false;
  b_ohlc_broken := false; b_volume_invalid := false |}.

Lemma interval_volume_exact_witness :
  interval_volume (foldl apply_tick carried_bucket
    [trade reliance 9 21 102 170; trade reliance 9 22 103 220]) = Some 120.
Proof.
  rewrite (interval_volume_exact carried_bucket _ 100 150); [reflexivity|reflexivity|reflexivity|reflexivity|lia].
Defined.

Lemma set_required_timeframes_correct_witness :
  exists e', set_required_timeframes two_buckets [tf 15] = Ok e'
             /\ ce_states e' !! (reliance, tf 5) = None.
Proof.
  eexists. split; [reflexivity|].
  refine (proj2 (proj2 (proj2 (set_required_timeframes_correct two_buckets [tf 15] _ _))) reliance (tf 5) _ _);
    [reflexivity|apply list_elem_of_here|].
  intros [H|H]%elem_of_cons; [discriminate|by apply elem_of_nil in H].
Defined.

(** * Observations *)

(** The partial candle the engine shows for one stream. *)
Definition shown (e : CandleEngine) (i : Instrument) : list (option (option Z * CandleQuality)) :=
  (fun c => (fun p => (pc_traded_quantity p, pc_quality p)) <$> tc_partial c) <$> candle_sets_for e i.

(** A candle that overlaps a continuity loss keeps its provisional volume,
    although the module's documentation says such an interval carries none. *)
Lemma loss_overlap_keeps_volume :
  shown (update (record_continuity two_buckets lost) (trade reliance 9 22 102 200) live_session) reliance
  = [Some (Some 100, INCOMPLETE_OHLC)].
Proof. vm_compute. reflexivity. Qed.

(** Without a timeframe change the bucket opened after the loss is a feed gap ... *)
Lemma taint_without_timeframe_change :
  shown (update (record_continuity two_buckets lost) (trade reliance 9 26 102 300) live_session) reliance
  = [Some (None, FEED_GAP)].
Proof. vm_compute. reflexivity. Qed.

(** ... but registering a further timeframe on the same trading date clears the
    taint, and the same bucket then carries a volume across the gap. *)
Lemma timeframe_change_clears_taint :
  exists e', set_required_timeframes (record_continuity two_buckets lost) [tf 3; tf 5] = Ok e'
  /\ shown (update e' (trade reliance 9 26 102 300) live_session) reliance
     = [Some (None, INCOMPLETE_VOLUME); Some (Some 150, INCOMPLETE_VOLUME)].
Proof. eexists. split; [reflexivity|]. vm_compute. reflexivity. Qed.

(** Two distinct sub-second timeframes share a label, so their order is the
    iteration order of the set. *)
Lemma subsecond_timeframes_tie :
  let a := {| kind := INTRADAY; duration := Some 1200000 |} in
  let b := {| kind := INTRADAY; duration := Some 1500000 |} in
  ordered [a; b] <> ordered [b; a].
Proof. vm_compute. discriminate. Qed.
