(* ===== verification/SessionStatistics.v ===== *)
(** Current-session statistics ([market_engine/session_statistics.py]): the
    reconciliation primitive [apply_session_ohlc], its tick wrapper and the
    resolution of a staged observation against a tick-carried aggregate. *)
From S2P Require Import Prelude PyTime MarketData Session Context Samples.

Local Open Scope Z_scope.

(** * Definitions *)

Record SessionStatisticsAuthority : Type := {
  staged_observation_verified : bool;
  tick_aggregate_verified : bool;
}.

(** [SessionStatisticsAuthority()], the engine's default. *)
Definition disabled_authority : SessionStatisticsAuthority := {|
  staged_observation_verified := false; tick_aggregate_verified := false |}.

(** [_same_session_prior] *)
Definition same_session_prior (previous : option SessionStatistics) (session : SessionContext)
    : option SessionStatistics :=
  match previous with
  | None => None
  | Some p => if negb (ss_trading_date p =? ctx_trading_date session) then None else Some p
  end.

(** [_reconciled] *)
Definition reconciled (candidate prior : SessionStatistics) (aggregate_as_of : instant)
    : SessionStatistics :=
  if aggregate_as_of <? ss_as_of prior then prior else
  match ss_open_price candidate, ss_high_price candidate, ss_low_price candidate,
        ss_open_price prior, ss_high_price prior, ss_low_price prior with
  | Some new_open, Some new_high, Some new_low, Some old_open, Some old_high, Some old_low =>
      if negb (dec_eqb new_open old_open) then prior
      else if dec_ltb new_high old_high || dec_ltb old_low new_low then prior
      else if dec_eqb new_high old_high && dec_eqb new_low old_low then prior
      else candidate
  | _, _, _, _, _, _ => prior
  end.

(** The whole snapshot [apply_session_ohlc] builds from one aggregate. *)
Definition snapshot_of (session : SessionContext) (a : ProviderSessionOhlc) (as_of : instant)
    : SessionStatistics := {|
  ss_trading_date := ctx_trading_date session;
  ss_open_price := Some (pso_open_price a); ss_high_price := Some (pso_high_price a);
  ss_low_price := Some (pso_low_price a); ss_quality := AUTHORITATIVE; ss_as_of := as_of |}.

Definition is_live (session : SessionContext) : bool :=
  bool_decide (market_state session = LIVE_SESSION).

(** [apply_session_ohlc] *)
Definition apply_session_ohlc (aggregate : option ProviderSessionOhlc) (aggregate_as_of : instant)
    (session : SessionContext) (previous : option SessionStatistics) (source_verified : bool)
    : option SessionStatistics :=
  let prior := same_session_prior previous session in
  if negb (is_live session) then prior else
  match source_verified, aggregate with
  | true, Some a =>
      let candidate := snapshot_of session a aggregate_as_of in
      match prior with
      | None => Some candidate
      | Some p => Some (reconciled candidate p aggregate_as_of)
      end
  | _, _ => prior
  end.

(** [update_session_statistics] *)
Definition update_session_statistics (t : Tick) (session : SessionContext)
    (previous : option SessionStatistics) (authority : SessionStatisticsAuthority)
    : option SessionStatistics :=
  apply_session_ohlc (tick_session_ohlc t) (tick_event_timestamp t) session previous
    (tick_aggregate_verified authority).

(** [resolve_session_statistics]: the next statistics and the observation left
    staged. *)
Definition resolve_session_statistics (aggregate : option ProviderSessionOhlc)
    (aggregate_as_of : instant) (staged : option SessionStatisticsObservation)
    (session : option SessionContext) (previous : option SessionStatistics)
    (authority : SessionStatisticsAuthority)
    : option SessionStatistics * option SessionStatisticsObservation :=
  match session with
  | None => (previous, staged)
  | Some session =>
      let from_tick (next_staged : option SessionStatisticsObservation) :=
        (apply_session_ohlc aggregate aggregate_as_of session previous
           (tick_aggregate_verified authority), next_staged) in
      match staged with
      | None => from_tick None
      | Some st =>
          if obs_trading_date st <? ctx_trading_date session then from_tick None
          else if (obs_trading_date st =? ctx_trading_date session) && is_live session then
            (apply_session_ohlc (Some (obs_session_ohlc st)) (obs_observed_at st) session previous
               (staged_observation_verified authority), None)
          else from_tick (Some st)
      end
  end.

(** * Specification *)

(** An authoritative snapshot that passed construction. *)
Definition stats_valid (s : SessionStatistics) : Prop :=
  ss_quality s = AUTHORITATIVE /\ validate_quality_consistency s = Ok tt.

(** [b] is a later, coherent view of the same session than [a]. *)
Record progresses (a b : SessionStatistics) : Prop := {
  prog_date : ss_trading_date b = ss_trading_date a;
  prog_open : ss_open_price b = ss_open_price a;
  prog_high : forall x y, ss_high_price a = Some x -> ss_high_price b = Some y -> (x <= y)%Qc;
  prog_low : forall x y, ss_low_price a = Some x -> ss_low_price b = Some y -> (y <= x)%Qc;
  prog_as_of : ss_as_of a <= ss_as_of b;
}.

(** The next aggregate of a provider whose session OHLC behaves as running
    extrema: same open, high up, low down. *)
Definition coherent_next (a b : ProviderSessionOhlc * instant) : Prop :=
  pso_open_price b.1 = pso_open_price a.1
  /\ (pso_high_price a.1 <= pso_high_price b.1)%Qc
  /\ (pso_low_price b.1 <= pso_low_price a.1)%Qc
  /\ a.2 <= b.2.

Definition prices_of (s : SessionStatistics) : option Decimal * option Decimal * option Decimal :=
  (ss_open_price s, ss_high_price s, ss_low_price s).

(** A session's aggregates applied in order by a verified source. *)
Definition follow (session : SessionContext) (feed : list (ProviderSessionOhlc * instant))
    (previous : option SessionStatistics) : option SessionStatistics :=
  fold_left (fun p d => apply_session_ohlc (Some d.1) d.2 session p true) feed previous.

(** * Lemmas *)

Lemma progresses_refl s : progresses s s.
Proof. split; intros; simplify_eq; auto with apex; lia. Qed.

Lemma same_session_prior_some previous session p :
  same_session_prior previous session = Some p ->
  previous = Some p /\ ss_trading_date p = ctx_trading_date session.
Proof. unfold same_session_prior. destruct previous; [|done]. split_ifs; [done|]. intros [= ->]. by zbool. Qed.

Lemma snapshot_valid session a t : ohlc_valid a -> stats_valid (snapshot_of session a t).
Proof.
  intros [H1 H2 H3 H4 H5]. split; [done|].
  unfold validate_quality_consistency, opt_positive. cbn.
  rewrite (proj2 (dec_ltb_lt 0 (pso_open_price a))), (proj2 (dec_ltb_lt 0 (pso_high_price a))),
    (proj2 (dec_ltb_lt 0 (pso_low_price a))) by dec_order. cbn.
  assert (dec_ltb (pso_high_price a) (pso_low_price a) = false) as -> by (dec_unfold; [dec_order|done]).
  cbn. rewrite !(proj2 (dec_leb_le _ _)); [done|dec_order..].
Qed.

(** [_reconciled] keeps the prior or takes the candidate whole; the candidate
    only when it moves the session forward. *)
Lemma reconciled_cases session a t prior :
  reconciled (snapshot_of session a t) prior t = prior
  \/ (reconciled (snapshot_of session a t) prior t = snapshot_of session a t
      /\ ss_as_of prior <= t /\ ss_open_price prior = Some (pso_open_price a)
      /\ (exists h, ss_high_price prior = Some h /\ (h <= pso_high_price a)%Qc)
      /\ (exists l, ss_low_price prior = Some l /\ (pso_low_price a <= l)%Qc)).
Proof.
  unfold reconciled. cbn. destruct (t <? ss_as_of prior) eqn:Ht; [by left|].
  destruct (ss_open_price prior) as [o|], (ss_high_price prior) as [h|],
    (ss_low_price prior) as [l|]; try by left.
  destruct (negb _) eqn:Ho; [by left|]. destruct (_ || _) eqn:Hx; [by left|].
  destruct (_ && _); [by left|]. right. zbool.
  apply dec_eqb_eq in Ho as ->.
  split_and!; [done|lia|done|eexists; split; [done|]|eexists; split; [done|]];
    dec_unfold; dec_order; done.
Qed.

(** What one application of the primitive can return. *)
Lemma apply_cases aggregate t session previous verified s :
  apply_session_ohlc aggregate t session previous verified = Some s ->
  ss_trading_date s = ctx_trading_date session
  /\ (previous = Some s
      \/ exists a, market_state session = LIVE_SESSION /\ verified = true
         /\ aggregate = Some a /\ s = snapshot_of session a t).
Proof.
  unfold apply_session_ohlc.
  destruct (is_live session) eqn:Hl; cbn.
  2: { intros [-> ?]%same_session_prior_some. auto. }
  destruct verified, aggregate as [a|]; try (intros [-> ?]%same_session_prior_some; by auto).
  destruct (same_session_prior previous session) as [p|] eqn:Hp.
  - apply same_session_prior_some in Hp as [-> Hd]. intros [= <-].
    destruct (reconciled_cases session a t p) as [->|(-> & _)]; [auto|].
    split; [done|]. right. exists a. by unfold is_live in Hl; zbool.
  - intros [= <-]. split; [done|]. right. exists a. by unfold is_live in Hl; zbool.
Qed.

Lemma apply_progresses aggregate t session p verified :
  ss_trading_date p = ctx_trading_date session ->
  exists s, apply_session_ohlc aggregate t session (Some p) verified = Some s /\ progresses p s.
Proof.
  intros Hd. unfold apply_session_ohlc, same_session_prior.
  rewrite (proj2 (Z.eqb_eq _ _) Hd). cbn.
  destruct (is_live session); cbn; [|eauto using progresses_refl].
  destruct verified, aggregate as [a|]; try (eexists; split; [done|apply progresses_refl]).
  eexists; split; [done|].
  destruct (reconciled_cases session a t p) as [->|(-> & ? & ? & (h & ? & ?) & (l & ? & ?))];
    [apply progresses_refl|].
  split; cbn; intros; simplify_eq; auto with lia.
Qed.

(** A coherent aggregate is never refused: the prices shown are its own. *)
Lemma apply_coherent session a t b u s :
  is_live session = true -> coherent_next (a, t) (b, u) ->
  ss_trading_date s = ctx_trading_date session -> ss_as_of s <= u ->
  prices_of s = prices_of (snapshot_of session a t) ->
  exists s', apply_session_ohlc (Some b) u session (Some s) true = Some s'
    /\ ss_trading_date s' = ctx_trading_date session /\ ss_as_of s' <= u
    /\ prices_of s' = prices_of (snapshot_of session b u).
Proof.
  intros Hl (Ho & Hh & Hlow & _) Hd Hs [= H1 H2 H3]. cbn in *.
  unfold apply_session_ohlc, same_session_prior. rewrite Hl, (proj2 (Z.eqb_eq _ _) Hd). cbn.
  eexists; split; [done|]. unfold reconciled. cbn.
  assert ((u <? ss_as_of s) = false) as -> by lia.
  rewrite H1, H2, H3. rewrite Ho, (proj2 (dec_eqb_eq _ _)) by done. cbn.
  assert (dec_ltb (pso_high_price b) (pso_high_price a) || dec_ltb (pso_low_price a) (pso_low_price b) = false) as ->.
  { apply orb_false_iff; split; dec_unfold; try done; dec_order. }
  destruct (_ && _) eqn:E.
  - apply andb_true_iff in E as [E1%dec_eqb_eq E2%dec_eqb_eq].
    split_and!; [done|done|]. unfold prices_of. cbn. congruence.
  - split_and!; [done|cbn; lia|done].
Qed.

Lemma follow_coherent session feed a t s :
  is_live session = true ->
  StronglySorted coherent_next ((a, t) :: feed) ->
  ss_trading_date s = ctx_trading_date session -> ss_as_of s <= t ->
  prices_of s = prices_of (snapshot_of session a t) ->
  exists s', follow session feed (Some s) = Some s'
    /\ prices_of s' = (let d := List.last feed (a, t) in prices_of (snapshot_of session d.1 d.2)).
Proof.
  intros Hl. revert a t s. induction feed as [|[b u] feed IH]; intros a t s Hs Hd Hle Hp.
  { eauto. }
  inversion Hs as [|? ? Hs' Hall]; subst. pose proof Hall as Hab. apply Forall_cons in Hab as [Hab _].
  destruct (apply_coherent session a t b u s) as (s1 & E & ? & ? & ?); try done.
  { destruct Hab as (_ & _ & _ & Hab). cbn in Hab. lia. }
  unfold follow. cbn [fold_left fst snd]. rewrite E.
  destruct (IH b u s1) as (s' & Hf & Hp'); try done.
  exists s'. split; [done|]. rewrite Hp', (last_cons_default (b, u)). done.
Qed.

(** * Properties *)

(** Within a trading date session statistics only move forward: whatever
    the datum, its source and the session phase, the next statistics exist, keep
    the date and the open, and never lower the high, raise the low or go back in
    time; an unverified source leaves them exactly as they were. *)
Theorem session_statistics_monotone (aggregate : option ProviderSessionOhlc) (t : instant)
    (session : SessionContext) (p : SessionStatistics)
    (Hdate : ss_trading_date p = ctx_trading_date session) :
  (exists s, apply_session_ohlc aggregate t session (Some p) true = Some s /\ progresses p s)
  /\ apply_session_ohlc aggregate t session (Some p) false = Some p.
Proof.
  split; [by apply apply_progresses|].
  unfold apply_session_ohlc, same_session_prior. rewrite (proj2 (Z.eqb_eq _ _) Hdate). cbn.
  by destruct (negb _).
Qed.

(** Provenance: statistics shown for a classified datum carry that
    session's trading date and are either the previous value unchanged or one
    source's snapshot taken whole in the live session, with that source's own
    verification bit set; a new snapshot satisfies the value object's
    validator, and the staged observation is consumed in its own live session,
    dropped when older than the session and kept otherwise. *)
Theorem session_statistics_provenance (aggregate : option ProviderSessionOhlc) (t : instant)
    (staged : option SessionStatisticsObservation) (session : SessionContext)
    (previous : option SessionStatistics) (authority : SessionStatisticsAuthority)
    (Hagg : forall a, aggregate = Some a -> ohlc_valid a)
    (Hstaged : forall o, staged = Some o -> ohlc_valid (obs_session_ohlc o)) :
  let '(next, left_over) :=
    resolve_session_statistics aggregate t staged (Some session) previous authority in
  (forall s, next = Some s ->
     ss_trading_date s = ctx_trading_date session
     /\ (previous = Some s
         \/ (market_state session = LIVE_SESSION /\ stats_valid s
             /\ ((exists a, aggregate = Some a /\ tick_aggregate_verified authority = true
                  /\ s = snapshot_of session a t)
                 \/ (exists o, staged = Some o /\ staged_observation_verified authority = true
                  /\ obs_trading_date o = ctx_trading_date session
                  /\ s = snapshot_of session (obs_session_ohlc o) (obs_observed_at o))))))
  /\ (forall o, left_over = Some o <-> staged = Some o /\ ctx_trading_date session <= obs_trading_date o
       /\ ~ (obs_trading_date o = ctx_trading_date session /\ market_state session = LIVE_SESSION)).
Proof.
  unfold resolve_session_statistics.
  assert (forall s, apply_session_ohlc aggregate t session previous
      (tick_aggregate_verified authority) = Some s ->
    ss_trading_date s = ctx_trading_date session /\ (previous = Some s
      \/ (market_state session = LIVE_SESSION /\ stats_valid s
        /\ (exists a, aggregate = Some a /\ tick_aggregate_verified authority = true
                  /\ s = snapshot_of session a t)))) as Htick.
  { intros s (? & [->|(a & ? & ? & -> & ->)])%apply_cases; [auto|].
    split; [done|]. right. split_and!; [done|by apply snapshot_valid; auto|eauto]. }
  destruct staged as [o|]; [destruct (obs_trading_date o <? ctx_trading_date session) eqn:Hlt;
    [|destruct (_ && _) eqn:Heq]|].
  - split; [naive_solver|]. intros o'. split; [done|]. intros ([= <-] & ? & _). lia.
  - unfold is_live in Heq. zbool. split.
    + intros s (? & [->|(a & ? & ? & [= <-] & ->)])%apply_cases; [auto|].
      split; [done|]. right. split_and!; [done|by apply snapshot_valid; auto|]. right. by exists o.
    + intros o'. split; [done|]. intros ([= <-] & _ & Hn). by destruct Hn.
  - unfold is_live in Heq. split; [naive_solver|]. intros o'. zbool. split.
    + intros [= <-]. split_and!; [done|lia|]. intros [? ?].
      destruct Heq as [?|?]; zbool; [lia|done].
    + by intros (? & _).
  - split; [naive_solver|]. intros o'. naive_solver.
Qed.

(** A verified provider whose aggregates behave as running extrema is
    followed exactly: after any non-empty coherent feed of one live session the
    statistics show the open, high and low of the last aggregate, so failing
    closed never refuses good data. *)
Theorem session_statistics_follow (session : SessionContext) (d : ProviderSessionOhlc * instant)
    (feed : list (ProviderSessionOhlc * instant))
    (Hlive : market_state session = LIVE_SESSION)
    (Hcoherent : StronglySorted coherent_next (d :: feed)) :
  exists s, follow session (d :: feed) None = Some s
    /\ ss_trading_date s = ctx_trading_date session
    /\ (let l := List.last feed d in
        prices_of s = (Some (pso_open_price l.1), Some (pso_high_price l.1), Some (pso_low_price l.1))).
Proof.
  destruct d as [a t].
  assert (is_live session = true) as Hl by (unfold is_live; by case_bool_decide).
  destruct (follow_coherent session feed a t (snapshot_of session a t)) as (s & Hf & Hp);
    [done|done|done|cbn; lia|done|].
  assert (follow session ((a, t) :: feed) None = Some s) as E.
  { unfold follow. cbn [fold_left fst snd]. unfold apply_session_ohlc at 2. rewrite Hl. cbn. exact Hf. }
  exists s. split_and!; [exact E| |exact Hp].
  revert E. unfold follow. destruct (exists_last (l := (a, t) :: feed)) as (l & x & ->); [done|].
  rewrite fold_left_app. cbn. by intros [? _]%apply_cases.
Qed.

(** * Witnesses *)

Definition sample_ohlc (o h l c : Z) : ProviderSessionOhlc := {|
  pso_open_price := dec o 0; pso_high_price := dec h 0;
  pso_low_price := dec l 0; pso_close_price := dec c 0 |}.

Definition sample_stats : SessionStatistics := snapshot_of live_session (sample_ohlc 100 105 99 101) (at_local 9 20).

Lemma session_statistics_monotone_witness :
  exists s, apply_session_ohlc (Some (sample_ohlc 100 107 98 106)) (at_local 9 25) live_session
      (Some sample_stats) true = Some s
    /\ progresses sample_stats s /\ ss_high_price s = Some (dec 107 0).
Proof.
  destruct (proj1 (session_statistics_monotone (Some (sample_ohlc 100 107 98 106)) (at_local 9 25)
    live_session sample_stats eq_refl)) as (s & E & Hs).
  exists s. split_and!; [exact E|exact Hs|]. vm_compute in E. injection E as <-. reflexivity.
Defined.

Lemma session_statistics_provenance_witness :
  let authority := {| staged_observation_verified := true; tick_aggregate_verified := false |} in
  let o := {| obs_instrument := reliance; obs_trading_date := sample_date;
              obs_observed_at := at_local 9 22; obs_session_ohlc := sample_ohlc 100 108 97 104 |} in
  let '(next, left_over) := resolve_session_statistics None (at_local 9 23) (Some o)
      (Some live_session) (Some sample_stats) authority in
  left_over = None /\ forall s, next = Some s -> ss_trading_date s = sample_date.
Proof.
  cbn zeta.
  set (o := Build_SessionStatisticsObservation _ _ _ _).
  set (authority := Build_SessionStatisticsAuthority _ _).
  pose proof (session_statistics_provenance None (at_local 9 23) (Some o) live_session
    (Some sample_stats) authority ltac:(intros a [=])
    ltac:(intros x [= <-]; split; vm_compute; congruence)) as H.
  revert H. destruct (resolve_session_statistics _ _ _ _ _ _) as [next rest] eqn:E.
  intros [Hn _]. split; [by vm_compute in E; injection E|]. intros s Hs. exact (proj1 (Hn s Hs)).
Defined.

Lemma session_statistics_follow_witness :
  exists s, follow live_session [(sample_ohlc 100 105 99 101, at_local 9 20);
      (sample_ohlc 100 105 98 104, at_local 9 21)] None = Some s
    /\ ss_trading_date s = sample_date /\ ss_low_price s = Some (dec 98 0).
Proof.
  destruct (session_statistics_follow live_session (sample_ohlc 100 105 99 101, at_local 9 20)
    [(sample_ohlc 100 105 98 104, at_local 9 21)]) as (s & E & Hd & Hp).
  - reflexivity.
  - repeat constructor; by vm_compute.
  - exists s. split_and!; [exact E|exact Hd|]. by injection Hp.
Defined.
