(* ===== verification/TickEngine.v ===== *)
(** Routing of canonical events into versioned per-instrument contexts:
    [market_engine/state.py], [validation.py], [sequence.py], [clock.py],
    [events.py], [tick_diagnostics.py] and [tick_engine.py].

    A handler of the event bus may raise out of [publish]; the engine stores the
    instrument's new state only after publishing, so the bus is a parameter that
    says whether the delivery of an event raises, and every operation returns
    the engine it leaves behind together with its result or exception. *)
From S2P Require Import Prelude PyTime MarketData Timeframe Session Buckets Context.
From S2P Require Import Samples CandleEngine SessionStatistics.

Local Open Scope Z_scope.

(** * Per-instrument state *)

Record InstrumentState : Type := {
  is_instrument : Instrument;
  is_latest_tick : option Tick;
  is_latest_quote : option Quote;
  is_last_event_timestamp : option instant;
  is_last_sequence : option Z;
  is_context : option MarketContext;
  is_historical : option HistoricalContext;
  is_session_statistics : option SessionStatistics;
  is_staged : option SessionStatisticsObservation;
}.

Definition fresh_instrument (i : Instrument) : InstrumentState := {|
  is_instrument := i; is_latest_tick := None; is_latest_quote := None;
  is_last_event_timestamp := None; is_last_sequence := None; is_context := None;
  is_historical := None; is_session_statistics := None; is_staged := None |}.

Record InstrumentStateRegistry : Type := {
  reg_known : gset Instrument;
  reg_states : gmap Instrument InstrumentState;
}.

Definition mk_registry (known_instruments : list Instrument) : InstrumentStateRegistry := {|
  reg_known := list_to_set known_instruments; reg_states := ∅ |}.

Definition is_known (self : InstrumentStateRegistry) (i : Instrument) : bool :=
  bool_decide (i ∈ reg_known self).

(** [get] *)
Definition get (self : InstrumentStateRegistry) (i : Instrument) : option InstrumentState :=
  reg_states self !! i.

Definition put (self : InstrumentStateRegistry) (i : Instrument) (st : InstrumentState)
    : InstrumentStateRegistry := {|
  reg_known := reg_known self; reg_states := <[i := st]> (reg_states self) |}.

(** [ensure]: the registry with the state present, and that state. *)
Definition ensure (self : InstrumentStateRegistry) (i : Instrument)
    : InstrumentStateRegistry * InstrumentState :=
  match get self i with
  | Some st => (self, st)
  | None => (put self i (fresh_instrument i), fresh_instrument i)
  end.

Definition with_historical (st : InstrumentState) (h : HistoricalContext) : InstrumentState := {|
  is_instrument := is_instrument st; is_latest_tick := is_latest_tick st;
  is_latest_quote := is_latest_quote st; is_last_event_timestamp := is_last_event_timestamp st;
  is_last_sequence := is_last_sequence st; is_context := is_context st;
  is_historical := Some h; is_session_statistics := is_session_statistics st;
  is_staged := is_staged st |}.

Definition with_staged (st : InstrumentState) (o : SessionStatisticsObservation) : InstrumentState := {|
  is_instrument := is_instrument st; is_latest_tick := is_latest_tick st;
  is_latest_quote := is_latest_quote st; is_last_event_timestamp := is_last_event_timestamp st;
  is_last_sequence := is_last_sequence st; is_context := is_context st;
  is_historical := is_historical st; is_session_statistics := is_session_statistics st;
  is_staged := Some o |}.

(** [install_historical] *)
Definition install_historical (self : InstrumentStateRegistry) (i : Instrument)
    (h : HistoricalContext) : result InstrumentStateRegistry :=
  _ ← raise_if (negb (bool_decide (hc_instrument h = i)))
    (ValueError "historical context instrument must match the target instrument");
  let '(self, st) := ensure self i in
  Ok (put self i (with_historical st h)).

(** [stage_session_statistics_observation]: the registry it leaves (the state is
    created before the conflict check) and its result. *)
Definition stage_session_statistics_observation (self : InstrumentStateRegistry) (i : Instrument)
    (o : SessionStatisticsObservation) : InstrumentStateRegistry * result unit :=
  if negb (bool_decide (obs_instrument o = i)) then
    (self, Raise (ValueError "session statistics observation instrument must match the target"))
  else
    let '(self, st) := ensure self i in
    match is_staged st with
    | Some current =>
        if obs_observed_at o <? obs_observed_at current then (self, Ok tt)
        else if (obs_observed_at o =? obs_observed_at current) && negb (bool_decide (o = current))
        then (self, Raise (ValueError "conflicting session statistics observation at the same instant"))
        else (put self i (with_staged st o), Ok tt)
    | None => (put self i (with_staged st o), Ok tt)
    end.

(** * Validation *)

Inductive ValidationOutcome : Type := ACCEPT | DUPLICATE | STALE | INVALID.

#[global] Instance ValidationOutcome_eq_dec : EqDecision ValidationOutcome.
Proof. solve_decision. Defined.

(** [Tick | Quote] *)
Inductive Datum : Type := ATick (t : Tick) | AQuote (q : Quote).

Definition datum_instrument (d : Datum) : Instrument :=
  match d with ATick t => tick_instrument t | AQuote q => quote_instrument q end.

Definition datum_timestamp (d : Datum) : instant :=
  match d with ATick t => tick_event_timestamp t | AQuote q => quote_event_timestamp q end.

(** [_MAX_FUTURE_SKEW] *)
Definition max_future_skew : timedelta := us_per_minute.

(** [_is_duplicate] *)
Definition is_duplicate (d : Datum) (st : InstrumentState) : bool :=
  match d with
  | ATick t => bool_decide (is_latest_tick st = Some t)
  | AQuote q => bool_decide (is_latest_quote st = Some q)
  end.

(** [classify] with its default skew *)
Definition classify (d : Datum) (known : bool) (st : option InstrumentState) (now : instant)
    : ValidationOutcome :=
  if negb known then INVALID
  else if now + max_future_skew <? datum_timestamp d then INVALID
  else match st with
  | None => ACCEPT
  | Some st =>
      if is_duplicate d st then DUPLICATE
      else match is_last_event_timestamp st with
      | Some last => if datum_timestamp d <? last then STALE else ACCEPT
      | None => ACCEPT
      end
  end.

(** * Decision counters *)

(** [TickEngineDecisionCounters]; the three keys of [_by_reason] are fixed. *)
Record TickEngineDecisionCounters : Type := {
  dc_ticks_received : Z;
  dc_ticks_accepted : Z;
  dc_invalid : Z;
  dc_duplicate : Z;
  dc_stale : Z;
  dc_references_received : Z;
  dc_references_accepted : Z;
  dc_references_rejected : Z;
  dc_last_accepted_event_ts : option instant;
  dc_last_rejected_reason : option ValidationOutcome;
  dc_last_rejected_event_ts : option instant;
  dc_last_rejection_observed_at : option instant;
  dc_last_rejected_delta : option timedelta;
}.

Definition initial_counters : TickEngineDecisionCounters := {|
  dc_ticks_received := 0; dc_ticks_accepted := 0; dc_invalid := 0; dc_duplicate := 0;
  dc_stale := 0; dc_references_received := 0; dc_references_accepted := 0;
  dc_references_rejected := 0; dc_last_accepted_event_ts := None;
  dc_last_rejected_reason := None; dc_last_rejected_event_ts := None;
  dc_last_rejection_observed_at := None; dc_last_rejected_delta := None |}.

Definition bump (b : bool) (n : Z) : Z := if b then n + 1 else n.

(** [record_tick] *)
Definition record_tick (self : TickEngineDecisionCounters) (o : ValidationOutcome)
    (event_timestamp now : instant) : TickEngineDecisionCounters :=
  let accepted := bool_decide (o = ACCEPT) in {|
  dc_ticks_received := dc_ticks_received self + 1;
  dc_ticks_accepted := bump accepted (dc_ticks_accepted self);
  dc_invalid := bump (bool_decide (o = INVALID)) (dc_invalid self);
  dc_duplicate := bump (bool_decide (o = DUPLICATE)) (dc_duplicate self);
  dc_stale := bump (bool_decide (o = STALE)) (dc_stale self);
  dc_references_received := dc_references_received self;
  dc_references_accepted := dc_references_accepted self;
  dc_references_rejected := dc_references_rejected self;
  dc_last_accepted_event_ts :=
    if accepted then Some event_timestamp else dc_last_accepted_event_ts self;
  dc_last_rejected_reason := if accepted then dc_last_rejected_reason self else Some o;
  dc_last_rejected_event_ts :=
    if accepted then dc_last_rejected_event_ts self else Some event_timestamp;
  dc_last_rejection_observed_at :=
    if accepted then dc_last_rejection_observed_at self else Some now;
  dc_last_rejected_delta :=
    if accepted then dc_last_rejected_delta self else Some (event_timestamp - now) |}.

(** [record_reference] *)
Definition record_reference (self : TickEngineDecisionCounters) (o : ValidationOutcome)
    : TickEngineDecisionCounters :=
  let accepted := bool_decide (o = ACCEPT) in {|
  dc_ticks_received := dc_ticks_received self; dc_ticks_accepted := dc_ticks_accepted self;
  dc_invalid := dc_invalid self; dc_duplicate := dc_duplicate self; dc_stale := dc_stale self;
  dc_references_received := dc_references_received self + 1;
  dc_references_accepted := bump accepted (dc_references_accepted self);
  dc_references_rejected := bump (negb accepted) (dc_references_rejected self);
  dc_last_accepted_event_ts := dc_last_accepted_event_ts self;
  dc_last_rejected_reason := dc_last_rejected_reason self;
  dc_last_rejected_event_ts := dc_last_rejected_event_ts self;
  dc_last_rejection_observed_at := dc_last_rejection_observed_at self;
  dc_last_rejected_delta := dc_last_rejected_delta self |}.

(** [snapshot]: the derived rejection total. *)
Definition ticks_rejected_total (self : TickEngineDecisionCounters) : Z :=
  dc_ticks_received self - dc_ticks_accepted self.

(** * The engine *)

Inductive ContextEvent : Type :=
| MarketContextCreated (context : MarketContext)
| MarketContextUpdated (context : MarketContext) (previous_version : Z).

Definition event_context (e : ContextEvent) : MarketContext :=
  match e with MarketContextCreated c | MarketContextUpdated c _ => c end.

Record ProcessResult : Type := {
  pr_outcome : ValidationOutcome;
  pr_context : option MarketContext;
}.

Record TickEngine : Type := {
  te_registry : InstrumentStateRegistry;
  te_sequence : Z;
  te_session : option MarketSessionClassifier;
  te_candles : option CandleEngine;
  te_authority : SessionStatisticsAuthority;
  te_halt_active : bool;
  te_diagnostics : TickEngineDecisionCounters;
}.

Definition mk_tick_engine (registry : InstrumentStateRegistry)
    (session : option MarketSessionClassifier) (candles : option CandleEngine)
    (authority : SessionStatisticsAuthority) : TickEngine := {|
  te_registry := registry; te_sequence := 0; te_session := session; te_candles := candles;
  te_authority := authority; te_halt_active := false; te_diagnostics := initial_counters |}.

(** [set_halt] *)
Definition set_halt (self : TickEngine) (active : bool) : TickEngine := {|
  te_registry := te_registry self; te_sequence := te_sequence self; te_session := te_session self;
  te_candles := te_candles self; te_authority := te_authority self; te_halt_active := active;
  te_diagnostics := te_diagnostics self |}.

Definition with_candles (self : TickEngine) (c : option CandleEngine) : TickEngine := {|
  te_registry := te_registry self; te_sequence := te_sequence self; te_session := te_session self;
  te_candles := c; te_authority := te_authority self; te_halt_active := te_halt_active self;
  te_diagnostics := te_diagnostics self |}.

Definition with_registry (self : TickEngine) (r : InstrumentStateRegistry) : TickEngine := {|
  te_registry := r; te_sequence := te_sequence self; te_session := te_session self;
  te_candles := te_candles self; te_authority := te_authority self;
  te_halt_active := te_halt_active self; te_diagnostics := te_diagnostics self |}.

Definition with_diagnostics (self : TickEngine) (d : TickEngineDecisionCounters) : TickEngine := {|
  te_registry := te_registry self; te_sequence := te_sequence self; te_session := te_session self;
  te_candles := te_candles self; te_authority := te_authority self;
  te_halt_active := te_halt_active self; te_diagnostics := d |}.

(** [self._sequence.next_value()] *)
Definition next_value (self : TickEngine) : TickEngine * Z :=
  let sequence := te_sequence self + 1 in
  ({| te_registry := te_registry self; te_sequence := sequence; te_session := te_session self;
      te_candles := te_candles self; te_authority := te_authority self;
      te_halt_active := te_halt_active self; te_diagnostics := te_diagnostics self |}, sequence).

(** [on_feed_continuity] *)
Definition on_feed_continuity (self : TickEngine) (event : FeedContinuityEvent) : TickEngine :=
  with_candles self ((fun c => record_continuity c event) <$> te_candles self).

(** [_merge] *)
Definition merge (d : Datum) (st : InstrumentState) : option Tick * option Quote :=
  match d with
  | ATick t => (Some t, is_latest_quote st)
  | AQuote q => (is_latest_tick st, Some q)
  end.

(** [_carried_previous_close] *)
Definition carried_previous_close (prior : MarketContext) (new_session : option SessionContext)
    : option Decimal :=
  match new_session, mc_session prior with
  | Some n, Some p => if negb (ctx_trading_date n =? ctx_trading_date p) then None
                      else mc_previous_close prior
  | _, _ => mc_previous_close prior
  end.

(** [_session_for] *)
Definition session_for (self : TickEngine) (at_time : instant) : option SessionContext :=
  (fun c => classify_session c at_time (te_halt_active self)) <$> te_session self.

(** The candle update of [_candle_sets_for]. *)
Definition candles_after (c : option CandleEngine) (d : Datum) (session : option SessionContext)
    : option CandleEngine :=
  match c, d, session with
  | Some c, ATick t, Some s => Some (update c t s)
  | c, _, _ => c
  end.

Definition candle_sets (c : option CandleEngine) (i : Instrument) : list TimeframeCandles :=
  match c with Some c => candle_sets_for c i | None => [] end.

(** [_session_statistics_for] *)
Definition session_statistics_for (self : TickEngine) (d : Datum) (session : option SessionContext)
    (st : InstrumentState) : option SessionStatistics * option SessionStatisticsObservation :=
  let aggregate := match d with ATick t => tick_session_ohlc t | AQuote _ => None end in
  resolve_session_statistics aggregate (datum_timestamp d) (is_staged st) session
    (is_session_statistics st) (te_authority self).

Section Bus.

(** [self._bus.publish(event)]: [None] when every handler returns. *)
Context (publish : ContextEvent -> option exn).

(** The engine left behind, the events published and the call's result. *)
Definition outcome : Type := TickEngine * list ContextEvent * result ProcessResult.

(** The context [_accept] builds for an accepted datum, with the event it publishes. *)
Definition accepted_event (self : TickEngine) (d : Datum) (st : InstrumentState)
    (sequence : Z) (observed_at : instant) (session : option SessionContext)
    (sets : list TimeframeCandles) (statistics : option SessionStatistics) : ContextEvent :=
  let '(tick, quote) := merge d st in
  match is_context st with
  | None => MarketContextCreated (initial (datum_instrument d) sequence (datum_timestamp d)
      observed_at tick quote sets session (is_historical st) statistics None)
  | Some prior => MarketContextUpdated (with_update prior sequence (datum_timestamp d)
      observed_at tick quote sets session (is_historical st) statistics
      (carried_previous_close prior session)) (mc_version prior)
  end.

(** [_accept] *)
Definition accept (self : TickEngine) (d : Datum) (observed_at : instant) : outcome :=
  let i := datum_instrument d in
  let '(registry, st) := ensure (te_registry self) i in
  let '(tick, quote) := merge d st in
  let '(self, sequence) := next_value (with_registry self registry) in
  let session := session_for self (datum_timestamp d) in
  let self := with_candles self (candles_after (te_candles self) d session) in
  let '(statistics, staged_after) := session_statistics_for self d session st in
  let event := accepted_event self d st sequence observed_at session
    (candle_sets (te_candles self) i) statistics in
  match publish event with
  | Some e => (self, [event], Raise e)
  | None =>
      let context := event_context event in
      (with_registry self (put (te_registry self) i {|
         is_instrument := is_instrument st; is_latest_tick := tick; is_latest_quote := quote;
         is_last_event_timestamp := Some (datum_timestamp d); is_last_sequence := Some sequence;
         is_context := Some context; is_historical := is_historical st;
         is_session_statistics := statistics; is_staged := staged_after |}),
       [event], Ok {| pr_outcome := ACCEPT; pr_context := Some context |})
  end.

(** The event [_accept_reference] publishes. *)
Definition reference_event (self : TickEngine) (r : MarketReference) (st : InstrumentState)
    (sequence : Z) (now : instant) (session : option SessionContext) : ContextEvent :=
  match is_context st with
  | None => MarketContextCreated (initial (ref_instrument r) sequence now now None None [] session
      (is_historical st) None (Some (ref_previous_close r)))
  | Some prior => MarketContextUpdated (with_update prior sequence now now (is_latest_tick st)
      (is_latest_quote st) (mc_candle_sets prior)
      (match session with Some s => Some s | None => mc_session prior end)
      (is_historical st) (is_session_statistics st) (Some (ref_previous_close r)))
      (mc_version prior)
  end.

(** [_accept_reference] *)
Definition accept_reference (self : TickEngine) (r : MarketReference) (now : instant) : outcome :=
  let i := ref_instrument r in
  if negb (is_known (te_registry self) i) then
    (self, [], Ok {| pr_outcome := INVALID; pr_context := None |})
  else
    let '(registry, st) := ensure (te_registry self) i in
    let '(self, sequence) := next_value (with_registry self registry) in
    let session := session_for self now in
    let event := reference_event self r st sequence now session in
    match publish event with
    | Some e => (self, [event], Raise e)
    | None =>
        let context := event_context event in
        (with_registry self (put (te_registry self) i {|
           is_instrument := is_instrument st; is_latest_tick := is_latest_tick st;
           is_latest_quote := is_latest_quote st;
           is_last_event_timestamp := is_last_event_timestamp st;
           is_last_sequence := Some sequence; is_context := Some context;
           is_historical := is_historical st; is_session_statistics := is_session_statistics st;
           is_staged := is_staged st |}),
         [event], Ok {| pr_outcome := ACCEPT; pr_context := Some context |})
    end.

(** The argument of [process]. *)
Inductive MarketInput : Type := InDatum (d : Datum) | InReference (r : MarketReference).

Definition input_instrument (x : MarketInput) : Instrument :=
  match x with InDatum d => datum_instrument d | InReference r => ref_instrument r end.

(** [process]: [now] is the first reading of the clock, [observed_at] the second
    (a reference reads it once). *)
Definition process (self : TickEngine) (x : MarketInput) (now observed_at : instant) : outcome :=
  match x with
  | InReference r =>
      let '(self, events, res) := accept_reference self r now in
      match res with
      | Ok pr => (with_diagnostics self (record_reference (te_diagnostics self) (pr_outcome pr)),
                  events, Ok pr)
      | Raise e => (self, events, Raise e)
      end
  | InDatum d =>
      let i := datum_instrument d in
      let o := classify d (is_known (te_registry self) i) (get (te_registry self) i) now in
      let self := with_diagnostics self
        (record_tick (te_diagnostics self) o (datum_timestamp d) now) in
      if bool_decide (o = ACCEPT) then accept self d observed_at
      else (self, [], Ok {| pr_outcome := o; pr_context := None |})
  end.

(** A stream of inputs with the clock readings each one sees; the caller drops a
    raised exception and goes on with the engine the call left behind. *)
Definition process_all (self : TickEngine) (xs : list (MarketInput * instant * instant))
    : TickEngine * list ContextEvent :=
  fold_left (fun acc x =>
    let '(self, events, _) := process acc.1 x.1.1 x.1.2 x.2 in (self, acc.2 ++ events))
    xs (self, []).

End Bus.

(** * Lemmas *)

Lemma get_put self i st j : get (put self i st) j = if decide (j = i) then Some st else get self j.
Proof.
  unfold get, put. cbn. destruct (decide (j = i)) as [->|Hn].
  - apply lookup_insert_eq.
  - by apply lookup_insert_ne.
Qed.

Lemma ensure_spec self i :
  (ensure self i).2 = default (fresh_instrument i) (get self i)
  /\ (forall j, get (ensure self i).1 j = if decide (j = i) then Some (ensure self i).2 else get self j)
  /\ reg_known (ensure self i).1 = reg_known self.
Proof.
  unfold ensure. destruct (get self i) as [st|] eqn:E; cbn.
  - split_and!; [done| |done]. intros j. by destruct (decide (j = i)) as [->|].
  - split_and!; [done| |done]. intros j. by rewrite get_put.
Qed.

(** The prior state an accepted input of [i] starts from. *)
Definition prior_state (e : TickEngine) (i : Instrument) : InstrumentState :=
  default (fresh_instrument i) (get (te_registry e) i).

Definition prior_version (e : TickEngine) (i : Instrument) : Z :=
  match is_context (prior_state e i) with Some c => mc_version c | None => 0 end.

(** Everything of the engine an input never changes. *)
Definition same_config (e e' : TickEngine) : Prop :=
  te_session e' = te_session e /\ te_authority e' = te_authority e
  /\ te_halt_active e' = te_halt_active e
  /\ reg_known (te_registry e') = reg_known (te_registry e).

(** The state stored for an accepted input, by the input's kind. *)
Definition stored_for (x : MarketInput) (e : TickEngine) (c : MarketContext) (st : InstrumentState)
    : Prop :=
  let prior := prior_state e (input_instrument x) in
  is_context st = Some c /\ is_last_sequence st = Some (te_sequence e + 1)
  /\ is_instrument st = is_instrument prior /\ is_historical st = is_historical prior
  /\ mc_historical c = is_historical st
  /\ match x with
     | InDatum d =>
         (is_latest_tick st, is_latest_quote st) = merge d prior
         /\ is_last_event_timestamp st = Some (datum_timestamp d)
         /\ (is_session_statistics st, is_staged st)
            = session_statistics_for e d (session_for e (datum_timestamp d)) prior
         /\ mc_session c = session_for e (datum_timestamp d)
         /\ mc_latest_tick c = is_latest_tick st /\ mc_latest_quote c = is_latest_quote st
         /\ mc_session_statistics c = is_session_statistics st
         /\ mc_event_timestamp c = datum_timestamp d
         /\ (forall l, is_last_event_timestamp prior = Some l -> l <= datum_timestamp d)
         /\ mc_previous_close c = (p ← is_context prior; carried_previous_close p (mc_session c))
     | InReference r =>
         is_latest_tick st = is_latest_tick prior /\ is_latest_quote st = is_latest_quote prior
         /\ is_last_event_timestamp st = is_last_event_timestamp prior
         /\ is_session_statistics st = is_session_statistics prior /\ is_staged st = is_staged prior
         /\ mc_previous_close c = Some (ref_previous_close r)
         /\ (match is_context prior with
             | Some p => mc_latest_tick c = is_latest_tick prior
                         /\ mc_latest_quote c = is_latest_quote prior
                         /\ mc_session_statistics c = is_session_statistics prior
             | None => mc_latest_tick c = None /\ mc_latest_quote c = None
                       /\ mc_session_statistics c = None
             end)
     end.

Lemma accepted_event_context e d st sq ob s sets stats :
  let c := event_context (accepted_event e d st sq ob s sets stats) in
  mc_instrument c = match is_context st with Some p => mc_instrument p | None => datum_instrument d end
  /\ mc_version c = match is_context st with Some p => mc_version p + 1 | None => 1 end
  /\ mc_sequence c = sq /\ mc_event_timestamp c = datum_timestamp d
  /\ mc_session c = s /\ (mc_latest_tick c, mc_latest_quote c) = merge d st
  /\ mc_session_statistics c = stats /\ mc_historical c = is_historical st
  /\ mc_candle_sets c = sets
  /\ mc_previous_close c = match is_context st with Some p => carried_previous_close p s | None => None end.
Proof. unfold accepted_event. destruct (merge d st). by destruct (is_context st). Qed.

Lemma reference_event_context e r st sq now s :
  let c := event_context (reference_event e r st sq now s) in
  mc_instrument c = match is_context st with Some p => mc_instrument p | None => ref_instrument r end
  /\ mc_version c = match is_context st with Some p => mc_version p + 1 | None => 1 end
  /\ mc_sequence c = sq /\ mc_historical c = is_historical st
  /\ mc_previous_close c = Some (ref_previous_close r)
  /\ mc_session c = match s, is_context st with
                    | Some s, _ => Some s | None, Some p => mc_session p | None, None => None end
  /\ match is_context st with
     | Some p => mc_latest_tick c = is_latest_tick st /\ mc_latest_quote c = is_latest_quote st
                 /\ mc_session_statistics c = is_session_statistics st
     | None => mc_latest_tick c = None /\ mc_latest_quote c = None /\ mc_session_statistics c = None
     end.
Proof. unfold reference_event. destruct (is_context st), s; done. Qed.

Lemma classify_accept d known st now :
  classify d known st now = ACCEPT ->
  known = true /\ datum_timestamp d <= now + max_future_skew
  /\ forall s, st = Some s -> is_duplicate d s = false
     /\ forall l, is_last_event_timestamp s = Some l -> l <= datum_timestamp d.
Proof.
  unfold classify. destruct known; [|done]. destruct (_ <? _) eqn:E; [done|]. zbool. cbn.
  intros H. split_and!; [done|lia|]. intros s ->. destruct (is_duplicate d s); [done|].
  split; [done|]. intros l Hl. rewrite Hl in H. split_ifs; [done|]. by zbool.
Qed.

(** The version an event announces follows the one it supersedes. *)
Definition event_versioned (ev : ContextEvent) : Prop :=
  match ev with
  | MarketContextCreated c => mc_version c = 1
  | MarketContextUpdated c previous => mc_version c = previous + 1
  end.

Lemma accepted_event_versioned e d st sq ob s sets stats :
  event_versioned (accepted_event e d st sq ob s sets stats).
Proof. unfold accepted_event. destruct (merge d st). by destruct (is_context st). Qed.

Lemma reference_event_versioned e r st sq now s :
  event_versioned (reference_event e r st sq now s).
Proof. unfold reference_event. by destruct (is_context st). Qed.

(** The three ways a call of [process] ends. *)
Inductive process_ends (publish : ContextEvent -> option exn) (e : TickEngine) (x : MarketInput)
    : TickEngine -> list ContextEvent -> result ProcessResult -> Prop :=
| ends_rejected e' o :
    o <> ACCEPT -> te_registry e' = te_registry e -> te_sequence e' = te_sequence e ->
    te_candles e' = te_candles e ->
    process_ends publish e x e' [] (Ok {| pr_outcome := o; pr_context := None |})
| ends_accepted e' ev st :
    publish ev = None -> event_versioned ev ->
    te_sequence e' = te_sequence e + 1 -> mc_sequence (event_context ev) = te_sequence e' ->
    mc_version (event_context ev) = prior_version e (input_instrument x) + 1 ->
    mc_instrument (event_context ev)
      = match is_context (prior_state e (input_instrument x)) with
        | Some p => mc_instrument p | None => input_instrument x end ->
    (forall j, get (te_registry e') j
       = if decide (j = input_instrument x) then Some st else get (te_registry e) j) ->
    stored_for x e (event_context ev) st ->
    process_ends publish e x e' [ev]
      (Ok {| pr_outcome := ACCEPT; pr_context := Some (event_context ev) |})
| ends_raised e' ev err :
    publish ev = Some err ->
    te_sequence e' = te_sequence e + 1 -> mc_sequence (event_context ev) = te_sequence e' ->
    (forall j, get (te_registry e') j
       = if decide (j = input_instrument x) then Some (prior_state e j) else get (te_registry e) j) ->
    event_versioned ev ->
    mc_version (event_context ev) = prior_version e (input_instrument x) + 1 ->
    mc_instrument (event_context ev)
      = match is_context (prior_state e (input_instrument x)) with
        | Some p => mc_instrument p | None => input_instrument x end ->
    process_ends publish e x e' [ev] (Raise err).

Lemma process_ends_intro publish e x now ob :
  let '(e', evs, r) := process publish e x now ob in
  process_ends publish e x e' evs r /\ same_config e e'.
Proof.
  destruct x as [d|r]; cbn [process].
  - set (o := classify _ _ _ _). case_bool_decide as Ho.
    2: { split; [by apply ends_rejected|by split_and!]. }
    unfold accept. cbn [te_registry with_diagnostics].
    destruct (ensure_spec (te_registry e) (datum_instrument d)) as (Hst & Hget & Hk).
    destruct (ensure (te_registry e) (datum_instrument d)) as [reg st]. cbn [fst snd] in *.
    destruct (merge d st) as [tick quote] eqn:Hm. cbn.
    match goal with |- context [session_statistics_for ?a ?b ?c ?d] =>
      destruct (session_statistics_for a b c d) as [stats staged] eqn:Hss end.
    match goal with |- context [accepted_event ?a ?b ?c ?f ?g ?h ?i ?k] =>
      destruct (accepted_event_context a b c f g h i k) as (C1 & C2 & C3 & C4 & C5 & C6 & C7 & C8 & C9 & C10);
      set (ev := accepted_event a b c f g h i k) in * end.
    rewrite Hm in C6. injection C6 as C6 C6'.
    destruct (publish ev) as [err|] eqn:Hp; cbn.
    + split; [|by split_and!]. eapply ends_raised;
        try apply accepted_event_versioned; try apply reference_event_versioned; try done;
        cbn [input_instrument].
      * intros j. cbn. rewrite Hget. case_decide; [|done]. subst j. unfold prior_state. by rewrite <- Hst.
      * rewrite C2. unfold prior_version, prior_state. rewrite <- Hst. by destruct (is_context st).
      * rewrite C1. unfold prior_state. by rewrite <- Hst.
    + split; [|by split_and!]. eapply ends_accepted;
        try apply accepted_event_versioned; try apply reference_event_versioned; try done;
        cbn [input_instrument].
      * rewrite C2. unfold prior_version, prior_state. rewrite <- Hst. by destruct (is_context st).
      * rewrite C1. unfold prior_state. by rewrite <- Hst.
      * intros j. cbn. rewrite get_put. case_decide; [done|]. rewrite Hget. by rewrite decide_False.
      * unfold stored_for, prior_state. cbn [input_instrument]. rewrite <- Hst. cbn. rewrite Hm.
        split_and!; try done; [|rewrite C10, C5; by destruct (is_context st)]. intros l Hl.
        apply classify_accept in Ho as (_ & _ & Ho). destruct (get (te_registry e) _) as [s|].
        -- cbn in Hst. subst s. by eapply Ho.
        -- cbn in Hst. by subst st.
  - unfold accept_reference. destruct (is_known _ _) eqn:Hkn; cbn.
    2: { split; [by apply ends_rejected|by split_and!]. }
    destruct (ensure_spec (te_registry e) (ref_instrument r)) as (Hst & Hget & Hk).
    destruct (ensure (te_registry e) (ref_instrument r)) as [reg st]. cbn [fst snd] in *. cbn.
    match goal with |- context [reference_event ?a ?b ?c ?f ?g ?h] =>
      destruct (reference_event_context a b c f g h) as (C1 & C2 & C3 & C4 & C5 & C6 & C7);
      set (ev := reference_event a b c f g h) in * end.
    destruct (publish ev) as [err|] eqn:Hp; cbn.
    + split; [|by split_and!]. eapply ends_raised;
        try apply accepted_event_versioned; try apply reference_event_versioned; try done;
        cbn [input_instrument].
      * intros j. cbn. rewrite Hget. case_decide; [|done]. subst j. unfold prior_state. by rewrite <- Hst.
      * rewrite C2. unfold prior_version, prior_state. rewrite <- Hst. by destruct (is_context st).
      * rewrite C1. unfold prior_state. by rewrite <- Hst.
    + split; [|by split_and!]. eapply ends_accepted;
        try apply accepted_event_versioned; try apply reference_event_versioned; try done;
        cbn [input_instrument].
      * rewrite C2. unfold prior_version, prior_state. rewrite <- Hst. by destruct (is_context st).
      * rewrite C1. unfold prior_state. by rewrite <- Hst.
      * intros j. cbn. rewrite get_put. case_decide; [done|]. rewrite Hget. by rewrite decide_False.
      * unfold stored_for, prior_state. cbn [input_instrument]. rewrite <- Hst. by cbn.
Qed.

(** ** Runs *)

Definition processed (publish : ContextEvent -> option exn) (e : TickEngine)
    (x : MarketInput * instant * instant) : TickEngine * list ContextEvent :=
  (process publish e x.1.1 x.1.2 x.2).1.

Lemma process_all_snoc publish e xs x :
  process_all publish e (xs ++ [x])
  = let '(e1, evs) := process_all publish e xs in
    ((processed publish e1 x).1, evs ++ (processed publish e1 x).2).
Proof.
  unfold process_all, processed. rewrite fold_left_app. cbn.
  destruct (fold_left _ xs _) as [e1 evs]. cbn. by destruct (process _ _ _ _ _) as [[? ?] ?].
Qed.

Lemma processed_ends publish e x :
  exists r, process_ends publish e x.1.1 (processed publish e x).1 (processed publish e x).2 r
    /\ same_config e (processed publish e x).1.
Proof.
  pose proof (process_ends_intro publish e x.1.1 x.1.2 x.2) as H. unfold processed.
  destruct (process publish e x.1.1 x.1.2 x.2) as [[e' evs] r]. cbn. by exists r.
Qed.

Lemma process_all_session publish e xs : te_session (process_all publish e xs).1 = te_session e.
Proof.
  induction xs as [|x xs IH] using rev_ind; [done|]. rewrite process_all_snoc.
  destruct (process_all publish e xs) as [e1 evs]. cbn in *.
  destruct (processed_ends publish e1 x) as (r & _ & (-> & _)). done.
Qed.

(** ** Representation invariant *)

Record context_ok (e : TickEngine) (i : Instrument) (st : InstrumentState) (c : MarketContext)
    : Prop := {
  cok_instrument : mc_instrument c = i;
  cok_version : 1 <= mc_version c <= mc_sequence c;
  cok_sequence : is_last_sequence st = Some (mc_sequence c);
  cok_issued : mc_sequence c <= te_sequence e;
  cok_tick : mc_latest_tick c = is_latest_tick st;
  cok_quote : mc_latest_quote c = is_latest_quote st;
  cok_statistics : mc_session_statistics c = is_session_statistics st;
}.

Definition not_after (t : instant) (last : option instant) : Prop :=
  exists l, last = Some l /\ t <= l.

Record instrument_ok (e : TickEngine) (i : Instrument) (st : InstrumentState) : Prop := {
  iok_instrument : is_instrument st = i;
  iok_tick : forall t, is_latest_tick st = Some t ->
    tick_instrument t = i /\ not_after (tick_event_timestamp t) (is_last_event_timestamp st);
  iok_quote : forall q, is_latest_quote st = Some q ->
    quote_instrument q = i /\ not_after (quote_event_timestamp q) (is_last_event_timestamp st);
  iok_historical : forall h, is_historical st = Some h -> hc_instrument h = i;
  iok_staged : forall o, is_staged st = Some o -> obs_instrument o = i;
  iok_context : forall c, is_context st = Some c -> context_ok e i st c;
  iok_empty : is_context st = None ->
    is_latest_tick st = None /\ is_latest_quote st = None
    /\ is_last_event_timestamp st = None /\ is_session_statistics st = None;
}.

Record tick_engine_ok (e : TickEngine) : Prop := {
  teok_states : forall i st, get (te_registry e) i = Some st -> instrument_ok e i st;
  teok_sequences : forall i j st st' c c', get (te_registry e) i = Some st ->
    get (te_registry e) j = Some st' -> is_context st = Some c -> is_context st' = Some c' ->
    mc_sequence c = mc_sequence c' -> i = j;
  teok_positive : 0 <= te_sequence e;
}.

(** Every operation that changes the engine or its registry. *)
Inductive tick_step : TickEngine -> TickEngine -> Prop :=
| step_process publish e x now ob :
    tick_step e (process publish e x now ob).1.1
| step_install e i h reg :
    install_historical (te_registry e) i h = Ok reg -> tick_step e (with_registry e reg)
| step_stage e i o :
    tick_step e (with_registry e (stage_session_statistics_observation (te_registry e) i o).1)
| step_halt e active : tick_step e (set_halt e active)
| step_continuity e ev : tick_step e (on_feed_continuity e ev)
| step_candles e c : tick_step e (with_candles e c).

Definition tick_reachable (e : TickEngine) : Prop :=
  exists known session candles authority,
    rtc tick_step (mk_tick_engine (mk_registry known) session candles authority) e.

Lemma fresh_ok e i : instrument_ok e i (fresh_instrument i).
Proof. by split. Qed.

Lemma prior_state_ok e i : tick_engine_ok e -> instrument_ok e i (prior_state e i).
Proof.
  intros [H _ _]. unfold prior_state. destruct (get _ i) eqn:E; cbn; [eauto|apply fresh_ok].
Qed.

Lemma instrument_ok_later e e' i st :
  te_sequence e <= te_sequence e' -> instrument_ok e i st -> instrument_ok e' i st.
Proof.
  intros Hs []. split; try done. intros c Hc. destruct (iok_context0 c Hc). split; try done; lia.
Qed.

(** [resolve_session_statistics] never makes up an observation. *)
Lemma resolve_staged agg t staged session previous authority o :
  (resolve_session_statistics agg t staged session previous authority).2 = Some o -> staged = Some o.
Proof. unfold resolve_session_statistics. destruct session, staged; split_ifs; cbn; congruence. Qed.

Lemma accepted_ok e x c st e' :
  tick_engine_ok e -> stored_for x e c st -> te_sequence e' = te_sequence e + 1 ->
  mc_sequence c = te_sequence e' -> mc_version c = prior_version e (input_instrument x) + 1 ->
  mc_instrument c = match is_context (prior_state e (input_instrument x)) with
                    | Some p => mc_instrument p | None => input_instrument x end ->
  instrument_ok e' (input_instrument x) st.
Proof.
  intros He Hst Hs Hc Hv Hi. set (i := input_instrument x) in *.
  pose proof (prior_state_ok e i He) as [P1 P2 P3 P4 P5 P6 P7].
  assert (mc_instrument c = i) as Hi'.
  { destruct (is_context (prior_state e i)) as [p|]; [|done].
    rewrite Hi. apply (cok_instrument _ _ _ _ (P6 p eq_refl)). }
  assert (1 <= mc_version c <= mc_sequence c) as Hver.
  { unfold prior_version in Hv. pose proof (teok_positive e He).
    destruct (is_context (prior_state e i)) as [p|]; [|lia]. destruct (P6 p eq_refl). lia. }
  destruct Hst as (S1 & S2 & S3 & S4 & S5 & Hx). fold i in S3, S4, Hx.
  destruct x as [d|r].
  - destruct Hx as (Hm & Hl & Hss & H4 & H5 & H6 & H7 & H8 & H9 & _). split.
    + congruence.
    + destruct d as [t|q]; cbn in Hm; injection Hm as Hm1 Hm2; rewrite Hm1, Hl.
      * intros ? [= <-]. split; [done|]. eexists; split; [done|]. cbn. lia.
      * intros t Ht. destruct (P2 t Ht) as [? (l & Hl1 & Hl2)]. split; [done|].
        eexists; split; [done|]. specialize (H9 l Hl1). lia.
    + destruct d as [t|q]; cbn in Hm; injection Hm as Hm1 Hm2; rewrite Hm2, Hl.
      * intros q Hq. destruct (P3 q Hq) as [? (l & Hl1 & Hl2)]. split; [done|].
        eexists; split; [done|]. specialize (H9 l Hl1). lia.
      * intros ? [= <-]. split; [done|]. eexists; split; [done|]. cbn. lia.
    + rewrite S4. apply P4.
    + intros o Ho. apply P5. apply (f_equal snd) in Hss. cbn [snd] in Hss. rewrite Ho in Hss.
      unfold session_statistics_for in Hss. by eapply resolve_staged.
    + intros c' [= <-]%(eq_trans (eq_sym S1)). split; try done; try congruence; lia.
    + congruence.
  - destruct Hx as (H1 & H2 & H3 & H4 & H5 & H6 & H7). split.
    + congruence.
    + rewrite H1, H3. apply P2.
    + rewrite H2, H3. apply P3.
    + rewrite S4. apply P4.
    + rewrite H5. apply P5.
    + intros c' [= <-]%(eq_trans (eq_sym S1)).
      split; try done; try congruence; try lia; rewrite ?H1, ?H2, ?H4;
        destruct (is_context (prior_state e i)); destruct H7 as (? & ? & ?); try done;
        destruct (P7 eq_refl) as (? & ? & ? & ?); congruence.
    + congruence.
Qed.

Lemma issued_before e i st c :
  tick_engine_ok e -> get (te_registry e) i = Some st -> is_context st = Some c ->
  mc_sequence c <= te_sequence e.
Proof. intros [H _ _] Hg Hc. apply (cok_issued _ _ _ _ (iok_context _ _ _ (H _ _ Hg) _ Hc)). Qed.

Lemma process_ends_ok publish e x e' evs r :
  tick_engine_ok e -> process_ends publish e x e' evs r -> tick_engine_ok e'.
Proof.
  intros He H. destruct H as [e' o _ Hreg Hseq _|e' ev st _ _ Hseq Hc Hv Hi Hget Hst|e' ev err _ Hseq _ Hget].
  - destruct He as [H1 H2 H3]. split; rewrite ?Hreg, ?Hseq; try done.
    intros i st Hi. eapply instrument_ok_later; [|by apply H1]. lia.
  - assert (instrument_ok e' (input_instrument x) st) as Hok by by eapply accepted_ok.
    split; [| |pose proof (teok_positive e He); lia].
    + intros i st'. rewrite Hget. case_decide as Hd; [intros [= <-]; by rewrite Hd|].
      intros Hi'. eapply instrument_ok_later; [|by apply (teok_states e He)]. lia.
    + assert (is_context st = Some (event_context ev)) as Hctx by apply Hst.
      intros i j st1 st2 c1 c2. rewrite !Hget.
      case_decide as Hd1; case_decide as Hd2; intros E1 E2 F1 F2 Heq; [congruence|..].
      * injection E1 as <-. pose proof (issued_before e j st2 c2 He E2 F2).
        rewrite Hctx in F1. injection F1 as <-. lia.
      * injection E2 as <-. pose proof (issued_before e i st1 c1 He E1 F1).
        rewrite Hctx in F2. injection F2 as <-. lia.
      * by eapply (teok_sequences e He).
  - split; [| |pose proof (teok_positive e He); lia].
    + intros i st. rewrite Hget. case_decide as Hd.
      * intros [= <-]. eapply instrument_ok_later; [|by apply prior_state_ok]. lia.
      * intros Hi'. eapply instrument_ok_later; [|by apply (teok_states e He)]. lia.
    + assert (forall i st c, get (te_registry e') i = Some st -> is_context st = Some c ->
        get (te_registry e) i = Some st) as Hold.
      { intros i st c. rewrite Hget. case_decide; [|done]. intros [= <-]. unfold prior_state.
        destruct (get (te_registry e) i); cbn; [done|done]. }
      intros i j st1 st2 c1 c2 E1 E2 F1 F2. eapply (teok_sequences e He); eauto.
Qed.

(** A registry update that keeps the context of every instrument. *)
Lemma registry_ok e i st0 st reg :
  tick_engine_ok e -> prior_state e i = st0 -> is_context st = is_context st0 ->
  (instrument_ok e i st0 -> instrument_ok e i st) ->
  (forall j, get reg j = if decide (j = i) then Some st else get (te_registry e) j) ->
  tick_engine_ok (with_registry e reg).
Proof.
  intros He Hp Hc Hok Hget. split; cbn; [| |apply He].
  - intros j st'. rewrite Hget. case_decide as Hd.
    + intros [= <-]. subst j. eapply instrument_ok_later; [|apply Hok; subst st0; by apply prior_state_ok].
      done.
    + intros Hj. eapply instrument_ok_later; [|by apply (teok_states e He)]. done.
  - assert (forall j st' c, get reg j = Some st' -> is_context st' = Some c ->
      exists st'', get (te_registry e) j = Some st'' /\ is_context st'' = Some c) as Hold.
    { intros j st' c. rewrite Hget. case_decide as Hd; [|eauto]. intros [= <-]. subst j st0.
      rewrite Hc. unfold prior_state. destruct (get (te_registry e) i); cbn; [eauto|done]. }
    intros j k s1 s2 c1 c2 E1 E2 F1 F2.
    destruct (Hold _ _ _ E1 F1) as (? & ? & ?), (Hold _ _ _ E2 F2) as (? & ? & ?).
    by eapply (teok_sequences e He).
Qed.

Lemma same_core_ok e e' :
  te_registry e' = te_registry e -> te_sequence e' = te_sequence e ->
  tick_engine_ok e -> tick_engine_ok e'.
Proof.
  intros Hr Hs [H1 H2 H3]. split; rewrite ?Hr, ?Hs; try done.
  intros i st Hi. eapply instrument_ok_later; [|by apply H1]. lia.
Qed.

Lemma tick_step_ok e e' : tick_step e e' -> tick_engine_ok e -> tick_engine_ok e'.
Proof.
  destruct 1 as [publish e x now ob|e i h reg H|e i o|e a|e ev|e c]; intros He.
  - pose proof (process_ends_intro publish e x now ob) as H.
    destruct (process _ _ _ _ _) as [[e' evs] r]. by eapply process_ends_ok, H.
  - apply bind_ok in H as (? & Hh%raise_if_ok & H). zbool.
    destruct (ensure_spec (te_registry e) i) as (Hst & Hget & _).
    destruct (ensure _ i) as [reg' st]. injection H as <-. cbn [fst snd] in *.
    change (default _ _) with (prior_state e i) in Hst.
    eapply (registry_ok e i st (with_historical st h)); [done|done|done| |].
    + intros [P1 P2 P3 P4 P5 P6 P7]. split; try done.
      * cbn. congruence.
      * intros c Hc. by destruct (P6 c Hc).
    + intros j. rewrite get_put. case_decide; [done|]. rewrite Hget. by rewrite decide_False.
  - unfold stage_session_statistics_observation. case_bool_decide as Hi; cbn.
    2: { by eapply same_core_ok, He. }
    destruct (ensure_spec (te_registry e) i) as (Hst & Hget & _).
    destruct (ensure _ i) as [reg' st]. cbn [fst snd] in *.
    change (default _ _) with (prior_state e i) in Hst.
    assert (tick_engine_ok (with_registry e reg')) as Hkeep.
    { eapply (registry_ok e i st st); by try (intros j; rewrite Hget). }
    assert (tick_engine_ok (with_registry e (put reg' i (with_staged st o)))) as Hput.
    { eapply (registry_ok e i st (with_staged st o)); [done|done|done| |].
      - intros [P1 P2 P3 P4 P5 P6 P7]. split; try done.
        + cbn. congruence.
        + intros c Hc. by destruct (P6 c Hc).
      - intros j. rewrite get_put. case_decide; [done|]. rewrite Hget. by rewrite decide_False. }
    destruct (is_staged st); [|done]. by split_ifs.
  - by eapply same_core_ok, He.
  - by eapply same_core_ok, He.
  - by eapply same_core_ok, He.
Qed.

Lemma mk_tick_engine_ok known session candles authority :
  tick_engine_ok (mk_tick_engine (mk_registry known) session candles authority).
Proof. split; cbn; try done; intros *; unfold get; cbn; by rewrite lookup_empty. Qed.

(** ** Published traces *)

Definition contexts_of (i : Instrument) (evs : list ContextEvent) : list MarketContext :=
  filter (fun c => mc_instrument c = i) (event_context <$> evs).

Definition quiet : ContextEvent -> option exn := fun _ => None.

(** The events whose handlers all returned. *)
Definition delivered (publish : ContextEvent -> option exn) (evs : list ContextEvent)
    : list ContextEvent :=
  filter (fun ev => publish ev = None) evs.

(** The version the event [ev] has to carry after the events [before]: one more than
    the contexts of its instrument that were delivered. *)
Definition next_version (publish : ContextEvent -> option exn) (before : list ContextEvent)
    (ev : ContextEvent) : Z :=
  1 + Z.of_nat (length (contexts_of (mc_instrument (event_context ev)) (delivered publish before))).

(** What a run has published so far, against the engine it reached. *)
Record trace_inv (publish : ContextEvent -> option exn) (e : TickEngine) (evs : list ContextEvent)
    : Prop := {
  tr_ok : tick_engine_ok e;
  tr_sequences : mc_sequence <$> (event_context <$> evs) = seqZ 1 (te_sequence e);
  tr_versioned : Forall event_versioned evs;
  tr_versions : forall i,
    prior_version e i = Z.of_nat (length (contexts_of i (delivered publish evs)));
  tr_next : forall before ev after, evs = before ++ ev :: after ->
    mc_version (event_context ev) = next_version publish before ev;
  tr_stored : forall i, last (contexts_of i (delivered publish evs)) = is_context (prior_state e i);
}.

Lemma contexts_of_snoc i evs ev :
  contexts_of i (evs ++ [ev])
  = contexts_of i evs ++ (if decide (mc_instrument (event_context ev) = i) then [event_context ev] else []).
Proof. unfold contexts_of. by rewrite fmap_app, filter_app. Qed.

Lemma delivered_snoc publish evs ev :
  delivered publish (evs ++ [ev])
  = if decide (publish ev = None) then delivered publish evs ++ [ev] else delivered publish evs.
Proof.
  unfold delivered. rewrite filter_app. case_decide.
  - by rewrite filter_cons_True.
  - by rewrite filter_cons_False, app_nil_r.
Qed.

Lemma prior_state_get e e' i st k :
  (forall j, get (te_registry e') j = if decide (j = k) then Some st else get (te_registry e) j) ->
  prior_state e' i = if decide (i = k) then st else prior_state e i.
Proof. intros H. unfold prior_state. rewrite H. by case_decide. Qed.

(** Contexts are filed under the instrument of their input. *)
Lemma issued_instrument e x (c : MarketContext) :
  tick_engine_ok e ->
  mc_instrument c = match is_context (prior_state e (input_instrument x)) with
                    | Some p => mc_instrument p | None => input_instrument x end ->
  mc_instrument c = input_instrument x.
Proof.
  intros He ->. destruct (is_context (prior_state e (input_instrument x))) eqn:E; [|done].
  apply (cok_instrument _ _ _ _ (iok_context _ _ _ (prior_state_ok e _ He) _ E)).
Qed.

Lemma trace_next_snoc publish evs ev before e after :
  (forall before e after, evs = before ++ e :: after ->
    mc_version (event_context e) = next_version publish before e) ->
  mc_version (event_context ev) = next_version publish evs ev ->
  evs ++ [ev] = before ++ e :: after ->
  mc_version (event_context e) = next_version publish before e.
Proof.
  intros Hevs Hev H. destruct after as [|a after _] using rev_ind.
  - apply app_inj_tail in H as [-> ->]. done.
  - rewrite app_comm_cons, app_assoc in H. apply app_inj_tail in H as [H _]. eauto.
Qed.

Lemma trace_sequences_snoc e e' evs ev :
  tick_engine_ok e -> mc_sequence <$> (event_context <$> evs) = seqZ 1 (te_sequence e) ->
  te_sequence e' = te_sequence e + 1 -> mc_sequence (event_context ev) = te_sequence e' ->
  mc_sequence <$> (event_context <$> (evs ++ [ev])) = seqZ 1 (te_sequence e').
Proof.
  intros He H Hseq Hc. pose proof (teok_positive e He).
  rewrite !fmap_app, H. cbn. rewrite Hc, Hseq, (seqZ_app 1 (te_sequence e) 1) by lia.
  f_equal. by rewrite Z.add_comm.
Qed.

(** When every event carries its next version, the delivered contexts of an
    instrument count from 1. *)
Lemma delivered_versions publish evs i :
  (forall before ev after, evs = before ++ ev :: after ->
    mc_version (event_context ev) = next_version publish before ev) ->
  mc_version <$> contexts_of i (delivered publish evs)
  = seqZ 1 (Z.of_nat (length (contexts_of i (delivered publish evs)))).
Proof.
  induction evs as [|ev evs IH] using rev_ind; intros H; [done|].
  assert (mc_version <$> contexts_of i (delivered publish evs)
    = seqZ 1 (Z.of_nat (length (contexts_of i (delivered publish evs))))) as IH'.
  { apply IH. intros before e after ->. apply (H before e (after ++ [ev])). by rewrite <- app_assoc. }
  rewrite delivered_snoc. case_decide; [|done]. rewrite contexts_of_snoc, fmap_app, IH', length_app.
  specialize (H evs ev [] eq_refl). unfold next_version in H. case_decide as Hi; cbn.
  - rewrite Nat2Z.inj_add, seqZ_app by lia. rewrite H, Hi. done.
  - by rewrite app_nil_r, Nat.add_0_r.
Qed.

Lemma trace_inv_step publish e evs x e' evs' r :
  trace_inv publish e evs -> process_ends publish e x e' evs' r ->
  trace_inv publish e' (evs ++ evs').
Proof.
  intros [T1 T2 T3 T4 T5 T6] H. pose proof (process_ends_ok _ _ _ _ _ _ T1 H) as He'.
  destruct H as [e' o _ Hreg Hseq _|e' ev st Hp Hev Hseq Hc Hv Hi Hget Hst
                |e' ev err Hp Hseq Hc Hget Hev Hv Hi].
  - rewrite app_nil_r. split; try done.
    + by rewrite Hseq.
    + intros i. unfold prior_version, prior_state. rewrite Hreg. apply T4.
    + intros i. unfold prior_state. rewrite Hreg. apply T6.
  - pose proof (issued_instrument e x _ T1 Hi) as Hin. destruct Hst as (Hctx & _).
    split; [done|by apply (trace_sequences_snoc e)|apply Forall_app; by repeat constructor|..].
    + intros i. rewrite delivered_snoc, decide_True by done.
      rewrite contexts_of_snoc, length_app, Nat2Z.inj_add, <- T4, Hin. unfold prior_version.
      rewrite (prior_state_get e e' i st _ Hget).
      destruct (decide (i = input_instrument x)) as [->|Hd];
        [rewrite decide_True by done|rewrite decide_False by congruence].
      * by rewrite Hctx, Hv.
      * cbn. lia.
    + intros before ev' after. eapply trace_next_snoc; [done|]. unfold next_version. rewrite Hin, <- T4, Hv. lia.
    + intros i. rewrite delivered_snoc, decide_True by done.
      rewrite contexts_of_snoc, (prior_state_get e e' i st _ Hget), Hin.
      destruct (decide (i = input_instrument x)) as [->|Hd];
        [rewrite decide_True by done|rewrite decide_False by congruence].
      * by rewrite last_snoc.
      * by rewrite app_nil_r.
  - pose proof (issued_instrument e x _ T1 Hi) as Hin.
    assert (forall i, prior_state e' i = prior_state e i) as Hps.
    { intros i. unfold prior_state. rewrite Hget. unfold prior_state.
      destruct (decide _) as [->|]; [|done]. by destruct (get _ _). }
    split; [done|by apply (trace_sequences_snoc e)|apply Forall_app; by repeat constructor|..].
    + intros i. rewrite delivered_snoc, decide_False by (by rewrite Hp).
      unfold prior_version. rewrite Hps. apply T4.
    + intros before ev' after. eapply trace_next_snoc; [done|]. unfold next_version. rewrite Hin, <- T4, Hv. lia.
    + intros i. rewrite delivered_snoc, decide_False by (by rewrite Hp). by rewrite Hps.
Qed.

Lemma trace_inv_run publish known session candles authority xs :
  let '(e, evs) := process_all publish (mk_tick_engine (mk_registry known) session candles authority) xs in
  trace_inv publish e evs.
Proof.
  induction xs as [|x xs IH] using rev_ind.
  - cbn. split; [apply mk_tick_engine_ok|done|constructor|intros i| |intros i].
    2: { intros before ev after H. by destruct before. }
    all: unfold prior_version, prior_state, get; cbn; by rewrite lookup_empty.
  - rewrite process_all_snoc. destruct (process_all _ _ xs) as [e evs].
    destruct (processed_ends publish e x) as (r & H & _). by eapply trace_inv_step.
Qed.

(** ** Independence of instruments *)

(** Two candle engines that cannot be told apart through instrument [j]. *)
Record candles_agree (j : Instrument) (c1 c2 : CandleEngine) : Prop := {
  ca_schedule : ce_schedule c1 = ce_schedule c2;
  ca_timezone : ce_timezone c1 = ce_timezone c2;
  ca_window : ce_finalized_window c1 = ce_finalized_window c2;
  ca_timeframes : ce_timeframes c1 = ce_timeframes c2;
  ca_states : forall t, ce_states c1 !! (j, t) = ce_states c2 !! (j, t);
  ca_broken : j ∈ ce_continuity_broken c1 <-> j ∈ ce_continuity_broken c2;
}.

Lemma open_bucket_agree br1 br2 st index a z t :
  (st_instrument st ∈ br1 <-> st_instrument st ∈ br2) ->
  open_bucket br1 st index a z t = open_bucket br2 st index a z t.
Proof. intros H. unfold open_bucket. by rewrite (bool_decide_ext _ _ H). Qed.

Lemma step_state_agree w sched tz br1 br2 st t s tfr j :
  st_instrument st = j -> (j ∈ br1 <-> j ∈ br2) ->
  (step_state w sched tz br1 st t s tfr).1 = (step_state w sched tz br2 st t s tfr).1
  /\ (j ∈ (step_state w sched tz br1 st t s tfr).2 <-> j ∈ (step_state w sched tz br2 st t s tfr).2).
Proof.
  intros Hi Hb. unfold step_state. destruct (bucket_bounds _ _ _ _ _) as [[? ?] ?]. cbn.
  set (rollover := negb _).
  assert (forall st', st_instrument st' = j ->
    (st_instrument st' ∈ (if rollover then br1 ∖ {[st_instrument st]} else br1)
     <-> st_instrument st' ∈ (if rollover then br2 ∖ {[st_instrument st]} else br2))) as Hx.
  { intros st' ->. destruct rollover; set_solver. }
  split; [|specialize (Hx st Hi); by rewrite Hi in Hx |- *].
  set (st1 := if rollover then _ else st).
  assert (st_instrument st1 = j) as Hi1.
  { subst st1. destruct rollover; [|done]. unfold reset_session, finalize_partial. by destruct (st_partial st). }
  destruct (st_partial st1) eqn:E.
  - destruct (_ =? _); [done|]. do 2 f_equal. apply open_bucket_agree, Hx.
    unfold finalize_partial. by rewrite E.
  - do 2 f_equal. by apply open_bucket_agree, Hx.
Qed.

Lemma update_timeframe_agree j c1 c2 t s tfr :
  engine_ok c1 -> tick_instrument t = j ->
  candles_agree j c1 c2 -> candles_agree j (update_timeframe c1 t s tfr) (update_timeframe c2 t s tfr).
Proof.
  intros He Hj [A1 A2 A3 A4 A5 A6]. unfold update_timeframe. rewrite Hj, <- A5, <- A1, <- A2, <- A3.
  set (st := default _ _).
  assert (st_instrument st = j) as Hst.
  { subst st. destruct (ce_states c1 !! _) eqn:E; cbn; [|done]. apply He in E. apply E. }
  destruct (step_state_agree (ce_finalized_window c1) (ce_schedule c1) (ce_timezone c1)
    (ce_continuity_broken c1) (ce_continuity_broken c2) st t s tfr j Hst A6) as [E1 E2].
  destruct (step_state _ _ _ (ce_continuity_broken c1) _ _ _ _) as [s1 b1].
  destruct (step_state _ _ _ (ce_continuity_broken c2) _ _ _ _) as [s2 b2]. cbn in *. subst s2.
  split; try done. intros t'. cbn. by rewrite !lookup_insert, A5.
Qed.

Lemma update_agree j c1 c2 t s :
  tick_valid t -> engine_ok c1 -> tick_instrument t = j ->
  candles_agree j c1 c2 -> candles_agree j (update c1 t s) (update c2 t s).
Proof.
  intros Ht He Hj Ha. unfold update. destruct (negb _); [done|].
  rewrite <- (ca_timeframes _ _ _ Ha).
  generalize (ce_timeframes c1) as ts. intros ts. revert c1 c2 He Ha.
  induction ts as [|t0 ts IH]; intros c1 c2 He Ha; [done|].
  unfold fold_state in *. cbn [fold_left]. apply IH; [by apply update_timeframe_ok|].
  by apply update_timeframe_agree.
Qed.

Lemma update_frame j c t s :
  tick_valid t -> engine_ok c -> j <> tick_instrument t -> candles_agree j (update c t s) c.
Proof.
  intros Ht He Hj. unfold update. destruct (negb _); [done|].
  destruct (update_fold_fixed (ce_timeframes c) c t s) as (F1 & F2 & F3 & F4).
  pose proof (fun tfr => update_fold_other (ce_timeframes c) c t s j tfr Ht He Hj) as Ho.
  split; try done; [intros tfr; by apply Ho|by apply (Ho session_timeframe)].
Qed.

(** A snapshot without the engine-wide ordinal. *)
Definition erase_context (c : MarketContext) : MarketContext := {|
  mc_instrument := mc_instrument c; mc_version := mc_version c; mc_sequence := 0;
  mc_event_timestamp := mc_event_timestamp c; mc_observed_at := mc_observed_at c;
  mc_latest_tick := mc_latest_tick c; mc_latest_quote := mc_latest_quote c;
  mc_latest_candle := mc_latest_candle c; mc_candle_sets := mc_candle_sets c;
  mc_session := mc_session c; mc_facts := mc_facts c; mc_metadata := mc_metadata c;
  mc_historical := mc_historical c; mc_session_statistics := mc_session_statistics c;
  mc_previous_close := mc_previous_close c; mc_is_valid := mc_is_valid c |}.

Definition erase (st : InstrumentState) : InstrumentState := {|
  is_instrument := is_instrument st; is_latest_tick := is_latest_tick st;
  is_latest_quote := is_latest_quote st; is_last_event_timestamp := is_last_event_timestamp st;
  is_last_sequence := None; is_context := erase_context <$> is_context st;
  is_historical := is_historical st; is_session_statistics := is_session_statistics st;
  is_staged := is_staged st |}.

(** What an observer of one instrument sees of the engine. *)
Definition view (j : Instrument) (e : TickEngine)
    : option InstrumentState * list TimeframeCandles :=
  (erase <$> get (te_registry e) j, candle_sets (te_candles e) j).

Definition candles_sim (j : Instrument) (o1 o2 : option CandleEngine) : Prop :=
  match o1, o2 with
  | Some c1, Some c2 => engine_ok c1 /\ engine_ok c2 /\ candles_agree j c1 c2
  | None, None => True
  | _, _ => False
  end.

Record sim (j : Instrument) (e1 e2 : TickEngine) : Prop := {
  sim_config : same_config e1 e2;
  sim_state : erase <$> get (te_registry e1) j = erase <$> get (te_registry e2) j;
  sim_candles : candles_sim j (te_candles e1) (te_candles e2);
}.

Definition input_valid (x : MarketInput) : Prop :=
  match x with InDatum (ATick t) => tick_valid t | _ => True end.

Lemma candles_sim_sets j o1 o2 : candles_sim j o1 o2 -> candle_sets o1 j = candle_sets o2 j.
Proof.
  destruct o1, o2; try done. intros (_ & _ & [A1 A2 A3 A4 A5 A6]). cbn. unfold candle_sets_for.
  rewrite A4. apply list_fmap_ext. intros _ t _. by rewrite A5.
Qed.

Lemma candles_sim_after j o1 o2 d s :
  input_valid (InDatum d) -> datum_instrument d = j ->
  candles_sim j o1 o2 -> candles_sim j (candles_after o1 d s) (candles_after o2 d s).
Proof.
  intros Hv Hd. destruct o1, o2, d as [t|q], s; try done. cbn in *. intros (H1 & H2 & H3).
  split_and!; [by apply update_ok..|by apply update_agree].
Qed.

Lemma candles_sim_frame j o1 o2 d s :
  input_valid (InDatum d) -> j <> datum_instrument d ->
  candles_sim j o1 o2 -> candles_sim j (candles_after o1 d s) o2.
Proof.
  intros Hv Hd. destruct o1 as [c1|], o2 as [c2|], d as [t|q], s; try done. cbn in *.
  intros (H1 & H2 & [A1 A2 A3 A4 A5 A6]).
  destruct (update_frame j c1 t s Hv H1 Hd) as [B1 B2 B3 B4 B5 B6].
  split_and!; [by apply update_ok|done|].
  split; [congruence..|intros t'; by rewrite B5|by rewrite B6].
Qed.

(** What the engine computes from a state does not depend on its ordinal. *)
Lemma erase_prior e1 e2 j :
  erase <$> get (te_registry e1) j = erase <$> get (te_registry e2) j ->
  erase (prior_state e1 j) = erase (prior_state e2 j).
Proof.
  unfold prior_state. destruct (get (te_registry e1) j), (get (te_registry e2) j); cbn; intros H; congruence.
Qed.

Lemma erase_classify d known o1 o2 now :
  erase <$> o1 = erase <$> o2 -> classify d known o1 now = classify d known o2 now.
Proof.
  destruct o1 as [s1|], o2 as [s2|]; cbn; try done. intros [= H1 H2 H3 H4 _ H5 H6 H7].
  unfold classify, is_duplicate. by rewrite H2, H3, H4.
Qed.

Lemma erase_accepted e1 e2 d st1 st2 sq1 sq2 ob s sets stats :
  erase st1 = erase st2 ->
  erase_context (event_context (accepted_event e1 d st1 sq1 ob s sets stats))
  = erase_context (event_context (accepted_event e2 d st2 sq2 ob s sets stats)).
Proof.
  intros [= H1 H2 H3 H4 H5 H6 H7 H8]. unfold accepted_event.
  assert (merge d st1 = merge d st2) as -> by (unfold merge; destruct d; congruence).
  destruct (merge d st2) as [tk qt].
  destruct (is_context st1) as [p1|], (is_context st2) as [p2|]; try done; cbn in *.
  - injection H5 as E1 E2 E3 E4 E5 E6 E7 E8 E9 E10 E11 E12 E13 E14 E15.
    unfold erase_context, carried_previous_close. cbn. by rewrite E1, E2, H6, E9, E14.
  - unfold erase_context. cbn. by rewrite H6.
Qed.

Lemma erase_reference e1 e2 r st1 st2 sq1 sq2 now s :
  erase st1 = erase st2 ->
  erase_context (event_context (reference_event e1 r st1 sq1 now s))
  = erase_context (event_context (reference_event e2 r st2 sq2 now s)).
Proof.
  intros [= H1 H2 H3 H4 H5 H6 H7 H8]. unfold reference_event.
  destruct (is_context st1) as [p1|], (is_context st2) as [p2|]; try done; cbn in *.
  - injection H5 as E1 E2 E3 E4 E5 E6 E7 E8 E9 E10 E11 E12 E13 E14 E15.
    unfold erase_context. cbn. by rewrite E1, E2, E8, E9, H2, H3, H6, H7.
  - unfold erase_context. cbn. by rewrite H6.
Qed.

(** The candle engine an input leaves. *)
Lemma process_candles publish e x now ob :
  te_candles (process publish e x now ob).1.1
  = match x with
    | InDatum d =>
        if decide (classify d (is_known (te_registry e) (datum_instrument d))
          (get (te_registry e) (datum_instrument d)) now = ACCEPT)
        then candles_after (te_candles e) d (session_for e (datum_timestamp d))
        else te_candles e
    | InReference _ => te_candles e
    end.
Proof.
  destruct x as [d|r]; cbn [process].
  - case_bool_decide as Ho; case_decide; try done. unfold accept. cbn.
    destruct (ensure _ _) as [reg st], (merge d st). cbn.
    destruct (session_statistics_for _ _ _ _). by destruct (publish _).
  - unfold accept_reference. destruct (negb _); [done|].
    destruct (ensure _ _) as [reg st]. cbn. by destruct (publish _).
Qed.

Lemma same_config_trans e1 e2 e3 : same_config e1 e2 -> same_config e2 e3 -> same_config e1 e3.
Proof. unfold same_config. naive_solver congruence. Qed.

Lemma same_config_sym e1 e2 : same_config e1 e2 -> same_config e2 e1.
Proof. unfold same_config. naive_solver congruence. Qed.

Lemma session_for_config e1 e2 t : same_config e1 e2 -> session_for e2 t = session_for e1 t.
Proof. intros (H1 & _ & H2 & _). unfold session_for. by rewrite H1, H2. Qed.

Lemma processed_frame j e1 e2 x :
  input_valid x.1.1 -> j <> input_instrument x.1.1 ->
  sim j e1 e2 -> sim j (processed quiet e1 x).1 e2.
Proof.
  intros Hv Hj [S1 S2 S3]. pose proof (process_ends_intro quiet e1 x.1.1 x.1.2 x.2) as H.
  pose proof (process_candles quiet e1 x.1.1 x.1.2 x.2) as Hc.
  unfold processed. destruct (process quiet e1 _ _ _) as [[e' evs] r]. cbn in *.
  destruct H as [Hends Hcfg]. split.
  - eapply same_config_trans; [by apply same_config_sym|done].
  - rewrite <- S2. f_equal. destruct Hends as [e' o _ -> _ _|e' ev st _ _ _ _ _ _ Hget _|e' ev err [=]].
    + done.
    + rewrite Hget. by rewrite decide_False.
  - rewrite Hc. destruct x.1.1 as [d|r']; [|done]. case_decide; [|done].
    by apply candles_sim_frame.
Qed.

(** The state stored for an accepted input, erased, depends on the erased prior only. *)
Lemma stored_erase j e1 e2 x now ob :
  input_valid x -> input_instrument x = j -> sim j e1 e2 ->
  erase <$> get (te_registry (process quiet e1 x now ob).1.1) j
  = erase <$> get (te_registry (process quiet e2 x now ob).1.1) j.
Proof.
  intros Hv Hj [(C1 & C2 & C3 & C4) S2 S3].
  pose proof (erase_prior e1 e2 j S2) as Hprior.
  destruct x as [d|r]; cbn [input_instrument] in Hj; cbn [process].
  - rewrite Hj. assert (is_known (te_registry e2) j = is_known (te_registry e1) j) as -> by (unfold is_known; by rewrite C4).
    rewrite <- (erase_classify d _ _ _ now S2). case_bool_decide as Ho; [|done].
    unfold accept. cbn. rewrite Hj.
    destruct (ensure_spec (te_registry e1) j) as (E1 & _ & _).
    destruct (ensure_spec (te_registry e2) j) as (E2 & _ & _).
    destruct (ensure (te_registry e1) j) as [r1 st1], (ensure (te_registry e2) j) as [r2 st2].
    cbn [fst snd] in *. change (st1 = prior_state e1 j) in E1. change (st2 = prior_state e2 j) in E2.
    rewrite <- E1, <- E2 in Hprior. clear E1 E2.
    pose proof Hprior as [= H1 H2 H3 H4 H5 H6 H7 H8].
    assert (merge d st1 = merge d st2) as -> by (unfold merge; destruct d; congruence).
    destruct (merge d st2) as [tk qt]. unfold session_for, session_statistics_for. cbn.
    rewrite C1, C2, C3, H7, H8.
    set (s := (fun c => _) <$> te_session e1).
    destruct (resolve_session_statistics _ _ _ _ _ _) as [stats staged]. cbn.
    rewrite !get_put, !decide_True by done. cbn. unfold erase. cbn. do 2 f_equal; [done| |done].
    rewrite (candles_sim_sets j _ (candles_after (te_candles e2) d s)) by by apply candles_sim_after.
    f_equal. by apply erase_accepted.
  - unfold accept_reference. rewrite Hj.
    assert (is_known (te_registry e2) j = is_known (te_registry e1) j) as -> by (unfold is_known; by rewrite C4).
    destruct (is_known _ _); [|done]. cbn.
    destruct (ensure_spec (te_registry e1) j) as (E1 & _ & _).
    destruct (ensure_spec (te_registry e2) j) as (E2 & _ & _).
    destruct (ensure (te_registry e1) j) as [r1 st1], (ensure (te_registry e2) j) as [r2 st2].
    cbn [fst snd] in *. change (st1 = prior_state e1 j) in E1. change (st2 = prior_state e2 j) in E2.
    rewrite <- E1, <- E2 in Hprior. clear E1 E2.
    pose proof Hprior as [= H1 H2 H3 H4 H5 H6 H7 H8]. cbn.
    rewrite !get_put, !decide_True by done. cbn. unfold erase. cbn.
    unfold session_for. cbn. rewrite C1, C3, H1, H2, H3, H4, H6, H7, H8. do 3 f_equal.
    by apply erase_reference.
Qed.

Lemma processed_sim j e1 e2 x :
  input_valid x.1.1 -> input_instrument x.1.1 = j ->
  sim j e1 e2 -> sim j (processed quiet e1 x).1 (processed quiet e2 x).1.
Proof.
  intros Hv Hj Hs. split.
  - pose proof (process_ends_intro quiet e1 x.1.1 x.1.2 x.2) as H1.
    pose proof (process_ends_intro quiet e2 x.1.1 x.1.2 x.2) as H2.
    unfold processed. destruct (process quiet e1 _ _ _) as [[? ?] ?], (process quiet e2 _ _ _) as [[? ?] ?].
    cbn. destruct H1 as [_ H1], H2 as [_ H2], Hs as [H _ _].
    exact (same_config_trans _ _ _ (same_config_sym _ _ H1) (same_config_trans _ _ _ H H2)).
  - unfold processed. by apply stored_erase.
  - unfold processed. rewrite !process_candles. destruct Hs as [Hc Hst Hcd].
    destruct x.1.1 as [d|r]; [|done]. cbn in Hj. rewrite Hj.
    assert (is_known (te_registry e2) j = is_known (te_registry e1) j) as ->
      by (unfold is_known; by rewrite (proj2 (proj2 (proj2 Hc)))).
    rewrite <- (erase_classify d _ _ _ _ Hst), (session_for_config e1 e2) by done.
    case_decide; [|done]. by apply candles_sim_after.
Qed.

Lemma runs_sim j xs e1 e2 :
  Forall (fun x => input_valid x.1.1) xs -> sim j e1 e2 ->
  sim j (process_all quiet e1 xs).1
    (process_all quiet e2 (filter (fun x => input_instrument x.1.1 = j) xs)).1.
Proof.
  intros Hv Hs. induction xs as [|x xs IH] using rev_ind; [done|].
  apply Forall_app in Hv as [Hv [Hx _]%Forall_cons]. specialize (IH Hv).
  rewrite filter_app, process_all_snoc. destruct (process_all quiet e1 xs) as [f1 evs1].
  cbn [fst] in *. destruct (decide (input_instrument x.1.1 = j)) as [Hj|Hj].
  - rewrite filter_cons_True, process_all_snoc by done.
    destruct (process_all quiet e2 _) as [f2 evs2]. by apply processed_sim.
  - rewrite filter_cons_False, app_nil_r by done. by apply processed_frame.
Qed.

(** ** Event time and decision counters *)

Definition last_accepted (e : TickEngine) (i : Instrument) : option instant :=
  is_last_event_timestamp (prior_state e i).

(** [None] is below every instant. *)
Definition opt_le (a b : option instant) : Prop :=
  forall x, a = Some x -> exists y, b = Some y /\ x <= y.

Lemma opt_le_refl a : opt_le a a.
Proof. intros x ->. exists x. split; [done|lia]. Qed.

Lemma opt_le_trans a b c : opt_le a b -> opt_le b c -> opt_le a c.
Proof.
  intros H1 H2 x Hx. destruct (H1 x Hx) as (y & Hy & ?), (H2 y Hy) as (z & Hz & ?).
  exists z. split; [done|lia].
Qed.

Lemma process_ends_time publish e x e' evs r i :
  process_ends publish e x e' evs r -> opt_le (last_accepted e i) (last_accepted e' i).
Proof.
  unfold last_accepted.
  destruct 1 as [e' o _ Hreg Hseq _|e' ev st _ _ _ _ _ _ Hget Hst|e' ev err _ _ _ Hget].
  - unfold prior_state. rewrite Hreg. apply opt_le_refl.
  - rewrite (prior_state_get e e' i st _ Hget). case_decide as Hd; [subst i|apply opt_le_refl].
    destruct Hst as (_ & _ & _ & _ & _ & Hst). destruct x as [d|r]; cbn [input_instrument] in *.
    + destruct Hst as (_ & Hl & _ & _ & _ & _ & _ & _ & Hle & _).
      intros t Ht. rewrite Hl. eexists; split; [done|]. auto.
    + destruct Hst as (_ & _ & -> & _). apply opt_le_refl.
  - unfold prior_state at 2. rewrite Hget. case_decide; cbn; apply opt_le_refl.
Qed.

(** Each decision is counted once, under its own outcome. *)
Record counters_ok (d : TickEngineDecisionCounters) : Prop := {
  co_ticks : dc_ticks_received d
    = dc_ticks_accepted d + dc_invalid d + dc_duplicate d + dc_stale d;
  co_references : dc_references_received d
    = dc_references_accepted d + dc_references_rejected d;
  co_nonneg : 0 <= dc_ticks_accepted d /\ 0 <= dc_invalid d /\ 0 <= dc_duplicate d
    /\ 0 <= dc_stale d /\ 0 <= dc_references_accepted d /\ 0 <= dc_references_rejected d;
}.

Lemma process_diagnostics publish e x now ob :
  let '(e', _, r) := process publish e x now ob in
  te_diagnostics e'
  = match x, r with
    | InDatum d, _ => record_tick (te_diagnostics e)
        (classify d (is_known (te_registry e) (datum_instrument d))
           (get (te_registry e) (datum_instrument d)) now) (datum_timestamp d) now
    | InReference _, Ok pr => record_reference (te_diagnostics e) (pr_outcome pr)
    | InReference _, Raise _ => te_diagnostics e
    end.
Proof.
  destruct x as [d|r]; cbn [process].
  - case_bool_decide as Ho; [|done]. rewrite Ho. unfold accept. cbn.
    destruct (ensure _ _) as [reg st], (merge d st). cbn.
    destruct (session_statistics_for _ _ _ _). by destruct (publish _).
  - unfold accept_reference. destruct (negb _); [done|].
    destruct (ensure _ _) as [reg st]. cbn. by destruct (publish _).
Qed.

Lemma record_tick_ok d o t now : counters_ok d -> counters_ok (record_tick d o t now).
Proof. intros [H1 H2 H3]. destruct o; split; cbn; unfold bump; repeat case_bool_decide; cbn; try done; lia. Qed.

Lemma record_reference_ok d o : counters_ok d -> counters_ok (record_reference d o).
Proof. intros [H1 H2 H3]. destruct o; split; cbn; unfold bump; repeat case_bool_decide; cbn; try done; lia. Qed.

Lemma process_counters publish e x now ob :
  counters_ok (te_diagnostics e) -> counters_ok (te_diagnostics (process publish e x now ob).1.1).
Proof.
  intros H. pose proof (process_diagnostics publish e x now ob) as Hd.
  destruct (process _ _ _ _ _) as [[e' evs] r]. cbn. rewrite Hd.
  destruct x, r; auto using record_tick_ok, record_reference_ok.
Qed.

(** ** The previous-close reference *)

(** The context of [i] shows the close [p] for the trading date [td]. *)
Definition shows_close (e : TickEngine) (i : Instrument) (td : date) (p : Decimal) : Prop :=
  exists c s, is_context (prior_state e i) = Some c /\ mc_session c = Some s
    /\ ctx_trading_date s = td /\ mc_previous_close c = Some p.

(** Inputs of [i] that are data of trading date [td]. *)
Definition same_day_datum (cls : MarketSessionClassifier) (i : Instrument) (td : date)
    (x : MarketInput) : Prop :=
  input_instrument x = i ->
  match x with
  | InDatum d => local_date (cls_timezone cls) (datum_timestamp d) = td
  | InReference _ => False
  end.

Lemma processed_close cls e x i td p :
  te_session e = Some cls -> same_day_datum cls i td x.1.1 ->
  shows_close e i td p -> shows_close (processed quiet e x).1 i td p.
Proof.
  intros Hcls Hx (c & s & H1 & H2 & H3 & H4). unfold shows_close.
  destruct (processed_ends quiet e x) as (r & H & _).
  destruct H as [e' o _ Hreg _ _|e' ev st _ _ _ _ _ _ Hget Hst|e' ev err [=]].
  - unfold prior_state. rewrite Hreg. eauto 6.
  - rewrite (prior_state_get e e' i st _ Hget). case_decide as Hd; [|eauto 6].
    specialize (Hx (eq_sym Hd)). destruct Hst as (Hctx & _ & _ & _ & _ & Hst).
    rewrite <- Hd in Hst. destruct (x.1.1) as [d|r']; [|done].
    destruct Hst as (_ & _ & _ & Hs & _ & _ & _ & _ & _ & Hpc).
    rewrite H1 in Hpc. cbn in Hpc. unfold session_for in Hs. rewrite Hcls in Hs. cbn in Hs.
    rewrite Hs in Hpc. unfold carried_previous_close in Hpc. rewrite H2 in Hpc. cbn in Hpc.
    rewrite H3, Hx, Z.eqb_refl in Hpc. cbn in Hpc. eexists _, _. split_and!; [done|done|done|].
    congruence.
Qed.

(** * Properties *)

(** A call of [process] publishes nothing exactly when the event is
    rejected, and then it changes nothing but the decision counters: every
    instrument's state, the ordinal and the candle engine are the ones it
    found, and the result carries the outcome and no context. *)
Theorem rejected_changes_nothing (publish : ContextEvent -> option exn) (e : TickEngine)
    (x : MarketInput) (now observed_at : instant) :
  let '(e', events, r) := process publish e x now observed_at in
  (events = [] <-> exists o, o <> ACCEPT /\ r = Ok {| pr_outcome := o; pr_context := None |})
  /\ (events = [] -> te_registry e' = te_registry e /\ te_sequence e' = te_sequence e
      /\ te_candles e' = te_candles e /\ te_halt_active e' = te_halt_active e).
Proof.
  pose proof (process_ends_intro publish e x now observed_at) as H.
  destruct (process _ _ _ _ _) as [[e' evs] r]. destruct H as [H (_ & _ & Hh & _)].
  destruct H as [e' o Ho Hreg Hseq Hc|e' ev st|e' ev err]; split; try done.
  - split; [eauto|done].
  - split; [done|]. by intros (o & Ho & [= <-]).
  - split; [done|]. by intros (o & Ho & [=]).
Qed.

(** [C3] The published trace of an engine over any bus, also one whose handlers
    raise: whatever the inputs, the events of a run carry the ordinals 1, 2,
    3, ... in publication order, each event announces the version after the one
    it supersedes, and that version is one more than the number of the
    instrument's contexts delivered before it, so that an undelivered version is
    announced again by the next event; the contexts delivered for an instrument
    are its versions 1, 2, 3, ... without a gap or a repetition, and the last
    one delivered is the one the engine holds. *)
Theorem published_trace (publish : ContextEvent -> option exn) (known : list Instrument)
    (session : option MarketSessionClassifier)
    (candles : option CandleEngine) (authority : SessionStatisticsAuthority)
    (xs : list (MarketInput * instant * instant)) :
  let '(e, events) :=
    process_all publish (mk_tick_engine (mk_registry known) session candles authority) xs in
  mc_sequence <$> (event_context <$> events) = seqZ 1 (Z.of_nat (length events))
  /\ Forall event_versioned events
  /\ (forall before ev after, events = before ++ ev :: after ->
      mc_version (event_context ev)
      = 1 + Z.of_nat (length (contexts_of (mc_instrument (event_context ev)) (delivered publish before))))
  /\ forall i, let contexts := contexts_of i (delivered publish events) in
     mc_version <$> contexts = seqZ 1 (Z.of_nat (length contexts))
     /\ last contexts = is_context (prior_state e i).
Proof.
  pose proof (trace_inv_run publish known session candles authority xs) as H.
  destruct (process_all _ _ _) as [e evs]. destruct H as [T1 T2 T3 T4 T5 T6].
  split_and!; [|done|exact T5|].
  - pose proof (f_equal length T2) as Hl. rewrite !length_fmap, length_seqZ in Hl.
    pose proof (teok_positive e T1). by rewrite T2, Hl, Z2Nat.id.
  - intros i. split; [|apply T6]. by apply delivered_versions.
Qed.

(** [C6] Every state the engine can reach, through processing with any bus,
    historical installs, staged observations, halts, continuity facts and
    candle-engine changes, is well formed: each instrument's state holds only
    its own data, its context shows exactly the stored tick, quote and
    statistics under the stored ordinal, its version never exceeds that
    ordinal, no held datum is later than the last accepted event time, and no
    two instruments hold the same ordinal. *)
Theorem tick_engine_invariant (e : TickEngine) (H : tick_reachable e) : tick_engine_ok e.
Proof.
  destruct H as (known & session & candles & authority & H).
  pose proof (mk_tick_engine_ok known session candles authority) as H0. revert H0.
  induction H as [|e1 e2 e3 H12 _ IH]; eauto using tick_step_ok.
Qed.

(** [C2] The accepted event time of an instrument never goes back, for any
    inputs and any bus, including one whose handlers raise. *)
Theorem event_time_never_regresses (publish : ContextEvent -> option exn) (e : TickEngine)
    (xs : list (MarketInput * instant * instant)) (i : Instrument) :
  opt_le (last_accepted e i) (last_accepted (process_all publish e xs).1 i).
Proof.
  induction xs as [|x xs IH] using rev_ind; [apply opt_le_refl|].
  rewrite process_all_snoc. destruct (process_all publish e xs) as [e1 evs]. cbn in *.
  destruct (processed_ends publish e1 x) as (r & Hx & _).
  eapply opt_le_trans; [exact IH|]. by eapply process_ends_time.
Qed.

(** Acceptance diagnostics: in any run from a fresh engine the received
    ticks are the accepted ones plus the three rejection counters, the snapshot's
    rejection total is their sum, and references are counted apart in the same
    way. *)
Theorem decisions_accounted (publish : ContextEvent -> option exn)
    (registry : InstrumentStateRegistry) (session : option MarketSessionClassifier)
    (candles : option CandleEngine) (authority : SessionStatisticsAuthority)
    (xs : list (MarketInput * instant * instant)) :
  let d := te_diagnostics (process_all publish (mk_tick_engine registry session candles authority) xs).1 in
  counters_ok d /\ ticks_rejected_total d = dc_invalid d + dc_duplicate d + dc_stale d.
Proof.
  assert (counters_ok (te_diagnostics (process_all publish
    (mk_tick_engine registry session candles authority) xs).1)) as H.
  { induction xs as [|x xs IH] using rev_ind; [by split|].
    rewrite process_all_snoc. destruct (process_all _ _ xs) as [e evs]. cbn in *.
    by apply process_counters. }
  split; [exact H|]. destruct H. unfold ticks_rejected_total. lia.
Qed.

(** Instruments are independent: deleting every input of the other
    instruments from a stream changes neither the state an engine ends up with
    for an instrument (tick, quote, statistics, staged observation and the
    whole context, apart from the engine-wide ordinal) nor its candles. *)
Theorem instruments_independent (e : TickEngine) (j : Instrument)
    (xs : list (MarketInput * instant * instant))
    (Hcandles : forall c, te_candles e = Some c -> engine_ok c)
    (Hvalid : Forall (fun x => input_valid x.1.1) xs) :
  view j (process_all quiet e xs).1
  = view j (process_all quiet e (filter (fun x => input_instrument x.1.1 = j) xs)).1.
Proof.
  destruct (runs_sim j xs e e Hvalid) as [_ S2 S3].
  - split; [by split_and!|done|]. unfold candles_sim. destruct (te_candles e); [|done].
    split_and!; auto. by split.
  - unfold view. rewrite S2. f_equal. by apply candles_sim_sets.
Qed.

(** A previous close, once shown for a trading date, is carried by every
    later context of that date: any stream in which the instrument receives no
    other reference and only data of the same exchange-local date keeps it. *)
Theorem previous_close_kept (cls : MarketSessionClassifier) (e : TickEngine) (i : Instrument)
    (td : date) (p : Decimal) (xs : list (MarketInput * instant * instant))
    (Hsession : te_session e = Some cls) (Hshown : shows_close e i td p)
    (Hsame : Forall (fun x => same_day_datum cls i td x.1.1) xs) :
  shows_close (process_all quiet e xs).1 i td p.
Proof.
  induction xs as [|x xs IH] using rev_ind; [done|].
  apply Forall_app in Hsame as [Hsame [Hx _]%Forall_cons]. specialize (IH Hsame).
  pose proof (process_all_session quiet e xs) as Hs. rewrite process_all_snoc.
  destruct (process_all quiet e xs) as [e1 evs]. cbn in *.
  eapply processed_close; [by rewrite Hs|done|done].
Qed.

(** * Witnesses *)

Definition nse_classifier : MarketSessionClassifier := {|
  cls_schedule := nse_schedule;
  cls_calendar := {| closed_dates := ∅; open_sessions := ∅; weekend_days := list_to_set default_weekend |};
  cls_timezone := kolkata; cls_coverage := None |}.

Definition sample_tick_engine : TickEngine :=
  mk_tick_engine (mk_registry [reliance; infy]) (Some nse_classifier) (Some sample_engine)
    disabled_authority.

(** Inputs processed at their own event time. *)
Definition on_time (t : Tick) : MarketInput * instant * instant :=
  (InDatum (ATick t), tick_event_timestamp t, tick_event_timestamp t).

Definition reference_at (i : Instrument) (rupees : Z) (now : instant) : MarketInput * instant * instant :=
  (InReference {| ref_instrument := i; ref_previous_close := dec rupees 0 |}, now, now).

Definition two_stock_inputs : list (MarketInput * instant * instant) :=
  [on_time (trade reliance 9 20 100 5); on_time (trade infy 9 20 1500 7);
   on_time (trade reliance 9 21 102 9); on_time (trade reliance 9 21 102 9);
   on_time (trade infy 9 26 1490 8)].

Lemma tick_engine_invariant_witness :
  tick_engine_ok (process quiet sample_tick_engine (InDatum (ATick (trade reliance 9 20 100 5)))
    (at_local 9 20) (at_local 9 20)).1.1
  /\ te_sequence (process quiet sample_tick_engine (InDatum (ATick (trade reliance 9 20 100 5)))
    (at_local 9 20) (at_local 9 20)).1.1 = 1.
Proof.
  split; [|by vm_compute]. apply tick_engine_invariant.
  exists [reliance; infy], (Some nse_classifier), (Some sample_engine), disabled_authority.
  eapply rtc_once, step_process.
Defined.

Lemma instruments_independent_witness :
  view infy (process_all quiet sample_tick_engine two_stock_inputs).1
  = view infy (process_all quiet sample_tick_engine
      [on_time (trade infy 9 20 1500 7); on_time (trade infy 9 26 1490 8)]).1.
Proof.
  apply (instruments_independent sample_tick_engine infy two_stock_inputs).
  - intros c [= <-]. exact (mk_candle_engine_ok _ _ _ _ _ sample_engine_ok).
  - repeat constructor; apply trade_valid; reflexivity.
Defined.

(** The sequences and versions the stream above publishes: the repeated tick is
    a duplicate. *)
Lemma two_stock_trace :
  (fun c => (symbol (mc_instrument c), mc_version c, mc_sequence c))
    <$> (event_context <$> (process_all quiet sample_tick_engine two_stock_inputs).2)
  = [("RELIANCE", 1, 1); ("INFY", 1, 2); ("RELIANCE", 2, 3); ("INFY", 2, 4)].
Proof. vm_compute. reflexivity. Qed.

Lemma referenced_close :
  shows_close (process_all quiet sample_tick_engine [reference_at reliance 99 (at_local 9 10)]).1
    reliance sample_date (dec 99 0).
Proof.
  eexists _, _. split_and!; by vm_compute.
Qed.

Lemma previous_close_kept_witness :
  shows_close (process_all quiet (process_all quiet sample_tick_engine
      [reference_at reliance 99 (at_local 9 10)]).1
    [on_time (trade reliance 9 20 100 5); on_time (trade infy 9 20 1500 7)]).1
    reliance sample_date (dec 99 0).
Proof.
  apply (previous_close_kept nse_classifier).
  - by rewrite process_all_session.
  - exact referenced_close.
  - repeat constructor; by vm_compute.
Defined.

(** A tick of the previous trading date that arrives after the new session's
    reference clears the reference, and the next tick of the new date does not
    bring it back: the new session runs without a previous close. *)
Definition yesterday_tick : Tick := {|
  tick_instrument := reliance; tick_event_timestamp := at_local 15 29 - us_per_day;
  last_price := dec 99 0; tick_traded_quantity := Some 1; session_cumulative_volume := Some 1;
  tick_session_ohlc := None |}.

Definition shown_close (e : TickEngine) (i : Instrument) : option Decimal :=
  c ← is_context (prior_state e i); mc_previous_close c.

Lemma late_tick_erases_reference :
  shown_close (process_all quiet sample_tick_engine
    [reference_at reliance 99 (at_local 9 10); on_time (trade reliance 9 20 100 5)]).1 reliance
    = Some (dec 99 0)
  /\ shown_close (process_all quiet sample_tick_engine
    [reference_at reliance 99 (at_local 9 10);
     (InDatum (ATick yesterday_tick), at_local 9 11, at_local 9 11);
     on_time (trade reliance 9 20 100 5)]).1 reliance = None.
Proof. split; vm_compute; reflexivity. Qed.
