(* ===== verification/Requirements.v ===== *)
(** The union of historical requirements ([market_engine/historical/requirements.py]). *)
From S2P Require Import Prelude MarketData Timeframe Context.

Local Open Scope Z_scope.

(** * Definitions *)

Record HistoricalRequirement : Type := {
  req_timeframe : Timeframe;
  lookback : Z;
}.

#[global] Instance HistoricalRequirement_eq_dec : EqDecision HistoricalRequirement.
Proof. solve_decision. Defined.

(** [HistoricalRequirement(...)] *)
Definition mk_requirement (t : Timeframe) (n : Z) : result HistoricalRequirement :=
  _ ← raise_if (n <? 1) (ValueError "historical lookback must be a positive integer");
  Ok {| req_timeframe := t; lookback := n |}.

(** [_by_consumer]: each consumer's [frozenset], as its elements in some
    iteration order. *)
Definition HistoricalRequirementRegistry : Type := dict string (list HistoricalRequirement).

(** [register] *)
Definition register (self : HistoricalRequirementRegistry) (consumer_key : string)
    (requirements : list HistoricalRequirement) : result HistoricalRequirementRegistry :=
  _ ← raise_if (is_empty (strip consumer_key)) (ValueError "consumer key must be a non-empty string");
  Ok (dict_set consumer_key (remove_dups requirements) self).

(** [deregister] *)
Definition deregister (self : HistoricalRequirementRegistry) (consumer_key : string)
    : HistoricalRequirementRegistry := dict_pop consumer_key self.

(** One pass of the inner loop of [effective_requirements]. *)
Definition raise_lookback (max_lookback : dict Timeframe Z) (r : HistoricalRequirement)
    : dict Timeframe Z :=
  match dict_get (req_timeframe r) max_lookback with
  | Some current => if current <? lookback r then dict_set (req_timeframe r) (lookback r) max_lookback
                    else max_lookback
  | None => dict_set (req_timeframe r) (lookback r) max_lookback
  end.

Definition item_leb (a b : Timeframe * Z) : bool := timeframe_leb a.1 b.1.

(** [effective_requirements] *)
Definition effective_requirements (self : HistoricalRequirementRegistry)
    : result (list HistoricalRequirement) :=
  let max_lookback := fold_left (fun d reqs => fold_left raise_lookback reqs d) self.*2 [] in
  traverse (fun item => mk_requirement item.1 item.2) (py_sorted item_leb max_lookback).

(** * Lemmas *)

Definition requirement_valid (r : HistoricalRequirement) : Prop :=
  timeframe_valid (req_timeframe r) /\ 1 <= lookback r.

(** Every requirement a consumer has registered. *)
Definition all_requirements (self : HistoricalRequirementRegistry) : list HistoricalRequirement :=
  concat self.*2.

(** The largest lookback a list asks for at a timeframe. *)
Definition best_lookback (rs : list HistoricalRequirement) (t : Timeframe) (n : Z) : Prop :=
  {| req_timeframe := t; lookback := n |} ∈ rs
  /\ forall r, r ∈ rs -> req_timeframe r = t -> lookback r <= n.

Lemma best_lookback_fun rs t n m : best_lookback rs t n -> best_lookback rs t m -> n = m.
Proof.
  intros [H1 H2] [H3 H4]. specialize (H2 _ H3 eq_refl). specialize (H4 _ H1 eq_refl).
  cbn in *. lia.
Qed.

Lemma nested_fold (lss : list (list HistoricalRequirement)) d :
  fold_left (fun d reqs => fold_left raise_lookback reqs d) lss d = fold_left raise_lookback (concat lss) d.
Proof. revert d. induction lss as [|l ls IH]; intros d; cbn; [done|]. by rewrite fold_left_app, IH. Qed.

(** The best lookback seen so far at [t], as the loop keeps it. *)
Definition best_of (t : Timeframe) (rs : list HistoricalRequirement) (acc : option Z) : option Z :=
  fold_left (fun acc r =>
    if decide (req_timeframe r = t)
    then Some (match acc with Some c => Z.max c (lookback r) | None => lookback r end)
    else acc) rs acc.

Lemma raise_lookback_get t r d :
  dict_get t (raise_lookback d r) = best_of t [r] (dict_get t d).
Proof.
  unfold raise_lookback, best_of. cbn. destruct (decide (req_timeframe r = t)) as [<-|Ht].
  - destruct (dict_get (req_timeframe r) d) as [c|] eqn:E; [destruct (c <? lookback r) eqn:Hc|];
      zbool; rewrite ?dict_get_set, ?decide_True by done; rewrite ?E; f_equal; lia.
  - destruct (dict_get (req_timeframe r) d) as [c|]; [destruct (c <? lookback r)|];
      rewrite ?dict_get_set, ?decide_False by congruence; done.
Qed.

Lemma raise_all_get t rs d :
  dict_get t (fold_left raise_lookback rs d) = best_of t rs (dict_get t d).
Proof.
  revert d. induction rs as [|r rs IH]; intros d; cbn; [done|]. rewrite IH, raise_lookback_get. done.
Qed.

Lemma raise_all_NoDup rs d : NoDup d.*1 -> NoDup (fold_left raise_lookback rs d).*1.
Proof.
  revert d. induction rs as [|r rs IH]; intros d Hd; cbn; [done|]. apply IH.
  unfold raise_lookback. destruct (dict_get _ d); [destruct (_ <? _)|]; auto with apex.
Qed.

Lemma best_of_cases t rs :
  match best_of t rs None with
  | Some n => best_lookback rs t n
  | None => forall r, r ∈ rs -> req_timeframe r <> t
  end.
Proof.
  induction rs as [|r rs IH] using rev_ind; cbn; [intros r H; by apply elem_of_nil in H|].
  unfold best_of in *. rewrite fold_left_app. cbn. destruct (decide (req_timeframe r = t)) as [<-|Ht].
  - destruct (fold_left _ rs None) as [c|].
    + destruct IH as [H1 H2]. split.
      * destruct (Z.max_spec c (lookback r)) as [[_ ->]|[_ ->]]; [|set_solver].
        destruct r. set_solver.
      * intros x [Hx|Hx%list_elem_of_singleton]%elem_of_app Hq; [|subst x; lia].
        specialize (H2 x Hx Hq). lia.
    + split; [destruct r; set_solver|].
      intros x [Hx|Hx%list_elem_of_singleton]%elem_of_app Hq; [|subst x; lia]. by apply IH in Hx.
  - destruct (fold_left _ rs None) as [c|].
    + destruct IH as [H1 H2]. split; [set_solver|].
      intros x [Hx|Hx%list_elem_of_singleton]%elem_of_app Hq; [auto|congruence].
    + intros x [Hx|Hx%list_elem_of_singleton]%elem_of_app; [auto|congruence].
Qed.

(** The dictionary after the loop: one entry per timeframe, its best lookback. *)
Lemma raise_all_spec rs t n :
  dict_get t (fold_left raise_lookback rs []) = Some n <-> best_lookback rs t n.
Proof.
  rewrite raise_all_get. cbn. pose proof (best_of_cases t rs) as H.
  destruct (best_of t rs None) as [m|].
  - split; [intros [= <-]; done|]. intros Hb. f_equal. by eapply best_lookback_fun.
  - split; [done|]. intros [Hb _]. by apply H in Hb.
Qed.

Lemma item_leb_total a b : item_leb a b = true \/ item_leb b a = true.
Proof. apply timeframe_leb_total. Qed.

Lemma item_leb_trans a b c : item_leb a b = true -> item_leb b c = true -> item_leb a c = true.
Proof. apply timeframe_leb_trans. Qed.

Lemma best_valid rs t n :
  Forall requirement_valid rs -> best_lookback rs t n -> timeframe_valid t /\ 1 <= n.
Proof. intros Hv [Hin _]. rewrite Forall_forall in Hv. by apply Hv in Hin. Qed.

(** The effective union never raises on constructed requirements. *)
Lemma effective_requirements_ok self :
  Forall requirement_valid (all_requirements self) ->
  effective_requirements self
  = Ok ((fun p => {| req_timeframe := p.1; lookback := p.2 |})
          <$> py_sorted item_leb (fold_left raise_lookback (all_requirements self) [])).
Proof.
  intros Hv. unfold effective_requirements. rewrite nested_fold. apply traverse_ok.
  apply Forall2_fmap_r, Forall_Forall2_diag. apply Forall_py_sorted, Forall_forall.
  intros [t n] Hp. apply dict_elem_get in Hp; [|apply raise_all_NoDup; constructor].
  apply raise_all_spec in Hp. apply (best_valid _ _ _ Hv) in Hp as [_ Hn].
  unfold mk_requirement. cbn. by rewrite (proj2 (Z.ltb_ge _ _)).
Qed.

(** * Properties *)

(** The effective requirements are the union the documentation promises:
    exactly one requirement per requested timeframe, with the largest lookback
    any consumer registered for it, in strictly increasing timeframe order
    (intraday by duration, the session last), and the same for any two
    registries holding the same requirements, whatever the registration order,
    the grouping by consumer or the iteration order of the sets. *)
Theorem effective_requirements_union (self other : HistoricalRequirementRegistry)
    (Hvalid : Forall requirement_valid (all_requirements self))
    (Hsame : forall r, r ∈ all_requirements self <-> r ∈ all_requirements other) :
  exists reqs, effective_requirements self = Ok reqs /\ effective_requirements other = Ok reqs
    /\ NoDup (req_timeframe <$> reqs)
    /\ StronglySorted (fun a b => timeframe_leb (req_timeframe a) (req_timeframe b) = true) reqs
    /\ forall r, r ∈ reqs <-> best_lookback (all_requirements self) (req_timeframe r) (lookback r).
Proof.
  assert (Forall requirement_valid (all_requirements other)) as Hvalid'.
  { rewrite Forall_forall in *. intros r Hr. by apply Hvalid, Hsame. }
  rewrite (effective_requirements_ok self), (effective_requirements_ok other) by done.
  set (d := fold_left raise_lookback (all_requirements self) []).
  set (d' := fold_left raise_lookback (all_requirements other) []).
  assert (NoDup d.*1) as Hd by (apply raise_all_NoDup; constructor).
  assert (NoDup d'.*1) as Hd' by (apply raise_all_NoDup; constructor).
  assert (forall t n, (t, n) ∈ d <-> best_lookback (all_requirements self) t n) as Hel.
  { intros t n. rewrite <- raise_all_spec. fold d. split; [by apply dict_elem_get|apply dict_get_elem]. }
  assert (forall t n, (t, n) ∈ d' <-> (t, n) ∈ d) as Hel'.
  { intros t n. rewrite Hel. split.
    - intros Hp. apply dict_elem_get, raise_all_spec in Hp; [|done].
      destruct Hp as [H1 H2]. split; [by apply Hsame|]. intros r Hr. by apply H2, Hsame.
    - intros [H1 H2]. apply dict_get_elem, raise_all_spec. split; [by apply Hsame|].
      intros r Hr. by apply H2, Hsame. }
  assert (py_sorted item_leb d = py_sorted item_leb d') as Hsort.
  { apply py_sorted_unique; [apply item_leb_total|apply item_leb_trans| |].
    - intros [t n] [t' n'] H1 H2 L1 L2.
      assert (t = t') as <-.
      { apply timeframe_leb_antisym; try done; eapply (best_valid _ _ _ Hvalid); by apply Hel. }
      f_equal. by eapply best_lookback_fun; apply Hel.
    - apply NoDup_Permutation; [by apply NoDup_fmap_1 with fst|by apply NoDup_fmap_1 with fst|].
      intros [t n]. by rewrite Hel'. }
  eexists. split_and!; [done|by rewrite Hsort| | |].
  - rewrite <- list_fmap_compose. change (NoDup ((py_sorted item_leb d).*1)).
    by rewrite py_sorted_perm.
  - pose proof (py_sorted_sorted item_leb item_leb_total item_leb_trans d) as Hs.
    clear -Hs. induction Hs as [|x l Hs IH Hx]; cbn; [constructor|]. constructor; [exact IH|].
    rewrite Forall_fmap. eapply Forall_impl; [exact Hx|]. done.
  - intros [t n]. cbn. rewrite <- Hel, list_elem_of_fmap. split.
    + intros ([t' n'] & [= -> ->] & H). by apply elem_of_py_sorted in H.
    + intros H. exists (t, n). split; [done|]. by apply elem_of_py_sorted.
Qed.

Lemma effective_requirements_union_witness :
  exists reqs,
    effective_requirements
      [("a", [{| req_timeframe := tf 15; lookback := 20 |}; {| req_timeframe := tf 5; lookback := 3 |}]);
       ("b", [{| req_timeframe := tf 5; lookback := 50 |}])] = Ok reqs
    /\ effective_requirements
      [("b", [{| req_timeframe := tf 5; lookback := 50 |}; {| req_timeframe := tf 5; lookback := 3 |}]);
       ("c", [{| req_timeframe := tf 15; lookback := 20 |}])] = Ok reqs
    /\ reqs = [{| req_timeframe := tf 5; lookback := 50 |}; {| req_timeframe := tf 15; lookback := 20 |}].
Proof.
  destruct (effective_requirements_union
    [("a", [{| req_timeframe := tf 15; lookback := 20 |}; {| req_timeframe := tf 5; lookback := 3 |}]);
       ("b", [{| req_timeframe := tf 5; lookback := 50 |}])]
    [("b", [{| req_timeframe := tf 5; lookback := 50 |}; {| req_timeframe := tf 5; lookback := 3 |}]);
       ("c", [{| req_timeframe := tf 15; lookback := 20 |}])]) as (reqs & H1 & H2 & _).
  - repeat constructor; by vm_compute.
  - cbn. set_solver.
  - exists reqs. split_and!; [exact H1|exact H2|]. vm_compute in H1. injection H1 as <-. reflexivity.
Defined.
