(* ===== verification/Resampling.v ===== *)
(** Exact reconstruction of larger candles from smaller authoritative ones
    ([market_engine/historical/resampling.py]) and the re-stamping of daily bars
    to session identity ([historical/session_candles.py]). *)
From S2P Require Import Prelude PyTime MarketData Timeframe Session Buckets Context Samples.

Local Open Scope Z_scope.

(** * Choosing a base *)

(** [divides_exactly] *)
Definition divides_exactly (target base : Timeframe) : bool :=
  match duration target, duration base with
  | Some t, Some b => if t <=? b then false else t mod b =? 0
  | _, _ => false
  end.

(** [max(candidates, key=duration)]: the first of the longest. *)
Definition longer (best candidate : Timeframe) : Timeframe :=
  if default 0 (duration best) <? default 0 (duration candidate) then candidate else best.

(** [select_base]; [direct] is the set in some iteration order. *)
Definition select_base (target : Timeframe) (direct : list Timeframe) : option Timeframe :=
  if is_session target || negb (is_not_none (duration target)) then None
  else match filter (fun base => divides_exactly target base) direct with
       | [] => None
       | c :: cs => Some (fold_left longer cs c)
       end.

(** * Proving and aggregating one bucket *)

(** [_contiguous_and_sized]: the loop with the previous candle's end. *)
Fixpoint contiguous_from (previous_end : option instant) (ordered : list Candle)
    (source_duration : timedelta) (session_close : instant) : bool :=
  match ordered with
  | [] => true
  | c :: rest =>
      let width := end_timestamp c - start_timestamp c in
      if negb (width =? source_duration) && negb (end_timestamp c =? session_close) then false
      else if match previous_end with
              | Some p => negb (start_timestamp c =? p)
              | None => false
              end then false
      else contiguous_from (Some (end_timestamp c)) rest source_duration session_close
  end.

Definition contiguous_and_sized (ordered : list Candle) (source_duration : timedelta)
    (session_close : instant) : bool :=
  contiguous_from None ordered source_duration session_close.

Definition by_start (a b : Candle) : bool := start_timestamp a <=? start_timestamp b.

(** [_prove_and_aggregate] *)
Definition prove_and_aggregate (constituents : list Candle) (start stop : instant)
    (source_duration : timedelta) (session_close : instant) : option Candle :=
  match py_sorted by_start constituents with
  | [] => None
  | first :: rest =>
      let final := List.last rest first in
      if negb (start_timestamp first =? start) || negb (end_timestamp final =? stop) then None
      else if negb (contiguous_and_sized (first :: rest) source_duration session_close) then None
      else Some {|
        candle_instrument := candle_instrument first;
        start_timestamp := start; end_timestamp := stop;
        open_price := open_price first;
        high_price := dec_maximum (high_price first) (high_price <$> rest);
        low_price := dec_minimum (low_price first) (low_price <$> rest);
        close_price := close_price final;
        traded_quantity := z_sum (traded_quantity <$> (first :: rest)) |}
  end.

(** * Reconstruction *)

(** [_group_by_trading_date] *)
Definition group_by_trading_date (candles : list Candle) (tz : ZoneInfo) : dict Z (list Candle) :=
  group_by (fun c => local_date tz (start_timestamp c)) candles.

(** [_group_by_bucket_index] *)
Definition group_by_bucket_index (day_candles : list Candle) (trading_date : date)
    (target : Timeframe) (interval : TradingInterval) (tz : ZoneInfo) : dict Z (list Candle) :=
  group_by (fun c => (bucket_bounds (start_timestamp c) trading_date target interval tz).1.1) day_candles.

Definition one_minute : Timeframe := {| kind := INTRADAY; duration := Some us_per_minute |}.

(** [_reconstruct_interval] *)
Definition reconstruct_interval (trading_date : date) (day_candles : list Candle)
    (target : Timeframe) (source_duration : timedelta) (interval : TradingInterval)
    (tz : ZoneInfo) : list Candle :=
  let interval_close :=
    (bucket_bounds (wall_to_utc tz (combine trading_date (interval_end interval))) trading_date
       one_minute interval tz).2 in
  let by_index := group_by_bucket_index day_candles trading_date target interval tz in
  omap (fun b : Z * instant * instant =>
    let '(index, start, stop) := b in
    prove_and_aggregate (default [] (dict_get index by_index)) start stop source_duration
      interval_close)
    (session_buckets trading_date target interval tz).

(** The body of the date loop of [reconstruct_series]. *)
Definition reconstruct_date (by_date : dict Z (list Candle)) (target : Timeframe)
    (source_duration : timedelta) (effective : EffectiveSchedule) (calendar : TradingCalendar)
    (tz : ZoneInfo) (trading_date : date) : list Candle :=
  if negb (is_trading_day calendar trading_date) then []
  else if bool_decide (trading_date ∈ open_sessions calendar)
          && negb (has_override effective trading_date) then []
  else mjoin ((fun interval =>
         reconstruct_interval trading_date (default [] (dict_get trading_date by_date)) target
           source_duration interval tz) <$> intervals_for effective trading_date).

(** [reconstruct_series] *)
Definition reconstruct_series (source : HistoricalSeries) (target : Timeframe)
    (effective : EffectiveSchedule) (calendar : TradingCalendar) (tz : ZoneInfo)
    : result (option HistoricalSeries) :=
  _ ← raise_if (negb (divides_exactly target (hs_timeframe source)))
    (ValueError "target timeframe must be exactly divisible by the source timeframe");
  match duration (hs_timeframe source) with
  | None => Ok None
  | Some source_duration =>
      let by_date := group_by_trading_date (hs_candles source) tz in
      let reconstructed :=
        mjoin (reconstruct_date by_date target source_duration effective calendar tz
                 <$> py_sorted Z.leb by_date.*1) in
      match reconstructed with
      | [] => Ok None
      | _ => Some <$> mk_series target reconstructed
      end
  end.

(** * Session identity of daily bars *)

(** [canonicalize_session_candle]; [IndexError] of an empty override cannot
    happen, see [envelope_for]. *)
Definition canonicalize_session_candle (c : Candle) (effective : EffectiveSchedule)
    (calendar : TradingCalendar) (tz : ZoneInfo) : option Candle :=
  let trading_date := local_date tz (start_timestamp c) in
  if negb (is_trading_day calendar trading_date) then None
  else envelope ← envelope_for effective trading_date;
       let '(_, start_utc, end_utc) :=
         bucket_bounds (start_timestamp c) trading_date session_timeframe envelope tz in
       Some {| candle_instrument := candle_instrument c;
               start_timestamp := start_utc; end_timestamp := end_utc;
               open_price := open_price c; high_price := high_price c; low_price := low_price c;
               close_price := close_price c; traded_quantity := traded_quantity c |}.

(** The [seen] loop of [canonical_session_series]. *)
Fixpoint canonical_from (seen : list (instant * instant)) (candles : list Candle)
    (effective : EffectiveSchedule) (calendar : TradingCalendar) (tz : ZoneInfo) : list Candle :=
  match candles with
  | [] => []
  | c :: rest =>
      match canonicalize_session_candle c effective calendar tz with
      | None => canonical_from seen rest effective calendar tz
      | Some s =>
          let identity := (start_timestamp s, end_timestamp s) in
          if bool_decide (identity ∈ seen) then canonical_from seen rest effective calendar tz
          else s :: canonical_from (identity :: seen) rest effective calendar tz
      end
  end.

(** [canonical_session_series] *)
Definition canonical_session_series (candles : list Candle) (effective : EffectiveSchedule)
    (calendar : TradingCalendar) (tz : ZoneInfo) : list Candle :=
  canonical_from [] candles effective calendar tz.

(** * Specification *)

(** The candles [run] cover [[s, e)] end to end, without gap or overlap. *)
Fixpoint tiles (s : instant) (run : list Candle) (e : instant) : Prop :=
  match run with
  | [] => s = e
  | c :: rest => start_timestamp c = s /\ tiles (end_timestamp c) rest e
  end.

(** Of the source width, or cut short by the session close. *)
Definition sized (d : timedelta) (close : instant) (c : Candle) : Prop :=
  end_timestamp c - start_timestamp c = d \/ end_timestamp c = close.

(** [c] is the OHLCV of a run. *)
Record aggregates (run : list Candle) (c : Candle) : Prop := {
  agg_instrument : head (candle_instrument <$> run) = Some (candle_instrument c);
  agg_open : head (open_price <$> run) = Some (open_price c);
  agg_close : last (close_price <$> run) = Some (close_price c);
  agg_high : high_price c ∈ (high_price <$> run);
  agg_high_ub : Forall (fun x => (high_price x <= high_price c)%Qc) run;
  agg_low : low_price c ∈ (low_price <$> run);
  agg_low_lb : Forall (fun x => (low_price c <= low_price x)%Qc) run;
  agg_volume : traded_quantity c = z_sum (traded_quantity <$> run);
}.

(** * Lemmas *)

Lemma by_start_total a b : by_start a b = true \/ by_start b a = true.
Proof. unfold by_start. lia. Qed.

Lemma by_start_trans a b c : by_start a b = true -> by_start b c = true -> by_start a c = true.
Proof. unfold by_start. lia. Qed.

Lemma tiles_end s cs e : tiles s cs e -> e = List.last (end_timestamp <$> cs) s.
Proof.
  revert s. induction cs as [|c cs IH]; intros s; cbn [tiles]; [done|]. intros [_ H].
  rewrite fmap_cons, last_cons_default. by apply IH.
Qed.

Lemma contiguous_from_spec p cs d close :
  contiguous_from (Some p) cs d close = true
  <-> tiles p cs (List.last (end_timestamp <$> cs) p) /\ Forall (sized d close) cs.
Proof.
  revert p. induction cs as [|c cs IH]; intros p; [by cbn; repeat split; constructor|].
  cbn [contiguous_from tiles]. rewrite fmap_cons, last_cons_default, Forall_cons.
  unfold sized at 1.
  destruct (negb (_ =? d) && negb (_ =? close)) eqn:E1; [|destruct (negb (start_timestamp c =? p)) eqn:E2].
  - split; [done|]. intros [_ [[?|?] _]]; zbool; lia.
  - split; [done|]. intros [[? _] _]. zbool. lia.
  - rewrite IH. zbool. split.
    + intros [? ?]. split_and!; try done. destruct E1 as [?|?]; zbool; auto.
    + by intros [[_ ?] [_ ?]].
Qed.

Lemma contiguous_spec c cs d close s e :
  (start_timestamp c = s /\ end_timestamp (List.last cs c) = e
   /\ contiguous_and_sized (c :: cs) d close = true)
  <-> tiles s (c :: cs) e /\ Forall (sized d close) (c :: cs).
Proof.
  assert (contiguous_and_sized (c :: cs) d close
    = contiguous_from (Some (start_timestamp c)) (c :: cs) d close) as ->.
  { unfold contiguous_and_sized. cbn [contiguous_from]. rewrite (Z.eqb_refl (start_timestamp c)). done. }
  assert (end_timestamp (List.last cs c)
    = List.last (end_timestamp <$> (c :: cs)) (start_timestamp c)) as ->.
  { by rewrite fmap_cons, last_cons_default, (last_fmap_default end_timestamp). }
  rewrite contiguous_from_spec. split.
  - by intros (<- & <- & ?).
  - intros [Ht Hs]. pose proof (tiles_end _ _ _ Ht) as He. pose proof Ht as [<- _].
    rewrite He in Ht. done.
Qed.

(** A run of valid candles that tiles an interval is strictly ordered. *)
Lemma tiles_sorted s cs e :
  Forall candle_valid cs -> tiles s cs e ->
  StronglySorted (fun a b => start_timestamp a < start_timestamp b) cs
  /\ Forall (fun c => s <= start_timestamp c) cs.
Proof.
  intros Hv. revert s. induction Hv as [|c cs Hc Hv IH]; intros s; [repeat constructor|].
  cbn [tiles]. intros [<- Ht]. destruct (IH _ Ht) as [H1 H2]. destruct Hc as [? ? ? ? ? Hlt ?]. split.
  - constructor; [done|]. eapply Forall_impl; [exact H2|]. cbn. lia.
  - constructor; [lia|]. eapply Forall_impl; [exact H2|]. cbn. lia.
Qed.

Lemma tiles_py_sorted s run cs e :
  Forall candle_valid run -> tiles s run e -> run ≡ₚ cs -> py_sorted by_start cs = run.
Proof.
  intros Hv Ht Hp. destruct (tiles_sorted s run e Hv Ht) as [Hs _].
  assert (StronglySorted (fun a b => by_start a b = true) run) as Hle.
  { clear -Hs. induction Hs as [|x l Hs IH Hx]; constructor; [done|].
    eapply Forall_impl; [exact Hx|]. unfold by_start. cbn. lia. }
  rewrite <- (py_sorted_unique by_start by_start_total by_start_trans run cs); [by apply py_sorted_id| |done].
  intros x y Hx Hy L1 L2. unfold by_start in L1, L2.
  assert (start_timestamp x = start_timestamp y) as He by lia. clear -Hs Hx Hy He.
  induction Hs as [|z l Hs IH Hz]; [by apply elem_of_nil in Hx|].
  rewrite Forall_forall in Hz.
  apply elem_of_cons in Hx as [->|Hx], Hy as [->|Hy]; [done|..].
  - apply Hz in Hy. lia.
  - apply Hz in Hx. lia.
  - auto.
Qed.

(** The candle emitted for a run. *)
Definition aggregate_of (first : Candle) (rest : list Candle) (s e : instant) : Candle := {|
  candle_instrument := candle_instrument first; start_timestamp := s; end_timestamp := e;
  open_price := open_price first;
  high_price := dec_maximum (high_price first) (high_price <$> rest);
  low_price := dec_minimum (low_price first) (low_price <$> rest);
  close_price := close_price (List.last rest first);
  traded_quantity := z_sum (traded_quantity <$> (first :: rest)) |}.

Lemma aggregate_of_aggregates first rest s e : aggregates (first :: rest) (aggregate_of first rest s e).
Proof.
  destruct (dec_maximum_spec (high_price first) (high_price <$> rest)) as [Hh1 Hh2].
  destruct (dec_minimum_spec (low_price first) (low_price <$> rest)) as [Hl1 Hl2].
  rewrite <- fmap_cons in Hh1, Hh2, Hl1, Hl2. rewrite Forall_fmap in Hh2, Hl2.
  split; try done. rewrite fmap_cons, last_default. cbn. by rewrite (last_fmap_default close_price).
Qed.

Lemma prove_and_aggregate_spec cs s e d close c :
  prove_and_aggregate cs s e d close = Some c
  <-> exists first rest, py_sorted by_start cs = first :: rest
      /\ tiles s (first :: rest) e /\ Forall (sized d close) (first :: rest)
      /\ c = aggregate_of first rest s e.
Proof.
  unfold prove_and_aggregate. destruct (py_sorted by_start cs) as [|first rest].
  { split; [done|]. by intros (? & ? & ? & _). }
  pose proof (contiguous_spec first rest d close s e) as Hc.
  destruct (negb (start_timestamp first =? s) || _) eqn:E1; [|destruct (negb (contiguous_and_sized _ _ _)) eqn:E2].
  - split; [done|]. intros (f & r & [= <- <-] & Ht & Hs & _).
    destruct (proj2 Hc (conj Ht Hs)) as (H1 & H2 & _). apply orb_true_iff in E1 as [?|?]; zbool; lia.
  - split; [done|]. intros (f & r & [= <- <-] & Ht & Hs & _).
    destruct (proj2 Hc (conj Ht Hs)) as (_ & _ & H3). by rewrite H3 in E2.
  - zbool. split.
    + intros [= <-]. exists first, rest. destruct (proj1 Hc) as [? ?]; [done|]. done.
    + by intros (f & r & [= <- <-] & _ & _ & ->).
Qed.

(** Aggregation keeps the canonical candle's own constraints. *)
Lemma aggregates_valid run c s e :
  run <> [] -> Forall candle_valid run -> tiles s run e -> aggregates run c ->
  start_timestamp c = s -> end_timestamp c = e -> candle_valid c.
Proof.
  intros Hne Hv Ht [_ Ho Hcl Hh Hhub Hl Hllb Hq] Hs He.
  rewrite Forall_forall in Hv, Hhub, Hllb.
  assert (exists x, x ∈ run /\ open_price c = open_price x) as (xo & Hxo & Eo).
  { destruct run as [|x r]; [done|]. injection Ho as <-. exists x. split; [left|done]. }
  assert (exists x, x ∈ run /\ close_price c = close_price x) as (xc & Hxc & Ec).
  { apply last_Some_elem_of, list_elem_of_fmap in Hcl as (x & -> & Hx). eauto. }
  apply list_elem_of_fmap in Hl as (xl & El & Hxl).
  pose proof (Hv _ Hxo) as []. pose proof (Hv _ Hxc) as []. pose proof (Hv _ Hxl) as [].
  pose proof (Hhub _ Hxo). pose proof (Hllb _ Hxo). pose proof (Hhub _ Hxc). pose proof (Hllb _ Hxc).
  cbn in *. split.
  - rewrite El. done.
  - rewrite Eo. dec_order.
  - rewrite Eo. dec_order.
  - rewrite Ec. dec_order.
  - rewrite Ec. dec_order.
  - destruct run as [|x r]; [done|]. destruct Ht as [E1 Ht].
    assert (candle_valid x) as [] by (apply Hv; left).
    assert (end_timestamp x <= e); [|lia].
    assert (Forall candle_valid r) as Hr by (apply Forall_forall; intros y Hy; apply Hv; by right).
    clear -Hr Ht. revert Ht. generalize (end_timestamp x). induction Hr as [|y r [] Hr IH]; cbn; intros z; [lia|].
    intros [? Ht]. apply IH in Ht. lia.
  - rewrite Hq. apply z_sum_nonneg. rewrite Forall_fmap. apply Forall_forall. intros x Hx. apply Hv, Hx.
Qed.

(** ** Ordered concatenations *)

Lemma StronglySorted_omap {A B} (R : A -> A -> Prop) (R' : B -> B -> Prop) (f : A -> option B) l :
  StronglySorted R l ->
  (forall a b x y, f a = Some x -> f b = Some y -> R a b -> R' x y) ->
  StronglySorted R' (omap f l).
Proof.
  intros Hs Hf. induction Hs as [|a l Hs IH Ha]; cbn; [constructor|].
  destruct (f a) as [x|] eqn:E; [|done]. constructor; [done|].
  rewrite Forall_forall in Ha. apply Forall_forall. intros y (b & Hb & Hy)%list_elem_of_omap.
  eapply Hf; eauto.
Qed.

Lemma StronglySorted_app_2 {A} (R : A -> A -> Prop) l1 l2 :
  StronglySorted R l1 -> StronglySorted R l2 ->
  (forall x y, x ∈ l1 -> y ∈ l2 -> R x y) -> StronglySorted R (l1 ++ l2).
Proof.
  intros H1 H2 H. induction H1 as [|x l1 H1 IH Hx]; [done|]. cbn. constructor.
  - apply IH. intros. apply H; [by right|done].
  - apply Forall_app. split; [done|]. apply Forall_forall. intros y Hy. apply H; [left|done].
Qed.

Lemma StronglySorted_mjoin {A B} (R : A -> A -> Prop) (R' : B -> B -> Prop) (g : A -> list B) l :
  StronglySorted R l -> (forall a, a ∈ l -> StronglySorted R' (g a)) ->
  (forall a b x y, a ∈ l -> b ∈ l -> R a b -> x ∈ g a -> y ∈ g b -> R' x y) ->
  StronglySorted R' (mjoin (g <$> l)).
Proof.
  intros Hs Hg Hc. induction Hs as [|a l Hs IH Ha]; cbn; [constructor|].
  apply StronglySorted_app_2.
  - apply Hg. left.
  - apply IH; [intros; apply Hg; by right|]. intros ? ? ? ? ? ?. apply Hc; by right.
  - rewrite Forall_forall in Ha. intros x y Hx (ys & Hy & (b & -> & Hb)%list_elem_of_fmap)%list_elem_of_join.
    eapply (Hc a b); eauto; [left|by right].
Qed.

Lemma elem_of_mjoin_fmap {A B} (g : A -> list B) l y :
  y ∈ mjoin (g <$> l) <-> exists a, a ∈ l /\ y ∈ g a.
Proof.
  rewrite list_elem_of_join. split.
  - intros (ys & Hy & (a & -> & Ha)%list_elem_of_fmap). eauto.
  - intros (a & Ha & Hy). exists (g a). split; [done|]. apply list_elem_of_fmap. eauto.
Qed.

(** ** Series built from ordered candles *)

Lemma chronological_adjacent cs :
  Forall candle_valid cs -> chronological cs ->
  for_each validate_adjacent (pairwise cs) = Ok tt.
Proof.
  unfold chronological. induction cs as [|a cs IH]; intros Hv Hc; [done|].
  destruct cs as [|b cs]; [done|].
  apply Forall_cons in Hv as [[] Hv]. inversion Hc as [|? ? Hc' Hall]; subst.
  rewrite pairwise_cons. cbn [for_each]. apply bind_ok. exists tt. split; [|by apply IH].
  apply Forall_cons in Hall as [Hab _]. pose proof (Forall_inv Hv) as [].
  unfold validate_adjacent. rewrite (proj2 (Z.eqb_neq _ _)) by lia. cbn.
  by rewrite (proj2 (Z.ltb_ge _ _)) by lia.
Qed.

Lemma chronological_candle_leb cs :
  Forall candle_valid cs -> chronological cs ->
  StronglySorted (fun a b => candle_leb a b = true) cs.
Proof.
  intros Hv Hc. induction Hc as [|a cs Hc IH Ha]; constructor; apply Forall_cons in Hv as [[] Hv].
  - by apply IH.
  - eapply Forall_impl; [exact Ha|]. cbn. unfold candle_leb. intros b Hb.
    by rewrite (proj2 (Z.ltb_lt _ _)) by lia.
Qed.

Lemma mk_series_intro t i cs :
  cs <> [] -> Forall candle_valid cs -> Forall (fun c => candle_instrument c = i) cs ->
  chronological cs -> mk_series t cs = Ok {| hs_timeframe := t; hs_candles := cs |}.
Proof.
  intros Hne Hv Hi Hc. unfold mk_series.
  rewrite py_sorted_id by by apply chronological_candle_leb.
  destruct cs as [|c cs]; [done|]. cbn [raise_if mbind result_bind].
  assert (distinct_instruments (c :: cs) = {[i]}) as ->.
  { unfold distinct_instruments. apply set_eq. intros x.
    rewrite elem_of_list_to_set, elem_of_singleton, list_elem_of_fmap. split.
    - intros (y & -> & Hy). rewrite Forall_forall in Hi. by apply Hi.
    - intros ->. exists c. split; [|left]. by apply Forall_cons in Hi as [-> _]. }
  rewrite size_singleton. change (negb (1 =? 1)%nat) with false. cbn [raise_if mbind result_bind].
  by rewrite chronological_adjacent.
Qed.

Lemma chronological_by_start cs :
  Forall candle_valid cs -> chronological cs ->
  StronglySorted (fun a b => by_start a b = true) cs.
Proof.
  intros Hv Hc. induction Hc as [|a cs Hc IH Ha]; constructor; apply Forall_cons in Hv as [[] Hv].
  - by apply IH.
  - eapply Forall_impl; [exact Ha|]. cbn. unfold by_start. lia.
Qed.

(** ** Reconstruction of a day *)

Section Reconstruct.
Context (tz : ZoneInfo) (off : timedelta) `{!FixedOffset tz off}.
Context (target : Timeframe) (Htarget : timeframe_valid target) (sd : timedelta).

(** The close of an interval as [_reconstruct_interval] computes it. *)
Definition interval_close_utc (td : date) (iv : TradingInterval) : instant :=
  wall_to_utc tz (combine td (interval_end iv)).

Lemma interval_close_eq td iv :
  interval_start iv < interval_end iv ->
  (bucket_bounds (wall_to_utc tz (combine td (interval_end iv))) td one_minute iv tz).2
  = interval_close_utc td iv.
Proof using FixedOffset0.
  intros Hlt. unfold bucket_bounds, interval_close_utc. cbn [duration one_minute snd].
  rewrite (wall_utc_roundtrip tz off). f_equal.
  set (o := combine td (interval_start iv)). set (c := combine td (interval_end iv)).
  assert (0 < us_per_minute) as Hm by done.
  pose proof (Z.mul_succ_div_gt (c - o) us_per_minute Hm). lia.
Qed.

(** The source candles that fall on bucket [index] of an interval of a date. *)
Definition constituents (candles : list Candle) (td : date) (iv : TradingInterval) (index : Z)
    : list Candle :=
  filter (fun c => (bucket_bounds (start_timestamp c) td target iv tz).1.1 = index)
    (filter (fun c => local_date tz (start_timestamp c) = td) candles).

(** What reconstruction may emit: the aggregate of the source candles of one
    bucket of one live interval of an eligible trading date, when they tile the
    bucket exactly in source-width steps. *)
Definition emitted (candles : list Candle) (effective : EffectiveSchedule)
    (calendar : TradingCalendar) (td : date) (iv : TradingInterval) (c : Candle) : Prop :=
  is_trading_day calendar td = true
  /\ (td ∈ open_sessions calendar -> has_override effective td = true)
  /\ iv ∈ intervals_for effective td
  /\ exists index, (index, start_timestamp c, end_timestamp c) ∈ session_buckets td target iv tz
     /\ let run := constituents candles td iv index in
        run <> [] /\ tiles (start_timestamp c) run (end_timestamp c)
        /\ Forall (sized sd (interval_close_utc td iv)) run /\ aggregates run c.

Lemma aggregates_unique first rest s e c :
  aggregates (first :: rest) c -> start_timestamp c = s -> end_timestamp c = e ->
  c = aggregate_of first rest s e.
Proof using Type.
  intros [A1 A2 A3 A4 A5 A6 A7 A8] Hs He.
  destruct (aggregate_of_aggregates first rest s e) as [B1 B2 B3 B4 B5 B6 B7 B8].
  set (g := aggregate_of first rest s e) in *.
  rewrite Forall_forall in A5, A7, B5, B7.
  assert (high_price c = high_price g) as Hh.
  { apply list_elem_of_fmap in A4 as (x & Ex & Hx), B4 as (y & Ey & Hy).
    apply Qcle_antisym; [rewrite Ex; by apply B5|rewrite Ey; by apply A5]. }
  assert (low_price c = low_price g) as Hl.
  { apply list_elem_of_fmap in A6 as (x & Ex & Hx), B6 as (y & Ey & Hy).
    apply Qcle_antisym; [rewrite Ey; by apply A7|rewrite Ex; by apply B7]. }
  assert (start_timestamp g = s /\ end_timestamp g = e) as [Es Ee] by done.
  clearbody g. destruct c, g. cbn in *. congruence.
Qed.

Lemma constituents_sorted candles td iv index :
  Forall candle_valid candles -> chronological candles ->
  py_sorted by_start (constituents candles td iv index) = constituents candles td iv index.
Proof using Type.
  intros Hv Hc. apply py_sorted_id. unfold constituents.
  do 2 apply StronglySorted_filter. by apply chronological_by_start.
Qed.

Lemma elem_of_reconstruct_interval candles td iv c :
  Forall candle_valid candles -> chronological candles -> interval_start iv < interval_end iv ->
  c ∈ reconstruct_interval td (filter (fun c => local_date tz (start_timestamp c) = td) candles)
        target sd iv tz
  <-> exists index, (index, start_timestamp c, end_timestamp c) ∈ session_buckets td target iv tz
     /\ let run := constituents candles td iv index in
        run <> [] /\ tiles (start_timestamp c) run (end_timestamp c)
        /\ Forall (sized sd (interval_close_utc td iv)) run /\ aggregates run c.
Proof using FixedOffset0.
  intros Hv Hc Hiv. unfold reconstruct_interval. rewrite interval_close_eq by done.
  rewrite list_elem_of_omap. unfold group_by_bucket_index. split.
  - intros ([[i s] e] & Hb & Hp). rewrite group_by_get in Hp.
    apply prove_and_aggregate_spec in Hp as (f & r & Hs & Ht & Hz & ->).
    change (filter _ (filter _ candles)) with (constituents candles td iv i) in Hs.
    rewrite constituents_sorted in Hs by done.
    exists i. split; [done|]. cbn zeta. rewrite Hs. split_and!; try done. apply aggregate_of_aggregates.
  - intros (i & Hb & Hne & Ht & Hz & Ha). exists (i, start_timestamp c, end_timestamp c).
    split; [done|]. rewrite group_by_get. apply prove_and_aggregate_spec.
    change (filter _ (filter _ candles)) with (constituents candles td iv i).
    rewrite constituents_sorted by done.
    destruct (constituents candles td iv i) as [|f r]; [done|].
    exists f, r. split_and!; try done. by apply aggregates_unique.
Qed.

(** The buckets of an intraday interval are in chronological order. *)
Lemma session_buckets_sorted td iv :
  duration target <> None ->
  StronglySorted (fun a b : Z * instant * instant => a.2 <= b.1.2) (session_buckets td target iv tz).
Proof using FixedOffset0 Htarget.
  intros Hd. destruct (duration target) as [d|] eqn:E; [|done].
  pose proof (timeframe_valid_duration _ _ Htarget E) as Hp.
  rewrite (session_buckets_closed _ _ _ _ d) by done.
  generalize (bucket_count d (combine td (interval_start iv)) (combine td (interval_end iv))).
  intros n. generalize 0 as k. induction n as [|n IH]; intros k; [rewrite seqZ_nil by lia; constructor|].
  rewrite Nat2Z.inj_succ, seqZ_cons by lia. rewrite Z.pred_succ. cbn. constructor; [apply IH|].
  rewrite Forall_fmap. apply Forall_forall. intros j Hj%elem_of_seqZ. unfold nth_bucket. cbn.
  rewrite !(fixed_to_utc (tz := tz)). nia.
Qed.

Lemma reconstruct_interval_chronological td day iv :
  duration target <> None -> chronological (reconstruct_interval td day target sd iv tz).
Proof using FixedOffset0 Htarget.
  intros Hd. unfold chronological, reconstruct_interval.
  eapply StronglySorted_omap; [by apply session_buckets_sorted|].
  intros [[i s] e] [[i' s'] e'] x y Hx Hy Hle.
  apply prove_and_aggregate_spec in Hx as (? & ? & _ & _ & _ & ->).
  apply prove_and_aggregate_spec in Hy as (? & ? & _ & _ & _ & ->). exact Hle.
Qed.

End Reconstruct.

Lemma intervals_for_valid e d : effective_valid e -> intervals_valid (intervals_for e d).
Proof.
  intros [Hs Ho]. unfold intervals_for. destruct (eff_overrides e !! d) as [o|] eqn:E.
  - by apply (Ho d o E).
  - split; [done|]. split; repeat constructor; apply bounds_valid, Hs.
Qed.

Lemma divides_exactly_spec target base :
  divides_exactly target base = true ->
  exists t b, duration target = Some t /\ duration base = Some b /\ b < t /\ t mod b = 0.
Proof.
  unfold divides_exactly. destruct (duration target) as [t|], (duration base) as [b|]; try done.
  split_ifs; [done|]. intros ?. zbool. eauto 6.
Qed.

Section Series.
Context (tz : ZoneInfo) (off : timedelta) `{!FixedOffset tz off}.
Context (target : Timeframe) (Htarget : timeframe_valid target) (sd : timedelta).
Context (effective : EffectiveSchedule) (Heff : effective_valid effective).
Context (calendar : TradingCalendar) (candles : list Candle).
Context (Hvalid : Forall candle_valid candles) (Hchron : chronological candles).
Context (Hintraday : duration target <> None).

#[local] Abbreviation day_of td :=
  (reconstruct_date (group_by_trading_date candles tz) target sd effective calendar tz td).

Lemma elem_of_reconstruct_date td c :
  c ∈ day_of td <-> exists iv, emitted tz target sd candles effective calendar td iv c.
Proof using All.
  unfold reconstruct_date, group_by_trading_date. rewrite group_by_get. unfold emitted.
  destruct (intervals_for_valid effective td Heff) as (_ & Hivs & _). rewrite Forall_forall in Hivs.
  destruct (is_trading_day calendar td) eqn:Htd; cbn.
  2: { split; [by intros ?%elem_of_nil|]. by intros (iv & ? & _). }
  destruct (bool_decide (td ∈ open_sessions calendar) && negb (has_override effective td)) eqn:Eo.
  { zbool. split; [by intros ?%elem_of_nil|]. intros (iv & _ & Ho & _). rewrite Ho in *; done. }
  rewrite elem_of_mjoin_fmap. split.
  - intros (iv & Hiv & Hc). exists iv. destruct (Hivs iv Hiv) as (Hlt & _).
    apply (elem_of_reconstruct_interval tz off) in Hc; try done. split_and!; try done.
    intros Ho. zbool. destruct Eo as [Eo|Eo]; zbool; done.
  - intros (iv & _ & _ & Hiv & Hc). exists iv. split; [done|]. destruct (Hivs iv Hiv) as (Hlt & _).
    by apply (elem_of_reconstruct_interval tz off).
Qed.

(** An emitted candle lies inside its interval of its exchange-local day. *)
Lemma emitted_inside td iv c :
  emitted tz target sd candles effective calendar td iv c ->
  combine td (interval_start iv) - off <= start_timestamp c
  /\ start_timestamp c < end_timestamp c /\ end_timestamp c <= combine td (interval_end iv) - off
  /\ td * us_per_day - off <= start_timestamp c /\ end_timestamp c <= (td + 1) * us_per_day - off.
Proof using All.
  intros (_ & _ & Hiv & i & Hb & _).
  destruct (intervals_for_valid effective td Heff) as (_ & Hivs & _).
  rewrite Forall_forall in Hivs. destruct (Hivs iv Hiv) as (Hlt & Ht1 & Ht2).
  apply (session_bucket_inside td target iv tz off i) in Hb; [|done|done].
  rewrite !(fixed_to_utc (tz := tz)) in Hb.
  unfold valid_time, combine in *. zbool. lia.
Qed.

Lemma reconstruct_date_chronological td : chronological (day_of td).
Proof using All.
  unfold reconstruct_date. destruct (negb _); [constructor|]. destruct (_ && _) eqn:Eo; [constructor|].
  destruct (intervals_for_valid effective td Heff) as (_ & Hivs & Hs). rewrite Forall_forall in Hivs.
  eapply StronglySorted_mjoin; [exact Hs| |].
  - intros iv _. by eapply reconstruct_interval_chronological.
  - intros iv1 iv2 x y H1 H2 Hlt Hx Hy. unfold group_by_trading_date in Hx, Hy.
    rewrite group_by_get in Hx, Hy.
    destruct (Hivs iv1 H1) as (L1 & _), (Hivs iv2 H2) as (L2 & _).
    apply (elem_of_reconstruct_interval tz off) in Hx as (i1 & B1 & _); [|done..].
    apply (elem_of_reconstruct_interval tz off) in Hy as (i2 & B2 & _); [|done..].
    apply (session_bucket_inside td target _ tz off) in B1; [|done..].
    apply (session_bucket_inside td target _ tz off) in B2; [|done..].
    rewrite !(fixed_to_utc (tz := tz)) in B1, B2. unfold combine in *. lia.
Qed.

Lemma reconstructed_chronological tds :
  StronglySorted Z.lt tds -> chronological (mjoin ((fun td => day_of td) <$> tds)).
Proof using All.
  intros Hs. eapply StronglySorted_mjoin; [exact Hs|intros; apply reconstruct_date_chronological|].
  intros a b x y _ _ Hab [iv1 Hx]%elem_of_reconstruct_date [iv2 Hy]%elem_of_reconstruct_date.
  apply emitted_inside in Hx, Hy. unfold us_per_day in *. nia.
Qed.

Lemma emitted_valid td iv c :
  emitted tz target sd candles effective calendar td iv c ->
  candle_valid c /\ exists x, x ∈ candles /\ candle_instrument c = candle_instrument x
    /\ local_date tz (start_timestamp x) = td.
Proof using All.
  intros (_ & _ & _ & i & _ & Hne & Ht & _ & Ha).
  assert (Forall candle_valid (constituents tz target candles td iv i)) as Hv.
  { unfold constituents. by do 2 apply Forall_filter_keep. }
  split; [by eapply aggregates_valid|].
  destruct (constituents tz target candles td iv i) as [|x r] eqn:E; [done|].
  assert (x ∈ constituents tz target candles td iv i) as Hx by (rewrite E; left).
  unfold constituents in Hx. rewrite !list_elem_of_filter in Hx. destruct Hx as (_ & Hd & Hx).
  exists x. split_and!; [done| |done]. pose proof (agg_instrument _ _ Ha) as Hi. by injection Hi.
Qed.

End Series.

Lemma sorted_keys_strict (l : list Z) : NoDup l -> StronglySorted Z.lt (py_sorted Z.leb l).
Proof.
  intros Hn. assert (NoDup (py_sorted Z.leb l)) as Hn' by by rewrite py_sorted_perm.
  assert (StronglySorted (fun a b => Z.leb a b = true) (py_sorted Z.leb l)) as Hs
    by (apply py_sorted_sorted; intros; lia).
  induction Hs as [|x m Hs IH Hx]; [constructor|]. apply NoDup_cons in Hn' as [Hni Hn'].
  constructor; [by apply IH|]. rewrite Forall_forall in *. intros y Hy.
  specialize (Hx y Hy). assert (x <> y) by (intros ->; done). lia.
Qed.

(** [HistoricalSeries] construction fixes one instrument. *)
Lemma mk_series_instrument t cs s :
  mk_series t cs = Ok s -> exists i, Forall (fun c => candle_instrument c = i) (hs_candles s).
Proof.
  unfold mk_series. intros ([] & _ & ([] & Hs%raise_if_ok & ([] & _ & [= <-])%bind_ok)%bind_ok)%bind_ok.
  cbn. zbool. apply Nat.eqb_eq, size_1_elem_of in Hs as [i Hi]. exists i.
  apply Forall_forall. intros c Hc.
  assert (candle_instrument c ∈ distinct_instruments (py_sorted candle_leb cs)) as H.
  { unfold distinct_instruments. apply elem_of_list_to_set, list_elem_of_fmap. eauto. }
  rewrite Hi in H. by apply elem_of_singleton in H.
Qed.

(** ** Session identity *)

Section Canonical.
Context (tz : ZoneInfo) (off : timedelta) `{!FixedOffset tz off}.
Context (effective : EffectiveSchedule) (Heff : effective_valid effective).
Context (calendar : TradingCalendar).

(** [s] is the bar [c] stamped with the whole session of its own trading date. *)
Definition session_of (c s : Candle) : Prop :=
  exists env, envelope_for effective (local_date tz (start_timestamp c)) = Some env
    /\ start_timestamp s = wall_to_utc tz (combine (local_date tz (start_timestamp c)) (interval_start env))
    /\ end_timestamp s = wall_to_utc tz (combine (local_date tz (start_timestamp c)) (interval_end env))
    /\ candle_instrument s = candle_instrument c
    /\ (open_price s, high_price s, low_price s, close_price s, traded_quantity s)
       = (open_price c, high_price c, low_price c, close_price c, traded_quantity c).

Lemma envelope_for_valid d : exists env, envelope_for effective d = Some env /\ interval_valid env.
Proof using Heff.
  clear FixedOffset0 off tz. destruct Heff as [Hs Ho]. unfold envelope_for. destruct (eff_overrides effective !! d) as [o|] eqn:E.
  - destruct (Ho d o E) as (_ & Hne & Hall & Hsort).
    destruct (live_intervals o) as [|f ivs]; [done|]. cbn. rewrite last_default.
    eexists. split; [done|]. apply Forall_cons in Hall as [(F1 & F2 & F3) Hall].
    destruct ivs as [|g ivs].
    + by split_and!.
    + inversion Hsort as [|? ? _ Hf]; subst. rewrite Forall_forall in Hf, Hall.
      assert (List.last (g :: ivs) f ∈ g :: ivs) as Hin.
      { rewrite last_cons_default. destruct (exists_last (l := g :: ivs)) as (l & x & Heq); [done|].
        rewrite Heq. assert (last (g :: ivs) = Some x) as Hl by (rewrite Heq; apply last_snoc).
        rewrite last_default in Hl. injection Hl as ->. set_solver. }
      specialize (Hf _ Hin). specialize (Hall _ Hin) as (L1 & L2 & L3).
      generalize dependent (List.last (g :: ivs) f). intros x Hx1 Hx L1 L2 L3. cbn in Hx, Hx1.
      unfold interval_valid. split_and!; cbn; try done. lia.
  - eexists. split; [done|]. apply bounds_valid, Hs.
Qed.

Lemma canonicalize_spec c :
  match canonicalize_session_candle c effective calendar tz with
  | Some s => is_trading_day calendar (local_date tz (start_timestamp c)) = true /\ session_of c s
  | None => is_trading_day calendar (local_date tz (start_timestamp c)) = false
  end.
Proof using Heff.
  unfold canonicalize_session_candle.
  destruct (is_trading_day calendar (local_date tz (start_timestamp c))); [|done]. cbn.
  destruct (envelope_for_valid (local_date tz (start_timestamp c))) as (env & He & _). rewrite He. cbn.
  split; [done|]. exists env. split_and!; first [exact He|reflexivity].
Qed.

Lemma session_of_date c s :
  session_of c s -> local_date tz (start_timestamp s) = local_date tz (start_timestamp c).
Proof using Heff FixedOffset0.
  intros (env & He & Hs & _). destruct (envelope_for_valid (local_date tz (start_timestamp c))) as (env' & He' & Hv).
  rewrite He in He'. injection He' as <-. rewrite Hs. unfold local_date at 1.
  rewrite (wall_utc_roundtrip tz off). apply wall_date_combine, Hv.
Qed.

Lemma session_of_same_date c c' s s' :
  session_of c s -> session_of c' s' ->
  local_date tz (start_timestamp c) = local_date tz (start_timestamp c') ->
  (start_timestamp s, end_timestamp s) = (start_timestamp s', end_timestamp s').
Proof using Type.
  intros (env & He & -> & -> & _) (env' & He' & -> & -> & _) Hd. rewrite Hd in *. congruence.
Qed.

Definition identity_pair (c : Candle) : instant * instant := (start_timestamp c, end_timestamp c).

Lemma canonical_from_spec seen cs :
  let out := canonical_from seen cs effective calendar tz in
  NoDup (identity_pair <$> out)
  /\ (forall s, s ∈ out -> (identity_pair s ∉ seen) /\ exists c, c ∈ cs
        /\ is_trading_day calendar (local_date tz (start_timestamp c)) = true /\ session_of c s)
  /\ (forall c, c ∈ cs -> is_trading_day calendar (local_date tz (start_timestamp c)) = true ->
        forall s, session_of c s -> identity_pair s ∈ seen \/ identity_pair s ∈ (identity_pair <$> out)).
Proof using All.
  revert seen. induction cs as [|c cs IH]; intros seen; cbn.
  { split_and!; [constructor|by intros s ?%elem_of_nil|by intros c ?%elem_of_nil]. }
  pose proof (canonicalize_spec c) as Hc.
  destruct (canonicalize_session_candle c effective calendar tz) as [s0|]; [destruct Hc as [Htd Hc]; case_bool_decide as Hin|].
  - destruct (IH seen) as (I1 & I2 & I3). split_and!; [done| |].
    + intros s Hs. destruct (I2 s Hs) as (? & x & ? & ?). split; [done|]. exists x. set_solver.
    + intros x [->|Hx]%elem_of_cons Hd s Hs; [|eauto]. left.
      unfold identity_pair. by rewrite <- (session_of_same_date _ _ _ _ Hc Hs eq_refl).
  - destruct (IH (identity_pair s0 :: seen)) as (I1 & I2 & I3). split_and!.
    + constructor; [|done]. intros (s & Es & Hs)%list_elem_of_fmap.
      destruct (I2 s Hs) as [Hn _]. rewrite <- Es in Hn. set_solver.
    + intros s [->|Hs]%elem_of_cons.
      * split; [done|]. exists c. split_and!; [left|done|done].
      * destruct (I2 s Hs) as (Hn & x & ? & ?). split; [set_solver|]. exists x. set_solver.
    + intros x [->|Hx]%elem_of_cons Hd s Hs.
      * right. unfold identity_pair at 1. rewrite <- (session_of_same_date _ _ _ _ Hc Hs eq_refl).
        left.
      * destruct (I3 x Hx Hd s Hs) as [Hi|Hi]; [|right; by right].
        apply elem_of_cons in Hi as [->|Hi]; [right; left|by left].
  - destruct (IH seen) as (I1 & I2 & I3). split_and!; [done| |].
    + intros s Hs. destruct (I2 s Hs) as (? & x & ? & ?). split; [done|]. exists x. set_solver.
    + intros x [->|Hx]%elem_of_cons Hd s Hs; [congruence|eauto].
Qed.

End Canonical.

(** One session candle per trading date that has a bar. *)
Lemma canonical_series_spec (tz : ZoneInfo) (off : timedelta) (Htz : FixedOffset tz off)
    (effective : EffectiveSchedule) (Heff : effective_valid effective) (calendar : TradingCalendar)
    (cs : list Candle) :
  let out := canonical_session_series cs effective calendar tz in
  let day_of c := local_date tz (start_timestamp c) in
  NoDup (day_of <$> out)
  /\ (forall s, s ∈ out -> exists c, c ∈ cs /\ is_trading_day calendar (day_of c) = true
        /\ day_of s = day_of c /\ session_of tz effective c s)
  /\ (forall c, c ∈ cs -> is_trading_day calendar (day_of c) = true -> day_of c ∈ (day_of <$> out)).
Proof.
  intros out day_of. destruct (canonical_from_spec tz off effective Heff calendar [] cs) as (I1 & I2 & I3).
  change (canonical_from [] cs effective calendar tz) with out in *.
  assert (forall s, s ∈ out -> exists c, c ∈ cs /\ is_trading_day calendar (day_of c) = true
        /\ day_of s = day_of c /\ session_of tz effective c s) as Hout.
  { intros s Hs. destruct (I2 s Hs) as (_ & c & ? & ? & Hc). exists c. split_and!; try done.
    by apply (session_of_date tz off effective Heff). }
  split_and!; [|done|].
  - apply NoDup_fmap_2_strong; [|by apply NoDup_fmap_1 in I1].
    intros x y Hx Hy Hd. destruct (Hout x Hx) as (c & _ & _ & E1 & S1), (Hout y Hy) as (c' & _ & _ & E2 & S2).
    assert (identity_pair x = identity_pair y) as He.
    { eapply session_of_same_date; [exact S1|exact S2|]. unfold day_of in *. congruence. }
    clear -I1 Hx Hy He. induction out as [|z l IH]; [by apply elem_of_nil in Hx|].
    cbn in I1. apply NoDup_cons in I1 as [Hz I1].
    apply elem_of_cons in Hx as [->|Hx], Hy as [->|Hy]; [done|..]; [| |auto].
    + exfalso. apply Hz. rewrite He. by apply list_elem_of_fmap_2.
    + exfalso. apply Hz. rewrite <- He. by apply list_elem_of_fmap_2.
  - intros c Hc Hd. pose proof (canonicalize_spec tz effective Heff calendar c) as Hs.
    destruct (canonicalize_session_candle c effective calendar tz) as [s|].
    + destruct Hs as [_ Hs]. destruct (I3 c Hc Hd s Hs) as [Hi|Hi]; [by apply elem_of_nil in Hi|].
      apply list_elem_of_fmap in Hi as (s' & Es & Hs'). injection Es as E1 _.
      apply list_elem_of_fmap. exists s'. split; [|done].
      unfold day_of. rewrite <- (session_of_date tz off effective Heff c s Hs). by rewrite E1.
    + unfold day_of in Hd. congruence.
Qed.

(** Reconstruction returns, and emits exactly the proven buckets. *)
Lemma reconstruct_series_total (tz : ZoneInfo) (off : timedelta) (Htz : FixedOffset tz off)
    (base target : Timeframe) (sd : timedelta) (cs : list Candle) (source : HistoricalSeries)
    (effective : EffectiveSchedule) (calendar : TradingCalendar)
    (Htarget : timeframe_valid target) (Hsd : duration base = Some sd)
    (Hdiv : divides_exactly target base = true)
    (Hvalid : Forall candle_valid cs) (Hsource : mk_series base cs = Ok source)
    (Heff : effective_valid effective) :
  exists r, reconstruct_series source target effective calendar tz = Ok r
    /\ let out := match r with Some s => hs_candles s | None => [] end in
       (forall s, r = Some s -> hs_timeframe s = target)
       /\ chronological out /\ Forall candle_valid out
       /\ forall c, c ∈ out <-> exists td iv,
            emitted tz target sd (hs_candles source) effective calendar td iv c.
Proof.
  destruct (mk_series_ok _ _ _ Hvalid Hsource) as (Hb & Hp & _ & Hchron & _).
  destruct (mk_series_instrument _ _ _ Hsource) as [i Hi].
  assert (Forall candle_valid (hs_candles source)) as Hv by by rewrite Hp.
  destruct (divides_exactly_spec _ _ Hdiv) as (t & b & Ht & _).
  assert (duration target <> None) as Hd by congruence.
  unfold reconstruct_series. rewrite Hb, Hdiv, Hsd. cbn [negb raise_if mbind result_bind].
  set (by_date := group_by_trading_date (hs_candles source) tz).
  set (days := py_sorted Z.leb by_date.*1).
  set (out := mjoin _).
  assert (chronological out) as Hc.
  { eapply reconstructed_chronological; try done. apply sorted_keys_strict, group_by_NoDup. }
  assert (forall c, c ∈ out <-> exists td iv,
    emitted tz target sd (hs_candles source) effective calendar td iv c) as Hel.
  { intros c. unfold out. rewrite elem_of_mjoin_fmap. split.
    - intros (td & _ & Hx). apply (elem_of_reconstruct_date tz off) in Hx as [iv Hx]; eauto.
    - intros (td & iv & Hx). exists td. split.
      + unfold days. apply elem_of_py_sorted, group_by_keys.
        destruct (emitted_valid tz off target Htarget sd effective Heff calendar _ Hv Hchron Hd td iv c Hx)
          as (_ & x & Hx1 & _ & Hx2). eauto.
      + apply (elem_of_reconstruct_date tz off); eauto. }
  assert (Forall (fun c => candle_valid c /\ candle_instrument c = i) out) as Hall.
  { apply Forall_forall. intros c (td & iv & Hx)%Hel.
    destruct (emitted_valid tz off target Htarget sd effective Heff calendar _ Hv Hchron Hd td iv c Hx)
      as (? & x & Hx1 & -> & _). split; [done|]. rewrite Forall_forall in Hi. by apply Hi. }
  apply Forall_and in Hall as [Hov Hoi].
  destruct out as [|c0 out'] eqn:Eout.
  - exists None. split; [done|]. done.
  - rewrite (mk_series_intro target i) by done. eexists. split; [done|]. cbn.
    split_and!; try done. by intros s [= <-].
Qed.

(** * Properties *)

(** A bucket is emitted exactly when it is proven: the constituents, in
    chronological order, tile [[start, stop)] end to end in source-width steps
    (the last one may be cut by the session close), and then the candle carries
    their first open, last close, extreme high and low and total volume. *)
Theorem aggregate_exact (cs : list Candle) (s e : instant) (d : timedelta) (close : instant)
    (Hvalid : Forall candle_valid cs) (c : Candle) :
  prove_and_aggregate cs s e d close = Some c
  <-> exists run, run ≡ₚ cs /\ run <> [] /\ tiles s run e /\ Forall (sized d close) run
      /\ aggregates run c /\ start_timestamp c = s /\ end_timestamp c = e.
Proof.
  rewrite prove_and_aggregate_spec. split.
  - intros (f & r & Hs & Ht & Hz & ->). exists (f :: r).
    split_and!; try done; [rewrite <- Hs; apply py_sorted_perm|apply aggregate_of_aggregates].
  - intros (run & Hp & Hne & Ht & Hz & Ha & Hs & He). destruct run as [|f r]; [done|].
    exists f, r. split_and!; try done; [|by apply aggregates_unique].
    eapply tiles_py_sorted; [by rewrite Hp|done|done].
Qed.

(** [C4] Reconstruction is exact and total: for an exactly divisible target it
    always returns (a well-formed chronological series at the target timeframe,
    or nothing), and it emits precisely the aggregates of the buckets, in every
    live interval of every eligible trading date, that the source candles tile
    completely; gaps, overlaps, foreign widths, holidays and special sessions
    without timing emit nothing. *)
Theorem reconstruct_series_correct (tz : ZoneInfo) (off : timedelta) (Htz : FixedOffset tz off)
    (base target : Timeframe) (sd : timedelta) (cs : list Candle) (source : HistoricalSeries)
    (effective : EffectiveSchedule) (calendar : TradingCalendar)
    (Htarget : timeframe_valid target) (Hsd : duration base = Some sd)
    (Hdiv : divides_exactly target base = true)
    (Hvalid : Forall candle_valid cs) (Hsource : mk_series base cs = Ok source)
    (Heff : effective_valid effective) :
  exists r, reconstruct_series source target effective calendar tz = Ok r
    /\ let out := match r with Some s => hs_candles s | None => [] end in
       (forall s, r = Some s -> hs_timeframe s = target)
       /\ chronological out /\ Forall candle_valid out
       /\ forall c, c ∈ out <-> exists td iv,
            emitted tz target sd (hs_candles source) effective calendar td iv c.
Proof. by eapply reconstruct_series_total. Qed.

(** Base selection: the base chosen for a target is one of the source's
    timeframes, shorter than the target, dividing it exactly, and the longest
    such; and nothing is chosen only when none divides it. *)
Theorem select_base_correct (target : Timeframe) (direct : list Timeframe)
    (Htarget : timeframe_valid target) (base : option Timeframe)
    (Hbase : select_base target direct = base) :
  match base with
  | Some b => b ∈ direct /\ divides_exactly target b = true
      /\ forall b', b' ∈ direct -> divides_exactly target b' = true ->
         default 0 (duration b') <= default 0 (duration b)
  | None => forall b, b ∈ direct -> divides_exactly target b = false
  end.
Proof.
  subst base. unfold select_base.
  destruct (is_session target || negb (is_not_none (duration target))) eqn:E.
  { intros b _. unfold divides_exactly.
    destruct (duration target) as [d|] eqn:Hd; [|done]. cbn in E. rewrite orb_false_r in E.
    unfold is_session, timeframe_valid in *. rewrite Hd in Htarget. by destruct (kind target). }
  destruct (filter _ direct) as [|c cs] eqn:F.
  - intros b Hb. destruct (divides_exactly target b) eqn:Ed; [|done].
    assert (b ∈ filter (fun base => divides_exactly target base) direct) as Hin.
    { apply list_elem_of_filter. rewrite Ed. done. }
    rewrite F in Hin. by apply elem_of_nil in Hin.
  - assert (fold_left longer cs c ∈ c :: cs
      /\ Forall (fun x => default 0 (duration x) <= default 0 (duration (fold_left longer cs c))) (c :: cs)) as [H1 H2].
    { clear. induction cs as [|x cs [IH1 IH2]] using rev_ind; [split; [left|by apply Forall_singleton]|].
      rewrite fold_left_app. cbn. unfold longer at 1 3. destruct (_ <? _) eqn:E.
      - split; [set_solver|]. zbool. rewrite app_comm_cons. apply Forall_app.
        split; [|by apply Forall_singleton]. eapply Forall_impl; [exact IH2|]. cbn. lia.
      - split; [set_solver|]. zbool. rewrite app_comm_cons. apply Forall_app.
        split; [done|by apply Forall_singleton]. }
    rewrite <- F in H1, H2. apply list_elem_of_filter in H1 as [Hd Hin].
    split_and!; [done|by apply Is_true_true|]. intros b' Hb' Hd'. rewrite Forall_forall in H2.
    apply H2, list_elem_of_filter. rewrite Hd'. done.
Qed.

(** Daily bars become session candles one to one with trading dates: no
    session is represented twice, every output is some input bar re-stamped to
    the envelope of its own trading date with its OHLCV untouched, and every
    trading date that has a bar is represented (holiday bars are dropped). *)
Theorem canonical_sessions_unique (tz : ZoneInfo) (off : timedelta) (Htz : FixedOffset tz off)
    (effective : EffectiveSchedule) (Heff : effective_valid effective) (calendar : TradingCalendar)
    (cs : list Candle) :
  let out := canonical_session_series cs effective calendar tz in
  let day_of c := local_date tz (start_timestamp c) in
  NoDup (day_of <$> out)
  /\ (forall s, s ∈ out -> exists c, c ∈ cs /\ is_trading_day calendar (day_of c) = true
        /\ day_of s = day_of c /\ session_of tz effective c s)
  /\ (forall c, c ∈ cs -> is_trading_day calendar (day_of c) = true -> day_of c ∈ (day_of <$> out)).
Proof. by eapply canonical_series_spec. Qed.

(** * Witnesses *)

Definition weekdays : TradingCalendar := {|
  closed_dates := ∅; open_sessions := ∅; weekend_days := list_to_set default_weekend |}.

Definition ordinary : EffectiveSchedule := {| eff_default := nse_schedule; eff_overrides := ∅ |}.

Lemma ordinary_valid : effective_valid ordinary.
Proof. split; [apply nse_schedule_valid|apply map_Forall_empty]. Qed.

Definition minute_bars : list Candle :=
  [bar reliance (at_local 9 15) (at_local 9 16) 100 103 99 101 10;
   bar reliance (at_local 9 16) (at_local 9 17) 101 105 100 104 20;
   bar reliance (at_local 9 18) (at_local 9 19) 104 106 103 105 5].

Lemma minute_bars_valid : Forall candle_valid minute_bars.
Proof. repeat constructor; apply bar_valid; reflexivity. Qed.

Lemma aggregate_exact_witness :
  exists c, prove_and_aggregate (take 2 minute_bars) (at_local 9 15) (at_local 9 17) us_per_minute
      (at_local 15 30) = Some c
    /\ exists run, run ≡ₚ take 2 minute_bars /\ tiles (at_local 9 15) run (at_local 9 17)
       /\ aggregates run c /\ traded_quantity c = 30.
Proof.
  destruct (prove_and_aggregate (take 2 minute_bars) (at_local 9 15) (at_local 9 17) us_per_minute
      (at_local 15 30)) as [c|] eqn:E; [|by vm_compute in E].
  exists c. split; [reflexivity|].
  destruct (proj1 (aggregate_exact (take 2 minute_bars) (at_local 9 15) (at_local 9 17) us_per_minute
    (at_local 15 30) (Forall_take _ _ _ minute_bars_valid) c) E) as (run & H1 & H2 & H3 & H4 & H5 & _).
  exists run. split_and!; [exact H1|exact H3|exact H5|].
  vm_compute in E. by injection E as <-.
Defined.

Lemma reconstruct_series_correct_witness :
  exists source r, mk_series (tf 1) minute_bars = Ok source
    /\ reconstruct_series source (tf 2) ordinary weekdays kolkata = Ok r
    /\ (exists s, r = Some s /\ length (hs_candles s) = 1%nat
         /\ chronological (hs_candles s)).
Proof.
  assert (exists source, mk_series (tf 1) minute_bars = Ok source) as [source Hs]
    by (eexists; vm_compute; reflexivity).
  destruct (reconstruct_series_correct kolkata _ kolkata_fixed (tf 1) (tf 2) us_per_minute minute_bars
    source ordinary weekdays) as (r & Hr & Ht & Hc & _).
  - by vm_compute.
  - reflexivity.
  - reflexivity.
  - exact minute_bars_valid.
  - exact Hs.
  - exact ordinary_valid.
  - exists source, r. split_and!; [exact Hs|exact Hr|].
    vm_compute in Hs. injection Hs as <-. vm_compute in Hr. injection Hr as <-.
    eexists. split_and!; [reflexivity|reflexivity|exact Hc].
Defined.

Lemma select_base_correct_witness :
  tf 5 ∈ [tf 1; tf 5; tf 60] /\ divides_exactly (tf 15) (tf 5) = true
  /\ select_base (tf 15) [tf 1; tf 5; tf 60] = Some (tf 5).
Proof.
  destruct (select_base_correct (tf 15) [tf 1; tf 5; tf 60] ltac:(by vm_compute) (Some (tf 5))
    ltac:(by vm_compute)) as (H1 & H2 & _).
  split_and!; [exact H1|exact H2|by vm_compute].
Defined.

Lemma canonical_sessions_unique_witness :
  NoDup ((fun c => local_date kolkata (start_timestamp c)) <$>
    canonical_session_series minute_bars ordinary weekdays kolkata)
  /\ length (canonical_session_series minute_bars ordinary weekdays kolkata) = 1%nat.
Proof.
  split; [|by vm_compute].
  exact (proj1 (canonical_sessions_unique kolkata _ kolkata_fixed ordinary ordinary_valid weekdays minute_bars)).
Defined.
