(* ===== verification/Coordinator.v ===== *)
(** Historical fetches: plans and result verification
    ([market_engine/historical/source.py]), the exact-coverage cache
    ([historical/cache.py]) and the coordinator that serves hits, coalesces
    identical requests and bounds the source's concurrency
    ([historical/coordinator.py]).

    The coordinator is asynchronous: its state changes at the points where the
    event loop can switch, so it is a step relation whose labels are the calls
    of [fetch], a queued task entering the semaphore, the source answering (with
    any result or exception), the done callback and an eviction. *)
From S2P Require Import Prelude PyTime MarketData Timeframe Context Requirements Samples.

Local Open Scope Z_scope.

(** * Plans *)

(** [_SESSION_INTERVAL] *)
Definition session_interval : timedelta := us_per_day.

(** [interval_for_timeframe] *)
Definition interval_for_timeframe (t : Timeframe) : timedelta :=
  match duration t with None => session_interval | Some d => d end.

Record HistoricalRequestKey : Type := {
  key_instrument : Instrument;
  key_timeframe : Timeframe;
  key_start : instant;
  key_end : instant;
}.

#[global] Instance HistoricalRequestKey_eq_dec : EqDecision HistoricalRequestKey.
Proof. solve_decision. Defined.
#[global] Instance HistoricalRequestKey_countable : Countable HistoricalRequestKey.
Proof.
  refine (inj_countable'
    (fun k => (key_instrument k, key_timeframe k, key_start k, key_end k))
    (fun p => let '(i, t, s, e) := p in
       {| key_instrument := i; key_timeframe := t; key_start := s; key_end := e |}) _).
  by intros [].
Defined.

Record HistoricalFetchPlan : Type := {
  plan_instrument : Instrument;
  plan_requirement : HistoricalRequirement;
  plan_start : instant;
  plan_end : instant;
  plan_interval : timedelta;
}.

(** [HistoricalFetchPlan.key] *)
Definition plan_key (p : HistoricalFetchPlan) : HistoricalRequestKey := {|
  key_instrument := plan_instrument p; key_timeframe := req_timeframe (plan_requirement p);
  key_start := plan_start p; key_end := plan_end p |}.

(** [HistoricalFetchPlan.request] *)
Definition plan_request (p : HistoricalFetchPlan) : result HistoricalRequest :=
  mk_historical_request (plan_instrument p) (plan_start p) (plan_end p) (plan_interval p).

(** [verify_source_candles] *)
Definition verify_source_candles (plan : HistoricalFetchPlan) (r : HistoricalResult)
    : result (list Candle) :=
  let candles := res_candles r in
  _ ← raise_if (py_any (fun c => negb (bool_decide (candle_instrument c = plan_instrument plan))) candles)
    (HistoricalDataQualityError "historical result contains a foreign instrument");
  match candles with
  | [] => Ok []
  | _ =>
      match mk_series (req_timeframe (plan_requirement plan)) candles with
      | Raise _ => Raise (HistoricalDataQualityError "historical result failed identity validation")
      | Ok series =>
          let ordered := hs_candles series in
          _ ← raise_if (negb (is_session (req_timeframe (plan_requirement plan)))
                        && py_any (fun c => negb (end_timestamp c - start_timestamp c
                                                  =? plan_interval plan)) ordered)
            (HistoricalDataQualityError "candle width does not match the requested timeframe");
          Ok ordered
      end
  end.

(** * The cache *)

Record Entry : Type := {
  entry_candles : list Candle;
  coverage_start : instant;
  coverage_end : instant;
}.

(** [_Entry.covers] *)
Definition covers (e : Entry) (start stop : instant) : bool :=
  (coverage_start e <=? start) && (stop <=? coverage_end e).

Abbreviation HistoricalCache := (gmap (Instrument * Timeframe) Entry) (only parsing).

(** [HistoricalCache.get] *)
Definition cache_get (self : HistoricalCache) (k : HistoricalRequestKey) : option (list Candle) :=
  match self !! (key_instrument k, key_timeframe k) with
  | None => None
  | Some e =>
      if negb (covers e (key_start k) (key_end k)) then None
      else Some (filter (fun c => key_start k <= start_timestamp c < key_end k) (entry_candles e))
  end.

(** [HistoricalCache.put] *)
Definition cache_put (self : HistoricalCache) (k : HistoricalRequestKey) (candles : list Candle)
    : HistoricalCache :=
  <[(key_instrument k, key_timeframe k) := {|
      entry_candles := candles; coverage_start := key_start k; coverage_end := key_end k |}]> self.

(** [HistoricalCache.retain_timeframes] *)
Definition retain_timeframes (self : HistoricalCache) (active : gset Timeframe) : HistoricalCache :=
  filter (fun p => p.1.2 ∈ active) self.

(** * The coordinator *)

(** How far the shared task of a request has come. *)
Inductive TaskPhase : Type :=
| Queued                                  (* waiting for the semaphore *)
| Loading                                 (* [await self._source.load(...)] *)
| Finished (outcome : result (list Candle)). (* done, callback not yet run *)

Record Task : Type := {
  task_plan : HistoricalFetchPlan;
  task_phase : TaskPhase;
}.

(** [co_log] is a ghost: the source calls started and answered so far. *)
Inductive SourceEvent : Type :=
| LoadStarted (k : HistoricalRequestKey)
| LoadAnswered (plan : HistoricalFetchPlan) (r : result HistoricalResult).

Record HistoricalCoordinator : Type := {
  co_cache : HistoricalCache;
  co_inflight : gmap HistoricalRequestKey Task;
  co_permits : Z;
  co_max_concurrency : Z;
  co_log : list SourceEvent;
}.

(** [HistoricalCoordinator.__init__] *)
Definition mk_coordinator (cache : HistoricalCache) (max_concurrency : Z)
    : result HistoricalCoordinator :=
  _ ← raise_if (max_concurrency <=? 0) (ValueError "max_concurrency must be a positive integer");
  Ok {| co_cache := cache; co_inflight := ∅; co_permits := max_concurrency;
        co_max_concurrency := max_concurrency; co_log := [] |}.

Definition with_inflight (self : HistoricalCoordinator) (m : gmap HistoricalRequestKey Task)
    : HistoricalCoordinator := {|
  co_cache := co_cache self; co_inflight := m; co_permits := co_permits self;
  co_max_concurrency := co_max_concurrency self; co_log := co_log self |}.

(** [fetch] up to its first suspension: an immediate hit, or the shared task the
    caller awaits. *)
Inductive FetchAnswer : Type :=
| Hit (candles : list Candle)
| Awaiting (k : HistoricalRequestKey).

Definition fetch (self : HistoricalCoordinator) (plan : HistoricalFetchPlan)
    : HistoricalCoordinator * FetchAnswer :=
  match cache_get (co_cache self) (plan_key plan) with
  | Some candles => (self, Hit candles)
  | None =>
      match co_inflight self !! plan_key plan with
      | Some _ => (self, Awaiting (plan_key plan))
      | None =>
          (with_inflight self (<[plan_key plan := {| task_plan := plan; task_phase := Queued |}]>
             (co_inflight self)), Awaiting (plan_key plan))
      end
  end.

(** [_run] entering [async with self._semaphore]: the request is built under the
    permit; a plan that makes no valid request releases it and fails. *)
Definition start_load (self : HistoricalCoordinator) (k : HistoricalRequestKey) (t : Task)
    : HistoricalCoordinator :=
  match plan_request (task_plan t) with
  | Raise e => with_inflight self
      (<[k := {| task_plan := task_plan t; task_phase := Finished (Raise e) |}]> (co_inflight self))
  | Ok _ => {|
      co_cache := co_cache self;
      co_inflight := <[k := {| task_plan := task_plan t; task_phase := Loading |}]> (co_inflight self);
      co_permits := co_permits self - 1; co_max_concurrency := co_max_concurrency self;
      co_log := co_log self ++ [LoadStarted k] |}
  end.

(** [_run] after the source answered: release, verify, cache, finish. *)
Definition finish_load (self : HistoricalCoordinator) (k : HistoricalRequestKey) (t : Task)
    (r : result HistoricalResult) : HistoricalCoordinator :=
  let outcome := result ← r; verify_source_candles (task_plan t) result in {|
  co_cache := match outcome with
              | Ok ((_ :: _) as candles) => cache_put (co_cache self) (plan_key (task_plan t)) candles
              | _ => co_cache self
              end;
  co_inflight := <[k := {| task_plan := task_plan t; task_phase := Finished outcome |}]> (co_inflight self);
  co_permits := co_permits self + 1; co_max_concurrency := co_max_concurrency self;
  co_log := co_log self ++ [LoadAnswered (task_plan t) r] |}.

(** [_discard] *)
Definition discard (self : HistoricalCoordinator) (k : HistoricalRequestKey) : HistoricalCoordinator :=
  with_inflight self (delete k (co_inflight self)).

(** [retain_timeframes] *)
Definition coordinator_retain (self : HistoricalCoordinator) (active : gset Timeframe)
    : HistoricalCoordinator := {|
  co_cache := retain_timeframes (co_cache self) active; co_inflight := co_inflight self;
  co_permits := co_permits self; co_max_concurrency := co_max_concurrency self;
  co_log := co_log self |}.

Inductive coordinator_step : HistoricalCoordinator -> HistoricalCoordinator -> Prop :=
| step_fetch c plan : coordinator_step c (fetch c plan).1
| step_start c k t : co_inflight c !! k = Some t -> task_phase t = Queued -> 0 < co_permits c ->
    coordinator_step c (start_load c k t)
| step_answer c k t r : co_inflight c !! k = Some t -> task_phase t = Loading ->
    coordinator_step c (finish_load c k t r)
| step_discard c k t o : co_inflight c !! k = Some t -> task_phase t = Finished o ->
    coordinator_step c (discard c k)
| step_retain c active : coordinator_step c (coordinator_retain c active).

Definition coordinator_reachable (c : HistoricalCoordinator) : Prop :=
  exists n c0, mk_coordinator ∅ n = Ok c0 /\ rtc coordinator_step c0 c.

(** * Lemmas *)

Definition is_loading (t : Task) : bool :=
  match task_phase t with Loading => true | _ => false end.

Definition loading_at (m : gmap HistoricalRequestKey Task) (k : HistoricalRequestKey) : Z :=
  match m !! k with Some t => if is_loading t then 1 else 0 | None => 0 end.

(** How many source calls are open. *)
Definition loading_count (m : gmap HistoricalRequestKey Task) : Z :=
  Z.of_nat (size (filter (fun p => is_loading p.2 = true) m)).

Lemma loading_count_split m k :
  loading_count m = loading_count (delete k m) + loading_at m k.
Proof.
  unfold loading_count, loading_at. rewrite map_filter_delete.
  destruct (m !! k) as [t|] eqn:E; [destruct (is_loading t) eqn:Ht|].
  - assert (filter (fun p => is_loading p.2 = true) m !! k = Some t) as Hk
      by (by apply map_lookup_filter_Some_2).
    assert (size (filter (fun p => is_loading p.2 = true) m) <> 0%nat).
    { intros Hz%map_size_empty_inv. rewrite Hz, lookup_empty in Hk. done. }
    rewrite map_size_delete_Some by eauto. lia.
  - rewrite map_size_delete_None; [lia|]. apply map_lookup_filter_None. right.
    intros x Hx. rewrite E in Hx. injection Hx as <-. cbn. congruence.
  - rewrite map_size_delete_None; [lia|]. apply map_lookup_filter_None. by left.
Qed.

Lemma loading_count_insert m k t :
  loading_count (<[k := t]> m)
  = loading_count m - loading_at m k + (if is_loading t then 1 else 0).
Proof.
  rewrite (loading_count_split (<[k := t]> m) k), (loading_count_split m k).
  rewrite delete_insert_eq. unfold loading_at at 1. rewrite lookup_insert_eq. lia.
Qed.

Lemma loading_count_nonneg m : 0 <= loading_count m.
Proof. unfold loading_count. lia. Qed.

(** Source calls started minus source calls answered, per request. *)
Definition open_calls (k : HistoricalRequestKey) (log : list SourceEvent) : Z :=
  z_sum ((fun e => match e with
                   | LoadStarted k' => if decide (k' = k) then 1 else 0
                   | LoadAnswered p _ => if decide (plan_key p = k) then -1 else 0
                   end) <$> log).

Lemma z_sum_snoc l x : z_sum (l ++ [x]) = z_sum l + x.
Proof. unfold z_sum. by rewrite fold_left_app. Qed.

Lemma open_calls_snoc k log e :
  open_calls k (log ++ [e]) = open_calls k log
  + match e with
    | LoadStarted k' => if decide (k' = k) then 1 else 0
    | LoadAnswered p _ => if decide (plan_key p = k) then -1 else 0
    end.
Proof. unfold open_calls. rewrite fmap_app. apply z_sum_snoc. Qed.

Arguments open_calls : simpl never.
Arguments loading_at : simpl never.
Arguments loading_count : simpl never.

(** [candles] are what the source answered for [plan], verified. *)
Definition verified_answer (log : list SourceEvent) (plan : HistoricalFetchPlan)
    (candles : list Candle) : Prop :=
  exists r, LoadAnswered plan (Ok r) ∈ log /\ verify_source_candles plan r = Ok candles.

Definition entry_ok (log : list SourceEvent) (k : Instrument * Timeframe) (e : Entry) : Prop :=
  exists plan, verified_answer log plan (entry_candles e)
    /\ k = (plan_instrument plan, req_timeframe (plan_requirement plan))
    /\ coverage_start e = plan_start plan /\ coverage_end e = plan_end plan.

Record coordinator_ok (c : HistoricalCoordinator) : Prop := {
  ook_keys : forall k t, co_inflight c !! k = Some t -> plan_key (task_plan t) = k;
  ook_permits : co_permits c + loading_count (co_inflight c) = co_max_concurrency c;
  ook_bound : 0 <= co_permits c /\ 0 < co_max_concurrency c;
  ook_calls : forall k, open_calls k (co_log c) = loading_at (co_inflight c) k;
  ook_cache : forall k e, co_cache c !! k = Some e -> entry_ok (co_log c) k e;
  ook_finished : forall k t cs, co_inflight c !! k = Some t -> task_phase t = Finished (Ok cs) ->
    verified_answer (co_log c) (task_plan t) cs;
}.

Lemma verified_answer_app log log' plan cs :
  verified_answer log plan cs -> verified_answer (log ++ log') plan cs.
Proof. intros (r & Hr & Hv). exists r. split; [set_solver|done]. Qed.

Lemma entry_ok_app log log' k e : entry_ok log k e -> entry_ok (log ++ log') k e.
Proof. intros (p & Hp & H). exists p. split; [by apply verified_answer_app|done]. Qed.

#[local] Hint Resolve verified_answer_app entry_ok_app : core.

Lemma insert_cases {A} (m : gmap HistoricalRequestKey A) k k' t t' :
  <[k := t]> m !! k' = Some t' -> (k' = k /\ t' = t) \/ (k' <> k /\ m !! k' = Some t').
Proof. intros [[-> ->]|[? ?]]%lookup_insert_Some; auto. Qed.

Lemma loading_at_insert m k t k' :
  loading_at (<[k := t]> m) k' = if decide (k' = k) then (if is_loading t then 1 else 0) else loading_at m k'.
Proof.
  unfold loading_at. destruct (decide (k' = k)) as [->|].
  - by rewrite lookup_insert_eq.
  - by rewrite lookup_insert_ne.
Qed.

Lemma fetch_ok c plan : coordinator_ok c -> coordinator_ok (fetch c plan).1.
Proof.
  intros [H1 H2 H3 H4 H5 H6]. unfold fetch. destruct (cache_get _ _); [by split|].
  destruct (co_inflight c !! plan_key plan) as [t|] eqn:E; [by split|]. split; cbn.
  - intros k t [[-> ->]|[_ H]]%insert_cases; [done|eauto].
  - rewrite loading_count_insert. unfold loading_at. rewrite E. cbn. lia.
  - done.
  - intros k. rewrite H4, loading_at_insert. case_decide as Hd; [|done]. subst k.
    unfold loading_at. by rewrite E.
  - done.
  - intros k t cs [[-> ->]|[_ H]]%insert_cases; [done|eauto].
Qed.

Lemma start_load_ok c k t :
  co_inflight c !! k = Some t -> task_phase t = Queued -> 0 < co_permits c ->
  coordinator_ok c -> coordinator_ok (start_load c k t).
Proof.
  intros Hk Hq Hp [H1 H2 H3 H4 H5 H6].
  assert (loading_at (co_inflight c) k = 0) as Hl.
  { unfold loading_at. rewrite Hk. unfold is_loading. by rewrite Hq. }
  unfold start_load. destruct (plan_request (task_plan t)) as [rq|e]; split; cbn.
  - intros k' t' [[-> ->]|[_ H]]%insert_cases; cbn; eauto.
  - rewrite loading_count_insert, Hl. cbn. lia.
  - lia.
  - intros k'. rewrite open_calls_snoc, H4, loading_at_insert.
    destruct (decide (k' = k)) as [->|]; [rewrite decide_True by done; cbn; lia|].
    rewrite decide_False by done. lia.
  - eauto.
  - intros k' t' cs [[-> ->]|[_ H]]%insert_cases; [done|eauto].
  - intros k' t' [[-> ->]|[_ H]]%insert_cases; cbn; eauto.
  - rewrite loading_count_insert, Hl. cbn. lia.
  - lia.
  - intros k'. rewrite H4, loading_at_insert. case_decide as Hd; [|done]. subst k'. done.
  - done.
  - intros k' t' cs [[-> ->]|[_ H]]%insert_cases; [done|eauto].
Qed.

Lemma finish_load_ok c k t r :
  co_inflight c !! k = Some t -> task_phase t = Loading ->
  coordinator_ok c -> coordinator_ok (finish_load c k t r).
Proof.
  intros Hk Hq [H1 H2 H3 H4 H5 H6].
  assert (loading_at (co_inflight c) k = 1) as Hl.
  { unfold loading_at. rewrite Hk. unfold is_loading. by rewrite Hq. }
  assert (forall cs, (result ← r; verify_source_candles (task_plan t) result) = Ok cs ->
    verified_answer (co_log c ++ [LoadAnswered (task_plan t) r]) (task_plan t) cs) as Hans.
  { intros cs (x & -> & Hx)%bind_ok. exists x. split; [set_solver|done]. }
  unfold finish_load. set (outcome := result ← r; _) in *. split; cbn.
  - intros k' t' [[-> ->]|[_ H]]%insert_cases; cbn; eauto.
  - rewrite loading_count_insert, Hl. cbn. lia.
  - lia.
  - intros k'. rewrite open_calls_snoc, H4, loading_at_insert, (H1 _ _ Hk).
    destruct (decide (k' = k)) as [->|]; [rewrite decide_True by done; cbn; lia|].
    rewrite decide_False by done. lia.
  - intros k' e. destruct outcome as [[|c0 cs]|]; [eauto| |eauto].
    unfold cache_put. intros [[<- <-]|[_ H]]%lookup_insert_Some; [|eauto].
    exists (task_plan t). cbn. split_and!; try done. by apply Hans.
  - intros k' t' cs [[-> ->]|[_ H]]%insert_cases; cbn; [intros [= ->]; by apply Hans|eauto].
Qed.

Lemma discard_ok c k t o :
  co_inflight c !! k = Some t -> task_phase t = Finished o ->
  coordinator_ok c -> coordinator_ok (discard c k).
Proof.
  intros Hk Hq [H1 H2 H3 H4 H5 H6].
  assert (loading_at (co_inflight c) k = 0) as Hl.
  { unfold loading_at. rewrite Hk. unfold is_loading. by rewrite Hq. }
  split; cbn; try done.
  - intros k' t' [_ H]%lookup_delete_Some. eauto.
  - rewrite (loading_count_split _ k), Hl in H2. lia.
  - intros k'. rewrite H4. unfold loading_at. destruct (decide (k' = k)) as [->|].
    + rewrite lookup_delete_eq. unfold loading_at in Hl. by rewrite Hl.
    + by rewrite lookup_delete_ne.
  - intros k' t' cs [_ H]%lookup_delete_Some. eauto.
Qed.

Lemma retain_ok c active : coordinator_ok c -> coordinator_ok (coordinator_retain c active).
Proof.
  intros [H1 H2 H3 H4 H5 H6]. split; cbn; try done.
  intros k e [H _]%map_lookup_filter_Some. eauto.
Qed.

Lemma coordinator_step_ok c c' : coordinator_step c c' -> coordinator_ok c -> coordinator_ok c'.
Proof.
  destruct 1; eauto using fetch_ok, start_load_ok, finish_load_ok, discard_ok, retain_ok.
Qed.

Lemma coordinator_reachable_ok c : coordinator_reachable c -> coordinator_ok c.
Proof.
  intros (n & c0 & (u & Hn%raise_if_ok & [= <-])%bind_ok & H). zbool.
  match type of H with rtc _ ?c0 _ => assert (coordinator_ok c0) as H0 end.
  { split; cbn [co_inflight co_permits co_max_concurrency co_log co_cache].
    - intros k t. by rewrite lookup_empty.
    - unfold loading_count. rewrite map_filter_empty, map_size_empty. lia.
    - lia.
    - intros k. unfold loading_at. by rewrite lookup_empty.
    - intros k e. by rewrite lookup_empty.
    - intros k t cs. by rewrite lookup_empty. }
  induction H; eauto using coordinator_step_ok.
Qed.

(** The candles verification lets through, in full. *)
Record verified_candles (plan : HistoricalFetchPlan) (candles : list Candle) : Prop := {
  vc_instrument : Forall (fun c => candle_instrument c = plan_instrument plan) candles;
  vc_chronological : chronological candles;
  vc_width : is_session (req_timeframe (plan_requirement plan)) = false ->
    Forall (fun c => end_timestamp c - start_timestamp c = plan_interval plan) candles;
}.

Lemma verify_source_candles_ok plan r cs :
  Forall candle_valid (res_candles r) -> verify_source_candles plan r = Ok cs ->
  cs ≡ₚ res_candles r /\ verified_candles plan cs.
Proof.
  intros Hv. unfold verify_source_candles.
  intros ([] & Hi%raise_if_ok & H)%bind_ok.
  assert (Forall (fun c => candle_instrument c = plan_instrument plan) (res_candles r)) as Hall.
  { apply Forall_forall. intros c Hc. destruct (decide (candle_instrument c = plan_instrument plan)); [done|].
    exfalso. enough (py_any (fun c => negb (bool_decide (candle_instrument c = plan_instrument plan))) (res_candles r) = true) by congruence.
    apply existsb_exists. exists c. split; [by apply list_elem_of_In|]. by rewrite bool_decide_eq_false_2. }
  destruct (res_candles r) as [|c0 l] eqn:E.
  - injection H as <-. split; [done|]. split; [constructor|constructor|constructor].
  - rewrite <- E in *. destruct (mk_series _ _) as [s|] eqn:Es; [|done].
    destruct (mk_series_ok _ _ _ Hv Es) as (_ & Hp & _ & Hc & _).
    apply bind_ok in H as ([] & Hw%raise_if_ok & [= <-]). split; [done|]. split; [by rewrite Hp|done|].
    intros Hs. rewrite Hs in Hw. cbn in Hw. apply Forall_forall. intros c Hin.
    destruct (decide (end_timestamp c - start_timestamp c = plan_interval plan)); [done|]. exfalso.
    enough (py_any (fun c => negb (end_timestamp c - start_timestamp c =? plan_interval plan)) (hs_candles s) = true) by congruence.
    apply existsb_exists. exists c. split; [by apply list_elem_of_In|]. lia.
Qed.

(** * Properties *)

(** Bounded, deduplicated source access: in every reachable state of the
    coordinator, under any interleaving of fetches, source answers, failures,
    callbacks and evictions, the calls open at the source are at most
    [max_concurrency] and exactly the permits taken, and no request is being
    loaded twice at once: calls started minus calls answered is one while its
    task loads and zero otherwise. *)
Theorem coordinator_bounded (c : HistoricalCoordinator) (H : coordinator_reachable c) :
  loading_count (co_inflight c) <= co_max_concurrency c
  /\ co_permits c = co_max_concurrency c - loading_count (co_inflight c)
  /\ forall k, open_calls k (co_log c) = loading_at (co_inflight c) k /\ 0 <= open_calls k (co_log c) <= 1.
Proof.
  apply coordinator_reachable_ok in H as [H1 H2 H3 H4 H5 H6]. split_and!; [lia|lia|].
  intros k. split; [done|]. rewrite H4. unfold loading_at.
  destruct (_ !! k) as [t|]; [destruct (is_loading t)|]; lia.
Qed.

(** A cache hit is authoritative and exactly covered: whatever a reachable
    coordinator serves from its cache is the part inside the requested window
    of one verified answer of the source to a fetch of the same instrument and
    timeframe whose window contains the requested one; partial coverage never
    hits. *)
Theorem cache_hit_authoritative (c : HistoricalCoordinator) (k : HistoricalRequestKey)
    (cs : list Candle) (H : coordinator_reachable c) (Hhit : cache_get (co_cache c) k = Some cs) :
  exists plan r all,
    LoadAnswered plan (Ok r) ∈ co_log c /\ verify_source_candles plan r = Ok all
    /\ plan_instrument plan = key_instrument k
    /\ req_timeframe (plan_requirement plan) = key_timeframe k
    /\ plan_start plan <= key_start k /\ key_end k <= plan_end plan
    /\ cs = filter (fun x => key_start k <= start_timestamp x < key_end k) all.
Proof.
  apply coordinator_reachable_ok in H as [_ _ _ _ H5 _]. unfold cache_get in Hhit.
  destruct (co_cache c !! _) as [e|] eqn:E; [|done]. destruct (covers e _ _) eqn:Hc; [|done].
  injection Hhit as <-. destruct (H5 _ _ E) as (plan & (r & Hr & Hv) & [= E1 E2] & E3 & E4).
  unfold covers in Hc. zbool. exists plan, r, (entry_candles e). by split_and!; try lia.
Qed.

(** No deadlock: while any request is in flight some step that brings it
    forward is enabled (a queued task can take a permit, the source can answer,
    or a finished task can be discarded). *)
Theorem coordinator_progress (c : HistoricalCoordinator) (H : coordinator_reachable c)
    (k : HistoricalRequestKey) (t : Task) (Hk : co_inflight c !! k = Some t) :
  exists k' t', co_inflight c !! k' = Some t'
    /\ ((task_phase t' = Queued /\ 0 < co_permits c) \/ task_phase t' = Loading
        \/ exists o, task_phase t' = Finished o).
Proof.
  apply coordinator_reachable_ok in H as [H1 H2 H3 H4 H5 H6].
  destruct (task_phase t) eqn:Ht; [|by eauto 7..].
  destruct (decide (0 < co_permits c)) as [Hp|Hp]; [by eauto 7|].
  assert (loading_count (co_inflight c) <> 0) as Hn by lia. unfold loading_count in Hn.
  destruct (map_choose (filter (fun p => is_loading p.2 = true) (co_inflight c))) as (k' & t' & Hk').
  { intros He. rewrite He, map_size_empty in Hn. done. }
  apply map_lookup_filter_Some in Hk' as [Hk' Hl]. exists k', t'. split; [done|].
  unfold is_loading in Hl. cbn in Hl. destruct (task_phase t'); [done|eauto|done].
Qed.

(** Verification of a source result: what passes is a permutation of the
    answer, all of the planned instrument, in chronological order without
    overlap and, for an intraday request, of the requested width; everything
    else is the provider-neutral quality error, and an empty answer is not an
    error. *)
Theorem verify_source_candles_correct (plan : HistoricalFetchPlan) (r : HistoricalResult)
    (Hvalid : Forall candle_valid (res_candles r)) :
  (forall cs, verify_source_candles plan r = Ok cs ->
     cs ≡ₚ res_candles r /\ verified_candles plan cs)
  /\ (forall e, verify_source_candles plan r = Raise e -> exists m, e = HistoricalDataQualityError m)
  /\ (res_candles r = [] -> verify_source_candles plan r = Ok []).
Proof.
  split_and!.
  - intros cs. by apply verify_source_candles_ok.
  - intros e. unfold verify_source_candles. unfold raise_if.
    destruct (py_any _ (res_candles r)); cbn; [intros [= <-]; eauto|].
    destruct (res_candles r) as [|c0 l]; [done|].
    destruct (mk_series _ _); [|intros [= <-]; eauto]. destruct (_ && _); cbn; [intros [= <-]; eauto|done].
  - intros E. unfold verify_source_candles. by rewrite E.
Qed.

(** * Witnesses *)

Definition day_plan : HistoricalFetchPlan := {|
  plan_instrument := reliance; plan_requirement := {| req_timeframe := tf 1; lookback := 2 |};
  plan_start := at_local 9 15; plan_end := at_local 15 30; plan_interval := us_per_minute |}.

Definition day_answer : HistoricalResult := {|
  res_request := {| req_instrument := reliance; req_start := at_local 9 15;
                    req_end := at_local 15 30; req_interval := us_per_minute |};
  res_candles := [bar reliance (at_local 9 16) (at_local 9 17) 101 105 100 104 20;
                  bar reliance (at_local 9 15) (at_local 9 16) 100 103 99 101 10] |}.

Definition idle_coordinator : HistoricalCoordinator := {|
  co_cache := ∅; co_inflight := ∅; co_permits := 1; co_max_concurrency := 1; co_log := [] |}.

Definition queued : Task := {| task_plan := day_plan; task_phase := Queued |}.
Definition loading : Task := {| task_plan := day_plan; task_phase := Loading |}.

(** Fetch, start and answer: the coordinator with the day cached. *)
Definition loading_coordinator : HistoricalCoordinator :=
  start_load (fetch idle_coordinator day_plan).1 (plan_key day_plan) queued.
Definition warmed_coordinator : HistoricalCoordinator :=
  finish_load loading_coordinator (plan_key day_plan) loading (Ok day_answer).

Lemma loading_reachable : coordinator_reachable loading_coordinator.
Proof.
  exists 1, idle_coordinator. split; [reflexivity|].
  eapply rtc_l; [apply (step_fetch idle_coordinator day_plan)|].
  eapply rtc_once. apply step_start; by vm_compute.
Qed.

Lemma warmed_reachable : coordinator_reachable warmed_coordinator.
Proof.
  destruct loading_reachable as (n & c0 & H0 & H). exists n, c0. split; [done|].
  eapply rtc_r; [exact H|]. apply step_answer; by vm_compute.
Qed.

Lemma coordinator_bounded_witness :
  loading_count (co_inflight loading_coordinator) <= 1
  /\ open_calls (plan_key day_plan) (co_log loading_coordinator) = 1.
Proof.
  destruct (coordinator_bounded loading_coordinator loading_reachable) as (H1 & _ & H3).
  split; [exact H1|]. rewrite (proj1 (H3 (plan_key day_plan))). by vm_compute.
Defined.

Definition first_minute : HistoricalRequestKey := {|
  key_instrument := reliance; key_timeframe := tf 1;
  key_start := at_local 9 15; key_end := at_local 9 16 |}.

Lemma cache_hit_authoritative_witness :
  exists cs plan r all,
    cache_get (co_cache warmed_coordinator) first_minute = Some cs /\ length cs = 1%nat
    /\ LoadAnswered plan (Ok r) ∈ co_log warmed_coordinator /\ verify_source_candles plan r = Ok all.
Proof.
  destruct (cache_get (co_cache warmed_coordinator) first_minute) as [cs|] eqn:E; [|by vm_compute in E].
  destruct (cache_hit_authoritative warmed_coordinator first_minute cs warmed_reachable E)
    as (plan & r & all & H1 & H2 & _).
  exists cs, plan, r, all. split_and!; [reflexivity| |exact H1|exact H2].
  vm_compute in E. by injection E as <-.
Defined.

Lemma coordinator_progress_witness :
  exists k t, co_inflight loading_coordinator !! k = Some t
    /\ ((task_phase t = Queued /\ 0 < co_permits loading_coordinator) \/ task_phase t = Loading
        \/ exists o, task_phase t = Finished o).
Proof.
  apply (coordinator_progress loading_coordinator loading_reachable (plan_key day_plan) loading).
  by vm_compute.
Defined.

Lemma verify_source_candles_correct_witness :
  exists cs, verify_source_candles day_plan day_answer = Ok cs
    /\ cs ≡ₚ res_candles day_answer /\ verified_candles day_plan cs.
Proof.
  destruct (verify_source_candles_correct day_plan day_answer) as [H _].
  - repeat constructor; apply bar_valid; reflexivity.
  - destruct (verify_source_candles day_plan day_answer) as [cs|] eqn:E; [|by vm_compute in E].
    exists cs. split; [reflexivity|]. by apply H.
Defined.
