(* ===== verification/Planner.v ===== *)
(** Fetch windows over completed sessions: [HistoricalRangePlanner] and
    [plan_direct_fetches] of [market_engine/historical/service.py].

    Python computes capacities with [float] seconds; for durations of whole
    seconds every quotient is an exact integer division, which is what the
    model does in microseconds. *)
From S2P Require Import Prelude PyTime MarketData Timeframe Session Buckets Context.
From S2P Require Import Samples Requirements Coordinator Resampling.

Local Open Scope Z_scope.

(** * Definitions *)

Record HistoricalRangePlanner : Type := {
  pl_schedule : SessionSchedule;
  pl_timezone : ZoneInfo;
  pl_window : HistoricalCalendarWindow;
  pl_margin : Z;
  pl_effective : EffectiveSchedule;
}.

(** [HistoricalRangePlanner.__init__] *)
Definition mk_planner (schedule : SessionSchedule) (tz : ZoneInfo)
    (window : HistoricalCalendarWindow) (margin : Z) (overrides : list TradingSessionOverride)
    : result HistoricalRangePlanner :=
  effective ← mk_effective schedule overrides;
  Ok {| pl_schedule := schedule; pl_timezone := tz; pl_window := window; pl_margin := margin;
        pl_effective := effective |}.

Definition pl_calendar (self : HistoricalRangePlanner) : TradingCalendar := win_calendar (pl_window self).

(** [anchor_date] *)
Definition anchor_date (self : HistoricalRangePlanner) (reference : instant) : date :=
  local_date (pl_timezone self) reference.

(** [_localize] *)
Definition localize (self : HistoricalRangePlanner) (day : date) (moment : time) : instant :=
  wall_to_utc (pl_timezone self) (combine day moment).

(** [session_bounds] *)
Definition session_bounds (self : HistoricalRangePlanner) (trading_date : date)
    : instant * instant :=
  (localize self trading_date (regular_open (pl_schedule self)),
   localize self trading_date (regular_close (pl_schedule self))).

(** [newest_completed_session] *)
Definition newest_completed_session (self : HistoricalRangePlanner) (reference : instant)
    : result date :=
  previous_trading_day (pl_window self) (anchor_date self reference).

(** [_interval_seconds] *)
Definition interval_length (iv : TradingInterval) : timedelta := interval_end iv - interval_start iv.

(** [_candles_per_session] *)
Definition candles_per_session (self : HistoricalRangePlanner) (t : Timeframe) : Z :=
  Z.max (interval_length (bounds (pl_schedule self)) / interval_for_timeframe t) 1.

(** [_sessions_needed] *)
Definition sessions_needed (self : HistoricalRangePlanner) (r : HistoricalRequirement) : Z :=
  if is_session (req_timeframe r) then lookback r
  else - (- lookback r / candles_per_session self (req_timeframe r)) + pl_margin self.

(** [_capacity_for] *)
Definition capacity_for (self : HistoricalRangePlanner) (day : date) (interval : timedelta) : Z :=
  z_sum ((fun iv => Z.max (interval_length iv / interval) 1) <$> intervals_for (pl_effective self) day).

(** [_guard_special] *)
Definition guard_special (self : HistoricalRangePlanner) (day : date) : result unit :=
  raise_if (bool_decide (day ∈ open_sessions (pl_calendar self))
            && negb (has_override (pl_effective self) day)) (MissingSessionTimingError day).

(** One guarded step back. *)
Definition guarded_previous (self : HistoricalRangePlanner) (cursor : date) : result date :=
  d ← previous_trading_day (pl_window self) cursor;
  _ ← guard_special self d;
  Ok d.

(** The [while cumulative < lookback] loop, newest first; [None] is an exhausted
    bound. *)
Fixpoint capacity_loop (self : HistoricalRangePlanner) (need : Z) (interval : timedelta)
    (fuel : nat) (cursor : date) (cumulative : Z) : option (result (list date)) :=
  match fuel with
  | O => None
  | S fuel =>
      if cumulative <? need then
        match guarded_previous self cursor with
        | Raise e => Some (Raise e)
        | Ok d =>
            rest ← capacity_loop self need interval fuel d (cumulative + capacity_for self d interval);
            Some (rest ← rest; Ok (d :: rest))
        end
      else Some (Ok [])
  end.

(** Every date adds at least one candle, so [lookback] dates are enough. *)
Definition capacity_fuel (need : Z) : nat := S (Z.to_nat need).

(** The [for _ in range(self._margin)] loop. *)
Fixpoint margin_loop (self : HistoricalRangePlanner) (n : nat) (cursor : date) : result (list date) :=
  match n with
  | O => Ok []
  | S n => d ← guarded_previous self cursor; rest ← margin_loop self n d; Ok (d :: rest)
  end.

(** The dates [_resolve_intraday_over_special] collects, oldest first. *)
Definition special_dates (self : HistoricalRangePlanner) (r : HistoricalRequirement) (anchor : date)
    : result (list date) :=
  newest ← default (Raise OutsideCalendarCoverageError)
    (capacity_loop self (lookback r) (interval_for_timeframe (req_timeframe r))
       (capacity_fuel (lookback r)) anchor 0);
  older ← margin_loop self (Z.to_nat (pl_margin self)) (List.last newest anchor);
  Ok (reverse (newest ++ older)).

(** [_resolve_intraday_over_special] *)
Definition resolve_intraday_over_special (self : HistoricalRangePlanner)
    (r : HistoricalRequirement) (anchor : date) : result (instant * instant) :=
  dates ← special_dates self r anchor;
  match head dates, last dates with
  | Some first, Some final =>
      match envelope_for (pl_effective self) first, envelope_for (pl_effective self) final with
      | Some a, Some b => Ok (localize self first (interval_start a), localize self final (interval_end b))
      | _, _ => Raise IndexError
      end
  | _, _ => Raise IndexError
  end.

(** [_localize_default] *)
Definition localize_default (self : HistoricalRangePlanner) (dates : list date)
    : result (instant * instant) :=
  match head dates, last dates with
  | Some first, Some final =>
      Ok (localize self first (regular_open (pl_schedule self)),
          localize self final (regular_close (pl_schedule self)))
  | _, _ => Raise IndexError
  end.

(** [resolve] *)
Definition resolve (self : HistoricalRangePlanner) (r : HistoricalRequirement) (reference : instant)
    : result (instant * instant) :=
  let anchor := anchor_date self reference in
  dates ← previous_trading_days (pl_window self) anchor (sessions_needed self r);
  let special := filter (fun d => d ∈ open_sessions (pl_calendar self)) dates in
  if is_session (req_timeframe r) || match special with [] => true | _ => false end
  then localize_default self dates
  else _ ← for_each (guard_special self) special;
       resolve_intraday_over_special self r anchor.

(** [_instrument_sort_key] and [_sorted_instruments]: Python's tuple order. *)
Definition instrument_leb (a b : Instrument) : bool :=
  if bool_decide (exchange a = exchange b) then String.leb (symbol a) (symbol b)
  else String.leb (exchange a) (exchange b).

Definition sorted_instruments (instruments : list Instrument) : list Instrument :=
  py_sorted instrument_leb instruments.

(** [_sorted_requirements] *)
Definition sorted_requirements (requirements : list HistoricalRequirement)
    : list HistoricalRequirement :=
  py_sorted (fun a b => timeframe_leb (req_timeframe a) (req_timeframe b)) requirements.

(** [plan_direct_fetches] *)
Definition plan_direct_fetches (instruments : list Instrument)
    (effective_requirements : list HistoricalRequirement) (direct : gset Timeframe)
    (planner : HistoricalRangePlanner) (reference : instant) : result (list HistoricalFetchPlan) :=
  let requirements := sorted_requirements effective_requirements in
  plans ← traverse (fun i => traverse (fun r =>
      w ← resolve planner r reference;
      Ok {| plan_instrument := i; plan_requirement := r; plan_start := w.1; plan_end := w.2;
            plan_interval := interval_for_timeframe (req_timeframe r) |})
    (filter (fun r => req_timeframe r ∈ direct) requirements)) (sorted_instruments instruments);
  Ok (concat plans).

(** * Specification *)

Record planner_valid (p : HistoricalRangePlanner) : Prop := {
  pv_effective : effective_valid (pl_effective p);
  pv_default : eff_default (pl_effective p) = pl_schedule p;
  pv_margin : 0 <= pl_margin p;
}.

(** The candles of a timeframe that a date's live intervals hold. *)
Definition day_capacity (p : HistoricalRangePlanner) (t : Timeframe) (d : date) : Z :=
  Z.of_nat (length (day_buckets d t (intervals_for (pl_effective p) d) (pl_timezone p))).

(** Consecutive trading days that end just before [anchor], oldest first. *)
Definition completed_sessions (p : HistoricalRangePlanner) (anchor : date) (dates : list date) : Prop :=
  dates <> [] /\ descending_run (pl_window p) anchor (reverse dates).

(** * Lemmas *)

Lemma length_day_buckets k d t ivs tz :
  length (day_buckets_from k d t ivs tz)
  = sum_list ((fun iv => length (session_buckets d t iv tz)) <$> ivs).
Proof.
  revert k. induction ivs as [|iv ivs IH]; intros k; [done|]. cbn [day_buckets_from].
  rewrite length_app, length_renumber, IH. done.
Qed.

Lemma floor_capacity len d n :
  0 < len -> 0 < d -> Z.max (len / d) 1 <= Z.of_nat (Z.to_nat ((len + d - 1) / d)) + n - n.
Proof.
  intros Hl Hd. assert (1 <= (len + d - 1) / d) by (apply Z.div_le_lower_bound; lia).
  assert (len / d <= (len + d - 1) / d) by (apply Z.div_le_mono; lia). lia.
Qed.

(** The planner's floor capacity never exceeds what the buckets hold. *)
Lemma interval_capacity p t td iv :
  timeframe_valid t -> is_session t = false -> interval_valid iv ->
  Z.max (interval_length iv / interval_for_timeframe t) 1
  <= Z.of_nat (length (session_buckets td t iv (pl_timezone p))).
Proof.
  intros Ht Hs (Hlt & _). unfold interval_for_timeframe.
  destruct (duration t) as [d|] eqn:Hd.
  - pose proof (timeframe_valid_duration _ _ Ht Hd) as Hp.
    rewrite (session_buckets_closed _ _ _ _ d), length_fmap, length_seqZ, Nat2Z.id by done.
    unfold bucket_count, combine, interval_length.
    pose proof (floor_capacity (interval_end iv - interval_start iv) d 0 ltac:(lia) Hp) as H.
    replace (td * us_per_day + interval_end iv - (td * us_per_day + interval_start iv) + d - 1)
      with (interval_end iv - interval_start iv + d - 1) by lia. lia.
  - unfold timeframe_valid, is_session in *. rewrite Hd in Ht. by destruct (kind t).
Qed.

Lemma capacity_for_bounds p t d :
  planner_valid p -> timeframe_valid t -> is_session t = false ->
  1 <= capacity_for p d (interval_for_timeframe t) <= day_capacity p t d.
Proof.
  intros [He _ _] Ht Hs. unfold capacity_for, day_capacity, day_buckets.
  rewrite length_day_buckets.
  destruct (intervals_for_valid _ d He) as (Hne & Hall & _).
  assert (forall ivs, Forall interval_valid ivs ->
    Z.of_nat (length ivs)
      <= z_sum ((fun iv => Z.max (interval_length iv / interval_for_timeframe t) 1) <$> ivs)
      <= Z.of_nat (sum_list ((fun iv => length (session_buckets d t iv (pl_timezone p))) <$> ivs))) as H.
  { induction 1 as [|iv ivs Hiv Hivs IH]; [done|]. rewrite !fmap_cons, z_sum_cons. cbn [sum_list_with length]. unfold id at 1.
    pose proof (interval_capacity p t d iv Ht Hs Hiv). lia. }
  specialize (H _ Hall). destruct (intervals_for (pl_effective p) d); [done|]. cbn [length] in H. lia.
Qed.

Lemma descending_run_app w r ds1 ds2 :
  descending_run w r ds1 -> descending_run w (List.last ds1 r) ds2 -> descending_run w r (ds1 ++ ds2).
Proof.
  induction 1 as [|r d ds Hd Hr IH]; cbn [app]; [done|].
  rewrite last_cons_default. intros H. constructor; [done|]. by apply IH.
Qed.

Lemma guarded_previous_ok p c d :
  guarded_previous p c = Ok d -> nearest_trading_day (pl_window p) c d /\ guard_special p d = Ok tt.
Proof.
  unfold guarded_previous. intros (x & Hx%previous_trading_day_ok & ([] & Hg & [= <-])%bind_ok)%bind_ok.
  done.
Qed.

Lemma capacity_loop_ok p need iv fuel cursor cum ds :
  capacity_loop p need iv fuel cursor cum = Some (Ok ds) ->
  descending_run (pl_window p) cursor ds /\ need <= cum + z_sum ((fun d => capacity_for p d iv) <$> ds)
  /\ (cum < need -> ds <> []) /\ Forall (fun d => guard_special p d = Ok tt) ds.
Proof.
  revert cursor cum ds. induction fuel as [|fuel IH]; intros cursor cum ds; cbn; [done|].
  destruct (cum <? need) eqn:E; zbool.
  - destruct (guarded_previous p cursor) as [d|] eqn:Hg; [|done].
    apply guarded_previous_ok in Hg as [Hn Hgd].
    destruct (capacity_loop p need iv fuel d _) as [[rest|]|] eqn:Hr; cbn; try done.
    intros [= <-]. destruct (IH _ _ _ Hr) as (H1 & H2 & _ & H4).
    rewrite fmap_cons, z_sum_cons. split_and!; [by constructor|lia|done|by constructor].
  - intros [= <-]. split_and!; [constructor|cbn; lia|lia|constructor].
Qed.

Lemma capacity_loop_total p need t fuel cursor cum :
  planner_valid p -> timeframe_valid t -> is_session t = false ->
  need - cum < Z.of_nat fuel -> (0 < fuel)%nat ->
  is_Some (capacity_loop p need (interval_for_timeframe t) fuel cursor cum).
Proof.
  intros Hp Ht Hs. revert cursor cum. induction fuel as [|fuel IH]; intros cursor cum Hf H0; [lia|]. cbn.
  destruct (cum <? need) eqn:E; zbool; [|by eexists].
  destruct (guarded_previous p cursor) as [d|e]; [|by eexists].
  pose proof (capacity_for_bounds p t d Hp Ht Hs).
  destruct (IH d (cum + capacity_for p d (interval_for_timeframe t))) as [r Hr]; [lia|lia|].
  rewrite Hr. by eexists.
Qed.

Lemma margin_loop_ok p n cursor ds :
  margin_loop p n cursor = Ok ds ->
  descending_run (pl_window p) cursor ds /\ Forall (fun d => guard_special p d = Ok tt) ds.
Proof.
  revert cursor ds. induction n as [|n IH]; intros cursor ds; cbn.
  - intros [= <-]. split; constructor.
  - intros (d & [Hn Hg]%guarded_previous_ok & (rest & [H1 H2]%IH & [= <-])%bind_ok)%bind_ok.
    split; by constructor.
Qed.

Lemma z_sum_app l1 l2 : z_sum (l1 ++ l2) = z_sum l1 + z_sum l2.
Proof. induction l1 as [|x l1 IH]; [done|]. cbn [app]. rewrite !z_sum_cons, IH. lia. Qed.

Lemma z_sum_perm l1 l2 : l1 ≡ₚ l2 -> z_sum l1 = z_sum l2.
Proof. induction 1; rewrite ?z_sum_cons in *; try lia; done. Qed.

Lemma z_sum_le {A} (f g : A -> Z) l :
  Forall (fun x => f x <= g x) l -> z_sum (f <$> l) <= z_sum (g <$> l).
Proof. induction 1 as [|x l Hx H IH]; [done|]. rewrite !fmap_cons, !z_sum_cons. lia. Qed.

Lemma z_sum_const_ge {A} (f : A -> Z) c l :
  Forall (fun x => c <= f x) l -> Z.of_nat (length l) * c <= z_sum (f <$> l).
Proof. induction 1 as [|x l Hx H IH]; [done|]. rewrite fmap_cons, z_sum_cons. cbn [length]. lia. Qed.

Lemma special_dates_ok p r anchor dates :
  planner_valid p -> requirement_valid r -> is_session (req_timeframe r) = false ->
  special_dates p r anchor = Ok dates ->
  completed_sessions p anchor dates
  /\ lookback r <= z_sum (day_capacity p (req_timeframe r) <$> dates)
  /\ Forall (fun d => guard_special p d = Ok tt) dates.
Proof.
  intros Hp [Ht Hl] Hs. unfold special_dates.
  destruct (capacity_loop_total p (lookback r) (req_timeframe r) (capacity_fuel (lookback r)) anchor 0)
    as [res Hres]; [done..|unfold capacity_fuel; lia|unfold capacity_fuel; lia|].
  rewrite Hres. cbn.
  intros (newest & -> & (older & [O1 O2]%margin_loop_ok & [= <-])%bind_ok)%bind_ok.
  destruct (capacity_loop_ok _ _ _ _ _ _ _ Hres) as (N1 & N2 & N3 & N4).
  split_and!.
  - split; [|rewrite reverse_involutive; by apply descending_run_app].
    intros He. apply (f_equal length) in He. rewrite length_reverse, length_app in He.
    destruct newest; [by apply N3; [lia|]|done].
  - rewrite (z_sum_perm _ (day_capacity p (req_timeframe r) <$> (newest ++ older)))
      by (apply fmap_Permutation, reverse_Permutation).
    rewrite fmap_app, z_sum_app.
    pose proof (z_sum_le (fun d => capacity_for p d (interval_for_timeframe (req_timeframe r)))
      (day_capacity p (req_timeframe r)) newest
      ltac:(apply Forall_forall; intros d _; apply capacity_for_bounds; done)).
    pose proof (z_sum_const_ge (day_capacity p (req_timeframe r)) 0 older
      ltac:(apply Forall_forall; intros d _; unfold day_capacity; lia)). lia.
  - apply Forall_reverse, Forall_app. done.
Qed.

Lemma ceil_capacity a b m : 0 < b -> 1 <= a -> 0 <= m -> a <= (- (- a / b) + m) * b /\ 1 <= - (- a / b) + m.
Proof.
  intros Hb Ha Hm. pose proof (Z.mul_div_le (- a) b Hb).
  assert (- a / b < 0) by (apply Z.div_lt_upper_bound; lia). split; [|lia].
  assert (a <= - (- a / b) * b) by lia. nia.
Qed.

Lemma envelope_for_default e d : has_override e d = false -> envelope_for e d = Some (bounds (eff_default e)).
Proof. unfold has_override, envelope_for. by destruct (eff_overrides e !! d). Qed.

Lemma previous_trading_days_run p anchor n dates :
  previous_trading_days (pl_window p) anchor n = Ok dates ->
  completed_sessions p anchor dates /\ Z.of_nat (length dates) = n.
Proof.
  unfold previous_trading_days, completed_sessions.
  intros ([] & Hn%raise_if_ok & (l & (Hl & Hr)%collect_previous_ok & [= <-])%bind_ok)%bind_ok. zbool.
  rewrite reverse_involutive, length_reverse. split_and!; [|done|lia].
  intros He. apply (f_equal length) in He. rewrite length_reverse in He. cbn in He. lia.
Qed.

Lemma ends_exist {A} (l : list A) : l <> [] -> exists x y, head l = Some x /\ last l = Some y.
Proof. destruct l as [|x l]; [done|]. intros _. exists x, (List.last l x). by rewrite last_default. Qed.

(** What a resolved window promises. *)
Definition window_covers (p : HistoricalRangePlanner) (r : HistoricalRequirement) (anchor : date)
    (dates : list date) (start stop : instant) : Prop :=
  completed_sessions p anchor dates
  /\ exists first final, head dates = Some first /\ last dates = Some final
     /\ if is_session (req_timeframe r) then
          Z.of_nat (length dates) = lookback r
          /\ (start, stop) = ((session_bounds p first).1, (session_bounds p final).2)
        else
          lookback r <= z_sum (day_capacity p (req_timeframe r) <$> dates)
          /\ Forall (fun d => guard_special p d = Ok tt) dates
          /\ exists a b, envelope_for (pl_effective p) first = Some a
             /\ envelope_for (pl_effective p) final = Some b
             /\ start = localize p first (interval_start a) /\ stop = localize p final (interval_end b).

Lemma resolve_default p r anchor dates start stop :
  planner_valid p -> requirement_valid r ->
  (forall d, has_override (pl_effective p) d = true -> d ∈ open_sessions (pl_calendar p)) ->
  previous_trading_days (pl_window p) anchor (sessions_needed p r) = Ok dates ->
  (is_session (req_timeframe r) = false -> filter (fun d => d ∈ open_sessions (pl_calendar p)) dates = []) ->
  localize_default p dates = Ok (start, stop) -> window_covers p r anchor dates start stop.
Proof.
  intros Hp [Ht Hl] Hov Hd Hsp Hloc. destruct (previous_trading_days_run _ _ _ _ Hd) as [Hc Hlen].
  split; [done|]. destruct (ends_exist dates) as (first & final & Hf & Hz); [apply Hc|].
  exists first, final. split_and!; [done|done|]. unfold localize_default in Hloc. rewrite Hf, Hz in Hloc.
  injection Hloc as <- <-. unfold sessions_needed in Hlen.
  destruct (is_session (req_timeframe r)) eqn:Hs; [done|]. specialize (Hsp eq_refl).
  assert (forall d, d ∈ dates -> (d ∉ open_sessions (pl_calendar p)) /\ has_override (pl_effective p) d = false) as Hno.
  { intros d Hin. assert (d ∉ open_sessions (pl_calendar p)) as Hnot.
    { intros Ho. assert (d ∈ filter (fun d => d ∈ open_sessions (pl_calendar p)) dates) as Hx
        by by apply list_elem_of_filter. rewrite Hsp in Hx. by apply elem_of_nil in Hx. }
    split; [done|]. destruct (has_override _ d) eqn:E; [|done]. by apply Hov in E. }
  assert (first ∈ dates /\ final ∈ dates) as [Hf1 Hz1].
  { split; [by apply head_Some_elem_of|by apply last_Some_elem_of]. }
  destruct Hp as [Pe Pd Pm]. split_and!.
  - set (per := candles_per_session p (req_timeframe r)) in *.
    assert (0 < per) as Hper by (unfold per, candles_per_session; lia).
    destruct (ceil_capacity (lookback r) per (pl_margin p) Hper Hl Pm) as [Hge _].
    rewrite <- Hlen in Hge. etrans; [exact Hge|]. apply z_sum_const_ge, Forall_forall. intros d Hin.
    destruct (Hno d Hin) as [_ Hov']. unfold day_capacity, day_buckets. rewrite length_day_buckets.
    unfold intervals_for. unfold has_override in Hov'. destruct (eff_overrides _ !! d); [done|].
    rewrite Pd. cbn [fmap list_fmap sum_list_with]. unfold id. rewrite Nat.add_0_r.
    apply interval_capacity; try done. apply bounds_valid. rewrite <- Pd. apply Pe.
  - apply Forall_forall. intros d Hin. unfold guard_special. destruct (Hno d Hin) as [Hn _].
    by rewrite bool_decide_eq_false_2.
  - exists (bounds (pl_schedule p)), (bounds (pl_schedule p)). rewrite <- Pd.
    split_and!; [apply envelope_for_default, Hno, Hf1|apply envelope_for_default, Hno, Hz1|by rewrite Pd..].
Qed.

(** * Properties *)

(** A resolved window is sufficient and never touches the current session:
    it spans consecutive trading days, without a gap, that end at the session
    before the reference's exchange-local date; for a whole-session requirement
    they are exactly [lookback] of them; for an intraday requirement their live
    intervals, special sessions included, hold at least [lookback] buckets of
    the timeframe, and the window runs from the first of them opening to the
    last closing. *)
Theorem resolve_sufficient (p : HistoricalRangePlanner) (r : HistoricalRequirement)
    (reference start stop : instant) (Hp : planner_valid p) (Hr : requirement_valid r)
    (Hoverrides : forall d, has_override (pl_effective p) d = true -> d ∈ open_sessions (pl_calendar p))
    (H : resolve p r reference = Ok (start, stop)) :
  exists dates, window_covers p r (anchor_date p reference) dates start stop.
Proof.
  unfold resolve in H. apply bind_ok in H as (dates & Hd & H).
  destruct (is_session (req_timeframe r)) eqn:Hs; cbn [orb] in H.
  { exists dates. eapply resolve_default; try done. congruence. }
  destruct (filter _ dates) as [|s0 ss] eqn:Hf.
  { exists dates. by eapply resolve_default. }
  apply bind_ok in H as ([] & _ & H). unfold resolve_intraday_over_special in H.
  apply bind_ok in H as (dates' & Hd' & H).
  destruct (special_dates_ok _ _ _ _ Hp Hr Hs Hd') as (Hc & Hcap & Hg).
  exists dates'. split; [done|]. destruct (ends_exist dates') as (first & final & Hh & Hl); [apply Hc|].
  rewrite Hh, Hl in H. exists first, final. rewrite Hs. split_and!; try done.
  destruct (envelope_for _ first) as [a|], (envelope_for _ final) as [b|]; try done.
  injection H as <- <-. exists a, b. by split_and!.
Qed.

Definition sample_planner : HistoricalRangePlanner := {|
  pl_schedule := nse_schedule; pl_timezone := kolkata; pl_window := window_2026; pl_margin := 1;
  pl_effective := ordinary |}.

Lemma sample_planner_valid : planner_valid sample_planner.
Proof. split; [apply ordinary_valid|done|done]. Qed.

Lemma resolve_sufficient_witness :
  exists start stop dates,
    resolve sample_planner {| req_timeframe := tf 5; lookback := 80 |} (at_local 10 0) = Ok (start, stop)
    /\ window_covers sample_planner {| req_timeframe := tf 5; lookback := 80 |} sample_date dates start stop.
Proof.
  destruct (resolve sample_planner {| req_timeframe := tf 5; lookback := 80 |} (at_local 10 0))
    as [[start stop]|] eqn:E; [|by vm_compute in E].
  destruct (resolve_sufficient sample_planner {| req_timeframe := tf 5; lookback := 80 |} (at_local 10 0)
    start stop) as [dates Hd].
  - apply sample_planner_valid.
  - split; [reflexivity|cbn; lia].
  - intros d Hd. unfold has_override, sample_planner, ordinary in Hd. cbn [pl_effective eff_overrides] in Hd.
    by rewrite lookup_empty in Hd.
  - exact E.
  - exists start, stop, dates. split; [reflexivity|exact Hd].
Defined.
