(* ===== verification/Warmup.v ===== *)
(** Historical warm-up and repair of one process's instruments:
    [HistoricalWarmupService] of [market_engine/historical/service.py].

    The service reaches history only through the coordinator's [fetch], which
    either returns candles or raises a source or quality error that
    [_safe_fetch] turns into [None]; that outcome, one per plan, is the
    parameter [safe_fetch], and [VerifiedFetch] is what the coordinator promises
    about it. *)
From S2P Require Import Prelude PyTime MarketData Timeframe Session Buckets Context.
From S2P Require Import Samples Requirements Coordinator Resampling Planner CandleEngine SessionStatistics TickEngine.

Local Open Scope Z_scope.

(** * Statuses *)

Inductive WarmupState : Type := NOT_STARTED | WARMING | SATISFIED | PARTIAL | FAILED.

#[global] Instance WarmupState_eq_dec : EqDecision WarmupState.
Proof. solve_decision. Defined.

Record InstrumentWarmupStatus : Type := {
  wst_instrument : Instrument;
  wst_state : WarmupState;
  wst_satisfied : list Timeframe;
  wst_unresolved : list Timeframe;
  wst_pending_reconstruction : list Timeframe;
}.

(** [_warming_status] *)
Definition warming_status (i : Instrument) : InstrumentWarmupStatus := {|
  wst_instrument := i; wst_state := WARMING; wst_satisfied := []; wst_unresolved := [];
  wst_pending_reconstruction := [] |}.

(** [_terminal_status] *)
Definition terminal_status (i : Instrument) (satisfied unresolved pending : list Timeframe)
    : InstrumentWarmupStatus := {|
  wst_instrument := i;
  wst_state := match unresolved, satisfied with
               | _ :: _, _ :: _ => PARTIAL
               | _ :: _, [] => FAILED
               | [], _ => SATISFIED
               end;
  wst_satisfied := satisfied; wst_unresolved := unresolved;
  wst_pending_reconstruction := pending |}.

(** [_Descriptor] *)
Inductive DescriptorKind : Type := KDirect | KReconstruct | KPending | KFailed.

Record Descriptor : Type := {
  desc_requirement : HistoricalRequirement;
  desc_kind : DescriptorKind;
  desc_plan : option HistoricalFetchPlan;
  desc_base : option Timeframe;
}.

(** * The service *)

Record HistoricalWarmupService : Type := {
  ws_registry : InstrumentStateRegistry;
  ws_direct : list Timeframe;   (* [coordinator.direct_timeframes] *)
  ws_planner : HistoricalRangePlanner;
  ws_candles : option CandleEngine;
  ws_supports_current_day : bool;
  ws_status : gmap Instrument InstrumentWarmupStatus;
}.

(** [status_for] *)
Definition status_for (self : HistoricalWarmupService) (i : Instrument) : InstrumentWarmupStatus :=
  match ws_status self !! i with
  | Some existing => existing
  | None => {| wst_instrument := i; wst_state := NOT_STARTED; wst_satisfied := [];
               wst_unresolved := []; wst_pending_reconstruction := [] |}
  end.

Definition set_status (self : HistoricalWarmupService) (i : Instrument) (s : InstrumentWarmupStatus)
    : HistoricalWarmupService := {|
  ws_registry := ws_registry self; ws_direct := ws_direct self; ws_planner := ws_planner self;
  ws_candles := ws_candles self; ws_supports_current_day := ws_supports_current_day self;
  ws_status := <[i := s]> (ws_status self) |}.

Definition set_registry (self : HistoricalWarmupService) (r : InstrumentStateRegistry)
    : HistoricalWarmupService := {|
  ws_registry := r; ws_direct := ws_direct self; ws_planner := ws_planner self;
  ws_candles := ws_candles self; ws_supports_current_day := ws_supports_current_day self;
  ws_status := ws_status self |}.

Definition set_candles (self : HistoricalWarmupService) (c : CandleEngine) : HistoricalWarmupService := {|
  ws_registry := ws_registry self; ws_direct := ws_direct self; ws_planner := ws_planner self;
  ws_candles := Some c; ws_supports_current_day := ws_supports_current_day self;
  ws_status := ws_status self |}.

(** [_fetch_plan] *)
Definition fetch_plan (planner : HistoricalRangePlanner) (i : Instrument) (r : HistoricalRequirement)
    (fetch_timeframe : Timeframe) (reference : instant) : result HistoricalFetchPlan :=
  w ← resolve planner r reference;
  requirement ← mk_requirement fetch_timeframe (lookback r);
  Ok {| plan_instrument := i; plan_requirement := requirement; plan_start := w.1; plan_end := w.2;
        plan_interval := interval_for_timeframe fetch_timeframe |}.

(** [_planned]: only a missing session timing is caught. *)
Definition planned (planner : HistoricalRangePlanner) (i : Instrument) (r : HistoricalRequirement)
    (fetch_timeframe : Timeframe) (k : DescriptorKind) (base : option Timeframe) (reference : instant)
    : result Descriptor :=
  match fetch_plan planner i r fetch_timeframe reference with
  | Ok plan => Ok {| desc_requirement := r; desc_kind := k; desc_plan := Some plan; desc_base := base |}
  | Raise (MissingSessionTimingError _) =>
      Ok {| desc_requirement := r; desc_kind := KFailed; desc_plan := None; desc_base := None |}
  | Raise e => Raise e
  end.

(** [_classify] *)
Definition classify_requirement (planner : HistoricalRangePlanner) (direct : list Timeframe)
    (reference : instant) (i : Instrument) (r : HistoricalRequirement) : result Descriptor :=
  let t := req_timeframe r in
  if bool_decide (t ∈ direct) then planned planner i r t KDirect None reference
  else match select_base t direct with
       | None => Ok {| desc_requirement := r; desc_kind := KPending; desc_plan := None; desc_base := None |}
       | Some base => planned planner i r base KReconstruct (Some base) reference
       end.

(** [_prepare_candles] *)
Definition prepare_candles (planner : HistoricalRangePlanner) (t : Timeframe) (candles : list Candle)
    : list Candle :=
  let candles := if is_session t then
      canonical_session_series candles (pl_effective planner) (pl_calendar planner) (pl_timezone planner)
    else candles in
  py_sorted by_start candles.

(** [_direct_series] *)
Definition direct_series (planner : HistoricalRangePlanner) (r : HistoricalRequirement)
    (candles : option (list Candle)) : result (option HistoricalSeries) :=
  match candles with
  | None => Ok None
  | Some candles =>
      let prepared := prepare_candles planner (req_timeframe r) candles in
      if Z.of_nat (length prepared) <? lookback r then Ok None
      else Some <$> mk_series (req_timeframe r) (last_n (Z.to_nat (lookback r)) prepared)
  end.

(** [_reconstructed_series] *)
Definition reconstructed_series (planner : HistoricalRangePlanner) (d : Descriptor)
    (base_candles : option (list Candle)) : result (option HistoricalSeries) :=
  match base_candles, desc_base d with
  | Some ((_ :: _) as cs), Some base =>
      match mk_series base cs with
      | Raise _ => Ok None
      | Ok source =>
          rebuilt ← reconstruct_series source (req_timeframe (desc_requirement d)) (pl_effective planner)
            (pl_calendar planner) (pl_timezone planner);
          let need := lookback (desc_requirement d) in
          match rebuilt with
          | None => Ok None
          | Some s =>
              if Z.of_nat (length (hs_candles s)) <? need then Ok None
              else Some <$> mk_series (req_timeframe (desc_requirement d))
                     (last_n (Z.to_nat need) (hs_candles s))
          end
      end
  | _, _ => Ok None
  end.

(** [_previous_session] *)
Definition previous_session (planner : HistoricalRangePlanner) (s : HistoricalSeries)
    (reference : instant) : result PreviousSessionFacts :=
  d ← newest_completed_session planner reference;
  match last (hs_candles s) with
  | Some c => Ok {| ps_trading_date := d; ps_candle := c |}
  | None => Raise IndexError
  end.

(** The outcome of every plan of a warm-up: the last plan kept for each key. *)
Definition plan_table : Type := dict HistoricalRequestKey HistoricalFetchPlan.

Definition add_plans (plans : plan_table) (ds : list Descriptor) : plan_table :=
  fold_left (fun plans d => match desc_plan d with
                            | Some p => dict_set (plan_key p) p plans
                            | None => plans
                            end) ds plans.

Section Fetch.

(** The outcome of [_safe_fetch] for a plan. *)
Context (safe_fetch : HistoricalFetchPlan -> option (list Candle)).

(** [fetched.get(key)] *)
Definition fetched (plans : plan_table) (k : HistoricalRequestKey) : option (list Candle) :=
  p ← dict_get k plans; safe_fetch p.

(** [_build_series] *)
Definition build_series (planner : HistoricalRangePlanner) (plans : plan_table) (d : Descriptor)
    : result (option HistoricalSeries) :=
  let candles := p ← desc_plan d; fetched plans (plan_key p) in
  match desc_kind d with
  | KDirect => direct_series planner (desc_requirement d) candles
  | _ => reconstructed_series planner d candles
  end.

(** The accumulators of the loop of [_assemble]. *)
Record Assembly : Type := {
  as_series : list HistoricalSeries;
  as_satisfied : list Timeframe;
  as_unresolved : list Timeframe;
  as_pending : list Timeframe;
  as_previous : option PreviousSessionFacts;
}.

Definition empty_assembly : Assembly := {|
  as_series := []; as_satisfied := []; as_unresolved := []; as_pending := []; as_previous := None |}.

Definition add_unresolved (a : Assembly) (t : Timeframe) : Assembly := {|
  as_series := as_series a; as_satisfied := as_satisfied a; as_unresolved := as_unresolved a ++ [t];
  as_pending := as_pending a; as_previous := as_previous a |}.

(** One pass of the loop of [_assemble]. *)
Definition assemble_step (planner : HistoricalRangePlanner) (plans : plan_table) (reference : instant)
    (a : Assembly) (d : Descriptor) : result Assembly :=
  let t := req_timeframe (desc_requirement d) in
  match desc_kind d with
  | KPending => Ok {| as_series := as_series a; as_satisfied := as_satisfied a;
                      as_unresolved := as_unresolved a; as_pending := as_pending a ++ [t];
                      as_previous := as_previous a |}
  | KFailed => Ok (add_unresolved a t)
  | _ =>
      built ← build_series planner plans d;
      match built with
      | None => Ok (add_unresolved a t)
      | Some s =>
          previous ← if is_session t then Some <$> previous_session planner s reference
                     else Ok (as_previous a);
          Ok {| as_series := as_series a ++ [s]; as_satisfied := as_satisfied a ++ [t];
                as_unresolved := as_unresolved a; as_pending := as_pending a;
                as_previous := previous |}
      end
  end.

Fixpoint assemble_loop (planner : HistoricalRangePlanner) (plans : plan_table) (reference : instant)
    (a : Assembly) (ds : list Descriptor) : result Assembly :=
  match ds with
  | [] => Ok a
  | d :: ds => a ← assemble_step planner plans reference a d; assemble_loop planner plans reference a ds
  end.

(** [_assemble]: the registry with the installed context, and the status. *)
Definition assemble (planner : HistoricalRangePlanner) (registry : InstrumentStateRegistry)
    (plans : plan_table) (reference : instant) (i : Instrument) (ds : list Descriptor)
    : result (InstrumentStateRegistry * InstrumentWarmupStatus) :=
  a ← assemble_loop planner plans reference empty_assembly ds;
  context ← mk_historical_context i (as_previous a) (as_series a);
  registry ← install_historical registry i context;
  Ok (registry, terminal_status i (as_satisfied a) (as_unresolved a) (as_pending a)).

(** The first loop of [warmup]: statuses and plans; an exception of the planner
    that [_planned] does not catch leaves the statuses set so far. *)
Fixpoint classify_loop (self : HistoricalWarmupService) (reqs : list HistoricalRequirement)
    (reference : instant) (plans : plan_table) (instruments : list Instrument)
    : HistoricalWarmupService * result (list (Instrument * list Descriptor) * plan_table) :=
  match instruments with
  | [] => (self, Ok ([], plans))
  | i :: rest =>
      let self := set_status self i (warming_status i) in
      match traverse (classify_requirement (ws_planner self) (ws_direct self) reference i) reqs with
      | Raise e => (self, Raise e)
      | Ok ds =>
          let '(self, r) := classify_loop self reqs reference (add_plans plans ds) rest in
          (self, p ← r; Ok ((i, ds) :: p.1, p.2))
      end
  end.

(** The second loop of [warmup]. *)
Fixpoint assemble_all (self : HistoricalWarmupService) (plans : plan_table) (reference : instant)
    (descriptors : list (Instrument * list Descriptor)) : HistoricalWarmupService * result unit :=
  match descriptors with
  | [] => (self, Ok tt)
  | (i, ds) :: rest =>
      match assemble (ws_planner self) (ws_registry self) plans reference i ds with
      | Raise e => (self, Raise e)
      | Ok (registry, status) =>
          assemble_all (set_status (set_registry self registry) i status) plans reference rest
      end
  end.

(** [warmup]: the service it leaves and, unless it raises, the timeframes the
    coordinator's cache retains. *)
Definition warmup (self : HistoricalWarmupService) (instruments : list Instrument)
    (effective_requirements : list HistoricalRequirement) (reference : instant)
    : HistoricalWarmupService * result (gset Timeframe) :=
  let ordered := sorted_instruments instruments in
  let reqs := sorted_requirements effective_requirements in
  match classify_loop self reqs reference [] ordered with
  | (self, Raise e) => (self, Raise e)
  | (self, Ok (descriptors, plans)) =>
      let '(self, r) := assemble_all self plans reference descriptors in
      (self, _ ← r; Ok (list_to_set ((fun p => req_timeframe (plan_requirement p.2)) <$> plans)))
  end.

(** * Repair of completed intervals *)

(** [_repair_state] *)
Inductive RepairState : Type := Repair | CurrentDay | Skip.

#[global] Instance RepairState_eq_dec : EqDecision RepairState.
Proof. solve_decision. Defined.

Definition repair_state (self : HistoricalWarmupService) (c : IncompleteCandle) (anchor : date)
    : RepairState :=
  let td := local_date (pl_timezone (ws_planner self)) (ic_start_timestamp c) in
  if negb (is_trading_day (pl_calendar (ws_planner self)) td) || (anchor <? td) then Skip
  else if (td =? anchor) && negb (ws_supports_current_day self) then CurrentDay
  else Repair.

(** [_safe_candles] *)
Definition safe_candles (i : Instrument) (t : Timeframe) (start stop : instant) : option (list Candle) :=
  safe_fetch {| plan_instrument := i; plan_requirement := {| req_timeframe := t; lookback := 1 |};
                plan_start := start; plan_end := stop; plan_interval := interval_for_timeframe t |}.

(** [_authoritative_series] *)
Definition authoritative_series (self : HistoricalWarmupService) (i : Instrument) (t : Timeframe)
    (repairable : list IncompleteCandle) : result (option HistoricalSeries) :=
  let planner := ws_planner self in
  let dates := py_sorted Z.leb
    (remove_dups ((fun c => local_date (pl_timezone planner) (ic_start_timestamp c)) <$> repairable)) in
  match head dates, last dates with
  | Some first, Some final =>
      let start := (session_bounds planner first).1 in
      let stop := (session_bounds planner final).2 in
      if bool_decide (t ∈ ws_direct self) then
        match safe_candles i t start stop with
        | Some ((_ :: _) as candles) =>
            match prepare_candles planner t candles with
            | [] => Ok None
            | prepared => Some <$> mk_series t prepared
            end
        | _ => Ok None
        end
      else match select_base t (ws_direct self) with
        | None => Ok None
        | Some base =>
            match safe_candles i base start stop with
            | Some ((_ :: _) as candles) =>
                source ← mk_series base candles;
                reconstruct_series source t (pl_effective planner) (pl_calendar planner)
                  (pl_timezone planner)
            | _ => Ok None
            end
        end
  | _, _ => Raise IndexError
  end.

(** [by_identity.get(identity)]: a later candle of the same identity wins. *)
Definition authoritative_for (t : Timeframe) (candles : list Candle) (identity : CandleIdentity)
    : option Candle :=
  last (filter (fun c => identity_of c t = identity) candles).

(** [_apply_repairs] *)
Fixpoint apply_repairs (engine : CandleEngine) (t : Timeframe) (repairable : list IncompleteCandle)
    (candles : list Candle) : CandleEngine * list ReconciliationResult :=
  match repairable with
  | [] => (engine, [])
  | item :: rest =>
      let identity := identity_of_incomplete item in
      match authoritative_for t candles identity with
      | None =>
          let '(engine, rs) := apply_repairs engine t rest candles in
          (engine, {| rr_identity := identity; rr_outcome := NO_AUTHORITATIVE_CANDLE;
                      rr_candle := None |} :: rs)
      | Some authoritative =>
          let '(engine, r) := reconcile engine authoritative t in
          let '(engine, rs) := apply_repairs engine t rest candles in
          (engine, r :: rs)
      end
  end.

Definition outcome_without_candle (o : ReconciliationOutcome) (c : IncompleteCandle)
    : ReconciliationResult := {|
  rr_identity := identity_of_incomplete c; rr_outcome := o; rr_candle := None |}.

(** [_reconcile_timeframe] *)
Definition reconcile_timeframe (self : HistoricalWarmupService) (engine : CandleEngine)
    (i : Instrument) (t : Timeframe) (incomplete : list IncompleteCandle) (anchor : date)
    : CandleEngine * result (list ReconciliationResult) :=
  let withheld := outcome_without_candle CURRENT_DAY_WITHHELD
    <$> filter (fun c => repair_state self c anchor = CurrentDay) incomplete in
  let repairable := filter (fun c => repair_state self c anchor = Repair) incomplete in
  match repairable with
  | [] => (engine, Ok withheld)
  | _ =>
      match authoritative_series self i t repairable with
      | Raise e => (engine, Raise e)
      | Ok None => (engine, Ok (withheld ++ (outcome_without_candle NO_AUTHORITATIVE_CANDLE <$> repairable)))
      | Ok (Some s) =>
          let '(engine, rs) := apply_repairs engine t repairable (hs_candles s) in
          (engine, Ok (withheld ++ rs))
      end
  end.

(** The loop of [reconcile_completed] over the candle sets read at its start. *)
Fixpoint reconcile_sets (self : HistoricalWarmupService) (engine : CandleEngine) (i : Instrument)
    (sets : list TimeframeCandles) (anchor : date)
    : CandleEngine * result (list ReconciliationResult) :=
  match sets with
  | [] => (engine, Ok [])
  | s :: rest =>
      match reconcile_timeframe self engine i (tc_timeframe s) (tc_incomplete s) anchor with
      | (engine, Raise e) => (engine, Raise e)
      | (engine, Ok rs) =>
          let '(engine, more) := reconcile_sets self engine i rest anchor in
          (engine, more ← more; Ok (rs ++ more))
      end
  end.

(** [reconcile_completed] *)
Definition reconcile_completed (self : HistoricalWarmupService) (i : Instrument) (reference : instant)
    : HistoricalWarmupService * result (list ReconciliationResult) :=
  match ws_candles self with
  | None => (self, Ok [])
  | Some engine =>
      let anchor := anchor_date (ws_planner self) reference in
      let '(engine, rs) := reconcile_sets self engine i (candle_sets_for engine i) anchor in
      (set_candles self engine, rs)
  end.

End Fetch.

(** * What the coordinator promises *)

(** A fetch returns canonical candles verified for its plan. *)
Class VerifiedFetch (safe_fetch : HistoricalFetchPlan -> option (list Candle)) : Prop :=
  verified_fetch plan cs : safe_fetch plan = Some cs ->
    Forall candle_valid cs /\ verified_candles plan cs.

(** The coordinator's own path to the source, [_run], as an outcome. *)
Definition source_fetch (load : HistoricalRequest -> result HistoricalResult)
    (plan : HistoricalFetchPlan) : option (list Candle) :=
  match request ← plan_request plan; answer ← load request; verify_source_candles plan answer with
  | Ok cs => Some cs
  | Raise _ => None
  end.

(** Canonical results hold canonical candles, whatever the source. *)
#[global] Instance source_fetch_verified load
  (Hload : forall request answer, load request = Ok answer -> Forall candle_valid (res_candles answer)) :
  VerifiedFetch (source_fetch load).
Proof.
  intros plan cs. unfold source_fetch.
  destruct (request ← plan_request plan; _) as [cs'|] eqn:E; [|done]. intros [= <-].
  apply bind_ok in E as (rq & _ & (an & Han & Hv)%bind_ok). specialize (Hload _ _ Han).
  destruct (verify_source_candles_ok _ _ _ Hload Hv) as [Hp Hc]. split; [by rewrite Hp|done].
Qed.

(** * Lemmas *)

Lemma chronological_last_n n cs : chronological cs -> chronological (last_n n cs).
Proof. intros H. eapply StronglySorted_suffix; [apply last_n_suffix|done]. Qed.

Lemma length_last_n_exact {A} n (l : list A) : (n <= length l)%nat -> length (last_n n l) = n.
Proof. intros. unfold last_n. rewrite length_drop. lia. Qed.

(** A series of exactly the requested depth. *)
Definition series_for (i : Instrument) (r : HistoricalRequirement) (s : HistoricalSeries) : Prop :=
  hs_timeframe s = req_timeframe r /\ Z.of_nat (length (hs_candles s)) = lookback r
  /\ hs_instrument s = Some i /\ Forall (fun c => candle_instrument c = i) (hs_candles s)
  /\ chronological (hs_candles s).

Lemma trimmed_series i r cs :
  requirement_valid r -> lookback r <= Z.of_nat (length cs) -> Forall candle_valid cs ->
  Forall (fun c => candle_instrument c = i) cs -> chronological cs ->
  exists s, mk_series (req_timeframe r) (last_n (Z.to_nat (lookback r)) cs) = Ok s /\ series_for i r s.
Proof.
  intros [_ Hl] Hlen Hv Hi Hc.
  assert (length (last_n (Z.to_nat (lookback r)) cs) = Z.to_nat (lookback r)) as Hn
    by (apply length_last_n_exact; lia).
  set (l := last_n (Z.to_nat (lookback r)) cs) in *.
  assert (Forall (fun c => candle_instrument c = i) l) as Hil by by apply Forall_last_n.
  eexists. split.
  - apply (mk_series_intro _ i); [|by apply Forall_last_n|done|by apply chronological_last_n].
    intros E. rewrite E in Hn. cbn in Hn. lia.
  - split_and!; cbn; [done|lia| |done|by apply chronological_last_n].
    unfold hs_instrument. cbn [hs_candles]. destruct l as [|c l]; [cbn in Hn; lia|].
    apply Forall_cons in Hil as [Hci _]. cbn. by rewrite Hci.
Qed.

(** The dates of sorted session candles increase, so the candles are disjoint. *)
Lemma session_chronological tz off `{!FixedOffset tz off} cs :
  NoDup ((fun c => local_date tz (start_timestamp c)) <$> cs) ->
  Forall (fun c => end_timestamp c <= (local_date tz (start_timestamp c) + 1) * us_per_day - off) cs ->
  chronological (py_sorted by_start cs).
Proof.
  intros Hn He. rewrite <- (py_sorted_perm by_start cs) in Hn, He. revert Hn He.
  pose proof (py_sorted_sorted by_start by_start_total by_start_trans cs) as Hs.
  generalize dependent (py_sorted by_start cs). clear cs. intros cs Hs Hn He.
  induction Hs as [|c cs Hs IH Hc]; [constructor|].
  cbn in Hn. apply NoDup_cons in Hn as [Hnc Hn]. apply Forall_cons in He as [Hec He].
  constructor; [by apply IH|]. rewrite Forall_forall in *. intros x Hx.
  specialize (Hc x Hx). unfold by_start in Hc. zbool.
  assert (local_date tz (start_timestamp c) <> local_date tz (start_timestamp x)) as Hne.
  { intros E. apply Hnc. rewrite E. by apply (list_elem_of_fmap_2 (fun c => local_date tz (start_timestamp c))). }
  assert (local_date tz (start_timestamp c) <= local_date tz (start_timestamp x)) as Hle.
  { unfold local_date, wall_date. rewrite !fixed_to_wall. apply Z.div_le_mono; [done|lia]. }
  assert (local_date tz (start_timestamp x) * us_per_day <= start_timestamp x + off) as Hx1.
  { unfold local_date, wall_date. rewrite !fixed_to_wall. rewrite Z.mul_comm. by apply Z.mul_div_le. }
  assert ((local_date tz (start_timestamp c) + 1) * us_per_day
    <= local_date tz (start_timestamp x) * us_per_day) by (apply Z.mul_le_mono_nonneg_r; [done|lia]).
  cbn in Hec |- *. lia.
Qed.

Section Assemble.
Context (safe_fetch : HistoricalFetchPlan -> option (list Candle)) `{!VerifiedFetch safe_fetch}.
Context (planner : HistoricalRangePlanner) (Hplanner : planner_valid planner).
Context (off : timedelta) `{!FixedOffset (pl_timezone planner) off}.

Lemma session_of_valid c s :
  session_of (pl_timezone planner) (pl_effective planner) c s -> candle_valid c ->
  candle_valid s /\ candle_instrument s = candle_instrument c
  /\ end_timestamp s <= (local_date (pl_timezone planner) (start_timestamp c) + 1) * us_per_day - off.
Proof using All.
  intros (env & He & Hs & Hend & Hi & [= E1 E2 E3 E4 E5]) [].
  destruct (envelope_for_valid (pl_effective planner) (pv_effective _ Hplanner)
    (local_date (pl_timezone planner) (start_timestamp c))) as (env' & He' & (Hlt & Ht1 & Ht2)).
  rewrite He in He'. injection He' as <-.
  rewrite fixed_to_utc in Hs, Hend. unfold combine, valid_time in *. zbool.
  split_and!; [|done|lia]. split; rewrite ?E1, ?E2, ?E3, ?E4, ?E5; try done. lia.
Qed.

Lemma prepare_ok i t cs :
  Forall candle_valid cs -> Forall (fun c => candle_instrument c = i) cs -> chronological cs ->
  let out := prepare_candles planner t cs in
  Forall candle_valid out /\ Forall (fun c => candle_instrument c = i) out /\ chronological out.
Proof using All.
  intros Hv Hi Hc out. subst out. unfold prepare_candles. destruct (is_session t).
  - destruct (canonical_series_spec (pl_timezone planner) off _ (pl_effective planner)
      (pv_effective _ Hplanner) (pl_calendar planner) cs) as (N & Hout & _).
    set (out := canonical_session_series _ _ _ _) in *.
    assert (forall s, s ∈ out -> candle_valid s /\ candle_instrument s = i
      /\ end_timestamp s <= (local_date (pl_timezone planner) (start_timestamp s) + 1) * us_per_day - off) as Hall.
    { intros s Hs. destruct (Hout s Hs) as (c & Hcin & _ & Hd & Hso). rewrite Forall_forall in Hv, Hi.
      destruct (session_of_valid c s Hso (Hv c Hcin)) as (? & -> & ?). cbn in Hd. rewrite Hd. auto. }
    split_and!.
    + apply Forall_py_sorted, Forall_forall. intros s Hs. by apply Hall.
    + apply Forall_py_sorted, Forall_forall. intros s Hs. by apply Hall.
    + apply (session_chronological _ off); [done|]. apply Forall_forall. intros s Hs. by apply Hall.
  - rewrite py_sorted_id by by apply chronological_by_start. done.
Qed.

Lemma direct_series_ok i r cs :
  requirement_valid r -> Forall candle_valid cs ->
  Forall (fun c => candle_instrument c = i) cs -> chronological cs ->
  exists o, direct_series planner r (Some cs) = Ok o /\ forall s, o = Some s -> series_for i r s.
Proof using All.
  intros Hr Hv Hi Hc. unfold direct_series.
  destruct (prepare_ok i (req_timeframe r) cs Hv Hi Hc) as (P1 & P2 & P3).
  destruct (_ <? _) eqn:E; zbool; [by exists None|].
  destruct (trimmed_series i r _ Hr E P1 P2 P3) as (s & -> & Hs). exists (Some s).
  split; [done|]. by intros ? [= <-].
Qed.

Lemma reconstructed_series_ok i r d base cs :
  requirement_valid r -> desc_requirement d = r -> desc_base d = Some base ->
  divides_exactly (req_timeframe r) base = true ->
  Forall candle_valid cs -> Forall (fun c => candle_instrument c = i) cs -> chronological cs ->
  exists o, reconstructed_series planner d (Some cs) = Ok o /\ forall s, o = Some s -> series_for i r s.
Proof using All.
  intros Hr Hd Hb Hdiv Hv Hi Hc. unfold reconstructed_series. rewrite Hb, Hd.
  destruct cs as [|c0 cs]; [by exists None|].
  assert (mk_series base (c0 :: cs) = Ok {| hs_timeframe := base; hs_candles := c0 :: cs |}) as Hsrc
    by by apply (mk_series_intro base i).
  rewrite Hsrc. destruct (divides_exactly_spec _ _ Hdiv) as (t & b & Et & Eb & _).
  assert (duration (req_timeframe r) <> None) as Hint by congruence.
  destruct (reconstruct_series_total (pl_timezone planner) off _ base (req_timeframe r) b (c0 :: cs)
    {| hs_timeframe := base; hs_candles := c0 :: cs |} (pl_effective planner) (pl_calendar planner)
    (proj1 Hr) Eb Hdiv Hv Hsrc (pv_effective _ Hplanner))
    as (o & -> & _ & O2 & O3 & O4).
  cbn [mbind result_bind]. destruct o as [s|]; [|by exists None].
  destruct (_ <? _) eqn:E; zbool; [by exists None|].
  destruct (trimmed_series i r (hs_candles s) Hr E O3) as (s' & -> & Hs'); [|done|].
  { apply Forall_forall. intros c (td & iv & Hem)%O4.
    destruct (emitted_valid _ _ _ (proj1 Hr) _ _ (pv_effective _ Hplanner) _ _ Hv Hc Hint _ _ _ Hem)
      as (_ & x & Hx & -> & _). rewrite Forall_forall in Hi. by apply Hi. }
  exists (Some s'). split; [done|]. by intros ? [= <-].
Qed.

End Assemble.

Lemma select_base_divides t direct b :
  select_base t direct = Some b -> b ∈ direct /\ divides_exactly t b = true.
Proof.
  unfold select_base. destruct (_ || _); [done|].
  destruct (filter _ direct) as [|c cs] eqn:F; [done|]. intros [= <-].
  assert (fold_left longer cs c ∈ c :: cs) as Hin.
  { clear. induction cs as [|x cs IH] using rev_ind; [left|].
    rewrite fold_left_app. cbn. unfold longer at 1. destruct (_ <? _); set_solver. }
  rewrite <- F in Hin. apply list_elem_of_filter in Hin as [Hd Hin]. split; [done|]. by apply Is_true_true.
Qed.

(** What a classified requirement carries. *)
Definition descriptor_for (i : Instrument) (r : HistoricalRequirement) (d : Descriptor) : Prop :=
  desc_requirement d = r
  /\ match desc_kind d with
     | KDirect => exists p, desc_plan d = Some p /\ plan_instrument p = i
     | KReconstruct => exists p b, desc_plan d = Some p /\ desc_base d = Some b
         /\ plan_instrument p = i /\ divides_exactly (req_timeframe r) b = true
     | _ => True
     end.

Lemma planned_ok planner i r t k base reference d :
  planned planner i r t k base reference = Ok d ->
  desc_requirement d = r
  /\ (desc_kind d = KFailed \/ (desc_kind d = k /\ desc_base d = base
      /\ exists p, desc_plan d = Some p /\ plan_instrument p = i)).
Proof.
  unfold planned. destruct (fetch_plan planner i r t reference) as [p|e] eqn:E.
  - intros [= <-]. split; [done|]. right. split_and!; [done|done|]. exists p. split; [done|].
    unfold fetch_plan in E. by apply bind_ok in E as (? & _ & (? & _ & [= <-])%bind_ok).
  - destruct e; try done. intros [= <-]. split; [done|by left].
Qed.

Lemma classify_requirement_ok planner direct reference i r d :
  classify_requirement planner direct reference i r = Ok d -> descriptor_for i r d.
Proof.
  unfold classify_requirement, descriptor_for. case_bool_decide.
  - intros (-> & [->|(-> & _ & Hp)])%planned_ok; [done|]. auto.
  - destruct (select_base _ direct) as [b|] eqn:E; [|by intros [= <-]].
    apply select_base_divides in E as [_ E].
    intros (-> & [->|(-> & Hb & p & Hp & Hi)])%planned_ok; [done|]. split; [done|]. by exists p, b.
Qed.

(** The table of plans is keyed by the plans' own identities. *)
Definition plans_ok (plans : plan_table) : Prop := forall k p, dict_get k plans = Some p -> plan_key p = k.

Lemma add_plans_ok plans ds : plans_ok plans -> plans_ok (add_plans plans ds).
Proof.
  unfold add_plans. revert plans. induction ds as [|d ds IH]; intros plans Hp; [done|]. cbn. apply IH.
  destruct (desc_plan d) as [p|]; [|done]. intros k q. rewrite dict_get_set.
  case_decide as Hk; [intros [= <-]; done|auto].
Qed.

Lemma series_last i r s :
  series_for i r s -> requirement_valid r ->
  exists c, last (hs_candles s) = Some c /\ candle_instrument c = i.
Proof.
  intros (_ & Hl & _ & Hi & _) [_ H1]. destruct (hs_candles s) as [|c cs] eqn:E; [cbn in Hl; lia|].
  exists (List.last cs c). rewrite last_default. split; [done|].
  rewrite Forall_forall in Hi. apply Hi. apply last_Some_elem_of. by rewrite last_default.
Qed.

Section AssembleLoop.
Context (safe_fetch : HistoricalFetchPlan -> option (list Candle)) `{!VerifiedFetch safe_fetch}.
Context (planner : HistoricalRangePlanner) (Hplanner : planner_valid planner).
Context (off : timedelta) `{!FixedOffset (pl_timezone planner) off}.
Context (plans : plan_table) (Hplans : plans_ok plans) (reference : instant) (i : Instrument).

Lemma fetched_ok p cs :
  plan_instrument p = i -> fetched safe_fetch plans (plan_key p) = Some cs ->
  Forall candle_valid cs /\ Forall (fun c => candle_instrument c = i) cs /\ chronological cs.
Proof using All.
  intros Hi. unfold fetched. destruct (dict_get _ plans) as [q|] eqn:E; [|done]. cbn. intros Hf.
  apply verified_fetch in Hf as [Hv [V1 V2 V3]]. split_and!; [done| |done].
  apply Hplans in E. apply (f_equal key_instrument) in E. cbn in E. rewrite <- Hi, <- E. done.
Qed.

Lemma build_series_ok r d :
  requirement_valid r -> descriptor_for i r d -> desc_kind d = KDirect \/ desc_kind d = KReconstruct ->
  exists o, build_series safe_fetch planner plans d = Ok o /\ forall s, o = Some s -> series_for i r s.
Proof using All.
  intros Hr [Hreq Hd] Hk. unfold build_series. destruct Hk as [Hk|Hk]; rewrite Hk in *.
  - destruct Hd as (p & -> & Hi). cbn. rewrite Hreq.
    destruct (fetched _ _ (plan_key p)) as [cs|] eqn:E; [|by exists None].
    destruct (fetched_ok p cs Hi E) as (H1 & H2 & H3). by eapply direct_series_ok.
  - destruct Hd as (p & b & -> & Hb & Hi & Hdiv). cbn.
    destruct (fetched _ _ (plan_key p)) as [cs|] eqn:E; [|by exists None].
    destruct (fetched_ok p cs Hi E) as (H1 & H2 & H3). by eapply reconstructed_series_ok.
Qed.

(** The loop's accumulators after the requirements [rs]. *)
Record assembly_ok (rs : list HistoricalRequirement) (a : Assembly) : Prop := {
  ao_satisfied : as_satisfied a = hs_timeframe <$> as_series a;
  ao_partition : as_satisfied a ++ as_unresolved a ++ as_pending a ≡ₚ (req_timeframe <$> rs);
  ao_series : Forall (fun s => exists r, r ∈ rs /\ series_for i r s) (as_series a);
  ao_previous : forall p, as_previous a = Some p -> candle_instrument (ps_candle p) = i;
  ao_session : is_Some (as_previous a) <-> exists t, t ∈ as_satisfied a /\ is_session t = true;
}.

Lemma add_unresolved_ok rs a r t :
  assembly_ok rs a -> t = req_timeframe r -> assembly_ok (rs ++ [r]) (add_unresolved a t).
Proof using All.
  intros [H1 H2 H3 H4 H5] ->. split; cbn; try done.
  - rewrite fmap_app, <- H2. cbn. solve_Permutation.
  - eapply Forall_impl; [exact H3|]. intros s (x & Hx & Hs). exists x. set_solver.
Qed.

Lemma assemble_step_ok rs a r d :
  requirement_valid r -> descriptor_for i r d -> assembly_ok rs a ->
  match assemble_step safe_fetch planner plans reference a d with
  | Ok a' => assembly_ok (rs ++ [r]) a'
  | Raise e => e = OutsideCalendarCoverageError
  end.
Proof using All.
  intros Hr Hd Ha. pose proof Hd as [Hreq _]. unfold assemble_step. rewrite Hreq.
  assert (forall k, desc_kind d = k -> k = KDirect \/ k = KReconstruct ->
    match (built ← build_series safe_fetch planner plans d;
      match built with
      | None => Ok (add_unresolved a (req_timeframe r))
      | Some s =>
          previous ← if is_session (req_timeframe r) then Some <$> previous_session planner s reference
                     else Ok (as_previous a);
          Ok {| as_series := as_series a ++ [s]; as_satisfied := as_satisfied a ++ [req_timeframe r];
                as_unresolved := as_unresolved a; as_pending := as_pending a;
                as_previous := previous |}
      end) with
    | Ok a' => assembly_ok (rs ++ [r]) a'
    | Raise e => e = OutsideCalendarCoverageError
    end) as Hbuild.
  { intros k Ek Hk. destruct (build_series_ok r d Hr Hd) as (o & -> & Ho); [by rewrite Ek|].
    cbn [mbind result_bind]. destruct o as [s|]; [|by apply add_unresolved_ok].
    specialize (Ho s eq_refl). destruct Ha as [H1 H2 H3 H4 H5].
    destruct (series_last i r s Ho Hr) as (c & Hlast & Hci). destruct Ho as [Hst Ho].
    assert (as_satisfied a ++ [req_timeframe r] = hs_timeframe <$> (as_series a ++ [s])) as E1.
    { rewrite fmap_app, <- H1. cbn. by rewrite Hst. }
    assert ((as_satisfied a ++ [req_timeframe r]) ++ as_unresolved a ++ as_pending a
      ≡ₚ (req_timeframe <$> (rs ++ [r]))) as E2.
    { rewrite fmap_app, <- H2. cbn. solve_Permutation. }
    assert (Forall (fun s => exists q, q ∈ rs ++ [r] /\ series_for i q s) (as_series a ++ [s])) as E3.
    { apply Forall_app. split.
      - eapply Forall_impl; [exact H3|]. intros x (q & Hq & Hx). exists q. set_solver.
      - repeat constructor. exists r. split; [set_solver|]. by split. }
    destruct (is_session (req_timeframe r)) eqn:Hs.
    - unfold previous_session. rewrite Hlast.
      destruct (newest_completed_session planner reference) as [nd|e] eqn:En; cbn.
      + split; cbn; try done; [by intros p [= <-]|]. split; [intros _|by eexists].
        exists (req_timeframe r). set_solver.
      + unfold newest_completed_session in En. by apply previous_trading_day_raise in En as [-> _].
    - cbn. split; cbn; try done. rewrite H5. split; intros (t & Ht & Hts).
      + exists t. set_solver.
      + apply elem_of_app in Ht as [Ht|Ht%list_elem_of_singleton]; [eauto|congruence]. }
  destruct (desc_kind d) eqn:Ek; [by eapply Hbuild; [done|left]|by eapply Hbuild; [done|right]| |].
  - destruct Ha as [H1 H2 H3 H4 H5]. split; cbn; try done.
    + rewrite fmap_app, <- H2. cbn. by rewrite !app_assoc.
    + eapply Forall_impl; [exact H3|]. intros x (q & Hq & Hx). exists q. set_solver.
  - by apply add_unresolved_ok.
Qed.

Lemma assemble_loop_ok rs a qs ds :
  Forall requirement_valid qs -> Forall2 (descriptor_for i) qs ds -> assembly_ok rs a ->
  match assemble_loop safe_fetch planner plans reference a ds with
  | Ok a' => assembly_ok (rs ++ qs) a'
  | Raise e => e = OutsideCalendarCoverageError
  end.
Proof using All.
  intros Hv Hd. revert rs a Hv. induction Hd as [|q d qs ds Hqd Hd IH]; intros rs a Hv Ha; cbn.
  - by rewrite app_nil_r.
  - apply Forall_cons in Hv as [Hq Hv]. pose proof (assemble_step_ok rs a q d Hq Hqd Ha) as Hs.
    destruct (assemble_step _ _ _ _ a d) as [a'|e]; cbn; [|done].
    specialize (IH (rs ++ [q]) a' Hv Hs). by rewrite <- app_assoc in IH.
Qed.

End AssembleLoop.

Lemma empty_assembly_ok i : assembly_ok i [] empty_assembly.
Proof. split; cbn; try done. split; [by intros [? ?]|]. intros (t & Ht & _). by apply elem_of_nil in Ht. Qed.

Lemma NoDup_distinct {A} `{Countable A} (l : list A) :
  NoDup l -> size (list_to_set l : gset A) = length l.
Proof.
  induction 1 as [|x l Hx Hn IH]; cbn; [by rewrite size_empty|].
  rewrite size_union, size_singleton, IH; [done|]. set_solver.
Qed.

Lemma mk_historical_context_intro i p ss :
  NoDup (hs_timeframe <$> ss) -> Forall (fun s => hs_instrument s = Some i) ss ->
  (forall q, p = Some q -> candle_instrument (ps_candle q) = i) ->
  exists c, mk_historical_context i p ss = Ok c.
Proof.
  intros Hn Hi Hp. unfold mk_historical_context.
  set (ordered := py_sorted _ ss).
  assert (ordered ≡ₚ ss) as Ho by apply py_sorted_perm.
  rewrite NoDup_distinct by by rewrite Ho. rewrite Nat.eqb_refl. cbn [negb raise_if mbind result_bind].
  assert (for_each (fun item => raise_if (negb (bool_decide (hs_instrument item = Some i)))
    (ValidationError "every series must belong to the context instrument")) ordered = Ok tt) as ->.
  { apply for_each_ok. rewrite Ho. eapply Forall_impl; [exact Hi|]. cbn. intros s Hs.
    by rewrite bool_decide_eq_true_2. }
  cbn [mbind result_bind]. destruct p as [q|]; [|by eexists].
  rewrite bool_decide_eq_true_2 by by apply Hp. by eexists.
Qed.

(** ** Repairs *)

(** A candle the engine holds as final after a repair was final before or is the
    authoritative one. *)
Lemma reconcile_finalized e c t k x :
  x ∈ finalized_of (reconcile e c t).1 k -> x ∈ finalized_of e k \/ x = c.
Proof.
  destruct (ce_states e !! (candle_instrument c, t)) as [st|] eqn:E.
  - destruct (decide (match_outcome c t (st_incomplete st) (st_finalized st) = RECONCILED)) as [Ho|Ho].
    + destruct (reconcile_changed e c t st E Ho) as [-> _]. unfold finalized_of. cbn.
      destruct (decide (k = (candle_instrument c, t))) as [->|Hk].
      * rewrite lookup_insert_eq, E. cbn. intros Hx%elem_of_last_n.
        apply elem_of_py_sorted, elem_of_app in Hx as [[_ Hx]%list_elem_of_filter|Hx%list_elem_of_singleton]; auto.
      * rewrite lookup_insert_ne by done. auto.
    + destruct (reconcile_unchanged e c t) as [-> _]; [by intros ? [= <-]%(eq_trans (eq_sym E))|auto].
  - destruct (reconcile_unchanged e c t) as [-> _]; [|auto]. intros st Hst. congruence.
Qed.

Lemma reconcile_identity e c t : rr_identity (reconcile e c t).2 = identity_of c t.
Proof. unfold reconcile. destruct (ce_states e !! _); [|done]. destruct (bool_decide _); [done|]. by destruct (_ && _). Qed.

Lemma authoritative_for_ok t cs id c :
  authoritative_for t cs id = Some c -> c ∈ cs /\ identity_of c t = id.
Proof. unfold authoritative_for. intros H%last_Some_elem_of. by apply list_elem_of_filter in H as [? ?]. Qed.

Lemma apply_repairs_ok engine t items cs :
  let '(engine', rs) := apply_repairs engine t items cs in
  rr_identity <$> rs = identity_of_incomplete <$> items
  /\ forall k x, x ∈ finalized_of engine' k ->
       x ∈ finalized_of engine k \/ exists item, item ∈ items /\ start_timestamp x = ic_start_timestamp item.
Proof.
  revert engine. induction items as [|item items IH]; intros engine; cbn; [auto|].
  destruct (authoritative_for t cs (identity_of_incomplete item)) as [c|] eqn:E.
  - apply authoritative_for_ok in E as [_ Hid].
    pose proof (reconcile_identity engine c t) as Hr. pose proof (reconcile_finalized engine c t) as Hf.
    destruct (reconcile engine c t) as [e1 r]. specialize (IH e1).
    destruct (apply_repairs e1 t items cs) as [e2 rs]. cbn in *. destruct IH as [I1 I2]. split.
    + rewrite I1, Hr, Hid. done.
    + intros k x Hx. destruct (I2 k x Hx) as [Hy|(it & Hin & Hs)]; [|right; exists it; set_solver].
      destruct (Hf k x Hy) as [Hz| ->]; [by left|]. right. exists item. split; [left|].
      by apply (f_equal id_start) in Hid.
  - specialize (IH engine). destruct (apply_repairs engine t items cs) as [e2 rs]. destruct IH as [I1 I2].
    cbn in *. split; [by rewrite I1|]. intros k x Hx.
    destruct (I2 k x Hx) as [?|(it & ? & ?)]; [by left|]. right. exists it. set_solver.
Qed.

(** The date an identity belongs to. *)
Definition identity_date (self : HistoricalWarmupService) (id : CandleIdentity) : date :=
  local_date (pl_timezone (ws_planner self)) (id_start id).

(** A date on which the service may repair: completed, or the current one when
    the provider is verified for it. *)
Definition repairable_date (self : HistoricalWarmupService) (anchor d : date) : Prop :=
  is_trading_day (pl_calendar (ws_planner self)) d = true
  /\ (d < anchor \/ (d = anchor /\ ws_supports_current_day self = true)).

Lemma repair_state_repair self c anchor :
  repair_state self c anchor = Repair ->
  repairable_date self anchor (local_date (pl_timezone (ws_planner self)) (ic_start_timestamp c)).
Proof.
  unfold repair_state, repairable_date. set (d := local_date _ _).
  destruct (negb _ || _) eqn:E; [done|]. destruct (_ && _) eqn:F; [done|]. intros _.
  zbool. split; [done|]. destruct F as [?|?]; zbool; [lia|].
  destruct (decide (d = anchor)); [right; done|left; lia].
Qed.

Lemma repair_state_current self c anchor :
  repair_state self c anchor = CurrentDay ->
  local_date (pl_timezone (ws_planner self)) (ic_start_timestamp c) = anchor.
Proof. unfold repair_state. destruct (negb _ || _); [done|]. destruct (_ && _) eqn:F; [|done]. by zbool. Qed.

(** What one pass over a list of incomplete intervals may do. *)
Definition repairs_spec (self : HistoricalWarmupService) (anchor : date)
    (incomplete : list IncompleteCandle) (engine engine' : CandleEngine)
    (r : result (list ReconciliationResult)) : Prop :=
  (forall k x, x ∈ finalized_of engine' k -> x ∈ finalized_of engine k
     \/ repairable_date self anchor (local_date (pl_timezone (ws_planner self)) (start_timestamp x)))
  /\ forall rs, r = Ok rs ->
     rr_identity <$> rs ≡ₚ (identity_of_incomplete
       <$> filter (fun c => repair_state self c anchor <> Skip) incomplete)
     /\ Forall (fun x => repairable_date self anchor (identity_date self (rr_identity x))
                         \/ rr_outcome x = CURRENT_DAY_WITHHELD) rs.

Lemma filter_repairs self anchor cs :
  filter (fun c => repair_state self c anchor = CurrentDay) cs
    ++ filter (fun c => repair_state self c anchor = Repair) cs
  ≡ₚ filter (fun c => repair_state self c anchor <> Skip) cs.
Proof.
  induction cs as [|c cs IH]; [done|]. rewrite !filter_cons.
  destruct (repair_state self c anchor) eqn:E; repeat case_decide; try done; cbn; rewrite <- IH.
  - by rewrite Permutation_middle.
  - done.
Qed.

Lemma reconcile_timeframe_spec safe_fetch self engine i t incomplete anchor :
  let '(engine', r) := reconcile_timeframe safe_fetch self engine i t incomplete anchor in
  repairs_spec self anchor incomplete engine engine' r.
Proof.
  unfold reconcile_timeframe.
  set (current := filter (fun c => repair_state self c anchor = CurrentDay) incomplete).
  set (repairable := filter (fun c => repair_state self c anchor = Repair) incomplete).
  pose proof (filter_repairs self anchor incomplete) as Hp. fold current repairable in Hp.
  assert (Forall (fun c => repairable_date self anchor
    (local_date (pl_timezone (ws_planner self)) (ic_start_timestamp c))) repairable) as Hrep.
  { apply Forall_forall. intros c [Hc _]%list_elem_of_filter. by apply repair_state_repair. }
  assert (Forall (fun x => repairable_date self anchor (identity_date self (rr_identity x))
    \/ rr_outcome x = CURRENT_DAY_WITHHELD) (outcome_without_candle CURRENT_DAY_WITHHELD <$> current)) as Hw.
  { apply Forall_fmap, Forall_forall. intros c _. by right. }
  assert (rr_identity <$> (outcome_without_candle CURRENT_DAY_WITHHELD <$> current)
    = identity_of_incomplete <$> current) as Hiw by by rewrite <- list_fmap_compose.
  destruct repairable as [|c0 rest] eqn:Er; [|rewrite <- Er in *; clear Er rest c0].
  { split; [auto|]. intros rs [= <-]. split; [|done]. by rewrite Hiw, <- Hp, app_nil_r. }
  destruct (authoritative_series safe_fetch self i t repairable) as [[s|]|e]; [| |split; [auto|done]].
  - pose proof (apply_repairs_ok engine t repairable (hs_candles s)) as Ha.
    destruct (apply_repairs engine t repairable (hs_candles s)) as [engine' rs]. destruct Ha as [Ha1 Ha2].
    split.
    + intros k x Hx. destruct (Ha2 k x Hx) as [?|(item & Hin & ->)]; [by left|]. right.
      rewrite Forall_forall in Hrep. by apply Hrep.
    + intros rs' [= <-]. split; [by rewrite fmap_app, Hiw, Ha1, <- fmap_app, Hp|].
      apply Forall_app. split; [done|].
      assert (Forall (fun id => repairable_date self anchor (identity_date self id)) (rr_identity <$> rs)) as Hf.
      { rewrite Ha1. by apply Forall_fmap. }
      rewrite Forall_fmap in Hf. eapply Forall_impl; [exact Hf|]. by left.
  - split; [auto|]. intros rs [= <-]. split.
    + rewrite fmap_app, Hiw, <- Hp, fmap_app. by rewrite <- (list_fmap_compose _ _ repairable).
    + apply Forall_app. split; [done|]. apply Forall_fmap. eapply Forall_impl; [exact Hrep|]. by left.
Qed.

Lemma reconcile_sets_spec safe_fetch self engine i sets anchor :
  let '(engine', r) := reconcile_sets safe_fetch self engine i sets anchor in
  repairs_spec self anchor (concat (tc_incomplete <$> sets)) engine engine' r.
Proof.
  revert engine. induction sets as [|s sets IH]; intros engine; cbn.
  { split; [auto|]. by intros rs [= <-]. }
  pose proof (reconcile_timeframe_spec safe_fetch self engine i (tc_timeframe s) (tc_incomplete s) anchor) as H1.
  destruct (reconcile_timeframe _ _ _ _ _ _ _) as [e1 [rs|e]].
  2: { destruct H1 as [H1 _]. by split. }
  specialize (IH e1). destruct (reconcile_sets safe_fetch self e1 i sets anchor) as [e2 more].
  destruct H1 as [A1 A2], IH as [B1 B2]. split.
  - intros k x Hx. destruct (B1 k x Hx) as [Hy|Hy]; [by apply A1|by right].
  - intros rs' (more' & -> & [= <-])%bind_ok. destruct (A2 rs eq_refl) as [A3 A4], (B2 more' eq_refl) as [B3 B4].
    rewrite filter_app, !fmap_app, A3, B3. split; [done|]. by apply Forall_app.
Qed.

(** * Properties *)

(** Warming one instrument: whatever the fetches return or fail with,
    assembly either installs a context or stops on missing calendar coverage,
    and nothing else can go wrong.  The installed context belongs to the
    instrument, its series are exactly the satisfied requirements, each
    chronological and exactly as deep as its requirement asks; every
    requirement is classified once as satisfied, unresolved or pending; the
    status is SATISFIED, PARTIAL or FAILED accordingly; and previous-session
    facts are present exactly when a whole-session series is. *)
Theorem assemble_correct (safe_fetch : HistoricalFetchPlan -> option (list Candle))
    (planner : HistoricalRangePlanner) (off : timedelta) (registry : InstrumentStateRegistry)
    (plans : plan_table) (reference : instant) (direct : list Timeframe) (i : Instrument)
    (reqs : list HistoricalRequirement) (ds : list Descriptor)
    (Hfetch : VerifiedFetch safe_fetch) (Hplanner : planner_valid planner)
    (Htz : FixedOffset (pl_timezone planner) off) (Hplans : plans_ok plans)
    (Hreqs : Forall requirement_valid reqs) (Hdistinct : NoDup (req_timeframe <$> reqs))
    (Hds : Forall2 (fun r d => classify_requirement planner direct reference i r = Ok d) reqs ds) :
  match assemble safe_fetch planner registry plans reference i ds with
  | Raise e => e = OutsideCalendarCoverageError
  | Ok (registry', status) =>
      wst_satisfied status ++ wst_unresolved status ++ wst_pending_reconstruction status
        ≡ₚ (req_timeframe <$> reqs)
      /\ (wst_state status = SATISFIED <-> wst_unresolved status = [])
      /\ (wst_state status = FAILED <-> wst_unresolved status <> [] /\ wst_satisfied status = [])
      /\ exists st h, get registry' i = Some st /\ is_historical st = Some h /\ hc_instrument h = i
         /\ (hs_timeframe <$> hc_series h) ≡ₚ wst_satisfied status
         /\ Forall (fun s => exists r, r ∈ reqs /\ series_for i r s) (hc_series h)
         /\ (is_Some (hc_previous_session h) <-> exists t, t ∈ wst_satisfied status /\ is_session t = true)
  end.
Proof.
  assert (Forall2 (descriptor_for i) reqs ds) as Hdd.
  { eapply Forall2_impl; [exact Hds|]. intros r d. apply classify_requirement_ok. }
  pose proof (assemble_loop_ok safe_fetch planner Hplanner off plans Hplans reference i [] empty_assembly
    reqs ds Hreqs Hdd (empty_assembly_ok i)) as Ha.
  unfold assemble. destruct (assemble_loop _ _ _ _ _ ds) as [a|e]; [|exact Ha].
  cbn [app mbind result_bind] in *. destruct Ha as [H1 H2 H3 H4 H5].
  assert (NoDup (hs_timeframe <$> as_series a)) as Hn.
  { rewrite <- H1. rewrite <- H2 in Hdistinct. by apply NoDup_app in Hdistinct as [? _]. }
  assert (Forall (fun s => hs_instrument s = Some i) (as_series a)) as Hi.
  { eapply Forall_impl; [exact H3|]. by intros s (r & _ & _ & _ & ? & _). }
  destruct (mk_historical_context_intro i (as_previous a) (as_series a) Hn Hi H4) as [h Hh].
  rewrite Hh. cbn [mbind result_bind]. destruct (mk_historical_context_ok _ _ _ _ Hh) as (G1 & G2 & G3 & _ & _).
  unfold install_historical. rewrite bool_decide_eq_true_2 by done. cbn [negb raise_if mbind result_bind].
  destruct (ensure registry i) as [reg st]. cbn [terminal_status wst_satisfied wst_unresolved
    wst_pending_reconstruction wst_state]. split_and!; [done| | |].
  - destruct (as_unresolved a), (as_satisfied a); done.
  - destruct (as_unresolved a), (as_satisfied a); split; try done; by intros [? ?].
  - exists (with_historical st h), h. rewrite get_put, decide_True by done. split_and!; try done.
    + by rewrite G3, H1.
    + by rewrite G3.
    + by rewrite G2.
Qed.

(** Reconciliation of completed history: whatever the source returns, a
    candle becomes final through a repair only on a trading day before the
    reference's exchange-local date, or on that date when the provider is
    verified for the current day; every incomplete interval that is not skipped
    gets exactly one result under its own identity, and a result for a date that
    may not be repaired says it was withheld. *)
Theorem repairs_completed_only (safe_fetch : HistoricalFetchPlan -> option (list Candle))
    (self : HistoricalWarmupService) (i : Instrument) (reference : instant) :
  let '(self', r) := reconcile_completed safe_fetch self i reference in
  match ws_candles self with
  | None => self' = self /\ r = Ok []
  | Some engine =>
      exists engine', self' = set_candles self engine'
        /\ repairs_spec self (anchor_date (ws_planner self) reference)
             (concat (tc_incomplete <$> candle_sets_for engine i)) engine engine' r
  end.
Proof.
  unfold reconcile_completed. destruct (ws_candles self) as [engine|]; [|done].
  pose proof (reconcile_sets_spec safe_fetch self engine i (candle_sets_for engine i)
    (anchor_date (ws_planner self) reference)) as H.
  destruct (reconcile_sets _ _ _ _ _ _) as [engine' rs]. by exists engine'.
Qed.

(** * Witnesses *)

Definition minute_requirement : HistoricalRequirement := {| req_timeframe := tf 1; lookback := 2 |}.

Definition sample_load (r : HistoricalRequest) : result HistoricalResult := Ok day_answer.

#[global] Instance sample_fetch_verified : VerifiedFetch (source_fetch sample_load).
Proof.
  apply source_fetch_verified. intros request answer [= <-].
  repeat constructor; apply bar_valid; reflexivity.
Qed.

Definition sample_descriptor : result Descriptor :=
  classify_requirement sample_planner [tf 1] (at_local 10 0) reliance minute_requirement.

Definition sample_assembled (d : Descriptor) : result (InstrumentStateRegistry * InstrumentWarmupStatus) :=
  assemble (source_fetch sample_load) sample_planner (mk_registry [reliance]) (add_plans [] [d])
    (at_local 10 0) reliance [d].

Definition assembled_unresolved (r : result Descriptor) : option (list Timeframe) :=
  match r with
  | Ok d => match sample_assembled d with Ok (_, status) => Some (wst_unresolved status) | Raise _ => None end
  | Raise _ => None
  end.

Lemma sample_assembled_ok :
  exists d registry' status, sample_descriptor = Ok d /\ sample_assembled d = Ok (registry', status)
    /\ wst_unresolved status = [].
Proof.
  assert (assembled_unresolved sample_descriptor = Some []) as H by (vm_compute; reflexivity).
  unfold assembled_unresolved in H. destruct sample_descriptor as [d|]; [|done]. exists d.
  destruct (sample_assembled d) as [[registry' status]|]; [|done]. exists registry', status. by injection H.
Qed.

Lemma assemble_correct_witness :
  exists d registry' status, sample_descriptor = Ok d /\ sample_assembled d = Ok (registry', status)
    /\ wst_state status = SATISFIED
    /\ exists st h, get registry' reliance = Some st /\ is_historical st = Some h
         /\ Forall (fun s => exists r, r ∈ [minute_requirement] /\ series_for reliance r s) (hc_series h).
Proof.
  destruct sample_assembled_ok as (d & registry' & status & Ed & E & Hu).
  pose proof (assemble_correct (source_fetch sample_load) sample_planner (19800 * us_per_second)
    (mk_registry [reliance]) (add_plans [] [d]) (at_local 10 0) [tf 1] reliance [minute_requirement] [d]
    _ sample_planner_valid kolkata_fixed (add_plans_ok [] [d] ltac:(intros k p [=]))
    ltac:(apply Forall_singleton; split; [reflexivity|cbn; lia]) (NoDup_singleton (tf 1))
    (List.Forall2_cons minute_requirement d Ed (List.Forall2_nil _))) as H.
  unfold sample_assembled in E. rewrite E in H.
  destruct H as (_ & Hs & _ & st & h & H1 & H2 & _ & _ & H3 & _).
  exists d, registry', status. split_and!; [exact Ed|exact E|by apply Hs|exists st, h; split_and!; assumption].
Defined.

(** The previous-session facts take their date from the calendar and their
    candle from the series, and nothing ties the two: when the source's newest
    daily bar is older than the newest completed session, the facts pair that
    session's date with an older session's candle. *)
Definition stale_daily : HistoricalResult := {|
  res_request := res_request day_answer;
  res_candles := [bar reliance (at_local 9 15 - 5 * us_per_day) (at_local 15 30 - 5 * us_per_day)
                    100 105 99 101 1000] |}.

Definition daily_descriptor : Descriptor := {|
  desc_requirement := {| req_timeframe := session_timeframe; lookback := 1 |}; desc_kind := KDirect;
  desc_plan := Some {| plan_instrument := reliance;
    plan_requirement := {| req_timeframe := session_timeframe; lookback := 1 |};
    plan_start := (session_bounds sample_planner 20476).1;
    plan_end := (session_bounds sample_planner 20476).2; plan_interval := us_per_day |};
  desc_base := None |}.

Definition facts_dates (r : result (InstrumentStateRegistry * InstrumentWarmupStatus))
    : option (date * date) :=
  match r with
  | Ok (registry, _) =>
      st ← get registry reliance; h ← is_historical st; p ← hc_previous_session h;
      Some (ps_trading_date p, local_date kolkata (start_timestamp (ps_candle p)))
  | Raise _ => None
  end.

Lemma previous_session_date_mismatch :
  facts_dates (assemble (source_fetch (fun _ => Ok stale_daily)) sample_planner (mk_registry [reliance])
    (add_plans [] [daily_descriptor]) (at_local 10 0) reliance [daily_descriptor])
  = Some (20476, 20475).
Proof. vm_compute. reflexivity. Qed.
