(* ===== verification/Strategy.v ===== *)
(** The strategy contract layer ([strategies/enums.py], [descriptor.py],
    [requirements.py], [results.py], [contracts.py], [registry.py]): identities,
    declared requirements, evaluations, results and the catalogue of plug-ins.

    A plug-in's [evaluate] is a field of [Strategy]: code behind the contract is
    any function that returns an evaluation or raises.  Configurations are a type
    parameter [Config], since every plug-in brings its own subclass. *)
From Stdlib Require Import Ascii.
From S2P Require Import Prelude PyTime MarketData Timeframe Session Context Requirements.

Local Open Scope Z_scope.

(** * Vocabulary *)

Inductive StrategyCategory : Type :=
| MOMENTUM | BREAKOUT | REVERSAL | TREND | RANGE | VOLATILITY | LIQUIDITY
| OPENING_SESSION | VOLUME | MARKET_STRUCTURE.

Inductive StrategyLifecycleState : Type :=
| REGISTERED | STARTING | RUNNING | PAUSED | STOPPED | ERROR | SHUTDOWN.

(** [EvaluationStatus]; its [ERROR] is [EVALUATION_ERROR] here. *)
Inductive EvaluationStatus : Type := MATCHED | NO_MATCH | SKIPPED | EVALUATION_ERROR.

Inductive StrategyTrigger : Type :=
| ON_CONTEXT | ON_TICK | ON_QUOTE | ON_CANDLE_FINALIZED | ON_SESSION_TRANSITION
| ON_HISTORICAL_READY.

Inductive CandleCompleteness : Type := AUTHORITATIVE_ONLY | PARTIAL_ALLOWED.

(** [FactNeed]; its [SESSION] is [SESSION_FACT] here. *)
Inductive FactNeed : Type :=
| LATEST_TICK | LATEST_QUOTE | SESSION_FACT | PREVIOUS_SESSION | SESSION_STATISTICS.

Inductive EmissionPolicy : Type := CONTINUOUS | EDGE_TRIGGERED | ONE_SHOT_PER_SESSION.

#[global] Instance StrategyCategory_eq_dec : EqDecision StrategyCategory.
Proof. solve_decision. Defined.
#[global] Instance StrategyLifecycleState_eq_dec : EqDecision StrategyLifecycleState.
Proof. solve_decision. Defined.
#[global] Instance EvaluationStatus_eq_dec : EqDecision EvaluationStatus.
Proof. solve_decision. Defined.
#[global] Instance StrategyTrigger_eq_dec : EqDecision StrategyTrigger.
Proof. solve_decision. Defined.
#[global] Instance CandleCompleteness_eq_dec : EqDecision CandleCompleteness.
Proof. solve_decision. Defined.
#[global] Instance FactNeed_eq_dec : EqDecision FactNeed.
Proof. solve_decision. Defined.

(** The [StrEnum] values the code reads. *)
Definition state_value (s : StrategyLifecycleState) : string :=
  match s with
  | REGISTERED => "registered" | STARTING => "starting" | RUNNING => "running"
  | PAUSED => "paused" | STOPPED => "stopped" | ERROR => "error" | SHUTDOWN => "shutdown"
  end.

Definition category_value (c : StrategyCategory) : string :=
  match c with
  | MOMENTUM => "momentum" | BREAKOUT => "breakout" | REVERSAL => "reversal"
  | TREND => "trend" | RANGE => "range" | VOLATILITY => "volatility"
  | LIQUIDITY => "liquidity" | OPENING_SESSION => "opening_session" | VOLUME => "volume"
  | MARKET_STRUCTURE => "market_structure"
  end.

Definition need_value (n : FactNeed) : string :=
  match n with
  | LATEST_TICK => "latest_tick" | LATEST_QUOTE => "latest_quote" | SESSION_FACT => "session"
  | PREVIOUS_SESSION => "previous_session" | SESSION_STATISTICS => "session_statistics"
  end.

(** * Validated text *)

Definition in_range (lo hi : ascii) (c : ascii) : bool :=
  (Ascii.nat_of_ascii lo <=? Ascii.nat_of_ascii c)%nat
  && (Ascii.nat_of_ascii c <=? Ascii.nat_of_ascii hi)%nat.

Definition is_lower : ascii -> bool := in_range "a" "z".
Definition is_upper : ascii -> bool := in_range "A" "Z".
Definition is_digit : ascii -> bool := in_range "0" "9".
Definition is_underscore (c : ascii) : bool := bool_decide (c = "_"%char).

Fixpoint string_all (f : ascii -> bool) (s : string) : bool :=
  match s with
  | EmptyString => true
  | String c s => f c && string_all f s
  end.

(** A leading character class and a class for the rest: [^[x][y]*$]. *)
Definition led_by (first rest : ascii -> bool) (s : string) : bool :=
  match s with
  | EmptyString => false
  | String c s => first c && string_all rest s
  end.

(** [StrategyId], [ReasonCode], [MetricName] *)
Definition strategy_id_ok : string -> bool :=
  led_by is_lower (fun c => is_lower c || is_digit c || is_underscore c).
Definition reason_code_ok : string -> bool :=
  led_by is_upper (fun c => is_upper c || is_digit c || is_underscore c).
Definition metric_name_ok : string -> bool :=
  led_by (fun c => is_lower c || is_upper c)
    (fun c => is_lower c || is_upper c || is_digit c || is_underscore c).

(** [SemverLite], [^\d+\.\d+\.\d+$]: [dots] separators still to come, [some]
    tells whether the current number has a digit. *)
Fixpoint semver_from (dots : nat) (some : bool) (s : string) : bool :=
  match s with
  | EmptyString => match dots with O => some | S _ => false end
  | String c s =>
      if is_digit c then semver_from dots true s
      else match dots with
           | S dots => bool_decide (c = "."%char) && some && semver_from dots false s
           | O => false
           end
  end.

Definition semver_ok (s : string) : bool := semver_from 2 false s.

(** * Descriptor and requirements *)

Record StrategyDescriptor : Type := {
  sd_strategy_id : string;
  sd_display_name : string;
  sd_description : string;
  sd_version : string;
  sd_category : StrategyCategory;
  sd_emission_policy : EmissionPolicy;
  sd_min_context_version : Z;
  sd_max_context_version : option Z;
}.

(** [StrategyDescriptor(...)]: the field constraints, then [_validate_context_range]. *)
Definition mk_descriptor (self : StrategyDescriptor) : result StrategyDescriptor :=
  _ ← raise_if (negb (strategy_id_ok (sd_strategy_id self) && semver_ok (sd_version self)))
    (ValidationError "string_pattern_mismatch");
  _ ← raise_if (is_empty (sd_display_name self) || is_empty (sd_description self))
    (ValidationError "string_too_short");
  _ ← raise_if ((sd_min_context_version self <? 1)
                || match sd_max_context_version self with Some m => m <? 1 | None => false end)
    (ValidationError "greater_than_equal");
  _ ← raise_if (match sd_max_context_version self with
                | Some m => m <? sd_min_context_version self
                | None => false
                end)
    (ValidationError "max_context_version must not be less than min_context_version");
  Ok self.

Record FactFreshnessRequirement : Type := {
  fr_fact : FactNeed;
  fr_max_age : timedelta;
}.

Record StrategyRequirements : Type := {
  sr_historical : list HistoricalRequirement;
  sr_live_timeframes : list Timeframe;
  sr_fact_needs : list FactNeed;
  sr_trigger : StrategyTrigger;
  sr_candle_completeness : CandleCompleteness;
  sr_min_context_version : Z;
  sr_freshness : list FactFreshnessRequirement;
}.

(** The sort key of [_ordered_historical]: the timeframe's ordering key, then the lookback. *)
Definition historical_leb (a b : HistoricalRequirement) : bool :=
  if timeframe_leb (req_timeframe a) (req_timeframe b)
  then if timeframe_leb (req_timeframe b) (req_timeframe a) then lookback a <=? lookback b else true
  else false.

Definition fact_leb (a b : FactNeed) : bool := String.leb (need_value a) (need_value b).

(** [_ordered_historical], [_ordered_timeframes], [_ordered_fact_needs], [_ordered_freshness] *)
Definition ordered_historical (l : list HistoricalRequirement) : list HistoricalRequirement :=
  py_sorted historical_leb (from_keys [] l).
Definition ordered_timeframes (l : list Timeframe) : list Timeframe :=
  py_sorted timeframe_leb (from_keys [] l).
Definition ordered_fact_needs (l : list FactNeed) : list FactNeed :=
  py_sorted fact_leb (from_keys [] l).
Definition ordered_freshness (l : list FactFreshnessRequirement) : list FactFreshnessRequirement :=
  py_sorted (fun a b => fact_leb (fr_fact a) (fr_fact b)) l.

(** [_validate_freshness] *)
Definition validate_freshness (self : StrategyRequirements) : result unit :=
  let facts := fr_fact <$> sr_freshness self in
  _ ← raise_if (negb (length (from_keys [] facts) =? length facts)%nat)
    (ValidationError "freshness must not define the same fact twice");
  raise_if (py_any (fun entry => negb (bool_decide (fr_fact entry ∈ sr_fact_needs self)))
              (sr_freshness self))
    (ValidationError "freshness may only reference a declared fact need").

(** [StrategyRequirements(...)]: [_normalize], the field constraints, [_validate_freshness]. *)
Definition mk_strategy_requirements (raw : StrategyRequirements) : result StrategyRequirements :=
  let self := {|
    sr_historical := ordered_historical (sr_historical raw);
    sr_live_timeframes := ordered_timeframes (sr_live_timeframes raw);
    sr_fact_needs := ordered_fact_needs (sr_fact_needs raw);
    sr_trigger := sr_trigger raw; sr_candle_completeness := sr_candle_completeness raw;
    sr_min_context_version := sr_min_context_version raw;
    sr_freshness := ordered_freshness (sr_freshness raw) |} in
  _ ← raise_if (sr_min_context_version self <? 1) (ValidationError "greater_than_equal");
  _ ← raise_if (py_any (fun entry => fr_max_age entry <=? 0) (sr_freshness self))
    (ValidationError "greater_than");
  _ ← validate_freshness self;
  Ok self.

(** * Evaluations and results *)

(** [Decimal | int | str | bool] *)
Inductive MetricValue : Type :=
| MDecimal (d : Decimal) | MInt (n : Z) | MStr (s : string) | MBool (b : bool).

Record MetricEntry : Type := {
  me_name : string;
  me_value : MetricValue;
}.

Record StrategyEvaluation : Type := {
  ev_instrument : Instrument;
  ev_context_version : Z;
  ev_status : EvaluationStatus;
  ev_score : option Decimal;
  ev_confidence : option Decimal;
  ev_reason_codes : list string;
  ev_metrics : list MetricEntry;
  ev_diagnostics : list (string * string);
}.

Record StrategyResult : Type := {
  sres_result_id : option string;
  sres_strategy_id : string;
  sres_strategy_version : string;
  sres_config_version : string;
  sres_instrument : Instrument;
  sres_context_version : Z;
  sres_evaluation_timestamp : instant;
  sres_status : EvaluationStatus;
  sres_score : option Decimal;
  sres_confidence : option Decimal;
  sres_reason_codes : list string;
  sres_metrics : list MetricEntry;
  sres_metadata : list (string * string);
  sres_diagnostics : list (string * string);
}.

(** [_validate_reason_codes] with the [ReasonCode] pattern. *)
Definition validate_reason_codes (codes : list string) : result (list string) :=
  _ ← raise_if (negb (py_all reason_code_ok codes)) (ValidationError "string_pattern_mismatch");
  _ ← raise_if (negb (length (from_keys [] codes) =? length codes)%nat)
    (ValidationError "reason codes must not contain duplicates");
  Ok codes.

Definition metric_leb (a b : MetricEntry) : bool := String.leb (me_name a) (me_name b).

(** [_validate_metrics] with the [MetricName] pattern: unique names, sorted. *)
Definition validate_metrics (metrics : list MetricEntry) : result (list MetricEntry) :=
  let names := me_name <$> metrics in
  _ ← raise_if (negb (py_all metric_name_ok names)) (ValidationError "string_pattern_mismatch");
  _ ← raise_if (negb (length (from_keys [] names) =? length names)%nat)
    (ValidationError "metric names must be unique");
  Ok (py_sorted metric_leb metrics).

(** [_matched_requires_reasons] *)
Definition matched_requires_reasons (status : EvaluationStatus) (codes : list string) : result unit :=
  raise_if (bool_decide (status = MATCHED) && match codes with [] => true | _ => false end)
    (ValidationError "a matched evaluation must carry at least one reason code").

(** [StrategyEvaluation(...)] *)
Definition mk_evaluation (raw : StrategyEvaluation) : result StrategyEvaluation :=
  _ ← raise_if (ev_context_version raw <? 1) (ValidationError "greater_than_equal");
  codes ← validate_reason_codes (ev_reason_codes raw);
  metrics ← validate_metrics (ev_metrics raw);
  _ ← matched_requires_reasons (ev_status raw) codes;
  Ok {| ev_instrument := ev_instrument raw; ev_context_version := ev_context_version raw;
        ev_status := ev_status raw; ev_score := ev_score raw; ev_confidence := ev_confidence raw;
        ev_reason_codes := codes; ev_metrics := metrics; ev_diagnostics := ev_diagnostics raw |}.

(** [StrategyResult(...)] *)
Definition mk_result (raw : StrategyResult) : result StrategyResult :=
  _ ← raise_if (negb (strategy_id_ok (sres_strategy_id raw)
                      && semver_ok (sres_strategy_version raw)
                      && semver_ok (sres_config_version raw)))
    (ValidationError "string_pattern_mismatch");
  _ ← raise_if (sres_context_version raw <? 1) (ValidationError "greater_than_equal");
  codes ← validate_reason_codes (sres_reason_codes raw);
  metrics ← validate_metrics (sres_metrics raw);
  _ ← matched_requires_reasons (sres_status raw) codes;
  Ok {| sres_result_id := sres_result_id raw; sres_strategy_id := sres_strategy_id raw;
        sres_strategy_version := sres_strategy_version raw;
        sres_config_version := sres_config_version raw; sres_instrument := sres_instrument raw;
        sres_context_version := sres_context_version raw;
        sres_evaluation_timestamp := sres_evaluation_timestamp raw;
        sres_status := sres_status raw; sres_score := sres_score raw;
        sres_confidence := sres_confidence raw; sres_reason_codes := codes;
        sres_metrics := metrics; sres_metadata := sres_metadata raw;
        sres_diagnostics := sres_diagnostics raw |}.

(** * The plug-in contract and the registry *)

Record StrategyEvaluationMetadata : Type := {
  em_trigger : StrategyTrigger;
  em_context_version : Z;
  em_observed_at : instant;
  em_trading_date : option date;
}.

(** The [Strategy] protocol; [accepts] is [isinstance(c, self.configuration_type)]. *)
Record Strategy (Config : Type) : Type := {
  descriptor : StrategyDescriptor;
  requirements : StrategyRequirements;
  accepts : Config -> bool;
  evaluate : MarketContext -> Config -> StrategyEvaluationMetadata -> result StrategyEvaluation;
}.
Arguments descriptor {Config} _.
Arguments requirements {Config} _.
Arguments accepts {Config} _ _.
Arguments evaluate {Config} _ _ _ _.

Section Registry.
Context {Config : Type}.

(** [StrategyRegistry._strategies] *)
Definition StrategyRegistry : Type := dict string (Strategy Config).

(** [register]; the protocol check holds of every model strategy. *)
Definition register_strategy (self : StrategyRegistry) (s : Strategy Config)
    : result StrategyRegistry :=
  let strategy_id := sd_strategy_id (descriptor s) in
  _ ← raise_if (is_not_none (dict_get strategy_id self)) (StrategyAlreadyRegisteredError strategy_id);
  Ok (dict_set strategy_id s self).

(** [get] *)
Definition get_strategy (self : StrategyRegistry) (strategy_id : string) : result (Strategy Config) :=
  match dict_get strategy_id self with
  | Some s => Ok s
  | None => Raise (StrategyNotFoundError strategy_id)
  end.

(** [identifiers] *)
Definition identifiers (self : StrategyRegistry) : list string := py_sorted String.leb self.*1.

(** [strategies] *)
Definition strategies (self : StrategyRegistry) : list (Strategy Config) :=
  omap (fun strategy_id => dict_get strategy_id self) (identifiers self).

End Registry.
Arguments StrategyRegistry Config : clear implicits.

(** * Lemmas *)

(** A value object is constructed when its constructor accepts it as it is. *)
Definition evaluation_constructed (e : StrategyEvaluation) : Prop := mk_evaluation e = Ok e.

Lemma metric_leb_total a b : metric_leb a b = true \/ metric_leb b a = true.
Proof. unfold metric_leb. destruct (String.leb_total (me_name a) (me_name b)); auto. Qed.

Lemma metric_leb_trans a b c :
  metric_leb a b = true -> metric_leb b c = true -> metric_leb a c = true.
Proof. apply string_leb_trans. Qed.

Lemma validate_reason_codes_ok codes codes' :
  validate_reason_codes codes = Ok codes' <->
  codes' = codes /\ py_all reason_code_ok codes = true /\ NoDup codes.
Proof.
  unfold validate_reason_codes. split.
  - intros (? & ?%raise_if_ok & (? & ?%raise_if_ok & [= <-])%bind_ok)%bind_ok. zbool.
    split_and!; [done|done|]. apply from_keys_length. by apply Nat.eqb_eq.
  - intros (-> & Hp & Hn%from_keys_length). by rewrite Hp, Hn, Nat.eqb_refl.
Qed.

Lemma validate_metrics_ok ms ms' :
  validate_metrics ms = Ok ms' <->
  ms' = py_sorted metric_leb ms /\ py_all metric_name_ok (me_name <$> ms) = true
  /\ NoDup (me_name <$> ms).
Proof.
  unfold validate_metrics. split.
  - intros (? & ?%raise_if_ok & (? & ?%raise_if_ok & [= <-])%bind_ok)%bind_ok. zbool.
    split_and!; [done|done|]. apply from_keys_length. by apply Nat.eqb_eq.
  - intros (-> & Hp & Hn%from_keys_length). by rewrite Hp, Hn, Nat.eqb_refl.
Qed.

(** Validated metrics pass their own validator unchanged. *)
Lemma validate_metrics_idem ms ms' :
  validate_metrics ms = Ok ms' -> validate_metrics ms' = Ok ms'.
Proof.
  rewrite !validate_metrics_ok. intros (-> & Hp & Hn). split_and!.
  - symmetry. apply py_sorted_id, py_sorted_sorted; [apply metric_leb_total|apply metric_leb_trans].
  - unfold py_all in *. rewrite forallb_forall in *. intros x Hx. apply Hp.
    apply list_elem_of_In in Hx. apply list_elem_of_In. by rewrite py_sorted_perm in Hx.
  - by rewrite py_sorted_perm.
Qed.

(** What a constructor returns is constructed: building it again changes nothing. *)
Lemma mk_evaluation_idem raw e : mk_evaluation raw = Ok e -> evaluation_constructed e.
Proof.
  unfold mk_evaluation, evaluation_constructed.
  intros (? & Hv & (codes & Hc & (ms & Hm & (? & Hr & [= <-])%bind_ok)%bind_ok)%bind_ok)%bind_ok.
  pose proof Hc as (-> & _ & _)%validate_reason_codes_ok.
  apply bind_ok. eexists; split; [exact Hv|]. apply bind_ok. eexists; split; [exact Hc|].
  apply bind_ok. eexists; split; [exact (validate_metrics_idem _ _ Hm)|].
  apply bind_ok. eexists; split; [exact Hr|done].
Qed.

(** Registered strategies are filed under their own identity, once each. *)
Definition registry_ok {Config} (r : StrategyRegistry Config) : Prop :=
  NoDup r.*1 /\ forall i s, dict_get i r = Some s -> sd_strategy_id (descriptor s) = i.

Lemma register_strategy_ok {Config} (r r' : StrategyRegistry Config) s :
  registry_ok r -> register_strategy r s = Ok r' -> registry_ok r'.
Proof.
  intros [Hn Hk]. unfold register_strategy. intros (? & _ & [= <-])%bind_ok.
  split; [auto with apex|]. intros i s'. rewrite dict_get_set. case_decide as Hd; [|apply Hk].
  by intros [= <-].
Qed.

Lemma elem_of_identifiers {Config} (r : StrategyRegistry Config) i :
  i ∈ identifiers r <-> is_Some (dict_get i r).
Proof.
  unfold identifiers. rewrite elem_of_py_sorted. destruct (dict_get i r) as [s|] eqn:E.
  - split; [eauto|]. intros _. apply dict_get_elem in E. by apply (list_elem_of_fmap_2 fst) in E.
  - apply dict_get_none in E. split; [done|intros [? ?]; done].
Qed.
