(* ===== verification/Lifecycle.v ===== *)
(** The strategy lifecycle state machine ([strategy_manager/lifecycle.py],
    [status.py]): one runtime state per strategy, moved only by the commands
    below, each of which succeeds from the states its table row lists and raises
    everywhere else. *)
From S2P Require Import Prelude Strategy.

Local Open Scope Z_scope.

(** * Definitions *)

Abbreviation State := StrategyLifecycleState (only parsing).

(** The commands of [_COMMAND_TRANSITIONS]. *)
Inductive PlainCommand : Type := Start | MarkRunning | Pause | Resume | Stop | MarkError.

Definition command_name (c : PlainCommand) : string :=
  match c with
  | Start => "start" | MarkRunning => "mark_running" | Pause => "pause"
  | Resume => "resume" | Stop => "stop" | MarkError => "mark_error"
  end.

(** [_COMMAND_TRANSITIONS]: permitted sources and target. *)
Definition command_transitions (c : PlainCommand) : list State * State :=
  match c with
  | Start => ([REGISTERED; STOPPED; ERROR], STARTING)
  | MarkRunning => ([STARTING], RUNNING)
  | Pause => ([RUNNING], PAUSED)
  | Resume => ([PAUSED], RUNNING)
  | Stop => ([RUNNING; PAUSED; ERROR], STOPPED)
  | MarkError => ([STARTING; RUNNING], ERROR)
  end.

(** [_FORCE_STOP_SOURCES] *)
Definition force_stop_sources : list State := [RUNNING; PAUSED; ERROR].

(** [StrategyLifecycle._states] *)
Definition StrategyLifecycle : Type := dict string State.

(** [_require], which is all of [state_of] *)
Definition require_state (self : StrategyLifecycle) (strategy_id : string) : result State :=
  match dict_get strategy_id self with
  | Some s => Ok s
  | None => Raise (StrategyNotTrackedError strategy_id)
  end.

(** [register] *)
Definition track (self : StrategyLifecycle) (strategy_id : string)
    : result (StrategyLifecycle * State) :=
  _ ← raise_if (is_not_none (dict_get strategy_id self)) (StrategyAlreadyTrackedError strategy_id);
  Ok (dict_set strategy_id REGISTERED self, REGISTERED).

(** [_apply], behind [start], [mark_running], [pause], [resume], [stop], [mark_error] *)
Definition apply_command (self : StrategyLifecycle) (strategy_id : string) (c : PlainCommand)
    : result (StrategyLifecycle * State) :=
  current ← require_state self strategy_id;
  let '(permitted_sources, target) := command_transitions c in
  _ ← raise_if (negb (bool_decide (current ∈ permitted_sources)))
    (InvalidStrategyTransitionError strategy_id (state_value current) (command_name c));
  Ok (dict_set strategy_id target self, target).

(** [force_stop] *)
Definition lifecycle_force_stop (self : StrategyLifecycle) (strategy_id : string)
    (clean_cancellable : bool) : result (StrategyLifecycle * State) :=
  current ← require_state self strategy_id;
  let permitted := bool_decide (current ∈ force_stop_sources)
    || (bool_decide (current = STARTING) && clean_cancellable) in
  _ ← raise_if (negb permitted)
    (InvalidStrategyTransitionError strategy_id (state_value current) "force_stop");
  Ok (dict_set strategy_id STOPPED self, STOPPED).

(** [shutdown] *)
Definition lifecycle_shutdown (self : StrategyLifecycle) (strategy_id : string)
    : result (StrategyLifecycle * State) :=
  current ← require_state self strategy_id;
  _ ← raise_if (bool_decide (current = SHUTDOWN))
    (InvalidStrategyTransitionError strategy_id (state_value current) "shutdown");
  Ok (dict_set strategy_id SHUTDOWN self, SHUTDOWN).

Record StrategyRuntimeStatus : Type := {
  srs_strategy_id : string;
  srs_state : State;
}.

(** [snapshot] *)
Definition snapshot (self : StrategyLifecycle) : list StrategyRuntimeStatus :=
  omap (fun strategy_id =>
    (fun s => {| srs_strategy_id := strategy_id; srs_state := s |}) <$> dict_get strategy_id self)
    (py_sorted String.leb self.*1).

(** * Runs of commands *)

Inductive LifecycleCommand : Type :=
| Track
| Plain (c : PlainCommand)
| ForceStop (clean_cancellable : bool)
| Shutdown.

Definition execute (self : StrategyLifecycle) (strategy_id : string) (c : LifecycleCommand)
    : result (StrategyLifecycle * State) :=
  match c with
  | Track => track self strategy_id
  | Plain c => apply_command self strategy_id c
  | ForceStop clean => lifecycle_force_stop self strategy_id clean
  | Shutdown => lifecycle_shutdown self strategy_id
  end.

(** A caller that catches every error: a raising command leaves the tracker alone. *)
Definition run_command (self : StrategyLifecycle) (p : string * LifecycleCommand)
    : StrategyLifecycle :=
  match execute self p.1 p.2 with Ok (self', _) => self' | Raise _ => self end.

Definition run_commands (cmds : list (string * LifecycleCommand)) (self : StrategyLifecycle)
    : StrategyLifecycle := foldl run_command self cmds.

(** ADR-007's graph, from "not tracked" on. *)
Inductive lifecycle_arrow : option State -> option State -> Prop :=
| arrow_register : lifecycle_arrow None (Some REGISTERED)
| arrow_start s : s = REGISTERED \/ s = STOPPED \/ s = ERROR -> lifecycle_arrow (Some s) (Some STARTING)
| arrow_running : lifecycle_arrow (Some STARTING) (Some RUNNING)
| arrow_pause : lifecycle_arrow (Some RUNNING) (Some PAUSED)
| arrow_resume : lifecycle_arrow (Some PAUSED) (Some RUNNING)
| arrow_stop s : s = RUNNING \/ s = PAUSED \/ s = ERROR \/ s = STARTING ->
    lifecycle_arrow (Some s) (Some STOPPED)
| arrow_error s : s = STARTING \/ s = RUNNING -> lifecycle_arrow (Some s) (Some ERROR)
| arrow_shutdown s : s <> SHUTDOWN -> lifecycle_arrow (Some s) (Some SHUTDOWN).

(** * Lemmas *)

(** The outcome of a command for its own strategy, as a function of its state alone. *)
Definition outcome_of (strategy_id : string) (current : option State) (c : LifecycleCommand)
    : result State :=
  match c, current with
  | Track, Some _ => Raise (StrategyAlreadyTrackedError strategy_id)
  | Track, None => Ok REGISTERED
  | _, None => Raise (StrategyNotTrackedError strategy_id)
  | Plain c, Some s =>
      if decide (s ∈ (command_transitions c).1) then Ok (command_transitions c).2
      else Raise (InvalidStrategyTransitionError strategy_id (state_value s) (command_name c))
  | ForceStop clean, Some s =>
      if decide (s ∈ force_stop_sources \/ (s = STARTING /\ clean = true)) then Ok STOPPED
      else Raise (InvalidStrategyTransitionError strategy_id (state_value s) "force_stop")
  | Shutdown, Some s =>
      if decide (s = SHUTDOWN)
      then Raise (InvalidStrategyTransitionError strategy_id (state_value s) "shutdown")
      else Ok SHUTDOWN
  end.

Lemma execute_outcome self strategy_id c :
  execute self strategy_id c =
  (fun s => (dict_set strategy_id s self, s)) <$> outcome_of strategy_id (dict_get strategy_id self) c.
Proof.
  destruct c as [|c|clean|]; cbn; unfold track, apply_command, lifecycle_force_stop,
    lifecycle_shutdown, require_state; destruct (dict_get strategy_id self) as [s|]; cbn; try done.
  - destruct (command_transitions c) as [src tgt]; cbn. by destruct (decide (s ∈ src)) eqn:E;
      [rewrite bool_decide_eq_true_2|rewrite bool_decide_eq_false_2].
  - by destruct s, clean.
  - by destruct s.
Qed.

(** A successful command writes the target state of its strategy and nothing else. *)
Lemma execute_ok self i c self' s :
  execute self i c = Ok (self', s) ->
  outcome_of i (dict_get i self) c = Ok s /\ self' = dict_set i s self.
Proof.
  rewrite execute_outcome. destruct (outcome_of _ _ _); cbn; [|done]. by intros [= <- <-].
Qed.

(** The tracked state after one command, as a function of the state before. *)
Definition next_state (i : string) (current : option State) (p : string * LifecycleCommand)
    : option State :=
  if decide (p.1 = i) then
    match outcome_of i current p.2 with Ok s => Some s | Raise _ => current end
  else current.

Lemma run_command_get self p i :
  dict_get i (run_command self p) = next_state i (dict_get i self) p.
Proof.
  destruct p as [j c]. unfold run_command, next_state. cbn. rewrite execute_outcome.
  destruct (decide (j = i)) as [->|Hj].
  - destruct (outcome_of _ _ _); cbn; [|done]. by rewrite dict_get_set, decide_True.
  - destruct (outcome_of _ _ _); cbn; [|done]. by rewrite dict_get_set, decide_False.
Qed.

Lemma run_commands_get cmds self i :
  dict_get i (run_commands cmds self) = foldl (next_state i) (dict_get i self) cmds.
Proof.
  revert self. induction cmds as [|p cmds IH]; intros self; cbn; [done|].
  unfold run_commands in IH. by rewrite IH, run_command_get.
Qed.

Lemma next_state_arrow i current p : rtc lifecycle_arrow current (next_state i current p).
Proof.
  unfold next_state. case_decide; [|done].
  destruct (outcome_of i current p.2) as [s|] eqn:E; [|done]. apply rtc_once.
  destruct p as [j [|c|clean|]]; cbn in E; destruct current as [t|]; try done;
    [injection E as <-; constructor|..]; case_decide as Hd; simplify_eq; try by constructor.
  - destruct c; cbn in *; set_unfold; destruct_or?; simplify_eq; constructor; auto.
  - constructor. unfold force_stop_sources in Hd. set_unfold. naive_solver.
Qed.

Lemma snapshot_sorted self :
  NoDup self.*1 ->
  StronglySorted (fun a b => String.leb (srs_strategy_id a) (srs_strategy_id b) = true) (snapshot self)
  /\ NoDup (srs_strategy_id <$> snapshot self)
  /\ forall i s, {| srs_strategy_id := i; srs_state := s |} ∈ snapshot self <-> dict_get i self = Some s.
Proof.
  intros Hn. unfold snapshot. set (ids := py_sorted String.leb self.*1).
  assert (NoDup ids) as Hids by (unfold ids; by rewrite py_sorted_perm).
  assert (StronglySorted (fun a b => String.leb a b = true) ids) as Hs.
  { apply py_sorted_sorted; [intros x y; destruct (String.leb_total x y); auto|apply string_leb_trans]. }
  assert (forall i s, {| srs_strategy_id := i; srs_state := s |} ∈ omap (fun strategy_id =>
    (fun s => {| srs_strategy_id := strategy_id; srs_state := s |}) <$> dict_get strategy_id self) ids <->
    dict_get i self = Some s /\ i ∈ ids) as Hel.
  { intros i s. rewrite list_elem_of_omap. split.
    - intros (j & Hj & He). destruct (dict_get j self) eqn:E; cbn in He; simplify_eq. done.
    - intros [E Hi]. exists i. by rewrite E. }
  split_and!.
  - clear Hids Hel. induction Hs as [|x l Hs IH Hx]; cbn; [constructor|].
    destruct (dict_get x self); cbn; [|done]. constructor; [done|].
    apply Forall_forall. intros y (z & Hz & Hy)%list_elem_of_omap.
    destruct (dict_get z self); simplify_eq/=. by eapply Forall_forall in Hx.
  - clear Hs Hel. induction Hids as [|x l Hx Hl IH]; cbn; [constructor|].
    destruct (dict_get x self); cbn; [|done]. constructor; [|done].
    intros (y & -> & (z & Hz & Hy)%list_elem_of_omap)%list_elem_of_fmap.
    destruct (dict_get z self); simplify_eq/=. done.
  - intros i s. rewrite Hel. split; [by intros []|]. intros E. split; [done|].
    unfold ids. rewrite elem_of_py_sorted. apply dict_get_elem in E.
    by apply (list_elem_of_fmap_2 fst) in E.
Qed.

(** * Properties *)

(** Each strategy's lifecycle is its own state machine: after any sequence of
    commands, legal or not, for any strategies, a strategy is in the state its own
    commands alone lead to, it moved only along the arrows of ADR-007's graph, and
    SHUTDOWN is terminal. *)
Theorem lifecycle_independent (self : StrategyLifecycle)
    (cmds : list (string * LifecycleCommand)) (i : string) :
  dict_get i (run_commands cmds self)
    = dict_get i (run_commands (filter (fun p => p.1 = i) cmds) self)
  /\ rtc lifecycle_arrow (dict_get i self) (dict_get i (run_commands cmds self))
  /\ (forall cmds', dict_get i (run_commands cmds self) = Some SHUTDOWN ->
        dict_get i (run_commands (cmds ++ cmds') self) = Some SHUTDOWN).
Proof.
  split_and!.
  - rewrite !run_commands_get. generalize (dict_get i self) as s.
    induction cmds as [|p cmds IH]; intros s; [done|]. rewrite filter_cons. cbn.
    case_decide as Hp; cbn; [apply IH|]. rewrite <- IH. unfold next_state at 2. by rewrite decide_False.
  - rewrite run_commands_get. generalize (dict_get i self) as s.
    induction cmds as [|p cmds IH]; intros s; cbn; [done|]. etrans; [apply next_state_arrow|apply IH].
  - intros cmds' H. unfold run_commands in *. rewrite foldl_app. fold (run_commands cmds' (foldl run_command self cmds)).
    rewrite run_commands_get, H. clear H. induction cmds' as [|[j c] cmds' IH]; cbn; [done|].
    replace (next_state i (Some SHUTDOWN) (j, c)) with (Some SHUTDOWN); [done|].
    unfold next_state. cbn. case_decide; [|done]. destruct c as [|[]|[]|]; done.
Qed.
