(* ===== verification/Emission.v ===== *)
(** What leaves the strategy manager: promotion of an evaluation to a result
    ([strategy_manager/promotion.py]), emission-policy dedup ([dedup.py]) and
    presentation ranking ([ranking.py]). *)
From S2P Require Import Prelude PyTime MarketData Timeframe Session Context Samples Requirements Strategy.

Local Open Scope Z_scope.

(** * Promotion *)

(** [promote_evaluation] *)
Definition promote_evaluation (evaluation : StrategyEvaluation) (d : StrategyDescriptor)
    (config_version : string) (evaluation_timestamp : instant) : StrategyResult := {|
  sres_result_id := None; sres_strategy_id := sd_strategy_id d;
  sres_strategy_version := sd_version d; sres_config_version := config_version;
  sres_instrument := ev_instrument evaluation;
  sres_context_version := ev_context_version evaluation;
  sres_evaluation_timestamp := evaluation_timestamp; sres_status := ev_status evaluation;
  sres_score := ev_score evaluation; sres_confidence := ev_confidence evaluation;
  sres_reason_codes := ev_reason_codes evaluation; sres_metrics := ev_metrics evaluation;
  sres_metadata := [("category", category_value (sd_category d))];
  sres_diagnostics := ev_diagnostics evaluation |}.

(** * Emission dedup *)

(** Python's [==] on metric values: [Decimal], [int] and [bool] compare as numbers. *)
Definition metric_number (v : MetricValue) : option Decimal :=
  match v with
  | MDecimal d => Some d
  | MInt n => Some (dec n 0)
  | MBool b => Some (if b then dec 1 0 else dec 0 0)
  | MStr _ => None
  end.

Definition metric_value_eqb (a b : MetricValue) : bool :=
  match a, b with
  | MStr x, MStr y => String.eqb x y
  | _, _ => match metric_number a, metric_number b with
            | Some x, Some y => dec_eqb x y
            | _, _ => false
            end
  end.

Definition metric_eqb (a b : MetricEntry) : bool :=
  String.eqb (me_name a) (me_name b) && metric_value_eqb (me_value a) (me_value b).

Fixpoint metrics_eqb (l m : list MetricEntry) : bool :=
  match l, m with
  | [], [] => true
  | a :: l, b :: m => metric_eqb a b && metrics_eqb l m
  | _, _ => false
  end.

(** [_MaterialKey] *)
Record MaterialKey : Type := {
  mk_status : EvaluationStatus;
  mk_score : option Decimal;
  mk_confidence : option Decimal;
  mk_reason_codes : list string;
  mk_metrics : list MetricEntry;
}.

(** [_material_key] *)
Definition material_key (r : StrategyResult) : MaterialKey := {|
  mk_status := sres_status r; mk_score := sres_score r; mk_confidence := sres_confidence r;
  mk_reason_codes := sres_reason_codes r; mk_metrics := sres_metrics r |}.

(** [==] on two material keys, as tuples. *)
Definition material_eqb (a b : MaterialKey) : bool :=
  bool_decide (mk_status a = mk_status b) && bool_decide (mk_score a = mk_score b)
  && bool_decide (mk_confidence a = mk_confidence b)
  && bool_decide (mk_reason_codes a = mk_reason_codes b) && metrics_eqb (mk_metrics a) (mk_metrics b).

(** [_EntryState] *)
Record EntryState : Type := {
  es_trading_date : option date;
  es_last_material_key : option MaterialKey;
  es_last_status : EvaluationStatus;
  es_one_shot_emitted : bool;
}.

Definition fresh_entry (trading_date : option date) : EntryState := {|
  es_trading_date := trading_date; es_last_material_key := None; es_last_status := NO_MATCH;
  es_one_shot_emitted := false |}.

(** [EmissionDeduplicator._entries] *)
Abbreviation EmissionDeduplicator := (gmap (string * Instrument) EntryState) (only parsing).

(** [_continuous], [_edge], [_one_shot]: the entry afterwards and the verdict. *)
Definition emit_continuous (entry : EntryState) (r : StrategyResult) : EntryState * bool :=
  let material := material_key r in
  if match es_last_material_key entry with Some k => material_eqb k material | None => false end
  then (entry, false)
  else ({| es_trading_date := es_trading_date entry; es_last_material_key := Some material;
           es_last_status := es_last_status entry;
           es_one_shot_emitted := es_one_shot_emitted entry |}, true).

Definition emit_edge (entry : EntryState) (r : StrategyResult) : EntryState * bool :=
  if bool_decide (sres_status r = es_last_status entry) then (entry, false)
  else ({| es_trading_date := es_trading_date entry;
           es_last_material_key := es_last_material_key entry; es_last_status := sres_status r;
           es_one_shot_emitted := es_one_shot_emitted entry |}, true).

Definition emit_one_shot (entry : EntryState) (r : StrategyResult) : EntryState * bool :=
  if bool_decide (sres_status r = MATCHED) && negb (es_one_shot_emitted entry)
  then ({| es_trading_date := es_trading_date entry;
           es_last_material_key := es_last_material_key entry;
           es_last_status := es_last_status entry; es_one_shot_emitted := true |}, true)
  else (entry, false).

Definition emit_by (policy : EmissionPolicy) : EntryState -> StrategyResult -> EntryState * bool :=
  match policy with
  | CONTINUOUS => emit_continuous
  | EDGE_TRIGGERED => emit_edge
  | ONE_SHOT_PER_SESSION => emit_one_shot
  end.

Definition emission_key (r : StrategyResult) : string * Instrument :=
  (sres_strategy_id r, sres_instrument r).

(** [should_emit]: the entry object stays in the dictionary and is updated in place. *)
Definition should_emit (self : EmissionDeduplicator) (r : StrategyResult)
    (policy : EmissionPolicy) (trading_date : option date) : EmissionDeduplicator * bool :=
  let key := emission_key r in
  let entry := match self !! key with
    | Some e => if bool_decide (es_trading_date e = trading_date) then e else fresh_entry trading_date
    | None => fresh_entry trading_date
    end in
  let '(entry, verdict) := emit_by policy entry r in
  (<[key := entry]> self, verdict).

(** [reset_strategy] *)
Definition reset_strategy (self : EmissionDeduplicator) (strategy_id : string)
    : EmissionDeduplicator := filter (fun p => p.1.1 <> strategy_id) self.

(** * Ranking *)

Record RankedStrategyResult : Type := {
  rk_rank : Z;
  rk_result : StrategyResult;
}.

(** [status is MATCHED and score is not None], with the score. *)
Definition rankable (r : StrategyResult) : option (Decimal * string * StrategyResult) :=
  match sres_score r with
  | Some score => if bool_decide (sres_status r = MATCHED) then Some (score, sres_strategy_id r, r)
                  else None
  | None => None
  end.

(** The order of the key [(-score, strategy_id)]. *)
Definition rank_leb (a b : Decimal * string * StrategyResult) : bool :=
  if dec_ltb b.1.1 a.1.1 then true
  else if dec_ltb a.1.1 b.1.1 then false
  else String.leb a.1.2 b.1.2.

(** [enumerate(ordered, start=n)] *)
Fixpoint enumerate_from (n : Z) (l : list (Decimal * string * StrategyResult))
    : list RankedStrategyResult :=
  match l with
  | [] => []
  | item :: l => {| rk_rank := n; rk_result := item.2 |} :: enumerate_from (n + 1) l
  end.

(** [rank_results] *)
Definition rank_results (results : list StrategyResult) : list RankedStrategyResult :=
  enumerate_from 1 (py_sorted rank_leb (omap rankable results)).

(** * Lemmas *)

(** ** Promotion *)

(** Promotion builds an accepted result: the validators pass and change nothing. *)
Lemma promote_constructed e d v t :
  evaluation_constructed e -> mk_descriptor d = Ok d -> semver_ok v = true ->
  mk_result (promote_evaluation e d v t) = Ok (promote_evaluation e d v t).
Proof.
  intros He Hd Hv. unfold evaluation_constructed, mk_evaluation in He.
  apply bind_ok in He as (? & Hver & He). apply bind_ok in He as (codes & Hc & He).
  apply bind_ok in He as (ms & Hm & He). apply bind_ok in He as (? & Hr & He).
  pose proof Hc as (-> & _ & _)%validate_reason_codes_ok.
  assert (ms = ev_metrics e) as -> by (destruct e; by simplify_eq/=).
  unfold mk_descriptor in Hd. apply bind_ok in Hd as (? & Hid%raise_if_ok & _). zbool.
  unfold mk_result, promote_evaluation. cbn [sres_strategy_id sres_strategy_version
    sres_config_version sres_context_version sres_reason_codes sres_metrics sres_status].
  rewrite H, H0, Hv. cbn [andb negb]. apply bind_ok. exists tt. split; [done|].
  apply bind_ok. eexists; split; [exact Hver|]. apply bind_ok. eexists; split; [exact Hc|].
  apply bind_ok. eexists; split; [exact Hm|]. apply bind_ok. eexists; split; [exact Hr|done].
Qed.

(** ** Material equality is an equivalence *)

Definition metric_equiv (a b : MetricEntry) : Prop := metric_eqb a b = true.
Definition material_equiv (a b : MaterialKey) : Prop := material_eqb a b = true.

(** Two metric values compare equal exactly when their class and content agree. *)
Definition metric_class (v : MetricValue) : string + Decimal :=
  match v with
  | MStr s => inl s
  | MDecimal d => inr d
  | MInt n => inr (dec n 0)
  | MBool b => inr (if b then dec 1 0 else dec 0 0)
  end.

Lemma metric_value_eqb_class a b : metric_value_eqb a b = true <-> metric_class a = metric_class b.
Proof.
  destruct a, b; cbn; rewrite ?dec_eqb_eq, ?String.eqb_eq;
    (split; intros; congruence).
Qed.

Lemma metrics_eqb_class l m :
  metrics_eqb l m = true <->
  ((fun e => (me_name e, metric_class (me_value e))) <$> l)
  = ((fun e => (me_name e, metric_class (me_value e))) <$> m).
Proof.
  revert m. induction l as [|a l IH]; intros [|b m]; cbn; try done.
  rewrite andb_true_iff, IH. unfold metric_eqb.
  rewrite andb_true_iff, String.eqb_eq, metric_value_eqb_class.
  split; [intros [[-> ->] ->]; done|]. intros H. by simplify_eq.
Qed.

(** The projection whose equality is Python's equality of material keys. *)
Definition material_class (k : MaterialKey) :=
  (mk_status k, mk_score k, mk_confidence k, mk_reason_codes k,
   (fun e => (me_name e, metric_class (me_value e))) <$> mk_metrics k).

Lemma material_eqb_class a b : material_eqb a b = true <-> material_class a = material_class b.
Proof.
  unfold material_eqb, material_class. rewrite !andb_true_iff, !bool_decide_eq_true, metrics_eqb_class.
  split; [intros [[[[-> ->] ->] ->] ->]; done|]. intros H. by simplify_eq.
Qed.

#[global] Instance material_equivalence : Equivalence material_equiv.
Proof.
  unfold material_equiv. split; intros ?; intros; rewrite material_eqb_class in *; congruence.
Qed.

#[global] Instance material_eqb_proper :
  Proper (material_equiv ==> material_equiv ==> eq) material_eqb.
Proof.
  intros a a' Ha b b' Hb. apply eq_true_iff_eq.
  change (material_equiv a b <-> material_equiv a' b'). by rewrite Ha, Hb.
Qed.

(** ** The emission contract *)

(** A manager's use of the deduplicator: results observed and strategies reset. *)
Inductive EmissionEvent : Type :=
| Observe (r : StrategyResult) (trading_date : option date)
| ResetStrategy (strategy_id : string).

Section Contract.
(** Each strategy's declared emission policy. *)
Context (policy_of : string -> EmissionPolicy).

Definition emission_step (self : EmissionDeduplicator) (e : EmissionEvent) : EmissionDeduplicator :=
  match e with
  | Observe r td => (should_emit self r (policy_of (sres_strategy_id r)) td).1
  | ResetStrategy i => reset_strategy self i
  end.

Definition emission_run (events : list EmissionEvent) (self : EmissionDeduplicator)
    : EmissionDeduplicator := foldl emission_step self events.

(** The results observed for a key since its session began (a new trading date
    or a reset starts over), with that session's date. *)
Definition history_step (k : string * Instrument) (h : option (option date * list StrategyResult))
    (e : EmissionEvent) : option (option date * list StrategyResult) :=
  match e with
  | Observe r td =>
      if decide (emission_key r = k) then
        match h with
        | Some (d, l) => if decide (d = td) then Some (d, l ++ [r]) else Some (td, [r])
        | None => Some (td, [r])
        end
      else h
  | ResetStrategy i => if decide (k.1 = i) then None else h
  end.

Definition history (k : string * Instrument) (events : list EmissionEvent)
    : option (option date * list StrategyResult) := foldl (history_step k) None events.

(** What the session of [td] has already shown for a key. *)
Definition session_before (k : string * Instrument) (events : list EmissionEvent)
    (td : option date) : list StrategyResult :=
  match history k events with
  | Some (d, l) => if decide (d = td) then l else []
  | None => []
  end.

(** ADR-007 D10, stated on the session's observations before this one. *)
Definition is_material (policy : EmissionPolicy) (before : list StrategyResult) (r : StrategyResult)
    : bool :=
  match policy with
  | CONTINUOUS =>
      match last before with
      | Some p => negb (material_eqb (material_key p) (material_key r))
      | None => true
      end
  | EDGE_TRIGGERED =>
      negb (bool_decide (sres_status r = match last before with
                                         | Some p => sres_status p
                                         | None => NO_MATCH
                                         end))
  | ONE_SHOT_PER_SESSION =>
      bool_decide (sres_status r = MATCHED)
      && py_all (fun p => negb (bool_decide (sres_status p = MATCHED))) before
  end.

(** An entry carries what its policy needs of the session's observations. *)
Definition entry_shows (policy : EmissionPolicy) (e : EntryState) (l : list StrategyResult) : Prop :=
  match policy with
  | CONTINUOUS =>
      match es_last_material_key e, last l with
      | Some k, Some p => material_equiv k (material_key p)
      | None, None => True
      | _, _ => False
      end
  | EDGE_TRIGGERED =>
      es_last_status e = match last l with Some p => sres_status p | None => NO_MATCH end
  | ONE_SHOT_PER_SESSION =>
      es_one_shot_emitted e = negb (py_all (fun p => negb (bool_decide (sres_status p = MATCHED))) l)
  end.

Lemma fresh_entry_shows policy td : entry_shows policy (fresh_entry td) [].
Proof using Type. by destruct policy. Qed.

Lemma emit_by_exact policy e l r :
  entry_shows policy e l ->
  (emit_by policy e r).2 = is_material policy l r
  /\ entry_shows policy (emit_by policy e r).1 (l ++ [r])
  /\ es_trading_date (emit_by policy e r).1 = es_trading_date e.
Proof using Type.
  intros He. destruct policy; cbn in *; rewrite ?last_snoc.
  - unfold emit_continuous. destruct (es_last_material_key e) as [k|] eqn:Ek, (last l) as [p|]; try done;
      [|split_and!; cbn; reflexivity].
    rewrite He. destruct (material_eqb (material_key p) (material_key r)) eqn:E; cbn;
      [|split_and!; cbn; reflexivity].
    split_and!; [done| |done]. rewrite Ek. etrans; [exact He|exact E].
  - unfold emit_edge. rewrite <- He. case_bool_decide; cbn; by split_and!.
  - unfold emit_one_shot, py_all in *. rewrite forallb_app. cbn.
    destruct (forallb _ l); rewrite He; case_bool_decide; cbn; by rewrite ?He.
Qed.

(** The entry of a key, seen from a trading date. *)
Definition entry_for (self : EmissionDeduplicator) (k : string * Instrument) (td : option date)
    : EntryState :=
  match self !! k with
  | Some e => if bool_decide (es_trading_date e = td) then e else fresh_entry td
  | None => fresh_entry td
  end.

(** The deduplicator agrees with a key's history. *)
Definition tracks (k : string * Instrument) (self : EmissionDeduplicator)
    (h : option (option date * list StrategyResult)) : Prop :=
  match self !! k, h with
  | Some e, Some (d, l) => es_trading_date e = d /\ entry_shows (policy_of k.1) e l
  | None, None => True
  | _, _ => False
  end.

Lemma tracks_entry k self h td :
  tracks k self h ->
  entry_shows (policy_of k.1) (entry_for self k td)
    (match h with Some (d, l) => if decide (d = td) then l else [] | None => [] end)
  /\ es_trading_date (entry_for self k td) = td.
Proof using Type.
  unfold tracks, entry_for. destruct (self !! k) as [e|], h as [[d l]|]; try done.
  - intros [<- He]. case_bool_decide; case_decide; try done. split; [apply fresh_entry_shows|done].
  - intros _. split; [apply fresh_entry_shows|done].
Qed.

Lemma should_emit_entry self r policy td :
  should_emit self r policy td =
  (<[emission_key r := (emit_by policy (entry_for self (emission_key r) td) r).1]> self,
   (emit_by policy (entry_for self (emission_key r) td) r).2).
Proof using Type.
  unfold should_emit. fold (entry_for self (emission_key r) td).
  by destruct (emit_by policy (entry_for self (emission_key r) td) r).
Qed.

Lemma tracks_step k self h e : tracks k self h -> tracks k (emission_step self e) (history_step k h e).
Proof using Type.
  intros Ht. destruct e as [r td|i]; cbn [emission_step history_step].
  - rewrite should_emit_entry. cbn [fst]. unfold tracks. destruct (decide (emission_key r = k)) as [<-|Hk].
    + rewrite lookup_insert_eq. pose proof (tracks_entry _ _ _ td Ht) as [Hs Hd].
      destruct (emit_by_exact _ _ _ r Hs) as (_ & Hs' & Hd').
      destruct h as [[d l]|]; [case_decide as Hdd|]; (split; [etrans; [exact Hd'|congruence]|exact Hs']).
    + by rewrite lookup_insert_ne.
  - unfold tracks, reset_strategy in *. case_decide as Hk.
    + by rewrite map_lookup_filter_None_2 by (right; intros; cbn; naive_solver).
    + destruct (self !! k) as [en|] eqn:E.
      * by rewrite (map_lookup_filter_Some_2 _ _ _ _ E).
      * by rewrite map_lookup_filter_None_2 by auto.
Qed.

Lemma tracks_run k events self h :
  tracks k self h -> tracks k (emission_run events self) (foldl (history_step k) h events).
Proof using Type.
  revert self h. induction events as [|e events IH]; intros self h Ht; cbn; [done|].
  apply IH. by apply tracks_step.
Qed.

End Contract.

(** ** Ranking *)

Lemma rank_leb_total a b : rank_leb a b = true \/ rank_leb b a = true.
Proof.
  unfold rank_leb. dec_unfold; auto. destruct (String.leb_total a.1.2 b.1.2); auto.
Qed.

Lemma rank_leb_trans a b c : rank_leb a b = true -> rank_leb b c = true -> rank_leb a c = true.
Proof.
  unfold rank_leb. dec_unfold; try done; try solve [exfalso; dec_order]; try solve [intros; exfalso; dec_order].
  apply string_leb_trans.
Qed.

Lemma enumerate_from_ranks n l :
  rk_rank <$> enumerate_from n l = seqZ n (Z.of_nat (length l))
  /\ rk_result <$> enumerate_from n l = l.*2.
Proof.
  revert n. induction l as [|x l IH]; intros n; cbn; [done|].
  destruct (IH (n + 1)) as [H1 H2]. rewrite H1, H2. split; [|done].
  rewrite (seqZ_cons n) by lia. f_equal. f_equal; lia.
Qed.

Lemma rank_results_of results :
  rk_rank <$> rank_results results = seqZ 1 (Z.of_nat (length (rank_results results)))
  /\ rk_result <$> rank_results results = (py_sorted rank_leb (omap rankable results)).*2.
Proof.
  unfold rank_results. destruct (enumerate_from_ranks 1 (py_sorted rank_leb (omap rankable results)))
    as [H1 H2]. split; [|done]. rewrite H1. f_equal. f_equal.
  apply (f_equal length) in H2. by rewrite !length_fmap in H2.
Qed.

Lemma omap_rankable_2 results :
  (omap rankable results).*2
  = filter (fun r => sres_status r = MATCHED /\ is_Some (sres_score r)) results.
Proof.
  induction results as [|r results IH]; [done|]. rewrite filter_cons. cbn. unfold rankable at 1.
  destruct (sres_score r) as [q|] eqn:E; [case_bool_decide|].
  - cbn. rewrite IH, decide_True by eauto. done.
  - cbn. rewrite IH, decide_False by naive_solver. done.
  - rewrite IH, decide_False by (intros [_ [? ?]]; congruence). done.
Qed.

(** Ranked before: a higher score, or the same score and a smaller identity. *)
Definition ranks_before (a b : StrategyResult) : Prop :=
  exists x y, sres_score a = Some x /\ sres_score b = Some y
    /\ ((y < x)%Qc \/ x = y /\ String.leb (sres_strategy_id a) (sres_strategy_id b) = true).

Lemma rankable_some r a :
  rankable r = Some a -> exists x, sres_score r = Some x /\ a = (x, sres_strategy_id r, r).
Proof.
  unfold rankable. destruct (sres_score r) as [x|]; [case_bool_decide|]; [|done|done].
  intros [= <-]. eauto.
Qed.

Lemma rank_leb_before a b : rank_leb a b = true -> forall r s, rankable r = Some a ->
  rankable s = Some b -> ranks_before a.2 b.2.
Proof.
  intros H r s (x & Hx & ->)%rankable_some (y & Hy & ->)%rankable_some.
  exists x, y. cbn. split_and!; [done|done|].
  unfold rank_leb in H. cbn in H. destruct (dec_ltb y x) eqn:E1; [left; by apply dec_ltb_lt|].
  destruct (dec_ltb x y) eqn:E2; [done|]. right. split; [|done].
  unfold dec_ltb in *. zbool. apply Qcle_antisym; by apply Qcnot_lt_le.
Qed.

(** * Properties *)

(** Emission follows the declared policy exactly: after any history of observed
    results and strategy resets, for any mix of strategies, instruments and trading
    dates, a result is emitted if and only if it is material among the results of
    its own strategy, instrument and session: a change of material content against
    the previous one (CONTINUOUS), a change of status against the previous one or
    the NO_MATCH baseline (EDGE_TRIGGERED), or the session's first match
    (ONE_SHOT_PER_SESSION). *)
Theorem emission_exact (policy_of : string -> EmissionPolicy) (events : list EmissionEvent)
    (r : StrategyResult) (td : option date) :
  let policy := policy_of (sres_strategy_id r) in
  (should_emit (emission_run policy_of events ∅) r policy td).2
    = is_material policy (session_before (emission_key r) events td) r.
Proof.
  intros policy. rewrite should_emit_entry.
  assert (tracks policy_of (emission_key r) (emission_run policy_of events ∅)
    (history (emission_key r) events)) as Ht.
  { apply tracks_run. unfold tracks. by rewrite lookup_empty. }
  apply (tracks_entry policy_of _ _ _ td) in Ht as [Hs _].
  exact (proj1 (emit_by_exact _ _ _ r Hs)).
Qed.

(** Ranking is a deterministic presentation order: exactly the matched results
    that carry a score, each once, numbered from 1 without a gap, by descending
    score and then ascending strategy identity; when the strategies are distinct
    the order of the input does not matter. *)
Theorem rank_results_correct (results : list StrategyResult) :
  let out := rank_results results in
  rk_rank <$> out = seqZ 1 (Z.of_nat (length out))
  /\ (rk_result <$> out) ≡ₚ filter (fun r => sres_status r = MATCHED /\ is_Some (sres_score r)) results
  /\ StronglySorted ranks_before (rk_result <$> out)
  /\ (forall results', results ≡ₚ results' -> NoDup (sres_strategy_id <$> results) ->
        rank_results results' = out).
Proof.
  intros out. destruct (rank_results_of results) as [H1 H2]. split_and!; [done| | |].
  - unfold out. rewrite H2, py_sorted_perm. by rewrite omap_rankable_2.
  - unfold out. rewrite H2.
    assert (Forall (fun a => exists r, rankable r = Some a) (py_sorted rank_leb (omap rankable results)))
      as Hall.
    { rewrite Forall_py_sorted. apply Forall_forall. intros a (r & _ & Ha)%list_elem_of_omap. eauto. }
    pose proof (py_sorted_sorted rank_leb rank_leb_total rank_leb_trans (omap rankable results)) as Hs.
    revert Hs Hall. generalize (py_sorted rank_leb (omap rankable results)) as sorted.
    induction 1 as [|a l Hs IH Ha]; intros Hall; cbn; [constructor|]. apply Forall_cons in Hall as [[r Hr] Hall].
    constructor; [by apply IH|]. apply Forall_fmap, Forall_forall. intros b Hb. cbn.
    rewrite Forall_forall in Ha, Hall. destruct (Hall _ Hb) as [s Hs']. by eapply rank_leb_before; eauto.
  - intros results' Hp Hn. unfold out, rank_results. f_equal. symmetry.
    apply py_sorted_unique; [apply rank_leb_total|apply rank_leb_trans| |by rewrite Hp].
    intros a b (r & Hr & Ha)%list_elem_of_omap (s & Hs & Hb)%list_elem_of_omap Hab Hba.
    assert (sres_strategy_id r = sres_strategy_id s) as Hid.
    { apply rankable_some in Ha as (x & _ & ->). apply rankable_some in Hb as (y & _ & ->).
      unfold rank_leb in *. cbn in *. destruct (dec_ltb y x) eqn:E1, (dec_ltb x y) eqn:E2;
        unfold dec_ltb in *; zbool; try done; [exfalso; dec_order|]. by apply String.leb_antisym. }
    apply list_elem_of_lookup in Hr as [n Hr]. apply list_elem_of_lookup in Hs as [m Hs].
    assert (n = m) as ->; [|congruence].
    eapply NoDup_lookup; [exact Hn| |]; rewrite list_lookup_fmap; [by rewrite Hr|rewrite Hs; cbn; congruence].
Qed.
