(* ===== verification/Readiness.v ===== *)
(** When a running strategy is considered and when it may evaluate: trigger
    relevance ([strategy_manager/triggers.py]) and the readiness gates
    ([readiness.py], the verdicts of [records.py]). *)
From S2P Require Import Prelude PyTime MarketData Timeframe Session Context Samples Requirements Strategy.

Local Open Scope Z_scope.

(** * Triggers *)

(** [_finalized_identities] *)
Definition finalized_identities (context : MarketContext) : gset (string * instant * instant) :=
  list_to_set (mjoin ((fun candles =>
    (fun candle => (label (tc_timeframe candles), start_timestamp candle, end_timestamp candle))
      <$> tc_finalized candles) <$> mc_candle_sets context)).

(** [_has_new_finalized] *)
Definition has_new_finalized (previous : option MarketContext) (current : MarketContext) : bool :=
  let prior := match previous with Some p => finalized_identities p | None => ∅ end in
  negb (bool_decide (finalized_identities current ∖ prior = ∅)).

(** [_session_changed] *)
Definition session_changed (previous : option MarketContext) (current : MarketContext) : bool :=
  match previous ≫= mc_session, mc_session current with
  | Some before, Some now => negb (bool_decide (market_state before = market_state now))
  | _, _ => false
  end.

(** [_historical_became_ready] *)
Definition historical_became_ready (previous : option MarketContext) (current : MarketContext)
    : bool :=
  is_not_none (mc_historical current) && negb (is_not_none (previous ≫= mc_historical)).

(** [is_triggered] *)
Definition is_triggered (trigger : StrategyTrigger) (previous : option MarketContext)
    (current : MarketContext) : bool :=
  match trigger with
  | ON_CONTEXT => true
  | ON_TICK => is_not_none (mc_latest_tick current)
      && match previous with
         | None => true
         | Some p => negb (bool_decide (mc_latest_tick current = mc_latest_tick p))
         end
  | ON_QUOTE => is_not_none (mc_latest_quote current)
      && match previous with
         | None => true
         | Some p => negb (bool_decide (mc_latest_quote current = mc_latest_quote p))
         end
  | ON_CANDLE_FINALIZED => has_new_finalized previous current
  | ON_SESSION_TRANSITION => session_changed previous current
  | ON_HISTORICAL_READY => historical_became_ready previous current
  end.

(** * Readiness *)

Inductive Readiness : Type :=
| READY | MISSING_FACTS | MISSING_HISTORICAL | MISSING_LIVE_TIMEFRAME | INCOMPATIBLE_CONTEXT
| MISSING_CONFIGURATION | MISSING_SESSION_STATISTICS | SESSION_STATISTICS_NOT_AUTHORITATIVE
| SESSION_STATISTICS_STALE.

#[global] Instance Readiness_eq_dec : EqDecision Readiness.
Proof. solve_decision. Defined.

(** [_version_compatible] *)
Definition version_compatible (d : StrategyDescriptor) (req : StrategyRequirements)
    (context : MarketContext) : bool :=
  let minimum := Z.max (sd_min_context_version d) (sr_min_context_version req) in
  if mc_version context <? minimum then false
  else match sd_max_context_version d with
       | None => true
       | Some m => mc_version context <=? m
       end.

(** [_fact_available] *)
Definition fact_available (need : FactNeed) (context : MarketContext) : bool :=
  match need with
  | LATEST_TICK => is_not_none (mc_latest_tick context)
  | LATEST_QUOTE => is_not_none (mc_latest_quote context)
  | SESSION_FACT => is_not_none (mc_session context)
  | PREVIOUS_SESSION | SESSION_STATISTICS =>
      is_not_none (mc_historical context ≫= hc_previous_session)
  end.

(** [_facts_ready] *)
Definition facts_ready (needs : list FactNeed) (context : MarketContext) : bool :=
  py_all (fun need => fact_available need context)
    (filter (fun need => need <> SESSION_STATISTICS) needs).

(** A dict comprehension keyed by [key]: the last entry of a key wins. *)
Definition index_by {A} (key : A -> Timeframe) (l : list A) : dict Timeframe A :=
  fold_left (fun d x => dict_set (key x) x d) l [].

(** [_historical_ready] *)
Definition historical_ready (req : StrategyRequirements) (context : MarketContext) : bool :=
  match sr_historical req with
  | [] => true
  | reqs =>
      match mc_historical context with
      | None => false
      | Some h =>
          let by_timeframe := index_by hs_timeframe (hc_series h) in
          py_all (fun r => match dict_get (req_timeframe r) by_timeframe with
                           | Some s => lookback r <=? Z.of_nat (length (hs_candles s))
                           | None => false
                           end) reqs
      end
  end.

(** [_live_ready] *)
Definition live_ready (req : StrategyRequirements) (context : MarketContext) : bool :=
  let by_timeframe := index_by tc_timeframe (mc_candle_sets context) in
  let authoritative := bool_decide (sr_candle_completeness req = AUTHORITATIVE_ONLY) in
  py_all (fun t => match dict_get t by_timeframe with
                   | None => false
                   | Some candles =>
                       negb (authoritative && match tc_finalized candles with [] => true | _ => false end)
                   end) (sr_live_timeframes req).

(** [_freshness_for] *)
Fixpoint freshness_for (entries : list FactFreshnessRequirement) (fact : FactNeed)
    : option timedelta :=
  match entries with
  | [] => None
  | entry :: rest => if bool_decide (fr_fact entry = fact) then Some (fr_max_age entry)
                     else freshness_for rest fact
  end.

(** [_session_statistics_verdict] *)
Definition session_statistics_verdict (req : StrategyRequirements) (context : MarketContext)
    : option Readiness :=
  if negb (bool_decide (SESSION_STATISTICS ∈ sr_fact_needs req)) then None else
  match mc_session context, mc_session_statistics context with
  | Some session, Some statistics =>
      if negb (bool_decide (ss_trading_date statistics = ctx_trading_date session))
      then Some MISSING_SESSION_STATISTICS
      else if negb (bool_decide (ss_quality statistics = AUTHORITATIVE))
      then Some SESSION_STATISTICS_NOT_AUTHORITATIVE
      else match freshness_for (sr_freshness req) SESSION_STATISTICS with
      | None => Some SESSION_STATISTICS_STALE
      | Some max_age =>
          let age := mc_observed_at context - ss_as_of statistics in
          if (age <? 0) || (max_age <? age) then Some SESSION_STATISTICS_STALE else None
      end
  | _, _ => Some MISSING_SESSION_STATISTICS
  end.

(** [assess_readiness]; [accepted] is [isinstance(_, configuration_type)]. *)
Definition assess_readiness {Config} (d : StrategyDescriptor) (req : StrategyRequirements)
    (configuration : option Config) (accepted : Config -> bool) (context : MarketContext)
    : Readiness :=
  if negb (version_compatible d req context) then INCOMPATIBLE_CONTEXT
  else if match configuration with None => true | Some c => negb (accepted c) end
  then MISSING_CONFIGURATION
  else if negb (facts_ready (sr_fact_needs req) context) then MISSING_FACTS
  else if negb (historical_ready req context) then MISSING_HISTORICAL
  else if negb (live_ready req context) then MISSING_LIVE_TIMEFRAME
  else match session_statistics_verdict req context with
       | Some verdict => verdict
       | None => READY
       end.

(** * What the gates promise *)

(** The facts of a context are keyed without duplicates. *)
Definition context_keyed (context : MarketContext) : Prop :=
  NoDup (tc_timeframe <$> mc_candle_sets context)
  /\ forall h, mc_historical context = Some h -> NoDup (hs_timeframe <$> hc_series h).

Section Gates.
Context {Config : Type} (d : StrategyDescriptor) (req : StrategyRequirements)
  (configuration : option Config) (accepted : Config -> bool) (context : MarketContext).

(** The fact a declared need stands for; session statistics have gates of their own. *)
Definition fact_present (need : FactNeed) : Prop :=
  match need with
  | LATEST_TICK => is_Some (mc_latest_tick context)
  | LATEST_QUOTE => is_Some (mc_latest_quote context)
  | SESSION_FACT => is_Some (mc_session context)
  | PREVIOUS_SESSION => exists h, mc_historical context = Some h /\ is_Some (hc_previous_session h)
  | SESSION_STATISTICS => True
  end.

(** Statistics of the context's own session. *)
Definition current_statistics (s : SessionStatistics) : Prop :=
  mc_session_statistics context = Some s
  /\ exists session, mc_session context = Some session /\ ss_trading_date s = ctx_trading_date session.

(** The gates in the order the code tries them, with what each one demands. *)
Definition gates : list (Readiness * Prop) := [
  (INCOMPATIBLE_CONTEXT,
    sd_min_context_version d <= mc_version context /\ sr_min_context_version req <= mc_version context
    /\ forall m, sd_max_context_version d = Some m -> mc_version context <= m);
  (MISSING_CONFIGURATION, exists c, configuration = Some c /\ accepted c = true);
  (MISSING_FACTS, Forall fact_present (sr_fact_needs req));
  (MISSING_HISTORICAL, Forall (fun r => exists h s, mc_historical context = Some h
      /\ s ∈ hc_series h /\ hs_timeframe s = req_timeframe r
      /\ lookback r <= Z.of_nat (length (hs_candles s))) (sr_historical req));
  (MISSING_LIVE_TIMEFRAME, Forall (fun t => exists c, c ∈ mc_candle_sets context
      /\ tc_timeframe c = t
      /\ (sr_candle_completeness req = AUTHORITATIVE_ONLY -> tc_finalized c <> []))
    (sr_live_timeframes req));
  (MISSING_SESSION_STATISTICS,
    SESSION_STATISTICS ∈ sr_fact_needs req -> exists s, current_statistics s);
  (SESSION_STATISTICS_NOT_AUTHORITATIVE, SESSION_STATISTICS ∈ sr_fact_needs req ->
    exists s, current_statistics s /\ ss_quality s = AUTHORITATIVE);
  (SESSION_STATISTICS_STALE, SESSION_STATISTICS ∈ sr_fact_needs req ->
    exists s max_age, current_statistics s
      /\ freshness_for (sr_freshness req) SESSION_STATISTICS = Some max_age
      /\ 0 <= mc_observed_at context - ss_as_of s <= max_age)].

End Gates.

(** The first gate that does not hold, [READY] when all of them do. *)
Inductive first_unmet : list (Readiness * Prop) -> Readiness -> Prop :=
| unmet_none : first_unmet [] READY
| unmet_here v (P : Prop) rest : ~ P -> first_unmet ((v, P) :: rest) v
| unmet_later v (P : Prop) rest w : P -> first_unmet rest w -> first_unmet ((v, P) :: rest) w.

(** * Lemmas *)

Lemma first_unmet_fun gs v w : first_unmet gs v -> first_unmet gs w -> v = w.
Proof.
  intros H. revert w. induction H; intros w' Hw; inversion Hw; subst; try done. by apply IHfirst_unmet.
Qed.

(** One test of the code against one gate of the contract. *)
Lemma gate_step v P (b : bool) rest w :
  (b = true <-> P) -> (b = false -> w = v) -> (b = true -> first_unmet rest w) ->
  first_unmet ((v, P) :: rest) w.
Proof.
  intros Hb Hf Ht. destruct b.
  - apply unmet_later; [by apply Hb|by apply Ht].
  - rewrite (Hf eq_refl). apply unmet_here. intros HP%Hb. done.
Qed.

Lemma index_by_get {A} (key : A -> Timeframe) l t x :
  NoDup (key <$> l) -> dict_get t (index_by key l) = Some x <-> x ∈ l /\ key x = t.
Proof.
  unfold index_by. intros Hn.
  assert (forall d, (forall y, y ∈ l -> dict_get (key y) d = None) ->
    dict_get t (fold_left (fun d x => dict_set (key x) x d) l d) = Some x <->
    dict_get t d = Some x \/ (x ∈ l /\ key x = t)) as Hgen; [|rewrite Hgen by done; cbn; naive_solver].
  induction l as [|y l IH]; intros d Hd; cbn; [set_solver|].
  apply NoDup_cons in Hn as [Hy Hn]. rewrite IH; [|done|].
  - rewrite dict_get_set. case_decide as Ht; [subst t|set_solver].
    rewrite (Hd y) by set_solver. split; [intros [[= ->]|?]; set_solver|].
    intros [?|[[->|Hx]%elem_of_cons Hk]]; [done|by left|].
    exfalso. apply Hy. rewrite <- Hk. by apply list_elem_of_fmap_2.
  - intros z Hz. rewrite dict_get_set, decide_False; [apply Hd; set_solver|].
    intros Hk. apply Hy. rewrite <- Hk. by apply list_elem_of_fmap_2.
Qed.

Lemma py_all_Forall {A} (f : A -> bool) (P : A -> Prop) l :
  (forall x, x ∈ l -> f x = true <-> P x) -> py_all f l = true <-> Forall P l.
Proof.
  intros H. unfold py_all. rewrite forallb_forall, Forall_forall.
  split; intros Hl x Hx.
  - apply H; [done|]. apply Hl. by apply list_elem_of_In.
  - apply list_elem_of_In in Hx. apply H; [done|]. by apply Hl.
Qed.

Lemma is_not_none_spec {A} (o : option A) : is_not_none o = true <-> is_Some o.
Proof. destruct o; cbn; split; eauto; try done. Qed.

Section GateLemmas.
Context (d : StrategyDescriptor) (req : StrategyRequirements) (context : MarketContext).

Lemma version_gate :
  version_compatible d req context = true <->
  sd_min_context_version d <= mc_version context /\ sr_min_context_version req <= mc_version context
  /\ forall m, sd_max_context_version d = Some m -> mc_version context <= m.
Proof.
  unfold version_compatible. destruct (_ <? _) eqn:E; zbool; [split; [done|lia]|].
  destruct (sd_max_context_version d) as [m|].
  - rewrite Z.leb_le. split; [intros; split_and!; [lia|lia|by intros ? [= <-]]|intros (_ & _ & H); auto].
  - split; [intros; split_and!; [lia|lia|done]|done].
Qed.

Lemma facts_gate :
  facts_ready (sr_fact_needs req) context = true <-> Forall (fact_present context) (sr_fact_needs req).
Proof.
  unfold facts_ready. rewrite (py_all_Forall _ (fact_present context)).
  - rewrite !Forall_forall. split; intros H need Hn.
    + destruct (decide (need = SESSION_STATISTICS)) as [->|Hd]; [done|].
      apply H. by apply list_elem_of_filter.
    + apply H. by apply list_elem_of_filter in Hn as [_ ?].
  - intros need [Hd _]%list_elem_of_filter.
    destruct need; cbn; rewrite ?is_not_none_spec; try done.
    destruct (mc_historical context) as [h|]; cbn; split; [by exists h|by intros (? & [= <-] & ?)| |].
    + by intros [? ?].
    + by intros (? & ? & ?).
Qed.

Lemma historical_gate :
  context_keyed context ->
  historical_ready req context = true <->
  Forall (fun r => exists h s, mc_historical context = Some h
      /\ s ∈ hc_series h /\ hs_timeframe s = req_timeframe r
      /\ lookback r <= Z.of_nat (length (hs_candles s))) (sr_historical req).
Proof.
  intros [_ Hk]. unfold historical_ready. destruct (sr_historical req) as [|r0 rs]; [by split|].
  destruct (mc_historical context) as [h|] eqn:Eh.
  - apply py_all_Forall. intros r _. specialize (Hk _ eq_refl). split.
    + destruct (dict_get _ _) as [s|] eqn:E; [|done]. intros Hl. zbool.
      apply index_by_get in E as [? ?]; [|done]. by exists h, s.
    + intros (? & s & [= <-] & Hs & Ht & Hl).
      assert (dict_get (req_timeframe r) (index_by hs_timeframe (hc_series h)) = Some s) as ->
        by by apply index_by_get. by apply Z.leb_le.
  - split; [done|]. intros (? & ? & ? & _)%Forall_inv. done.
Qed.

Lemma live_gate :
  context_keyed context ->
  live_ready req context = true <->
  Forall (fun t => exists c, c ∈ mc_candle_sets context /\ tc_timeframe c = t
      /\ (sr_candle_completeness req = AUTHORITATIVE_ONLY -> tc_finalized c <> []))
    (sr_live_timeframes req).
Proof.
  intros [Hk _]. unfold live_ready. apply py_all_Forall. intros t _. split.
  - destruct (dict_get _ _) as [c|] eqn:E; [|done]. intros Hf.
    apply index_by_get in E as [? ?]; [|done]. exists c. split_and!; [done|done|].
    intros Ha. rewrite Ha in Hf. by destruct (tc_finalized c).
  - intros (c & Hc & Ht & Hf).
    assert (dict_get t (index_by tc_timeframe (mc_candle_sets context)) = Some c) as ->
      by by apply index_by_get.
    case_bool_decide as Ha; [|done]. specialize (Hf Ha). by destruct (tc_finalized c).
Qed.

(** The three verdicts on session statistics are the last three gates in order. *)
Lemma statistics_gates {Config} (configuration : option Config) accepted :
  first_unmet (drop 5 (gates d req configuration accepted context))
    (default READY (session_statistics_verdict req context)).
Proof.
  cbn. unfold session_statistics_verdict, current_statistics.
  destruct (decide (SESSION_STATISTICS ∈ sr_fact_needs req)) as [Hn|Hn].
  2: { rewrite bool_decide_eq_false_2 by done. cbn. repeat (apply unmet_later; [done|]). constructor. }
  rewrite bool_decide_eq_true_2 by done. cbn.
  destruct (mc_session context) as [session|].
  2: { destruct (mc_session_statistics context); apply unmet_here; intros H;
       destruct (H Hn) as (? & _ & ? & ? & _); done. }
  destruct (mc_session_statistics context) as [s|].
  2: { apply unmet_here. intros H. by destruct (H Hn) as (? & ? & _). }
  case_bool_decide as Hd; cbn.
  2: { apply unmet_here. intros H. destruct (H Hn) as (? & [= <-] & ? & [= <-] & ?). done. }
  apply unmet_later; [eauto 10|].
  case_bool_decide as Hq; cbn.
  2: { apply unmet_here. intros H. destruct (H Hn) as (? & [[= <-] _] & ?). done. }
  apply unmet_later; [eauto 10|].
  destruct (freshness_for _ _) as [m|].
  2: { apply unmet_here. intros H. by destruct (H Hn) as (? & ? & _ & ? & _). }
  destruct ((_ <? 0) || _) eqn:E; cbn.
  - apply unmet_here. intros H. destruct (H Hn) as (? & ? & [[= <-] _] & [= <-] & ?). zbool. lia.
  - zbool. apply unmet_later; [|constructor]. intros _. exists s, m. split_and!; eauto; lia.
Qed.

End GateLemmas.

(** * Properties *)

(** Readiness is exact and ordered: for a context whose series and candle sets
    are keyed by timeframe, the verdict is the first gate of the documented list
    that does not hold (version range, configuration of the declared type, facts,
    historical depth, live timeframes with authoritative candles where demanded,
    then presence, authority and freshness of session statistics), and READY
    exactly when every one of them holds. *)
Theorem readiness_exact {Config : Type} (d : StrategyDescriptor) (req : StrategyRequirements)
    (configuration : option Config) (accepted : Config -> bool) (context : MarketContext)
    (Hkeyed : context_keyed context) (v : Readiness) :
  assess_readiness d req configuration accepted context = v
  <-> first_unmet (gates d req configuration accepted context) v.
Proof.
  assert (first_unmet (gates d req configuration accepted context)
    (assess_readiness d req configuration accepted context)) as Hmain.
  { unfold gates, assess_readiness.
    apply (gate_step _ _ (version_compatible d req context)); [apply version_gate|by intros ->|].
    intros ->. cbn [negb].
    apply (gate_step _ _ (negb match configuration with None => true | Some c => negb (accepted c) end)).
    { destruct configuration as [c|]; cbn; [rewrite negb_involutive|];
        (split; [by eauto|]); [by intros (? & [= <-] & ?)|by intros (? & ? & _)]. }
    { by intros ->%negb_false_iff. }
    intros ->%negb_true_iff.
    apply (gate_step _ _ (facts_ready (sr_fact_needs req) context)); [apply facts_gate|by intros ->|].
    intros ->. cbn [negb].
    apply (gate_step _ _ (historical_ready req context)); [by apply historical_gate|by intros ->|].
    intros ->. cbn [negb].
    apply (gate_step _ _ (live_ready req context)); [by apply live_gate|by intros ->|].
    intros ->. exact (statistics_gates d req context configuration accepted). }
  split; [by intros <-|]. intros Hv. by eapply first_unmet_fun.
Qed.

(** * Witness *)

(** A strategy that reads the latest tick and fresh session statistics. *)
Definition sample_descriptor : StrategyDescriptor := {|
  sd_strategy_id := "open_extreme"; sd_display_name := "Open extreme";
  sd_description := "Open equals the session low or high"; sd_version := "1.0.0";
  sd_category := OPENING_SESSION; sd_emission_policy := EDGE_TRIGGERED;
  sd_min_context_version := 1; sd_max_context_version := None |}.

Definition sample_requirements : StrategyRequirements := {|
  sr_historical := []; sr_live_timeframes := [tf 5];
  sr_fact_needs := [LATEST_TICK; SESSION_STATISTICS]; sr_trigger := ON_TICK;
  sr_candle_completeness := PARTIAL_ALLOWED; sr_min_context_version := 1;
  sr_freshness := [{| fr_fact := SESSION_STATISTICS; fr_max_age := 60 * us_per_second |}] |}.

Definition sample_context : MarketContext :=
  initial reliance 1 (at_local 9 20) (at_local 9 20) (Some (trade reliance 9 20 100 5)) None
    [{| tc_timeframe := tf 5; tc_partial := None; tc_finalized := []; tc_incomplete := [] |}]
    (Some live_session) None
    (Some {| ss_trading_date := sample_date; ss_open_price := Some (dec 100 0);
             ss_high_price := Some (dec 100 0); ss_low_price := Some (dec 100 0);
             ss_quality := AUTHORITATIVE; ss_as_of := at_local 9 20 |}) None.

Lemma sample_context_keyed : context_keyed sample_context.
Proof. split; [cbn; apply NoDup_singleton|done]. Qed.

Lemma sample_ready :
  assess_readiness sample_descriptor sample_requirements (Some tt) (fun _ => true) sample_context = READY.
Proof. vm_compute. reflexivity. Qed.

Lemma readiness_exact_witness :
  first_unmet (gates sample_descriptor sample_requirements (Some tt) (fun _ => true) sample_context) READY.
Proof.
  exact (proj1 (readiness_exact sample_descriptor sample_requirements (Some tt) (fun _ => true)
    sample_context sample_context_keyed READY) sample_ready).
Defined.
