(* ===== verification/StrategyManager.v ===== *)
(** The strategy manager ([strategy_manager/manager.py]) with the requirement
    registries and the coordinator it drives ([live_timeframes.py],
    [fact_requirements.py], [requirements_bridge.py], [ports.py]).

    Methods that change state and may raise are written in a state-and-exception
    monad: an exception leaves the changes made before it.  [start] is a
    coroutine, so it is split at its only [await]: [start_begin] runs up to the
    warm-up call and [start_finish] resumes with the outcome of that call, which
    may be a cancellation. *)
From S2P Require Import Prelude PyTime MarketData Timeframe Session Buckets Context Samples.
From S2P Require Import CandleEngine Requirements Strategy Lifecycle Emission Readiness.

Local Open Scope Z_scope.

(** * State and exceptions *)

Definition stateful (S A : Type) : Type := S -> S * result A.

#[global] Instance stateful_ret S : MRet (stateful S) := fun A a s => (s, Ok a).
#[global] Instance stateful_bind S : MBind (stateful S) :=
  fun A B k m s => match m s with
                   | (s', Ok a) => k a s'
                   | (s', Raise e) => (s', Raise e)
                   end.

#[global] Instance stateful_fmap S : FMap (stateful S) :=
  fun A B f m s => match m s with
                   | (s', Ok a) => (s', Ok (f a))
                   | (s', Raise e) => (s', Raise e)
                   end.

(** A call that may raise and changes nothing. *)
Definition lift {S A} (r : result A) : stateful S A := fun s => (s, r).

(** [[f(x) for x in xs]] *)
Fixpoint collect {S A B} (f : A -> stateful S B) (l : list A) : stateful S (list B) :=
  match l with
  | [] => mret []
  | x :: l => y ← f x; ys ← collect f l; mret (y :: ys)
  end.

(** * Requirement registries *)

(** [LiveTimeframeRequirementRegistry._by_consumer] *)
Definition LiveTimeframeRequirementRegistry : Type := dict string (gset Timeframe).

Definition live_register (self : LiveTimeframeRequirementRegistry) (consumer_key : string)
    (timeframes : list Timeframe) : result LiveTimeframeRequirementRegistry :=
  _ ← raise_if (is_empty (strip consumer_key)) (ValueError "consumer key must be a non-empty string");
  Ok (dict_set consumer_key (list_to_set timeframes) self).

Definition live_deregister (self : LiveTimeframeRequirementRegistry) (consumer_key : string)
    : LiveTimeframeRequirementRegistry := dict_pop consumer_key self.

Definition effective_timeframes (self : LiveTimeframeRequirementRegistry) : gset Timeframe :=
  fold_left (fun effective timeframes => effective ∪ timeframes) self.*2 ∅.

(** [FactRequirementRegistry._by_consumer] *)
Definition FactRequirementRegistry : Type := dict string timedelta.

Definition facts_register (self : FactRequirementRegistry) (consumer_key : string)
    (session_statistics_max_age : option timedelta) : result FactRequirementRegistry :=
  _ ← raise_if (is_empty (strip consumer_key)) (ValueError "consumer key must be non-empty");
  Ok match session_statistics_max_age with
     | None => dict_pop consumer_key self
     | Some age => dict_set consumer_key age self
     end.

Definition facts_deregister (self : FactRequirementRegistry) (consumer_key : string)
    : FactRequirementRegistry := dict_pop consumer_key self.

Definition effective_session_statistics_max_age (self : FactRequirementRegistry)
    : option timedelta :=
  match self.*2 with
  | [] => None
  | age :: ages => Some (fold_left Z.min ages age)
  end.

(** * Capability ports *)

(** [LiveTimeframeSink]: what it was last told is what is active. *)
Class LiveTimeframeSink (Sink : Type) : Type := {
  set_required : Sink -> gset Timeframe -> result Sink;
  active_timeframes : Sink -> gset Timeframe;
  set_required_active : forall s ts s', set_required s ts = Ok s' -> active_timeframes s' = ts;
}.

(** [SessionStatisticsRefreshControl] *)
Class RefreshControl (Refresh : Type) : Type :=
  configure : Refresh -> option timedelta -> result Refresh.

Section Coordinator.
Context {Sink Refresh : Type} `{!LiveTimeframeSink Sink} `{!RefreshControl Refresh}.

Record RequirementsCoordinator : Type := {
  rc_instruments : list Instrument;
  rc_historical : HistoricalRequirementRegistry;
  rc_live : LiveTimeframeRequirementRegistry;
  rc_facts : FactRequirementRegistry;
  rc_sink : Sink;
  rc_refresh : option Refresh;
}.

Definition set_historical (c : RequirementsCoordinator) (h : HistoricalRequirementRegistry)
    : RequirementsCoordinator := {|
  rc_instruments := rc_instruments c; rc_historical := h; rc_live := rc_live c;
  rc_facts := rc_facts c; rc_sink := rc_sink c; rc_refresh := rc_refresh c |}.

Definition set_live (c : RequirementsCoordinator) (l : LiveTimeframeRequirementRegistry)
    : RequirementsCoordinator := {|
  rc_instruments := rc_instruments c; rc_historical := rc_historical c; rc_live := l;
  rc_facts := rc_facts c; rc_sink := rc_sink c; rc_refresh := rc_refresh c |}.

Definition set_facts (c : RequirementsCoordinator) (f : FactRequirementRegistry)
    : RequirementsCoordinator := {|
  rc_instruments := rc_instruments c; rc_historical := rc_historical c; rc_live := rc_live c;
  rc_facts := f; rc_sink := rc_sink c; rc_refresh := rc_refresh c |}.

Definition set_sink (c : RequirementsCoordinator) (s : Sink) : RequirementsCoordinator := {|
  rc_instruments := rc_instruments c; rc_historical := rc_historical c; rc_live := rc_live c;
  rc_facts := rc_facts c; rc_sink := s; rc_refresh := rc_refresh c |}.

Definition set_refresh (c : RequirementsCoordinator) (r : Refresh) : RequirementsCoordinator := {|
  rc_instruments := rc_instruments c; rc_historical := rc_historical c; rc_live := rc_live c;
  rc_facts := rc_facts c; rc_sink := rc_sink c; rc_refresh := Some r |}.

(** A call that replaces one part of the coordinator or raises. *)
Definition store {A} (set : RequirementsCoordinator -> A -> RequirementsCoordinator)
    (call : RequirementsCoordinator -> result A) : stateful RequirementsCoordinator unit :=
  fun self => match call self with
              | Ok a => (set self a, Ok tt)
              | Raise e => (self, Raise e)
              end.

(** [_session_statistics_max_age] *)
Definition session_statistics_max_age (req : StrategyRequirements) : option timedelta :=
  if bool_decide (SESSION_STATISTICS ∈ sr_fact_needs req)
  then freshness_for (sr_freshness req) SESSION_STATISTICS else None.

(** [_apply_session_statistics] *)
Definition apply_session_statistics : stateful RequirementsCoordinator unit :=
  fun self => match rc_refresh self with
  | None => (self, Ok tt)
  | Some control =>
      store set_refresh (fun self =>
        configure control (effective_session_statistics_max_age (rc_facts self))) self
  end.

(** [apply_live_union] *)
Definition apply_live_union : stateful RequirementsCoordinator unit :=
  store set_sink (fun self => set_required (rc_sink self) (effective_timeframes (rc_live self))).

(** [RequirementsCoordinator.register] *)
Definition register_requirements (strategy_id : string) (req : StrategyRequirements)
    : stateful RequirementsCoordinator unit :=
  _ ← store set_historical (fun self => register (rc_historical self) strategy_id (sr_historical req));
  _ ← store set_live (fun self => live_register (rc_live self) strategy_id (sr_live_timeframes req));
  _ ← store set_facts (fun self =>
        facts_register (rc_facts self) strategy_id (session_statistics_max_age req));
  apply_session_statistics.

(** [RequirementsCoordinator.release] *)
Definition release_requirements (strategy_id : string) : stateful RequirementsCoordinator unit :=
  _ ← store set_historical (fun self => Ok (deregister (rc_historical self) strategy_id));
  _ ← store set_live (fun self => Ok (live_deregister (rc_live self) strategy_id));
  _ ← store set_facts (fun self => Ok (facts_deregister (rc_facts self) strategy_id));
  _ ← apply_live_union;
  apply_session_statistics.

(** [warm] up to its [await]: nothing to warm, or the requirements the warm-up
    port is called with. *)
Definition warm_begin (req : StrategyRequirements)
    : stateful RequirementsCoordinator (option (list HistoricalRequirement)) :=
  fun self =>
    (self, match effective_requirements (rc_historical self) with
           | Raise e => Raise e
           | Ok [] => Ok None
           | Ok effective =>
               Ok (match sr_historical req with [] => None | _ => Some effective end)
           end).

End Coordinator.
Arguments RequirementsCoordinator Sink Refresh : clear implicits.

(** * The manager *)

Record StrategyEvaluationRecord : Type := {
  rec_strategy_id : string;
  rec_trigger : StrategyTrigger;
  rec_readiness : Readiness;
  rec_evaluation : StrategyEvaluation;
}.

Record StrategyResultsPublished : Type := {
  pub_instrument : Instrument;
  pub_context_version : Z;
  pub_results : list StrategyResult;
  pub_ranked : list RankedStrategyResult;
  pub_trading_date : option date;
}.

(** How the awaited warm-up ends: it returns, raises, or the task is cancelled
    ([CancelledError] is not an [Exception]). *)
Inductive WarmupOutcome : Type :=
| Warmed
| WarmupFailed (e : exn)
| StartCancelled.

(** What [start] has come to when it first returns control. *)
Inductive StartProgress : Type :=
| Started (s : StrategyLifecycleState)
| AwaitingWarmup (effective : list HistoricalRequirement).

Section Manager.
Context {Config : Type} (config_version : Config -> string).
Context {Sink Refresh : Type} `{!LiveTimeframeSink Sink} `{!RefreshControl Refresh}.

Record StrategyManager : Type := {
  mg_registry : StrategyRegistry Config;
  mg_lifecycle : StrategyLifecycle;
  mg_configurations : dict string Config;
  mg_error_threshold : Z;
  mg_requirements : option (RequirementsCoordinator Sink Refresh);
  mg_previous : gmap Instrument MarketContext;
  mg_latest : gmap Instrument (list StrategyEvaluationRecord);
  mg_error_counts : dict string Z;
  mg_dedup : EmissionDeduplicator;
}.

(** [StrategyManager.__init__] *)
Definition mk_manager (registry : StrategyRegistry Config) (lifecycle : StrategyLifecycle)
    (configurations : dict string Config) (error_threshold : Z)
    (coordinator : option (RequirementsCoordinator Sink Refresh)) : result StrategyManager :=
  _ ← raise_if (error_threshold <? 1) (ValueError "error_threshold must be a positive integer");
  Ok {| mg_registry := registry; mg_lifecycle := lifecycle; mg_configurations := configurations;
        mg_error_threshold := error_threshold; mg_requirements := coordinator;
        mg_previous := ∅; mg_latest := ∅; mg_error_counts := []; mg_dedup := ∅ |}.

Definition set_lifecycle (m : StrategyManager) (l : StrategyLifecycle) : StrategyManager := {|
  mg_registry := mg_registry m; mg_lifecycle := l; mg_configurations := mg_configurations m;
  mg_error_threshold := mg_error_threshold m; mg_requirements := mg_requirements m;
  mg_previous := mg_previous m; mg_latest := mg_latest m; mg_error_counts := mg_error_counts m;
  mg_dedup := mg_dedup m |}.

Definition set_coordinator (m : StrategyManager) (c : RequirementsCoordinator Sink Refresh)
    : StrategyManager := {|
  mg_registry := mg_registry m; mg_lifecycle := mg_lifecycle m;
  mg_configurations := mg_configurations m; mg_error_threshold := mg_error_threshold m;
  mg_requirements := Some c; mg_previous := mg_previous m; mg_latest := mg_latest m;
  mg_error_counts := mg_error_counts m; mg_dedup := mg_dedup m |}.

Definition set_cycle (m : StrategyManager) (context : MarketContext)
    (records : list StrategyEvaluationRecord) : StrategyManager := {|
  mg_registry := mg_registry m; mg_lifecycle := mg_lifecycle m;
  mg_configurations := mg_configurations m; mg_error_threshold := mg_error_threshold m;
  mg_requirements := mg_requirements m;
  mg_previous := <[mc_instrument context := context]> (mg_previous m);
  mg_latest := <[mc_instrument context := records]> (mg_latest m);
  mg_error_counts := mg_error_counts m; mg_dedup := mg_dedup m |}.

Definition set_count (m : StrategyManager) (strategy_id : string) (n : Z) : StrategyManager := {|
  mg_registry := mg_registry m; mg_lifecycle := mg_lifecycle m;
  mg_configurations := mg_configurations m; mg_error_threshold := mg_error_threshold m;
  mg_requirements := mg_requirements m; mg_previous := mg_previous m; mg_latest := mg_latest m;
  mg_error_counts := dict_set strategy_id n (mg_error_counts m); mg_dedup := mg_dedup m |}.

Definition set_dedup (m : StrategyManager) (d : EmissionDeduplicator) : StrategyManager := {|
  mg_registry := mg_registry m; mg_lifecycle := mg_lifecycle m;
  mg_configurations := mg_configurations m; mg_error_threshold := mg_error_threshold m;
  mg_requirements := mg_requirements m; mg_previous := mg_previous m; mg_latest := mg_latest m;
  mg_error_counts := mg_error_counts m; mg_dedup := d |}.

(** ** Lifecycle commands *)

(** A lifecycle command issued by the manager. *)
Definition command (strategy_id : string) (c : LifecycleCommand)
    : stateful StrategyManager StrategyLifecycleState :=
  fun self => match execute (mg_lifecycle self) strategy_id c with
              | Ok (l, s) => (set_lifecycle self l, Ok s)
              | Raise e => (self, Raise e)
              end.

(** A call on the coordinator, which [_require_coordinator] looks up first. *)
Definition with_coordinator {A} (call : stateful (RequirementsCoordinator Sink Refresh) A)
    : stateful StrategyManager A :=
  fun self => match mg_requirements self with
  | None => (self, Raise (StrategyLifecycleError "lifecycle commands require a RequirementsCoordinator (P5.4)"))
  | Some c => let '(c', r) := call c in (set_coordinator self c', r)
  end.

(** [_require_coordinator] *)
Definition require_coordinator : stateful StrategyManager unit := with_coordinator (mret tt).

(** [self._registry.get(strategy_id)] *)
Definition lookup_strategy (strategy_id : string) : stateful StrategyManager (Strategy Config) :=
  fun self => (self, get_strategy (mg_registry self) strategy_id).

(** [_require_valid_configuration] *)
Definition require_valid_configuration (strategy_id : string) (s : Strategy Config)
    : stateful StrategyManager unit :=
  fun self =>
    (self, raise_if (match dict_get strategy_id (mg_configurations self) with
                     | None => true
                     | Some c => negb (accepts s c)
                     end) (StrategyLifecycleError "no valid configuration to start")).

(** The body of [start]'s [try], up to the [await]. *)
Definition start_body (strategy_id : string)
    : stateful StrategyManager (option (list HistoricalRequirement)) :=
  s ← lookup_strategy strategy_id;
  _ ← require_valid_configuration strategy_id s;
  _ ← with_coordinator (register_requirements strategy_id (requirements s));
  _ ← with_coordinator apply_live_union;
  with_coordinator (warm_begin (requirements s)).

(** [start] behind its transition to STARTING: a fault of the body ends in ERROR. *)
Definition start_settle (strategy_id : string) : stateful StrategyManager StartProgress :=
  fun self => match start_body strategy_id self with
  | (self, Raise _) => (Started <$> command strategy_id (Plain MarkError)) self
  | (self, Ok None) => (Started <$> command strategy_id (Plain MarkRunning)) self
  | (self, Ok (Some effective)) => (self, Ok (AwaitingWarmup effective))
  end.

(** [start] up to its [await], or to its end when nothing is awaited. *)
Definition start_begin (strategy_id : string) : stateful StrategyManager StartProgress :=
  _ ← require_coordinator;
  _ ← command strategy_id (Plain Start);
  start_settle strategy_id.

(** [start] from the outcome of the awaited warm-up on. *)
Definition start_finish (strategy_id : string) (o : WarmupOutcome)
    : stateful StrategyManager StrategyLifecycleState :=
  match o with
  | Warmed => command strategy_id (Plain MarkRunning)
  | WarmupFailed _ => command strategy_id (Plain MarkError)
  | StartCancelled => lift (Raise CancelledError)
  end.

(** [pause] and [resume] *)
Definition manager_pause (strategy_id : string) := command strategy_id (Plain Pause).
Definition manager_resume (strategy_id : string) := command strategy_id (Plain Resume).

(** [self._dedup.reset_strategy(strategy_id)] *)
Definition reset_emission (strategy_id : string) : stateful StrategyManager unit :=
  fun self => (set_dedup self (reset_strategy (mg_dedup self) strategy_id), Ok tt).

(** [stop] *)
Definition manager_stop (strategy_id : string) : stateful StrategyManager StrategyLifecycleState :=
  s ← command strategy_id (Plain Stop);
  _ ← with_coordinator (release_requirements strategy_id);
  _ ← reset_emission strategy_id;
  mret s.

(** [force_stop] *)
Definition manager_force_stop (strategy_id : string)
    : stateful StrategyManager StrategyLifecycleState :=
  s ← command strategy_id (ForceStop false);
  _ ← with_coordinator (release_requirements strategy_id);
  _ ← reset_emission strategy_id;
  mret s.

(** ** Evaluation *)

(** [_skipped], [_error] *)
Definition skipped (context : MarketContext) : StrategyEvaluation := {|
  ev_instrument := mc_instrument context; ev_context_version := mc_version context;
  ev_status := SKIPPED; ev_score := None; ev_confidence := None; ev_reason_codes := [];
  ev_metrics := []; ev_diagnostics := [] |}.

Definition errored (context : MarketContext) : StrategyEvaluation := {|
  ev_instrument := mc_instrument context; ev_context_version := mc_version context;
  ev_status := EVALUATION_ERROR; ev_score := None; ev_confidence := None; ev_reason_codes := [];
  ev_metrics := []; ev_diagnostics := [("error", "evaluation_failed")] |}.

(** [_metadata] *)
Definition metadata (trigger : StrategyTrigger) (context : MarketContext)
    : StrategyEvaluationMetadata := {|
  em_trigger := trigger; em_context_version := mc_version context;
  em_observed_at := mc_observed_at context;
  em_trading_date := ctx_trading_date <$> mc_session context |}.

(** [_require_consistent] *)
Definition require_consistent (evaluation : StrategyEvaluation) (context : MarketContext)
    : result StrategyEvaluation :=
  _ ← raise_if (negb (bool_decide (ev_instrument evaluation = mc_instrument context))
                || negb (ev_context_version evaluation =? mc_version context))
    (ValueError "strategy evaluation does not match the evaluated context");
  Ok evaluation.

Definition mk_record (strategy_id : string) (trigger : StrategyTrigger) (r : Readiness)
    (e : StrategyEvaluation) : StrategyEvaluationRecord := {|
  rec_strategy_id := strategy_id; rec_trigger := trigger; rec_readiness := r; rec_evaluation := e |}.

(** [_fail] *)
Definition fail (strategy_id : string) (trigger : StrategyTrigger) (context : MarketContext)
    : stateful StrategyManager StrategyEvaluationRecord :=
  fun self =>
    let count := default 0 (dict_get strategy_id (mg_error_counts self)) + 1 in
    let self := set_count self strategy_id count in
    let record := mk_record strategy_id trigger READY (errored context) in
    if mg_error_threshold self <=? count
    then ((fun _ => record) <$> command strategy_id (Plain MarkError)) self
    else (self, Ok record).

(** [_run] *)
Definition run_strategy (s : Strategy Config) (strategy_id : string) (trigger : StrategyTrigger)
    (configuration : Config) (context : MarketContext)
    : stateful StrategyManager StrategyEvaluationRecord :=
  match evaluate s context configuration (metadata trigger context)
        ≫= (fun e => require_consistent e context) with
  | Raise _ => fail strategy_id trigger context
  | Ok evaluation => fun self =>
      (set_count self strategy_id 0, Ok (mk_record strategy_id trigger READY evaluation))
  end.

(** [_evaluate_one] *)
Definition evaluate_one (s : Strategy Config) (trigger : StrategyTrigger) (context : MarketContext)
    : stateful StrategyManager StrategyEvaluationRecord :=
  fun self =>
    let strategy_id := sd_strategy_id (descriptor s) in
    let configuration := dict_get strategy_id (mg_configurations self) in
    let readiness := assess_readiness (descriptor s) (requirements s) configuration (accepts s) context in
    match configuration with
    | Some c =>
        if bool_decide (readiness = READY) then run_strategy s strategy_id trigger c context self
        else (self, Ok (mk_record strategy_id trigger readiness (skipped context)))
    | None => (self, Ok (mk_record strategy_id trigger readiness (skipped context)))
    end.

(** [_running_ids] *)
Definition running_ids (self : StrategyManager) : list string :=
  let running : gset string := list_to_set (srs_strategy_id
    <$> filter (fun status => srs_state status = RUNNING) (snapshot (mg_lifecycle self))) in
  py_sorted String.leb (elements (running ∩ list_to_set (identifiers (mg_registry self)))).

(** One turn of the loop of [_records_for]. *)
Definition consider (context : MarketContext) (previous : option MarketContext)
    (strategy_id : string) : stateful StrategyManager (option StrategyEvaluationRecord) :=
  s ← lookup_strategy strategy_id;
  let trigger := sr_trigger (requirements s) in
  if negb (is_triggered trigger previous context) then mret None
  else Some <$> evaluate_one s trigger context.

(** [_records_for] *)
Definition records_for (context : MarketContext) (previous : option MarketContext)
    : stateful StrategyManager (list StrategyEvaluationRecord) :=
  fun self => (omap id <$> collect (consider context previous) (running_ids self)) self.

(** ** Publication *)

(** [_EMITTABLE] *)
Definition emittable (s : EvaluationStatus) : bool :=
  match s with MATCHED | NO_MATCH => true | SKIPPED | EVALUATION_ERROR => false end.

(** [_emit_candidate] *)
Definition emit_candidate (context : MarketContext) (trading_date : option date)
    (record : StrategyEvaluationRecord) : stateful StrategyManager (option StrategyResult) :=
  fun self =>
  if negb (emittable (ev_status (rec_evaluation record))) then (self, Ok None) else
  match dict_get (rec_strategy_id record) (mg_configurations self) with
  | None => (self, Ok None)
  | Some configuration =>
      match get_strategy (mg_registry self) (rec_strategy_id record) with
      | Raise e => (self, Raise e)
      | Ok s =>
          let r := promote_evaluation (rec_evaluation record) (descriptor s)
                     (config_version configuration) (mc_observed_at context) in
          let '(dedup, verdict) :=
            should_emit (mg_dedup self) r (sd_emission_policy (descriptor s)) trading_date in
          (set_dedup self dedup, Ok (if verdict then Some r else None))
      end
  end.

(** [_publish_results]: the event handed to the bus, if any. *)
Definition publish_results (context : MarketContext) (records : list StrategyEvaluationRecord)
    : stateful StrategyManager (option StrategyResultsPublished) :=
  let trading_date := ctx_trading_date <$> mc_session context in
  emitted ← collect (emit_candidate context trading_date) records;
  mret (match omap id emitted with
        | [] => None
        | results => Some {|
            pub_instrument := mc_instrument context; pub_context_version := mc_version context;
            pub_results := results; pub_ranked := rank_results results;
            pub_trading_date := trading_date |}
        end).

(** ** One context *)

(** The observer sink and the bus are foreign: a call returns or raises. *)
Context (sink : StrategyEvaluationRecord -> option exn).
Context (publish : StrategyResultsPublished -> option exn).

(** [for record in records: self._sink(record)] *)
Fixpoint observe (records : list StrategyEvaluationRecord) : result unit :=
  match records with
  | [] => Ok tt
  | record :: rest => match sink record with Some e => Raise e | None => observe rest end
  end.

(** [_handle], with the event it publishes. *)
Definition handle (context : MarketContext) (self : StrategyManager)
    : StrategyManager * option StrategyResultsPublished * result unit :=
  let previous := mg_previous self !! mc_instrument context in
  if match previous with Some p => mc_version context <=? mc_version p | None => false end
  then (self, None, Ok tt) else
  match records_for context previous self with
  | (self, Raise e) => (self, None, Raise e)
  | (self, Ok records) =>
      let self := set_cycle self context records in
      match observe records with
      | Raise e => (self, None, Raise e)
      | Ok _ =>
          match publish_results context records self with
          | (self, Raise e) => (self, None, Raise e)
          | (self, Ok None) => (self, None, Ok tt)
          | (self, Ok (Some event)) =>
              (self, Some event, match publish event with Some e => Raise e | None => Ok tt end)
          end
      end
  end.

End Manager.
Arguments StrategyManager Config Sink Refresh : clear implicits.

(** [CandleEngineTimeframeSink] *)
Definition candle_engine_set_required (e : CandleEngine) (ts : gset Timeframe) : result CandleEngine :=
  set_required_timeframes e (elements ts).

Lemma candle_engine_active e ts e' :
  candle_engine_set_required e ts = Ok e' -> (list_to_set (ce_timeframes e') : gset Timeframe) = ts.
Proof.
  unfold candle_engine_set_required, set_required_timeframes.
  intros (v & [-> _]%validated_from_ok & [= <-])%bind_ok. cbn.
  apply set_eq. intros t. rewrite elem_of_list_to_set, ordered_perm. set_solver.
Qed.

(** The production adapter discharges the sink's promise. *)
#[global] Instance candle_engine_sink : LiveTimeframeSink CandleEngine := {
  set_required := candle_engine_set_required;
  active_timeframes := fun e => list_to_set (ce_timeframes e);
  set_required_active := candle_engine_active;
}.

(** The production refresh control stores the demand. *)
#[global] Instance stored_refresh : RefreshControl (option timedelta) := fun _ age => Ok age.

(** * One evaluation cycle *)

Section Cycle.
Context {Config : Type} (config_version : Config -> string).
Context {Sink Refresh : Type} `{!LiveTimeframeSink Sink} `{!RefreshControl Refresh}.
Local Abbreviation Manager := (StrategyManager Config Sink Refresh).

Lemma command_spec i c (m : Manager) :
  command i c m = match outcome_of i (dict_get i (mg_lifecycle m)) c with
                  | Ok s => (set_lifecycle m (dict_set i s (mg_lifecycle m)), Ok s)
                  | Raise e => (m, Raise e)
                  end.
Proof using Type. unfold command. rewrite execute_outcome. by destruct (outcome_of _ _ _). Qed.

Lemma outcome_running_error i : outcome_of i (Some RUNNING) (Plain MarkError) = Ok ERROR.
Proof using Type. done. Qed.

(** How a cycle treats one strategy. *)
Inductive CycleFate : Type := NotEvaluated | Succeeded | Failed.

(** The record a strategy gets for a context, and whether it was evaluated: both
    depend on the strategy, its configuration and the context alone. *)
Definition judge (configurations : dict string Config) (s : Strategy Config)
    (context : MarketContext) : StrategyEvaluationRecord * CycleFate :=
  let i := sd_strategy_id (descriptor s) in
  let trigger := sr_trigger (requirements s) in
  let c := dict_get i configurations in
  let readiness := assess_readiness (descriptor s) (requirements s) c (accepts s) context in
  match c, readiness with
  | Some c, READY =>
      match evaluate s context c (metadata trigger context) ≫= (fun e => require_consistent e context) with
      | Ok e => (mk_record i trigger READY e, Succeeded)
      | Raise _ => (mk_record i trigger READY (errored context), Failed)
      end
  | _, _ => (mk_record i trigger readiness (skipped context), NotEvaluated)
  end.

(** The same for a strategy id: [None] when the strategy is not considered. *)
Definition judged (m : Manager) (context : MarketContext) (previous : option MarketContext)
    (i : string) : option (StrategyEvaluationRecord * CycleFate) :=
  s ← dict_get i (mg_registry m);
  if is_triggered (sr_trigger (requirements s)) previous context
  then Some (judge (mg_configurations m) s context) else None.

(** The consecutive-failure count a fate leaves. *)
Definition count_after (fate : option CycleFate) (n : option Z) : option Z :=
  match fate with
  | Some Succeeded => Some 0
  | Some Failed => Some (default 0 n + 1)
  | _ => n
  end.

(** The lifecycle state a fate leaves: the threshold-th failure in a row faults it. *)
Definition state_after (threshold : Z) (fate : option CycleFate) (n : option Z)
    (s : option StrategyLifecycleState) : option StrategyLifecycleState :=
  match fate with
  | Some Failed => if threshold <=? default 0 n + 1 then Some ERROR else s
  | _ => s
  end.

(** Well-formed manager: unique keys, strategies filed under their own id. *)
Definition manager_wf (m : Manager) : Prop :=
  registry_ok (mg_registry m) /\ NoDup (mg_lifecycle m).*1.

(** The bookkeeping of one judged strategy. *)
Definition settle (fate : option CycleFate) (i : string) (m : Manager) : Manager :=
  match fate with
  | Some Succeeded => set_count m i 0
  | Some Failed =>
      let n := default 0 (dict_get i (mg_error_counts m)) + 1 in
      let m := set_count m i n in
      if mg_error_threshold m <=? n then set_lifecycle m (dict_set i ERROR (mg_lifecycle m)) else m
  | _ => m
  end.

(** What a cycle's bookkeeping never touches. *)
Definition same_frame (m m' : Manager) : Prop :=
  mg_registry m' = mg_registry m /\ mg_configurations m' = mg_configurations m
  /\ mg_error_threshold m' = mg_error_threshold m /\ mg_requirements m' = mg_requirements m
  /\ mg_previous m' = mg_previous m /\ mg_latest m' = mg_latest m /\ mg_dedup m' = mg_dedup m.

Lemma settle_frame fate i m : same_frame m (settle fate i m).
Proof using Type.
  destruct fate as [[]|]; cbn; try done. by destruct (_ <=? _).
Qed.

Lemma settle_counts fate i m j :
  dict_get j (mg_error_counts (settle fate i m))
  = if decide (j = i) then count_after fate (dict_get j (mg_error_counts m))
    else dict_get j (mg_error_counts m).
Proof using Type.
  destruct fate as [[]|]; cbn; try (by case_decide).
  - rewrite dict_get_set. by case_decide.
  - destruct (_ <=? _); cbn; rewrite dict_get_set; case_decide; by subst.
Qed.

Lemma settle_lifecycle fate i m j :
  dict_get j (mg_lifecycle (settle fate i m))
  = if decide (j = i)
    then state_after (mg_error_threshold m) fate (dict_get j (mg_error_counts m))
           (dict_get j (mg_lifecycle m))
    else dict_get j (mg_lifecycle m).
Proof using Type.
  destruct fate as [[]|]; cbn; try (by case_decide).
  destruct (decide (j = i)) as [->|Hj].
  - destruct (_ <=? _); cbn; by rewrite ?dict_get_set, ?decide_True.
  - destruct (_ <=? _); cbn; by rewrite ?dict_get_set, ?decide_False.
Qed.

(** Evaluating one strategy: its record and its own bookkeeping. *)
Lemma consider_spec context previous i m s :
  manager_wf m -> dict_get i (mg_registry m) = Some s ->
  dict_get i (mg_lifecycle m) = Some RUNNING ->
  consider context previous i m
  = (settle (snd <$> judged m context previous i) i m, Ok (fst <$> judged m context previous i)).
Proof using Type.
  intros [[_ Hk] _] Hs Hl. unfold consider, lookup_strategy, get_strategy, judged.
  unfold mbind, stateful_bind, fmap, stateful_fmap, option_bind. rewrite Hs.
  destruct (is_triggered _ _ _); cbn; [|reflexivity].
  unfold evaluate_one, judge. rewrite (Hk _ _ Hs).
  destruct (dict_get i (mg_configurations m)) as [c|]; cbn; [|done].
  destruct (decide (assess_readiness (descriptor s) (requirements s) (Some c) (accepts s) context = READY))
    as [->|Hr].
  2: { rewrite bool_decide_eq_false_2 by done. by destruct (assess_readiness _ _ _ _ _). }
  rewrite bool_decide_eq_true_2 by done. unfold run_strategy.
  destruct (evaluate s context c _ ≫= _) as [e|e]; cbn; [done|].
  unfold fail, fmap, stateful_fmap. cbn [mg_error_threshold set_count]. destruct (_ <=? _) eqn:E.
  - rewrite command_spec. cbn [mg_lifecycle set_count]. rewrite Hl.
    by rewrite outcome_running_error.
  - done.
Qed.

Lemma judged_frame m m' context previous i :
  same_frame m m' -> judged m' context previous i = judged m context previous i.
Proof using Type. intros (Hr & Hc & _). unfold judged. by rewrite Hr, Hc. Qed.

(** All the strategies of a cycle, one after the other. *)
Definition settle_all (context : MarketContext) (previous : option MarketContext)
    (ids : list string) (m : Manager) : Manager :=
  foldl (fun acc i => settle (snd <$> judged m context previous i) i acc) m ids.

Lemma same_frame_trans a b c : same_frame a b -> same_frame b c -> same_frame a c.
Proof using Type. unfold same_frame. intuition congruence. Qed.

Lemma settle_wf fate i m : manager_wf m -> manager_wf (settle fate i m).
Proof using Type.
  intros [Hr Hn]. split.
  - destruct (settle_frame fate i m) as [-> _]. done.
  - destruct fate as [[]|]; cbn; try done. destruct (_ <=? _); cbn; auto with apex.
Qed.

Lemma settle_all_wf context previous ids m : manager_wf m -> manager_wf (settle_all context previous ids m).
Proof using Type.
  unfold settle_all. intros Hwf. cut (forall acc, manager_wf acc ->
    manager_wf (foldl (fun acc i => settle (snd <$> judged m context previous i) i acc) acc ids)); [by auto|].
  clear Hwf. induction ids as [|i ids IH]; intros acc Hwf; cbn; [done|]. apply IH. by apply settle_wf.
Qed.

Lemma collect_consider context previous ids m0 m :
  NoDup ids -> manager_wf m -> same_frame m0 m ->
  (forall i, i ∈ ids -> is_Some (dict_get i (mg_registry m))
                        /\ dict_get i (mg_lifecycle m) = Some RUNNING) ->
  collect (consider context previous) ids m
  = (foldl (fun acc i => settle (snd <$> judged m0 context previous i) i acc) m ids,
     Ok ((fun i => fst <$> judged m0 context previous i) <$> ids)).
Proof using Type.
  intros Hn. revert m. induction Hn as [|i ids Hi Hn IH]; intros m Hwf Hf Hall; cbn; [done|].
  destruct (Hall i) as [[s Hs] Hl]; [set_solver|].
  unfold mbind, stateful_bind. rewrite (consider_spec _ _ _ _ s) by done.
  rewrite (judged_frame m0 m) by done.
  set (m1 := settle (snd <$> judged m0 context previous i) i m).
  pose proof (settle_frame (snd <$> judged m0 context previous i) i m) as Hf1.
  rewrite (IH m1); [done| | |].
  - by apply settle_wf.
  - by eapply same_frame_trans.
  - intros j Hj. destruct (Hall j) as [Hjs Hjl]; [set_solver|]. unfold m1.
    destruct Hf1 as [-> _]. split; [done|].
    rewrite settle_lifecycle, decide_False; [done|]. by intros ->.
Qed.

Lemma settle_fold m0 context previous ids m j :
  NoDup ids ->
  let m' := foldl (fun acc i => settle (snd <$> judged m0 context previous i) i acc) m ids in
  let fate := if decide (j ∈ ids) then snd <$> judged m0 context previous j else None in
  same_frame m m'
  /\ dict_get j (mg_error_counts m') = count_after fate (dict_get j (mg_error_counts m))
  /\ dict_get j (mg_lifecycle m')
     = state_after (mg_error_threshold m) fate (dict_get j (mg_error_counts m)) (dict_get j (mg_lifecycle m)).
Proof using Type.
  intros Hn. revert m. induction Hn as [|i ids Hi Hn IH]; intros m; cbn; [by rewrite decide_False by set_solver|].
  destruct (IH (settle (snd <$> judged m0 context previous i) i m)) as (Hf & Hc & Hl).
  pose proof (settle_frame (snd <$> judged m0 context previous i) i m) as Hf1.
  split_and!; [by eapply same_frame_trans|..]; rewrite ?Hc, ?Hl, settle_counts, ?settle_lifecycle;
    destruct (decide (j = i)) as [->|Hj].
  - rewrite decide_False by done. rewrite decide_True by set_solver. done.
  - destruct (decide (j ∈ ids)); [rewrite decide_True by set_solver|rewrite decide_False by set_solver]; done.
  - rewrite decide_False by done. rewrite decide_True by set_solver. done.
  - destruct Hf1 as (_ & _ & -> & _).
    destruct (decide (j ∈ ids)); [rewrite decide_True by set_solver|rewrite decide_False by set_solver]; done.
Qed.

(** The running strategies, in ascending identity order and once each. *)
Lemma running_ids_spec m :
  manager_wf m ->
  NoDup (running_ids m) /\ StronglySorted (fun a b => String.leb a b = true) (running_ids m)
  /\ forall i, i ∈ running_ids m <->
       is_Some (dict_get i (mg_registry m)) /\ dict_get i (mg_lifecycle m) = Some RUNNING.
Proof using Type.
  intros [_ Hn]. unfold running_ids. split_and!.
  - rewrite py_sorted_perm. apply NoDup_elements.
  - apply py_sorted_sorted; [intros x y; destruct (String.leb_total x y); auto|apply string_leb_trans].
  - intros i. rewrite elem_of_py_sorted, elem_of_elements, elem_of_intersection, !elem_of_list_to_set.
    rewrite elem_of_identifiers. destruct (snapshot_sorted _ Hn) as (_ & _ & Hs).
    rewrite list_elem_of_fmap. split.
    + intros [([j s] & -> & [Hr Hj]%list_elem_of_filter) Hreg]. cbn in *. subst s. by apply Hs in Hj.
    + intros [Hreg Hl]. split; [|done]. eexists. split; [|apply list_elem_of_filter; split; [|by apply Hs]]; done.
Qed.

Lemma records_for_spec context previous m :
  manager_wf m ->
  records_for context previous m
  = (settle_all context previous (running_ids m) m,
     Ok (fst <$> omap (judged m context previous) (running_ids m))).
Proof using Type.
  intros Hwf. pose proof (running_ids_spec m Hwf) as (Hn & _ & Hel).
  unfold records_for, fmap at 1, stateful_fmap. rewrite (collect_consider _ _ _ m m); [|done|done|done|].
  - unfold settle_all. f_equal. f_equal. clear Hn Hel. induction (running_ids m) as [|i ids IH]; cbn; [done|].
    destruct (judged m context previous i); cbn; by rewrite IH.
  - intros i Hi. by apply Hel.
Qed.

(** ** Publication *)

(** The result a record stands for, with the emission policy of its strategy. *)
Definition promoted (m : Manager) (context : MarketContext) (r : StrategyEvaluationRecord)
    : option (StrategyResult * EmissionPolicy) :=
  if negb (emittable (ev_status (rec_evaluation r))) then None else
  c ← dict_get (rec_strategy_id r) (mg_configurations m);
  s ← dict_get (rec_strategy_id r) (mg_registry m);
  Some (promote_evaluation (rec_evaluation r) (descriptor s) (config_version c) (mc_observed_at context),
        sd_emission_policy (descriptor s)).

(** What it publishes, decided on the emission state the cycle began with. *)
Definition publishable (m : Manager) (context : MarketContext) (r : StrategyEvaluationRecord)
    : option StrategyResult :=
  p ← promoted m context r;
  if (should_emit (mg_dedup m) p.1 p.2 (ctx_trading_date <$> mc_session context)).2
  then Some p.1 else None.

(** The emission policy a registered strategy declares. *)
Definition declared_policy (m : Manager) (strategy_id : string) : EmissionPolicy :=
  match dict_get strategy_id (mg_registry m) with
  | Some s => sd_emission_policy (descriptor s)
  | None => CONTINUOUS
  end.

(** The results observed so far for a strategy and an instrument, with the trading date of
    their session. *)
Definition Observations : Type := string * Instrument -> option (option date * list StrategyResult).

(** What a key has shown in the session of a trading date. *)
Definition shown (seen : Observations) (k : string * Instrument) (trading_date : option date) : list StrategyResult :=
  match seen k with
  | Some (d, results) => if decide (d = trading_date) then results else []
  | None => []
  end.

(** A record's result when it is material among the observations before the cycle. *)
Definition material (m : Manager) (seen : Observations) (context : MarketContext) (r : StrategyEvaluationRecord)
    : option StrategyResult :=
  p ← promoted m context r;
  if is_material p.2 (shown seen (emission_key p.1) (ctx_trading_date <$> mc_session context)) p.1
  then Some p.1 else None.

(** The results a cycle observes, material or not. *)
Definition observation (m : Manager) (context : MarketContext) (r : StrategyEvaluationRecord) : option EmissionEvent :=
  p ← promoted m context r; Some (Observe p.1 (ctx_trading_date <$> mc_session context)).
Definition observed (m : Manager) (context : MarketContext) (records : list StrategyEvaluationRecord)
    : list EmissionEvent := omap (observation m context) records.

(** The event of a cycle. *)
Definition cycle_event (m : Manager) (seen : Observations) (context : MarketContext)
    (records : list StrategyEvaluationRecord) : option StrategyResultsPublished :=
  match omap (material m seen context) records with
  | [] => None
  | results => Some {|
      pub_instrument := mc_instrument context; pub_context_version := mc_version context;
      pub_results := results; pub_ranked := rank_results results;
      pub_trading_date := ctx_trading_date <$> mc_session context |}
  end.

(** The deduplicator holds what the observations say. *)
Definition remembers (m : Manager) (dedup : EmissionDeduplicator) (seen : Observations) : Prop :=
  forall k, tracks (declared_policy m) k dedup (seen k).

Lemma should_emit_local (d1 d2 : EmissionDeduplicator) r p td :
  d1 !! emission_key r = d2 !! emission_key r -> (should_emit d1 r p td).2 = (should_emit d2 r p td).2.
Proof using Type. intros H. rewrite !should_emit_entry. cbn. unfold entry_for. by rewrite H. Qed.

Lemma should_emit_other (d : EmissionDeduplicator) r p td i inst :
  i <> sres_strategy_id r -> (should_emit d r p td).1 !! (i, inst) = d !! (i, inst).
Proof using Type.
  intros H. rewrite should_emit_entry. cbn [fst]. apply lookup_insert_ne. unfold emission_key. congruence.
Qed.

(** Emission state of the strategies still to come is the one the cycle began with. *)
Definition agree_on (ids : list string) (d1 d2 : EmissionDeduplicator) : Prop :=
  forall i inst, i ∈ ids -> d1 !! (i, inst) = d2 !! (i, inst).

Lemma collect_emit context (m0 : Manager) records (m : Manager) :
  registry_ok (mg_registry m0) -> NoDup (rec_strategy_id <$> records) ->
  Forall (fun r => is_Some (dict_get (rec_strategy_id r) (mg_registry m0))) records ->
  mg_registry m = mg_registry m0 -> mg_configurations m = mg_configurations m0 ->
  agree_on (rec_strategy_id <$> records) (mg_dedup m) (mg_dedup m0) ->
  collect (emit_candidate config_version context (ctx_trading_date <$> mc_session context)) records m
    = (set_dedup m (emission_run (declared_policy m0) (observed m0 context records) (mg_dedup m)),
       Ok (publishable m0 context <$> records)).
Proof using Type.
  intros Hreg. revert m. induction records as [|r rs IH]; intros m Hn Hall Hr Hc Hd; cbn.
  { by destruct m. }
  apply NoDup_cons in Hn as [Hi Hn]. apply Forall_cons in Hall as [[s Hs] Hall].
  unfold mbind, stateful_bind.
  set (d := match observation m0 context r with Some e => emission_step (declared_policy m0) (mg_dedup m) e | None => mg_dedup m end).
  assert (emit_candidate config_version context (ctx_trading_date <$> mc_session context) r m
      = (set_dedup m d, Ok (publishable m0 context r))
    /\ agree_on (rec_strategy_id <$> rs) d (mg_dedup m)) as [-> Hd1].
  { assert (Hid : set_dedup m (mg_dedup m) = m) by (by destruct m).
    unfold emit_candidate, publishable, d, observation, promoted, get_strategy. rewrite Hr, Hc.
    destruct (negb _); [cbn; by rewrite Hid|].
    destruct (dict_get (rec_strategy_id r) (mg_configurations m0)) as [c|]; cbn; [|by rewrite Hid].
    rewrite Hs. cbn. set (res := promote_evaluation _ _ _ _).
    assert (sres_strategy_id res = rec_strategy_id r) as Hres by by apply Hreg.
    rewrite (should_emit_local (mg_dedup m0) (mg_dedup m)).
    2: { symmetry. unfold emission_key. apply Hd. rewrite Hres. set_solver. }
    change (sd_strategy_id (descriptor s)) with (sres_strategy_id res).
    assert (Hpolicy : declared_policy m0 (sres_strategy_id res) = sd_emission_policy (descriptor s))
      by (rewrite Hres; unfold declared_policy; by rewrite Hs).
    rewrite Hpolicy. pose proof (should_emit_other (mg_dedup m) res (sd_emission_policy (descriptor s))
      (ctx_trading_date <$> mc_session context)) as Hother.
    destruct (should_emit _ _ _ _) as [d' v]. split; [done|].
    intros j inst Hj. apply Hother. rewrite Hres. intros ->. done. }
  rewrite (IH (set_dedup m d)); [|done..|].
  2: { intros j inst Hj. cbn. rewrite Hd1 by done. apply Hd. set_solver. }
  cbn. unfold d. destruct (observation m0 context r); reflexivity.
Qed.

Lemma judge_id configurations s context :
  rec_strategy_id (judge configurations s context).1 = sd_strategy_id (descriptor s).
Proof using Type. unfold judge. by repeat case_match. Qed.

(** A judged record carries its strategy's own identity. *)
Lemma judged_id m context previous i p :
  manager_wf m -> judged m context previous i = Some p ->
  rec_strategy_id p.1 = i /\ is_Some (dict_get i (mg_registry m)).
Proof using Type.
  intros [[_ Hk] _]. unfold judged. destruct (dict_get i (mg_registry m)) as [s|] eqn:E; cbn; [|done].
  destruct (is_triggered _ _ _); [|done]. intros [= <-]. split; [|done].
  rewrite judge_id. by apply Hk.
Qed.

Lemma judged_records m context previous ids :
  manager_wf m -> NoDup ids ->
  let records := fst <$> omap (judged m context previous) ids in
  NoDup (rec_strategy_id <$> records)
  /\ Forall (fun r => is_Some (dict_get (rec_strategy_id r) (mg_registry m))) records.
Proof using Type.
  intros Hwf Hn records.
  assert (rec_strategy_id <$> records = filter (fun i => is_Some (judged m context previous i)) ids) as Hr.
  { unfold records. clear Hn. induction ids as [|i ids IH]; [done|]. rewrite filter_cons. cbn.
    destruct (judged m context previous i) as [p|] eqn:E; cbn.
    - rewrite decide_True by done. rewrite IH. f_equal. by apply judged_id in E as [? _].
    - by rewrite decide_False by (by intros [? ?]). }
  split.
  - rewrite Hr. by apply NoDup_filter.
  - apply Forall_forall. intros r (p & -> & (i & Hi & Hp)%list_elem_of_omap)%list_elem_of_fmap.
    pose proof (judged_id _ _ _ _ _ Hwf Hp) as [-> ?]. done.
Qed.

(** Every emission state is the memory of some observations. *)
Definition recalled (k : string * Instrument) (policy : EmissionPolicy) (entry : EntryState) : list StrategyResult :=
  let shows m := [{| sres_result_id := None; sres_strategy_id := k.1; sres_strategy_version := "1.0.0";
    sres_config_version := "1.0.0"; sres_instrument := k.2; sres_context_version := 1;
    sres_evaluation_timestamp := 0; sres_status := mk_status m; sres_score := mk_score m;
    sres_confidence := mk_confidence m; sres_reason_codes := mk_reason_codes m; sres_metrics := mk_metrics m;
    sres_metadata := []; sres_diagnostics := [] |}] in
  let status_key status := {| mk_status := status; mk_score := None; mk_confidence := None; mk_reason_codes := [];
    mk_metrics := [] |} in
  match policy with
  | CONTINUOUS => match es_last_material_key entry with Some k => shows k | None => [] end
  | EDGE_TRIGGERED => shows (status_key (es_last_status entry))
  | ONE_SHOT_PER_SESSION => if es_one_shot_emitted entry then shows (status_key MATCHED) else []
  end.

Lemma some_observations (m : Manager) dedup : exists seen, remembers m dedup seen.
Proof using Type.
  exists (fun k => entry ← dedup !! k; Some (es_trading_date entry, recalled k (declared_policy m k.1) entry)).
  intros k. unfold tracks. destruct (dedup !! k) as [entry|]; cbn; [|done]. split; [done|].
  destruct (declared_policy m k.1); cbn; [|done|by destruct (es_one_shot_emitted entry)].
  destruct (es_last_material_key entry) as [k0|]; cbn; [|done]. unfold material_equiv. by rewrite material_eqb_class.
Qed.

(** Emission decides as the declared policy does on what has been observed. *)
Lemma publishable_material (m : Manager) seen context r :
  registry_ok (mg_registry m) -> remembers m (mg_dedup m) seen ->
  is_Some (dict_get (rec_strategy_id r) (mg_registry m)) ->
  publishable m context r = material m seen context r.
Proof using Type.
  intros Hreg Hseen [s Hs]. unfold publishable, material, promoted. destruct (negb _); [done|].
  destruct (dict_get (rec_strategy_id r) (mg_configurations m)) as [c|]; cbn; [|done]. rewrite Hs. cbn.
  set (res := promote_evaluation _ _ _ _). set (td := ctx_trading_date <$> mc_session context).
  assert (sres_strategy_id res = rec_strategy_id r) as Hres by by apply Hreg.
  rewrite should_emit_entry. cbn [snd]. destruct (tracks_entry _ _ _ _ td (Hseen (emission_key res))) as [Hshows _].
  assert (Hpolicy : declared_policy m (emission_key res).1 = sd_emission_policy (descriptor s)).
  { unfold emission_key, declared_policy. cbn [fst]. by rewrite Hres, Hs. }
  rewrite Hpolicy in Hshows. unfold shown. by rewrite (proj1 (emit_by_exact _ _ _ res Hshows)).
Qed.

Lemma publish_results_spec context (m0 m : Manager) records :
  registry_ok (mg_registry m0) -> NoDup (rec_strategy_id <$> records) ->
  Forall (fun r => is_Some (dict_get (rec_strategy_id r) (mg_registry m0))) records ->
  mg_registry m = mg_registry m0 -> mg_configurations m = mg_configurations m0 ->
  mg_dedup m = mg_dedup m0 ->
  forall seen, remembers m0 (mg_dedup m0) seen ->
  publish_results config_version context records m
    = (set_dedup m (emission_run (declared_policy m0) (observed m0 context records) (mg_dedup m)),
       Ok (cycle_event m0 seen context records)).
Proof using Type.
  intros Hreg Hn Hall Hr Hc Hd seen Hseen. unfold publish_results, mbind, stateful_bind.
  rewrite (collect_emit context m0 records m); try done; [|by rewrite Hd].
  cbn. unfold cycle_event. do 2 f_equal.
  replace (omap id (publishable m0 context <$> records)) with (omap (material m0 seen context) records);
    [by destruct (omap _ records)|].
  clear Hn. induction Hall as [|r rs Hr1 _ IH]; cbn; [done|]. rewrite IH, (publishable_material m0 seen context r) by done.
  by destruct (material m0 seen context r).
Qed.

(** ** The whole cycle *)

(** What one newer context does to the manager. *)
Record cycle_result (sink : StrategyEvaluationRecord -> option exn)
    (publish : StrategyResultsPublished -> option exn) (m : Manager) (seen : Observations) (context : MarketContext)
    (m' : Manager) (event : option StrategyResultsPublished) (r : result unit) : Prop := {
  cr_previous : mg_previous m' = <[mc_instrument context := context]> (mg_previous m);
  cr_records : mg_latest m' = <[mc_instrument context :=
    fst <$> omap (judged m context (mg_previous m !! mc_instrument context)) (running_ids m)]> (mg_latest m);
  cr_ids : NoDup (running_ids m) /\ StronglySorted (fun a b => String.leb a b = true) (running_ids m);
  cr_running : forall i, i ∈ running_ids m <->
    is_Some (dict_get i (mg_registry m)) /\ dict_get i (mg_lifecycle m) = Some RUNNING;
  cr_bookkeeping : forall i,
    let fate := if decide (i ∈ running_ids m)
                then snd <$> judged m context (mg_previous m !! mc_instrument context) i else None in
    dict_get i (mg_error_counts m') = count_after fate (dict_get i (mg_error_counts m))
    /\ dict_get i (mg_lifecycle m') = state_after (mg_error_threshold m) fate
         (dict_get i (mg_error_counts m)) (dict_get i (mg_lifecycle m));
  cr_frame : mg_registry m' = mg_registry m /\ mg_configurations m' = mg_configurations m
    /\ mg_error_threshold m' = mg_error_threshold m /\ mg_requirements m' = mg_requirements m;
  cr_wf : manager_wf m';
  cr_event :
    let records := fst <$> omap (judged m context (mg_previous m !! mc_instrument context)) (running_ids m) in
    match observe sink records with
    | Raise e => event = None /\ r = Raise e
    | Ok _ => event = cycle_event m seen context records
              /\ r = match event ≫= publish with Some e => Raise e | None => Ok tt end
    end;
  cr_observed :
    let records := fst <$> omap (judged m context (mg_previous m !! mc_instrument context)) (running_ids m) in
    remembers m (mg_dedup m') (fun k =>
      if is_ok (observe sink records) then foldl (history_step k) (seen k) (observed m context records) else seen k);
}.

(** A context no newer than the last one processed for its instrument. *)
Definition outdated (m : Manager) (context : MarketContext) : Prop :=
  exists p, mg_previous m !! mc_instrument context = Some p /\ mc_version context <= mc_version p.

#[global] Instance outdated_dec (m : Manager) context : Decision (outdated m context).
Proof using Type.
  unfold outdated. destruct (mg_previous m !! mc_instrument context) as [p|].
  - destruct (decide (mc_version context <= mc_version p)); [left; eauto|right]. by intros (? & [= <-] & ?).
  - right. by intros (? & ? & _).
Defined.

Lemma handle_spec sink publish m seen context :
  manager_wf m -> remembers m (mg_dedup m) seen ->
  let '(m', event, r) := handle config_version sink publish context m in
  (outdated m context -> m' = m /\ event = None /\ r = Ok tt)
  /\ (~ outdated m context -> cycle_result sink publish m seen context m' event r).
Proof using Type.
  intros Hwf Hseen. unfold handle. destruct (match _ with Some p => _ | None => false end) eqn:Est.
  { split; [done|]. intros Hn. exfalso. apply Hn. unfold outdated.
    destruct (mg_previous m !! _) as [p|]; [|done]. zbool. eauto. }
  assert (~ outdated m context) as Hfresh.
  { intros (p & Hp & Hle). rewrite Hp in Est. zbool. lia. }
  set (previous := mg_previous m !! mc_instrument context).
  pose proof (running_ids_spec m Hwf) as (Hn & Hs & Hel).
  rewrite (records_for_spec context previous m Hwf).
  pose proof (judged_records m context previous _ Hwf Hn) as [Hnr Hallr].
  set (records := fst <$> omap (judged m context previous) (running_ids m)) in *.
  set (m1 := settle_all context previous (running_ids m) m).
  assert (same_frame m m1) as Hf by (by destruct (settle_fold m context previous (running_ids m) m "" Hn)).
  set (d := emission_run (declared_policy m) (observed m context records) (mg_dedup m)).
  assert (forall m' event r,
    m' = set_dedup (set_cycle m1 context records) (if is_ok (observe sink records) then d else mg_dedup m) ->
    (match observe sink records with
     | Raise e => event = None /\ r = Raise e
     | Ok _ => event = cycle_event m seen context records
               /\ r = match event ≫= publish with Some e => Raise e | None => Ok tt end
     end) -> cycle_result sink publish m seen context m' event r) as Hmk.
  { intros m' event r -> Hev. destruct Hf as (F1 & F2 & F3 & F4 & F5 & F6 & F7).
    split; try done; try (cbn; by rewrite ?F5, ?F6).
    - intros i. destruct (settle_fold m context previous (running_ids m) m i Hn) as (_ & Hc & Hl). by split.
    - pose proof (settle_all_wf context previous (running_ids m) m Hwf). done.
    - intros records0 k. change (tracks (declared_policy m) k (if is_ok (observe sink records) then d else mg_dedup m)
        (if is_ok (observe sink records) then foldl (history_step k) (seen k) (observed m context records) else seen k)).
      destruct (is_ok (observe sink records)); [|apply Hseen]. apply tracks_run, Hseen. }
  assert (F7 : mg_dedup m1 = mg_dedup m) by apply Hf.
  destruct (observe sink records) as [[]|e] eqn:Eo.
  2: { split; [done|]. intros _. apply Hmk; [|done]. cbn. rewrite <- F7. by destruct m1. }
  rewrite (publish_results_spec context m (set_cycle m1 context records) records) with (seen := seen);
    try done; try (by destruct Hwf); try (by destruct Hf as (? & ? & ? & ? & ? & ? & ?)).
  cbn [mg_dedup set_cycle]. rewrite F7. fold d.
  destruct (cycle_event m seen context records) as [event|]; (split; [done|]); intros _;
    by apply Hmk.
Qed.

End Cycle.

(** * Properties *)

(** [C35] One evaluation cycle: a context that is not newer than the last one
    processed for its instrument changes nothing.  A newer one gives every running,
    registered, triggered strategy exactly one record, in ascending identity order,
    and that record is a function of that strategy, its configuration and the
    context alone: SKIPPED under the first unmet gate, the strategy's own consistent
    evaluation, or ERROR when it raises or answers for another context, so one
    strategy's fault never reaches another.  Failures in a row are counted per
    strategy and the threshold-th moves it, and only it, to ERROR; requirements are
    kept.  When the observer sink takes every record, one event is published if some result
    is material, with exactly the material results and their ranking, and none otherwise;
    material is decided by each strategy's declared policy on the results observed for its
    strategy and instrument earlier in the session: changed content, a changed status, or
    the first match.  Whatever history of observations [seen] the deduplicator remembers
    before, it remembers that history with the cycle's results added afterwards, whether or
    not the bus takes the event, and the same history when the sink raises; whatever state
    it is in, it remembers some history ([some_observations]). *)
Theorem manager_cycle_correct {Config Sink Refresh : Type} `{!LiveTimeframeSink Sink}
    `{!RefreshControl Refresh} (config_version : Config -> string)
    (sink : StrategyEvaluationRecord -> option exn)
    (publish : StrategyResultsPublished -> option exn)
    (m : StrategyManager Config Sink Refresh) (seen : Observations) (context : MarketContext)
    (Hwf : manager_wf m) (Hseen : remembers m (mg_dedup m) seen) :
  let '(m', event, r) := handle config_version sink publish context m in
  (outdated m context -> m' = m /\ event = None /\ r = Ok tt)
  /\ (~ outdated m context -> cycle_result config_version sink publish m seen context m' event r).
Proof. by apply handle_spec. Qed.

(** * Witness *)

(** Two plug-ins that never match: one on five-minute candles, one on a timeframe
    longer than the session. *)
Definition quiet_strategy (i : string) (live : list Timeframe) (history : list HistoricalRequirement)
    : Strategy unit := {|
  descriptor := {|
    sd_strategy_id := i; sd_display_name := i; sd_description := i; sd_version := "1.0.0";
    sd_category := TREND; sd_emission_policy := CONTINUOUS; sd_min_context_version := 1;
    sd_max_context_version := None |};
  requirements := {|
    sr_historical := history; sr_live_timeframes := live; sr_fact_needs := [LATEST_TICK];
    sr_trigger := ON_TICK; sr_candle_completeness := PARTIAL_ALLOWED; sr_min_context_version := 1;
    sr_freshness := [] |};
  accepts := fun _ => true;
  evaluate := fun context _ _ => mk_evaluation {|
    ev_instrument := mc_instrument context; ev_context_version := mc_version context;
    ev_status := NO_MATCH; ev_score := None; ev_confidence := None; ev_reason_codes := [];
    ev_metrics := []; ev_diagnostics := [] |} |}.

Definition sample_coordinator : RequirementsCoordinator CandleEngine (option timedelta) := {|
  rc_instruments := [reliance]; rc_historical := []; rc_live := []; rc_facts := [];
  rc_sink := sample_engine; rc_refresh := None |}.

Definition sample_catalogue : StrategyRegistry unit := [
  ("five", quiet_strategy "five" [tf 5] []);
  ("deep", quiet_strategy "deep" [tf 5] [{| req_timeframe := tf 5; lookback := 10 |}]);
  ("long", quiet_strategy "long" [tf 1000] [])].

Definition sample_manager : StrategyManager unit CandleEngine (option timedelta) := {|
  mg_registry := sample_catalogue; mg_lifecycle := []; mg_configurations := [("five", tt); ("deep", tt); ("long", tt)];
  mg_error_threshold := 2; mg_requirements := Some sample_coordinator; mg_previous := ∅;
  mg_latest := ∅; mg_error_counts := []; mg_dedup := ∅ |}.

Definition unit_version (_ : unit) : string := "1.0.0".

Lemma sample_catalogue_ok : registry_ok sample_catalogue.
Proof.
  split; [by apply (bool_decide_unpack _); vm_compute|]. unfold sample_catalogue. intros i s. cbn.
  repeat case_decide; by intros [= <-].
Qed.

Definition sample_running : StrategyManager unit CandleEngine (option timedelta) :=
  set_lifecycle sample_manager [("five", RUNNING); ("deep", PAUSED)].

Definition no_fault {A} (_ : A) : option exn := None.

Lemma manager_cycle_correct_witness :
  exists m' event r,
    handle unit_version no_fault no_fault sample_context sample_running = (m', event, r)
    /\ cycle_result unit_version no_fault no_fault sample_running (fun _ => None) sample_context m' event r.
Proof.
  assert (manager_wf sample_running) as Hwf.
  { split; [exact sample_catalogue_ok|]. apply (bool_decide_unpack _). vm_compute. exact I. }
  assert (remembers sample_running (mg_dedup sample_running) (fun _ => None)) as Hseen.
  { intros k. unfold tracks. exact I. }
  pose proof (manager_cycle_correct unit_version no_fault no_fault sample_running (fun _ => None) sample_context
    Hwf Hseen) as H.
  destruct (handle unit_version no_fault no_fault sample_context sample_running) as [[m' event] r].
  exists m', event, r. split; [reflexivity|]. apply (proj2 H).
  intros (p & Hp & _). discriminate Hp.
Defined.

(** The running strategy is evaluated and its first observation is published. *)
Example sample_cycle_publishes :
  (fun event => (pub_context_version event, sres_status <$> pub_results event, pub_ranked event))
    <$> (handle unit_version no_fault no_fault sample_context sample_running).1.2
  = Some (1, [NO_MATCH], []).
Proof. vm_compute. reflexivity. Qed.

(** The same verdict again, on the next tick, is observed and not published. *)
Example repeated_verdict_is_quiet :
  let next := {| mc_instrument := reliance; mc_version := 2; mc_sequence := 2; mc_event_timestamp := at_local 9 21;
    mc_observed_at := at_local 9 21; mc_latest_tick := Some (trade reliance 9 21 100 6); mc_latest_quote := None;
    mc_latest_candle := None; mc_candle_sets := mc_candle_sets sample_context;
    mc_session := mc_session sample_context; mc_facts := mc_facts sample_context; mc_metadata := [];
    mc_historical := None; mc_session_statistics := mc_session_statistics sample_context;
    mc_previous_close := None; mc_is_valid := true |} in
  let '(m', event, _) :=
    handle unit_version no_fault no_fault next
      (handle unit_version no_fault no_fault sample_context sample_running).1.1 in
  event = None /\ map (fun r => ev_status (rec_evaluation r)) (default [] (mg_latest m' !! reliance)) = [NO_MATCH].
Proof. vm_compute. split; reflexivity. Qed.
