(* ===== verification/Provisioning.v ===== *)
(** Lifecycle commands and requirement provisioning: every interleaving of the
    strategy manager's commands, its awaited warm-ups and market contexts keeps
    each strategy's registrations in step with its lifecycle state. *)
From S2P Require Import Prelude PyTime MarketData Timeframe Session Buckets Context Samples.
From S2P Require Import CandleEngine Requirements Strategy Lifecycle Emission Readiness StrategyManager.

Local Open Scope Z_scope.

#[local] Arguments dict_pop : simpl never.

Section Provisioning.
Context {Config : Type} (config_version : Config -> string).
Context {Sink Refresh : Type} `{!LiveTimeframeSink Sink} `{!RefreshControl Refresh}.
Local Abbreviation Manager := (StrategyManager Config Sink Refresh).
Local Abbreviation Coordinator := (RequirementsCoordinator Sink Refresh).

(** * Reachable states *)

(** A state of the running system: the manager, and the strategies whose [start]
    is suspended at its [await]. *)
Inductive manager_step : Manager * gset string -> Manager * gset string -> Prop :=
| step_track m p i : manager_step (m, p) ((command i Track m).1, p)
| step_start m p i m' r : start_begin i m = (m', r) ->
    manager_step (m, p) (m', match r with Ok (AwaitingWarmup _) => {[i]} ∪ p | _ => p end)
| step_finish m p i o : i ∈ p -> manager_step (m, p) ((start_finish i o m).1, p ∖ {[i]})
| step_pause m p i : manager_step (m, p) ((manager_pause i m).1, p)
| step_resume m p i : manager_step (m, p) ((manager_resume i m).1, p)
| step_stop m p i : manager_step (m, p) ((manager_stop i m).1, p)
| step_force_stop m p i : manager_step (m, p) ((manager_force_stop i m).1, p)
| step_context m p sink publish context :
    manager_step (m, p) ((handle config_version sink publish context m).1.1, p).

(** A manager as the runtime composes it: strategies registered, nothing tracked
    and nothing required yet. *)
Definition initial_manager (m : Manager) : Prop :=
  exists registry configurations threshold c,
    mk_manager registry [] configurations threshold (Some c) = Ok m
    /\ registry_ok registry /\ rc_historical c = [] /\ rc_live c = [] /\ rc_facts c = [].

Definition manager_reachable (w : Manager * gset string) : Prop :=
  exists m, initial_manager m /\ rtc manager_step (m, ∅) w.

(** * The contract *)

Record provisioned (c : Coordinator) (i : string) (req : StrategyRequirements) : Prop := {
  pv_historical : dict_get i (rc_historical c) = Some (remove_dups (sr_historical req));
  pv_live : dict_get i (rc_live c) = Some (list_to_set (sr_live_timeframes req));
  pv_facts : dict_get i (rc_facts c) = session_statistics_max_age req;
}.

Record unprovisioned (c : Coordinator) (i : string) : Prop := {
  un_historical : dict_get i (rc_historical c) = None;
  un_live : dict_get i (rc_live c) = None;
  un_facts : dict_get i (rc_facts c) = None;
}.

(** Every live timeframe a consumer registered is active in the market engine. *)
Definition live_served (c : Coordinator) (i : string) : Prop :=
  forall ts, dict_get i (rc_live c) = Some ts -> ts ⊆ active_timeframes (rc_sink c).

(** What a lifecycle state promises about a strategy's requirements. *)
Definition provisioning (m : Manager) (c : Coordinator) (i : string) : Prop :=
  match dict_get i (mg_lifecycle m) with
  | None | Some REGISTERED | Some STOPPED => unprovisioned c i
  | Some STARTING | Some RUNNING | Some PAUSED =>
      exists s configuration, dict_get i (mg_registry m) = Some s
        /\ dict_get i (mg_configurations m) = Some configuration /\ accepts s configuration = true
        /\ provisioned c i (requirements s) /\ live_served c i
  | Some ERROR =>
      unprovisioned c i
      \/ exists s, dict_get i (mg_registry m) = Some s /\ provisioned c i (requirements s)
  | Some SHUTDOWN => False
  end.

Record provisioning_ok (m : Manager) (p : gset string) (c : Coordinator) : Prop := {
  po_wf : manager_wf m;
  po_coordinator : mg_requirements m = Some c;
  po_strategies : forall i, provisioning m c i;
  po_pending : forall i, i ∈ p -> dict_get i (mg_lifecycle m) = Some STARTING;
}.

(** * The coordinator *)

(** A change to one consumer: nobody else's entries move and nobody else's live
    timeframes are taken away. *)
Definition local_change (i : string) (c c' : Coordinator) : Prop :=
  forall j, j <> i ->
    dict_get j (rc_historical c') = dict_get j (rc_historical c)
    /\ dict_get j (rc_live c') = dict_get j (rc_live c)
    /\ dict_get j (rc_facts c') = dict_get j (rc_facts c)
    /\ (live_served c j -> live_served c' j).

Lemma local_change_refl i c : local_change i c c.
Proof using Type. done. Qed.

Lemma local_change_trans i a b c : local_change i a b -> local_change i b c -> local_change i a c.
Proof using Type.
  intros H1 H2 j Hj. destruct (H1 j Hj) as (? & ? & ? & ?), (H2 j Hj) as (? & ? & ? & ?).
  split_and!; try congruence. auto.
Qed.

Lemma effective_timeframes_ge (l : LiveTimeframeRequirementRegistry) i ts :
  dict_get i l = Some ts -> ts ⊆ effective_timeframes l.
Proof using Type.
  intros H%dict_get_elem%(list_elem_of_fmap_2 snd). cbn in H. unfold effective_timeframes.
  cut (forall acc, (ts ∈ l.*2 \/ ts ⊆ acc) -> ts ⊆ fold_left (fun e t => e ∪ t) l.*2 acc); [eauto|].
  clear H. induction l.*2 as [|t l' IH]; intros acc Hacc; cbn; [set_solver|].
  apply IH. destruct Hacc as [[->|?]%elem_of_cons|?]; [right|left|right]; set_solver.
Qed.

(** Pushing the union: the entries stay, and on success it is what is active. *)
Lemma apply_live_union_spec (c : Coordinator) :
  let '(c', r) := apply_live_union c in
  rc_historical c' = rc_historical c /\ rc_live c' = rc_live c /\ rc_facts c' = rc_facts c
  /\ match r with
     | Ok _ => active_timeframes (rc_sink c') = effective_timeframes (rc_live c)
     | Raise _ => c' = c
     end.
Proof using Type.
  unfold apply_live_union, store. destruct (set_required _ _) as [s|e] eqn:E; [|done].
  cbn. split_and!; [done..|]. by eapply set_required_active.
Qed.

Lemma apply_live_union_served (c : Coordinator) j :
  live_served c j \/ is_ok (apply_live_union c).2 = true -> live_served (apply_live_union c).1 j.
Proof using Type.
  pose proof (apply_live_union_spec c) as H. destruct (apply_live_union c) as [c' [[]|e]]; cbn in *.
  - destruct H as (_ & Hl & _ & Ha). intros _ ts Hts. rewrite Ha, <- Hl.
    by eapply effective_timeframes_ge.
  - destruct H as (_ & _ & _ & ->). by intros [?|?].
Qed.

Lemma apply_live_union_local i (c : Coordinator) : local_change i c (apply_live_union c).1.
Proof using Type.
  intros j _. pose proof (apply_live_union_spec c) as H. pose proof (apply_live_union_served c j) as Hs.
  destruct (apply_live_union c) as [c' r]. cbn in *. destruct H as (-> & -> & -> & _).
  split_and!; auto.
Qed.

(** The session-statistics demand never touches the registries or the sink. *)
Lemma apply_session_statistics_spec (c : Coordinator) :
  let c' := (apply_session_statistics c).1 in
  rc_historical c' = rc_historical c /\ rc_live c' = rc_live c /\ rc_facts c' = rc_facts c
  /\ rc_sink c' = rc_sink c.
Proof using Type.
  unfold apply_session_statistics, store. destruct (rc_refresh c); [|done]. by destruct (configure _ _).
Qed.

(** Registration is all or nothing, and local. *)
Lemma register_requirements_spec i req (c : Coordinator) :
  let '(c', r) := register_requirements i req c in
  local_change i c c' /\ rc_sink c' = rc_sink c
  /\ (provisioned c' i req \/ (c' = c /\ exists e, r = Raise e)).
Proof using Type.
  unfold register_requirements, mbind, stateful_bind. unfold store at 1. cbn. unfold register.
  destruct (is_empty (strip i)) eqn:Ei; cbn.
  { split_and!; [done|done|]. right. eauto. }
  unfold store at 1. cbn. unfold live_register. rewrite Ei. cbn.
  unfold store at 1. cbn. unfold facts_register. rewrite Ei. cbn.
  set (c3 := set_facts _ _). pose proof (apply_session_statistics_spec c3) as Hc.
  destruct (apply_session_statistics c3) as [c' r]. cbn in Hc. destruct Hc as (Hh & Hl & Hf & Hs).
  split_and!; [|done|left; split].
  - intros j Hj. rewrite Hh, Hl, Hf. unfold live_served. rewrite Hl, Hs. cbn.
    rewrite !dict_get_set, !(decide_False _ _ Hj). split_and!; [done|done| |done].
    destruct (session_statistics_max_age req); [by rewrite dict_get_set, decide_False|by rewrite dict_get_pop, decide_False].
  - rewrite Hh. cbn. by rewrite dict_get_set, decide_True.
  - rewrite Hl. cbn. by rewrite dict_get_set, decide_True.
  - rewrite Hf. cbn. destruct (session_statistics_max_age req) as [age|];
      [by rewrite dict_get_set, decide_True|by rewrite dict_get_pop, decide_True].
Qed.

(** Release removes every entry of the consumer, even when a later push raises. *)
Lemma release_requirements_spec i (c : Coordinator) :
  let c' := (release_requirements i c).1 in local_change i c c' /\ unprovisioned c' i.
Proof using Type.
  unfold release_requirements, mbind, stateful_bind, store at 1 2 3. cbn.
  set (c3 := set_facts _ _).
  assert (local_change i c c3 /\ unprovisioned c3 i) as [Hc3 Hu3].
  { split.
    - intros j Hj. unfold c3, live_served. cbn. unfold deregister, live_deregister, facts_deregister.
      split_and!; try (by rewrite dict_get_pop, decide_False).
    - unfold c3. split; cbn; unfold deregister, live_deregister, facts_deregister; by rewrite dict_get_pop, decide_True. }
  clearbody c3. pose proof (apply_live_union_local i c3) as Hc4. pose proof (apply_live_union_spec c3) as Hs4.
  destruct (apply_live_union c3) as [c4 [u|e]]; cbn in *; destruct Hs4 as (H1 & H2 & H3 & _).
  - pose proof (apply_session_statistics_spec c4) as (G1 & G2 & G3 & G4). split.
    + intros j Hj. destruct (Hc3 j Hj) as (? & ? & ? & ?), (Hc4 j Hj) as (? & ? & ? & ?).
      rewrite G1, G2, G3. unfold live_served in *. rewrite G2, G4. split_and!; try congruence. auto.
    + destruct Hu3. split; congruence.
  - split; [by eapply local_change_trans|]. destruct Hu3. split; congruence.
Qed.

(** * The manager *)

Lemma with_coordinator_spec {A} (call : stateful Coordinator A) (m : Manager) c :
  mg_requirements m = Some c ->
  with_coordinator call m = (set_coordinator m (call c).1, (call c).2).
Proof using Type. intros H. unfold with_coordinator. rewrite H. by destruct (call c). Qed.

(** One strategy moves, with a local change of the coordinator. *)
Lemma provisioning_update (m m' : Manager) p p' c c' i :
  provisioning_ok m p c -> manager_wf m' -> mg_requirements m' = Some c' ->
  mg_registry m' = mg_registry m -> mg_configurations m' = mg_configurations m ->
  local_change i c c' ->
  (forall j, j <> i -> dict_get j (mg_lifecycle m') = dict_get j (mg_lifecycle m)) ->
  provisioning m' c' i ->
  (forall j, j ∈ p' -> (j ∈ p /\ j <> i) \/ (j = i /\ dict_get i (mg_lifecycle m') = Some STARTING)) ->
  provisioning_ok m' p' c'.
Proof using Type.
  clear config_version.
  intros [Hwf Hc Hs Hp] Hwf' Hc' Hreg Hcfg Hloc Hl Hi Hp'. split; [done|done| |].
  - intros j. destruct (decide (j = i)) as [->|Hj]; [done|]. specialize (Hs j). unfold provisioning in *.
    rewrite Hl, Hreg, Hcfg by done. destruct (Hloc j Hj) as (H1 & H2 & H3 & H4).
    assert (unprovisioned c j -> unprovisioned c' j) as Hun by (intros []; split; congruence).
    assert (forall req, provisioned c j req -> provisioned c' j req) as Hpr by (intros req []; split; congruence).
    destruct (dict_get j (mg_lifecycle m)) as [[]|]; auto; naive_solver.
  - intros j Hj. destruct (Hp' j Hj) as [[? ?]|[-> ?]]; [|done]. rewrite Hl by done. auto.
Qed.

(** A strategy whose requirements are registered and whose configuration is of its type. *)
Definition equipped (m : Manager) (c : Coordinator) (i : string) : Prop :=
  exists s configuration, dict_get i (mg_registry m) = Some s
    /\ dict_get i (mg_configurations m) = Some configuration /\ accepts s configuration = true
    /\ provisioned c i (requirements s) /\ live_served c i.

(** The body of [start]: success equips the strategy, a fault leaves its entries as
    they were or fully registered. *)
Lemma start_body_spec i (m : Manager) c :
  mg_requirements m = Some c ->
  let '(m', r) := start_body i m in
  exists c', m' = set_coordinator m c' /\ local_change i c c'
    /\ match r with
       | Ok _ => equipped m c' i
       | Raise _ => c' = c
           \/ exists s, dict_get i (mg_registry m) = Some s /\ provisioned c' i (requirements s)
       end.
Proof using Type.
  clear config_version. intros Hc.
  assert (set_coordinator m c = m) as Hm by (destruct m; cbn in *; by subst).
  unfold start_body, mbind, stateful_bind, lookup_strategy, get_strategy.
  destruct (dict_get i (mg_registry m)) as [s|] eqn:Es; [|by exists c; auto using local_change_refl].
  unfold require_valid_configuration.
  destruct (dict_get i (mg_configurations m)) as [k|] eqn:Ek; [|by exists c; auto using local_change_refl].
  destruct (accepts s k) eqn:Ea; [|by exists c; auto using local_change_refl]. cbn [negb raise_if].
  rewrite (with_coordinator_spec _ _ c Hc). pose proof (register_requirements_spec i (requirements s) c) as Hr.
  destruct (register_requirements i (requirements s) c) as [c1 r1]. cbn [fst snd].
  destruct Hr as (Hl1 & _ & Hr1).
  destruct r1 as [u|e].
  2: { exists c1. split_and!; [done|done|]. destruct Hr1 as [?|[-> _]]; eauto. }
  destruct Hr1 as [Hp1|[_ [e He]]]; [|done].
  rewrite (with_coordinator_spec _ _ c1) by done. pose proof (apply_live_union_spec c1) as Hu.
  pose proof (apply_live_union_local i c1) as Hl2. pose proof (apply_live_union_served c1 i) as Hsv.
  destruct (apply_live_union c1) as [c2 r2]. cbn [fst snd] in *. destruct Hu as (U1 & U2 & U3 & _).
  assert (provisioned c2 i (requirements s)) as Hp2 by (destruct Hp1; split; congruence).
  assert (local_change i c c2) as Hl by by eapply local_change_trans.
  destruct r2 as [u2|e]; [|exists c2; split_and!; eauto].
  rewrite (with_coordinator_spec _ _ c2) by done. unfold warm_begin. cbn [fst snd].
  exists c2. split_and!; [done|done|].
  assert (equipped m c2 i) as Heq by (exists s, k; split_and!; auto).
  destruct (effective_requirements (rc_historical c2)) as [[|? ?]|e]; [done|done|]. right. eauto.
Qed.

(** The manager at the end of a command on one strategy: its new state, a local
    change of the coordinator, the rest as before. *)
Record moved (m : Manager) (i : string) (s : StrategyLifecycleState) (c : Coordinator) (m' : Manager)
    : Prop := {
  mv_registry : mg_registry m' = mg_registry m;
  mv_configurations : mg_configurations m' = mg_configurations m;
  mv_requirements : mg_requirements m' = Some c;
  mv_lifecycle : forall j, dict_get j (mg_lifecycle m')
    = if decide (j = i) then Some s else dict_get j (mg_lifecycle m);
  mv_keys : NoDup (mg_lifecycle m').*1;
}.

(** What the new state demands of the strategy. *)
Definition demands (m : Manager) (c : Coordinator) (i : string) (s : StrategyLifecycleState) : Prop :=
  match s with
  | REGISTERED | STOPPED => unprovisioned c i
  | STARTING | RUNNING | PAUSED => equipped m c i
  | ERROR => unprovisioned c i
      \/ exists s, dict_get i (mg_registry m) = Some s /\ provisioned c i (requirements s)
  | SHUTDOWN => False
  end.

Lemma provisioning_demands (m : Manager) c i s :
  dict_get i (mg_lifecycle m) = Some s -> provisioning m c i <-> demands m c i s.
Proof using Type. unfold provisioning. intros ->. by destruct s. Qed.

Lemma moved_ok (m m' : Manager) p p' c c' i s :
  provisioning_ok m p c -> moved m i s c' m' -> local_change i c c' -> demands m c' i s ->
  (forall j, j ∈ p' -> (j ∈ p /\ j <> i) \/ (j = i /\ s = STARTING)) ->
  provisioning_ok m' p' c'.
Proof using Type.
  clear config_version. intros Hok [Hr Hcf Hrq Hl Hn] Hloc Hd Hp. pose proof Hok as [[Hreg _] _ _ _].
  eapply provisioning_update; [exact Hok| |exact Hrq|done|done|exact Hloc| | |].
  - split; [by rewrite Hr|done].
  - intros j Hj. by rewrite Hl, decide_False.
  - apply (provisioning_demands _ _ _ s); [by rewrite Hl, decide_True|].
    revert Hd. unfold demands, equipped. by rewrite Hr, Hcf.
  - intros j Hj. rewrite Hl, decide_True by done. destruct (Hp j Hj) as [?|[-> ->]]; auto.
Qed.

Lemma command_moves i cmd (m : Manager) c s :
  NoDup (mg_lifecycle m).*1 -> mg_requirements m = Some c ->
  outcome_of i (dict_get i (mg_lifecycle m)) cmd = Ok s ->
  exists m', command i cmd m = (m', Ok s) /\ moved m i s c m'
    /\ forall c', moved m i s c' (set_coordinator m' c').
Proof using Type.
  intros Hn Hc Ho. rewrite command_spec, Ho. eexists. split_and!; [done| |intros c'];
    (split; cbn; [done|done|done|intros j; rewrite dict_get_set; by case_decide|auto with apex]).
Qed.

Lemma moved_trans (m m1 m2 : Manager) i s1 s2 c1 c2 :
  moved m i s1 c1 m1 -> moved m1 i s2 c2 m2 -> moved m i s2 c2 m2.
Proof using Type.
  intros [? ? ? Hl1 ?] [? ? ? Hl2 ?]. split; [congruence|congruence|done| |done].
  intros j. rewrite Hl2. case_decide; [done|]. by rewrite Hl1, decide_False.
Qed.

(** [start]: every way it can go leaves the contract in force. *)
Lemma start_begin_ok i (m : Manager) p c m' r :
  provisioning_ok m p c -> start_begin i m = (m', r) ->
  exists c', provisioning_ok m' (match r with Ok (AwaitingWarmup _) => {[i]} ∪ p | _ => p end) c'.
Proof using Type.
  clear config_version. intros Hok. pose proof Hok as [[Hreg Hn] Hc Hs Hp].
  unfold start_begin, mbind, stateful_bind, require_coordinator.
  rewrite (with_coordinator_spec _ _ c Hc). cbn [fst snd mret stateful_ret].
  replace (set_coordinator m c) with m by (destruct m; cbn in *; by subst).
  destruct (outcome_of i (dict_get i (mg_lifecycle m)) (Plain Start)) as [s|e] eqn:Eo.
  2: { rewrite command_spec, Eo. intros [= <- <-]. by exists c. }
  assert (s = STARTING /\ demands m c i ERROR /\ i ∉ p) as (-> & Hpre & Hip).
  { specialize (Hs i). unfold provisioning in Hs. specialize (Hp i).
    destruct (dict_get i (mg_lifecycle m)) as [[]|]; vm_compute in Eo; simplify_eq;
      (split_and!; [done|unfold demands; by auto|intros ?%Hp; done]). }
  destruct (command_moves i (Plain Start) m c STARTING) as (m1 & -> & Hm1 & Hm1'); [done..|].
  pose proof (start_body_spec i m1 c (mv_requirements _ _ _ _ _ Hm1)) as Hb. unfold start_settle.
  destruct (start_body i m1) as [m2 r2]. destruct Hb as (c' & -> & Hloc & Hr2). specialize (Hm1' c').
  destruct Hm1 as [Hr1 Hk1 _ Hl1 _]. unfold equipped in Hr2. rewrite Hr1, Hk1 in Hr2.
  destruct r2 as [[effective|]|e].
  - intros [= <- <-]. exists c'. eapply moved_ok; [done|done|done|done|].
    intros j [->%elem_of_singleton|Hj]%elem_of_union; [by right|left; split; congruence].
  - destruct (command_moves i (Plain MarkRunning) (set_coordinator m1 c') c' RUNNING) as (m3 & Hm3 & Hm & _);
      [apply Hm1'|done|by rewrite (mv_lifecycle _ _ _ _ _ Hm1'), decide_True|].
    unfold fmap, stateful_fmap. rewrite Hm3. intros [= <- <-]. exists c'.
    eapply moved_ok; [done|by eapply moved_trans|done|done|]. intros j Hj. left. split; congruence.
  - destruct (command_moves i (Plain MarkError) (set_coordinator m1 c') c' ERROR) as (m3 & Hm3 & Hm & _);
      [apply Hm1'|done|by rewrite (mv_lifecycle _ _ _ _ _ Hm1'), decide_True|].
    unfold fmap, stateful_fmap. rewrite Hm3. intros [= <- <-]. exists c'.
    eapply moved_ok; [done|by eapply moved_trans|done| |intros j Hj; left; split; congruence].
    destruct Hr2 as [->|?]; [done|by right].
Qed.

(** A command that leaves the coordinator alone. *)
Lemma command_ok i cmd (m : Manager) p p' c :
  provisioning_ok m p c -> p' ⊆ p ->
  (forall s, outcome_of i (dict_get i (mg_lifecycle m)) cmd = Ok s -> demands m c i s /\ i ∉ p') ->
  provisioning_ok (command i cmd m).1 p' c.
Proof using Type.
  clear config_version. intros Hok Hp Hd. pose proof Hok as [[Hreg Hn] Hc Hs Hpend].
  destruct (outcome_of i (dict_get i (mg_lifecycle m)) cmd) as [s|e] eqn:Eo.
  - destruct (Hd s eq_refl) as [Hdm Hi].
    destruct (command_moves i cmd m c s) as (m' & -> & Hm & _); [done..|].
    eapply moved_ok; [done|done|apply local_change_refl|done|]. intros j Hj. left. split; [by apply Hp|].
    by intros ->.
  - rewrite command_spec, Eo. split; [done|done|done|]. intros j Hj. by apply Hpend, Hp.
Qed.

(** The state a plain command found, and what the contract says of it. *)
Lemma state_demands (m : Manager) p c i :
  provisioning_ok m p c ->
  match dict_get i (mg_lifecycle m) with
  | None => unprovisioned c i
  | Some s => demands m c i s
  end /\ (i ∈ p -> dict_get i (mg_lifecycle m) = Some STARTING).
Proof using Type.
  intros [_ _ Hs Hp]. split; [|apply Hp]. specialize (Hs i). unfold provisioning in Hs.
  by destruct (dict_get i (mg_lifecycle m)) as [[]|].
Qed.

Lemma equipped_faulted (m : Manager) c i : equipped m c i -> demands m c i ERROR.
Proof using Type. intros (s & k & ? & ? & ? & ? & ?). right. eauto. Qed.

(** The stopping commands: whatever the pushes answer, the entries are gone. *)
Lemma stopping_ok i cmd (m : Manager) p c :
  provisioning_ok m p c ->
  (forall s, outcome_of i (dict_get i (mg_lifecycle m)) cmd = Ok s -> s = STOPPED /\ i ∉ p) ->
  exists c', provisioning_ok
    ((s ← command i cmd; _ ← with_coordinator (release_requirements i); _ ← reset_emission i; mret s) m).1 p c'.
Proof using Type.
  clear config_version. intros Hok Hst. pose proof Hok as [[Hreg Hn] Hc Hs Hpend]. unfold mbind, stateful_bind.
  destruct (outcome_of i (dict_get i (mg_lifecycle m)) cmd) as [s|e] eqn:Eo.
  2: { rewrite command_spec, Eo. by exists c. }
  destruct (Hst s eq_refl) as [-> Hi].
  destruct (command_moves i cmd m c STOPPED) as (m' & -> & Hm & Hm'); [done..|].
  rewrite (with_coordinator_spec _ _ c) by apply Hm.
  pose proof (release_requirements_spec i c) as [Hloc Hun].
  destruct (release_requirements i c) as [c' r]. cbn [fst snd] in *. exists c'. specialize (Hm' c').
  assert (forall j, j ∈ p -> j ∈ p /\ j <> i \/ j = i /\ STOPPED = STARTING) as Hpj.
  { intros j Hj. left. split; [done|]. by intros ->. }
  destruct r as [[]|e]; cbn [fst]; (apply (moved_ok m _ p p c c' i STOPPED); [done| |done|exact Hun|done]); [|done].
  destruct Hm' as [? ? ? ? ?]. by split.
Qed.

(** A context only ever faults running strategies. *)
Lemma handle_ok sink publish context (m : Manager) p c :
  provisioning_ok m p c ->
  provisioning_ok (handle config_version sink publish context m).1.1 p c.
Proof using Type.
  intros Hok. pose proof Hok as [Hwf Hc Hs Hpend].
  destruct (some_observations m (mg_dedup m)) as [seen Hseen].
  pose proof (handle_spec config_version sink publish m seen context Hwf Hseen) as Hh.
  destruct (handle config_version sink publish context m) as [[m' event] r]. cbn [fst] in *.
  destruct Hh as [Hold Hnew].
  destruct (decide (outdated m context)) as [Ho|Ho]; [by destruct (Hold Ho) as (-> & _)|].
  destruct (Hnew Ho) as [_ _ _ Hrun Hbook (Hr & Hcf & _ & Hrq) Hwf' _ _].
  assert (forall i, dict_get i (mg_lifecycle m') = dict_get i (mg_lifecycle m)
    \/ (dict_get i (mg_lifecycle m) = Some RUNNING /\ dict_get i (mg_lifecycle m') = Some ERROR)) as Hl.
  { intros i. destruct (Hbook i) as [_ ->]. case_decide as Hi; [|by left].
    apply Hrun in Hi as [_ Hi]. rewrite Hi. unfold state_after.
    destruct (snd <$> _) as [[]|]; auto. destruct (_ <=? _); auto. }
  split; [done|congruence| |].
  - intros i. specialize (Hs i). destruct (Hl i) as [E|[E E']].
    + unfold provisioning in *. by rewrite E, Hr, Hcf.
    + apply (provisioning_demands _ _ _ _ E) in Hs. apply (provisioning_demands _ _ _ _ E').
      apply equipped_faulted. revert Hs. unfold demands, equipped. by rewrite Hr, Hcf.
  - intros i Hi%Hpend. destruct (Hl i) as [E|[E _]]; congruence.
Qed.

Lemma manager_step_ok w w' :
  manager_step w w' -> (exists c, provisioning_ok w.1 w.2 c) -> exists c, provisioning_ok w'.1 w'.2 c.
Proof using Type.
  intros Hstep [c Hok]. destruct Hstep as [m p i|m p i m' r Hr|m p i o Hi|m p i|m p i|m p i|m p i
    |m p sink publish context]; cbn [fst snd] in *; try pose proof (state_demands m p c i Hok) as [Hd Hp].
  - exists c. apply command_ok with p; [done|done|]. intros s.
    destruct (dict_get i (mg_lifecycle m)) as [[]|]; intros [= <-]. split; [exact Hd|]. by intros ?%Hp.
  - by eapply start_begin_ok.
  - exists c. destruct o as [|e|]; cbn; [apply command_ok with p; [done|set_solver|]..|].
    + rewrite Hp by done. intros s [= <-]. rewrite Hp in Hd by done. split; [exact Hd|set_solver].
    + rewrite Hp by done. intros s [= <-]. rewrite Hp in Hd by done.
      split; [by apply equipped_faulted|set_solver].
    + destruct Hok as [? ? ? Hpend]. split; [done|done|done|]. intros j Hj. apply Hpend. set_solver.
  - exists c. apply command_ok with p; [done|done|]. intros s.
    destruct (dict_get i (mg_lifecycle m)) as [[]|]; intros [= <-]. split; [exact Hd|]. by intros ?%Hp.
  - exists c. apply command_ok with p; [done|done|]. intros s.
    destruct (dict_get i (mg_lifecycle m)) as [[]|]; intros [= <-]. split; [exact Hd|]. by intros ?%Hp.
  - apply (stopping_ok i (Plain Stop) m p c Hok). intros s.
    destruct (dict_get i (mg_lifecycle m)) as [[]|]; intros [= <-]; (split; [done|]); by intros ?%Hp.
  - apply (stopping_ok i (ForceStop false) m p c Hok). intros s.
    destruct (dict_get i (mg_lifecycle m)) as [[]|]; intros [= <-]; (split; [done|]); by intros ?%Hp.
  - exists c. by apply handle_ok.
Qed.

Lemma reachable_ok w : manager_reachable w -> exists c, provisioning_ok w.1 w.2 c.
Proof using Type.
  intros (m & (registry & configurations & threshold & c & Hm & Hreg & Hh & Hl & Hf) & Hsteps).
  assert (exists c, provisioning_ok (m, ∅ : gset string).1 (m, ∅ : gset string).2 c) as H0.
  { exists c. unfold mk_manager in Hm. apply bind_ok in Hm as (? & _ & [= <-]).
    split; [by split; [|constructor]|done| |set_solver].
    intros i. unfold provisioning. cbn. split; by rewrite ?Hh, ?Hl, ?Hf. }
  revert H0. induction Hsteps as [|w1 w2 w3 Hstep _ IH]; intros H0; [done|].
  apply IH. by eapply manager_step_ok.
Qed.

(** ** Startups that are cut short *)

(** A strategy left STARTING accepts no command of the manager any more. *)
Lemma starting_is_stuck (m : Manager) c i :
  mg_requirements m = Some c -> dict_get i (mg_lifecycle m) = Some STARTING ->
  start_begin i m = (m, Raise (InvalidStrategyTransitionError i "starting" "start"))
  /\ manager_pause i m = (m, Raise (InvalidStrategyTransitionError i "starting" "pause"))
  /\ manager_resume i m = (m, Raise (InvalidStrategyTransitionError i "starting" "resume"))
  /\ manager_stop i m = (m, Raise (InvalidStrategyTransitionError i "starting" "stop"))
  /\ manager_force_stop i m = (m, Raise (InvalidStrategyTransitionError i "starting" "force_stop")).
Proof using Type.
  intros Hc Hl. unfold start_begin, manager_pause, manager_resume, manager_stop, manager_force_stop,
    mbind, stateful_bind, require_coordinator. rewrite (with_coordinator_spec _ _ c Hc).
  cbn [fst snd mret stateful_ret].
  replace (set_coordinator m c) with m by (destruct m; cbn in *; by subst). rewrite !command_spec, Hl. done.
Qed.

(** Without a coordinator [stop] raises only after the transition. *)
Lemma stop_without_coordinator (m : Manager) i :
  mg_requirements m = None -> dict_get i (mg_lifecycle m) = Some RUNNING ->
  exists e, manager_stop i m = (set_lifecycle m (dict_set i STOPPED (mg_lifecycle m)), Raise e).
Proof using Type.
  intros Hc Hl. unfold manager_stop, mbind, stateful_bind. rewrite command_spec, Hl.
  change (outcome_of i (Some RUNNING) (Plain Stop)) with (Ok STOPPED). unfold with_coordinator.
  cbn [mg_requirements set_lifecycle]. rewrite Hc. eauto.
Qed.

End Provisioning.

(** * Properties *)

(** [C36] Requirements follow the lifecycle: in every state reachable through any
    interleaving of tracking, starts suspended at their warm-up, warm-up outcomes
    (failures and cancellations included), pauses, resumes, stops, forced stops and
    market contexts, a STARTING, RUNNING or PAUSED strategy has a configuration of
    its type, exactly its declared requirements registered and every live timeframe
    it declared active in the market engine; a strategy that is not tracked,
    REGISTERED or STOPPED has no registration left; one in ERROR has all of its
    registrations or none; and a suspended start is STARTING. *)
Theorem requirements_follow_lifecycle {Config Sink Refresh : Type} `{!LiveTimeframeSink Sink}
    `{!RefreshControl Refresh} (config_version : Config -> string)
    (m : StrategyManager Config Sink Refresh) (p : gset string)
    (H : manager_reachable config_version (m, p)) :
  exists c, provisioning_ok m p c.
Proof. exact (reachable_ok config_version (m, p) H). Qed.

(** * Witnesses *)

Lemma sample_manager_initial : initial_manager sample_manager.
Proof.
  exists sample_catalogue, [("five", tt); ("deep", tt); ("long", tt)], 2, sample_coordinator.
  split; [done|]. split; [apply sample_catalogue_ok|done].
Qed.

(** Tracking and starting a strategy. *)
Definition started (i : string) (m : StrategyManager unit CandleEngine (option timedelta)) :=
  (start_begin i (command i Track m).1).1.

Definition state_in (m : StrategyManager unit CandleEngine (option timedelta)) (i : string) :=
  dict_get i (mg_lifecycle m).

Lemma started_running :
  state_in (started "five" sample_manager) "five" = Some RUNNING
  /\ (start_begin "five" (command "five" Track sample_manager).1).2 = Ok (Started RUNNING).
Proof. split; vm_compute; reflexivity. Qed.

Lemma requirements_follow_lifecycle_witness :
  exists c, provisioning_ok (started "five" sample_manager) ∅ c
    /\ state_in (started "five" sample_manager) "five" = Some RUNNING.
Proof.
  destruct started_running as [Hrun Hr].
  destruct (requirements_follow_lifecycle unit_version (started "five" sample_manager) ∅) as [c Hc];
    [|exists c; split; [exact Hc|exact Hrun]].
  exists sample_manager. split; [apply sample_manager_initial|].
  eapply rtc_l; [apply step_track|]. eapply rtc_l; [|apply rtc_refl]. 
  pose proof (step_start unit_version (command "five" Track sample_manager).1 ∅ "five" _ _
    (surjective_pairing _)) as Hstep.
  rewrite Hr in Hstep. exact Hstep.
Defined.

(** * Observations *)

(** Cancelling a start at its [await] leaves the strategy STARTING for good:
    [CancelledError] passes the handler that would mark the error. *)
Lemma cancelled_start_stays_starting :
  (start_begin "deep" (command "deep" Track sample_manager).1).2
    = Ok (AwaitingWarmup [{| req_timeframe := tf 5; lookback := 10 |}])
  /\ state_in (start_finish "deep" StartCancelled (started "deep" sample_manager)).1 "deep" = Some STARTING
  /\ (start_begin "deep" (start_finish "deep" StartCancelled (started "deep" sample_manager)).1).2
     = Raise (InvalidStrategyTransitionError "deep" "starting" "start").
Proof. split_and!; vm_compute; reflexivity. Qed.

(** A start that faults on its live timeframe keeps that timeframe in the union,
    so the next start of a healthy strategy faults too. *)
Lemma faulted_start_blocks_others :
  state_in (started "five" sample_manager) "five" = Some RUNNING
  /\ state_in (started "long" sample_manager) "long" = Some ERROR
  /\ state_in (started "five" (started "long" sample_manager)) "five" = Some ERROR.
Proof. split_and!; vm_compute; reflexivity. Qed.
