(* ===== verification/Calculators.v ===== *)
(** The pure calculators of strategies/implementations: the central pivot range
    ([narrow_cpr/calculator.py]), the previous-session body and range
    ([previous_session_body_pct], [previous_session_range_pct]) and the relative
    range ([previous_session_relative_range]).

    All arithmetic is the rounded one of [DecimalContext]; the theorems compare
    what the code computes with the exact formulas of its documentation. *)
From Stdlib Require Import Qabs.
From S2P Require Import Prelude DecimalContext MarketData.

Local Open Scope Z_scope.

(** * Central pivot range *)

Record CprResult : Type := {
  cpr_pivot : Decimal;
  cpr_bc : Decimal;
  cpr_tc : Decimal;
  cpr_bottom : Decimal;
  cpr_top : Decimal;
  cpr_width : Decimal;
  cpr_width_pct : Decimal;
}.

(** [_validate] *)
Definition cpr_validate (high low close : Decimal) : result unit :=
  _ ← raise_if (dec_leb high (dec 0 0) || dec_leb low (dec 0 0) || dec_leb close (dec 0 0))
    (NarrowCprInputError "CPR inputs must be strictly positive prices");
  _ ← raise_if (dec_ltb high low)
    (NarrowCprInputError "CPR high must be greater than or equal to low");
  raise_if (negb (dec_leb low close && dec_leb close high))
    (NarrowCprInputError "CPR close must lie within the high-low range").

Definition compute_cpr (high low close : Decimal) : result CprResult :=
  _ ← cpr_validate high low close;
  pivot ← ctx_div (ctx_add (ctx_add high low) close) THREE;
  bc ← ctx_div (ctx_add high low) TWO;
  let tc := ctx_sub (ctx_mul TWO pivot) bc in
  let bottom := dec_min bc tc in
  let top := dec_max bc tc in
  let width := ctx_sub top bottom in
  ratio ← ctx_div width pivot;
  Ok {| cpr_pivot := pivot; cpr_bc := bc; cpr_tc := tc; cpr_bottom := bottom; cpr_top := top;
        cpr_width := width; cpr_width_pct := ctx_mul ratio HUNDRED |}.

(** * Previous-session body and range *)

Record PreviousSessionBodyResult : Type := {
  previous_body : Decimal;
  previous_body_pct : Decimal;
}.

Definition compute_previous_session_body (open_price close_price : Decimal)
    : result PreviousSessionBodyResult :=
  _ ← raise_if (dec_leb open_price (dec 0 0))
    (PreviousSessionBodyInputError "previous-session open must be strictly positive");
  let body := ctx_abs (ctx_sub close_price open_price) in
  ratio ← ctx_div body open_price;
  Ok {| previous_body := body; previous_body_pct := ctx_mul ratio HUNDRED |}.

Record PreviousSessionRangeResult : Type := {
  previous_range : Decimal;
  previous_range_pct : Decimal;
}.

(** [_validate] *)
Definition range_validate (open_price high low : Decimal) : result unit :=
  _ ← raise_if (dec_leb open_price (dec 0 0))
    (PreviousSessionRangeInputError "previous-session open must be strictly positive");
  raise_if (dec_ltb high low)
    (PreviousSessionRangeInputError "previous-session high must be greater than or equal to low").

Definition compute_previous_session_range (open_price high low : Decimal)
    : result PreviousSessionRangeResult :=
  _ ← range_validate open_price high low;
  let range := ctx_sub high low in
  ratio ← ctx_div range open_price;
  Ok {| previous_range := range; previous_range_pct := ctx_mul ratio HUNDRED |}.

(** * Relative range *)

Record PreviousSessionRelativeRangeResult : Type := {
  relative_range_ratio : Decimal;
  rr_previous_range_pct : Decimal;
  baseline_range_pct : Decimal;
}.

Definition range_percent (ohl : Decimal * Decimal * Decimal) : result Decimal :=
  let '(open_price, high, low) := ohl in
  _ ← raise_if (dec_leb open_price (dec 0 0))
    (PreviousSessionRelativeRangeInputError "session open must be strictly positive");
  ratio ← ctx_div (ctx_sub high low) open_price;
  Ok (ctx_mul ratio HUNDRED).

Definition median (values : list Decimal) : result Decimal :=
  let ordered := py_sorted dec_leb values in
  let count := length ordered in
  _ ← raise_if (count =? 0)%nat
    (PreviousSessionRelativeRangeInputError "median requires at least one value");
  let mid := (count / 2)%nat in
  if (count mod 2 =? 1)%nat then list_index ordered mid
  else a ← list_index ordered (mid - 1);
       b ← list_index ordered mid;
       ctx_div (ctx_add a b) TWO.

Definition compute_previous_session_relative_range (subject : Decimal * Decimal * Decimal)
    (baseline : list (Decimal * Decimal * Decimal)) : result PreviousSessionRelativeRangeResult :=
  previous_pct ← range_percent subject;
  baseline_pcts ← traverse range_percent baseline;
  baseline_pct ← median baseline_pcts;
  _ ← raise_if (dec_eqb baseline_pct (dec 0 0)) DegenerateBaselineError;
  ratio ← ctx_div previous_pct baseline_pct;
  Ok {| relative_range_ratio := ratio; rr_previous_range_pct := previous_pct;
        baseline_range_pct := baseline_pct |}.

(** ** Percentages *)

(** [x / open * 100] as every calculator writes it. *)
Definition percent (x open_price : Decimal) : Decimal :=
  ctx_mul (ctx_round (x / open_price)%Qc) HUNDRED.

(** The exact percentage. *)
Definition exact_percent (x open_price : Q) : Q := (x / open_price * 100)%Q.

(** Two roundings of relative size 5e-28 each. *)
Definition percent_error : Q := 11 # 10000000000000000000000000000.

Lemma percent_value x o : (this (percent x o) == this (ctx_round (x / o)%Qc) * 100)%Q.
Proof. unfold percent, HUNDRED. rewrite ctx_mul_hundred, this_mul. reflexivity. Qed.

Lemma percent_nonneg x o : (0 <= this x)%Q -> (0 < this o)%Q -> (0 <= this (percent x o))%Q.
Proof.
  intros Hx Ho. rewrite percent_value.
  assert (H : (0 <= ctx_round (x / o))%Qc).
  { apply ctx_round_nonneg. unfold Qcle. rewrite this_div. change (this 0%Qc) with 0%Q.
    apply Qle_shift_div_l; [done|]. lra. }
  unfold Qcle in H. change (this 0%Qc) with 0%Q in H. lra.
Qed.

(** A percentage of a rounded amount [x] is close to that of the exact [e]. *)
Lemma percent_accurate x o (e : Q) : (0 <= e)%Q -> (0 < this o)%Q ->
  (Qabs (this x - e) <= unit_roundoff * e)%Q ->
  (Qabs (this (percent x o) - exact_percent e (this o)) <= percent_error * exact_percent e (this o))%Q.
Proof.
  intros He Ho [Hlo Hhi]%Qabs_Qle_condition. rewrite percent_value. unfold exact_percent.
  assert (Hi : (0 < / this o)%Q) by (by apply Qinv_lt_0_compat).
  assert (Hx : (0 <= this x)%Q) by (unfold unit_roundoff in *; lra).
  assert (Hbounds : (this (x / o)%Qc == this x * / this o)%Q) by (apply this_div).
  assert (Hxi : (0 <= this x * / this o)%Q) by (apply Qmult_le_0_compat; lra).
  destruct (ctx_round_within (x / o)%Qc (this x * / this o)) as [Hr1 Hr2].
  { rewrite Hbounds, Qabs_pos by done. apply Qle_refl. }
  rewrite Hbounds in Hr1, Hr2.
  assert (H1 : (this x * / this o <= (e + unit_roundoff * e) * / this o)%Q)
    by (apply Qmult_le_compat_r; lra).
  assert (H2 : ((e - unit_roundoff * e) * / this o <= this x * / this o)%Q)
    by (apply Qmult_le_compat_r; lra).
  assert (Hei : (0 <= e * / this o)%Q) by (apply Qmult_le_0_compat; lra).
  unfold Qdiv. set (ei := (e * / this o)%Q) in *. set (xi := (this x * / this o)%Q) in *.
  assert (H1' : (xi <= ei + unit_roundoff * ei)%Q) by (unfold ei; lra).
  assert (H2' : (ei - unit_roundoff * ei <= xi)%Q) by (unfold ei; lra).
  unfold unit_roundoff, percent_error in *. apply abs_within; lra.
Qed.

(** Percentages keep the order of the exact quotients. *)
Lemma percent_mono x o x' o' : (x / o <= x' / o')%Qc -> (percent x o <= percent x' o')%Qc.
Proof.
  intros H%ctx_round_mono. unfold Qcle in *. rewrite !percent_value. lra.
Qed.

Lemma ctx_sub_accurate h l : (this l <= this h)%Q ->
  (0 <= this (ctx_sub h l))%Q
  /\ (Qabs (this (ctx_sub h l) - (this h - this l)) <= unit_roundoff * (this h - this l))%Q.
Proof.
  intros H. pose proof (ctx_round_error (h - l)%Qc) as He.
  assert (Hn : (0 <= ctx_sub h l)%Qc).
  { apply ctx_round_nonneg. unfold Qcle. rewrite this_sub. change (this 0%Qc) with 0%Q. lra. }
  split; [exact Hn|]. rewrite this_sub, (Qabs_pos (this h - this l)) in He by lra. exact He.
Qed.

(** ** Body and range *)

Lemma range_eq o h l : (0 < this o)%Q -> (this l <= this h)%Q ->
  compute_previous_session_range o h l
  = Ok {| previous_range := ctx_sub h l; previous_range_pct := percent (ctx_sub h l) o |}.
Proof.
  intros Ho Hhl. unfold compute_previous_session_range, range_validate.
  rewrite dec_leb_0_pos by done.
  replace (dec_ltb h l) with false by (symmetry; apply bool_decide_false; unfold Qclt; lra).
  cbn. by rewrite ctx_div_ok by (by apply pos_nonzero).
Qed.

Lemma range_percent_eq o h l : (0 < this o)%Q ->
  range_percent (o, h, l) = Ok (percent (ctx_sub h l) o).
Proof.
  intros Ho. unfold range_percent. rewrite dec_leb_0_pos by done. cbn.
  by rewrite ctx_div_ok by (by apply pos_nonzero).
Qed.

Lemma body_eq o c : (0 < this o)%Q ->
  compute_previous_session_body o c
  = Ok {| previous_body := dec_abs (ctx_sub c o);
          previous_body_pct := percent (dec_abs (ctx_sub c o)) o |}.
Proof.
  intros Ho. unfold compute_previous_session_body. rewrite dec_leb_0_pos by done. cbn.
  unfold ctx_sub. rewrite ctx_abs_round, ctx_div_ok by (by apply pos_nonzero). done.
Qed.

(** The body is the same for a rise and a fall of the same size. *)
Lemma body_symmetric o c : dec_abs (ctx_sub c o) = dec_abs (ctx_sub o c).
Proof.
  unfold ctx_sub. replace (c - o)%Qc with (- (o - c))%Qc by ring.
  by rewrite ctx_round_opp, dec_abs_opp.
Qed.

Lemma body_accurate o c :
  (0 <= this (dec_abs (ctx_sub c o)))%Q
  /\ (Qabs (this (dec_abs (ctx_sub c o)) - Qabs (this c - this o))
      <= unit_roundoff * Qabs (this c - this o))%Q.
Proof.
  destruct (Qlt_le_dec (this c) (this o)) as [H|H].
  - rewrite body_symmetric.
    destruct (ctx_sub_accurate o c) as [Hn He]; [lra|].
    assert (E : (Qabs (this c - this o) == this o - this c)%Q) by (rewrite Qabs_neg; lra).
    rewrite E, dec_abs_value, (Qabs_pos (this (ctx_sub o c))) by done. by split.
  - destruct (ctx_sub_accurate c o) as [Hn He]; [lra|].
    assert (E : (Qabs (this c - this o) == this c - this o)%Q) by (rewrite Qabs_pos; lra).
    rewrite E, dec_abs_value, (Qabs_pos (this (ctx_sub c o))) by done. by split.
Qed.

(** For a positive open and a high not below the low, the range calculator
    returns a non-negative percentage that differs from the exact
    [(high - low) / open * 100] by at most 1.1e-27 of it. *)
Theorem range_pct_accurate (o h l : Decimal) : (0 < this o)%Q -> (this l <= this h)%Q ->
  exists r, compute_previous_session_range o h l = Ok r
    /\ (0 <= this (previous_range_pct r))%Q
    /\ (Qabs (this (previous_range_pct r) - exact_percent (this h - this l) (this o))
        <= percent_error * exact_percent (this h - this l) (this o))%Q.
Proof.
  intros Ho Hhl. rewrite range_eq by done. eexists. split; [reflexivity|]. cbn [previous_range_pct].
  destruct (ctx_sub_accurate h l Hhl) as [Hn He].
  split; [by apply percent_nonneg|]. apply percent_accurate; [lra|done|done].
Qed.

Lemma range_pct_accurate_witness :
  exists r, compute_previous_session_range (dec 12345 2) (dec 130 0) (dec 11999 2) = Ok r
    /\ (0 <= this (previous_range_pct r))%Q.
Proof.
  destruct (range_pct_accurate (dec 12345 2) (dec 130 0) (dec 11999 2)) as (r & H & H0 & _);
    [vm_compute; reflexivity|vm_compute; discriminate|]. by exists r.
Defined.

(** ** Central pivot range *)

#[local] Opaque ctx_round.

Section Cpr.
Context (h l c : Decimal).
Hypotheses (Hl : (0 < this l)%Q) (Hlc : (this l <= this c)%Q) (Hch : (this c <= this h)%Q).

(** The quantities of the documentation: [P], [|TC - BC|] and their percentage. *)
Definition exact_pivot : Q := ((1 # 3) * (this h + this l + this c))%Q.
Definition exact_width : Q := ((1 # 3) * Qabs (2 * this c - this h - this l))%Q.

Let sum2 := ctx_add h l.
Let pivot := ctx_round (ctx_add sum2 c / THREE)%Qc.
Let bc := ctx_round (sum2 / TWO)%Qc.
Let tc := ctx_sub (ctx_mul TWO pivot) bc.
Let width := ctx_sub (dec_max bc tc) (dec_min bc tc).

Lemma cpr_bounds :
  (Qabs (this pivot - exact_pivot) <= (2 # 1000000000000000000000000000) * this h)%Q
  /\ (Qabs (this tc - this bc - (1 # 3) * (2 * this c - this h - this l))
      <= (12 # 1000000000000000000000000000) * this h)%Q.
Proof using Hl Hlc Hch.
  unfold exact_pivot.
  destruct (ctx_step (h + l) (this h + this l) (2 * this h)) as [A1 A2];
    [apply this_add|lra|lra|]. change (ctx_round (h + l)) with sum2 in A1, A2.
  destruct (ctx_step (sum2 + c) (this sum2 + this c) (4 * this h)) as [B1 B2];
    [apply this_add|lra|lra|]. change (ctx_round (sum2 + c)) with (ctx_add sum2 c) in B1, B2.
  destruct (ctx_step (ctx_add sum2 c / THREE) ((1 # 3) * this (ctx_add sum2 c)) (2 * this h)) as [C1 C2];
    [apply div_three|lra|lra|]. change (ctx_round (ctx_add sum2 c / THREE)) with pivot in C1, C2.
  destruct (ctx_step (sum2 / TWO) ((1 # 2) * this sum2) (2 * this h)) as [D1 D2];
    [apply div_two|lra|lra|]. change (ctx_round (sum2 / TWO)) with bc in D1, D2.
  destruct (ctx_step (TWO * pivot) (2 * this pivot) (4 * this h)) as [E1 E2];
    [apply this_mul|lra|lra|]. change (ctx_round (TWO * pivot)) with (ctx_mul TWO pivot) in E1, E2.
  destruct (ctx_step (ctx_mul TWO pivot - bc) (this (ctx_mul TWO pivot) - this bc) (4 * this h))
    as [F1 F2]; [apply this_sub|lra|lra|].
  change (ctx_round (ctx_mul TWO pivot - bc)) with tc in F1, F2.
  split; apply abs_within; lra.
Qed.

Lemma cpr_width_value : (this width == this (ctx_round (dec_abs (tc - bc))))%Q.
Proof using Type.
  unfold width, ctx_sub. enough (dec_max bc tc - dec_min bc tc = dec_abs (tc - bc))%Qc as -> by done.
  apply Qc_is_canon. rewrite this_sub, dec_abs_value, this_sub.
  dec_unfold; unfold Qclt in *; first [rewrite Qabs_pos by lra; lra | rewrite Qabs_neg by lra; lra].
Qed.

Lemma cpr_width_bound :
  (0 <= this width)%Q
  /\ (Qabs (this width - exact_width) <= (2 # 100000000000000000000000000) * this h)%Q.
Proof using Hl Hlc Hch.
  destruct cpr_bounds as [_ [B1 B2]%Qabs_Qle_condition].
  unfold exact_width. split.
  { rewrite cpr_width_value. apply (ctx_round_nonneg (dec_abs (tc - bc))). unfold Qcle.
    rewrite dec_abs_value. apply Qabs_nonneg. }
  set (d := (2 * this c - this h - this l)%Q) in *.
  assert (Hd : (Qabs d <= this h)%Q) by (apply abs_within; unfold d; lra).
  pose proof (Qabs_Qle_condition d (this h)) as [[Hd1 Hd2] _]; [done|].
  assert (Hv : (this (dec_abs (tc - bc)) == Qabs (this tc - this bc))%Q)
    by (by rewrite dec_abs_value, this_sub).
  destruct (ctx_step (dec_abs (tc - bc)) (Qabs (this tc - this bc)) (this h)) as [F1 F2];
    [done|pose proof (Qabs_nonneg (this tc - this bc)); lra|apply abs_within; lra|].
  rewrite cpr_width_value.
  assert (Hdiff : (Qabs (Qabs (this tc - this bc) - (1 # 3) * Qabs d)
    <= (12 # 1000000000000000000000000000) * this h)%Q).
  { apply Qle_trans with (Qabs (this tc - this bc - (1 # 3) * d)).
    - assert (E : ((1 # 3) * Qabs d == Qabs ((1 # 3) * d))%Q) by (by rewrite Qabs_Qmult).
      rewrite E. apply Qabs_Qle_condition.
      pose proof (Qabs_triangle_reverse (this tc - this bc) ((1 # 3) * d)).
      pose proof (Qabs_triangle_reverse ((1 # 3) * d) (this tc - this bc)) as H2.
      rewrite (Qabs_Qminus ((1 # 3) * d)) in H2. lra.
    - apply abs_within; lra. }
  apply Qabs_Qle_condition in Hdiff. apply abs_within; lra.
Qed.

Lemma cpr_pivot_pos : ((1 # 4) * this h <= this pivot /\ this pivot <= 2 * this h)%Q.
Proof using Hl Hlc Hch.
  destruct cpr_bounds as [[B1 B2]%Qabs_Qle_condition _]. unfold exact_pivot in *. lra.
Qed.

Lemma cpr_validate_ok : cpr_validate h l c = Ok tt.
Proof using Hl Hlc Hch.
  unfold cpr_validate. rewrite !dec_leb_0_pos by lra.
  replace (dec_ltb h l) with false by (symmetry; apply bool_decide_false; unfold Qclt; lra).
  replace (dec_leb l c) with true by (symmetry; by apply dec_leb_le).
  replace (dec_leb c h) with true by (symmetry; by apply dec_leb_le). done.
Qed.

Lemma pivot_nonzero : pivot <> dec 0 0.
Proof using Hl Hlc Hch. apply pos_nonzero. destruct cpr_pivot_pos. lra. Qed.

Lemma compute_cpr_eq :
  compute_cpr h l c = Ok {| cpr_pivot := pivot; cpr_bc := bc; cpr_tc := tc;
    cpr_bottom := dec_min bc tc; cpr_top := dec_max bc tc; cpr_width := width;
    cpr_width_pct := percent width pivot |}.
Proof using Hl Hlc Hch.
  unfold compute_cpr. rewrite cpr_validate_ok, bind_value, three_div, bind_value, two_div, bind_value.
  cbv zeta.
  pose proof pivot_nonzero as Hp. unfold width, tc, bc, pivot, sum2 in *.
  rewrite ctx_div_ok by exact Hp. reflexivity.
Qed.

(** Dividing two close pairs gives close quotients. *)
Lemma quotient_close (w p q e1 e2 b : Q) : (0 < p)%Q -> (0 <= q)%Q -> (q <= 1)%Q ->
  (- e1 <= w - q * b <= e1)%Q -> (- e2 <= b - p <= e2)%Q ->
  (Qabs (w / p - q) <= (e1 + e2) / p)%Q.
Proof using Type.
  intros Hp Hq0 Hq1 [H1 H2] [H3 H4].
  assert (Hqd : (- e2 <= q * (b - p) /\ q * (b - p) <= e2)%Q) by (split; nra).
  apply abs_within.
  - apply Qle_trans with ((- (e1 + e2)) / p)%Q; [unfold Qdiv; lra|].
    apply Qle_shift_div_r; [done|].
    assert (E : ((w / p - q) * p == w - q * p)%Q) by (field; lra). rewrite E. lra.
  - apply Qle_shift_div_l; [done|].
    assert (E : ((w / p - q) * p == w - q * p)%Q) by (field; lra). rewrite E. lra.
Qed.

Definition exact_width_pct : Q := (100 * (exact_width / exact_pivot))%Q.

Lemma cpr_pct_bound :
  (Qabs (this (percent width pivot) - exact_width_pct) <= 1 # 100000000000000000000000)%Q.
Proof using Hl Hlc Hch.
  destruct cpr_width_bound as [Hw0 [W1 W2]%Qabs_Qle_condition].
  destruct cpr_bounds as [[P1 P2]%Qabs_Qle_condition _]. destruct cpr_pivot_pos as [Hp _].
  assert (HP : (0 < exact_pivot)%Q) by (unfold exact_pivot; lra).
  set (q := (exact_width / exact_pivot)%Q).
  assert (Hq0 : (0 <= q)%Q).
  { apply Qle_shift_div_l; [done|]. unfold exact_width.
    pose proof (Qabs_nonneg (2 * this c - this h - this l)). lra. }
  assert (Hq1 : (q <= 1)%Q).
  { apply Qle_shift_div_r; [done|]. unfold exact_width, exact_pivot.
    assert (Qabs (2 * this c - this h - this l) <= this h + this l + this c)%Q
      by (apply abs_within; lra). lra. }
  assert (HqP : (q * exact_pivot == exact_width)%Q) by (unfold q; field; lra).
  pose proof (quotient_close (this width) (this pivot) q
    ((2 # 100000000000000000000000000) * this h) ((2 # 1000000000000000000000000000) * this h)
    exact_pivot) as Hc.
  assert (Hx : (Qabs (this width / this pivot - q) <= 88 # 1000000000000000000000000000)%Q).
  { eapply Qle_trans; [apply Hc; first [done|lra]|].
    apply Qle_shift_div_r; lra. }
  clear Hc. apply Qabs_Qle_condition in Hx as [X1 X2].
  destruct (ctx_step (width / pivot) (this width / this pivot) 2) as [R1 R2];
    [apply this_div|lra|lra|].
  rewrite percent_value. unfold exact_width_pct. fold q. apply abs_within; lra.
Qed.

End Cpr.

(** [C40] For a well-formed high, low and close the calculator returns a central
    pivot range whose bounds are ordered, whose width and percentage are
    non-negative, and whose percentage is within 1e-23 of the exact
    [|TC - BC| / P * 100] of its documentation. *)
Theorem cpr_accurate (h l c : Decimal) :
  (0 < this l)%Q -> (this l <= this c)%Q -> (this c <= this h)%Q ->
  exists r, compute_cpr h l c = Ok r
    /\ (cpr_bottom r <= cpr_top r)%Qc /\ (0 <= this (cpr_width r))%Q /\ (0 < this (cpr_pivot r))%Q
    /\ (0 <= this (cpr_width_pct r))%Q
    /\ (Qabs (this (cpr_width_pct r) - exact_width_pct h l c) <= 1 # 100000000000000000000000)%Q.
Proof.
  intros Hl Hlc Hch. rewrite (compute_cpr_eq h l c) by done. eexists. split; [reflexivity|]. cbn.
  destruct (cpr_width_bound h l c Hl Hlc Hch) as [Hw _].
  destruct (cpr_pivot_pos h l c Hl Hlc Hch) as [Hp _].
  split_and!; [|exact Hw|lra|by apply percent_nonneg; [|lra]|by apply cpr_pct_bound].
  eapply Qcle_trans; [apply dec_min_lb_l|apply dec_max_ub_l].
Qed.

Lemma cpr_accurate_witness :
  exists r, compute_cpr (dec 10550 2) (dec 10010 2) (dec 10435 2) = Ok r
    /\ (0 < this (cpr_pivot r))%Q.
Proof.
  destruct (cpr_accurate (dec 10550 2) (dec 10010 2) (dec 10435 2)) as (r & H & _ & _ & Hp & _);
    [vm_compute; reflexivity|vm_compute; discriminate|vm_compute; discriminate|].
  exists r. split; [exact H|exact Hp].
Defined.

(** ** Relative range *)

Lemma median_perm l l' : l ≡ₚ l' -> median l = median l'.
Proof.
  intros H. unfold median. by rewrite (dec_sorted_perm l l').
Qed.

(** The median of non-negative values exists and is non-negative. *)
Lemma median_nonneg l : l <> [] -> Forall (fun x => (0 <= x)%Qc) l ->
  exists m, median l = Ok m /\ (0 <= m)%Qc.
Proof.
  intros Hne Hall. unfold median.
  assert (Hlen : length (py_sorted dec_leb l) <> 0%nat)
    by (rewrite length_py_sorted; by destruct l).
  assert (Hs : Forall (fun x => (0 <= x)%Qc) (py_sorted dec_leb l)) by (by rewrite Forall_py_sorted).
  set (ordered := py_sorted dec_leb l) in *. set (n := length ordered) in *.
  rewrite (proj2 (Nat.eqb_neq n 0)) by done. cbn [raise_if]. rewrite bind_value. cbv zeta.
  assert (Hidx : forall i, (i < n)%nat -> exists x, list_index ordered i = Ok x /\ (0 <= x)%Qc).
  { intros i Hi. destruct (lookup_lt_is_Some_2 ordered i Hi) as [x Hx].
    exists x. unfold list_index. rewrite Hx. split; [done|].
    by eapply Forall_lookup_1. }
  pose proof (Nat.div_lt n 2 ltac:(lia) ltac:(lia)) as Hmid.
  destruct (n mod 2 =? 1)%nat; [by apply Hidx|].
  destruct (Hidx (n / 2 - 1)%nat ltac:(lia)) as (a & -> & Ha).
  destruct (Hidx (n / 2)%nat ltac:(lia)) as (b & -> & Hb).
  rewrite !bind_value, two_div. eexists. split; [reflexivity|].
  apply ctx_round_nonneg. unfold Qcle in *. change (this 0%Qc) with 0%Q in *. rewrite div_two.
  assert (H : (0 <= ctx_add a b)%Qc).
  { apply ctx_round_nonneg. unfold Qcle. change (this 0%Qc) with 0%Q. rewrite this_add. lra. }
  unfold Qcle in H. change (this 0%Qc) with 0%Q in H. lra.
Qed.

(** A session the calculator accepts. *)
Definition ohl_valid (ohl : Decimal * Decimal * Decimal) : Prop :=
  (0 < this ohl.1.1)%Q /\ (this ohl.2 <= this ohl.1.2)%Q.

Lemma range_percent_ok ohl : ohl_valid ohl ->
  exists p, range_percent ohl = Ok p /\ (0 <= p)%Qc.
Proof.
  destruct ohl as [[o h] l]. intros [Ho Hhl]. cbn in Ho, Hhl. exists (percent (ctx_sub h l) o).
  split; [by apply range_percent_eq|]. apply percent_nonneg; [|done]. by apply ctx_sub_accurate.
Qed.

Lemma range_percents_ok l : Forall ohl_valid l ->
  exists ps, traverse range_percent l = Ok ps /\ length ps = length l
             /\ Forall (fun x => (0 <= x)%Qc) ps.
Proof.
  induction 1 as [|ohl l (p & Hp & Hpos)%range_percent_ok Hall (ps & Hps & Hlen & Hf)].
  - by exists [].
  - exists (p :: ps). cbn [traverse]. rewrite Hp, bind_value, Hps, bind_value. cbn.
    split_and!; [done|lia|by constructor].
Qed.

(** On well-formed sessions with a non-empty baseline the relative range has
    exactly two outcomes: the ratio of the subject's percentage to the median of
    the baseline's, non-negative, or [DegenerateBaselineError] when that median is
    zero; the result does not depend on the order of the baseline. *)
Theorem relative_range_outcomes subject baseline :
  ohl_valid subject -> Forall ohl_valid baseline -> baseline <> [] ->
  exists p ps m, range_percent subject = Ok p /\ traverse range_percent baseline = Ok ps
    /\ median ps = Ok m
    /\ compute_previous_session_relative_range subject baseline
       = (if dec_eqb m (dec 0 0) then Raise DegenerateBaselineError
          else Ok {| relative_range_ratio := ctx_round (p / m)%Qc; rr_previous_range_pct := p;
                     baseline_range_pct := m |})
    /\ (0 <= ctx_round (p / m))%Qc
    /\ forall ps', ps ≡ₚ ps' -> median ps' = Ok m.
Proof.
  intros (p & Hp & Hp0)%range_percent_ok (ps & Hps & Hlen & Hpos)%range_percents_ok Hne.
  destruct (median_nonneg ps) as (m & Hm & Hm0); [by intros ->; destruct baseline|done|].
  exists p, ps, m. split_and!; [done|done|done| | |].
  - unfold compute_previous_session_relative_range.
    rewrite Hp, bind_value, Hps, bind_value, Hm, bind_value. unfold dec_eqb.
    case_bool_decide as Hz; cbn [raise_if]; [done|]. by rewrite bind_value, ctx_div_ok.
  - apply ctx_round_nonneg. unfold Qcle in *. rewrite this_div. change (this 0%Qc) with 0%Q in *.
    apply Qmult_le_0_compat; [done|]. by apply Qinv_le_0_compat.
  - intros ps' Hperm. by rewrite <- (median_perm ps ps').
Qed.

Lemma relative_range_outcomes_witness :
  exists p ps m, range_percent (dec 100 0, dec 110 0, dec 99 0) = Ok p
    /\ traverse range_percent [(dec 100 0, dec 103 0, dec 98 0); (dec 90 0, dec 92 0, dec 90 0)] = Ok ps
    /\ median ps = Ok m.
Proof.
  destruct (relative_range_outcomes (dec 100 0, dec 110 0, dec 99 0)
    [(dec 100 0, dec 103 0, dec 98 0); (dec 90 0, dec 92 0, dec 90 0)])
    as (p & ps & m & H1 & H2 & H3 & _).
  - split; vm_compute; [reflexivity|discriminate].
  - repeat constructor; vm_compute; first [reflexivity|discriminate].
  - discriminate.
  - exists p, ps, m. split; [exact H1|split; [exact H2|exact H3]].
Defined.

#[local] Transparent ctx_round.

(** The mean of two equal 28-digit values is rounded twice and need not be that
    value, so the median of a constant baseline can differ from the constant. *)
Lemma median_of_equal_values_inexact : exists a, ctx_round a = a /\ median [a; a] <> Ok a.
Proof.
  exists (dec 5000000000000000000000000001 0). split.
  - apply Qc_is_canon. vm_compute. reflexivity.
  - intros H. apply (f_equal (fun r => match r with Ok x => Qnum (this x) | _ => 0 end)) in H.
    vm_compute in H. discriminate.
Qed.
