(* ===== verification/Scanner.v ===== *)
(** The cross-instrument scanner, [services/cross_instrument_scanner.py]: it turns
    the results published per instrument into one ranked snapshot per strategy.

    The state of a strategy's snapshot is a dictionary of records; [snapshot]
    ranks the eligible ones.  The theorems compare the state after any sequence of
    events with a declarative reading of the event log, and characterise the
    ranking.  The bus subscription is the event bus's business. *)
From S2P Require Import Prelude DecimalContext PyTime MarketData Timeframe Session Context.
From S2P Require Import Requirements Strategy Emission StrategyManager Samples.

Local Open Scope Z_scope.

(** * Ranking policies *)

Inductive ScannerOrdering : Type := ASCENDING | DESCENDING.
Inductive ScannerSnapshotCompleteness : Type := SNAPSHOT_PARTIAL | SNAPSHOT_COMPLETE.

#[global] Instance ScannerOrdering_eq_dec : EqDecision ScannerOrdering.
Proof. solve_decision. Defined.

Record ScannerRankingPolicy : Type := {
  rp_strategy_id : string;
  rp_metric_name : string;
  rp_ordering : ScannerOrdering;
}.

#[global] Instance ScannerRankingPolicy_eq_dec : EqDecision ScannerRankingPolicy.
Proof. solve_decision. Defined.

(** [__post_init__] *)
Definition mk_ranking_policy (self : ScannerRankingPolicy) : result ScannerRankingPolicy :=
  _ ← raise_if (is_empty (strip (rp_strategy_id self)))
    (ScannerPolicyConflictError "ranking policy requires a non-empty strategy_id");
  _ ← raise_if (is_empty (strip (rp_metric_name self)))
    (ScannerPolicyConflictError "ranking policy requires a non-empty metric_name");
  Ok self.

Definition ScannerRankingPolicyRegistry : Type := dict string ScannerRankingPolicy.

Definition register_policy (self : ScannerRankingPolicyRegistry) (policy : ScannerRankingPolicy)
    : result ScannerRankingPolicyRegistry :=
  let existing := dict_get (rp_strategy_id policy) self in
  _ ← raise_if (match existing with Some p => negb (bool_decide (p = policy)) | None => false end)
    (ScannerPolicyConflictError "a different ranking policy is already registered");
  Ok (dict_set (rp_strategy_id policy) policy self).

(** [ScannerRankingPolicyRegistry(policies)] *)
Definition mk_policy_registry (policies : list ScannerRankingPolicy)
    : result ScannerRankingPolicyRegistry :=
  foldl (fun acc policy => self ← acc; register_policy self policy) (Ok []) policies.

Definition policy_strategy_ids (self : ScannerRankingPolicyRegistry) : list string :=
  py_sorted String.leb self.*1.

(** * State *)

Record ScannerCandidate : Type := {
  cd_instrument : Instrument;
  cd_strategy_id : string;
  cd_strategy_version : string;
  cd_config_version : string;
  cd_status : EvaluationStatus;
  cd_ranking_metric_name : string;
  cd_ranking_metric_value : Decimal;
  cd_rank : Z;
}.

Record ScannerSnapshot : Type := {
  sn_strategy_id : string;
  sn_strategy_version : string;
  sn_config_version : string;
  sn_trading_date : date;
  sn_expected_count : Z;
  sn_evaluated_count : Z;
  sn_eligible_count : Z;
  sn_completeness : ScannerSnapshotCompleteness;
  sn_candidates : list ScannerCandidate;
}.

(** [_CandidateRecord] and [_SnapshotState] *)
Record CandidateRecord : Type := {
  cr_instrument : Instrument;
  cr_status : EvaluationStatus;
  cr_metric_value : option Decimal;
  cr_context_version : Z;
}.

Record SnapshotState : Type := {
  st_trading_date : date;
  st_strategy_version : string;
  st_config_version : string;
  st_records : dict Instrument CandidateRecord;
}.

Definition eligible (r : CandidateRecord) : bool :=
  bool_decide (cr_status r = MATCHED) && is_not_none (cr_metric_value r).

Record CrossInstrumentStrategyScanner : Type := {
  universe : gset Instrument;
  policies : ScannerRankingPolicyRegistry;
  snapshots : dict string SnapshotState;
}.

Definition mk_scanner (instruments : list Instrument) (registry : ScannerRankingPolicyRegistry)
    : CrossInstrumentStrategyScanner :=
  {| universe := list_to_set instruments; policies := registry; snapshots := [] |}.

Definition expected_count (self : CrossInstrumentStrategyScanner) : Z := Z.of_nat (size (universe self)).

(** * Ingestion *)

(** [_metric_value]: the first entry of that name decides. *)
Fixpoint metric_value (metrics : list MetricEntry) (metric_name : string) : option Decimal :=
  match metrics with
  | [] => None
  | entry :: rest =>
      if bool_decide (me_name entry = metric_name)
      then match me_value entry with MDecimal d => Some d | _ => None end
      else metric_value rest metric_name
  end.

(** [_resolve_state]; the caller stores the state it returns. *)
Definition resolve_state (current : option SnapshotState) (r : StrategyResult) (d : date)
    : option SnapshotState :=
  let fresh := {| st_trading_date := d; st_strategy_version := sres_strategy_version r;
                  st_config_version := sres_config_version r; st_records := [] |} in
  match current with
  | None => Some fresh
  | Some current =>
      if st_trading_date current <? d then Some fresh
      else if d <? st_trading_date current then None
      else if bool_decide ((sres_strategy_version r, sres_config_version r)
                           = (st_strategy_version current, st_config_version current))
      then Some current else None
  end.

(** [_store] *)
Definition store_record (state : SnapshotState) (r : StrategyResult) (value : option Decimal)
    : SnapshotState :=
  let existing := dict_get (sres_instrument r) (st_records state) in
  if match existing with
     | Some e => sres_context_version r <=? cr_context_version e
     | None => false
     end
  then state
  else {| st_trading_date := st_trading_date state;
          st_strategy_version := st_strategy_version state;
          st_config_version := st_config_version state;
          st_records := dict_set (sres_instrument r)
            {| cr_instrument := sres_instrument r; cr_status := sres_status r;
               cr_metric_value := value; cr_context_version := sres_context_version r |}
            (st_records state) |}.

(** [_ingest] *)
Definition ingest (self : CrossInstrumentStrategyScanner) (r : StrategyResult) (d : date)
    : CrossInstrumentStrategyScanner :=
  match dict_get (sres_strategy_id r) (policies self) with
  | None => self
  | Some policy =>
      if negb (bool_decide (sres_instrument r ∈ universe self)) then self
      else if negb (bool_decide (sres_status r = MATCHED \/ sres_status r = NO_MATCH)) then self
      else match resolve_state (dict_get (sres_strategy_id r) (snapshots self)) r d with
           | None => self
           | Some state =>
               let value := if bool_decide (sres_status r = MATCHED)
                            then metric_value (sres_metrics r) (rp_metric_name policy) else None in
               {| universe := universe self; policies := policies self;
                  snapshots := dict_set (sres_strategy_id r) (store_record state r value)
                                 (snapshots self) |}
           end
  end.

(** [_handle] *)
Definition scanner_handle (self : CrossInstrumentStrategyScanner) (event : StrategyResultsPublished)
    : CrossInstrumentStrategyScanner :=
  match pub_trading_date event with
  | None => self
  | Some d => foldl (fun self r => ingest self r d) self (pub_results event)
  end.

(** * Snapshots *)

(** The key of [_rank]: the unary minus rounds to the decimal context. *)
Definition rank_key (policy : ScannerRankingPolicy) (value : Decimal) : Decimal :=
  if bool_decide (rp_ordering policy = DESCENDING) then ctx_round (- value)%Qc else value.

(** The order of [_instrument_key]. *)
Definition instrument_key_leb (a b : Instrument) : bool :=
  if bool_decide (exchange a = exchange b) then String.leb (symbol a) (symbol b)
  else String.leb (exchange a) (exchange b).

(** The order of the tuples [(metric, exchange, symbol)]. *)
Definition record_leb (policy : ScannerRankingPolicy) (a b : Decimal * CandidateRecord) : bool :=
  let ka := rank_key policy a.1 in
  let kb := rank_key policy b.1 in
  if dec_ltb ka kb then true
  else if dec_ltb kb ka then false
  else instrument_key_leb (cr_instrument a.2) (cr_instrument b.2).

(** The eligible records with their values: [_require_value] cannot fail on them. *)
Definition eligible_records (records : dict Instrument CandidateRecord)
    : list (Decimal * CandidateRecord) :=
  omap (fun record => if eligible record
                      then (fun v => (v, record)) <$> cr_metric_value record else None) records.*2.

Fixpoint candidates_from (strategy_id : string) (state : SnapshotState)
    (policy : ScannerRankingPolicy) (rank : Z) (l : list (Decimal * CandidateRecord))
    : list ScannerCandidate :=
  match l with
  | [] => []
  | (value, record) :: l =>
      {| cd_instrument := cr_instrument record; cd_strategy_id := strategy_id;
         cd_strategy_version := st_strategy_version state;
         cd_config_version := st_config_version state; cd_status := MATCHED;
         cd_ranking_metric_name := rp_metric_name policy; cd_ranking_metric_value := value;
         cd_rank := rank |} :: candidates_from strategy_id state policy (rank + 1) l
  end.

Definition scanner_snapshot (self : CrossInstrumentStrategyScanner) (strategy_id : string)
    : option ScannerSnapshot :=
  state ← dict_get strategy_id (snapshots self);
  policy ← dict_get strategy_id (policies self);
  let ranked := py_sorted (record_leb policy) (eligible_records (st_records state)) in
  let candidates := candidates_from strategy_id state policy 1 ranked in
  let evaluated := Z.of_nat (length (st_records state)) in
  Some {| sn_strategy_id := strategy_id; sn_strategy_version := st_strategy_version state;
          sn_config_version := st_config_version state; sn_trading_date := st_trading_date state;
          sn_expected_count := expected_count self; sn_evaluated_count := evaluated;
          sn_eligible_count := Z.of_nat (length candidates);
          sn_completeness := if evaluated =? expected_count self
                             then SNAPSHOT_COMPLETE else SNAPSHOT_PARTIAL;
          sn_candidates := candidates |}.

(** * The event log read declaratively *)

(** The results an event sequence delivers, with the trading date of their event. *)
Definition results_of (events : list StrategyResultsPublished) : list (date * StrategyResult) :=
  events ≫= fun e => match pub_trading_date e with
                     | Some d => (fun r => (d, r)) <$> pub_results e
                     | None => []
                     end.

(** The results that count for a strategy. *)
Definition relevant (self : CrossInstrumentStrategyScanner) (strategy_id : string)
    (p : date * StrategyResult) : Prop :=
  sres_strategy_id p.2 = strategy_id /\ sres_instrument p.2 ∈ universe self
  /\ (sres_status p.2 = MATCHED \/ sres_status p.2 = NO_MATCH).

#[global] Instance relevant_dec self strategy_id p : Decision (relevant self strategy_id p).
Proof. unfold relevant. apply _. Defined.

(** The latest trading date of a log. *)
Definition latest_date (l : list (date * StrategyResult)) : option date :=
  foldl (fun acc p => Some (match acc with Some d => Z.max d p.1 | None => p.1 end)) None l.

Definition same_versions (a b : StrategyResult) : Prop :=
  sres_strategy_version a = sres_strategy_version b /\ sres_config_version a = sres_config_version b.

#[global] Instance same_versions_dec a b : Decision (same_versions a b).
Proof. unfold same_versions. apply _. Defined.

(** The session a log establishes: its latest date, the first result of that date
    and the results of that date with the versions of the first. *)
Definition session_of (l : list (date * StrategyResult))
    : option (date * StrategyResult * list StrategyResult) :=
  d ← latest_date l;
  match (filter (fun p => p.1 = d) l).*2 with
  | [] => None
  | first :: rest => Some (d, first, filter (fun r => same_versions r first) (first :: rest))
  end.

(** The result that stands for an instrument: the first of its highest version. *)
Definition is_newest (i : Instrument) (rs : list StrategyResult) (r : StrategyResult) : Prop :=
  exists l1 l2, rs = l1 ++ r :: l2 /\ sres_instrument r = i
    /\ (forall x, x ∈ l1 -> sres_instrument x = i -> sres_context_version x < sres_context_version r)
    /\ (forall x, x ∈ l2 -> sres_instrument x = i -> sres_context_version x <= sres_context_version r).

Definition record_of (policy : ScannerRankingPolicy) (r : StrategyResult) : CandidateRecord := {|
  cr_instrument := sres_instrument r; cr_status := sres_status r;
  cr_metric_value := if bool_decide (sres_status r = MATCHED)
                     then metric_value (sres_metrics r) (rp_metric_name policy) else None;
  cr_context_version := sres_context_version r |}.

(** A snapshot state represents a session. *)
Definition represents (policy : ScannerRankingPolicy)
    (session : option (date * StrategyResult * list StrategyResult)) (state : option SnapshotState)
    : Prop :=
  match session, state with
  | None, None => True
  | Some (d, first, rs), Some st =>
      st_trading_date st = d /\ st_strategy_version st = sres_strategy_version first
      /\ st_config_version st = sres_config_version first /\ NoDup (st_records st).*1
      /\ forall i, match dict_get i (st_records st) with
                   | Some record => exists r, is_newest i rs r /\ record = record_of policy r
                   | None => forall r, r ∈ rs -> sres_instrument r <> i
                   end
  | _, _ => False
  end.

(** * Lemmas *)

(** One relevant result, on the state of its own strategy. *)
Definition absorb (policy : ScannerRankingPolicy) (state : option SnapshotState)
    (p : date * StrategyResult) : option SnapshotState :=
  match resolve_state state p.2 p.1 with
  | None => state
  | Some st => Some (store_record st p.2 (cr_metric_value (record_of policy p.2)))
  end.

Lemma ingest_fixed self r d :
  universe (ingest self r d) = universe self /\ policies (ingest self r d) = policies self.
Proof. unfold ingest. repeat case_match; done. Qed.

Lemma ingest_get self r d strategy_id policy :
  dict_get strategy_id (policies self) = Some policy ->
  dict_get strategy_id (snapshots (ingest self r d))
  = if decide (relevant self strategy_id (d, r))
    then absorb policy (dict_get strategy_id (snapshots self)) (d, r)
    else dict_get strategy_id (snapshots self).
Proof.
  intros Hp. unfold relevant, absorb, ingest. cbn [fst snd].
  destruct (decide (sres_strategy_id r = strategy_id)) as [<-|Hs].
  - rewrite Hp. case_bool_decide as Hu; cbn [negb]; [|by rewrite decide_False by tauto].
    case_bool_decide as Hst; cbn [negb]; [|by rewrite decide_False by tauto].
    rewrite decide_True by tauto.
    destruct (resolve_state _ r d) as [st|] eqn:E; [|done].
    cbn [snapshots]. by rewrite dict_get_set, decide_True.
  - rewrite decide_False by tauto. repeat case_match; cbn [snapshots]; try done;
      by rewrite dict_get_set, decide_False by done.
Qed.

Lemma handle_results self e :
  scanner_handle self e = foldl (fun self p => ingest self p.2 p.1) self (results_of [e]).
Proof.
  unfold scanner_handle, results_of. cbn. rewrite app_nil_r.
  destruct (pub_trading_date e) as [d|]; [|done].
  generalize (pub_results e). intros l. revert self. induction l as [|r l IH]; intros self; [done|]. apply IH.
Qed.

Lemma handle_all_results self events :
  foldl scanner_handle self events
  = foldl (fun self p => ingest self p.2 p.1) self (results_of events).
Proof.
  revert self. induction events as [|e events IH]; intros self; [done|].
  change (e :: events) with ([e] ++ events). unfold results_of.
  rewrite bind_app, !foldl_app. fold (results_of [e]) (results_of events). cbn [foldl].
  rewrite IH. by rewrite handle_results.
Qed.

Lemma ingest_all_fixed l self :
  let s := foldl (fun self p => ingest self p.2 p.1) self l in
  universe s = universe self /\ policies s = policies self.
Proof.
  revert self. induction l as [|[d r] l IH]; intros self; [done|]. cbn.
  destruct (IH (ingest self r d)) as [-> ->]. apply ingest_fixed.
Qed.

Lemma ingest_all_get l self strategy_id policy :
  dict_get strategy_id (policies self) = Some policy ->
  dict_get strategy_id (snapshots (foldl (fun self p => ingest self p.2 p.1) self l))
  = foldl (absorb policy) (dict_get strategy_id (snapshots self))
      (filter (relevant self strategy_id) l).
Proof.
  revert self. induction l as [|[d r] l IH]; intros self Hp; [done|]. cbn [foldl fst snd].
  destruct (ingest_fixed self r d) as [Hu Hpol].
  rewrite IH by (by rewrite Hpol). rewrite (ingest_get _ _ _ _ policy) by done.
  assert (Hf : filter (relevant (ingest self r d) strategy_id) l = filter (relevant self strategy_id) l)
    by (apply list_filter_iff; intros p; unfold relevant; by rewrite Hu).
  rewrite Hf, filter_cons. by case_decide.
Qed.

Lemma latest_date_snoc l p :
  latest_date (l ++ [p]) = Some (match latest_date l with Some d => Z.max d p.1 | None => p.1 end).
Proof. unfold latest_date. by rewrite foldl_app. Qed.

Lemma latest_date_ub l d p : latest_date l = Some d -> p ∈ l -> p.1 <= d.
Proof.
  revert d. induction l as [|q l IH] using rev_ind; intros d; [by intros _ ?%not_elem_of_nil|].
  rewrite latest_date_snoc. intros [= <-] [Hp|Hp%list_elem_of_singleton]%elem_of_app.
  - destruct (latest_date l) as [d|] eqn:E; [specialize (IH _ eq_refl Hp); lia|].
    destruct l as [|? l _] using rev_ind; [by apply not_elem_of_nil in Hp|].
    by rewrite latest_date_snoc in E.
  - subst. destruct (latest_date l); lia.
Qed.

Lemma latest_date_none l : latest_date l = None <-> l = [].
Proof.
  split; [|by intros ->]. destruct l as [|p l _] using rev_ind; [done|]. by rewrite latest_date_snoc.
Qed.

Lemma latest_date_in l d : latest_date l = Some d -> exists r, (d, r) ∈ l.
Proof.
  revert d. induction l as [|[d' r'] l IH] using rev_ind; intros d; [done|].
  rewrite latest_date_snoc. intros [= <-]. destruct (latest_date l) as [d|] eqn:E; cbn [fst].
  - destruct (Z.max_spec d d') as [[_ ->]|[_ ->]]; [exists r'; set_solver|].
    destruct (IH _ eq_refl) as [r Hr]. exists r. set_solver.
  - exists r'. set_solver.
Qed.

(** ** The newest result of an instrument *)

Lemma is_newest_snoc_other i rs r x : sres_instrument x <> i ->
  is_newest i rs r -> is_newest i (rs ++ [x]) r.
Proof.
  intros Hx (l1 & l2 & -> & Hi & H1 & H2). exists l1, (l2 ++ [x]).
  split_and!; [by rewrite <- app_assoc|done|done|].
  intros y [Hy|Hy%list_elem_of_singleton]%elem_of_app Hyi; [by apply H2|by subst].
Qed.

Lemma is_newest_snoc_keep i rs r x : sres_context_version x <= sres_context_version r ->
  is_newest i rs r -> is_newest i (rs ++ [x]) r.
Proof.
  intros Hx (l1 & l2 & -> & Hi & H1 & H2). exists l1, (l2 ++ [x]).
  split_and!; [by rewrite <- app_assoc|done|done|].
  intros y [Hy|Hy%list_elem_of_singleton]%elem_of_app Hyi; [by apply H2|by subst].
Qed.

Lemma is_newest_bound i rs r y : is_newest i rs r -> y ∈ rs -> sres_instrument y = i ->
  sres_context_version y <= sres_context_version r.
Proof.
  intros (l1 & l2 & -> & Hi & H1 & H2) Hy Hyi. apply elem_of_app in Hy as [Hy|Hy].
  - specialize (H1 _ Hy Hyi). lia.
  - apply elem_of_cons in Hy as [->|Hy]; [done|by apply H2].
Qed.

Lemma is_newest_snoc_new i rs x : sres_instrument x = i ->
  (forall y, y ∈ rs -> sres_instrument y = i -> sres_context_version y < sres_context_version x) ->
  is_newest i (rs ++ [x]) x.
Proof. intros Hi H. exists rs, []. split_and!; [done|done|done|by intros ? ?%not_elem_of_nil]. Qed.

(** ** One more result *)

(** A result replaces the record of its instrument. *)
Definition supersedes (r : StrategyResult) (existing : option CandidateRecord) : bool :=
  match existing with
  | Some e => cr_context_version e <? sres_context_version r
  | None => true
  end.

Lemma store_records st r v i :
  dict_get i (st_records (store_record st r v))
  = if decide (i = sres_instrument r /\ supersedes r (dict_get i (st_records st)) = true)
    then Some {| cr_instrument := sres_instrument r; cr_status := sres_status r;
                 cr_metric_value := v; cr_context_version := sres_context_version r |}
    else dict_get i (st_records st).
Proof.
  unfold store_record. destruct (decide (i = sres_instrument r)) as [->|Hi].
  - destruct (dict_get (sres_instrument r) (st_records st)) as [e|] eqn:E; cbn [supersedes].
    + destruct (Z.leb_spec (sres_context_version r) (cr_context_version e)).
      * rewrite E, decide_False by (intros [_ ?]; lia). done.
      * cbn. rewrite dict_get_set, decide_True by done.
        by rewrite decide_True by (split; [done|lia]).
    + cbn. rewrite dict_get_set, decide_True by done. by rewrite decide_True.
  - rewrite (decide_False (P := i = _ /\ _)) by tauto. case_match; [done|].
    cbn. by rewrite dict_get_set, decide_False.
Qed.

Lemma store_same_session policy d first rs st r :
  represents policy (Some (d, first, rs)) (Some st) ->
  represents policy (Some (d, first, rs ++ [r]))
    (Some (store_record st r (cr_metric_value (record_of policy r)))).
Proof.
  intros (Hd & Hv & Hc & Hn & Hr). cbn [represents].
  split_and!; [unfold store_record; by case_match..| |].
  { unfold store_record. case_match; [done|]. cbn. by apply dict_set_NoDup. }
  intros i. rewrite store_records. specialize (Hr i). case_decide as Hnew.
  - destruct Hnew as [-> Hlt]. exists r. split; [|done]. apply is_newest_snoc_new; [done|].
    intros y Hy Hyi. destruct (dict_get (sres_instrument r) (st_records st)) as [e|].
    + destruct Hr as (x & Hx & ->). pose proof (is_newest_bound _ _ _ _ Hx Hy Hyi).
      cbn in Hlt. lia.
    + by destruct (Hr y Hy).
  - destruct (dict_get i (st_records st)) as [e|].
    + destruct Hr as (x & Hx & ->). exists x. split; [|done].
      destruct (decide (sres_instrument r = i)) as [<-|Hi].
      * apply is_newest_snoc_keep; [|done]. cbn [supersedes] in Hnew. apply Z.nlt_ge. intros Hlt. apply Hnew. split; [done|]. cbn. lia.
      * by apply is_newest_snoc_other.
    + intros y [Hy|Hy%list_elem_of_singleton]%elem_of_app Hyi; [by apply (Hr y)|subst].
      by apply Hnew.
Qed.

Lemma represents_fresh policy d r st :
  resolve_state None r d = Some st ->
  represents policy (Some (d, r, [r]))
    (Some (store_record st r (cr_metric_value (record_of policy r)))).
Proof.
  intros [= <-]. apply (store_same_session policy d r []). cbn.
  split_and!; [done|done|done|constructor|]. by intros i r' ?%not_elem_of_nil.
Qed.

Lemma session_of_fresh l d r :
  (forall p, p ∈ l -> p.1 < d) -> session_of (l ++ [(d, r)]) = Some (d, r, [r]).
Proof.
  intros Hlt. unfold session_of. rewrite latest_date_snoc.
  assert (Hmax : match latest_date l with Some d0 => Z.max d0 d | None => d end = d).
  { destruct (latest_date l) as [d0|] eqn:E; [|done].
    apply latest_date_in in E as (r0 & H%Hlt). cbn in H. lia. }
  cbn [fst mbind option_bind]. rewrite Hmax, filter_app.
  rewrite (filter_none _ l) by (intros p Hp; specialize (Hlt _ Hp); lia).
  rewrite filter_cons, decide_True, filter_nil by done. cbn [app fmap list_fmap snd].
  by rewrite filter_cons, decide_True, filter_nil by (by split).
Qed.

Lemma session_of_stale l cur d r :
  latest_date l = Some cur -> d < cur -> session_of (l ++ [(d, r)]) = session_of l.
Proof.
  intros Hl Hlt. unfold session_of. rewrite latest_date_snoc, Hl. cbn [fst mbind option_bind].
  rewrite Z.max_l, filter_app by lia.
  by rewrite filter_cons, decide_False, filter_nil, app_nil_r by (cbn; lia).
Qed.

Lemma session_of_same l cur first rs r :
  session_of l = Some (cur, first, rs) ->
  session_of (l ++ [(cur, r)])
  = Some (cur, first, if decide (same_versions r first) then rs ++ [r] else rs).
Proof.
  unfold session_of. rewrite latest_date_snoc. destruct (latest_date l) as [d|]; [|done].
  cbn [fst mbind option_bind]. intros H.
  assert (d = cur) as -> by (destruct (filter _ l).*2; congruence).
  rewrite Z.max_id, filter_app, filter_cons, decide_True, filter_nil by done.
  destruct (filter (fun p => p.1 = cur) l).*2 as [|f rest] eqn:E; [done|].
  injection H as -> <-. rewrite fmap_app, E. cbn [fmap list_fmap snd app].
  change (first :: rest ++ [r]) with ((first :: rest) ++ [r]).
  rewrite (filter_app _ (first :: rest) [r]), (filter_cons _ r []), filter_nil.
  case_decide; [done|]. by rewrite app_nil_r.
Qed.

Lemma session_of_latest l cur first rs : session_of l = Some (cur, first, rs) -> latest_date l = Some cur.
Proof.
  unfold session_of. destruct (latest_date l) as [d|]; [|done]. cbn.
  destruct (filter _ l).*2; congruence.
Qed.

Lemma session_of_none l : session_of l = None -> l = [].
Proof.
  unfold session_of. destruct (latest_date l) as [d|] eqn:E; [|by rewrite latest_date_none in E].
  cbn. apply latest_date_in in E as (r & Hr).
  assert (Hin : r ∈ (filter (fun p => p.1 = d) l).*2).
  { apply list_elem_of_fmap. exists (d, r). split; [done|]. by apply list_elem_of_filter. }
  destruct (filter (fun p => p.1 = d) l).*2; [by apply not_elem_of_nil in Hin|done].
Qed.

(** The state follows the declarative reading, one result at a time. *)
Lemma absorb_represents policy l p state :
  represents policy (session_of l) state ->
  represents policy (session_of (l ++ [p])) (absorb policy state p).
Proof.
  destruct p as [d r]. intros H. unfold absorb. cbn [fst snd].
  destruct (session_of l) as [[[cur first] rs]|] eqn:Es, state as [st|]; try done.
  2: { apply session_of_none in Es as ->. rewrite session_of_fresh by (by intros ? ?%not_elem_of_nil).
       by apply represents_fresh. }
  pose proof (session_of_latest _ _ _ _ Es) as Hl.
  pose proof H as (Hd & Hv & Hc & _). cbn [resolve_state].
  destruct (Z.ltb_spec (st_trading_date st) d) as [Hlt|Hge].
  { rewrite session_of_fresh by (intros p Hp; pose proof (latest_date_ub _ _ _ Hl Hp); lia).
    by apply represents_fresh. }
  destruct (Z.ltb_spec d (st_trading_date st)) as [Hlt|Hge'].
  { rewrite (session_of_stale _ _ _ _ Hl) by lia. by rewrite Es. }
  assert (d = cur) as -> by lia. rewrite (session_of_same _ _ _ _ _ Es), Hv, Hc.
  case_bool_decide as Hver.
  - injection Hver as H1 H2. rewrite decide_True by (by split). by apply store_same_session.
  - by rewrite decide_False by (intros [H1 H2]; apply Hver; by rewrite H1, H2).
Qed.

Lemma absorb_all_represents policy l :
  represents policy (session_of l) (foldl (absorb policy) None l).
Proof.
  induction l as [|p l IH] using rev_ind; [done|]. rewrite foldl_app. by apply absorb_represents.
Qed.

(** [C39] After any sequence of published events the state kept for a scanner-enabled
    strategy is exactly the latest session of the results that count for it: the
    latest trading date, the versions of that date's first result and, for each
    instrument that reported under them, the first result of the highest context
    version; stale and conflicting results leave no trace. *)
Theorem scanner_state_exact instruments registry events strategy_id policy :
  dict_get strategy_id registry = Some policy ->
  let init := mk_scanner instruments registry in
  represents policy
    (session_of (filter (relevant init strategy_id) (results_of events)))
    (dict_get strategy_id (snapshots (foldl scanner_handle init events))).
Proof.
  cbn zeta. intros Hp. rewrite handle_all_results, (ingest_all_get _ _ _ policy) by done.
  apply absorb_all_represents.
Qed.

(** A sample: two instruments ranked by a descending percentage. *)
Definition sample_policy : ScannerRankingPolicy := {|
  rp_strategy_id := "previous_session_range_pct"; rp_metric_name := "previous_range_pct";
  rp_ordering := DESCENDING |}.

Definition sample_result (i : Instrument) (version : Z) (pct : Decimal) : StrategyResult := {|
  sres_result_id := None; sres_strategy_id := "previous_session_range_pct";
  sres_strategy_version := "1.0.0"; sres_config_version := "1.0.0"; sres_instrument := i;
  sres_context_version := version; sres_evaluation_timestamp := at_local 9 20;
  sres_status := MATCHED; sres_score := None; sres_confidence := None;
  sres_reason_codes := ["PREVIOUS_SESSION_RANGE_VALID"];
  sres_metrics := [{| me_name := "previous_range_pct"; me_value := MDecimal pct |}];
  sres_metadata := []; sres_diagnostics := [] |}.

Definition sample_events : list StrategyResultsPublished := [
  {| pub_instrument := reliance; pub_context_version := 1;
     pub_results := [sample_result reliance 1 (dec 21 1)]; pub_ranked := [];
     pub_trading_date := Some sample_date |};
  {| pub_instrument := infy; pub_context_version := 1;
     pub_results := [sample_result infy 1 (dec 35 1)]; pub_ranked := [];
     pub_trading_date := Some sample_date |} ].

Definition sample_registry : ScannerRankingPolicyRegistry :=
  [("previous_session_range_pct", sample_policy)].

Definition sample_scanner : CrossInstrumentStrategyScanner :=
  foldl scanner_handle (mk_scanner [reliance; infy] sample_registry) sample_events.

Lemma scanner_state_exact_witness :
  dict_get "previous_session_range_pct" sample_registry = Some sample_policy
  /\ represents sample_policy
    (session_of (filter (relevant (mk_scanner [reliance; infy] sample_registry)
       "previous_session_range_pct") (results_of sample_events)))
    (dict_get "previous_session_range_pct" (snapshots sample_scanner)).
Proof.
  split; [reflexivity|].
  exact (scanner_state_exact [reliance; infy] sample_registry sample_events
    "previous_session_range_pct" sample_policy eq_refl).
Defined.

(** ** Ranking *)

Lemma instrument_key_leb_total a b : instrument_key_leb a b = true \/ instrument_key_leb b a = true.
Proof.
  unfold instrument_key_leb. case_bool_decide as H.
  - rewrite bool_decide_true by done. destruct (String.leb_total (symbol a) (symbol b)); auto.
  - rewrite bool_decide_false by done. destruct (String.leb_total (exchange a) (exchange b)); auto.
Qed.

Lemma instrument_key_leb_trans a b c :
  instrument_key_leb a b = true -> instrument_key_leb b c = true -> instrument_key_leb a c = true.
Proof.
  unfold instrument_key_leb. intros Hab Hbc.
  destruct (decide (exchange a = exchange b)) as [E1|E1].
  - rewrite bool_decide_true in Hab by done. rewrite E1.
    destruct (decide (exchange b = exchange c)) as [E2|E2].
    + rewrite bool_decide_true in Hbc |- * by done. by eapply string_leb_trans.
    + by rewrite bool_decide_false in Hbc |- * by done.
  - rewrite bool_decide_false in Hab by done.
    destruct (decide (exchange b = exchange c)) as [E2|E2].
    + rewrite <- E2. by rewrite bool_decide_false by done.
    + rewrite bool_decide_false in Hbc by done. rewrite bool_decide_false; [by eapply string_leb_trans|].
      intros E3. apply E1. rewrite E3 in Hab |- *. by apply String.leb_antisym.
Qed.

Lemma record_leb_total policy a b : record_leb policy a b = true \/ record_leb policy b a = true.
Proof.
  unfold record_leb. unfold dec_ltb. repeat case_bool_decide; auto using instrument_key_leb_total.
Qed.

Lemma record_leb_spec policy a b : record_leb policy a b = true <->
  (rank_key policy a.1 < rank_key policy b.1)%Qc
  \/ rank_key policy a.1 = rank_key policy b.1
     /\ instrument_key_leb (cr_instrument a.2) (cr_instrument b.2) = true.
Proof.
  unfold record_leb, dec_ltb. cbv zeta. case_bool_decide as H1; [split; [by left|done]|].
  case_bool_decide as H2; split.
  - done.
  - intros [?|[E _]]; [done|]. rewrite E in H2. by apply Qclt_not_eq in H2.
  - intros H. right. split; [|done]. apply Qcnot_lt_le in H1, H2. by apply Qcle_antisym.
  - intros [?|[_ ?]]; done.
Qed.

Lemma record_leb_trans policy a b c :
  record_leb policy a b = true -> record_leb policy b c = true -> record_leb policy a c = true.
Proof.
  rewrite !record_leb_spec. intros [H1|[E1 T1]] [H2|[E2 T2]].
  - left. by eapply Qclt_trans.
  - left. by rewrite <- E2.
  - left. by rewrite E1.
  - right. rewrite E1, E2. split; [done|]. by eapply instrument_key_leb_trans.
Qed.

(** Representable values are ranked by their exact size. *)
Lemma rank_key_exact policy v : representable v ->
  rank_key policy v = if bool_decide (rp_ordering policy = DESCENDING) then (- v)%Qc else v.
Proof.
  intros H. unfold rank_key. case_bool_decide; [|done]. apply ctx_round_exact.
  destruct H as (m & e & Hv & Hm). exists (- m), e. split; [|lia].
  rewrite this_opp, Hv, inject_Z_opp. ring.
Qed.

(** What the ranking promises of two candidates in order. *)
Definition ranks_before (ordering : ScannerOrdering) (a b : ScannerCandidate) : Prop :=
  match ordering with
  | ASCENDING => (cd_ranking_metric_value a < cd_ranking_metric_value b)%Qc
  | DESCENDING => (cd_ranking_metric_value b < cd_ranking_metric_value a)%Qc
  end
  \/ cd_ranking_metric_value a = cd_ranking_metric_value b
     /\ instrument_key_leb (cd_instrument a) (cd_instrument b) = true.

Definition candidate_of (strategy_id : string) (state : SnapshotState)
    (policy : ScannerRankingPolicy) (rank : Z) (p : Decimal * CandidateRecord) : ScannerCandidate := {|
  cd_instrument := cr_instrument p.2; cd_strategy_id := strategy_id;
  cd_strategy_version := st_strategy_version state;
  cd_config_version := st_config_version state; cd_status := MATCHED;
  cd_ranking_metric_name := rp_metric_name policy; cd_ranking_metric_value := p.1; cd_rank := rank |}.

Lemma candidates_from_lookup sid st policy rank l (k : nat) :
  candidates_from sid st policy rank l !! k = candidate_of sid st policy (rank + Z.of_nat k) <$> l !! k.
Proof.
  revert rank k. induction l as [|[v r] l IH]; intros rank k; [done|].
  destruct k as [|k]; cbn [candidates_from lookup list_lookup fmap option_fmap option_map].
  - by rewrite Z.add_0_r.
  - rewrite IH. by replace (rank + 1 + Z.of_nat k) with (rank + Z.of_nat (S k)) by lia.
Qed.

Lemma candidates_from_elem sid st policy rank l c :
  c ∈ candidates_from sid st policy rank l ->
  exists p, p ∈ l /\ cd_instrument c = cr_instrument p.2 /\ cd_ranking_metric_value c = p.1.
Proof.
  intros (k & Hk)%list_elem_of_lookup. rewrite candidates_from_lookup in Hk.
  destruct (l !! k) as [p|] eqn:E; [|done]. injection Hk as <-. exists p.
  split; [by eapply list_elem_of_lookup_2|done].
Qed.

Lemma candidates_from_elem' sid st policy rank l p :
  p ∈ l -> exists c, c ∈ candidates_from sid st policy rank l
    /\ cd_instrument c = cr_instrument p.2 /\ cd_ranking_metric_value c = p.1.
Proof.
  intros (k & Hk)%list_elem_of_lookup. exists (candidate_of sid st policy (rank + Z.of_nat k) p).
  split; [|done]. apply list_elem_of_lookup. exists k. by rewrite candidates_from_lookup, Hk.
Qed.

Lemma length_candidates_from sid st policy rank l :
  length (candidates_from sid st policy rank l) = length l.
Proof. revert rank. induction l as [|[v r] l IH]; intros rank; cbn; [done|]. by rewrite IH. Qed.

Lemma candidates_sorted sid st policy rank l :
  Forall (fun p => representable p.1) l ->
  StronglySorted (fun a b => record_leb policy a b = true) l ->
  StronglySorted (ranks_before (rp_ordering policy)) (candidates_from sid st policy rank l).
Proof.
  intros Hrep Hs. revert rank Hrep. induction Hs as [|[v r] l Hs IH Hall]; intros rank Hrep; cbn; [constructor|].
  apply Forall_cons in Hrep as [Hv Hrep]. constructor; [by apply IH|].
  apply Forall_forall. intros c (p & Hp & Hi & Hval)%candidates_from_elem.
  rewrite Forall_forall in Hall, Hrep. specialize (Hall _ Hp). specialize (Hrep _ Hp). cbn in Hv.
  apply record_leb_spec in Hall. cbn [fst snd] in Hall.
  rewrite !rank_key_exact in Hall by done. unfold ranks_before. cbn [cd_ranking_metric_value cd_instrument].
  rewrite Hi, Hval. destruct (rp_ordering policy).
  - exact Hall.
  - rewrite bool_decide_true in Hall by done. destruct Hall as [Hlt|[E T]]; [left|right].
    + unfold Qclt in *. rewrite !this_opp in Hlt. lra.
    + split; [|done]. apply (f_equal Qcopp) in E. by rewrite !Qcopp_involutive in E.
Qed.

Lemma eligible_records_elem records v r :
  (v, r) ∈ eligible_records records <->
  r ∈ records.*2 /\ cr_status r = MATCHED /\ cr_metric_value r = Some v.
Proof.
  unfold eligible_records. rewrite list_elem_of_omap. unfold eligible. split.
  - intros (x & Hx & H). destruct (cr_metric_value x) as [w|] eqn:E; [|by case_match].
    case_bool_decide as Hst; [|done]. injection H as -> ->. done.
  - intros (Hr & Hst & Hv). exists r. split; [done|]. by rewrite Hv, bool_decide_true.
Qed.

(** ** Reachable scanners *)

(** What every stored state of a reachable scanner satisfies. *)
Definition state_ok (u : gset Instrument) (st : SnapshotState) : Prop :=
  NoDup (st_records st).*1
  /\ forall i record, dict_get i (st_records st) = Some record ->
       cr_instrument record = i /\ i ∈ u.

Lemma session_of_elem l d first rs r :
  session_of l = Some (d, first, rs) -> r ∈ rs -> (d, r) ∈ l.
Proof.
  unfold session_of. destruct (latest_date l) as [d'|]; [|done]. cbn [mbind option_bind].
  destruct (filter (fun p => p.1 = d') l).*2 as [|f rest] eqn:E; [done|].
  intros [= -> -> <-] [_ Hr]%list_elem_of_filter. rewrite <- E in Hr.
  apply list_elem_of_fmap in Hr as ([d0 r0] & -> & [Hd Hin]%list_elem_of_filter).
  cbn in Hd. by subst.
Qed.

Lemma reachable_state_ok instruments registry events strategy_id policy st :
  let s := foldl scanner_handle (mk_scanner instruments registry) events in
  dict_get strategy_id registry = Some policy ->
  dict_get strategy_id (snapshots s) = Some st -> state_ok (universe s) st.
Proof.
  cbn zeta. intros Hp. rewrite handle_all_results, (ingest_all_get _ _ _ policy) by done.
  destruct (ingest_all_fixed (results_of events) (mk_scanner instruments registry)) as [-> _].
  set (init := mk_scanner instruments registry).
  set (l := filter (relevant init strategy_id) (results_of events)).
  cbn [snapshots init mk_scanner dict_get]. intros Hst.
  pose proof (absorb_all_represents policy l) as H. change (snapshots init) with (@nil (string * SnapshotState)) in Hst.
  cbn [dict_get] in Hst. rewrite Hst in H.
  destruct (session_of l) as [[[d first] rs]|] eqn:Es; [|done].
  destruct H as (_ & _ & _ & Hn & Hr). split; [done|]. intros i record Hi.
  specialize (Hr i). rewrite Hi in Hr. destruct Hr as (r & (l1 & l2 & -> & Hri & _) & ->).
  split; [done|].
  assert (Hin : (d, r) ∈ l) by (eapply session_of_elem; [exact Es|set_solver]).
  apply list_elem_of_filter in Hin as [(_ & Hu & _) _]. cbn [snd] in Hu. by rewrite <- Hri.
Qed.

Lemma eligible_nodup u st : state_ok u st ->
  NoDup ((fun p : Decimal * CandidateRecord => cr_instrument p.2) <$> eligible_records (st_records st)).
Proof.
  intros [Hn Hk].
  assert (Hkeys : Forall (fun kv : Instrument * CandidateRecord => cr_instrument kv.2 = kv.1) (st_records st)).
  { apply Forall_forall. intros [i r] Hin. cbn. apply (dict_elem_get i r) in Hin; [|done]. by apply Hk. }
  clear Hk. revert Hn Hkeys. generalize (st_records st) as d. induction d as [|[i r] d IH]; [constructor|].
  cbn [fmap list_fmap fst]. intros [Hni Hn]%NoDup_cons [Hir Hkeys]%Forall_cons. cbn in Hir.
  unfold eligible_records. cbn [fmap list_fmap snd omap list_omap]. fold (eligible_records d).
  specialize (IH Hn Hkeys).
  destruct (if eligible r then (fun v => (v, r)) <$> cr_metric_value r else None) as [p|] eqn:E; [|exact IH]. cbn. constructor; [|exact IH].
  assert (q : p.2 = r) by (destruct (eligible r), (cr_metric_value r); cbn in E; by simplify_eq).
  rewrite q, Hir. intros ([v r'] & Hv & Hin)%list_elem_of_fmap. apply Hni. rewrite Hv. cbn.
  apply eligible_records_elem in Hin as [Hin _].
  apply list_elem_of_fmap in Hin as ([j r''] & -> & Hj). rewrite Forall_forall in Hkeys.
  specialize (Hkeys _ Hj). cbn in *. rewrite Hkeys. by apply (list_elem_of_fmap_2 fst) in Hj.
Qed.

Lemma candidates_instruments sid st policy rank l :
  cd_instrument <$> candidates_from sid st policy rank l
  = (fun p : Decimal * CandidateRecord => cr_instrument p.2) <$> l.
Proof. revert rank. induction l as [|[v r] l IH]; intros rank; cbn; [done|]. by rewrite <- (IH (rank + 1)). Qed.

Lemma candidates_ranks sid st policy rank l :
  cd_rank <$> candidates_from sid st policy rank l = seqZ rank (Z.of_nat (length l)).
Proof.
  revert rank. induction l as [|[v r] l IH]; intros rank; cbn [candidates_from length]; [done|].
  rewrite seqZ_cons by lia. cbn. f_equal. rewrite IH. f_equal; lia.
Qed.

Lemma eligible_in_dict u st v r : state_ok u st ->
  (v, r) ∈ eligible_records (st_records st) ->
  exists record, dict_get (cr_instrument r) (st_records st) = Some record
    /\ cr_status record = MATCHED /\ cr_metric_value record = Some v.
Proof.
  intros [Hn Hk] (Hr & Hm & Hv)%eligible_records_elem.
  apply list_elem_of_fmap in Hr as ([i r'] & -> & Hin). cbn in *.
  apply (dict_elem_get i r') in Hin; [|done]. destruct (Hk _ _ Hin) as [-> _]. by exists r'.
Qed.

Lemma length_eligible d : (length (eligible_records d) <= length d)%nat.
Proof.
  induction d as [|[i r] d IH]; [done|]. unfold eligible_records in *. cbn.
  destruct (eligible r), (cr_metric_value r); cbn; lia.
Qed.

Lemma state_keys_universe u st i : state_ok u st -> i ∈ (st_records st).*1 -> i ∈ u.
Proof.
  intros [Hn Hk] Hi. destruct (dict_get i (st_records st)) as [r|] eqn:E; [by apply (Hk i r)|].
  by apply dict_get_none in E.
Qed.

Lemma records_bounded s st : state_ok (universe s) st ->
  Z.of_nat (length (st_records st)) <= expected_count s.
Proof.
  intros Hok. pose proof Hok as [Hn _]. unfold expected_count. apply Nat2Z.inj_le.
  rewrite <- (length_fmap fst), <- (size_list_to_set (C := gset Instrument)) by done.
  apply subseteq_size. intros i Hi. apply elem_of_list_to_set in Hi.
  by eapply state_keys_universe.
Qed.

Lemma complete_iff s st : state_ok (universe s) st ->
  (if Z.of_nat (length (st_records st)) =? expected_count s then SNAPSHOT_COMPLETE
   else SNAPSHOT_PARTIAL) = SNAPSHOT_COMPLETE
  <-> forall i, i ∈ universe s -> is_Some (dict_get i (st_records st)).
Proof.
  intros Hok. pose proof Hok as [Hn Hk]. set (keys := list_to_set (st_records st).*1 : gset Instrument).
  assert (Hsub : keys ⊆ universe s).
  { intros i Hi. apply elem_of_list_to_set in Hi. by eapply state_keys_universe. }
  assert (Hsize : size keys = length (st_records st))
    by (unfold keys; by rewrite size_list_to_set, length_fmap).
  assert (Hmem : forall i, i ∈ keys <-> is_Some (dict_get i (st_records st))).
  { intros i. unfold keys. rewrite elem_of_list_to_set, <- not_eq_None_Some, dict_get_none.
    destruct (decide (i ∈ (st_records st).*1)); tauto. }
  unfold expected_count. split.
  - case_match eqn:E; [|done]. intros _ i Hi. apply Hmem. apply Z.eqb_eq in E.
    assert (keys = universe s) as -> by (apply set_eq, set_subseteq_size_equiv; [done|lia]). done.
  - intros Hall. assert (universe s = keys) as ->.
    { apply leibniz_equiv. intros i. split; [by intros ?%Hall%Hmem|apply Hsub]. }
    by rewrite Hsize, Z.eqb_refl.
Qed.

(** Of any reachable scanner a snapshot lists exactly the instruments whose
    record is a match with a metric value, each once and all of the universe, with
    ranks 1, 2, 3, ...; when the values have at most 28 digits they are in the
    order of the policy, ties by exchange and symbol; at most the universe is
    evaluated, and the snapshot is COMPLETE exactly when every instrument of the
    universe has reported. *)
Theorem scanner_snapshot_correct instruments registry events strategy_id snap :
  let s := foldl scanner_handle (mk_scanner instruments registry) events in
  scanner_snapshot s strategy_id = Some snap ->
  exists policy st, dict_get strategy_id registry = Some policy
    /\ dict_get strategy_id (snapshots s) = Some st
    /\ (forall i v, (exists c, c ∈ sn_candidates snap /\ cd_instrument c = i
                              /\ cd_ranking_metric_value c = v)
         <-> (exists record, dict_get i (st_records st) = Some record
               /\ cr_status record = MATCHED /\ cr_metric_value record = Some v))
    /\ NoDup (cd_instrument <$> sn_candidates snap)
    /\ cd_rank <$> sn_candidates snap = seqZ 1 (sn_eligible_count snap)
    /\ (Forall (fun c => representable (cd_ranking_metric_value c)) (sn_candidates snap) ->
        StronglySorted (ranks_before (rp_ordering policy)) (sn_candidates snap))
    /\ sn_eligible_count snap <= sn_evaluated_count snap <= sn_expected_count snap
    /\ (sn_completeness snap = SNAPSHOT_COMPLETE
        <-> forall i, i ∈ universe s -> is_Some (dict_get i (st_records st))).
Proof.
  cbn zeta. set (s := foldl scanner_handle (mk_scanner instruments registry) events). intros Hsnap.
  assert (Hpol : policies s = registry).
  { unfold s. rewrite handle_all_results. apply ingest_all_fixed. }
  unfold scanner_snapshot in Hsnap.
  destruct (dict_get strategy_id (snapshots s)) as [st|] eqn:Hst; [|done].
  cbn [mbind option_bind] in Hsnap. rewrite Hpol in Hsnap.
  destruct (dict_get strategy_id registry) as [policy|] eqn:Hp; [|done].
  cbn [mbind option_bind] in Hsnap. injection Hsnap as <-. cbn [sn_candidates sn_eligible_count
    sn_evaluated_count sn_expected_count sn_completeness].
  exists policy, st. split; [done|]. split; [done|].
  pose proof (reachable_state_ok instruments registry events strategy_id policy st Hp Hst) as Hok.
  fold s in Hok. pose proof Hok as [Hn Hk].
  set (l := py_sorted (record_leb policy) (eligible_records (st_records st))).
  assert (Hperm : l ≡ₚ eligible_records (st_records st)) by apply py_sorted_perm.
  split_and!.
  - intros i v. split.
    + intros (c & ([w r] & Hin & -> & ->)%candidates_from_elem & <- & <-). cbn.
      rewrite Hperm in Hin. by apply (eligible_in_dict (universe s)).
    + intros (r & Hr & Hm & Hv). destruct (Hk _ _ Hr) as [Hri _].
      destruct (candidates_from_elem' strategy_id st policy 1 l (v, r)) as (c & Hc & Hci & Hcv).
      { rewrite Hperm. apply eligible_records_elem. split; [|done].
        apply dict_get_elem in Hr. by apply (list_elem_of_fmap_2 snd) in Hr. }
      exists c. rewrite Hci, Hcv. done.
  - rewrite candidates_instruments, Hperm. by apply (eligible_nodup (universe s)).
  - by rewrite candidates_ranks, length_candidates_from.
  - intros Hrep. apply candidates_sorted.
    + apply Forall_forall. intros p Hin.
      destruct (candidates_from_elem' strategy_id st policy 1 l p Hin) as (c & Hc & _ & <-).
      by eapply Forall_forall in Hrep.
    + apply py_sorted_sorted; [apply record_leb_total|apply record_leb_trans].
  - rewrite length_candidates_from, Hperm. apply Nat2Z.inj_le, length_eligible.
  - by apply records_bounded.
  - by apply complete_iff.
Qed.

Definition sample_snapshot : option ScannerSnapshot :=
  scanner_snapshot sample_scanner "previous_session_range_pct".

Lemma sample_snapshot_some : is_Some sample_snapshot.
Proof. apply not_eq_None_Some. intros H. vm_compute in H. discriminate H. Qed.

Lemma scanner_snapshot_correct_witness :
  exists snap, scanner_snapshot sample_scanner "previous_session_range_pct" = Some snap
    /\ NoDup (cd_instrument <$> sn_candidates snap).
Proof.
  destruct sample_snapshot_some as [snap E]. exists snap. split; [exact E|].
  destruct (scanner_snapshot_correct [reliance; infy] sample_registry sample_events
    "previous_session_range_pct" snap E) as (policy & st & _ & _ & _ & Hn & _). exact Hn.
Defined.
