(* ===== verification/Implementations.v ===== *)
(** The concrete strategies of strategies/implementations and the production
    catalogue ([services/strategy_catalog.py]).

    Each strategy is a [Strategy] of the contract layer: a declared descriptor,
    declared requirements and a pure [evaluate].  The previous-session strategies
    compute under a local decimal context; [open_extreme] uses the ambient one,
    whose default is the same 28 digits.  The theorems say that no strategy
    raises on constructed data, what it decides, on which part of the context the
    answer depends, and that every match carries the metric the catalogue ranks by. *)
From S2P Require Import Prelude DecimalContext PyTime PyDate MarketData Timeframe Session Context.
From S2P Require Import Requirements Strategy Emission StrategyManager Samples Calculators Scanner.

Local Open Scope Z_scope.

(** * Configurations *)

(** The subclasses of [StrategyConfiguration] and their fields. *)
Inductive StrategyConfiguration : Type :=
| NarrowCprConfiguration (config_version : string) (narrow_cpr_max_width_pct : option Decimal)
| PreviousSessionRangePctConfiguration (config_version : string)
| PreviousSessionBodyPctConfiguration (config_version : string)
| PreviousSessionRelativeRangeConfiguration (config_version : string)
| OpenExtremeConfiguration (config_version : string).

(** * Shared pieces *)

Definition decimal_metric (name : string) (d : Decimal) : MetricEntry :=
  {| me_name := name; me_value := MDecimal d |}.
Definition text_metric (name s : string) : MetricEntry := {| me_name := name; me_value := MStr s |}.

(** [StrategyEvaluation(instrument=..., context_version=..., status=..., score=None,
    reason_codes=(reason,), metrics=...)] *)
Definition evaluation (context : MarketContext) (status : EvaluationStatus) (reason : string)
    (metrics : list MetricEntry) : result StrategyEvaluation :=
  mk_evaluation {| ev_instrument := mc_instrument context; ev_context_version := mc_version context;
    ev_status := status; ev_score := None; ev_confidence := None; ev_reason_codes := [reason];
    ev_metrics := metrics; ev_diagnostics := [] |}.

(** [_previous_session] *)
Definition previous_session_of (context : MarketContext) : option PreviousSessionFacts :=
  historical ← mc_historical context; hc_previous_session historical.

(** The declared identity of a strategy: version 1.0.0, no context version bound. *)
Definition declared (strategy_id display_name description : string) (category : StrategyCategory)
    (policy : EmissionPolicy) : StrategyDescriptor := {|
  sd_strategy_id := strategy_id; sd_display_name := display_name; sd_description := description;
  sd_version := "1.0.0"; sd_category := category; sd_emission_policy := policy;
  sd_min_context_version := 1; sd_max_context_version := None |}.

(** [_REQUIREMENTS] of the previous-session strategies. *)
Definition session_requirements (sessions : Z) : StrategyRequirements := {|
  sr_historical := [{| req_timeframe := session_timeframe; lookback := sessions |}];
  sr_live_timeframes := []; sr_fact_needs := [PREVIOUS_SESSION];
  sr_trigger := ON_HISTORICAL_READY; sr_candle_completeness := AUTHORITATIVE_ONLY;
  sr_min_context_version := 1; sr_freshness := [] |}.

(** * Narrow CPR *)

(** [_threshold] *)
Definition cpr_threshold (configuration : StrategyConfiguration) : result (option Decimal) :=
  match configuration with
  | NarrowCprConfiguration _ threshold => Ok threshold
  | _ => Raise (TypeError "NarrowCprStrategy requires a NarrowCprConfiguration")
  end.

(** [_classify] *)
Definition cpr_classify (r : CprResult) (threshold : option Decimal) : EvaluationStatus * string :=
  match threshold with
  | None => (MATCHED, "NARROW_CPR_VALID")
  | Some t => if dec_leb (cpr_width_pct r) t then (MATCHED, "NARROW_CPR_WITHIN_THRESHOLD")
              else (NO_MATCH, "NARROW_CPR_ABOVE_THRESHOLD")
  end.

(** [_metrics] *)
Definition cpr_metrics (r : CprResult) (previous : PreviousSessionFacts) : list MetricEntry :=
  let candle := ps_candle previous in
  [ decimal_metric "cpr_width_pct" (cpr_width_pct r); decimal_metric "pivot" (cpr_pivot r);
    decimal_metric "bc" (cpr_bc r); decimal_metric "tc" (cpr_tc r);
    decimal_metric "cpr_top" (cpr_top r); decimal_metric "cpr_bottom" (cpr_bottom r);
    decimal_metric "cpr_width" (cpr_width r); decimal_metric "previous_high" (high_price candle);
    decimal_metric "previous_low" (low_price candle);
    decimal_metric "previous_close" (close_price candle);
    text_metric "source_session_date" (isoformat (ps_trading_date previous)) ].

Definition narrow_cpr_evaluate (context : MarketContext) (configuration : StrategyConfiguration)
    (_ : StrategyEvaluationMetadata) : result StrategyEvaluation :=
  match previous_session_of context with
  | None => evaluation context SKIPPED "NARROW_CPR_NO_PREVIOUS_SESSION" []
  | Some previous =>
      threshold ← cpr_threshold configuration;
      let candle := ps_candle previous in
      r ← compute_cpr (high_price candle) (low_price candle) (close_price candle);
      let '(status, reason) := cpr_classify r threshold in
      evaluation context status reason (cpr_metrics r previous)
  end.

Definition NarrowCprStrategy : Strategy StrategyConfiguration := {|
  descriptor := declared "narrow_cpr" "Narrow CPR"
    "Ranks instruments by the narrowness of today's Central Pivot Range derived from the previous completed trading session. A non-directional compression/context feature — never a buy/sell signal."
    MARKET_STRUCTURE ONE_SHOT_PER_SESSION;
  requirements := session_requirements 1;
  accepts := fun c => match c with NarrowCprConfiguration _ _ => true | _ => false end;
  evaluate := narrow_cpr_evaluate |}.

(** * Previous-session range and body *)

Definition range_metrics (r : PreviousSessionRangeResult) (previous : PreviousSessionFacts)
    : list MetricEntry :=
  let candle := ps_candle previous in
  [ decimal_metric "previous_range_pct" (previous_range_pct r);
    decimal_metric "previous_range" (previous_range r);
    decimal_metric "previous_open" (open_price candle);
    decimal_metric "previous_high" (high_price candle);
    decimal_metric "previous_low" (low_price candle);
    decimal_metric "previous_close" (close_price candle);
    text_metric "source_session_date" (isoformat (ps_trading_date previous)) ].

Definition range_pct_evaluate (context : MarketContext) (configuration : StrategyConfiguration)
    (_ : StrategyEvaluationMetadata) : result StrategyEvaluation :=
  match configuration with
  | PreviousSessionRangePctConfiguration _ =>
      match previous_session_of context with
      | None => evaluation context SKIPPED "PREVIOUS_SESSION_RANGE_NO_PREVIOUS" []
      | Some previous =>
          let candle := ps_candle previous in
          r ← compute_previous_session_range (open_price candle) (high_price candle) (low_price candle);
          evaluation context MATCHED "PREVIOUS_SESSION_RANGE_VALID" (range_metrics r previous)
      end
  | _ => Raise (TypeError "PreviousSessionRangePctStrategy requires a PreviousSessionRangePctConfiguration")
  end.

Definition PreviousSessionRangePctStrategy : Strategy StrategyConfiguration := {|
  descriptor := declared "previous_session_range_pct" "Previous Session Range %"
    "Ranks instruments by the previous completed trading session's range as a percentage of its open (largest range first). A non-directional range-expansion feature — never a buy/sell signal."
    MARKET_STRUCTURE ONE_SHOT_PER_SESSION;
  requirements := session_requirements 1;
  accepts := fun c => match c with PreviousSessionRangePctConfiguration _ => true | _ => false end;
  evaluate := range_pct_evaluate |}.

Definition body_metrics (r : PreviousSessionBodyResult) (previous : PreviousSessionFacts)
    : list MetricEntry :=
  let candle := ps_candle previous in
  [ decimal_metric "previous_body_pct" (previous_body_pct r);
    decimal_metric "previous_body" (previous_body r);
    decimal_metric "previous_open" (open_price candle);
    decimal_metric "previous_close" (close_price candle);
    text_metric "source_session_date" (isoformat (ps_trading_date previous)) ].

Definition body_pct_evaluate (context : MarketContext) (configuration : StrategyConfiguration)
    (_ : StrategyEvaluationMetadata) : result StrategyEvaluation :=
  match configuration with
  | PreviousSessionBodyPctConfiguration _ =>
      match previous_session_of context with
      | None => evaluation context SKIPPED "PREVIOUS_SESSION_BODY_NO_PREVIOUS" []
      | Some previous =>
          let candle := ps_candle previous in
          r ← compute_previous_session_body (open_price candle) (close_price candle);
          evaluation context MATCHED "PREVIOUS_SESSION_BODY_VALID" (body_metrics r previous)
      end
  | _ => Raise (TypeError "PreviousSessionBodyPctStrategy requires a PreviousSessionBodyPctConfiguration")
  end.

Definition PreviousSessionBodyPctStrategy : Strategy StrategyConfiguration := {|
  descriptor := declared "previous_session_body_pct" "Previous Session Body %"
    "Ranks instruments by the absolute candle-body size of the previous completed trading session as a percentage of its open (largest body first). A non-directional magnitude feature — never a buy/sell signal."
    MARKET_STRUCTURE ONE_SHOT_PER_SESSION;
  requirements := session_requirements 1;
  accepts := fun c => match c with PreviousSessionBodyPctConfiguration _ => true | _ => false end;
  evaluate := body_pct_evaluate |}.

(** * Previous-session relative range *)

Definition BASELINE_SESSIONS : Z := 20.
Definition REQUIRED_SESSIONS : nat := 21.

(** [_session_series] *)
Definition session_series (context : MarketContext) : option HistoricalSeries :=
  historical ← mc_historical context;
  List.find (fun series => is_session (hs_timeframe series)) (hc_series historical).

Definition ohl (c : Candle) : Decimal * Decimal * Decimal := (open_price c, high_price c, low_price c).

Definition relative_range_metrics (r : PreviousSessionRelativeRangeResult)
    (previous : PreviousSessionFacts) : list MetricEntry :=
  [ decimal_metric "relative_range_ratio" (relative_range_ratio r);
    decimal_metric "previous_range_pct" (rr_previous_range_pct r);
    decimal_metric "baseline_range_pct" (baseline_range_pct r);
    {| me_name := "baseline_sessions"; me_value := MInt BASELINE_SESSIONS |};
    text_metric "source_session_date" (isoformat (ps_trading_date previous)) ].

Definition relative_range_evaluate (context : MarketContext)
    (configuration : StrategyConfiguration) (_ : StrategyEvaluationMetadata)
    : result StrategyEvaluation :=
  match configuration with
  | PreviousSessionRelativeRangeConfiguration _ =>
      match session_series context, previous_session_of context with
      | Some series, Some previous =>
          if negb (length (hs_candles series) =? REQUIRED_SESSIONS)%nat
          then evaluation context SKIPPED "PREVIOUS_SESSION_RELATIVE_RANGE_NO_HISTORY" []
          else match last (hs_candles series) with
               | None => Raise IndexError
               | Some subject =>
                   match compute_previous_session_relative_range (ohl subject)
                           (ohl <$> removelast (hs_candles series)) with
                   | Ok r => evaluation context MATCHED "PREVIOUS_SESSION_RELATIVE_RANGE_VALID"
                               (relative_range_metrics r previous)
                   | Raise DegenerateBaselineError =>
                       evaluation context SKIPPED
                         "PREVIOUS_SESSION_RELATIVE_RANGE_DEGENERATE_BASELINE" []
                   | Raise e => Raise e
                   end
               end
      | _, _ => evaluation context SKIPPED "PREVIOUS_SESSION_RELATIVE_RANGE_NO_HISTORY" []
      end
  | _ => Raise (TypeError "PreviousSessionRelativeRangeStrategy requires a PreviousSessionRelativeRangeConfiguration")
  end.

Definition PreviousSessionRelativeRangeStrategy : Strategy StrategyConfiguration := {|
  descriptor := declared "previous_session_relative_range" "Previous Session Relative Range"
    "Ranks instruments by how compressed the previous completed session's normalized range was relative to the instrument's own 20-session median. A non-directional historical compression feature — never a buy/sell signal."
    MARKET_STRUCTURE ONE_SHOT_PER_SESSION;
  requirements := session_requirements (Z.of_nat REQUIRED_SESSIONS);
  accepts := fun c => match c with PreviousSessionRelativeRangeConfiguration _ => true | _ => false end;
  evaluate := relative_range_evaluate |}.

(** * Open = High and Open = Low *)

(** [_REQUIREMENTS]: authoritative session statistics not older than two minutes. *)
Definition open_extreme_requirements : StrategyRequirements := {|
  sr_historical := []; sr_live_timeframes := [];
  sr_fact_needs := [SESSION_FACT; SESSION_STATISTICS]; sr_trigger := ON_TICK;
  sr_candle_completeness := AUTHORITATIVE_ONLY; sr_min_context_version := 1;
  sr_freshness := [{| fr_fact := SESSION_STATISTICS; fr_max_age := 2 * us_per_minute |}] |}.

(** [_authoritative_statistics] *)
Definition authoritative_statistics (context : MarketContext) : option SessionStatistics :=
  statistics ← mc_session_statistics context;
  if bool_decide (ss_quality statistics = AUTHORITATIVE) then Some statistics else None.

(** [_session_metrics] *)
Definition session_metrics (statistics : SessionStatistics) : result (list MetricEntry) :=
  match ss_open_price statistics, ss_high_price statistics, ss_low_price statistics with
  | Some o, Some h, Some l =>
      ratio ← ctx_div (ctx_sub h l) o;
      Ok [ decimal_metric "session_range_pct" (ctx_mul ratio HUNDRED);
           decimal_metric "session_open" o; decimal_metric "session_high" h;
           decimal_metric "session_low" l ]
  | _, _, _ => Raise AssertionError
  end.

(** [_evaluate_open_extreme] *)
Definition evaluate_open_extreme (context : MarketContext) (match_when_equals_high : bool)
    (matched_reason no_match_reason : string) : result StrategyEvaluation :=
  match authoritative_statistics context with
  | None => evaluation context SKIPPED "SESSION_STATISTICS_UNAVAILABLE" []
  | Some statistics =>
      let extreme := if match_when_equals_high then ss_high_price statistics
                     else ss_low_price statistics in
      let matched := bool_decide (ss_open_price statistics = extreme) in
      metrics ← session_metrics statistics;
      evaluation context (if matched then MATCHED else NO_MATCH)
        (if matched then matched_reason else no_match_reason) metrics
  end.

Definition is_open_extreme (c : StrategyConfiguration) : bool :=
  match c with OpenExtremeConfiguration _ => true | _ => false end.

Definition OpenHighStrategy : Strategy StrategyConfiguration := {|
  descriptor := declared "open_high" "Open = High"
    "Flags instruments whose authoritative current-session open equals the session high (the session has not traded above its open) — a bearish opening-structure scanner feature, never a buy/sell signal."
    OPENING_SESSION EDGE_TRIGGERED;
  requirements := open_extreme_requirements;
  accepts := is_open_extreme;
  evaluate := fun context _ _ =>
    evaluate_open_extreme context true "OPEN_EQUALS_HIGH" "HIGH_ABOVE_OPEN" |}.

Definition OpenLowStrategy : Strategy StrategyConfiguration := {|
  descriptor := declared "open_low" "Open = Low"
    "Flags instruments whose authoritative current-session open equals the session low (the session has not traded below its open) — a bullish opening-structure scanner feature, never a buy/sell signal."
    OPENING_SESSION EDGE_TRIGGERED;
  requirements := open_extreme_requirements;
  accepts := is_open_extreme;
  evaluate := fun context _ _ =>
    evaluate_open_extreme context false "OPEN_EQUALS_LOW" "LOW_BELOW_OPEN" |}.

(** * The catalogue *)

Record StrategyCatalogEntry : Type := {
  ce_strategy : Strategy StrategyConfiguration;
  ce_configuration : StrategyConfiguration;
  ce_ranking_policy : option ScannerRankingPolicy;
}.

Definition entry_strategy_id (self : StrategyCatalogEntry) : string :=
  sd_strategy_id (descriptor (ce_strategy self)).

(** [__post_init__] *)
Definition mk_catalog_entry (self : StrategyCatalogEntry) : result StrategyCatalogEntry :=
  _ ← raise_if (negb (accepts (ce_strategy self) (ce_configuration self)))
    (ValueError "configuration does not match the strategy");
  _ ← raise_if (match ce_ranking_policy self with
                | Some p => negb (bool_decide (rp_strategy_id p = entry_strategy_id self))
                | None => false
                end)
    (ValueError "ranking policy strategy_id does not match strategy id");
  Ok self.

Definition StrategyCatalog : Type := dict string StrategyCatalogEntry.

(** [StrategyCatalog(entries)] *)
Definition mk_catalog (entries : list StrategyCatalogEntry) : result StrategyCatalog :=
  foldl (fun acc entry =>
           by_id ← acc;
           _ ← raise_if (is_not_none (dict_get (entry_strategy_id entry) by_id))
             (ValueError "duplicate strategy id in catalog");
           Ok (dict_set (entry_strategy_id entry) entry by_id)) (Ok []) entries.

(** [resolve] *)
Definition resolve_enabled (self : StrategyCatalog) (enabled_ids : list string)
    : result (list StrategyCatalogEntry) :=
  traverse (fun strategy_id => match dict_get strategy_id self with
                               | Some entry => Ok entry
                               | None => Raise (UnknownEnabledStrategyError strategy_id)
                               end) enabled_ids.

Definition ranked_entry (s : Strategy StrategyConfiguration) (c : StrategyConfiguration)
    (strategy_id metric_name : string) (ordering : ScannerOrdering) : result StrategyCatalogEntry :=
  policy ← mk_ranking_policy {| rp_strategy_id := strategy_id; rp_metric_name := metric_name;
                                rp_ordering := ordering |};
  mk_catalog_entry {| ce_strategy := s; ce_configuration := c; ce_ranking_policy := Some policy |}.

(** The arguments of [production_catalog], in order. *)
Definition production_entries : list (result StrategyCatalogEntry) := [
  ranked_entry NarrowCprStrategy (NarrowCprConfiguration "1.0.0" None)
    "narrow_cpr" "cpr_width_pct" ASCENDING;
  ranked_entry PreviousSessionRangePctStrategy (PreviousSessionRangePctConfiguration "1.0.0")
    "previous_session_range_pct" "previous_range_pct" DESCENDING;
  ranked_entry PreviousSessionBodyPctStrategy (PreviousSessionBodyPctConfiguration "1.0.0")
    "previous_session_body_pct" "previous_body_pct" DESCENDING;
  ranked_entry PreviousSessionRelativeRangeStrategy
    (PreviousSessionRelativeRangeConfiguration "1.0.0")
    "previous_session_relative_range" "relative_range_ratio" ASCENDING;
  ranked_entry OpenHighStrategy (OpenExtremeConfiguration "1.0.0")
    "open_high" "session_range_pct" DESCENDING;
  ranked_entry OpenLowStrategy (OpenExtremeConfiguration "1.0.0")
    "open_low" "session_range_pct" DESCENDING ].

Definition production_catalog : result StrategyCatalog :=
  entries ← traverse id production_entries; mk_catalog entries.

(** * Lemmas *)

(** ** Metrics *)

Lemma metric_value_elem metrics name d :
  metric_value metrics name = Some d -> decimal_metric name d ∈ metrics.
Proof.
  induction metrics as [|[n v] rest IH]; [done|]. cbn. case_bool_decide as Hn.
  - subst. destruct v; try done. intros [= ->]. left.
  - intros H. right. auto.
Qed.

Lemma metric_value_in metrics name d : NoDup (me_name <$> metrics) ->
  decimal_metric name d ∈ metrics -> metric_value metrics name = Some d.
Proof.
  induction metrics as [|[n v] rest IH]; [by intros _ ?%not_elem_of_nil|]. cbn.
  intros [Hn Hnd]%NoDup_cons [[= -> <-]|Hin]%elem_of_cons; [by rewrite bool_decide_true|].
  rewrite bool_decide_false; [auto|]. intros ->. apply Hn.
  by apply (list_elem_of_fmap_2 me_name) in Hin.
Qed.

(** The order of the entries does not matter to the scanner. *)
Lemma metric_value_perm l l' name : NoDup (me_name <$> l) -> l ≡ₚ l' ->
  metric_value l' name = metric_value l name.
Proof.
  intros Hn Hp. assert (Hn' : NoDup (me_name <$> l')) by (by rewrite <- Hp).
  destruct (metric_value l name) as [d|] eqn:E.
  - apply metric_value_in; [done|]. rewrite <- Hp. by apply metric_value_elem.
  - destruct (metric_value l' name) as [d|] eqn:E'; [|done].
    apply metric_value_elem in E'. rewrite <- Hp in E'. apply metric_value_in in E'; [|done]. congruence.
Qed.

(** ** Building evaluations *)

(** Names and reasons the constructor of an evaluation accepts. *)
Definition names_ok (reason : string) (names : list string) : bool :=
  reason_code_ok reason && py_all metric_name_ok names
  && (length (from_keys [] names) =? length names)%nat.

(** An evaluation with accepted names is built as given, its metrics sorted. *)
Lemma evaluation_ok context status reason metrics : 1 <= mc_version context ->
  names_ok reason (me_name <$> metrics) = true ->
  evaluation context status reason metrics = Ok {|
    ev_instrument := mc_instrument context; ev_context_version := mc_version context;
    ev_status := status; ev_score := None; ev_confidence := None; ev_reason_codes := [reason];
    ev_metrics := py_sorted metric_leb metrics; ev_diagnostics := [] |}.
Proof.
  intros Hv H. unfold names_ok in H. apply andb_true_iff in H as [[Hr Hn]%andb_true_iff Hl].
  unfold evaluation, mk_evaluation, validate_reason_codes, validate_metrics, matched_requires_reasons.
  cbn [ev_instrument ev_context_version ev_status ev_score ev_confidence ev_reason_codes ev_metrics
    ev_diagnostics py_all forallb].
  rewrite Hr, Hn, Hl. replace (mc_version context <? 1) with false by lia.
  cbn -[bool_decide py_sorted].
  rewrite (bool_decide_false (reason ∈ [])) by apply not_elem_of_nil. cbn -[bool_decide py_sorted].
  by rewrite andb_false_r.
Qed.

(** ** Constructed contexts *)

(** What the constructors of a [MarketContext] guarantee of the parts the strategies read. *)
Record context_constructed (c : MarketContext) : Prop := {
  cc_version : 1 <= mc_version c;
  cc_previous : forall p, previous_session_of c = Some p -> candle_valid (ps_candle p);
  cc_series : forall s, session_series c = Some s -> Forall candle_valid (hs_candles s);
  cc_statistics : forall s, mc_session_statistics c = Some s -> validate_quality_consistency s = Ok tt;
}.

(** The answer of a strategy on a context: an evaluation of that instrument and
    version, accepted by the constructor, with the given status, reason and metrics. *)
Definition answers (c : MarketContext) (status : EvaluationStatus) (reason : string)
    (metrics : list MetricEntry) (r : result StrategyEvaluation) : Prop :=
  r = Ok {| ev_instrument := mc_instrument c; ev_context_version := mc_version c;
            ev_status := status; ev_score := None; ev_confidence := None;
            ev_reason_codes := [reason]; ev_metrics := py_sorted metric_leb metrics;
            ev_diagnostics := [] |}.

(** The decimal facts a valid candle gives the calculators. *)
Lemma candle_prices c : candle_valid c ->
  (0 < this (low_price c))%Q /\ (0 < this (open_price c))%Q
  /\ (this (low_price c) <= this (close_price c))%Q /\ (this (close_price c) <= this (high_price c))%Q
  /\ (this (low_price c) <= this (high_price c))%Q.
Proof.
  intros [Hl Hol Hoh Hcl Hch _ _]. unfold Qclt, Qcle in *. change (this 0%Qc) with 0%Q in Hl.
  split_and!; lra.
Qed.

Lemma authoritative_prices s : validate_quality_consistency s = Ok tt -> ss_quality s = AUTHORITATIVE ->
  exists o h l, ss_open_price s = Some o /\ ss_high_price s = Some h /\ ss_low_price s = Some l
    /\ (0 < this o)%Q /\ (this l <= this o)%Q /\ (this o <= this h)%Q.
Proof.
  unfold validate_quality_consistency. intros ([] & Hpos%raise_if_ok & H)%bind_ok Hq. rewrite Hq in H.
  destruct (ss_open_price s) as [o|], (ss_high_price s) as [h|], (ss_low_price s) as [l|]; try done.
  apply bind_ok in H as ([] & _ & Hin%raise_if_ok).
  apply negb_false_iff, andb_true_iff in Hin as [Hlo%dec_leb_le Hoh%dec_leb_le].
  apply negb_false_iff, andb_true_iff in Hpos as [[Ho%dec_ltb_lt _]%andb_true_iff _].
  exists o, h, l. unfold Qclt, Qcle in *. change (this 0%Qc) with 0%Q in Ho. by split_and!.
Qed.

(** ** What each strategy answers *)

(** The scanner can rank a match: it finds the metric of the policy, a
    non-negative value of at most 28 digits. *)
Definition rankable_answer (c : MarketContext) (metric_name : string)
    (r : result StrategyEvaluation) : Prop :=
  exists status reason metrics, answers c status reason metrics r
    /\ status <> EVALUATION_ERROR
    /\ (status = MATCHED -> exists d,
          metric_value (py_sorted metric_leb metrics) metric_name = Some d
          /\ representable d /\ (0 <= d)%Qc).

Ltac names_checked := (lazy; reflexivity).

Lemma skipped_answer c metric reason r : context_constructed c ->
  r = evaluation c SKIPPED reason [] -> names_ok reason [] = true -> rankable_answer c metric r.
Proof.
  intros Hc -> Hn. exists SKIPPED, reason, []. split_and!; [|done|done].
  unfold answers. by rewrite evaluation_ok by (apply Hc || done).
Qed.

Lemma ranked_answer c status reason metric d rest r : context_constructed c ->
  r = evaluation c status reason (decimal_metric metric d :: rest) ->
  status <> EVALUATION_ERROR -> representable d -> (0 <= d)%Qc ->
  names_ok reason (metric :: (me_name <$> rest)) = true -> rankable_answer c metric r.
Proof.
  intros Hc -> Hst Hd Hpos Hn. exists status, reason, (decimal_metric metric d :: rest).
  split_and!; [|done|].
  - unfold answers. by rewrite evaluation_ok by (apply Hc || done).
  - intros _. exists d. split; [|done].
    apply andb_true_iff in Hn as [_ Hlen%Nat.eqb_eq].
    assert (Hnd : NoDup (me_name <$> (decimal_metric metric d :: rest)))
      by (by apply from_keys_length).
    rewrite (metric_value_perm _ _ _ Hnd (symmetry (py_sorted_perm metric_leb _))).
    cbn. by rewrite bool_decide_true.
Qed.

Lemma percent_representable x o : representable (percent x o).
Proof. apply ctx_round_representable. Qed.

Lemma previous_candle c p : context_constructed c -> previous_session_of c = Some p ->
  let k := ps_candle p in
  (0 < this (low_price k))%Q /\ (0 < this (open_price k))%Q
  /\ (this (low_price k) <= this (close_price k))%Q /\ (this (close_price k) <= this (high_price k))%Q
  /\ (this (low_price k) <= this (high_price k))%Q.
Proof. intros Hc Hp. apply candle_prices. by apply Hc. Qed.

Lemma narrow_cpr_rankable c cfg m : context_constructed c -> accepts NarrowCprStrategy cfg = true ->
  rankable_answer c "cpr_width_pct" (evaluate NarrowCprStrategy c cfg m).
Proof.
  intros Hc Hcfg. destruct cfg as [v t| | | |]; try done. cbn [evaluate NarrowCprStrategy].
  unfold narrow_cpr_evaluate. destruct (previous_session_of c) as [p|] eqn:Hp.
  2: { eapply skipped_answer; [done|reflexivity|names_checked]. }
  destruct (previous_candle c p Hc Hp) as (Hl & _ & Hlc & Hch & _).
  cbn [cpr_threshold]. rewrite bind_value, compute_cpr_eq, bind_value by done.
  set (r := Build_CprResult _ _ _ _ _ _ _).
  destruct (cpr_width_bound _ _ _ Hl Hlc Hch) as [Hw _].
  destruct (cpr_pivot_pos _ _ _ Hl Hlc Hch) as [Hpv _].
  assert (Hpos : (0 <= cpr_width_pct r)%Qc) by (apply percent_nonneg; [exact Hw|lra]).
  assert (Hrep : representable (cpr_width_pct r)) by apply percent_representable.
  unfold cpr_classify. destruct t as [t|]; [destruct (dec_leb (cpr_width_pct r) t)|];
    (eapply ranked_answer; [done|reflexivity|done|exact Hrep|exact Hpos|names_checked]).
Qed.

Lemma range_pct_rankable c cfg m : context_constructed c ->
  accepts PreviousSessionRangePctStrategy cfg = true ->
  rankable_answer c "previous_range_pct" (evaluate PreviousSessionRangePctStrategy c cfg m).
Proof.
  intros Hc Hcfg. destruct cfg as [|v| | |]; try done. cbn [evaluate PreviousSessionRangePctStrategy].
  unfold range_pct_evaluate. destruct (previous_session_of c) as [p|] eqn:Hp.
  2: { eapply skipped_answer; [done|reflexivity|names_checked]. }
  destruct (previous_candle c p Hc Hp) as (_ & Ho & _ & _ & Hlh).
  rewrite range_eq, bind_value by done.
  eapply ranked_answer; [done|reflexivity|done|apply percent_representable| |names_checked].
  apply percent_nonneg; [by apply ctx_sub_accurate|done].
Qed.

Lemma body_pct_rankable c cfg m : context_constructed c ->
  accepts PreviousSessionBodyPctStrategy cfg = true ->
  rankable_answer c "previous_body_pct" (evaluate PreviousSessionBodyPctStrategy c cfg m).
Proof.
  intros Hc Hcfg. destruct cfg as [| |v| |]; try done. cbn [evaluate PreviousSessionBodyPctStrategy].
  unfold body_pct_evaluate. destruct (previous_session_of c) as [p|] eqn:Hp.
  2: { eapply skipped_answer; [done|reflexivity|names_checked]. }
  destruct (previous_candle c p Hc Hp) as (_ & Ho & _).
  rewrite body_eq, bind_value by done.
  eapply ranked_answer; [done|reflexivity|done|apply percent_representable| |names_checked].
  apply percent_nonneg; [apply body_accurate|done].
Qed.

Lemma candle_ohl_valid c : candle_valid c -> ohl_valid (ohl c).
Proof. intros (_ & Ho & _ & _ & Hlh)%candle_prices. by split. Qed.

Lemma removelast_Forall {A} (P : A -> Prop) l : Forall P l -> Forall P (removelast l).
Proof.
  induction 1 as [|x l Hx Hl IH]; [constructor|]. cbn. destruct l; [constructor|]. by constructor.
Qed.

Lemma length_removelast {A} (l : list A) : length (removelast l) = (length l - 1)%nat.
Proof.
  induction l as [|x l IH]; [done|]. cbn [removelast]. destruct l; [done|]. cbn [length] in *. lia.
Qed.

Lemma relative_range_rankable c cfg m : context_constructed c ->
  accepts PreviousSessionRelativeRangeStrategy cfg = true ->
  rankable_answer c "relative_range_ratio" (evaluate PreviousSessionRelativeRangeStrategy c cfg m).
Proof.
  intros Hc Hcfg. destruct cfg as [| | |v|]; try done.
  cbn [evaluate PreviousSessionRelativeRangeStrategy]. unfold relative_range_evaluate.
  destruct (session_series c) as [series|] eqn:Hs;
    [|eapply skipped_answer; [done|reflexivity|names_checked]].
  destruct (previous_session_of c) as [p|] eqn:Hp;
    [|eapply skipped_answer; [done|reflexivity|names_checked]].
  destruct (Nat.eqb_spec (length (hs_candles series)) REQUIRED_SESSIONS) as [Hlen|]; cbn [negb];
    [|eapply skipped_answer; [done|reflexivity|names_checked]].
  pose proof (cc_series _ Hc _ Hs) as Hv. revert Hlen Hv. generalize (hs_candles series) as l. intros l Hlen Hv.
  destruct (last l) as [subject|] eqn:Hlast;
    [|apply last_None in Hlast; subst; discriminate Hlen].
  assert (Hsub : candle_valid subject)
    by (apply last_Some in Hlast as [l' E]; rewrite E in Hv; apply Forall_app in Hv as [_ Hv];
        exact (proj1 (Forall_singleton _ _) Hv)).
  destruct (relative_range_outcomes (ohl subject) (ohl <$> removelast l))
    as (pct & ps & med & _ & _ & _ & Heq & Hpos & _).
  { by apply candle_ohl_valid. }
  { apply Forall_fmap. eapply Forall_impl; [by apply removelast_Forall|]. apply candle_ohl_valid. }
  { intros E%(f_equal length). rewrite length_fmap, length_removelast, Hlen in E. done. }
  rewrite Heq. destruct (dec_eqb med (dec 0 0));
    [eapply skipped_answer; [done|reflexivity|names_checked]|].
  eapply ranked_answer; [done|reflexivity|done|apply ctx_round_representable|exact Hpos|names_checked].
Qed.

Lemma open_extreme_rankable c high yes no : context_constructed c ->
  names_ok yes ["session_range_pct"; "session_open"; "session_high"; "session_low"] = true ->
  names_ok no ["session_range_pct"; "session_open"; "session_high"; "session_low"] = true ->
  rankable_answer c "session_range_pct" (evaluate_open_extreme c high yes no).
Proof.
  intros Hc Hyes Hno. unfold evaluate_open_extreme, authoritative_statistics.
  destruct (mc_session_statistics c) as [s|] eqn:Hs;
    [|eapply skipped_answer; [done|reflexivity|names_checked]].
  cbn [mbind option_bind]. case_bool_decide as Hq;
    [|eapply skipped_answer; [done|reflexivity|names_checked]].
  destruct (authoritative_prices s (cc_statistics _ Hc _ Hs) Hq)
    as (o & h & l & Eo & Eh & El & Ho & Hlo & Hoh).
  unfold session_metrics. rewrite Eo, Eh, El, ctx_div_ok, !bind_value by (by apply pos_nonzero).
  assert (Hpos : (0 <= percent (ctx_sub h l) o)%Qc).
  { apply percent_nonneg; [|done]. apply ctx_sub_accurate. lra. }
  set (rest := [decimal_metric "session_open" o; decimal_metric "session_high" h;
                decimal_metric "session_low" l]).
  assert (Hm : MATCHED <> EVALUATION_ERROR) by done.
  assert (Hn : NO_MATCH <> EVALUATION_ERROR) by done.
  destruct (bool_decide _).
  - apply (ranked_answer c MATCHED yes "session_range_pct" (percent (ctx_sub h l) o) rest _ Hc eq_refl Hm
      (percent_representable _ _) Hpos Hyes).
  - apply (ranked_answer c NO_MATCH no "session_range_pct" (percent (ctx_sub h l) o) rest _ Hc eq_refl Hn
      (percent_representable _ _) Hpos Hno).
Qed.

Lemma open_high_rankable c cfg m : context_constructed c ->
  rankable_answer c "session_range_pct" (evaluate OpenHighStrategy c cfg m).
Proof. intros Hc. by apply open_extreme_rankable; [|names_checked|names_checked]. Qed.

Lemma open_low_rankable c cfg m : context_constructed c ->
  rankable_answer c "session_range_pct" (evaluate OpenLowStrategy c cfg m).
Proof. intros Hc. by apply open_extreme_rankable; [|names_checked|names_checked]. Qed.

(** ** The catalogue *)

(** The entries the catalogue is built from, once their constructors accepted them. *)
Definition built_entry (s : Strategy StrategyConfiguration) (c : StrategyConfiguration)
    (strategy_id metric_name : string) (ordering : ScannerOrdering) : StrategyCatalogEntry := {|
  ce_strategy := s; ce_configuration := c;
  ce_ranking_policy := Some {| rp_strategy_id := strategy_id; rp_metric_name := metric_name;
                               rp_ordering := ordering |} |}.

Lemma production_catalog_eq :
  production_catalog = Ok [
    ("narrow_cpr", built_entry NarrowCprStrategy (NarrowCprConfiguration "1.0.0" None)
       "narrow_cpr" "cpr_width_pct" ASCENDING);
    ("previous_session_range_pct", built_entry PreviousSessionRangePctStrategy
       (PreviousSessionRangePctConfiguration "1.0.0")
       "previous_session_range_pct" "previous_range_pct" DESCENDING);
    ("previous_session_body_pct", built_entry PreviousSessionBodyPctStrategy
       (PreviousSessionBodyPctConfiguration "1.0.0")
       "previous_session_body_pct" "previous_body_pct" DESCENDING);
    ("previous_session_relative_range", built_entry PreviousSessionRelativeRangeStrategy
       (PreviousSessionRelativeRangeConfiguration "1.0.0")
       "previous_session_relative_range" "relative_range_ratio" ASCENDING);
    ("open_high", built_entry OpenHighStrategy (OpenExtremeConfiguration "1.0.0")
       "open_high" "session_range_pct" DESCENDING);
    ("open_low", built_entry OpenLowStrategy (OpenExtremeConfiguration "1.0.0")
       "open_low" "session_range_pct" DESCENDING) ].
Proof. reflexivity. Qed.

(** The production catalogue is accepted by its constructors, and on every
    constructed context each of its strategies, with any configuration of its own
    type, returns without raising an evaluation of that instrument and version
    that is never an error; when it matches, the scanner finds the metric its
    ranking policy names, non-negative and of at most 28 digits. *)
Theorem catalog_sound :
  exists catalog, production_catalog = Ok catalog
    /\ forall strategy_id entry, dict_get strategy_id catalog = Some entry ->
         entry_strategy_id entry = strategy_id
         /\ accepts (ce_strategy entry) (ce_configuration entry) = true
         /\ exists policy, ce_ranking_policy entry = Some policy
           /\ rp_strategy_id policy = strategy_id
           /\ forall c cfg m, context_constructed c -> accepts (ce_strategy entry) cfg = true ->
                rankable_answer c (rp_metric_name policy) (evaluate (ce_strategy entry) c cfg m).
Proof.
  eexists. split; [apply production_catalog_eq|]. intros sid entry H. apply dict_get_elem in H.
  repeat (apply elem_of_cons in H as [[= -> ->]|H];
    [split; [reflexivity|]; split; [reflexivity|]; eexists; split; [reflexivity|];
     split; [reflexivity|]; cbn [rp_metric_name ce_strategy built_entry]; intros c cfg m Hc Hcfg;
     solve [ by apply narrow_cpr_rankable | by apply range_pct_rankable
           | by apply body_pct_rankable | by apply relative_range_rankable
           | by apply open_high_rankable | by apply open_low_rankable ]|]).
  by apply not_elem_of_nil in H.
Qed.

(** Non-repainting: what the previous-session strategies answer depends only on
    the instrument, its version and its completed history, and what the
    opening-session ones answer only on the instrument, its version and the
    session statistics: no tick, quote, candle or clock reading enters. *)
Theorem evaluations_non_repainting c c' cfg m m' :
  mc_instrument c = mc_instrument c' -> mc_version c = mc_version c' ->
  (mc_historical c = mc_historical c' ->
     Forall (fun s => evaluate s c cfg m = evaluate s c' cfg m')
       [NarrowCprStrategy; PreviousSessionRangePctStrategy; PreviousSessionBodyPctStrategy;
        PreviousSessionRelativeRangeStrategy])
  /\ (mc_session_statistics c = mc_session_statistics c' ->
     Forall (fun s => evaluate s c cfg m = evaluate s c' cfg m') [OpenHighStrategy; OpenLowStrategy]).
Proof.
  intros Hi Hv.
  assert (Hev : forall st reason ms, evaluation c st reason ms = evaluation c' st reason ms)
    by (intros; unfold evaluation; by rewrite Hi, Hv).
  split; intros Hh; repeat constructor; cbn [evaluate NarrowCprStrategy PreviousSessionRangePctStrategy
    PreviousSessionBodyPctStrategy PreviousSessionRelativeRangeStrategy OpenHighStrategy OpenLowStrategy].
  - unfold narrow_cpr_evaluate, previous_session_of. rewrite <- Hh.
    destruct (_ ≫= _) as [p|]; [|apply Hev]. destruct (cpr_threshold cfg) as [t|e]; [|done].
    rewrite !bind_value. destruct (compute_cpr _ _ _) as [r|e]; [|done].
    rewrite !bind_value. destruct (cpr_classify r t). apply Hev.
  - unfold range_pct_evaluate, previous_session_of. rewrite <- Hh. destruct cfg; try done.
    destruct (_ ≫= _) as [p|]; [|apply Hev]. destruct (compute_previous_session_range _ _ _); [|done].
    apply Hev.
  - unfold body_pct_evaluate, previous_session_of. rewrite <- Hh. destruct cfg; try done.
    destruct (_ ≫= _) as [p|]; [|apply Hev]. destruct (compute_previous_session_body _ _); [|done].
    apply Hev.
  - unfold relative_range_evaluate, previous_session_of, session_series. rewrite <- Hh.
    destruct cfg; try done. repeat case_match; try done; apply Hev.
  - unfold evaluate_open_extreme, authoritative_statistics. rewrite <- Hh.
    destruct (_ ≫= _) as [p|]; [|apply Hev]. destruct (session_metrics p); [|done]. apply Hev.
  - unfold evaluate_open_extreme, authoritative_statistics. rewrite <- Hh.
    destruct (_ ≫= _) as [p|]; [|apply Hev]. destruct (session_metrics p); [|done]. apply Hev.
Qed.

(** ** A concrete evaluation *)

Definition sample_candle : Candle := bar reliance 0 us_per_day 100 110 99 108 1000.

Definition sample_historical : HistoricalContext := {|
  hc_instrument := reliance;
  hc_previous_session := Some {| ps_trading_date := sample_date - 1; ps_candle := sample_candle |};
  hc_series := [] |}.

Definition sample_context (tick : option Tick) : MarketContext :=
  initial reliance 1 (at_local 9 20) (at_local 9 20) tick None [] (Some live_session)
    (Some sample_historical) None None.

Lemma evaluations_non_repainting_witness :
  mc_instrument (sample_context None) = mc_instrument (sample_context (Some (trade reliance 9 20 107 5)))
  /\ Forall (fun s => evaluate s (sample_context None) (PreviousSessionRangePctConfiguration "1.0.0")
              {| em_trigger := ON_TICK; em_context_version := 1; em_observed_at := 0;
                 em_trading_date := None |}
            = evaluate s (sample_context (Some (trade reliance 9 20 107 5)))
              (PreviousSessionRangePctConfiguration "1.0.0")
              {| em_trigger := ON_TICK; em_context_version := 1; em_observed_at := 0;
                 em_trading_date := None |})
       [NarrowCprStrategy; PreviousSessionRangePctStrategy; PreviousSessionBodyPctStrategy;
        PreviousSessionRelativeRangeStrategy].
Proof.
  split; [reflexivity|]. apply evaluations_non_repainting; reflexivity.
Defined.

(** The range strategy matches on a range of 11 over an open of 100: 11 percent. *)
Example sample_range_pct :
  match evaluate PreviousSessionRangePctStrategy (sample_context None)
          (PreviousSessionRangePctConfiguration "1.0.0")
          {| em_trigger := ON_TICK; em_context_version := 1; em_observed_at := 0;
             em_trading_date := None |} with
  | Ok e => bool_decide (ev_status e = MATCHED)
            && match metric_value (ev_metrics e) "previous_range_pct" with
               | Some d => dec_eqb d (dec 11 0) | None => false end
  | Raise _ => false
  end = true.
Proof. vm_compute. reflexivity. Qed.
