(* ===== verification/Ipc.v ===== *)
(** The inter-process contract, market_ipc: event kinds ([events.py]), the
    versioned envelope ([envelope.py]), the deduplicator ([dedup.py]) and the
    transport configuration ([config.py]).

    The JSON text of a value is produced and read by pydantic: a [JsonCodec] is the
    pair of its two directions over abstract texts, and [JsonCodecLaws] what pydantic
    documents of them, that a constructed value survives the round trip. *)
From Stdlib Require Import Ascii.
From S2P Require Import Prelude PyTime MarketData.

Local Open Scope Z_scope.

(** * Event kinds *)

Inductive IpcPayload : Type :=
| PTick (t : Tick) | PQuote (q : Quote) | PReference (r : MarketReference)
| PContinuity (e : FeedContinuityEvent).

Inductive EventKind : Type := TICK | QUOTE | MARKET_REFERENCE | FEED_CONTINUITY.
Inductive EventPriority : Type := CORRECTNESS_CRITICAL | HIGH_FREQUENCY.

#[global] Instance EventKind_eq_dec : EqDecision EventKind.
Proof. solve_decision. Defined.

Definition event_kind_for (p : IpcPayload) : EventKind :=
  match p with
  | PTick _ => TICK | PQuote _ => QUOTE | PReference _ => MARKET_REFERENCE
  | PContinuity _ => FEED_CONTINUITY
  end.

Definition priority_for (k : EventKind) : EventPriority :=
  match k with
  | MARKET_REFERENCE | FEED_CONTINUITY => CORRECTNESS_CRITICAL
  | TICK | QUOTE => HIGH_FREQUENCY
  end.

(** The members of [EventKind] in order. *)
Definition event_kinds : list EventKind := [TICK; QUOTE; MARKET_REFERENCE; FEED_CONTINUITY].

(** * The envelope *)

Definition SCHEMA_VERSION : Z := 1.
Definition SUPPORTED_SCHEMA_VERSIONS : list Z := [1].
Definition FEED_WIDE_IDENTITY : string := "*:*".
Definition MAX_PAYLOAD_BYTES : Z := 262144.

(** [value.partition(":")]: the parts around the first colon, if there is one. *)
Fixpoint partition_colon (s : string) : option (string * string) :=
  match s with
  | EmptyString => None
  | String c s =>
      if bool_decide (c = ":"%char) then Some (EmptyString, s)
      else (fun p => (String c p.1, p.2)) <$> partition_colon s
  end.

Record MarketEventEnvelope (Text : Type) : Type := {
  env_schema_version : Z;
  env_producer_id : string;
  env_producer_epoch : Z;
  env_producer_sequence : Z;
  env_produced_at : instant;
  env_event_kind : EventKind;
  env_trading_date : date;
  env_universe_version : Z;
  env_instrument_identity : string;
  env_payload : Text;
}.
Arguments env_schema_version {Text} _.
Arguments env_producer_id {Text} _.
Arguments env_producer_epoch {Text} _.
Arguments env_producer_sequence {Text} _.
Arguments env_produced_at {Text} _.
Arguments env_event_kind {Text} _.
Arguments env_trading_date {Text} _.
Arguments env_universe_version {Text} _.
Arguments env_instrument_identity {Text} _.
Arguments env_payload {Text} _.

(** What [json.loads] shows of a text: not JSON, a value that is not an object, or
    an object with what it has under ["schema_version"]. *)
Inductive JsonVersion : Type :=
| VersionAbsent | VersionNull | VersionNumber (n : Decimal) | VersionBool (b : bool)
| VersionText (s : string) | VersionUnhashable.
Inductive JsonShape : Type := NotJson | JsonOther | JsonObject (version : JsonVersion).

Class JsonCodec (Text Raw : Type) : Type := {
  dump_payload : IpcPayload -> Text;
  parse_payload : EventKind -> Text -> option IpcPayload;
  text_bytes : Text -> Z;
  dump_envelope : MarketEventEnvelope Text -> Raw;
  parse_envelope : Raw -> option (MarketEventEnvelope Text);
  raw_bytes : Raw -> Z;
  json_loads : Raw -> JsonShape;
}.

(** A validation error of pydantic is a [ValueError]. *)
Definition is_value_error (e : exn) : bool :=
  match e with ValueError _ | ValidationError _ => true | _ => false end.

(** [Field(min_length=1, max_length=128)] after stripping. *)
Definition bounded_name (s : string) : result string :=
  let v := strip s in
  _ ← raise_if (is_empty v) (ValidationError "string_too_short");
  _ ← raise_if (128 <? Z.of_nat (String.length v)) (ValidationError "string_too_long");
  Ok v.

(** [_well_formed_identity] *)
Definition well_formed_identity (value : string) : bool :=
  match partition_colon value with
  | Some (exchange, symbol) => negb (is_empty exchange) && negb (is_empty symbol)
  | None => false
  end.

(** [f"{instrument.exchange}:{instrument.symbol}"] *)
Definition instrument_identity (i : Instrument) : string :=
  (exchange i +:+ ":" +:+ symbol i)%string.

(** [identity_string_for] *)
Definition identity_string_for (p : IpcPayload) : string :=
  match p with
  | PTick t => instrument_identity (tick_instrument t)
  | PQuote q => instrument_identity (quote_instrument q)
  | PReference r => instrument_identity (ref_instrument r)
  | PContinuity _ => FEED_WIDE_IDENTITY
  end.

Section Envelope.
Context {Text Raw : Type} `{JsonCodec Text Raw}.

(** [MarketEventEnvelope(...)]; [produced_at] is the datetime before validation. *)
Definition mk_envelope (schema_version : Z) (producer_id : string) (epoch sequence : Z)
    (produced_at : pydatetime) (kind : EventKind) (trading_date : date) (universe_version : Z)
    (identity : string) (payload : Text) : result (MarketEventEnvelope Text) :=
  producer_id ← bounded_name producer_id;
  _ ← raise_if ((epoch <? 0) || (sequence <? 0) || (universe_version <? 0))
    (ValidationError "greater_than_equal");
  at_utc ← match produced_at with
           | Aware i => Ok i
           | Naive _ => Raise (ValidationError "produced_at must be timezone-aware")
           end;
  _ ← raise_if (negb (bool_decide (schema_version ∈ SUPPORTED_SCHEMA_VERSIONS)))
    (ValidationError "unsupported schema_version");
  identity ← bounded_name identity;
  _ ← raise_if (negb (well_formed_identity identity))
    (ValidationError "instrument_identity must be 'EXCHANGE:SYMBOL'");
  _ ← raise_if (text_bytes payload <? 1) (ValidationError "string_too_short");
  _ ← raise_if (MAX_PAYLOAD_BYTES <? text_bytes payload)
    (ValidationError "payload exceeds maximum permitted size");
  Ok {| env_schema_version := schema_version; env_producer_id := producer_id;
        env_producer_epoch := epoch; env_producer_sequence := sequence;
        env_produced_at := at_utc; env_event_kind := kind; env_trading_date := trading_date;
        env_universe_version := universe_version; env_instrument_identity := identity;
        env_payload := payload |}.

Definition build_envelope (payload : IpcPayload) (producer_id : string) (epoch sequence : Z)
    (produced_at : pydatetime) (trading_date : date) (universe_version : Z)
    : result (MarketEventEnvelope Text) :=
  mk_envelope SCHEMA_VERSION producer_id epoch sequence produced_at (event_kind_for payload)
    trading_date universe_version (identity_string_for payload) (dump_payload payload).

Definition encode_envelope (envelope : MarketEventEnvelope Text) (max_bytes : Z) : result Raw :=
  let raw := dump_envelope envelope in
  _ ← raise_if (max_bytes <? raw_bytes raw) (ValueError "encoded envelope exceeds max_bytes");
  Ok raw.

Definition decode_envelope (raw : Raw) : result (MarketEventEnvelope Text) :=
  match parse_envelope raw with
  | Some e => Ok e
  | None => Raise (ValidationError "envelope")
  end.

Definition decode_payload (kind : EventKind) (payload : Text) : result IpcPayload :=
  match parse_payload kind payload with
  | Some p => Ok p
  | None => Raise (ValidationError "payload")
  end.

(** What the constructor of an envelope guarantees. *)
Definition envelope_constructed (e : MarketEventEnvelope Text) : Prop :=
  mk_envelope (env_schema_version e) (env_producer_id e) (env_producer_epoch e)
    (env_producer_sequence e) (Aware (env_produced_at e)) (env_event_kind e) (env_trading_date e)
    (env_universe_version e) (env_instrument_identity e) (env_payload e) = Ok e.

End Envelope.

(** What the constructors of the payload types guarantee. *)
Definition payload_constructed (p : IpcPayload) : Prop :=
  match p with
  | PTick t => mk_instrument (tick_instrument t) = Ok (tick_instrument t)
      /\ mk_tick (tick_instrument t) (Aware (tick_event_timestamp t)) (last_price t)
           (tick_traded_quantity t) (session_cumulative_volume t) (tick_session_ohlc t) = Ok t
      /\ forall o, tick_session_ohlc t = Some o ->
         mk_provider_session_ohlc (pso_open_price o) (pso_high_price o) (pso_low_price o)
           (pso_close_price o) = Ok o
  | PQuote q => mk_instrument (quote_instrument q) = Ok (quote_instrument q)
      /\ mk_quote (quote_instrument q) (Aware (quote_event_timestamp q)) (bid_price q) (ask_price q)
           (bid_quantity q) (ask_quantity q) = Ok q
  | PReference r => mk_instrument (ref_instrument r) = Ok (ref_instrument r)
      /\ (0 < ref_previous_close r)%Qc
  | PContinuity _ => True
  end.

(** What pydantic documents of [model_dump_json] and [model_validate_json] on
    constructed values, and [json.loads] of an object it wrote. *)
Class JsonCodecLaws (Text Raw : Type) `{JsonCodec Text Raw} : Prop := {
  payload_roundtrip : forall p, payload_constructed p ->
    parse_payload (event_kind_for p) (dump_payload p) = Some p;
  envelope_roundtrip : forall e : MarketEventEnvelope Text, envelope_constructed e ->
    parse_envelope (dump_envelope e) = Some e;
  envelope_shape : forall e : MarketEventEnvelope Text,
    json_loads (dump_envelope e) = JsonObject (VersionNumber (dec (env_schema_version e) 0));
}.

(** * Identities and versions *)

Record ProducerEventIdentity : Type := {
  id_producer_id : string;
  id_producer_epoch : Z;
  id_producer_sequence : Z;
}.

#[global] Instance ProducerEventIdentity_eq_dec : EqDecision ProducerEventIdentity.
Proof. solve_decision. Defined.

Definition from_envelope {Text} (e : MarketEventEnvelope Text) : ProducerEventIdentity := {|
  id_producer_id := env_producer_id e; id_producer_epoch := env_producer_epoch e;
  id_producer_sequence := env_producer_sequence e |}.

Inductive UniverseVersionComparison : Type := UV_MATCH | UV_OLDER | UV_NEWER | UV_UNKNOWN.

Definition compare_universe_version (event_version : Z) (current_version : option Z)
    : UniverseVersionComparison :=
  match current_version with
  | None => UV_UNKNOWN
  | Some current => if event_version =? current then UV_MATCH
                    else if event_version <? current then UV_OLDER else UV_NEWER
  end.

Definition is_stale_trading_date (event_date : date) (current : option date) : bool :=
  match current with Some d => event_date <? d | None => false end.

(** * Deduplication *)

(** [BoundedDeduplicator]: the keys of the [OrderedDict], oldest first. *)
Record BoundedDeduplicator : Type := {
  max_entries : nat;
  seen : list ProducerEventIdentity;
}.

Definition mk_deduplicator (entries : Z) : result BoundedDeduplicator :=
  _ ← raise_if (entries <? 1) (ValueError "max_entries must be positive");
  Ok {| max_entries := Z.to_nat entries; seen := [] |}.

(** [move_to_end] *)
Definition move_to_end (identity : ProducerEventIdentity) (l : list ProducerEventIdentity)
    : list ProducerEventIdentity :=
  filter (fun x => x <> identity) l ++ [identity].

(** [popitem(last=False)] when the capacity is exceeded *)
Definition evict (n : nat) (l : list ProducerEventIdentity) : list ProducerEventIdentity :=
  if (n <? length l)%nat then drop 1 l else l.

Definition is_duplicate (self : BoundedDeduplicator) (identity : ProducerEventIdentity)
    : bool * BoundedDeduplicator :=
  if bool_decide (identity ∈ seen self)
  then (true, {| max_entries := max_entries self; seen := move_to_end identity (seen self) |})
  else (false, {| max_entries := max_entries self;
                  seen := evict (max_entries self) (seen self ++ [identity]) |}).

Definition dedup_contains (self : BoundedDeduplicator) (identity : ProducerEventIdentity) : bool :=
  bool_decide (identity ∈ seen self).

Definition dedup_record (self : BoundedDeduplicator) (identity : ProducerEventIdentity)
    : BoundedDeduplicator :=
  {| max_entries := max_entries self;
     seen := evict (max_entries self) (move_to_end identity (seen self)) |}.

(** * Configuration *)

Record MarketIpcConfig : Type := {
  ipc_enabled : bool;
  ipc_stream_name : string;
  ipc_consumer_group : string;
  ipc_consumer_name : string;
  ipc_reference_key_prefix : string;
  ipc_health_key : string;
  ipc_maxlen : Z;
  ipc_read_count : Z;
  ipc_block_ms : Z;
  ipc_claim_idle_ms : Z;
  ipc_dedup_max_entries : Z;
  ipc_max_payload_bytes : Z;
  ipc_reference_ttl_seconds : Z;
}.

Definition default_config : MarketIpcConfig := {|
  ipc_enabled := false; ipc_stream_name := "md:events"; ipc_consumer_group := "backend";
  ipc_consumer_name := "backend-0"; ipc_reference_key_prefix := "md:reference";
  ipc_health_key := "md:health"; ipc_maxlen := 100000; ipc_read_count := 100;
  ipc_block_ms := 5000; ipc_claim_idle_ms := 30000; ipc_dedup_max_entries := 100000;
  ipc_max_payload_bytes := 65536; ipc_reference_ttl_seconds := 604800 |}.

Definition within (lo hi n : Z) : bool := (lo <=? n) && (n <=? hi).

Fixpoint has_space (s : string) : bool :=
  match s with EmptyString => false | String c s => is_space c || has_space s end.

(** A key or name: stripped, 1 to 128 characters, [_no_whitespace]. *)
Definition redis_name (s : string) : result string :=
  v ← bounded_name s;
  _ ← raise_if (has_space v)
    (ValidationError "Redis key/group/consumer names must not contain whitespace");
  Ok v.

(** [MarketIpcConfig(...)] *)
Definition mk_ipc_config (raw : MarketIpcConfig) : result MarketIpcConfig :=
  stream_name ← redis_name (ipc_stream_name raw);
  group ← redis_name (ipc_consumer_group raw);
  consumer ← redis_name (ipc_consumer_name raw);
  prefix ← redis_name (ipc_reference_key_prefix raw);
  health ← redis_name (ipc_health_key raw);
  _ ← raise_if (negb (within 1000 10000000 (ipc_maxlen raw)
                      && within 1 10000 (ipc_read_count raw)
                      && within 0 60000 (ipc_block_ms raw)
                      && within 1000 600000 (ipc_claim_idle_ms raw)
                      && within 1000 10000000 (ipc_dedup_max_entries raw)
                      && within 256 262144 (ipc_max_payload_bytes raw)
                      && within 3600 2592000 (ipc_reference_ttl_seconds raw)))
    (ValidationError "out of bounds");
  Ok {| ipc_enabled := ipc_enabled raw; ipc_stream_name := stream_name;
        ipc_consumer_group := group; ipc_consumer_name := consumer;
        ipc_reference_key_prefix := prefix; ipc_health_key := health;
        ipc_maxlen := ipc_maxlen raw; ipc_read_count := ipc_read_count raw;
        ipc_block_ms := ipc_block_ms raw; ipc_claim_idle_ms := ipc_claim_idle_ms raw;
        ipc_dedup_max_entries := ipc_dedup_max_entries raw;
        ipc_max_payload_bytes := ipc_max_payload_bytes raw;
        ipc_reference_ttl_seconds := ipc_reference_ttl_seconds raw |}.

(** * Lemmas *)

(** ** Envelopes *)

Lemma strip_bounded s v : bounded_name s = Ok v -> v = strip s.
Proof. unfold bounded_name. intros ([] & _ & ([] & _ & [= <-])%bind_ok)%bind_ok. done. Qed.

Section EnvelopeLemmas.
Context {Text Raw : Type} `{JsonCodec Text Raw}.

Lemma build_envelope_ok p producer_id epoch sequence produced_at d version e :
  build_envelope p producer_id epoch sequence produced_at d version = Ok e ->
  env_schema_version e = SCHEMA_VERSION /\ env_producer_id e = strip producer_id
  /\ env_producer_epoch e = epoch /\ env_producer_sequence e = sequence
  /\ env_event_kind e = event_kind_for p /\ env_trading_date e = d
  /\ env_universe_version e = version /\ env_payload e = dump_payload p.
Proof.
  unfold build_envelope, mk_envelope.
  intros (pid & Hpid & ([] & _ & (at' & _ & ([] & _ & (i & _ & ([] & _ & ([] & _ & ([] & _ & [= <-])
    %bind_ok)%bind_ok)%bind_ok)%bind_ok)%bind_ok)%bind_ok)%bind_ok)%bind_ok.
  cbn. apply strip_bounded in Hpid as ->. done.
Qed.

End EnvelopeLemmas.

(** ** The recency window *)

(** The distinct identities of a history of touches, least recently touched first. *)
Definition recency (l : list ProducerEventIdentity) : list ProducerEventIdentity :=
  fold_left (fun acc x => move_to_end x acc) l [].

Lemma recency_snoc l x : recency (l ++ [x]) = move_to_end x (recency l).
Proof. unfold recency. by rewrite fold_left_app. Qed.

Lemma move_to_end_elem x y l : y ∈ move_to_end x l <-> y = x \/ y ∈ l.
Proof.
  unfold move_to_end. rewrite elem_of_app, list_elem_of_filter, list_elem_of_singleton.
  destruct (decide (y = x)); tauto.
Qed.

Lemma move_to_end_NoDup x l : NoDup l -> NoDup (move_to_end x l).
Proof.
  intros H. unfold move_to_end. apply NoDup_app. split_and!; [by apply NoDup_filter| |apply NoDup_singleton].
  intros y [Hy _]%list_elem_of_filter ?%list_elem_of_singleton. done.
Qed.

Lemma recency_NoDup l : NoDup (recency l).
Proof.
  induction l as [|x l IH] using rev_ind; [constructor|]. rewrite recency_snoc. by apply move_to_end_NoDup.
Qed.

Lemma recency_elem x l : x ∈ recency l <-> x ∈ l.
Proof.
  induction l as [|y l IH] using rev_ind; [done|].
  rewrite recency_snoc, move_to_end_elem, IH, elem_of_app, list_elem_of_singleton. tauto.
Qed.

Lemma filter_fresh (x : ProducerEventIdentity) (l : list ProducerEventIdentity) : x ∉ l -> filter (fun y => y <> x) l = l.
Proof.
  induction l as [|y l IH]; [done|]. intros [Hxy Hx]%not_elem_of_cons.
  rewrite filter_cons, decide_True by done. by rewrite IH.
Qed.

Lemma move_to_end_fresh x l : x ∉ l -> move_to_end x l = l ++ [x].
Proof. intros Hx. unfold move_to_end. by rewrite filter_fresh. Qed.

Lemma length_filter_present (x : ProducerEventIdentity) (l : list ProducerEventIdentity) : NoDup l -> x ∈ l ->
  length (filter (fun y => y <> x) l) = (length l - 1)%nat.
Proof.
  induction l as [|y l IH]; [by intros _ ?%not_elem_of_nil|].
  intros [Hy Hn]%NoDup_cons Hx. rewrite filter_cons. destruct (decide (y <> x)) as [Hyx|Hyx].
  - assert (x ∈ l) by set_solver. cbn. rewrite IH by done.
    destruct l; [by apply not_elem_of_nil in H|cbn; lia].
  - apply dec_stable in Hyx as ->. rewrite filter_fresh by done. cbn. lia.
Qed.

Lemma last_n_NoDup {A} n (l : list A) : NoDup l -> NoDup (last_n n l).
Proof.
  intros H. rewrite <- (take_drop (length l - n) l) in H. by apply NoDup_app in H as (_ & _ & ?).
Qed.

Lemma last_n_app_exact {A} (a b : list A) : last_n (length b) (a ++ b) = b.
Proof. unfold last_n. rewrite length_app. replace (length a + length b - length b)%nat with (length a) by lia. apply drop_app_length. Qed.

(** The deduplicator keeps the last entries of the recency order: one touch. *)
Lemma evict_last_n n x r : (0 < n)%nat -> NoDup r ->
  evict n (move_to_end x (last_n n r)) = last_n n (move_to_end x r).
Proof.
  intros Hpos Hn. destruct (Nat.le_gt_cases (length r) n) as [Hle|Hgt].
  - rewrite (last_n_all n r) by done. unfold evict.
    destruct (decide (x ∈ r)) as [Hx|Hx].
    + assert (Hlen : length (move_to_end x r) = length r).
      { unfold move_to_end. rewrite length_app, length_filter_present by done. cbn.
        destruct r; [by apply not_elem_of_nil in Hx|cbn; lia]. }
      rewrite (proj2 (Nat.ltb_ge _ _)), last_n_all by lia. done.
    + rewrite move_to_end_fresh by done. rewrite length_app. cbn [length].
      destruct (Nat.ltb_spec n (length r + 1)) as [Hlt|Hge].
      * unfold last_n. rewrite length_app. cbn [length]. by replace (length r + 1 - n)%nat with 1%nat by lia.
      * by rewrite last_n_all by (rewrite length_app; cbn; lia).
  - set (b := last_n n r). set (a := take (length r - n) r).
    assert (Hr : r = a ++ b) by (unfold a, b, last_n; by rewrite take_drop).
    assert (Hb : length b = n) by (unfold b, last_n; rewrite length_drop; lia).
    rewrite Hr in Hn. apply NoDup_app in Hn as (Hna & Hab & Hnb).
    rewrite Hr. unfold move_to_end at 2. rewrite filter_app, <- app_assoc.
    fold (move_to_end x b). unfold evict. destruct (decide (x ∈ b)) as [Hx|Hx].
    + assert (Hlen : length (move_to_end x b) = n).
      { unfold move_to_end. rewrite length_app, length_filter_present by done. cbn. lia. }
      rewrite (proj2 (Nat.ltb_ge _ _)) by lia.
      rewrite <- Hlen at 1. by rewrite last_n_app_exact.
    + rewrite move_to_end_fresh, length_app by done. cbn [length].
      rewrite (proj2 (Nat.ltb_lt _ _)) by lia.
      destruct b as [|y b]; [cbn in Hb; lia|]. cbn [app drop].
      change (y :: b ++ [x]) with ([y] ++ (b ++ [x])). rewrite app_assoc.
      assert (Hl : length (b ++ [x]) = n) by (rewrite length_app; cbn in *; lia).
      rewrite <- Hl at 1. by rewrite last_n_app_exact.
Qed.

(** A touch: a check-and-record or a commit. *)
Inductive dedup_op : Type := CheckRecord (x : ProducerEventIdentity) | Commit (x : ProducerEventIdentity).
Definition op_identity (o : dedup_op) : ProducerEventIdentity :=
  match o with CheckRecord x | Commit x => x end.
Definition apply_op (self : BoundedDeduplicator) (o : dedup_op) : BoundedDeduplicator :=
  match o with CheckRecord x => (is_duplicate self x).2 | Commit x => dedup_record self x end.

Lemma apply_op_fixed self o : max_entries (apply_op self o) = max_entries self.
Proof. destruct o; cbn; [|done]. unfold is_duplicate. by case_bool_decide. Qed.

Lemma apply_op_last_n self o r : (0 < max_entries self)%nat -> NoDup r ->
  seen self = last_n (max_entries self) r ->
  seen (apply_op self o) = last_n (max_entries self) (move_to_end (op_identity o) r).
Proof.
  intros Hpos Hn Hs. rewrite <- evict_last_n by done. rewrite <- Hs.
  destruct o as [x|x]; cbn; [|done]. unfold is_duplicate. case_bool_decide as Hx; cbn.
  - assert (Hns : NoDup (seen self)) by (rewrite Hs; by apply last_n_NoDup).
    unfold evict. rewrite (proj2 (Nat.ltb_ge _ _)); [done|].
    unfold move_to_end. rewrite length_app, length_filter_present by done.
    pose proof (length_last_n (max_entries self) r). rewrite <- Hs in H. cbn.
    destruct (seen self); [by apply not_elem_of_nil in Hx|cbn in *; lia].
  - by rewrite move_to_end_fresh.
Qed.

(** After any sequence of checks and commits the deduplicator holds exactly the
    [max_entries] most recently touched distinct identities, so it never exceeds
    its capacity and answers that an identity was seen exactly when that identity
    is among them. *)
Theorem dedup_window (n : Z) d ops x :
  mk_deduplicator n = Ok d ->
  let d' := fold_left apply_op ops d in
  let window := last_n (Z.to_nat n) (recency (op_identity <$> ops)) in
  seen d' = window /\ Z.of_nat (length (seen d')) <= n
  /\ (dedup_contains d' x = true <-> x ∈ window) /\ fst (is_duplicate d' x) = dedup_contains d' x.
Proof.
  unfold mk_deduplicator. intros ([] & Hn%raise_if_ok & [= <-])%bind_ok. zbool. cbn zeta.
  set (d := Build_BoundedDeduplicator _ _).
  assert (H : max_entries (fold_left apply_op ops d) = Z.to_nat n
    /\ seen (fold_left apply_op ops d) = last_n (Z.to_nat n) (recency (op_identity <$> ops))).
  { induction ops as [|o ops [IHm IHs]] using rev_ind; [by split|].
    rewrite fold_left_app, fmap_app. cbn [fold_left fmap list_fmap].
    rewrite recency_snoc, apply_op_fixed. split; [done|].
    rewrite <- IHm. apply apply_op_last_n; [lia|apply recency_NoDup|by rewrite IHm]. }
  destruct H as [Hm Hs]. split_and!; [done| | |].
  - rewrite Hs. pose proof (length_last_n (Z.to_nat n) (recency (op_identity <$> ops))). lia.
  - unfold dedup_contains. by rewrite bool_decide_eq_true, Hs.
  - unfold is_duplicate, dedup_contains. by case_bool_decide.
Qed.

Definition sample_identity (k : Z) : ProducerEventIdentity := {|
  id_producer_id := "producer-1"; id_producer_epoch := 1; id_producer_sequence := k |}.

Lemma dedup_window_witness :
  mk_deduplicator 2 = Ok {| max_entries := 2; seen := [] |}
  /\ seen (fold_left apply_op [Commit (sample_identity 1); Commit (sample_identity 2);
             CheckRecord (sample_identity 1); Commit (sample_identity 3)]
            {| max_entries := 2; seen := [] |}) = [sample_identity 1; sample_identity 3].
Proof.
  split; [reflexivity|].
  destruct (dedup_window 2 {| max_entries := 2; seen := [] |}
    [Commit (sample_identity 1); Commit (sample_identity 2);
     CheckRecord (sample_identity 1); Commit (sample_identity 3)] (sample_identity 1) eq_refl) as [H _].
  exact H.
Defined.

(** * A concrete codec *)

(** Texts that are the values themselves, and malformed ones: the codec of the witnesses. *)
Definition SampleRaw : Type := MarketEventEnvelope IpcPayload + JsonShape.

#[global] Instance sample_codec : JsonCodec IpcPayload SampleRaw := {|
  dump_payload := fun p => p;
  parse_payload := fun k p => if bool_decide (event_kind_for p = k) then Some p else None;
  text_bytes := fun _ => 100;
  dump_envelope := inl;
  parse_envelope := fun raw => match raw with inl e => Some e | inr _ => None end;
  raw_bytes := fun _ => 300;
  json_loads := fun raw =>
    match raw with
    | inl e => JsonObject (VersionNumber (dec (env_schema_version e) 0))
    | inr shape => shape
    end |}.

#[global] Instance sample_codec_laws : JsonCodecLaws IpcPayload SampleRaw.
Proof.
  split.
  - intros p _. cbn. by rewrite bool_decide_true.
  - done.
  - done.
Qed.
