(* ===== verification/IpcConsumer.v ===== *)
(** The shadow consumer of the event stream, market_ipc/consumer.py: every entry
    is decoded, gated, deduplicated, decoded again to its payload, applied to the
    sink and acknowledged.

    An entry is handled under an [Environment]: what the authorities, the clock,
    the sink and the acknowledgement answer during that call.  The calls that leave
    the consumer are returned as a list of effects.  The counters are a map from
    the slots of [_ConsumerCounters]. *)
From S2P Require Import Prelude PyTime MarketData Ipc.

Local Open Scope Z_scope.

Inductive MessageOutcome : Type :=
| APPLIED | DUPLICATE | STALE_TRADING_DATE | FUTURE_TRADING_DATE | OLDER_UNIVERSE
| NEWER_UNIVERSE | UNKNOWN_UNIVERSE | ENVELOPE_DECODE_FAILED | UNSUPPORTED_SCHEMA
| PAYLOAD_DECODE_FAILED | EVENT_KIND_MISMATCH | SINK_FAILED | ACK_FAILED.

#[global] Instance MessageOutcome_eq_dec : EqDecision MessageOutcome.
Proof. solve_decision. Defined.

(** [outcome in _TERMINAL_ACK_OUTCOMES] *)
Definition terminal (o : MessageOutcome) : bool :=
  match o with SINK_FAILED | ACK_FAILED => false | _ => true end.

Inductive Slot : Type :=
| C_received | C_claimed | C_applied | C_acked | C_duplicate | C_envelope_decode_failures
| C_payload_decode_failures | C_unsupported_schema | C_event_kind_mismatch
| C_stale_trading_date | C_future_trading_date | C_older_universe | C_newer_universe
| C_unknown_universe | C_sink_failures | C_ack_failures | C_read_failures.

#[global] Instance Slot_eq_dec : EqDecision Slot.
Proof. solve_decision. Defined.

(** [_ConsumerCounters] *)
Definition ConsumerCounters : Type := Slot -> Z.
Definition zero_counters : ConsumerCounters := fun _ => 0.
Definition bump (c : Slot) (f : ConsumerCounters) : ConsumerCounters :=
  fun c' => if decide (c' = c) then f c' + 1 else f c'.

Section Consumer.
Context {Text Raw : Type} `{JsonCodec Text Raw}.

Abbreviation Envelope := (MarketEventEnvelope Text) (only parsing).

(** [RawDeliveredEvent] *)
Definition RawDeliveredEvent : Type := string * option Raw.

Record MarketEventConsumer : Type := {
  co_running : bool;
  co_dedup : BoundedDeduplicator;
  co_counters : ConsumerCounters;
  co_last_received_at : option instant;
  co_last_applied_at : option instant;
  co_last_ack_at : option instant;
  co_last_error_at : option instant;
  co_last_event_age : option timedelta;
}.

Definition mk_consumer (dedup : BoundedDeduplicator) : MarketEventConsumer := {|
  co_running := false; co_dedup := dedup; co_counters := zero_counters;
  co_last_received_at := None; co_last_applied_at := None; co_last_ack_at := None;
  co_last_error_at := None; co_last_event_age := None |}.

(** [start], with the outcome of [ensure_group]. *)
Definition consumer_start (ensure_group : result unit) (self : MarketEventConsumer)
    : MarketEventConsumer * result unit :=
  match ensure_group with
  | Raise e => (self, Raise e)
  | Ok _ => ({| co_running := true; co_dedup := co_dedup self; co_counters := co_counters self;
                co_last_received_at := co_last_received_at self;
                co_last_applied_at := co_last_applied_at self; co_last_ack_at := co_last_ack_at self;
                co_last_error_at := co_last_error_at self;
                co_last_event_age := co_last_event_age self |}, Ok tt)
  end.

(** What the collaborators answer while one entry is handled. *)
Record Environment : Type := {
  he_now : instant;
  he_trading_date : option date;
  he_universe_version : option Z;
  he_sink : result unit;
  he_ack : result unit;
}.

Inductive Effect : Type :=
| Apply (e : Envelope) (event : IpcPayload)
| Acked (message_id : string).

(** Updates of single fields. *)
Definition with_counters (f : ConsumerCounters -> ConsumerCounters) (self : MarketEventConsumer)
    : MarketEventConsumer := {|
  co_running := co_running self; co_dedup := co_dedup self; co_counters := f (co_counters self);
  co_last_received_at := co_last_received_at self; co_last_applied_at := co_last_applied_at self;
  co_last_ack_at := co_last_ack_at self; co_last_error_at := co_last_error_at self;
  co_last_event_age := co_last_event_age self |}.

Definition count (c : Slot) : MarketEventConsumer -> MarketEventConsumer := with_counters (bump c).

Definition received_at (now : instant) (self : MarketEventConsumer) : MarketEventConsumer := {|
  co_running := co_running self; co_dedup := co_dedup self; co_counters := co_counters self;
  co_last_received_at := Some now; co_last_applied_at := co_last_applied_at self;
  co_last_ack_at := co_last_ack_at self; co_last_error_at := co_last_error_at self;
  co_last_event_age := co_last_event_age self |}.

Definition acked_at (now : instant) (self : MarketEventConsumer) : MarketEventConsumer := {|
  co_running := co_running self; co_dedup := co_dedup self; co_counters := co_counters self;
  co_last_received_at := co_last_received_at self; co_last_applied_at := co_last_applied_at self;
  co_last_ack_at := Some now; co_last_error_at := co_last_error_at self;
  co_last_event_age := co_last_event_age self |}.

Definition error_at (now : instant) (self : MarketEventConsumer) : MarketEventConsumer := {|
  co_running := co_running self; co_dedup := co_dedup self; co_counters := co_counters self;
  co_last_received_at := co_last_received_at self; co_last_applied_at := co_last_applied_at self;
  co_last_ack_at := co_last_ack_at self; co_last_error_at := Some now;
  co_last_event_age := co_last_event_age self |}.

(** [_last_event_age_ms], kept as a duration. *)
Definition event_age (now : instant) (e : Envelope) (self : MarketEventConsumer)
    : MarketEventConsumer := {|
  co_running := co_running self; co_dedup := co_dedup self; co_counters := co_counters self;
  co_last_received_at := co_last_received_at self; co_last_applied_at := co_last_applied_at self;
  co_last_ack_at := co_last_ack_at self; co_last_error_at := co_last_error_at self;
  co_last_event_age := Some (now - env_produced_at e) |}.

(** The dedup commit with the bookkeeping of a successful application. *)
Definition applied_at (now : instant) (identity : ProducerEventIdentity)
    (self : MarketEventConsumer) : MarketEventConsumer := {|
  co_running := co_running self; co_dedup := dedup_record (co_dedup self) identity;
  co_counters := bump C_applied (co_counters self);
  co_last_received_at := co_last_received_at self; co_last_applied_at := Some now;
  co_last_ack_at := co_last_ack_at self; co_last_error_at := co_last_error_at self;
  co_last_event_age := co_last_event_age self |}.

(** What a call of [_handle] leaves: the consumer, its answer and its effects. *)
Definition Handled : Type := MarketEventConsumer * result MessageOutcome * list Effect.

(** [version not in SUPPORTED_SCHEMA_VERSIONS]: testing membership hashes the value. *)
Definition version_supported (v : JsonVersion) : result bool :=
  match v with
  | VersionNumber n => Ok (dec_eqb n (dec 1 0))
  | VersionBool b => Ok b
  | VersionText _ => Ok false
  | VersionUnhashable => Raise (TypeError "unhashable type")
  | VersionAbsent | VersionNull => Ok true
  end.

(** [_decode_envelope]: the envelope, or the outcome with the slot it counts. *)
Definition decode_entry (raw : option Raw) : result (Envelope + MessageOutcome * Slot) :=
  let failed : result (Envelope + MessageOutcome * Slot) :=
    Ok (inr (ENVELOPE_DECODE_FAILED, C_envelope_decode_failures)) in
  match raw with
  | None => failed
  | Some raw =>
      match json_loads (Text := Text) raw with
      | NotJson => failed
      | JsonOther => match parse_envelope (Text := Text) raw with Some e => Ok (inl e) | None => failed end
      | JsonObject v =>
          match version_supported v with
          | Raise e => Raise e
          | Ok false => Ok (inr (UNSUPPORTED_SCHEMA, C_unsupported_schema))
          | Ok true =>
              match parse_envelope (Text := Text) raw with Some e => Ok (inl e) | None => failed end
          end
      end
  end.

(** [_gate] and [_count_universe] *)
Definition gate (env : Environment) (e : Envelope) : option (MessageOutcome * Slot) :=
  let universe :=
    match compare_universe_version (env_universe_version e) (he_universe_version env) with
    | UV_MATCH => None
    | UV_OLDER => Some (OLDER_UNIVERSE, C_older_universe)
    | UV_NEWER => Some (NEWER_UNIVERSE, C_newer_universe)
    | UV_UNKNOWN => Some (UNKNOWN_UNIVERSE, C_unknown_universe)
    end in
  match he_trading_date env with
  | Some current =>
      if env_trading_date e <? current then Some (STALE_TRADING_DATE, C_stale_trading_date)
      else if current <? env_trading_date e then Some (FUTURE_TRADING_DATE, C_future_trading_date)
      else universe
  | None => universe
  end.

(** [_decodes_under_other_kind] *)
Definition decodes_under_other_kind (e : Envelope) : bool :=
  existsb (fun other => negb (bool_decide (other = env_event_kind e))
                        && is_not_none (parse_payload other (env_payload e))) event_kinds.

(** [_decode_payload] *)
Definition decode_event (e : Envelope) : IpcPayload + MessageOutcome * Slot :=
  match parse_payload (env_event_kind e) (env_payload e) with
  | Some event => inl event
  | None => if decodes_under_other_kind e then inr (EVENT_KIND_MISMATCH, C_event_kind_mismatch)
            else inr (PAYLOAD_DECODE_FAILED, C_payload_decode_failures)
  end.

(** [_finalize] *)
Definition finalize (env : Environment) (self : MarketEventConsumer) (message_id : string)
    (outcome : MessageOutcome) : Handled :=
  if negb (terminal outcome) then (self, Ok outcome, [])
  else match he_ack env with
       | Raise RedisError =>
           (error_at (he_now env) (count C_ack_failures self), Ok ACK_FAILED, [])
       | Raise e => (self, Raise e, [])
       | Ok _ => (acked_at (he_now env) (count C_acked self), Ok outcome, [Acked message_id])
       end.

(** [_apply_and_ack]: [except Exception] does not catch a cancellation. *)
Definition apply_and_ack (env : Environment) (self : MarketEventConsumer) (message_id : string)
    (e : Envelope) (event : IpcPayload) : Handled :=
  match he_sink env with
  | Raise CancelledError => (self, Raise CancelledError, [])
  | Raise _ => (error_at (he_now env) (count C_sink_failures self), Ok SINK_FAILED, [])
  | Ok _ =>
      let '(self, r, effects) :=
        finalize env (applied_at (he_now env) (from_envelope e) self) message_id APPLIED in
      (self, r, Apply e event :: effects)
  end.

(** [_handle] *)
Definition handle_entry (self : MarketEventConsumer) (entry : RawDeliveredEvent) (claimed : bool)
    (env : Environment) : Handled :=
  let '(message_id, raw) := entry in
  let self := received_at (he_now env) (count (if claimed then C_claimed else C_received) self) in
  match decode_entry raw with
  | Raise e => (self, Raise e, [])
  | Ok (inr (outcome, slot)) => finalize env (count slot self) message_id outcome
  | Ok (inl e) =>
      let self := event_age (he_now env) e self in
      match gate env e with
      | Some (outcome, slot) => finalize env (count slot self) message_id outcome
      | None =>
          if dedup_contains (co_dedup self) (from_envelope e)
          then finalize env (count C_duplicate self) message_id DUPLICATE
          else match decode_event e with
               | inr (outcome, slot) => finalize env (count slot self) message_id outcome
               | inl event => apply_and_ack env self message_id e event
               end
      end
  end.

(** [for entry in entries: await self._handle(entry, claimed=...)], each entry with
    its environment; an exception ends the loop. *)
Fixpoint handle_batch (self : MarketEventConsumer) (claimed : bool)
    (entries : list (RawDeliveredEvent * Environment))
    : MarketEventConsumer * result (list MessageOutcome) * list Effect :=
  match entries with
  | [] => (self, Ok [], [])
  | (entry, env) :: rest =>
      match handle_entry self entry claimed env with
      | (self, Raise e, effects) => (self, Raise e, effects)
      | (self, Ok outcome, effects) =>
          let '(self, r, more) := handle_batch self claimed rest in
          (self, (fun l => outcome :: l) <$> r, effects ++ more)
      end
  end.

(** [_record_read_failure] *)
Definition record_read_failure (now : instant) (self : MarketEventConsumer) : MarketEventConsumer :=
  error_at now (count C_read_failures self).

(** [poll_once]: the claimed page, then the new entries; [claim] and [read] are the
    answers of the transport, [now] the clock if one of them fails. *)
Definition poll_once (now : instant) (claim read : result (list (RawDeliveredEvent * Environment)))
    (self : MarketEventConsumer)
    : MarketEventConsumer * result (list MessageOutcome) * list Effect :=
  match claim with
  | Raise RedisError => (record_read_failure now self, Ok [], [])
  | Raise e => (self, Raise e, [])
  | Ok claimed =>
      match handle_batch self true claimed with
      | (self, Raise e, effects) => (self, Raise e, effects)
      | (self, Ok outcomes, effects) =>
          match read with
          | Raise RedisError => (record_read_failure now self, Ok outcomes, effects)
          | Raise e => (self, Raise e, effects)
          | Ok fresh =>
              let '(self, r, more) := handle_batch self false fresh in
              (self, app outcomes <$> r, effects ++ more)
          end
      end
  end.

End Consumer.

(** * Lemmas *)

Section Lemmas.
Context {Text Raw : Type} `{JsonCodec Text Raw}.

(** What left the consumer. *)
Definition applied_ids (effects : list (Effect (Text := Text))) : list ProducerEventIdentity :=
  omap (fun x => match x with Apply e _ => Some (from_envelope e) | Acked _ => None end) effects.
Definition acked_ids (effects : list (Effect (Text := Text))) : list string :=
  omap (fun x => match x with Apply _ _ => None | Acked m => Some m end) effects.

Lemma applied_ids_app a b : applied_ids (a ++ b) = applied_ids a ++ applied_ids b.
Proof. apply omap_app. Qed.
Lemma acked_ids_app a b : acked_ids (a ++ b) = acked_ids a ++ acked_ids b.
Proof. apply omap_app. Qed.

Lemma finalize_spec env self m o self' r effects :
  finalize (Text := Text) env self m o = (self', r, effects) ->
  co_dedup self' = co_dedup self
  /\ (effects = [] \/ effects = [Acked m] /\ he_ack env = Ok tt /\ terminal o = true /\ r = Ok o).
Proof.
  unfold finalize. destruct (terminal o); cbn [negb].
  - destruct (he_ack env) as [[]|e].
    + intros [= <- <- <-]. split; [done|by right].
    + destruct e; intros [= <- <- <-]; (split; [reflexivity|by left]).
  - intros [= <- <- <-]. split; [reflexivity|by left].
Qed.

(** An entry that passes every check before the sink. *)
Definition acceptable (dedup : BoundedDeduplicator) (raw : option Raw) (env : Environment)
    (e : MarketEventEnvelope Text) (event : IpcPayload) : Prop :=
  decode_entry raw = Ok (inl e) /\ gate env e = None
  /\ dedup_contains dedup (from_envelope e) = false /\ decode_event e = inl event.

(** One handled entry: nothing but at most one application of an acceptable entry,
    committed to the deduplicator, and at most one acknowledgement of that entry,
    which a failed application never gets. *)
Lemma handle_entry_spec self m raw claimed env self' r effects :
  handle_entry self (m, raw) claimed env = (self', r, effects) ->
  (co_dedup self' = co_dedup self /\ applied_ids effects = []
   /\ (effects = [] \/ effects = [Acked m] /\ he_ack env = Ok tt
       /\ exists o, r = Ok o /\ terminal o = true /\ o <> APPLIED
          /\ (o = DUPLICATE -> exists e, decode_entry raw = Ok (inl e) /\ gate env e = None
                /\ dedup_contains (co_dedup self) (from_envelope e) = true)
          /\ ~ exists e event, acceptable (co_dedup self) raw env e event))
  \/ exists e event, acceptable (co_dedup self) raw env e event /\ he_sink env = Ok tt
     /\ co_dedup self' = dedup_record (co_dedup self) (from_envelope e)
     /\ (effects = [Apply e event] \/ effects = [Apply e event; Acked m] /\ he_ack env = Ok tt).
Proof.
  unfold handle_entry. set (s0 := received_at _ _).
  assert (Hd0 : co_dedup s0 = co_dedup self) by done.
  assert (Hfin : forall s o, finalize env s m o = (self', r, effects) -> co_dedup s = co_dedup self ->
    o <> APPLIED -> (o = DUPLICATE -> exists e, decode_entry raw = Ok (inl e) /\ gate env e = None
                /\ dedup_contains (co_dedup self) (from_envelope e) = true) ->
    (~ exists e event, acceptable (co_dedup self) raw env e event) ->
    co_dedup self' = co_dedup self /\ applied_ids effects = []
    /\ (effects = [] \/ effects = [Acked m] /\ he_ack env = Ok tt
       /\ exists o, r = Ok o /\ terminal o = true /\ o <> APPLIED
          /\ (o = DUPLICATE -> exists e, decode_entry raw = Ok (inl e) /\ gate env e = None
                /\ dedup_contains (co_dedup self) (from_envelope e) = true)
          /\ ~ exists e event, acceptable (co_dedup self) raw env e event)).
  { intros s o (Hd & Heff)%finalize_spec Hs Ho Hdup Hacc. split_and!; [by rewrite Hd| |].
    - by destruct Heff as [->|[-> _]].
    - destruct Heff as [->|(-> & Ha & Ht & ->)]; [by left|right]. split_and!; [done|done|]. by exists o. }
  destruct (decode_entry raw) as [[e|[o slot]]|ex] eqn:Edec.
  - cbn [co_dedup event_age]. rewrite Hd0.
    destruct (gate env e) as [[o slot]|] eqn:Egate.
    { intros Hf. left. apply (Hfin _ o Hf); [exact Hd0|..].
      - unfold gate in Egate. repeat case_match; simplify_eq; done.
      - intros ->. unfold gate in Egate. repeat case_match; simplify_eq; done.
      - intros (e' & event & Hd & Hg & _). rewrite Edec in Hd. simplify_eq. }
    destruct (dedup_contains (co_dedup self) (from_envelope e)) eqn:Edup.
    { intros Hf. left. apply (Hfin _ DUPLICATE Hf); [exact Hd0|done| |].
      - intros _. by exists e.
      - intros (e' & event & Hd & Hg & Hc & _). rewrite Edec in Hd. simplify_eq. congruence. }
    destruct (decode_event e) as [event|[o slot]] eqn:Eev.
    + unfold apply_and_ack. destruct (he_sink env) as [[]|ex] eqn:Esink.
      * destruct (finalize _ _ m APPLIED) as [[s1 r1] eff1] eqn:Ef. intros [= <- <- <-].
        apply finalize_spec in Ef as (Hd & Heff). right. exists e, event. split_and!.
        -- by split_and!.
        -- done.
        -- rewrite Hd. done.
        -- destruct Heff as [->|(-> & Ha & _)]; [by left|by right].
      * intros Heq. left. destruct ex; injection Heq as <- <- <-; (split; [exact Hd0|split; [reflexivity|left; reflexivity]]).
    + intros Hf. left. apply (Hfin _ o Hf); [exact Hd0|..].
      * unfold decode_event in Eev. repeat case_match; simplify_eq; done.
      * intros ->. unfold decode_event in Eev. repeat case_match; simplify_eq; done.
      * intros (e' & event & Hd & Hg & Hc & He). rewrite Edec in Hd. simplify_eq. congruence.
  - intros Hf. left. apply (Hfin _ o Hf); [exact Hd0|..].
    + unfold decode_entry in Edec. repeat case_match; simplify_eq; done.
    + intros ->. unfold decode_entry in Edec. repeat case_match; simplify_eq; done.
    + intros (e' & event & Hd & _). congruence.
  - intros [= <- <- <-]. left. auto.
Qed.

(** ** Runs *)

(** The deduplicator as a function of what was applied, and every application
    outside the window of the ones before it. *)
Definition window_ok (n : nat) (ids : list ProducerEventIdentity) (d : BoundedDeduplicator) : Prop :=
  max_entries d = n /\ seen d = last_n n ids
  /\ forall k x, ids !! k = Some x -> x ∉ last_n n (take k ids).

Lemma evict_snoc n w (x : ProducerEventIdentity) : (length w <= n)%nat ->
  evict n (w ++ [x]) = last_n n (w ++ [x]).
Proof using Type.
  intros Hw. unfold evict, last_n. rewrite length_app. cbn [length].
  destruct (Nat.ltb_spec n (length w + 1)) as [Hlt|Hge].
  - by replace (length w + 1 - n)%nat with 1%nat by lia.
  - by replace (length w + 1 - n)%nat with 0%nat by lia.
Qed.

Lemma window_record n ids d x : (0 < n)%nat -> window_ok n ids d -> dedup_contains d x = false ->
  window_ok n (ids ++ [x]) (dedup_record d x).
Proof.
  intros Hn (Hm & Hs & Hw) Hx. apply bool_decide_eq_false in Hx. split_and!; [done| |].
  - cbn. rewrite Hm, move_to_end_fresh, Hs by done. rewrite <- (last_n_snoc n ids).
    apply evict_snoc, length_last_n.
  - intros k y Hk. destruct (decide (k < length ids)%nat) as [Hlt|Hge].
    + rewrite lookup_app_l in Hk by done. rewrite take_app_le by lia. by apply Hw.
    + rewrite lookup_app_r in Hk by lia. destruct (k - length ids)%nat as [|j] eqn:E; [|done].
      injection Hk as <-. rewrite take_app_ge by lia. rewrite E. cbn. by rewrite app_nil_r, <- Hs.
Qed.

Lemma handle_entry_window n ids self entry claimed env self' r effects : (0 < n)%nat ->
  handle_entry self entry claimed env = (self', r, effects) -> window_ok n ids (co_dedup self) ->
  window_ok n (ids ++ applied_ids effects) (co_dedup self').
Proof.
  intros Hn Hh Hw. destruct entry as [m raw].
  apply handle_entry_spec in Hh as [(-> & -> & _)|(e & event & Hacc & _ & -> & Heff)];
    [by rewrite app_nil_r|].
  destruct Hacc as (_ & _ & Hc & _).
  replace (applied_ids effects) with [from_envelope e] by (by destruct Heff as [->|[-> _]]).
  by apply window_record.
Qed.

Lemma handle_batch_window n self claimed entries : (0 < n)%nat -> forall ids self' r effects,
  handle_batch self claimed entries = (self', r, effects) -> window_ok n ids (co_dedup self) ->
  window_ok n (ids ++ applied_ids effects) (co_dedup self').
Proof.
  intros Hn. revert self. induction entries as [|[entry env] rest IH]; intros self ids self' r effects;
    cbn [handle_batch].
  - intros [= <- <- <-] Hw. by rewrite app_nil_r.
  - destruct (handle_entry self entry claimed env) as [[s1 r1] e1] eqn:E1.
    destruct r1 as [o|ex].
    + destruct (handle_batch s1 claimed rest) as [[s2 r2] e2] eqn:E2. intros [= <- <- <-] Hw.
      rewrite applied_ids_app, app_assoc. eapply IH; [exact E2|]. by eapply handle_entry_window.
    + intros [= <- <- <-] Hw. by eapply handle_entry_window.
Qed.

Lemma poll_once_window n now claim read ids self self' r effects : (0 < n)%nat ->
  poll_once now claim read self = (self', r, effects) -> window_ok n ids (co_dedup self) ->
  window_ok n (ids ++ applied_ids effects) (co_dedup self').
Proof.
  intros Hn. unfold poll_once. destruct claim as [claimed|ex].
  2: { destruct ex; intros [= <- <- <-]; by rewrite app_nil_r. }
  destruct (handle_batch self true claimed) as [[s1 r1] e1] eqn:E1. destruct r1 as [o1|ex].
  2: { intros [= <- <- <-]. by apply (handle_batch_window n _ _ _ Hn _ _ _ _ E1). }
  pose proof (handle_batch_window n _ _ _ Hn ids _ _ _ E1) as H1.
  destruct read as [fresh|ex].
  - destruct (handle_batch s1 false fresh) as [[s2 r2] e2] eqn:E2. intros [= <- <- <-] Hw.
    rewrite applied_ids_app, app_assoc. apply (handle_batch_window n _ _ _ Hn _ _ _ _ E2). by apply H1.
  - destruct ex; intros [= <- <- <-]; exact H1.
Qed.

(** A history of polls, with everything that left the consumer. *)
Record Poll : Type := {
  poll_now : instant;
  poll_claim : result (list (RawDeliveredEvent (Raw := Raw) * Environment));
  poll_read : result (list (RawDeliveredEvent (Raw := Raw) * Environment));
}.

Fixpoint run_polls (self : MarketEventConsumer) (polls : list Poll)
    : MarketEventConsumer * list (Effect (Text := Text)) :=
  match polls with
  | [] => (self, [])
  | p :: rest =>
      let '(self, _, effects) := poll_once (poll_now p) (poll_claim p) (poll_read p) self in
      let '(self, more) := run_polls self rest in
      (self, effects ++ more)
  end.

Lemma run_polls_window n polls : (0 < n)%nat -> forall self ids self' effects,
  run_polls self polls = (self', effects) -> window_ok n ids (co_dedup self) ->
  window_ok n (ids ++ applied_ids effects) (co_dedup self').
Proof.
  intros Hn. induction polls as [|p rest IH]; intros self ids self' effects; cbn [run_polls].
  - intros [= <- <-]. by rewrite app_nil_r.
  - destruct (poll_once _ _ _ self) as [[s1 r1] e1] eqn:E1.
    destruct (run_polls s1 rest) as [s2 e2] eqn:E2. intros [= <- <-] Hw.
    rewrite applied_ids_app, app_assoc. eapply IH; [exact E2|]. by eapply poll_once_window.
Qed.

Lemma short_window_NoDup n (ids : list ProducerEventIdentity) :
  (forall k x, ids !! k = Some x -> x ∉ last_n n (take k ids)) -> (length ids <= n)%nat -> NoDup ids.
Proof.
  intros Hw Hlen. apply NoDup_alt. intros i j x Hi Hj.
  destruct (Nat.lt_trichotomy i j) as [Hlt|[->|Hlt]]; [exfalso|done|exfalso].
  - apply (Hw j x Hj). pose proof (lookup_lt_Some _ _ _ Hj).
    rewrite last_n_all by (rewrite length_take; lia).
    apply list_elem_of_lookup. exists i. by rewrite lookup_take_lt.
  - apply (Hw i x Hi). pose proof (lookup_lt_Some _ _ _ Hi).
    rewrite last_n_all by (rewrite length_take; lia).
    apply list_elem_of_lookup. exists j. by rewrite lookup_take_lt.
Qed.

(** Whatever the stream redelivers and whichever calls fail, in any history of
    polls of a new consumer no event is applied to the sink that is among the last
    [n] applied ones, [n] the capacity of the deduplicator; while at most [n]
    events have been applied, every identity is applied at most once. *)
Theorem consumer_applies_once (n : Z) d polls self' effects :
  mk_deduplicator n = Ok d -> run_polls (mk_consumer d) polls = (self', effects) ->
  let ids := applied_ids effects in
  seen (co_dedup self') = last_n (Z.to_nat n) ids
  /\ (forall k x, ids !! k = Some x -> x ∉ last_n (Z.to_nat n) (take k ids))
  /\ (Z.of_nat (length ids) <= n -> NoDup ids).
Proof.
  unfold mk_deduplicator. intros ([] & Hn%raise_if_ok & [= <-])%bind_ok Hrun. zbool. cbn zeta.
  destruct (run_polls_window (Z.to_nat n) polls ltac:(lia) _ [] _ _ Hrun) as (_ & Hs & Hw).
  { split_and!; [done|done|]. intros k x Hk. by rewrite lookup_nil in Hk. }
  split_and!; [exact Hs|exact Hw|]. intros Hlen. apply (short_window_NoDup (Z.to_nat n)); [exact Hw|].
  change (length (applied_ids effects) <= Z.to_nat n)%nat. lia.
Qed.

(** An object whose ["schema_version"] is an unhashable value (a list, an object)
    makes the membership test raise: the first such entry of a claimed page ends
    every poll before anything else is handled, so the group is jammed. *)
Lemma unhashable_version_jams now m raw env rest read self :
  json_loads (Text := Text) raw = JsonObject VersionUnhashable ->
  exists self', poll_once now (Ok (((m, Some raw), env) :: rest)) read self
    = (self', Raise (TypeError "unhashable type"), [])
    /\ co_dedup self' = co_dedup self.
Proof.
  intros Hj. unfold poll_once, handle_batch, handle_entry, decode_entry. rewrite Hj.
  cbn. eexists. split; reflexivity.
Qed.

End Lemmas.

(** * A concrete run *)

Definition sample_reference : MarketReference := {|
  ref_instrument := cash_equity "RELIANCE"; ref_previous_close := dec 2450 0 |}.

Definition sample_envelope (sequence : Z) : MarketEventEnvelope IpcPayload := {|
  env_schema_version := 1; env_producer_id := "producer-1"; env_producer_epoch := 1;
  env_producer_sequence := sequence; env_produced_at := 0; env_event_kind := MARKET_REFERENCE;
  env_trading_date := 20480; env_universe_version := 3;
  env_instrument_identity := "NSE:RELIANCE"; env_payload := PReference sample_reference |}.

Definition sample_env (sink ack : result unit) : Environment := {|
  he_now := 5; he_trading_date := Some 20480; he_universe_version := Some 3;
  he_sink := sink; he_ack := ack |}.

(** A poll that reads one entry whose acknowledgement fails, and one that is handed
    the same entry again. *)
Definition sample_polls : list (Poll (Raw := SampleRaw)) := [
  {| poll_now := 5; poll_claim := Ok [];
     poll_read := Ok [(("0", Some (inl (sample_envelope 1))), sample_env (Ok tt) (Raise RedisError))] |};
  {| poll_now := 6; poll_read := Ok [];
     poll_claim := Ok [(("0", Some (inl (sample_envelope 1))), sample_env (Ok tt) (Ok tt))] |} ].

Lemma consumer_applies_once_witness :
  snd (run_polls (mk_consumer {| max_entries := 2; seen := [] |}) sample_polls)
  = [Apply (sample_envelope 1) (PReference sample_reference); Acked "0"]
  /\ NoDup (applied_ids (snd (run_polls (mk_consumer {| max_entries := 2; seen := [] |}) sample_polls))).
Proof.
  split; [reflexivity|].
  destruct (run_polls (mk_consumer {| max_entries := 2; seen := [] |}) sample_polls)
    as [s effects] eqn:E.
  destruct (consumer_applies_once 2 {| max_entries := 2; seen := [] |} sample_polls s effects
    eq_refl E) as (_ & _ & H).
  apply H. change effects with (snd (s, effects)). rewrite <- E. vm_compute. discriminate.
Defined.
