(* ===== verification/IpcPublisher.v ===== *)
(** The producing side, market_ipc/publisher.py with [epoch.py], and the in-memory
    stream of [transport.py].

    [publish] takes what the clock, the two stamping authorities and the transport
    answer; the envelope handed to the transport is returned next to the outcome.
    The Redis implementation of the stream only forwards to the Redis client and is
    not modelled. *)
From stdpp Require Import pretty.
From S2P Require Import Prelude PyTime MarketData Ipc.

Local Open Scope Z_scope.

(** * Epochs *)

(** The Redis keys ["md:producer:epoch:<id>"]; [INCR] creates a missing key at 0. *)
Abbreviation EpochCounters := (gmap string Z) (only parsing).

(** [RedisEpochAllocator.allocate] *)
Definition allocate (counters : EpochCounters) (producer_id : string) : result (Z * EpochCounters) :=
  _ ← raise_if (is_empty producer_id) (ValueError "producer_id must be non-empty");
  let epoch := default 0 (counters !! producer_id) + 1 in
  Ok (epoch, <[producer_id := epoch]> counters).

(** * The publisher *)

Inductive PublishOutcome : Type :=
| PUBLISHED | FAILED_UNSUPPORTED | FAILED_OVERSIZE | FAILED_SERIALIZATION | FAILED_TRANSPORT.

#[global] Instance PublishOutcome_eq_dec : EqDecision PublishOutcome.
Proof. solve_decision. Defined.

(** [PublishableEvent]: the supported payloads and the other market data. *)
Inductive PublishableEvent : Type :=
| Supported (payload : IpcPayload)
| Unsupported.

(** [_Counters] *)
Record PublisherCounters : Type := {
  pc_attempted : Z;
  pc_published : Z;
  pc_publish_failures : Z;
  pc_serialization : Z;
  pc_oversize : Z;
  pc_unsupported : Z;
}.

Record MarketEventPublisher : Type := {
  pb_max_payload_bytes : Z;
  pb_producer_id : string;
  pb_epoch : option Z;
  pb_sequence : Z;
  pb_counters : PublisherCounters;
  pb_last_publish_at : option pydatetime;
}.

Definition mk_publisher (max_payload_bytes : Z) (producer_id : string) : result MarketEventPublisher :=
  _ ← raise_if (is_empty producer_id) (ValueError "producer_id must be non-empty");
  Ok {| pb_max_payload_bytes := max_payload_bytes; pb_producer_id := producer_id; pb_epoch := None;
        pb_sequence := 0; pb_counters := Build_PublisherCounters 0 0 0 0 0 0;
        pb_last_publish_at := None |}.

(** [start], with the answers of the allocator and of [ensure_group]. *)
Definition publisher_start (allocated : result Z) (ensure_group : result unit)
    (self : MarketEventPublisher) : MarketEventPublisher * result unit :=
  match pb_epoch self with
  | Some _ => (self, Ok tt)
  | None =>
      match allocated with
      | Raise e => (self, Raise e)
      | Ok epoch =>
          match ensure_group with
          | Raise e => (self, Raise e)
          | Ok _ => ({| pb_max_payload_bytes := pb_max_payload_bytes self;
                        pb_producer_id := pb_producer_id self; pb_epoch := Some epoch;
                        pb_sequence := 0; pb_counters := pb_counters self;
                        pb_last_publish_at := pb_last_publish_at self |}, Ok tt)
          end
      end
  end.

(** What the collaborators answer during one publish: the clock before and after,
    the trading date, the universe version. *)
Record PublishEnvironment : Type := {
  pe_now : pydatetime;
  pe_trading_date : result date;
  pe_universe_version : result Z;
  pe_now_after : pydatetime;
}.

(** Increments of the counters. *)
Definition attempted (c : PublisherCounters) : PublisherCounters :=
  {| pc_attempted := pc_attempted c + 1; pc_published := pc_published c;
     pc_publish_failures := pc_publish_failures c; pc_serialization := pc_serialization c;
     pc_oversize := pc_oversize c; pc_unsupported := pc_unsupported c |}.

Definition outcome_counted (o : PublishOutcome) (c : PublisherCounters) : PublisherCounters :=
  let one p := if bool_decide (o = p) then 1 else 0 in
  {| pc_attempted := pc_attempted c;
     pc_published := pc_published c + one PUBLISHED;
     pc_publish_failures := pc_publish_failures c + one FAILED_TRANSPORT;
     pc_serialization := pc_serialization c + one FAILED_SERIALIZATION;
     pc_oversize := pc_oversize c + one FAILED_OVERSIZE;
     pc_unsupported := pc_unsupported c + one FAILED_UNSUPPORTED |}.

Definition set_publisher (self : MarketEventPublisher) (sequence : Z) (c : PublisherCounters)
    (last : option pydatetime) : MarketEventPublisher := {|
  pb_max_payload_bytes := pb_max_payload_bytes self; pb_producer_id := pb_producer_id self;
  pb_epoch := pb_epoch self; pb_sequence := sequence; pb_counters := c;
  pb_last_publish_at := last |}.

Section Publish.
Context {Text Raw : Type} `{JsonCodec Text Raw}.

(** The [try] block that builds and measures the envelope. *)
Definition build_and_check (self : MarketEventPublisher) (env : PublishEnvironment)
    (payload : IpcPayload) (epoch sequence : Z) : result (MarketEventEnvelope Text) :=
  trading_date ← pe_trading_date env;
  version ← pe_universe_version env;
  envelope ← build_envelope payload (pb_producer_id self) epoch sequence (pe_now env)
    trading_date version;
  _ ← encode_envelope envelope (pb_max_payload_bytes self);
  Ok envelope.

(** [publish]; [transport] is the answer of the stream to the envelope. *)
Definition publish (self : MarketEventPublisher) (env : PublishEnvironment)
    (transport : MarketEventEnvelope Text -> result string) (datum : PublishableEvent)
    : MarketEventPublisher * result PublishOutcome * option (MarketEventEnvelope Text) :=
  match pb_epoch self with
  | None => (self, Raise (RuntimeError "publisher.publish called before start()"), None)
  | Some epoch =>
      let counters := attempted (pb_counters self) in
      match datum with
      | Unsupported =>
          (set_publisher self (pb_sequence self) (outcome_counted FAILED_UNSUPPORTED counters)
             (pb_last_publish_at self), Ok FAILED_UNSUPPORTED, None)
      | Supported payload =>
          let sequence := pb_sequence self + 1 in
          match build_and_check self env payload epoch sequence with
          | Raise e =>
              let o := if is_value_error e then FAILED_OVERSIZE else FAILED_SERIALIZATION in
              (set_publisher self sequence (outcome_counted o counters) (pb_last_publish_at self),
               Ok o, None)
          | Ok envelope =>
              match transport envelope with
              | Raise RedisPublishError =>
                  (set_publisher self sequence (outcome_counted FAILED_TRANSPORT counters)
                     (pb_last_publish_at self), Ok FAILED_TRANSPORT, Some envelope)
              | Raise e =>
                  (set_publisher self sequence counters (pb_last_publish_at self), Raise e,
                   Some envelope)
              | Ok _ =>
                  (set_publisher self sequence (outcome_counted PUBLISHED counters)
                     (Some (pe_now_after env)), Ok PUBLISHED, Some envelope)
              end
          end
      end
  end.

(** * The in-memory stream *)

Record InMemoryMarketEventStream : Type := {
  entries : list (string * MarketEventEnvelope Text);
  cursor : nat;
  pending : dict string (MarketEventEnvelope Text);
}.

Definition empty_stream : InMemoryMarketEventStream :=
  {| entries := []; cursor := 0; pending := [] |}.

(** [str(len(self._entries))] *)
Definition message_id_at (n : nat) : string := pretty n.

Definition stream_publish (self : InMemoryMarketEventStream) (envelope : MarketEventEnvelope Text)
    : InMemoryMarketEventStream * string :=
  let message_id := message_id_at (length (entries self)) in
  ({| entries := entries self ++ [(message_id, envelope)]; cursor := cursor self;
      pending := pending self |}, message_id).

Definition stream_read (self : InMemoryMarketEventStream)
    : InMemoryMarketEventStream * list (string * MarketEventEnvelope Text) :=
  let batch := drop (cursor self) (entries self) in
  ({| entries := entries self; cursor := length (entries self);
      pending := foldl (fun p kv => dict_set kv.1 kv.2 p) (pending self) batch |}, batch).

(** [(mid, encode_envelope(env))] *)
Definition encode_entry (kv : string * MarketEventEnvelope Text) : result (string * option Raw) :=
  raw ← encode_envelope kv.2 MAX_PAYLOAD_BYTES; Ok (kv.1, Some raw).

Definition read_raw (self : InMemoryMarketEventStream)
    : InMemoryMarketEventStream * result (list (string * option Raw)) :=
  let '(self, batch) := stream_read self in (self, traverse encode_entry batch).

(** [ack] of one message *)
Definition stream_ack (self : InMemoryMarketEventStream) (message_id : string)
    : InMemoryMarketEventStream * Z :=
  ({| entries := entries self; cursor := cursor self; pending := dict_pop message_id (pending self) |},
   if is_not_none (dict_get message_id (pending self)) then 1 else 0).

Definition claim_stale (self : InMemoryMarketEventStream)
    : list (string * MarketEventEnvelope Text) := pending self.

Definition claim_page_raw (self : InMemoryMarketEventStream)
    : result (list (string * option Raw)) := traverse encode_entry (claim_stale self).

End Publish.
Arguments InMemoryMarketEventStream Text : clear implicits.
