(* ===== verification/IpcSystem.v ===== *)
(** The publisher, the in-memory stream and the consumer of market_ipc composed: an
    interleaving of producer restarts, publishes and the awaits of one consumer's polls.

    A poll is suspended while it claims, while the sink applies an event, while an entry is
    acknowledged and while it reads; between two of these calls it runs on its own.  Producers
    start and publish at any of these points.  Transport faults are part of the steps: a
    publish may fail with or without having appended its entry, a claim, an acknowledgement
    or a read may fail with or without having been carried out, the sink may fail, and any
    call may be cancelled.  Each publish stamps the trading date and universe version of its
    own authorities and each entry is judged by the consumer's authorities of that moment. *)
From S2P Require Import Prelude PyTime MarketData Ipc IpcConsumer IpcPublisher.

Local Open Scope Z_scope.

(** * The turns of an entry *)

Section Turns.
Context {Text Raw : Type} `{JsonCodec Text Raw}.

Abbreviation Envelope := (MarketEventEnvelope Text) (only parsing).

(** What the handling of an entry comes to next: an exception, an outcome without another
    call, or a call it awaits. *)
Inductive Turn : Type :=
| TRaise (e : exn)
| TDone (outcome : MessageOutcome)
| TAck (outcome : MessageOutcome)
| TSink (e : Envelope) (event : IpcPayload).

(** [_finalize] up to its await. *)
Definition finalize_begin (outcome : MessageOutcome) : Turn :=
  if terminal outcome then TAck outcome else TDone outcome.

(** [_handle] up to its first await. *)
Definition handle_begin (self : MarketEventConsumer) (entry : RawDeliveredEvent (Raw := Raw)) (claimed : bool)
    (env : Environment) : MarketEventConsumer * Turn :=
  let '(_, raw) := entry in
  let self := received_at (he_now env) (count (if claimed then C_claimed else C_received) self) in
  match decode_entry raw with
  | Raise e => (self, TRaise e)
  | Ok (inr (outcome, slot)) => (count slot self, finalize_begin outcome)
  | Ok (inl e) =>
      let self := event_age (he_now env) e self in
      match gate env e with
      | Some (outcome, slot) => (count slot self, finalize_begin outcome)
      | None =>
          if dedup_contains (co_dedup self) (from_envelope e)
          then (count C_duplicate self, finalize_begin DUPLICATE)
          else match decode_event e with
               | inr (outcome, slot) => (count slot self, finalize_begin outcome)
               | inl event => (self, TSink e event)
               end
      end
  end.

(** [_apply_and_ack] once the sink has answered. *)
Definition sink_answered (now : instant) (self : MarketEventConsumer) (e : Envelope) (answer : result unit)
    : MarketEventConsumer * Turn :=
  match answer with
  | Raise CancelledError => (self, TRaise CancelledError)
  | Raise _ => (error_at now (count C_sink_failures self), TDone SINK_FAILED)
  | Ok _ => (applied_at now (from_envelope e) self, finalize_begin APPLIED)
  end.

(** [_finalize] once the transport has answered. *)
Definition ack_answered (now : instant) (self : MarketEventConsumer) (outcome : MessageOutcome) (answer : result unit)
    : MarketEventConsumer * Turn :=
  match answer with
  | Raise RedisError => (error_at now (count C_ack_failures self), TDone ACK_FAILED)
  | Raise e => (self, TRaise e)
  | Ok _ => (acked_at now (count C_acked self), TDone outcome)
  end.

(** The turns run without an interruption. *)
Fixpoint run_turns (fuel : nat) (env : Environment) (message_id : string) (self : MarketEventConsumer) (turn : Turn)
    : Handled (Text := Text) :=
  match fuel, turn with
  | _, TRaise e => (self, Raise e, [])
  | _, TDone outcome => (self, Ok outcome, [])
  | S fuel, TAck outcome =>
      let '(self, turn) := ack_answered (he_now env) self outcome (he_ack env) in
      let '(self, r, effects) := run_turns fuel env message_id self turn in
      (self, r, if is_ok (he_ack env) then Acked message_id :: effects else effects)
  | S fuel, TSink e event =>
      let '(self, turn) := sink_answered (he_now env) self e (he_sink env) in
      let '(self, r, effects) := run_turns fuel env message_id self turn in
      (self, r, if is_ok (he_sink env) then Apply e event :: effects else effects)
  | O, _ => (self, Raise (ValueError "fuel"), [])
  end.

(** [_handle] is its turns: an entry awaits the sink, the transport, and nothing else. *)
Lemma handle_entry_turns self entry claimed env :
  handle_entry self entry claimed env
  = let '(self, turn) := handle_begin self entry claimed env in run_turns 2 env entry.1 self turn.
Proof.
  assert (Hfin : forall s m o, finalize env s m o = run_turns 2 env m s (finalize_begin o)).
  { intros s m o. unfold finalize, finalize_begin. destruct (terminal o); [|done]. cbn.
    by destruct (he_ack env) as [|[]]. }
  destruct entry as [m raw]. unfold handle_entry, handle_begin. cbn [fst].
  destruct (decode_entry raw) as [[e|[o slot]]|x]; [|apply Hfin|done].
  destruct (gate env e) as [[o slot]|]; [apply Hfin|].
  destruct (dedup_contains _ _); [apply Hfin|].
  destruct (decode_event e) as [event|[o slot]]; [|apply Hfin].
  unfold apply_and_ack. cbn. destruct (he_sink env) as [[]|x]; [|by destruct x].
  unfold finalize. cbn. by destruct (he_ack env) as [|[]].
Qed.

End Turns.

Section System.
Context {Text Raw : Type} `{JsonCodecLaws Text Raw}.

Abbreviation Envelope := (MarketEventEnvelope Text) (only parsing).

Variables (producer_id : string) (max_payload_bytes : Z).

(** Where [poll_once] is suspended: not running, in the sink or in the acknowledgement of an
    entry with the rest of its page, or in the read after the claimed page. *)
Inductive PollPhase : Type :=
| Idle
| AwaitingSink (claimed : bool) (message_id : string) (e : Envelope) (event : IpcPayload)
    (rest : list (RawDeliveredEvent (Raw := Raw)))
| AwaitingAck (claimed : bool) (message_id : string) (outcome : MessageOutcome)
    (rest : list (RawDeliveredEvent (Raw := Raw)))
| AwaitingRead.

(** [w_applied] and [w_refused] record what the sink took and what the gates turned away. *)
Record World : Type := {
  w_epochs : gmap string Z;
  w_publisher : MarketEventPublisher;
  w_stream : InMemoryMarketEventStream Text;
  w_consumer : MarketEventConsumer;
  w_poll : PollPhase;
  w_applied : list (Envelope * IpcPayload);
  w_refused : list (Envelope * Environment);
}.

Definition initial_world (capacity : nat) : World := {|
  w_epochs := ∅;
  w_publisher := {| pb_max_payload_bytes := max_payload_bytes; pb_producer_id := producer_id;
                    pb_epoch := None; pb_sequence := 0;
                    pb_counters := Build_PublisherCounters 0 0 0 0 0 0; pb_last_publish_at := None |};
  w_stream := empty_stream; w_consumer := mk_consumer {| max_entries := capacity; seen := [] |};
  w_poll := Idle; w_applied := []; w_refused := [] |}.

(** The entry a gate turns away. *)
Definition refusal (raw : option Raw) (env : Environment) : list (Envelope * Environment) :=
  match decode_entry raw with
  | Ok (inl e) => if is_not_none (gate env e) then [(e, env)] else []
  | _ => []
  end.

(** The loop over a page up to the next await. *)
Fixpoint advance (claimed : bool) (envs : string -> Environment) (self : MarketEventConsumer)
    (refused : list (Envelope * Environment)) (page : list (RawDeliveredEvent (Raw := Raw)))
    : MarketEventConsumer * PollPhase * list (Envelope * Environment) :=
  match page with
  | [] => (self, if claimed then AwaitingRead else Idle, refused)
  | (message_id, raw) :: rest =>
      let '(self, turn) := handle_begin self (message_id, raw) claimed (envs message_id) in
      let refused := refused ++ refusal raw (envs message_id) in
      match turn with
      | TRaise _ => (self, Idle, refused)
      | TDone _ => advance claimed envs self refused rest
      | TAck outcome => (self, AwaitingAck claimed message_id outcome rest, refused)
      | TSink e event => (self, AwaitingSink claimed message_id e event rest, refused)
      end
  end.

(** What a turn leads to when its entry has been dealt with so far. *)
Definition follow (claimed : bool) (envs : string -> Environment) (message_id : string)
    (rest : list (RawDeliveredEvent (Raw := Raw))) (stream : InMemoryMarketEventStream Text)
    (applied : list (Envelope * IpcPayload)) (w : World) (turned : MarketEventConsumer * Turn (Text := Text)) : World :=
  let '(consumer, turn) := turned in
  let '(consumer, phase, refused) :=
    match turn with
    | TRaise _ => (consumer, Idle, w_refused w)
    | TDone _ => advance claimed envs consumer (w_refused w) rest
    | TAck outcome => (consumer, AwaitingAck claimed message_id outcome rest, w_refused w)
    | TSink e event => (consumer, AwaitingSink claimed message_id e event rest, w_refused w)
    end in
  {| w_epochs := w_epochs w; w_publisher := w_publisher w; w_stream := stream; w_consumer := consumer;
     w_poll := phase; w_applied := applied; w_refused := refused |}.

(** A page arrives. *)
Definition start_page (claimed : bool) (envs : string -> Environment) (stream : InMemoryMarketEventStream Text)
    (page : result (list (RawDeliveredEvent (Raw := Raw)))) (w : World) : World :=
  let '(consumer, phase, refused) :=
    match page with
    | Ok page => advance claimed envs (w_consumer w) (w_refused w) page
    | Raise _ => (w_consumer w, Idle, w_refused w)
    end in
  {| w_epochs := w_epochs w; w_publisher := w_publisher w; w_stream := stream; w_consumer := consumer;
     w_poll := phase; w_applied := w_applied w; w_refused := refused |}.

(** A claim or a read that raises ends the poll. *)
Definition failed_read (now : instant) (error : exn) (stream : InMemoryMarketEventStream Text) (w : World) : World :=
  {| w_epochs := w_epochs w; w_publisher := w_publisher w; w_stream := stream;
     w_consumer := match error with
                   | RedisError => record_read_failure now (w_consumer w)
                   | _ => w_consumer w
                   end;
     w_poll := Idle; w_applied := w_applied w; w_refused := w_refused w |}.

Inductive ipc_step : World -> World -> Prop :=
(** A producer process starts: a new publisher with a freshly allocated epoch. *)
| step_producer w publisher epoch epochs ensure_group publisher' r :
    mk_publisher max_payload_bytes producer_id = Ok publisher ->
    allocate (w_epochs w) producer_id = Ok (epoch, epochs) ->
    publisher_start (Ok epoch) ensure_group publisher = (publisher', r) ->
    ipc_step w {| w_epochs := epochs; w_publisher := publisher'; w_stream := w_stream w;
                  w_consumer := w_consumer w; w_poll := w_poll w; w_applied := w_applied w;
                  w_refused := w_refused w |}
(** One publish; [reported] is what the transport answers, [appended] what it did. *)
| step_publish w env (reported appended : bool) datum publisher' r sent :
    (forall p, datum = Supported p -> payload_constructed p) ->
    (reported = true -> appended = true) ->
    publish (w_publisher w) env
      (fun e => if reported then Ok (stream_publish (w_stream w) e).2 else Raise RedisPublishError)
      datum = (publisher', r, sent) ->
    ipc_step w {| w_epochs := w_epochs w; w_publisher := publisher';
                  w_stream := match sent with
                              | Some e => if appended then (stream_publish (w_stream w) e).1
                                          else w_stream w
                              | None => w_stream w
                              end;
                  w_consumer := w_consumer w; w_poll := w_poll w; w_applied := w_applied w;
                  w_refused := w_refused w |}
(** A poll starts and its claim is answered. *)
| step_claim w envs : w_poll w = Idle ->
    ipc_step w (start_page true envs (w_stream w) (claim_page_raw (w_stream w)) w)
| step_claim_fails w now error : w_poll w = Idle -> ipc_step w (failed_read now error (w_stream w) w)
(** The sink answers. *)
| step_sink w now envs answer claimed message_id e event rest :
    w_poll w = AwaitingSink claimed message_id e event rest ->
    ipc_step w (follow claimed envs message_id rest (w_stream w)
                  (if is_ok answer then w_applied w ++ [(e, event)] else w_applied w) w
                  (sink_answered now (w_consumer w) e answer))
(** The acknowledgement is answered; [dropped] is whether the entry was dropped. *)
| step_ack w now envs answer (dropped : bool) claimed message_id outcome rest :
    w_poll w = AwaitingAck claimed message_id outcome rest -> (is_ok answer = true -> dropped = true) ->
    ipc_step w (follow claimed envs message_id rest
                  (if dropped then (stream_ack (w_stream w) message_id).1 else w_stream w)
                  (w_applied w) w (ack_answered now (w_consumer w) outcome answer))
(** The read is answered; a failed one may have been carried out. *)
| step_read w envs : w_poll w = AwaitingRead ->
    ipc_step w (start_page false envs (read_raw (w_stream w)).1 (read_raw (w_stream w)).2 w)
| step_read_fails w now error (moved : bool) : w_poll w = AwaitingRead ->
    ipc_step w (failed_read now error (if moved then (read_raw (w_stream w)).1 else w_stream w) w).

Inductive reachable (capacity : nat) : World -> Prop :=
| reachable_initial : reachable capacity (initial_world capacity)
| reachable_step w w' : reachable capacity w -> ipc_step w w' -> reachable capacity w'.

(** * The entries of the stream *)

(** An entry the producer built: it decodes back to the payload it was built from. *)
Definition entry_valid (e : Envelope) : Prop :=
  envelope_constructed e /\ raw_bytes (dump_envelope e) <= max_payload_bytes
  /\ env_schema_version e = SCHEMA_VERSION
  /\ exists p, payload_constructed p /\ env_event_kind e = event_kind_for p
       /\ env_payload e = dump_payload p.

Lemma entry_decodes e : entry_valid e -> decode_entry (Some (dump_envelope e)) = Ok (inl e).
Proof.
  intros (Hc & _ & Hs & _). unfold decode_entry. rewrite envelope_shape, Hs.
  cbn [version_supported SCHEMA_VERSION]. unfold dec_eqb. rewrite bool_decide_true by done.
  by rewrite envelope_roundtrip.
Qed.

(** The consumer's authorities disagree with what an entry was stamped with. *)
Definition disagrees (env : Environment) (e : Envelope) : Prop :=
  (exists d, he_trading_date env = Some d /\ d <> env_trading_date e)
  \/ he_universe_version env <> Some (env_universe_version e).

Lemma gate_exact env e : is_Some (gate env e) <-> disagrees env e.
Proof using Type.
  unfold gate, disagrees, compare_universe_version. split.
  - destruct (he_trading_date env) as [d|].
    + destruct (Z.ltb_spec (env_trading_date e) d); [intros _; left; exists d; split; [done|lia]|].
      destruct (Z.ltb_spec d (env_trading_date e)); [intros _; left; exists d; split; [done|lia]|].
      destruct (he_universe_version env) as [v|]; [|by right]. intros [x Hx]. right. intros [= ->].
      by rewrite Z.eqb_refl in Hx.
    + destruct (he_universe_version env) as [v|]; [|by right]. intros [x Hx]. right. intros [= ->].
      by rewrite Z.eqb_refl in Hx.
  - intros Hdis. destruct (he_trading_date env) as [d|].
    + destruct (Z.ltb_spec (env_trading_date e) d); [by eexists|].
      destruct (Z.ltb_spec d (env_trading_date e)); [by eexists|].
      destruct Hdis as [(d' & [= <-] & Hd)|Hv]; [lia|].
      destruct (he_universe_version env) as [v|]; [|by eexists].
      destruct (Z.eqb_spec (env_universe_version e) v); [congruence|]. destruct (_ <? _); by eexists.
    + destruct Hdis as [(d' & [=] & _)|Hv]. destruct (he_universe_version env) as [v|]; [|by eexists].
      destruct (Z.eqb_spec (env_universe_version e) v); [congruence|]. destruct (_ <? _); by eexists.
Qed.

Lemma entry_event e : entry_valid e ->
  exists p, decode_event e = inl p /\ payload_constructed p /\ env_payload e = dump_payload p
    /\ env_event_kind e = event_kind_for p.
Proof.
  intros (_ & _ & _ & p & Hp & Hk & Htext). exists p. split; [|done].
  unfold decode_event. by rewrite Hk, Htext, payload_roundtrip.
Qed.

Lemma strip_bounded_name s v : bounded_name s = Ok v -> bounded_name v = Ok v.
Proof.
  intros Hs. pose proof (strip_bounded _ _ Hs) as Hv. revert Hs. unfold bounded_name.
  assert (strip v = v) as -> by (rewrite Hv; apply strip_idem).
  rewrite <- Hv. intros ([] & -> & ([] & -> & _)%bind_ok)%bind_ok. done.
Qed.

Lemma mk_envelope_constructed sv pid epoch sequence produced_at kind d v identity payload e :
  mk_envelope sv pid epoch sequence produced_at kind d v identity payload = Ok e ->
  envelope_constructed e.
Proof.
  unfold mk_envelope.
  intros (pid' & Hpid & ([] & Hnn & (at' & Hat & ([] & Hsv & (i & Hi & ([] & Hwf & ([] & Hmin & ([] & Hmax & [= <-])
    %bind_ok)%bind_ok)%bind_ok)%bind_ok)%bind_ok)%bind_ok)%bind_ok)%bind_ok.
  unfold envelope_constructed, mk_envelope. cbn.
  rewrite (strip_bounded_name _ _ Hpid). cbn. rewrite Hnn. cbn. rewrite Hsv. cbn.
  rewrite (strip_bounded_name _ _ Hi). cbn. rewrite Hwf. cbn. rewrite Hmin. cbn. by rewrite Hmax.
Qed.

(** * The delivery invariant *)

(** An entry below the cursor: it was read at least once. *)
Definition delivered (stream : InMemoryMarketEventStream Text) (m : string) (e : Envelope) : Prop :=
  exists k, (k < cursor stream)%nat /\ entries stream !! k = Some (m, e).

(** What holds of the stream, the deduplicator, the sink and the gates, whatever was
    published. *)
Record delivery (capacity : nat) (stream : InMemoryMarketEventStream Text)
    (dedup : BoundedDeduplicator) (applied : list (Envelope * IpcPayload))
    (refused : list (Envelope * Environment)) : Prop := {
  d_valid : forall k m e, entries stream !! k = Some (m, e) -> m = message_id_at k /\ entry_valid e;
  d_unique : NoDup (from_envelope <$> (entries stream).*2);
  d_cursor : (cursor stream <= length (entries stream))%nat;
  d_pending : forall m e, (m, e) ∈ pending stream -> delivered stream m e;
  d_pending_unique : NoDup (pending stream).*1;
  d_window : window_ok capacity (from_envelope <$> applied.*1) dedup;
  d_applied : forall e p, (e, p) ∈ applied ->
    (exists m, delivered stream m e)
    /\ decode_event e = inl p;
  d_refused : forall e env, (e, env) ∈ refused -> (exists m, delivered stream m e) /\ disagrees env e;
  d_done : forall m e, delivered stream m e -> (m, e) ∈ pending stream \/ e ∈ applied.*1 \/ e ∈ refused.*1;
}.

(** Entries of a page that was claimed or read. *)
Definition page_ok (stream : InMemoryMarketEventStream Text) (page : list (RawDeliveredEvent (Raw := Raw))) : Prop :=
  Forall (fun entry => exists e, entry.2 = Some (dump_envelope e) /\ delivered stream entry.1 e) page.

(** What a suspended poll knows of its entry. *)
Definition phase_ok (stream : InMemoryMarketEventStream Text) (dedup : BoundedDeduplicator)
    (applied : list (Envelope * IpcPayload)) (refused : list (Envelope * Environment)) (phase : PollPhase) : Prop :=
  match phase with
  | Idle | AwaitingRead => True
  | AwaitingSink _ m e event rest =>
      delivered stream m e /\ decode_event e = inl event /\ dedup_contains dedup (from_envelope e) = false
      /\ page_ok stream rest
  | AwaitingAck _ m _ rest =>
      (exists e, delivered stream m e /\ (e ∈ applied.*1 \/ e ∈ refused.*1)) /\ page_ok stream rest
  end.

Lemma unique_entry capacity stream d applied refused m m' e e' :
  delivery capacity stream d applied refused -> delivered stream m e -> delivered stream m' e' ->
  from_envelope e = from_envelope e' -> m = m' /\ e = e'.
Proof using Type.
  intros HD (k & _ & Hk) (k' & _ & Hk') Heq.
  assert (k = k') as <-; [|simplify_eq; done].
  apply (NoDup_lookup _ _ _ (from_envelope e) (d_unique _ _ _ _ _ HD)).
  - by rewrite !list_lookup_fmap, Hk.
  - by rewrite !list_lookup_fmap, Hk', Heq.
Qed.

Lemma delivered_id_unique capacity stream d applied refused m e e' :
  delivery capacity stream d applied refused -> delivered stream m e -> delivered stream m e' -> e = e'.
Proof using Type.
  intros HD (k & _ & Hk) (k' & _ & Hk').
  destruct (d_valid _ _ _ _ _ HD _ _ _ Hk) as [-> _].
  destruct (d_valid _ _ _ _ _ HD _ _ _ Hk') as [Hm _].
  apply (inj pretty) in Hm as ->. congruence.
Qed.

Lemma delivered_valid capacity stream d applied refused m e :
  delivery capacity stream d applied refused -> delivered stream m e -> entry_valid e.
Proof using Type. intros HD (k & _ & Hk). by destruct (d_valid _ _ _ _ _ HD _ _ _ Hk). Qed.

(** Acknowledging an entry that was applied or turned away. *)
Lemma delivery_ack capacity stream d applied refused m e :
  delivery capacity stream d applied refused -> delivered stream m e -> e ∈ applied.*1 \/ e ∈ refused.*1 ->
  delivery capacity (stream_ack stream m).1 d applied refused.
Proof using Type.
  intros HD Hm He. destruct HD as [Hv Hu Hc Hp Hpn Hw Ha Hr Hd] eqn:HDeq.
  split; [exact Hv|exact Hu|exact Hc| |by apply dict_pop_NoDup|exact Hw|exact Ha|exact Hr|].
  - intros m' e' [_ Hin]%list_elem_of_filter. by apply Hp.
  - intros m' e' Hdel. cbn. destruct (decide (m' = m)) as [->|Hne].
    + right. assert (e' = e) as -> by (eapply delivered_id_unique; [exact HD|exact Hdel|exact Hm]). done.
    + destruct (Hd m' e' Hdel) as [Hin|Hin]; [left|by right].
      by apply list_elem_of_filter.
Qed.

(** Applying an acceptable entry. *)
Lemma delivery_apply capacity stream d applied refused m e event : (0 < capacity)%nat ->
  delivery capacity stream d applied refused -> delivered stream m e ->
  dedup_contains d (from_envelope e) = false ->
  decode_event e = inl event ->
  delivery capacity stream (dedup_record d (from_envelope e)) (applied ++ [(e, event)]) refused.
Proof using Type.
  intros Hn HD Hm Hfresh Hdec.
  destruct HD as [Hv Hu Hc Hpe Hpn Hw Ha Hr Hd].
  split; [exact Hv|exact Hu|exact Hc|exact Hpe|exact Hpn| | |exact Hr|].
  - rewrite !fmap_app. by apply window_record.
  - intros e' p' [Hin|Hin%list_elem_of_singleton]%elem_of_app; [by apply Ha|].
    simplify_eq. split; [by exists m|done].
  - intros m' e' Hdel. rewrite fmap_app, elem_of_app. destruct (Hd m' e' Hdel) as [|[|]]; auto.
Qed.

(** Turning an entry away. *)
Lemma delivery_refuse capacity stream d applied refused m e env :
  delivery capacity stream d applied refused -> delivered stream m e -> disagrees env e ->
  delivery capacity stream d applied (refused ++ [(e, env)]).
Proof using Type.
  intros HD Hm Hdis. destruct HD as [Hv Hu Hc Hpe Hpn Hw Ha Hr Hd].
  split; [exact Hv|exact Hu|exact Hc|exact Hpe|exact Hpn|exact Hw|exact Ha| |].
  - intros e' env' [Hin|Hin%list_elem_of_singleton]%elem_of_app; [by apply Hr|]. simplify_eq. split; [by exists m|done].
  - intros m' e' Hdel. rewrite fmap_app, elem_of_app. destruct (Hd m' e' Hdel) as [|[|]]; auto.
Qed.

(** A duplicate was applied. *)
Lemma duplicate_applied capacity stream d applied refused m e :
  delivery capacity stream d applied refused -> delivered stream m e ->
  dedup_contains d (from_envelope e) = true -> e ∈ applied.*1.
Proof using Type.
  intros HD Hm Hin%bool_decide_eq_true. destruct (d_window _ _ _ _ _ HD) as (_ & Hs & _).
  rewrite Hs in Hin. assert (Hin' : from_envelope e ∈ (from_envelope <$> applied.*1)).
  { rewrite <- (take_drop (length (from_envelope <$> applied.*1) - capacity) (from_envelope <$> applied.*1)).
    apply elem_of_app. by right. }
  apply list_elem_of_fmap in Hin' as (e' & Heq & [[e'' p] [-> Happ]]%list_elem_of_fmap). cbn in *.
  destruct (d_applied _ _ _ _ _ HD _ _ Happ) as [(m' & Hm') _].
  destruct (unique_entry _ _ _ _ _ _ _ _ _ HD Hm Hm' Heq) as [-> ->].
  apply list_elem_of_fmap. by exists (e'', p).
Qed.

(** An entry up to its first await: nothing but a refusal is recorded, and it is turned away,
    a duplicate, or on its way to the sink. *)
Lemma handle_begin_ok capacity stream applied refused self m e claimed env self' turn :
  delivery capacity stream (co_dedup self) applied refused -> delivered stream m e ->
  handle_begin self (m, Some (dump_envelope e)) claimed env = (self', turn) ->
  let refused' := refused ++ refusal (Some (dump_envelope e)) env in
  co_dedup self' = co_dedup self /\ delivery capacity stream (co_dedup self) applied refused'
  /\ match turn with
     | TAck _ => e ∈ applied.*1 \/ e ∈ refused'.*1
     | TSink e' event => e' = e /\ decode_event e = inl event /\ dedup_contains (co_dedup self) (from_envelope e) = false
     | TRaise _ | TDone _ => False
     end.
Proof.
  intros HD Hm. pose proof (delivered_valid _ _ _ _ _ _ _ HD Hm) as Hval.
  destruct (entry_event e Hval) as (p & Hdec & _). pose proof (gate_exact env e) as Hgate.
  unfold handle_begin, refusal. rewrite (entry_decodes e Hval).
  destruct (gate env e) as [[o slot]|] eqn:Eg; cbn [is_not_none].
  - intros [= <- <-]. split; [done|]. split.
    + eapply delivery_refuse; [exact HD|exact Hm|]. by apply Hgate.
    + assert (Ho : finalize_begin (Text := Text) o = TAck o) by (unfold gate in Eg; repeat case_match; by simplify_eq).
      rewrite Ho. right. rewrite fmap_app, elem_of_app. right. by apply list_elem_of_singleton.
  - cbn [co_dedup event_age received_at count with_counters]. rewrite app_nil_r.
    destruct (dedup_contains (co_dedup self) (from_envelope e)) eqn:Edup.
    + intros [= <- <-]. split_and!; [done|exact HD|]. left. by eapply duplicate_applied.
    + rewrite Hdec. intros [= <- <-]. by split_and!.
Qed.

(** The loop up to its next await. *)
Lemma advance_ok capacity claimed envs stream applied page : forall self refused self' phase refused',
  delivery capacity stream (co_dedup self) applied refused -> page_ok stream page ->
  advance claimed envs self refused page = (self', phase, refused') ->
  delivery capacity stream (co_dedup self') applied refused'
  /\ phase_ok stream (co_dedup self') applied refused' phase.
Proof.
  destruct page as [|[m raw] rest]; intros self refused self' phase refused' HD Hpage; cbn [advance].
  { intros [= <- <- <-]. split; [exact HD|]. by destruct claimed. }
  apply Forall_cons in Hpage as [(e & Hraw & Hm) Hrest]. cbn in Hraw, Hm. subst raw.
  destruct (handle_begin self (m, Some (dump_envelope e)) claimed (envs m)) as [self1 turn] eqn:Eb.
  destruct (handle_begin_ok _ _ _ _ _ _ _ _ _ _ _ HD Hm Eb) as (Hd & HD' & Hturn).
  destruct turn as [x|o|o|e' event]; [done|done| |]; intros [= <- <- <-]; rewrite Hd; (split; [exact HD'|]).
  - split; [|exact Hrest]. by exists e.
  - destruct Hturn as (-> & Hev & Hdup). by split_and!.
Qed.

(** ** Pages *)

Lemma entry_encodes kv : max_payload_bytes <= MAX_PAYLOAD_BYTES -> entry_valid kv.2 ->
  encode_entry kv = Ok (kv.1, Some (dump_envelope kv.2)).
Proof using Type.
  intros Hle (_ & Hb & _). unfold encode_entry, encode_envelope.
  destruct (MAX_PAYLOAD_BYTES <? raw_bytes (dump_envelope kv.2)) eqn:E; [zbool; lia|done].
Qed.

Lemma page_encodes page : max_payload_bytes <= MAX_PAYLOAD_BYTES -> Forall (fun kv => entry_valid kv.2) page ->
  traverse encode_entry page = Ok ((fun kv => (kv.1, Some (dump_envelope kv.2))) <$> page).
Proof using Type.
  intros Hle. induction 1 as [|kv page Hkv _ IH]; [done|].
  cbn [traverse fmap list_fmap]. rewrite entry_encodes by done. cbn. by rewrite IH.
Qed.

(** A page of delivered entries goes out as it is. *)
Lemma page_delivered capacity stream d applied refused (page : list (string * Envelope)) :
  max_payload_bytes <= MAX_PAYLOAD_BYTES -> delivery capacity stream d applied refused ->
  (forall m e, (m, e) ∈ page -> delivered stream m e) ->
  exists raws, traverse encode_entry page = Ok raws /\ page_ok stream raws.
Proof using Type.
  intros Hle HD Hpage. eexists. split.
  - apply page_encodes; [done|]. apply Forall_forall. intros [m e] Hin. by eapply delivered_valid, Hpage.
  - apply Forall_fmap, Forall_forall. intros [m e] Hin. exists e. split; [done|]. by apply Hpage.
Qed.

(** The message ids of the entries, and of the pending ones, are all different. *)
Lemma entries_ids_NoDup capacity stream d applied refused : delivery capacity stream d applied refused ->
  NoDup (entries stream).*1.
Proof using Type.
  intros HD. apply NoDup_alt. intros i j m Hi Hj. rewrite list_lookup_fmap in Hi, Hj.
  destruct (entries stream !! i) as [[mi ei]|] eqn:Ei; [|done].
  destruct (entries stream !! j) as [[mj ej]|] eqn:Ej; [|done]. simplify_eq/=.
  destruct (d_valid _ _ _ _ _ HD _ _ _ Ei) as [-> _].
  destruct (d_valid _ _ _ _ _ HD _ _ _ Ej) as [Hm _]. by apply (inj pretty) in Hm.
Qed.

(** Reading moves the cursor to the end; what was skipped becomes pending. *)
Lemma read_delivery capacity stream d applied refused :
  delivery capacity stream d applied refused ->
  let '(stream', batch) := stream_read stream in
  delivery capacity stream' d applied refused /\ entries stream' = entries stream
  /\ cursor stream' = length (entries stream) /\ pending stream' = pending stream ++ batch
  /\ (forall m e, (m, e) ∈ batch -> delivered stream' m e).
Proof using Type.
  intros HD. pose proof (entries_ids_NoDup _ _ _ _ _ HD) as Hids.
  destruct HD as [Hv Hu Hc Hp Hpn Hw Ha Href Hd] eqn:HDeq. unfold stream_read. cbv zeta.
  set (batch := drop (cursor stream) (entries stream)).
  assert (Hbatch : forall m e, (m, e) ∈ batch ->
    exists k, (cursor stream <= k)%nat /\ entries stream !! k = Some (m, e)).
  { intros m e [i Hi]%list_elem_of_lookup. unfold batch in Hi. rewrite lookup_drop in Hi.
    exists (cursor stream + i)%nat. split; [lia|done]. }
  assert (Hn : NoDup (pending stream ++ batch).*1).
  { rewrite fmap_app. apply NoDup_app. split_and!; [exact Hpn| |].
    - intros m ([m1 e1] & -> & H1)%list_elem_of_fmap ([m2 e2] & Heq & H2)%list_elem_of_fmap.
      cbn in Heq. subst m2. destruct (Hp _ _ H1) as (k1 & Hk1 & E1). destruct (Hbatch _ _ H2) as (k2 & Hk2 & E2).
      assert (k1 = k2); [|lia]. apply (NoDup_lookup _ _ _ m1 Hids); by rewrite list_lookup_fmap, ?E1, ?E2.
    - unfold batch. rewrite fmap_drop. eapply sublist_NoDup; [exact Hids|apply sublist_drop]. }
  rewrite (dict_fold_fresh batch (pending stream) Hn).
  assert (Hdel : forall m e, (m, e) ∈ batch -> exists k, (k < length (entries stream))%nat
    /\ entries stream !! k = Some (m, e)).
  { intros m e (k & _ & Hk)%Hbatch. exists k. split; [by eapply lookup_lt_Some|done]. }
  assert (Hmono : forall m e, delivered stream m e -> exists k, (k < length (entries stream))%nat
    /\ entries stream !! k = Some (m, e)).
  { intros m e (k & _ & Hk). exists k. split; [by eapply lookup_lt_Some|done]. }
  split_and!; [|done|done|done|exact Hdel].
  split; cbn; [exact Hv|exact Hu|done| |exact Hn|exact Hw| | |].
  - intros m e [Hin|Hin]%elem_of_app; [apply Hmono; by apply Hp|by apply Hdel].
  - intros e p [(m & Hm) Hrest]%Ha. split; [|exact Hrest]. exists m. by apply Hmono.
  - intros e env [(m & Hm) Hrest]%Href. split; [|exact Hrest]. exists m. by apply Hmono.
  - intros m e (k & Hk & He). destruct (decide (k < cursor stream)%nat) as [Hlt|Hge].
    + destruct (Hd m e) as [Hin|Hin]; [by exists k| |by right]. left. apply elem_of_app. by left.
    + left. apply elem_of_app. right. apply list_elem_of_lookup. exists (k - cursor stream)%nat.
      unfold batch. rewrite lookup_drop. by replace (cursor stream + (k - cursor stream))%nat with k by lia.
Qed.

(** ** The consumer's steps *)

Definition world_delivery (capacity : nat) (w : World) : Prop :=
  delivery capacity (w_stream w) (co_dedup (w_consumer w)) (w_applied w) (w_refused w)
  /\ phase_ok (w_stream w) (co_dedup (w_consumer w)) (w_applied w) (w_refused w) (w_poll w).

Lemma page_ok_ack stream m page : page_ok stream page -> page_ok (stream_ack stream m).1 page.
Proof using Type. done. Qed.

Lemma start_page_ok capacity claimed envs stream page w :
  delivery capacity stream (co_dedup (w_consumer w)) (w_applied w) (w_refused w) ->
  (forall raws, page = Ok raws -> page_ok stream raws) ->
  world_delivery capacity (start_page claimed envs stream page w).
Proof.
  intros HD Hpage. unfold start_page. destruct page as [raws|x]; [|by split].
  destruct (advance claimed envs (w_consumer w) (w_refused w) raws) as [[self' phase] refused'] eqn:E.
  by eapply advance_ok in E; [|exact HD|apply Hpage].
Qed.

Lemma failed_read_ok capacity now error stream w :
  delivery capacity stream (co_dedup (w_consumer w)) (w_applied w) (w_refused w) ->
  world_delivery capacity (failed_read now error stream w).
Proof using Type. intros HD. split; [|done]. by destruct error. Qed.

(** After the sink or the transport has answered; in between the entry was dealt with. *)
Lemma follow_ok capacity claimed envs m rest stream applied w self turn :
  delivery capacity stream (co_dedup self) applied (w_refused w) -> page_ok stream rest ->
  match turn with
  | TAck _ => exists e, delivered stream m e /\ (e ∈ applied.*1 \/ e ∈ (w_refused w).*1)
  | TSink _ _ => False
  | TRaise _ | TDone _ => True
  end ->
  world_delivery capacity (follow claimed envs m rest stream applied w (self, turn)).
Proof.
  intros HD Hrest Hturn. unfold follow. destruct turn as [x|o|o|e event]; [by split| |by split|done].
  destruct (advance claimed envs self (w_refused w) rest) as [[self' phase] refused'] eqn:E.
  by eapply advance_ok in E.
Qed.

(** * The producer's invariant *)

(** Every identity in the stream is older than the next one of the running publisher. *)
Definition producer_ok (w : World) : Prop :=
  let current := default 0 (w_epochs w !! producer_id) in
  pb_max_payload_bytes (w_publisher w) = max_payload_bytes
  /\ pb_producer_id (w_publisher w) = producer_id
  /\ (forall epoch, pb_epoch (w_publisher w) = Some epoch -> epoch = current)
  /\ forall m e, (m, e) ∈ entries (w_stream w) ->
      env_producer_epoch e <= current
      /\ (env_producer_epoch e = current -> pb_epoch (w_publisher w) = Some current ->
          env_producer_sequence e <= pb_sequence (w_publisher w)).

(** An envelope handed to the transport. *)
Lemma publish_sent self env transport datum self' r sent epoch :
  publish (Text := Text) self env transport datum = (self', r, sent) ->
  pb_epoch self = Some epoch ->
  pb_max_payload_bytes self' = pb_max_payload_bytes self /\ pb_producer_id self' = pb_producer_id self
  /\ pb_epoch self' = pb_epoch self /\ pb_sequence self <= pb_sequence self' 
  /\ forall e, sent = Some e -> exists p, datum = Supported p
     /\ build_and_check self env p epoch (pb_sequence self + 1) = Ok e
     /\ pb_sequence self' = pb_sequence self + 1.
Proof.
  unfold publish. intros Hp He. rewrite He in Hp. revert Hp. destruct datum as [p|].
  2: { intros [= <- <- <-]. cbn. split_and!; [done..|lia|done]. }
  destruct (build_and_check self env p epoch (pb_sequence self + 1)) as [e|x] eqn:Eb.
  2: { intros [= <- <- <-]. cbn. split_and!; [done..|lia|done]. }
  assert (H' : forall self'', pb_max_payload_bytes self'' = pb_max_payload_bytes self ->
    pb_producer_id self'' = pb_producer_id self -> pb_epoch self'' = pb_epoch self ->
    pb_sequence self'' = pb_sequence self + 1 -> self'' = self' -> Some e = sent ->
    pb_max_payload_bytes self' = pb_max_payload_bytes self /\ pb_producer_id self' = pb_producer_id self
    /\ pb_epoch self' = pb_epoch self /\ pb_sequence self <= pb_sequence self' 
    /\ forall e, sent = Some e -> exists p0, Supported p = Supported p0
       /\ build_and_check self env p0 epoch (pb_sequence self + 1) = Ok e
       /\ pb_sequence self' = pb_sequence self + 1).
  { intros self'' Hm Hi Hpe Hs <- <-. split_and!; [done..|lia|]. intros e' [= <-]. by exists p. }
  destruct (transport e) as [mid|x]; [|destruct x]; intros [= Hself _ Hsent];
    (refine (H' _ _ _ _ _ Hself Hsent); reflexivity).
Qed.

Lemma sent_valid self env p epoch sequence e :
  pb_max_payload_bytes self = max_payload_bytes -> payload_constructed p ->
  build_and_check self env p epoch sequence = Ok e ->
  entry_valid e /\ env_producer_epoch e = epoch /\ env_producer_sequence e = sequence
  /\ pe_trading_date env = Ok (env_trading_date e) /\ pe_universe_version env = Ok (env_universe_version e).
Proof.
  intros Hm Hp. unfold build_and_check. destruct (pe_trading_date env) as [d|] eqn:Hd; [|by intros (? & [=] & _)%bind_ok].
  destruct (pe_universe_version env) as [v|] eqn:Hv; cbn; [|done].
  intros (e' & Hb & (raw & Henc & [= <-])%bind_ok)%bind_ok.
  pose proof (build_envelope_ok _ _ _ _ _ _ _ _ Hb) as (Hsv & Hpid & Hep & Hsq & Hk & Htd & Huv & Hpay).
  split_and!; [|done|done|by f_equal|by f_equal]. unfold build_envelope in Hb.
  split_and!; [by eapply mk_envelope_constructed| |done|by exists p].
  revert Henc. unfold encode_envelope. intros ([] & Hr%raise_if_ok & _)%bind_ok. zbool. lia.
Qed.

(** More entries, none delivered. *)
Lemma delivered_append stream e m e' : (cursor stream <= length (entries stream))%nat ->
  delivered (stream_publish stream e).1 m e' <-> delivered stream m e'.
Proof using Type.
  intros Hc. unfold delivered. cbn. split; intros (k & Hk & Hl); exists k; (split; [done|]).
  - by rewrite lookup_app_l in Hl by lia.
  - by rewrite lookup_app_l by lia.
Qed.

Lemma append_delivery capacity stream d applied refused e :
  delivery capacity stream d applied refused -> entry_valid e ->
  from_envelope e ∉ (from_envelope <$> (entries stream).*2) ->
  delivery capacity (stream_publish stream e).1 d applied refused.
Proof using Type.
  intros HD He Hfresh. destruct HD as [Hv Hu Hc Hp Hpn Hw Ha Hr Hd].
  pose proof (fun m e' => delivered_append stream e m e' Hc) as Hdel.
  split; [| | | |exact Hpn|exact Hw| | |]; cbn.
  - intros k m e' Hk. apply lookup_app_Some in Hk as [Hk|[Hge Hk]]; [by apply Hv|].
    destruct (k - length (entries stream))%nat as [|j] eqn:E; [|done]. simplify_eq/=.
    split; [f_equal; lia|done].
  - rewrite !fmap_app. apply NoDup_app. split_and!; [done| |apply NoDup_singleton].
    intros i Hi ->%list_elem_of_singleton. done.
  - rewrite length_app. lia.
  - intros m e' Hin. apply Hdel. by apply Hp.
  - intros e' p [(m & Hm) Hrest]%Ha. split; [|done]. exists m. by apply Hdel.
  - intros e' env [(m & Hm) Hrest]%Hr. split; [|done]. exists m. by apply Hdel.
  - intros m e' Hm. apply Hd. by apply Hdel.
Qed.

Lemma append_phase stream d applied refused phase e : (cursor stream <= length (entries stream))%nat ->
  phase_ok stream d applied refused phase -> phase_ok (stream_publish stream e).1 d applied refused phase.
Proof using Type.
  intros Hc. assert (Hpage : forall page, page_ok stream page -> page_ok (stream_publish stream e).1 page).
  { intros page H1. eapply Forall_impl; [exact H1|]. intros [m raw] (e' & Hraw & Hm). exists e'.
    split; [done|]. by apply delivered_append. }
  destruct phase as [|claimed m e' event rest|claimed m o rest|]; cbn [phase_ok]; [done| | |done].
  - intros (Hm & Hev & Hdup & Hrest). split_and!; [by apply delivered_append|done|done|by apply Hpage].
  - intros [(e' & Hm & Hin) Hrest]. split; [|by apply Hpage]. exists e'. split; [|done]. by apply delivered_append.
Qed.

Definition world_ok (capacity : nat) (w : World) : Prop := world_delivery capacity w /\ producer_ok w.

Lemma producer_step_ok capacity w publisher epoch epochs ensure_group publisher' r :
  world_ok capacity w -> mk_publisher max_payload_bytes producer_id = Ok publisher ->
  allocate (w_epochs w) producer_id = Ok (epoch, epochs) ->
  publisher_start (Ok epoch) ensure_group publisher = (publisher', r) ->
  world_ok capacity {| w_epochs := epochs; w_publisher := publisher'; w_stream := w_stream w;
                       w_consumer := w_consumer w; w_poll := w_poll w; w_applied := w_applied w;
                       w_refused := w_refused w |}.
Proof using Type.
  intros [HD (_ & _ & _ & Hold)] ([] & _ & [= <-])%bind_ok ([] & _ & [= <- <-])%bind_ok Hstart.
  split; [exact HD|]. unfold producer_ok. cbn. rewrite lookup_insert_eq. cbn.
  assert (pb_max_payload_bytes publisher' = max_payload_bytes /\ pb_producer_id publisher' = producer_id
    /\ forall e, pb_epoch publisher' = Some e -> e = default 0 (w_epochs w !! producer_id) + 1) as (-> & -> & Hep).
  { revert Hstart. unfold publisher_start. cbn. destruct ensure_group; intros [= <- _]; cbn;
      (split_and!; [done|done|]); [by intros e [= <-]|done]. }
  split_and!; [done|done|exact Hep|]. intros m e Hin. destruct (Hold m e Hin) as [Hle _]. lia.
Qed.

Lemma publish_step_ok capacity w env (reported appended : bool) datum publisher' r sent :
  world_ok capacity w ->
  (forall p, datum = Supported p -> payload_constructed p) ->
  publish (w_publisher w) env
    (fun e => if reported then Ok (stream_publish (w_stream w) e).2 else Raise RedisPublishError)
    datum = (publisher', r, sent) ->
  world_ok capacity {| w_epochs := w_epochs w; w_publisher := publisher';
    w_stream := match sent with
                | Some e => if appended then (stream_publish (w_stream w) e).1 else w_stream w
                | None => w_stream w
                end;
    w_consumer := w_consumer w; w_poll := w_poll w; w_applied := w_applied w; w_refused := w_refused w |}.
Proof.
  intros [HD (Hm & Hi & Hep & Hold)] Hp Hpub.
  destruct (pb_epoch (w_publisher w)) as [epoch|] eqn:Eep.
  2: { revert Hpub. unfold publish. rewrite Eep. intros [= <- <- <-]. split; [exact HD|].
       unfold producer_ok. cbn. rewrite Eep. split_and!; done. }
  specialize (Hep epoch eq_refl). subst epoch.
  destruct (publish_sent _ _ _ _ _ _ _ _ Hpub Eep) as (Hm' & Hi' & Ee' & Hseq & Hsent).
  assert (Hkeep : producer_ok {| w_epochs := w_epochs w; w_publisher := publisher';
    w_stream := w_stream w; w_consumer := w_consumer w; w_poll := w_poll w; w_applied := w_applied w;
    w_refused := w_refused w |}).
  { unfold producer_ok. cbn. rewrite Hm', Hi', Ee', Eep. split_and!; [done|done|by intros ? [= <-]|].
    intros m e Hin. destruct (Hold m e Hin) as [Hle Hs]. split; [done|]. intros He Hc.
    specialize (Hs He eq_refl). lia. }
  destruct sent as [e|]; [|by split]. destruct appended; [|by split].
  destruct (Hsent e eq_refl) as (p & -> & Hb & Hs').
  destruct (sent_valid _ _ _ _ _ _ Hm (Hp p eq_refl) Hb) as (Hval & Hee & Hes & _).
  destruct HD as [HD Hphase]. split.
  - split; [|apply append_phase; [by apply (d_cursor _ _ _ _ _ HD)|exact Hphase]].
    apply append_delivery; [exact HD|exact Hval|].
    intros (e' & Heq & Hin)%list_elem_of_fmap. apply list_elem_of_fmap in Hin as ([m0 e0] & -> & Hin).
    destruct (Hold m0 e0 Hin) as [_ Hs]. unfold from_envelope in Heq. injection Heq as _ He1 He2. cbn in He1, He2.
    specialize (Hs ltac:(congruence) eq_refl). lia.
  - destruct Hkeep as (Hk1 & Hk2 & Hk3 & Hk4). unfold producer_ok in *. cbn in *.
    split_and!; [done|done|done|]. intros m e' [Hin|Hin%list_elem_of_singleton]%elem_of_app; [by eapply Hk4|].
    simplify_eq. split; [lia|]. intros _ _. lia.
Qed.

(** The consumer leaves the producer's side of the world alone. *)
Definition same_producer (w w' : World) : Prop :=
  w_epochs w' = w_epochs w /\ w_publisher w' = w_publisher w /\ entries (w_stream w') = entries (w_stream w).

Lemma same_producer_ok w w' : same_producer w w' -> producer_ok w -> producer_ok w'.
Proof using Type. intros (He & Hp & Hs). unfold producer_ok. by rewrite He, Hp, Hs. Qed.

Lemma start_page_same claimed envs stream page w : entries stream = entries (w_stream w) ->
  same_producer w (start_page claimed envs stream page w).
Proof using Type. intros Hs. unfold start_page. destruct page; [by destruct (advance _ _ _ _ _) as [[]]|done]. Qed.

Lemma follow_same claimed envs m rest stream applied w turned : entries stream = entries (w_stream w) ->
  same_producer w (follow claimed envs m rest stream applied w turned).
Proof using Type.
  intros Hs. unfold follow. destruct turned as [self []]; try done. by destruct (advance _ _ _ _ _) as [[]].
Qed.

Hypothesis payload_limit : max_payload_bytes <= MAX_PAYLOAD_BYTES.

Lemma sink_step_ok capacity w now envs answer claimed m e event rest : (0 < capacity)%nat ->
  world_delivery capacity w -> w_poll w = AwaitingSink claimed m e event rest ->
  world_delivery capacity (follow claimed envs m rest (w_stream w)
    (if is_ok answer then w_applied w ++ [(e, event)] else w_applied w) w
    (sink_answered now (w_consumer w) e answer)).
Proof using H0.
  intros Hn [HD Hphase] Hpoll. rewrite Hpoll in Hphase. destruct Hphase as (Hm & Hev & Hdup & Hrest).
  unfold sink_answered. destruct answer as [[]|x]; cbn [is_ok].
  - apply follow_ok; [by eapply delivery_apply|exact Hrest|]. exists e. split; [exact Hm|]. left.
    rewrite fmap_app, elem_of_app. right. by apply list_elem_of_singleton.
  - destruct x; by apply follow_ok.
Qed.

Lemma ack_step_ok capacity w now envs answer (dropped : bool) claimed m outcome rest :
  world_delivery capacity w -> w_poll w = AwaitingAck claimed m outcome rest ->
  world_delivery capacity (follow claimed envs m rest
    (if dropped then (stream_ack (w_stream w) m).1 else w_stream w) (w_applied w) w
    (ack_answered now (w_consumer w) outcome answer)).
Proof using H0.
  intros [HD Hphase] Hpoll. rewrite Hpoll in Hphase. destruct Hphase as [(e & Hm & Hin) Hrest].
  set (stream := if dropped then _ else _).
  assert (HD' : delivery capacity stream (co_dedup (w_consumer w)) (w_applied w) (w_refused w)).
  { unfold stream. destruct dropped; [by eapply delivery_ack|exact HD]. }
  assert (Hrest' : page_ok stream rest) by (unfold stream; by destruct dropped).
  unfold ack_answered. destruct answer as [[]|x]; [by apply follow_ok|]. destruct x; by apply follow_ok.
Qed.

Lemma ipc_reachable_ok capacity w : (0 < capacity)%nat -> reachable capacity w -> world_ok capacity w.
Proof using payload_limit H0.
  intros Hn. induction 1 as [|w w' _ IH Hstep].
  - split; [split; [|done]|].
    + split; cbn; [done|constructor|lia|by intros ? ? ?%not_elem_of_nil|constructor| | | |].
      * split_and!; [done|done|done].
      * by intros ? ? ?%not_elem_of_nil.
      * by intros ? ? ?%not_elem_of_nil.
      * intros m e (k & Hk & _). cbn in Hk. lia.
    + unfold producer_ok. cbn. split_and!; [done|done|done|]. by intros ? ? ?%not_elem_of_nil.
  - pose proof IH as [[HD Hphase] HP].
    assert (Hread : delivery capacity (read_raw (w_stream w)).1 (co_dedup (w_consumer w)) (w_applied w) (w_refused w)
      /\ entries (read_raw (w_stream w)).1 = entries (w_stream w)
      /\ exists raws, (read_raw (w_stream w)).2 = Ok raws /\ page_ok (read_raw (w_stream w)).1 raws).
    { pose proof (read_delivery _ _ _ _ _ HD) as HR. unfold read_raw. destruct (stream_read (w_stream w)) as [stream' batch].
      destruct HR as (HD' & He & _ & _ & Hb). split_and!; [exact HD'|exact He|].
      by apply (page_delivered capacity stream' (co_dedup (w_consumer w)) (w_applied w) (w_refused w)). }
    destruct Hread as (HDr & Her & raws & Hraws & Hpage).
    destruct Hstep as [w publisher epoch epochs eg publisher' r Hmk Hal Hst
                      |w env reported appended datum publisher' r sent Hp _ Hpub
                      |w envs Hidle|w now error Hidle|w now envs answer claimed m e event rest Hpoll
                      |w now envs answer dropped claimed m o rest Hpoll _|w envs Hpoll|w now error moved Hpoll].
    + by eapply producer_step_ok.
    + by eapply publish_step_ok.
    + split; [|eapply same_producer_ok; [by apply start_page_same|exact HP]]. apply start_page_ok; [exact HD|].
      unfold claim_page_raw, claim_stale.
      destruct (page_delivered _ _ _ _ _ _ payload_limit HD (d_pending _ _ _ _ _ HD)) as (raws' & -> & Hok).
      by intros ? [= <-].
    + split; [by apply failed_read_ok|]. by apply (same_producer_ok w).
    + split; [by apply sink_step_ok|]. eapply same_producer_ok; [by apply follow_same|exact HP].
    + split; [by apply ack_step_ok|]. eapply same_producer_ok; [|exact HP]. apply follow_same. by destruct dropped.
    + split; [|eapply same_producer_ok; [by apply start_page_same|exact HP]]. apply start_page_ok; [exact HDr|].
      rewrite Hraws. by intros ? [= <-].
    + split; [apply failed_read_ok; by destruct moved|]. apply (same_producer_ok w); [|exact HP].
      split_and!; [done|done|]. by destruct moved.
Qed.

(** [C37] In every interleaving of producer starts and publishes with the claims, sink calls,
    acknowledgements and reads of one consumer's polls, whatever fails, no two entries of
    the stream share an identity; every entry is unread, pending, applied, or refused by a
    gate, and one is refused only when the consumer's trading date or universe version
    differs from the stamped one, or it has no universe version, at that moment.  What is
    applied is exactly what some entry carries: its payload decodes back.  No event is
    applied again while it is among the last [n] applied ones, [n] the capacity of the
    deduplicator, hence at most once while at most [n] events were applied. *)
Theorem published_events_delivered (n : Z) d w :
  mk_deduplicator n = Ok d -> reachable (max_entries d) w ->
  let stream := w_stream w in let ids := from_envelope <$> (w_applied w).*1 in
  NoDup (from_envelope <$> (entries stream).*2)
  /\ (forall k m e, entries stream !! k = Some (m, e) ->
      m = message_id_at k /\
      ((cursor stream <= k)%nat \/ dict_get m (pending stream) = Some e
       \/ (exists p, (e, p) ∈ w_applied w) \/ exists env, (e, env) ∈ w_refused w))
  /\ (forall e env, (e, env) ∈ w_refused w -> e ∈ (entries stream).*2
      /\ ((exists d, he_trading_date env = Some d /\ d <> env_trading_date e)
          \/ he_universe_version env <> Some (env_universe_version e)))
  /\ (forall e p, (e, p) ∈ w_applied w -> e ∈ (entries stream).*2 /\ decode_event e = inl p)
  /\ (forall k x, ids !! k = Some x -> x ∉ last_n (Z.to_nat n) (take k ids))
  /\ (Z.of_nat (length (w_applied w)) <= n -> NoDup ids).
Proof using payload_limit H0.
  unfold mk_deduplicator. intros ([] & Hn%raise_if_ok & [= <-])%bind_ok Hr. zbool. cbn in Hr. cbn zeta.
  destruct (ipc_reachable_ok (Z.to_nat n) w ltac:(lia) Hr) as [[HD _] _].
  destruct HD as [Hv Hu Hc Hp Hpn (_ & _ & Hw) Ha Href Hd].
  assert (Hin : forall m e, delivered (w_stream w) m e -> e ∈ (entries (w_stream w)).*2).
  { intros m e (k & _ & Hk). apply list_elem_of_fmap. exists (m, e). split; [done|]. by eapply list_elem_of_lookup_2. }
  split_and!; [exact Hu| | | |exact Hw|].
  - intros k m e Hk. split; [by eapply Hv|]. destruct (decide (k < cursor (w_stream w))%nat) as [Hlt|Hge]; [|left; lia].
    right. destruct (Hd m e) as [Hpe|[Happ|Hre]]; [by exists k|left; by apply dict_elem_get| |].
    + right. left. apply list_elem_of_fmap in Happ as ([e' p] & -> & Happ). by exists p.
    + right. right. apply list_elem_of_fmap in Hre as ([e' env] & -> & Hre). by exists env.
  - intros e env Hre. destruct (Href e env Hre) as [(m & Hm) Hdis]. split; [by eapply Hin|exact Hdis].
  - intros e p Happ. destruct (Ha e p Happ) as [(m & Hm) Hdec]. split; [by eapply Hin|exact Hdec].
  - intros Hlen. apply (short_window_NoDup (Z.to_nat n)); [exact Hw|].
    rewrite !length_fmap. lia.
Qed.

(** ** Progress *)

(** The next await of a poll when nothing fails. *)
Definition healthy_await (envs : string -> Environment) (now : instant) (w : World) : World :=
  match w_poll w with
  | Idle => start_page true envs (w_stream w) (claim_page_raw (w_stream w)) w
  | AwaitingRead => start_page false envs (read_raw (w_stream w)).1 (read_raw (w_stream w)).2 w
  | AwaitingSink claimed m e event rest =>
      follow claimed envs m rest (w_stream w) (w_applied w ++ [(e, event)]) w
        (sink_answered now (w_consumer w) e (Ok tt))
  | AwaitingAck claimed m outcome rest =>
      follow claimed envs m rest (stream_ack (w_stream w) m).1 (w_applied w) w
        (ack_answered now (w_consumer w) outcome (Ok tt))
  end.

Definition healthy_step (envs : string -> Environment) (now : instant) (w w' : World) : Prop :=
  w' = healthy_await envs now w.

Lemma healthy_step_ipc envs now w w' : healthy_step envs now w w' -> ipc_step w w'.
Proof using Type.
  intros ->. unfold healthy_await. destruct (w_poll w) eqn:Ew.
  - by apply step_claim.
  - by apply (step_sink w now envs (Ok tt)).
  - by apply (step_ack w now envs (Ok tt) true).
  - by apply step_read.
Qed.

(** A page in which nothing fails is acknowledged entry by entry. *)
Lemma page_drains capacity envs now claimed : (0 < capacity)%nat -> forall page w self refused,
  delivery capacity (w_stream w) (co_dedup self) (w_applied w) refused -> page_ok (w_stream w) page ->
  advance claimed envs self refused page = (w_consumer w, w_poll w, w_refused w) ->
  exists w', rtc (healthy_step envs now) w w' /\ w_poll w' = (if claimed then AwaitingRead else Idle)
  /\ world_delivery capacity w' /\ entries (w_stream w') = entries (w_stream w)
  /\ cursor (w_stream w') = cursor (w_stream w)
  /\ forall kv, kv ∈ pending (w_stream w') <-> kv ∈ pending (w_stream w) /\ kv.1 ∉ page.*1.
Proof.
  intros Hn. induction page as [|[m raw] rest IH]; intros w self refused HD Hpage; cbn [advance].
  { intros [= Hs Hp Hr]. exists w. split_and!; [constructor|done| |done|done|].
    - split; [by rewrite <- Hs, <- Hr|]. rewrite <- Hp. by destruct claimed.
    - intros kv. pose proof (not_elem_of_nil kv.1). tauto. }
  apply Forall_cons in Hpage as [(e & Hraw & Hm) Hrest]. cbn in Hraw, Hm. subst raw.
  destruct (handle_begin self (m, Some (dump_envelope e)) claimed (envs m)) as [self1 turn] eqn:Eb.
  destruct (handle_begin_ok _ _ _ _ _ _ _ _ _ _ _ HD Hm Eb) as (Hd & HD' & Hturn). rewrite <- Hd in HD'.
  assert (Hack : forall w0 o, w_poll w0 = AwaitingAck claimed m o rest ->
    delivery capacity (w_stream w0) (co_dedup (w_consumer w0)) (w_applied w0) (w_refused w0) ->
    w_stream w0 = w_stream w -> e ∈ (w_applied w0).*1 \/ e ∈ (w_refused w0).*1 ->
    exists w', rtc (healthy_step envs now) w0 w' /\ w_poll w' = (if claimed then AwaitingRead else Idle)
    /\ world_delivery capacity w' /\ entries (w_stream w') = entries (w_stream w)
    /\ cursor (w_stream w') = cursor (w_stream w)
    /\ forall kv, kv ∈ pending (w_stream w') <-> kv ∈ pending (w_stream w) /\ kv.1 ∉ m :: rest.*1).
  { intros w0 o Hp HD0 Hst Hin. set (w1 := healthy_await envs now w0).
    assert (Hw1 : w_stream w1 = (stream_ack (w_stream w0) m).1 /\ w_applied w1 = w_applied w0
      /\ advance claimed envs (acked_at now (count C_acked (w_consumer w0))) (w_refused w0) rest
         = (w_consumer w1, w_poll w1, w_refused w1)).
    { unfold w1, healthy_await. rewrite Hp. unfold follow, ack_answered.
      by destruct (advance _ _ _ _ _) as [[]]. }
    destruct Hw1 as (Hst1 & Hap1 & Hadv).
    assert (HD1 : delivery capacity (w_stream w1) (co_dedup (acked_at now (count C_acked (w_consumer w0))))
      (w_applied w1) (w_refused w0)).
    { rewrite Hst1, Hap1. eapply delivery_ack; [exact HD0|rewrite Hst; exact Hm|exact Hin]. }
    assert (Hrest1 : page_ok (w_stream w1) rest) by (rewrite Hst1, Hst; exact Hrest).
    destruct (IH w1 _ _ HD1 Hrest1 Hadv) as (w' & Hrun & Hph & HD2 & He2 & Hc2 & Hpend). rewrite Hst1 in *.
    exists w'. split_and!; [by eapply rtc_l|done|done|by rewrite He2, Hst|by rewrite Hc2, Hst|].
    intros kv. rewrite Hpend, Hst. cbn. unfold dict_pop. rewrite list_elem_of_filter, not_elem_of_cons. tauto. }
  destruct turn as [x|o|o|e' event]; [done|done| |]; intros [= Hs Hp Hr].
  - apply (Hack w o); [done|by rewrite <- Hs, <- Hr|done|by rewrite <- Hr].
  - destruct Hturn as (-> & Hev & Hdup). set (w1 := healthy_await envs now w).
    assert (Hw1 : w1 = {| w_epochs := w_epochs w; w_publisher := w_publisher w; w_stream := w_stream w;
      w_consumer := applied_at now (from_envelope e) (w_consumer w); w_poll := AwaitingAck claimed m APPLIED rest;
      w_applied := w_applied w ++ [(e, event)]; w_refused := w_refused w |}).
    { unfold w1, healthy_await. by rewrite <- Hp. }
    destruct (Hack w1 APPLIED) as (w' & Hrun & Hrest').
    + by rewrite Hw1.
    + rewrite Hw1. cbn. apply delivery_apply with m; [done|by rewrite <- Hs, <- Hr|done| |done].
      rewrite <- Hs, Hd. exact Hdup.
    + by rewrite Hw1.
    + left. rewrite Hw1. cbn. rewrite fmap_app, elem_of_app. right. by apply list_elem_of_singleton.
    + exists w'. split; [|exact Hrest']. eapply rtc_l; [reflexivity|exact Hrun].
Qed.

Lemma no_elements {A} (l : list A) : (forall x, x ∉ l) -> l = [].
Proof using Type. destruct l as [|x l]; [done|]. intros Hl. destruct (Hl x). left. Qed.

Lemma start_page_advance claimed envs stream raws w w' : w' = start_page claimed envs stream (Ok raws) w ->
  w_stream w' = stream /\ w_applied w' = w_applied w
  /\ advance claimed envs (w_consumer w) (w_refused w) raws = (w_consumer w', w_poll w', w_refused w').
Proof using Type. intros ->. unfold start_page. by destruct (advance _ _ _ _ _) as [[]]. Qed.

Lemma page_ids (page : list (string * Envelope)) raws : traverse encode_entry page = Ok raws -> raws.*1 = page.*1.
Proof using Type.
  intros Ht%traverse_ok. induction Ht as [|[m e] [m' raw] page raws H1 _ IH]; [done|]. cbn. rewrite IH.
  unfold encode_entry in H1. destruct (encode_envelope _ _); [|done]. cbn in H1. by injection H1 as <- _.
Qed.

(** A poll during which nothing fails deals with everything: from every reachable world in
    which no poll is running it leaves no entry unread or pending, and every published event
    applied or refused, whatever failed before. *)
Theorem healthy_poll_drains (n : Z) d w envs now :
  mk_deduplicator n = Ok d -> reachable (max_entries d) w -> w_poll w = Idle ->
  exists w', rtc (healthy_step envs now) w w' /\ w_poll w' = Idle
  /\ pending (w_stream w') = [] /\ cursor (w_stream w') = length (entries (w_stream w'))
  /\ entries (w_stream w') = entries (w_stream w)
  /\ forall e, e ∈ (entries (w_stream w)).*2 ->
       (exists p, (e, p) ∈ w_applied w' /\ decode_event e = inl p)
       \/ exists env, (e, env) ∈ w_refused w' /\ disagrees env e.
Proof using payload_limit H0.
  unfold mk_deduplicator. intros ([] & Hn%raise_if_ok & [= <-])%bind_ok Hr Hidle. zbool. cbn in Hr.
  destruct (ipc_reachable_ok (Z.to_nat n) w ltac:(lia) Hr) as [[HD _] _].
  destruct (page_delivered _ _ _ _ _ _ payload_limit HD (d_pending _ _ _ _ _ HD)) as (raws & Hraws & Hok).
  set (w1 := healthy_await envs now w).
  assert (Hw1 : w1 = start_page true envs (w_stream w) (Ok raws) w).
  { unfold w1, healthy_await. rewrite Hidle. unfold claim_page_raw, claim_stale. by rewrite Hraws. }
  destruct (start_page_advance true envs (w_stream w) raws w w1 Hw1) as (Hs1 & Ha1 & Hadv1).
  destruct (page_drains (Z.to_nat n) envs now true ltac:(lia) raws w1 (w_consumer w) (w_refused w))
    as (w2 & Hrun2 & Hp2 & [HD2 _] & He2 & Hc2 & Hpend2); [by rewrite Hs1, Ha1|by rewrite Hs1|done|].
  pose proof (read_delivery _ _ _ _ _ HD2) as HR. set (w3 := healthy_await envs now w2).
  destruct (stream_read (w_stream w2)) as [stream batch] eqn:Eread.
  destruct HR as (HD3 & He3 & Hc3 & Hpr & Hb).
  destruct (page_delivered _ _ _ _ _ _ payload_limit HD3 Hb) as (raws3 & Hraws3 & Hok3).
  assert (Hw3 : w3 = start_page false envs stream (Ok raws3) w2).
  { unfold w3, healthy_await. rewrite Hp2. unfold read_raw. rewrite Eread. cbn. by rewrite Hraws3. }
  destruct (start_page_advance false envs stream raws3 w2 w3 Hw3) as (Hs3 & Ha3 & Hadv3).
  destruct (page_drains (Z.to_nat n) envs now false ltac:(lia) raws3 w3 (w_consumer w2) (w_refused w2))
    as (w4 & Hrun4 & Hp4 & [HD4 _] & He4 & Hc4 & Hpend4); [by rewrite Hs3, Ha3|by rewrite Hs3|done|].
  assert (Hentries : entries (w_stream w4) = entries (w_stream w)) by (rewrite He4, Hs3, He3, He2, Hs1; done).
  assert (Hcursor : cursor (w_stream w4) = length (entries (w_stream w4))) by (rewrite Hc4, Hs3, Hc3, He4, Hs3, He3; done).
  assert (Hnone : pending (w_stream w4) = []).
  { apply no_elements. intros kv [Hin Hnot]%Hpend4. rewrite Hs3, Hpr in Hin. rewrite (page_ids _ _ Hraws3) in Hnot.
    apply elem_of_app in Hin as [[Hin Hn2]%Hpend2|Hin].
    - apply Hn2. rewrite (page_ids _ _ Hraws). rewrite Hs1 in Hin. by apply (list_elem_of_fmap_2 fst).
    - apply Hnot. by apply (list_elem_of_fmap_2 fst). }
  exists w4. split_and!; [|exact Hp4|exact Hnone|exact Hcursor|exact Hentries|].
  { eapply rtc_l; [reflexivity|]. etrans; [exact Hrun2|]. eapply rtc_l; [reflexivity|exact Hrun4]. }
  intros e ([m e'] & -> & Hin)%list_elem_of_fmap. apply list_elem_of_lookup in Hin as [k Hk].
  rewrite <- Hentries in Hk. destruct (d_done _ _ _ _ _ HD4 m e') as [Hpe|[Happ|Hre]].
  - exists k. split; [|exact Hk]. rewrite Hcursor. by eapply lookup_lt_Some.
  - rewrite Hnone in Hpe. by apply not_elem_of_nil in Hpe.
  - left. apply list_elem_of_fmap in Happ as ([e0 p] & -> & Happ). exists p. split; [done|].
    by destruct (d_applied _ _ _ _ _ HD4 _ _ Happ).
  - right. apply list_elem_of_fmap in Hre as ([e0 env] & -> & Hre). exists env. split; [done|].
    by destruct (d_refused _ _ _ _ _ HD4 _ _ Hre).
Qed.

End System.

Section Roundtrip.
Context {Text Raw : Type} `{JsonCodecLaws Text Raw}.

(** The consumer decodes the text of an envelope, lets it through its gates and
    hands this payload to the sink unless it was seen before. *)
Definition accepted (env : Environment) (e : MarketEventEnvelope Text) (p : IpcPayload) : Prop :=
  decode_entry (Some (dump_envelope e)) = Ok (inl e) /\ gate env e = None /\ decode_event e = inl p.

(** Producer and consumer agree: what [publish] hands to the transport for a
    constructed payload is decoded by the consumer, accepted under the stamped
    trading date and universe version, and decodes to that payload, under the
    publisher's epoch and its next sequence number. *)
Theorem publish_consume_roundtrip self env transport p self' r e d v now sink ack :
  publish self env transport (Supported p) = (self', r, Some e) -> payload_constructed p ->
  pe_trading_date env = Ok d -> pe_universe_version env = Ok v ->
  accepted {| he_now := now; he_trading_date := Some d; he_universe_version := Some v;
              he_sink := sink; he_ack := ack |} e p
  /\ pb_epoch self = Some (env_producer_epoch e) /\ env_producer_sequence e = pb_sequence self + 1
  /\ pb_sequence self' = env_producer_sequence e.
Proof.
  intros Hpub Hp Hd Hv. destruct (pb_epoch self) as [epoch|] eqn:Eep.
  2: { unfold publish in Hpub. by rewrite Eep in Hpub. }
  destruct (publish_sent _ _ _ _ _ _ _ _ Hpub Eep) as (_ & _ & _ & _ & Hsent).
  destruct (Hsent e eq_refl) as (p' & [= <-] & Hb & Hs).
  destruct (sent_valid (pb_max_payload_bytes self) self env p _ _ e eq_refl Hp Hb) as (Hval & He & Hseq & Hd' & Hv').
  split; [|by rewrite He, Hseq]. rewrite Hd in Hd'. rewrite Hv in Hv'. injection Hd' as Hd'. injection Hv' as Hv'.
  split; [by eapply entry_decodes|]. split.
  { apply eq_None_not_Some. rewrite gate_exact. unfold disagrees. cbn [he_trading_date he_universe_version].
    intros [(d' & [= <-] & Hne)|Hne]; congruence. }
  unfold build_and_check in Hb. rewrite Hd, Hv in Hb. cbn [mbind result_bind] in Hb.
  apply bind_ok in Hb as (e' & Hbuild & (raw & _ & [= <-])%bind_ok).
  destruct (build_envelope_ok _ _ _ _ _ _ _ _ Hbuild) as (_ & _ & _ & _ & Hk & _ & _ & Hpay).
  unfold decode_event. by rewrite Hk, Hpay, payload_roundtrip.
Qed.

End Roundtrip.

(** * A concrete run *)

Definition run_env : PublishEnvironment := {|
  pe_now := Aware 0; pe_trading_date := Ok 20480; pe_universe_version := Ok 3; pe_now_after := Aware 1 |}.

(** One publish of the sample reference, as [step_publish] takes it. *)
Definition run_publish (reported appended : bool) (w : World (Text := IpcPayload) (Raw := SampleRaw))
    : World (Text := IpcPayload) (Raw := SampleRaw) :=
  let '(publisher', _, sent) := publish (w_publisher w) run_env
    (fun e => if reported then Ok (stream_publish (w_stream w) e).2 else Raise RedisPublishError)
    (Supported (PReference sample_reference)) in
  {| w_epochs := w_epochs w; w_publisher := publisher';
     w_stream := match sent with
                 | Some e => if appended then (stream_publish (w_stream w) e).1 else w_stream w
                 | None => w_stream w
                 end;
     w_consumer := w_consumer w; w_poll := w_poll w; w_applied := w_applied w; w_refused := w_refused w |}.

Definition started_world : World (Text := IpcPayload) (Raw := SampleRaw) := {|
  w_epochs := {["producer-1" := 1]};
  w_publisher := {| pb_max_payload_bytes := 65536; pb_producer_id := "producer-1";
                    pb_epoch := Some 1; pb_sequence := 0;
                    pb_counters := Build_PublisherCounters 0 0 0 0 0 0; pb_last_publish_at := None |};
  w_stream := empty_stream; w_consumer := mk_consumer {| max_entries := 2; seen := [] |};
  w_poll := Idle; w_applied := []; w_refused := [] |}.

(** The consumer's authorities during the run: the date rolls before the third entry. *)
Definition run_envs (message_id : string) : Environment :=
  {| he_now := 5; he_trading_date := Some (if bool_decide (message_id = "2"%string) then 20481 else 20480);
     he_universe_version := Some 3; he_sink := Ok tt; he_ack := Ok tt |}.

(** The next await of the poll: the sink answers, and an acknowledgement is lost, carried
    out or not. *)
Definition run_await (dropped : bool) (w : World (Text := IpcPayload) (Raw := SampleRaw))
    : World (Text := IpcPayload) (Raw := SampleRaw) :=
  match w_poll w with
  | Idle => start_page (H := sample_codec) true run_envs (w_stream w) (claim_page_raw (H := sample_codec) (w_stream w)) w
  | AwaitingRead =>
      start_page (H := sample_codec) false run_envs (read_raw (H := sample_codec) (w_stream w)).1
        (read_raw (H := sample_codec) (w_stream w)).2 w
  | AwaitingSink claimed m e event rest =>
      follow (H := sample_codec) claimed run_envs m rest (w_stream w) (w_applied w ++ [(e, event)]) w
        (sink_answered 5 (w_consumer w) e (Ok tt))
  | AwaitingAck claimed m outcome rest =>
      follow (H := sample_codec) claimed run_envs m rest
        (if dropped then (stream_ack (w_stream w) m).1 else w_stream w) (w_applied w) w
        (ack_answered 5 (w_consumer w) outcome (Raise RedisError))
  end.

(** A publish appended though reported as failed and a clean one; the poll claims nothing and
    reads both; while the first is in the sink a third is published, which the next poll
    claims with the other two and refuses. *)
Definition sample_world : World (Text := IpcPayload) (Raw := SampleRaw) :=
  Nat.iter 7 (run_await true) (Nat.iter 2 (run_await false) (Nat.iter 2 (run_await false) (run_publish true true
    (run_await false (run_await false (run_publish true true (run_publish false true started_world))))))).

Lemma sample_reachable : reachable (H := sample_codec) "producer-1" 65536 2 sample_world.
Proof.
  assert (Hp : forall (reported appended : bool) w, (reported = true -> appended = true) ->
    reachable (H := sample_codec) "producer-1" 65536 2 w ->
    reachable (H := sample_codec) "producer-1" 65536 2 (run_publish reported appended w)).
  { intros reported appended w Hra Hw. eapply reachable_step; [exact Hw|]. unfold run_publish.
    destruct (publish _ _ _ _) as [[p' r] sent] eqn:E.
    eapply (step_publish _ _ w run_env reported appended _ p' r sent); [|exact Hra|exact E].
    intros p [= <-]. split; [by vm_compute|]. by apply Qclt_alt. }
  assert (Ha : forall (dropped : bool) w, reachable (H := sample_codec) "producer-1" 65536 2 w ->
    reachable (H := sample_codec) "producer-1" 65536 2 (run_await dropped w)).
  { intros dropped w Hw. eapply reachable_step; [exact Hw|]. unfold run_await. destruct (w_poll w) eqn:Ew.
    - by apply step_claim.
    - by apply (step_sink _ _ w 5 run_envs (Ok tt)).
    - by apply (step_ack _ _ w 5 run_envs (Raise RedisError)).
    - by apply step_read. }
  assert (Hi : forall k dropped w, reachable (H := sample_codec) "producer-1" 65536 2 w ->
    reachable (H := sample_codec) "producer-1" 65536 2 (Nat.iter k (run_await dropped) w)).
  { induction k as [|k IH]; intros dropped w Hw; [done|]. by apply Ha, IH. }
  unfold sample_world. do 3 apply Hi. apply (Hp true true); [done|]. do 2 apply Ha.
  apply (Hp true true); [done|]. apply (Hp false true); [done|].
  eapply reachable_step; [apply reachable_initial|].
  exact (step_producer "producer-1" 65536 (initial_world "producer-1" 65536 2) _ _ _ (Ok tt)
    _ _ eq_refl eq_refl eq_refl).
Qed.

Lemma sample_limit : 65536 <= MAX_PAYLOAD_BYTES.
Proof. discriminate. Qed.

Lemma published_events_delivered_witness :
  length (w_applied sample_world) = 2%nat /\ length (w_refused sample_world) = 1%nat
  /\ NoDup (from_envelope <$> (w_applied sample_world).*1).
Proof.
  split; [vm_compute; reflexivity|]. split; [vm_compute; reflexivity|].
  destruct (published_events_delivered (H := sample_codec) "producer-1" 65536 sample_limit 2
    {| max_entries := 2; seen := [] |} sample_world eq_refl sample_reachable) as (_ & _ & _ & _ & _ & Hn).
  apply Hn. vm_compute. discriminate.
Defined.

Lemma publish_consume_roundtrip_witness :
  exists self' e, publish (H := sample_codec) (w_publisher started_world) run_env (fun _ => Ok "0")
    (Supported (PReference sample_reference)) = (self', Ok PUBLISHED, Some e)
  /\ decode_event e = inl (PReference sample_reference).
Proof.
  eexists _, _. split; [reflexivity|].
  refine (proj2 (proj2 (proj1 (publish_consume_roundtrip (H := sample_codec) (w_publisher started_world)
    run_env (fun _ => Ok "0") (PReference sample_reference) _ _ _ 20480 3 0 (Ok tt) (Ok tt) eq_refl _
    eq_refl eq_refl)))).
  split; [by vm_compute|]. by apply Qclt_alt.
Defined.
