(* ===== verification/IpcReference.v ===== *)
(** Compacted reference state, market_ipc/state.py and reference.py: the last-known
    previous close and session OHLC of each instrument on each trading date, kept in
    one Redis hash per date, written by an atomic script and loaded on restart.

    The script [_COMPACT_LUA] is translated over the tables [cjson] decodes.  The
    texts are pydantic's and cjson's: a [StateCodec] holds their functions and
    [StateCodecLaws] what they document.  The expiry of a hash is retention only and
    not part of the model. *)
From Stdlib Require Import Ascii.
From stdpp Require Import countable.
From S2P Require Import Prelude PyTime PyDate MarketData Ipc.

Local Open Scope Z_scope.

(** * The state of one instrument *)

Record CompactedReferenceState : Type := {
  cr_instrument_identity : string;
  cr_trading_date : date;
  cr_updated_at : instant;
  cr_universe_version : Z;
  cr_producer_id : string;
  cr_producer_epoch : Z;
  cr_producer_sequence : Z;
  cr_previous_close : option Decimal;
  cr_session_open : option Decimal;
  cr_session_high : option Decimal;
  cr_session_low : option Decimal;
  cr_session_close : option Decimal;
}.

Definition opt_gt0 (p : option Decimal) : bool :=
  match p with Some v => dec_ltb 0 v | None => true end.

(** [CompactedReferenceState(...)] from an aware [updated_at] in UTC. *)
Definition mk_reference_state (raw : CompactedReferenceState) : result CompactedReferenceState :=
  identity ← bounded_name (cr_instrument_identity raw);
  producer_id ← bounded_name (cr_producer_id raw);
  _ ← raise_if (negb ((0 <=? cr_universe_version raw) && (0 <=? cr_producer_epoch raw)
                      && (0 <=? cr_producer_sequence raw)))
    (ValidationError "greater_than_equal");
  _ ← raise_if (negb (opt_gt0 (cr_previous_close raw) && opt_gt0 (cr_session_open raw)
                      && opt_gt0 (cr_session_high raw) && opt_gt0 (cr_session_low raw)
                      && opt_gt0 (cr_session_close raw)))
    (ValidationError "greater_than");
  Ok {| cr_instrument_identity := identity; cr_trading_date := cr_trading_date raw;
        cr_updated_at := cr_updated_at raw; cr_universe_version := cr_universe_version raw;
        cr_producer_id := producer_id; cr_producer_epoch := cr_producer_epoch raw;
        cr_producer_sequence := cr_producer_sequence raw;
        cr_previous_close := cr_previous_close raw; cr_session_open := cr_session_open raw;
        cr_session_high := cr_session_high raw; cr_session_low := cr_session_low raw;
        cr_session_close := cr_session_close raw |}.

Definition state_constructed (s : CompactedReferenceState) : Prop := mk_reference_state s = Ok s.

(** [ordering]: tuples compare lexicographically. *)
Definition ordering (s : CompactedReferenceState) : Z * Z :=
  (cr_producer_epoch s, cr_producer_sequence s).
Definition ordering_ltb (a b : Z * Z) : bool := (a.1 <? b.1) || ((a.1 =? b.1) && (a.2 <? b.2)).

(** [reference_key] *)
Definition reference_key (prefix : string) (trading_date : date) : string :=
  (prefix +:+ ":" +:+ isoformat trading_date)%string.

(** * The in-memory store *)

Definition InMemoryCompactedReferenceStore : Type := gmap Z (dict string CompactedReferenceState).

Definition memory_put (self : InMemoryCompactedReferenceStore) (state : CompactedReferenceState)
    : InMemoryCompactedReferenceStore :=
  <[cr_trading_date state :=
      dict_set (cr_instrument_identity state) state (default [] (self !! cr_trading_date state))]> self.

Definition memory_get (self : InMemoryCompactedReferenceStore) (trading_date : date)
    (identity : string) : option CompactedReferenceState :=
  dict_get identity (default [] (self !! trading_date)).

Definition memory_all (self : InMemoryCompactedReferenceStore) (trading_date : date)
    : list CompactedReferenceState := (default [] (self !! trading_date)).*2.

(** * Compaction *)

Inductive ReferenceOutcome : Type :=
| WRITTEN | MERGED | DUPLICATE_REFERENCE | STALE_REJECTED | NO_REFERENCE_DATA | WRITE_FAILED.

#[global] Instance ReferenceOutcome_eq_dec : EqDecision ReferenceOutcome.
Proof. solve_decision. Defined.

(** [_classify] *)
Definition classify_reference (incoming : CompactedReferenceState)
    (existing : option CompactedReferenceState) : ReferenceOutcome :=
  match existing with
  | None => WRITTEN
  | Some existing =>
      if ordering_ltb (ordering incoming) (ordering existing) then STALE_REJECTED
      else if bool_decide (ordering incoming = ordering existing) then DUPLICATE_REFERENCE
      else MERGED
  end.

Definition keep (incoming existing : option Decimal) : option Decimal :=
  if is_not_none incoming then incoming else existing.

Definition merge_reference (existing incoming : CompactedReferenceState) : CompactedReferenceState := {|
  cr_instrument_identity := cr_instrument_identity incoming;
  cr_trading_date := cr_trading_date incoming; cr_updated_at := cr_updated_at incoming;
  cr_universe_version := cr_universe_version incoming; cr_producer_id := cr_producer_id incoming;
  cr_producer_epoch := cr_producer_epoch incoming;
  cr_producer_sequence := cr_producer_sequence incoming;
  cr_previous_close := keep (cr_previous_close incoming) (cr_previous_close existing);
  cr_session_open := keep (cr_session_open incoming) (cr_session_open existing);
  cr_session_high := keep (cr_session_high incoming) (cr_session_high existing);
  cr_session_low := keep (cr_session_low incoming) (cr_session_low existing);
  cr_session_close := keep (cr_session_close incoming) (cr_session_close existing) |}.

(** ** The Lua script *)

(** A decoded JSON object; a missing key is [nil]. *)
Inductive LuaValue : Type := LuaNull | LuaNumber (n : Decimal) | LuaString (s : string).
Abbreviation LuaTable := (gmap string LuaValue) (only parsing).

Class StateCodec (Text : Type) : Type := {
  dump_state : CompactedReferenceState -> Text;
  load_state : Text -> option CompactedReferenceState;
  cjson_decode : Text -> option LuaTable;
  cjson_encode : LuaTable -> Text;
  string_tonumber : string -> option Decimal;
  decimal_text : Decimal -> string;
  instant_text : instant -> string;
}.

Definition price_fields : list string :=
  ["previous_close"; "session_open"; "session_high"; "session_low"; "session_close"].

Section Script.
Context {Text : Type} `{StateCodec Text}.

(** [tonumber(t[f])] *)
Definition tonumber (v : option LuaValue) : option Decimal :=
  match v with
  | Some (LuaNumber n) => Some n
  | Some (LuaString s) => string_tonumber s
  | Some LuaNull | None => None
  end.

(** [if inc[f] == nil or inc[f] == cjson.null then inc[f] = ex[f] end] *)
Definition fill_field (ex inc : LuaTable) (f : string) : LuaTable :=
  match inc !! f with
  | None | Some LuaNull => partial_alter (fun _ => ex !! f) f inc
  | Some _ => inc
  end.

(** [_COMPACT_LUA] on one hash.  A script error, a comparison with [nil] or a text
    that is not JSON, reaches the client as a [RedisError]. *)
Definition compact_lua (hash : gmap string Text) (identity : string) (inc_epoch inc_seq : Z)
    (json : Text) : result (ReferenceOutcome * gmap string Text) :=
  let script_error {A} (o : option A) := match o with Some v => Ok v | None => Raise RedisError end in
  let inc_epoch := dec inc_epoch 0 in
  let inc_seq := dec inc_seq 0 in
  match hash !! identity with
  | None => Ok (WRITTEN, <[identity := json]> hash)
  | Some existing =>
      ex ← script_error (cjson_decode existing);
      ex_epoch ← script_error (tonumber (ex !! "producer_epoch"));
      older ← (if dec_ltb inc_epoch ex_epoch then Ok true
               else if dec_eqb inc_epoch ex_epoch
                    then ex_seq ← script_error (tonumber (ex !! "producer_sequence"));
                         Ok (dec_ltb inc_seq ex_seq)
                    else Ok false);
      if older : bool then Ok (STALE_REJECTED, hash)
      else if dec_eqb inc_epoch ex_epoch
              && bool_decide (tonumber (ex !! "producer_sequence") = Some inc_seq)
           then Ok (DUPLICATE_REFERENCE, hash)
           else inc ← script_error (cjson_decode json);
                Ok (MERGED, <[identity := cjson_encode (foldl (fill_field ex) inc price_fields)]> hash)
  end.

(** * The Redis store *)

(** The hashes by key; a missing hash is empty. *)
Abbreviation RedisCompactedReferenceStore := (gmap string (gmap string Text)) (only parsing).

(** [compact] *)
Definition compact (prefix : string) (self : RedisCompactedReferenceStore)
    (incoming : CompactedReferenceState) : result (ReferenceOutcome * RedisCompactedReferenceStore) :=
  let key := reference_key prefix (cr_trading_date incoming) in
  r ← compact_lua (default ∅ (self !! key)) (cr_instrument_identity incoming)
        (cr_producer_epoch incoming) (cr_producer_sequence incoming) (dump_state incoming);
  Ok (r.1, <[key := r.2]> self).

(** [read_all_raw] *)
Definition read_all_raw (prefix : string) (self : RedisCompactedReferenceStore) (trading_date : date)
    : gmap string Text := default ∅ (self !! reference_key prefix trading_date).

(** [get] *)
Definition reference_get (prefix : string) (self : RedisCompactedReferenceStore)
    (trading_date : date) (identity : string) : option CompactedReferenceState :=
  read_all_raw prefix self trading_date !! identity ≫= load_state.

(** [all] *)
Definition reference_all (prefix : string) (self : RedisCompactedReferenceStore)
    (trading_date : date) : list CompactedReferenceState :=
  omap (fun kv => load_state kv.2) (map_to_list (read_all_raw prefix self trading_date)).

End Script.

(** * The writer *)

(** [_WriterCounters] *)
Record WriterCounters : Type := {
  wc_attempted : Z; wc_written : Z; wc_failures : Z; wc_previous_close : Z;
  wc_session_open : Z; wc_stale : Z; wc_duplicate : Z; wc_no_reference_data : Z;
}.

Record ReferenceStateWriter : Type := {
  rw_counters : WriterCounters;
  rw_last_success_at : option instant;
  rw_last_failure_at : option instant;
}.

Section Writer.
Context {EnvelopeText Raw : Type} `{JsonCodec EnvelopeText Raw}.

(** [reference_from_envelope] *)
Definition reference_from_envelope (envelope : MarketEventEnvelope EnvelopeText)
    : result (option CompactedReferenceState) :=
  payload ← decode_payload (env_event_kind envelope) (env_payload envelope);
  let state previous_close o h l c :=
    s ← mk_reference_state {|
      cr_instrument_identity := env_instrument_identity envelope;
      cr_trading_date := env_trading_date envelope; cr_updated_at := env_produced_at envelope;
      cr_universe_version := env_universe_version envelope;
      cr_producer_id := env_producer_id envelope; cr_producer_epoch := env_producer_epoch envelope;
      cr_producer_sequence := env_producer_sequence envelope;
      cr_previous_close := previous_close; cr_session_open := o; cr_session_high := h;
      cr_session_low := l; cr_session_close := c |};
    Ok (Some s) in
  match payload with
  | PReference r => state (Some (ref_previous_close r)) None None None None
  | PTick t =>
      match tick_session_ohlc t with
      | Some ohlc => state None (Some (pso_open_price ohlc)) (Some (pso_high_price ohlc))
                       (Some (pso_low_price ohlc)) (Some (pso_close_price ohlc))
      | None => Ok None
      end
  | PQuote _ | PContinuity _ => Ok None
  end.

(** Increments of the counters. *)
Definition count_outcome (outcome : ReferenceOutcome) (incoming : option CompactedReferenceState)
    (c : WriterCounters) : WriterCounters :=
  let one (b : bool) := if b then 1 else 0 in
  let applied := bool_decide (outcome = WRITTEN \/ outcome = MERGED) in
  let carries f := match incoming with Some s => applied && is_not_none (f s) | None => false end in
  {| wc_attempted := wc_attempted c + 1;
     wc_written := wc_written c + one applied;
     wc_failures := wc_failures c + one (bool_decide (outcome = WRITE_FAILED));
     wc_previous_close := wc_previous_close c + one (carries cr_previous_close);
     wc_session_open := wc_session_open c + one (carries cr_session_open);
     wc_stale := wc_stale c + one (bool_decide (outcome = STALE_REJECTED));
     wc_duplicate := wc_duplicate c + one (bool_decide (outcome = DUPLICATE_REFERENCE));
     wc_no_reference_data := wc_no_reference_data c + one (bool_decide (outcome = NO_REFERENCE_DATA)) |}.

(** [_record] and [_fail] *)
Definition record_outcome (self : ReferenceStateWriter) (now : instant) (outcome : ReferenceOutcome)
    (incoming : option CompactedReferenceState) : ReferenceStateWriter := {|
  rw_counters := count_outcome outcome incoming (rw_counters self);
  rw_last_success_at := if bool_decide (outcome = WRITTEN \/ outcome = MERGED) then Some now
                        else rw_last_success_at self;
  rw_last_failure_at := if bool_decide (outcome = WRITE_FAILED) then Some now
                        else rw_last_failure_at self |}.

(** [update]; [store] is the answer of the store to the compaction. *)
Definition writer_update (self : ReferenceStateWriter) (now : instant)
    (store : CompactedReferenceState -> result ReferenceOutcome)
    (envelope : MarketEventEnvelope EnvelopeText)
    : ReferenceStateWriter * result ReferenceOutcome :=
  let attempt := {|
    rw_counters := {| wc_attempted := wc_attempted (rw_counters self) + 1;
                      wc_written := wc_written (rw_counters self);
                      wc_failures := wc_failures (rw_counters self);
                      wc_previous_close := wc_previous_close (rw_counters self);
                      wc_session_open := wc_session_open (rw_counters self);
                      wc_stale := wc_stale (rw_counters self);
                      wc_duplicate := wc_duplicate (rw_counters self);
                      wc_no_reference_data := wc_no_reference_data (rw_counters self) |};
    rw_last_success_at := rw_last_success_at self; rw_last_failure_at := rw_last_failure_at self |} in
  match reference_from_envelope envelope with
  | Raise e =>
      if is_value_error e then (record_outcome self now WRITE_FAILED None, Ok WRITE_FAILED)
      else (attempt, Raise e)
  | Ok None => (record_outcome self now NO_REFERENCE_DATA None, Ok NO_REFERENCE_DATA)
  | Ok (Some incoming) =>
      match store incoming with
      | Raise RedisError => (record_outcome self now WRITE_FAILED None, Ok WRITE_FAILED)
      | Raise e => (attempt, Raise e)
      | Ok outcome => (record_outcome self now outcome (Some incoming), Ok outcome)
      end
  end.

End Writer.

(** * The loader *)

(** [_LoaderTally] *)
Record LoaderTally : Type := {
  lt_total : Z; lt_loaded : Z; lt_invalid : Z; lt_previous_close : Z; lt_session_open : Z;
  lt_complete : Z; lt_universe_mismatch : Z; lt_trading_date_mismatch : Z;
}.

Definition empty_tally : LoaderTally := Build_LoaderTally 0 0 0 0 0 0 0 0.

(** What becomes of one entry. *)
Inductive EntryVerdict : Type := INVALID | DATE_MISMATCH | UNIVERSE_MISMATCH | LOADED (s : CompactedReferenceState).

Definition tally_entry (v : EntryVerdict) (t : LoaderTally) : LoaderTally :=
  let one (b : bool) := if b then 1 else 0 in
  let loaded f := match v with LOADED s => f s | _ => false end in
  {| lt_total := lt_total t + 1;
     lt_loaded := lt_loaded t + one (loaded (fun _ => true));
     lt_invalid := lt_invalid t + match v with INVALID => 1 | _ => 0 end;
     lt_previous_close := lt_previous_close t + one (loaded (fun s => is_not_none (cr_previous_close s)));
     lt_session_open := lt_session_open t + one (loaded (fun s => is_not_none (cr_session_open s)));
     lt_complete := lt_complete t
       + one (loaded (fun s => is_not_none (cr_previous_close s) && is_not_none (cr_session_open s)));
     lt_universe_mismatch := lt_universe_mismatch t + match v with UNIVERSE_MISMATCH => 1 | _ => 0 end;
     lt_trading_date_mismatch := lt_trading_date_mismatch t + match v with DATE_MISMATCH => 1 | _ => 0 end |}.

Record ReferenceSnapshot : Type := {
  rs_trading_date : date;
  rs_states : gmap string CompactedReferenceState;
  rs_diagnostics : LoaderTally;
  rs_last_load_at : instant;
}.

(** [warming_up] *)
Definition warming_up (self : ReferenceSnapshot) : bool := bool_decide (rs_states self = ∅).

Section Loader.
Context {Text : Type} `{StateCodec Text}.

(** The checks of [load] on one entry. *)
Definition entry_verdict (trading_date : date) (expected : option Z) (raw : Text) : EntryVerdict :=
  match load_state raw with
  | None => INVALID
  | Some s =>
      if negb (cr_trading_date s =? trading_date) then DATE_MISMATCH
      else match compare_universe_version (cr_universe_version s) expected with
           | UV_MATCH => LOADED s
           | _ => UNIVERSE_MISMATCH
           end
  end.

(** The loop of [load] over the values of the hash. *)
Fixpoint load_entries (trading_date : date) (expected : option Z) (raws : list Text)
    (states : gmap string CompactedReferenceState) (tally : LoaderTally)
    : gmap string CompactedReferenceState * LoaderTally :=
  match raws with
  | [] => (states, tally)
  | raw :: raws =>
      let v := entry_verdict trading_date expected raw in
      let states := match v with LOADED s => <[cr_instrument_identity s := s]> states | _ => states end in
      load_entries trading_date expected raws states (tally_entry v tally)
  end.

(** [load] *)
Definition load (prefix : string) (store : gmap string (gmap string Text))
    (now : instant) (trading_date : date) (expected : option Z) : ReferenceSnapshot :=
  let '(states, tally) := load_entries trading_date expected
    (map_to_list (read_all_raw prefix store trading_date)).*2 ∅ empty_tally in
  {| rs_trading_date := trading_date; rs_states := states; rs_diagnostics := tally;
     rs_last_load_at := now |}.

End Loader.

(** * Lemmas *)

(** The value under a price field. *)
Definition price_of (s : CompactedReferenceState) (f : string) : option Decimal :=
  if bool_decide (f = "previous_close") then cr_previous_close s
  else if bool_decide (f = "session_open") then cr_session_open s
  else if bool_decide (f = "session_high") then cr_session_high s
  else if bool_decide (f = "session_low") then cr_session_low s
  else cr_session_close s.

Section Laws.
Context {Text : Type} `{StateCodec Text}.

Definition price_value (p : option Decimal) : LuaValue :=
  match p with Some d => LuaString (decimal_text d) | None => LuaNull end.

(** The fields of a state that are not prices, as pydantic writes them. *)
Definition base_table (s : CompactedReferenceState) : LuaTable := list_to_map [
  ("instrument_identity", LuaString (cr_instrument_identity s));
  ("trading_date", LuaString (isoformat (cr_trading_date s)));
  ("updated_at", LuaString (instant_text (cr_updated_at s)));
  ("universe_version", LuaNumber (dec (cr_universe_version s) 0));
  ("producer_id", LuaString (cr_producer_id s));
  ("producer_epoch", LuaNumber (dec (cr_producer_epoch s) 0));
  ("producer_sequence", LuaNumber (dec (cr_producer_sequence s) 0)) ].

(** The object pydantic writes for a state. *)
Definition state_table (s : CompactedReferenceState) : LuaTable :=
  foldr (fun f t => <[f := price_value (price_of s f)]> t) (base_table s) price_fields.

(** cjson writes a number with 14 significant digits. *)
Definition lua_exact (s : CompactedReferenceState) : Prop :=
  cr_universe_version s < 10 ^ 14 /\ cr_producer_epoch s < 10 ^ 14 /\ cr_producer_sequence s < 10 ^ 14.

(** A state that can be written. *)
Definition storable (s : CompactedReferenceState) : Prop :=
  date_ok (cr_trading_date s) = true /\ state_constructed s /\ lua_exact s.

(** What pydantic and cjson document of such states. *)
Class StateCodecLaws : Prop := {
  load_dump : forall s, storable s -> load_state (dump_state s) = Some s;
  decode_dump : forall s, storable s -> cjson_decode (dump_state s) = Some (state_table s);
  load_encode : forall s, storable s -> load_state (cjson_encode (state_table s)) = Some s;
  decode_encode : forall s, storable s -> cjson_decode (cjson_encode (state_table s)) = Some (state_table s);
}.

Lemma table_lookup s i : state_table s !! i =
  if decide (i ∈ price_fields) then Some (price_value (price_of s i)) else base_table s !! i.
Proof.
  unfold state_table. induction price_fields as [|f fs IH]; [done|]. cbn [foldr].
  destruct (decide (i = f)) as [->|Hne].
  - rewrite lookup_insert_eq, decide_True; [done|left].
  - rewrite lookup_insert_ne by done. rewrite IH.
    destruct (decide (i ∈ fs)); [rewrite decide_True|rewrite decide_False]; try done.
    + by right.
    + by intros [|]%elem_of_cons.
Qed.

(** The value a filled field has. *)
Definition fill_value (ex inc : option LuaValue) : option LuaValue :=
  match inc with None | Some LuaNull => ex | Some v => Some v end.

Lemma fill_field_lookup ex inc f i : fill_field ex inc f !! i =
  if decide (i = f) then fill_value (ex !! i) (inc !! i) else inc !! i.
Proof.
  unfold fill_field. destruct (decide (i = f)) as [->|Hne].
  - destruct (inc !! f) as [[]|] eqn:E; rewrite ?lookup_partial_alter_eq, ?E; done.
  - destruct (inc !! f) as [[]|] eqn:E; rewrite ?lookup_partial_alter_ne by done; done.
Qed.

Lemma fill_fields_lookup ex fs i : NoDup fs -> forall inc, foldl (fill_field ex) inc fs !! i =
  if decide (i ∈ fs) then fill_value (ex !! i) (inc !! i) else inc !! i.
Proof.
  induction 1 as [|f fs Hf Hn IH]; intros inc; [done|]. cbn [foldl]. rewrite IH, fill_field_lookup.
  destruct (decide (i = f)) as [->|Hne].
  - rewrite decide_False by done. rewrite decide_True; [done|left].
  - destruct (decide (i ∈ fs)); [rewrite decide_True|rewrite decide_False]; try done.
    + by right.
    + by intros [|]%elem_of_cons.
Qed.

Lemma merge_price ex inc f : price_of (merge_reference ex inc) f = keep (price_of inc f) (price_of ex f).
Proof. unfold price_of. by repeat case_bool_decide. Qed.

(** The script's loop computes the merge. *)
Lemma fill_merge ex inc :
  foldl (fill_field (state_table ex)) (state_table inc) price_fields
  = state_table (merge_reference ex inc).
Proof.
  apply map_eq. intros i. rewrite fill_fields_lookup by (by apply (bool_decide_unpack _)).
  rewrite !table_lookup. destruct (decide (i ∈ price_fields)); [|done].
  rewrite merge_price. unfold keep. by destruct (price_of inc i), (price_of ex i).
Qed.

Lemma table_epoch s : tonumber (state_table s !! "producer_epoch") = Some (dec (cr_producer_epoch s) 0).
Proof. reflexivity. Qed.
Lemma table_sequence s :
  tonumber (state_table s !! "producer_sequence") = Some (dec (cr_producer_sequence s) 0).
Proof. reflexivity. Qed.

End Laws.

Lemma dec_int_lt a b : dec_ltb (dec a 0) (dec b 0) = (a <? b).
Proof.
  apply eq_true_iff_eq. rewrite dec_ltb_lt, Z.ltb_lt. unfold dec, Qclt. cbn.
  rewrite !Qred_correct. unfold Qlt. cbn. lia.
Qed.

Lemma dec_int_inj a b : dec a 0 = dec b 0 -> a = b.
Proof.
  intros Heq. destruct (Z.lt_trichotomy a b) as [Hlt|[->|Hlt]]; [exfalso|done|exfalso];
    apply Z.ltb_lt in Hlt; rewrite <- dec_int_lt, Heq in Hlt;
    apply dec_ltb_lt in Hlt; by apply (Qclt_not_eq _ _ Hlt).
Qed.

Lemma dec_int_eq a b : dec_eqb (dec a 0) (dec b 0) = (a =? b).
Proof.
  apply eq_true_iff_eq. rewrite dec_eqb_eq, Z.eqb_eq. split; [apply dec_int_inj|by intros ->].
Qed.

(** ** What the constructor guarantees *)

Lemma state_constructed_iff s : state_constructed s <->
  bounded_name (cr_instrument_identity s) = Ok (cr_instrument_identity s)
  /\ bounded_name (cr_producer_id s) = Ok (cr_producer_id s)
  /\ 0 <= cr_universe_version s /\ 0 <= cr_producer_epoch s /\ 0 <= cr_producer_sequence s
  /\ opt_gt0 (cr_previous_close s) = true /\ opt_gt0 (cr_session_open s) = true
  /\ opt_gt0 (cr_session_high s) = true /\ opt_gt0 (cr_session_low s) = true
  /\ opt_gt0 (cr_session_close s) = true.
Proof.
  unfold state_constructed, mk_reference_state. split.
  - intros (i & Hi & (pid & Hp & ([] & Hn & ([] & Hg & Heq)%bind_ok)%bind_ok)%bind_ok)%bind_ok.
    injection Heq as Heq. apply (f_equal cr_instrument_identity) in Heq as Hi'.
    apply (f_equal cr_producer_id) in Heq as Hp'. cbn in Hi', Hp'. subst i pid.
    apply raise_if_ok in Hn, Hg. zbool. split_and!; done || lia.
  - intros (Hi & Hp & H1 & H2 & H3 & H4 & H5 & H6 & H7 & H8). rewrite Hi, Hp. cbn.
    apply Z.leb_le in H1, H2, H3. rewrite H1, H2, H3, H4, H5, H6, H7, H8. cbn. by destruct s.
Qed.

Lemma keep_gt0 a b : opt_gt0 a = true -> opt_gt0 b = true -> opt_gt0 (keep a b) = true.
Proof. by destruct a. Qed.

Lemma merge_constructed ex inc :
  state_constructed ex -> state_constructed inc -> state_constructed (merge_reference ex inc).
Proof.
  rewrite !state_constructed_iff. cbn. intros (_ & _ & _ & _ & _ & ? & ? & ? & ? & ?) (? & ? & ? & ? & ? & ? & ? & ? & ? & ?).
  split_and!; try done; by apply keep_gt0.
Qed.

Lemma reference_key_inj prefix a b : date_ok a = true -> date_ok b = true ->
  reference_key prefix a = reference_key prefix b -> a = b.
Proof.
  intros Ha Hb Heq. unfold reference_key in Heq. apply (inj (String.app prefix)) in Heq.
  apply (inj (String.app ":")) in Heq. by apply isoformat_inj.
Qed.

(** ** The store *)

(** The reference definition of one compaction. *)
Definition advance (existing : option CompactedReferenceState) (incoming : CompactedReferenceState)
    : option CompactedReferenceState :=
  match existing, classify_reference incoming existing with
  | None, _ => Some incoming
  | Some ex, MERGED => Some (merge_reference ex incoming)
  | Some ex, _ => Some ex
  end.

Section Store.
Context {Text : Type} `{StateCodec Text} `{!StateCodecLaws (Text := Text)}.
Variable prefix : string.

Definition text_of (raw : Text) (s : CompactedReferenceState) : Prop :=
  load_state raw = Some s /\ cjson_decode raw = Some (state_table s).

(** Every text of the store is that of a state under its own date and identity. *)
Definition store_ok (store : gmap string (gmap string Text)) : Prop :=
  forall d i raw, date_ok d = true -> read_all_raw prefix store d !! i = Some raw ->
    exists s, cr_trading_date s = d /\ cr_instrument_identity s = i /\ storable s /\ text_of raw s.

Lemma read_insert (store : gmap string (gmap string Text)) d d' hash : date_ok d = true -> date_ok d' = true ->
  read_all_raw prefix (<[reference_key prefix d := hash]> store) d'
  = if decide (d' = d) then hash else read_all_raw prefix store d'.
Proof.
  intros Hd Hd'. unfold read_all_raw. destruct (decide (d' = d)) as [->|Hne].
  - by rewrite lookup_insert_eq.
  - rewrite lookup_insert_ne; [done|]. intros Heq. apply Hne. symmetry. by eapply reference_key_inj.
Qed.

(** The script on one hash does what [classify_reference] and [merge_reference] say. *)
Lemma compact_lua_spec hash incoming : storable incoming ->
  (forall raw, hash !! cr_instrument_identity incoming = Some raw ->
     exists s, storable s /\ text_of raw s) ->
  exists hash',
    compact_lua hash (cr_instrument_identity incoming) (cr_producer_epoch incoming)
      (cr_producer_sequence incoming) (dump_state incoming)
    = Ok (classify_reference incoming (hash !! cr_instrument_identity incoming ≫= load_state), hash')
    /\ (forall i, i <> cr_instrument_identity incoming -> hash' !! i = hash !! i)
    /\ exists raw s, hash' !! cr_instrument_identity incoming = Some raw
       /\ advance (hash !! cr_instrument_identity incoming ≫= load_state) incoming = Some s
       /\ text_of raw s.
Proof.
  intros Hst Hold. pose proof Hst as (Hd & Hc & Hex). unfold compact_lua, advance.
  destruct (hash !! cr_instrument_identity incoming) as [raw|] eqn:Eraw; cbn [mbind option_bind].
  2: { eexists. split; [done|]. split; [intros i Hi; by rewrite lookup_insert_ne|].
       exists (dump_state incoming), incoming. rewrite lookup_insert_eq. split_and!; [done|done|].
       split; [by apply load_dump|by apply decode_dump]. }
  destruct (Hold raw eq_refl) as (s & (Hds & Hcs & Hes) & Hl & Hj). rewrite Hl, Hj.
  cbn [mbind result_bind]. rewrite table_epoch, table_sequence. cbn [mbind result_bind]. rewrite !dec_int_lt, !dec_int_eq.
  unfold classify_reference, ordering_ltb, ordering. cbn [fst snd].
  destruct (Z.ltb_spec (cr_producer_epoch incoming) (cr_producer_epoch s)) as [Hlt|Hge]; cbn [orb].
  { eexists. split; [done|]. split; [done|]. by exists raw, s. }
  destruct (Z.eqb_spec (cr_producer_epoch incoming) (cr_producer_epoch s)) as [He|He]; cbn [andb].
  - cbn [mbind result_bind].
    destruct (Z.ltb_spec (cr_producer_sequence incoming) (cr_producer_sequence s)) as [Hlt|Hge'].
    { eexists. split; [done|]. split; [done|]. by exists raw, s. }
    rewrite (bool_decide_ext _ (cr_producer_sequence s = cr_producer_sequence incoming)).
    2: { split; [intros Heq%(inj Some); by apply dec_int_inj|intros Heq; by rewrite Heq]. }
    rewrite (bool_decide_ext (_ = _ :> Z * Z) (cr_producer_sequence s = cr_producer_sequence incoming)).
    2: { rewrite He. split; [by intros [=]|intros Heq; by rewrite Heq]. }
    case_bool_decide as Hs.
    { eexists. split; [done|]. split; [done|]. by exists raw, s. }
    rewrite decode_dump by done. cbn [mbind result_bind]. rewrite fill_merge.
    eexists. split; [done|]. split; [intros i Hi; by rewrite lookup_insert_ne|].
    eexists _, (merge_reference s incoming). rewrite lookup_insert_eq. split_and!; [done|done|].
    assert (storable (merge_reference s incoming)) by (split_and!; [exact Hd|by apply merge_constructed|exact Hex]).
    split; [by apply load_encode|by apply decode_encode].
  - cbn [mbind result_bind]. rewrite bool_decide_false by congruence.
    rewrite decode_dump by done. cbn [mbind result_bind]. rewrite fill_merge.
    eexists. split; [done|]. split; [intros i Hi; by rewrite lookup_insert_ne|].
    eexists _, (merge_reference s incoming). rewrite lookup_insert_eq. split_and!; [done|done|].
    assert (storable (merge_reference s incoming)) by (split_and!; [exact Hd|by apply merge_constructed|exact Hex]).
    split; [by apply load_encode|by apply decode_encode].
Qed.

(** One compaction: total, answered by [classify_reference], and changing what is
    stored under its own date and identity only. *)
Lemma compact_spec store incoming : store_ok store -> storable incoming ->
  exists store', compact prefix store incoming
    = Ok (classify_reference incoming
            (reference_get prefix store (cr_trading_date incoming) (cr_instrument_identity incoming)), store')
  /\ store_ok store'
  /\ forall d i, date_ok d = true -> reference_get prefix store' d i =
       if decide (d = cr_trading_date incoming /\ i = cr_instrument_identity incoming)
       then advance (reference_get prefix store d i) incoming else reference_get prefix store d i.
Proof.
  intros Hok Hst. pose proof (proj1 Hst) as Hd. unfold compact, reference_get.
  destruct (compact_lua_spec (read_all_raw prefix store (cr_trading_date incoming)) incoming Hst)
    as (hash' & Hlua & Hother & raw & s & Hraw & Hadv & Htext).
  { intros raw (s & _ & _ & Hs & Ht)%(Hok _ _ _ Hd). by exists s. }
  unfold read_all_raw in Hlua at 1. rewrite Hlua. cbn [mbind result_bind fst snd].
  eexists. split; [done|].
  assert (Hread : forall d, date_ok d = true -> read_all_raw prefix
    (<[reference_key prefix (cr_trading_date incoming):=hash']> store) d
    = if decide (d = cr_trading_date incoming) then hash' else read_all_raw prefix store d).
  { intros d Hd'. by rewrite read_insert. }
  split.
  - intros d i raw' Hd' Hr. rewrite Hread in Hr by done. destruct (decide (d = cr_trading_date incoming)) as [->|Hne].
    2: by eapply Hok.
    destruct (decide (i = cr_instrument_identity incoming)) as [->|Hi].
    2: { rewrite Hother in Hr by done. by eapply Hok. }
    rewrite Hraw in Hr. injection Hr as <-.
    assert (Hs : cr_trading_date s = cr_trading_date incoming
      /\ cr_instrument_identity s = cr_instrument_identity incoming /\ storable s).
    { revert Hadv. unfold advance.
      destruct (read_all_raw prefix store (cr_trading_date incoming) !! cr_instrument_identity incoming)
        as [raw0|] eqn:E0; cbn [mbind option_bind]; [|by intros [= <-]].
      destruct (Hok _ _ _ Hd E0) as (s0 & H1 & H2 & (H3 & H4 & H5) & Hl & _). rewrite Hl.
      destruct (classify_reference incoming (Some s0)); intros [= <-]; try done.
      split_and!; [done|done|]. destruct Hst as (? & ? & ?). split_and!; [done|by apply merge_constructed|done]. }
    exists s. by destruct Hs as (? & ? & ?).
  - intros d i Hd'. rewrite Hread by done. destruct (decide (d = cr_trading_date incoming)) as [->|Hne].
    2: { by rewrite decide_False by (by intros [? _]). }
    destruct (decide (i = cr_instrument_identity incoming)) as [->|Hi].
    + rewrite decide_True by done. rewrite Hraw. cbn [mbind option_bind]. rewrite Hadv. by destruct Htext.
    + rewrite decide_False by (by intros [_ ?]). by rewrite Hother.
Qed.

(** Several compactions. *)
Fixpoint run_compact (store : gmap string (gmap string Text)) (us : list CompactedReferenceState)
    : result (gmap string (gmap string Text)) :=
  match us with
  | [] => Ok store
  | u :: us => r ← compact prefix store u; run_compact r.2 us
  end.

Definition about (d : date) (i : string) (u : CompactedReferenceState) : Prop :=
  d = cr_trading_date u /\ i = cr_instrument_identity u.
#[export] Instance about_dec d i u : Decision (about d i u).
Proof. unfold about. apply _. Defined.

Lemma run_compact_spec us : Forall storable us -> forall store, store_ok store ->
  exists store', run_compact store us = Ok store' /\ store_ok store'
  /\ forall d i, date_ok d = true -> reference_get prefix store' d i
     = foldl advance (reference_get prefix store d i) (filter (about d i) us).
Proof.
  induction 1 as [|u us Hu _ IH]; intros store Hok; cbn [run_compact]; [by exists store|].
  destruct (compact_spec store u Hok Hu) as (store1 & -> & Hok1 & Hget1). cbn [mbind result_bind snd].
  destruct (IH store1 Hok1) as (store2 & -> & Hok2 & Hget2). exists store2. split_and!; [done|done|].
  intros d i Hd. rewrite Hget2, Hget1 by done. rewrite filter_cons.
  destruct (decide (about d i u)) as [Ha|Ha]; [rewrite decide_True by exact Ha|rewrite decide_False by exact Ha]; done.
Qed.

Lemma store_ok_empty : store_ok ∅.
Proof. intros d i raw _. unfold read_all_raw. by rewrite lookup_empty. Qed.

End Store.

(** ** What a sequence of updates leaves *)

Definition older (a b : CompactedReferenceState) : Prop :=
  ordering_ltb (ordering a) (ordering b) = true.

(** The last value of a field that was carried. *)
Definition latest (f : CompactedReferenceState -> option Decimal) (l : list CompactedReferenceState)
    : option Decimal := foldl (fun acc u => keep (f u) acc) None l.

(** The provenance of the newest update with the last carried value of each price. *)
Definition recovered (l : list CompactedReferenceState) : option CompactedReferenceState :=
  (fun u => {| cr_instrument_identity := cr_instrument_identity u;
     cr_trading_date := cr_trading_date u; cr_updated_at := cr_updated_at u;
     cr_universe_version := cr_universe_version u; cr_producer_id := cr_producer_id u;
     cr_producer_epoch := cr_producer_epoch u; cr_producer_sequence := cr_producer_sequence u;
     cr_previous_close := latest cr_previous_close l; cr_session_open := latest cr_session_open l;
     cr_session_high := latest cr_session_high l; cr_session_low := latest cr_session_low l;
     cr_session_close := latest cr_session_close l |}) <$> last l.

Lemma ordering_ltb_iff a b : ordering_ltb a b = true <-> a.1 < b.1 \/ a.1 = b.1 /\ a.2 < b.2.
Proof.
  unfold ordering_ltb. rewrite orb_true_iff, andb_true_iff, !Z.ltb_lt, Z.eqb_eq. reflexivity.
Qed.

Lemma older_irrefl a : ~ older a a.
Proof. unfold older. rewrite ordering_ltb_iff. lia. Qed.

Lemma older_asym a b : older a b -> ordering_ltb (ordering b) (ordering a) = false.
Proof. unfold older. rewrite <- not_true_iff_false, !ordering_ltb_iff. lia. Qed.

Lemma classify_newer a b : older a b -> classify_reference b (Some a) = MERGED.
Proof.
  intros Hab. unfold classify_reference. rewrite older_asym by done.
  rewrite bool_decide_false; [done|]. intros Heq. unfold older in Hab. rewrite Heq in Hab.
  by apply (older_irrefl a).
Qed.

Lemma classify_not_newer a b : ~ older a b -> advance (Some a) b = Some a.
Proof.
  intros Hab. unfold advance, classify_reference. destruct (ordering_ltb (ordering b) (ordering a)) eqn:E; [done|].
  case_bool_decide as Heq; [done|]. destruct Hab. unfold older. revert E Heq.
  rewrite <- not_true_iff_false, !ordering_ltb_iff. destruct (ordering a) as [e s], (ordering b) as [e' s'].
  cbn. intros E Heq. destruct (decide (e = e')) as [->|]; [|lia]. assert (s <> s') by congruence. lia.
Qed.

Lemma latest_snoc f l u : latest f (l ++ [u]) = keep (f u) (latest f l).
Proof. unfold latest. by rewrite foldl_app. Qed.

Lemma keep_none a : keep a None = a.
Proof. by destruct a. Qed.

Lemma sorted_snoc l u : StronglySorted older (l ++ [u]) ->
  StronglySorted older l /\ forall v, v ∈ l -> older v u.
Proof.
  induction l as [|v l IH]; [split; [constructor|by intros ? ?%not_elem_of_nil]|].
  cbn [app]. intros [Hs Hv]%StronglySorted_inv. destruct (IH Hs) as [Hl Hu].
  apply Forall_app in Hv as [Hv Hvu]. split; [by constructor|].
  intros w [->|Hw]%elem_of_cons; [|by apply Hu]. by inversion Hvu.
Qed.

Lemma advance_sorted l : StronglySorted older l -> foldl advance None l = recovered l.
Proof.
  induction l as [|u l IH] using rev_ind; [done|]. intros [Hs Hu]%sorted_snoc.
  rewrite foldl_app, IH by done. cbn [foldl]. unfold recovered. rewrite last_snoc.
  cbn [fmap option_fmap option_map]. rewrite !latest_snoc.
  destruct (last l) as [v|] eqn:El; cbn [fmap option_fmap option_map].
  - apply last_Some_elem_of in El as Hin. unfold advance.
    rewrite classify_newer; [done|]. exact (Hu v Hin).
  - apply last_None in El as ->. unfold latest. cbn [foldl]. rewrite !keep_none. by destruct u.
Qed.

(** Updates that are not newer leave the state alone. *)
Lemma advance_replays l s : (forall u, u ∈ l -> ~ older s u) -> foldl advance (Some s) l = Some s.
Proof.
  induction l as [|u l IH]; [done|]. intros Hl. cbn [foldl].
  rewrite classify_not_newer by (apply Hl; left). apply IH. intros v Hv. apply Hl. by right.
Qed.

Lemma recovered_last l u s : recovered (l ++ [u]) = Some s -> ordering s = ordering u.
Proof. unfold recovered. rewrite last_snoc. by intros [= <-]. Qed.

Lemma elem_of_sorted_last l u v : StronglySorted older (l ++ [u]) -> v ∈ l ++ [u] -> ~ older u v.
Proof.
  intros [_ Hu]%sorted_snoc [Hv|Hv]%elem_of_app.
  2: { apply list_elem_of_singleton in Hv as ->. apply older_irrefl. }
  intros Ho. apply Hu, older_asym in Hv. unfold older in Ho. congruence.
Qed.

(** ** Loading *)

Section Load.
Context {Text : Type} `{StateCodec Text}.
Variables (trading_date : date) (expected : option Z).

(** Each entry is stored under the identity it carries. *)
Definition keyed (kvs : list (string * Text)) : Prop :=
  NoDup kvs.*1 /\ forall k raw s, (k, raw) ∈ kvs -> entry_verdict trading_date expected raw = LOADED s ->
    cr_instrument_identity s = k.

Lemma keyed_cons k raw kvs : keyed ((k, raw) :: kvs) ->
  (k ∉ kvs.*1) /\ keyed kvs
  /\ forall s, entry_verdict trading_date expected raw = LOADED s -> cr_instrument_identity s = k.
Proof.
  intros [[Hk Hn]%NoDup_cons Hid]. split_and!; [done| |].
  - split; [done|]. intros k' raw' s Hin. apply Hid. by right.
  - intros s. apply Hid. left.
Qed.

Definition loaded_of (raw : Text) : option CompactedReferenceState :=
  match entry_verdict trading_date expected raw with LOADED s => Some s | _ => None end.

Lemma load_entries_lookup kvs i : keyed kvs -> forall states tally,
  (forall k, k ∈ kvs.*1 -> states !! k = None) ->
  (load_entries trading_date expected kvs.*2 states tally).1 !! i
  = match (list_to_map kvs : gmap string Text) !! i with
    | Some raw => loaded_of raw
    | None => states !! i
    end.
Proof.
  induction kvs as [|[k raw] kvs IH]; intros Hk states tally Hfresh; [done|].
  apply keyed_cons in Hk as (Hnew & Hk & Hid). cbn [fmap list_fmap snd load_entries list_to_map foldr].
  unfold loaded_of. rewrite IH; [|exact Hk|].
  2: { intros k' Hk'. assert (Hne : k' <> k) by (by intros ->).
       destruct (entry_verdict trading_date expected raw) as [| | |s] eqn:Ev; try (apply Hfresh; by right).
       rewrite lookup_insert_ne; [apply Hfresh; by right|]. by rewrite (Hid s eq_refl). }
  cbn [fst snd]. destruct (decide (i = k)) as [->|Hne].
  - rewrite lookup_insert_eq. rewrite (not_elem_of_list_to_map_1 kvs k) by done.
    destruct (entry_verdict trading_date expected raw) as [| | |s] eqn:Ev; try (apply Hfresh; left).
    rewrite <- (Hid s eq_refl). by rewrite lookup_insert_eq.
  - rewrite lookup_insert_ne by done. destruct (list_to_map kvs !! i) as [raw'|]; [done|].
    destruct (entry_verdict trading_date expected raw) as [| | |s] eqn:Ev; try done.
    rewrite lookup_insert_ne; [done|]. by rewrite (Hid s eq_refl).
Qed.

(** Every entry is counted once, under its verdict. *)
Lemma load_entries_tally kvs : keyed kvs -> forall states tally,
  (forall k, k ∈ kvs.*1 -> states !! k = None) ->
  let '(states', tally') := load_entries trading_date expected kvs.*2 states tally in
  lt_total tally' = lt_total tally + Z.of_nat (length kvs)
  /\ lt_total tally' - lt_total tally
     = (lt_loaded tally' - lt_loaded tally) + (lt_invalid tally' - lt_invalid tally)
       + (lt_universe_mismatch tally' - lt_universe_mismatch tally)
       + (lt_trading_date_mismatch tally' - lt_trading_date_mismatch tally)
  /\ lt_loaded tally' - lt_loaded tally = Z.of_nat (size states') - Z.of_nat (size states).
Proof.
  induction kvs as [|[k raw] kvs IH]; intros Hk states tally Hfresh; [cbn; lia|].
  apply keyed_cons in Hk as (Hnew & Hk & Hid). cbn [fmap list_fmap snd load_entries length].
  set (v := entry_verdict trading_date expected raw) in *.
  set (states1 := match v with LOADED s => <[cr_instrument_identity s:=s]> states | _ => states end).
  assert (H1 : forall k', k' ∈ kvs.*1 -> states1 !! k' = None).
  { intros k' Hk'. assert (Hne : k' <> k) by (by intros ->). unfold states1.
    destruct v as [| | |s]; try (apply Hfresh; by right).
    rewrite lookup_insert_ne; [apply Hfresh; by right|]. by rewrite (Hid s eq_refl). }
  assert (H2 : Z.of_nat (size states1) = Z.of_nat (size states) + match v with LOADED _ => 1 | _ => 0 end).
  { unfold states1. destruct v as [| | |s]; try lia. rewrite map_size_insert_None; [lia|].
    rewrite (Hid s eq_refl). apply Hfresh. left. }
  specialize (IH Hk states1 (tally_entry v tally) H1).
  destruct (load_entries trading_date expected kvs.*2 states1 (tally_entry v tally)) as [states' tally'].
  destruct IH as (IH1 & IH2 & IH3). cbn [lt_total lt_loaded lt_invalid lt_universe_mismatch
    lt_trading_date_mismatch tally_entry] in *. destruct v; lia.
Qed.

End Load.

Section Claims.
Context {Text : Type} `{StateCodec Text} `{!StateCodecLaws (Text := Text)}.
Variable prefix : string.

(** The Lua script does what its Python mirror says: against any store that
    compactions wrote it never fails, answers [_classify] of the stored state and
    leaves the incoming state, its [merge_reference] with the stored one, or the
    stored one; nothing is changed under another date or instrument. *)
Theorem compact_mirrors_merge us store incoming d i :
  Forall storable us -> run_compact prefix ∅ us = Ok store -> storable incoming -> date_ok d = true ->
  let stored := reference_get prefix store (cr_trading_date incoming) (cr_instrument_identity incoming) in
  exists store', compact prefix store incoming = Ok (classify_reference incoming stored, store')
  /\ reference_get prefix store' d i =
     if decide (about d i incoming) then
       match stored, classify_reference incoming stored with
       | None, _ => Some incoming
       | Some existing, MERGED => Some (merge_reference existing incoming)
       | Some existing, _ => Some existing
       end
     else reference_get prefix store d i.
Proof.
  intros Hus Hrun Hst Hd. cbn zeta.
  destruct (run_compact_spec prefix us Hus ∅ (store_ok_empty prefix)) as (store1 & Hrun1 & Hok & _).
  rewrite Hrun in Hrun1. injection Hrun1 as <-.
  destruct (compact_spec prefix store incoming Hok Hst) as (store' & Hc & _ & Hget).
  exists store'. split; [exact Hc|]. rewrite Hget by done.
  destruct (decide (about d i incoming)) as [Ha|Ha];
    [rewrite decide_True by exact Ha; by destruct Ha as [-> ->]|by rewrite decide_False by exact Ha].
Qed.

(** [C38] Recovery: when the updates of an instrument on a date were written in
    producer order, possibly among those of others, and any of them are delivered
    again afterwards in any order, the store holds for it exactly the provenance of
    its newest update and, of every price, the last value any of its updates
    carried; nothing when it had none. *)
Theorem reference_recovered us replays d i :
  Forall storable us -> (forall r, r ∈ replays -> r ∈ us) ->
  StronglySorted older (filter (about d i) us) -> date_ok d = true ->
  exists store, run_compact prefix ∅ (us ++ replays) = Ok store
  /\ reference_get prefix store d i = recovered (filter (about d i) us).
Proof.
  intros Hus Hrep Hsort Hd.
  assert (Hall : Forall storable (us ++ replays)).
  { apply Forall_app. split; [done|]. apply Forall_forall. intros r Hr.
    by apply (proj1 (Forall_forall _ _) Hus), Hrep. }
  destruct (run_compact_spec prefix _ Hall ∅ (store_ok_empty prefix)) as (store & Hrun & _ & Hget).
  exists store. split; [exact Hrun|]. rewrite Hget by done.
  unfold reference_get, read_all_raw. rewrite lookup_empty. cbn [default]. rewrite lookup_empty.
  cbn [mbind option_bind]. rewrite filter_app, foldl_app, advance_sorted by done.
  assert (Hr : forall r, r ∈ filter (about d i) replays -> r ∈ filter (about d i) us).
  { intros r [Ha Hr]%list_elem_of_filter. apply list_elem_of_filter. auto. }
  revert Hsort Hr. generalize (filter (about d i) replays) (filter (about d i) us). intros rs l Hsort Hr.
  destruct (recovered l) as [s|] eqn:Es.
  - apply advance_replays. intros r Hin Ho. apply Hr in Hin.
    destruct l as [|u l _] using rev_ind; [done|]. apply recovered_last in Es as Hlast.
    apply (elem_of_sorted_last l u r Hsort Hin). unfold older in *. by rewrite <- Hlast.
  - destruct l as [|u l _] using rev_ind; [|unfold recovered in Es; by rewrite last_snoc in Es].
    destruct rs as [|r rs]; [done|]. destruct (not_elem_of_nil r). apply Hr. left.
Qed.

(** Loading a date recovers exactly the stored states of that date whose
    universe version is the expected one, each under its own instrument; the tally
    counts every entry of the hash once, none of them invalid or of another date,
    and [warming_up] says that nothing was recovered. *)
Theorem load_exact us store now d expected :
  Forall storable us -> run_compact prefix ∅ us = Ok store -> date_ok d = true ->
  let snapshot := load prefix store now d expected in let tally := rs_diagnostics snapshot in
  (forall i, rs_states snapshot !! i =
     match reference_get prefix store d i with
     | Some s => match compare_universe_version (cr_universe_version s) expected with
                 | UV_MATCH => Some s
                 | _ => None
                 end
     | None => None
     end)
  /\ lt_total tally = Z.of_nat (size (read_all_raw prefix store d))
  /\ lt_total tally = lt_loaded tally + lt_invalid tally + lt_universe_mismatch tally
                      + lt_trading_date_mismatch tally
  /\ lt_loaded tally = Z.of_nat (size (rs_states snapshot))
  /\ (warming_up snapshot = true <-> lt_loaded tally = 0).
Proof.
  intros Hus Hrun Hd. cbn zeta.
  destruct (run_compact_spec prefix us Hus ∅ (store_ok_empty prefix)) as (store1 & Hrun1 & Hok & _).
  rewrite Hrun in Hrun1. injection Hrun1 as <-.
  set (kvs := map_to_list (read_all_raw prefix store d)).
  assert (Hraw : forall k raw, (k, raw) ∈ kvs -> exists s, cr_trading_date s = d
    /\ cr_instrument_identity s = k /\ load_state raw = Some s).
  { intros k raw Hin%elem_of_map_to_list. destruct (Hok _ _ _ Hd Hin) as (s & ? & ? & _ & ? & _). by exists s. }
  assert (Hkeyed : keyed d expected kvs).
  { split; [apply NoDup_fst_map_to_list|]. intros k raw s Hin. destruct (Hraw k raw Hin) as (s' & Hds & Hk & Hl).
    unfold entry_verdict. rewrite Hl, Hds, Z.eqb_refl. cbn. case_match; by intros [= <-]. }
  pose proof (fun i => load_entries_lookup d expected kvs i Hkeyed ∅ empty_tally
    (fun k _ => lookup_empty k)) as Hlook.
  pose proof (load_entries_tally d expected kvs Hkeyed ∅ empty_tally (fun k _ => lookup_empty k)) as Htally.
  unfold load, warming_up. fold kvs.
  destruct (load_entries d expected kvs.*2 ∅ empty_tally) as [states tally]. cbn [rs_states rs_diagnostics fst] in *.
  destruct Htally as (Ht1 & Ht2 & Ht3). cbn [lt_total lt_loaded lt_invalid lt_universe_mismatch
    lt_trading_date_mismatch empty_tally] in *. rewrite map_size_empty in Ht3.
  split_and!.
  - intros i. rewrite Hlook. unfold kvs. rewrite list_to_map_to_list. unfold reference_get.
    destruct (read_all_raw prefix store d !! i) as [raw|] eqn:E; cbn [mbind option_bind]; [|apply lookup_empty].
    destruct (Hraw i raw) as (s & Hds & Hk & Hl); [by apply elem_of_map_to_list|].
    unfold loaded_of, entry_verdict. rewrite Hl, Hds, Z.eqb_refl. cbn.
    by destruct (compare_universe_version (cr_universe_version s) expected).
  - rewrite Ht1. unfold kvs. rewrite length_map_to_list. lia.
  - lia.
  - lia.
  - rewrite bool_decide_eq_true, <- map_size_empty_iff. lia.
Qed.

End Claims.

(** ** The writer *)

Section WriterLemmas.
Context {EnvelopeText Raw : Type} `{JsonCodecLaws EnvelopeText Raw}.

(** What is extracted from an envelope of a constructed payload: its provenance with
    the prices it carries, nothing from quotes, continuity events and bare ticks. *)
Lemma reference_extracted (e : MarketEventEnvelope EnvelopeText) p :
  payload_constructed p -> env_event_kind e = event_kind_for p -> env_payload e = dump_payload p ->
  match p with
  | PReference r => forall o, reference_from_envelope e = Ok o -> exists s, o = Some s
      /\ cr_previous_close s = Some (ref_previous_close r) /\ cr_session_open s = None
      /\ ordering s = (env_producer_epoch e, env_producer_sequence e)
  | PTick t => forall o, reference_from_envelope e = Ok o ->
      match tick_session_ohlc t with
      | Some ohlc => exists s, o = Some s /\ cr_previous_close s = None
          /\ cr_session_open s = Some (pso_open_price ohlc)
          /\ ordering s = (env_producer_epoch e, env_producer_sequence e)
      | None => o = None
      end
  | PQuote _ | PContinuity _ => reference_from_envelope e = Ok None
  end.
Proof.
  intros Hp Hk Ht. unfold reference_from_envelope, decode_payload.
  rewrite Hk, Ht, payload_roundtrip by done. cbn [mbind result_bind].
  assert (Hmk : forall raw o, (s ← mk_reference_state raw; Ok (Some s)) = Ok o -> exists s, o = Some s
    /\ cr_previous_close s = cr_previous_close raw /\ cr_session_open s = cr_session_open raw
    /\ ordering s = ordering raw).
  { intros raw o (s & (i & _ & (pid & _ & ([] & _ & ([] & _ & [= <-])%bind_ok)%bind_ok)%bind_ok)%bind_ok & [= <-])%bind_ok.
    by eexists. }
  destruct p as [t|q|r|ev]; [|done| |done].
  - destruct (tick_session_ohlc t); [|by intros o [= <-]]. intros o Ho. by apply Hmk in Ho.
  - intros o Ho. by apply Hmk in Ho.
Qed.

(** Anything [reference_from_envelope] raises is a validation error. *)
Lemma reference_raises (e : MarketEventEnvelope EnvelopeText) x :
  reference_from_envelope e = Raise x -> is_value_error x = true.
Proof.
  assert (Hmk : forall raw, (s ← mk_reference_state raw; Ok (Some s)) = Raise x -> is_value_error x = true).
  { intros raw. unfold mk_reference_state, bounded_name, raise_if.
    repeat (case_match; cbn [mbind result_bind] in *; try (by intros [= <-])). all: congruence. }
  unfold reference_from_envelope, decode_payload.
  destruct (parse_payload (env_event_kind e) (env_payload e)) as [p|]; cbn [mbind result_bind]; [|by intros [= <-]].
  destruct p as [t|q|r|ev]; try done; [destruct (tick_session_ohlc t); [|done]|]; apply Hmk.
Qed.

(** A history of updates, each with the clock and the answer of the store. *)
Fixpoint run_updates (self : ReferenceStateWriter)
    (us : list (instant * (CompactedReferenceState -> result ReferenceOutcome) * MarketEventEnvelope EnvelopeText))
    : ReferenceStateWriter * result (list ReferenceOutcome) :=
  match us with
  | [] => (self, Ok [])
  | (now, store, e) :: us =>
      match writer_update self now store e with
      | (self, Raise x) => (self, Raise x)
      | (self, Ok o) => let '(self, r) := run_updates self us in (self, (fun l => o :: l) <$> r)
      end
  end.

Definition new_writer : ReferenceStateWriter := {|
  rw_counters := Build_WriterCounters 0 0 0 0 0 0 0 0; rw_last_success_at := None;
  rw_last_failure_at := None |}.

(** The answers of [compact]: one of its four outcomes, or a Redis error. *)
Definition store_answers (store : CompactedReferenceState -> result ReferenceOutcome) : Prop :=
  forall s, match store s with
            | Ok o => o = WRITTEN \/ o = MERGED \/ o = DUPLICATE_REFERENCE \/ o = STALE_REJECTED
            | Raise x => x = RedisError
            end.

(** The counters of a writer account for its outcomes. *)
Definition accounts (c : WriterCounters) (outcomes : list ReferenceOutcome) : Prop :=
  let n o := Z.of_nat (length (filter (fun o' => o' = o) outcomes)) in
  wc_attempted c = Z.of_nat (length outcomes) /\ wc_written c = n WRITTEN + n MERGED
  /\ wc_failures c = n WRITE_FAILED /\ wc_stale c = n STALE_REJECTED
  /\ wc_duplicate c = n DUPLICATE_REFERENCE /\ wc_no_reference_data c = n NO_REFERENCE_DATA
  /\ wc_attempted c = wc_written c + wc_failures c + wc_stale c + wc_duplicate c + wc_no_reference_data c.

Lemma accounts_snoc c outcomes o incoming : accounts c outcomes ->
  accounts (count_outcome o incoming c) (outcomes ++ [o]).
Proof.
  unfold accounts. intros (H1 & H2 & H3 & H4 & H5 & H6 & H7). rewrite !filter_app, !length_app.
  rewrite !filter_cons, !filter_nil, !Nat2Z.inj_add. cbn [count_outcome wc_attempted wc_written wc_failures
    wc_stale wc_duplicate wc_no_reference_data length].
  destruct o; split_and!; repeat case_bool_decide; repeat case_decide; cbn [length]; lia || naive_solver.
Qed.

Lemma writer_update_ok self now store e : store_answers store -> exists self' o incoming,
  writer_update self now store e = (self', Ok o)
  /\ rw_counters self' = count_outcome o incoming (rw_counters self).
Proof.
  intros Hs. unfold writer_update. destruct (reference_from_envelope e) as [[s|]|x] eqn:E.
  - specialize (Hs s). destruct (store s) as [o|x]; [by eexists _, o, (Some s)|].
    subst x. by eexists _, WRITE_FAILED, None.
  - by eexists _, NO_REFERENCE_DATA, None.
  - rewrite (reference_raises _ _ E). by eexists _, WRITE_FAILED, None.
Qed.

Lemma run_updates_ok us : Forall (fun u => store_answers u.1.2) us -> forall self outcomes,
  accounts (rw_counters self) outcomes ->
  exists self' more, run_updates self us = (self', Ok more) /\ length more = length us
  /\ accounts (rw_counters self') (outcomes ++ more).
Proof.
  induction 1 as [|[[now store] e] us Hs _ IH]; intros self outcomes Ha; cbn [run_updates].
  - exists self, []. by rewrite app_nil_r.
  - destruct (writer_update_ok self now store e Hs) as (s1 & o & inc & -> & Hc).
    destruct (IH s1 (outcomes ++ [o])) as (s2 & more & -> & Hlen & Ha2).
    { rewrite Hc. by apply accounts_snoc. }
    exists s2, (o :: more). rewrite <- app_assoc in Ha2. cbn. by rewrite Hlen.
Qed.

(** [update] never raises: whatever envelopes a writer is given and whichever
    compactions fail, every update answers an outcome, the counters are the numbers
    of these outcomes and every attempt is counted under exactly one of them. *)
Theorem writer_never_raises us : Forall (fun u => store_answers u.1.2) us ->
  exists self outcomes, run_updates new_writer us = (self, Ok outcomes)
  /\ length outcomes = length us /\ accounts (rw_counters self) outcomes.
Proof.
  intros Hus. destruct (run_updates_ok us Hus new_writer []) as (self & more & Hrun & Hlen & Ha); [by split_and!|].
  by exists self, more.
Qed.

End WriterLemmas.

(** * A concrete codec *)

(** Texts that are the decoded tables themselves; prices and instants are written
    as the binary digits of their codes. *)
Fixpoint bits_of (p : positive) : string :=
  match p with xI p => String "1"%char (bits_of p) | xO p => String "0"%char (bits_of p) | xH => EmptyString end.
Fixpoint of_bits (s : string) : positive :=
  match s with
  | EmptyString => xH
  | String c s => if bool_decide (c = "1"%char) then xI (of_bits s) else xO (of_bits s)
  end.

Lemma of_bits_of p : of_bits (bits_of p) = p.
Proof. by induction p; cbn; f_equal. Qed.

Definition code_text {A} `{Countable A} (a : A) : string := bits_of (encode a).
Definition text_code {A} `{Countable A} (s : string) : option A := decode (of_bits s).

Lemma text_code_text {A} `{Countable A} (a : A) : text_code (code_text a) = Some a.
Proof. unfold text_code, code_text. by rewrite of_bits_of, countable.decode_encode. Qed.

Definition read_string (t : LuaTable) (f : string) : option string :=
  match t !! f with Some (LuaString s) => Some s | _ => None end.
Definition read_number (t : LuaTable) (f : string) : option Z :=
  match t !! f with Some (LuaNumber n) => Some (Qnum n) | _ => None end.
Definition read_price (t : LuaTable) (f : string) : option (option Decimal) :=
  match t !! f with
  | Some LuaNull => Some None
  | Some (LuaString s) => Some <$> text_code s
  | _ => None
  end.

Definition read_state (t : LuaTable) : option CompactedReferenceState :=
  identity ← read_string t "instrument_identity";
  d ← read_string t "trading_date" ≫= (fun s => match fromisoformat s with Ok d => Some d | Raise _ => None end);
  updated_at ← read_string t "updated_at" ≫= text_code;
  version ← read_number t "universe_version";
  producer_id ← read_string t "producer_id";
  epoch ← read_number t "producer_epoch";
  sequence ← read_number t "producer_sequence";
  previous_close ← read_price t "previous_close";
  o ← read_price t "session_open";
  h ← read_price t "session_high";
  l ← read_price t "session_low";
  c ← read_price t "session_close";
  Some {| cr_instrument_identity := identity; cr_trading_date := d; cr_updated_at := updated_at;
          cr_universe_version := version; cr_producer_id := producer_id; cr_producer_epoch := epoch;
          cr_producer_sequence := sequence; cr_previous_close := previous_close;
          cr_session_open := o; cr_session_high := h; cr_session_low := l; cr_session_close := c |}.

Definition sample_table (s : CompactedReferenceState) : LuaTable :=
  let price p := match p with Some d => LuaString (code_text d) | None => LuaNull end in
  foldr (fun f t => <[f := price (price_of s f)]> t) (list_to_map [
    ("instrument_identity", LuaString (cr_instrument_identity s));
    ("trading_date", LuaString (isoformat (cr_trading_date s)));
    ("updated_at", LuaString (code_text (cr_updated_at s)));
    ("universe_version", LuaNumber (dec (cr_universe_version s) 0));
    ("producer_id", LuaString (cr_producer_id s));
    ("producer_epoch", LuaNumber (dec (cr_producer_epoch s) 0));
    ("producer_sequence", LuaNumber (dec (cr_producer_sequence s) 0)) ]) price_fields.

#[global] Instance sample_state_codec : StateCodec (gmap string LuaValue) := {|
  dump_state := sample_table; load_state := read_state; cjson_decode := Some;
  cjson_encode := fun t => t; string_tonumber := fun _ => None;
  decimal_text := code_text; instant_text := code_text |}.

Lemma num_of_dec n : Qnum (dec n 0) = n.
Proof. unfold dec. cbn [this Q2Qc]. rewrite (proj2 (Qred_iff _)); [done|]. cbn. apply Z.gcd_1_r. Qed.

Lemma read_price_value (t : LuaTable) f p :
  t !! f = Some (price_value (Text := gmap string LuaValue) p) -> read_price t f = Some p.
Proof. unfold read_price. intros ->. destruct p as [d|]; [|done]. cbn. by rewrite text_code_text. Qed.

Lemma read_state_table s : date_ok (cr_trading_date s) = true ->
  read_state (state_table (Text := gmap string LuaValue) s) = Some s.
Proof.
  intros Hd. unfold read_state.
  assert (Hs : forall f v, state_table (Text := gmap string LuaValue) s !! f = Some (LuaString v) ->
    read_string (state_table (Text := gmap string LuaValue) s) f = Some v) by (unfold read_string; by intros ? ? ->).
  assert (Hn : forall f n, state_table (Text := gmap string LuaValue) s !! f = Some (LuaNumber (dec n 0)) ->
    read_number (state_table (Text := gmap string LuaValue) s) f = Some n).
  { unfold read_number. intros ? n ->. by rewrite num_of_dec. }
  rewrite (Hs "instrument_identity" (cr_instrument_identity s)) by reflexivity. cbn [mbind option_bind].
  rewrite (Hs "trading_date" (isoformat (cr_trading_date s))) by reflexivity. cbn [mbind option_bind].
  rewrite fromisoformat_isoformat by done.
  rewrite (Hs "updated_at" (code_text (cr_updated_at s))) by reflexivity. cbn [mbind option_bind].
  rewrite text_code_text. cbn [mbind option_bind].
  rewrite (Hn "universe_version" (cr_universe_version s)) by reflexivity. cbn [mbind option_bind].
  rewrite (Hs "producer_id" (cr_producer_id s)) by reflexivity. cbn [mbind option_bind].
  rewrite (Hn "producer_epoch" (cr_producer_epoch s)) by reflexivity. cbn [mbind option_bind].
  rewrite (Hn "producer_sequence" (cr_producer_sequence s)) by reflexivity. cbn [mbind option_bind].
  rewrite (read_price_value _ "previous_close" (cr_previous_close s)) by reflexivity. cbn [mbind option_bind].
  rewrite (read_price_value _ "session_open" (cr_session_open s)) by reflexivity. cbn [mbind option_bind].
  rewrite (read_price_value _ "session_high" (cr_session_high s)) by reflexivity. cbn [mbind option_bind].
  rewrite (read_price_value _ "session_low" (cr_session_low s)) by reflexivity. cbn [mbind option_bind].
  rewrite (read_price_value _ "session_close" (cr_session_close s)) by reflexivity. cbn [mbind option_bind].
  by destruct s.
Qed.

#[global] Instance sample_state_codec_laws : StateCodecLaws (Text := gmap string LuaValue).
Proof.
  split.
  - intros s (Hd & _). by apply (read_state_table s).
  - done.
  - intros s (Hd & _). by apply read_state_table.
  - done.
Qed.

(** * A concrete recovery *)

(** The previous close arrives first, the session OHLC with a later tick. *)
Definition close_update : CompactedReferenceState := {|
  cr_instrument_identity := "NSE:RELIANCE"; cr_trading_date := 20480; cr_updated_at := 0;
  cr_universe_version := 3; cr_producer_id := "producer-1"; cr_producer_epoch := 1;
  cr_producer_sequence := 1; cr_previous_close := Some (dec 2450 0); cr_session_open := None;
  cr_session_high := None; cr_session_low := None; cr_session_close := None |}.

Definition tick_update : CompactedReferenceState := {|
  cr_instrument_identity := "NSE:RELIANCE"; cr_trading_date := 20480; cr_updated_at := 7;
  cr_universe_version := 3; cr_producer_id := "producer-1"; cr_producer_epoch := 1;
  cr_producer_sequence := 4; cr_previous_close := None; cr_session_open := Some (dec 2460 0);
  cr_session_high := Some (dec 2470 0); cr_session_low := Some (dec 2455 0);
  cr_session_close := Some (dec 2465 0) |}.

Definition recovered_update : CompactedReferenceState := merge_reference close_update tick_update.

Lemma close_storable : storable close_update.
Proof. split_and!; [reflexivity|reflexivity|]. by split_and!. Qed.
Lemma tick_storable : storable tick_update.
Proof. split_and!; [reflexivity|reflexivity|]. by split_and!. Qed.

Lemma close_only : Forall storable [close_update].
Proof. repeat constructor; apply close_storable. Qed.

Definition sample_store : gmap string (gmap string (gmap string LuaValue)) :=
  {[ reference_key "md:reference" 20480 := {[ "NSE:RELIANCE" := sample_table close_update ]} ]}.

Lemma sample_run : run_compact (Text := gmap string LuaValue) "md:reference" ∅ [close_update] = Ok sample_store.
Proof. reflexivity. Qed.

Lemma compact_mirrors_merge_witness :
  exists store', compact (Text := gmap string LuaValue) "md:reference" sample_store tick_update
    = Ok (MERGED, store')
  /\ reference_get "md:reference" store' 20480 "NSE:RELIANCE" = Some recovered_update.
Proof.
  exact (compact_mirrors_merge (Text := gmap string LuaValue) "md:reference" [close_update] sample_store
    tick_update 20480 "NSE:RELIANCE" close_only
    sample_run tick_storable eq_refl).
Defined.

Lemma reference_recovered_witness :
  exists store, run_compact (Text := gmap string LuaValue) "md:reference" ∅
    ([close_update; tick_update] ++ [tick_update; close_update]) = Ok store
  /\ reference_get "md:reference" store 20480 "NSE:RELIANCE" = Some recovered_update.
Proof.
  refine (reference_recovered (Text := gmap string LuaValue) "md:reference" [close_update; tick_update]
    [tick_update; close_update] 20480 "NSE:RELIANCE" _ _ _ eq_refl).
  - apply Forall_cons; split; [apply close_storable|]. apply Forall_cons; split; [apply tick_storable|constructor].
  - set_solver.
  - change (StronglySorted older [close_update; tick_update]). repeat constructor.
Defined.

Lemma load_exact_witness :
  rs_states (load "md:reference" sample_store 9 20480 (Some 3)) !! "NSE:RELIANCE" = Some close_update
  /\ rs_states (load "md:reference" sample_store 9 20480 (Some 4)) !! "NSE:RELIANCE" = None.
Proof.
  split.
  - exact (proj1 (load_exact (Text := gmap string LuaValue) "md:reference" [close_update] sample_store 9
      20480 (Some 3) close_only sample_run eq_refl)
      "NSE:RELIANCE").
  - exact (proj1 (load_exact (Text := gmap string LuaValue) "md:reference" [close_update] sample_store 9
      20480 (Some 4) close_only sample_run eq_refl)
      "NSE:RELIANCE").
Defined.

(** One update merged, one lost to a Redis error, one event without reference data. *)
Definition reference_envelope (payload : IpcPayload) : MarketEventEnvelope IpcPayload := {|
  env_schema_version := 1; env_producer_id := "producer-1"; env_producer_epoch := 1;
  env_producer_sequence := 1; env_produced_at := 0; env_event_kind := event_kind_for payload;
  env_trading_date := 20480; env_universe_version := 3;
  env_instrument_identity := "NSE:RELIANCE"; env_payload := payload |}.

Definition sample_updates : list (instant * (CompactedReferenceState -> result ReferenceOutcome)
    * MarketEventEnvelope IpcPayload) :=
  let reference := PReference {| ref_instrument := cash_equity "RELIANCE"; ref_previous_close := dec 2450 0 |} in
  let tick := PTick {| tick_instrument := cash_equity "RELIANCE"; tick_event_timestamp := 0;
    last_price := dec 2465 0; tick_traded_quantity := None; session_cumulative_volume := None;
    tick_session_ohlc := None |} in
  [ (1, fun _ => Ok WRITTEN, reference_envelope reference);
    (2, fun _ => Raise RedisError, reference_envelope reference);
    (3, fun _ => Ok MERGED, reference_envelope tick) ].

Lemma writer_never_raises_witness :
  exists self, run_updates new_writer sample_updates = (self, Ok [WRITTEN; WRITE_FAILED; NO_REFERENCE_DATA])
  /\ wc_attempted (rw_counters self) = 3.
Proof.
  destruct (writer_never_raises sample_updates) as (self & outcomes & Hrun & Hlen & Ha).
  - repeat constructor; intros s; cbn; tauto.
  - exists self. destruct Ha as (-> & _). rewrite Hlen. split; [|reflexivity].
    rewrite Hrun. f_equal. change (Ok outcomes) with (snd (self, Ok outcomes)). rewrite <- Hrun. reflexivity.
Defined.
