(* ===== verification/Sector.v ===== *)
(** Sector membership, market_intelligence/sector/models.py and membership.py: group
    definitions, effective-dated memberships, the validation of a dataset and the
    read-only resolver over it.

    The theorems say that a validated dataset gives every instrument at most one
    primary sector on any date, that the resolver finds exactly that one, and that
    its two directions agree. *)
From S2P Require Import Prelude PyTime MarketData.

Local Open Scope Z_scope.

(** * Models *)

Inductive GroupKind : Type :=
| PRIMARY_SECTOR | INDUSTRY | SECTOR_INDEX | THEMATIC_INDEX | BROAD_MARKET_INDEX.

#[global] Instance GroupKind_eq_dec : EqDecision GroupKind.
Proof. solve_decision. Defined.

(** [instrument_identity] *)
Definition instrument_identity (i : Instrument) : string :=
  (exchange i ++ ":" ++ symbol i)%string.

Record SectorDefinition : Type := {
  sd_sector_id : string;
  sd_name : string;
  sd_kind : GroupKind;
  sd_source : string;
  sd_parent_id : option string;
  sd_effective_from : option date;
  sd_effective_to : option date;
}.

(** [SectorDefinition(...)] with [_no_whitespace_id] *)
Definition mk_sector_definition (raw : SectorDefinition) : result SectorDefinition :=
  _ ← raise_if (is_empty (sd_sector_id raw) || is_empty (sd_name raw) || is_empty (sd_source raw))
    (ValidationError "string_too_short");
  _ ← raise_if (negb (bool_decide (strip (sd_sector_id raw) = sd_sector_id raw))
                || is_empty (strip (sd_sector_id raw)))
    (ValidationError "sector_id must be a non-empty, untrimmed-whitespace key");
  Ok raw.

Record SectorMembership : Type := {
  sm_identity : string;
  sm_sector_id : string;
  sm_primary : bool;
  sm_effective_from : date;
  sm_source : string;
  sm_effective_to : option date;
  sm_company : option string;
  sm_isin : option string;
}.

(** [SectorMembership(...)] with [_interval_ordered] *)
Definition mk_sector_membership (raw : SectorMembership) : result SectorMembership :=
  _ ← raise_if (is_empty (sm_identity raw) || is_empty (sm_sector_id raw) || is_empty (sm_source raw))
    (ValidationError "string_too_short");
  _ ← raise_if (match sm_effective_to raw with
                | Some stop => stop <=? sm_effective_from raw
                | None => false
                end)
    (ValidationError "effective_to must be strictly after effective_from");
  Ok raw.

(** [active_on]: the half-open interval [from, to). *)
Definition active_on (self : SectorMembership) (on : date) : bool :=
  if on <? sm_effective_from self then false
  else match sm_effective_to self with None => true | Some stop => on <? stop end.

Record SectorDatasetMetadata : Type := {
  md_dataset_id : string;
  md_version : string;
  md_effective_from : date;
  md_generated_at : date;
  md_source_authority : string;
  md_notes : option string;
}.

Record InstrumentSectorProfile : Type := {
  sp_identity : string;
  sp_primary_sector : option string;
  sp_secondary_memberships : list string;
  sp_broad_market_memberships : list string;
}.

Definition is_mapped (self : InstrumentSectorProfile) : bool := is_not_none (sp_primary_sector self).

(** * Validation of a dataset *)

Definition primary_kind (k : GroupKind) : bool :=
  match k with PRIMARY_SECTOR | INDUSTRY => true | _ => false end.
Definition index_kind (k : GroupKind) : bool :=
  match k with SECTOR_INDEX | THEMATIC_INDEX | BROAD_MARKET_INDEX => true | _ => false end.

Record SectorMembershipDataset : Type := {
  ds_metadata : SectorDatasetMetadata;
  ds_sector_definitions : list SectorDefinition;
  ds_index_definitions : list SectorDefinition;
  ds_memberships : list SectorMembership;
}.

(** The first loop of [_validate_definitions]. *)
Fixpoint collect_definitions (l : list SectorDefinition) (defs : dict string SectorDefinition)
    : result (dict string SectorDefinition) :=
  match l with
  | [] => Ok defs
  | d :: l =>
      _ ← raise_if (is_not_none (dict_get (sd_sector_id d) defs)) (SectorDatasetError "duplicate sector_id");
      collect_definitions l (dict_set (sd_sector_id d) d defs)
  end.

(** [_validate_definitions] *)
Definition validate_definitions (self : SectorMembershipDataset)
    : result (dict string SectorDefinition) :=
  defs ← collect_definitions (ds_sector_definitions self ++ ds_index_definitions self) [];
  _ ← for_each (fun d => raise_if (negb (primary_kind (sd_kind d)))
                           (SectorDatasetError "non-primary kind on definition")) (ds_sector_definitions self);
  _ ← for_each (fun d => raise_if (negb (index_kind (sd_kind d)))
                           (SectorDatasetError "non-index kind on definition")) (ds_index_definitions self);
  Ok defs.

Definition membership_key (m : SectorMembership) : string * string * date :=
  (sm_identity m, sm_sector_id m, sm_effective_from m).

(** [_validate_memberships]; [seen] holds the keys of the rows before. *)
Fixpoint validate_memberships (defs : dict string SectorDefinition) (l : list SectorMembership)
    (seen : list (string * string * date)) : result unit :=
  match l with
  | [] => Ok tt
  | m :: l =>
      match dict_get (sm_sector_id m) defs with
      | None => Raise (SectorDatasetError "undefined sector in membership")
      | Some d =>
          _ ← raise_if (sm_primary m && negb (primary_kind (sd_kind d)))
            (SectorDatasetError "primary flag on non-primary kind");
          _ ← raise_if (bool_decide (membership_key m ∈ seen)) (SectorDatasetError "duplicate membership row");
          validate_memberships defs l (membership_key m :: seen)
      end
  end.

Definition from_leb (a b : SectorMembership) : bool := sm_effective_from a <=? sm_effective_from b.

(** The check of one adjacent pair of [_validate_primary_intervals]. *)
Definition disjoint_pair (p : SectorMembership * SectorMembership) : result unit :=
  raise_if (match sm_effective_to p.1 with
            | None => true
            | Some stop => sm_effective_from p.2 <? stop
            end)
    (SectorDatasetError "overlapping active primary intervals").

(** [_validate_primary_intervals] *)
Definition validate_primary_intervals (memberships : list SectorMembership) : result unit :=
  for_each (fun kv => for_each disjoint_pair (pairwise (py_sorted from_leb kv.2)))
    (group_by sm_identity (filter (fun m => sm_primary m = true) memberships)).

(** * The resolver *)

Record MembershipResolver : Type := {
  mr_defs : dict string SectorDefinition;
  mr_metadata : SectorDatasetMetadata;
  mr_by_identity : dict string (list SectorMembership);
  mr_primary_sector_ids : list string;
}.

Definition mk_membership_resolver (dataset : SectorMembershipDataset) : result MembershipResolver :=
  defs ← validate_definitions dataset;
  _ ← validate_memberships defs (ds_memberships dataset) [];
  _ ← validate_primary_intervals (ds_memberships dataset);
  Ok {| mr_defs := defs; mr_metadata := ds_metadata dataset;
        mr_by_identity := group_by sm_identity (ds_memberships dataset);
        mr_primary_sector_ids := py_sorted String.leb (sd_sector_id <$> ds_sector_definitions dataset) |}.

(** [_on] *)
Definition resolve_on (self : MembershipResolver) (on : option date) : date :=
  match on with Some d => d | None => md_effective_from (mr_metadata self) end.

Definition rows_of (self : MembershipResolver) (identity : string) : list SectorMembership :=
  default [] (dict_get identity (mr_by_identity self)).

Definition resolve_primary (self : MembershipResolver) (identity : string) (on : option date)
    : option string :=
  let when := resolve_on self on in
  sm_sector_id <$> head (filter (fun m => sm_primary m && active_on m when = true) (rows_of self identity)).

Definition secondary_memberships (self : MembershipResolver) (identity : string) (on : option date)
    : list string :=
  let when := resolve_on self on in
  py_sorted String.leb
    (sm_sector_id <$> filter (fun m => negb (sm_primary m) && active_on m when = true) (rows_of self identity)).

(** [self._defs[s].kind is GroupKind.BROAD_MARKET_INDEX] *)
Definition is_broad (self : MembershipResolver) (s : string) : result bool :=
  match dict_get s (mr_defs self) with
  | Some d => Ok (bool_decide (sd_kind d = BROAD_MARKET_INDEX))
  | None => Raise (KeyError s)
  end.

(** [[x for x in xs if p(x)]] where the test may raise. *)
Fixpoint filter_result {A} (p : A -> result bool) (l : list A) : result (list A) :=
  match l with
  | [] => Ok []
  | x :: l => b ← p x; r ← filter_result p l; Ok (if b : bool then x :: r else r)
  end.

Definition resolve_profile (self : MembershipResolver) (identity : string) (on : option date)
    : result InstrumentSectorProfile :=
  let secondary := secondary_memberships self identity on in
  broad ← filter_result (is_broad self) secondary;
  let non_broad := filter (fun s => s ∉ broad) secondary in
  Ok {| sp_identity := identity; sp_primary_sector := resolve_primary self identity on;
        sp_secondary_memberships := non_broad; sp_broad_market_memberships := broad |}.

Definition members_of_primary_sector (self : MembershipResolver) (sector_id : string)
    (on : option date) : list string :=
  let when := resolve_on self on in
  py_sorted String.leb
    (fst <$> filter (fun kv : string * list SectorMembership =>
               py_any (fun m => sm_primary m && bool_decide (sm_sector_id m = sector_id)
                                && active_on m when) kv.2 = true) (mr_by_identity self)).

Definition all_primary_sectors (self : MembershipResolver) : list string := mr_primary_sector_ids self.

(** * Lemmas *)

(** A row ends before the other begins. *)
Definition before (a b : SectorMembership) : Prop :=
  exists stop, sm_effective_to a = Some stop /\ stop <= sm_effective_from b.

Definition membership_constructed (m : SectorMembership) : Prop := mk_sector_membership m = Ok m.

Lemma membership_ordered m stop : membership_constructed m -> sm_effective_to m = Some stop ->
  sm_effective_from m < stop.
Proof.
  unfold membership_constructed, mk_sector_membership. intros ([] & _ & ([] & H%raise_if_ok & _)%bind_ok)%bind_ok Ht.
  rewrite Ht in H. zbool. lia.
Qed.

Lemma before_not_both a b d : before a b -> active_on a d = true -> active_on b d = true -> False.
Proof.
  unfold active_on. intros (stop & -> & Hle). destruct (d <? sm_effective_from a), (d <? sm_effective_from b) eqn:E;
    intros; try done. zbool. lia.
Qed.

Lemma before_trans a b c : membership_constructed b -> before a b -> before b c -> before a c.
Proof.
  intros Hb (s & Hs & Hle) (t & Ht & Hle'). exists s. split; [done|].
  pose proof (membership_ordered _ _ Hb Ht). lia.
Qed.

(** Adjacent disjoint rows are pairwise disjoint. *)
Lemma disjoint_sorted l : Forall membership_constructed l ->
  for_each disjoint_pair (pairwise l) = Ok tt -> StronglySorted before l.
Proof.
  induction l as [|a l IH]; intros Hc H; [constructor|]. destruct l as [|b l]; [repeat constructor|].
  change (pairwise (a :: b :: l)) with ((a, b) :: pairwise (b :: l)) in H. cbn [for_each] in H.
  apply bind_ok in H as ([] & Hab%raise_if_ok & Hrest). cbn in Hab.
  apply Forall_cons in Hc as [Ha Hc]. specialize (IH Hc Hrest). apply Forall_cons in Hc as [Hb _].
  assert (before a b) by (unfold before; destruct (sm_effective_to a); [zbool; eauto|done]).
  constructor; [done|]. apply Forall_cons; split; [done|]. apply StronglySorted_inv in IH as [_ IH].
  eapply Forall_impl; [exact IH|]. intros c. by apply before_trans.
Qed.

Lemma before_one_active l d : StronglySorted before l ->
  (length (filter (fun m => active_on m d = true) l) <= 1)%nat.
Proof.
  induction 1 as [|a l _ IH Ha]; [cbn; lia|]. rewrite filter_cons. case_decide as Hd; [|done].
  assert (filter (fun m => active_on m d = true) l = []) as ->; [|cbn; lia].
  apply filter_none. intros b Hb Hbd. rewrite Forall_forall in Ha.
  by apply (before_not_both a b d (Ha b Hb)).
Qed.

Lemma at_most_one_eq {A} (l : list A) x y : (length l <= 1)%nat -> x ∈ l -> y ∈ l -> x = y.
Proof.
  destruct l as [|z [|z' l]]; cbn; intros Hl Hx Hy; [by apply not_elem_of_nil in Hx| |lia].
  apply list_elem_of_singleton in Hx, Hy. congruence.
Qed.

Lemma at_most_one_head {A} (l : list A) x : (length l <= 1)%nat -> head l = Some x <-> x ∈ l.
Proof.
  destruct l as [|z [|z' l]]; cbn; intros Hl; [|split; [intros [= ->]; left|]|lia].
  - split; [done|]. intros H. by apply not_elem_of_nil in H.
  - by intros ->%list_elem_of_singleton.
Qed.

(** ** What a resolver guarantees *)

Section Resolver.
Variables (dataset : SectorMembershipDataset) (resolver : MembershipResolver).
Hypothesis constructed : Forall membership_constructed (ds_memberships dataset).
Hypothesis accepted : mk_membership_resolver dataset = Ok resolver.

Lemma resolver_fields : validate_definitions dataset = Ok (mr_defs resolver)
  /\ validate_memberships (mr_defs resolver) (ds_memberships dataset) [] = Ok tt
  /\ validate_primary_intervals (ds_memberships dataset) = Ok tt
  /\ mr_metadata resolver = ds_metadata dataset
  /\ mr_by_identity resolver = group_by sm_identity (ds_memberships dataset)
  /\ mr_primary_sector_ids resolver = py_sorted String.leb (sd_sector_id <$> ds_sector_definitions dataset).
Proof using accepted.
  revert accepted. unfold mk_membership_resolver.
  by intros (defs & Hd & ([] & Hm & ([] & Hi & [= <-])%bind_ok)%bind_ok)%bind_ok.
Qed.

Lemma rows_of_filter i : rows_of resolver i = filter (fun m => sm_identity m = i) (ds_memberships dataset).
Proof using accepted.
  unfold rows_of. destruct resolver_fields as (_ & _ & _ & _ & -> & _). apply group_by_get.
Qed.

(** At most one primary row of an instrument is active on a date. *)
Lemma primary_unique i d :
  (length (filter (fun m => sm_primary m && active_on m d = true) (rows_of resolver i)) <= 1)%nat.
Proof using accepted constructed.
  destruct resolver_fields as (_ & _ & Hv & _). rewrite rows_of_filter.
  set (primary := filter (fun m => sm_primary m = true) (ds_memberships dataset)).
  assert (Hp : StronglySorted before (py_sorted from_leb (filter (fun m => sm_identity m = i) primary))).
  { destruct (dict_get i (group_by sm_identity primary)) as [rows|] eqn:E.
    - pose proof (group_by_get sm_identity i primary) as Hg. rewrite E in Hg. cbn in Hg. rewrite <- Hg.
      unfold validate_primary_intervals in Hv. apply for_each_ok in Hv. rewrite Forall_forall in Hv.
      apply dict_get_elem in E. specialize (Hv _ E). cbn in Hv. apply disjoint_sorted; [|done].
      rewrite Forall_py_sorted, Hg. by repeat apply Forall_filter_keep.
    - pose proof (group_by_get sm_identity i primary) as Hg. rewrite E in Hg. cbn in Hg. rewrite <- Hg. constructor. }
  apply (before_one_active _ d) in Hp. rewrite py_sorted_perm in Hp. etrans; [|exact Hp].
  apply Nat.eq_le_incl. unfold primary. rewrite !list_filter_filter. f_equal. apply list_filter_iff.
  intros m. rewrite andb_true_iff. tauto.
Qed.

(** The primary row of an instrument that is active on a date. *)
Definition primary_row (i : string) (d : date) (m : SectorMembership) : Prop :=
  m ∈ ds_memberships dataset /\ sm_identity m = i /\ sm_primary m = true /\ active_on m d = true.

Lemma primary_row_elem i d m :
  m ∈ filter (fun m => sm_primary m && active_on m d = true) (rows_of resolver i) <-> primary_row i d m.
Proof using accepted.
  rewrite rows_of_filter, !list_elem_of_filter, andb_true_iff. unfold primary_row. tauto.
Qed.

Lemma resolve_primary_iff i on s : resolve_primary resolver i on = Some s <->
  exists m, primary_row i (resolve_on resolver on) m /\ sm_sector_id m = s.
Proof using accepted constructed.
  unfold resolve_primary. rewrite fmap_Some. setoid_rewrite (at_most_one_head _ _ (primary_unique _ _)).
  setoid_rewrite primary_row_elem. split; intros (m & ? & ?); exists m; eauto.
Qed.

Lemma members_iff i s on : i ∈ members_of_primary_sector resolver s on <->
  exists m, primary_row i (resolve_on resolver on) m /\ sm_sector_id m = s.
Proof using accepted.
  unfold members_of_primary_sector. rewrite elem_of_py_sorted.
  assert (Hby : forall k rows, (k, rows) ∈ mr_by_identity resolver <->
    rows_of resolver k = rows /\ k ∈ (mr_by_identity resolver).*1).
  { intros k rows. destruct resolver_fields as (_ & _ & _ & _ & Hby & _). unfold rows_of. rewrite Hby.
    pose proof (group_by_NoDup sm_identity (ds_memberships dataset)) as Hn. split.
    - intros Hin. rewrite (dict_elem_get k rows) by done. split; [done|]. by apply (list_elem_of_fmap_2 fst) in Hin.
    - intros [<- Hk]. destruct (dict_get k _) as [rows|] eqn:E; [by apply dict_get_elem in E|].
      by apply dict_get_none in E. }
  rewrite list_elem_of_fmap. split.
  - intros ([k rows] & -> & [Hany Hin]%list_elem_of_filter). cbn in Hany |- *.
    apply Hby in Hin as [Hrows _]. apply existsb_exists in Hany as (m & Hm & Ht).
    apply list_elem_of_In in Hm. rewrite <- Hrows, rows_of_filter in Hm.
    apply list_elem_of_filter in Hm as [Hk Hm]. zbool. exists m. by split_and!.
  - intros (m & (Hm & Hi & Hp & Ha) & Hs). exists (i, rows_of resolver i). split; [done|].
    apply list_elem_of_filter. split.
    + cbn. apply existsb_exists. exists m. rewrite rows_of_filter, <- list_elem_of_In, list_elem_of_filter.
      split; [done|]. rewrite Hp, Ha, bool_decide_true by done. done.
    + apply Hby. split; [done|]. destruct resolver_fields as (_ & _ & _ & _ & -> & _).
      apply group_by_keys. by exists m.
Qed.

End Resolver.

Lemma collect_definitions_get l : forall defs defs', collect_definitions l defs = Ok defs' ->
  forall s d, dict_get s defs' = Some d <->
    dict_get s defs = Some d \/ (d ∈ l /\ sd_sector_id d = s).
Proof.
  induction l as [|x l IH]; intros defs defs' H s d; cbn [collect_definitions] in H.
  - injection H as <-. split; [auto|]. intros [|[H _]]; [done|by apply not_elem_of_nil in H].
  - apply bind_ok in H as ([] & Hnew%raise_if_ok & H). rewrite (IH _ _ H), dict_get_set, elem_of_cons.
    destruct (dict_get (sd_sector_id x) defs) eqn:Ex; [done|].
    destruct (decide (s = sd_sector_id x)) as [->|Hne].
    + rewrite Ex. split; [intros [[= ->]|[]]; auto|]. intros [|[[->|] ?]]; [done|by left|by right].
    + split; [intros [|[]]; auto|]. intros [|[[->|] ?]]; [by left|done|by right].
Qed.

Lemma collect_definitions_NoDup l : forall defs defs', collect_definitions l defs = Ok defs' ->
  NoDup (sd_sector_id <$> l).
Proof.
  intros defs defs' H.
  enough (NoDup (sd_sector_id <$> l) /\ forall x, x ∈ l -> dict_get (sd_sector_id x) defs = None) by tauto.
  revert defs H. induction l as [|x l IH]; intros defs H; cbn [collect_definitions] in H.
  - split; [constructor|by intros x ?%not_elem_of_nil].
  - apply bind_ok in H as ([] & Hnew%raise_if_ok & H). destruct (dict_get (sd_sector_id x) defs) eqn:Ex; [done|].
    destruct (IH _ H) as [Hn Hl]. rewrite fmap_cons, NoDup_cons. split_and!; [|done|].
    + intros (y & Heq & Hy)%list_elem_of_fmap. specialize (Hl y Hy). rewrite dict_get_set, Heq, decide_True in Hl; done.
    + intros y [->|Hy]%elem_of_cons; [done|]. specialize (Hl y Hy). rewrite dict_get_set in Hl. by case_decide.
Qed.

Lemma validate_memberships_defined defs l : forall seen, validate_memberships defs l seen = Ok tt ->
  forall m, m ∈ l -> exists d, dict_get (sm_sector_id m) defs = Some d
    /\ (sm_primary m = true -> primary_kind (sd_kind d) = true).
Proof.
  induction l as [|x l IH]; intros seen H m Hm; [by apply not_elem_of_nil in Hm|]. cbn in H.
  destruct (dict_get (sm_sector_id x) defs) as [d|] eqn:E; [|done].
  apply bind_ok in H as ([] & Hp%raise_if_ok & ([] & _ & H)%bind_ok).
  apply elem_of_cons in Hm as [->|Hm]; [|by eapply IH]. exists d. split; [done|].
  intros Hpm. rewrite Hpm in Hp. by apply negb_false_iff in Hp.
Qed.

Lemma filter_result_ok {A} (p : A -> result bool) (l : list A) :
  (forall x, x ∈ l -> is_ok (p x)) -> exists r, filter_result p l = Ok r
  /\ forall x, x ∈ r <-> x ∈ l /\ p x = Ok true.
Proof.
  induction l as [|x l IH]; intros Hl; cbn.
  - exists []. split; [done|]. intros x. pose proof (not_elem_of_nil x). tauto.
  - destruct (p x) as [b|e] eqn:E; [|specialize (Hl x ltac:(left)); by rewrite E in Hl].
    destruct IH as (r & -> & Hr); [intros y Hy; apply Hl; by right|]. cbn. eexists. split; [done|].
    intros y. destruct b; rewrite ?elem_of_cons, Hr.
    + split; [intros [->|[]]; auto|]. intros [[->|] ?]; auto.
    + split; [intros []; auto|]. intros [[->|] ?]; [congruence|auto].
Qed.

Section ResolverTheorems.
Variables (dataset : SectorMembershipDataset) (resolver : MembershipResolver).
Hypothesis constructed : Forall membership_constructed (ds_memberships dataset).
Hypothesis accepted : mk_membership_resolver dataset = Ok resolver.

Lemma primary_defined m : m ∈ ds_memberships dataset -> sm_primary m = true ->
  sm_sector_id m ∈ all_primary_sectors resolver.
Proof using accepted.
  intros Hm Hp. destruct (resolver_fields _ _ accepted) as (Hd & Hv & _ & _ & _ & Hids).
  destruct (validate_memberships_defined _ _ _ Hv m Hm) as (d & Hget & Hk). specialize (Hk Hp).
  unfold validate_definitions in Hd. apply bind_ok in Hd as (defs & Hc & ([] & _ & ([] & Hi & [= ->])%bind_ok)%bind_ok).
  apply (collect_definitions_get _ _ _ Hc) in Hget as [|[Hin Hid]]; [done|].
  unfold all_primary_sectors. rewrite Hids, elem_of_py_sorted, list_elem_of_fmap. exists d. split; [done|].
  apply elem_of_app in Hin as [|Hin]; [done|]. apply for_each_ok in Hi. rewrite Forall_forall in Hi.
  specialize (Hi d Hin). apply raise_if_ok in Hi. destruct (sd_kind d); done.
Qed.

(** Over a validated dataset the resolver answers with the primary sector of the
    one row of the instrument that is active on the date, and [None] when no row is;
    that sector is one of [all_primary_sectors], and an instrument is listed among
    the members of a sector exactly when that sector is its answer, once and in
    order. So on any date the sectors are disjoint and cover the mapped instruments. *)
Theorem membership_resolution_correct i s on :
  let when := resolve_on resolver on in
  (resolve_primary resolver i on = Some s <->
     exists m, m ∈ ds_memberships dataset /\ sm_identity m = i /\ sm_primary m = true
       /\ active_on m when = true /\ sm_sector_id m = s)
  /\ (i ∈ members_of_primary_sector resolver s on <-> resolve_primary resolver i on = Some s)
  /\ NoDup (members_of_primary_sector resolver s on)
  /\ StronglySorted (fun a b => String.leb a b = true) (members_of_primary_sector resolver s on)
  /\ (resolve_primary resolver i on = Some s -> s ∈ all_primary_sectors resolver).
Proof using constructed accepted.
  cbn zeta. pose proof (resolve_primary_iff _ _ constructed accepted i on s) as Hr. split_and!.
  - rewrite Hr. split; [intros (m & (? & ? & ? & ?) & ?)|intros (m & ? & ? & ? & ? & ?)]; exists m; by split_and!.
  - by rewrite Hr, (members_iff _ _ accepted).
  - unfold members_of_primary_sector. rewrite py_sorted_perm. apply NoDup_filter_keys.
    destruct (resolver_fields _ _ accepted) as (_ & _ & _ & _ & -> & _). apply group_by_NoDup.
  - apply py_sorted_sorted; [apply string_leb_total|apply string_leb_trans].
  - rewrite Hr. intros (m & (Hm & _ & Hp & _) & <-). by apply primary_defined.
Qed.

(** A profile never raises, and the broad-market indices and the other secondary
    groups are the secondary memberships between them. *)
Theorem resolve_profile_total i on : exists p, resolve_profile resolver i on = Ok p
  /\ sp_identity p = i /\ sp_primary_sector p = resolve_primary resolver i on
  /\ forall s, (s ∈ secondary_memberships resolver i on <->
       s ∈ sp_secondary_memberships p \/ s ∈ sp_broad_market_memberships p)
     /\ ~ (s ∈ sp_secondary_memberships p /\ s ∈ sp_broad_market_memberships p).
Proof using accepted.
  unfold resolve_profile.
  destruct (filter_result_ok (is_broad resolver) (secondary_memberships resolver i on)) as (broad & -> & Hb).
  { intros s Hs. unfold secondary_memberships in Hs. rewrite elem_of_py_sorted in Hs.
    apply list_elem_of_fmap in Hs as (m & -> & [_ Hm]%list_elem_of_filter).
    rewrite (rows_of_filter _ _ accepted) in Hm. apply list_elem_of_filter in Hm as [_ Hm].
    destruct (resolver_fields _ _ accepted) as (_ & Hv & _).
    destruct (validate_memberships_defined _ _ _ Hv m Hm) as (d & Hd & _). unfold is_broad. by rewrite Hd. }
  cbn [mbind result_bind]. eexists. split; [done|]. cbn. split_and!; [done|done|].
  intros s. rewrite list_elem_of_filter. split; [|tauto].
  destruct (decide (s ∈ broad)) as [Hin|Hin]; [|tauto]. pose proof (proj1 (Hb s) Hin). tauto.
Qed.

End ResolverTheorems.

(** * A concrete dataset *)

(** An instrument that moved from one sector to another. *)
Definition sector_row (i s : string) (from : date) (until : option date) : SectorMembership := {|
  sm_identity := i; sm_sector_id := s; sm_primary := true; sm_effective_from := from;
  sm_source := "nse"; sm_effective_to := until; sm_company := None; sm_isin := None |}.

Definition sector_def (s : string) (k : GroupKind) : SectorDefinition := {|
  sd_sector_id := s; sd_name := s; sd_kind := k; sd_source := "nse"; sd_parent_id := None;
  sd_effective_from := None; sd_effective_to := None |}.

Definition sample_dataset : SectorMembershipDataset := {|
  ds_metadata := {| md_dataset_id := "nse"; md_version := "1"; md_effective_from := 20400;
                    md_generated_at := 20400; md_source_authority := "nse"; md_notes := None |};
  ds_sector_definitions := [sector_def "IT" PRIMARY_SECTOR; sector_def "OIL" PRIMARY_SECTOR];
  ds_index_definitions := [sector_def "NIFTY50" BROAD_MARKET_INDEX];
  ds_memberships := [sector_row "NSE:RELIANCE" "OIL" 20450 None;
                     sector_row "NSE:RELIANCE" "IT" 20400 (Some 20450);
                     sector_row "NSE:INFY" "IT" 20400 None] |}.

Definition sample_resolver : MembershipResolver := {|
  mr_defs := [("IT", sector_def "IT" PRIMARY_SECTOR); ("OIL", sector_def "OIL" PRIMARY_SECTOR);
              ("NIFTY50", sector_def "NIFTY50" BROAD_MARKET_INDEX)];
  mr_metadata := ds_metadata sample_dataset;
  mr_by_identity := [("NSE:RELIANCE", [sector_row "NSE:RELIANCE" "OIL" 20450 None;
                                       sector_row "NSE:RELIANCE" "IT" 20400 (Some 20450)]);
                     ("NSE:INFY", [sector_row "NSE:INFY" "IT" 20400 None])];
  mr_primary_sector_ids := ["IT"; "OIL"] |}.

Lemma sample_dataset_constructed : Forall membership_constructed (ds_memberships sample_dataset).
Proof. repeat constructor. Qed.

Lemma membership_resolution_correct_witness :
  members_of_primary_sector sample_resolver "IT" (Some 20449) = ["NSE:INFY"; "NSE:RELIANCE"]
  /\ resolve_primary sample_resolver "NSE:RELIANCE" (Some 20449) = Some "IT".
Proof.
  split; [reflexivity|].
  destruct (membership_resolution_correct sample_dataset sample_resolver sample_dataset_constructed
    eq_refl "NSE:RELIANCE" "IT" (Some 20449)) as (_ & Hm & _).
  apply Hm. apply (bool_decide_unpack _). reflexivity.
Defined.
