(* ===== verification/SectorMetrics.v ===== *)
(** Sector metrics, market_intelligence/sector/metrics and participation: order
    statistics, the return decomposition of a constituent, the raw evidence of a
    sector, the universe proxy and the ranking of a sector's stocks.

    Arithmetic is that of the decimal context of [DecimalContext].  A [sum] of a
    generator of ones is the length of a filter, a [frozenset] of identities a
    [gset]. *)
From S2P Require Import Prelude DecimalContext PyTime MarketData.

Local Open Scope Z_scope.

(** * Order statistics *)

(** [metrics/statistics.py]: [median] *)
Definition stat_median (values : list Decimal) : result (option Decimal) :=
  let count := length values in
  if (count =? 0)%nat then Ok None
  else let ordered := py_sorted dec_leb values in
       let mid := (count / 2)%nat in
       if (count mod 2 =? 1)%nat then Some <$> list_index ordered mid
       else a ← list_index ordered (mid - 1);
            b ← list_index ordered mid;
            Some <$> ctx_div (ctx_add a b) TWO.

(** [mad] *)
Definition mad (values : list Decimal) : result (option Decimal) :=
  center ← stat_median values;
  match center with
  | None => Ok None
  | Some center => stat_median ((fun value => ctx_abs (ctx_sub value center)) <$> values)
  end.

(** [_halves] *)
Definition halves (values : list Decimal) : list Decimal * list Decimal :=
  let ordered := py_sorted dec_leb values in
  let count := length ordered in
  let half := (count / 2)%nat in
  (take half ordered, drop (count - half) ordered).

(** [iqr] *)
Definition iqr (values : list Decimal) : result (option Decimal) :=
  if (length values <? 2)%nat then Ok None
  else let '(lower, upper) := halves values in
       q1 ← stat_median lower;
       q3 ← stat_median upper;
       Ok (match q1, q3 with Some q1, Some q3 => Some (ctx_sub q3 q1) | _, _ => None end).

(** * Models *)

Inductive ConstituentDirection : Type := ADVANCING | UNCHANGED | DECLINING.
Inductive RawSectorDirection : Type := BULLISH | BEARISH | NEUTRAL | MIXED | INSUFFICIENT_DATA.

#[global] Instance ConstituentDirection_eq_dec : EqDecision ConstituentDirection.
Proof. solve_decision. Defined.
#[global] Instance RawSectorDirection_eq_dec : EqDecision RawSectorDirection.
Proof. solve_decision. Defined.

Record CalculationPolicy : Type := {
  direction_epsilon : Decimal;
  freshness_limit : timedelta;
  minimum_valid_count : Z;
  minimum_coverage_ratio : option Decimal;
}.

(** [CalculationPolicy(...)]; [InvalidCalculationPolicyError] becomes a validation error. *)
Definition mk_policy (raw : CalculationPolicy) : result CalculationPolicy :=
  _ ← raise_if (dec_ltb (direction_epsilon raw) (dec 0 0)) (ValidationError "greater_than_equal");
  _ ← raise_if (freshness_limit raw <=? 0) (ValidationError "freshness_limit must be positive");
  _ ← raise_if (minimum_valid_count raw <? 1) (ValidationError "greater_than_equal");
  _ ← raise_if (match minimum_coverage_ratio raw with
                | Some r => dec_ltb r (dec 0 0) || dec_ltb (dec 1 0) r
                | None => false
                end) (ValidationError "out of range");
  Ok raw.

Record ConstituentObservation : Type := {
  ob_identity : string;
  ob_sector_id : string;
  ob_trading_date : date;
  ob_observation_timestamp : instant;
  ob_last_price : Decimal;
  ob_previous_close : Decimal;
  ob_session_open : Decimal;
}.

(** [ConstituentObservation(...)] from an aware timestamp in UTC. *)
Definition mk_constituent_observation (raw : ConstituentObservation) : result ConstituentObservation :=
  _ ← raise_if (is_empty (ob_identity raw) || is_empty (ob_sector_id raw)) (ValidationError "string_too_short");
  _ ← raise_if (negb (dec_ltb 0 (ob_last_price raw) && dec_ltb 0 (ob_previous_close raw)
                      && dec_ltb 0 (ob_session_open raw))) (ValidationError "greater_than");
  Ok raw.

Record ConstituentMetrics : Type := {
  cm_identity : string;
  cm_sector_id : string;
  cm_overnight_return : Decimal;
  cm_intraday_return : Decimal;
  cm_total_return : Decimal;
  cm_direction : ConstituentDirection;
}.

Record SectorBreadth : Type := {
  br_valid_count : Z;
  br_advance_count : Z;
  br_decline_count : Z;
  br_unchanged_count : Z;
  br_advance_ratio : option Decimal;
  br_decline_ratio : option Decimal;
  br_unchanged_ratio : option Decimal;
  br_net_breadth : option Decimal;
}.

Record UniverseProxyMetrics : Type := {
  up_valid_count : Z;
  up_median_intraday_return : option Decimal;
}.

(** [SectorMetrics] with its [SectorDispersion] inline. *)
Record SectorMetrics : Type := {
  mx_sector_id : string;
  mx_trading_date : date;
  mx_evaluation_timestamp : instant;
  mx_expected_count : Z;
  mx_valid_count : Z;
  mx_stale_count : Z;
  mx_missing_count : Z;
  mx_invalid_count : Z;
  mx_coverage_ratio : Decimal;
  mx_breadth : SectorBreadth;
  mx_median_overnight_return : option Decimal;
  mx_median_intraday_return : option Decimal;
  mx_median_total_return : option Decimal;
  mx_mad_intraday_return : option Decimal;
  mx_iqr_intraday_return : option Decimal;
  mx_directional_agreement : option Decimal;
  mx_directional_participant_count : Z;
  mx_directional_participation_ratio : option Decimal;
  mx_raw_direction : RawSectorDirection;
  mx_universe_proxy_intraday_return : option Decimal;
  mx_relative_strength : option Decimal;
  mx_constituents : list ConstituentMetrics;
}.

(** * The engine *)

Inductive Tilt : Type := T_BULL | T_NEUTRAL | T_BEAR.

(** [-x] in the context *)
Definition ctx_neg (x : Decimal) : Decimal := ctx_round (- x)%Qc.

(** [_tilt] *)
Definition tilt (value : option Decimal) (epsilon : Decimal) : Tilt :=
  match value with
  | None => T_NEUTRAL
  | Some v => if dec_ltb epsilon v then T_BULL
              else if dec_ltb v (ctx_neg epsilon) then T_BEAR else T_NEUTRAL
  end.

(** [_ratio] *)
Definition ratio (numerator denominator : Z) : result (option Decimal) :=
  if denominator =? 0 then Ok None else Some <$> ctx_div (dec numerator 0) (dec denominator 0).

Definition calculate_constituent_metrics (observation : ConstituentObservation) (epsilon : Decimal)
    : result ConstituentMetrics :=
  let return_of a b := ctx_div (ctx_sub a b) b in
  overnight ← return_of (ob_session_open observation) (ob_previous_close observation);
  intraday ← return_of (ob_last_price observation) (ob_session_open observation);
  total ← return_of (ob_last_price observation) (ob_previous_close observation);
  Ok {| cm_identity := ob_identity observation; cm_sector_id := ob_sector_id observation;
        cm_overnight_return := overnight; cm_intraday_return := intraday;
        cm_total_return := total;
        cm_direction := match tilt (Some intraday) epsilon with
                        | T_BULL => ADVANCING | T_BEAR => DECLINING | T_NEUTRAL => UNCHANGED
                        end |}.

(** [_reject_duplicates] *)
Fixpoint reject_duplicates (seen : list string) (observations : list ConstituentObservation)
    : result unit :=
  match observations with
  | [] => Ok tt
  | o :: rest =>
      _ ← raise_if (bool_decide (ob_identity o ∈ seen)) (DuplicateConstituentError (ob_identity o));
      reject_duplicates (ob_identity o :: seen) rest
  end.

(** [_is_fresh] *)
Definition is_fresh (evaluation_time : instant) (limit : timedelta) (o : ConstituentObservation) : bool :=
  let age := evaluation_time - ob_observation_timestamp o in (0 <=? age) && (age <=? limit).

Definition count_of {A} (p : A -> bool) (l : list A) : Z :=
  Z.of_nat (length (filter (fun x => p x = true) l)).

(** [_breadth] *)
Definition breadth_of (constituents : list ConstituentMetrics) : result SectorBreadth :=
  let valid := Z.of_nat (length constituents) in
  let advancing := count_of (fun c => bool_decide (cm_direction c = ADVANCING)) constituents in
  let declining := count_of (fun c => bool_decide (cm_direction c = DECLINING)) constituents in
  let unchanged := valid - advancing - declining in
  advance_ratio ← ratio advancing valid;
  decline_ratio ← ratio declining valid;
  unchanged_ratio ← ratio unchanged valid;
  net_breadth ← ratio (advancing - declining) valid;
  Ok {| br_valid_count := valid; br_advance_count := advancing; br_decline_count := declining;
        br_unchanged_count := unchanged; br_advance_ratio := advance_ratio;
        br_decline_ratio := decline_ratio; br_unchanged_ratio := unchanged_ratio;
        br_net_breadth := net_breadth |}.

(** [_agreement] *)
Definition agreement (median_tilt : Tilt) (breadth : SectorBreadth) : option Decimal :=
  match median_tilt with
  | T_BULL => br_advance_ratio breadth
  | T_BEAR => br_decline_ratio breadth
  | T_NEUTRAL => br_unchanged_ratio breadth
  end.

(** [_participation] *)
Definition participation (median_tilt : Tilt) (constituents : list ConstituentMetrics)
    (epsilon : Decimal) : result (Z * option Decimal) :=
  let count :=
    match median_tilt with
    | T_BULL => count_of (fun c => dec_ltb epsilon (cm_intraday_return c)) constituents
    | T_BEAR => count_of (fun c => dec_ltb (cm_intraday_return c) (ctx_neg epsilon)) constituents
    | T_NEUTRAL => 0
    end in
  r ← ratio count (Z.of_nat (length constituents));
  Ok (count, r).

(** [_raw_direction] *)
Definition raw_direction (median_tilt breadth_tilt : Tilt) (valid_count : Z)
    (coverage_ratio : Decimal) (policy : CalculationPolicy) : RawSectorDirection :=
  if (valid_count =? 0) || (valid_count <? minimum_valid_count policy) then INSUFFICIENT_DATA
  else if match minimum_coverage_ratio policy with
          | Some m => dec_ltb coverage_ratio m
          | None => false
          end then INSUFFICIENT_DATA
  else match median_tilt, breadth_tilt with
       | T_BULL, T_BULL => BULLISH
       | T_BEAR, T_BEAR => BEARISH
       | T_NEUTRAL, T_NEUTRAL => NEUTRAL
       | _, _ => MIXED
       end.

(** [_validate_scope] *)
Definition validate_scope (sector_id : string) (expected : gset string)
    (observations : list ConstituentObservation) (trading_date : date) : result unit :=
  _ ← reject_duplicates [] observations;
  for_each (fun o =>
    _ ← raise_if (negb (bool_decide (ob_sector_id o = sector_id)))
      (SectorMembershipMismatchError (ob_identity o));
    _ ← raise_if (negb (bool_decide (ob_identity o ∈ expected)))
      (SectorMembershipMismatchError (ob_identity o));
    raise_if (negb (ob_trading_date o =? trading_date)) (MixedTradingDateError (ob_identity o)))
    observations.

Definition calculate_universe_proxy (observations : list ConstituentObservation)
    (policy : CalculationPolicy) (trading_date : date) (evaluation_time : instant)
    : result UniverseProxyMetrics :=
  _ ← reject_duplicates [] observations;
  _ ← for_each (fun o => raise_if (negb (ob_trading_date o =? trading_date))
                           (MixedTradingDateError (ob_identity o))) observations;
  let fresh := filter (fun o => is_fresh evaluation_time (freshness_limit policy) o = true) observations in
  metrics ← traverse (fun o => calculate_constituent_metrics o (direction_epsilon policy)) fresh;
  m ← stat_median (cm_intraday_return <$> metrics);
  Ok {| up_valid_count := Z.of_nat (length fresh); up_median_intraday_return := m |}.

Definition calculate_relative_strength (sector proxy : option Decimal) : option Decimal :=
  match sector, proxy with
  | Some s, Some p => Some (ctx_sub s p)
  | _, _ => None
  end.

(** [x or Decimal(0)] *)
Definition or_zero (x : option Decimal) : Decimal :=
  match x with Some v => if dec_eqb v (dec 0 0) then dec 0 0 else v | None => dec 0 0 end.

Definition calculate_sector_metrics (sector_id : string) (expected_identities : gset string)
    (observations : list ConstituentObservation) (policy : CalculationPolicy)
    (trading_date : date) (evaluation_time : instant)
    (universe_proxy : option UniverseProxyMetrics) : result SectorMetrics :=
  _ ← validate_scope sector_id expected_identities observations trading_date;
  let fresh := filter (fun o => is_fresh evaluation_time (freshness_limit policy) o = true) observations in
  constituents ← traverse (fun o => calculate_constituent_metrics o (direction_epsilon policy)) fresh;
  let expected_count := Z.of_nat (size expected_identities) in
  let valid_count := Z.of_nat (length fresh) in
  let stale_count := Z.of_nat (length observations) - valid_count in
  let missing_count := expected_count - Z.of_nat (length observations) in
  covered ← ratio valid_count expected_count;
  let coverage := or_zero covered in
  breadth ← breadth_of constituents;
  median_intraday ← stat_median (cm_intraday_return <$> constituents);
  median_overnight ← stat_median (cm_overnight_return <$> constituents);
  median_total ← stat_median (cm_total_return <$> constituents);
  let median_tilt := tilt median_intraday (direction_epsilon policy) in
  let breadth_tilt := tilt (br_net_breadth breadth) (dec 0 0) in
  participated ← participation median_tilt constituents (direction_epsilon policy);
  let proxy_value := universe_proxy ≫= up_median_intraday_return in
  mad_intraday ← mad (cm_intraday_return <$> constituents);
  iqr_intraday ← iqr (cm_intraday_return <$> constituents);
  Ok {| mx_sector_id := sector_id; mx_trading_date := trading_date;
        mx_evaluation_timestamp := evaluation_time; mx_expected_count := expected_count;
        mx_valid_count := valid_count; mx_stale_count := stale_count;
        mx_missing_count := missing_count; mx_invalid_count := 0; mx_coverage_ratio := coverage;
        mx_breadth := breadth; mx_median_overnight_return := median_overnight;
        mx_median_intraday_return := median_intraday; mx_median_total_return := median_total;
        mx_mad_intraday_return := mad_intraday; mx_iqr_intraday_return := iqr_intraday;
        mx_directional_agreement := if valid_count =? 0 then None else agreement median_tilt breadth;
        mx_directional_participant_count := participated.1;
        mx_directional_participation_ratio := participated.2;
        mx_raw_direction := raw_direction median_tilt breadth_tilt valid_count coverage policy;
        mx_universe_proxy_intraday_return := proxy_value;
        mx_relative_strength := calculate_relative_strength median_intraday proxy_value;
        mx_constituents := constituents |}.

(** * Lemmas *)

(** ** Counting *)

Lemma count_of_perm {A} (p : A -> bool) l l' : l ≡ₚ l' -> count_of p l = count_of p l'.
Proof. intros H. unfold count_of. by rewrite H. Qed.

Lemma count_of_le {A} (p : A -> bool) (l : list A) : 0 <= count_of p l <= Z.of_nat (length l).
Proof. unfold count_of. pose proof (length_filter (fun x => p x = true) l). lia. Qed.

Lemma count_of_split {A} (p q : A -> bool) (l : list A) : (forall x, x ∈ l -> p x = true -> q x = true -> False) ->
  count_of p l + count_of q l <= Z.of_nat (length l).
Proof.
  unfold count_of. induction l as [|x l IH]; intros Hl; [cbn; lia|].
  rewrite !filter_cons. assert (IH' := IH (fun y Hy => Hl y ltac:(by right))).
  specialize (Hl x ltac:(left)). destruct (p x), (q x); repeat case_decide; cbn [length]; try lia.
Qed.

Lemma count_of_cons {A} (p : A -> bool) x l : count_of p (x :: l) = (if p x then 1 else 0) + count_of p l.
Proof. unfold count_of. rewrite filter_cons. destruct (p x); case_decide; cbn [length]; done || lia. Qed.

Lemma count_of_mono {A} (p q : A -> bool) l : (forall y, p y = true -> q y = true) -> count_of p l <= count_of q l.
Proof.
  intros H. induction l as [|x l IH]; [done|]. rewrite !count_of_cons. specialize (H x).
  destruct (p x), (q x); lia || naive_solver.
Qed.

Lemma count_of_lt {A} (p q : A -> bool) (l : list A) x : (forall y, p y = true -> q y = true) ->
  x ∈ l -> p x = false -> q x = true -> count_of p l < count_of q l.
Proof.
  intros Hpq Hx Hp Hq. apply list_elem_of_split in Hx as (l1 & l2 & ->).
  rewrite !(count_of_perm _ _ _ (symmetry (Permutation_middle l1 l2 x))), !count_of_cons, Hp, Hq.
  pose proof (count_of_mono p q (l1 ++ l2) Hpq). lia.
Qed.

Lemma count_of_fmap {A B} (f : A -> B) (p : B -> bool) l : count_of p (f <$> l) = count_of (fun x => p (f x)) l.
Proof. induction l as [|x l IH]; [done|]. by rewrite fmap_cons, !count_of_cons, IH. Qed.

(** ** Totality of the statistics *)

Lemma list_index_ok {A} (l : list A) i : (i < length l)%nat -> exists x, list_index l i = Ok x /\ x ∈ l.
Proof.
  intros Hi. destruct (lookup_lt_is_Some_2 l i Hi) as [x Hx]. exists x. unfold list_index. rewrite Hx.
  split; [done|]. by eapply list_elem_of_lookup_2.
Qed.

Lemma stat_median_ok l : exists m, stat_median l = Ok m /\ (m = None <-> l = []).
Proof.
  unfold stat_median. destruct l as [|x l]; [by exists None|]. set (v := x :: l).
  change (length v) with (S (length l)). cbn [Nat.eqb].
  assert (Hlen : length (py_sorted dec_leb v) = S (length l)) by (by rewrite length_py_sorted).
  pose proof (Nat.div_mod_eq (S (length l)) 2) as Hdm.
  destruct (Nat.eqb_spec (S (length l) mod 2) 1) as [Hodd|Heven].
  - destruct (list_index_ok (py_sorted dec_leb v) (S (length l) / 2)) as (y & -> & _); [lia|].
    by exists (Some y).
  - pose proof (Nat.mod_upper_bound (S (length l)) 2 ltac:(lia)).
    destruct (list_index_ok (py_sorted dec_leb v) (S (length l) / 2 - 1)) as (a & -> & _); [lia|].
    destruct (list_index_ok (py_sorted dec_leb v) (S (length l) / 2)) as (b & -> & _); [lia|].
    cbn [mbind result_bind]. rewrite two_div. by eexists (Some _).
Qed.

Lemma stat_median_perm l l' : l ≡ₚ l' -> stat_median l = stat_median l'.
Proof. intros Hp. unfold stat_median. by rewrite (dec_sorted_perm _ _ Hp), (Permutation_length Hp). Qed.

Lemma mad_ok l : exists m, mad l = Ok m.
Proof.
  unfold mad. destruct (stat_median_ok l) as ([c|] & -> & _); cbn; [|by exists None].
  destruct (stat_median_ok ((fun value => ctx_abs (ctx_sub value c)) <$> l)) as (m & -> & _). by exists m.
Qed.

Lemma mad_perm l l' : l ≡ₚ l' -> mad l = mad l'.
Proof.
  intros Hp. unfold mad. rewrite (stat_median_perm _ _ Hp). destruct (stat_median l') as [[c|]|]; cbn; try done.
  apply stat_median_perm. by rewrite Hp.
Qed.

Lemma iqr_ok l : exists m, iqr l = Ok m.
Proof.
  unfold iqr. destruct (length l <? 2)%nat; [by exists None|]. unfold halves.
  destruct (stat_median_ok (take (length (py_sorted dec_leb l) / 2) (py_sorted dec_leb l))) as (q1 & -> & _).
  destruct (stat_median_ok (drop (length (py_sorted dec_leb l) - length (py_sorted dec_leb l) / 2)
    (py_sorted dec_leb l))) as (q3 & -> & _). cbn. by eexists.
Qed.

Lemma iqr_perm l l' : l ≡ₚ l' -> iqr l = iqr l'.
Proof. intros Hp. unfold iqr, halves. by rewrite (dec_sorted_perm _ _ Hp), (Permutation_length Hp). Qed.

(** ** Ratios *)

Lemma int_value n : (this (dec n 0) == inject_Z n)%Q.
Proof. unfold dec. cbn. rewrite Qred_correct. reflexivity. Qed.

Lemma ratio_ok n d : 0 < d -> ratio n d = Ok (Some (ctx_round (dec n 0 / dec d 0)%Qc)).
Proof.
  intros Hd. unfold ratio. rewrite (proj2 (Z.eqb_neq d 0)) by lia.
  rewrite ctx_div_ok; [done|]. apply pos_nonzero. rewrite int_value. unfold Qlt. cbn. lia.
Qed.

Lemma ratio_value n d : 0 < d -> (this (dec n 0 / dec d 0)%Qc == inject_Z n / inject_Z d)%Q.
Proof. intros Hd. by rewrite this_div, !int_value. Qed.

Lemma round_sign x : dec_ltb (dec 0 0) (ctx_round x) = dec_ltb (dec 0 0) x
  /\ dec_ltb (ctx_round x) (dec 0 0) = dec_ltb x (dec 0 0).
Proof.
  assert (Hpos : forall y, (0 < y)%Qc -> dec_ltb (dec 0 0) (ctx_round y) = true /\ dec_ltb (ctx_round y) (dec 0 0) = false).
  { intros y Hy%ctx_round_pos. unfold dec_ltb. change (dec 0 0) with 0%Qc.
    rewrite bool_decide_true, bool_decide_false by dec_order. done. }
  destruct (Qc_dec x 0) as [[Hlt|Hgt]|Hz].
  - destruct (Hpos (- x)%Qc) as [H1 H2].
    { unfold Qclt in *. rewrite this_opp. change (this 0%Qc) with 0%Q in *. lra. }
    rewrite ctx_round_opp in H1, H2. unfold dec_ltb in *. change (dec 0 0) with 0%Qc in *.
    apply bool_decide_eq_true in H1. apply bool_decide_eq_false in H2. unfold Qclt in *. rewrite this_opp in H1, H2.
    change (this 0%Qc) with 0%Q in *.
    split; apply bool_decide_ext; unfold Qclt; change (this 0%Qc) with 0%Q; lra.
  - destruct (Hpos x Hgt) as [-> ->]. unfold dec_ltb. change (dec 0 0) with 0%Qc.
    rewrite bool_decide_true, bool_decide_false by dec_order. done.
  - rewrite Hz. change 0%Qc with (dec 0 0). by rewrite ctx_round_0.
Qed.

Lemma ratio_sign n d : 0 < d ->
  dec_ltb (dec 0 0) (ctx_round (dec n 0 / dec d 0)%Qc) = (0 <? n)
  /\ dec_ltb (ctx_round (dec n 0 / dec d 0)%Qc) (dec 0 0) = (n <? 0).
Proof.
  intros Hd. destruct (round_sign (dec n 0 / dec d 0)%Qc) as [-> ->].
  assert (Hq : (0 < inject_Z d)%Q) by (unfold Qlt; cbn; lia).
  assert (Hi : (0 < / inject_Z d)%Q) by (by apply Qinv_lt_0_compat).
  pose proof (ratio_value n d Hd) as Hv. unfold dec_ltb. change (dec 0 0) with 0%Qc.
  split; apply eq_true_iff_eq; rewrite bool_decide_eq_true, Z.ltb_lt; unfold Qclt; rewrite Hv;
    change (this 0%Qc) with 0%Q; unfold Qdiv; (split; intros Hx).
  - apply Z.lt_nge. intros Hn. assert (inject_Z n <= 0)%Q by (unfold Qle; cbn; lia). nra.
  - assert (0 < inject_Z n)%Q by (unfold Qlt; cbn; lia). nra.
  - apply Z.lt_nge. intros Hn. assert (0 <= inject_Z n)%Q by (unfold Qle; cbn; lia). nra.
  - assert (inject_Z n < 0)%Q by (unfold Qlt; cbn; lia). nra.
Qed.

(** ** Constituents *)

Definition observation_valid (o : ConstituentObservation) : Prop :=
  (0 < ob_last_price o)%Qc /\ (0 < ob_previous_close o)%Qc /\ (0 < ob_session_open o)%Qc.

Lemma mk_observation_ok raw o : mk_constituent_observation raw = Ok o -> o = raw /\ observation_valid o.
Proof.
  unfold mk_constituent_observation. intros H. guards. by split_and!.
Qed.

(** [(a - b) / b] in the context. *)
Definition return_of (a b : Decimal) : Decimal := ctx_round (ctx_sub a b / b)%Qc.

(** What the decomposition of a valid observation is. *)
Definition metrics_of (epsilon : Decimal) (o : ConstituentObservation) : ConstituentMetrics := {|
  cm_identity := ob_identity o; cm_sector_id := ob_sector_id o;
  cm_overnight_return := return_of (ob_session_open o) (ob_previous_close o);
  cm_intraday_return := return_of (ob_last_price o) (ob_session_open o);
  cm_total_return := return_of (ob_last_price o) (ob_previous_close o);
  cm_direction := match tilt (Some (return_of (ob_last_price o) (ob_session_open o))) epsilon with
                  | T_BULL => ADVANCING | T_BEAR => DECLINING | T_NEUTRAL => UNCHANGED
                  end |}.

Lemma constituent_metrics_ok o epsilon : observation_valid o ->
  calculate_constituent_metrics o epsilon = Ok (metrics_of epsilon o).
Proof.
  intros (Hl & Hp & Hs). unfold calculate_constituent_metrics.
  assert (Hd : forall a b, (0 < b)%Qc -> ctx_div (ctx_sub a b) b = Ok (return_of a b)).
  { intros a b Hb. apply ctx_div_ok, pos_nonzero. exact Hb. }
  by rewrite !Hd.
Qed.

Lemma all_metrics_ok os epsilon : Forall observation_valid os ->
  traverse (fun o => calculate_constituent_metrics o epsilon) os = Ok (metrics_of epsilon <$> os).
Proof.
  intros H. apply traverse_pure. eapply Forall_impl; [exact H|]. intros o. apply constituent_metrics_ok.
Qed.

(** ** The scope *)

Lemma reject_duplicates_ok os seen : reject_duplicates seen os = Ok tt <->
  NoDup (ob_identity <$> os) /\ forall o, o ∈ os -> ob_identity o ∉ seen.
Proof.
  revert seen. induction os as [|o os IH]; intros seen; cbn [reject_duplicates fmap list_fmap].
  - split; [intros _; split; [constructor|by intros o ?%not_elem_of_nil]|done].
  - case_bool_decide as Hin; cbn [raise_if mbind result_bind].
    + split; [done|]. intros [_ H]. by destruct (H o ltac:(left)).
    + rewrite IH, NoDup_cons. split.
      * intros [Hn Hs]. split_and!; [|done|].
        -- intros (o' & Heq & Ho')%list_elem_of_fmap. apply (Hs o' Ho'). rewrite Heq. left.
        -- intros o' [->|Ho']%elem_of_cons; [done|]. specialize (Hs o' Ho'). intros Hin'. apply Hs. by right.
      * intros [[Ho Hn] Hs]. split; [done|]. intros o' Ho'. apply not_elem_of_cons. split; [|apply Hs; by right].
        intros Heq. apply Ho, list_elem_of_fmap. by exists o'.
Qed.

(** Observations of one sector and date, each instrument once. *)
Definition in_scope (sector_id : string) (expected : gset string) (d : date)
    (os : list ConstituentObservation) : Prop :=
  NoDup (ob_identity <$> os)
  /\ forall o, o ∈ os -> observation_valid o /\ ob_sector_id o = sector_id /\ ob_identity o ∈ expected
       /\ ob_trading_date o = d.

Lemma validate_scope_ok sector_id expected os d : in_scope sector_id expected d os ->
  validate_scope sector_id expected os d = Ok tt.
Proof.
  intros [Hn Hall]. unfold validate_scope.
  rewrite (proj2 (reject_duplicates_ok os [])) by (split; [done|intros o _; apply not_elem_of_nil]).
  cbn [mbind result_bind]. apply for_each_ok, Forall_forall. intros o Ho.
  destruct (Hall o Ho) as (_ & Hs & Hin & Hd). rewrite Hs, Hd, !bool_decide_true, Z.eqb_refl by done. done.
Qed.

(** The scope as the executable checks decide it. *)
Lemma in_scope_checked sector_id expected os d : traverse mk_constituent_observation os = Ok os ->
  validate_scope sector_id expected os d = Ok tt -> in_scope sector_id expected d os.
Proof.
  intros Ht Hv. unfold validate_scope in Hv. apply bind_ok in Hv as ([] & Hd & Hv).
  apply reject_duplicates_ok in Hd as [Hn _]. split; [done|]. intros o Ho.
  apply for_each_ok in Hv. rewrite Forall_forall in Hv. specialize (Hv o Ho). cbn beta in Hv.
  apply traverse_ok in Ht. apply list_elem_of_lookup in Ho as [i Hi].
  destruct (Forall2_lookup_l _ _ _ _ _ Ht Hi) as (o' & Hi' & Ho'). apply mk_observation_ok in Ho' as [_ Hvalid].
  rewrite Hi in Hi'. injection Hi' as <-. guards. zbool. split_and!; done || lia.
Qed.

Lemma in_scope_perm sector_id expected d os os' : os ≡ₚ os' ->
  in_scope sector_id expected d os -> in_scope sector_id expected d os'.
Proof.
  intros Hp [Hn Hall]. split; [by rewrite <- Hp|]. intros o Ho. apply Hall. by rewrite Hp.
Qed.

Lemma scope_count sector_id expected d os : in_scope sector_id expected d os ->
  Z.of_nat (length os) <= Z.of_nat (size expected).
Proof.
  intros [Hn Hall]. rewrite <- (length_fmap ob_identity).
  assert (Hsub : (list_to_set (ob_identity <$> os) : gset string) ⊆ expected).
  { intros i Hi%elem_of_list_to_set. apply list_elem_of_fmap in Hi as (o & -> & Ho). by apply Hall. }
  apply subseteq_size in Hsub. rewrite size_list_to_set in Hsub by done. lia.
Qed.

(** ** Tilts *)

Lemma ctx_neg_zero : ctx_neg (dec 0 0) = dec 0 0.
Proof. unfold ctx_neg. change (dec 0 0) with 0%Qc. replace (- 0)%Qc with 0%Qc by ring. apply ctx_round_0. Qed.

Lemma ctx_neg_nonpos e : (0 <= e)%Qc -> (ctx_neg e <= 0)%Qc.
Proof.
  intros He. destruct (round_sign (- e)%Qc) as [Hs _]. apply Qcnot_lt_le. intros Hlt.
  unfold dec_ltb in Hs. change (dec 0 0) with 0%Qc in Hs. unfold ctx_neg in Hlt.
  rewrite bool_decide_true in Hs by done. symmetry in Hs. apply bool_decide_eq_true in Hs.
  unfold Qclt, Qcle in *. rewrite this_opp in Hs. change (this 0%Qc) with 0%Q in *. lra.
Qed.

Lemma tilt_spec v e : (0 <= e)%Qc ->
  (tilt (Some v) e = T_BULL <-> (e < v)%Qc) /\ (tilt (Some v) e = T_BEAR <-> (v < ctx_neg e)%Qc)
  /\ (tilt (Some v) e = T_NEUTRAL <-> (ctx_neg e <= v)%Qc /\ (v <= e)%Qc).
Proof.
  intros He. pose proof (ctx_neg_nonpos e He) as Hn. unfold tilt, dec_ltb.
  repeat case_bool_decide; split_and!; (split; [try done|try done]); intros; dec_order || (split; dec_order) || idtac.
  all: try (destruct H1; dec_order). all: try (destruct H0; dec_order).
Qed.

(** The tilt of the net breadth is the sign of the difference of the counts. *)
Lemma breadth_tilt_spec n d : 0 < d ->
  tilt (Some (ctx_round (dec n 0 / dec d 0)%Qc)) (dec 0 0)
  = if 0 <? n then T_BULL else if n <? 0 then T_BEAR else T_NEUTRAL.
Proof.
  intros Hd. unfold tilt. rewrite ctx_neg_zero. by destruct (ratio_sign n d Hd) as [-> ->].
Qed.

(** ** The evidence in closed form *)

Section Evidence.
Variables (sector_id : string) (expected : gset string) (policy : CalculationPolicy)
  (trading_date : date) (evaluation_time : instant).

Definition fresh_of (os : list ConstituentObservation) : list ConstituentObservation :=
  filter (fun o => is_fresh evaluation_time (freshness_limit policy) o = true) os.

Definition constituents_of (os : list ConstituentObservation) : list ConstituentMetrics :=
  metrics_of (direction_epsilon policy) <$> fresh_of os.

Definition advancing_of (os : list ConstituentObservation) : Z :=
  count_of (fun c => bool_decide (cm_direction c = ADVANCING)) (constituents_of os).
Definition declining_of (os : list ConstituentObservation) : Z :=
  count_of (fun c => bool_decide (cm_direction c = DECLINING)) (constituents_of os).

Lemma in_scope_valid os : in_scope sector_id expected trading_date os -> Forall observation_valid (fresh_of os).
Proof using Type.
  intros [_ Hall]. apply Forall_forall. intros o [_ Ho]%list_elem_of_filter. by destruct (Hall o Ho).
Qed.

Lemma breadth_ok os : exists b, breadth_of (constituents_of os) = Ok b
  /\ br_valid_count b = Z.of_nat (length (fresh_of os))
  /\ br_advance_count b = advancing_of os /\ br_decline_count b = declining_of os
  /\ br_unchanged_count b = Z.of_nat (length (fresh_of os)) - advancing_of os - declining_of os
  /\ (0 < Z.of_nat (length (fresh_of os)) -> tilt (br_net_breadth b) (dec 0 0)
      = if declining_of os <? advancing_of os then T_BULL
        else if advancing_of os <? declining_of os then T_BEAR else T_NEUTRAL).
Proof using Type.
  unfold breadth_of. assert (Hlen : length (constituents_of os) = length (fresh_of os)) by apply length_fmap.
  rewrite Hlen. set (n := Z.of_nat (length (fresh_of os))).
  fold (advancing_of os) (declining_of os).
  destruct (Z.eq_dec n 0) as [Hz|Hz].
  - unfold ratio. rewrite (proj2 (Z.eqb_eq n 0) Hz). cbn. eexists. split_and!; try done. intros; lia.
  - assert (0 < n) by lia. rewrite !ratio_ok by done. cbn [mbind result_bind]. eexists. split_and!; try done.
    intros _. cbn [br_net_breadth]. rewrite breadth_tilt_spec by done.
    destruct (Z.ltb_spec 0 (advancing_of os - declining_of os)), (Z.ltb_spec (declining_of os) (advancing_of os)); try lia;
    destruct (Z.ltb_spec (advancing_of os - declining_of os) 0), (Z.ltb_spec (advancing_of os) (declining_of os)); lia || done.
Qed.

Lemma participation_ok t cs e : exists r, participation t cs e = Ok r.
Proof using Type.
  unfold participation, ratio. destruct (Z.of_nat (length cs) =? 0) eqn:E; [by eexists|].
  zbool. assert (Hd : 0 < Z.of_nat (length cs)) by lia.
  pose proof (fun n => ratio_ok n (Z.of_nat (length cs)) Hd) as Hr. unfold ratio in Hr.
  rewrite (proj2 (Z.eqb_neq _ 0)) in Hr by lia. rewrite Hr. by eexists.
Qed.

Lemma coverage_ok n : exists c, ratio n (Z.of_nat (size expected)) = Ok c.
Proof using Type.
  destruct (Z.eq_dec (Z.of_nat (size expected)) 0) as [Hz|Hz]; [unfold ratio; rewrite Hz; by eexists|].
  rewrite ratio_ok by lia. by eexists.
Qed.

(** The evidence without the list of constituents. *)
Definition without_constituents (m : SectorMetrics) : SectorMetrics := {|
  mx_sector_id := mx_sector_id m; mx_trading_date := mx_trading_date m;
  mx_evaluation_timestamp := mx_evaluation_timestamp m; mx_expected_count := mx_expected_count m;
  mx_valid_count := mx_valid_count m; mx_stale_count := mx_stale_count m;
  mx_missing_count := mx_missing_count m; mx_invalid_count := mx_invalid_count m;
  mx_coverage_ratio := mx_coverage_ratio m; mx_breadth := mx_breadth m;
  mx_median_overnight_return := mx_median_overnight_return m;
  mx_median_intraday_return := mx_median_intraday_return m;
  mx_median_total_return := mx_median_total_return m;
  mx_mad_intraday_return := mx_mad_intraday_return m; mx_iqr_intraday_return := mx_iqr_intraday_return m;
  mx_directional_agreement := mx_directional_agreement m;
  mx_directional_participant_count := mx_directional_participant_count m;
  mx_directional_participation_ratio := mx_directional_participation_ratio m;
  mx_raw_direction := mx_raw_direction m;
  mx_universe_proxy_intraday_return := mx_universe_proxy_intraday_return m;
  mx_relative_strength := mx_relative_strength m; mx_constituents := [] |}.

(** The calculation on observations in scope. *)
Lemma sector_metrics_ok os proxy : in_scope sector_id expected trading_date os ->
  exists m b c median_intraday,
    calculate_sector_metrics sector_id expected os policy trading_date evaluation_time proxy = Ok m
    /\ breadth_of (constituents_of os) = Ok b
    /\ ratio (Z.of_nat (length (fresh_of os))) (Z.of_nat (size expected)) = Ok c
    /\ stat_median (cm_intraday_return <$> constituents_of os) = Ok median_intraday
    /\ mx_constituents m = constituents_of os /\ mx_breadth m = b
    /\ mx_median_intraday_return m = median_intraday /\ mx_coverage_ratio m = or_zero c
    /\ mx_expected_count m = Z.of_nat (size expected)
    /\ mx_valid_count m = Z.of_nat (length (fresh_of os))
    /\ mx_stale_count m = Z.of_nat (length os) - Z.of_nat (length (fresh_of os))
    /\ mx_missing_count m = Z.of_nat (size expected) - Z.of_nat (length os)
    /\ mx_raw_direction m = raw_direction (tilt median_intraday (direction_epsilon policy))
         (tilt (br_net_breadth b) (dec 0 0)) (Z.of_nat (length (fresh_of os))) (or_zero c) policy
    /\ mx_sector_id m = sector_id /\ mx_trading_date m = trading_date
    /\ mx_evaluation_timestamp m = evaluation_time.
Proof using Type.
  intros Hs. unfold calculate_sector_metrics. rewrite validate_scope_ok by done. cbn [mbind result_bind].
  fold (fresh_of os). rewrite all_metrics_ok by (by apply in_scope_valid). cbn [mbind result_bind].
  fold (constituents_of os).
  destruct (coverage_ok (Z.of_nat (length (fresh_of os)))) as (c & Hc). rewrite Hc.
  destruct (breadth_ok os) as (b & Hb & _). rewrite Hb.
  destruct (stat_median_ok (cm_intraday_return <$> constituents_of os)) as (mi & Hmi & _). rewrite Hmi.
  destruct (stat_median_ok (cm_overnight_return <$> constituents_of os)) as (mo & -> & _).
  destruct (stat_median_ok (cm_total_return <$> constituents_of os)) as (mt & -> & _).
  cbn [mbind result_bind].
  destruct (participation_ok (tilt mi (direction_epsilon policy)) (constituents_of os) (direction_epsilon policy)) as (p & ->).
  destruct (mad_ok (cm_intraday_return <$> constituents_of os)) as (md & ->).
  destruct (iqr_ok (cm_intraday_return <$> constituents_of os)) as (iq & ->).
  cbn [mbind result_bind]. by eexists _, b, c, mi.
Qed.

End Evidence.

Lemma mk_policy_ok raw policy : mk_policy raw = Ok policy ->
  policy = raw /\ (0 <= direction_epsilon policy)%Qc /\ 0 < freshness_limit policy
  /\ 1 <= minimum_valid_count policy.
Proof.
  unfold mk_policy. intros H. guards. zbool. split_and!; try done; try lia.
  apply Qcnot_lt_le. intros Hlt%dec_ltb_lt. change 0%Qc with (dec 0 0) in Hlt. congruence.
Qed.

(** The direction in terms of the median and of the counts. *)
Lemma direction_spec policy mi (nb : option Decimal) valid cov adv decl :
  (0 <= direction_epsilon policy)%Qc -> 1 <= minimum_valid_count policy ->
  (0 < valid -> tilt nb (dec 0 0)
     = if decl <? adv then T_BULL else if adv <? decl then T_BEAR else T_NEUTRAL) ->
  let direction := raw_direction (tilt mi (direction_epsilon policy)) (tilt nb (dec 0 0)) valid cov policy in
  let sufficient := minimum_valid_count policy <= valid
    /\ (forall r, minimum_coverage_ratio policy = Some r -> (r <= cov)%Qc) in
  (direction = INSUFFICIENT_DATA <-> ~ sufficient)
  /\ forall v, mi = Some v ->
     (direction = BULLISH <-> sufficient /\ (direction_epsilon policy < v)%Qc /\ decl < adv)
     /\ (direction = BEARISH <-> sufficient /\ (v < ctx_neg (direction_epsilon policy))%Qc /\ adv < decl)
     /\ (direction = NEUTRAL <-> sufficient /\ (ctx_neg (direction_epsilon policy) <= v)%Qc
         /\ (v <= direction_epsilon policy)%Qc /\ adv = decl).
Proof.
  intros He Hmin Ht. cbn zeta.
  set (sufficient := minimum_valid_count policy <= valid
    /\ (forall r, minimum_coverage_ratio policy = Some r -> (r <= cov)%Qc)).
  assert (Hcase : (sufficient /\ exists mt bt, tilt mi (direction_epsilon policy) = mt /\ tilt nb (dec 0 0) = bt /\
      raw_direction mt bt valid cov policy
      = match mt, bt with T_BULL, T_BULL => BULLISH | T_BEAR, T_BEAR => BEARISH
        | T_NEUTRAL, T_NEUTRAL => NEUTRAL | _, _ => MIXED end)
    \/ (~ sufficient /\ raw_direction (tilt mi (direction_epsilon policy)) (tilt nb (dec 0 0)) valid cov policy
        = INSUFFICIENT_DATA)).
  { unfold sufficient, raw_direction. destruct (Z.ltb_spec valid (minimum_valid_count policy)).
    - rewrite orb_true_r. right. split; [lia|done].
    - rewrite (proj2 (Z.eqb_neq valid 0)) by lia. cbn [orb].
      destruct (minimum_coverage_ratio policy) as [r|].
      + unfold dec_ltb. case_bool_decide as E.
        * right. split; [|done]. intros [_ H']. specialize (H' r eq_refl). dec_order.
        * left. split; [split; [lia|intros ? [= <-]; dec_order]|by eexists _, _].
      + left. split; [split; [lia|done]|by eexists _, _]. }
  destruct Hcase as [[Hsuf (mt & bt & Hmt & Hbt & Hdir)]|[Hno ->]].
  2:{ split; [by split|]. intros v ->. split_and!; (split; [done|by intros [? _]]). }
  assert (0 < valid) as Hv by (destruct Hsuf; lia). specialize (Ht Hv). rewrite Hmt, Hbt, Hdir.
  split.
  { split; [by destruct mt, bt|done]. }
  intros v ->. destruct (tilt_spec v _ He) as (Hb & Hr & Hn). rewrite Hmt in Hb, Hr, Hn. rewrite Hbt in Ht.
  rewrite <- Hb, <- Hr. rewrite <- (and_assoc _ (ctx_neg _ <= v)%Qc), <- Hn || idtac.
  assert (Hbt' : (bt = T_BULL <-> decl < adv) /\ (bt = T_BEAR <-> adv < decl) /\ (bt = T_NEUTRAL <-> adv = decl)).
  { rewrite Ht. destruct (Z.ltb_spec decl adv); [|destruct (Z.ltb_spec adv decl)]; split_and!; (split; [try done|try done]); lia. }
  destruct Hbt' as (H1 & H2 & H3). rewrite <- H1, <- H2, <- H3.
  split_and!.
  - destruct mt, bt; split; try done; intuition congruence.
  - destruct mt, bt; split; try done; intuition congruence.
  - transitivity (mt = T_NEUTRAL /\ bt = T_NEUTRAL); [destruct mt, bt; split; try done; intuition congruence|].
    rewrite Hn. tauto.
Qed.

(** ** The evidence of a sector *)

Section MetricsTheorems.
Variables (sector_id : string) (expected : gset string) (raw policy : CalculationPolicy)
  (trading_date : date) (evaluation_time : instant).
Hypothesis policy_accepted : mk_policy raw = Ok policy.

Lemma counted_split os :
  let cs := constituents_of policy evaluation_time os in
  0 <= advancing_of policy evaluation_time os /\ 0 <= declining_of policy evaluation_time os
  /\ advancing_of policy evaluation_time os + declining_of policy evaluation_time os <= Z.of_nat (length cs).
Proof using Type.
  cbn zeta. pose proof (fun p => count_of_le p (constituents_of policy evaluation_time os)) as Hc.
  split_and!; [apply Hc|apply Hc|]. apply count_of_split. intros c _ H1 H2. zbool. congruence.
Qed.

(** On observations of one sector and date, each instrument once, the calculation
    never fails.  It decomposes exactly the fresh observations; fresh, stale and
    missing instruments add up to the expected ones and none of the counts is
    negative; advancing, declining and unchanged add up to the fresh ones.  The
    direction is withheld exactly when there is too little evidence, it is bullish
    only with the median above the epsilon and more advancing than declining
    instruments, bearish in the mirror case, neutral when neither leans. *)
Theorem sector_metrics_correct os proxy : in_scope sector_id expected trading_date os ->
  exists m median_intraday,
    calculate_sector_metrics sector_id expected os policy trading_date evaluation_time proxy = Ok m
    /\ mx_constituents m = metrics_of (direction_epsilon policy) <$>
         filter (fun o => is_fresh evaluation_time (freshness_limit policy) o = true) os
    /\ mx_valid_count m + mx_stale_count m + mx_missing_count m = mx_expected_count m
    /\ 0 <= mx_stale_count m /\ 0 <= mx_missing_count m
    /\ mx_valid_count m = Z.of_nat (length (mx_constituents m))
    /\ 0 <= br_advance_count (mx_breadth m) /\ 0 <= br_decline_count (mx_breadth m)
    /\ 0 <= br_unchanged_count (mx_breadth m)
    /\ br_advance_count (mx_breadth m) + br_decline_count (mx_breadth m)
       + br_unchanged_count (mx_breadth m) = mx_valid_count m
    /\ mx_median_intraday_return m = median_intraday
    /\ stat_median (cm_intraday_return <$> mx_constituents m) = Ok median_intraday
    /\ let sufficient := minimum_valid_count policy <= mx_valid_count m
         /\ (forall r, minimum_coverage_ratio policy = Some r -> (r <= mx_coverage_ratio m)%Qc) in
       (mx_raw_direction m = INSUFFICIENT_DATA <-> ~ sufficient)
       /\ forall v, median_intraday = Some v ->
          (mx_raw_direction m = BULLISH <-> sufficient /\ (direction_epsilon policy < v)%Qc
             /\ br_decline_count (mx_breadth m) < br_advance_count (mx_breadth m))
          /\ (mx_raw_direction m = BEARISH <-> sufficient /\ (v < ctx_neg (direction_epsilon policy))%Qc
             /\ br_advance_count (mx_breadth m) < br_decline_count (mx_breadth m))
          /\ (mx_raw_direction m = NEUTRAL <-> sufficient
             /\ (ctx_neg (direction_epsilon policy) <= v)%Qc /\ (v <= direction_epsilon policy)%Qc
             /\ br_advance_count (mx_breadth m) = br_decline_count (mx_breadth m)).
Proof using policy_accepted.
  intros Hs.
  destruct (sector_metrics_ok sector_id expected policy trading_date evaluation_time os proxy Hs)
    as (m & b & c & mi & Hm & Hb & Hc & Hmi & Hcs & Hbr & Hmed & Hcov & He & Hv & Hst & Hmiss & Hdir & _).
  exists m, mi.
  destruct (breadth_ok policy evaluation_time os) as (b' & Hb' & Hbv & Hba & Hbd & Hbu & Htilt).
  assert (b' = b) as -> by congruence. destruct (counted_split os) as (Ha & Hd & Had).
  assert (Hlen : length (constituents_of policy evaluation_time os)
    = length (fresh_of policy evaluation_time os)) by apply length_fmap.
  rewrite Hlen in Had. pose proof (scope_count _ _ _ _ Hs) as Hsc.
  pose proof (length_filter (fun o => is_fresh evaluation_time (freshness_limit policy) o = true) os) as Hfl.
  fold (fresh_of policy evaluation_time os) in Hfl |- *.
  split_and!; try done; rewrite ?Hbr, ?Hcs, ?Hlen; try lia; try done.
  destruct (mk_policy_ok _ _ policy_accepted) as (_ & Heps & _ & Hmin).
  cbn zeta. rewrite Hdir, Hv, Hcov, Hba, Hbd. apply direction_spec; [done|done|exact Htilt].
Qed.

Lemma breadth_of_perm cs cs' : cs ≡ₚ cs' -> breadth_of cs = breadth_of cs'.
Proof using Type. intros H. unfold breadth_of. by rewrite (Permutation_length H), !(count_of_perm _ _ _ H). Qed.

Lemma participation_perm t cs cs' e : cs ≡ₚ cs' -> participation t cs e = participation t cs' e.
Proof using Type.
  intros H. unfold participation. by rewrite (Permutation_length H), !(count_of_perm _ _ _ H).
Qed.

(** The evidence of a sector does not depend on the order in which the
    observations are listed: over a permutation of them every field is the same,
    but for the list of constituents, which is permuted with them. *)
Theorem sector_metrics_order_independent os os' proxy : in_scope sector_id expected trading_date os ->
  os ≡ₚ os' ->
  exists m m',
    calculate_sector_metrics sector_id expected os policy trading_date evaluation_time proxy = Ok m
    /\ calculate_sector_metrics sector_id expected os' policy trading_date evaluation_time proxy = Ok m'
    /\ without_constituents m = without_constituents m' /\ mx_constituents m ≡ₚ mx_constituents m'.
Proof using Type.
  intros Hs Hp. assert (Hf : fresh_of policy evaluation_time os ≡ₚ fresh_of policy evaluation_time os')
    by (unfold fresh_of; by rewrite Hp).
  assert (Hc : constituents_of policy evaluation_time os ≡ₚ constituents_of policy evaluation_time os')
    by (unfold constituents_of; by rewrite Hf).
  pose proof (in_scope_perm _ _ _ _ _ Hp Hs) as Hs'.
  destruct (sector_metrics_ok sector_id expected policy trading_date evaluation_time os proxy Hs)
    as (m & _ & _ & _ & Hm & _ & _ & _ & Hcs & _).
  destruct (sector_metrics_ok sector_id expected policy trading_date evaluation_time os' proxy Hs')
    as (m' & _ & _ & _ & Hm' & _ & _ & _ & Hcs' & _).
  exists m, m'. split_and!; [done|done| |by rewrite Hcs, Hcs'].
  revert Hm Hm'. unfold calculate_sector_metrics.
  rewrite !validate_scope_ok by done. cbn [mbind result_bind].
  fold (fresh_of policy evaluation_time os) (fresh_of policy evaluation_time os').
  rewrite !all_metrics_ok by (by eapply in_scope_valid). cbn [mbind result_bind].
  fold (constituents_of policy evaluation_time os) (constituents_of policy evaluation_time os').
  rewrite (breadth_of_perm _ _ Hc), (Permutation_length Hf), (Permutation_length Hp).
  rewrite !(stat_median_perm _ _ (fmap_Permutation _ _ _ Hc)), (mad_perm _ _ (fmap_Permutation _ _ _ Hc)),
    (iqr_perm _ _ (fmap_Permutation _ _ _ Hc)).
  intros Hm Hm'.
  repeat (apply bind_ok in Hm as (? & ?E & Hm); apply bind_ok in Hm' as (? & ?E' & Hm')).
  rewrite (participation_perm _ _ _ _ Hc) in *. injection Hm as <-. injection Hm' as <-.
  repeat match goal with A : ?t = Ok ?a, B : ?t = Ok ?b |- _ => rewrite A in B; injection B as <- end.
  reflexivity.
Qed.

End MetricsTheorems.

(** * A concrete sector *)

Definition sample_policy : CalculationPolicy := {|
  direction_epsilon := dec 1 3; freshness_limit := 300000000;
  minimum_valid_count := 1; minimum_coverage_ratio := None |}.

Definition sample_observation (i : string) (at_ : instant) (last_price open : Z)
    : ConstituentObservation := {|
  ob_identity := i; ob_sector_id := "IT"; ob_trading_date := 20500; ob_observation_timestamp := at_;
  ob_last_price := dec last_price 0; ob_previous_close := dec 100 0; ob_session_open := dec open 0 |}.

(** Two instruments up, one down, one stale; a fifth has not been seen. *)
Definition sample_observations : list ConstituentObservation :=
  [sample_observation "NSE:INFY" 1000000000 103 101; sample_observation "NSE:TCS" 1000000000 104 101;
   sample_observation "NSE:WIPRO" 1000000000 99 101; sample_observation "NSE:HCL" 1000 104 101].

Definition sample_expected : gset string :=
  list_to_set ["NSE:INFY"; "NSE:TCS"; "NSE:WIPRO"; "NSE:HCL"; "NSE:LTIM"].

Lemma sample_scope : in_scope "IT" sample_expected 20500 sample_observations.
Proof. apply in_scope_checked; vm_compute; reflexivity. Qed.

Lemma sample_policy_accepted : mk_policy sample_policy = Ok sample_policy.
Proof. vm_compute; reflexivity. Qed.

Lemma sector_metrics_correct_witness : exists m,
  calculate_sector_metrics "IT" sample_expected sample_observations sample_policy 20500 1000000000 None = Ok m
  /\ mx_raw_direction m = BULLISH /\ mx_valid_count m = 3.
Proof.
  destruct (sector_metrics_correct "IT" sample_expected sample_policy sample_policy 20500 1000000000
    sample_policy_accepted sample_observations None sample_scope)
    as (m & v & Hm & Hc & Hsum & _ & _ & Hlen & _ & _ & _ & _ & _ & Hv & Hdir & Hdirs).
  exists m. split_and!; [done| |].
  - assert (E : (fun r => match r with Ok x => mx_raw_direction x | Raise _ => MIXED end)
      (calculate_sector_metrics "IT" sample_expected sample_observations sample_policy 20500 1000000000 None)
      = BULLISH) by (vm_compute; reflexivity).
    by rewrite Hm in E.
  - rewrite Hlen, Hc. vm_compute; reflexivity.
Defined.

Lemma sector_metrics_order_independent_witness : exists m m',
  calculate_sector_metrics "IT" sample_expected sample_observations sample_policy 20500 1000000000 None = Ok m
  /\ calculate_sector_metrics "IT" sample_expected (reverse sample_observations) sample_policy 20500 1000000000 None = Ok m'
  /\ without_constituents m = without_constituents m'.
Proof.
  destruct (sector_metrics_order_independent "IT" sample_expected sample_policy 20500 1000000000
    sample_observations (reverse sample_observations) None sample_scope (symmetry (reverse_Permutation _)))
    as (m & m' & Hm & Hm' & Heq & _). exists m, m'. by split_and!.
Defined.
