(* ===== verification/SectorRanking.v ===== *)
(** The ranking of a sector's stocks, market_intelligence/sector/participation: the
    raw evidence of one stock against its sector and the universe, and the
    competition ranking of the fresh stocks by directional strength.

    The theorems say that the ranking never fails on observations in scope, places
    every observation exactly once, ranks by the number of strictly stronger stocks,
    and does not depend on the order of the observations. *)
From S2P Require Import Prelude DecimalContext PyTime MarketData SectorMetrics.

Local Open Scope Z_scope.

(** * Models *)

Inductive StockSectorAlignment : Type :=
| ALIGNED | OPPOSED | NEUTRAL_ALIGNMENT | MIXED_CONTEXT | INSUFFICIENT_ALIGNMENT.

#[global] Instance StockSectorAlignment_eq_dec : EqDecision StockSectorAlignment.
Proof. solve_decision. Defined.

Inductive StockExclusionReason : Type := STALE.

Record StockSectorMetrics : Type := {
  ss_identity : string;
  ss_sector_id : string;
  ss_trading_date : date;
  ss_evaluation_timestamp : instant;
  ss_stock_intraday_return : Decimal;
  ss_stock_overnight_return : Decimal;
  ss_stock_total_return : Decimal;
  ss_stock_direction : ConstituentDirection;
  ss_sector_raw_direction : RawSectorDirection;
  ss_sector_median_intraday_return : option Decimal;
  ss_universe_proxy_intraday_return : option Decimal;
  ss_stock_vs_sector : option Decimal;
  ss_stock_vs_universe : option Decimal;
  ss_sector_alignment : StockSectorAlignment;
  ss_directional_strength : option Decimal;
  ss_robust_relative_magnitude : option Decimal;
  ss_within_sector_rank : option Z;
  ss_within_sector_percentile : option Decimal;
  ss_eligible : bool;
  ss_exclusion_reason : option StockExclusionReason;
}.

Record SectorStockRanking : Type := {
  sk_sector_id : string;
  sk_trading_date : date;
  sk_evaluation_timestamp : instant;
  sk_sector_raw_direction : RawSectorDirection;
  sk_directional_ranking_available : bool;
  sk_eligible_count : Z;
  sk_ranked_stocks : list StockSectorMetrics;
  sk_excluded_stocks : list StockSectorMetrics;
}.

(** * The engine *)

(** [x in _DIRECTIONAL] *)
Definition is_directional (d : RawSectorDirection) : bool :=
  match d with BULLISH | BEARISH => true | _ => false end.

(** [_alignment] *)
Definition alignment (stock_direction : ConstituentDirection) (sector_direction : RawSectorDirection)
    : StockSectorAlignment :=
  match sector_direction with
  | MIXED => MIXED_CONTEXT
  | INSUFFICIENT_DATA => INSUFFICIENT_ALIGNMENT
  | NEUTRAL => NEUTRAL_ALIGNMENT
  | _ =>
      if bool_decide (stock_direction = UNCHANGED) then NEUTRAL_ALIGNMENT
      else let advancing := bool_decide (stock_direction = ADVANCING) in
           let bullish := bool_decide (sector_direction = BULLISH) in
           if Bool.eqb advancing bullish then ALIGNED else OPPOSED
  end.

(** [_directional_strength] *)
Definition directional_strength (intraday_return : Decimal) (sector_direction : RawSectorDirection)
    : option Decimal :=
  match sector_direction with
  | BULLISH => Some intraday_return
  | BEARISH => Some (ctx_neg intraday_return)
  | _ => None
  end.

(** [_robust_relative_magnitude] *)
Definition robust_relative_magnitude (intraday_return : Decimal) (sector_median mad : option Decimal)
    : result (option Decimal) :=
  match sector_median, mad with
  | Some m, Some d =>
      if dec_eqb d (dec 0 0) then Ok None else Some <$> ctx_div (ctx_sub intraday_return m) d
  | _, _ => Ok None
  end.

(** [_relative] *)
Definition relative (value : Decimal) (benchmark : option Decimal) : option Decimal :=
  ctx_sub value <$> benchmark.

Definition context_check (m : SectorMetrics) (o : ConstituentObservation) : result unit :=
  _ ← raise_if (negb (bool_decide (ob_sector_id o = mx_sector_id m)))
    (StockSectorContextMismatchError (ob_identity o));
  raise_if (negb (ob_trading_date o =? mx_trading_date m))
    (StockSectorContextMismatchError (ob_identity o)).

(** [_validate]; [seen] holds the identities of the observations before. *)
Fixpoint validate (m : SectorMetrics) (seen : list string) (observations : list ConstituentObservation)
    : result unit :=
  match observations with
  | [] => Ok tt
  | o :: rest =>
      _ ← raise_if (bool_decide (ob_identity o ∈ seen)) (DuplicateRankedConstituentError (ob_identity o));
      _ ← context_check m o;
      validate m (ob_identity o :: seen) rest
  end.

(** [_base_metrics] *)
Definition base_metrics (m : SectorMetrics) (policy : CalculationPolicy) (eligible : bool)
    (observation : ConstituentObservation) : result StockSectorMetrics :=
  cm ← calculate_constituent_metrics observation (direction_epsilon policy);
  let sector_median := mx_median_intraday_return m in
  let proxy := mx_universe_proxy_intraday_return m in
  let direction := mx_raw_direction m in
  magnitude ← robust_relative_magnitude (cm_intraday_return cm) sector_median (mx_mad_intraday_return m);
  Ok {| ss_identity := cm_identity cm; ss_sector_id := mx_sector_id m;
        ss_trading_date := mx_trading_date m;
        ss_evaluation_timestamp := mx_evaluation_timestamp m;
        ss_stock_intraday_return := cm_intraday_return cm;
        ss_stock_overnight_return := cm_overnight_return cm;
        ss_stock_total_return := cm_total_return cm; ss_stock_direction := cm_direction cm;
        ss_sector_raw_direction := direction; ss_sector_median_intraday_return := sector_median;
        ss_universe_proxy_intraday_return := proxy;
        ss_stock_vs_sector := relative (cm_intraday_return cm) sector_median;
        ss_stock_vs_universe := relative (cm_intraday_return cm) proxy;
        ss_sector_alignment := alignment (cm_direction cm) direction;
        ss_directional_strength := directional_strength (cm_intraday_return cm) direction;
        ss_robust_relative_magnitude := magnitude; ss_within_sector_rank := None;
        ss_within_sector_percentile := None; ss_eligible := eligible;
        ss_exclusion_reason := if eligible then None else Some STALE |}.

Definition calculate_stock_sector_metrics (observation : ConstituentObservation) (m : SectorMetrics)
    (policy : CalculationPolicy) : result StockSectorMetrics :=
  _ ← context_check m observation;
  let age := mx_evaluation_timestamp m - ob_observation_timestamp observation in
  base_metrics m policy ((0 <=? age) && (age <=? freshness_limit policy)) observation.

(** [other is not None and strength is not None and other > strength] *)
Definition beats (other strength : option Decimal) : bool :=
  match other, strength with Some o, Some s => dec_ltb s o | _, _ => false end.

Definition rank_of (strengths : list (option Decimal)) (strength : option Decimal) : Z :=
  1 + count_of (fun other => beats other strength) strengths.

(** [model_copy(update={...})] *)
Definition with_rank (s : StockSectorMetrics) (rank : Z) (percentile : option Decimal)
    : StockSectorMetrics := {|
  ss_identity := ss_identity s; ss_sector_id := ss_sector_id s; ss_trading_date := ss_trading_date s;
  ss_evaluation_timestamp := ss_evaluation_timestamp s;
  ss_stock_intraday_return := ss_stock_intraday_return s;
  ss_stock_overnight_return := ss_stock_overnight_return s;
  ss_stock_total_return := ss_stock_total_return s; ss_stock_direction := ss_stock_direction s;
  ss_sector_raw_direction := ss_sector_raw_direction s;
  ss_sector_median_intraday_return := ss_sector_median_intraday_return s;
  ss_universe_proxy_intraday_return := ss_universe_proxy_intraday_return s;
  ss_stock_vs_sector := ss_stock_vs_sector s; ss_stock_vs_universe := ss_stock_vs_universe s;
  ss_sector_alignment := ss_sector_alignment s; ss_directional_strength := ss_directional_strength s;
  ss_robust_relative_magnitude := ss_robust_relative_magnitude s;
  ss_within_sector_rank := Some rank; ss_within_sector_percentile := percentile;
  ss_eligible := ss_eligible s; ss_exclusion_reason := ss_exclusion_reason s |}.

(** The sort key [(-(strength or 0), identity)], compared as tuples. *)
Definition strength_key (s : StockSectorMetrics) : Decimal := ctx_neg (or_zero (ss_directional_strength s)).

Definition strength_leb (a b : StockSectorMetrics) : bool :=
  if dec_ltb (strength_key a) (strength_key b) then true
  else if dec_ltb (strength_key b) (strength_key a) then false
  else String.leb (ss_identity a) (ss_identity b).

Definition identity_leb (a b : StockSectorMetrics) : bool := String.leb (ss_identity a) (ss_identity b).

(** [_apply_ranking] *)
Definition apply_ranking (eligible : list StockSectorMetrics) : result (list StockSectorMetrics) :=
  let strengths := ss_directional_strength <$> eligible in
  let count := Z.of_nat (length eligible) in
  ranked ← traverse (fun stock =>
    let rank := rank_of strengths (ss_directional_strength stock) in
    percentile ← (if count <? 2 then Ok None else Some <$> ctx_div (dec (count - rank) 0) (dec (count - 1) 0));
    Ok (with_rank stock rank percentile)) eligible;
  Ok (py_sorted strength_leb ranked).

Definition rank_sector_constituents (m : SectorMetrics) (observations : list ConstituentObservation)
    (policy : CalculationPolicy) : result SectorStockRanking :=
  _ ← validate m [] observations;
  let is_fresh_now := is_fresh (mx_evaluation_timestamp m) (freshness_limit policy) in
  let fresh := filter (fun o => is_fresh_now o = true) observations in
  let stale := filter (fun o => is_fresh_now o = false) observations in
  excluded ← traverse (base_metrics m policy false) stale;
  eligible ← traverse (base_metrics m policy true) fresh;
  let directional := is_directional (mx_raw_direction m) in
  ranked ← (if directional then apply_ranking eligible else Ok (py_sorted identity_leb eligible));
  Ok {| sk_sector_id := mx_sector_id m; sk_trading_date := mx_trading_date m;
        sk_evaluation_timestamp := mx_evaluation_timestamp m;
        sk_sector_raw_direction := mx_raw_direction m;
        sk_directional_ranking_available := directional;
        sk_eligible_count := Z.of_nat (length eligible); sk_ranked_stocks := ranked;
        sk_excluded_stocks := py_sorted identity_leb excluded |}.

(** * Lemmas *)

(** ** The evidence of one stock *)

Section Evidence.
Variables (m : SectorMetrics) (policy : CalculationPolicy).

Definition magnitude_of (r : Decimal) : option Decimal :=
  match mx_median_intraday_return m, mx_mad_intraday_return m with
  | Some c, Some d => if dec_eqb d (dec 0 0) then None else Some (ctx_round (ctx_sub r c / d)%Qc)
  | _, _ => None
  end.

(** What [base_metrics] computes on a valid observation. *)
Definition stock_of (eligible : bool) (o : ConstituentObservation) : StockSectorMetrics :=
  let cm := metrics_of (direction_epsilon policy) o in
  let r := cm_intraday_return cm in
  {| ss_identity := ob_identity o; ss_sector_id := mx_sector_id m; ss_trading_date := mx_trading_date m;
     ss_evaluation_timestamp := mx_evaluation_timestamp m; ss_stock_intraday_return := r;
     ss_stock_overnight_return := cm_overnight_return cm; ss_stock_total_return := cm_total_return cm;
     ss_stock_direction := cm_direction cm; ss_sector_raw_direction := mx_raw_direction m;
     ss_sector_median_intraday_return := mx_median_intraday_return m;
     ss_universe_proxy_intraday_return := mx_universe_proxy_intraday_return m;
     ss_stock_vs_sector := relative r (mx_median_intraday_return m);
     ss_stock_vs_universe := relative r (mx_universe_proxy_intraday_return m);
     ss_sector_alignment := alignment (cm_direction cm) (mx_raw_direction m);
     ss_directional_strength := directional_strength r (mx_raw_direction m);
     ss_robust_relative_magnitude := magnitude_of r; ss_within_sector_rank := None;
     ss_within_sector_percentile := None; ss_eligible := eligible;
     ss_exclusion_reason := if eligible then None else Some STALE |}.

Lemma base_metrics_ok e o : observation_valid o -> base_metrics m policy e o = Ok (stock_of e o).
Proof using Type.
  intros Hv. unfold base_metrics. rewrite constituent_metrics_ok by done. cbn [mbind result_bind].
  unfold robust_relative_magnitude, stock_of, magnitude_of.
  destruct (mx_median_intraday_return m) as [c|], (mx_mad_intraday_return m) as [d|]; try done.
  destruct (dec_eqb d (dec 0 0)) eqn:E; [done|]. rewrite ctx_div_ok; [done|].
  intros Hz. apply not_true_iff_false in E. by apply E, dec_eqb_eq.
Qed.

Lemma base_all_ok e os : Forall observation_valid os ->
  traverse (base_metrics m policy e) os = Ok (stock_of e <$> os).
Proof using Type.
  intros H. apply traverse_pure. eapply Forall_impl; [exact H|]. intros o. apply base_metrics_ok.
Qed.

Lemma negated_return a b : ctx_neg (return_of a b) = (- return_of a b)%Qc.
Proof using Type. unfold ctx_neg, return_of. by rewrite ctx_round_opp, ctx_round_idem. Qed.

(** In a directional sector every stock has a strength, its intraday return or the
    opposite of it. *)
Lemma strength_some e o : is_directional (mx_raw_direction m) = true ->
  exists v, ss_directional_strength (stock_of e o) = Some v /\ ctx_round v = v.
Proof using Type.
  unfold stock_of, directional_strength. cbn. destruct (mx_raw_direction m); try done; intros _; eexists;
    (split; [done|]); unfold ctx_neg; unfold return_of; by rewrite ?ctx_round_idem.
Qed.

End Evidence.

(** ** Ranks *)

Lemma rank_bounds strengths v : Some v ∈ strengths ->
  1 <= rank_of strengths (Some v) <= Z.of_nat (length strengths).
Proof.
  intros Hv. unfold rank_of. pose proof (count_of_le (fun other => beats other (Some v)) strengths) as [Hlo _].
  split; [lia|]. assert (Hlt : count_of (fun other => beats other (Some v)) strengths
    < count_of (fun _ => true) strengths).
  { apply (count_of_lt _ _ _ (Some v)); try done. cbn. unfold dec_ltb. rewrite bool_decide_false by dec_order. done. }
  pose proof (count_of_le (fun _ : option Decimal => true) strengths). lia.
Qed.

(** Stronger means a lower rank. *)
Lemma rank_lt strengths v w : Some w ∈ strengths ->
  (rank_of strengths (Some w) < rank_of strengths (Some v) <-> (v < w)%Qc).
Proof.
  intros Hw. unfold rank_of.
  assert (Hmono : forall a b : Decimal, (a <= b)%Qc -> forall y, beats y (Some b) = true -> beats y (Some a) = true).
  { intros a b Hab [y|]; [|done]. cbn. rewrite !dec_ltb_lt. intros. dec_order. }
  split; intros H.
  - apply Qcnot_le_lt. intros Hle.
    pose proof (count_of_mono _ _ strengths (Hmono w v Hle)). lia.
  - enough (count_of (fun other => beats other (Some w)) strengths
      < count_of (fun other => beats other (Some v)) strengths) by lia.
    apply (count_of_lt _ _ _ (Some w)).
    + apply Hmono. dec_order.
    + done.
    + cbn. unfold dec_ltb. rewrite bool_decide_false by dec_order. done.
    + cbn. by apply dec_ltb_lt.
Qed.

Lemma rank_of_perm l l' v : l ≡ₚ l' -> rank_of l v = rank_of l' v.
Proof. intros H. unfold rank_of. by rewrite (count_of_perm _ _ _ H). Qed.

Definition percentile_of (count rank : Z) : option Decimal :=
  if count <? 2 then None else Some (ctx_round (dec (count - rank) 0 / dec (count - 1) 0)%Qc).

Lemma apply_ranking_ok l : apply_ranking l
  = Ok (py_sorted strength_leb ((fun s =>
      let rank := rank_of (ss_directional_strength <$> l) (ss_directional_strength s) in
      with_rank s rank (percentile_of (Z.of_nat (length l)) rank)) <$> l)).
Proof.
  unfold apply_ranking. erewrite traverse_pure; [reflexivity|]. apply Forall_forall. intros s _.
  unfold percentile_of. destruct (Z.ltb_spec (Z.of_nat (length l)) 2); [done|].
  rewrite ctx_div_ok; [done|]. apply pos_nonzero. rewrite int_value. unfold Qlt. cbn. lia.
Qed.

Lemma percentile_bounds count rank p : 1 <= rank <= count -> percentile_of count rank = Some p ->
  2 <= count /\ (0 <= p)%Qc /\ (p <= 1)%Qc.
Proof.
  unfold percentile_of. intros Hr. destruct (Z.ltb_spec count 2) as [|Hc]; [done|]. intros [= <-].
  split; [done|]. pose proof (ratio_value (count - rank) (count - 1) ltac:(lia)) as Hv.
  assert (Hd : (0 < inject_Z (count - 1))%Q) by (unfold Qlt; cbn; lia).
  assert (Hn : (0 <= inject_Z (count - rank))%Q) by (unfold Qle; cbn; lia).
  assert (Hnd : (inject_Z (count - rank) <= inject_Z (count - 1))%Q) by (rewrite <- Zle_Qle; lia).
  split.
  - apply ctx_round_nonneg. unfold Qcle. rewrite Hv. change (this 0%Qc) with 0%Q.
    apply Qle_shift_div_l; [done|]. lra.
  - assert (H1 : ctx_round 1%Qc = 1%Qc) by (vm_compute; by apply Qc_is_canon).
    rewrite <- H1. apply ctx_round_mono. unfold Qcle. rewrite Hv. change (this 1%Qc) with 1%Q.
    apply Qle_shift_div_r; [done|]. lra.
Qed.

Lemma strength_leb_total a b : strength_leb a b = true \/ strength_leb b a = true.
Proof.
  unfold strength_leb. destruct (dec_ltb _ _), (dec_ltb (strength_key b) (strength_key a)); auto.
  apply string_leb_total.
Qed.

Lemma strength_leb_iff a b : strength_leb a b = true <-> (strength_key a < strength_key b)%Qc
  \/ strength_key a = strength_key b /\ identity_leb a b = true.
Proof.
  unfold strength_leb, identity_leb, dec_ltb. case_bool_decide as H1; [by split; auto|]. case_bool_decide as H2.
  - split; [done|]. intros [?|[Hk _]]; [contradiction|]. rewrite Hk in H2. by apply Qclt_not_eq in H2.
  - split; [|by intros [?|[_ ?]]]. intros Hle. right. split; [|done].
    apply Qcle_antisym; by apply Qcnot_lt_le.
Qed.

Lemma strength_leb_trans a b c : strength_leb a b = true -> strength_leb b c = true -> strength_leb a c = true.
Proof.
  rewrite !strength_leb_iff. intros [H1|[H1 I1]] [H2|[H2 I2]]; rewrite ?H1, <- ?H2 in *; auto.
  - left. dec_order.
  - right. split; [done|]. by eapply string_leb_trans.
Qed.

Lemma identity_leb_total a b : identity_leb a b = true \/ identity_leb b a = true.
Proof. apply string_leb_total. Qed.
Lemma identity_leb_trans a b c : identity_leb a b = true -> identity_leb b c = true -> identity_leb a c = true.
Proof. apply string_leb_trans. Qed.

(** ** Unique identities *)

Lemma unique_identity (l : list StockSectorMetrics) a b : NoDup (ss_identity <$> l) -> a ∈ l -> b ∈ l ->
  ss_identity a = ss_identity b -> a = b.
Proof.
  intros Hn [i Hi]%list_elem_of_lookup [j Hj]%list_elem_of_lookup Heq.
  assert (i = j) as ->.
  { eapply NoDup_lookup; [exact Hn| |]; rewrite list_lookup_fmap; [by rewrite Hi|rewrite Hj; cbn; by rewrite Heq]. }
  congruence.
Qed.

Lemma identity_sort_unique l l' : NoDup (ss_identity <$> l) -> l ≡ₚ l' ->
  py_sorted identity_leb l = py_sorted identity_leb l'.
Proof.
  intros Hn. apply py_sorted_unique; [apply identity_leb_total|apply identity_leb_trans|].
  intros a b Ha Hb H1 H2. apply (unique_identity l); [done..|]. by apply String.leb_antisym.
Qed.

Lemma rank_sort_unique l l' : NoDup (ss_identity <$> l) -> l ≡ₚ l' ->
  py_sorted strength_leb l = py_sorted strength_leb l'.
Proof.
  intros Hn. apply py_sorted_unique; [apply strength_leb_total|apply strength_leb_trans|].
  intros a b Ha Hb H1 H2. apply (unique_identity l); [done..|].
  apply strength_leb_iff in H1, H2. destruct H1 as [H1|[H1 I1]], H2 as [H2|[H2 I2]].
  - exfalso. dec_order.
  - exfalso. rewrite H2 in H1. by apply Qclt_not_eq in H1.
  - exfalso. rewrite H1 in H2. by apply Qclt_not_eq in H2.
  - by apply String.leb_antisym.
Qed.

(** * The ranking *)

(** Observations of the sector and date of the evidence, each instrument once. *)
Definition ranking_scope (m : SectorMetrics) (os : list ConstituentObservation) : Prop :=
  NoDup (ob_identity <$> os)
  /\ forall o, o ∈ os -> observation_valid o /\ ob_sector_id o = mx_sector_id m
       /\ ob_trading_date o = mx_trading_date m.

Lemma validate_ok m os : forall seen, validate m seen os = Ok tt <->
  (NoDup (ob_identity <$> os) /\ forall o, o ∈ os -> (ob_identity o ∉ seen)
     /\ ob_sector_id o = mx_sector_id m /\ ob_trading_date o = mx_trading_date m).
Proof.
  induction os as [|o os IH]; intros seen; cbn [validate fmap list_fmap].
  - split; [intros _; split; [constructor|by intros o ?%not_elem_of_nil]|done].
  - unfold context_check. destruct (decide (ob_identity o ∈ seen)) as [Hin|Hin].
    { rewrite (bool_decide_true _ Hin). cbn [raise_if mbind result_bind]. split; [done|]. intros [_ H]. by destruct (H o ltac:(left)) as [? _]. }
    rewrite (bool_decide_false _ Hin). cbn [raise_if mbind result_bind].
    case_bool_decide as Hs; cbn [raise_if mbind result_bind negb].
    2:{ split; [done|]. intros [_ H]. by destruct (H o ltac:(left)) as (_ & ? & _). }
    destruct (Z.eqb_spec (ob_trading_date o) (mx_trading_date m)) as [Hd|Hd]; cbn [raise_if mbind result_bind negb].
    2:{ split; [done|]. intros [_ H]. by destruct (H o ltac:(left)) as (_ & _ & ?). }
    rewrite IH, NoDup_cons. setoid_rewrite elem_of_cons. setoid_rewrite list_elem_of_fmap. split.
    + intros [Hn Hall]. split_and!; [|done|].
      * intros (o' & Heq & Ho'). destruct (Hall o' Ho') as [Hne _]. naive_solver.
      * intros o' [->|Ho']; [done|]. destruct (Hall o' Ho'). naive_solver.
    + intros [[Hne Hn] Hall]. split; [done|]. intros o' Ho'. destruct (Hall o' ltac:(by right)).
      split; [|done]. intros [Heq|?]; [|done]. apply Hne. by exists o'.
Qed.

Section Ranking.
Variables (m : SectorMetrics) (policy : CalculationPolicy).

Definition fresh_at (os : list ConstituentObservation) : list ConstituentObservation :=
  filter (fun o => is_fresh (mx_evaluation_timestamp m) (freshness_limit policy) o = true) os.
Definition stale_at (os : list ConstituentObservation) : list ConstituentObservation :=
  filter (fun o => is_fresh (mx_evaluation_timestamp m) (freshness_limit policy) o = false) os.

Definition ranked_of (os : list ConstituentObservation) : list StockSectorMetrics :=
  let stocks := stock_of m policy true <$> fresh_at os in
  if is_directional (mx_raw_direction m) then
    (fun s => let rank := rank_of (ss_directional_strength <$> stocks) (ss_directional_strength s) in
              with_rank s rank (percentile_of (Z.of_nat (length stocks)) rank)) <$> stocks
  else stocks.

Definition ranking_leb : StockSectorMetrics -> StockSectorMetrics -> bool :=
  if is_directional (mx_raw_direction m) then strength_leb else identity_leb.

(** The ranking in closed form. *)
Lemma ranking_ok os : ranking_scope m os -> rank_sector_constituents m os policy = Ok {|
  sk_sector_id := mx_sector_id m; sk_trading_date := mx_trading_date m;
  sk_evaluation_timestamp := mx_evaluation_timestamp m; sk_sector_raw_direction := mx_raw_direction m;
  sk_directional_ranking_available := is_directional (mx_raw_direction m);
  sk_eligible_count := Z.of_nat (length (fresh_at os));
  sk_ranked_stocks := py_sorted ranking_leb (ranked_of os);
  sk_excluded_stocks := py_sorted identity_leb (stock_of m policy false <$> stale_at os) |}.
Proof using Type.
  intros [Hn Hall]. unfold rank_sector_constituents.
  assert (Hv : forall P `{!forall x, Decision (P x)}, Forall observation_valid (filter P os)).
  { intros P ?. apply Forall_forall. intros o [_ Ho]%list_elem_of_filter. by apply Hall. }
  rewrite (proj2 (validate_ok m os [])).
  2:{ split; [done|]. intros o Ho. split; [apply not_elem_of_nil|]. by apply Hall. }
  cbn [mbind result_bind]. fold (fresh_at os) (stale_at os). rewrite !base_all_ok by apply Hv.
  cbn [mbind result_bind]. unfold ranked_of, ranking_leb. rewrite length_fmap.
  destruct (is_directional (mx_raw_direction m)); [|done]. rewrite apply_ranking_ok. cbn [mbind result_bind].
  by rewrite length_fmap.
Qed.

Lemma ranked_identities os : ss_identity <$> ranked_of os = ob_identity <$> fresh_at os.
Proof using Type.
  unfold ranked_of. destruct (is_directional _); rewrite <- !list_fmap_compose; by apply list_fmap_ext.
Qed.

Lemma ranked_elem os s : s ∈ ranked_of os -> exists o, o ∈ fresh_at os /\ ss_identity s = ob_identity o
  /\ ss_eligible s = true /\ ss_exclusion_reason s = None
  /\ ss_directional_strength s = directional_strength (cm_intraday_return (metrics_of (direction_epsilon policy) o))
       (mx_raw_direction m).
Proof using Type.
  unfold ranked_of. destruct (is_directional _); rewrite ?list_elem_of_fmap.
  - intros (s' & -> & (o & -> & Ho)%list_elem_of_fmap). by exists o.
  - intros (o & -> & Ho). by exists o.
Qed.

Lemma ranked_strengths os : ss_directional_strength <$> ranked_of os
  = ss_directional_strength <$> (stock_of m policy true <$> fresh_at os).
Proof using Type. unfold ranked_of. destruct (is_directional _); [|done]. by rewrite <- list_fmap_compose. Qed.

(** A stock of a directional ranking carries its strength and the rank of it. *)
Lemma ranked_rank os s : is_directional (mx_raw_direction m) = true -> s ∈ ranked_of os ->
  exists v, ss_directional_strength s = Some v /\ ctx_round v = v
  /\ Some v ∈ ss_directional_strength <$> ranked_of os
  /\ ss_within_sector_rank s = Some (rank_of (ss_directional_strength <$> ranked_of os) (Some v))
  /\ ss_within_sector_percentile s = percentile_of (Z.of_nat (length (ranked_of os)))
       (rank_of (ss_directional_strength <$> ranked_of os) (Some v)).
Proof using Type.
  intros Hd Hs. rewrite ranked_strengths. pose proof Hs as Hin. apply (list_elem_of_fmap_2 ss_directional_strength) in Hin.
  rewrite ranked_strengths in Hin. revert Hs. unfold ranked_of. rewrite Hd, length_fmap.
  intros (s' & -> & Hs')%list_elem_of_fmap. pose proof Hs' as (o & -> & _)%list_elem_of_fmap.
  destruct (strength_some m policy true o Hd) as (v & Hv & Hr). exists v. cbn [with_rank ss_directional_strength
    ss_within_sector_rank ss_within_sector_percentile] in *. rewrite Hv in *. split_and!; try done. by rewrite !length_fmap.
Qed.

Lemma strength_key_some s v : ss_directional_strength s = Some v -> ctx_round v = v -> strength_key s = (- v)%Qc.
Proof using Type.
  intros Hs Hr. unfold strength_key, or_zero. rewrite Hs. unfold ctx_neg.
  destruct (dec_eqb v (dec 0 0)) eqn:E; [apply dec_eqb_eq in E; subst v|]; by rewrite ctx_round_opp, Hr.
Qed.

(** One place before another in a directional ranking. *)
Definition ranked_before (a b : StockSectorMetrics) : Prop :=
  exists i j, ss_within_sector_rank a = Some i /\ ss_within_sector_rank b = Some j
  /\ (i < j \/ i = j /\ identity_leb a b = true).

Lemma ranked_order os a b : is_directional (mx_raw_direction m) = true -> a ∈ ranked_of os -> b ∈ ranked_of os ->
  strength_leb a b = true -> ranked_before a b.
Proof using Type.
  intros Hd Ha Hb. destruct (ranked_rank os a Hd Ha) as (v & Hv & Hrv & Hinv & Hrank & _).
  destruct (ranked_rank os b Hd Hb) as (w & Hw & Hrw & Hinw & Hrank' & _).
  rewrite strength_leb_iff, (strength_key_some _ _ Hv Hrv), (strength_key_some _ _ Hw Hrw).
  intros Hle. eexists _, _. split_and!; [done|done|]. destruct Hle as [Hlt|[Heq Hi]].
  - left. apply rank_lt; [done|]. unfold Qclt in *. rewrite !this_opp in Hlt. lra.
  - right. split; [|done]. apply (f_equal Qcopp) in Heq. rewrite !Qcopp_involutive in Heq. by rewrite Heq.
Qed.

(** On observations of the sector and date, each instrument once, the ranking
    never fails.  The ranked stocks are the fresh observations and the excluded ones
    the stale, so every observation is placed exactly once.  In a bullish or bearish
    sector every ranked stock has a strength, its rank is one more than the number
    of strictly stronger stocks, a percentile lies between 0 and 1, and the stocks
    are listed by rank with ties by identity; in any other sector nothing is ranked
    and the stocks are listed by identity. *)
Theorem ranking_correct os : ranking_scope m os -> exists r,
  rank_sector_constituents m os policy = Ok r
  /\ ss_identity <$> sk_ranked_stocks r ≡ₚ ob_identity <$> fresh_at os
  /\ ss_identity <$> (sk_ranked_stocks r ++ sk_excluded_stocks r) ≡ₚ ob_identity <$> os
  /\ sk_eligible_count r = Z.of_nat (length (sk_ranked_stocks r))
  /\ Forall (fun s => ss_eligible s = true /\ ss_exclusion_reason s = None) (sk_ranked_stocks r)
  /\ Forall (fun s => ss_eligible s = false /\ ss_exclusion_reason s = Some STALE
       /\ ss_within_sector_rank s = None) (sk_excluded_stocks r)
  /\ (is_directional (mx_raw_direction m) = true ->
       Forall (fun s => is_Some (ss_directional_strength s)
         /\ ss_within_sector_rank s = Some (1 + count_of (fun t =>
              beats (ss_directional_strength t) (ss_directional_strength s)) (sk_ranked_stocks r))
         /\ forall p, ss_within_sector_percentile s = Some p -> (0 <= p)%Qc /\ (p <= 1)%Qc) (sk_ranked_stocks r)
       /\ StronglySorted ranked_before (sk_ranked_stocks r))
  /\ (is_directional (mx_raw_direction m) = false ->
       Forall (fun s => ss_within_sector_rank s = None) (sk_ranked_stocks r)
       /\ StronglySorted (fun a b => identity_leb a b = true) (sk_ranked_stocks r)).
Proof using Type.
  intros Hs. eexists. split; [by apply ranking_ok|]. cbn. rewrite !Forall_py_sorted. split_and!.
  - by rewrite py_sorted_perm, ranked_identities.
  - rewrite fmap_app, !py_sorted_perm, ranked_identities, <- list_fmap_compose.
    rewrite (list_fmap_ext (ss_identity ∘ stock_of m policy false) ob_identity (stale_at os)) by done.
    rewrite <- fmap_app. f_equiv. unfold fresh_at, stale_at. apply filter_split_perm.
  - rewrite length_py_sorted, <- (length_fmap ss_identity (ranked_of os)), ranked_identities. by rewrite length_fmap.
  - apply Forall_forall. intros s Hin. by destruct (ranked_elem os s Hin) as (o & _ & _ & ? & ? & _).
  - apply Forall_forall. by intros s (o & -> & _)%list_elem_of_fmap.
  - intros Hd. unfold ranking_leb. rewrite Hd. split.
    + apply Forall_forall. intros s Hin. destruct (ranked_rank os s Hd Hin) as (v & Hv & _ & Hinv & Hrank & Hp).
      rewrite Hv. split_and!; [done| |].
      * rewrite Hrank, (count_of_perm _ _ _ (py_sorted_perm strength_leb (ranked_of os))). unfold rank_of. by rewrite count_of_fmap.
      * intros p Hsome. rewrite Hp in Hsome. apply percentile_bounds in Hsome as (_ & ?); [done|].
        rewrite <- (length_fmap ss_directional_strength). by apply rank_bounds.
    + eapply StronglySorted_elem_impl; [|apply py_sorted_sorted; [apply strength_leb_total|apply strength_leb_trans]].
      intros a b. rewrite !elem_of_py_sorted. by apply ranked_order.
  - intros Hd. unfold ranking_leb. rewrite Hd. split.
    + apply Forall_forall. unfold ranked_of. rewrite Hd. by intros s (o & -> & _)%list_elem_of_fmap.
    + apply py_sorted_sorted; [apply identity_leb_total|apply identity_leb_trans].
Qed.

(** The ranking does not depend on the order of the observations at all: over a
    permutation of them the result is the same, list for list. *)
Theorem ranking_order_independent os os' : ranking_scope m os -> os ≡ₚ os' ->
  rank_sector_constituents m os policy = rank_sector_constituents m os' policy.
Proof using Type.
  intros Hs Hp. assert (Hs' : ranking_scope m os').
  { destruct Hs as [Hn Hall]. split; [by rewrite <- Hp|]. intros o Ho. apply Hall. by rewrite Hp. }
  rewrite !ranking_ok by done.
  assert (Hf : fresh_at os ≡ₚ fresh_at os') by (unfold fresh_at; by rewrite Hp).
  assert (Hst : stale_at os ≡ₚ stale_at os') by (unfold stale_at; by rewrite Hp).
  assert (Hfn : forall P `{!forall x, Decision (P x)}, NoDup (ob_identity <$> filter P os)).
  { intros P ?. destruct Hs as [Hn _]. eapply sublist_NoDup; [exact Hn|apply fmap_sublist, sublist_filter]. }
  assert (Hr : ranked_of os ≡ₚ ranked_of os').
  { unfold ranked_of. destruct (is_directional _); [|by rewrite Hf].
    assert (Hl : stock_of m policy true <$> fresh_at os ≡ₚ stock_of m policy true <$> fresh_at os') by (by rewrite Hf).
    etrans; [apply fmap_Permutation, Hl|]. apply Permutation_refl', list_fmap_ext. intros _ s _. cbn zeta.
    by rewrite (rank_of_perm _ _ _ (fmap_Permutation _ _ _ Hl)), (Permutation_length Hl). }
  assert (py_sorted ranking_leb (ranked_of os) = py_sorted ranking_leb (ranked_of os')) as ->.
  { unfold ranking_leb. destruct (is_directional _).
    - apply rank_sort_unique; [|done]. rewrite ranked_identities. apply Hfn.
    - apply identity_sort_unique; [|done]. rewrite ranked_identities. apply Hfn. }
  rewrite (Permutation_length Hf), (identity_sort_unique _ (stock_of m policy false <$> stale_at os')); [done| |].
  - rewrite <- list_fmap_compose. apply Hfn.
  - by rewrite Hst.
Qed.

End Ranking.

(** * A concrete ranking *)

Definition sample_metrics : SectorMetrics := {|
  mx_sector_id := "IT"; mx_trading_date := 20500; mx_evaluation_timestamp := 1000000000;
  mx_expected_count := 5; mx_valid_count := 3; mx_stale_count := 1; mx_missing_count := 1;
  mx_invalid_count := 0; mx_coverage_ratio := dec 6 1;
  mx_breadth := {| br_valid_count := 3; br_advance_count := 2; br_decline_count := 1;
    br_unchanged_count := 0; br_advance_ratio := None; br_decline_ratio := None;
    br_unchanged_ratio := None; br_net_breadth := None |};
  mx_median_overnight_return := Some (dec 1 2); mx_median_intraday_return := Some (dec 2 2);
  mx_median_total_return := Some (dec 3 2); mx_mad_intraday_return := Some (dec 1 2);
  mx_iqr_intraday_return := None; mx_directional_agreement := None;
  mx_directional_participant_count := 2; mx_directional_participation_ratio := None;
  mx_raw_direction := BULLISH; mx_universe_proxy_intraday_return := None;
  mx_relative_strength := None; mx_constituents := [] |}.

Lemma sample_ranking_scope : ranking_scope sample_metrics sample_observations.
Proof.
  destruct sample_scope as [Hn Hall]. split; [done|]. intros o Ho. destruct (Hall o Ho) as (Hv & Hs & _ & Hd).
  split_and!; [done|rewrite Hs; vm_compute; reflexivity|rewrite Hd; vm_compute; reflexivity].
Qed.

Lemma ranking_correct_witness : exists r,
  rank_sector_constituents sample_metrics sample_observations sample_policy = Ok r
  /\ ss_identity <$> sk_ranked_stocks r = ["NSE:TCS"; "NSE:INFY"; "NSE:WIPRO"]
  /\ StronglySorted ranked_before (sk_ranked_stocks r).
Proof.
  destruct (ranking_correct sample_metrics sample_policy sample_observations sample_ranking_scope)
    as (r & Hr & _ & _ & _ & _ & _ & Hd & _).
  exists r. split_and!; [done| |apply Hd; vm_compute; reflexivity].
  assert (E : (fun x => match x with Ok x => ss_identity <$> sk_ranked_stocks x | Raise _ => [] end)
    (rank_sector_constituents sample_metrics sample_observations sample_policy)
    = ["NSE:TCS"; "NSE:INFY"; "NSE:WIPRO"]) by (vm_compute; reflexivity).
  by rewrite Hr in E.
Defined.

Lemma ranking_order_independent_witness :
  rank_sector_constituents sample_metrics sample_observations sample_policy
  = rank_sector_constituents sample_metrics (reverse sample_observations) sample_policy.
Proof.
  exact (ranking_order_independent sample_metrics sample_policy sample_observations (reverse sample_observations)
    sample_ranking_scope (symmetry (reverse_Permutation _))).
Defined.
