(* ===== verification/SectorShadow.v ===== *)
(** The sector shadow runtime, services/sector_intelligence: the bounded state of the
    latest observation of every expected instrument, the observer that fills it from
    market contexts, and the evaluator that turns a coherent copy of it into one
    snapshot of every sector.

    The evaluation is two steps, the copy and the rest, because an awaitable hook may
    run between them; other contexts may then arrive in between.  The counter of the
    last duration holds the [timedelta] the code converts to milliseconds, the last
    success the instant the code prints.

    The theorems say that the state holds for every instrument the newest
    observation of the session, that no reachable evaluation fails, that the sectors of
    a snapshot account for every fresh observation exactly once, and that a snapshot
    does not depend on the order in which the observations arrived. *)
From S2P Require Import Prelude DecimalContext PyTime MarketData Session Context.
From S2P Require Import Samples Sector SectorMetrics SectorRanking.

Local Open Scope Z_scope.

(** * State *)

Record LatestObservation : Type := {
  lo_identity : string;
  lo_trading_date : option date;
  lo_observation_timestamp : instant;
  lo_last_price : option Decimal;
  lo_previous_close : option Decimal;
  lo_session_open : option Decimal;
  lo_version : Z;
}.

(** [is_complete] *)
Definition is_complete (o : LatestObservation) : bool :=
  is_not_none (lo_trading_date o) && is_not_none (lo_last_price o)
  && is_not_none (lo_previous_close o) && is_not_none (lo_session_open o).

Inductive RecordOutcome : Type :=
| ACCEPTED | ROLLED | DUPLICATE | REJECTED_UNKNOWN | REJECTED_OUT_OF_ORDER | REJECTED_LATE_DATE.

#[global] Instance RecordOutcome_eq_dec : EqDecision RecordOutcome.
Proof. solve_decision. Defined.

Record ObservationState : Type := {
  os_expected : gset string;
  os_latest : dict string LatestObservation;
  os_trading_date : option date;
}.

Definition mk_observation_state (expected : gset string) : ObservationState :=
  {| os_expected := expected; os_latest := []; os_trading_date := None |}.

Definition set_latest (self : ObservationState) (d : dict string LatestObservation) : ObservationState :=
  {| os_expected := os_expected self; os_latest := d; os_trading_date := os_trading_date self |}.
Definition set_trading_date (self : ObservationState) (d : option date) : ObservationState :=
  {| os_expected := os_expected self; os_latest := os_latest self; os_trading_date := d |}.

Definition is_expected (self : ObservationState) (identity : string) : bool :=
  bool_decide (identity ∈ os_expected self).

(** [_apply_trading_date] *)
Definition apply_trading_date (self : ObservationState) (o : LatestObservation)
    : ObservationState * option RecordOutcome :=
  match lo_trading_date o, os_trading_date self with
  | Some d, Some current =>
      if current <? d then
        (set_latest (set_trading_date self (Some d)) (dict_set (lo_identity o) o []), Some ROLLED)
      else if d <? current then (self, Some REJECTED_LATE_DATE)
      else (self, None)
  | Some d, None => (set_trading_date self (Some d), None)
  | None, _ => (self, None)
  end.

Definition record_observation (self : ObservationState) (o : LatestObservation)
    : ObservationState * RecordOutcome :=
  if negb (bool_decide (lo_identity o ∈ os_expected self)) then (self, REJECTED_UNKNOWN)
  else
    let '(self, date_outcome) := apply_trading_date self o in
    match date_outcome with
    | Some outcome => (self, outcome)
    | None =>
        let stored := set_latest self (dict_set (lo_identity o) o (os_latest self)) in
        match dict_get (lo_identity o) (os_latest self) with
        | Some existing =>
            if lo_observation_timestamp o <? lo_observation_timestamp existing then (self, REJECTED_OUT_OF_ORDER)
            else if lo_observation_timestamp o =? lo_observation_timestamp existing then (stored, DUPLICATE)
            else (stored, ACCEPTED)
        | None => (stored, ACCEPTED)
        end
    end.

Definition coherent_copy (self : ObservationState) : list LatestObservation := snd <$> os_latest self.

(** * Observer *)

Record ShadowDiagnostics : Type := {
  events_received : Z;
  events_accepted : Z;
  events_rejected : Z;
  unknown_instruments : Z;
  duplicate_events : Z;
  out_of_order_events : Z;
  late_trading_date_events : Z;
  rollovers : Z;
  snapshot_attempts : Z;
  snapshot_successes : Z;
  snapshot_failures : Z;
  evaluation_overruns : Z;
  last_evaluation_duration : option timedelta;
  last_success_timestamp : option instant;
}.

Definition no_diagnostics : ShadowDiagnostics := {|
  events_received := 0; events_accepted := 0; events_rejected := 0; unknown_instruments := 0;
  duplicate_events := 0; out_of_order_events := 0; late_trading_date_events := 0; rollovers := 0;
  snapshot_attempts := 0; snapshot_successes := 0; snapshot_failures := 0; evaluation_overruns := 0;
  last_evaluation_duration := None; last_success_timestamp := None |}.

(** The counters of one event: received, accepted, rejected, unknown, duplicate,
    out of order, late and rollover increments. *)
Definition count_event (d : ShadowDiagnostics) (received accepted rejected unknown duplicate
    out_of_order late rolled : Z) : ShadowDiagnostics := {|
  events_received := events_received d + received; events_accepted := events_accepted d + accepted;
  events_rejected := events_rejected d + rejected; unknown_instruments := unknown_instruments d + unknown;
  duplicate_events := duplicate_events d + duplicate;
  out_of_order_events := out_of_order_events d + out_of_order;
  late_trading_date_events := late_trading_date_events d + late; rollovers := rollovers d + rolled;
  snapshot_attempts := snapshot_attempts d; snapshot_successes := snapshot_successes d;
  snapshot_failures := snapshot_failures d; evaluation_overruns := evaluation_overruns d;
  last_evaluation_duration := last_evaluation_duration d;
  last_success_timestamp := last_success_timestamp d |}.

(** [SectorShadowObserver._apply] *)
Definition apply_outcome (d : ShadowDiagnostics) (outcome : RecordOutcome) : ShadowDiagnostics :=
  match outcome with
  | ACCEPTED => count_event d 0 1 0 0 0 0 0 0
  | ROLLED => count_event d 0 1 0 0 0 0 0 1
  | DUPLICATE => count_event d 0 0 0 0 1 0 0 0
  | REJECTED_OUT_OF_ORDER => count_event d 0 0 1 0 0 1 0 0
  | REJECTED_LATE_DATE => count_event d 0 0 1 0 0 0 1 0
  | REJECTED_UNKNOWN => count_event d 0 0 1 1 0 0 0 0
  end.

(** The observation [_record] copies off a context. *)
Definition observation_of (c : MarketContext) : LatestObservation := {|
  lo_identity := instrument_identity (mc_instrument c);
  lo_trading_date := ctx_trading_date <$> mc_session c;
  lo_observation_timestamp := mc_event_timestamp c;
  lo_last_price := last_price <$> mc_latest_tick c;
  lo_previous_close := mc_previous_close c;
  lo_session_open := pso_open_price <$> (mc_latest_tick c ≫= tick_session_ohlc);
  lo_version := mc_version c |}.

(** [SectorShadowObserver._record] *)
Definition observer_record (state : ObservationState) (d : ShadowDiagnostics) (c : MarketContext)
    : ObservationState * ShadowDiagnostics :=
  let d := count_event d 1 0 0 0 0 0 0 0 in
  if negb (is_expected state (instrument_identity (mc_instrument c)))
  then (state, count_event d 0 0 1 1 0 0 0 0)
  else let '(state, outcome) := record_observation state (observation_of c) in (state, apply_outcome d outcome).

(** * Runtime *)

Record SectorShadowSnapshot : Type := {
  sh_trading_date : option date;
  sh_evaluation_timestamp : instant;
  sh_expected_universe_count : Z;
  sh_observed_count : Z;
  sh_complete_count : Z;
  sh_fresh_count : Z;
  sh_stale_count : Z;
  sh_missing_previous_close_count : Z;
  sh_missing_session_open_count : Z;
  sh_missing_last_price_count : Z;
  sh_other_incomplete_count : Z;
  sh_universe_proxy : option UniverseProxyMetrics;
  sh_sector_metrics : list SectorMetrics;
  sh_stock_rankings : list SectorStockRanking;
  sh_runtime_diagnostics : ShadowDiagnostics;
}.

(** [_other_incomplete] *)
Definition other_incomplete (os : list LatestObservation) (td : option date) : Z :=
  count_of (fun o => is_not_none (lo_last_price o) && is_not_none (lo_previous_close o)
    && is_not_none (lo_session_open o)
    && negb (is_not_none (lo_trading_date o) && bool_decide (lo_trading_date o = td))) os.

Definition identity_of_leb (a b : LatestObservation) : bool := String.leb (lo_identity a) (lo_identity b).

(** The complete observations of the session, by identity. *)
Definition complete_sorted (os : list LatestObservation) (td : option date) : list LatestObservation :=
  py_sorted identity_of_leb
    (filter (fun o => is_complete o && bool_decide (lo_trading_date o = td) = true) os).

(** The [ConstituentObservation] of a complete observation; a missing price is refused. *)
Definition constituent (sector_id : string) (td : date) (o : LatestObservation)
    : result ConstituentObservation :=
  match lo_last_price o, lo_previous_close o, lo_session_open o with
  | Some last, Some close, Some open_ =>
      mk_constituent_observation {|
        ob_identity := lo_identity o; ob_sector_id := sector_id; ob_trading_date := td;
        ob_observation_timestamp := lo_observation_timestamp o; ob_last_price := last;
        ob_previous_close := close; ob_session_open := open_ |}
  | _, _, _ => Raise (ValidationError "decimal_type")
  end.

(** The loop of [_build_snapshot] over the complete observations. *)
Fixpoint constituents_for (resolver : MembershipResolver) (td : date) (complete : list LatestObservation)
    : result (list ConstituentObservation) :=
  match complete with
  | [] => Ok []
  | o :: complete =>
      match resolve_primary resolver (lo_identity o) (Some td) with
      | None => constituents_for resolver td complete
      | Some sector_id =>
          c ← constituent sector_id td o;
          rest ← constituents_for resolver td complete;
          Ok (c :: rest)
      end
  end.

(** The loop of [_build_snapshot] over the sectors. *)
Definition sector_evidence (resolver : MembershipResolver) (policy : CalculationPolicy) (td : date)
    (evaluation_time : instant) (by_sector : dict string (list ConstituentObservation))
    (proxy : UniverseProxyMetrics) (sector_id : string) : result (SectorMetrics * SectorStockRanking) :=
  let expected := list_to_set (members_of_primary_sector resolver sector_id (Some td)) in
  let sector_obs := default [] (dict_get sector_id by_sector) in
  metrics ← calculate_sector_metrics sector_id expected sector_obs policy td evaluation_time (Some proxy);
  ranking ← rank_sector_constituents metrics sector_obs policy;
  Ok (metrics, ranking).

Record ShadowRuntime : Type := {
  rt_resolver : MembershipResolver;
  rt_policy : CalculationPolicy;
  rt_expected_universe_count : Z;
  rt_diag : ShadowDiagnostics;
  rt_state : ObservationState;
  rt_latest_snapshot : option SectorShadowSnapshot;
  rt_evaluating : bool;
}.

(** [SectorShadowRuntime(...)] *)
Definition mk_runtime (resolver : MembershipResolver) (policy : CalculationPolicy) : ShadowRuntime :=
  let expected : gset string := list_to_set
    (all_primary_sectors resolver ≫= fun sector_id => members_of_primary_sector resolver sector_id None) in
  {| rt_resolver := resolver; rt_policy := policy;
     rt_expected_universe_count := Z.of_nat (size expected); rt_diag := no_diagnostics;
     rt_state := mk_observation_state expected; rt_latest_snapshot := None; rt_evaluating := false |}.

Definition missing_count (price : LatestObservation -> option Decimal) (os : list LatestObservation) : Z :=
  count_of (fun o => negb (is_not_none (price o))) os.

(** [_build_snapshot] *)
Definition build_snapshot (self : ShadowRuntime) (observations : list LatestObservation)
    (evaluation_time : instant) : result SectorShadowSnapshot :=
  let td := os_trading_date (rt_state self) in
  let complete := complete_sorted observations td in
  evidence ← match td with
    | None => Ok (None, [])
    | Some d =>
        all_constituents ← constituents_for (rt_resolver self) d complete;
        let by_sector := group_by ob_sector_id all_constituents in
        proxy ← calculate_universe_proxy all_constituents (rt_policy self) d evaluation_time;
        sectors ← traverse (sector_evidence (rt_resolver self) (rt_policy self) d evaluation_time by_sector proxy)
          (all_primary_sectors (rt_resolver self));
        Ok (Some proxy, sectors)
    end;
  let fresh_count := match evidence.1 with Some proxy => up_valid_count proxy | None => 0 end in
  Ok {| sh_trading_date := td; sh_evaluation_timestamp := evaluation_time;
        sh_expected_universe_count := rt_expected_universe_count self;
        sh_observed_count := Z.of_nat (length observations);
        sh_complete_count := Z.of_nat (length complete); sh_fresh_count := fresh_count;
        sh_stale_count := Z.of_nat (length complete) - fresh_count;
        sh_missing_previous_close_count := missing_count lo_previous_close observations;
        sh_missing_session_open_count := missing_count lo_session_open observations;
        sh_missing_last_price_count := missing_count lo_last_price observations;
        sh_other_incomplete_count := other_incomplete observations td;
        sh_universe_proxy := evidence.1; sh_sector_metrics := fst <$> evidence.2;
        sh_stock_rankings := snd <$> evidence.2; sh_runtime_diagnostics := rt_diag self |}.

(** The counters of an evaluation: attempts, successes, failures and overruns. *)
Definition count_evaluation (d : ShadowDiagnostics) (attempts successes failures overruns : Z)
    (duration : option timedelta) (success : option instant) : ShadowDiagnostics := {|
  events_received := events_received d; events_accepted := events_accepted d;
  events_rejected := events_rejected d; unknown_instruments := unknown_instruments d;
  duplicate_events := duplicate_events d; out_of_order_events := out_of_order_events d;
  late_trading_date_events := late_trading_date_events d; rollovers := rollovers d;
  snapshot_attempts := snapshot_attempts d + attempts;
  snapshot_successes := snapshot_successes d + successes;
  snapshot_failures := snapshot_failures d + failures;
  evaluation_overruns := evaluation_overruns d + overruns;
  last_evaluation_duration := match duration with Some t => Some t | None => last_evaluation_duration d end;
  last_success_timestamp := match success with Some t => Some t | None => last_success_timestamp d end |}.

Definition with_diag (self : ShadowRuntime) (d : ShadowDiagnostics) (evaluating : bool) : ShadowRuntime := {|
  rt_resolver := rt_resolver self; rt_policy := rt_policy self;
  rt_expected_universe_count := rt_expected_universe_count self; rt_diag := d; rt_state := rt_state self;
  rt_latest_snapshot := rt_latest_snapshot self; rt_evaluating := evaluating |}.

Definition with_state (self : ShadowRuntime) (s : ObservationState) (d : ShadowDiagnostics) : ShadowRuntime := {|
  rt_resolver := rt_resolver self; rt_policy := rt_policy self;
  rt_expected_universe_count := rt_expected_universe_count self; rt_diag := d; rt_state := s;
  rt_latest_snapshot := rt_latest_snapshot self; rt_evaluating := rt_evaluating self |}.

Definition with_snapshot (self : ShadowRuntime) (s : SectorShadowSnapshot) : ShadowRuntime := {|
  rt_resolver := rt_resolver self; rt_policy := rt_policy self;
  rt_expected_universe_count := rt_expected_universe_count self; rt_diag := rt_diag self;
  rt_state := rt_state self; rt_latest_snapshot := Some s; rt_evaluating := rt_evaluating self |}.

(** The observer's callback on a context event. *)
Definition on_context (self : ShadowRuntime) (c : MarketContext) : ShadowRuntime :=
  let '(state, d) := observer_record (rt_state self) (rt_diag self) c in with_state self state d.

(** [evaluate_once] up to the hook; [None] when another evaluation is under way. *)
Definition begin_evaluation (self : ShadowRuntime) : ShadowRuntime * option (list LatestObservation) :=
  if rt_evaluating self
  then (with_diag self (count_evaluation (rt_diag self) 0 0 0 1 None None) true, None)
  else (with_diag self (count_evaluation (rt_diag self) 1 0 0 0 None None) true,
        Some (coherent_copy (rt_state self))).

(** The rest of [evaluate_once]: what it returns is the snapshot the runtime holds. *)
Definition finish_evaluation (self : ShadowRuntime) (observations : list LatestObservation)
    (started evaluation_time finished : instant) : ShadowRuntime :=
  let self :=
    match build_snapshot self observations evaluation_time with
    | Ok snapshot =>
        let self := with_snapshot self snapshot in
        with_diag self (count_evaluation (rt_diag self) 0 1 0 0 None (Some evaluation_time)) true
    | Raise _ => with_diag self (count_evaluation (rt_diag self) 0 0 1 0 None None) true
    end in
  with_diag self (count_evaluation (rt_diag self) 0 0 0 0 (Some (finished - started)) None) false.

(** [evaluate_once] without a hook, as production runs it. *)
Definition evaluate_once (self : ShadowRuntime) (started evaluation_time finished : instant) : ShadowRuntime :=
  let '(self, copied) := begin_evaluation self in
  match copied with
  | Some observations => finish_evaluation self observations started evaluation_time finished
  | None => self
  end.

(** The prices of a context as its validation admits them. *)
Definition context_priced (c : MarketContext) : Prop :=
  (forall t, mc_latest_tick c = Some t -> tick_valid t
     /\ forall a, tick_session_ohlc t = Some a -> ohlc_valid a)
  /\ forall v, mc_previous_close c = Some v -> (0 < v)%Qc.

(** Everything that happens to a runtime, with the copy of the evaluation under way. *)
Inductive shadow_step : ShadowRuntime * option (list LatestObservation)
                     -> ShadowRuntime * option (list LatestObservation) -> Prop :=
| Step_context rt p c : context_priced c -> shadow_step (rt, p) (on_context rt c, p)
| Step_begin rt p : shadow_step (rt, p)
    (match begin_evaluation rt with (rt', Some os) => (rt', Some os) | (rt', None) => (rt', p) end)
| Step_finish rt os started evaluation_time finished :
    shadow_step (rt, Some os) (finish_evaluation rt os started evaluation_time finished, None).

(** * Lemmas *)

(** ** The state *)

Definition opt_pos (p : option Decimal) : Prop := forall v, p = Some v -> (0 < v)%Qc.

Definition priced (o : LatestObservation) : Prop :=
  opt_pos (lo_last_price o) /\ opt_pos (lo_previous_close o) /\ opt_pos (lo_session_open o).

(** What the state promises about what it holds. *)
Record state_ok (s : ObservationState) : Prop := {
  so_keys : NoDup (os_latest s).*1;
  so_entry : forall k o, (k, o) ∈ os_latest s -> lo_identity o = k /\ k ∈ os_expected s /\ priced o
    /\ forall d, lo_trading_date o = Some d -> os_trading_date s = Some d;
}.

Lemma dict_set_elem k v k' v' (d : dict string LatestObservation) : NoDup d.*1 ->
  (k', v') ∈ dict_set k v d -> (k' = k /\ v' = v) \/ (k' <> k /\ (k', v') ∈ d).
Proof.
  intros Hn Hin. apply dict_elem_get in Hin; [|by apply dict_set_NoDup]. rewrite dict_get_set in Hin.
  destruct (decide (k' = k)) as [->|Hne]; [left; naive_solver|]. right. split; [done|]. by apply dict_get_elem.
Qed.

Lemma record_ok s o : state_ok s -> priced o -> state_ok (record_observation s o).1
  /\ os_expected (record_observation s o).1 = os_expected s.
Proof.
  intros Hs Hp. pose proof Hs as [Hn He]. unfold record_observation.
  case_bool_decide as Hin; cbn [negb fst]; [|by split].
  assert (Hset : forall d, (lo_trading_date o = None /\ d = os_trading_date s \/ lo_trading_date o = d /\ is_Some d) ->
    (os_trading_date s = d \/ os_trading_date s = None) ->
    state_ok (set_latest (set_trading_date s d) (dict_set (lo_identity o) o (os_latest s)))
    /\ state_ok (set_trading_date s d)).
  { intros d Hd Hold. split; constructor; cbn; [by apply dict_set_NoDup| |done|].
    - intros k x [[-> ->]|[_ Hx]]%dict_set_elem; [| |done].
      + split_and!; [done..|]. intros d' Hd'. destruct Hd as [[Hd _]|[Hd [? ->]]]; congruence.
      + destruct (He k x Hx) as (? & ? & ? & Hdate). split_and!; [done..|]. intros d' Hd'.
        specialize (Hdate d' Hd'). destruct Hold; congruence.
    - intros k x Hx. destruct (He k x Hx) as (? & ? & ? & Hdate). split_and!; [done..|]. intros d' Hd'.
      specialize (Hdate d' Hd'). destruct Hold; congruence. }
  assert (Hkeep : set_trading_date s (os_trading_date s) = s) by (by destruct s).
  unfold apply_trading_date. destruct (lo_trading_date o) as [d|] eqn:Ed.
  - destruct (os_trading_date s) as [current|] eqn:Ec.
    + destruct (Z.ltb_spec current d).
      * cbn [fst os_expected set_latest set_trading_date]. split; [|done]. constructor; cbn.
        -- apply NoDup_singleton.
        -- intros k x Hx%list_elem_of_singleton. injection Hx as -> ->. split_and!; [done..|]. congruence.
      * destruct (Z.ltb_spec d current); [by split|].
        assert (d = current) as -> by lia. specialize (Hset (Some current) (or_intror (conj eq_refl (ex_intro _ _ eq_refl))) (or_introl eq_refl)).
        rewrite Hkeep in Hset. destruct Hset as [H1 H2].
        destruct (dict_get _ _) as [x|]; [|by split]. split_ifs; by split.
    + specialize (Hset (Some d) (or_intror (conj eq_refl (ex_intro _ _ eq_refl))) (or_intror eq_refl)).
      destruct Hset as [H1 H2]. cbn [os_latest set_trading_date].
      destruct (dict_get _ _) as [x|]; [|by split]. split_ifs; by split.
  - specialize (Hset _ (or_introl (conj eq_refl eq_refl)) (or_introl eq_refl)). rewrite Hkeep in Hset.
    destruct Hset as [H1 H2]. destruct (dict_get _ _) as [x|]; [|by split]. split_ifs; by split.
Qed.

(** ** The newest observation of the session *)

Definition record_all (expected : gset string) (os : list LatestObservation) : ObservationState :=
  fold_left (fun s o => (record_observation s o).1) os (mk_observation_state expected).

(** The observations that count: those of expected instruments, from the last forward
    change of the date on, without those of an earlier date. *)
Definition log_step (expected : gset string) (log : option date * list LatestObservation)
    (o : LatestObservation) : option date * list LatestObservation :=
  let '(current, l) := log in
  if negb (bool_decide (lo_identity o ∈ expected)) then (current, l)
  else match lo_trading_date o, current with
       | Some d, Some c => if c <? d then (Some d, [o]) else if d <? c then (current, l) else (current, l ++ [o])
       | Some d, None => (Some d, l ++ [o])
       | None, _ => (current, l ++ [o])
       end.

Definition session_log (expected : gset string) (os : list LatestObservation)
    : option date * list LatestObservation := fold_left (log_step expected) os (None, []).

(** The last of the observations of [i] with the greatest timestamp. *)
Definition is_newest (i : string) (l : list LatestObservation) (o : LatestObservation) : Prop :=
  exists l1 l2, filter (fun x => lo_identity x = i) l = l1 ++ o :: l2
    /\ Forall (fun x => lo_observation_timestamp x <= lo_observation_timestamp o) l1
    /\ Forall (fun x => lo_observation_timestamp x < lo_observation_timestamp o) l2.

Definition newer (e : option LatestObservation) (o : LatestObservation) : option LatestObservation :=
  match e with
  | Some x => if lo_observation_timestamp o <? lo_observation_timestamp x then Some x else Some o
  | None => Some o
  end.

Definition newest (i : string) (l : list LatestObservation) : option LatestObservation :=
  fold_left newer (filter (fun x => lo_identity x = i) l) None.

Lemma newest_snoc i l o : newest i (l ++ [o])
  = if bool_decide (lo_identity o = i) then newer (newest i l) o else newest i l.
Proof.
  unfold newest. rewrite filter_app, filter_cons. case_bool_decide as H; case_decide; try done.
  - by rewrite fold_left_app.
  - by rewrite filter_nil, app_nil_r.
Qed.

(** The last maximum of a list is one element of it. *)
Lemma last_maximum_unique {A} (f : A -> Z) (l1 l2 k1 k2 : list A) x y : l1 ++ x :: l2 = k1 ++ y :: k2 ->
  Forall (fun z => f z <= f x) l1 -> Forall (fun z => f z < f x) l2 ->
  Forall (fun z => f z <= f y) k1 -> Forall (fun z => f z < f y) k2 -> x = y.
Proof.
  revert k1. induction l1 as [|a l1 IH]; intros [|b k1]; cbn; intros Heq H1 H2 K1 K2; injection Heq; intros Htl ->;
    [done| | |].
  - subst. apply Forall_cons in K1 as [Hb _]. apply Forall_app in H2 as [_ [Hy _]%Forall_cons]. lia.
  - subst. apply Forall_cons in H1 as [Ha _]. apply Forall_app in K2 as [_ [Hx _]%Forall_cons]. lia.
  - apply Forall_cons in H1 as [_ H1], K1 as [_ K1]. by apply (IH k1).
Qed.

(** The fold of [newer] in declarative terms. *)
Lemma newest_fold l o : fold_left newer l None = Some o <->
  exists l1 l2, l = l1 ++ o :: l2
    /\ Forall (fun x => lo_observation_timestamp x <= lo_observation_timestamp o) l1
    /\ Forall (fun x => lo_observation_timestamp x < lo_observation_timestamp o) l2.
Proof.
  assert (Hone : forall l, (fold_left newer l None = None <-> l = []) /\ forall o, fold_left newer l None = Some o ->
    exists l1 l2, l = l1 ++ o :: l2
      /\ Forall (fun x => lo_observation_timestamp x <= lo_observation_timestamp o) l1
      /\ Forall (fun x => lo_observation_timestamp x < lo_observation_timestamp o) l2).
  { clear. induction l as [|x l [IHn IH]] using rev_ind; [by split|]. rewrite fold_left_app. cbn [fold_left].
    destruct (fold_left newer l None) as [e|]; cbn [newer].
    - destruct (IH e eq_refl) as (l1 & l2 & -> & H1 & H2).
      destruct (Z.ltb_spec (lo_observation_timestamp x) (lo_observation_timestamp e)).
      + split; [split; [done|by intros [_ ?]%app_nil]|]. intros o [= <-]. exists l1, (l2 ++ [x]).
        split_and!; [by rewrite <- app_assoc|done|]. apply Forall_app. by repeat constructor.
      + split; [split; [done|by intros [_ ?]%app_nil]|]. intros o [= <-]. exists (l1 ++ e :: l2), [].
        split_and!; [done| |constructor]. apply Forall_app. split.
        * eapply Forall_impl; [exact H1|]. cbn. lia.
        * constructor; [done|]. eapply Forall_impl; [exact H2|]. cbn. lia.
    - rewrite (proj1 IHn eq_refl). split; [done|]. intros o [= <-]. by exists [], []. }
  split; [apply Hone|]. intros (l1 & l2 & -> & H1 & H2).
  destruct (fold_left newer (l1 ++ o :: l2) None) as [e|] eqn:E.
  2:{ apply Hone in E. by destruct l1. }
  f_equal. apply Hone in E as (k1 & k2 & Heq & K1 & K2). symmetry.
  apply (last_maximum_unique lo_observation_timestamp l1 l2 k1 k2 o e); done.
Qed.

Lemma record_log expected os : let s := record_all expected os in let log := session_log expected os in
  os_expected s = expected /\ os_trading_date s = log.1 /\ forall i, dict_get i (os_latest s) = newest i log.2.
Proof.
  cbn zeta. induction os as [|o os IH] using rev_ind; [done|]. unfold record_all, session_log in *.
  rewrite !fold_left_app. cbn [fold_left]. set (s := fold_left _ os _) in *.
  destruct (fold_left (log_step expected) os (None, [])) as [current l] eqn:El. cbn [fst snd] in IH.
  destruct IH as (He & Hd & Hl). unfold record_observation, log_step. rewrite He.
  case_bool_decide as Hin; cbn [negb fst snd]; [|by split_and!].
  assert (Hstep : forall s', os_expected s' = expected -> os_latest s' = os_latest s ->
    let r := (let stored := set_latest s' (dict_set (lo_identity o) o (os_latest s')) in
      match dict_get (lo_identity o) (os_latest s') with
      | Some existing => if lo_observation_timestamp o <? lo_observation_timestamp existing then (s', REJECTED_OUT_OF_ORDER)
          else if lo_observation_timestamp o =? lo_observation_timestamp existing then (stored, DUPLICATE)
          else (stored, ACCEPTED)
      | None => (stored, ACCEPTED)
      end).1 in
    os_expected r = expected /\ os_trading_date r = os_trading_date s'
    /\ forall i, dict_get i (os_latest r) = newest i (l ++ [o])).
  { intros s' Hs' Hlat. cbn zeta. rewrite Hlat, Hl.
    assert (Hnew : forall x, newer (newest (lo_identity o) l) o = x ->
      forall i, newest i (l ++ [o]) = if decide (i = lo_identity o) then x else newest i l).
    { intros x <- i. rewrite newest_snoc. case_decide as Hi; [by rewrite Hi, bool_decide_true|].
      by rewrite bool_decide_false by congruence. }
    destruct (newest (lo_identity o) l) as [e|] eqn:E; cbn [newer] in Hnew;
      [destruct (lo_observation_timestamp o <? lo_observation_timestamp e);
        [|destruct (lo_observation_timestamp o =? lo_observation_timestamp e)]|];
      cbn [fst set_latest os_expected os_trading_date os_latest]; (split_and!; [done|done|]); intros i;
      rewrite (Hnew _ eq_refl), ?dict_get_set, ?Hlat, Hl; [|done..].
    case_decide as Hi; [by rewrite Hi|done]. }
  unfold apply_trading_date. rewrite Hd. destruct (lo_trading_date o) as [d|].
  - destruct current as [c|].
    + destruct (c <? d).
      * cbn. split_and!; [done|done|]. intros i. unfold newest. cbn. case_decide; destruct (decide (lo_identity o = i)); (done || congruence).
      * destruct (d <? c); [by split_and!|]. specialize (Hstep s He eq_refl). by rewrite Hd in Hstep.
    + apply (Hstep (set_trading_date s (Some d))); done.
  - specialize (Hstep s He eq_refl). rewrite Hd in Hstep. by destruct current.
Qed.

(** [C23] After any observations the state is exactly the newest ones of the session:
    its date is that of the session log, and an instrument is held with the last of
    its logged observations that has the greatest timestamp, or not at all when it
    has none.  Only expected instruments are held, so there are never more entries
    than expected instruments. *)
Theorem state_keeps_newest expected os : Forall priced os ->
  let s := record_all expected os in
  os_trading_date s = (session_log expected os).1
  /\ (forall i o, dict_get i (os_latest s) = Some o <-> is_newest i (session_log expected os).2 o)
  /\ (length (os_latest s) <= size expected)%nat.
Proof.
  intros Hp. destruct (record_log expected os) as (He & Hd & Hl). cbn zeta. split_and!; [done| |].
  - intros i o. rewrite Hl. apply newest_fold.
  - assert (Hok : state_ok (record_all expected os)).
    { clear He Hd Hl. unfold record_all. induction os as [|o os IH] using rev_ind.
      - constructor; cbn; [constructor|by intros ? ? ?%not_elem_of_nil].
      - apply Forall_app in Hp as [Hp [Ho _]%Forall_cons]. rewrite fold_left_app. cbn.
        by apply record_ok; [apply IH|]. }
    destruct Hok as [Hn Hentry]. rewrite <- (length_fmap fst). rewrite <- (size_list_to_set (C:=gset string)) by done.
    apply subseteq_size. intros k Hk%elem_of_list_to_set. apply list_elem_of_fmap in Hk as ([k' o] & -> & Hin).
    destruct (Hentry _ _ Hin) as (_ & H & _). by rewrite He in H.
Qed.

(** A dated observation that is refused as out of order still sets the date. *)
Theorem rejection_sets_date : exists s o, state_ok s
  /\ (record_observation s o).2 = REJECTED_OUT_OF_ORDER /\ (record_observation s o).1 <> s.
Proof.
  set (at_ d t := {| lo_identity := "NSE:INFY"; lo_trading_date := d; lo_observation_timestamp := t;
    lo_last_price := None; lo_previous_close := None; lo_session_open := None; lo_version := 1 |}).
  exists (record_observation (mk_observation_state {["NSE:INFY"]}) (at_ None 2)).1, (at_ (Some 20500) 1).
  split_and!; [|by vm_compute|].
  - apply record_ok; [constructor; cbn; [constructor|by intros ? ? ?%not_elem_of_nil]|done].
  - intros H. by apply (f_equal os_trading_date) in H.
Qed.

(** ** Sums over a partition *)

Lemma partition_sum {A K} `{EqDecision K} (f : A -> K) (ks : list K) (l : list A) : NoDup ks ->
  (forall x, x ∈ l -> f x ∈ ks) ->
  foldr Z.add 0 ((fun k => Z.of_nat (length (filter (fun x => f x = k) l))) <$> ks) = Z.of_nat (length l).
Proof.
  intros Hn. revert l. induction Hn as [|k ks Hk Hn IH]; intros l Hl; cbn [fmap list_fmap foldr].
  - destruct l as [|x l]; [done|]. by destruct (not_elem_of_nil (f x) (Hl x ltac:(left))).
  - assert (Hsplit : Z.of_nat (length l) = Z.of_nat (length (filter (fun x => f x = k) l))
      + Z.of_nat (length (filter (fun x => f x <> k) l))).
    { clear. induction l as [|x l IH]; [done|]. rewrite !filter_cons. repeat case_decide; cbn [length]; lia || done. }
    rewrite Hsplit, <- (IH (filter (fun x => f x <> k) l)).
    + f_equal. f_equal. apply list_fmap_ext. intros i k' Hk'. do 2 f_equal. rewrite list_filter_filter.
      apply list_filter_iff. intros x. apply list_elem_of_lookup_2 in Hk'. naive_solver.
    + intros x [Hne Hx]%list_elem_of_filter. specialize (Hl x Hx). by apply elem_of_cons in Hl as [|].
Qed.

(** ** Building a snapshot *)

(** A copy of the observations of a state: each instrument once, every price positive. *)
Definition copy_ok (os : list LatestObservation) : Prop :=
  NoDup (lo_identity <$> os) /\ Forall priced os.

Lemma coherent_copy_ok s : state_ok s -> copy_ok (coherent_copy s).
Proof.
  intros [Hn He]. unfold copy_ok, coherent_copy. split.
  - rewrite <- list_fmap_compose. erewrite list_fmap_ext; [exact Hn|]. intros i [k o] Hi. cbn.
    apply list_elem_of_lookup_2 in Hi. by apply He.
  - apply Forall_forall. intros o ([k o'] & -> & Hin)%list_elem_of_fmap. cbn. by apply (He k).
Qed.

Lemma identity_of_leb_total a b : identity_of_leb a b = true \/ identity_of_leb b a = true.
Proof. apply string_leb_total. Qed.
Lemma identity_of_leb_trans a b c : identity_of_leb a b = true -> identity_of_leb b c = true -> identity_of_leb a c = true.
Proof. apply string_leb_trans. Qed.

Lemma NoDup_filter_fmap {A B} (f : A -> B) (P : A -> Prop) `{!forall x, Decision (P x)} (l : list A) :
  NoDup (f <$> l) -> NoDup (f <$> filter P l).
Proof. intros Hn. eapply sublist_NoDup; [exact Hn|]. apply fmap_sublist, sublist_filter. Qed.

Lemma complete_sorted_perm os os' td : NoDup (lo_identity <$> os) -> os ≡ₚ os' ->
  complete_sorted os td = complete_sorted os' td.
Proof.
  intros Hn Hp. unfold complete_sorted.
  apply py_sorted_unique; [apply identity_of_leb_total|apply identity_of_leb_trans| |by rewrite Hp].
  intros x y [_ Hx]%list_elem_of_filter [_ Hy]%list_elem_of_filter H1 H2.
  apply list_elem_of_lookup in Hx as [i Hi], Hy as [j Hj].
  assert (i = j) as ->; [|congruence]. eapply NoDup_lookup; [exact Hn| |]; rewrite list_lookup_fmap.
  - rewrite Hi. cbn. by rewrite (String.leb_antisym _ _ H1 H2).
  - by rewrite Hj.
Qed.

Lemma complete_sorted_ok os td : copy_ok os -> NoDup (lo_identity <$> complete_sorted os td)
  /\ Forall (fun o => priced o /\ is_complete o = true /\ lo_trading_date o = td) (complete_sorted os td).
Proof.
  intros [Hn Hp]. unfold complete_sorted. split.
  - rewrite py_sorted_perm. by apply NoDup_filter_fmap.
  - apply Forall_py_sorted, Forall_forall. intros o [Ho Hin]%list_elem_of_filter. rewrite Forall_forall in Hp.
    zbool. split_and!; [by apply Hp|done|done].
Qed.

Lemma constituent_ok s d o : priced o -> is_complete o = true -> is_empty (lo_identity o) = false ->
  is_empty s = false -> exists c, constituent s d o = Ok c
  /\ ob_identity c = lo_identity o /\ ob_sector_id c = s /\ ob_trading_date c = d /\ observation_valid c.
Proof.
  intros (H1 & H2 & H3) Hc Hi Hs. unfold is_complete in Hc. zbool. unfold constituent, mk_constituent_observation.
  destruct (lo_last_price o) as [last|], (lo_previous_close o) as [close|], (lo_session_open o) as [open_|]; try done.
  cbn [ob_identity ob_sector_id ob_last_price ob_previous_close ob_session_open].
  specialize (H1 _ eq_refl). specialize (H2 _ eq_refl). specialize (H3 _ eq_refl).
  rewrite Hi, Hs, !dec_ltb_true by done. cbn. by eexists.
Qed.

Section Evaluation.
Variables (dataset : SectorMembershipDataset) (resolver : MembershipResolver).
Hypothesis constructed : Forall membership_constructed (ds_memberships dataset).
Hypothesis accepted : mk_membership_resolver dataset = Ok resolver.

Lemma resolved_nonempty i on s : resolve_primary resolver i on = Some s ->
  is_empty i = false /\ is_empty s = false /\ s ∈ all_primary_sectors resolver.
Proof using constructed accepted.
  intros (m & (Hm & <- & Hp & _) & <-)%(resolve_primary_iff _ _ constructed accepted).
  rewrite Forall_forall in constructed. pose proof (constructed m Hm) as Hc.
  unfold membership_constructed, mk_sector_membership in Hc. guards. split_and!; [done|done|].
  by apply (primary_defined _ _ accepted).
Qed.

Lemma sector_ids_NoDup : NoDup (all_primary_sectors resolver).
Proof using accepted.
  destruct (resolver_fields _ _ accepted) as (Hd & _ & _ & _ & _ & Hids).
  unfold all_primary_sectors. rewrite Hids, py_sorted_perm. unfold validate_definitions in Hd.
  apply bind_ok in Hd as (defs & Hc & _). apply collect_definitions_NoDup in Hc.
  rewrite fmap_app in Hc. by apply NoDup_app in Hc as [? _].
Qed.

(** What the loop over the complete observations collects. *)
Definition collected (d : date) (complete : list LatestObservation) (cs : list ConstituentObservation) : Prop :=
  ob_identity <$> cs `sublist_of` lo_identity <$> complete
  /\ Forall (fun c => observation_valid c /\ ob_trading_date c = d
       /\ resolve_primary resolver (ob_identity c) (Some d) = Some (ob_sector_id c)) cs.

Lemma constituents_for_ok d complete :
  Forall (fun o => priced o /\ is_complete o = true /\ lo_trading_date o = Some d) complete ->
  exists cs, constituents_for resolver d complete = Ok cs /\ collected d complete cs.
Proof using constructed accepted.
  induction 1 as [|o complete (Hp & Hc & _) _ (cs & Hcs & Hsub & Hall)]; cbn [constituents_for].
  - exists []. by repeat constructor.
  - destruct (resolve_primary resolver (lo_identity o) (Some d)) as [s|] eqn:E.
    + destruct (resolved_nonempty _ _ _ E) as (Hi & Hs & _).
      destruct (constituent_ok s d o Hp Hc Hi Hs) as (c & -> & Hci & Hcs' & Hcd & Hcv).
      cbn [mbind result_bind]. rewrite Hcs. exists (c :: cs). split; [done|]. split.
      * rewrite !fmap_cons, Hci. by constructor.
      * constructor; [|done]. by rewrite Hci, Hcs', E.
    + exists cs. split; [done|]. split; [|done]. rewrite fmap_cons. by constructor.
Qed.

Lemma collected_scope d complete cs s : NoDup (lo_identity <$> complete) -> collected d complete cs ->
  in_scope s (list_to_set (members_of_primary_sector resolver s (Some d))) d
    (filter (fun c => ob_sector_id c = s) cs).
Proof using constructed accepted.
  intros Hn [Hsub Hall]. split.
  - apply NoDup_filter_fmap. by eapply sublist_NoDup.
  - intros c [Hs Hc]%list_elem_of_filter. rewrite Forall_forall in Hall.
    destruct (Hall c Hc) as (Hv & Hd & Hr). split_and!; [done|done| |done].
    apply elem_of_list_to_set, (members_iff _ _ accepted). rewrite Hs in Hr.
    by apply (resolve_primary_iff _ _ constructed accepted) in Hr.
Qed.

Lemma proxy_ok policy os d t : NoDup (ob_identity <$> os) -> Forall (fun c => observation_valid c /\ ob_trading_date c = d) os ->
  exists p, calculate_universe_proxy os policy d t = Ok p
    /\ up_valid_count p = Z.of_nat (length (fresh_of policy t os)).
Proof using Type.
  intros Hn Hall. unfold calculate_universe_proxy. rewrite Forall_forall in Hall.
  rewrite (proj2 (reject_duplicates_ok os [])) by (split; [done|intros o _; apply not_elem_of_nil]).
  cbn [mbind result_bind]. rewrite (proj2 (for_each_ok _ _)).
  2:{ apply Forall_forall. intros o Ho. destruct (Hall o Ho) as [_ Hd]. by rewrite Hd, Z.eqb_refl. }
  cbn [mbind result_bind]. fold (fresh_of policy t os). rewrite all_metrics_ok.
  2:{ apply Forall_forall. intros o [_ Ho]%list_elem_of_filter. by apply Hall. }
  cbn [mbind result_bind].
  destruct (stat_median_ok (cm_intraday_return <$> (metrics_of (direction_epsilon policy) <$> fresh_of policy t os)))
    as (m & -> & _). by eexists.
Qed.

(** One sector of the snapshot. *)
Lemma sector_evidence_ok policy d t complete cs proxy s : NoDup (lo_identity <$> complete) -> collected d complete cs ->
  exists e, sector_evidence resolver policy d t (group_by ob_sector_id cs) proxy s = Ok e
    /\ mx_sector_id e.1 = s
    /\ mx_valid_count e.1 = Z.of_nat (length (filter (fun c => ob_sector_id c = s) (fresh_of policy t cs)))
    /\ sk_eligible_count e.2 = mx_valid_count e.1.
Proof using constructed accepted.
  intros Hn Hc. pose proof (collected_scope d complete cs s Hn Hc) as Hs. unfold sector_evidence.
  rewrite group_by_get. set (os := filter _ cs) in *.
  destruct (sector_metrics_ok s _ policy d t os (Some proxy) Hs)
    as (m & _ & _ & _ & Hm & _ & _ & _ & _ & _ & _ & _ & _ & Hvalid & _ & _ & _ & Hid & Hd & Ht).
  rewrite Hm. cbn [mbind result_bind]. rewrite ranking_ok.
  2:{ destruct Hs as [Hnd Hall]. split; [done|]. intros o Ho. rewrite Hid, Hd. destruct (Hall o Ho) as (? & ? & _ & ?). done. }
  cbn [mbind result_bind]. eexists. split; [done|]. cbn [fst snd sk_eligible_count]. split_and!; [done| |].
  - rewrite Hvalid. unfold os, fresh_of. do 2 f_equal. rewrite !list_filter_filter. apply list_filter_iff. tauto.
  - unfold fresh_at. by rewrite Ht, Hvalid.
Qed.

(** Building a snapshot from a copy never fails, and the snapshot adds up. *)
Lemma build_snapshot_ok rt os t : rt_resolver rt = resolver -> copy_ok os ->
  exists snapshot, build_snapshot rt os t = Ok snapshot
  /\ mx_sector_id <$> sh_sector_metrics snapshot
     = (if is_not_none (os_trading_date (rt_state rt)) then all_primary_sectors resolver else [])
  /\ sk_eligible_count <$> sh_stock_rankings snapshot = mx_valid_count <$> sh_sector_metrics snapshot
  /\ foldr Z.add 0 (mx_valid_count <$> sh_sector_metrics snapshot) = sh_fresh_count snapshot
  /\ sh_complete_count snapshot = Z.of_nat (length (complete_sorted os (os_trading_date (rt_state rt))))
  /\ sh_observed_count snapshot = Z.of_nat (length os)
  /\ sh_other_incomplete_count snapshot = other_incomplete os (os_trading_date (rt_state rt))
  /\ 0 <= sh_fresh_count snapshot <= sh_complete_count snapshot
  /\ sh_fresh_count snapshot + sh_stale_count snapshot = sh_complete_count snapshot.
Proof using constructed accepted.
  intros Hr Hcopy. unfold build_snapshot. rewrite Hr.
  destruct (complete_sorted_ok os (os_trading_date (rt_state rt)) Hcopy) as [Hn Hall].
  destruct (os_trading_date (rt_state rt)) as [d|]; [|eexists; split; [done|]; cbn; split_and!; done || lia].
  destruct (constituents_for_ok d _ Hall) as (cs & -> & Hc). cbn [mbind result_bind].
  assert (Hcn : NoDup (ob_identity <$> cs)) by (eapply sublist_NoDup; [exact Hn|apply Hc]).
  destruct (proxy_ok (rt_policy rt) cs d t Hcn) as (p & -> & Hp).
  { eapply Forall_impl; [apply Hc|]. by intros c (? & ? & _). }
  cbn [mbind result_bind].
  destruct (traverse_total (sector_evidence resolver (rt_policy rt) d t (group_by ob_sector_id cs) p)
    (fun s e => mx_sector_id e.1 = s
       /\ mx_valid_count e.1 = Z.of_nat (length (filter (fun c => ob_sector_id c = s) (fresh_of (rt_policy rt) t cs)))
       /\ sk_eligible_count e.2 = mx_valid_count e.1) (all_primary_sectors resolver)) as (es & -> & Hes).
  { intros s _. by apply (sector_evidence_ok (rt_policy rt) d t (complete_sorted os (Some d))). }
  cbn [mbind result_bind]. eexists. split; [done|]. cbn.
  assert (Hids : mx_sector_id <$> (fst <$> es) = all_primary_sectors resolver).
  { clear -Hes. induction Hes as [|s e ss es (Hs & _) _ IH]; [done|]. cbn. by rewrite Hs, IH. }
  assert (Helig : sk_eligible_count <$> (snd <$> es) = mx_valid_count <$> (fst <$> es)).
  { clear -Hes. induction Hes as [|s e ss es (_ & _ & He) _ IH]; [done|]. cbn. by rewrite He, IH. }
  assert (Hcounts : mx_valid_count <$> (fst <$> es)
    = (fun s => Z.of_nat (length (filter (fun c => ob_sector_id c = s) (fresh_of (rt_policy rt) t cs))))
        <$> all_primary_sectors resolver).
  { clear -Hes. induction Hes as [|s e ss es (_ & Hv & _) _ IH]; [done|]. cbn. by rewrite Hv, IH. }
  assert (Hlen : (length cs <= length (complete_sorted os (Some d)))%nat).
  { destruct Hc as [Hsub%sublist_length _]. by rewrite !length_fmap in Hsub. }
  pose proof (length_filter (fun o => is_fresh t (freshness_limit (rt_policy rt)) o = true) cs) as Hfl.
  fold (fresh_of (rt_policy rt) t cs) in Hfl.
  split_and!; try done; try lia.
  rewrite Hcounts, Hp. apply partition_sum; [exact sector_ids_NoDup|].
  intros c [_ Hin]%list_elem_of_filter. destruct Hc as [_ Hc]. rewrite Forall_forall in Hc.
  destruct (Hc c Hin) as (_ & _ & Hres). by apply resolved_nonempty in Hres as (_ & _ & ?).
Qed.

Lemma complete_split os td :
  Z.of_nat (length os) = Z.of_nat (length (complete_sorted os td)) + other_incomplete os td
    + count_of (fun o => negb (is_not_none (lo_last_price o) && is_not_none (lo_previous_close o)
                               && is_not_none (lo_session_open o))) os.
Proof using Type.
  unfold complete_sorted, other_incomplete. rewrite length_py_sorted.
  change (Z.of_nat (length (filter (fun o => is_complete o && bool_decide (lo_trading_date o = td) = true) os)))
    with (count_of (fun o => is_complete o && bool_decide (lo_trading_date o = td)) os).
  induction os as [|o os IH]; [done|]. rewrite !count_of_cons. cbn [length]. rewrite Nat2Z.inj_succ.
  unfold is_complete in *.
  destruct (is_not_none (lo_last_price o)), (is_not_none (lo_previous_close o)), (is_not_none (lo_session_open o)),
    (is_not_none (lo_trading_date o)), (bool_decide (lo_trading_date o = td)); cbn [andb negb]; lia.
Qed.

(** A snapshot accounts for everything exactly once.  It has the evidence and the
    ranking of every primary sector in order once the session has a date; the fresh
    observations of the sectors, ranked or not, add up to the fresh observations of
    the universe; every observation held is complete, short of a price, or
    unusable for this session, and the complete ones are fresh or stale. *)
Theorem snapshot_accounts rt os t : rt_resolver rt = resolver -> copy_ok os ->
  exists snapshot, build_snapshot rt os t = Ok snapshot
  /\ mx_sector_id <$> sh_sector_metrics snapshot
     = (if is_not_none (os_trading_date (rt_state rt)) then all_primary_sectors resolver else [])
  /\ sk_eligible_count <$> sh_stock_rankings snapshot = mx_valid_count <$> sh_sector_metrics snapshot
  /\ foldr Z.add 0 (mx_valid_count <$> sh_sector_metrics snapshot) = sh_fresh_count snapshot
  /\ 0 <= sh_fresh_count snapshot <= sh_complete_count snapshot
  /\ sh_fresh_count snapshot + sh_stale_count snapshot = sh_complete_count snapshot
  /\ sh_observed_count snapshot = sh_complete_count snapshot + sh_other_incomplete_count snapshot
       + count_of (fun o => negb (is_not_none (lo_last_price o) && is_not_none (lo_previous_close o)
                                  && is_not_none (lo_session_open o))) os.
Proof using constructed accepted.
  intros Hr Hc. destruct (build_snapshot_ok rt os t Hr Hc) as (s & Hs & H1 & H2 & H3 & H4 & H5 & H6 & H7 & H8).
  exists s. rewrite H4, H5, H6 in *. split_and!; try done; try lia. apply complete_split.
Qed.

(** ** Reachable runtimes *)

Lemma observation_priced c : context_priced c -> priced (observation_of c).
Proof using Type.
  intros [Ht Hc]. unfold priced, opt_pos, observation_of. cbn. split_and!.
  - intros v (t & Htick & ->)%fmap_Some. by apply Ht.
  - done.
  - intros v (a & Ha & ->)%fmap_Some. destruct (mc_latest_tick c) as [t|]; [|done].
    destruct (Ht t eq_refl) as [_ Hohlc]. destruct (Hohlc a Ha). dec_order.
Qed.

(** What holds of a runtime and of the copy of the evaluation under way. *)
Definition shadow_inv (s : ShadowRuntime * option (list LatestObservation)) : Prop :=
  rt_resolver s.1 = resolver /\ state_ok (rt_state s.1)
  /\ rt_evaluating s.1 = is_not_none s.2
  /\ (forall os, s.2 = Some os -> copy_ok os)
  /\ snapshot_failures (rt_diag s.1) = 0
  /\ snapshot_attempts (rt_diag s.1) = snapshot_successes (rt_diag s.1) + (if is_not_none s.2 then 1 else 0)
  /\ 0 <= snapshot_successes (rt_diag s.1)
  /\ (0 < snapshot_successes (rt_diag s.1) -> is_Some (rt_latest_snapshot s.1)).

Lemma observer_record_counts state d c : let d' := (observer_record state d c).2 in
  snapshot_attempts d' = snapshot_attempts d /\ snapshot_successes d' = snapshot_successes d
  /\ snapshot_failures d' = snapshot_failures d.
Proof using Type.
  cbn zeta. unfold observer_record. destruct (is_expected _ _); cbn [negb]; [|done].
  destruct (record_observation state (observation_of c)) as [s o]. by destruct o.
Qed.

Lemma observer_record_state state d c : state_ok state -> priced (observation_of c) ->
  state_ok (observer_record state d c).1.
Proof using Type.
  intros Hs Hp. unfold observer_record. destruct (is_expected _ _); cbn [negb]; [|done].
  pose proof (record_ok state (observation_of c) Hs Hp) as [H _].
  by destruct (record_observation state (observation_of c)) as [s o].
Qed.

Lemma shadow_inv_step s s' : shadow_inv s -> shadow_step s s' -> shadow_inv s'.
Proof using constructed accepted.
  intros (Hr & Hs & Hev & Hcopy & Hf & Ha & Hp & Hl) Hstep. destruct Hstep as [rt p c Hc|rt p|rt os t0 t1 t2];
    cbn [fst snd] in *.
  - unfold on_context. pose proof (observer_record_counts (rt_state rt) (rt_diag rt) c) as (H1 & H2 & H3).
    pose proof (observer_record_state (rt_state rt) (rt_diag rt) c Hs (observation_priced c Hc)) as H4.
    destruct (observer_record (rt_state rt) (rt_diag rt) c) as [st d]. cbn in *.
    unfold shadow_inv. cbn. rewrite H1, H2, H3. by split_and!.
  - unfold begin_evaluation. destruct (rt_evaluating rt) eqn:E; unfold shadow_inv; cbn.
    + destruct p; [|done]. cbn in *. rewrite Hf, Ha. split_and!; try done; lia || (intros; apply Hl; lia).
    + destruct p; [done|]. cbn in *. split_and!; try done; try lia; [|intros; apply Hl; lia].
      intros os [= <-]. by apply coherent_copy_ok.
  - unfold finish_evaluation. destruct (build_snapshot_ok rt os t1 Hr (Hcopy os eq_refl)) as (snap & -> & _).
    unfold shadow_inv. cbn in *. split_and!; done || lia || by eexists.
Qed.

(** [C22] Whatever contexts arrive, also between the copy and the rest of an
    evaluation, no evaluation ever fails: every attempt but the one under way has
    succeeded, and from the first one on there is a snapshot. *)
Theorem evaluation_never_fails policy rt p :
  rtc shadow_step (mk_runtime resolver policy, None) (rt, p) ->
  snapshot_failures (rt_diag rt) = 0
  /\ snapshot_attempts (rt_diag rt) = snapshot_successes (rt_diag rt) + (if is_not_none p then 1 else 0)
  /\ (0 < snapshot_successes (rt_diag rt) -> is_Some (rt_latest_snapshot rt))
  /\ (length (os_latest (rt_state rt)) <= size (os_expected (rt_state rt)))%nat.
Proof using constructed accepted.
  intros Hsteps.
  assert (Hinv : shadow_inv (rt, p)).
  { revert Hsteps. generalize (rt, p). intros s Hsteps.
    assert (Hinit : shadow_inv (mk_runtime resolver policy, None)).
    { unfold shadow_inv. cbn. split_and!; try done; try lia. constructor; cbn; [constructor|by intros ? ? ?%not_elem_of_nil]. }
    induction Hsteps as [|a b c Hab _ IH]; [done|]. apply IH. by eapply shadow_inv_step. }
  destruct Hinv as (_ & [Hn Hentry] & _ & _ & Hf & Ha & _ & Hl). split_and!; [done|done|done|].
  cbn in Hn, Hentry. rewrite <- (length_fmap fst), <- (size_list_to_set (C:=gset string)) by done.
  apply subseteq_size. intros k Hk%elem_of_list_to_set. apply list_elem_of_fmap in Hk as ([k' o] & -> & Hin).
  by destruct (Hentry _ _ Hin) as (_ & ? & _).
Qed.

End Evaluation.

(** A snapshot does not depend on the order in which the observations arrived: a
    copy with the same observations in another order gives the same snapshot, field
    for field. *)
Theorem snapshot_order_independent rt os os' t : NoDup (lo_identity <$> os) -> os ≡ₚ os' ->
  build_snapshot rt os t = build_snapshot rt os' t.
Proof.
  intros Hn Hp. unfold build_snapshot, missing_count, other_incomplete.
  rewrite (complete_sorted_perm os os' _ Hn Hp), (Permutation_length Hp).
  by rewrite !(count_of_perm _ os os' Hp).
Qed.

(** * A concrete runtime *)

Definition sample_latest (i : string) (t : instant) (last open_ : Z) : LatestObservation := {|
  lo_identity := i; lo_trading_date := Some 20500; lo_observation_timestamp := t;
  lo_last_price := Some (dec last 0); lo_previous_close := Some (dec 100 0);
  lo_session_open := Some (dec open_ 0); lo_version := 1 |}.

Definition sample_copy : list LatestObservation :=
  [sample_latest "NSE:RELIANCE" 1000000000 103 101; sample_latest "NSE:INFY" 1000000000 104 101].

Lemma sample_copy_ok : copy_ok sample_copy.
Proof.
  split; [apply (bool_decide_unpack _); vm_compute; exact I|].
  repeat constructor; intros v [= <-]; apply dec_ltb_lt; vm_compute; reflexivity.
Qed.

Definition sample_runtime : ShadowRuntime :=
  with_state (mk_runtime sample_resolver sample_policy)
    (set_trading_date (rt_state (mk_runtime sample_resolver sample_policy)) (Some 20500)) no_diagnostics.

Lemma state_keeps_newest_witness :
  dict_get "NSE:INFY" (os_latest (record_all {["NSE:INFY"]} [sample_latest "NSE:INFY" 5 104 101;
    sample_latest "NSE:INFY" 3 90 101])) = Some (sample_latest "NSE:INFY" 5 104 101).
Proof.
  destruct (state_keeps_newest {["NSE:INFY"]} [sample_latest "NSE:INFY" 5 104 101; sample_latest "NSE:INFY" 3 90 101])
    as (_ & Hl & _).
  - repeat constructor; intros v [= <-]; apply dec_ltb_lt; vm_compute; reflexivity.
  - apply Hl. exists [], [sample_latest "NSE:INFY" 3 90 101]. by repeat constructor.
Defined.

Lemma snapshot_accounts_witness : exists snapshot,
  build_snapshot sample_runtime sample_copy 1000000000 = Ok snapshot
  /\ mx_sector_id <$> sh_sector_metrics snapshot = ["IT"; "OIL"].
Proof.
  destruct (snapshot_accounts sample_dataset sample_resolver sample_dataset_constructed eq_refl
    sample_runtime sample_copy 1000000000 eq_refl sample_copy_ok) as (s & Hs & Hids & _).
  exists s. split; [exact Hs|]. rewrite Hids. vm_compute; reflexivity.
Defined.

Definition sample_context : MarketContext :=
  initial reliance 1 5 5 None None [] None None None (Some (dec 100 0)).

Lemma evaluation_never_fails_witness :
  let rt := evaluate_once (on_context (mk_runtime sample_resolver sample_policy) sample_context) 6 7 8 in
  snapshot_failures (rt_diag rt) = 0 /\ is_Some (rt_latest_snapshot rt).
Proof.
  cbn zeta. pose (rt1 := on_context (mk_runtime sample_resolver sample_policy) sample_context).
  destruct (evaluation_never_fails sample_dataset sample_resolver sample_dataset_constructed eq_refl sample_policy
    (evaluate_once rt1 6 7 8) None) as (Hf & _ & Hs & _).
  - apply (rtc_l _ _ (rt1, None)).
    { apply Step_context. split; [done|]. intros v [= <-]. apply dec_ltb_lt. vm_compute; reflexivity. }
    apply (rtc_l _ _ ((begin_evaluation rt1).1, (begin_evaluation rt1).2)); [apply (Step_begin rt1 None)|].
    apply rtc_once. apply (Step_finish (begin_evaluation rt1).1 (coherent_copy (rt_state rt1)) 6 7 8).
  - split; [exact Hf|]. apply Hs. vm_compute; reflexivity.
Defined.

Lemma snapshot_order_independent_witness :
  build_snapshot sample_runtime sample_copy 1000000000 = build_snapshot sample_runtime (reverse sample_copy) 1000000000.
Proof.
  exact (snapshot_order_independent sample_runtime sample_copy (reverse sample_copy) 1000000000
    (proj1 sample_copy_ok) (symmetry (reverse_Permutation _))).
Defined.
