(* ===== verification/History.v ===== *)
(** Durable daily history, market_history: the daily bar and its validation, the
    coverage of a required number of trading days, and the file store with its
    fail-closed upsert.

    The file system is a map from paths to contents.  Encoding a list of bars as JSON
    and parsing it back are parameters with one law, that a written list parses to
    itself.  A write is two steps, the temporary file and its replacement, so that the
    state between them can be looked at.  Identities are ASCII.

    The theorems say that the walk over the calendar finds the most recent trading
    days within its bound, that the store is a map from instrument, adjustment and date
    to the first bar inserted, whatever the order of the calls, and that an
    interrupted write loses nothing. *)
From Stdlib Require Import Ascii.
From S2P Require Import Prelude PyTime MarketData Session.

Local Open Scope Z_scope.

(** * Models *)

Inductive PriceAdjustment : Type := RAW | ADJUSTED.

#[global] Instance PriceAdjustment_eq_dec : EqDecision PriceAdjustment.
Proof. solve_decision. Defined.

(** [HistoryRequirement(trading_days=...)] *)
Definition mk_history_requirement (trading_days : Z) : result Z :=
  _ ← raise_if (trading_days <? 1) (ValidationError "greater_than_equal");
  Ok trading_days.

Record HistoricalDailyBar : Type := {
  bar_instrument_identity : string;
  bar_trading_date : date;
  bar_open : Decimal;
  bar_high : Decimal;
  bar_low : Decimal;
  bar_close : Decimal;
  bar_volume : Z;
  bar_adjustment : PriceAdjustment;
  bar_source : string;
  bar_source_version : option string;
  bar_ingested_at : instant;
}.

#[global] Instance HistoricalDailyBar_eq_dec : EqDecision HistoricalDailyBar.
Proof. solve_decision. Defined.

(** [HistoricalDailyBar(...)] from stripped texts and an aware timestamp. *)
Definition mk_daily_bar (self : HistoricalDailyBar) : result HistoricalDailyBar :=
  _ ← raise_if (negb (text_ok (bar_instrument_identity self) 128 && text_ok (bar_source self) 128
                      && match bar_source_version self with Some v => text_ok v 64 | None => true end))
    (ValidationError "string_length");
  _ ← raise_if (negb (dec_ltb 0 (bar_open self) && dec_ltb 0 (bar_high self) && dec_ltb 0 (bar_low self)
                      && dec_ltb 0 (bar_close self))) (ValidationError "greater_than");
  _ ← raise_if (bar_volume self <? 0) (ValidationError "greater_than_equal");
  _ ← raise_if (dec_ltb (bar_high self) (bar_low self)) (ValidationError "bar high must be >= low");
  _ ← raise_if (negb (dec_leb (bar_low self) (bar_open self) && dec_leb (bar_open self) (bar_high self)))
    (ValidationError "bar open must be within [low, high]");
  _ ← raise_if (negb (dec_leb (bar_low self) (bar_close self) && dec_leb (bar_close self) (bar_high self)))
    (ValidationError "bar close must be within [low, high]");
  Ok self.

(** [has_same_values] *)
Definition has_same_values (self other : HistoricalDailyBar) : bool :=
  dec_eqb (bar_open self) (bar_open other) && dec_eqb (bar_high self) (bar_high other)
  && dec_eqb (bar_low self) (bar_low other) && dec_eqb (bar_close self) (bar_close other)
  && (bar_volume self =? bar_volume other) && bool_decide (bar_adjustment self = bar_adjustment other).

(** [HistoricalSeries] *)
Record DailySeries : Type := {
  ser_instrument_identity : string;
  ser_adjustment : PriceAdjustment;
  ser_bars : list HistoricalDailyBar;
}.

(** [HistoricalSeries(...)] with its validator *)
Definition mk_daily_series (identity : string) (adjustment : PriceAdjustment)
    (bars : list HistoricalDailyBar) : result DailySeries :=
  let dates := bar_trading_date <$> bars in
  _ ← raise_if (negb (text_ok identity 128)) (ValidationError "string_length");
  _ ← raise_if (negb (bool_decide (dates = py_sorted Z.leb dates)))
    (ValidationError "series bars must be sorted ascending by trading_date");
  _ ← raise_if (negb (length dates =? size (list_to_set dates : gset Z))%nat)
    (ValidationError "series must not contain duplicate trading dates");
  _ ← for_each (fun bar =>
        _ ← raise_if (negb (bool_decide (bar_instrument_identity bar = identity)))
          (ValidationError "all bars must share the series instrument identity");
        raise_if (negb (bool_decide (bar_adjustment bar = adjustment)))
          (ValidationError "series must not mix raw and adjusted bars")) bars;
  Ok {| ser_instrument_identity := identity; ser_adjustment := adjustment; ser_bars := bars |}.

(** [latest] *)
Definition series_latest (self : DailySeries) : option HistoricalDailyBar := last (ser_bars self).

(** [previous_trading_bar] *)
Definition series_previous_trading_bar (self : DailySeries) (before : date) : option HistoricalDailyBar :=
  last (filter (fun bar => bar_trading_date bar < before) (ser_bars self)).

Definition with_bars (self : DailySeries) (bars : list HistoricalDailyBar) : DailySeries :=
  {| ser_instrument_identity := ser_instrument_identity self; ser_adjustment := ser_adjustment self;
     ser_bars := bars |}.

(** [last_n] *)
Definition series_last_n (self : DailySeries) (n : Z) : result DailySeries :=
  _ ← raise_if (n <? 0) (ValueError "n must be non-negative");
  Ok (with_bars self (last_n (Z.to_nat n) (ser_bars self))).

Definition bar_in_range (start stop : date) (bar : HistoricalDailyBar) : bool :=
  (start <=? bar_trading_date bar) && (bar_trading_date bar <=? stop).

(** [between] *)
Definition between (self : DailySeries) (start stop : date) : DailySeries :=
  with_bars self (filter (fun bar => bar_in_range start stop bar = true) (ser_bars self)).

(** * Coverage *)

(** [_MAX_CALENDAR_LOOKBACK_DAYS] *)
Definition MAX_CALENDAR_LOOKBACK_DAYS : nat := 3660.

(** The loop of [required_trading_dates], [fuel] iterations left. *)
Fixpoint required_loop (calendar : TradingCalendar) (trading_days : nat) (fuel : nat) (cursor : date)
    (collected : list date) : list date :=
  match fuel with
  | O => collected
  | S fuel =>
      if (trading_days <=? length collected)%nat then collected
      else required_loop calendar trading_days fuel (cursor - 1)
             (if is_trading_day calendar cursor then collected ++ [cursor] else collected)
  end.

Definition required_trading_dates (calendar : TradingCalendar) (as_of : date) (trading_days : Z)
    : result (list date) :=
  _ ← raise_if (trading_days <? 0) (ValueError "trading_days must be non-negative");
  Ok (py_sorted Z.leb (required_loop calendar (Z.to_nat trading_days) MAX_CALENDAR_LOOKBACK_DAYS as_of [])).

Fixpoint previous_date_loop (calendar : TradingCalendar) (fuel : nat) (cursor : date) : option date :=
  match fuel with
  | O => None
  | S fuel => if is_trading_day calendar cursor then Some cursor else previous_date_loop calendar fuel (cursor - 1)
  end.

Definition previous_trading_date (calendar : TradingCalendar) (before : date) : result date :=
  match previous_date_loop calendar MAX_CALENDAR_LOOKBACK_DAYS (before - 1) with
  | Some d => Ok d
  | None => Raise (ValueError "no trading day within lookback")
  end.

Record HistoricalCoverage : Type := {
  cov_instrument_identity : string;
  cov_required_dates : list date;
  cov_available_dates : list date;
}.

(** [compute_coverage] *)
Definition compute_coverage (identity : string) (required stored : list date) : HistoricalCoverage :=
  {| cov_instrument_identity := identity; cov_required_dates := required;
     cov_available_dates := py_sorted Z.leb (from_keys [] stored) |}.

Definition missing_dates (self : HistoricalCoverage) : list date :=
  filter (fun d => d ∉ cov_available_dates self) (cov_required_dates self).
Definition cov_is_complete (self : HistoricalCoverage) : bool := bool_decide (missing_dates self = []).
Definition required_count (self : HistoricalCoverage) : Z := Z.of_nat (length (cov_required_dates self)).
Definition available_count (self : HistoricalCoverage) : Z :=
  required_count self - Z.of_nat (length (missing_dates self)).
Definition present_dates (self : HistoricalCoverage) : list date :=
  filter (fun d => d ∈ cov_available_dates self) (cov_required_dates self).
Definition earliest_available (self : HistoricalCoverage) : option date := head (present_dates self).
Definition latest_available (self : HistoricalCoverage) : option date := last (present_dates self).

(** * The file store *)

Inductive UpsertOutcome : Type := INSERTED | UNCHANGED | CONFLICT.

#[global] Instance UpsertOutcome_eq_dec : EqDecision UpsertOutcome.
Proof. solve_decision. Defined.

(** [c.isalnum() or c in "._-"] on ASCII *)
Definition path_char (c : ascii) : bool :=
  let n := Z.of_N (N_of_ascii c) in
  (48 <=? n) && (n <=? 57) || (65 <=? n) && (n <=? 90) || (97 <=? n) && (n <=? 122)
  || (n =? 46) || (n =? 95) || (n =? 45).

Fixpoint safe_name (s : string) : string :=
  match s with
  | EmptyString => EmptyString
  | String c s => String (if path_char c then c else "_"%char) (safe_name s)
  end.

Definition adjustment_value (a : PriceAdjustment) : string :=
  match a with RAW => "raw" | ADJUSTED => "adjusted" end.

(** [_path], below the root *)
Definition path (identity : string) (adjustment : PriceAdjustment) : string :=
  (safe_name identity ++ "__" ++ adjustment_value adjustment ++ ".json")%string.

(** [path.with_suffix(path.suffix + ".tmp")] *)
Definition tmp_path (p : string) : string := (p ++ ".tmp")%string.

Definition date_leb (a b : HistoricalDailyBar) : bool := bar_trading_date a <=? bar_trading_date b.

(** [{bar.trading_date: bar for bar in bars}] *)
Definition by_date_of (bars : list HistoricalDailyBar) : dict date HistoricalDailyBar :=
  fold_left (fun d bar => dict_set (bar_trading_date bar) bar d) bars [].

Record UpsertCounts : Type := { n_inserted : Z; n_unchanged : Z; n_conflict : Z }.

Definition no_counts : UpsertCounts := {| n_inserted := 0; n_unchanged := 0; n_conflict := 0 |}.

Definition upsert_count (c : UpsertCounts) (o : UpsertOutcome) : UpsertCounts :=
  match o with
  | INSERTED => {| n_inserted := n_inserted c + 1; n_unchanged := n_unchanged c; n_conflict := n_conflict c |}
  | UNCHANGED => {| n_inserted := n_inserted c; n_unchanged := n_unchanged c + 1; n_conflict := n_conflict c |}
  | CONFLICT => {| n_inserted := n_inserted c; n_unchanged := n_unchanged c; n_conflict := n_conflict c + 1 |}
  end.

(** What one bar does to the bars of its instrument. *)
Definition upsert_bar (by_date : dict date HistoricalDailyBar) (bar : HistoricalDailyBar)
    : dict date HistoricalDailyBar * UpsertOutcome :=
  match dict_get (bar_trading_date bar) by_date with
  | None => (dict_set (bar_trading_date bar) bar by_date, INSERTED)
  | Some prior => (by_date, if has_same_values prior bar then UNCHANGED else CONFLICT)
  end.

(** The inner loop of [upsert_many]: the bars, the counts and [dirty]. *)
Definition upsert_group (group : list HistoricalDailyBar) (by_date : dict date HistoricalDailyBar)
    (counts : UpsertCounts) : dict date HistoricalDailyBar * UpsertCounts * bool :=
  fold_left (fun '(by_date, counts, dirty) bar =>
      let '(by_date, outcome) := upsert_bar by_date bar in
      (by_date, upsert_count counts outcome, dirty || bool_decide (outcome = INSERTED)))
    group (by_date, counts, false).

(** The JSON adapter of a list of bars. *)
Class BarsCodec (Bytes : Type) : Type := {
  dump_json : list HistoricalDailyBar -> Bytes;
  validate_json : Bytes -> result (list HistoricalDailyBar);
  validate_dump : forall bars, validate_json (dump_json bars) = Ok bars;
}.

Section Store.
Context {Bytes : Type} `{!BarsCodec Bytes}.

Abbreviation Files := (gmap string Bytes).

(** [_load] *)
Definition load_bars (fs : Files) (identity : string) (adjustment : PriceAdjustment)
    : result (list HistoricalDailyBar) :=
  match fs !! path identity adjustment with
  | None => Ok []
  | Some content => bars ← validate_json content; Ok (py_sorted date_leb bars)
  end.

(** [_write]: the temporary file, then its replacement of the file. *)
Definition write_tmp (fs : Files) (identity : string) (adjustment : PriceAdjustment)
    (by_date : dict date HistoricalDailyBar) : Files :=
  let ordered := snd <$> py_sorted (fun a b : date * HistoricalDailyBar => a.1 <=? b.1) by_date in
  <[tmp_path (path identity adjustment) := dump_json ordered]> fs.

Definition replace_file (fs : Files) (identity : string) (adjustment : PriceAdjustment) : Files :=
  let p := path identity adjustment in
  match fs !! tmp_path p with
  | Some content => <[p := content]> (delete (tmp_path p) fs)
  | None => fs
  end.

Definition write_bars (fs : Files) (identity : string) (adjustment : PriceAdjustment)
    (by_date : dict date HistoricalDailyBar) : Files :=
  replace_file (write_tmp fs identity adjustment by_date) identity adjustment.

Definition upsert (fs : Files) (bar : HistoricalDailyBar) : result (Files * UpsertOutcome) :=
  existing ← load_bars fs (bar_instrument_identity bar) (bar_adjustment bar);
  let '(by_date, outcome) := upsert_bar (by_date_of existing) bar in
  Ok (if bool_decide (outcome = INSERTED)
      then (write_bars fs (bar_instrument_identity bar) (bar_adjustment bar) by_date, outcome)
      else (fs, outcome)).

Definition group_key (bar : HistoricalDailyBar) : string * PriceAdjustment :=
  (bar_instrument_identity bar, bar_adjustment bar).

(** The outer loop of [upsert_many]; a load that raises ends it, with the groups before
    it written. *)
Fixpoint upsert_groups (groups : dict (string * PriceAdjustment) (list HistoricalDailyBar))
    (fs : Files) (counts : UpsertCounts) : Files * result UpsertCounts :=
  match groups with
  | [] => (fs, Ok counts)
  | ((identity, adjustment), group) :: groups =>
      match load_bars fs identity adjustment with
      | Raise e => (fs, Raise e)
      | Ok existing =>
          let '(by_date, counts, dirty) := upsert_group group (by_date_of existing) counts in
          upsert_groups groups (if dirty then write_bars fs identity adjustment by_date else fs) counts
      end
  end.

Definition upsert_many (fs : Files) (bars : list HistoricalDailyBar) : Files * result UpsertCounts :=
  upsert_groups (group_by group_key bars) fs no_counts.

Definition read_range (fs : Files) (identity : string) (start stop : date) (adjustment : PriceAdjustment)
    : result DailySeries :=
  bars ← load_bars fs identity adjustment;
  mk_daily_series identity adjustment (filter (fun bar => bar_in_range start stop bar = true) bars).

Definition read_last_n (fs : Files) (identity : string) (as_of : date) (n : nat)
    (adjustment : PriceAdjustment) : result DailySeries :=
  bars ← load_bars fs identity adjustment;
  mk_daily_series identity adjustment (last_n n (filter (fun bar => bar_trading_date bar <= as_of) bars)).

Definition available_dates (fs : Files) (identity : string) (adjustment : PriceAdjustment)
    : result (list date) :=
  bars ← load_bars fs identity adjustment; Ok (fmap (M:=list) bar_trading_date bars).

End Store.

(** * Lemmas *)

(** ** The walk over the calendar *)

Lemma StronglySorted_NoDup (l : list Z) : StronglySorted (fun a b => b < a) l -> NoDup l.
Proof.
  induction 1 as [|x l _ IH Hx]; constructor; [|done]. intros Hin. rewrite Forall_forall in Hx.
  specialize (Hx x Hin). cbn in Hx. lia.
Qed.

(** [cursor], the day before it, and so on. *)
Fixpoint days_back (n : nat) (cursor : date) : list date :=
  match n with O => [] | S n => cursor :: days_back n (cursor - 1) end.

Lemma elem_of_days_back n cursor d : d ∈ days_back n cursor <-> cursor - Z.of_nat n < d <= cursor.
Proof.
  revert cursor. induction n as [|n IH]; intros cursor; cbn [days_back].
  - pose proof (not_elem_of_nil d). split; [done|lia].
  - rewrite elem_of_cons, IH. lia.
Qed.

Lemma days_back_sorted n cursor : StronglySorted (fun a b => b < a) (days_back n cursor).
Proof.
  revert cursor. induction n as [|n IH]; intros cursor; cbn [days_back]; constructor; [apply IH|].
  apply Forall_forall. intros d Hd%elem_of_days_back. lia.
Qed.

Definition trading_back (calendar : TradingCalendar) (n : nat) (cursor : date) : list date :=
  filter (fun d => is_trading_day calendar d = true) (days_back n cursor).

Lemma required_loop_take calendar n fuel : forall cursor collected, (length collected <= n)%nat ->
  required_loop calendar n fuel cursor collected = take n (collected ++ trading_back calendar fuel cursor).
Proof.
  unfold trading_back. induction fuel as [|fuel IH]; intros cursor collected Hl; cbn [required_loop days_back].
  - by rewrite filter_nil, app_nil_r, take_ge.
  - destruct (Nat.leb_spec n (length collected)) as [Hn|Hn].
    + rewrite take_app_le, take_ge by lia. done.
    + rewrite filter_cons. destruct (is_trading_day calendar cursor); case_decide; try done.
      * rewrite IH by (rewrite length_app; cbn; lia). by rewrite <- app_assoc.
      * by apply IH.
Qed.

Lemma trading_back_sorted calendar n cursor : StronglySorted (fun a b => b < a) (trading_back calendar n cursor).
Proof.
  eapply StronglySorted_sublist; [apply sublist_filter|apply days_back_sorted].
Qed.

Lemma previous_date_head calendar fuel cursor :
  previous_date_loop calendar fuel cursor = head (trading_back calendar fuel cursor).
Proof.
  unfold trading_back. revert cursor. induction fuel as [|fuel IH]; intros cursor; [done|].
  cbn [previous_date_loop days_back]. rewrite filter_cons. destruct (is_trading_day calendar cursor); by case_decide.
Qed.

Lemma required_dates_sorted calendar as_of trading_days : 0 <= trading_days ->
  exists ds, required_trading_dates calendar as_of trading_days = Ok ds /\ StronglySorted Z.lt ds.
Proof.
  intros Hn. unfold required_trading_dates. rewrite (proj2 (Z.ltb_ge trading_days 0)) by done.
  cbn [raise_if mbind result_bind]. rewrite required_loop_take by (cbn; lia). cbn [app].
  eexists. split; [reflexivity|]. apply (py_sorted_strict id). rewrite list_fmap_id. apply StronglySorted_NoDup.
  eapply StronglySorted_sublist; [apply sublist_take|apply trading_back_sorted].
Qed.

(** [C34] The backward walk over the calendar always ends, after at most 3660 days.  Its
    result is ascending and without repetition, holds trading days not after [as_of] only,
    never more than asked for, and none is skipped: a trading day between a
    returned one and [as_of] is returned as well.  It is short of the number asked for
    only when the 3660 days up to [as_of] have no further trading day. *)
Theorem required_trading_dates_correct calendar as_of trading_days : 0 <= trading_days ->
  exists ds, required_trading_dates calendar as_of trading_days = Ok ds
  /\ StronglySorted (fun a b => a < b) ds
  /\ (forall d, d ∈ ds -> is_trading_day calendar d = true /\ as_of - 3660 < d <= as_of)
  /\ Z.of_nat (length ds) <= trading_days
  /\ (forall d e, e ∈ ds -> e <= d <= as_of -> is_trading_day calendar d = true -> d ∈ ds)
  /\ (Z.of_nat (length ds) < trading_days -> forall d, as_of - 3660 < d <= as_of ->
       is_trading_day calendar d = true -> d ∈ ds).
Proof.
  intros Hn. unfold required_trading_dates. rewrite (proj2 (Z.ltb_ge trading_days 0)) by done.
  cbn [raise_if mbind result_bind]. rewrite required_loop_take by (cbn; lia). cbn [app].
  set (n := Z.to_nat trading_days). pose proof (trading_back_sorted calendar MAX_CALENDAR_LOOKBACK_DAYS as_of) as Hs.
  assert (Hin : forall d, d ∈ trading_back calendar MAX_CALENDAR_LOOKBACK_DAYS as_of <->
    is_trading_day calendar d = true /\ as_of - 3660 < d <= as_of).
  { intros d. unfold trading_back. rewrite list_elem_of_filter, elem_of_days_back. done. }
  revert Hs Hin. generalize (trading_back calendar MAX_CALENDAR_LOOKBACK_DAYS as_of). intros l Hs Hin.
  eexists. split; [reflexivity|]. setoid_rewrite elem_of_py_sorted. rewrite length_py_sorted, length_take.
  split_and!.
  - apply (py_sorted_strict id). rewrite list_fmap_id. apply StronglySorted_NoDup.
    by eapply StronglySorted_sublist; [apply sublist_take|].
  - intros d Hd. apply Hin. eapply elem_of_sublist; [exact Hd|apply sublist_take].
  - lia.
  - intros d e He Hde Ht. rewrite <- (take_drop n l) in Hs. apply StronglySorted_app in Hs as [Hs _].
    assert (He' : e ∈ l) by (eapply elem_of_sublist; [exact He|apply sublist_take]). apply Hin in He'.
    assert (Hd : d ∈ l) by (apply Hin; split; [done|lia]).
    rewrite <- (take_drop n l), elem_of_app in Hd. destruct Hd as [|Hd]; [done|].
    specialize (Hs e d He Hd). cbn in Hs. lia.
  - intros Hlt d Hd Ht. rewrite take_ge by lia. by apply Hin.
Qed.

(** The previous trading day is the newest one before the date, and the walk fails only
    when the 3660 days before have none. *)
Theorem previous_trading_date_correct calendar before :
  (forall d, previous_trading_date calendar before = Ok d <->
     is_trading_day calendar d = true /\ before - 3661 < d < before
     /\ forall e, d < e < before -> is_trading_day calendar e = false)
  /\ ((exists e, previous_trading_date calendar before = Raise e) <->
     forall d, before - 3661 < d < before -> is_trading_day calendar d = false).
Proof.
  unfold previous_trading_date. rewrite previous_date_head.
  pose proof (trading_back_sorted calendar MAX_CALENDAR_LOOKBACK_DAYS (before - 1)) as Hs.
  assert (Hin : forall d, d ∈ trading_back calendar MAX_CALENDAR_LOOKBACK_DAYS (before - 1) <->
    is_trading_day calendar d = true /\ before - 3661 < d < before).
  { intros d. unfold trading_back. rewrite list_elem_of_filter, elem_of_days_back.
    change (Z.of_nat MAX_CALENDAR_LOOKBACK_DAYS) with 3660. split; intros [? ?]; (split; [done|lia]). }
  revert Hs Hin. generalize (trading_back calendar MAX_CALENDAR_LOOKBACK_DAYS (before - 1)).
  intros [|x l] Hs Hin; cbn [head].
  - assert (Hno : forall d, before - 3661 < d < before -> is_trading_day calendar d = false).
    { intros d Hd. apply not_true_iff_false. intros Ht. by apply (not_elem_of_nil d), Hin. }
    split; [|split; [done|by eexists]]. intros d. split; [done|]. intros (Ht & Hd & _). by rewrite Hno in Ht.
  - apply StronglySorted_inv in Hs as [_ Hx]. rewrite Forall_forall in Hx.
    pose proof (proj1 (Hin x) ltac:(left)) as [Htx Hrx].
    assert (Hmax : forall e, x < e < before -> is_trading_day calendar e = false).
    { intros e He. apply not_true_iff_false. intros Ht.
      assert (Hel : e ∈ x :: l) by (apply Hin; split; [done|lia]).
      apply elem_of_cons in Hel as [->|Hel]; [lia|]. specialize (Hx e Hel). cbn in Hx. lia. }
    split.
    + intros d. split; [intros [= <-]; exact (conj Htx (conj Hrx Hmax))|]. intros (Ht & Hd & Hdmax). f_equal.
      destruct (Z.lt_trichotomy x d) as [Hlt|[Heq|Hgt]]; [|done|].
      * rewrite Hmax in Ht by lia. done.
      * rewrite Hdmax in Htx by lia. done.
    + split; [by intros [e ?]|]. intros Hall. rewrite Hall in Htx by done. done.
Qed.

(** ** Paths *)

Lemma chars_app a b : String.list_ascii_of_string (a ++ b)%string = (String.list_ascii_of_string a ++ String.list_ascii_of_string b)%list.
Proof. induction a as [|c a IH]; [done|]. exact (f_equal (cons c) IH). Qed.

(** Equal texts are equal from the end on. *)
Lemma endings_agree a b c d : (a ++ c = b ++ d)%string ->
  (reverse (String.list_ascii_of_string c) ++ reverse (String.list_ascii_of_string a)
   = reverse (String.list_ascii_of_string d) ++ reverse (String.list_ascii_of_string b))%list.
Proof. intros H. apply (f_equal String.list_ascii_of_string) in H. rewrite !chars_app in H. by rewrite <- !reverse_app, H. Qed.

Lemma path_inj i j a b : path i a = path j b -> safe_name i = safe_name j /\ a = b.
Proof.
  unfold path. intros H. apply endings_agree in H. destruct a, b; cbn in H; try done; split; try done.
  - apply (inj (app _)) in H. apply (inj reverse) in H.
    by rewrite <- (String.string_of_list_ascii_of_string (safe_name i)), H, String.string_of_list_ascii_of_string.
  - apply (inj (app _)) in H. apply (inj reverse) in H.
    by rewrite <- (String.string_of_list_ascii_of_string (safe_name i)), H, String.string_of_list_ascii_of_string.
Qed.

Lemma tmp_not_path i a j b : tmp_path (path i a) <> path j b.
Proof.
  unfold tmp_path. intros H. unfold path in H at 2. apply endings_agree in H.
  destruct b; cbn in H; discriminate.
Qed.

(** ** Bars by date *)

Definition date_get (d : date) (bars : list HistoricalDailyBar) : option HistoricalDailyBar :=
  head (filter (fun bar => bar_trading_date bar = d) bars).

Lemma date_get_some d bars b : NoDup (bar_trading_date <$> bars) ->
  date_get d bars = Some b <-> b ∈ bars /\ bar_trading_date b = d.
Proof.
  unfold date_get. induction bars as [|x bars IH]; intros Hn; cbn [fmap list_fmap].
  - split; [done|]. intros [H _]. by apply not_elem_of_nil in H.
  - apply NoDup_cons in Hn as [Hx Hn]. rewrite filter_cons, elem_of_cons. case_decide as Hd; cbn [head].
    + split; [intros [= <-]; auto|]. intros [[->|Hb] Hbd]; [done|]. exfalso. apply Hx.
      rewrite Hd, <- Hbd. by apply list_elem_of_fmap_2.
    + rewrite IH by done. split; [tauto|]. intros [[->|] ?]; done.
Qed.

(** Bars of one file: the dates as keys, all of one instrument and adjustment. *)
Definition dict_ok (key : string * PriceAdjustment) (d : dict date HistoricalDailyBar) : Prop :=
  NoDup d.*1 /\ forall k b, (k, b) ∈ d -> bar_trading_date b = k /\ group_key b = key.

Definition bars_ok (key : string * PriceAdjustment) (bars : list HistoricalDailyBar) : Prop :=
  StronglySorted (fun a b => bar_trading_date a < bar_trading_date b) bars
  /\ forall b, b ∈ bars -> group_key b = key.

Lemma bars_ok_NoDup key bars : bars_ok key bars -> NoDup (bar_trading_date <$> bars).
Proof.
  intros [Hs _]. induction Hs as [|x l _ IH Hx]; cbn; constructor; [|done].
  intros (y & Heq & Hy)%list_elem_of_fmap. rewrite Forall_forall in Hx. specialize (Hx y Hy). cbn in Hx. lia.
Qed.

Lemma dict_ok_set key d b : dict_ok key d -> group_key b = key -> dict_ok key (dict_set (bar_trading_date b) b d).
Proof.
  intros [Hn Hd] Hb. pose proof (dict_set_NoDup (bar_trading_date b) b d Hn) as Hn'. split; [done|].
  intros k x Hx. apply dict_elem_get in Hx; [|done]. rewrite dict_get_set in Hx. case_decide as Hk.
  - injection Hx as <-. done.
  - by apply Hd, dict_get_elem.
Qed.

Lemma by_date_ok key bars : bars_ok key bars -> dict_ok key (by_date_of bars)
  /\ forall k, dict_get k (by_date_of bars) = date_get k bars.
Proof.
  intros Hok. pose proof (bars_ok_NoDup _ _ Hok) as Hn. destruct Hok as [_ Hk]. unfold by_date_of.
  induction bars as [|b bars IH] using rev_ind; [by split; [split; [constructor|intros ? ? ?%not_elem_of_nil]|]|].
  rewrite fmap_app, NoDup_app in Hn. destruct Hn as (Hn & Hnew & _).
  destruct IH as [Hd Hg]; [intros x Hx; apply Hk; set_solver|done|].
  rewrite fold_left_app. cbn [fold_left]. split; [apply dict_ok_set; [done|apply Hk; set_solver]|].
  intros k. rewrite dict_get_set, Hg. unfold date_get. rewrite filter_app, filter_cons, filter_nil.
  case_decide as Hk'; [subst k; rewrite decide_True by done|rewrite decide_False, app_nil_r by congruence; done].
  rewrite filter_none; [done|]. intros x Hx Hxd. apply (Hnew (bar_trading_date x)); [by apply list_elem_of_fmap_2|].
  rewrite Hxd. cbn. left.
Qed.

(** The list a write stores. *)
Definition ordered_bars (d : dict date HistoricalDailyBar) : list HistoricalDailyBar :=
  snd <$> py_sorted (fun a b : date * HistoricalDailyBar => a.1 <=? b.1) d.

Lemma ordered_bars_ok key d : dict_ok key d -> bars_ok key (ordered_bars d)
  /\ forall k, date_get k (ordered_bars d) = dict_get k d.
Proof.
  intros [Hn Hd]. unfold ordered_bars.
  pose proof (py_sorted_strict fst d Hn) as Hs.
  assert (Hin : forall kb, kb ∈ py_sorted (fun a b : date * HistoricalDailyBar => a.1 <=? b.1) d <-> kb ∈ d)
    by (intros; apply elem_of_py_sorted).
  assert (Hok : bars_ok key (snd <$> py_sorted (fun a b : date * HistoricalDailyBar => a.1 <=? b.1) d)).
  { split.
    - revert Hs. generalize Hin. generalize (py_sorted (fun a b : date * HistoricalDailyBar => a.1 <=? b.1) d).
      intros l Hl Hs. assert (Hl' : forall k b, (k, b) ∈ l -> bar_trading_date b = k) by (intros k b Hb; by apply Hd, Hl).
      clear -Hs Hl'. induction Hs as [|[k b] l _ IH Hx]; cbn; constructor.
      + apply IH. intros k' b' H. apply Hl'. by right.
      + rewrite Forall_forall in Hx. apply Forall_forall. intros b' ([k' b''] & -> & H)%list_elem_of_fmap. cbn.
        rewrite (Hl' k b) by left. rewrite (Hl' k' b'') by (by right). by apply (Hx (k', b'')).
    - intros b ([k b'] & -> & Hb)%list_elem_of_fmap. by apply (Hd k), Hin. }
  split; [done|]. intros k. pose proof (bars_ok_NoDup _ _ Hok) as Hnd. apply option_eq. intros b.
  rewrite date_get_some by done. split.
  - intros [([k' b'] & -> & Hb)%list_elem_of_fmap Hk]. apply Hin in Hb. cbn in *.
    destruct (Hd _ _ Hb) as [? _]. apply dict_elem_get; [done|]. by replace k with k' by congruence.
  - intros Hb%dict_get_elem. split; [|by destruct (Hd _ _ Hb)].
    apply list_elem_of_fmap. exists (k, b). by rewrite Hin.
Qed.

(** A series is built from sorted bars of its instrument. *)
Lemma mk_daily_series_ok i a bars : text_ok i 128 = true ->
  StronglySorted (fun x y => bar_trading_date x < bar_trading_date y) bars ->
  (forall b, b ∈ bars -> bar_instrument_identity b = i /\ bar_adjustment b = a) ->
  mk_daily_series i a bars = Ok {| ser_instrument_identity := i; ser_adjustment := a; ser_bars := bars |}.
Proof.
  intros Ht Hs Hk. unfold mk_daily_series. rewrite Ht. cbn [negb raise_if mbind result_bind].
  assert (Hds : StronglySorted Z.lt (bar_trading_date <$> bars)).
  { clear -Hs. induction Hs as [|x l _ IH Hx]; cbn; constructor; [done|]. rewrite Forall_forall in Hx.
    apply Forall_forall. intros d (y & -> & Hy)%list_elem_of_fmap. by apply Hx. }
  rewrite py_sorted_id by (eapply StronglySorted_elem_impl; [|exact Hds]; cbn; intros; lia).
  rewrite bool_decide_true by done. cbn [negb raise_if mbind result_bind].
  rewrite size_list_to_set, Nat.eqb_refl.
  2:{ clear -Hds. induction Hds as [|x l _ IH Hx]; constructor; [|done]. intros Hin. rewrite Forall_forall in Hx.
      specialize (Hx x Hin). lia. }
  cbn [negb raise_if mbind result_bind]. rewrite (proj2 (for_each_ok _ _)); [done|].
  apply Forall_forall. intros b Hb. destruct (Hk b Hb) as [-> ->]. by rewrite !bool_decide_true.
Qed.

(** ** Upserting a group *)

Definition total (c : UpsertCounts) : Z := n_inserted c + n_unchanged c + n_conflict c.

Lemma upsert_group_ok key group d counts : dict_ok key d -> (forall b, b ∈ group -> group_key b = key) ->
  exists d' counts' dirty, upsert_group group d counts = (d', counts', dirty)
  /\ dict_ok key d'
  /\ (forall k, dict_get k d' = match dict_get k d with Some b => Some b | None => date_get k group end)
  /\ total counts' = total counts + Z.of_nat (length group)
  /\ n_inserted counts <= n_inserted counts'
  /\ (dirty = false -> d' = d /\ n_inserted counts' = n_inserted counts)
  /\ (dirty = true -> n_inserted counts < n_inserted counts').
Proof.
  intros Hd. unfold upsert_group. induction group as [|b group IH] using rev_ind; intros Hk.
  - exists d, counts, false. split_and!; try done; cbn; try lia. intros k. by destruct (dict_get k d).
  - destruct IH as (d1 & c1 & dirty & Hf & Hd1 & Hg & Ht & Hi & Hfalse & Htrue); [intros x Hx; apply Hk; set_solver|].
    rewrite fold_left_app. cbn [fold_left]. rewrite Hf. unfold upsert_bar.
    assert (Hget : forall k, date_get k (group ++ [b])
      = match date_get k group with Some x => Some x | None => if bool_decide (bar_trading_date b = k) then Some b else None end).
    { intros k. unfold date_get. rewrite filter_app, filter_cons, filter_nil.
      case_bool_decide; case_decide; try done; destruct (filter _ group); by rewrite ?app_nil_r. }
    destruct (dict_get (bar_trading_date b) d1) as [prior|] eqn:E.
    + exists d1, (upsert_count c1 (if has_same_values prior b then UNCHANGED else CONFLICT)), dirty.
      split_and!.
      * f_equal. destruct (has_same_values prior b); by rewrite bool_decide_false, orb_false_r.
      * done.
      * intros k. rewrite Hg, Hget. destruct (dict_get k d) as [x|] eqn:Ek; [done|].
        destruct (date_get k group) eqn:Eg; [done|]. case_bool_decide as Hbk; [|done].
        rewrite Hbk, Hg, Ek, Eg in E. done.
      * rewrite length_app. cbn. destruct (has_same_values prior b); unfold total in *; cbn; lia.
      * destruct (has_same_values prior b); cbn; lia.
      * intros Hf'. destruct (Hfalse Hf') as [-> He]. split; [done|]. destruct (has_same_values prior b); cbn; lia.
      * intros Hf'. specialize (Htrue Hf'). destruct (has_same_values prior b); cbn; lia.
    + exists (dict_set (bar_trading_date b) b d1), (upsert_count c1 INSERTED), true. split_and!.
      * by rewrite bool_decide_true, orb_true_r.
      * apply dict_ok_set; [done|]. apply Hk. set_solver.
      * intros k. rewrite dict_get_set, Hget. case_decide as Hbk.
        -- subst k. rewrite Hg in E. destruct (dict_get (bar_trading_date b) d); [done|]. rewrite E.
           by rewrite bool_decide_true.
        -- rewrite Hg, bool_decide_false by congruence. destruct (dict_get k d); [done|]. by destruct (date_get k group).
      * rewrite length_app. unfold total in *. cbn. lia.
      * cbn. lia.
      * done.
      * cbn. lia.
Qed.

(** Whether a bar says something else than the bar that is held. *)
Definition differs (held : option HistoricalDailyBar) (bar : HistoricalDailyBar) : Prop :=
  exists prior, held = Some prior /\ has_same_values prior bar = false.

#[export] Instance differs_dec held bar : Decision (differs held bar).
Proof.
  refine (match held with
          | Some prior => cast_if (decide (has_same_values prior bar = false))
          | None => right _
          end); [by exists prior|intros (p & [= ->] & ?); done|by intros (p & [=] & _)].
Defined.

Lemma has_same_values_refl bar : has_same_values bar bar = true.
Proof.
  unfold has_same_values. rewrite !(proj2 (dec_eqb_eq _ _)), Z.eqb_refl by done. by rewrite bool_decide_true.
Qed.

Lemma filter_ext_elem {A} (P Q : A -> Prop) `{!forall x, Decision (P x), !forall x, Decision (Q x)} (l : list A) :
  (forall x, x ∈ l -> P x <-> Q x) -> filter P l = filter Q l.
Proof.
  induction l as [|x l IH]; intros Hl; [done|]. rewrite !filter_cons, IH by (intros y Hy; apply Hl; by right).
  assert (Hx : P x <-> Q x) by (apply Hl; left). destruct (decide (P x)), (decide (Q x)); tauto.
Qed.

(** A group inserts what its dictionary grows by, and conflicts where a bar differs from
    the one that is held in the end. *)
Lemma upsert_group_counts group d counts : forall d' counts' dirty,
  upsert_group group d counts = (d', counts', dirty) ->
  n_inserted counts' = n_inserted counts + Z.of_nat (length d') - Z.of_nat (length d)
  /\ n_conflict counts'
     = n_conflict counts + Z.of_nat (length (filter (fun b => differs (dict_get (bar_trading_date b) d') b) group))
  /\ forall b, b ∈ group -> is_Some (dict_get (bar_trading_date b) d').
Proof.
  unfold upsert_group. induction group as [|b group IH] using rev_ind; intros d' counts' dirty.
  { intros [= <- <- <-]. cbn. split_and!; [lia|lia|by intros b ?%not_elem_of_nil]. }
  rewrite fold_left_app. destruct (fold_left _ group _) as [[d1 c1] dirty1] eqn:E. cbn [fold_left].
  destruct (IH d1 c1 dirty1 eq_refl) as (Hi & Hc & Hin). unfold upsert_bar.
  destruct (dict_get (bar_trading_date b) d1) as [prior|] eqn:Eb; intros [= <- <- _].
  - split_and!.
    + destruct (has_same_values prior b); cbn; lia.
    + rewrite filter_app, length_app, filter_cons, filter_nil. case_decide as Hd.
      * destruct Hd as (p & Hp & Hs). rewrite Eb in Hp. injection Hp as <-. rewrite Hs. cbn. lia.
      * destruct (has_same_values prior b) eqn:Hs; [cbn; lia|]. exfalso. apply Hd. by exists prior.
    + intros x [Hx| ->%list_elem_of_singleton]%elem_of_app; [by apply Hin|by exists prior].
  - assert (Hlen : length (dict_set (bar_trading_date b) b d1) = S (length d1)).
    { rewrite dict_set_fresh by (by apply dict_get_none). rewrite length_app. cbn. lia. }
    assert (Hsame : forall x, x ∈ group ->
      dict_get (bar_trading_date x) (dict_set (bar_trading_date b) b d1) = dict_get (bar_trading_date x) d1).
    { intros x Hx. rewrite dict_get_set. case_decide as He; [|done]. destruct (Hin x Hx) as [y Hy].
      rewrite He, Eb in Hy. done. }
    split_and!.
    + cbn. lia.
    + rewrite filter_app, length_app, filter_cons, filter_nil, decide_False.
      * assert (Hf : filter (fun x => differs (dict_get (bar_trading_date x) (dict_set (bar_trading_date b) b d1)) x) group
          = filter (fun x => differs (dict_get (bar_trading_date x) d1) x) group).
        { apply filter_ext_elem. intros x Hx. by rewrite Hsame. }
        rewrite Hf. cbn. lia.
      * rewrite dict_get_set, decide_True by done. intros (p & [= ->] & Hs). by rewrite has_same_values_refl in Hs.
    + intros x [Hx| ->%list_elem_of_singleton]%elem_of_app; [rewrite Hsame by done; by apply Hin|].
      rewrite dict_get_set, decide_True by done. by eexists.
Qed.

(** * The store as a map *)

Section StoreTheorems.
Context {Bytes : Type} `{!BarsCodec Bytes}.
Abbreviation Files := (gmap string Bytes).

(** No two of the identities share a file. *)
Definition collision_free (ids : list string) : Prop :=
  forall i j, i ∈ ids -> j ∈ ids -> safe_name i = safe_name j -> i = j.

Definition store_ok (ids : list string) (fs : Files) : Prop :=
  forall i a, i ∈ ids -> exists bars, load_bars fs i a = Ok bars /\ bars_ok (i, a) bars.

(** The bar held for an instrument, adjustment and date. *)
Definition stored (fs : Files) (i : string) (a : PriceAdjustment) (d : date) : option HistoricalDailyBar :=
  match load_bars fs i a with Ok bars => date_get d bars | Raise _ => None end.

Lemma bar_store_ok_empty ids : store_ok ids (∅ : Files).
Proof using Type.
  intros i a _. exists []. unfold load_bars. rewrite lookup_empty. split; [done|]. split; [constructor|].
  by intros b ?%not_elem_of_nil.
Qed.

Lemma ordered_sorted_id key bars : bars_ok key bars -> py_sorted date_leb bars = bars.
Proof using Type.
  intros [Hs _]. apply py_sorted_id. eapply StronglySorted_elem_impl; [|exact Hs].
  intros x y _ _ H. unfold date_leb. cbn in H. lia.
Qed.

Lemma load_tmp fs i a d j b : load_bars (write_tmp fs i a d) j b = load_bars fs j b.
Proof using Type.
  unfold load_bars, write_tmp. rewrite lookup_insert_ne; [done|]. apply tmp_not_path.
Qed.

Lemma load_write fs i a d j b : dict_ok (i, a) d -> load_bars (write_bars fs i a d) j b
  = if decide (path i a = path j b) then Ok (ordered_bars d) else load_bars fs j b.
Proof using Type.
  intros Hd. unfold write_bars, replace_file, load_bars.
  assert (Htmp : write_tmp fs i a d !! tmp_path (path i a) = Some (dump_json (ordered_bars d)))
    by (unfold write_tmp; apply lookup_insert_eq).
  rewrite Htmp. case_decide as Hp.
  - rewrite <- Hp, lookup_insert_eq, validate_dump. cbn [mbind result_bind].
    by rewrite (ordered_sorted_id (i, a)) by (by apply ordered_bars_ok).
  - rewrite lookup_insert_ne by done. rewrite lookup_delete_ne by apply tmp_not_path.
    fold (load_bars (write_tmp fs i a d) j b). apply load_tmp.
Qed.

Lemma path_collision ids i a j b : collision_free ids -> i ∈ ids -> j ∈ ids -> path i a = path j b ->
  i = j /\ a = b.
Proof using Type. intros Hc Hi Hj [Hs Ha]%path_inj. split; [by apply Hc|done]. Qed.

(** What a write leaves behind. *)
Lemma write_ok ids fs i a d : collision_free ids -> i ∈ ids -> store_ok ids fs -> dict_ok (i, a) d ->
  store_ok ids (write_bars fs i a d)
  /\ forall j b k, j ∈ ids -> stored (write_bars fs i a d) j b k
       = if decide ((i, a) = (j, b)) then dict_get k d else stored fs j b k.
Proof using Type.
  intros Hc Hi Hs Hd. destruct (ordered_bars_ok _ _ Hd) as [Hok Hget]. split.
  - intros j b Hj. rewrite load_write by done. case_decide as Hp; [|by apply Hs].
    apply (path_collision ids) in Hp as [<- <-]; [|done..]. by eexists.
  - intros j b k Hj. unfold stored. rewrite load_write by done. case_decide as Hp.
    + apply (path_collision ids) in Hp as [<- <-]; [|done..]. by rewrite decide_True.
    + rewrite decide_False; [done|]. intros [= -> ->]. done.
Qed.

Lemma upsert_groups_ok ids groups : forall fs counts, collision_free ids -> store_ok ids fs ->
  NoDup groups.*1 -> (forall k g, (k, g) ∈ groups -> k.1 ∈ ids /\ forall b, b ∈ g -> group_key b = k) ->
  exists fs' counts', upsert_groups groups fs counts = (fs', Ok counts') /\ store_ok ids fs'
  /\ (forall j b k, j ∈ ids -> stored fs' j b k = match stored fs j b k with
        | Some bar => Some bar
        | None => date_get k (default [] (dict_get (j, b) groups))
        end)
  /\ total counts' = total counts + Z.of_nat (length (concat groups.*2))
  /\ n_inserted counts <= n_inserted counts'
  /\ (n_inserted counts' = n_inserted counts -> fs' = fs).
Proof using Type.
  induction groups as [|[[i a] g] groups IH]; intros fs counts Hc Hs Hn Hg.
  - exists fs, counts. split_and!; try done; cbn; try lia. intros j b k _. by destruct (stored fs j b k).
  - cbn [fmap list_fmap] in Hn. apply NoDup_cons in Hn as [Hnew Hn].
    destruct (Hg (i, a) g ltac:(left)) as [Hi Hkey].
    destruct (Hs i a Hi) as (bars & Hload & Hbars). destruct (by_date_ok _ _ Hbars) as [Hd Hdg].
    destruct (upsert_group_ok (i, a) g (by_date_of bars) counts Hd Hkey)
      as (d' & c' & dirty & Hup & Hd' & Hget & Htot & Hins & Hclean & Hdirty).
    cbn [upsert_groups]. rewrite Hload, Hup.
    set (fs1 := if dirty then write_bars fs i a d' else fs).
    assert (Hfs1 : store_ok ids fs1 /\ forall j b k, j ∈ ids -> stored fs1 j b k
      = if decide ((i, a) = (j, b)) then dict_get k d' else stored fs j b k).
    { unfold fs1. destruct dirty; [by apply write_ok|]. split; [done|]. intros j b k Hj. case_decide as He; [|done].
      injection He as <- <-. destruct (Hclean eq_refl) as [-> _]. unfold stored. by rewrite Hload, Hdg. }
    destruct Hfs1 as [Hs1 Hst1].
    destruct (IH fs1 c' Hc Hs1 Hn) as (fs' & c'' & Hrun & Hs' & Hst & Htot' & Hins' & Hsame).
    { intros k g' Hk. apply Hg. by right. }
    exists fs', c''. split_and!; [done|done| | |lia|].
    + intros j b k Hj. rewrite Hst, Hst1 by done. cbn [dict_get].
      destruct (decide ((i, a) = (j, b))) as [He|He].
      * injection He as <- <-. rewrite decide_True by done.
        change (default [] (Some g)) with g. rewrite Hget, Hdg.
        unfold stored. rewrite Hload. destruct (date_get k bars); [done|].
        destruct (date_get k g); [done|]. by rewrite (proj2 (dict_get_none (i, a) groups)).
      * rewrite decide_False by congruence. done.
    + rewrite Htot', Htot. cbn. rewrite length_app. lia.
    + intros He. rewrite Hsame by lia. unfold fs1. destruct dirty; [|done]. specialize (Hdirty eq_refl). lia.
Qed.

Lemma group_by_length {A K} `{EqDecision K} (f : A -> K) (l : list A) :
  length (concat (group_by f l).*2) = length l.
Proof using Type.
  assert (Happ : forall k x (d : dict K (list A)), length (concat (dict_append k x d).*2) = S (length (concat d.*2))).
  { intros k x d. unfold dict_append. induction d as [|[k' v] d IH]; [done|]. cbn [dict_get dict_set].
    case_decide; cbn [fmap list_fmap concat snd]; rewrite !length_app; [cbn; lia|]. cbn in IH. rewrite IH. lia. }
  induction l as [|x l IH] using rev_ind; [done|]. rewrite group_by_snoc, Happ, length_app, IH. cbn. lia.
Qed.

Lemma groups_keyed (bars : list HistoricalDailyBar) k g : (k, g) ∈ group_by group_key bars ->
  g = filter (fun b => group_key b = k) bars /\ (exists b, b ∈ bars /\ group_key b = k).
Proof using Type.
  intros Hin. split.
  - rewrite <- (group_by_get group_key). by rewrite (dict_elem_get k g) by (done || apply group_by_NoDup).
  - apply group_by_keys. by apply (list_elem_of_fmap_2 fst) in Hin.
Qed.

Lemma date_get_filter k d bars : date_get d (filter (fun b => group_key b = k) bars)
  = head (filter (fun b => group_key b = k /\ bar_trading_date b = d) bars).
Proof using Type.
  unfold date_get. rewrite list_filter_filter. f_equal. apply list_filter_iff. tauto.
Qed.

Section Upserts.
Variable ids : list string.
Hypothesis separate : collision_free ids.

(** For identities that do not share a file the store is a map from instrument,
    adjustment and date to a bar.  A batch adds, for every date not held yet, the first
    bar of the batch for it, and never changes or removes a bar that is held,
    whatever the batch holds; every bar is counted exactly once, and a batch that
    inserts nothing leaves the files as they are. *)
Theorem upsert_many_refines fs bars : store_ok ids fs ->
  (forall b, b ∈ bars -> bar_instrument_identity b ∈ ids) ->
  exists fs' counts, upsert_many fs bars = (fs', Ok counts) /\ store_ok ids fs'
  /\ (forall i a d, i ∈ ids -> stored fs' i a d = match stored fs i a d with
        | Some bar => Some bar
        | None => head (filter (fun b => group_key b = (i, a) /\ bar_trading_date b = d) bars)
        end)
  /\ n_inserted counts + n_unchanged counts + n_conflict counts = Z.of_nat (length bars)
  /\ (n_inserted counts = 0 -> fs' = fs).
Proof using separate.
  intros Hs Hb. unfold upsert_many.
  destruct (upsert_groups_ok ids (group_by group_key bars) fs no_counts separate Hs)
    as (fs' & counts & Hrun & Hs' & Hst & Htot & _ & Hsame).
  - apply group_by_NoDup.
  - intros k g Hg. apply groups_keyed in Hg as [-> (b & Hin & <-)]. split; [by apply Hb|].
    by intros x [? _]%list_elem_of_filter.
  - exists fs', counts. split_and!; [done|done| | |done].
    + intros i a d Hi. rewrite Hst by done. destruct (stored fs i a d); [done|].
      by rewrite group_by_get, date_get_filter.
    + rewrite group_by_length in Htot. unfold total in Htot. cbn in Htot. lia.
Qed.

Lemma by_date_length (bars : list HistoricalDailyBar) : NoDup (bar_trading_date <$> bars) ->
  length (by_date_of bars) = length bars.
Proof using Type.
  intros Hn. replace (by_date_of bars) with ((fun b => (bar_trading_date b, b)) <$> bars); [by rewrite length_fmap|].
  unfold by_date_of. induction bars as [|b bars IH] using rev_ind; [done|].
  rewrite fmap_app, NoDup_app in Hn. destruct Hn as (Hn & Hnew & _).
  rewrite fold_left_app, fmap_app, <- IH by done. cbn [fold_left]. rewrite dict_set_fresh; [done|].
  rewrite <- list_fmap_compose. intros Hin. apply (Hnew (bar_trading_date b)); [exact Hin|left].
Qed.

(** A batch for one series is one group. *)
Lemma group_by_series (bars : list HistoricalDailyBar) key : bars <> [] -> (forall b, b ∈ bars -> group_key b = key) ->
  group_by group_key bars = [(key, bars)].
Proof using Type.
  intros Hne Hk. pose proof (group_by_NoDup group_key bars) as Hn.
  assert (Hall : forall kg, kg ∈ group_by group_key bars -> kg = (key, bars)).
  { intros [k g] Hin. destruct (groups_keyed _ _ _ Hin) as [-> (b & Hb & <-)]. rewrite (Hk b Hb). f_equal.
    clear -Hk. induction bars as [|x bars IH]; [done|]. rewrite filter_cons, decide_True by (apply Hk; left).
    f_equal. apply IH. intros y Hy. apply Hk. by right. }
  destruct (group_by group_key bars) as [|kg groups] eqn:E.
  - destruct bars as [|b bars]; [done|]. assert (Hin : group_key b ∈ (group_by group_key (b :: bars)).*1).
    { apply group_by_keys. exists b. split; [left|done]. }
    rewrite E in Hin. by apply not_elem_of_nil in Hin.
  - rewrite (Hall kg ltac:(left)) in *. destruct groups as [|kg' groups]; [done|].
    rewrite (Hall kg') in Hn by (right; left). cbn in Hn. apply NoDup_cons in Hn as [Hn _]. destruct Hn. left.
Qed.

(** A batch for one series inserts what its available dates grow by, and conflicts where a
    bar differs from the one that is held in the end. *)
Lemma upsert_series_counts fs bars i a fs' counts : store_ok ids fs -> i ∈ ids ->
  (forall b, b ∈ bars -> group_key b = (i, a)) -> upsert_many fs bars = (fs', Ok counts) ->
  exists ds ds', available_dates fs i a = Ok ds /\ available_dates fs' i a = Ok ds'
  /\ n_inserted counts = Z.of_nat (length ds') - Z.of_nat (length ds)
  /\ n_conflict counts
     = Z.of_nat (length (filter (fun b => differs (stored fs' i a (bar_trading_date b)) b) bars)).
Proof using separate.
  intros Hs Hi Hk. unfold upsert_many. destruct (Hs i a Hi) as (held & Hload & Hheld).
  destruct (by_date_ok _ _ Hheld) as [Hd Hdg].
  pose proof (by_date_length held (bars_ok_NoDup _ _ Hheld)) as Hlen.
  assert (Havail : available_dates fs i a = Ok (bar_trading_date <$> held)) by (unfold available_dates; by rewrite Hload).
  destruct bars as [|b0 bars0] eqn:Ebars.
  { intros [= <- <-]. exists (bar_trading_date <$> held), (bar_trading_date <$> held). split_and!; [done|done|cbn; lia|done]. }
  rewrite (group_by_series (b0 :: bars0) (i, a)) by done. rewrite <- Ebars in *. cbn [upsert_groups]. rewrite Hload.
  destruct (upsert_group_ok (i, a) bars (by_date_of held) no_counts Hd Hk) as (d' & c' & dirty & Hup & Hd' & _ & _ & _ & Hclean & _).
  destruct (upsert_group_counts _ _ _ _ _ _ Hup) as (Hins & Hconf & _). rewrite Hup. intros [= <- <-].
  assert (Hafter : exists bars', load_bars (if dirty then write_bars fs i a d' else fs) i a = Ok bars'
    /\ length bars' = length d' /\ forall k, date_get k bars' = dict_get k d').
  { destruct dirty.
    - exists (ordered_bars d'). rewrite load_write, decide_True by done. destruct (ordered_bars_ok _ _ Hd') as [_ Hg].
      split_and!; [done| |done]. unfold ordered_bars. by rewrite length_fmap, length_py_sorted.
    - destruct (Hclean eq_refl) as [-> _]. exists held. split_and!; [done|done|]. intros k. by rewrite Hdg. }
  destruct Hafter as (bars' & Hload' & Hlen' & Hget'). exists (bar_trading_date <$> held), (bar_trading_date <$> bars').
  split_and!; [done|unfold available_dates; by rewrite Hload'| |].
  - rewrite !length_fmap, Hlen', <- Hlen, Hins. cbn. lia.
  - rewrite Hconf. change (n_conflict no_counts) with 0. rewrite Z.add_0_l. do 2 f_equal. apply filter_ext_elem.
    intros b _. unfold stored. by rewrite Hload', Hget'.
Qed.

(** The single upsert is a batch of one. *)
Theorem upsert_refines fs bar : store_ok ids fs -> bar_instrument_identity bar ∈ ids ->
  let held := stored fs (bar_instrument_identity bar) (bar_adjustment bar) (bar_trading_date bar) in
  exists fs' outcome, upsert fs bar = Ok (fs', outcome) /\ store_ok ids fs'
  /\ outcome = (match held with
                | None => INSERTED
                | Some prior => if has_same_values prior bar then UNCHANGED else CONFLICT
                end)
  /\ (outcome <> INSERTED -> fs' = fs)
  /\ forall i a d, i ∈ ids -> stored fs' i a d
       = if decide ((i, a, d) = (bar_instrument_identity bar, bar_adjustment bar, bar_trading_date bar) /\ held = None)
         then Some bar else stored fs i a d.
Proof using separate.
  intros Hs Hi. cbn zeta. set (i0 := bar_instrument_identity bar) in *. set (a0 := bar_adjustment bar).
  destruct (Hs i0 a0 Hi) as (bars & Hload & Hbars). destruct (by_date_ok _ _ Hbars) as [Hd Hdg].
  assert (Hheld : stored fs i0 a0 (bar_trading_date bar) = dict_get (bar_trading_date bar) (by_date_of bars)).
  { unfold stored. by rewrite Hload, Hdg. }
  unfold upsert. fold i0 a0. rewrite Hload. cbn [mbind result_bind]. unfold upsert_bar. rewrite Hheld.
  destruct (dict_get (bar_trading_date bar) (by_date_of bars)) as [prior|] eqn:E.
  - rewrite bool_decide_false by (by destruct (has_same_values prior bar)). eexists _, _.
    split_and!; [done|done|done|done|]. intros i a d _. rewrite decide_False; [done|]. by intros [_ ?].
  - rewrite bool_decide_true by done. destruct (write_ok ids fs i0 a0 (dict_set (bar_trading_date bar) bar (by_date_of bars))
      separate Hi Hs) as [Hs' Hst].
    { by apply dict_ok_set. }
    eexists _, _. split_and!; [done|done|done|done|]. intros i a d Hin. rewrite Hst by done.
    destruct (decide ((i0, a0) = (i, a))) as [He|He].
    + injection He as <- <-. rewrite dict_get_set. case_decide as Hdd.
      * subst d. by rewrite decide_True.
      * rewrite decide_False by naive_solver. unfold stored. by rewrite Hload, Hdg.
    + rewrite decide_False; [done|]. intros [[= -> -> _] _]. by apply He.
Qed.

(** Reading a range gives exactly the bars held in it, in order of date. *)
Theorem read_range_exact fs i a start stop : store_ok ids fs -> i ∈ ids -> text_ok i 128 = true ->
  exists series, read_range fs i start stop a = Ok series
  /\ ser_instrument_identity series = i /\ ser_adjustment series = a
  /\ StronglySorted (fun x y => bar_trading_date x < bar_trading_date y) (ser_bars series)
  /\ (forall bar, bar ∈ ser_bars series <->
        stored fs i a (bar_trading_date bar) = Some bar /\ start <= bar_trading_date bar <= stop).
Proof using Type.
  intros Hs Hi Ht. destruct (Hs i a Hi) as (bars & Hload & Hbars). pose proof (bars_ok_NoDup _ _ Hbars) as Hn.
  pose proof Hbars as [Hsort Hk]. unfold read_range. rewrite Hload. cbn [mbind result_bind].
  set (sel := filter _ bars).
  assert (Hsub : sel `sublist_of` bars) by apply sublist_filter.
  assert (Hss : StronglySorted (fun x y => bar_trading_date x < bar_trading_date y) sel)
    by (by eapply StronglySorted_sublist).
  rewrite mk_daily_series_ok; [|done|done|].
  2:{ intros b Hb. specialize (Hk b (elem_of_sublist _ _ _ Hb Hsub)). unfold group_key in Hk. by injection Hk. }
  eexists. split_and!; [done|done|done|done|]. intros bar. cbn. unfold sel.
  rewrite list_elem_of_filter. unfold stored. rewrite Hload, date_get_some by done. unfold bar_in_range.
  rewrite andb_true_iff, !Z.leb_le. tauto.
Qed.

(** [C33] The store is a map from instrument, adjustment and date to a bar, for
    identities that do not share a file.  Reading any range after a batch gives, in order
    of date, the bars held before, whatever the batch holds for their dates, and for the
    other dates the first bar of the batch; every bar of it is counted exactly once. *)
Theorem read_after_upsert fs bars i a start stop : store_ok ids fs ->
  (forall b, b ∈ bars -> bar_instrument_identity b ∈ ids) -> i ∈ ids -> text_ok i 128 = true ->
  exists fs' counts series, upsert_many fs bars = (fs', Ok counts) /\ read_range fs' i start stop a = Ok series
  /\ StronglySorted (fun x y => bar_trading_date x < bar_trading_date y) (ser_bars series)
  /\ (forall bar, bar ∈ ser_bars series <-> start <= bar_trading_date bar <= stop /\
       (stored fs i a (bar_trading_date bar) = Some bar
        \/ stored fs i a (bar_trading_date bar) = None
           /\ head (filter (fun b => group_key b = (i, a) /\ bar_trading_date b = bar_trading_date bar) bars) = Some bar))
  /\ n_inserted counts + n_unchanged counts + n_conflict counts = Z.of_nat (length bars).
Proof using separate.
  intros Hs Hb Hi Ht. destruct (upsert_many_refines fs bars Hs Hb) as (fs' & counts & Hup & Hs' & Hst & Htot & _).
  destruct (read_range_exact fs' i a start stop Hs' Hi Ht) as (series & Hr & _ & _ & Hsort & Hin).
  exists fs', counts, series. split_and!; [done|done|done| |done]. intros bar. rewrite Hin, Hst by done.
  destruct (stored fs i a (bar_trading_date bar)) as [x|] eqn:E; [|naive_solver].
  split; [intros [[= ->] ?]; auto|]. intros [? [[= ->]|[? _]]]; done.
Qed.

(** The file systems a batch goes through, the temporary files included: where a crash
    can leave it. *)
Fixpoint upsert_states (groups : dict (string * PriceAdjustment) (list HistoricalDailyBar))
    (fs : Files) (counts : UpsertCounts) : list Files :=
  match groups with
  | [] => [fs]
  | ((i, a), group) :: groups =>
      match load_bars fs i a with
      | Raise _ => [fs]
      | Ok existing =>
          let '(by_date, counts, dirty) := upsert_group group (by_date_of existing) counts in
          if dirty
          then fs :: write_tmp fs i a by_date :: upsert_states groups (write_bars fs i a by_date) counts
          else upsert_states groups fs counts
      end
  end.

(** The last of them is what the batch leaves. *)
Lemma upsert_states_last groups : forall fs counts,
  last (upsert_states groups fs counts) = Some (upsert_groups groups fs counts).1.
Proof using Type.
  induction groups as [|[[i a] g] groups IH]; intros fs counts; [done|]. cbn [upsert_states upsert_groups].
  destruct (load_bars fs i a) as [bars|]; [|done].
  destruct (upsert_group g (by_date_of bars) counts) as [[d c] []]; [|apply IH].
  rewrite !last_cons, IH. done.
Qed.

Lemma upsert_states_ok groups : forall fs counts, store_ok ids fs -> NoDup groups.*1 ->
  (forall k g, (k, g) ∈ groups -> k.1 ∈ ids /\ forall b, b ∈ g -> group_key b = k) ->
  forall st, st ∈ upsert_states groups fs counts -> store_ok ids st
  /\ forall j b k, j ∈ ids -> stored st j b k = stored fs j b k
       \/ (stored fs j b k = None /\ stored st j b k = date_get k (default [] (dict_get (j, b) groups))).
Proof using separate.
  induction groups as [|[[i a] g] groups IH]; intros fs counts Hs Hn Hg st Hst; cbn [upsert_states] in Hst.
  - apply list_elem_of_singleton in Hst as ->. auto.
  - cbn [fmap list_fmap] in Hn. apply NoDup_cons in Hn as [Hnew Hn].
    destruct (Hg (i, a) g ltac:(left)) as [Hi Hkey].
    destruct (Hs i a Hi) as (bars & Hload & Hbars). destruct (by_date_ok _ _ Hbars) as [Hd Hdg].
    destruct (upsert_group_ok (i, a) g (by_date_of bars) counts Hd Hkey)
      as (d' & c' & dirty & Hup & Hd' & Hget & _).
    rewrite Hload, Hup in Hst.
    assert (Hrest : forall k g', (k, g') ∈ groups -> k.1 ∈ ids /\ forall b, b ∈ g' -> group_key b = k)
      by (intros; apply Hg; by right).
    assert (Hlater : forall j b, (i, a) <> (j, b) -> dict_get (j, b) (((i, a), g) :: groups) = dict_get (j, b) groups)
      by (intros; cbn [dict_get]; by rewrite decide_False by congruence).
    assert (Hnone : dict_get (i, a) groups = None) by (by apply dict_get_none).
    destruct dirty.
    + rewrite !elem_of_cons in Hst. destruct Hst as [->|[->|Hst]]; [by auto| |].
      * split; [|by left; unfold stored; rewrite load_tmp]. intros j b Hj. rewrite load_tmp. by apply Hs.
      * destruct (write_ok ids fs i a d' separate Hi Hs Hd') as [Hs1 Hst1].
        destruct (IH _ c' Hs1 Hn Hrest st Hst) as [Hok Hcase]. split; [done|]. intros j b k Hj.
        destruct (Hcase j b k Hj) as [He|[He1 He2]]; rewrite Hst1 in * by done;
          destruct (decide ((i, a) = (j, b))) as [Hp|Hp]; rewrite ?Hlater by done; auto.
        -- injection Hp as <- <-. rewrite He, Hget, Hdg. unfold stored. rewrite Hload. cbn [dict_get].
           rewrite decide_True by done. destruct (date_get k bars); auto.
        -- injection Hp as <- <-. rewrite He2, Hnone. rewrite Hget, Hdg in He1. unfold stored. rewrite Hload.
           left. cbn. by destruct (date_get k bars).
    + destruct (IH _ c' Hs Hn Hrest st Hst) as [Hok Hcase]. split; [done|]. intros j b k Hj.
      destruct (Hcase j b k Hj) as [He|[He1 He2]]; [by left|].
      destruct (decide ((i, a) = (j, b))) as [Hp|Hp]; [|rewrite Hlater by done; by right].
      injection Hp as <- <-. left. by rewrite He1, He2, Hnone.
Qed.

(** Wherever a crash stops a batch, also between the temporary file and its
    replacement, the store is readable, every bar held before is held, and
    what is held besides is the first bar of the batch for its date. *)
Theorem interrupted_batch_loses_nothing fs bars st : store_ok ids fs ->
  (forall b, b ∈ bars -> bar_instrument_identity b ∈ ids) ->
  st ∈ upsert_states (group_by group_key bars) fs no_counts ->
  store_ok ids st
  /\ (forall i a d bar, i ∈ ids -> stored fs i a d = Some bar -> stored st i a d = Some bar)
  /\ (forall i a d bar, i ∈ ids -> stored st i a d = Some bar -> stored fs i a d = Some bar
       \/ head (filter (fun b => group_key b = (i, a) /\ bar_trading_date b = d) bars) = Some bar).
Proof using separate.
  intros Hs Hb Hst. destruct (upsert_states_ok (group_by group_key bars) fs no_counts Hs) with (st := st) as [Hok Hcase];
    [apply group_by_NoDup| |done|].
  { intros k g Hg. apply groups_keyed in Hg as [-> (b & Hin & <-)]. split; [by apply Hb|].
    by intros x [? _]%list_elem_of_filter. }
  split_and!; [done| |].
  - intros i a d bar Hi Hbar. destruct (Hcase i a d Hi) as [->|[He _]]; [done|congruence].
  - intros i a d bar Hi Hbar. destruct (Hcase i a d Hi) as [He|[_ He]]; [left; congruence|right].
    by rewrite <- date_get_filter, <- (group_by_get group_key), <- He.
Qed.

End Upserts.

End StoreTheorems.

(** * A concrete store *)

(** Contents as the bars themselves. *)
#[global] Instance plain_codec : BarsCodec (list HistoricalDailyBar) :=
  {| dump_json := id; validate_json := Ok; validate_dump _ := eq_refl |}.

Definition sample_bar (i : string) (d : date) (close : Z) : HistoricalDailyBar := {|
  bar_instrument_identity := i; bar_trading_date := d; bar_open := dec 100 0; bar_high := dec 110 0;
  bar_low := dec 90 0; bar_close := dec close 0; bar_volume := 10; bar_adjustment := RAW;
  bar_source := "nse"; bar_source_version := None; bar_ingested_at := 0 |}.

Abbreviation SampleFiles := (gmap string (list HistoricalDailyBar)).

Definition sample_ids : list string := ["NSE:INFY"; "NSE:TCS"].

Lemma sample_separate : collision_free sample_ids.
Proof.
  intros i j Hi Hj. unfold sample_ids in *.
  repeat match goal with H : _ ∈ _ :: _ |- _ => apply elem_of_cons in H as [->|H]
    | H : _ ∈ [] |- _ => by apply not_elem_of_nil in H end; done.
Qed.

Definition sample_batch : list HistoricalDailyBar :=
  [sample_bar "NSE:INFY" 20500 101; sample_bar "NSE:TCS" 20500 102; sample_bar "NSE:INFY" 20500 103;
   sample_bar "NSE:INFY" 20499 104].

Lemma sample_batch_ids b : b ∈ sample_batch -> bar_instrument_identity b ∈ sample_ids.
Proof.
  unfold sample_batch, sample_ids. intros Hb.
  repeat match goal with H : _ ∈ _ :: _ |- _ => apply elem_of_cons in H as [->|H]
    | H : _ ∈ [] |- _ => by apply not_elem_of_nil in H end; cbn; set_solver.
Qed.

Lemma required_trading_dates_correct_witness : let cal := {| closed_dates := ∅; open_sessions := ∅;
    weekend_days := list_to_set default_weekend |} in
  exists ds, required_trading_dates cal 20500 3 = Ok ds /\ Z.of_nat (length ds) <= 3.
Proof.
  cbn zeta. destruct (required_trading_dates_correct {| closed_dates := ∅; open_sessions := ∅;
    weekend_days := list_to_set default_weekend |} 20500 3 ltac:(lia)) as (ds & Hds & _ & _ & Hl & _).
  exists ds. by split.
Defined.

Definition sample_files : SampleFiles := (upsert_many (∅ : SampleFiles) sample_batch).1.

Lemma sample_files_ok : store_ok sample_ids sample_files.
Proof.
  destruct (upsert_groups_ok sample_ids (group_by group_key sample_batch) (∅ : SampleFiles) no_counts
    sample_separate (bar_store_ok_empty _)) as (fs' & c & Hrun & Hok & _).
  - apply group_by_NoDup.
  - intros k g Hg. apply groups_keyed in Hg as [-> (b & Hin & <-)]. split; [by apply sample_batch_ids|].
    by intros x [? _]%list_elem_of_filter.
  - unfold sample_files, upsert_many. by rewrite Hrun.
Qed.

Lemma read_after_upsert_witness : exists fs' counts series,
  upsert_many (∅ : SampleFiles) sample_batch = (fs', Ok counts)
  /\ read_range fs' "NSE:INFY" 20499 20500 RAW = Ok series
  /\ sample_bar "NSE:INFY" 20500 101 ∈ ser_bars series.
Proof.
  destruct (read_after_upsert sample_ids sample_separate (∅ : SampleFiles) sample_batch "NSE:INFY" RAW 20499 20500
    (bar_store_ok_empty _) sample_batch_ids) as (fs' & counts & series & Hup & Hr & _ & Hin & _);
    [apply (bool_decide_unpack _); reflexivity|reflexivity|].
  exists fs', counts, series. split_and!; [exact Hup|exact Hr|]. apply Hin. split; [cbn; lia|]. right.
  split; vm_compute; reflexivity.
Defined.

Lemma interrupted_batch_loses_nothing_witness :
  let again := [sample_bar "NSE:INFY" 20498 105; sample_bar "NSE:INFY" 20500 99] in
  store_ok sample_ids (write_tmp sample_files "NSE:INFY" RAW
    (upsert_group again (by_date_of (default [] (sample_files !! path "NSE:INFY" RAW))) no_counts).1.1).
Proof.
  cbn zeta. apply (interrupted_batch_loses_nothing sample_ids sample_separate sample_files
    [sample_bar "NSE:INFY" 20498 105; sample_bar "NSE:INFY" 20500 99] _ sample_files_ok).
  - intros b Hb. repeat match goal with H : _ ∈ _ :: _ |- _ => apply elem_of_cons in H as [->|H]
      | H : _ ∈ [] |- _ => by apply not_elem_of_nil in H end; apply (bool_decide_unpack _); reflexivity.
  - apply elem_of_cons. right. apply elem_of_cons. left. vm_compute; reflexivity.
Defined.

(** Two instruments that share a file: the second cannot be read once the first is
    stored, and its own bar of that date is refused as a conflict. *)
Theorem identities_share_file :
  let fs := (upsert_many (∅ : SampleFiles) [sample_bar "NSE:M&M" 20500 101]).1 in
  (upsert_many fs [sample_bar "NSE:M_M" 20500 95]).2 = Ok {| n_inserted := 0; n_unchanged := 0; n_conflict := 1 |}
  /\ is_ok (read_range fs "NSE:M_M" 20500 20500 RAW) = false.
Proof. split; vm_compute; reflexivity. Qed.

(** A requirement that does not fit the bound of the walk counts as complete without
    the missing days. *)
Theorem truncated_requirement_complete : exists cal identity ds,
  required_trading_dates cal 20500 2 = Ok ds
  /\ cov_is_complete (compute_coverage identity ds []) = true.
Proof.
  exists {| closed_dates := ∅; open_sessions := ∅; weekend_days := list_to_set [0; 1; 2; 3; 4; 5; 6] |}, "NSE:INFY", [].
  split; vm_compute; reflexivity.
Qed.
