(* ===== verification/HistoryService.v ===== *)
(** The historical service, market_history/service.py: coverage of a requirement, the
    plan of missing dates and the idempotent backfill from a provider-neutral source.

    The store is an interface: any type with the operations the service calls and the
    laws it relies on, which the file store of [History] satisfies.  The source is any
    function from an instrument and a range to an answer; an answer carries the clock
    readings before and after the fetch.  [await] only sequences the fetches.

    The theorems say that a backfill never changes a bar that is held, adds only bars the
    source answered for required dates, completes every instrument the source can
    supply, and leaves a failed instrument untouched. *)
From S2P Require Import Prelude PyTime MarketData Session Samples History.

Local Open Scope Z_scope.

(** * The store interface *)

(** [HistoricalBarStore], with what a store promises: [st_held] is the bar held for an
    instrument, adjustment and date, and [st_ok] says for which identities the promise
    is made. *)
Class HistoricalBarStore (S : Type) : Type := {
  st_upsert_many : S -> list HistoricalDailyBar -> S * result UpsertCounts;
  st_read_range : S -> string -> date -> date -> PriceAdjustment -> result DailySeries;
  st_available_dates : S -> string -> PriceAdjustment -> result (list date);
  st_ok : list string -> S -> Prop;
  st_held : S -> string -> PriceAdjustment -> date -> option HistoricalDailyBar;
  st_upsert_law : forall ids s bars, st_ok ids s -> (forall b, b ∈ bars -> bar_instrument_identity b ∈ ids) ->
    exists s' counts, st_upsert_many s bars = (s', Ok counts) /\ st_ok ids s'
    /\ (forall i a d, i ∈ ids -> st_held s' i a d = match st_held s i a d with
          | Some bar => Some bar
          | None => head (filter (fun b => group_key b = (i, a) /\ bar_trading_date b = d) bars)
          end)
    /\ n_inserted counts + n_unchanged counts + n_conflict counts = Z.of_nat (length bars)
    /\ (n_inserted counts = 0 -> s' = s)
    /\ (forall i a, i ∈ ids -> (forall b, b ∈ bars -> group_key b = (i, a)) -> exists ds ds',
          st_available_dates s i a = Ok ds /\ st_available_dates s' i a = Ok ds'
          /\ n_inserted counts = Z.of_nat (length ds') - Z.of_nat (length ds)
          /\ n_conflict counts
             = Z.of_nat (length (filter (fun b => differs (st_held s' i a (bar_trading_date b)) b) bars)));
  st_range_law : forall ids s i a start stop, st_ok ids s -> i ∈ ids -> text_ok i 128 = true ->
    exists series, st_read_range s i start stop a = Ok series
    /\ (forall bar, bar ∈ ser_bars series <->
         st_held s i a (bar_trading_date bar) = Some bar /\ start <= bar_trading_date bar <= stop);
  st_dates_law : forall ids s i a, st_ok ids s -> i ∈ ids ->
    exists ds, st_available_dates s i a = Ok ds /\ NoDup ds /\ forall d, d ∈ ds <-> is_Some (st_held s i a d);
}.

(** * Source and metrics *)

Record HistoryAnswer : Type := {
  fetch_started : instant;
  fetch_bars : result (list HistoricalDailyBar);
  fetch_ended : instant;
}.

(** [isinstance(e, HistoricalSourceError)] *)
Definition is_source_error (e : exn) : bool :=
  match e with HistoricalSourceError => true | _ => false end.

Record HistoryMetrics : Type := {
  fetch_attempts : Z;
  fetch_successes : Z;
  fetch_failures : Z;
  bars_received : Z;
  bars_inserted : Z;
  bars_unchanged : Z;
  bar_conflicts : Z;
  coverage_checks : Z;
  complete_instruments : Z;
  incomplete_instruments : Z;
  missing_trading_days : Z;
  last_fetch_at : option instant;
  last_success_at : option instant;
  last_failure_at : option instant;
}.

Definition no_metrics : HistoryMetrics := {|
  fetch_attempts := 0; fetch_successes := 0; fetch_failures := 0; bars_received := 0;
  bars_inserted := 0; bars_unchanged := 0; bar_conflicts := 0; coverage_checks := 0;
  complete_instruments := 0; incomplete_instruments := 0; missing_trading_days := 0;
  last_fetch_at := None; last_success_at := None; last_failure_at := None |}.

(** The counters of one coverage check. *)
Definition count_coverage (m : HistoryMetrics) (missing : Z) (complete : bool) : HistoryMetrics := {|
  fetch_attempts := fetch_attempts m; fetch_successes := fetch_successes m;
  fetch_failures := fetch_failures m; bars_received := bars_received m;
  bars_inserted := bars_inserted m; bars_unchanged := bars_unchanged m; bar_conflicts := bar_conflicts m;
  coverage_checks := coverage_checks m + 1;
  complete_instruments := complete_instruments m + (if complete then 1 else 0);
  incomplete_instruments := incomplete_instruments m + (if complete then 0 else 1);
  missing_trading_days := missing_trading_days m + missing;
  last_fetch_at := last_fetch_at m; last_success_at := last_success_at m;
  last_failure_at := last_failure_at m |}.

(** The counters of one fetch, those of its answer and those of its upsert. *)
Definition count_fetch (m : HistoryMetrics) (answer : HistoryAnswer) : HistoryMetrics := {|
  fetch_attempts := fetch_attempts m + 1;
  fetch_successes := fetch_successes m + (if is_ok (fetch_bars answer) then 1 else 0);
  fetch_failures := fetch_failures m
    + match fetch_bars answer with Raise e => if is_source_error e then 1 else 0 | Ok _ => 0 end;
  bars_received := bars_received m
    + match fetch_bars answer with Ok bars => Z.of_nat (length bars) | Raise _ => 0 end;
  bars_inserted := bars_inserted m; bars_unchanged := bars_unchanged m; bar_conflicts := bar_conflicts m;
  coverage_checks := coverage_checks m; complete_instruments := complete_instruments m;
  incomplete_instruments := incomplete_instruments m; missing_trading_days := missing_trading_days m;
  last_fetch_at := Some (fetch_started answer);
  last_success_at := if is_ok (fetch_bars answer) then Some (fetch_ended answer) else last_success_at m;
  last_failure_at := match fetch_bars answer with
                     | Raise e => if is_source_error e then Some (fetch_ended answer) else last_failure_at m
                     | Ok _ => last_failure_at m
                     end |}.

Definition count_upsert (m : HistoryMetrics) (c : UpsertCounts) : HistoryMetrics := {|
  fetch_attempts := fetch_attempts m; fetch_successes := fetch_successes m;
  fetch_failures := fetch_failures m; bars_received := bars_received m;
  bars_inserted := bars_inserted m + n_inserted c; bars_unchanged := bars_unchanged m + n_unchanged c;
  bar_conflicts := bar_conflicts m + n_conflict c; coverage_checks := coverage_checks m;
  complete_instruments := complete_instruments m; incomplete_instruments := incomplete_instruments m;
  missing_trading_days := missing_trading_days m; last_fetch_at := last_fetch_at m;
  last_success_at := last_success_at m; last_failure_at := last_failure_at m |}.

(** * The service *)

Inductive PreviousCloseComparison : Type := AGREE | DISAGREE | UNAVAILABLE_CLOSE.

Record InstrumentBackfillResult : Type := {
  bf_instrument_identity : string;
  bf_missing_before : list date;
  bf_inserted : Z;
  bf_unchanged : Z;
  bf_conflicts : Z;
  bf_fetch_ok : bool;
  bf_complete_after : bool;
}.

(** [BackfillReport.complete_count] *)
Definition complete_count (results : list InstrumentBackfillResult) : Z :=
  Z.of_nat (length (filter (fun r => bf_complete_after r = true) results)).

(** [_identity] *)
Definition history_identity (i : Instrument) : string := (exchange i ++ ":" ++ symbol i)%string.

Section Service.
Context {S : Type} `{!HistoricalBarStore S}.

Record HistoricalService : Type := { sv_store : S; sv_metrics : HistoryMetrics }.

Variables (calendar : TradingCalendar) (corporate_action_authority : bool)
  (source : Instrument -> date -> date -> HistoryAnswer).

(** [_guard_adjustment] *)
Definition guard_adjustment (adjustment : PriceAdjustment) : result unit :=
  raise_if (bool_decide (adjustment = ADJUSTED) && negb corporate_action_authority) AdjustedDataUnavailableError.

Definition coverage (self : HistoricalService) (identity : string) (trading_days : Z) (as_of : date)
    (adjustment : PriceAdjustment) : HistoricalService * result HistoricalCoverage :=
  match
    (_ ← guard_adjustment adjustment;
     required ← required_trading_dates calendar as_of trading_days;
     dates ← st_available_dates (sv_store self) identity adjustment;
     Ok (compute_coverage identity required dates))
  with
  | Ok c => ({| sv_store := sv_store self;
                sv_metrics := count_coverage (sv_metrics self) (Z.of_nat (length (missing_dates c)))
                                (cov_is_complete c) |}, Ok c)
  | Raise e => (self, Raise e)
  end.

Definition previous_trading_bar (self : HistoricalService) (identity : string) (as_of : date)
    (adjustment : PriceAdjustment) : result (option HistoricalDailyBar) :=
  _ ← guard_adjustment adjustment;
  previous ← previous_trading_date calendar as_of;
  series ← st_read_range (sv_store self) identity previous previous adjustment;
  Ok (series_latest series).

(** [plan[identity] = missing] over the instruments *)
Definition plan_missing (self : HistoricalService) (instruments : list Instrument) (trading_days : Z)
    (as_of : date) (adjustment : PriceAdjustment) : result (dict string (list date)) :=
  _ ← guard_adjustment adjustment;
  required ← required_trading_dates calendar as_of trading_days;
  entries ← traverse (fun i =>
    dates ← st_available_dates (sv_store self) (history_identity i) adjustment;
    Ok (history_identity i, missing_dates (compute_coverage (history_identity i) required dates))) instruments;
  Ok (fold_left (fun d (kv : string * list date) => dict_set kv.1 kv.2 d) entries []).

(** [_fetch_and_store]: the counts of the upsert, [None] when the source failed. *)
Definition fetch_and_store (self : HistoricalService) (instrument : Instrument) (missing : list date)
    (adjustment : PriceAdjustment) : HistoricalService * result (option UpsertCounts) :=
  match head missing, last missing with
  | Some first, Some last_ =>
      let answer := source instrument first last_ in
      let self := {| sv_store := sv_store self; sv_metrics := count_fetch (sv_metrics self) answer |} in
      match fetch_bars answer with
      | Raise e => if is_source_error e then (self, Ok None) else (self, Raise e)
      | Ok fetched =>
          let wanted := filter (fun bar => bar_trading_date bar ∈ missing /\ bar_adjustment bar = adjustment) fetched in
          match st_upsert_many (sv_store self) wanted with
          | (store, Ok counts) =>
              ({| sv_store := store; sv_metrics := count_upsert (sv_metrics self) counts |}, Ok (Some counts))
          | (store, Raise e) => ({| sv_store := store; sv_metrics := sv_metrics self |}, Raise e)
          end
      end
  | _, _ => (self, Raise IndexError)
  end.

(** [_backfill_instrument] *)
Definition backfill_instrument (self : HistoricalService) (instrument : Instrument) (required : list date)
    (adjustment : PriceAdjustment) : HistoricalService * result InstrumentBackfillResult :=
  let identity := history_identity instrument in
  match st_available_dates (sv_store self) identity adjustment with
  | Raise e => (self, Raise e)
  | Ok dates =>
      let missing := missing_dates (compute_coverage identity required dates) in
      let '(self, fetched) :=
        if bool_decide (missing = []) then (self, Ok (Some no_counts))
        else fetch_and_store self instrument missing adjustment in
      (self,
       counts ← fetched;
       dates ← st_available_dates (sv_store self) identity adjustment;
       let c := default no_counts counts in
       Ok {| bf_instrument_identity := identity; bf_missing_before := missing;
             bf_inserted := n_inserted c; bf_unchanged := n_unchanged c; bf_conflicts := n_conflict c;
             bf_fetch_ok := is_not_none counts;
             bf_complete_after := cov_is_complete (compute_coverage identity required dates) |})
  end.

Fixpoint backfill_all (self : HistoricalService) (instruments : list Instrument) (required : list date)
    (adjustment : PriceAdjustment) : HistoricalService * result (list InstrumentBackfillResult) :=
  match instruments with
  | [] => (self, Ok [])
  | i :: instruments =>
      match backfill_instrument self i required adjustment with
      | (self, Raise e) => (self, Raise e)
      | (self, Ok r) =>
          let '(self, rest) := backfill_all self instruments required adjustment in
          (self, rs ← rest; Ok (r :: rs))
      end
  end.

Definition backfill (self : HistoricalService) (instruments : list Instrument) (trading_days : Z)
    (as_of : date) (adjustment : PriceAdjustment)
    : HistoricalService * result (list InstrumentBackfillResult) :=
  match (_ ← guard_adjustment adjustment; required_trading_dates calendar as_of trading_days) with
  | Raise e => (self, Raise e)
  | Ok required => backfill_all self instruments required adjustment
  end.

Definition compare_previous_close (self : HistoricalService) (identity : string) (as_of : date)
    (reference_previous_close : option Decimal) : result PreviousCloseComparison :=
  match reference_previous_close with
  | None => Ok UNAVAILABLE_CLOSE
  | Some reference =>
      bar ← previous_trading_bar self identity as_of RAW;
      Ok (match bar with
          | None => UNAVAILABLE_CLOSE
          | Some bar => if dec_eqb (bar_close bar) reference then AGREE else DISAGREE
          end)
  end.

End Service.

(** * The file store keeps the promise *)

#[global] Program Instance file_store {Bytes} `{!BarsCodec Bytes} : HistoricalBarStore (gmap string Bytes) := {|
  st_upsert_many := upsert_many;
  st_read_range := read_range;
  st_available_dates := available_dates;
  st_ok := fun ids fs => collision_free ids /\ store_ok ids fs;
  st_held := stored |}.
Next Obligation.
  intros Bytes ? ids fs bars [Hc Hs] Hb.
  destruct (upsert_many_refines ids Hc fs bars Hs Hb) as (fs' & counts & H1 & H2 & H3 & H4 & H5).
  exists fs', counts. split_and!; try done. intros i a Hi Hk. by apply (upsert_series_counts ids Hc fs bars i a fs' counts).
Qed.
Next Obligation.
  intros Bytes ? ids fs i a start stop [_ Hs] Hi Ht.
  destruct (read_range_exact ids fs i a start stop Hs Hi Ht) as (s & Hr & _ & _ & _ & Hin). by exists s.
Qed.
Next Obligation.
  intros Bytes ? ids fs i a [_ Hs] Hi. destruct (Hs i a Hi) as (bars & Hload & Hok).
  exists (bar_trading_date <$> bars). unfold available_dates, stored. rewrite Hload. split; [done|].
  split; [by eapply bars_ok_NoDup|]. intros d. rewrite list_elem_of_fmap. pose proof (bars_ok_NoDup _ _ Hok) as Hn. split.
  - intros (b & -> & Hb). exists b. by apply date_get_some.
  - intros [b [Hb Hd]%date_get_some]; [by exists b|done].
Qed.

(** * Lemmas *)

Lemma elem_of_missing i required dates d : d ∈ missing_dates (compute_coverage i required dates) <->
  d ∈ required /\ d ∉ dates.
Proof.
  unfold missing_dates, compute_coverage. cbn. rewrite list_elem_of_filter, elem_of_py_sorted, elem_of_from_keys.
  pose proof (not_elem_of_nil d). tauto.
Qed.

Lemma coverage_complete_iff i required dates : cov_is_complete (compute_coverage i required dates) = true <->
  forall d, d ∈ required -> d ∈ dates.
Proof.
  unfold cov_is_complete. rewrite bool_decide_eq_true. split.
  - intros Hm d Hd. destruct (decide (d ∈ dates)) as [|Hn]; [done|].
    assert (Hin : d ∈ missing_dates (compute_coverage i required dates)) by (by apply elem_of_missing).
    rewrite Hm in Hin. by apply not_elem_of_nil in Hin.
  - intros Hall. destruct (missing_dates (compute_coverage i required dates)) as [|d l] eqn:E; [done|].
    assert (Hin : d ∈ missing_dates (compute_coverage i required dates)) by (rewrite E; left).
    apply elem_of_missing in Hin as [Hr Hd]. by destruct Hd; apply Hall.
Qed.

Section ServiceTheorems.
Context {S : Type} `{!HistoricalBarStore S}.
Variables (source : Instrument -> date -> date -> HistoryAnswer) (ids : list string).

(** The source answers with bars of the instrument asked for, or fails as it may. *)
Definition honest_source : Prop := forall i start stop, history_identity i ∈ ids ->
  match fetch_bars (source i start stop) with
  | Ok bars => forall b, b ∈ bars -> bar_instrument_identity b = history_identity i
  | Raise e => is_source_error e = true
  end.

Hypothesis honest : honest_source.

(** The bars of an answer that a backfill keeps. *)
Definition wanted_bars (missing : list date) (a : PriceAdjustment) (bars : list HistoricalDailyBar)
    : list HistoricalDailyBar :=
  filter (fun bar => bar_trading_date bar ∈ missing /\ bar_adjustment bar = a) bars.

Definition no_counts_reported (r : InstrumentBackfillResult) : Prop :=
  bf_inserted r = 0 /\ bf_unchanged r = 0 /\ bf_conflicts r = 0.

(** What storing an answer's bars for the missing dates does and reports. *)
Definition stored_answer (s s' : S) (identity : string) (a : PriceAdjustment) (bars : list HistoricalDailyBar)
    (r : InstrumentBackfillResult) : Prop :=
  let missing := bf_missing_before r in
  let wanted := wanted_bars missing a bars in
  bf_fetch_ok r = true
  /\ (forall j b d, j ∈ ids -> st_held s' j b d = match st_held s j b d with
        | Some bar => Some bar
        | None => if decide (j = identity /\ b = a) then head (filter (fun bar => bar_trading_date bar = d) wanted) else None
        end)
  /\ bf_inserted r = Z.of_nat (length (filter (fun d => is_Some (st_held s' identity a d)) missing))
  /\ bf_conflicts r
     = Z.of_nat (length (filter (fun bar => differs (st_held s' identity a (bar_trading_date bar)) bar) wanted))
  /\ bf_inserted r + bf_unchanged r + bf_conflicts r = Z.of_nat (length wanted).

(** What one instrument's backfill does, and what its result says: which required dates
    were not held, whether all are held afterwards, and how the range between the first and
    the last missing date was filled. *)
Definition backfilled (s s' : S) (i : Instrument) (required : list date) (a : PriceAdjustment)
    (r : InstrumentBackfillResult) : Prop :=
  let identity := history_identity i in
  bf_instrument_identity r = identity
  /\ StronglySorted Z.lt (bf_missing_before r)
  /\ (forall d, d ∈ bf_missing_before r <-> d ∈ required /\ st_held s identity a d = None)
  /\ (bf_complete_after r = true <-> forall d, d ∈ required -> is_Some (st_held s' identity a d))
  /\ match head (bf_missing_before r), last (bf_missing_before r) with
     | Some first, Some last_ =>
         match fetch_bars (source i first last_) with
         | Ok bars => stored_answer s s' identity a bars r
         | Raise _ => s' = s /\ bf_fetch_ok r = false /\ no_counts_reported r
         end
     | _, _ => s' = s /\ bf_fetch_ok r = true /\ no_counts_reported r
     end.

(** Instrument after instrument. *)
Inductive backfills (required : list date) (a : PriceAdjustment)
  : S -> list Instrument -> list InstrumentBackfillResult -> S -> Prop :=
| backfills_nil s : backfills required a s [] [] s
| backfills_cons s s1 s' i r instruments results :
    backfilled s s1 i required a r -> backfills required a s1 instruments results s' ->
    backfills required a s (i :: instruments) (r :: results) s'.

Lemma head_is_some {A} (P : A -> Prop) `{!forall x, Decision (P x)} (l : list A) x : x ∈ l -> P x ->
  exists y, head (filter P l) = Some y.
Proof using Type.
  intros Hx Hp. destruct (filter P l) as [|y l'] eqn:E; [|by exists y].
  assert (Hin : x ∈ filter P l) by (by apply list_elem_of_filter). rewrite E in Hin. by apply not_elem_of_nil in Hin.
Qed.

Lemma missing_sorted identity required ds : StronglySorted Z.lt required ->
  StronglySorted Z.lt (missing_dates (compute_coverage identity required ds)).
Proof using Type. apply StronglySorted_filter. Qed.

Lemma increasing_NoDup (l : list date) : StronglySorted Z.lt l -> NoDup l.
Proof using Type.
  induction 1 as [|d l _ IH Hd]; constructor; [|done]. intros Hin. rewrite Forall_forall in Hd. specialize (Hd d Hin). lia.
Qed.

(** The bar a batch of one series gives a date. *)
Lemma series_head (bars : list HistoricalDailyBar) identity a j b d :
  (forall bar, bar ∈ bars -> group_key bar = (identity, a)) ->
  head (filter (fun bar => group_key bar = (j, b) /\ bar_trading_date bar = d) bars)
  = if decide (j = identity /\ b = a) then head (filter (fun bar => bar_trading_date bar = d) bars) else None.
Proof using Type.
  intros Hk. case_decide as He.
  - destruct He as [-> ->]. f_equal. apply filter_ext_elem. intros bar Hb. rewrite (Hk bar Hb). tauto.
  - destruct (filter _ bars) as [|bar l] eqn:E; [done|]. exfalso. apply He.
    assert (Hin : bar ∈ bar :: l) by left. rewrite <- E in Hin.
    apply list_elem_of_filter in Hin as [[Hg _] Hb]. rewrite (Hk bar Hb) in Hg. by injection Hg.
Qed.

(** As many dates are new as the available dates grow by. *)
Lemma new_dates (before after missing : list date) (held : date -> Prop) `{!forall d, Decision (held d)} :
  NoDup before -> NoDup after -> NoDup missing -> (forall d, d ∈ missing -> d ∉ before) ->
  (forall d, d ∈ after <-> d ∈ before \/ d ∈ missing /\ held d) ->
  Z.of_nat (length after) - Z.of_nat (length before) = Z.of_nat (length (filter held missing)).
Proof using Type.
  intros Hb Ha Hm Hnew Hiff. assert (Hp : after ≡ₚ before ++ filter held missing).
  { apply NoDup_Permutation; [done| |].
    - apply NoDup_app. split_and!; [done| |by apply NoDup_filter].
      intros d Hd [_ Hin]%list_elem_of_filter. by apply (Hnew d).
    - intros d. rewrite Hiff, elem_of_app, list_elem_of_filter. tauto. }
  rewrite Hp, length_app. lia.
Qed.

(** Storing an answer for the missing dates. *)
Lemma stored_answer_ok s i a missing bars ds :
  st_ok ids s -> history_identity i ∈ ids -> NoDup missing ->
  st_available_dates s (history_identity i) a = Ok ds ->
  (forall d, d ∈ missing -> st_held s (history_identity i) a d = None) ->
  (forall bar, bar ∈ bars -> bar_instrument_identity bar = history_identity i) ->
  exists s' counts, st_upsert_many s (wanted_bars missing a bars) = (s', Ok counts) /\ st_ok ids s'
  /\ forall r, bf_missing_before r = missing -> bf_fetch_ok r = true -> bf_inserted r = n_inserted counts ->
       bf_unchanged r = n_unchanged counts -> bf_conflicts r = n_conflict counts ->
       stored_answer s s' (history_identity i) a bars r.
Proof using Type.
  intros Hs Hi Hn Hds Hmiss Hb. set (identity := history_identity i) in *. set (wanted := wanted_bars missing a bars).
  assert (Hkey : forall bar, bar ∈ wanted -> group_key bar = (identity, a)).
  { intros bar [[_ Hadj] Hin]%list_elem_of_filter. unfold group_key. by rewrite (Hb bar Hin), Hadj. }
  destruct (st_upsert_law ids s wanted Hs) as (s' & counts & Hup & Hs' & Hheld & Htot & _ & Hcounts).
  { intros bar Hbar. specialize (Hkey bar Hbar). injection Hkey as -> _. done. }
  exists s', counts. split_and!; [done|done|]. intros r Hm Hok H1 H2 H3. unfold stored_answer. rewrite Hm. fold wanted.
  destruct (Hcounts identity a Hi Hkey) as (ds0 & ds' & Hds0 & Hds' & Hins & Hconf). rewrite Hds in Hds0. injection Hds0 as <-.
  destruct (st_dates_law ids s identity a Hs Hi) as (x & Hx & Hnd & Hin). rewrite Hds in Hx. injection Hx as <-.
  destruct (st_dates_law ids s' identity a Hs' Hi) as (x & Hx & Hnd' & Hin'). rewrite Hds' in Hx. injection Hx as <-.
  split_and!; [done| | |by rewrite H3|lia].
  - intros j b d Hj. rewrite Hheld by done. destruct (st_held s j b d); [done|]. by apply series_head.
  - rewrite H1, Hins. apply new_dates; [done..| |].
    + intros d Hd. rewrite Hin, (Hmiss d Hd). by intros [? [=]].
    + intros d. rewrite Hin', Hin, Hheld by done. destruct (st_held s identity a d) eqn:E; [naive_solver|].
      split; [|intros [[? [=]]|[_ H]]; done]. intros H. right. split; [|done].
      destruct H as [bar [[_ Hd] [[Hm' _] _]%list_elem_of_filter]%head_Some_elem_of%list_elem_of_filter]. congruence.
Qed.

Lemma backfill_instrument_ok (sv : HistoricalService) i required a :
  st_ok ids (sv_store sv) -> history_identity i ∈ ids -> StronglySorted Z.lt required ->
  exists sv' r, backfill_instrument source sv i required a = (sv', Ok r) /\ st_ok ids (sv_store sv')
  /\ backfilled (sv_store sv) (sv_store sv') i required a r.
Proof using honest.
  intros Hs Hi Hreq. unfold backfill_instrument. destruct (st_dates_law ids _ _ a Hs Hi) as (ds & Hav & _ & Hds).
  rewrite Hav. pose proof (missing_sorted (history_identity i) required ds Hreq) as Hsort.
  assert (Hmiss : forall d, d ∈ missing_dates (compute_coverage (history_identity i) required ds) <->
    d ∈ required /\ st_held (sv_store sv) (history_identity i) a d = None).
  { intros d. rewrite elem_of_missing, Hds. by rewrite <- eq_None_not_Some. }
  revert Hsort Hmiss. generalize (missing_dates (compute_coverage (history_identity i) required ds)).
  intros missing Hsort Hmiss.
  assert (Hdone : forall s', st_ok ids s' -> exists ds', st_available_dates s' (history_identity i) a = Ok ds'
    /\ (cov_is_complete (compute_coverage (history_identity i) required ds') = true <->
       forall d, d ∈ required -> is_Some (st_held s' (history_identity i) a d))).
  { intros s' Hs'. destruct (st_dates_law ids s' _ a Hs' Hi) as (ds' & Hds' & _ & Hin). exists ds'. split; [done|].
    rewrite coverage_complete_iff. by setoid_rewrite Hin. }
  unfold backfilled. case_bool_decide as Hnil.
  { destruct (Hdone _ Hs) as (ds' & -> & Hc). cbn [mbind result_bind]. eexists _, _. split; [reflexivity|]. split; [done|].
    cbn [bf_instrument_identity bf_missing_before bf_complete_after]. subst missing. by split_and!. }
  unfold fetch_and_store. destruct missing as [|first rest] eqn:Em; [done|]. rewrite <- Em in *.
  destruct (head missing) as [f|] eqn:Eh; [|by rewrite Em in Eh]. destruct (last missing) as [l|] eqn:El; [|by rewrite Em, last_cons in El; destruct (last rest)].
  pose proof (honest i f l Hi) as Hh. destruct (fetch_bars (source i f l)) as [fetched|e] eqn:Ef; cbn [sv_store].
  - fold (wanted_bars missing a fetched).
    destruct (stored_answer_ok (sv_store sv) i a missing fetched ds Hs Hi) as (s' & counts & Hup & Hs' & Hanswer); [|done| |done|].
    { by apply increasing_NoDup. }
    { intros d Hd. by apply Hmiss. }
    rewrite Hup. cbn [sv_store mbind result_bind]. destruct (Hdone _ Hs') as (ds' & -> & Hc). cbn [mbind result_bind].
    eexists _, _. split; [reflexivity|]. split; [done|].
    cbn [bf_instrument_identity bf_missing_before bf_complete_after sv_store]. rewrite Eh, El, Ef.
    split_and!; try done. by apply Hanswer.
  - rewrite Hh. cbn [sv_store mbind result_bind]. destruct (Hdone _ Hs) as (ds' & -> & Hc). cbn [mbind result_bind].
    eexists _, _. split; [reflexivity|]. split; [done|].
    cbn [bf_instrument_identity bf_missing_before bf_complete_after sv_store]. rewrite Eh, El, Ef. by split_and!.
Qed.

(** An instrument's backfill adds bars of its own only, and its own where they were missing. *)
Lemma backfilled_held s s' i required a r j b d : backfilled s s' i required a r -> j ∈ ids ->
  st_held s' j b d = st_held s j b d
  \/ st_held s j b d = None /\ j = history_identity i /\ b = a /\ d ∈ required
     /\ exists first last_ bars, fetch_bars (source i first last_) = Ok bars
          /\ forall bar, st_held s' j b d = Some bar -> bar ∈ bars.
Proof using Type.
  clear honest.
  intros (_ & _ & Hmiss & _ & H) Hj. destruct (head _) as [f|]; [|destruct H as [-> _]; by left].
  destruct (last _) as [l|]; [|destruct H as [-> _]; by left].
  destruct (fetch_bars (source i f l)) as [bars|] eqn:Ef; [|destruct H as [-> _]; by left].
  destruct H as (_ & Hheld & _). rewrite Hheld by done. destruct (st_held s j b d) eqn:E; [by left|].
  case_decide as Hk; [|by left]. destruct Hk as [-> ->].
  destruct (head (filter _ _)) as [bar|] eqn:Eh; [|by left]. right.
  apply head_Some_elem_of, list_elem_of_filter in Eh as [Hd [[Hm _] Hb]%list_elem_of_filter]. subst d.
  split_and!; [done|done|done|by apply Hmiss|]. exists f, l, bars. split; [done|]. by intros x [= <-].
Qed.

Lemma backfilled_keeps s s' i required a r j b d bar : backfilled s s' i required a r -> j ∈ ids ->
  st_held s j b d = Some bar -> st_held s' j b d = Some bar.
Proof using Type.
  clear honest.
  intros Hb Hj Hbar. destruct (backfilled_held _ _ _ _ _ _ j b d Hb Hj) as [->|(He & _)]; congruence.
Qed.

Lemma backfilled_full s s' i required a r bars : backfilled s s' i required a r -> history_identity i ∈ ids ->
  (forall first last_, fetch_bars (source i first last_) = Ok bars) ->
  (forall d, d ∈ required -> exists bar, bar ∈ bars /\ bar_trading_date bar = d /\ bar_adjustment bar = a) ->
  forall d, d ∈ required -> is_Some (st_held s' (history_identity i) a d).
Proof using Type.
  clear honest.
  intros (_ & _ & Hmiss & _ & H) Hi Hbars Hall d Hd.
  destruct (st_held s (history_identity i) a d) as [bar|] eqn:E.
  { exists bar. destruct (head _) as [f|]; [|by destruct H as [-> _]]. destruct (last _) as [l|]; [|by destruct H as [-> _]].
    rewrite Hbars in H. destruct H as (_ & Hheld & _). by rewrite Hheld, E. }
  assert (Hin : d ∈ bf_missing_before r) by (by apply Hmiss). revert H Hin.
  destruct (bf_missing_before r) as [|f rest] eqn:Em; [intros _ Hin; by apply not_elem_of_nil in Hin|].
  cbn [head]. rewrite last_cons. intros H Hin.
  replace (match last rest with Some y => Some y | None => Some f end)
    with (Some (default f (last rest))) in H by (by destruct (last rest)).
  rewrite Hbars in H. destruct H as (_ & Hheld & _). rewrite Hheld, E, decide_True, Em by done.
  destruct (Hall d Hd) as (bar & Hb & Hbd & Hba). apply (head_is_some _ _ bar); [|done].
  apply list_elem_of_filter. rewrite Hbd. by split.
Qed.

Lemma backfills_keeps required a s instruments results s' j b d bar : backfills required a s instruments results s' ->
  j ∈ ids -> st_held s j b d = Some bar -> st_held s' j b d = Some bar.
Proof using Type.
  clear honest.
  induction 1 as [|s s1 s' i r instruments results Hb _ IH]; intros Hj Hbar; [done|]. apply IH; [done|].
  by eapply backfilled_keeps.
Qed.

(** What an instrument does not name is left alone. *)
Lemma backfills_others required a s instruments results s' j b d : backfills required a s instruments results s' ->
  j ∈ ids -> j ∉ history_identity <$> instruments -> st_held s' j b d = st_held s j b d.
Proof using Type.
  clear honest.
  induction 1 as [|s s1 s' i r instruments results Hb _ IH]; intros Hj Hn; [done|].
  rewrite fmap_cons in Hn. rewrite IH by (done || set_solver).
  destruct (backfilled_held _ _ _ _ _ _ j b d Hb Hj) as [->|(_ & -> & _)]; [done|]. destruct Hn. left.
Qed.

Lemma backfills_complete required a s instruments results s' : backfills required a s instruments results s' ->
  (forall i, i ∈ instruments -> history_identity i ∈ ids) -> NoDup (history_identity <$> instruments) ->
  forall r, r ∈ results -> bf_complete_after r = true <->
    forall d, d ∈ required -> is_Some (st_held s' (bf_instrument_identity r) a d).
Proof using Type.
  clear honest.
  induction 1 as [|s s1 s' i r instruments results Hb Hbs IH]; intros Hids Hn r' Hr; [by apply not_elem_of_nil in Hr|].
  rewrite fmap_cons in Hn. apply NoDup_cons in Hn as [Hnew Hn]. apply elem_of_cons in Hr as [->|Hr].
  - pose proof Hb as (-> & _ & _ & -> & _).
    assert (Hsame : forall d, st_held s' (history_identity i) a d = st_held s1 (history_identity i) a d).
    { intros d. eapply backfills_others; [done| |done]. apply Hids. left. }
    by setoid_rewrite Hsame.
  - apply IH; [|done|done]. intros j Hj. apply Hids. by right.
Qed.

Lemma backfills_full required a s instruments results s' i bars : backfills required a s instruments results s' ->
  (forall i, i ∈ instruments -> history_identity i ∈ ids) -> i ∈ instruments ->
  (forall first last_, fetch_bars (source i first last_) = Ok bars) ->
  (forall d, d ∈ required -> exists bar, bar ∈ bars /\ bar_trading_date bar = d /\ bar_adjustment bar = a) ->
  forall d, d ∈ required -> is_Some (st_held s' (history_identity i) a d).
Proof using Type.
  clear honest.
  induction 1 as [|s s1 s' j r instruments results Hb Hbs IH]; intros Hids Hi Hf Hall d Hd; [by apply not_elem_of_nil in Hi|].
  apply elem_of_cons in Hi as [->|Hi].
  - destruct (backfilled_full _ _ _ _ _ _ bars Hb (Hids j ltac:(left)) Hf Hall d Hd) as [bar Hbar]. exists bar.
    eapply backfills_keeps; [done| |done]. apply Hids. left.
  - apply IH; try done. intros k Hk. apply Hids. by right.
Qed.

Lemma backfill_all_ok instruments required a : StronglySorted Z.lt required ->
  forall sv : HistoricalService, st_ok ids (sv_store sv) -> (forall i, i ∈ instruments -> history_identity i ∈ ids) ->
  exists sv' results, backfill_all source sv instruments required a = (sv', Ok results)
  /\ st_ok ids (sv_store sv') /\ backfills required a (sv_store sv) instruments results (sv_store sv').
Proof using honest.
  intros Hreq. induction instruments as [|i instruments IH]; intros sv Hs Hids.
  { exists sv, []. split_and!; [done|done|constructor]. }
  destruct (backfill_instrument_ok sv i required a Hs (Hids i ltac:(left)) Hreq) as (sv1 & r & Hr & Hs1 & Hb).
  destruct (IH sv1 Hs1) as (sv' & results & Hall & Hs' & Hbs); [intros j Hj; apply Hids; by right|].
  exists sv', (r :: results). cbn [backfill_all]. rewrite Hr, Hall. split_and!; [done|done|by econstructor].
Qed.

(** [C32] A backfill of raw data, or of adjusted data with a corporate-action authority, from a
    source that answers with bars of the instrument it is asked for or fails with a source
    error, never raises for identities the store keeps apart.  It goes through the instruments
    in order.  Each is asked once for the range from its first to its last missing date, or
    not at all when nothing is missing; of the answer exactly the first bar of each missing
    date with the adjustment asked for is added, and nothing that is held ever changes.  Each
    result names the dates that were missing, whether the fetch succeeded, exactly how many
    dates were added and how many bars conflict with a held one, and reports completeness if
    and only if every required date is held after that instrument's turn; for distinct
    instruments, if and only if it is held in the end.  Every instrument for which the source
    has a bar on each required date ends up complete, whatever happens to the others. *)
Theorem backfill_correct calendar authority (sv : HistoricalService) instruments trading_days as_of a :
  a = RAW \/ authority = true -> 0 <= trading_days -> st_ok ids (sv_store sv) ->
  (forall i, i ∈ instruments -> history_identity i ∈ ids) ->
  exists sv' results required,
    backfill calendar authority source sv instruments trading_days as_of a = (sv', Ok results)
    /\ required_trading_dates calendar as_of trading_days = Ok required
    /\ st_ok ids (sv_store sv')
    /\ backfills required a (sv_store sv) instruments results (sv_store sv')
    /\ (forall j b d bar, j ∈ ids -> st_held (sv_store sv) j b d = Some bar -> st_held (sv_store sv') j b d = Some bar)
    /\ (NoDup (history_identity <$> instruments) -> forall r, r ∈ results -> bf_complete_after r = true <->
         forall d, d ∈ required -> is_Some (st_held (sv_store sv') (bf_instrument_identity r) a d))
    /\ (forall i bars, i ∈ instruments -> (forall first last_, fetch_bars (source i first last_) = Ok bars) ->
         (forall d, d ∈ required -> exists bar, bar ∈ bars /\ bar_trading_date bar = d /\ bar_adjustment bar = a) ->
         forall d, d ∈ required -> is_Some (st_held (sv_store sv') (history_identity i) a d)).
Proof using honest.
  intros Ha Hn Hs Hids. unfold backfill, guard_adjustment.
  replace (bool_decide (a = ADJUSTED) && negb authority) with false
    by (destruct Ha as [->| ->]; [done|by rewrite andb_false_r]).
  cbn [raise_if mbind result_bind]. destruct (required_dates_sorted calendar as_of trading_days Hn) as (required & -> & Hreq).
  destruct (backfill_all_ok instruments required a Hreq sv Hs Hids) as (sv' & rs & Hrun & Hs' & Hall).
  exists sv', rs, required. split_and!; try done.
  - intros j b d bar. by eapply backfills_keeps.
  - by eapply backfills_complete.
  - intros i bars Hi. by eapply backfills_full.
Qed.

End ServiceTheorems.

(** * A concrete service *)

Definition weekday_calendar : TradingCalendar :=
  {| closed_dates := ∅; open_sessions := ∅; weekend_days := list_to_set default_weekend |}.

(** A source that has every day of one instrument and fails for the others. *)
Definition sample_source (i : Instrument) (first last_ : date) : HistoryAnswer := {|
  fetch_started := 1; fetch_ended := 2;
  fetch_bars := if bool_decide (history_identity i = "NSE:RELIANCE")
    then Ok [sample_bar "NSE:RELIANCE" 20499 101; sample_bar "NSE:RELIANCE" 20500 102;
             sample_bar "NSE:RELIANCE" 20501 103]
    else Raise HistoricalSourceError |}.

Definition sample_service : HistoricalService (S := SampleFiles) :=
  {| sv_store := ∅; sv_metrics := no_metrics |}.

Lemma sample_source_honest : honest_source sample_source ["NSE:RELIANCE"].
Proof.
  intros i f l _. unfold sample_source. cbn. case_bool_decide as H; [|done]. rewrite H.
  intros b Hb. repeat match goal with H : _ ∈ _ :: _ |- _ => apply elem_of_cons in H as [->|H]
    | H : _ ∈ [] |- _ => by apply not_elem_of_nil in H end; done.
Qed.

Lemma backfill_correct_witness : exists sv' results,
  backfill weekday_calendar false sample_source sample_service [reliance] 2 20501 RAW = (sv', Ok results)
  /\ is_Some (st_held (sv_store sv') "NSE:RELIANCE" RAW 20500).
Proof.
  destruct (backfill_correct sample_source ["NSE:RELIANCE"] sample_source_honest weekday_calendar false sample_service
    [reliance] 2 20501 RAW) as (sv' & rs & req & Hrun & Hreq & _ & _ & _ & _ & Hfull).
  - by left.
  - lia.
  - split; [|apply bar_store_ok_empty]. intros i j Hi%list_elem_of_singleton Hj%list_elem_of_singleton _. congruence.
  - intros i Hi%list_elem_of_singleton. subst i. apply (bool_decide_unpack _). reflexivity.
  - exists sv', rs. split; [exact Hrun|].
    assert (Hreq' : required_trading_dates weekday_calendar 20501 2 = Ok [20500; 20501]) by (vm_compute; reflexivity).
    rewrite Hreq' in Hreq. injection Hreq as <-.
    apply (Hfull reliance [sample_bar "NSE:RELIANCE" 20499 101; sample_bar "NSE:RELIANCE" 20500 102;
             sample_bar "NSE:RELIANCE" 20501 103]); [left|done| |left].
    intros d Hd. apply elem_of_cons in Hd as [->|Hd%list_elem_of_singleton].
    + exists (sample_bar "NSE:RELIANCE" 20500 102). split_and!; [right; left|done|done].
    + subst d. exists (sample_bar "NSE:RELIANCE" 20501 103). split_and!; [right; right; left|done|done].
Defined.

(** A fetched bar of another instrument is stored under that instrument. *)
Theorem foreign_bar_stored :
  let answer := {| fetch_started := 1; fetch_bars := Ok [sample_bar "NSE:TCS" 20501 101]; fetch_ended := 2 |} in
  let '(sv, _) := backfill weekday_calendar false (fun _ _ _ => answer) sample_service [reliance] 1 20501 RAW in
  (bar_trading_date <$> st_held (sv_store sv) "NSE:TCS" RAW 20501) = Some 20501
  /\ st_held (sv_store sv) "NSE:RELIANCE" RAW 20501 = None.
Proof. vm_compute. split; reflexivity. Qed.
