(* ===== verification/PlanningReadiness.v ===== *)
(** Planning-time readiness, strategy_readiness: the projection of a strategy's
    requirements, and the engine that classifies an instrument for a strategy from
    universe membership, history and live state.

    The three views the engine reads are records of functions, as the source states them
    as protocols; [service_view] builds the history view on the service of
    [HistoryService].  The clock is a stream of readings, one per call of [now].  A text
    the source makes with [str] is represented by the value it shows.

    The theorems say that an instrument is ready exactly when every declared input is
    there, which verdict each missing input gives, and that a ready instrument really has
    its bars in the store. *)
From S2P Require Import Prelude PyTime MarketData Timeframe Session Context Requirements Strategy.
From S2P Require Import Samples History HistoryService.

Local Open Scope Z_scope.

(** * Requirements *)

Record HistoricalNeed : Type := {
  hn_trading_days : Z;
  hn_adjustment : PriceAdjustment;
}.

Record ReadinessRequirement : Type := {
  rr_historical : option HistoricalNeed;
  rr_needs_previous_day_ohlc : bool;
  rr_needs_previous_close : bool;
  rr_needs_session_open : bool;
  rr_needs_last_price : bool;
  rr_max_live_age : option timedelta;
}.

(** [requires_live] *)
Definition requires_live (r : ReadinessRequirement) : bool :=
  rr_needs_session_open r || rr_needs_last_price r.

(** [f in _PROJECTABLE_FACT_NEEDS] *)
Definition projectable (f : FactNeed) : bool :=
  match f with PREVIOUS_SESSION | SESSION_FACT | LATEST_TICK => true | _ => false end.

(** [max(...)] and [min(...)] of a non-empty sequence *)
Definition py_max (l : list Z) : option Z :=
  match l with [] => None | x :: l => Some (fold_left Z.max l x) end.
Definition py_min (l : list Z) : option Z :=
  match l with [] => None | x :: l => Some (fold_left Z.min l x) end.

Definition readiness_requirement_from (requirements : StrategyRequirements) (needs_previous_close : bool)
    : result ReadinessRequirement :=
  let unsupported := py_sorted String.leb
    (need_value <$> filter (fun f => projectable f = false) (sr_fact_needs requirements)) in
  _ ← raise_if (negb (bool_decide (unsupported = []))) UnsupportedReadinessRequirementError;
  let trading_days := py_max (lookback <$> sr_historical requirements) in
  let strictest_age := py_min (fr_max_age <$> sr_freshness requirements) in
  _ ← raise_if (match trading_days with Some n => n <? 1 | None => false end)
    (ValidationError "greater_than_equal");
  _ ← raise_if (match strictest_age with Some t => t <=? 0 | None => false end)
    (ValidationError "greater_than");
  Ok {| rr_historical := (fun n => {| hn_trading_days := n; hn_adjustment := RAW |}) <$> trading_days;
        rr_needs_previous_day_ohlc := bool_decide (PREVIOUS_SESSION ∈ sr_fact_needs requirements);
        rr_needs_previous_close := needs_previous_close;
        rr_needs_session_open := bool_decide (SESSION_FACT ∈ sr_fact_needs requirements);
        rr_needs_last_price := bool_decide (LATEST_TICK ∈ sr_fact_needs requirements);
        rr_max_live_age := strictest_age |}.

(** * Results *)

Inductive StrategyReadinessStatus : Type :=
| S_READY | WARMING_UP | MISSING_HISTORY | MISSING_REFERENCE | MISSING_LIVE_DATA
| UNIVERSE_MISMATCH | REMOVED | STALE.

#[global] Instance StrategyReadinessStatus_eq_dec : EqDecision StrategyReadinessStatus.
Proof. solve_decision. Defined.

Inductive ReadinessReasonCode : Type :=
| REMOVED_FROM_UNIVERSE | UNIVERSE_VERSION_MISMATCH | INSUFFICIENT_HISTORY | PREVIOUS_DAY_MISSING
| ADJUSTED_HISTORY_UNAVAILABLE | MISSING_PREVIOUS_CLOSE | MISSING_SESSION_OPEN | MISSING_LAST_PRICE
| LIVE_DATA_STALE | AWAITING_FIRST_OBSERVATION.

(** The value a reason shows with [str]. *)
Inductive Shown : Type :=
| ShownInt (n : Z) | ShownAge (t : timedelta) | ShownAdjustment (a : PriceAdjustment).

Record ReadinessReason : Type := {
  reason_code : ReadinessReasonCode;
  reason_field : string;
  reason_required : option Shown;
  reason_available : option Shown;
}.

Definition reason (c : ReadinessReasonCode) (field : string) : ReadinessReason :=
  {| reason_code := c; reason_field := field; reason_required := None; reason_available := None |}.

Record StrategyReadinessResult : Type := {
  rs_instrument_identity : string;
  rs_strategy_id : string;
  rs_universe_version : Z;
  rs_trading_date : date;
  rs_status : StrategyReadinessStatus;
  rs_reasons : list ReadinessReason;
  rs_evaluated_at : instant;
}.

Definition is_ready (r : StrategyReadinessResult) : bool := bool_decide (rs_status r = S_READY).

Record StrategyReadinessSnapshot : Type := {
  rn_trading_date : date;
  rn_universe_version : Z;
  rn_results : list StrategyReadinessResult;
}.

(** [totals_by_status], read at one status *)
Definition total_of (s : StrategyReadinessSnapshot) (status : StrategyReadinessStatus) : Z :=
  Z.of_nat (length (filter (fun r => rs_status r = status) (rn_results s))).

Definition ready_pairs (s : StrategyReadinessSnapshot) : list (string * string) :=
  (fun r => (rs_instrument_identity r, rs_strategy_id r)) <$> filter (fun r => is_ready r = true) (rn_results s).

(** * The engine *)

Record UniverseView : Type := {
  is_member : string -> bool;
  current_universe_version : Z;
}.

Record HistoricalCoverageView : Type := {
  view_coverage : string -> Z -> PriceAdjustment -> date -> result HistoricalCoverage;
  has_previous_trading_bar : string -> date -> result bool;
}.

Record LiveReadinessState : Type := {
  live_previous_close : string -> option Decimal;
  live_session_open : string -> option Decimal;
  live_last_price : string -> option Decimal;
  live_observed_at : string -> option instant;
  data_universe_version : string -> option Z;
}.

(** [ReadinessMetrics]: the total and one counter per status. *)
Record ReadinessMetrics : Type := {
  evaluations_total : Z;
  status_total : StrategyReadinessStatus -> Z;
  last_evaluation_at : option instant;
}.

Definition record_status (m : ReadinessMetrics) (status : StrategyReadinessStatus) (now : instant)
    : ReadinessMetrics := {|
  evaluations_total := evaluations_total m + 1;
  status_total := fun s => status_total m s + (if bool_decide (s = status) then 1 else 0);
  last_evaluation_at := Some now |}.

(** The state of the engine: how often the clock was read, and the metrics. *)
Record EngineState : Type := { eg_reads : nat; eg_metrics : ReadinessMetrics }.

Definition read_clock (s : EngineState) : EngineState := {| eg_reads := S (eg_reads s); eg_metrics := eg_metrics s |}.

Definition verdict : Type := (StrategyReadinessStatus * list ReadinessReason)%type.

Section Engine.
Variables (universe : UniverseView) (history : HistoricalCoverageView) (live : LiveReadinessState)
  (clock : nat -> instant).

(** [_universe_mismatch] *)
Definition universe_mismatch (identity : string) : option ReadinessReason :=
  let current := current_universe_version universe in
  match data_universe_version live identity with
  | Some v =>
      if negb (v =? current)
      then Some {| reason_code := UNIVERSE_VERSION_MISMATCH; reason_field := "universe_version";
                   reason_required := Some (ShownInt current); reason_available := Some (ShownInt v) |}
      else None
  | None => None
  end.

(** [_history_problem]; the exception of an adjusted request is caught. *)
Definition history_problem (identity : string) (r : ReadinessRequirement) (as_of : date)
    : result (option ReadinessReason) :=
  let previous_day :=
    if rr_needs_previous_day_ohlc r then
      has ← has_previous_trading_bar history identity as_of;
      Ok (if has : bool then None else Some (reason PREVIOUS_DAY_MISSING "previous_day_ohlc"))
    else Ok None in
  match rr_historical r with
  | None => previous_day
  | Some need =>
      match view_coverage history identity (hn_trading_days need) (hn_adjustment need) as_of with
      | Raise AdjustedDataUnavailableError =>
          Ok (Some {| reason_code := ADJUSTED_HISTORY_UNAVAILABLE; reason_field := "historical.adjustment";
                      reason_required := Some (ShownAdjustment (hn_adjustment need)); reason_available := None |})
      | Raise e => Raise e
      | Ok c =>
          if negb (cov_is_complete c)
          then Ok (Some {| reason_code := INSUFFICIENT_HISTORY; reason_field := "historical.trading_days";
                           reason_required := Some (ShownInt (hn_trading_days need));
                           reason_available := Some (ShownInt (available_count c)) |})
          else previous_day
      end
  end.

(** [_staleness], with the reading of the clock when an age is declared *)
Definition staleness (s : EngineState) (observed_at : instant) (r : ReadinessRequirement)
    : EngineState * option ReadinessReason :=
  match rr_max_live_age r with
  | None => (s, None)
  | Some limit =>
      let age := clock (eg_reads s) - observed_at in
      (read_clock s,
       if limit <? age
       then Some {| reason_code := LIVE_DATA_STALE; reason_field := "observed_at";
                    reason_required := Some (ShownAge limit); reason_available := Some (ShownAge age) |}
       else None)
  end.

(** [_live_status] *)
Definition live_status (s : EngineState) (identity : string) (r : ReadinessRequirement)
    : EngineState * verdict :=
  if negb (requires_live r) then (s, (S_READY, []))
  else match live_observed_at live identity with
       | None => (s, (WARMING_UP, [reason AWAITING_FIRST_OBSERVATION "observed_at"]))
       | Some observed_at =>
           if rr_needs_session_open r && negb (is_not_none (live_session_open live identity))
           then (s, (MISSING_LIVE_DATA, [reason MISSING_SESSION_OPEN "session_open"]))
           else if rr_needs_last_price r && negb (is_not_none (live_last_price live identity))
           then (s, (MISSING_LIVE_DATA, [reason MISSING_LAST_PRICE "last_price"]))
           else let '(s, stale) := staleness s observed_at r in
                match stale with
                | Some why => (s, (STALE, [why]))
                | None => (s, (S_READY, []))
                end
       end.

(** [_classify] *)
Definition classify_readiness (s : EngineState) (identity : string) (r : ReadinessRequirement) (as_of : date)
    : EngineState * result verdict :=
  if negb (is_member universe identity)
  then (s, Ok (REMOVED, [reason REMOVED_FROM_UNIVERSE "universe"]))
  else match universe_mismatch identity with
       | Some why => (s, Ok (UNIVERSE_MISMATCH, [why]))
       | None =>
           match history_problem identity r as_of with
           | Raise e => (s, Raise e)
           | Ok (Some why) => (s, Ok (MISSING_HISTORY, [why]))
           | Ok None =>
               if rr_needs_previous_close r && negb (is_not_none (live_previous_close live identity))
               then (s, Ok (MISSING_REFERENCE, [reason MISSING_PREVIOUS_CLOSE "previous_close"]))
               else let '(s, v) := live_status s identity r in (s, Ok v)
           end
       end.

Definition evaluate_readiness (s : EngineState) (identity strategy_id : string) (r : ReadinessRequirement)
    (trading_date : date) : EngineState * result StrategyReadinessResult :=
  match classify_readiness s identity r trading_date with
  | (s, Raise e) => (s, Raise e)
  | (s, Ok (status, reasons)) =>
      let res := {| rs_instrument_identity := identity; rs_strategy_id := strategy_id;
                    rs_universe_version := current_universe_version universe;
                    rs_trading_date := trading_date; rs_status := status; rs_reasons := reasons;
                    rs_evaluated_at := clock (eg_reads s) |} in
      let s := read_clock s in
      ({| eg_reads := S (eg_reads s); eg_metrics := record_status (eg_metrics s) status (clock (eg_reads s)) |},
       Ok res)
  end.

Fixpoint evaluate_pairs (s : EngineState) (pairs : list (string * (string * ReadinessRequirement)))
    (trading_date : date) : EngineState * result (list StrategyReadinessResult) :=
  match pairs with
  | [] => (s, Ok [])
  | (identity, (strategy_id, r)) :: pairs =>
      match evaluate_readiness s identity strategy_id r trading_date with
      | (s, Raise e) => (s, Raise e)
      | (s, Ok res) =>
          let '(s, rest) := evaluate_pairs s pairs trading_date in
          (s, rs ← rest; Ok (res :: rs))
      end
  end.

Definition evaluate_batch (s : EngineState) (identities : list string)
    (strategy_requirements : dict string ReadinessRequirement) (trading_date : date)
    : EngineState * result StrategyReadinessSnapshot :=
  let pairs := identities ≫= fun identity => (fun kv => (identity, kv)) <$> strategy_requirements in
  let '(s, results) := evaluate_pairs s pairs trading_date in
  (s, rs ← results;
      Ok {| rn_trading_date := trading_date; rn_universe_version := current_universe_version universe;
            rn_results := rs |}).

End Engine.

(** * The history view of a service *)

Section View.
Context {S : Type} `{!HistoricalBarStore S}.
Variables (calendar : TradingCalendar) (authority : bool) (sv : HistoricalService (S := S)).

Definition service_view : HistoricalCoverageView := {|
  view_coverage := fun identity trading_days adjustment as_of =>
    (coverage calendar authority sv identity trading_days as_of adjustment).2;
  has_previous_trading_bar := fun identity as_of =>
    bar ← previous_trading_bar calendar authority sv identity as_of RAW; Ok (is_not_none bar) |}.

Lemma coverage_complete ids identity n a as_of c : st_ok ids (sv_store sv) -> identity ∈ ids ->
  (coverage calendar authority sv identity n as_of a).2 = Ok c -> cov_is_complete c = true ->
  exists required, required_trading_dates calendar as_of n = Ok required
  /\ forall d, d ∈ required -> is_Some (st_held (sv_store sv) identity a d).
Proof using Type.
  intros Hs Hi. unfold coverage. destruct (st_dates_law ids (sv_store sv) identity a Hs Hi) as (ds & Hds & _ & Hin).
  destruct (guard_adjustment authority a) as [[]|]; cbn [mbind result_bind]; [|done].
  destruct (required_trading_dates calendar as_of n) as [required|]; cbn [mbind result_bind]; [|done].
  rewrite Hds. cbn [mbind result_bind snd]. intros [= <-] Hc. exists required. split; [done|].
  intros d Hd. apply Hin. by eapply coverage_complete_iff.
Qed.

Lemma has_previous_eq identity as_of : has_previous_trading_bar service_view identity as_of
  = (bar ← previous_trading_bar calendar authority sv identity as_of RAW; Ok (is_not_none bar)).
Proof using Type. reflexivity. Qed.

Lemma previous_trading_bar_ok identity as_of a bar :
  previous_trading_bar calendar authority sv identity as_of a = Ok bar ->
  exists d series, previous_trading_date calendar as_of = Ok d
  /\ st_read_range (sv_store sv) identity d d a = Ok series /\ series_latest series = bar.
Proof using Type.
  unfold previous_trading_bar. generalize (previous_trading_date calendar as_of). intros previous.
  intros (_ & _ & (d & Hd & (series & Hr & [= Hl])%bind_ok)%bind_ok)%bind_ok. by exists d, series.
Qed.

Lemma previous_bar_held ids identity as_of : st_ok ids (sv_store sv) -> identity ∈ ids ->
  text_ok identity 128 = true -> has_previous_trading_bar service_view identity as_of = Ok true ->
  exists previous, previous_trading_date calendar as_of = Ok previous
  /\ is_Some (st_held (sv_store sv) identity RAW previous).
Proof using Type.
  intros Hs Hi Ht H. rewrite has_previous_eq in H. apply bind_ok in H as (bar & Hbar & Hsome).
  apply previous_trading_bar_ok in Hbar as (d & series & Hd & Hr & Hl). exists d. split; [exact Hd|].
  destruct (st_range_law ids (sv_store sv) identity RAW d d Hs Hi Ht) as (series' & Hr' & Hin).
  rewrite Hr in Hr'. injection Hr' as <-. subst bar. injection Hsome as Hsome. unfold series_latest in Hsome.
  destruct (last (ser_bars series)) as [b|] eqn:E; [|done]. apply last_Some_elem_of, Hin in E as [Hheld Hb].
  exists b. by replace d with (bar_trading_date b) by lia.
Qed.

End View.

(** * Theorems *)

Section EngineTheorems.
Variables (universe : UniverseView) (history : HistoricalCoverageView) (live : LiveReadinessState)
  (clock : nat -> instant).

(** Everything a requirement declares is there at the instant [now]. *)
Definition inputs_available (now : instant) (identity : string) (r : ReadinessRequirement) (as_of : date) : Prop :=
  is_member universe identity = true
  /\ (forall v, data_universe_version live identity = Some v -> v = current_universe_version universe)
  /\ (forall need, rr_historical r = Some need -> exists c,
       view_coverage history identity (hn_trading_days need) (hn_adjustment need) as_of = Ok c
       /\ cov_is_complete c = true)
  /\ (rr_needs_previous_day_ohlc r = true -> has_previous_trading_bar history identity as_of = Ok true)
  /\ (rr_needs_previous_close r = true -> is_Some (live_previous_close live identity))
  /\ (requires_live r = true -> exists observed, live_observed_at live identity = Some observed
       /\ (rr_needs_session_open r = true -> is_Some (live_session_open live identity))
       /\ (rr_needs_last_price r = true -> is_Some (live_last_price live identity))
       /\ forall limit, rr_max_live_age r = Some limit -> now - observed <= limit).

Lemma is_not_none_some {A} (o : option A) : is_not_none o = true <-> is_Some o.
Proof using Type. destruct o; cbn; split; try done; by intros []. Qed.

Lemma mismatch_none identity : universe_mismatch universe live identity = None <->
  forall v, data_universe_version live identity = Some v -> v = current_universe_version universe.
Proof using Type.
  unfold universe_mismatch. destruct (data_universe_version live identity) as [v|]; [|done].
  destruct (Z.eqb_spec v (current_universe_version universe)) as [->|Hne]; cbn [negb]; split; try done.
  - by intros _ ? [= <-].
  - intros H. by destruct Hne; apply H.
Qed.

Lemma history_none identity r as_of : history_problem history identity r as_of = Ok None <->
  (forall need, rr_historical r = Some need -> exists c,
     view_coverage history identity (hn_trading_days need) (hn_adjustment need) as_of = Ok c
     /\ cov_is_complete c = true)
  /\ (rr_needs_previous_day_ohlc r = true -> has_previous_trading_bar history identity as_of = Ok true).
Proof using Type.
  assert (Hprev : (if rr_needs_previous_day_ohlc r then
      has ← has_previous_trading_bar history identity as_of;
      Ok (if has : bool then None else Some (reason PREVIOUS_DAY_MISSING "previous_day_ohlc")) else Ok None) = Ok None
    <-> (rr_needs_previous_day_ohlc r = true -> has_previous_trading_bar history identity as_of = Ok true)).
  { destruct (rr_needs_previous_day_ohlc r); [|by split]. destruct (has_previous_trading_bar history identity as_of) as [[]|e];
      cbn; split; try done; intros H; by specialize (H eq_refl). }
  unfold history_problem. destruct (rr_historical r) as [need|]; [|rewrite Hprev; naive_solver].
  destruct (view_coverage history identity (hn_trading_days need) (hn_adjustment need) as_of) as [c|e] eqn:E.
  - destruct (cov_is_complete c) eqn:Ec; cbn [negb].
    + rewrite Hprev. split; [|tauto]. intros H. split; [|done]. intros ? [= <-]. by exists c.
    + split; [done|]. intros [H _]. destruct (H need eq_refl) as (c' & Hc & ?). congruence.
  - split; [by destruct e|]. intros [H _]. destruct (H need eq_refl) as (c' & Hc & ?). congruence.
Qed.

Lemma live_ready s identity r : (live_status live clock s identity r).2.1 = S_READY <->
  (requires_live r = true -> exists observed, live_observed_at live identity = Some observed
     /\ (rr_needs_session_open r = true -> is_Some (live_session_open live identity))
     /\ (rr_needs_last_price r = true -> is_Some (live_last_price live identity))
     /\ forall limit, rr_max_live_age r = Some limit -> clock (eg_reads s) - observed <= limit).
Proof using Type.
  unfold live_status. destruct (requires_live r); cbn [negb]; [|done].
  destruct (live_observed_at live identity) as [t|]; cbn [snd fst].
  2:{ split; [done|]. intros H. by destruct (H eq_refl) as (? & ? & _). }
  destruct (rr_needs_session_open r && negb (is_not_none (live_session_open live identity))) eqn:E1; cbn [snd fst].
  { zbool. split; [done|]. intros Hr. destruct (Hr eq_refl) as (? & _ & Ho & _).
    rewrite (proj2 (is_not_none_some _)) in * by (by apply Ho). done. }
  destruct (rr_needs_last_price r && negb (is_not_none (live_last_price live identity))) eqn:E2; cbn [snd fst].
  { zbool. split; [done|]. intros Hr. destruct (Hr eq_refl) as (? & _ & _ & Hl & _).
    rewrite (proj2 (is_not_none_some _)) in * by (by apply Hl). done. }
  assert (H1 : rr_needs_session_open r = true -> is_Some (live_session_open live identity)).
  { intros Hr. rewrite Hr in E1. by apply is_not_none_some, negb_false_iff. }
  assert (H2 : rr_needs_last_price r = true -> is_Some (live_last_price live identity)).
  { intros Hr. rewrite Hr in E2. by apply is_not_none_some, negb_false_iff. }
  unfold staleness. destruct (rr_max_live_age r) as [limit|]; cbn [snd fst].
  - destruct (Z.ltb_spec limit (clock (eg_reads s) - t)); cbn [snd fst]; split; try done.
    + intros H'. destruct (H' eq_refl) as (? & [= <-] & _ & _ & Hs). specialize (Hs _ eq_refl). lia.
    + intros _ _. exists t. split_and!; try done. by intros ? [= <-].
  - split; [|done]. intros _ _. by exists t.
Qed.

(** An instrument is classified as ready for a requirement exactly when everything
    the requirement declares is available: it is a member of the universe, its data is
    of the current version, the history and the previous bar are stored, the
    references are known and the live observation is there and fresh.  Every other
    verdict carries exactly one reason, and ready carries none. *)
Theorem ready_exact s identity r as_of :
  ((exists s' why, classify_readiness universe history live clock s identity r as_of = (s', Ok (S_READY, why)))
   <-> inputs_available (clock (eg_reads s)) identity r as_of)
  /\ forall s' status why, classify_readiness universe history live clock s identity r as_of = (s', Ok (status, why)) ->
       length why = if bool_decide (status = S_READY) then 0%nat else 1%nat.
Proof using Type.
  unfold classify_readiness, inputs_available. split.
  - destruct (is_member universe identity); cbn [negb]; [|naive_solver].
    destruct (universe_mismatch universe live identity) as [why|] eqn:Em.
    { split; [naive_solver|]. intros (_ & Hv & _). rewrite <- mismatch_none in Hv. congruence. }
    destruct (history_problem history identity r as_of) as [[why|]|e] eqn:Eh.
    + split; [naive_solver|]. intros (_ & _ & H1 & H2 & _). rewrite (proj2 (history_none identity r as_of)) in Eh by done. done.
    + rewrite mismatch_none in Em. apply history_none in Eh as [H1 H2].
      destruct (rr_needs_previous_close r && negb (is_not_none (live_previous_close live identity))) eqn:Ec.
      * zbool. split; [naive_solver|]. intros (_ & _ & _ & _ & Hp & _).
        rewrite (proj2 (is_not_none_some _)) in * by (by apply Hp). done.
      * pose proof (live_ready s identity r) as Hl.
        destruct (live_status live clock s identity r) as [s2 [status why]]. cbn [fst snd] in Hl. split.
        -- intros (s' & why' & [= <- -> <-]). split_and!; try done; [|by apply Hl].
           intros Hp. rewrite Hp in Ec. by apply is_not_none_some, negb_false_iff.
        -- intros (_ & _ & _ & _ & _ & Hlive). apply Hl in Hlive as ->. by eexists _, _.
    + split; [naive_solver|]. intros (_ & _ & H1 & H2 & _). rewrite (proj2 (history_none identity r as_of)) in Eh by done. done.
  - intros s' status why. unfold live_status, staleness. split_ifs; intros Hc; repeat case_match; naive_solver.
Qed.

End EngineTheorems.

(** ** The projection *)

Lemma fold_max_spec l : forall x, let m := fold_left Z.max l x in x <= m /\ (forall y, y ∈ l -> y <= m) /\ (m = x \/ m ∈ l).
Proof.
  induction l as [|y l IH]; intros x; cbn [fold_left]; cbn zeta.
  - split_and!; [lia|by intros y ?%not_elem_of_nil|by left].
  - destruct (IH (Z.max x y)) as (H1 & H2 & H3). split_and!; [lia| |].
    + intros z [->|Hz]%elem_of_cons; [lia|by apply H2].
    + rewrite elem_of_cons. destruct H3 as [H3|H3]; [|by auto]. rewrite H3. destruct (Z.max_spec x y) as [[_ ->]|[_ ->]]; auto.
Qed.

Lemma fold_min_spec l : forall x, let m := fold_left Z.min l x in m <= x /\ (forall y, y ∈ l -> m <= y) /\ (m = x \/ m ∈ l).
Proof.
  induction l as [|y l IH]; intros x; cbn [fold_left]; cbn zeta.
  - split_and!; [lia|by intros y ?%not_elem_of_nil|by left].
  - destruct (IH (Z.min x y)) as (H1 & H2 & H3). split_and!; [lia| |].
    + intros z [->|Hz]%elem_of_cons; [lia|by apply H2].
    + rewrite elem_of_cons. destruct H3 as [H3|H3]; [|by auto]. rewrite H3. destruct (Z.min_spec x y) as [[_ ->]|[_ ->]]; auto.
Qed.

Lemma py_max_spec l : (py_max l = None <-> l = []) /\ forall m, py_max l = Some m -> m ∈ l /\ forall y, y ∈ l -> y <= m.
Proof.
  destruct l as [|x l]; [by split|]. split; [done|]. intros m [= <-]. destruct (fold_max_spec l x) as (H1 & H2 & H3).
  rewrite elem_of_cons. split; [done|]. intros y [->|Hy]%elem_of_cons; [done|by apply H2].
Qed.

Lemma py_min_spec l : (py_min l = None <-> l = []) /\ forall m, py_min l = Some m -> m ∈ l /\ forall y, y ∈ l -> m <= y.
Proof.
  destruct l as [|x l]; [by split|]. split; [done|]. intros m [= <-]. destruct (fold_min_spec l x) as (H1 & H2 & H3).
  rewrite elem_of_cons. split; [done|]. intros y [->|Hy]%elem_of_cons; [done|by apply H2].
Qed.

(** Requirements with positive lookbacks and ages are projected exactly when every
    fact they need can be checked at planning time, and raise otherwise.  The
    projection asks for no fact the strategy does not need and drops none; its
    history is the largest lookback and its age the smallest one declared. *)
Theorem projection_exact requirements b :
  (forall h, h ∈ sr_historical requirements -> 1 <= lookback h) ->
  (forall f, f ∈ sr_freshness requirements -> 0 < fr_max_age f) ->
  ((exists r, readiness_requirement_from requirements b = Ok r)
     <-> forall f, f ∈ sr_fact_needs requirements -> projectable f = true)
  /\ forall r, readiness_requirement_from requirements b = Ok r ->
     (rr_needs_previous_day_ohlc r = true <-> PREVIOUS_SESSION ∈ sr_fact_needs requirements)
     /\ (rr_needs_session_open r = true <-> SESSION_FACT ∈ sr_fact_needs requirements)
     /\ (rr_needs_last_price r = true <-> LATEST_TICK ∈ sr_fact_needs requirements)
     /\ rr_needs_previous_close r = b
     /\ (rr_historical r = None <-> sr_historical requirements = [])
     /\ (forall need, rr_historical r = Some need ->
          hn_trading_days need ∈ lookback <$> sr_historical requirements
          /\ forall h, h ∈ sr_historical requirements -> lookback h <= hn_trading_days need)
     /\ (rr_max_live_age r = None <-> sr_freshness requirements = [])
     /\ (forall t, rr_max_live_age r = Some t -> t ∈ fr_max_age <$> sr_freshness requirements
          /\ forall f, f ∈ sr_freshness requirements -> t <= fr_max_age f).
Proof.
  intros Hl Ha. unfold readiness_requirement_from.
  destruct (py_max_spec (lookback <$> sr_historical requirements)) as [Hmn Hms].
  destruct (py_min_spec (fr_max_age <$> sr_freshness requirements)) as [Hnn Hns].
  assert (Hdays : match py_max (lookback <$> sr_historical requirements) with Some n => n <? 1 | None => false end = false).
  { destruct (py_max _) as [m|]; [|done]. destruct (Hms m eq_refl) as [(h & -> & Hh)%list_elem_of_fmap _].
    specialize (Hl h Hh). lia. }
  assert (Hage : match py_min (fr_max_age <$> sr_freshness requirements) with Some t => t <=? 0 | None => false end = false).
  { destruct (py_min _) as [m|]; [|done]. destruct (Hns m eq_refl) as [(f & -> & Hf)%list_elem_of_fmap _].
    specialize (Ha f Hf). lia. }
  rewrite Hdays, Hage. set (bad := filter (fun f => projectable f = false) (sr_fact_needs requirements)).
  assert (Hbad : py_sorted String.leb (need_value <$> bad) = [] <-> forall f, f ∈ sr_fact_needs requirements -> projectable f = true).
  { rewrite <- length_zero_iff_nil, length_py_sorted, length_fmap, length_zero_iff_nil. split.
    - intros Hb f Hf. destruct (projectable f) eqn:E; [done|].
      assert (Hin : f ∈ bad) by (by apply list_elem_of_filter). rewrite Hb in Hin. by apply not_elem_of_nil in Hin.
    - intros Hall. apply filter_none. intros f Hf Hp. by rewrite Hall in Hp. }
  destruct (decide (py_sorted String.leb (need_value <$> bad) = [])) as [Hb|Hb];
    [rewrite (bool_decide_true _ Hb)|rewrite (bool_decide_false _ Hb)]; cbn [negb raise_if mbind result_bind].
  - split; [split; [intros _; exact (proj1 Hbad Hb)|by eexists]|]. intros r [= <-].
    cbn [rr_needs_previous_day_ohlc rr_needs_session_open rr_needs_last_price rr_needs_previous_close
      rr_historical rr_max_live_age]. rewrite !bool_decide_eq_true. split_and!; try done.
    + rewrite fmap_None, Hmn. split; [apply fmap_nil_inv|by intros ->].
    + intros need (n & Hn & ->)%fmap_Some. cbn. destruct (Hms n Hn) as [Hin Hall]. split; [done|].
      intros h Hh. apply Hall. by apply list_elem_of_fmap_2.
    + rewrite Hnn. split; [apply fmap_nil_inv|by intros ->].
    + intros t Ht. destruct (Hns t Ht) as [Hin Hall]. split; [done|]. intros f Hf. apply Hall. by apply list_elem_of_fmap_2.
  - split; [|done]. split; [by intros [r ?]|]. intros Hall. destruct Hb. exact (proj2 Hbad Hall).
Qed.

(** ** Readiness over the service *)

Section Composition.
Context {S : Type} `{!HistoricalBarStore S}.
Variables (calendar : TradingCalendar) (authority : bool) (sv : HistoricalService (S := S))
  (universe : UniverseView) (live : LiveReadinessState) (clock : nat -> instant) (ids : list string).

(** When the history view is the service over a store, an instrument that is ready
    really has its bars: one is held for each of the required trading days of the
    requirement, and, when it needs the previous day, for the previous trading day. *)
Theorem ready_has_history s s' identity r as_of why : st_ok ids (sv_store sv) -> identity ∈ ids ->
  text_ok identity 128 = true ->
  classify_readiness universe (service_view calendar authority sv) live clock s identity r as_of = (s', Ok (S_READY, why)) ->
  (forall need, rr_historical r = Some need ->
     exists required, required_trading_dates calendar as_of (hn_trading_days need) = Ok required
     /\ forall d, d ∈ required -> is_Some (st_held (sv_store sv) identity (hn_adjustment need) d))
  /\ (rr_needs_previous_day_ohlc r = true -> exists previous,
       previous_trading_date calendar as_of = Ok previous /\ is_Some (st_held (sv_store sv) identity RAW previous)).
Proof using Type.
  intros Hs Hi Ht Hc.
  assert (Hh : history_problem (service_view calendar authority sv) identity r as_of = Ok None).
  { revert Hc. unfold classify_readiness. destruct (is_member universe identity); cbn [negb]; [|naive_solver].
    destruct (universe_mismatch universe live identity); [naive_solver|].
    by destruct (history_problem _ identity r as_of) as [[]|]; [naive_solver| |naive_solver]. }
  apply history_none in Hh as [H1 H2]. split.
  - intros need Hneed. destruct (H1 need Hneed) as (c & Hcov & Hcomp). cbn [service_view view_coverage] in Hcov.
    by eapply coverage_complete.
  - intros Hp. exact (previous_bar_held calendar authority sv ids identity as_of Hs Hi Ht (H2 Hp)).
Qed.

End Composition.

(** * Concrete readiness *)

Definition sample_universe : UniverseView :=
  {| is_member := fun i => bool_decide (i = "NSE:INFY"); current_universe_version := 3 |}.

Definition sample_live : LiveReadinessState := {|
  live_previous_close := fun _ => Some (dec 100 0); live_session_open := fun _ => Some (dec 101 0);
  live_last_price := fun _ => Some (dec 102 0); live_observed_at := fun _ => Some 1000;
  data_universe_version := fun _ => Some 3 |}.

Definition sample_requirement : ReadinessRequirement := {|
  rr_historical := Some {| hn_trading_days := 1; hn_adjustment := RAW |}; rr_needs_previous_day_ohlc := true;
  rr_needs_previous_close := true; rr_needs_session_open := true; rr_needs_last_price := true;
  rr_max_live_age := Some 500 |}.

Definition sample_engine : EngineState := {| eg_reads := 0;
  eg_metrics := {| evaluations_total := 0; status_total := fun _ => 0; last_evaluation_at := None |} |}.

(** Day 20500 is a Monday, its previous trading day the Friday before. *)
Definition filled_bars : list HistoricalDailyBar :=
  (fun d => sample_bar "NSE:INFY" d 101) <$> [20497; 20498; 20499; 20500; 20501].

Definition filled_service : HistoricalService (S := SampleFiles) :=
  {| sv_store := (st_upsert_many (∅ : SampleFiles) filled_bars).1; sv_metrics := no_metrics |}.

Lemma filled_service_ready : (classify_readiness sample_universe (service_view weekday_calendar false filled_service)
  sample_live (fun _ => 1400) sample_engine "NSE:INFY" sample_requirement 20501).2 = Ok (S_READY, []).
Proof. vm_compute. reflexivity. Qed.

Lemma filled_service_ok : st_ok ["NSE:INFY"] (sv_store filled_service).
Proof.
  assert (Hc : collision_free ["NSE:INFY"]) by (intros i j Hi%list_elem_of_singleton Hj%list_elem_of_singleton _; congruence).
  destruct (st_upsert_law ["NSE:INFY"] (∅ : SampleFiles) filled_bars) as (fs & c & Hup & Hok & _).
  - split; [done|apply bar_store_ok_empty].
  - intros b (d & -> & _)%list_elem_of_fmap. left.
  - unfold filled_service. cbn [sv_store]. rewrite Hup. exact Hok.
Qed.

Lemma ready_has_history_witness : is_Some (st_held (sv_store filled_service) "NSE:INFY" RAW 20501).
Proof.
  destruct (ready_has_history weekday_calendar false filled_service sample_universe sample_live (fun _ => 1400) ["NSE:INFY"]
    sample_engine (read_clock sample_engine) "NSE:INFY" sample_requirement 20501 [] filled_service_ok) as [H _].
  - left.
  - reflexivity.
  - rewrite <- filled_service_ready. vm_compute. reflexivity.
  - destruct (H _ eq_refl) as (required & Hreq & Hall). apply Hall.
    assert (E : required_trading_dates weekday_calendar 20501 1 = Ok [20501]) by (vm_compute; reflexivity).
    cbn [hn_trading_days] in Hreq. rewrite E in Hreq. injection Hreq as <-. left.
Defined.

(** A lookback of five-minute candles is projected to as many trading days of daily bars. *)
Definition intraday_requirements : StrategyRequirements := {|
  sr_historical := [{| req_timeframe := tf 5; lookback := 120 |}]; sr_live_timeframes := [tf 5];
  sr_fact_needs := [LATEST_TICK]; sr_trigger := ON_TICK; sr_candle_completeness := PARTIAL_ALLOWED;
  sr_min_context_version := 1; sr_freshness := [{| fr_fact := LATEST_TICK; fr_max_age := 60 |}] |}.

Lemma projection_exact_witness : exists r, readiness_requirement_from intraday_requirements false = Ok r
  /\ rr_needs_last_price r = true.
Proof.
  destruct (projection_exact intraday_requirements false) as [Hok Hr].
  - intros h Hh%list_elem_of_singleton. subst h. cbn. lia.
  - intros f Hf%list_elem_of_singleton. subst f. cbn. lia.
  - destruct (proj2 Hok) as [r Hrr]; [intros f Hf%list_elem_of_singleton; by subst f|].
    exists r. split; [exact Hrr|]. apply (Hr r Hrr). left.
Defined.

Lemma intraday_lookback_as_days : exists r, readiness_requirement_from intraday_requirements false = Ok r
  /\ rr_historical r = Some {| hn_trading_days := 120; hn_adjustment := RAW |}.
Proof. eexists. split; vm_compute; reflexivity. Qed.
