(* ===== verification/Universe.v ===== *)
(** The universe snapshot, market_universe/snapshot.py, resolver.py and diagnostics.py:
    the content-addressed set of instruments effective on a trading date, its canonical
    text, the difference of two snapshots, and the resolver that joins a membership list
    to provider mappings and sectors.

    The canonical text is the JSON the source prints, for ASCII texts; the SHA-256 digest
    of it is a parameter.  The mapping source and the sector authority are functions, as
    the source states them as protocols; [membership_authority] is the one the sector
    dataset gives.

    The theorems say that the canonical text identifies the logical content and nothing
    else, that a snapshot can be built exactly from members with distinct identities in
    any order, that a difference accounts for every identity once, and that a resolution
    accounts for every member of a list of distinct identities. *)
From Stdlib Require Import Ascii.
From S2P Require Import Prelude PyTime PyDate MarketData Sector.

Local Open Scope Z_scope.

(** * Canonical text *)

Definition dq : ascii := ascii_of_nat 34.
Definition backslash : ascii := ascii_of_nat 92.

Definition hex_digit (n : nat) : ascii := ascii_of_nat (if (n <? 10)%nat then 48 + n else 87 + n).

(** The escape of one character, [ensure_ascii=False]. *)
Definition esc_char (c : ascii) : string :=
  let n := nat_of_ascii c in
  if bool_decide (c = dq) then String backslash (String dq "")
  else if bool_decide (c = backslash) then String backslash (String backslash "")
  else if (n =? 10)%nat then String backslash "n"
  else if (n =? 13)%nat then String backslash "r"
  else if (n =? 9)%nat then String backslash "t"
  else if (n =? 8)%nat then String backslash "b"
  else if (n =? 12)%nat then String backslash "f"
  else if (n <? 32)%nat then
    String backslash ("u00" ++ String (hex_digit (n / 16)) (String (hex_digit (n mod 16)) ""))
  else String c "".

Fixpoint esc (s : string) : string :=
  match s with EmptyString => "" | String c s => (esc_char c ++ esc s)%string end.

Definition quote (s : string) : string := (String dq (esc s) ++ String dq "")%string.

#[warnings="-register-all"] Inductive Json : Type :=
| JNull
| JStr (s : string)
| JArr (items : list Json)
| JObj (fields : list (string * Json)).

(** [",".join(parts)] *)
Fixpoint join_tail (parts : list string) : string :=
  match parts with [] => "" | p :: parts => ("," ++ p ++ join_tail parts)%string end.
Definition join (parts : list string) : string :=
  match parts with [] => "" | p :: parts => (p ++ join_tail parts)%string end.

(** The compact printer, [separators=(",", ":")]. *)
Fixpoint print (j : Json) : string :=
  match j with
  | JNull => "null"
  | JStr s => quote s
  | JArr items => "[" ++ join (map print items) ++ "]"
  | JObj fields => "{" ++ join (map (fun kv => quote kv.1 ++ ":" ++ print kv.2) fields) ++ "}"
  end%string.

Definition key_leb (a b : string * Json) : bool := String.leb a.1 b.1.

(** [sort_keys=True] *)
Fixpoint sort_keys (j : Json) : Json :=
  match j with
  | JArr items => JArr (map sort_keys items)
  | JObj fields => JObj (py_sorted key_leb (map (fun kv => (kv.1, sort_keys kv.2)) fields))
  | _ => j
  end.

(** [json.dumps(payload, sort_keys=True, separators=(",", ":"), ensure_ascii=False)] *)
Definition dumps (j : Json) : string := print (sort_keys j).

(** * Snapshots *)

Definition SCHEMA_VERSION : Z := 1.
Definition CANDIDATE_VERSION : Z := 0.

Inductive SnapshotState : Type := CANDIDATE | PROMOTED.

#[global] Instance SnapshotState_eq_dec : EqDecision SnapshotState.
Proof. solve_decision. Defined.

Record SourceProvenance : Type := {
  fno_source : string;
  fno_version : string;
  fno_effective_date : date;
  instrument_master_source : string;
  instrument_master_version : string;
  sector_dataset_id : string;
  sector_version : string;
}.

#[global] Instance SourceProvenance_eq_dec : EqDecision SourceProvenance.
Proof. solve_decision. Defined.

(** [SourceProvenance(...)] from stripped texts *)
Definition mk_provenance (self : SourceProvenance) : result SourceProvenance :=
  _ ← raise_if (negb (text_ok (fno_source self) 128 && text_ok (fno_version self) 64
                      && text_ok (instrument_master_source self) 128
                      && text_ok (instrument_master_version self) 64
                      && text_ok (sector_dataset_id self) 128 && text_ok (sector_version self) 64))
    (ValidationError "string_length");
  Ok self.

(** [canonical_dict] *)
Definition canonical_dict (self : SourceProvenance) : list (string * Json) := [
  ("fno_source", JStr (fno_source self));
  ("fno_version", JStr (fno_version self));
  ("fno_effective_date", JStr (isoformat (fno_effective_date self)));
  ("instrument_master_source", JStr (instrument_master_source self));
  ("instrument_master_version", JStr (instrument_master_version self));
  ("sector_dataset_id", JStr (sector_dataset_id self));
  ("sector_version", JStr (sector_version self))]%string.

Record UniverseInstrument : Type := {
  ui_instrument : Instrument;
  ui_provider_security_id : string;
  ui_exchange_segment : string;
  ui_sector : option string;
}.

#[global] Instance UniverseInstrument_eq_dec : EqDecision UniverseInstrument.
Proof. solve_decision. Defined.

Definition sector_text_ok (sector : option string) : bool :=
  match sector with Some s => text_ok s 64 | None => true end.

(** [UniverseInstrument(...)] from stripped texts *)
Definition mk_universe_instrument (self : UniverseInstrument) : result UniverseInstrument :=
  _ ← raise_if (negb (text_ok (ui_provider_security_id self) 64 && text_ok (ui_exchange_segment self) 32
                      && sector_text_ok (ui_sector self)))
    (ValidationError "string_length");
  Ok self.

(** [UniverseInstrument.identity] *)
Definition ui_identity (self : UniverseInstrument) : string := instrument_identity (ui_instrument self).

Record UniverseSnapshot : Type := {
  us_schema_version : Z;
  us_universe_version : Z;
  us_trading_date : date;
  us_effective_at : instant;
  us_state : SnapshotState;
  us_instruments : list UniverseInstrument;
  us_source_provenance : SourceProvenance;
  us_content_sha256 : string;
}.

#[global] Instance UniverseSnapshot_eq_dec : EqDecision UniverseSnapshot.
Proof. solve_decision. Defined.

Definition identity_leb (a b : UniverseInstrument) : bool := String.leb (ui_identity a) (ui_identity b).

(** The object of one instrument in [_canonical_content]. *)
Definition instrument_json (item : UniverseInstrument) : Json := JObj [
  ("identity", JStr (ui_identity item));
  ("provider_security_id", JStr (ui_provider_security_id item));
  ("exchange_segment", JStr (ui_exchange_segment item));
  ("sector", match ui_sector item with Some s => JStr s | None => JNull end)]%string.

(** [_canonical_content] *)
Definition canonical_content (trading_date : date) (instruments : list UniverseInstrument)
    (provenance : SourceProvenance) : string :=
  dumps (JObj [
    ("trading_date", JStr (isoformat trading_date));
    ("instruments", JArr (map instrument_json (py_sorted identity_leb instruments)));
    ("provenance", JObj (canonical_dict provenance))]%string).

Section Content.
(** [hashlib.sha256(text.encode()).hexdigest()] *)
Context (sha256 : string -> string).

Definition content_sha256 (trading_date : date) (instruments : list UniverseInstrument)
    (provenance : SourceProvenance) : string :=
  sha256 (canonical_content trading_date instruments provenance).

(** [UniverseSnapshot(...)] with its validator *)
Definition mk_snapshot (self : UniverseSnapshot) : result UniverseSnapshot :=
  let ids := ui_identity <$> us_instruments self in
  _ ← raise_if (us_universe_version self <? 0) (ValidationError "greater_than_equal");
  _ ← raise_if (negb (String.length (us_content_sha256 self) =? 64)%nat) (ValidationError "string_length");
  _ ← raise_if (negb (bool_decide (ids = py_sorted String.leb ids)))
    (ValidationError "universe instruments must be sorted by identity");
  _ ← raise_if (negb (length ids =? size (list_to_set ids : gset string))%nat)
    (ValidationError "universe instruments must have unique identities");
  let expected := content_sha256 (us_trading_date self) (us_instruments self) (us_source_provenance self) in
  _ ← raise_if (negb (bool_decide (us_content_sha256 self = expected)))
    (ValidationError "content_sha256 does not match snapshot content");
  Ok self.

Definition build_snapshot (universe_version : Z) (trading_date : date) (effective_at : instant)
    (state : SnapshotState) (instruments : list UniverseInstrument) (provenance : SourceProvenance)
    : result UniverseSnapshot :=
  let ordered := py_sorted identity_leb instruments in
  mk_snapshot {|
    us_schema_version := SCHEMA_VERSION; us_universe_version := universe_version;
    us_trading_date := trading_date; us_effective_at := effective_at; us_state := state;
    us_instruments := ordered; us_source_provenance := provenance;
    us_content_sha256 := content_sha256 trading_date ordered provenance |}.

End Content.

(** [sector_membership]: a dict, the last entry of an identity wins. *)
Definition sector_membership (self : UniverseSnapshot) : dict string (option string) :=
  fold_left (fun d i => dict_set (ui_identity i) (ui_sector i) d) (us_instruments self) [].

(** [identities] *)
Definition us_identities (self : UniverseSnapshot) : list string := ui_identity <$> us_instruments self.

(** [promoted_as] *)
Definition promoted_as (self : UniverseSnapshot) (universe_version : Z) (effective_at : instant)
    : UniverseSnapshot :=
  {| us_schema_version := us_schema_version self; us_universe_version := universe_version;
     us_trading_date := us_trading_date self; us_effective_at := effective_at; us_state := PROMOTED;
     us_instruments := us_instruments self; us_source_provenance := us_source_provenance self;
     us_content_sha256 := us_content_sha256 self |}.

(** * Differences *)

Record UniverseDiff : Type := {
  from_version : Z;
  to_version : Z;
  added : list string;
  removed : list string;
  unchanged : list string;
  mapping_changed : list string;
  sector_changed : list string;
}.

(** [{item.identity: item for item in instruments}] *)
Definition by_id (instruments : list UniverseInstrument) : dict string UniverseInstrument :=
  fold_left (fun d item => dict_set (ui_identity item) item d) instruments [].

(** The two tests of the loop on one common identity. *)
Definition mapping_diff (before after : UniverseInstrument) : bool :=
  negb (bool_decide ((ui_provider_security_id before, ui_exchange_segment before)
                     = (ui_provider_security_id after, ui_exchange_segment after))).
Definition sector_diff (before after : UniverseInstrument) : bool :=
  negb (bool_decide (ui_sector before = ui_sector after)).

Definition diff_snapshots (old new : UniverseSnapshot) : UniverseDiff :=
  let old_by_id := by_id (us_instruments old) in
  let new_by_id := by_id (us_instruments new) in
  let common := filter (fun i => i ∈ old_by_id.*1) new_by_id.*1 in
  let test (f : UniverseInstrument -> UniverseInstrument -> bool) identity :=
    match dict_get identity old_by_id, dict_get identity new_by_id with
    | Some before, Some after => f before after
    | _, _ => false
    end in
  let select f := filter (fun i => test f i = true) (py_sorted String.leb common) in
  {| from_version := us_universe_version old;
     to_version := us_universe_version new;
     added := py_sorted String.leb (filter (fun i => i ∉ old_by_id.*1) new_by_id.*1);
     removed := py_sorted String.leb (filter (fun i => i ∉ new_by_id.*1) old_by_id.*1);
     unchanged := select (fun b a => negb (mapping_diff b a) && negb (sector_diff b a));
     mapping_changed := select mapping_diff;
     sector_changed := select sector_diff |}.

(** * Resolution *)

Inductive UnresolvedReason : Type := MISSING_PROVIDER_MAPPING | CONFLICTING_PROVIDER_MAPPING.

Record ProviderMapping : Type := {
  pm_provider_security_id : string;
  pm_exchange_segment : string;
}.

Record UnresolvedInstrument : Type := {
  un_identity : string;
  un_reason : UnresolvedReason;
}.

#[global] Instance UnresolvedReason_eq_dec : EqDecision UnresolvedReason.
Proof. solve_decision. Defined.
#[global] Instance ProviderMapping_eq_dec : EqDecision ProviderMapping.
Proof. solve_decision. Defined.
#[global] Instance UnresolvedInstrument_eq_dec : EqDecision UnresolvedInstrument.
Proof. solve_decision. Defined.

(** [ProviderMapping(...)] from stripped texts *)
Definition mk_provider_mapping (self : ProviderMapping) : result ProviderMapping :=
  _ ← raise_if (negb (text_ok (pm_provider_security_id self) 64 && text_ok (pm_exchange_segment self) 32))
    (ValidationError "string_length");
  Ok self.

Record ResolutionResult : Type := {
  rr_candidate : UniverseSnapshot;
  rr_unresolved : list UnresolvedInstrument;
  rr_unclassified_sector : list string;
}.

(** [is_promotable] *)
Definition is_promotable (self : ResolutionResult) : bool :=
  bool_decide (rr_unresolved self = []) && negb (bool_decide (us_instruments (rr_candidate self) = [])).

(** [ProviderMappingSource] and [SectorAuthority] *)
Abbreviation MappingSource := (Instrument -> option ProviderMapping).
Abbreviation SectorAuthority := (string -> date -> option string).

Abbreviation Mapped := (dict string (Instrument * ProviderMapping)).

(** [_security_id_conflicts]: the groups of identities, and those with several members. *)
Definition security_id_conflicts (mapped : Mapped) : list string :=
  let by_security_id := group_by (fun kv : string * (Instrument * ProviderMapping) =>
                                    pm_provider_security_id kv.2.2) mapped in
  concat (map (fun g => map fst g.2) (filter (fun g => 1 < length g.2)%nat by_security_id)).

(** The first loop of [_resolve_instruments]. *)
Definition map_members (mapping_for : MappingSource) (membership : list Instrument)
    : Mapped * list UnresolvedInstrument :=
  fold_left (fun '(mapped, unresolved) instrument =>
      let identity := instrument_identity instrument in
      match mapping_for instrument with
      | None => (mapped, unresolved ++ [{| un_identity := identity; un_reason := MISSING_PROVIDER_MAPPING |}])
      | Some mapping => (dict_set identity (instrument, mapping) mapped, unresolved)
      end) membership ([], []).

(** One member of the second loop: a conflict, or the instrument with its sector. *)
Definition join_member (resolve_primary : SectorAuthority) (trading_date : date) (conflicts : list string)
    (kv : string * (Instrument * ProviderMapping)) : result (UnresolvedInstrument + UniverseInstrument) :=
  if bool_decide (kv.1 ∈ conflicts) then
    Ok (inl {| un_identity := kv.1; un_reason := CONFLICTING_PROVIDER_MAPPING |})
  else
    item ← mk_universe_instrument
      {| ui_instrument := kv.2.1; ui_provider_security_id := pm_provider_security_id kv.2.2;
         ui_exchange_segment := pm_exchange_segment kv.2.2; ui_sector := resolve_primary kv.1 trading_date |};
    Ok (inr item).

Definition conflict_of (x : UnresolvedInstrument + UniverseInstrument) : option UnresolvedInstrument :=
  match x with inl u => Some u | inr _ => None end.
Definition resolved_of (x : UnresolvedInstrument + UniverseInstrument) : option UniverseInstrument :=
  match x with inl _ => None | inr i => Some i end.

(** [_resolve_instruments]: resolved, unresolved, unclassified. *)
Definition resolve_instruments (mapping_for : MappingSource) (resolve_primary : SectorAuthority)
    (membership : list Instrument) (trading_date : date)
    : result (list UniverseInstrument * list UnresolvedInstrument * list string) :=
  let '(mapped, unresolved) := map_members mapping_for membership in
  let conflicts := security_id_conflicts mapped in
  outcomes ← traverse (join_member resolve_primary trading_date conflicts) mapped;
  let resolved := omap resolved_of outcomes in
  Ok (resolved, unresolved ++ omap conflict_of outcomes,
      ui_identity <$> filter (fun i => ui_sector i = None) resolved).

Definition unresolved_leb (a b : UnresolvedInstrument) : bool := String.leb (un_identity a) (un_identity b).

(** [UniverseResolver.resolve] *)
Definition resolve (sha256 : string -> string) (mapping_for : MappingSource)
    (resolve_primary : SectorAuthority) (membership : list Instrument) (trading_date : date)
    (effective_at : instant) (provenance : SourceProvenance) : result ResolutionResult :=
  '(resolved, unresolved, unclassified) ←
    resolve_instruments mapping_for resolve_primary membership trading_date;
  candidate ← build_snapshot sha256 CANDIDATE_VERSION trading_date effective_at CANDIDATE resolved provenance;
  Ok {| rr_candidate := candidate;
        rr_unresolved := py_sorted unresolved_leb unresolved;
        rr_unclassified_sector := py_sorted String.leb unclassified |}.

Definition validate_promotable (result : ResolutionResult) : Prelude.result unit :=
  _ ← raise_if (negb (bool_decide (rr_unresolved result = [])))
    (PromotionValidationError (length (rr_unresolved result)));
  raise_if (bool_decide (us_instruments (rr_candidate result) = [])) EmptyUniverseError.

(** [InMemoryProviderMappingSource] *)
Definition in_memory_mapping_for (mappings : gmap Instrument ProviderMapping) : MappingSource :=
  fun instrument => mappings !! instrument.

(** * Diagnostics *)

Record UniverseMetrics : Type := {
  um_attempts : Z;
  um_successes : Z;
  um_failures : Z;
  um_last_resolution_at : option instant;
  um_last_success_at : option instant;
  um_last_failure_at : option instant;
}.

Definition initial_universe_metrics : UniverseMetrics :=
  {| um_attempts := 0; um_successes := 0; um_failures := 0; um_last_resolution_at := None;
     um_last_success_at := None; um_last_failure_at := None |}.

Definition record_attempt (now : instant) (m : UniverseMetrics) : UniverseMetrics :=
  {| um_attempts := um_attempts m + 1; um_successes := um_successes m; um_failures := um_failures m;
     um_last_resolution_at := Some now; um_last_success_at := um_last_success_at m;
     um_last_failure_at := um_last_failure_at m |}.
Definition record_success (now : instant) (m : UniverseMetrics) : UniverseMetrics :=
  {| um_attempts := um_attempts m; um_successes := um_successes m + 1; um_failures := um_failures m;
     um_last_resolution_at := um_last_resolution_at m; um_last_success_at := Some now;
     um_last_failure_at := um_last_failure_at m |}.
Definition record_failure (now : instant) (m : UniverseMetrics) : UniverseMetrics :=
  {| um_attempts := um_attempts m; um_successes := um_successes m; um_failures := um_failures m + 1;
     um_last_resolution_at := um_last_resolution_at m; um_last_success_at := um_last_success_at m;
     um_last_failure_at := Some now |}.

Record UniverseDiagnostics : Type := {
  ud_resolution_attempts : Z;
  ud_resolution_successes : Z;
  ud_resolution_failures : Z;
  ud_current_active_version : option Z;
  ud_candidate_version : Z;
  ud_instrument_count : Z;
  ud_added_count : Z;
  ud_removed_count : Z;
  ud_mapping_changed_count : Z;
  ud_sector_changed_count : Z;
  ud_unresolved_mapping_count : Z;
  ud_unclassified_sector_count : Z;
  ud_last_resolution_at : option instant;
  ud_last_success_at : option instant;
  ud_last_failure_at : option instant;
}.

Definition len {A} (l : list A) : Z := Z.of_nat (length l).

Definition build_universe_diagnostics (metrics : UniverseMetrics) (result : ResolutionResult)
    (active : option UniverseSnapshot) : UniverseDiagnostics :=
  let candidate := rr_candidate result in
  let diff := (fun a => diff_snapshots a candidate) <$> active in
  let count (f : UniverseDiff -> list string) (otherwise : Z) :=
    match diff with Some d => len (f d) | None => otherwise end in
  {| ud_resolution_attempts := um_attempts metrics;
     ud_resolution_successes := um_successes metrics;
     ud_resolution_failures := um_failures metrics;
     ud_current_active_version := us_universe_version <$> active;
     ud_candidate_version := us_universe_version candidate;
     ud_instrument_count := len (us_instruments candidate);
     ud_added_count := count added (len (us_instruments candidate));
     ud_removed_count := count removed 0;
     ud_mapping_changed_count := count mapping_changed 0;
     ud_sector_changed_count := count sector_changed 0;
     ud_unresolved_mapping_count := len (rr_unresolved result);
     ud_unclassified_sector_count := len (rr_unclassified_sector result);
     ud_last_resolution_at := um_last_resolution_at metrics;
     ud_last_success_at := um_last_success_at metrics;
     ud_last_failure_at := um_last_failure_at metrics |}.

(** * Lemmas *)

(** ** The canonical text *)

#[local] Arguments String.append !_ _ / : simpl nomatch.

Lemma sapp_assoc (a b c : string) : ((a ++ b) ++ c = a ++ (b ++ c))%string.
Proof. induction a as [|x a IH]; [done|]. exact (f_equal (String x) IH). Qed.

(** Reads back one character of an escaped text; a quote ends it. *)
Definition unesc_char (s : string) : option (ascii * string) :=
  match s with
  | String c s =>
      if bool_decide (c = dq) then None
      else if bool_decide (c = backslash) then
        match s with
        | String "n" s => Some (ascii_of_nat 10, s)
        | String "r" s => Some (ascii_of_nat 13, s)
        | String "t" s => Some (ascii_of_nat 9, s)
        | String "b" s => Some (ascii_of_nat 8, s)
        | String "f" s => Some (ascii_of_nat 12, s)
        | String "u" (String _ (String _ (String h (String l s)))) =>
            let value c := (nat_of_ascii c - if (nat_of_ascii c <? 58)%nat then 48 else 87)%nat in
            Some (ascii_of_nat (16 * value h + value l), s)
        | String c s => Some (c, s)
        | EmptyString => None
        end
      else Some (c, s)
  | EmptyString => None
  end.

Lemma unesc_esc c r : unesc_char (esc_char c ++ r)%string = Some (c, r).
Proof. destruct c as [[] [] [] [] [] [] [] []]; reflexivity. Qed.

Lemma esc_inj s1 s2 r1 r2 :
  (esc s1 ++ String dq r1 = esc s2 ++ String dq r2)%string -> s1 = s2 /\ r1 = r2.
Proof.
  revert s2. induction s1 as [|c1 s1 IH]; intros [|c2 s2]; cbn [esc].
  - cbn. by intros [= ->].
  - rewrite sapp_assoc. intros H%(f_equal unesc_char). by rewrite unesc_esc in H.
  - rewrite sapp_assoc. intros H%(f_equal unesc_char). by rewrite unesc_esc in H.
  - rewrite !sapp_assoc. intros H%(f_equal unesc_char). rewrite !unesc_esc in H.
    injection H as -> H. by destruct (IH _ H) as [-> ->].
Qed.

Lemma quote_inj s1 s2 r1 r2 : (quote s1 ++ r1 = quote s2 ++ r2)%string -> s1 = s2 /\ r1 = r2.
Proof. unfold quote. cbn. rewrite !sapp_assoc. intros [= H]. by apply esc_inj in H. Qed.

(** A printed text can be told from what follows it. *)
Definition delimited {A} (p : A -> string) (a : A) : Prop :=
  forall b r1 r2, (p a ++ r1 = p b ++ r2)%string -> a = b /\ r1 = r2.

(** The text does not start with a closing bracket. *)
Definition opens {A} (p : A -> string) (close : ascii) : Prop :=
  forall a r1 r2, (p a ++ r1)%string <> String close r2.

Lemma join_tail_inj {A} (p : A -> string) close l1 l2 r1 r2 :
  Forall (delimited p) l1 -> close <> ","%char ->
  (join_tail (map p l1) ++ String close r1 = join_tail (map p l2) ++ String close r2)%string ->
  l1 = l2 /\ r1 = r2.
Proof.
  intros Hd Hc. revert l2. induction Hd as [|a l1 Ha Hd IH]; intros [|b l2]; cbn.
  - by intros [= ->].
  - by intros [= -> _].
  - by intros [= <- _].
  - rewrite !sapp_assoc. intros [= [-> H]%Ha]. by destruct (IH _ H) as [-> ->].
Qed.

Lemma join_inj {A} (p : A -> string) close l1 l2 r1 r2 :
  Forall (delimited p) l1 -> opens p close -> close <> ","%char ->
  (join (map p l1) ++ String close r1 = join (map p l2) ++ String close r2)%string ->
  l1 = l2 /\ r1 = r2.
Proof.
  intros Hd Ho Hc. destruct l1 as [|a l1], l2 as [|b l2]; cbn.
  - by intros [= ->].
  - rewrite sapp_assoc. intros H. symmetry in H. by apply Ho in H.
  - rewrite sapp_assoc. intros H. by apply Ho in H.
  - apply Forall_cons in Hd as [Ha Hd]. rewrite !sapp_assoc. intros [-> H]%Ha.
    by destruct (join_tail_inj p close l1 l2 r1 r2 Hd Hc H) as [-> ->].
Qed.

Lemma print_opens close : close <> "n"%char -> close <> dq -> close <> "["%char -> close <> "{"%char ->
  opens print close.
Proof. intros H1 H2 H3 H4 [] r1 r2; cbn; intros [= Hx _]; congruence. Qed.

Definition print_field (kv : string * Json) : string := (quote kv.1 ++ ":" ++ print kv.2)%string.

(** Two values that print the same are the same, whatever follows. *)
Lemma print_inj j : delimited print j.
Proof.
  revert j. fix go 1. intros [|s|items|fields] j2 r1 r2 H.
  - destruct j2; try discriminate H. cbn in H. by injection H.
  - destruct j2 as [|s2| |]; try discriminate H. by destruct (quote_inj _ _ _ _ H) as [-> ->].
  - assert (Hd : Forall (delimited print) items).
    { clear H. induction items as [|x items IH]; constructor; [apply go|exact IH]. }
    destruct j2 as [| |items2|]; try discriminate H. cbn in H. rewrite !sapp_assoc in H. injection H as H.
    destruct (join_inj print "]" items items2 r1 r2 Hd) as [-> ->]; [by apply print_opens|done|exact H|done].
  - assert (Hd : Forall (delimited print_field) fields).
    { clear H. induction fields as [|[k v] fields IH]; constructor; [|exact IH].
      intros [k2 v2] q1 q2. unfold print_field. rewrite !sapp_assoc. intros [Hk Hv]%quote_inj.
      cbn in Hk, Hv. subst k2. injection Hv as Hv. by destruct (go v v2 q1 q2 Hv) as [-> ->]. }
    destruct j2 as [| | |fields2]; try discriminate H. cbn in H. rewrite !sapp_assoc in H. injection H as H.
    destruct (join_inj print_field "}" fields fields2 r1 r2 Hd) as [-> ->]; [|done|exact H|done].
    intros kv q1 q2 Hq. discriminate Hq.
Qed.

(** ** What a snapshot is about *)

Definition Logical : Type := string * string * string * option string.

(** The part of an instrument that enters the content. *)
Definition logical (i : UniverseInstrument) : Logical :=
  (ui_identity i, ui_provider_security_id i, ui_exchange_segment i, ui_sector i).

Definition logical_json (q : Logical) : Json :=
  let '(identity, psid, segment, sector) := q in JObj [
    ("exchange_segment", JStr segment); ("identity", JStr identity);
    ("provider_security_id", JStr psid);
    ("sector", match sector with Some s => JStr s | None => JNull end)]%string.

#[local] Instance logical_json_inj : Inj (=) (=) logical_json.
Proof. intros [[[? ?] ?] [?|]] [[[? ?] ?] [?|]]; cbn; congruence. Qed.

Lemma sort_instrument_json i : sort_keys (instrument_json i) = logical_json (logical i).
Proof. unfold instrument_json, logical_json, logical. destruct (ui_sector i); reflexivity. Qed.

Definition logical_leb (a b : Logical) : bool := String.leb a.1.1.1 b.1.1.1.

Lemma sort_instruments l :
  map sort_keys (map instrument_json (py_sorted identity_leb l))
  = logical_json <$> py_sorted logical_leb (logical <$> l).
Proof.
  rewrite <- (py_sorted_fmap logical identity_leb) by done. rewrite map_map.
  induction (py_sorted identity_leb l) as [|i m IH]; [done|]. cbn [map fmap list_fmap].
  by rewrite sort_instrument_json, IH.
Qed.

Definition provenance_json (p : SourceProvenance) : Json := JObj [
  ("fno_effective_date", JStr (isoformat (fno_effective_date p)));
  ("fno_source", JStr (fno_source p)); ("fno_version", JStr (fno_version p));
  ("instrument_master_source", JStr (instrument_master_source p));
  ("instrument_master_version", JStr (instrument_master_version p));
  ("sector_dataset_id", JStr (sector_dataset_id p));
  ("sector_version", JStr (sector_version p))]%string.

Lemma canonical_content_print d l p : canonical_content d l p = print (JObj [
    ("instruments", JArr (logical_json <$> py_sorted logical_leb (logical <$> l)));
    ("provenance", provenance_json p); ("trading_date", JStr (isoformat d))]%string).
Proof. unfold canonical_content, dumps. rewrite <- sort_instruments. reflexivity. Qed.

Lemma logical_keys (l : list UniverseInstrument) : (fun q : Logical => q.1.1.1) <$> (logical <$> l) = ui_identity <$> l.
Proof. rewrite <- list_fmap_compose. done. Qed.

Lemma logical_sorted_perm (l1 l2 : list UniverseInstrument) : NoDup (ui_identity <$> l1) ->
  py_sorted logical_leb (logical <$> l1) = py_sorted logical_leb (logical <$> l2)
  <-> logical <$> l1 ≡ₚ logical <$> l2.
Proof.
  intros Hn. rewrite <- logical_keys in Hn. split.
  - intros H. by rewrite <- (py_sorted_perm logical_leb), H, py_sorted_perm.
  - apply (keyed_sorted_unique (fun q : Logical => q.1.1.1)). intros x y Hx Hy.
    by apply (NoDup_fmap_eq (fun q : Logical => q.1.1.1) _ _ _ Hn).
Qed.

(** The canonical text is a name for the logical content: two universes print the same
    exactly when they agree on the trading date, on the identity, mapping and sector of
    their members in any order, and on every field of the provenance. *)
Theorem canonical_content_identifies d1 d2 (l1 l2 : list UniverseInstrument) p1 p2 :
  date_ok d1 = true -> date_ok d2 = true ->
  date_ok (fno_effective_date p1) = true -> date_ok (fno_effective_date p2) = true ->
  NoDup (ui_identity <$> l1) ->
  canonical_content d1 l1 p1 = canonical_content d2 l2 p2
  <-> d1 = d2 /\ logical <$> l1 ≡ₚ logical <$> l2 /\ p1 = p2.
Proof.
  intros Hd1 Hd2 Hp1 Hp2 Hn. rewrite <- (logical_sorted_perm l1 l2 Hn), !canonical_content_print. split.
  - intros H. apply (f_equal (fun s => s ++ "")%string) in H. apply print_inj in H as [H _].
    pose proof (isoformat_inj _ _ Hd1 Hd2) as Hd. pose proof (isoformat_inj _ _ Hp1 Hp2) as Hf.
    unfold provenance_json in H. revert H Hd Hf. generalize (isoformat d1), (isoformat d2).
    generalize (isoformat (fno_effective_date p1)), (isoformat (fno_effective_date p2)).
    intros f1 f2 t1 t2 H Hd Hf. injection H as Hl Hf1 H1 H2 H3 H4 H5 H6 Ht.
    apply (inj (fmap logical_json)) in Hl. apply Hd in Ht. apply Hf in Hf1.
    split_and!; [done|done|]. destruct p1, p2. cbn in *. by subst.
  - by intros (-> & -> & ->).
Qed.

(** ** Building a snapshot *)

(** What the validator of a snapshot guarantees. *)
Definition snapshot_ok (sha256 : string -> string) (s : UniverseSnapshot) : Prop :=
  mk_snapshot sha256 s = Ok s.

Lemma snapshot_ok_iff sha256 s : snapshot_ok sha256 s <->
  0 <= us_universe_version s /\ String.length (us_content_sha256 s) = 64%nat
  /\ us_identities s = py_sorted String.leb (us_identities s) /\ NoDup (us_identities s)
  /\ us_content_sha256 s
     = content_sha256 sha256 (us_trading_date s) (us_instruments s) (us_source_provenance s).
Proof.
  unfold snapshot_ok, mk_snapshot. split.
  - intros (u1 & H1%raise_if_ok & (u2 & H2%raise_if_ok & (u3 & H3%raise_if_ok
      & (u4 & H4%raise_if_ok & (u5 & H5%raise_if_ok & _)%bind_ok)%bind_ok)%bind_ok)%bind_ok)%bind_ok.
    zbool. apply Nat.eqb_eq in H2, H4. split_and!; [done|done|done| |done].
    by apply NoDup_size_list_to_set.
  - intros (H1 & H2 & H3 & H4 & H5). unfold us_identities in *.
    rewrite (proj2 (Z.ltb_ge _ _) H1), H2. cbn [raise_if mbind result_bind negb Nat.eqb].
    rewrite (bool_decide_true _ H3). cbn [raise_if mbind result_bind negb].
    rewrite size_list_to_set by exact H4. rewrite Nat.eqb_refl. cbn [raise_if mbind result_bind negb].
    by rewrite (bool_decide_true _ H5).
Qed.

Lemma ordered_identities l :
  ui_identity <$> py_sorted identity_leb l = py_sorted String.leb (ui_identity <$> l).
Proof. by apply py_sorted_fmap. Qed.

Lemma ordered_members_perm l l' : NoDup (ui_identity <$> l) -> l' ≡ₚ l ->
  py_sorted identity_leb l = py_sorted identity_leb l'.
Proof.
  intros Hn Hl. apply (keyed_sorted_unique ui_identity); [|done]. intros x y. by apply NoDup_fmap_eq.
Qed.

Lemma sorted_identity_id l : py_sorted identity_leb (py_sorted identity_leb l) = py_sorted identity_leb l.
Proof. apply py_sorted_id, (keyed_sorted ui_identity). Qed.

Section BuildTheorems.
Context (sha256 : string -> string).
Hypothesis sha256_length : forall s, String.length (sha256 s) = 64%nat.

Lemma universe_snapshot_ok version d at_ state l p s :
  build_snapshot sha256 version d at_ state l p = Ok s <->
  0 <= version /\ NoDup (ui_identity <$> l)
  /\ s = {| us_schema_version := SCHEMA_VERSION; us_universe_version := version; us_trading_date := d;
            us_effective_at := at_; us_state := state; us_instruments := py_sorted identity_leb l;
            us_source_provenance := p; us_content_sha256 := content_sha256 sha256 d l p |}.
Proof using sha256_length.
  unfold build_snapshot.
  replace (content_sha256 sha256 d (py_sorted identity_leb l) p) with (content_sha256 sha256 d l p)
    by (unfold content_sha256, canonical_content; by rewrite sorted_identity_id).
  set (s' := {| us_schema_version := _ |}).
  assert (Hs : snapshot_ok sha256 s' <-> 0 <= version /\ NoDup (ui_identity <$> l)).
  { rewrite snapshot_ok_iff. unfold us_identities, s'. cbn. rewrite ordered_identities.
    assert (Hp : NoDup (py_sorted String.leb (ui_identity <$> l)) <-> NoDup (ui_identity <$> l))
      by by rewrite py_sorted_perm.
    rewrite Hp. unfold content_sha256, canonical_content. rewrite sorted_identity_id. split; [tauto|].
    intros [? ?]. split_and!; [done|apply sha256_length| |done|done].
    symmetry. apply py_sorted_id, string_sorted. }
  split.
  - intros H. assert (s = s') as -> by (unfold mk_snapshot in H;
      by repeat (apply bind_ok in H as (? & _ & H)); injection H).
    by apply Hs in H as [? ?].
  - intros (H1 & H2 & ->). by apply Hs.
Qed.

(** Building a snapshot succeeds exactly for members with distinct identities; the
    result passes the validator, holds those members in the order of their identities,
    and does not depend on the order they came in. *)
Theorem build_snapshot_correct version d at_ state l p : 0 <= version ->
  (is_ok (build_snapshot sha256 version d at_ state l p) = true <-> NoDup (ui_identity <$> l))
  /\ (forall s, build_snapshot sha256 version d at_ state l p = Ok s ->
        snapshot_ok sha256 s /\ us_instruments s ≡ₚ l
        /\ StronglySorted (fun a b => String.leb (ui_identity a) (ui_identity b) = true) (us_instruments s)
        /\ forall l', l' ≡ₚ l -> build_snapshot sha256 version d at_ state l' p = Ok s).
Proof using sha256_length.
  intros Hv. split; [split|].
  - destruct (build_snapshot _ _ _ _ _ _ _) as [s|] eqn:E; [|done]. by apply universe_snapshot_ok in E as (_ & ? & _).
  - intros Hn. by rewrite (proj2 (universe_snapshot_ok version d at_ state l p _) (conj Hv (conj Hn eq_refl))).
  - intros s Hs. split; [|pose proof Hs as (_ & Hn & ->)%universe_snapshot_ok; cbn; split_and!].
    + unfold build_snapshot in Hs. unfold snapshot_ok. pose proof Hs as H. unfold mk_snapshot in H.
      repeat (apply bind_ok in H as (? & _ & H)). injection H as <-. exact Hs.
    + apply py_sorted_perm.
    + apply (keyed_sorted ui_identity).
    + intros l' Hl. apply universe_snapshot_ok. split_and!; [done|by rewrite Hl|].
      unfold content_sha256, canonical_content.
      by rewrite (ordered_members_perm l l' Hn).
Qed.

End BuildTheorems.

(** ** Differences *)

Lemma by_id_snoc l x : by_id (l ++ [x]) = dict_set (ui_identity x) x (by_id l).
Proof. unfold by_id. by rewrite fold_left_app. Qed.

Lemma by_id_keys l i : i ∈ (by_id l).*1 <-> i ∈ ui_identity <$> l.
Proof.
  induction l as [|x l IH] using rev_ind; [done|]. rewrite by_id_snoc, dict_set_keys, fmap_app.
  case_decide as Hk; rewrite ?elem_of_app, IH; cbn; set_solver.
Qed.

Lemma by_id_NoDup l : NoDup (by_id l).*1.
Proof.
  induction l as [|x l IH] using rev_ind; [constructor|]. rewrite by_id_snoc. by apply dict_set_NoDup.
Qed.

Lemma by_id_get l x : NoDup (ui_identity <$> l) -> x ∈ l -> dict_get (ui_identity x) (by_id l) = Some x.
Proof.
  induction l as [|y l IH] using rev_ind; intros Hn Hx; [set_solver|]. rewrite by_id_snoc, dict_get_set.
  case_decide as Hy.
  - f_equal. apply (NoDup_fmap_eq ui_identity _ _ _ Hn); set_solver.
  - rewrite fmap_app, NoDup_app in Hn. apply IH; [by destruct Hn|]. set_solver.
Qed.

(** The members of two snapshots that share an identity. *)
Definition common_member (old new : UniverseSnapshot) (identity : string) (before after : UniverseInstrument)
    : Prop :=
  before ∈ us_instruments old /\ after ∈ us_instruments new
  /\ ui_identity before = identity /\ ui_identity after = identity.

Section DiffTheorems.
Context (old new : UniverseSnapshot).
Hypothesis old_unique : NoDup (us_identities old).
Hypothesis new_unique : NoDup (us_identities new).

(** The selection of the loop, for any test. *)
Lemma diff_select (f : UniverseInstrument -> UniverseInstrument -> bool) i :
  i ∈ filter (fun i => (match dict_get i (by_id (us_instruments old)), dict_get i (by_id (us_instruments new)) with
                        | Some before, Some after => f before after | _, _ => false end) = true)
        (py_sorted String.leb
          (filter (fun i => i ∈ (by_id (us_instruments old)).*1) (by_id (us_instruments new)).*1))
  <-> exists b a, common_member old new i b a /\ f b a = true.
Proof using old_unique new_unique.
  rewrite list_elem_of_filter, elem_of_py_sorted, list_elem_of_filter, !by_id_keys. split.
  - intros (Hf & Ho & Hn). apply list_elem_of_fmap in Ho as (b & -> & Hb), Hn as (a & Hab & Ha).
    rewrite (by_id_get _ b) in Hf by done. rewrite Hab, (by_id_get _ a) in Hf by done.
    exists b, a. by split_and!.
  - intros (b & a & (Hb & Ha & <- & Hab) & Hf). rewrite (by_id_get _ b) by done.
    rewrite <- Hab, (by_id_get _ a) by done. split_and!; [done| |]; [|by apply list_elem_of_fmap_2].
    rewrite Hab. by apply list_elem_of_fmap_2.
Qed.

Lemma mapping_diff_true b a : mapping_diff b a = true <->
  (ui_provider_security_id b, ui_exchange_segment b) <> (ui_provider_security_id a, ui_exchange_segment a).
Proof. unfold mapping_diff. by rewrite negb_true_iff, bool_decide_eq_false. Qed.

Lemma sector_diff_true b a : sector_diff b a = true <-> ui_sector b <> ui_sector a.
Proof. unfold sector_diff. by rewrite negb_true_iff, bool_decide_eq_false. Qed.

Lemma unchanged_test b a i : ui_identity b = i -> ui_identity a = i ->
  negb (mapping_diff b a) && negb (sector_diff b a) = true <-> logical b = logical a.
Proof.
  intros Hb Ha. unfold mapping_diff, sector_diff, logical. rewrite andb_true_iff, !negb_true_iff, !negb_false_iff,
    !bool_decide_eq_true, Hb, Ha. split; [|by intros [= -> -> ->]]. by intros [[= -> ->] ->].
Qed.

(** The difference is exact: an identity is added or removed when it belongs to one side
    only, and a common member is listed under what changed, or as unchanged when nothing
    of its content did. *)
Theorem diff_snapshots_exact i :
  (i ∈ added (diff_snapshots old new) <-> i ∈ us_identities new /\ i ∉ us_identities old)
  /\ (i ∈ removed (diff_snapshots old new) <-> i ∈ us_identities old /\ i ∉ us_identities new)
  /\ (i ∈ mapping_changed (diff_snapshots old new) <-> exists b a, common_member old new i b a
       /\ (ui_provider_security_id b, ui_exchange_segment b) <> (ui_provider_security_id a, ui_exchange_segment a))
  /\ (i ∈ sector_changed (diff_snapshots old new) <-> exists b a, common_member old new i b a
       /\ ui_sector b <> ui_sector a)
  /\ (i ∈ unchanged (diff_snapshots old new) <-> exists b a, common_member old new i b a
       /\ logical b = logical a).
Proof using old_unique new_unique.
  unfold diff_snapshots. cbn [added removed mapping_changed sector_changed unchanged].
  rewrite !diff_select, !elem_of_py_sorted, !list_elem_of_filter, !by_id_keys.
  setoid_rewrite mapping_diff_true. setoid_rewrite sector_diff_true. split_and!; [tauto|tauto|done|done|].
  split; intros (b & a & Hc & Hf); exists b, a; (split; [done|]); by destruct Hc as (_ & _ & Hb & Ha);
    apply (unchanged_test b a i).
Qed.

Lemma common_member_of i : i ∈ us_identities old -> i ∈ us_identities new ->
  exists b a, common_member old new i b a.
Proof using Type.
  intros (b & -> & Hb)%list_elem_of_fmap (a & Ha & Ha')%list_elem_of_fmap. exists b, a. by split_and!.
Qed.

Lemma content_NoDup l : NoDup (ui_identity <$> l) -> NoDup (logical <$> l).
Proof using Type. intros Hn. rewrite <- logical_keys in Hn. by apply NoDup_fmap_1 in Hn. Qed.

Lemma logical_elem i b l : NoDup (ui_identity <$> l) -> b ∈ l -> ui_identity b = i ->
  forall q, q ∈ logical <$> l /\ q.1.1.1 = i <-> q = logical b.
Proof using Type.
  intros Hn Hb Hi q. split.
  - intros [(x & -> & Hx)%list_elem_of_fmap Hq]. f_equal.
    apply (NoDup_fmap_eq ui_identity _ _ _ Hn Hx Hb). cbn in Hq. congruence.
  - intros ->. split; [by apply list_elem_of_fmap_2|done].
Qed.

(** Nothing is added, removed or changed exactly when the two snapshots hold the same
    logical members. *)
Theorem diff_empty_iff :
  (added (diff_snapshots old new) = [] /\ removed (diff_snapshots old new) = []
   /\ mapping_changed (diff_snapshots old new) = [] /\ sector_changed (diff_snapshots old new) = [])
  <-> logical <$> us_instruments old ≡ₚ logical <$> us_instruments new.
Proof using old_unique new_unique.
  assert (Hnil : forall l : list string, l = [] <-> forall i, i ∉ l).
  { intros l. split; [intros ->; apply not_elem_of_nil|]. destruct l; [done|]. intros H. destruct (H s). left. }
  rewrite !Hnil. split.
  - intros (Ha & Hr & Hm & Hs).
    assert (Hsame : forall i, i ∈ us_identities old <-> i ∈ us_identities new).
    { intros i. destruct (diff_snapshots_exact i) as (H1 & H2 & _). specialize (Ha i). specialize (Hr i).
      rewrite H1 in Ha. rewrite H2 in Hr. destruct (decide (i ∈ us_identities old)),
        (decide (i ∈ us_identities new)); tauto. }
    assert (Hlog : forall i b a, common_member old new i b a -> logical b = logical a).
    { intros i b a Hc. destruct (diff_snapshots_exact i) as (_ & _ & H1 & H2 & _).
      specialize (Hm i). specialize (Hs i). rewrite H1 in Hm. rewrite H2 in Hs.
      apply (unchanged_test b a i); [apply Hc..|]. rewrite andb_true_iff, !negb_true_iff.
      split; apply not_true_iff_false;
        [intros Hx%mapping_diff_true; apply Hm|intros Hx%sector_diff_true; apply Hs]; by exists b, a. }
    apply NoDup_Permutation; [by apply content_NoDup..|]. intros q. rewrite !list_elem_of_fmap. split.
    + intros (b & -> & Hb). destruct (common_member_of (ui_identity b)) as (b' & a & Hc);
        [by apply list_elem_of_fmap_2|by apply Hsame, list_elem_of_fmap_2|].
      exists a. split; [|apply Hc]. rewrite <- (Hlog _ _ _ Hc). f_equal.
      apply (NoDup_fmap_eq ui_identity _ _ _ old_unique); [done|apply Hc|symmetry; apply Hc].
    + intros (a & -> & Ha'). destruct (common_member_of (ui_identity a)) as (b & a' & Hc);
        [by apply Hsame, list_elem_of_fmap_2|by apply list_elem_of_fmap_2|].
      exists b. split; [|apply Hc]. rewrite (Hlog _ _ _ Hc). f_equal.
      apply (NoDup_fmap_eq ui_identity _ _ _ new_unique); [done|apply Hc|symmetry; apply Hc].
  - intros Hp.
    assert (Hids : us_identities old ≡ₚ us_identities new).
    { unfold us_identities. rewrite <- !logical_keys. by rewrite Hp. }
    assert (Hlog : forall i b a, common_member old new i b a -> logical b = logical a).
    { intros i b a (Hb & Ha & Hbi & Hai). apply (logical_elem i a (us_instruments new)); [done..|].
      split; [|done]. rewrite <- Hp. by apply list_elem_of_fmap_2. }
    split_and!; intros i; destruct (diff_snapshots_exact i) as (H1 & H2 & H3 & H4 & _).
    + rewrite H1, Hids. tauto.
    + rewrite H2, Hids. tauto.
    + rewrite H3. intros (b & a & Hc & Hd). apply Hd. by injection (Hlog _ _ _ Hc) as _ -> ->.
    + rewrite H4. intros (b & a & Hc & Hd). apply Hd. by injection (Hlog _ _ _ Hc) as _ _ _ ->.
Qed.

End DiffTheorems.

(** ** Resolution *)

Section ResolveTheorems.
Context (sha256 : string -> string) (mapping_for : MappingSource) (primary_of : SectorAuthority).

Definition mapped_entries (l : list Instrument) : Mapped :=
  omap (fun i => m ← mapping_for i; Some (instrument_identity i, (i, m))) l.

Definition missing_entries (l : list Instrument) : list UnresolvedInstrument :=
  omap (fun i => match mapping_for i with
                 | None => Some {| un_identity := instrument_identity i; un_reason := MISSING_PROVIDER_MAPPING |}
                 | Some _ => None end) l.

Lemma mapped_entries_key k v l : (k, v) ∈ mapped_entries l <->
  v.1 ∈ l /\ instrument_identity v.1 = k /\ mapping_for v.1 = Some v.2.
Proof.
  unfold mapped_entries. rewrite list_elem_of_omap. split.
  - intros (i & Hi & (m & Hm & [= <- <-])%bind_Some). done.
  - destruct v as [i m]. cbn. intros (Hi & <- & Hm). exists i. split; [done|]. by rewrite Hm.
Qed.

Lemma mapped_keys_subset k l : k ∈ (mapped_entries l).*1 -> k ∈ instrument_identity <$> l.
Proof.
  intros ([k' v] & -> & H%mapped_entries_key)%list_elem_of_fmap. destruct H as (Hi & <- & _).
  by apply (list_elem_of_fmap_2 instrument_identity).
Qed.

(** Members with distinct identities never overwrite one another. *)
Lemma map_members_spec l : NoDup (instrument_identity <$> l) ->
  map_members mapping_for l = (mapped_entries l, missing_entries l) /\ NoDup (mapped_entries l).*1.
Proof.
  induction l as [|i l IH] using rev_ind; intros Hn; [split; [done|constructor]|].
  rewrite fmap_app, NoDup_app in Hn. destruct Hn as (Hn & Hd & _). destruct (IH Hn) as [IH1 IH2].
  unfold map_members, mapped_entries, missing_entries in *. rewrite fold_left_app, !omap_app, IH1. cbn.
  destruct (mapping_for i) as [m|] eqn:E; cbn; rewrite ?app_nil_r; [|done].
  assert (Hk : instrument_identity i ∉ (mapped_entries l).*1).
  { intros H%mapped_keys_subset. eapply Hd; [exact H|]. left. }
  rewrite dict_set_fresh by exact Hk. split; [done|]. rewrite fmap_app, NoDup_app. split_and!; [done| |].
  - intros k Hk' ->%list_elem_of_singleton. by apply Hk.
  - apply NoDup_singleton.
Qed.

Lemma others_in_group {A} (f : A -> string) (l : list A) x : NoDup (f <$> l) -> x ∈ l ->
  (1 < length l)%nat <-> exists y, y ∈ l /\ f y <> f x.
Proof.
  intros Hn Hx. apply list_elem_of_split in Hx as (l1 & l2 & ->). rewrite fmap_app, fmap_cons in Hn.
  assert (Hne : forall y, y ∈ l1 ++ l2 -> f y <> f x).
  { intros y Hy Heq. rewrite <- Permutation_middle, NoDup_cons, <- fmap_app in Hn.
    apply (proj1 Hn), list_elem_of_fmap. by exists y. }
  rewrite length_app. cbn. split.
  - intros Hl. destruct (l1 ++ l2) as [|y m] eqn:E.
    + apply (f_equal length) in E. rewrite length_app in E. cbn in E. lia.
    + exists y. split; [|apply Hne; left]. assert (y ∈ l1 ++ l2) by (rewrite E; left). set_solver.
  - intros (y & Hy & Hne'). assert (Hin : y ∈ l1 ++ l2) by set_solver.
    destruct (l1 ++ l2) eqn:E; [set_solver|]. apply (f_equal length) in E. rewrite length_app in E. cbn in E. lia.
Qed.

(** Another member maps to the same provider id. *)
Definition shared (mapped : Mapped) (kv : string * (Instrument * ProviderMapping)) : Prop :=
  exists kv', kv' ∈ mapped /\ kv'.1 <> kv.1
    /\ pm_provider_security_id kv'.2.2 = pm_provider_security_id kv.2.2.

Lemma conflicts_iff mapped kv : NoDup mapped.*1 -> kv ∈ mapped ->
  kv.1 ∈ security_id_conflicts mapped <-> shared mapped kv.
Proof.
  intros Hn Hkv. unfold security_id_conflicts.
  set (psid := fun kv : string * (Instrument * ProviderMapping) => pm_provider_security_id kv.2.2).
  assert (Hg : forall g, g ∈ group_by psid mapped <->
    g.2 = filter (fun x => psid x = g.1) mapped /\ g.1 ∈ (group_by psid mapped).*1).
  { intros [k vs]. cbn. rewrite <- (group_by_get psid k mapped). split.
    - intros H. rewrite (dict_elem_get k vs) by (done || apply group_by_NoDup). split; [done|].
      by apply (list_elem_of_fmap_2 fst) in H.
    - intros [-> H]. destruct (dict_get k _) as [vs|] eqn:E; [by apply dict_get_elem|].
      by apply dict_get_none in E. }
  assert (Hsub : forall k, NoDup (fst <$> filter (fun x => psid x = k) mapped)).
  { intros k. by apply NoDup_filter_keys. }
  rewrite list_elem_of_In, in_concat. setoid_rewrite in_map_iff. setoid_rewrite <- list_elem_of_In.
  setoid_rewrite list_elem_of_filter. split.
  - intros (ks & (g & <- & Hlen & [Hg2 Hg1]%Hg) & Hk). cbn in Hlen.
    apply list_elem_of_fmap in Hk as (x & Hx & Hin). rewrite Hg2 in Hin, Hlen.
    destruct (proj1 (others_in_group fst _ x (Hsub g.1) Hin) Hlen) as (y & [Hy Hym]%list_elem_of_filter & Hne).
    apply list_elem_of_filter in Hin as [Hpx Hxm].
    assert (x = kv) as -> by by apply (NoDup_fmap_eq fst _ _ _ Hn).
    exists y. split_and!; [done|done|]. unfold psid in *. congruence.
  - intros (y & Hy & Hne & Hp). exists (fst <$> filter (fun x => psid x = psid kv) mapped). split.
    + exists (psid kv, filter (fun x => psid x = psid kv) mapped). split_and!; [done| |].
      * cbn. apply (others_in_group fst _ kv); [apply Hsub|by apply list_elem_of_filter|].
        exists y. split; [by apply list_elem_of_filter|done].
      * apply Hg. cbn. split; [done|]. apply group_by_keys. by exists kv.
    + apply list_elem_of_fmap_2. by apply list_elem_of_filter.
Qed.

(** The second loop on one member, its texts accepted. *)
Definition joined (d : date) (kv : string * (Instrument * ProviderMapping)) : UniverseInstrument :=
  {| ui_instrument := kv.2.1; ui_provider_security_id := pm_provider_security_id kv.2.2;
     ui_exchange_segment := pm_exchange_segment kv.2.2; ui_sector := primary_of kv.1 d |}.

Definition outcome_of (d : date) (conflicts : list string) (kv : string * (Instrument * ProviderMapping))
    : UnresolvedInstrument + UniverseInstrument :=
  if bool_decide (kv.1 ∈ conflicts)
  then inl {| un_identity := kv.1; un_reason := CONFLICTING_PROVIDER_MAPPING |}
  else inr (joined d kv).

Lemma join_member_ok d conflicts kv x :
  join_member primary_of d conflicts kv = Ok x -> x = outcome_of d conflicts kv.
Proof.
  unfold join_member, outcome_of. case_bool_decide; [by intros [= <-]|].
  intros (item & Hi & [= <-])%bind_ok. unfold mk_universe_instrument in Hi.
  apply bind_ok in Hi as (? & _ & [= <-]). done.
Qed.

Lemma traverse_join d conflicts mapped outcomes :
  traverse (join_member primary_of d conflicts) mapped = Ok outcomes ->
  outcomes = outcome_of d conflicts <$> mapped.
Proof.
  intros H%traverse_ok. induction H as [|kv x mapped outcomes Hx _ IH]; [done|].
  apply join_member_ok in Hx as ->. by rewrite IH.
Qed.

Definition resolved_in (d : date) (mapped : Mapped) : list UniverseInstrument :=
  omap resolved_of (outcome_of d (security_id_conflicts mapped) <$> mapped).
Definition conflicts_in (d : date) (mapped : Mapped) : list UnresolvedInstrument :=
  omap conflict_of (outcome_of d (security_id_conflicts mapped) <$> mapped).
Definition unclassified_in (d : date) (mapped : Mapped) : list string :=
  ui_identity <$> filter (fun i => ui_sector i = None) (resolved_in d mapped).

Lemma resolve_inv l d at_ p r : NoDup (instrument_identity <$> l) ->
  resolve sha256 mapping_for primary_of l d at_ p = Ok r ->
  us_instruments (rr_candidate r) = py_sorted identity_leb (resolved_in d (mapped_entries l))
  /\ rr_unresolved r = py_sorted unresolved_leb (missing_entries l ++ conflicts_in d (mapped_entries l))
  /\ rr_unclassified_sector r = py_sorted String.leb (unclassified_in d (mapped_entries l)).
Proof.
  intros Hn. destruct (map_members_spec l Hn) as [Hm _]. unfold resolve, resolve_instruments. rewrite Hm.
  intros ([[resolved unresolved] unclassified] & H & (c & Hc & [= <-])%bind_ok)%bind_ok.
  apply bind_ok in H as (outcomes & Ht & [= <- <- <-]). apply traverse_join in Ht as ->.
  cbn [rr_candidate rr_unresolved rr_unclassified_sector]. split_and!; [|done|done].
  unfold build_snapshot, mk_snapshot in Hc. repeat (apply bind_ok in Hc as (? & _ & Hc)).
  by injection Hc as <-.
Qed.

Lemma elem_of_resolved d mapped x : NoDup mapped.*1 ->
  x ∈ resolved_in d mapped <-> exists kv, kv ∈ mapped /\ ~ shared mapped kv /\ x = joined d kv.
Proof.
  intros Hn. unfold resolved_in. rewrite list_elem_of_omap. split.
  - intros (o & (kv & -> & Hkv)%list_elem_of_fmap & Ho). unfold outcome_of in Ho.
    case_bool_decide as Hc; [done|]. injection Ho as <-. exists kv. by rewrite <- conflicts_iff by done.
  - intros (kv & Hkv & Hs & ->). rewrite <- conflicts_iff in Hs by done.
    exists (outcome_of d (security_id_conflicts mapped) kv). split; [by apply list_elem_of_fmap_2|].
    unfold outcome_of. by rewrite bool_decide_false.
Qed.

Lemma elem_of_conflicts d mapped u : NoDup mapped.*1 ->
  u ∈ conflicts_in d mapped <-> exists kv, kv ∈ mapped /\ shared mapped kv
    /\ u = {| un_identity := kv.1; un_reason := CONFLICTING_PROVIDER_MAPPING |}.
Proof.
  intros Hn. unfold conflicts_in. rewrite list_elem_of_omap. split.
  - intros (o & (kv & -> & Hkv)%list_elem_of_fmap & Ho). unfold outcome_of in Ho.
    case_bool_decide as Hc; [|done]. injection Ho as <-. exists kv. by rewrite <- conflicts_iff by done.
  - intros (kv & Hkv & Hs & ->). rewrite <- conflicts_iff in Hs by done.
    exists (outcome_of d (security_id_conflicts mapped) kv). split; [by apply list_elem_of_fmap_2|].
    unfold outcome_of. by rewrite bool_decide_true.
Qed.

Lemma split_lengths d mapped :
  (length (resolved_in d mapped) + length (conflicts_in d mapped))%nat = length mapped.
Proof.
  unfold resolved_in, conflicts_in. generalize (security_id_conflicts mapped). intros conflicts.
  induction mapped as [|kv mapped IH]; [done|]. cbn in *.
  destruct (outcome_of d conflicts kv); cbn; lia.
Qed.

Lemma member_lengths l :
  (length (mapped_entries l) + length (missing_entries l))%nat = length l.
Proof.
  induction l as [|i l IH]; [done|]. unfold mapped_entries, missing_entries in *. cbn.
  destruct (mapping_for i); cbn; lia.
Qed.

(** A member whose provider id another member maps to as well. *)
Definition ambiguous (l : list Instrument) (i : Instrument) (m : ProviderMapping) : Prop :=
  exists j m', j ∈ l /\ mapping_for j = Some m' /\ instrument_identity j <> instrument_identity i
    /\ pm_provider_security_id m' = pm_provider_security_id m.

Lemma shared_ambiguous l k i m : (k, (i, m)) ∈ mapped_entries l ->
  shared (mapped_entries l) (k, (i, m)) <-> ambiguous l i m.
Proof.
  intros (_ & Hk & _)%mapped_entries_key. cbn in Hk. unfold shared, ambiguous. cbn. split.
  - intros ([k' [j m']] & (Hj & Hk' & Hm')%mapped_entries_key & Hne & Hp). exists j, m'. cbn in *. by subst.
  - intros (j & m' & Hj & Hm' & Hne & Hp). exists (instrument_identity j, (j, m')). cbn.
    split_and!; [by apply mapped_entries_key|by subst|done].
Qed.

(** A resolution accounts for every member of a list of distinct identities: the
    candidate holds exactly the members with an unambiguous mapping, joined to it and to
    their sector on the date; the others are reported with the reason, a missing mapping
    or one shared with another identity; the unclassified ones are the candidate's members
    without a sector; and nothing is lost or counted twice. *)
Theorem resolution_accounts l d at_ p r : NoDup (instrument_identity <$> l) ->
  resolve sha256 mapping_for primary_of l d at_ p = Ok r ->
  (forall x, x ∈ us_instruments (rr_candidate r) <-> exists i m, i ∈ l /\ mapping_for i = Some m
     /\ ~ ambiguous l i m
     /\ x = {| ui_instrument := i; ui_provider_security_id := pm_provider_security_id m;
               ui_exchange_segment := pm_exchange_segment m;
               ui_sector := primary_of (instrument_identity i) d |})
  /\ (forall u, u ∈ rr_unresolved r <-> exists i, i ∈ l /\ un_identity u = instrument_identity i
        /\ match un_reason u with
           | MISSING_PROVIDER_MAPPING => mapping_for i = None
           | CONFLICTING_PROVIDER_MAPPING => exists m, mapping_for i = Some m /\ ambiguous l i m
           end)
  /\ (forall k, k ∈ rr_unclassified_sector r <-> exists x, x ∈ us_instruments (rr_candidate r)
        /\ ui_identity x = k /\ ui_sector x = None)
  /\ (length (us_instruments (rr_candidate r)) + length (rr_unresolved r))%nat = length l.
Proof.
  intros Hn Hr. destruct (resolve_inv l d at_ p r Hn Hr) as (-> & -> & ->).
  destruct (map_members_spec l Hn) as [_ Hk]. split_and!.
  - intros x. rewrite elem_of_py_sorted, elem_of_resolved by done. split.
    + intros ([k [i m]] & Hkv & Hs & ->). rewrite (shared_ambiguous l) in Hs by done.
      apply mapped_entries_key in Hkv as (Hi & <- & Hm). by exists i, m.
    + intros (i & m & Hi & Hm & Ha & ->).
      assert (Hkv : (instrument_identity i, (i, m)) ∈ mapped_entries l) by by apply mapped_entries_key.
      exists (instrument_identity i, (i, m)). by rewrite (shared_ambiguous l) by done.
  - intros [k reason]. rewrite elem_of_py_sorted, elem_of_app, elem_of_conflicts by done. cbn. split.
    + intros [(i & Hi & Hu)%list_elem_of_omap|([k' [i m]] & Hkv & Hs & [= -> ->])].
      * destruct (mapping_for i) eqn:E; [done|]. injection Hu as <- <-. by exists i.
      * rewrite (shared_ambiguous l) in Hs by done. apply mapped_entries_key in Hkv as (Hi & <- & Hm).
        exists i. cbn in *. by eauto.
    + intros (i & Hi & -> & Hreason). destruct reason; [left|right].
      * apply list_elem_of_omap. exists i. by rewrite Hreason.
      * destruct Hreason as (m & Hm & Ha).
        assert (Hkv : (instrument_identity i, (i, m)) ∈ mapped_entries l) by by apply mapped_entries_key.
        exists (instrument_identity i, (i, m)). by rewrite (shared_ambiguous l) by done.
  - intros k. unfold unclassified_in. rewrite elem_of_py_sorted, list_elem_of_fmap.
    setoid_rewrite list_elem_of_filter. setoid_rewrite elem_of_py_sorted. naive_solver.
  - rewrite !length_py_sorted, length_app. pose proof (split_lengths d (mapped_entries l)).
    pose proof (member_lengths l). lia.
Qed.

Lemma mapped_identities d mapped :
  Forall (fun kv : string * (Instrument * ProviderMapping) => instrument_identity kv.2.1 = kv.1) mapped ->
  (un_identity <$> conflicts_in d mapped) ++ (ui_identity <$> resolved_in d mapped) ≡ₚ mapped.*1.
Proof.
  unfold resolved_in, conflicts_in. generalize (security_id_conflicts mapped). intros conflicts.
  induction 1 as [|kv mapped Hkv _ IH]; [done|]. cbn in *. unfold outcome_of in *.
  destruct (bool_decide (kv.1 ∈ conflicts)); cbn.
  - by rewrite IH.
  - rewrite <- Permutation_middle, IH. unfold ui_identity. cbn. by rewrite Hkv.
Qed.

Lemma member_identities l :
  (un_identity <$> missing_entries l) ++ (mapped_entries l).*1 ≡ₚ instrument_identity <$> l.
Proof.
  induction l as [|i l IH]; [done|]. unfold mapped_entries, missing_entries in *. cbn in *.
  destruct (mapping_for i); cbn; [by rewrite <- Permutation_middle, IH|by rewrite IH].
Qed.

Lemma resolution_identities d l :
  (un_identity <$> missing_entries l ++ conflicts_in d (mapped_entries l))
    ++ (ui_identity <$> resolved_in d (mapped_entries l)) ≡ₚ instrument_identity <$> l.
Proof.
  rewrite fmap_app, <- app_assoc, mapped_identities, member_identities; [done|].
  apply Forall_forall. intros [k v] (_ & Hk & _)%mapped_entries_key. done.
Qed.

Lemma shared_perm mapped mapped' kv : mapped ≡ₚ mapped' -> shared mapped kv <-> shared mapped' kv.
Proof. intros Hp. unfold shared. by setoid_rewrite Hp. Qed.

Lemma outcomes_perm d mapped mapped' : NoDup mapped.*1 -> mapped ≡ₚ mapped' ->
  outcome_of d (security_id_conflicts mapped) <$> mapped
  ≡ₚ outcome_of d (security_id_conflicts mapped') <$> mapped'.
Proof.
  intros Hn Hp. rewrite <- Hp at 2. apply Permutation_refl'. apply list_fmap_ext. intros _ kv Hkv%list_elem_of_lookup_2.
  unfold outcome_of. erewrite bool_decide_ext; [done|].
  rewrite conflicts_iff by done. rewrite (conflicts_iff mapped') by (by rewrite <- Hp). by apply shared_perm.
Qed.

Context (d : date).
Hypothesis sha256_length : forall s, String.length (sha256 s) = 64%nat.
Hypothesis mappings_valid : forall i m, mapping_for i = Some m -> mk_provider_mapping m = Ok m.
Hypothesis sectors_valid : forall k s, primary_of k d = Some s -> text_ok s 64 = true.

Lemma join_member_total conflicts l kv : kv ∈ mapped_entries l ->
  join_member primary_of d conflicts kv = Ok (outcome_of d conflicts kv).
Proof using mappings_valid sectors_valid.
  destruct kv as [k [i m]]. intros (_ & _ & Hm%mappings_valid)%mapped_entries_key.
  unfold mk_provider_mapping in Hm. apply bind_ok in Hm as (u & Hm%raise_if_ok & _). cbn in Hm.
  apply negb_false_iff in Hm. unfold join_member, outcome_of. case_bool_decide; [done|].
  unfold mk_universe_instrument. cbn. rewrite Hm. unfold sector_text_ok, joined. cbn.
  destruct (primary_of k d) as [s|] eqn:E; [rewrite (sectors_valid _ _ E)|]; done.
Qed.

(** With validated mappings and sectors a resolution always succeeds, and the order of
    the membership does not matter when its identities are distinct. *)
Theorem resolve_order_independent l l' at_ p : NoDup (instrument_identity <$> l) -> l ≡ₚ l' ->
  exists r, resolve sha256 mapping_for primary_of l d at_ p = Ok r
    /\ resolve sha256 mapping_for primary_of l' d at_ p = Ok r.
Proof using sha256_length mappings_valid sectors_valid.
  intros Hn Hl.
  assert (Hrun : forall k, NoDup (instrument_identity <$> k) ->
    resolve sha256 mapping_for primary_of k d at_ p =
      (c ← build_snapshot sha256 CANDIDATE_VERSION d at_ CANDIDATE (resolved_in d (mapped_entries k)) p;
       Ok {| rr_candidate := c;
             rr_unresolved := py_sorted unresolved_leb (missing_entries k ++ conflicts_in d (mapped_entries k));
             rr_unclassified_sector := py_sorted String.leb (unclassified_in d (mapped_entries k)) |})).
  { intros k Hk. unfold resolve, resolve_instruments. destruct (map_members_spec k Hk) as [-> _].
    rewrite (traverse_pure _ (outcome_of d (security_id_conflicts (mapped_entries k)))); [done|].
    apply Forall_forall. intros kv. apply join_member_total. }
  assert (Hn' : NoDup (instrument_identity <$> l')) by (by rewrite <- Hl).
  rewrite !Hrun by done.
  assert (Hmap : mapped_entries l ≡ₚ mapped_entries l') by (unfold mapped_entries; by rewrite Hl).
  assert (Hmis : missing_entries l ≡ₚ missing_entries l') by (unfold missing_entries; by rewrite Hl).
  pose proof (outcomes_perm d _ _ (proj2 (map_members_spec l Hn)) Hmap) as Hout.
  assert (Hres : resolved_in d (mapped_entries l) ≡ₚ resolved_in d (mapped_entries l'))
    by (unfold resolved_in; by rewrite Hout).
  assert (Hcon : conflicts_in d (mapped_entries l) ≡ₚ conflicts_in d (mapped_entries l'))
    by (unfold conflicts_in; by rewrite Hout).
  pose proof (resolution_identities d l) as Hids. rewrite <- Hids, NoDup_app in Hn.
  destruct Hn as (Hnu & _ & Hnr).
  destruct (build_snapshot_correct sha256 sha256_length CANDIDATE_VERSION d at_ CANDIDATE
    (resolved_in d (mapped_entries l)) p ltac:(done)) as [[_ Hok] Hany].
  destruct (build_snapshot _ _ _ _ _ (resolved_in d (mapped_entries l)) p) as [c|] eqn:Ec; [|by specialize (Hok Hnr)].
  destruct (Hany c eq_refl) as (_ & _ & _ & Hc). rewrite (Hc _ (symmetry Hres)). cbn.
  eexists. split; [reflexivity|]. do 2 f_equal.
  - symmetry. apply (keyed_sorted_unique un_identity); [|by rewrite Hmis, Hcon].
    intros x y Hx Hy. by apply (NoDup_fmap_eq un_identity _ _ _ Hnu).
  - apply string_sorted_unique. unfold unclassified_in. by rewrite Hres.
Qed.

End ResolveTheorems.

(** A candidate passes the promotion gate exactly when it is promotable; otherwise the
    gate says how many members are unresolved, or that there is none at all. *)
Theorem promotion_gate r :
  (validate_promotable r = Ok tt <-> is_promotable r = true)
  /\ (rr_unresolved r <> [] ->
      validate_promotable r = Raise (PromotionValidationError (length (rr_unresolved r))))
  /\ (rr_unresolved r = [] -> us_instruments (rr_candidate r) = [] ->
      validate_promotable r = Raise EmptyUniverseError).
Proof.
  unfold validate_promotable, is_promotable.
  destruct (rr_unresolved r), (us_instruments (rr_candidate r)); cbn; naive_solver.
Qed.

(** * Concrete universes *)

Definition sample_member (name listing : string) : Instrument := {|
  exchange := "NSE"; market_segment := EQUITY; symbol := name; instrument_class := CASH;
  underlying := None; display_name := None; listing_type := None; series := Some listing; expiry := None;
  strike_price := None; option_type := None |}.

Definition sample_mapping (i : Instrument) : option ProviderMapping :=
  let id s := Some {| pm_provider_security_id := s; pm_exchange_segment := "NSE_EQ" |} in
  if bool_decide (series i = Some "BE") then id "9"
  else if bool_decide (symbol i = "ACC") then id "1"
  else if bool_decide (symbol i = "BEL") then id "2"
  else if bool_decide (symbol i = "CIPLA") then id "2"
  else if bool_decide (symbol i = "TCS") then id "3"
  else None.

Definition sample_sector (identity : string) (on : date) : option string :=
  if bool_decide (identity = "NSE:ACC") then Some "CEMENT" else None.

Definition sample_membership : list Instrument :=
  (fun s => sample_member s "EQ") <$> ["TCS"; "BEL"; "DLF"; "ACC"; "CIPLA"]%string.

(** A stand-in digest: the sum of the characters on six digits, then zeros. *)
Fixpoint checksum (s : string) : Z :=
  match s with EmptyString => 0 | String c s => Z.of_nat (nat_of_ascii c) + checksum s end.
Definition sample_sha256 (s : string) : string := zfill 6 (checksum s) (zfill 58 0 "").

Definition sample_provenance : SourceProvenance := {|
  fno_source := "nse"; fno_version := "1"; fno_effective_date := 20000;
  instrument_master_source := "master"; instrument_master_version := "7";
  sector_dataset_id := "sectors"; sector_version := "2" |}.


Lemma sample_sha256_length s : String.length (sample_sha256 s) = 64%nat.
Proof. unfold sample_sha256. by rewrite !zfill_length. Qed.

Lemma sample_mapping_valid i m : sample_mapping i = Some m -> mk_provider_mapping m = Ok m.
Proof. unfold sample_mapping. repeat case_bool_decide; intros [= <-]; reflexivity. Qed.

Lemma sample_sector_valid d k s : sample_sector k d = Some s -> text_ok s 64 = true.
Proof. unfold sample_sector. case_bool_decide; intros [= <-]; reflexivity. Qed.

Definition sample_ui (name psid : string) (sector : option string) : UniverseInstrument := {|
  ui_instrument := sample_member name "EQ"; ui_provider_security_id := psid;
  ui_exchange_segment := "NSE_EQ"; ui_sector := sector |}.

Definition sample_old : UniverseSnapshot := {|
  us_schema_version := SCHEMA_VERSION; us_universe_version := 1; us_trading_date := 20000;
  us_effective_at := 0; us_state := PROMOTED;
  us_instruments := [sample_ui "ACC" "1" None; sample_ui "BEL" "2" None; sample_ui "DLF" "4" None];
  us_source_provenance := sample_provenance; us_content_sha256 := "" |}.
Definition sample_new : UniverseSnapshot := {|
  us_schema_version := SCHEMA_VERSION; us_universe_version := 2; us_trading_date := 20001;
  us_effective_at := 0; us_state := PROMOTED;
  us_instruments := [sample_ui "ACC" "1" (Some "CEMENT"); sample_ui "BEL" "5" None; sample_ui "TCS" "3" None];
  us_source_provenance := sample_provenance; us_content_sha256 := "" |}.

Example sample_diff : diff_snapshots sample_old sample_new = {|
  from_version := 1; to_version := 2; added := ["NSE:TCS"]; removed := ["NSE:DLF"]; unchanged := [];
  mapping_changed := ["NSE:BEL"]; sector_changed := ["NSE:ACC"] |}%string.
Proof. vm_compute. reflexivity. Qed.

Lemma canonical_content_identifies_witness :
  canonical_content 20000 [sample_ui "ACC" "1" None; sample_ui "BEL" "2" None] sample_provenance
  <> canonical_content 20000 [sample_ui "ACC" "1" None; sample_ui "BEL" "3" None] sample_provenance.
Proof.
  intros H. apply canonical_content_identifies in H as (_ & Hp & _); [|by vm_compute..|].
  - apply Permutation_length_2 in Hp as [[_ [=]]|[[=] _]].
  - cbn. apply (bool_decide_unpack _). vm_compute. exact I.
Defined.

Lemma build_snapshot_correct_witness :
  0 <= 1 /\ is_ok (build_snapshot sample_sha256 1 20000 0 PROMOTED
                     [sample_ui "BEL" "2" None; sample_ui "ACC" "1" None] sample_provenance) = true.
Proof.
  split; [lia|]. apply build_snapshot_correct; [apply sample_sha256_length|lia|].
  apply (bool_decide_unpack _). vm_compute. exact I.
Defined.

Lemma diff_snapshots_exact_witness : "NSE:TCS"%string ∈ us_identities sample_new
  /\ "NSE:TCS"%string ∉ us_identities sample_old.
Proof.
  apply (diff_snapshots_exact sample_old sample_new);
    [apply (bool_decide_unpack _); vm_compute; exact I..|]. vm_compute. left.
Defined.

Lemma diff_empty_iff_witness : ~ logical <$> us_instruments sample_old ≡ₚ logical <$> us_instruments sample_new.
Proof.
  rewrite <- diff_empty_iff; [|apply (bool_decide_unpack _); vm_compute; exact I..].
  intros (H & _). vm_compute in H. discriminate H.
Defined.

Lemma resolution_accounts_witness : exists r,
  resolve sample_sha256 sample_mapping sample_sector sample_membership 20000 0 sample_provenance = Ok r
  /\ (length (us_instruments (rr_candidate r)) + length (rr_unresolved r))%nat = 5%nat
  /\ rr_unresolved r = [
       {| un_identity := "NSE:BEL"; un_reason := CONFLICTING_PROVIDER_MAPPING |};
       {| un_identity := "NSE:CIPLA"; un_reason := CONFLICTING_PROVIDER_MAPPING |};
       {| un_identity := "NSE:DLF"; un_reason := MISSING_PROVIDER_MAPPING |}]%string.
Proof.
  assert (Hn : NoDup (instrument_identity <$> sample_membership))
    by (apply (bool_decide_unpack _); vm_compute; exact I).
  destruct (resolve sample_sha256 sample_mapping sample_sector sample_membership 20000 0 sample_provenance)
    as [r|] eqn:E; [|by vm_compute in E]. exists r. split; [done|]. split.
  - apply (resolution_accounts sample_sha256 sample_mapping sample_sector _ _ _ _ _ Hn E).
  - vm_compute in E. injection E as <-. reflexivity.
Defined.

Lemma resolve_order_independent_witness : exists r,
  resolve sample_sha256 sample_mapping sample_sector sample_membership 20000 0 sample_provenance = Ok r
  /\ resolve sample_sha256 sample_mapping sample_sector (reverse sample_membership) 20000 0 sample_provenance = Ok r.
Proof.
  apply resolve_order_independent;
    [apply sample_sha256_length|apply sample_mapping_valid|apply sample_sector_valid| |].
  - apply (bool_decide_unpack _). vm_compute. exact I.
  - symmetry. apply reverse_Permutation.
Defined.

(** Two members that share the identity text, two series of one symbol, overwrite one
    another: the first one disappears without a trace, the candidate is promotable, and
    which one survives depends on the order of the membership. *)
Example duplicate_identity_dropped :
  let run l := resolve sample_sha256 sample_mapping sample_sector l 20000 0 sample_provenance in
  let main := sample_member "TCS" "EQ" in
  let other := sample_member "TCS" "BE" in
  (fun r => (ui_instrument <$> us_instruments (rr_candidate r), is_promotable r)) <$> run [main; other]
    = Ok ([other], true)
  /\ (fun r => (ui_instrument <$> us_instruments (rr_candidate r), is_promotable r)) <$> run [other; main]
    = Ok ([main], true).
Proof. vm_compute. split; reflexivity. Qed.
