(* ===== verification/UniversePromotion.v ===== *)
(** What promotion publishes, on the store of [UniverseStore]: the files a set of
    concurrent promotions leaves, one promotion from start to end, its termination, and
    the snapshot that is active on a date.

    Promotions of different contents write different temporary names, and each keeps its
    inode to itself until it is complete; that invariant is carried through every step.
    Promotions of the same content share the temporary name, and the last lemmas show what
    follows. *)
From Stdlib Require Import Ascii.
From S2P Require Import Prelude PyTime PyDate MarketData Universe UniverseStore.

Local Open Scope Z_scope.

(** * Directories *)

(** Every name stands for an inode that has been given out. *)
Definition dir_ok (fs : Dir) : Prop := forall n i, names fs !! n = Some i -> (i < next_inode fs)%nat.

(** No temporary file is left over. *)
Definition clean (fs : Dir) : Prop := forall n, is_tmp n -> names fs !! n = None.

(** The inode has this name only. *)
Definition private (fs : Dir) (n : string) (i : nat) : Prop :=
  names fs !! n = Some i /\ forall n', names fs !! n' = Some i -> n' = n.

(** ** The latest snapshot *)

(** Before in the order of effective date and version. *)
Definition not_after (a b : UniverseSnapshot) : Prop :=
  us_trading_date a < us_trading_date b
  \/ us_trading_date a = us_trading_date b /\ us_universe_version a <= us_universe_version b.

Lemma later_false a b : later a b = false <-> not_after a b.
Proof. unfold later, not_after. rewrite orb_false_iff, andb_false_iff. lia. Qed.

Lemma later_true a b : later a b = true -> not_after b a.
Proof. unfold later, not_after. rewrite orb_true_iff, andb_true_iff. lia. Qed.

Lemma not_after_trans a b c : not_after a b -> not_after b c -> not_after a c.
Proof. unfold not_after. lia. Qed.

Lemma pick_active_spec d l : 
  match pick_active d l with
  | None => forall s, s ∈ l -> d < us_trading_date s
  | Some b => b ∈ l /\ us_trading_date b <= d
      /\ forall s, s ∈ l -> us_trading_date s <= d -> not_after s b
  end.
Proof.
  unfold pick_active. induction l as [|x l IH] using rev_ind; [set_solver|]. rewrite fold_left_app. cbn.
  destruct (fold_left _ l None) as [b|].
  - destruct IH as (Hb & Hd & Hall). destruct (d <? us_trading_date x) eqn:E; [|destruct (later x b) eqn:El].
    + zbool. split_and!; [set_solver|done|]. intros s [Hs| ->%list_elem_of_singleton]%elem_of_app Hsd; [by apply Hall|lia].
    + zbool. split_and!; [set_solver|done|]. intros s [Hs| ->%list_elem_of_singleton]%elem_of_app Hsd.
      * eapply not_after_trans; [by apply Hall|]. by apply later_true.
      * unfold not_after. lia.
    + zbool. split_and!; [set_solver|done|]. intros s [Hs| ->%list_elem_of_singleton]%elem_of_app Hsd; [by apply Hall|].
      by apply later_false.
  - destruct (d <? us_trading_date x) eqn:E; zbool.
    + intros s [Hs| ->%list_elem_of_singleton]%elem_of_app; [by apply IH|done].
    + split_and!; [set_solver|done|]. intros s [Hs| ->%list_elem_of_singleton]%elem_of_app Hsd.
      * specialize (IH s Hs). lia.
      * unfold not_after. lia.
Qed.

Section PromotionTheorems.
Context (sha256 : string -> string) `{!SnapshotCodec sha256} (listing : list string -> list string).

Local Abbreviation step := (promote_step sha256 listing).

Definition holds (v : Z) (p : PState) : Prop :=
  match p with PFill _ u _ | PLink _ u | PUnlink _ u _ => u = v | _ => False end.

(** What a promotion relies on between its steps. *)
Definition file_progress (req : Promotion) (fs : Dir) (p : PState) : Prop :=
  match p with
  | PFill _ v i => private fs (tmp_of req v) i
  | PLink _ v => exists i, private fs (tmp_of req v) i /\ data fs !! i = Some (dump (promoted req v))
  | PUnlink _ v Linked => content fs (version_name v) = Some (dump (promoted req v))
  | PUnlink _ _ Missing => False
  | PDone (Published s) => exists v, s = promoted req v /\ content fs (version_name v) = Some (dump s)
  | PDone (Failed e) => e <> FileNotFoundError
  | _ => True
  end.

(** A name that is not a temporary name of the promotion keeps its inode and bytes. *)
Definition kept (req : Promotion) (fs fs' : Dir) : Prop :=
  forall n i, (forall v, n <> tmp_of req v) -> names fs !! n = Some i ->
    names fs' !! n = Some i /\ data fs' !! i = data fs !! i.

(** Where a name of the new directory comes from. *)
Definition origin (req : Promotion) (fs fs' : Dir) (p : PState) : Prop :=
  forall n i, names fs' !! n = Some i ->
    names fs !! n = Some i
    \/ (exists k v, p = POpen k v /\ n = tmp_of req v /\ i = next_inode fs)
    \/ (exists k v, p = PLink k v /\ n = version_name v /\ names fs !! n = None
          /\ names fs !! tmp_of req v = Some i).

(** The temporary name is free when it is about to be opened. *)
Definition may_open (req : Promotion) (fs : Dir) (p : PState) : Prop :=
  match p with POpen _ v => names fs !! tmp_of req v = None | _ => True end.

Lemma step_kept req fs p fs' p' : dir_ok fs -> file_progress req fs p -> may_open req fs p ->
  step req fs p = (fs', p') -> kept req fs fs' /\ origin req fs fs' p /\ dir_ok fs'.
Proof using Type.
  intros Hok Hp Ho H.
  assert (Hid : fs' = fs -> kept req fs fs' /\ origin req fs fs' p /\ dir_ok fs').
  { intros ->. split_and!; [by intros n i|intros n i; by left|done]. }
  destruct p as [|k|k v|k v i|k v|k v r|o]; cbn [promote_step] in H.
  - apply Hid. destruct (validate_promotable _); [|by injection H as <- <-].
    by destruct (find_by_content _ _ _ _) as [[s|]|]; injection H as <- <-.
  - apply Hid. by destruct (k <? _)%nat; injection H as <- <-.
  - cbn in Ho. unfold tmp_of in Ho. unfold open_w in H. rewrite Ho in H. injection H as <- <-. split_and!; cbn.
    + intros n i Hn Hi. cbn. pose proof (Hok _ _ Hi). rewrite lookup_insert_ne by (intros <-; by apply (Hn v)).
      split; [done|]. apply lookup_insert_ne. lia.
    + intros n i. cbn. destruct (decide (n = tmp_name v (pr_prefix req))) as [->|Hn].
      * rewrite lookup_insert_eq. intros [= <-]. right; left. by exists k, v.
      * rewrite lookup_insert_ne by done. by left.
    + intros n i. cbn. destruct (decide (n = tmp_name v (pr_prefix req))) as [->|Hn].
      * rewrite lookup_insert_eq. intros [= <-]. lia.
      * rewrite lookup_insert_ne by done. intros Hi%Hok. lia.
  - injection H as <- <-. destruct Hp as [Hi Hu]. split_and!; [|intros n j; by left|done].
    intros n j Hn Hj. split; [done|]. cbn. apply lookup_insert_ne. intros ->. apply (Hn v). by apply Hu.
  - destruct (link_cases fs (tmp_name v (pr_prefix req)) (version_name v))
      as [(_ & E)|[(_ & _ & E)|(i & Hi & Hn & E)]]; rewrite E in H; injection H as <- <-; [by apply Hid..|].
    split_and!; cbn.
    + intros n j _ Hj. cbn. split; [|done]. rewrite lookup_insert_ne; [done|]. intros <-. by rewrite Hn in Hj.
    + intros n j. cbn. destruct (decide (n = version_name v)) as [->|Hne].
      * rewrite lookup_insert_eq. intros [= <-]. right; right. by exists k, v.
      * rewrite lookup_insert_ne by done. by left.
    + intros n j. cbn. destruct (decide (n = version_name v)) as [->|Hne].
      * rewrite lookup_insert_eq. intros [= <-]. by apply (Hok _ _ Hi).
      * rewrite lookup_insert_ne by done. apply Hok.
  - injection H as <- <-. split_and!; cbn.
    + intros n i Hn Hi. cbn. rewrite lookup_delete_ne; [done|]. intros <-. by apply (Hn v).
    + intros n i. cbn. rewrite lookup_delete_Some. intros [_ ?]. by left.
    + intros n i. cbn. rewrite lookup_delete_Some. intros [_ Hi]. by apply (Hok _ _ Hi).
  - injection H as <- <-. by apply Hid.
Qed.

Lemma kept_content req fs fs' n : kept req fs fs' -> ~ is_tmp n -> is_Some (names fs !! n) ->
  content fs' n = content fs n.
Proof using Type.
  intros Hk Hn [i Hi]. destruct (Hk n i) as [Hi' Hd]; [|done|].
  - intros v ->. apply Hn, is_tmp_tmp_of.
  - unfold content. rewrite Hi, Hi'. cbn. exact Hd.
Qed.

Lemma content_some_name fs n b : content fs n = Some b -> is_Some (names fs !! n).
Proof using Type. intros (i & Hi & _)%bind_Some. by exists i. Qed.

Lemma published_kept req fs fs' v b : kept req fs fs' ->
  content fs (version_name v) = Some b -> content fs' (version_name v) = Some b.
Proof using Type.
  intros Hk Hc. rewrite (kept_content req fs fs'); [done|done|apply version_not_tmp|by eapply content_some_name].
Qed.

(** Another promotion's step leaves what this one relies on. *)
Lemma private_kept req req2 fs fs' p v i : dir_ok fs -> pr_prefix req <> pr_prefix req2 ->
  kept req fs fs' -> origin req fs fs' p -> private fs (tmp_of req2 v) i ->
  private fs' (tmp_of req2 v) i /\ data fs' !! i = data fs !! i.
Proof using Type.
  intros Hok Hne Hk Ho [Hi Hu].
  assert (Hother : forall v', tmp_of req2 v <> tmp_of req v') by (intros v' [_ H]%tmp_name_inj; by apply Hne).
  destruct (Hk _ _ Hother Hi) as [Hi' Hd]. split; [split|]; [done| |done].
  intros n' Hn'. destruct (Ho n' i Hn') as [H|[(k & v' & _ & _ & ->)|(k & v' & _ & _ & _ & H)]].
  - by apply Hu.
  - apply Hok in Hi. lia.
  - apply Hu in H. symmetry in H. by apply Hother in H.
Qed.

Lemma file_progress_other req req2 fs fs' p p2 : dir_ok fs -> pr_prefix req <> pr_prefix req2 ->
  kept req fs fs' -> origin req fs fs' p -> file_progress req2 fs p2 -> file_progress req2 fs' p2.
Proof using Type.
  intros Hok Hne Hk Ho. destruct p2 as [|k|k v|k v i|k v|k v []|[s|s|e]]; cbn; try done.
  - intros Hp. by apply (private_kept req req2 fs fs' p).
  - intros (i & Hp & Hd). exists i. destruct (private_kept req req2 fs fs' p v i) as [H1 H2]; [done..|].
    split; [done|by rewrite H2].
  - by apply (published_kept req).
  - intros (v & -> & Hc). exists v. split; [done|]. by apply (published_kept req fs).
Qed.

Lemma find_not_missing fs sha : find_by_content sha256 listing fs sha <> Raise FileNotFoundError.
Proof using Type.
  unfold find_by_content, iter_promoted. intros [H|(? & _ & [=])]%bind_raise.
  apply bind_raise in H as [H|(? & _ & [=])]. revert H. induction (glob listing fs) as [|n l IH]; [done|]. cbn.
  intros [H|(? & _ & [H|(? & _ & [=])]%bind_raise)]%bind_raise; [|by apply IH].
  unfold load_one, read_text in H. destruct (content fs n) as [b|]; [destruct (utf8_valid b)|]; done.
Qed.

Lemma validate_not_missing r : validate_promotable r <> Raise FileNotFoundError.
Proof using Type. unfold validate_promotable. by destruct (rr_unresolved r), (us_instruments (rr_candidate r)). Qed.

(** The promotion's own step. *)
Lemma file_progress_own req fs p fs' p' : dir_ok fs -> file_progress req fs p -> may_open req fs p ->
  step req fs p = (fs', p') -> file_progress req fs' p'.
Proof using Type.
  intros Hok Hp Ho H. destruct p as [|k|k v|k v i|k v|k v r|o]; cbn [promote_step] in H.
  - destruct (validate_promotable _) as [|e] eqn:Ev.
    + destruct (find_by_content _ _ _ _) as [[s|]|e] eqn:Ef; injection H as <- <-; cbn; [done|done|].
      intros ->. by apply find_not_missing in Ef.
    + injection H as <- <-. cbn. intros ->. by apply validate_not_missing in Ev.
  - by destruct (k <? _)%nat; injection H as <- <-.
  - cbn in Ho. unfold tmp_of in Ho. unfold open_w in H. rewrite Ho in H. injection H as <- <-. cbn. split; cbn.
    + by rewrite lookup_insert_eq.
    + intros n'. destruct (decide (n' = tmp_name v (pr_prefix req))) as [->|Hn]; [done|].
      rewrite lookup_insert_ne by done. intros Hi%Hok. lia.
  - injection H as <- <-. cbn. exists i. split; [exact Hp|]. cbn. by rewrite lookup_insert_eq.
  - destruct Hp as (j & [Hj Hu] & Hd). destruct (link_cases fs (tmp_name v (pr_prefix req)) (version_name v))
      as [(Hn & E)|[(_ & _ & E)|(i & Hi & Hn & E)]]; rewrite E in H; injection H as <- <-.
    + unfold tmp_of in Hj. by rewrite Hn in Hj.
    + done.
    + unfold tmp_of in Hj. rewrite Hj in Hi. injection Hi as <-. cbn. unfold content. cbn.
      by rewrite lookup_insert_eq.
  - injection H as <- <-. destruct r; cbn in Hp; [|done|done]. cbn. exists v. split; [done|].
    unfold content in *. cbn. rewrite lookup_delete_ne; [done|]. intros Heq. apply (version_not_tmp v).
    rewrite <- Heq. apply is_tmp_tmp_of.
  - by injection H as <- <-.
Qed.

(** * Concurrent promotions *)

Definition prefixes (procs : list (Promotion * PState)) : list string := (fun q => pr_prefix q.1) <$> procs.

(** The invariant of a system that started on [fs0]. *)
Record pub_ok (fs0 : Dir) (s : System) : Prop := {
  po_dir : dir_ok (sys_dir s);
  po_prefixes : NoDup (prefixes (sys_procs s));
  po_owner : forall v h i, names (sys_dir s) !! tmp_name v h = Some i ->
    exists q, q ∈ sys_procs s /\ pr_prefix q.1 = h /\ holds v q.2;
  po_procs : Forall (fun q => file_progress q.1 (sys_dir s) q.2) (sys_procs s);
  po_old : forall n, ~ is_tmp n -> is_Some (names fs0 !! n) ->
    is_Some (names (sys_dir s) !! n) /\ content (sys_dir s) n = content fs0 n;
  po_new : forall n, ~ is_tmp n -> names fs0 !! n = None -> is_Some (names (sys_dir s) !! n) ->
    exists req v, req ∈ (sys_procs s).*1 /\ n = version_name v
      /\ content (sys_dir s) n = Some (dump (promoted req v));
}.

Lemma prefixes_split l1 l2 (q : Promotion * PState) : NoDup (prefixes (l1 ++ q :: l2)) ->
  forall q2, q2 ∈ l1 ++ l2 -> pr_prefix q.1 <> pr_prefix q2.1.
Proof using Type.
  unfold prefixes. rewrite fmap_app, fmap_cons, <- Permutation_middle, NoDup_cons, <- fmap_app.
  intros [Hq _] q2 H2 Heq. apply Hq. rewrite Heq. by apply (list_elem_of_fmap_2 (fun q => pr_prefix q.1)).
Qed.

Lemma may_open_free fs0 fs l1 l2 req p :
  pub_ok fs0 {| sys_dir := fs; sys_procs := l1 ++ (req, p) :: l2 |} -> may_open req fs p.
Proof using Type.
  intros Hpub. destruct p as [|k|k v|k v i|k v|k v r|o]; cbn; try done.
  destruct (names fs !! tmp_of req v) as [i|] eqn:E; [|done].
  destruct (po_owner _ _ Hpub _ _ _ E) as (q & Hq & Hpre & Hh). cbn in Hq.
  pose proof (prefixes_split l1 l2 (req, POpen k v) (po_prefixes _ _ Hpub) q) as Hne.
  apply elem_of_app in Hq as [Hq|[->|Hq]%elem_of_cons]; [|done|]; exfalso; apply Hne; cbn; try done; set_solver.
Qed.

Lemma holds_step req fs p fs' p' v : step req fs p = (fs', p') -> holds v p ->
  holds v p' \/ names fs' !! tmp_of req v = None.
Proof using Type.
  destruct p as [|k|k u|k u i|k u|k u r|o]; cbn [promote_step holds]; try done.
  - intros [= <- <-] ->. by left.
  - intros H ->. left. destruct (link_cases fs (tmp_name v (pr_prefix req)) (version_name v))
      as [(_ & E)|[(_ & _ & E)|(i & _ & _ & E)]]; by rewrite E in H; injection H as <- <-.
  - intros [= <- <-] ->. right. cbn. by rewrite lookup_delete_eq.
Qed.

Lemma owner_step fs0 l1 l2 req p p' fs fs' :
  pub_ok fs0 {| sys_dir := fs; sys_procs := l1 ++ (req, p) :: l2 |} -> step req fs p = (fs', p') ->
  origin req fs fs' p -> forall v h i, names fs' !! tmp_name v h = Some i ->
  exists q, q ∈ l1 ++ (req, p') :: l2 /\ pr_prefix q.1 = h /\ holds v q.2.
Proof using Type.
  intros Hpub Hstep Ho v h i Hi.
  destruct (Ho _ _ Hi) as [Hold|[(k & u & -> & Hn & ->)|(k & u & _ & Hn & _)]].
  - destruct (po_owner _ _ Hpub _ _ _ Hold) as (q & Hq & Hpre & Hh). cbn in Hq.
    apply elem_of_app in Hq as [Hq|[->|Hq]%elem_of_cons]; [exists q; set_solver| |exists q; set_solver].
    destruct (holds_step _ _ _ _ _ _ Hstep Hh) as [Hh'|Hnone].
    + exists (req, p'). split; [set_solver|done].
    + cbn in Hpre. subst h. unfold tmp_of in Hnone. by rewrite Hnone in Hi.
  - apply tmp_name_inj in Hn as [-> ->]. cbn [promote_step] in Hstep.
    destruct (open_w _ _) as [fs1 i1]. injection Hstep as <- <-. exists (req, PFill k u i1).
    split; [set_solver|done].
  - exfalso. apply (version_not_tmp u). rewrite <- Hn. by exists v, h.
Qed.

Lemma pub_step fs0 s s' : pub_ok fs0 s -> system_step sha256 listing s s' -> pub_ok fs0 s'.
Proof using Type.
  intros Hpub Hstep. destruct Hstep as [fs fs' l1 req p p' l2 Hstep].
  pose proof (may_open_free _ _ _ _ _ _ Hpub) as Hopen.
  pose proof Hpub as [Hok Hpre Hown Hprocs Hold Hnew]. cbn [sys_dir sys_procs] in *.
  rewrite Forall_app, Forall_cons in Hprocs. destruct Hprocs as (H1 & Hp & H2). cbn in Hp.
  destruct (step_kept _ _ _ _ _ Hok Hp Hopen Hstep) as (Hk & Ho & Hok').
  assert (Hothers : forall l, (forall q, q ∈ l -> q ∈ l1 ++ l2) ->
    Forall (fun q => file_progress q.1 fs q.2) l -> Forall (fun q => file_progress q.1 fs' q.2) l).
  { intros l Hl Hall. rewrite Forall_forall in Hall |- *. intros q Hq.
    apply (file_progress_other req q.1 fs fs' p); [done| |done|done|by apply Hall].
    apply (prefixes_split l1 l2 (req, p) Hpre). by apply Hl. }
  split; cbn [sys_dir sys_procs].
  - exact Hok'.
  - unfold prefixes in *. by rewrite fmap_app in *.
  - apply (owner_step fs0 l1 l2 req p p' fs fs'); [exact Hpub|done|done].
  - rewrite Forall_app, Forall_cons. split_and!; [apply Hothers; [set_solver|done]| |apply Hothers; [set_solver|done]].
    by apply (file_progress_own req fs p).
  - intros n Hn Hs. destruct (Hold n Hn Hs) as [Hs' Hc]. rewrite (kept_content req fs fs' n Hk Hn Hs'). split; [|done].
    destruct Hs' as [i Hi]. exists i. apply (Hk n i); [|done]. intros v ->. apply Hn, is_tmp_tmp_of.
  - intros n Hn Hnone [i Hi]. rewrite fmap_app, fmap_cons in *.
    destruct (Ho n i Hi) as [Hi0|[(k & v & _ & -> & _)|(k & v & -> & -> & _ & Htmp)]].
    + rewrite (kept_content req fs fs' n Hk Hn) by by exists i. apply Hnew; [done|done|by exists i].
    + destruct Hn. apply is_tmp_tmp_of.
    + exists req, v. split_and!; [set_solver|done|]. destruct Hp as (j & [Hj _] & Hd).
      rewrite Hj in Htmp. injection Htmp as ->. unfold content. rewrite Hi. cbn.
      cbn [promote_step] in Hstep. unfold tmp_of in Hj.
      destruct (link_cases fs (tmp_name v (pr_prefix req)) (version_name v))
        as [(Hn' & _)|[(_ & Hv & E)|(i' & _ & _ & E)]]; [by rewrite Hj in Hn'| |];
        rewrite E in Hstep; injection Hstep as <- _; exact Hd.
Qed.

Lemma pub_start fs reqs : dir_ok fs -> clean fs -> NoDup (pr_prefix <$> reqs) -> pub_ok fs (started fs reqs).
Proof using Type.
  intros Hok Hc Hn. split; cbn; [done| | | | |].
  - unfold prefixes. rewrite <- list_fmap_compose. exact Hn.
  - intros v h i Hi. rewrite Hc in Hi; [done|by exists v, h].
  - apply Forall_fmap, Forall_true. done.
  - intros n _ Hs. done.
  - intros n _ Hnone [i Hi]. by rewrite Hnone in Hi.
Qed.

Lemma pub_reachable fs reqs s : dir_ok fs -> clean fs -> NoDup (pr_prefix <$> reqs) ->
  reachable sha256 listing fs reqs s -> pub_ok fs s.
Proof using Type.
  intros Hok Hc Hn Hr. apply (reachable_ind sha256 listing (pub_ok fs) fs reqs s); [by apply pub_start| |exact Hr].
  intros x y Hx Hxy. by eapply pub_step.
Qed.

Lemma snapshot_ok_promoted req v : 0 <= v -> snapshot_ok sha256 (rr_candidate (pr_result req)) ->
  snapshot_ok sha256 (promoted req v).
Proof using Type. intros Hv. rewrite !snapshot_ok_iff. intros (_ & H). split; [exact Hv|exact H]. Qed.

(** A version file that holds a valid snapshot is read back by its version. *)
Lemma get_published fs v s : snapshot_ok sha256 s -> content fs (version_name v) = Some (dump s) ->
  get_by_version sha256 fs v = Ok s.
Proof using Type.
  intros Hs Hc. pose proof (content_some_name _ _ _ Hc) as Hn. unfold get_by_version.
  rewrite bool_decide_true by exact Hn. cbn. unfold read_text. rewrite Hc, dump_utf8. cbn. by rewrite validate_dump.
Qed.

Hypothesis listing_perm : forall l, listing l ≡ₚ l.

(** Promotions of different contents, interleaved in any way on a directory without
    leftovers: no file that was there changes; every file that appears is the complete
    snapshot of one of the promotions, at every moment; a promotion that returns a new
    snapshot has it in the store under its version; and none of them fails because its
    temporary file disappeared. *)
Theorem published_files_complete fs reqs s :
  dir_ok fs -> clean fs -> NoDup (pr_prefix <$> reqs) ->
  Forall (fun req => snapshot_ok sha256 (rr_candidate (pr_result req))) reqs ->
  reachable sha256 listing fs reqs s ->
  (forall n, ~ is_tmp n -> is_Some (names fs !! n) -> content (sys_dir s) n = content fs n)
  /\ (forall n, ~ is_tmp n -> names fs !! n = None -> is_Some (names (sys_dir s) !! n) ->
        exists req v, req ∈ reqs /\ n = version_name v
          /\ content (sys_dir s) n = Some (dump (promoted req v)))
  /\ (forall req s', (req, PDone (Published s')) ∈ sys_procs s ->
        s' = promoted req (us_universe_version s')
        /\ get_by_version sha256 (sys_dir s) (us_universe_version s') = Ok s')
  /\ (forall req, (req, PDone (Failed FileNotFoundError)) ∉ sys_procs s).
Proof using listing_perm.
  intros Hok Hc Hn Hcand Hr. destruct (pub_reachable fs reqs s Hok Hc Hn Hr) as [_ _ _ Hprocs Hold Hnew].
  pose proof (reachable_requests sha256 listing fs reqs s Hr) as Hreqs. rewrite Hreqs in Hnew.
  rewrite Forall_forall in Hprocs. split_and!.
  - intros n Hn' Hs. by apply Hold.
  - exact Hnew.
  - intros req s' Hin. pose proof (Hprocs _ Hin) as (v & Hs' & Hcv). cbn [fst snd] in Hs', Hcv. subst s'.
    split; [done|].
    change (us_universe_version (promoted req v)) with v. apply get_published; [|done].
    apply snapshot_ok_promoted.
    + destruct (alloc_reachable sha256 listing listing_perm fs reqs s Hr) as [_ _ Hw _].
      assert (v ∈ versions_won (sys_procs s)) as Hv.
      { apply list_elem_of_omap. exists (req, PDone (Published (promoted req v))). split; [exact Hin|reflexivity]. }
      apply Hw in Hv. pose proof (max_version_spec listing fs) as [? _]. lia.
    + rewrite Forall_forall in Hcand. apply Hcand. rewrite <- Hreqs. by apply (list_elem_of_fmap_2 fst) in Hin.
  - intros req Hin. by apply (Hprocs _ Hin).
Qed.

(** * One promotion *)

(** The steps a promotion has left, at most. *)
Definition remaining (p : PState) : nat :=
  match p with
  | PFind => 2 + 5 * MAX_ALLOCATION_RETRIES
  | PPick k => 1 + 5 * (MAX_ALLOCATION_RETRIES - k)
  | POpen k _ => 5 * (MAX_ALLOCATION_RETRIES - k)
  | PFill k _ _ => 5 * (MAX_ALLOCATION_RETRIES - k) - 1
  | PLink k _ => 5 * (MAX_ALLOCATION_RETRIES - k) - 2
  | PUnlink k _ _ => 5 * (MAX_ALLOCATION_RETRIES - k) - 3
  | PDone _ => 0
  end.

Definition attempt_ok (p : PState) : Prop :=
  match p with
  | POpen k _ | PFill k _ _ | PLink k _ | PUnlink k _ _ => (k < MAX_ALLOCATION_RETRIES)%nat
  | _ => True
  end.

Lemma step_remaining req fs p fs' p' : attempt_ok p -> step req fs p = (fs', p') ->
  attempt_ok p' /\ (remaining p' <= remaining p - 1)%nat.
Proof using Type.
  intros Ha H. destruct p as [|k|k v|k v i|k v|k v r|o]; cbn [promote_step attempt_ok] in *.
  - destruct (validate_promotable _); [|injection H as <- <-; cbn; lia].
    destruct (find_by_content _ _ _ _) as [[s|]|]; injection H as <- <-; cbn; lia.
  - destruct (k <? MAX_ALLOCATION_RETRIES)%nat eqn:E; injection H as <- <-; cbn [attempt_ok remaining]; [|lia].
    apply Nat.ltb_lt in E. lia.
  - destruct (open_w _ _) as [fs1 i]. injection H as <- <-. cbn [attempt_ok remaining]. lia.
  - injection H as <- <-. cbn [attempt_ok remaining]. lia.
  - destruct (link_cases fs (tmp_name v (pr_prefix req)) (version_name v)) as [(_ & E)|[(_ & _ & E)|(i & _ & _ & E)]];
      rewrite E in H; injection H as <- <-; cbn [attempt_ok remaining]; lia.
  - injection H as <- <-. destruct r; cbn [attempt_ok remaining]; lia.
  - injection H as <- <-. done.
Qed.

Lemma drive_done n req fs o : drive sha256 listing n req fs (PDone o) = (fs, PDone o).
Proof using Type. by induction n as [|n IH]. Qed.

Lemma drive_terminates n req fs p : attempt_ok p -> (remaining p <= n)%nat ->
  exists fs' o, drive sha256 listing n req fs p = (fs', PDone o).
Proof using Type.
  revert fs p. induction n as [|n IH]; intros fs p Ha Hr.
  - destruct p; cbn [attempt_ok remaining] in *; try lia. by eexists _, _.
  - cbn. destruct (step req fs p) as [fs' p'] eqn:E. destruct (step_remaining _ _ _ _ _ Ha E) as [Ha' Hr'].
    apply IH; [done|lia].
Qed.

(** A promotion that runs alone always returns or raises, on any directory. *)
Theorem promote_terminates fs req : exists fs' r, promote sha256 listing fs req = (fs', Some r).
Proof using Type.
  unfold promote. destruct (drive_terminates promote_fuel req fs PFind) as (fs' & o & ->); [done|done|].
  destruct o; by eexists _, _.
Qed.

Lemma drive_step n req fs p fs' p' : step req fs p = (fs', p') ->
  drive sha256 listing (S n) req fs p = drive sha256 listing n req fs' p'.
Proof using Type. intros H. cbn. by rewrite H. Qed.

(** The directory after a promotion that created version [v]. *)
Definition after_publish (fs : Dir) (req : Promotion) (v : Z) : Dir :=
  {| names := <[version_name v := next_inode fs]> (names fs);
     data := <[next_inode fs := dump (promoted req v)]> (<[next_inode fs := EmptyString]> (data fs));
     next_inode := S (next_inode fs) |}.

Lemma next_version_free fs : names fs !! version_name (next_version listing fs) = None.
Proof using listing_perm.
  destruct (names fs !! _) as [i|] eqn:E; [|done]. exfalso.
  pose proof (max_version_spec listing fs) as [H0 _]. rewrite next_version_max in E by done.
  pose proof (version_present listing listing_perm fs (max_version listing fs + 1) ltac:(lia) ltac:(by rewrite E)). lia.
Qed.

Lemma drive_publish fs req : clean fs -> validate_promotable (pr_result req) = Ok tt ->
  find_by_content sha256 listing fs (pr_sha req) = Ok None ->
  drive sha256 listing promote_fuel req fs PFind
  = (after_publish fs req (next_version listing fs),
     PDone (Published (promoted req (next_version listing fs)))).
Proof using listing_perm.
  intros Hc Hv Hf. pose proof (next_version_free fs) as Hfree. set (v := next_version listing fs) in *.
  set (tmp := tmp_name v (pr_prefix req)).
  assert (Htmp : names fs !! tmp = None) by (apply Hc; by eexists _, _).
  assert (Hne : version_name v <> tmp) by (intros H; apply (version_not_tmp v); rewrite H; by eexists _, _).
  change promote_fuel with (S (S (S (S (S (S 316)))))).
  rewrite (drive_step _ _ fs PFind fs (PPick 0)) by (cbn; by rewrite Hv, Hf).
  rewrite (drive_step _ _ fs (PPick 0) fs (POpen 0 v)) by done.
  erewrite (drive_step _ _ fs (POpen 0 v)) by (cbn; fold tmp; unfold open_w; rewrite Htmp; reflexivity).
  erewrite drive_step by reflexivity.
  erewrite drive_step.
  2: { cbn [promote_step]. fold tmp. unfold link. cbn [names write]. rewrite lookup_insert_eq.
       rewrite lookup_insert_ne by done. rewrite Hfree. rewrite bool_decide_false by (by intros [? [=]]). reflexivity. }
  erewrite drive_step by reflexivity. rewrite drive_done. f_equal. unfold after_publish, unlink. cbn. f_equal.
  fold tmp. rewrite delete_insert_ne by done. rewrite delete_insert_id by done. done.
Qed.

(** ** What a scan finds *)

(** Every JSON file is UTF-8. *)
Definition readable (fs : Dir) : Prop :=
  forall n b, is_Some (json_stem n) -> content fs n = Some b -> utf8_valid b = true.

(** Some JSON file of the directory holds the snapshot. *)
Definition stored (fs : Dir) (s : UniverseSnapshot) : Prop :=
  exists n b, is_Some (json_stem n) /\ content fs n = Some b /\ validate b = Some s.

Definition loaded (fs : Dir) (n : string) : option UniverseSnapshot := content fs n ≫= validate.

Lemma iter_promoted_spec fs : readable fs ->
  exists l, iter_promoted sha256 listing fs = Ok l /\ forall s, s ∈ l <-> stored fs s.
Proof using listing_perm.
  intros Hr. unfold iter_promoted. rewrite (traverse_pure _ (loaded fs)).
  - eexists. split; [reflexivity|]. intros s. rewrite list_elem_of_omap. split.
    + intros (o & (n & -> & Hn)%list_elem_of_fmap & Ho). apply bind_Some in Ho as (b & Hb & Hv).
      apply (elem_of_glob listing listing_perm) in Hn as [_ Hj]. by exists n, b.
    + intros (n & b & Hj & Hb & Hv). exists (loaded fs n). split; [|by unfold loaded; rewrite Hb].
      apply list_elem_of_fmap_2, (elem_of_glob listing listing_perm). split; [by eapply content_some_name|done].
  - apply Forall_forall. intros n [_ Hj]%(elem_of_glob listing listing_perm). unfold load_one, read_text, loaded.
    destruct (content fs n) as [b|] eqn:E; [|done]. by rewrite (Hr n b Hj E).
Qed.

Lemma find_by_content_spec fs sha : readable fs ->
  (exists s, find_by_content sha256 listing fs sha = Ok (Some s) /\ stored fs s /\ us_content_sha256 s = sha)
  \/ (find_by_content sha256 listing fs sha = Ok None /\ forall s, stored fs s -> us_content_sha256 s <> sha).
Proof using listing_perm.
  intros Hr. destruct (iter_promoted_spec fs Hr) as (l & Hl & Hin). unfold find_by_content. rewrite Hl.
  cbn [mbind result_bind]. destruct (List.find _ l) as [s|] eqn:E; [left|right].
  - apply find_some in E as [Hs Hb]. apply list_elem_of_In in Hs. zbool. exists s. by rewrite <- Hin.
  - split; [done|]. intros s Hs%Hin Hsha. apply list_elem_of_In in Hs. pose proof (find_none _ _ E s Hs) as Hb.
    cbn in Hb. by rewrite bool_decide_true in Hb.
Qed.

Lemma after_publish_content fs req v n : dir_ok fs -> n <> version_name v ->
  content (after_publish fs req v) n = content fs n.
Proof using Type.
  intros Hok Hn. unfold content, after_publish. cbn. rewrite lookup_insert_ne by done.
  destruct (names fs !! n) as [i|] eqn:E; [|done]. cbn. apply Hok in E. by rewrite !lookup_insert_ne by lia.
Qed.

Lemma after_publish_new fs req v :
  content (after_publish fs req v) (version_name v) = Some (dump (promoted req v)).
Proof using Type. unfold content, after_publish. cbn. rewrite lookup_insert_eq. cbn. by rewrite lookup_insert_eq. Qed.

(** One promotion, alone, on a readable directory without leftovers.  A candidate that
    does not pass the gate changes nothing; content that is already promoted is returned
    as it was, with nothing written; anything else becomes the next version, which can be
    read back, every other file as before, and promoting the same content again returns
    that snapshot and writes nothing. *)
Theorem promote_correct fs req : dir_ok fs -> clean fs -> readable fs ->
  snapshot_ok sha256 (rr_candidate (pr_result req)) ->
  match validate_promotable (pr_result req) with
  | Raise e => promote sha256 listing fs req = (fs, Some (Raise e))
  | Ok _ =>
      (exists s, stored fs s /\ us_content_sha256 s = pr_sha req
         /\ promote sha256 listing fs req = (fs, Some (Ok s)))
      \/ exists fs', let v := max_version listing fs + 1 in
         promote sha256 listing fs req = (fs', Some (Ok (promoted req v)))
         /\ get_by_version sha256 fs' v = Ok (promoted req v)
         /\ (forall n, n <> version_name v -> names fs' !! n = names fs !! n /\ content fs' n = content fs n)
         /\ forall req', validate_promotable (pr_result req') = Ok tt -> pr_sha req' = pr_sha req ->
              promote sha256 listing fs' req' = (fs', Some (Ok (promoted req v)))
  end.
Proof using listing_perm.
  intros Hok Hc Hr Hcand.
  assert (Hfound : forall fs req s, validate_promotable (pr_result req) = Ok tt ->
    find_by_content sha256 listing fs (pr_sha req) = Ok (Some s) ->
    promote sha256 listing fs req = (fs, Some (Ok s))).
  { clear. intros fs req s Hv Hf. unfold promote. change promote_fuel with (S (promote_fuel - 1)).
    rewrite (drive_step _ _ fs PFind fs (PDone (Existing s))) by (cbn; by rewrite Hv, Hf). by rewrite drive_done. }
  destruct (validate_promotable (pr_result req)) as [[]|e] eqn:Hv.
  2: { unfold promote. change promote_fuel with (S (promote_fuel - 1)).
       rewrite (drive_step _ _ fs PFind fs (PDone (Failed e))) by (cbn; by rewrite Hv). by rewrite drive_done. }
  destruct (find_by_content_spec fs (pr_sha req) Hr) as [(s & Hf & Hs & Hsha)|[Hf Hnone]]; [left|right].
  { exists s. split_and!; [done|done|]. by apply Hfound. }
  pose proof (max_version_spec listing fs) as [H0 _]. pose proof (next_version_max listing listing_perm fs) as Hnext.
  pose proof (drive_publish fs req Hc Hv Hf) as Hd. rewrite Hnext in Hd.
  set (v := max_version listing fs + 1) in *. cbv zeta. exists (after_publish fs req v).
  assert (Hsn : snapshot_ok sha256 (promoted req v)) by (apply snapshot_ok_promoted; [lia|done]).
  split_and!.
  - unfold promote. by rewrite Hd.
  - apply get_published; [done|apply after_publish_new].
  - intros n Hn. split; [|by apply after_publish_content]. unfold after_publish. cbn. by rewrite lookup_insert_ne.
  - intros req' Hv' Hsha. apply Hfound; [done|].
    assert (Hr' : readable (after_publish fs req v)).
    { intros n b Hj. destruct (decide (n = version_name v)) as [->|Hn].
      - rewrite after_publish_new. intros [= <-]. apply dump_utf8.
      - rewrite after_publish_content by done. by apply Hr. }
    assert (Hst : forall s, stored (after_publish fs req v) s <-> s = promoted req v \/ stored fs s).
    { intros s. split.
      - intros (n & b & Hj & Hb & Hs). destruct (decide (n = version_name v)) as [->|Hn].
        + left. rewrite after_publish_new in Hb. injection Hb as <-. rewrite validate_dump in Hs by done. by injection Hs.
        + right. rewrite after_publish_content in Hb by done. by exists n, b.
      - intros [->|(n & b & Hj & Hb & Hs)].
        + exists (version_name v), (dump (promoted req v)). split_and!; [|apply after_publish_new|by apply validate_dump].
          unfold version_name. by rewrite json_stem_json.
        + exists n, b. split_and!; [done| |done]. rewrite after_publish_content; [done|done|].
          intros ->. apply content_some_name in Hb as [i Hi]. rewrite <- Hnext, next_version_free in Hi. done. }
    destruct (find_by_content_spec _ (pr_sha req') Hr') as [(s & -> & [->|Hs]%Hst & Hs')|[_ Hno]].
    + done.
    + exfalso. apply (Hnone s Hs). by rewrite <- Hsha.
    + exfalso. apply (Hno (promoted req v)); [apply Hst; by left|by rewrite Hsha].
Qed.

(** ** The active snapshot *)

(** The snapshot active on a date is one of the valid snapshots of the directory that are
    effective by then, and none of those is later in effective date, or in version for the
    same date; there is none only when nothing is effective yet.  Files that do not
    validate play no part. *)
Theorem active_for_exact fs d : readable fs ->
  exists o, active_for sha256 listing fs d = Ok o
  /\ match o with
     | None => forall s, stored fs s -> d < us_trading_date s
     | Some b => stored fs b /\ us_trading_date b <= d
         /\ forall s, stored fs s -> us_trading_date s <= d -> not_after s b
     end.
Proof using listing_perm.
  intros Hr. destruct (iter_promoted_spec fs Hr) as (l & Hl & Hin). unfold active_for. rewrite Hl. cbn.
  exists (pick_active d l). split; [done|]. pose proof (pick_active_spec d l) as H.
  destruct (pick_active d l) as [b|]; [|intros s Hs; by apply H, Hin].
  destruct H as (Hb & Hd & Hall). split_and!; [by apply Hin|done|]. intros s Hs. by apply Hall, Hin.
Qed.

(** A file that is not UTF-8 is not skipped: it makes every lookup raise. *)
Lemma undecodable_file_raises fs n b d : is_Some (json_stem n) -> content fs n = Some b ->
  utf8_valid b = false -> exists e, active_for sha256 listing fs d = Raise e.
Proof using listing_perm.
  intros Hj Hb Hu. unfold active_for, iter_promoted.
  assert (Hn : n ∈ glob listing fs)
    by (apply (elem_of_glob listing listing_perm); split; [by eapply content_some_name|done]).
  assert (exists e, traverse (load_one sha256 fs) (glob listing fs) = Raise e) as (e & ->); [|by exists e].
  apply list_elem_of_split in Hn as (l1 & l2 & ->). induction l1 as [|m l1 IH]; cbn.
  - exists UnicodeDecodeError. unfold load_one, read_text. by rewrite Hb, Hu.
  - destruct (load_one sha256 fs m) as [o|e]; [|by exists e]. destruct IH as (e & ->). by exists e.
Qed.

(** ** Candidates *)

(** A saved candidate is read back by its content, and saving it leaves every other
    candidate as it was. *)
Theorem candidate_roundtrip fs c : dir_ok fs -> snapshot_ok sha256 c ->
  names fs !! (candidate_name (us_content_sha256 c) ++ ".tmp")%string = None ->
  exists fs', save_candidate sha256 fs c = Ok fs'
  /\ get_candidate sha256 fs' (us_content_sha256 c) = Ok (Some c)
  /\ forall sha, sha <> us_content_sha256 c -> get_candidate sha256 fs' sha = get_candidate sha256 fs sha.
Proof using Type.
  intros Hok Hc Htmp. unfold save_candidate, atomic_write. set (name := candidate_name (us_content_sha256 c)) in *.
  unfold write_text, open_w. rewrite Htmp. unfold replace. cbn [names write]. rewrite lookup_insert_eq.
  eexists. split; [reflexivity|]. rewrite delete_insert_id by done. split.
  - unfold get_candidate. cbn [names]. fold name. rewrite lookup_insert_eq, bool_decide_true by done.
    unfold read_text, content. cbn. rewrite lookup_insert_eq. cbn. rewrite lookup_insert_eq, dump_utf8. cbn.
    by rewrite validate_dump.
  - intros sha Hsha.
    assert (Hne : candidate_name sha <> name) by (intros H; by apply append_right_inj in H).
    unfold get_candidate. cbn [names]. rewrite lookup_insert_ne by done. case_bool_decide as Hs; [|done].
    destruct Hs as [i Hi]. unfold read_text, content. cbn. rewrite lookup_insert_ne by done. rewrite Hi. cbn.
    apply Hok in Hi. by rewrite !lookup_insert_ne by lia.
Qed.

End PromotionTheorems.

(** * Concrete stores *)

#[global] Instance SnapshotState_countable : Countable SnapshotState.
Proof.
  refine (inj_countable (fun s => match s with CANDIDATE => true | PROMOTED => false end)
    (fun b : bool => Some (if b then CANDIDATE else PROMOTED)) _). by intros [].
Defined.
#[global] Instance SourceProvenance_countable : Countable SourceProvenance.
Proof.
  refine (inj_countable' (fun p => (fno_source p, fno_version p, fno_effective_date p,
      instrument_master_source p, instrument_master_version p, sector_dataset_id p, sector_version p))
    (fun '(a, b, c, d, e, f, g) => {| fno_source := a; fno_version := b; fno_effective_date := c;
      instrument_master_source := d; instrument_master_version := e; sector_dataset_id := f;
      sector_version := g |}) _). by intros [].
Defined.
#[global] Instance UniverseInstrument_countable : Countable UniverseInstrument.
Proof.
  refine (inj_countable' (fun i => (ui_instrument i, ui_provider_security_id i, ui_exchange_segment i, ui_sector i))
    (fun '(a, b, c, d) => {| ui_instrument := a; ui_provider_security_id := b; ui_exchange_segment := c;
      ui_sector := d |}) _). by intros [].
Defined.
#[global] Instance UniverseSnapshot_countable : Countable UniverseSnapshot.
Proof.
  refine (inj_countable' (fun s => (us_schema_version s, us_universe_version s, us_trading_date s,
      us_effective_at s, us_state s, us_instruments s, us_source_provenance s, us_content_sha256 s))
    (fun '(a, b, c, d, e, f, g, h) => {| us_schema_version := a; us_universe_version := b;
      us_trading_date := c; us_effective_at := d; us_state := e; us_instruments := f;
      us_source_provenance := g; us_content_sha256 := h |}) _). by intros [].
Defined.

(** A codec for the examples: the code number of the snapshot in binary. *)
Fixpoint bits_text (p : positive) : string :=
  match p with
  | xH => EmptyString
  | xO p => String "0" (bits_text p)
  | xI p => String "1" (bits_text p)
  end.

Fixpoint text_bits (s : string) : option positive :=
  match s with
  | EmptyString => Some xH
  | String "0" s => xO <$> text_bits s
  | String "1" s => xI <$> text_bits s
  | String _ _ => None
  end.

Lemma text_bits_text p : text_bits (bits_text p) = Some p.
Proof. by induction p as [p IH|p IH|]; cbn; rewrite ?IH. Qed.

Lemma bits_text_utf8 p : utf8_valid (bits_text p) = true.
Proof. by induction p. Qed.

Definition sample_dump (s : UniverseSnapshot) : string := String "{" (bits_text (encode s)).
Definition sample_validate (t : string) : option UniverseSnapshot :=
  match t with
  | String "{" t =>
      p ← text_bits t; s ← decode p;
      if decide (mk_snapshot sample_sha256 s = Ok s) then Some s else None
  | _ => None
  end.

#[global] Instance sample_codec : SnapshotCodec sample_sha256.
Proof.
  refine {| dump := sample_dump; validate := sample_validate |}.
  - intros s. unfold sample_dump. cbn. apply bits_text_utf8.
  - intros s Hs. unfold sample_validate, sample_dump. rewrite text_bits_text. cbn. rewrite decode_encode. cbn.
    by rewrite decide_True by exact Hs.
  - intros t s. unfold sample_validate. destruct t as [|[[] [] [] [] [] [] [] []] t]; try done.
    intros (p & _ & (s' & _ & H)%bind_Some)%bind_Some. case_decide as Hs; [|done]. by injection H as <-.
  - done.
Defined.

(** A request to promote one sample universe. *)
Definition sample_request (sector : option string) (at_ : instant) : Promotion := {|
  pr_result := {|
    rr_candidate := {| us_schema_version := SCHEMA_VERSION; us_universe_version := CANDIDATE_VERSION;
      us_trading_date := 20000; us_effective_at := 0; us_state := CANDIDATE;
      us_instruments := [sample_ui "ACC" "1" sector]; us_source_provenance := sample_provenance;
      us_content_sha256 :=
        content_sha256 sample_sha256 20000 [sample_ui "ACC" "1" sector] sample_provenance |};
    rr_unresolved := []; rr_unclassified_sector := [] |};
  pr_effective_at := at_ |}.

(** Runs the processes in the order of a schedule. *)
Fixpoint run_schedule (sched : list nat) (s : System) : System :=
  match sched with
  | [] => s
  | j :: sched =>
      run_schedule sched
        match sys_procs s !! j with
        | None => s
        | Some (req, p) =>
            let '(fs, p') := promote_step sample_sha256 id req (sys_dir s) p in
            {| sys_dir := fs; sys_procs := <[j := (req, p')]> (sys_procs s) |}
        end
  end.

Lemma run_schedule_steps sched s : rtc (system_step sample_sha256 id) s (run_schedule sched s).
Proof.
  revert s. induction sched as [|j sched IH]; intros s; [done|]. cbn.
  destruct (sys_procs s !! j) as [[req p]|] eqn:E; [|apply IH].
  destruct (promote_step _ _ _ _ _) as [fs p'] eqn:Es. eapply rtc_l; [|apply IH].
  apply list_elem_of_split_length in E as (l1 & l2 & Hs & ->). destruct s as [fs0 procs]. cbn in *. subst procs.
  rewrite insert_app_r_alt, Nat.sub_diag by lia. by apply step_one.
Qed.

Definition two_alike : System :=
  started empty_dir [sample_request None 1; sample_request None 2].

Definition outcomes (s : System) : list (option Outcome) :=
  (fun q : Promotion * PState => match q.2 with PDone o => Some o | _ => None end) <$> sys_procs s.

(** Both find nothing and choose version 1; the first one links and removes the temporary
    name they share, and the second one's link has nothing to link: [FileNotFoundError],
    which [_link_version] does not catch. *)
Example identical_promotion_crashes :
  exists s, reachable sample_sha256 id empty_dir [sample_request None 1; sample_request None 2] s
  /\ outcomes s = [Some (Published (promoted (sample_request None 1) 1)); Some (Failed FileNotFoundError)].
Proof.
  exists (run_schedule [0; 1; 0; 1; 0; 1; 0; 1; 0; 0; 1; 1]%nat two_alike).
  split; [apply run_schedule_steps|]. vm_compute. reflexivity.
Qed.

(** The second one opens the temporary name between the first one's link and its removal:
    the published file is the same inode, so it is empty, and a lookup finds nothing. *)
Example published_file_truncated :
  exists s, reachable sample_sha256 id empty_dir [sample_request None 1; sample_request None 2] s
  /\ content (sys_dir s) (version_name 1) = Some EmptyString
  /\ active_for sample_sha256 id (sys_dir s) 20000 = Ok None
  /\ is_ok (get_by_version sample_sha256 (sys_dir s) 1) = false.
Proof.
  exists (run_schedule [0; 1; 0; 1; 0; 0; 0; 1]%nat two_alike).
  split; [apply run_schedule_steps|]. vm_compute. split_and!; reflexivity.
Qed.

(** Both scan before either publishes: the same content gets two versions. *)
Example identical_content_twice :
  exists s, reachable sample_sha256 id empty_dir [sample_request None 1; sample_request None 2] s
  /\ outcomes s = [Some (Published (promoted (sample_request None 1) 1));
                   Some (Published (promoted (sample_request None 2) 2))].
Proof.
  exists (run_schedule [0; 1; 0; 0; 0; 0; 0; 1; 1; 1; 1; 1]%nat two_alike).
  split; [apply run_schedule_steps|]. vm_compute. reflexivity.
Qed.

(** ** Witnesses *)

Lemma id_perm (l : list string) : id l ≡ₚ l.
Proof. done. Qed.

Lemma empty_dir_ok : dir_ok empty_dir.
Proof. intros n i. cbn. by rewrite lookup_empty. Qed.

Lemma empty_clean : clean empty_dir.
Proof. intros n _. cbn. apply lookup_empty. Qed.

Lemma empty_readable : readable empty_dir.
Proof. intros n b _. unfold content. cbn. by rewrite lookup_empty. Qed.

Lemma sample_request_ok sector at_ : sector = None \/ sector = Some "CEMENT"%string ->
  snapshot_ok sample_sha256 (rr_candidate (pr_result (sample_request sector at_))).
Proof. intros [->| ->]; apply (bool_decide_unpack (mk_snapshot _ _ = Ok _)); vm_compute; exact I. Qed.

(** A directory with one version and one file that is no snapshot. *)
Definition one_version : Dir := {|
  names := {[version_name 1 := 0%nat; "9.json"%string := 1%nat]};
  data := {[0%nat := dump (promoted (sample_request None 5) 1); 1%nat := "{oops"%string]};
  next_inode := 2 |}.

Lemma one_version_readable : readable one_version.
Proof.
  intros n b _ (i & _ & Hb)%bind_Some. unfold one_version in Hb. cbn [data] in Hb.
  apply lookup_insert_Some in Hb as [[_ <-]|[_ Hb]].
  - exact (dump_utf8 (SnapshotCodec := sample_codec) _).
  - apply lookup_singleton_Some in Hb as [_ <-]. reflexivity.
Qed.

Lemma promotions_never_collide_witness :
  NoDup (versions_won (sys_procs (run_schedule [0; 1; 0; 0; 0; 0; 0; 1; 1; 1; 1; 1]%nat two_alike))).
Proof.
  apply (promotions_never_collide sample_sha256 id id_perm empty_dir [sample_request None 1; sample_request None 2]).
  apply run_schedule_steps.
Defined.

Lemma promote_correct_witness : exists fs' v,
  promote sample_sha256 id empty_dir (sample_request None 5) = (fs', Some (Ok (promoted (sample_request None 5) v)))
  /\ get_by_version sample_sha256 fs' v = Ok (promoted (sample_request None 5) v).
Proof.
  destruct (promote_correct sample_sha256 id id_perm empty_dir (sample_request None 5) empty_dir_ok empty_clean
    empty_readable (sample_request_ok None 5 ltac:(auto))) as [(s & (n & b & _ & Hb & _) & _)|(fs' & H1 & H2 & _)].
  - exfalso. unfold content in Hb. cbn in Hb. discriminate Hb.
  - exists fs', (max_version id empty_dir + 1). exact (conj H1 H2).
Defined.

Lemma active_for_exact_witness : exists s,
  active_for sample_sha256 id one_version 20003 = Ok (Some s) /\ us_trading_date s <= 20003.
Proof.
  destruct (active_for_exact sample_sha256 id id_perm one_version 20003 one_version_readable) as (o & Ho & H).
  destruct o as [s|]; [exists s; split; [exact Ho|apply H]|]. exfalso. vm_compute in Ho. discriminate Ho.
Defined.

Lemma published_files_complete_witness : exists s,
  reachable sample_sha256 id empty_dir [sample_request None 1; sample_request (Some "CEMENT"%string) 2] s
  /\ outcomes s = [Some (Published (promoted (sample_request None 1) 1));
                   Some (Published (promoted (sample_request (Some "CEMENT"%string) 2) 2))]
  /\ get_by_version sample_sha256 (sys_dir s) 2 = Ok (promoted (sample_request (Some "CEMENT"%string) 2) 2).
Proof.
  set (s := run_schedule [0; 1; 0; 1; 0; 1; 0; 1; 0; 0; 1; 1; 1; 1; 1; 1; 1]%nat
    (started empty_dir [sample_request None 1; sample_request (Some "CEMENT"%string) 2])).
  assert (Hr : reachable sample_sha256 id empty_dir [sample_request None 1; sample_request (Some "CEMENT"%string) 2] s)
    by apply run_schedule_steps.
  assert (Hs : (sample_request (Some "CEMENT"%string) 2,
    PDone (Published (promoted (sample_request (Some "CEMENT"%string) 2) 2))) ∈ sys_procs s)
    by (vm_compute; right; left).
  exists s. split; [exact Hr|]. split; [vm_compute; reflexivity|].
  destruct (published_files_complete sample_sha256 id id_perm empty_dir
    [sample_request None 1; sample_request (Some "CEMENT"%string) 2] s) as (_ & _ & H & _);
    [apply empty_dir_ok|apply empty_clean| | |exact Hr|exact (proj2 (H _ _ Hs))].
  - apply (bool_decide_unpack _). vm_compute. exact I.
  - repeat constructor; apply sample_request_ok; auto.
Defined.

Lemma candidate_roundtrip_witness : exists fs',
  get_candidate sample_sha256 fs' (pr_sha (sample_request None 5))
  = Ok (Some (rr_candidate (pr_result (sample_request None 5)))).
Proof.
  destruct (candidate_roundtrip sample_sha256 empty_dir (rr_candidate (pr_result (sample_request None 5)))
    empty_dir_ok (sample_request_ok None 5 ltac:(auto)) ltac:(done)) as (fs' & _ & H & _). exists fs'. exact H.
Defined.
