(* ===== verification/UniverseViews.v ===== *)
(** Projections of a universe snapshot, market_universe/views.py: what ingestion
    subscribes to, what the backend expects, the next trading date, and the universe
    version the publisher stamps on its messages.

    The theorems say that the two projections describe the same members, that the next
    trading date is the first one within a fortnight, and that the version read from the
    store is the active snapshot's or zero. *)
From S2P Require Import Prelude PyTime PyDate MarketData Session Universe UniverseStore UniversePromotion.

Local Open Scope Z_scope.

Definition MAX_ROLLOVER_LOOKAHEAD_DAYS : nat := 14.

Record SubscriptionEntry : Type := {
  se_identity : string;
  se_provider_security_id : string;
  se_exchange_segment : string;
}.

Record SubscriptionUniverse : Type := {
  su_universe_version : Z;
  su_trading_date : date;
  su_entries : list SubscriptionEntry;
}.

Record BackendExpectedUniverse : Type := {
  be_universe_version : Z;
  be_trading_date : date;
  be_identities : list string;
  be_sector_membership : dict string (option string);
}.

Definition to_subscription_universe (snapshot : UniverseSnapshot) : SubscriptionUniverse := {|
  su_universe_version := us_universe_version snapshot;
  su_trading_date := us_trading_date snapshot;
  su_entries := map (fun item => {| se_identity := ui_identity item;
                                    se_provider_security_id := ui_provider_security_id item;
                                    se_exchange_segment := ui_exchange_segment item |})
                  (us_instruments snapshot) |}.

Definition to_backend_universe (snapshot : UniverseSnapshot) : BackendExpectedUniverse := {|
  be_universe_version := us_universe_version snapshot;
  be_trading_date := us_trading_date snapshot;
  be_identities := us_identities snapshot;
  be_sector_membership := sector_membership snapshot |}.

(** The loop of [next_trading_date]. *)
Fixpoint next_date_loop (calendar : TradingCalendar) (fuel : nat) (candidate : date) : option date :=
  match fuel with
  | O => None
  | S fuel =>
      let candidate := candidate + 1 in
      if is_trading_day calendar candidate then Some candidate else next_date_loop calendar fuel candidate
  end.

Definition next_trading_date (calendar : TradingCalendar) (after : date) : result date :=
  match next_date_loop calendar MAX_ROLLOVER_LOOKAHEAD_DAYS after with
  | Some d => Ok d
  | None => Raise (ValueError "no trading day within 14 days")
  end.

(** [SnapshotUniverseVersion.current_universe_version], with the trading date read. *)
Definition current_universe_version (sha256 : string -> string) `{!SnapshotCodec sha256}
    (listing : list string -> list string) (fs : Dir) (trading_date : date) : result Z :=
  snapshot ← active_for sha256 listing fs trading_date;
  Ok match snapshot with Some s => us_universe_version s | None => CANDIDATE_VERSION end.

(** * Lemmas *)

(** A loop of [fuel] days finds the first trading day among them. *)
Lemma next_date_loop_spec calendar fuel after :
  match next_date_loop calendar fuel after with
  | Some d => after < d <= after + Z.of_nat fuel /\ is_trading_day calendar d = true
      /\ forall x, after < x < d -> is_trading_day calendar x = false
  | None => forall x, after < x <= after + Z.of_nat fuel -> is_trading_day calendar x = false
  end.
Proof.
  revert after. induction fuel as [|fuel IH]; intros after; cbn [next_date_loop]; [lia|].
  destruct (is_trading_day calendar (after + 1)) eqn:E; [split_and!; [lia|lia|done|lia]|].
  specialize (IH (after + 1)). destruct (next_date_loop calendar fuel (after + 1)) as [d|].
  - destruct IH as ([? ?] & Hd & Hx). split_and!; [lia|lia|done|]. intros x Hx'.
    destruct (decide (x = after + 1)) as [->|]; [done|]. apply Hx. lia.
  - intros x Hx. destruct (decide (x = after + 1)) as [->|]; [done|]. apply IH. lia.
Qed.

(** The next trading date is the first trading day strictly after the date; the search
    fails exactly when the next fourteen days have none. *)
Theorem next_trading_date_first calendar after :
  (forall d, next_trading_date calendar after = Ok d <->
     after < d <= after + 14 /\ is_trading_day calendar d = true
     /\ forall x, after < x < d -> is_trading_day calendar x = false)
  /\ ((exists e, next_trading_date calendar after = Raise e) <->
     forall x, after < x <= after + 14 -> is_trading_day calendar x = false).
Proof.
  unfold next_trading_date. pose proof (next_date_loop_spec calendar MAX_ROLLOVER_LOOKAHEAD_DAYS after) as H.
  change (Z.of_nat MAX_ROLLOVER_LOOKAHEAD_DAYS) with 14 in H. destruct (next_date_loop _ _ _) as [d|]; split.
  - destruct H as (Hb & Hd & Hx). intros d'. split; [by intros [= <-]|]. intros (Hb' & Hd' & Hx'). f_equal.
    destruct (Z.lt_trichotomy d d') as [Hlt|[->|Hlt]]; [|done|].
    + rewrite Hx' in Hd by lia. done.
    + rewrite Hx in Hd' by lia. done.
  - destruct H as (Hb & Hd & _). split; [by intros (e & [=])|]. intros Hx. by rewrite Hx in Hd by lia.
  - intros d. split; [done|]. intros (Hb & Hd & _). by rewrite H in Hd by lia.
  - split; [done|]. intros _. by eexists.
Qed.

Lemma fold_sector_get l k acc : NoDup (ui_identity <$> l) ->
  dict_get k (fold_left (fun d i => dict_set (ui_identity i) (ui_sector i) d) l acc)
  = match List.find (fun i => bool_decide (ui_identity i = k)) l with
    | Some i => Some (ui_sector i)
    | None => dict_get k acc
    end.
Proof.
  revert acc. induction l as [|x l IH]; intros acc Hn; [done|]. rewrite fmap_cons, NoDup_cons in Hn.
  destruct Hn as [Hx Hn]. cbn. rewrite IH by done. case_bool_decide as Hk; [subst k|].
  - destruct (List.find _ l) as [i|] eqn:E.
    + apply find_some in E as [Hi Hb]. zbool. exfalso. apply Hx. rewrite <- Hb.
      apply list_elem_of_fmap_2. by apply list_elem_of_In.
    + rewrite dict_get_set. by rewrite decide_True.
  - destruct (List.find _ l); [done|]. rewrite dict_get_set. by rewrite decide_False.
Qed.

(** Ingestion and backend see the same universe: the same version and date, the same
    identities in the same order, one subscription per member with its mapping, and a
    sector for every member and nobody else. *)
Theorem views_agree sha256 s : snapshot_ok sha256 s ->
  let sub := to_subscription_universe s in
  let backend := to_backend_universe s in
  su_universe_version sub = be_universe_version backend /\ su_trading_date sub = be_trading_date backend
  /\ se_identity <$> su_entries sub = be_identities backend /\ NoDup (be_identities backend)
  /\ (forall item, item ∈ us_instruments s ->
        dict_get (ui_identity item) (be_sector_membership backend) = Some (ui_sector item))
  /\ (forall k, k ∉ be_identities backend -> dict_get k (be_sector_membership backend) = None).
Proof.
  intros (_ & _ & _ & Hn & _)%snapshot_ok_iff. cbn. split_and!; [done|done| |done| |].
  - unfold us_identities. clear Hn. induction (us_instruments s) as [|x l IH]; [done|]. exact (f_equal (cons _) IH).
  - intros item Hi. unfold sector_membership. rewrite fold_sector_get by done.
    destruct (List.find _ _) as [x|] eqn:E.
    + apply find_some in E as [Hx Hb]. zbool. do 2 f_equal.
      apply (NoDup_fmap_eq ui_identity _ _ _ Hn); [by apply list_elem_of_In|done|done].
    + apply list_elem_of_In in Hi. pose proof (find_none _ _ E item Hi) as Hb. cbn in Hb.
      by rewrite bool_decide_true in Hb.
  - intros k Hk. unfold sector_membership. rewrite fold_sector_get by done.
    destruct (List.find _ _) as [x|] eqn:E; [|done]. apply find_some in E as [Hx Hb]. zbool.
    destruct Hk. rewrite <- Hb. apply (list_elem_of_fmap_2 ui_identity). by apply list_elem_of_In.
Qed.

(** The version stamped on messages is the active snapshot's, or the candidate version
    when none is effective. *)
Lemma current_version_cases sha256 `{!SnapshotCodec sha256} listing fs d o :
  active_for sha256 listing fs d = Ok o ->
  current_universe_version sha256 listing fs d
  = Ok match o with Some s => us_universe_version s | None => CANDIDATE_VERSION end.
Proof. intros H. unfold current_universe_version. by rewrite H. Qed.

Lemma views_agree_witness :
  let s := rr_candidate (pr_result (sample_request (Some "CEMENT"%string) 5)) in
  dict_get "NSE:ACC"%string (be_sector_membership (to_backend_universe s)) = Some (Some "CEMENT"%string).
Proof.
  intros s. assert (Hs : snapshot_ok sample_sha256 s) by (apply sample_request_ok; auto).
  destruct (views_agree sample_sha256 s Hs) as (_ & _ & _ & _ & H & _).
  apply (H (sample_ui "ACC" "1" (Some "CEMENT"%string))). left.
Defined.
