(* ===== verification/PyNumber.v ===== *)
(** Python's floats and the numbers it reads from texts: the binary64 rounding, the
    shortest decimal text of a float ([str] and [repr]), [Decimal] and [int] of a text,
    and the binary32 of a four-byte field.

    A float is a rational, an infinity or not a number; the sign of zero is not kept.
    Floats whose magnitude exceeds binary64 do not occur.  Texts are ASCII. *)
From Stdlib Require Import Ascii Qpower Qabs.
From S2P Require Import Prelude DecimalContext PyDate MarketData.

Local Open Scope Z_scope.

(** * Floats *)

Inductive PyFloat : Type :=
| FFinite (q : Qc)
| FInfinite (negative : bool)
| FNan.

(** A [Decimal], which may be special too. *)
Inductive PyDecimal : Type :=
| DFinite (q : Decimal)
| DInfinite (negative : bool)
| DNan.

#[global] Instance PyFloat_eq_dec : EqDecision PyFloat.
Proof. solve_decision. Defined.
#[global] Instance PyDecimal_eq_dec : EqDecision PyDecimal.
Proof. solve_decision. Defined.

Definition pow2 (e : Z) : Q := Qpower 2 e.

(** The exponent of the leading bit. *)
Definition binary_exponent (q : Q) : Z :=
  let k := Z.log2 (Z.abs (Qnum q)) - Z.log2 (QDen q) in
  if Qle_bool (pow2 k) (Qabs q) then k else k - 1.

(** The nearest binary64 number, subnormal ones included. *)
Definition to_binary64 (q : Qc) : Qc :=
  if dec_eqb q (dec 0 0) then dec 0 0
  else let e := Z.max (binary_exponent q - 52) (-1074) in
       Q2Qc (inject_Z (round_half_even (q / pow2 e)) * pow2 e).

(** The nearest decimal of [n] significant digits. *)
Definition round_digits (n : Z) (q : Qc) : Decimal :=
  let e := adjusted q - (n - 1) in Q2Qc (inject_Z (round_half_even (q / pow10 e)) * pow10 e).

(** The value of [repr(x)]: the shortest decimal that reads back as [x]. *)
Fixpoint shortest_from (fuel : nat) (n : Z) (q : Qc) : Decimal :=
  match fuel with
  | O => round_digits n q
  | S fuel =>
      let c := round_digits n q in
      if dec_eqb (to_binary64 c) q then c else shortest_from fuel (n + 1) q
  end.

(** [Decimal(str(x))]; seventeen digits always read back. *)
Definition float_decimal (x : PyFloat) : PyDecimal :=
  match x with
  | FFinite q => DFinite (shortest_from 16 1 q)
  | FInfinite negative => DInfinite negative
  | FNan => DNan
  end.

(** [float.is_integer] with its [int]; [None] otherwise. *)
Definition float_integer (x : PyFloat) : option Z :=
  match x with
  | FFinite q => if bool_decide (Qden q = 1%positive) then Some (Qnum q) else None
  | _ => None
  end.

(** ** Binary32 *)

(** The value of the 32 bits of a [struct] field [f]. *)
Definition float32_of_bits (bits : Z) : PyFloat :=
  let negative := Z.testbit bits 31 in
  let e := Z.land (Z.shiftr bits 23) 255 in
  let m := Z.land bits 8388607 in
  let signed q : Qc := if negative then (- q)%Qc else q in
  if e =? 255 then if m =? 0 then FInfinite negative else FNan
  else if e =? 0 then FFinite (signed (Q2Qc (inject_Z m * pow2 (-149))))
  else FFinite (signed (Q2Qc (inject_Z (8388608 + m) * pow2 (e - 150)))).

(** * Numbers in texts *)

Definition is_digit (c : ascii) : bool := is_not_none (digit_value c).

(** The leading digits and the rest. *)
Fixpoint span_digits (s : string) : string * string :=
  match s with
  | String c r => if is_digit c then let '(d, r') := span_digits r in (String c d, r') else (EmptyString, s)
  | EmptyString => (EmptyString, EmptyString)
  end.

Fixpoint digits_value (acc : Z) (s : string) : Z :=
  match s with
  | EmptyString => acc
  | String c s => digits_value (acc * 10 + default 0 (digit_value c)) s
  end.

Definition read_sign (s : string) : bool * string :=
  match s with
  | String "-" r => (true, r)
  | String "+" r => (false, r)
  | _ => (false, s)
  end.

Fixpoint remove_underscores (s : string) : string :=
  match s with
  | EmptyString => EmptyString
  | String "_" s => remove_underscores s
  | String c s => String c (remove_underscores s)
  end.

(** The exponent part, up to the end of the text. *)
Definition read_exponent (s : string) : option Z :=
  match s with
  | EmptyString => Some 0
  | String c r =>
      if bool_decide (upper_ascii c = "E"%char) then
        let '(negative, r) := read_sign r in
        let '(d, r) := span_digits r in
        if is_empty d || negb (is_empty r) then None
        else Some (if negative then - digits_value 0 d else digits_value 0 d)
      else None
  end.

(** [inf], [infinity], [nan] and [snan] with a payload, in upper case. *)
Definition read_special (negative : bool) (s : string) : option PyDecimal :=
  let nan r := if is_empty (snd (span_digits r)) then Some DNan else None in
  if bool_decide (s = "INF"%string) || bool_decide (s = "INFINITY"%string) then Some (DInfinite negative)
  else match s with
       | String "N" (String "A" (String "N" r)) => nan r
       | String "S" (String "N" (String "A" (String "N" r))) => nan r
       | _ => None
       end.

(** [Decimal(text)]; [None] is [InvalidOperation]. *)
Definition decimal_of_text (text : string) : option PyDecimal :=
  let '(negative, s) := read_sign (remove_underscores (strip text)) in
  let '(whole, r) := span_digits s in
  let '(fraction, r) := match r with String "." r => span_digits r | _ => (EmptyString, r) end in
  if is_empty whole && is_empty fraction then read_special negative (upper s)
  else
    e ← read_exponent r;
    let m := digits_value 0 (whole ++ fraction) in
    let q := Q2Qc (inject_Z m * pow10 (e - Z.of_nat (String.length fraction))) in
    Some (DFinite (if negative then (- q)%Qc else q)).

(** Digits with single underscores between them. *)
Fixpoint read_int (acc : Z) (after_digit : bool) (s : string) : option Z :=
  match s with
  | EmptyString => if after_digit then Some acc else None
  | String c s =>
      match digit_value c with
      | Some d => read_int (acc * 10 + d) true s
      | None => if bool_decide (c = "_"%char) && after_digit then read_int acc false s else None
      end
  end.

(** [int(text)]; [None] is [ValueError]. *)
Definition int_of_text (text : string) : option Z :=
  let '(negative, s) := read_sign (strip text) in
  v ← read_int 0 false s; Some (if negative then - v else v).

(** * Lemmas *)

Lemma pow2_pos e : (0 < pow2 e)%Q.
Proof. apply Qpower_0_lt. reflexivity. Qed.

(** Rounding to a positive number of digits keeps a positive value positive. *)
Lemma round_digits_pos n q : 1 <= n -> (0 < q)%Qc -> (0 < round_digits n q)%Qc.
Proof.
  intros Hn Hq. unfold round_digits. set (e := adjusted q - (n - 1)).
  assert (Hq0 : (0 < this q)%Q) by exact Hq.
  assert (Ha : (pow10 (adjusted q) <= this q)%Q).
  { destruct (adjusted_spec q) as [H _]; [intros H; rewrite H in Hq0; by apply (Qlt_irrefl 0)|].
    rewrite Qabs_pos in H by lra. exact H. }
  assert (Hs : (1 <= this q / pow10 e)%Q).
  { apply Qle_shift_div_l; [apply pow10_pos|]. rewrite Qmult_1_l. apply Qle_trans with (pow10 (adjusted q)); [|done].
    apply pow10_le. unfold e. lia. }
  assert (Hr : 1 <= round_half_even (this q / pow10 e)).
  { rewrite <- (round_half_even_Z 1). by apply round_half_even_le. }
  assert (Hv : (this (Q2Qc (inject_Z (round_half_even (this q / pow10 e)) * pow10 e))
    == inject_Z (round_half_even (this q / pow10 e)) * pow10 e)%Q) by apply Qred_correct.
  unfold Qclt. rewrite Hv. change (this (Q2Qc 0)) with 0%Q. apply Qmult_lt_0_compat; [|apply pow10_pos].
  change 0%Q with (inject_Z 0). rewrite <- Zlt_Qlt. lia.
Qed.

Lemma shortest_from_pos fuel n q : 1 <= n -> (0 < q)%Qc -> (0 < shortest_from fuel n q)%Qc.
Proof.
  revert n. induction fuel as [|fuel IH]; intros n Hn Hq; cbn [shortest_from]; [by apply round_digits_pos|].
  destruct (dec_eqb _ _); [by apply round_digits_pos|]. apply IH; [lia|done].
Qed.

(** A text shorter than seventeen digits reads back as the float it was printed for. *)
Lemma shortest_from_reads_back fuel n q :
  to_binary64 (shortest_from fuel n q) = q \/ shortest_from fuel n q = round_digits (n + Z.of_nat fuel) q.
Proof.
  revert n. induction fuel as [|fuel IH]; intros n; cbn [shortest_from]; [right; f_equal; lia|].
  destruct (dec_eqb _ _) eqn:E; [left; by apply dec_eqb_eq|].
  destruct (IH (n + 1)) as [H|H]; [by left|right]. rewrite H. f_equal. lia.
Qed.

Example price_text : float_decimal (float32_of_bits 1128598733) = DFinite (Q2Qc (1970500030517578 # 10000000000000)) /\
  float_decimal (float32_of_bits 1036831949) = DFinite (Q2Qc (10000000149011612 # 100000000000000000)).
Proof. split; vm_compute; reflexivity. Qed.
