(* ===== verification/FloatText.v ===== *)
(** Floats through their texts and their bytes: the binary32 bits of a float, the position
    of its leading bit, and the round trips of a price that arrives as binary32, is printed
    as a decimal and read as a binary64 again. *)
From Stdlib Require Import Qpower Qabs.
From S2P Require Import Prelude DecimalContext PyNumber.

Local Open Scope Z_scope.

(** The bits [struct.pack("<f", x)] writes; [None] is [OverflowError]. *)
Definition pack_float32 (x : Qc) : option Z :=
  if dec_eqb x (dec 0 0) then Some 0
  else
    let a := dec_abs x in
    let e := Z.max (binary_exponent a - 23) (-149) in
    let m := round_half_even (a / pow2 e) in
    let magnitude := if m <? 2 ^ 23 then m else (e + 149) * 2 ^ 23 + m in
    if 255 * 2 ^ 23 <=? magnitude then None
    else Some ((if dec_ltb x (dec 0 0) then 2 ^ 31 else 0) + magnitude).


(** * Powers of two *)

Lemma pow2_add a b : (pow2 (a + b) == pow2 a * pow2 b)%Q.
Proof. apply Qpower_plus. discriminate. Qed.

Lemma pow2_le a b : a <= b -> (pow2 a <= pow2 b)%Q.
Proof. intros. apply Qpower_le_compat_l; [done|discriminate]. Qed.

Lemma pow2_lt a b : a < b -> (pow2 a < pow2 b)%Q.
Proof. intros. by apply Qpower_lt_compat_l. Qed.

Lemma pow2_lt_inv a b : (pow2 a < pow2 b)%Q -> a < b.
Proof. intros H. destruct (Z_lt_le_dec a b) as [|Hle%pow2_le]; [done|lra]. Qed.

Lemma pow2_Z e : 0 <= e -> (pow2 e == inject_Z (2 ^ e))%Q.
Proof. intros. unfold pow2. rewrite Zpower_Qpower by done. reflexivity. Qed.

Lemma pow2_succ e : (pow2 (e + 1) == 2 * pow2 e)%Q.
Proof. rewrite pow2_add. change (pow2 1) with 2%Q. ring. Qed.

Lemma pow2_scaled (x : Q) e : (x == x / pow2 e * pow2 e)%Q.
Proof. field. pose proof (pow2_pos e). lra. Qed.

Lemma scaled_pow2 m e : (inject_Z m * pow2 e / pow2 e == inject_Z m)%Q.
Proof. field. pose proof (pow2_pos e). lra. Qed.

(** * The leading bit *)

Lemma log2_ratio n d : let k := Z.log2 (Zpos n) - Z.log2 (Zpos d) in
  (pow2 (k - 1) < Zpos n # d /\ Zpos n # d < pow2 (k + 1))%Q.
Proof.
  cbn zeta. destruct (Z.log2_spec (Zpos n) ltac:(lia)) as [Hnl Hnu], (Z.log2_spec (Zpos d) ltac:(lia)) as [Hdl Hdu].
  pose proof (Z.log2_nonneg (Zpos n)). pose proof (Z.log2_nonneg (Zpos d)).
  assert (Hq : (Zpos n # d == inject_Z (Zpos n) / inject_Z (Zpos d))%Q)
    by (unfold Qdiv, Qinv, inject_Z, Qmult, Qeq; cbn; lia).
  assert (Hd0 : (0 < inject_Z (Zpos d))%Q) by reflexivity.
  rewrite Hq. set (ln := Z.log2 (Zpos n)) in *. set (ld := Z.log2 (Zpos d)) in *. split.
  - apply Qlt_shift_div_l; [done|]. apply Qlt_le_trans with (pow2 (ln - ld - 1) * pow2 (Z.succ ld))%Q.
    + apply Qmult_lt_l; [apply pow2_pos|]. rewrite pow2_Z by lia. by rewrite <- Zlt_Qlt.
    + rewrite <- pow2_add. replace (ln - ld - 1 + Z.succ ld) with ln by lia. rewrite pow2_Z by lia. by rewrite <- Zle_Qle.
  - apply Qlt_shift_div_r; [done|]. apply Qlt_le_trans with (pow2 (ln - ld + 1) * pow2 ld)%Q.
    + rewrite <- pow2_add. replace (ln - ld + 1 + ld) with (Z.succ ln) by lia. rewrite pow2_Z by lia. by rewrite <- Zlt_Qlt.
    + apply Qmult_le_l; [apply pow2_pos|]. rewrite pow2_Z by lia. by rewrite <- Zle_Qle.
Qed.

Lemma binary_exponent_spec q : ~ (q == 0)%Q ->
  (pow2 (binary_exponent q) <= Qabs q /\ Qabs q < pow2 (binary_exponent q + 1))%Q.
Proof.
  intros Hq. destruct q as [[|n|n] d]; [by exfalso; apply Hq| |];
    unfold binary_exponent; cbn [Qnum Qden Qabs]; unfold Z.abs; cbv zeta; pose proof (log2_ratio n d) as [Hlo Hhi];
    set (k := Z.log2 (Zpos n) - Z.log2 (Zpos d)) in *;
    (destruct (Qle_bool (pow2 k) (Zpos n # d)) eqn:E;
      [apply Qle_bool_iff in E; by split|];
      assert (~ (pow2 k <= Zpos n # d))%Q by (rewrite <- Qle_bool_iff, E; discriminate);
      replace (k - 1 + 1) with k by lia; split; lra).
Qed.

Lemma binary_exponent_unique q k : (pow2 k <= Qabs q)%Q -> (Qabs q < pow2 (k + 1))%Q -> binary_exponent q = k.
Proof.
  intros Hl Hu. pose proof (pow2_pos k).
  destruct (binary_exponent_spec q) as [Hl' Hu']; [intros E; assert (Qabs q == 0)%Q by (rewrite E; reflexivity); lra|].
  assert (pow2 k < pow2 (binary_exponent q + 1))%Q as H1%pow2_lt_inv by lra.
  assert (pow2 (binary_exponent q) < pow2 (k + 1))%Q as H2%pow2_lt_inv by lra. lia.
Qed.

Lemma inject_Z_abs m : (Qabs (inject_Z m) == inject_Z (Z.abs m))%Q.
Proof. reflexivity. Qed.

(** The leading bit of [m * 2^e]. *)
Lemma binary_exponent_scaled m e k q : 0 <= k -> 2 ^ k <= Z.abs m < 2 ^ (k + 1) ->
  (q == inject_Z m * pow2 e)%Q -> binary_exponent q = e + k.
Proof.
  intros Hk [Hl Hu] Hq. pose proof (pow2_pos e) as Hp.
  assert (Ha : (Qabs q == inject_Z (Z.abs m) * pow2 e)%Q).
  { rewrite Hq, Qabs_Qmult, inject_Z_abs, (Qabs_pos (pow2 e)) by lra. reflexivity. }
  apply binary_exponent_unique; rewrite Ha.
  - replace (e + k) with (k + e) by lia. rewrite pow2_add, (pow2_Z k) by lia.
    apply Qmult_le_compat_r; [by rewrite <- Zle_Qle|lra].
  - replace (e + k + 1) with (k + 1 + e) by lia. rewrite pow2_add, (pow2_Z (k + 1)) by lia.
    apply Qmult_lt_r; [done|by rewrite <- Zlt_Qlt].
Qed.

Lemma near_integer s m : (Qabs (s - inject_Z m) < 1 # 2)%Q -> round_half_even s = m.
Proof. intros H. apply round_half_even_unique. by left. Qed.

(** * Binary32 *)

Lemma dec_eqb_neq (a b : Qc) : a <> b -> dec_eqb a b = false.
Proof. intros H. unfold dec_eqb. by rewrite bool_decide_false. Qed.

Lemma this_nonzero (q : Qc) : q <> dec 0 0 -> ~ (this q == 0)%Q.
Proof. intros H E. apply H. apply Qc_is_canon. exact E. Qed.

Lemma this_Q2Qc q : (this (Q2Qc q) == q)%Q.
Proof. apply Qred_correct. Qed.

(** A finite binary32: [m] of at most 24 bits, the exponent of its last bit and the sign. *)
Definition binary32_value (negative : bool) (m e : Z) (q : Qc) : Prop :=
  (this q == inject_Z (if negative then - m else m) * pow2 e)%Q.

(** The exponent and the magnitude bits that encode it. *)
Definition binary32_fields (m e magnitude : Z) : Prop :=
  0 < m < 2 ^ 24 /\ -149 <= e <= 104 /\
  ((e = -149 /\ m < 2 ^ 23 /\ magnitude = m) \/ (2 ^ 23 <= m /\ magnitude = (e + 149) * 2 ^ 23 + m)).

Lemma float32_fields bits q : 0 <= bits < 2 ^ 32 -> float32_of_bits bits = FFinite q -> q <> dec 0 0 ->
  exists negative m e magnitude, binary32_value negative m e q /\ binary32_fields m e magnitude
    /\ bits = (if negative then 2 ^ 31 else 0) + magnitude.
Proof.
  intros Hb. unfold float32_of_bits.
  assert (He : Z.land (Z.shiftr bits 23) 255 = (bits / 2 ^ 23) mod 2 ^ 8).
  { rewrite Z.shiftr_div_pow2 by lia. change 255 with (Z.ones 8). by rewrite Z.land_ones. }
  assert (Hm : Z.land bits 8388607 = bits mod 2 ^ 23).
  { change 8388607 with (Z.ones 23). by rewrite Z.land_ones. }
  assert (Hs : Z.testbit bits 31 = (2 ^ 31 <=? bits)).
  { rewrite Z.testbit_odd, Z.shiftr_div_pow2 by lia. destruct (Z.leb_spec (2 ^ 31) bits).
    - replace (bits / 2 ^ 31) with 1; [done|]. apply Z.div_unique with (bits - 2 ^ 31); lia.
    - rewrite Z.div_small by lia. done. }
  rewrite He, Hm, Hs. cbv zeta. set (m := bits mod 2 ^ 23). set (e := (bits / 2 ^ 23) mod 2 ^ 8).
  assert (Hme : 0 <= m < 2 ^ 23) by (apply Z.mod_pos_bound; lia).
  assert (Hee : 0 <= e < 2 ^ 8) by (apply Z.mod_pos_bound; lia).
  assert (Hbits : bits = (if 2 ^ 31 <=? bits then 2 ^ 31 else 0) + e * 2 ^ 23 + m).
  { pose proof (Z.div_mod bits (2 ^ 23) ltac:(lia)). fold m in H.
    pose proof (Z.div_mod (bits / 2 ^ 23) (2 ^ 8) ltac:(lia)) as H2. fold e in H2.
    rewrite Z.div_div in H2 by lia. change (2 ^ 23 * 2 ^ 8) with (2 ^ 31) in H2.
    destruct (Z.leb_spec (2 ^ 31) bits).
    - replace (bits / 2 ^ 31) with 1 in H2 by (apply Z.div_unique with (bits - 2 ^ 31); lia). lia.
    - rewrite (Z.div_small bits (2 ^ 31)) in H2 by lia. lia. }
  set (negative := 2 ^ 31 <=? bits) in *.
  assert (Hv : forall n k, binary32_value negative n k (if negative then (- Q2Qc (inject_Z n * pow2 k))%Qc else Q2Qc (inject_Z n * pow2 k))).
  { intros n k. unfold binary32_value. destruct negative; [rewrite this_opp, inject_Z_opp|]; rewrite this_Q2Qc; ring. }
  destruct (Z.eqb_spec e 255) as [E|E]; [destruct (m =? 0); discriminate|].
  destruct (Z.eqb_spec e 0) as [E0|E0]; intros [= <-] Hq.
  - exists negative, m, (-149), m. split_and!; [apply Hv| |lia]. unfold binary32_fields.
    assert (m <> 0); [|lia]. intros Hm0. apply Hq. apply Qc_is_canon. rewrite Hm0. destruct negative; reflexivity.
  - exists negative, (2 ^ 23 + m), (e - 150), (e * 2 ^ 23 + m). split_and!; [apply Hv| |lia]. unfold binary32_fields. lia.
Qed.

Lemma log2_bounds m k : 0 < m < 2 ^ (k + 1) -> 0 <= Z.log2 m <= k.
Proof.
  intros [H1 H2]. split; [apply Z.log2_nonneg|]. pose proof (Z.log2_spec m H1). pose proof (Z.log2_nonneg m).
  destruct (Z_lt_le_dec k (Z.log2 m)) as [Hlt|]; [|done]. pose proof (Z.pow_le_mono_r 2 (k + 1) (Z.log2 m)). lia.
Qed.

(** Packing a binary32 writes its bits. *)
Lemma pack_fields negative m e magnitude q : binary32_value negative m e q -> binary32_fields m e magnitude ->
  pack_float32 q = Some ((if negative then 2 ^ 31 else 0) + magnitude).
Proof.
  intros Hv (Hm & He & Hf). pose proof (pow2_pos e) as Hp.
  assert (H0 : (0 < inject_Z m * pow2 e)%Q).
  { apply Qmult_lt_0_compat; [|done]. change 0%Q with (inject_Z 0). rewrite <- Zlt_Qlt. lia. }
  assert (Hsign : dec_ltb q (dec 0 0) = negative).
  { unfold binary32_value in Hv. unfold dec_ltb, Qclt. change (this (dec 0 0)) with 0%Q. destruct negative.
    - apply bool_decide_true. rewrite Hv, inject_Z_opp. lra.
    - apply bool_decide_false. rewrite Hv. lra. }
  assert (Ha : (this (dec_abs q) == inject_Z m * pow2 e)%Q).
  { unfold dec_abs. rewrite Hsign. unfold binary32_value in Hv. destruct negative; [rewrite this_opp|]; rewrite Hv, ?inject_Z_opp; ring. }
  unfold pack_float32. rewrite dec_eqb_neq, Hsign; cycle 1.
  { intros ->. revert Ha. change (this (dec_abs (dec 0 0))) with 0%Q. intros Ha. lra. }
  pose proof (Z.log2_spec m ltac:(lia)) as Hl. pose proof (log2_bounds m 23 ltac:(lia)) as Hl'.
  assert (Hbe : binary_exponent (dec_abs q) = e + Z.log2 m).
  { apply binary_exponent_scaled with m; [lia| |done]. rewrite Z.abs_eq by lia.
    replace (Z.log2 m + 1) with (Z.succ (Z.log2 m)) by lia. done. }
  assert (Hmax : Z.max (binary_exponent (dec_abs q) - 23) (-149) = e).
  { rewrite Hbe. destruct Hf as [(-> & Hm' & _)|(Hm' & _)].
    - pose proof (log2_bounds m 22 ltac:(lia)). lia.
    - pose proof (Z.log2_le_pow2 m 23 ltac:(lia)). lia. }
  cbv zeta. rewrite Hmax. assert (Hr : round_half_even (this (dec_abs q) / pow2 e) = m) by (rewrite Ha, scaled_pow2; apply round_half_even_Z).
  rewrite Hr. destruct Hf as [(-> & Hm' & ->)|(Hm' & ->)].
  - destruct (Z.ltb_spec m (2 ^ 23)); [|lia]. destruct (Z.leb_spec (255 * 2 ^ 23) m); [lia|done].
  - destruct (Z.ltb_spec m (2 ^ 23)); [lia|]. destruct (Z.leb_spec (255 * 2 ^ 23) ((e + 149) * 2 ^ 23 + m)); [lia|done].
Qed.

(** * Binary64 *)

(** Rounding at the exponent [e] of the last bit. *)
Lemma rounds_to (d : Q) m e : (Qabs (d - inject_Z m * pow2 e) < (1 # 2) * pow2 e)%Q -> round_half_even (d / pow2 e) = m.
Proof.
  intros H. pose proof (pow2_pos e) as Hp. apply near_integer.
  assert (Hd : (d / pow2 e - inject_Z m == (d - inject_Z m * pow2 e) / pow2 e)%Q) by (field; lra).
  rewrite Hd. unfold Qdiv. rewrite Qabs_Qmult, (Qabs_pos (/ pow2 e)) by (apply Qlt_le_weak, Qinv_lt_0_compat; done).
  apply Qlt_shift_div_r; [done|]. lra.
Qed.

Lemma to_binary64_at (d : Qc) e m : d <> dec 0 0 -> Z.max (binary_exponent d - 52) (-1074) = e ->
  (Qabs (d - inject_Z m * pow2 e) < (1 # 2) * pow2 e)%Q -> (this (to_binary64 d) == inject_Z m * pow2 e)%Q.
Proof.
  intros Hd He H. unfold to_binary64. rewrite dec_eqb_neq by done. cbv zeta. rewrite He, rounds_to with (m := m) by done.
  apply this_Q2Qc.
Qed.

(** A number of 53 bits is the rounding of whatever lies nearer to it than half a unit of
    its last bit, and a power of two of what lies within half of that. *)
Lemma to_binary64_near (d q : Qc) m e : (this q == inject_Z m * pow2 e)%Q -> 2 ^ 52 <= Z.abs m < 2 ^ 53 -> -1073 <= e ->
  (Qabs (d - q) < (1 # 2) * pow2 e)%Q -> (Z.abs m = 2 ^ 52 -> (Qabs (d - q) < (1 # 4) * pow2 e)%Q) -> to_binary64 d = q.
Proof.
  intros Hq Hm He Hd Hd'. pose proof (pow2_pos e) as Hp.
  assert (Ha : (Qabs q == inject_Z (Z.abs m) * pow2 e)%Q).
  { rewrite Hq, Qabs_Qmult, inject_Z_abs, (Qabs_pos (pow2 e)) by lra. reflexivity. }
  pose proof (Qabs_triangle_reverse d q) as Ht1. pose proof (Qabs_triangle_reverse q d) as Ht2.
  assert (Hsym : (Qabs (q - d) == Qabs (d - q))%Q) by (rewrite <- Qabs_opp; apply Qabs_wd; ring). rewrite Hsym in Ht2.
  assert (Hlow : (inject_Z (2 ^ 52) * pow2 e <= Qabs q)%Q).
  { rewrite Ha. apply Qmult_le_compat_r; [rewrite <- Zle_Qle; lia|lra]. }
  assert (Hhigh : (Qabs q <= inject_Z (2 ^ 53 - 1) * pow2 e)%Q).
  { rewrite Ha. apply Qmult_le_compat_r; [rewrite <- Zle_Qle; lia|lra]. }
  assert (H52 : (pow2 (e + 52) == inject_Z (2 ^ 52) * pow2 e)%Q) by (rewrite pow2_add, (pow2_Z 52) by lia; ring).
  assert (H53 : (pow2 (e + 52 + 1) == inject_Z (2 ^ 53) * pow2 e)%Q)
    by (replace (e + 52 + 1) with (53 + e) by lia; rewrite pow2_add, (pow2_Z 53) by lia; ring).
  change (inject_Z (2 ^ 52)) with (4503599627370496#1)%Q in *. change (inject_Z (2 ^ 53)) with (9007199254740992#1)%Q in *.
  change (inject_Z (2 ^ 53 - 1)) with (9007199254740991#1)%Q in *.
  assert (Hd0 : d <> dec 0 0).
  { intros ->. assert (Qabs (dec 0 0) == 0)%Q by reflexivity. lra. }
  apply Qc_is_canon. rewrite Hq. destruct (Qlt_le_dec (Qabs d) (pow2 (e + 52))) as [Hlt|Hge].
  - assert (Hm52 : Z.abs m = 2 ^ 52).
    { destruct (Z.eq_dec (Z.abs m) (2 ^ 52)) as [|Hne]; [done|exfalso].
      assert (H : (inject_Z (2 ^ 52 + 1) * pow2 e <= Qabs q)%Q).
      { rewrite Ha. apply Qmult_le_compat_r; [rewrite <- Zle_Qle; lia|lra]. }
      change (inject_Z (2 ^ 52 + 1)) with (4503599627370497#1)%Q in H. lra. }
    specialize (Hd' Hm52). assert (He1 : (pow2 e == 2 * pow2 (e - 1))%Q) by (rewrite <- pow2_succ; by replace (e - 1 + 1) with e by lia).
    assert (H51 : (pow2 (e - 1 + 52) == (4503599627370496#1) * pow2 (e - 1))%Q)
      by (rewrite pow2_add, (pow2_Z 52) by lia; change (inject_Z (2 ^ 52)) with (4503599627370496#1)%Q; ring).
    pose proof (pow2_pos (e - 1)).
    assert (Hval : (inject_Z m * pow2 e == inject_Z (2 * m) * pow2 (e - 1))%Q).
    { rewrite He1, inject_Z_mult. change (inject_Z 2) with 2%Q. ring. }
    rewrite Hval. apply to_binary64_at; [done| |].
    + assert (binary_exponent d = e - 1 + 52) as ->; [|lia]. apply binary_exponent_unique; [lra|].
      replace (e - 1 + 52 + 1) with (e + 52) by lia. done.
    + assert (Hs : (d - inject_Z (2 * m) * pow2 (e - 1) == d - q)%Q) by (rewrite Hq, Hval; ring). rewrite Hs. lra.
  - apply to_binary64_at; [done| |].
    + assert (binary_exponent d = e + 52) as ->; [|lia]. apply binary_exponent_unique; [done|lra].
    + assert (Hs : (d - inject_Z m * pow2 e == d - q)%Q) by (rewrite Hq; ring). by rewrite Hs.
Qed.

(** Seventeen significant digits identify a number of 53 bits. *)
Lemma seventeen_digits (q : Qc) m e : (this q == inject_Z m * pow2 e)%Q -> 2 ^ 52 <= Z.abs m < 2 ^ 53 -> -1073 <= e ->
  to_binary64 (round_digits 17 q) = q.
Proof.
  intros Hq Hm He. pose proof (pow2_pos e) as Hp.
  assert (Ha : (Qabs q == inject_Z (Z.abs m) * pow2 e)%Q).
  { rewrite Hq, Qabs_Qmult, inject_Z_abs, (Qabs_pos (pow2 e)) by lra. reflexivity. }
  assert (Hq0 : ~ (this q == 0)%Q).
  { intros E. assert (H : (0 < inject_Z (Z.abs m) * pow2 e)%Q).
    { apply Qmult_lt_0_compat; [|done]. change 0%Q with (inject_Z 0). rewrite <- Zlt_Qlt. lia. }
    rewrite <- Ha, E in H. discriminate H. }
  destruct (adjusted_spec q Hq0) as [Hl _]. set (k := adjusted q) in *.
  assert (Hround : (Qabs (round_digits 17 q - q) <= (1 # 2) * pow10 (k - 16))%Q).
  { unfold round_digits. fold k. replace (k - (17 - 1)) with (k - 16) by lia. pose proof (pow10_pos (k - 16)) as Hp10.
    rewrite this_Q2Qc. pose proof (round_half_even_near (q / pow10 (k - 16))) as Hn. set (r := round_half_even (q / pow10 (k - 16))) in *.
    assert (Hs : (inject_Z r * pow10 (k - 16) - q == - ((q / pow10 (k - 16) - inject_Z r) * pow10 (k - 16)))%Q) by (field; lra).
    rewrite Hs, Qabs_opp, Qabs_Qmult, (Qabs_pos (pow10 (k - 16))) by lra. by apply Qmult_le_compat_r; [|lra]. }
  assert (H16 : (pow10 k == (10000000000000000 # 1) * pow10 (k - 16))%Q).
  { rewrite (pow10_split k (k - 16)). replace (k - (k - 16)) with 16 by lia. rewrite (pow10_Z 16) by lia. reflexivity. }
  assert (Hbound : forall M, (Qabs q <= inject_Z M * pow2 e)%Q -> M <= 2 ^ 53 ->
    (Qabs (round_digits 17 q - q) <= inject_Z M * pow2 e / (20000000000000000 # 1))%Q).
  { intros M HM _. eapply Qle_trans; [exact Hround|]. apply Qle_shift_div_l; [reflexivity|]. lra. }
  apply to_binary64_near with m e; try done.
  - eapply Qle_lt_trans; [apply (Hbound (2 ^ 53)); [|lia]|].
    + rewrite Ha. apply Qmult_le_compat_r; [rewrite <- Zle_Qle; lia|lra].
    + apply Qlt_shift_div_r; [reflexivity|]. change (inject_Z (2 ^ 53)) with (9007199254740992#1)%Q. lra.
  - intros Hm52. eapply Qle_lt_trans; [apply (Hbound (2 ^ 52)); [|lia]|].
    + rewrite Ha, Hm52. apply Qle_refl.
    + apply Qlt_shift_div_r; [reflexivity|]. change (inject_Z (2 ^ 52)) with (4503599627370496#1)%Q. lra.
Qed.

(** A binary32 has 53 bits after its leading one. *)
Lemma binary32_normal negative m e magnitude q : binary32_value negative m e q -> binary32_fields m e magnitude ->
  exists m' e', (this q == inject_Z m' * pow2 e')%Q /\ 2 ^ 52 <= Z.abs m' < 2 ^ 53 /\ -1073 <= e'.
Proof.
  intros Hv (Hm & He & _). pose proof (log2_bounds m 23 ltac:(lia)) as Hl. pose proof (Z.log2_spec m ltac:(lia)) as [Hs1 Hs2].
  set (k := 52 - Z.log2 m). exists ((if negative then - m else m) * 2 ^ k), (e - k). split; [|split; [|lia]].
  - unfold binary32_value in Hv. rewrite Hv, inject_Z_mult, <- (pow2_Z k) by lia.
    replace e with (k + (e - k)) at 1 by lia. rewrite pow2_add. ring.
  - assert (Z.abs ((if negative then - m else m) * 2 ^ k) = m * 2 ^ k) as ->.
    { rewrite Z.abs_mul, (Z.abs_eq (2 ^ k)) by lia. f_equal. destruct negative; lia. }
    assert (2 ^ 52 = 2 ^ Z.log2 m * 2 ^ k) as -> by (rewrite <- Z.pow_add_r by lia; f_equal; lia).
    assert (2 ^ 53 = 2 ^ Z.succ (Z.log2 m) * 2 ^ k) as -> by (rewrite <- Z.pow_add_r by lia; f_equal; lia).
    assert (0 < 2 ^ k) by lia. nia.
Qed.

(** The decimal printed for a price of the wire reads back as the price, and packs to the
    bits it came in. *)
Lemma wire_text bits q d : 0 <= bits < 2 ^ 32 -> float32_of_bits bits = FFinite q -> q <> dec 0 0 ->
  float_decimal (FFinite q) = DFinite d -> to_binary64 d = q /\ pack_float32 (to_binary64 d) = Some bits.
Proof.
  intros Hb Hq H0 Hd'. assert (Hdq : shortest_from 16 1 q = d) by (unfold float_decimal in Hd'; congruence). clear Hd'.
  destruct (float32_fields bits q Hb Hq H0) as (negative & m & e & magnitude & Hv & Hf & ->).
  assert (Hd : to_binary64 d = q).
  { rewrite <- Hdq. destruct (shortest_from_reads_back 16 1 q) as [H|H]; [done|]. rewrite H.
    destruct (binary32_normal _ _ _ _ _ Hv Hf) as (m' & e' & Hq' & Hm' & He'). by apply (seventeen_digits q m' e'). }
  split; [done|]. rewrite Hd. by apply (pack_fields negative m e).
Qed.

(** A binary32 is far below the largest binary64. *)
Lemma binary32_bound bits q : 0 <= bits < 2 ^ 32 -> float32_of_bits bits = FFinite q -> (Qabs q < pow2 1024)%Q.
Proof.
  intros Hb Hq. pose proof (pow2_pos 1024). destruct (decide (q = dec 0 0)) as [->|H0].
  { change (Qabs (dec 0 0)) with 0%Q. done. }
  destruct (float32_fields bits q Hb Hq H0) as (negative & m & e & magnitude & Hv & (Hm & He & _) & _).
  pose proof (pow2_pos e). unfold binary32_value in Hv.
  rewrite Hv, Qabs_Qmult, inject_Z_abs, (Qabs_pos (pow2 e)) by lra.
  apply Qlt_le_trans with (inject_Z (2 ^ 24) * pow2 e)%Q.
  - apply Qmult_lt_r; [done|]. rewrite <- Zlt_Qlt. destruct negative; lia.
  - rewrite <- pow2_Z, <- pow2_add by lia. apply pow2_le. lia.
Qed.
