(* ===== verification/DhanWire.v ===== *)
(** The binary live feed of the Dhan adapter, adapters/dhan/live.py with models.py and
    ltt_diagnostics.py: the framing of stacked packets, the decoding of quote, full,
    previous-close and disconnect packets into canonical events, the decode counters, and
    the recorder of raw trade times.

    A message is a list of bytes, numbers from 0 to 255.  A [struct] format is the list of
    its field offsets written out; [<] means little-endian without padding.  A four-byte
    float is the binary64 of the same value, and its price the decimal of its shortest text
    ([PyNumber]).  Logging is left out; the interval of the recorder is in microseconds.

    The theorems say that framing recovers exactly the packets a message was stacked from
    and loses only what cannot be delimited, that decoding inverts the wire format field by
    field, that it yields well-formed events of the referenced instrument or one of four
    errors, that the counters account for every packet, and that the recorder stays within
    its bounds and reads the same field as the decoder. *)
From Stdlib Require Import Ascii.
From S2P Require Import Prelude DecimalContext PyTime PyDate MarketData PyNumber.

Local Open Scope Z_scope.

(** * References *)

Record DhanInstrumentReference : Type := {
  dr_instrument : Instrument;
  dr_security_id : string;
  dr_underlying_security_id : option string;
  dr_exchange_segment : option string;
  dr_provider_instrument_type : string;
}.

#[global] Instance DhanInstrumentReference_eq_dec : EqDecision DhanInstrumentReference.
Proof. solve_decision. Defined.

(** [instrument_class.value] *)
Definition instrument_class_value (c : InstrumentClass) : string :=
  match c with CASH => "cash" | FUTURE => "future" | OPTION => "option" | OTHER => "other" end.

(** * Bytes *)

Abbreviation Bytes := (list Z).

(** Little-endian unsigned value. *)
Fixpoint le_value (bs : Bytes) : Z :=
  match bs with [] => 0 | b :: bs => b + 256 * le_value bs end.

(** Two's complement of [n] bytes. *)
Definition signed (n : nat) (v : Z) : Z :=
  if v <? 2 ^ (8 * Z.of_nat n - 1) then v else v - 2 ^ (8 * Z.of_nat n).

Definition field (n : nat) (bs : Bytes) (offset : nat) : Z := le_value (take n (drop offset bs)).

(** The [struct] codes [B], [h], [i] and [f]. *)
Definition u8 (bs : Bytes) (offset : nat) : Z := field 1 bs offset.
Definition i16 (bs : Bytes) (offset : nat) : Z := signed 2 (field 2 bs offset).
Definition i32 (bs : Bytes) (offset : nat) : Z := signed 4 (field 4 bs offset).
Definition f32 (bs : Bytes) (offset : nat) : PyFloat := float32_of_bits (field 4 bs offset).

(** * Wire constants *)

(** [_HEADER = struct.Struct("<B h B i")]: response code at 0, length at 1, segment at 3,
    security id at 4. *)
Definition header_size : nat := 8.
(** ["<f h i f i i i f f f f"] *)
Definition quote_payload_size : nat := 42.
(** ["<f h i f i i i i i i f f f f"] *)
Definition full_payload_size : nat := 54.
(** ["<i i h h f f"] *)
Definition depth_level_size : nat := 20.
(** ["<f i"] and ["<h"] *)
Definition previous_close_payload_size : nat := 8.
Definition feed_disconnect_payload_size : nat := 2.

Definition QUOTE_RESPONSE_CODE : Z := 4.
Definition FULL_RESPONSE_CODE : Z := 8.
Definition PREVIOUS_CLOSE_RESPONSE_CODE : Z := 6.
Definition FEED_DISCONNECT_RESPONSE_CODE : Z := 50.

(** [_EXCHANGE_SEGMENT_CODES] *)
Definition EXCHANGE_SEGMENT_CODES : dict string Z := [
  ("IDX_I", 0); ("NSE_EQ", 1); ("NSE_FNO", 2); ("NSE_CURRENCY", 3); ("BSE_EQ", 4);
  ("MCX_COMM", 5); ("BSE_CURRENCY", 7); ("BSE_FNO", 8)]%string.

(** * Framing *)

(** [iter_standard_live_packets]: the packets in order, and whether the walk ended in a
    [NormalizationError]. *)
Fixpoint iter_packets (fuel : nat) (message : Bytes) : list Bytes * bool :=
  match fuel with
  | O => ([], false)
  | S fuel =>
      if (length message =? 0)%nat then ([], false)
      else if (length message <? header_size)%nat then ([], true)
      else
        let message_length := i16 message 1 in
        if message_length <? Z.of_nat header_size then ([], true)
        else if Z.of_nat (length message) <? message_length then ([], true)
        else
          let n := Z.to_nat message_length in
          let '(packets, failed) := iter_packets fuel (drop n message) in
          (take n message :: packets, failed)
  end.

Definition iter_standard_live_packets (message : Bytes) : list Bytes * bool :=
  iter_packets (S (length message)) message.

(** * Events *)

Record DepthLevel : Type := {
  dl_price : Decimal;
  dl_quantity : Z;
}.

Record DepthSnapshot : Type := {
  ds_instrument : Instrument;
  ds_event_timestamp : instant;
  ds_bids : list DepthLevel;
  ds_asks : list DepthLevel;
}.

Inductive MarketEvent : Type :=
| ETick (t : Tick)
| EQuote (q : Quote)
| EDepth (d : DepthSnapshot)
| EReference (r : MarketReference).

#[global] Instance DepthLevel_eq_dec : EqDecision DepthLevel.
Proof. solve_decision. Defined.
#[global] Instance DepthSnapshot_eq_dec : EqDecision DepthSnapshot.
Proof. solve_decision. Defined.
#[global] Instance MarketEvent_eq_dec : EqDecision MarketEvent.
Proof. solve_decision. Defined.

(** [DepthLevel(...)] *)
Definition mk_depth_level (price : Decimal) (quantity : Z) : result DepthLevel :=
  _ ← raise_if (negb (dec_ltb 0 price)) (ValidationError "greater_than");
  _ ← raise_if (quantity <? 0) (ValidationError "greater_than_equal");
  Ok {| dl_price := price; dl_quantity := quantity |}.

(** [DepthSnapshot(...)] *)
Definition mk_depth_snapshot (i : Instrument) (ts : pydatetime) (bids asks : list DepthLevel)
    : result DepthSnapshot :=
  utc ← require_aware_timestamp ts;
  _ ← raise_if (bool_decide (bids = []) || bool_decide (asks = [])) (ValidationError "too_short");
  Ok {| ds_instrument := i; ds_event_timestamp := utc; ds_bids := bids; ds_asks := asks |}.

(** * Decoding *)

(** [except (OverflowError, OSError, ValueError): raise NormalizationError()]; a
    [ValidationError] is a [ValueError]. *)
Definition as_normalization {A} (r : result A) : result A :=
  match r with
  | Raise (ValueError _) | Raise (ValidationError _) | Raise OverflowError => Raise NormalizationError
  | _ => r
  end.

Definition float_test (test : Qc -> bool) (x : PyFloat) : bool :=
  match x with FFinite q => test q | _ => false end.

Definition require_positive_finite (x : PyFloat) : result unit :=
  raise_if (negb (float_test (fun q => dec_ltb (dec 0 0) q) x)) (ValueError "").
Definition require_nonnegative_finite (xs : list PyFloat) : result unit :=
  raise_if (py_any (fun x => negb (float_test (fun q => dec_leb (dec 0 0) q) x)) xs) (ValueError "").
Definition require_nonnegative_integral (xs : list Z) : result unit :=
  raise_if (py_any (fun v => v <? 0) xs) (ValueError "").

Definition second : Z := 1000000.

(** [_epoch_timestamp] *)
Definition epoch_timestamp (value : Z) : result instant :=
  _ ← raise_if (value <=? 0) (ValueError ""); Ok (value * second).

(** [Decimal(str(x))] as a field of a model: a special value does not validate. *)
Definition price_of (x : PyFloat) : result Decimal :=
  match float_decimal x with DFinite d => Ok d | _ => Raise (ValidationError "finite_number") end.

(** [_session_ohlc] *)
Definition session_ohlc (day_open day_high day_low day_close : PyFloat) : option ProviderSessionOhlc :=
  match (o ← price_of day_open; h ← price_of day_high; l ← price_of day_low; c ← price_of day_close;
         mk_provider_session_ohlc o h l c) with
  | Ok s => Some s
  | Raise _ => None
  end.

(** The tick of a quote or full packet. *)
Definition decoded_tick (i : Instrument) (at_ : instant) (last : PyFloat) (quantity volume : Z)
    (ohlc : option ProviderSessionOhlc) : result Tick :=
  price ← price_of last; mk_tick i (Aware at_) price (Some quantity) (Some volume) ohlc.

(** [_decode_quote_packet] *)
Definition decode_quote_packet (packet : Bytes) (reference : DhanInstrumentReference)
    : result (list MarketEvent) :=
  _ ← raise_if (negb (length packet =? header_size + quote_payload_size)%nat) NormalizationError;
  as_normalization (
    let last_price := f32 packet 8 in
    let last_trade_quantity := i16 packet 12 in
    let last_trade_time := i32 packet 14 in
    let average_trade_price := f32 packet 18 in
    let volume := i32 packet 22 in
    let total_sell_quantity := i32 packet 26 in
    let total_buy_quantity := i32 packet 30 in
    let day_open := f32 packet 34 in
    let day_close := f32 packet 38 in
    let day_high := f32 packet 42 in
    let day_low := f32 packet 46 in
    _ ← require_positive_finite last_price;
    _ ← require_nonnegative_integral [last_trade_quantity; volume; total_sell_quantity; total_buy_quantity];
    _ ← require_nonnegative_finite [average_trade_price; day_open; day_close; day_high; day_low];
    at_ ← epoch_timestamp last_trade_time;
    tick ← decoded_tick (dr_instrument reference) at_ last_price last_trade_quantity volume
             (session_ohlc day_open day_high day_low day_close);
    Ok [ETick tick]).

(** One level of the depth loop: the bid and the ask at [offset]. *)
Definition decode_depth_level (packet : Bytes) (offset : nat) : result (DepthLevel * DepthLevel) :=
  let bid_quantity := i32 packet offset in
  let ask_quantity := i32 packet (offset + 4) in
  let bid_order_count := i16 packet (offset + 8) in
  let ask_order_count := i16 packet (offset + 10) in
  let bid_price := f32 packet (offset + 12) in
  let ask_price := f32 packet (offset + 16) in
  _ ← require_nonnegative_integral [bid_quantity; ask_quantity; bid_order_count; ask_order_count];
  _ ← require_positive_finite bid_price;
  _ ← require_positive_finite ask_price;
  bid_value ← price_of bid_price; bid ← mk_depth_level bid_value bid_quantity;
  ask_value ← price_of ask_price; ask ← mk_depth_level ask_value ask_quantity;
  Ok (bid, ask).

(** [_decode_full_packet] *)
Definition decode_full_packet (packet : Bytes) (reference : DhanInstrumentReference)
    : result (list MarketEvent) :=
  _ ← raise_if (negb (length packet =? header_size + full_payload_size + 5 * depth_level_size)%nat)
    NormalizationError;
  as_normalization (
    let last_price := f32 packet 8 in
    let last_trade_quantity := i16 packet 12 in
    let last_trade_time := i32 packet 14 in
    let average_trade_price := f32 packet 18 in
    let volume := i32 packet 22 in
    let total_sell_quantity := i32 packet 26 in
    let total_buy_quantity := i32 packet 30 in
    let open_interest := i32 packet 34 in
    let highest_open_interest := i32 packet 38 in
    let lowest_open_interest := i32 packet 42 in
    let day_open := f32 packet 46 in
    let day_close := f32 packet 50 in
    let day_high := f32 packet 54 in
    let day_low := f32 packet 58 in
    _ ← require_positive_finite last_price;
    _ ← require_nonnegative_integral [last_trade_quantity; volume; total_sell_quantity; total_buy_quantity;
          open_interest; highest_open_interest; lowest_open_interest];
    _ ← require_nonnegative_finite [average_trade_price; day_open; day_close; day_high; day_low];
    at_ ← epoch_timestamp last_trade_time;
    levels ← traverse (decode_depth_level packet)
               (map (fun k => header_size + full_payload_size + k * depth_level_size)%nat (seq 0 5));
    let bids := map fst levels in
    let asks := map snd levels in
    tick ← decoded_tick (dr_instrument reference) at_ last_price last_trade_quantity volume
             (session_ohlc day_open day_high day_low day_close);
    bid ← list_index bids 0;
    ask ← list_index asks 0;
    quote ← mk_quote (dr_instrument reference) (Aware at_) (dl_price bid) (dl_price ask)
              (dl_quantity bid) (dl_quantity ask);
    depth ← mk_depth_snapshot (dr_instrument reference) (Aware at_) bids asks;
    Ok [ETick tick; EQuote quote; EDepth depth]).

(** [_decode_previous_close_packet] *)
Definition decode_previous_close_packet (packet : Bytes) (reference : DhanInstrumentReference)
    : result (list MarketEvent) :=
  _ ← raise_if (negb (length packet =? header_size + previous_close_payload_size)%nat) NormalizationError;
  let previous_close := f32 packet 8 in
  let open_interest := i32 packet 12 in
  _ ← as_normalization (_ ← require_nonnegative_finite [previous_close];
                        require_nonnegative_integral [open_interest]);
  if negb (float_test (fun q => dec_ltb (dec 0 0) q) previous_close) then Ok []
  else
    price ← price_of previous_close;
    _ ← raise_if (negb (dec_ltb 0 price)) (ValidationError "greater_than");
    Ok [EReference {| ref_instrument := dr_instrument reference; ref_previous_close := price |}].

(** [_decode_feed_disconnect_packet] *)
Definition decode_feed_disconnect_packet (packet : Bytes) : result unit :=
  raise_if (negb (length packet =? header_size + feed_disconnect_payload_size)%nat) NormalizationError.

(** [_resolve_reference] *)
Fixpoint resolve_reference (cash_references : list DhanInstrumentReference)
    (exchange_segment_code security_id : Z) : result DhanInstrumentReference :=
  match cash_references with
  | [] => Raise UnknownProviderReferenceError
  | reference :: rest =>
      match dr_exchange_segment reference with
      | None => resolve_reference rest exchange_segment_code security_id
      | Some exchange_segment =>
          match int_of_text (dr_security_id reference) with
          | None => Raise NormalizationError
          | Some expected_security_id =>
              if bool_decide (dict_get exchange_segment EXCHANGE_SEGMENT_CODES = Some exchange_segment_code)
                 && (expected_security_id =? security_id)
              then Ok reference
              else resolve_reference rest exchange_segment_code security_id
          end
      end
  end.

(** [decode_standard_live_packet] *)
Definition decode_standard_live_packet (packet : Bytes) (cash_references : list DhanInstrumentReference)
    : result (list MarketEvent) :=
  _ ← raise_if (length packet <? header_size)%nat NormalizationError;
  let response_code := u8 packet 0 in
  let message_length := i16 packet 1 in
  let exchange_segment_code := u8 packet 3 in
  let security_id := i32 packet 4 in
  _ ← raise_if (negb (message_length =? Z.of_nat (length packet))
                || negb (bool_decide (exchange_segment_code ∈ map snd EXCHANGE_SEGMENT_CODES)))
    NormalizationError;
  if response_code =? FEED_DISCONNECT_RESPONSE_CODE then
    _ ← decode_feed_disconnect_packet packet; Raise DhanFeedDisconnectedError
  else
    _ ← raise_if (security_id <=? 0) NormalizationError;
    reference ← resolve_reference cash_references exchange_segment_code security_id;
    if response_code =? QUOTE_RESPONSE_CODE then decode_quote_packet packet reference
    else if response_code =? FULL_RESPONSE_CODE then decode_full_packet packet reference
    else if response_code =? PREVIOUS_CLOSE_RESPONSE_CODE then decode_previous_close_packet packet reference
    else Raise UnsupportedProviderRequestError.

(** * Decode counters *)

Inductive DecodeKind : Type := KDecoded | KNormalization | KUnsupportedCode | KUnknownReference.

Record DecodeCounters : Type := {
  dc_messages_total : Z;
  dc_framing_failures : Z;
  dc_frames_total : Z;
  dc_decoded_total : Z;
  dc_non_binary : Z;
  dc_prev_close_seen : Z;
  dc_prev_close_failed : Z;
  dc_by_rc : dict Z Z;
  dc_fail_by_rc : dict Z Z;
  dc_fail_by_len : dict (option Z) Z;
  dc_normalization : Z;
  dc_unsupported_code : Z;
  dc_unknown_reference : Z;
}.

(** [DhanLiveDecodeCounters()] *)
Definition no_decode_counts : DecodeCounters := {|
  dc_messages_total := 0; dc_framing_failures := 0; dc_frames_total := 0; dc_decoded_total := 0;
  dc_non_binary := 0; dc_prev_close_seen := 0; dc_prev_close_failed := 0; dc_by_rc := [];
  dc_fail_by_rc := []; dc_fail_by_len := []; dc_normalization := 0; dc_unsupported_code := 0;
  dc_unknown_reference := 0 |}.

(** [_DECODE_MAX_LENGTH_KEYS] *)
Definition DECODE_MAX_LENGTH_KEYS : nat := 32.

(** [_bump] *)
Definition bump {K} `{EqDecision K} (table : dict K Z) (key : K) : dict K Z :=
  dict_set key (default 0 (dict_get key table) + 1) table.

Definition record_message (c : DecodeCounters) : DecodeCounters :=
  {| dc_messages_total := dc_messages_total c + 1; dc_framing_failures := dc_framing_failures c;
     dc_frames_total := dc_frames_total c; dc_decoded_total := dc_decoded_total c;
     dc_non_binary := dc_non_binary c; dc_prev_close_seen := dc_prev_close_seen c;
     dc_prev_close_failed := dc_prev_close_failed c; dc_by_rc := dc_by_rc c;
     dc_fail_by_rc := dc_fail_by_rc c; dc_fail_by_len := dc_fail_by_len c;
     dc_normalization := dc_normalization c; dc_unsupported_code := dc_unsupported_code c;
     dc_unknown_reference := dc_unknown_reference c |}.

Definition record_framing_failure (c : DecodeCounters) : DecodeCounters :=
  {| dc_messages_total := dc_messages_total c; dc_framing_failures := dc_framing_failures c + 1;
     dc_frames_total := dc_frames_total c; dc_decoded_total := dc_decoded_total c;
     dc_non_binary := dc_non_binary c; dc_prev_close_seen := dc_prev_close_seen c;
     dc_prev_close_failed := dc_prev_close_failed c; dc_by_rc := dc_by_rc c;
     dc_fail_by_rc := dc_fail_by_rc c; dc_fail_by_len := dc_fail_by_len c;
     dc_normalization := dc_normalization c; dc_unsupported_code := dc_unsupported_code c;
     dc_unknown_reference := dc_unknown_reference c |}.

Definition record_non_binary (c : DecodeCounters) : DecodeCounters :=
  {| dc_messages_total := dc_messages_total c; dc_framing_failures := dc_framing_failures c;
     dc_frames_total := dc_frames_total c; dc_decoded_total := dc_decoded_total c;
     dc_non_binary := dc_non_binary c + 1; dc_prev_close_seen := dc_prev_close_seen c;
     dc_prev_close_failed := dc_prev_close_failed c; dc_by_rc := dc_by_rc c;
     dc_fail_by_rc := dc_fail_by_rc c; dc_fail_by_len := dc_fail_by_len c;
     dc_normalization := dc_normalization c; dc_unsupported_code := dc_unsupported_code c;
     dc_unknown_reference := dc_unknown_reference c |}.

(** [_peek]: the response code, when there is a header. *)
Definition peek_code (packet : Bytes) : option Z :=
  if (length packet <? header_size)%nat then None else Some (u8 packet 0).

(** [_record_length]; [None] is the label ["other"]. *)
Definition record_length (table : dict (option Z) Z) (n : Z) : dict (option Z) Z :=
  let label := Some n in
  if bool_decide (label ∉ table.*1) && (DECODE_MAX_LENGTH_KEYS <=? length table)%nat
  then bump table None else bump table label.

Definition kind_count (k kind : DecodeKind) (n : Z) : Z :=
  match k, kind with
  | KNormalization, KNormalization | KUnsupportedCode, KUnsupportedCode
  | KUnknownReference, KUnknownReference => n + 1
  | _, _ => n
  end.

Definition failed_kind (kind : DecodeKind) : bool :=
  match kind with KDecoded => false | _ => true end.

Definition bump_code (code : option Z) (table : dict Z Z) : dict Z Z :=
  match code with Some rc => bump table rc | None => table end.

(** [DhanLiveDecodeCounters.record] *)
Definition record_decode (packet : Bytes) (kind : DecodeKind) (c : DecodeCounters) : DecodeCounters :=
  let code := peek_code packet in
  let previous_close := bool_decide (code = Some PREVIOUS_CLOSE_RESPONSE_CODE) in
  let failed := failed_kind kind in
  {| dc_messages_total := dc_messages_total c; dc_framing_failures := dc_framing_failures c;
     dc_frames_total := dc_frames_total c + 1;
     dc_decoded_total := if failed then dc_decoded_total c else dc_decoded_total c + 1;
     dc_non_binary := dc_non_binary c;
     dc_prev_close_seen := if previous_close then dc_prev_close_seen c + 1 else dc_prev_close_seen c;
     dc_prev_close_failed :=
       if failed && previous_close then dc_prev_close_failed c + 1 else dc_prev_close_failed c;
     dc_by_rc := bump_code code (dc_by_rc c);
     dc_fail_by_rc := if failed then bump_code code (dc_fail_by_rc c) else dc_fail_by_rc c;
     dc_fail_by_len :=
       if failed then record_length (dc_fail_by_len c) (Z.of_nat (length packet)) else dc_fail_by_len c;
     dc_normalization := kind_count KNormalization kind (dc_normalization c);
     dc_unsupported_code := kind_count KUnsupportedCode kind (dc_unsupported_code c);
     dc_unknown_reference := kind_count KUnknownReference kind (dc_unknown_reference c) |}.

(** [LiveFeedDecodeDiagnostics.failures_total] of the snapshot; its other fields are the
    counters. *)
Definition failures_total (c : DecodeCounters) : Z :=
  dc_normalization c + dc_unsupported_code c + dc_unknown_reference c + dc_non_binary c.

(** * Raw trade times *)

Record RawLttSample : Type := {
  ls_security_id : Z;
  ls_exchange_segment_code : Z;
  ls_response_code : Z;
  ls_receive_utc : instant;
  ls_raw_ltt : Z;
  ls_decoded_utc : option instant;
  ls_delta : option timedelta;
  ls_future_validation : bool;
}.

Record RawLttDiagnosticConfig : Type := {
  lc_enabled : bool;
  lc_max_samples : Z;
  lc_min_interval : timedelta;
  lc_allowed_security_ids : list Z;
  lc_max_future_skew : timedelta;
}.

Record RawLttRecorder : Type := {
  lr_config : RawLttDiagnosticConfig;
  lr_emitted_by_key : dict (option Z) Z;
  lr_last_emit_by_key : dict (option Z) instant;
}.

(** [RawLttDiagnosticRecorder(config)] *)
Definition mk_ltt_recorder (config : RawLttDiagnosticConfig) : RawLttRecorder :=
  {| lr_config := config; lr_emitted_by_key := []; lr_last_emit_by_key := [] |}.

(** [emitted] *)
Definition ltt_emitted (self : RawLttRecorder) : Z := z_sum (lr_emitted_by_key self).*2.

Definition LTT_OFFSET : nat := 14.

(** [peek_ltt_fields]: response code, segment code, security id and trade time. *)
Definition peek_ltt_fields (packet : Bytes) : option (Z * Z * Z * Z) :=
  if (length packet <? LTT_OFFSET + 4)%nat then None
  else
    let response_code := u8 packet 0 in
    if (response_code =? QUOTE_RESPONSE_CODE) || (response_code =? FULL_RESPONSE_CODE)
    then Some (response_code, u8 packet 3, i32 packet 4, i32 packet LTT_OFFSET)
    else None.

(** [_decode_for_evidence] *)
Definition decode_for_evidence (raw_ltt : Z) : option instant :=
  if raw_ltt <=? 0 then None else Some (raw_ltt * second).

(** [_within_rate_window] *)
Definition within_rate_window (self : RawLttRecorder) (key : option Z) (receive_utc : instant) : bool :=
  match dict_get key (lr_last_emit_by_key self) with
  | None => false
  | Some last_emit => receive_utc - last_emit <? lc_min_interval (lr_config self)
  end.

(** [_build_sample] *)
Definition build_sample (self : RawLttRecorder) (response_code exchange_segment_code security_id raw_ltt : Z)
    (receive_utc : instant) : RawLttSample :=
  let decoded_utc := decode_for_evidence raw_ltt in
  let delta := (fun d => d - receive_utc) <$> decoded_utc in
  {| ls_security_id := security_id; ls_exchange_segment_code := exchange_segment_code;
     ls_response_code := response_code; ls_receive_utc := receive_utc; ls_raw_ltt := raw_ltt;
     ls_decoded_utc := decoded_utc; ls_delta := delta;
     ls_future_validation :=
       match delta with Some d => d <=? lc_max_future_skew (lr_config self) | None => false end |}.

(** [RawLttDiagnosticRecorder.observe] *)
Definition ltt_observe (self : RawLttRecorder) (packet : Bytes) (receive_utc : instant)
    : RawLttRecorder * option RawLttSample :=
  let config := lr_config self in
  if negb (lc_enabled config) then (self, None)
  else match peek_ltt_fields packet with
  | None => (self, None)
  | Some (response_code, exchange_segment_code, security_id, raw_ltt) =>
      let allowed := lc_allowed_security_ids config in
      if negb (bool_decide (allowed = [])) && negb (bool_decide (security_id ∈ allowed)) then (self, None)
      else
        let key := if bool_decide (allowed = []) then None else Some security_id in
        if lc_max_samples config <=? default 0 (dict_get key (lr_emitted_by_key self)) then (self, None)
        else if within_rate_window self key receive_utc then (self, None)
        else
          ({| lr_config := config;
              lr_emitted_by_key :=
                dict_set key (default 0 (dict_get key (lr_emitted_by_key self)) + 1) (lr_emitted_by_key self);
              lr_last_emit_by_key := dict_set key receive_utc (lr_last_emit_by_key self) |},
           Some (build_sample self response_code exchange_segment_code security_id raw_ltt receive_utc))
  end.

(** * Lemmas *)

(** ** Framing *)

(** A packet whose header states its own length. *)
Definition well_framed (p : Bytes) : Prop :=
  (header_size <= length p)%nat /\ i16 p 1 = Z.of_nat (length p).

(** A run of bytes that starts with no delimitable packet. *)
Definition undelimitable (rest : Bytes) : Prop :=
  rest <> [] /\ ((length rest < header_size)%nat \/ i16 rest 1 < Z.of_nat header_size
                 \/ Z.of_nat (length rest) < i16 rest 1).

Lemma field_app n p q offset : (offset + n <= length p)%nat -> field n (p ++ q) offset = field n p offset.
Proof.
  intros H. unfold field. f_equal. rewrite drop_app_le by lia. rewrite take_app_le; [done|].
  rewrite length_drop. lia.
Qed.

Lemma i16_app p q offset : (offset + 2 <= length p)%nat -> i16 (p ++ q) offset = i16 p offset.
Proof. intros H. unfold i16. by rewrite field_app. Qed.

Lemma field_take n m p offset : (offset + n <= m)%nat -> field n (take m p) offset = field n p offset.
Proof.
  intros H. unfold field. f_equal. rewrite skipn_firstn_comm, take_take. f_equal. lia.
Qed.

Lemma iter_packets_exact ps rest fuel : Forall well_framed ps -> rest = [] \/ undelimitable rest ->
  (length (concat ps ++ rest) < fuel)%nat ->
  iter_packets fuel (concat ps ++ rest) = (ps, negb (bool_decide (rest = []))).
Proof.
  intros Hps Hrest. revert fuel. induction Hps as [|p ps [Hl Hp] Hps IH]; intros fuel Hf.
  - cbn [concat app] in *. destruct fuel as [|fuel]; [lia|]. cbn [iter_packets].
    destruct Hrest as [->|(Hne & Hrest)]; [done|]. rewrite bool_decide_false by done.
    destruct (length rest =? 0)%nat eqn:E0; [apply Nat.eqb_eq in E0; by destruct rest|].
    destruct (length rest <? header_size)%nat eqn:E1; [done|].
    destruct (i16 rest 1 <? Z.of_nat header_size) eqn:E2; [done|].
    destruct (Z.of_nat (length rest) <? i16 rest 1) eqn:E3; [done|]. exfalso. apply Nat.ltb_ge in E1. zbool. lia.
  - destruct fuel as [|fuel]; [lia|]. cbn [concat] in *. rewrite <- app_assoc in *. cbn [iter_packets].
    unfold header_size in *. rewrite length_app in *.
    assert (Hi : i16 (p ++ concat ps ++ rest) 1 = Z.of_nat (length p)) by (rewrite i16_app by lia; exact Hp).
    rewrite Hi.
    destruct (length p + length (concat ps ++ rest) =? 0)%nat eqn:E0; [apply Nat.eqb_eq in E0; lia|].
    destruct (length p + length (concat ps ++ rest) <? 8)%nat eqn:E1; [apply Nat.ltb_lt in E1; lia|].
    destruct (Z.of_nat (length p) <? Z.of_nat 8) eqn:E2; [zbool; lia|].
    destruct (Z.of_nat (length p + length (concat ps ++ rest)) <? Z.of_nat (length p)) eqn:E3; [zbool; lia|].
    rewrite Nat2Z.id, drop_app_length, take_app_length, IH; [done|]. rewrite <- length_app. lia.
Qed.

Lemma iter_packets_splits fuel message : (length message < fuel)%nat ->
  exists rest, message = concat (fst (iter_packets fuel message)) ++ rest
  /\ Forall well_framed (fst (iter_packets fuel message))
  /\ (rest = [] \/ undelimitable rest).
Proof.
  revert message. induction fuel as [|fuel IH]; intros message Hf; [lia|]. cbn [iter_packets].
  destruct (length message =? 0)%nat eqn:E0.
  { apply Nat.eqb_eq in E0. destruct message; [|done]. exists []. by repeat constructor. }
  assert (Hne : message <> []) by (intros ->; done).
  destruct (length message <? header_size)%nat eqn:E1.
  { exists message. split_and!; [done|constructor|right]. apply Nat.ltb_lt in E1. split; [done|by left]. }
  destruct (i16 message 1 <? Z.of_nat header_size) eqn:E2.
  { exists message. split_and!; [done|constructor|right]. zbool. split; [done|right; by left]. }
  destruct (Z.of_nat (length message) <? i16 message 1) eqn:E3.
  { exists message. split_and!; [done|constructor|right]. zbool. split; [done|right; by right]. }
  unfold header_size in *. zbool. set (n := Z.to_nat (i16 message 1)).
  destruct (IH (drop n message)) as (rest & H1 & H2 & H3); [rewrite length_drop; lia|].
  destruct (iter_packets fuel (drop n message)) as [packets failed]. cbn [fst] in *.
  exists rest. split_and!; [|constructor; [|done]|done].
  - cbn [concat]. rewrite <- app_assoc, <- H1. by rewrite take_drop.
  - unfold well_framed, header_size. rewrite length_take_le by lia. split; [lia|].
    unfold i16. rewrite field_take by lia. change (i16 message 1 = Z.of_nat n). lia.
Qed.

(** [C27] Framing is exact: a message is the packets it yields followed by a remainder that is
    empty or cannot be delimited, the walk fails exactly when something remains, and any
    stack of well-framed packets, whatever undelimitable bytes follow it, is recovered
    packet by packet. *)
Theorem framing_exact message :
  let '(packets, failed) := iter_standard_live_packets message in
  (exists rest, message = concat packets ++ rest /\ Forall well_framed packets
     /\ (if failed then undelimitable rest else rest = []))
  /\ forall ps rest, Forall well_framed ps -> rest = [] \/ undelimitable rest ->
       message = concat ps ++ rest -> packets = ps /\ failed = negb (bool_decide (rest = [])).
Proof.
  unfold iter_standard_live_packets.
  destruct (iter_packets_splits (S (length message)) message) as (rest & H1 & H2 & H3); [lia|].
  pose proof (iter_packets_exact _ rest (S (length message)) H2 H3) as Hx. rewrite <- H1 in Hx.
  destruct (iter_packets (S (length message)) message) as [packets failed] eqn:E. cbn [fst] in *. split.
  - exists rest. split_and!; [done|done|]. injection (Hx ltac:(lia)) as ->.
    destruct H3 as [->|H3]; [done|]. rewrite bool_decide_false by apply H3. done.
  - intros ps rest' Hps Hrest ->. rewrite iter_packets_exact in E by (done || lia). by injection E as <- <-.
Qed.

(** ** The wire format *)

(** Little-endian bytes of a number, what [struct.pack] writes for an integer in range. *)
Fixpoint le_bytes (n : nat) (v : Z) : Bytes :=
  match n with O => [] | S n => v mod 256 :: le_bytes n (v / 256) end.

Lemma le_value_bytes n v : le_value (le_bytes n v) = v mod 256 ^ Z.of_nat n.
Proof.
  revert v. induction n as [|n IH]; intros v; cbn [le_bytes le_value]; [by rewrite Z.mod_1_r|].
  rewrite IH, Nat2Z.inj_succ, Z.pow_succ_r, Z.rem_mul_r by lia. lia.
Qed.

Lemma signed_bytes n v : (0 < n)%nat ->
  - 2 ^ (8 * Z.of_nat n - 1) <= v < 2 ^ (8 * Z.of_nat n - 1) -> signed n (le_value (le_bytes n v)) = v.
Proof.
  intros Hn Hv. rewrite le_value_bytes. change 256 with (2 ^ 8). rewrite <- Z.pow_mul_r by lia. unfold signed.
  assert (Hp : 2 ^ (8 * Z.of_nat n) = 2 * 2 ^ (8 * Z.of_nat n - 1))
    by (rewrite <- Z.pow_succ_r by lia; f_equal; lia).
  destruct (Z_lt_le_dec v 0) as [Hneg|Hpos].
  - rewrite <- (Z.mod_unique v (2 ^ (8 * Z.of_nat n)) (-1) (v + 2 ^ (8 * Z.of_nat n))) by lia.
    destruct (Z.ltb_spec (v + 2 ^ (8 * Z.of_nat n)) (2 ^ (8 * Z.of_nat n - 1))); lia.
  - rewrite Z.mod_small by lia. destruct (Z.ltb_spec v (2 ^ (8 * Z.of_nat n - 1))); lia.
Qed.

(** The fields of a quote packet, prices as the bits of their floats. *)
Record QuoteWire : Type := {
  qw_segment : Z; qw_security_id : Z; qw_last_price : Z; qw_quantity : Z; qw_time : Z; qw_average : Z;
  qw_volume : Z; qw_sell : Z; qw_buy : Z; qw_open : Z; qw_close : Z; qw_high : Z; qw_low : Z;
}.

(** The documented layout of a quote packet. *)
Definition quote_packet (w : QuoteWire) : Bytes :=
  [QUOTE_RESPONSE_CODE] ++ le_bytes 2 50 ++ [qw_segment w] ++ le_bytes 4 (qw_security_id w)
  ++ le_bytes 4 (qw_last_price w) ++ le_bytes 2 (qw_quantity w) ++ le_bytes 4 (qw_time w)
  ++ le_bytes 4 (qw_average w) ++ le_bytes 4 (qw_volume w) ++ le_bytes 4 (qw_sell w) ++ le_bytes 4 (qw_buy w)
  ++ le_bytes 4 (qw_open w) ++ le_bytes 4 (qw_close w) ++ le_bytes 4 (qw_high w) ++ le_bytes 4 (qw_low w).

Definition int32 (v : Z) : Prop := - 2147483648 <= v <= 2147483647.
Definition uint32 (v : Z) : Prop := 0 <= v < 4294967296.

Record quote_wire_ok (w : QuoteWire) : Prop := {
  qwo_segment : qw_segment w ∈ map snd EXCHANGE_SEGMENT_CODES;
  qwo_security_id : 0 < qw_security_id w <= 2147483647;
  qwo_quantity : 0 <= qw_quantity w <= 32767;
  qwo_time : 0 < qw_time w <= 2147483647;
  qwo_counts : Forall (fun v => 0 <= v <= 2147483647) [qw_volume w; qw_sell w; qw_buy w];
  qwo_bits : Forall uint32 [qw_last_price w; qw_average w; qw_open w; qw_close w; qw_high w; qw_low w];
  qwo_floats : Forall (fun b => exists q, float32_of_bits b = FFinite q /\ (dec 0 0 <= q)%Qc)
                 [qw_average w; qw_open w; qw_close w; qw_high w; qw_low w];
}.

Lemma f32_bits b : uint32 b -> float32_of_bits (le_value (le_bytes 4 b)) = float32_of_bits b.
Proof. intros H. unfold uint32 in H. rewrite le_value_bytes, Z.mod_small by (cbn; lia). done. Qed.

Lemma i32_bits v : int32 v -> signed 4 (le_value (le_bytes 4 v)) = v.
Proof. intros H. unfold int32 in H. apply signed_bytes; cbn; lia. Qed.

Lemma finite_price q : (dec 0 0 < q)%Qc -> exists p, price_of (FFinite q) = Ok p /\ (0 < p)%Qc.
Proof. intros H. eexists. split; [reflexivity|]. apply shortest_from_pos; [lia|exact H]. Qed.

(** What a quote packet decodes to. *)
Lemma quote_packet_decoded w refs reference q : quote_wire_ok w ->
  float32_of_bits (qw_last_price w) = FFinite q -> (dec 0 0 < q)%Qc ->
  resolve_reference refs (qw_segment w) (qw_security_id w) = Ok reference ->
  exists price, float_decimal (FFinite q) = DFinite price
  /\ decode_standard_live_packet (quote_packet w) refs = Ok [ETick {|
       tick_instrument := dr_instrument reference; tick_event_timestamp := qw_time w * second;
       last_price := price; tick_traded_quantity := Some (qw_quantity w);
       session_cumulative_volume := Some (qw_volume w);
       tick_session_ohlc := session_ohlc (float32_of_bits (qw_open w)) (float32_of_bits (qw_high w))
                              (float32_of_bits (qw_low w)) (float32_of_bits (qw_close w)) |}].
Proof.
  intros [Hseg Hsid Hqty Htime Hcounts Hbits Hfloats] Hq Hpos Href.
  destruct (finite_price q Hpos) as (price & Hprice & Hpp). exists price. split.
  { unfold price_of in Hprice. destruct (float_decimal (FFinite q)) eqn:E; try done. by injection Hprice as ->. }
  repeat (rewrite Forall_cons in Hcounts; destruct Hcounts as [? Hcounts]).
  repeat (rewrite Forall_cons in Hbits; destruct Hbits as [? Hbits]).
  assert (Hlen : length (quote_packet w) = 50%nat) by reflexivity.
  assert (F0 : u8 (quote_packet w) 0 = 4) by reflexivity.
  assert (F1 : i16 (quote_packet w) 1 = 50) by reflexivity.
  assert (F3 : u8 (quote_packet w) 3 = qw_segment w)
    by (change (qw_segment w + 256 * 0 = qw_segment w); lia).
  assert (F4 : i32 (quote_packet w) 4 = qw_security_id w) by (apply i32_bits; unfold int32; lia).
  assert (F8 : f32 (quote_packet w) 8 = FFinite q) by (rewrite <- Hq; by apply f32_bits).
  assert (F12 : i16 (quote_packet w) 12 = qw_quantity w) by (apply (signed_bytes 2); cbn; lia).
  assert (F14 : i32 (quote_packet w) 14 = qw_time w) by (apply i32_bits; unfold int32; lia).
  assert (F18 : f32 (quote_packet w) 18 = float32_of_bits (qw_average w)) by by apply f32_bits.
  assert (F22 : i32 (quote_packet w) 22 = qw_volume w) by (apply i32_bits; unfold int32; lia).
  assert (F26 : i32 (quote_packet w) 26 = qw_sell w) by (apply i32_bits; unfold int32; lia).
  assert (F30 : i32 (quote_packet w) 30 = qw_buy w) by (apply i32_bits; unfold int32; lia).
  assert (F34 : f32 (quote_packet w) 34 = float32_of_bits (qw_open w)) by by apply f32_bits.
  assert (F38 : f32 (quote_packet w) 38 = float32_of_bits (qw_close w)) by by apply f32_bits.
  assert (F42 : f32 (quote_packet w) 42 = float32_of_bits (qw_high w)) by by apply f32_bits.
  assert (F46 : f32 (quote_packet w) 46 = float32_of_bits (qw_low w)) by by apply f32_bits.
  unfold decode_standard_live_packet. rewrite Hlen, F0, F1, F3, F4.
  rewrite (bool_decide_true _ Hseg). cbn [raise_if negb orb mbind result_bind Nat.ltb Nat.leb header_size].
  change (50 =? Z.of_nat 50) with true. cbn [raise_if negb orb mbind result_bind].
  change (4 =? FEED_DISCONNECT_RESPONSE_CODE) with false. cbn [raise_if mbind result_bind].
  destruct (qw_security_id w <=? 0) eqn:E; [zbool; lia|]. cbn [raise_if mbind result_bind]. rewrite Href.
  cbn [mbind result_bind]. change (4 =? QUOTE_RESPONSE_CODE) with true. cbv iota.
  unfold decode_quote_packet. rewrite Hlen. change (negb (50 =? header_size + quote_payload_size)%nat) with false.
  cbn [raise_if mbind result_bind]. cbv zeta. rewrite F8, F12, F14, F18, F22, F26, F30, F34, F38, F42, F46.
  assert (Hrp : require_positive_finite (FFinite q) = Ok tt)
    by (unfold require_positive_finite; cbn; by rewrite (proj2 (dec_ltb_lt _ _) Hpos)).
  assert (Hri : require_nonnegative_integral [qw_quantity w; qw_volume w; qw_sell w; qw_buy w] = Ok tt).
  { unfold require_nonnegative_integral. cbn. rewrite !(proj2 (Z.ltb_ge _ _)) by lia. done. }
  assert (Hrf : require_nonnegative_finite (map float32_of_bits
    [qw_average w; qw_open w; qw_close w; qw_high w; qw_low w]) = Ok tt).
  { unfold require_nonnegative_finite. destruct (py_any _ _) eqn:Ea; [|done]. exfalso.
    apply existsb_exists in Ea as (x & (b & <- & Hb)%in_map_iff & Hx). rewrite Forall_forall in Hfloats.
    destruct (Hfloats b) as (v & Hfl & Hv); [by apply list_elem_of_In|]. cbv beta in Hx. rewrite Hfl in Hx.
    cbn in Hx. by rewrite (proj2 (dec_leb_le _ _) Hv) in Hx. }
  cbn [map] in Hrf. rewrite Hrp, Hri, Hrf. unfold epoch_timestamp. rewrite (proj2 (Z.leb_gt _ _)) by lia.
  cbn [raise_if mbind result_bind]. unfold decoded_tick. rewrite Hprice. cbn [mbind result_bind].
  unfold mk_tick. cbn [require_aware_timestamp mbind result_bind]. rewrite (proj2 (dec_ltb_lt _ _) Hpp).
  unfold opt_nonneg. rewrite !(proj2 (Z.leb_le _ _)) by lia. reflexivity.
Qed.

(** Four day prices make a session when they are in order, and none otherwise. *)
Lemma session_ohlc_decided o h l c : let day := {| pso_open_price := o; pso_high_price := h; pso_low_price := l; pso_close_price := c |} in
  ohlc_valid day /\ mk_provider_session_ohlc o h l c = Ok day
  \/ ~ ohlc_valid day /\ exists e, mk_provider_session_ohlc o h l c = Raise e.
Proof.
  cbv zeta. destruct (mk_provider_session_ohlc o h l c) as [a|e] eqn:E.
  - left. by apply mk_provider_session_ohlc_ok in E as [Hv ->].
  - right. split; [|by eexists]. intros [H1 H2 H3 H4 H5]. cbn in *.
    assert (Hl : (0 < o)%Qc /\ (0 < h)%Qc /\ (0 < c)%Qc).
    { split_and!; eapply Qclt_le_trans; try exact H1; [exact H2|eapply Qcle_trans; eassumption|exact H4]. }
    destruct Hl as (Ho & Hh & Hc). unfold mk_provider_session_ohlc, validate_ohlc_structure in E.
    cbn [pso_open_price pso_high_price pso_low_price pso_close_price] in E.
    rewrite (proj2 (dec_ltb_lt _ _) Ho), (proj2 (dec_ltb_lt _ _) Hh), (proj2 (dec_ltb_lt _ _) H1),
      (proj2 (dec_ltb_lt _ _) Hc) in E. cbn [negb andb raise_if mbind result_bind] in E.
    assert (Hhl : dec_ltb h l = false).
    { apply not_true_iff_false. rewrite dec_ltb_lt. apply Qcle_not_lt. by eapply Qcle_trans. }
    rewrite Hhl, !(proj2 (dec_leb_le _ _)) in E by done. done.
Qed.

Lemma session_ohlc_finite o h l c qo qh ql qc :
  float_decimal qo = DFinite o -> float_decimal qh = DFinite h -> float_decimal ql = DFinite l -> float_decimal qc = DFinite c ->
  let day := {| pso_open_price := o; pso_high_price := h; pso_low_price := l; pso_close_price := c |} in
  ohlc_valid day /\ session_ohlc qo qh ql qc = Some day \/ ~ ohlc_valid day /\ session_ohlc qo qh ql qc = None.
Proof.
  intros Ho Hh Hl Hc. unfold session_ohlc, price_of. rewrite Ho, Hh, Hl, Hc. cbn [mbind result_bind].
  by destruct (session_ohlc_decided o h l c) as [[Hv ->]|[Hv [e ->]]]; [left|right].
Qed.

(** [C28] Decoding inverts the wire format: every integer field of a quote packet comes back,
    every price is the decimal of its float, and the instrument is the one the header
    refers to.  The four day prices land in their own places when they are positive and the
    open and the close lie between the low and the high; otherwise the tick has none. *)
Theorem quote_packet_roundtrip w refs reference q : quote_wire_ok w ->
  float32_of_bits (qw_last_price w) = FFinite q -> (dec 0 0 < q)%Qc ->
  resolve_reference refs (qw_segment w) (qw_security_id w) = Ok reference ->
  exists price o h l c ohlc, float_decimal (FFinite q) = DFinite price
  /\ float_decimal (float32_of_bits (qw_open w)) = DFinite o /\ float_decimal (float32_of_bits (qw_high w)) = DFinite h
  /\ float_decimal (float32_of_bits (qw_low w)) = DFinite l /\ float_decimal (float32_of_bits (qw_close w)) = DFinite c
  /\ (let day := {| pso_open_price := o; pso_high_price := h; pso_low_price := l; pso_close_price := c |} in
      ohlc_valid day /\ ohlc = Some day \/ ~ ohlc_valid day /\ ohlc = None)
  /\ decode_standard_live_packet (quote_packet w) refs = Ok [ETick {|
       tick_instrument := dr_instrument reference; tick_event_timestamp := qw_time w * second;
       last_price := price; tick_traded_quantity := Some (qw_quantity w);
       session_cumulative_volume := Some (qw_volume w); tick_session_ohlc := ohlc |}].
Proof.
  intros Hok Hq Hpos Href. destruct (quote_packet_decoded w refs reference q Hok Hq Hpos Href) as (price & Hp & Hd).
  assert (Hf : forall b, b ∈ [qw_average w; qw_open w; qw_close w; qw_high w; qw_low w] ->
    exists d, float_decimal (float32_of_bits b) = DFinite d).
  { pose proof (qwo_floats w Hok) as Hx. rewrite Forall_forall in Hx. intros b Hb. destruct (Hx b Hb) as (x & -> & _). by eexists. }
  destruct (Hf (qw_open w)) as [o Ho]; [by do 1 right; left|]. destruct (Hf (qw_high w)) as [h Hh]; [by do 3 right; left|].
  destruct (Hf (qw_low w)) as [l Hl]; [by do 4 right; left|]. destruct (Hf (qw_close w)) as [c Hc]; [by do 2 right; left|].
  eexists price, o, h, l, c, _. split_and!; [exact Hp|exact Ho|exact Hh|exact Hl|exact Hc| |exact Hd].
  by apply session_ohlc_finite.
Qed.

(** ** What decoding may do *)

Definition value_error (e : exn) : Prop :=
  match e with ValueError _ | ValidationError _ | OverflowError => True | _ => False end.

Definition decode_error (e : exn) : Prop :=
  match e with
  | NormalizationError | DhanFeedDisconnectedError | UnknownProviderReferenceError
  | UnsupportedProviderRequestError => True
  | _ => False
  end.

Lemma yields_as_normalization {A} (Q : A -> Prop) r :
  yields value_error Q r -> yields (eq NormalizationError) Q (as_normalization r).
Proof. by destruct r as [a|[]]. Qed.

Lemma yields_positive_finite x :
  yields value_error (fun _ => exists q, x = FFinite q /\ (dec 0 0 < q)%Qc) (require_positive_finite x).
Proof.
  apply yields_raise_if; [done|]. intros Hx. zbool. destruct x as [q| |]; [|done..].
  exists q. split; [done|]. by apply dec_ltb_lt.
Qed.

Lemma yields_nonneg_integral xs :
  yields value_error (fun _ => Forall (fun v => 0 <= v) xs) (require_nonnegative_integral xs).
Proof.
  apply yields_raise_if; [done|]. intros Hx. apply Forall_forall. intros v Hv.
  destruct (Z.ltb_spec v 0) as [Hn|]; [|done]. exfalso. apply not_true_iff_false in Hx. apply Hx.
  apply existsb_exists. exists v. rewrite <- list_elem_of_In. split; [done|lia].
Qed.

Lemma yields_price x : yields value_error (fun d => float_decimal x = DFinite d) (price_of x).
Proof. unfold price_of. by destruct (float_decimal x). Qed.

Lemma session_ohlc_valid o h l c s : session_ohlc o h l c = Some s -> ohlc_valid s.
Proof.
  unfold session_ohlc. destruct (_ ← price_of o; _) as [a|] eqn:E; [|done]. intros [= <-]. guards.
  by eapply mk_provider_session_ohlc_ok.
Qed.

Definition level_ok (l : DepthLevel) : Prop := (0 < dl_price l)%Qc /\ 0 <= dl_quantity l.

(** The trade time is the second at offset 14. *)
Definition tick_decoded (packet : Bytes) (i : Instrument) (t : Tick) : Prop :=
  tick_instrument t = i /\ (0 < last_price t)%Qc
  /\ 0 < tick_event_timestamp t /\ tick_event_timestamp t = i32 packet 14 * second
  /\ (forall v, session_cumulative_volume t = Some v -> 0 <= v)
  /\ (forall s, tick_session_ohlc t = Some s -> ohlc_valid s).

(** The quote is the top of the book, and the book has five levels a side. *)
Definition book_decoded (i : Instrument) (t : Tick) (q : Quote) (d : DepthSnapshot) : Prop :=
  quote_instrument q = i /\ ds_instrument d = i
  /\ quote_event_timestamp q = tick_event_timestamp t /\ ds_event_timestamp d = tick_event_timestamp t
  /\ (bid_price q <= ask_price q)%Qc
  /\ length (ds_bids d) = 5%nat /\ length (ds_asks d) = 5%nat
  /\ Forall level_ok (ds_bids d) /\ Forall level_ok (ds_asks d)
  /\ hd_error (ds_bids d) = Some {| dl_price := bid_price q; dl_quantity := bid_quantity q |}
  /\ hd_error (ds_asks d) = Some {| dl_price := ask_price q; dl_quantity := ask_quantity q |}.

(** The events a response code may stand for. *)
Definition decoded_shape (packet : Bytes) (i : Instrument) (events : list MarketEvent) : Prop :=
  let code := u8 packet 0 in
  match events with
  | [] => code = PREVIOUS_CLOSE_RESPONSE_CODE
  | [EReference r] => code = PREVIOUS_CLOSE_RESPONSE_CODE /\ ref_instrument r = i /\ (0 < ref_previous_close r)%Qc
  | [ETick t] => code = QUOTE_RESPONSE_CODE /\ tick_decoded packet i t
  | [ETick t; EQuote q; EDepth d] => code = FULL_RESPONSE_CODE /\ tick_decoded packet i t /\ book_decoded i t q d
  | _ => False
  end.

Lemma yields_epoch v : yields value_error (fun at_ => 0 < at_ /\ at_ = v * second) (epoch_timestamp v).
Proof. unfold epoch_timestamp. apply yields_guard; [done|]. intros H. zbool. cbn. unfold second. lia. Qed.

Lemma yields_tick packet i at_ last quantity volume o h l c : 0 < at_ /\ at_ = i32 packet 14 * second ->
  yields value_error (fun t => tick_decoded packet i t /\ tick_event_timestamp t = at_)
    (decoded_tick i at_ last quantity volume (session_ohlc o h l c)).
Proof.
  intros Hat. unfold decoded_tick. eapply yields_bind; [apply yields_price|]. intros price _.
  unfold mk_tick. cbn [require_aware_timestamp mbind result_bind].
  apply yields_guard; [done|]. intros Hp. apply yields_guard; [done|]. intros Hv. zbool.
  split; [|done]. unfold tick_decoded. cbn. split_and!; [done|by apply dec_ltb_lt|apply Hat|apply Hat| |].
  - intros v [= ->]. cbn in *. zbool. lia.
  - apply session_ohlc_valid.
Qed.

Lemma yields_level packet offset :
  yields value_error (fun l => level_ok l.1 /\ level_ok l.2) (decode_depth_level packet offset).
Proof.
  unfold decode_depth_level. cbv zeta. eapply yields_bind; [apply yields_nonneg_integral|]. intros [] Hn. cbv beta in Hn.
  eapply yields_bind; [apply yields_positive_finite|]. intros _ _.
  eapply yields_bind; [apply yields_positive_finite|]. intros _ _.
  assert (Hl : forall p q, yields value_error level_ok (mk_depth_level p q)).
  { intros p q. unfold mk_depth_level. apply yields_guard; [done|]. intros Hp. apply yields_guard; [done|].
    intros Hq. zbool. split; [by apply dec_ltb_lt|cbn; lia]. }
  eapply yields_bind; [apply yields_price|]. intros bid _. eapply yields_bind; [apply Hl|]. intros b Hb.
  eapply yields_bind; [apply yields_price|]. intros ask _. eapply yields_bind; [apply Hl|]. intros a Ha. done.
Qed.

Lemma yields_quote packet reference : u8 packet 0 = QUOTE_RESPONSE_CODE ->
  yields (eq NormalizationError) (decoded_shape packet (dr_instrument reference)) (decode_quote_packet packet reference).
Proof.
  intros Hc. unfold decode_quote_packet. apply yields_guard; [done|]. intros _. apply yields_as_normalization. cbv zeta.
  eapply yields_bind; [apply yields_positive_finite|]. intros _ _.
  eapply yields_bind; [apply yields_nonneg_integral|]. intros _ _.
  apply yields_guard; [done|]. intros _. eapply yields_bind; [apply yields_epoch|]. intros at_ Hat.
  eapply yields_bind; [apply (yields_tick packet), Hat|]. intros t [Ht _]. by split.
Qed.

Lemma list_index_head {A} (x : A) l : list_index (x :: l) 0 = Ok x.
Proof. reflexivity. Qed.

Lemma yields_mk_quote i at_ bid ask bq aq :
  yields value_error (fun q => q = Build_Quote i at_ bid ask bq aq /\ (bid <= ask)%Qc)
    (mk_quote i (Aware at_) bid ask bq aq).
Proof.
  unfold mk_quote. cbn [require_aware_timestamp]. rewrite bind_value.
  apply yields_guard; [done|]. intros _. apply yields_guard; [done|]. intros _.
  apply yields_guard; [done|]. intros Hc. split; [done|].
  apply Qcnot_lt_le. intros Hx. apply dec_ltb_lt in Hx. by rewrite Hx in Hc.
Qed.

Lemma yields_mk_depth i at_ bids asks :
  yields value_error (fun d => d = Build_DepthSnapshot i at_ bids asks) (mk_depth_snapshot i (Aware at_) bids asks).
Proof. unfold mk_depth_snapshot. cbn [require_aware_timestamp]. rewrite bind_value. by apply yields_guard. Qed.

Lemma yields_full packet reference : u8 packet 0 = FULL_RESPONSE_CODE ->
  yields (eq NormalizationError) (decoded_shape packet (dr_instrument reference)) (decode_full_packet packet reference).
Proof.
  intros Hc. unfold decode_full_packet. apply yields_guard; [done|]. intros _. apply yields_as_normalization. cbv zeta.
  eapply yields_bind; [apply yields_positive_finite|]. intros _ _.
  eapply yields_bind; [apply yields_nonneg_integral|]. intros _ _.
  apply yields_guard; [done|]. intros _. eapply yields_bind; [apply yields_epoch|]. intros at_ Hat.
  eapply yields_bind; [apply (yields_traverse _ (fun _ l => level_ok l.1 /\ level_ok l.2)); intros; apply yields_level|].
  intros levels Hl. assert (Hlen : length levels = 5%nat) by (by apply Forall2_length in Hl).
  eapply yields_bind; [apply (yields_tick packet), Hat|]. intros t [Ht Hte].
  destruct levels as [|[[bp bq] [ap aq]] levels]; [done|]. cbn [map fst snd].
  assert (Hf : Forall level_ok (map fst levels) /\ Forall level_ok (map snd levels)).
  { inversion Hl as [|? ? ? ? _ Hl']; subst. clear -Hl'. induction Hl' as [|k l ks ls [? ?] _ [? ?]]; cbn; split; by constructor. }
  inversion Hl as [|? ? ? ? [Hb Ha] _]; subst. cbn in Hb, Ha, Hlen. destruct Hf as [Hfb Hfa].
  rewrite !list_index_head, !bind_value.
  eapply yields_bind; [apply yields_mk_quote|]. intros q [-> Hcross].
  eapply yields_bind; [apply yields_mk_depth|]. intros d ->.
  split; [done|]. split; [done|]. unfold book_decoded. cbn. split_and!; try done.
  - rewrite length_map. lia.
  - rewrite length_map. lia.
  - by constructor.
  - by constructor.
Qed.

Lemma yields_previous_close packet reference : u8 packet 0 = PREVIOUS_CLOSE_RESPONSE_CODE ->
  yields (eq NormalizationError) (decoded_shape packet (dr_instrument reference))
    (decode_previous_close_packet packet reference).
Proof.
  intros Hc. unfold decode_previous_close_packet. apply yields_guard; [done|]. intros _. cbv zeta.
  eapply yields_bind.
  { apply yields_as_normalization. apply yields_guard; [done|]. intros _. apply yields_nonneg_integral. }
  intros _ _. destruct (negb _) eqn:E; [done|]. zbool. destruct (f32 packet 8) as [q| |]; [|done..].
  destruct (finite_price q) as (p & Hp & Hpos); [by apply dec_ltb_lt|]. rewrite Hp. cbn [mbind result_bind].
  rewrite (proj2 (dec_ltb_lt _ _) Hpos). cbn. done.
Qed.

(** The reference a header names. *)
Definition refers (reference : DhanInstrumentReference) (exchange_segment_code security_id : Z) : Prop :=
  int_of_text (dr_security_id reference) = Some security_id
  /\ exists segment, dr_exchange_segment reference = Some segment
       /\ dict_get segment EXCHANGE_SEGMENT_CODES = Some exchange_segment_code.

Definition lookup_error (e : exn) : Prop := e = NormalizationError \/ e = UnknownProviderReferenceError.

Lemma yields_resolve refs code security_id :
  yields lookup_error (fun reference => reference ∈ refs /\ refers reference code security_id)
    (resolve_reference refs code security_id).
Proof.
  induction refs as [|reference refs IH]; [by right|]. cbn [resolve_reference].
  assert (Hr : yields lookup_error (fun r => r ∈ reference :: refs /\ refers r code security_id)
                 (resolve_reference refs code security_id)).
  { eapply yields_mono; [exact IH|done|]. intros r [? ?]. split; [by right|done]. }
  destruct (dr_exchange_segment reference) as [segment|] eqn:Es; [|done].
  destruct (int_of_text _) as [n|] eqn:En; [|by left]. destruct (_ && _) eqn:E; [|done]. zbool.
  split; [left|]. split; [by subst|]. by exists segment.
Qed.

Definition decoded_by (packet : Bytes) (refs : list DhanInstrumentReference) (events : list MarketEvent) : Prop :=
  exists reference, reference ∈ refs /\ refers reference (u8 packet 3) (i32 packet 4)
    /\ well_framed packet /\ decoded_shape packet (dr_instrument reference) events.

Definition disconnect_packet (packet : Bytes) : Prop :=
  well_framed packet /\ length packet = 10%nat /\ u8 packet 0 = FEED_DISCONNECT_RESPONSE_CODE
  /\ u8 packet 3 ∈ map snd EXCHANGE_SEGMENT_CODES.

Definition decode_fails (packet : Bytes) (e : exn) : Prop :=
  e = NormalizationError \/ e = UnknownProviderReferenceError \/ e = UnsupportedProviderRequestError
  \/ (e = DhanFeedDisconnectedError /\ disconnect_packet packet).

Lemma yields_decode packet refs :
  yields (decode_fails packet)
    (decoded_by packet refs) (decode_standard_live_packet packet refs).
Proof.
  unfold decode_standard_live_packet. apply yields_guard; [by left|]. intros Hh. cbv zeta.
  apply yields_guard; [by left|]. intros [Hm Hs]%orb_false_iff. zbool. apply Nat.ltb_ge in Hh.
  assert (Hwf : well_framed packet) by by split.
  destruct (u8 packet 0 =? FEED_DISCONNECT_RESPONSE_CODE) eqn:E0.
  { apply yields_guard; [by left|]. intros Hl. zbool. apply Nat.eqb_eq in Hl. right; right; right. by split_and!. }
  apply yields_guard; [by left|]. intros _. eapply yields_bind.
  { eapply yields_mono; [apply yields_resolve|intros e [->| ->]; unfold decode_fails; auto|]. intros reference H. exact H. }
  intros reference [Hin Href].
  assert (Hw : forall r, yields (eq NormalizationError) (decoded_shape packet (dr_instrument reference)) r ->
    yields (decode_fails packet)
      (decoded_by packet refs) r).
  { intros r Hr. eapply yields_mono; [exact Hr|intros e <-; by left|]. intros events He. exists reference. eauto. }
  destruct (u8 packet 0 =? QUOTE_RESPONSE_CODE) eqn:E1; [zbool; by apply Hw, yields_quote|].
  destruct (u8 packet 0 =? FULL_RESPONSE_CODE) eqn:E2; [zbool; by apply Hw, yields_full|].
  destruct (u8 packet 0 =? PREVIOUS_CLOSE_RESPONSE_CODE) eqn:E3; [zbool; by apply Hw, yields_previous_close|].
  right; right; by left.
Qed.

(** The disconnect error is raised exactly for a disconnect packet. *)
Lemma disconnect_decoded packet refs :
  decode_standard_live_packet packet refs = Raise DhanFeedDisconnectedError <-> disconnect_packet packet.
Proof.
  pose proof (yields_decode packet refs) as Hy. split.
  - intros E. rewrite E in Hy. by destruct Hy as [?|[?|[?|[_ ?]]]].
  - intros ([Hh Hm] & Hl & Hc & Hs). unfold decode_standard_live_packet.
    rewrite (proj2 (Nat.ltb_ge _ _) Hh). cbn [raise_if mbind result_bind]. cbv zeta. rewrite Hm, Z.eqb_refl, Hc.
    rewrite (bool_decide_true _ Hs). cbn. unfold decode_feed_disconnect_packet. by rewrite Hl.
Qed.

(** [C29] Decoding a packet of any bytes yields well-formed events of a configured reference the
    header names, of the shape its response code stands for, or raises one of four errors;
    it raises the disconnect exactly for the ten-byte disconnect packet of a known segment. *)
Theorem decode_sound packet refs :
  yields decode_error
    (decoded_by packet refs) (decode_standard_live_packet packet refs)
  /\ (decode_standard_live_packet packet refs = Raise DhanFeedDisconnectedError <->
       disconnect_packet packet).
Proof.
  split; [|apply disconnect_decoded].
  eapply yields_mono; [exact (yields_decode packet refs)| |done]. by intros e [->|[->|[->|[-> _]]]].
Qed.

(** ** Counters *)

Inductive CountOp : Type :=
| CMessage
| CFramingFailure
| CNonBinary
| CFrame (packet : Bytes) (kind : DecodeKind).

Definition apply_count (c : DecodeCounters) (op : CountOp) : DecodeCounters :=
  match op with
  | CMessage => record_message c
  | CFramingFailure => record_framing_failure c
  | CNonBinary => record_non_binary c
  | CFrame packet kind => record_decode packet kind c
  end.

Definition count_ops (P : CountOp -> bool) (ops : list CountOp) : Z := Z.of_nat (length (List.filter P ops)).
Definition is_frame (P : Bytes -> DecodeKind -> bool) (op : CountOp) : bool :=
  match op with CFrame packet kind => P packet kind | _ => false end.
Definition code_is (rc : Z) (packet : Bytes) : bool := bool_decide (peek_code packet = Some rc).

Lemma count_ops_snoc P ops op :
  count_ops P (ops ++ [op]) = count_ops P ops + (if P op then 1 else 0).
Proof. unfold count_ops. rewrite List.filter_app, length_app. cbn. destruct (P op); cbn; lia. Qed.

Lemma bump_get {K} `{EqDecision K} (t : dict K Z) k k' :
  default 0 (dict_get k' (bump t k)) = default 0 (dict_get k' t) + (if bool_decide (k' = k) then 1 else 0).
Proof.
  unfold bump. rewrite dict_get_set. destruct (decide (k' = k)) as [->|Hk].
  - rewrite bool_decide_true by done. done.
  - rewrite bool_decide_false by done. lia.
Qed.

Lemma dict_set_sum {K} `{EqDecision K} (t : dict K Z) k v :
  z_sum (dict_set k v t).*2 = z_sum t.*2 + (v - default 0 (dict_get k t)).
Proof.
  induction t as [|[k' v'] t IH]; cbn [dict_set dict_get]; [cbn; lia|].
  destruct (decide (k = k')) as [->|Hk]; cbn [fmap list_fmap fst snd]; rewrite !z_sum_cons; cbn [default from_option id].
  - lia.
  - rewrite IH. lia.
Qed.

Lemma bump_sum {K} `{EqDecision K} (t : dict K Z) k : z_sum (bump t k).*2 = z_sum t.*2 + 1.
Proof. unfold bump. rewrite dict_set_sum. lia. Qed.

Lemma bump_length {K} `{EqDecision K} (t : dict K Z) k :
  length (bump t k) = if decide (k ∈ t.*1) then length t else S (length t).
Proof.
  pose proof (dict_set_keys k (default 0 (dict_get k t) + 1) t) as H. apply (f_equal length) in H.
  rewrite length_fmap in H. unfold bump. rewrite H. case_decide; rewrite ?length_app, length_fmap; cbn; lia.
Qed.

(** The length table keeps at most thirty-two lengths beside the overflow label. *)
Definition length_table_ok (t : dict (option Z) Z) : Prop :=
  NoDup t.*1 /\ (length t <= (if bool_decide (None ∈ t.*1) then S DECODE_MAX_LENGTH_KEYS else DECODE_MAX_LENGTH_KEYS))%nat.

Lemma record_length_ok t n : length_table_ok t -> length_table_ok (record_length t n).
Proof.
  intros [Hn Hl]. unfold record_length.
  assert (Hk : forall k, (bump t k).*1 = if decide (k ∈ t.*1) then t.*1 else t.*1 ++ [k])
    by (intros k; apply dict_set_keys).
  destruct (bool_decide (Some n ∉ t.*1) && _) eqn:E.
  - split; [by apply dict_set_NoDup|]. rewrite bump_length, Hk. zbool. apply Nat.leb_le in H0.
    destruct (decide (None ∈ t.*1)) as [Hin|Hin].
    + by rewrite bool_decide_true in Hl |- * by done.
    + rewrite bool_decide_false in Hl by done. rewrite bool_decide_true by set_solver. lia.
  - split; [by apply dict_set_NoDup|]. rewrite bump_length, Hk.
    destruct (decide (Some n ∈ t.*1)) as [Hin|Hin]; [done|].
    apply andb_false_iff in E as [E|E]; [by apply bool_decide_eq_false in E|]. apply Nat.leb_gt in E.
    destruct (decide (None ∈ t.*1)) as [Ho|Ho].
    + rewrite bool_decide_true by set_solver. lia.
    + rewrite bool_decide_false by set_solver. lia.
Qed.

Lemma record_length_sum t n : z_sum (record_length t n).*2 = z_sum t.*2 + 1.
Proof. unfold record_length. destruct (_ && _); apply bump_sum. Qed.

(** Whatever is recorded, in whatever order, every frame is accounted for once: the frames
    are the decoded ones and the three kinds of failure, the tables by response code count
    the frames of each code, the table by length sums to the failed frames, and it never
    holds more than thirty-three keys. *)
Theorem counters_account ops :
  let c := foldl apply_count no_decode_counts ops in
  dc_frames_total c = count_ops (is_frame (fun _ _ => true)) ops
  /\ dc_frames_total c = dc_decoded_total c + dc_normalization c + dc_unsupported_code c + dc_unknown_reference c
  /\ failures_total c = count_ops (is_frame (fun _ kind => failed_kind kind)) ops + dc_non_binary c
  /\ (forall rc, default 0 (dict_get rc (dc_by_rc c)) = count_ops (is_frame (fun p _ => code_is rc p)) ops)
  /\ (forall rc, default 0 (dict_get rc (dc_fail_by_rc c))
        = count_ops (is_frame (fun p kind => failed_kind kind && code_is rc p)) ops)
  /\ dc_prev_close_seen c = default 0 (dict_get PREVIOUS_CLOSE_RESPONSE_CODE (dc_by_rc c))
  /\ dc_prev_close_failed c = default 0 (dict_get PREVIOUS_CLOSE_RESPONSE_CODE (dc_fail_by_rc c))
  /\ z_sum (dc_fail_by_len c).*2 = count_ops (is_frame (fun _ kind => failed_kind kind)) ops
  /\ (length (dc_fail_by_len c) <= 33)%nat.
Proof.
  enough (H : let c := foldl apply_count no_decode_counts ops in
    dc_frames_total c = count_ops (is_frame (fun _ _ => true)) ops
    /\ dc_frames_total c = dc_decoded_total c + dc_normalization c + dc_unsupported_code c + dc_unknown_reference c
    /\ dc_normalization c + dc_unsupported_code c + dc_unknown_reference c
       = count_ops (is_frame (fun _ kind => failed_kind kind)) ops
    /\ (forall rc, default 0 (dict_get rc (dc_by_rc c)) = count_ops (is_frame (fun p _ => code_is rc p)) ops)
    /\ (forall rc, default 0 (dict_get rc (dc_fail_by_rc c))
          = count_ops (is_frame (fun p kind => failed_kind kind && code_is rc p)) ops)
    /\ dc_prev_close_seen c = default 0 (dict_get PREVIOUS_CLOSE_RESPONSE_CODE (dc_by_rc c))
    /\ dc_prev_close_failed c = default 0 (dict_get PREVIOUS_CLOSE_RESPONSE_CODE (dc_fail_by_rc c))
    /\ z_sum (dc_fail_by_len c).*2 = count_ops (is_frame (fun _ kind => failed_kind kind)) ops
    /\ length_table_ok (dc_fail_by_len c)).
  { cbv zeta in *. destruct H as (H1 & H2 & H3 & H4 & H5 & H6 & H7 & H8 & [_ H9]).
    split_and!; try done; [unfold failures_total; lia|].
    etransitivity; [exact H9|]. unfold DECODE_MAX_LENGTH_KEYS. case_bool_decide; lia. }
  induction ops as [|op ops IH] using rev_ind.
  { split_and!; try done. split; [constructor|cbn; lia]. }
  rewrite foldl_app. cbn [foldl]. set (c := foldl apply_count no_decode_counts ops) in *. cbv zeta in *.
  destruct IH as (H1 & H2 & H3 & H4 & H5 & H6 & H7 & H8 & H9).
  destruct op as [| | |packet kind]; cbn [apply_count];
    [split_and!; try exact H9; intros; rewrite ?count_ops_snoc;
     cbn [record_message record_framing_failure record_non_binary is_frame dc_frames_total dc_decoded_total
          dc_normalization dc_unsupported_code dc_unknown_reference dc_by_rc dc_fail_by_rc dc_prev_close_seen
          dc_prev_close_failed dc_fail_by_len]; first [exact H6 | exact H7 | rewrite ?H4, ?H5; lia]..|].
  unfold record_decode. cbv zeta.
  assert (Hcode : forall t rc, default 0 (dict_get rc (bump_code (peek_code packet) t))
    = default 0 (dict_get rc t) + (if code_is rc packet then 1 else 0)).
  { intros t rc. unfold bump_code, code_is. destruct (peek_code packet) as [k|]; [|rewrite bool_decide_false by done; lia]. rewrite bump_get.
    destruct (decide (rc = k)) as [->|Hk]; [by rewrite !bool_decide_true|].
    rewrite !bool_decide_false by congruence. done. }
  clearbody c. split_and!; intros; rewrite ?count_ops_snoc;
     cbn [is_frame dc_frames_total dc_decoded_total dc_normalization dc_unsupported_code dc_unknown_reference
          dc_by_rc dc_fail_by_rc dc_prev_close_seen dc_prev_close_failed dc_fail_by_len].
  - lia.
  - destruct kind; cbn; lia.
  - destruct kind; cbn; lia.
  - rewrite Hcode, H4. lia.
  - destruct (failed_kind kind); cbn [andb]; rewrite ?Hcode, H5; lia.
  - rewrite Hcode, <- H6. unfold code_is. case_bool_decide; lia.
  - destruct (failed_kind kind); cbn [andb]; [|done]. rewrite Hcode, <- H7. unfold code_is. case_bool_decide; lia.
  - destruct (failed_kind kind); [rewrite record_length_sum|]; lia.
  - destruct (failed_kind kind); [by apply record_length_ok|done].
Qed.

(** ** Raw trade times *)

(** A run of the recorder over packets with their receive times. *)
Definition ltt_step (state : RawLttRecorder * list RawLttSample) (obs : Bytes * instant)
    : RawLttRecorder * list RawLttSample :=
  let '(self, sample) := ltt_observe (fst state) (fst obs) (snd obs) in
  (self, snd state ++ match sample with Some s => [s] | None => [] end).

Definition ltt_run (config : RawLttDiagnosticConfig) (observed : list (Bytes * instant))
    : RawLttRecorder * list RawLttSample :=
  foldl ltt_step (mk_ltt_recorder config, []) observed.

(** The slot of a sample: its security when there is an allow-list, one global slot
    otherwise. *)
Definition ltt_key (config : RawLttDiagnosticConfig) (s : RawLttSample) : option Z :=
  if bool_decide (lc_allowed_security_ids config = []) then None else Some (ls_security_id s).

Definition ltt_slot (config : RawLttDiagnosticConfig) (key : option Z) (samples : list RawLttSample)
    : list RawLttSample :=
  filter (fun s => ltt_key config s = key) samples.

(** Successive elements are at least [d] apart. *)
Definition spaced (d : Z) (times : list Z) : Prop :=
  forall k x y, times !! k = Some x -> times !! S k = Some y -> d <= y - x.

(** A sample is the trade time of an observed packet the allow-list lets through. *)
Definition ltt_evidence (config : RawLttDiagnosticConfig) (observed : list (Bytes * instant)) (s : RawLttSample)
    : Prop :=
  exists packet, (packet, ls_receive_utc s) ∈ observed
  /\ peek_ltt_fields packet
     = Some (ls_response_code s, ls_exchange_segment_code s, ls_security_id s, ls_raw_ltt s)
  /\ (lc_allowed_security_ids config = [] \/ ls_security_id s ∈ lc_allowed_security_ids config)
  /\ ls_decoded_utc s = decode_for_evidence (ls_raw_ltt s).

Lemma spaced_snoc d l y : spaced d l -> (forall x, last l = Some x -> d <= y - x) -> spaced d (l ++ [y]).
Proof.
  intros Hl Hy k x z Hx Hz. destruct (decide (S k < length l)%nat) as [Hk|Hk].
  - rewrite lookup_app_l in Hx, Hz by lia. by eapply Hl.
  - pose proof (lookup_lt_Some _ _ _ Hz) as Hlt. rewrite length_app in Hlt. cbn in Hlt.
    assert (S k = length l) as Hk' by lia. rewrite Hk', list_lookup_middle in Hz by done. injection Hz as <-.
    rewrite lookup_app_l in Hx by lia. apply Hy. rewrite last_lookup, <- Hk'. exact Hx.
Qed.

Record ltt_inv (config : RawLttDiagnosticConfig) (observed : list (Bytes * instant))
    (state : RawLttRecorder * list RawLttSample) : Prop := {
  lti_config : lr_config (fst state) = config;
  lti_emitted : ltt_emitted (fst state) = Z.of_nat (length (snd state));
  lti_count : forall key, default 0 (dict_get key (lr_emitted_by_key (fst state)))
                = Z.of_nat (length (ltt_slot config key (snd state)));
  lti_last : forall key, dict_get key (lr_last_emit_by_key (fst state))
               = ls_receive_utc <$> last (ltt_slot config key (snd state));
  lti_cap : forall key, Z.of_nat (length (ltt_slot config key (snd state))) <= Z.max 0 (lc_max_samples config);
  lti_spaced : forall key, spaced (lc_min_interval config) (ls_receive_utc <$> ltt_slot config key (snd state));
  lti_evidence : Forall (ltt_evidence config observed) (snd state);
  lti_enabled : lc_enabled config = false -> snd state = [];
}.

Lemma ltt_evidence_more config observed obs s :
  ltt_evidence config observed s -> ltt_evidence config (observed ++ [obs]) s.
Proof. intros (packet & H & ?). exists packet. split; [set_solver|done]. Qed.

Lemma ltt_inv_skip config observed obs state : ltt_inv config observed state ->
  ltt_inv config (observed ++ [obs]) (fst state, snd state ++ []).
Proof.
  intros [H1 H2 H3 H4 H5 H6 H7 H8]. rewrite app_nil_r. split; try done.
  eapply Forall_impl; [exact H7|]. intros s. apply ltt_evidence_more.
Qed.

Lemma ltt_slot_snoc config key samples s :
  ltt_slot config key (samples ++ [s])
  = ltt_slot config key samples ++ (if decide (ltt_key config s = key) then [s] else []).
Proof. unfold ltt_slot. rewrite filter_app, filter_cons, filter_nil. done. Qed.

Lemma ltt_inv_step config observed obs state : ltt_inv config observed state ->
  ltt_inv config (observed ++ [obs]) (ltt_step state obs).
Proof.
  intros Hinv. pose proof (ltt_inv_skip config observed obs state Hinv) as Hskip.
  destruct Hinv as [H1 H2 H3 H4 H5 H6 H7 H8]. destruct obs as [packet at_]. destruct state as [self samples].
  unfold ltt_step, ltt_observe. cbn [fst snd] in *. rewrite H1.
  destruct (lc_enabled config) eqn:Een; [|exact Hskip]. cbn [negb].
  destruct (peek_ltt_fields packet) as [[[[rc segment] sid] raw]|] eqn:Ep; [|exact Hskip].
  destruct (negb _ && _) eqn:Ea; [exact Hskip|].
  set (key := if bool_decide _ then None else Some sid).
  destruct (lc_max_samples config <=? _) eqn:Ec; [exact Hskip|].
  destruct (within_rate_window self key at_) eqn:Ew; [exact Hskip|]. clear Hskip.
  set (s := build_sample self rc segment sid raw at_).
  assert (Hkey : ltt_key config s = key) by done. zbool. rewrite H3 in Ec.
  assert (Hsp : forall x, last (ls_receive_utc <$> ltt_slot config key samples) = Some x ->
            lc_min_interval config <= at_ - x).
  { intros x Hx. unfold within_rate_window in Ew. rewrite H1, H4, <- fmap_last in Ew. rewrite Hx in Ew. zbool. lia. }
  clearbody key. split; cbn [fst snd lr_config lr_emitted_by_key lr_last_emit_by_key].
  - done.
  - unfold ltt_emitted in *. cbn [lr_emitted_by_key]. rewrite dict_set_sum, H2, length_app. cbn. lia.
  - intros k. rewrite dict_get_set, ltt_slot_snoc, Hkey, length_app. destruct (decide (k = key)) as [->|Hk].
    + rewrite decide_True by done. cbn [default from_option length id]. rewrite H3. lia.
    + rewrite decide_False by done. cbn [length]. rewrite H3. lia.
  - intros k. rewrite dict_get_set, ltt_slot_snoc, Hkey. destruct (decide (k = key)) as [->|Hk].
    + rewrite decide_True by done. by rewrite last_snoc.
    + rewrite decide_False by done. by rewrite app_nil_r.
  - intros k. rewrite ltt_slot_snoc, Hkey, length_app. specialize (H5 k). destruct (decide (key = k)) as [<-|Hk]; cbn [length]; lia.
  - intros k. rewrite ltt_slot_snoc, Hkey. destruct (decide (key = k)) as [<-|Hk]; [|by rewrite app_nil_r].
    rewrite fmap_app. by apply spaced_snoc.
  - apply Forall_app. split; [eapply Forall_impl; [exact H7|intros ?; apply ltt_evidence_more]|].
    constructor; [|done]. exists packet. split_and!; [set_solver| exact Ep| |done].
    destruct Ea as [Ea|Ea]; zbool; auto.
  - by rewrite Een.
Qed.

(** The recorder stays within its bounds: over any run it emits nothing when disabled,
    never more than the cap per slot, never two samples of a slot closer than the interval,
    and every sample is the raw trade time of a packet it saw and was allowed to sample;
    and where that packet decodes, the sample's time is the decoded tick's. *)
Theorem ltt_recorder_bounded config observed :
  let '(self, samples) := ltt_run config observed in
  ltt_emitted self = Z.of_nat (length samples)
  /\ (lc_enabled config = false -> samples = [])
  /\ (forall key, Z.of_nat (length (ltt_slot config key samples)) <= Z.max 0 (lc_max_samples config)
        /\ spaced (lc_min_interval config) (ls_receive_utc <$> ltt_slot config key samples))
  /\ Forall (ltt_evidence config observed) samples
  /\ forall s packet refs t rest, s ∈ samples ->
       peek_ltt_fields packet
         = Some (ls_response_code s, ls_exchange_segment_code s, ls_security_id s, ls_raw_ltt s) ->
       decode_standard_live_packet packet refs = Ok (ETick t :: rest) ->
       ls_decoded_utc s = Some (tick_event_timestamp t).
Proof.
  assert (H : ltt_inv config observed (ltt_run config observed)).
  { unfold ltt_run. induction observed as [|obs observed IH] using rev_ind.
    - split; cbn; try done; intros; try lia.
    - rewrite foldl_app. by apply ltt_inv_step. }
  destruct (ltt_run config observed) as [self samples]. destruct H as [H1 H2 H3 H4 H5 H6 H7 H8].
  cbn [fst snd] in *. split_and!; try done.
  intros s packet refs t rest Hs Hp Hd. rewrite Forall_forall in H7. destruct (H7 s Hs) as (_ & _ & _ & _ & ->).
  pose proof (yields_decode packet refs) as Hy. rewrite Hd in Hy. destruct Hy as (reference & _ & _ & _ & Hsh).
  assert (Ht : tick_decoded packet (dr_instrument reference) t).
  { cbn in Hsh. destruct rest as [|[] rest]; [by destruct Hsh|done| |done..].
    destruct rest as [|[] [|]]; try done. by destruct Hsh as (_ & ? & _). }
  destruct Ht as (_ & _ & Hpos & Ht & _ & _). unfold peek_ltt_fields in Hp.
  destruct (length packet <? _)%nat; [done|]. destruct (_ || _)%bool; [|done]. injection Hp as _ _ _ Hr.
  rewrite <- Hr. unfold decode_for_evidence. change (i32 packet LTT_OFFSET) with (i32 packet 14).
  rewrite Ht in Hpos |- *. unfold second in *. destruct (i32 packet 14 <=? 0) eqn:E; [zbool; lia|done].
Qed.

Definition sample_wire : QuoteWire := {|
  qw_segment := 1; qw_security_id := 1333; qw_last_price := 1120403456; qw_quantity := 5; qw_time := 1700000000;
  qw_average := 1120403456; qw_volume := 1000; qw_sell := 10; qw_buy := 20; qw_open := 1119092736;
  qw_close := 1120403456; qw_high := 1120403456; qw_low := 1119092736 |}.

Definition sample_reference : DhanInstrumentReference := {|
  dr_instrument := cash_equity "RELIANCE"; dr_security_id := "1333"; dr_underlying_security_id := None;
  dr_exchange_segment := Some "NSE_EQ"%string; dr_provider_instrument_type := "EQUITY" |}.

Lemma sample_floats : float32_of_bits 1120403456 = FFinite (Q2Qc 100) /\ float32_of_bits 1119092736 = FFinite (Q2Qc 90).
Proof. split; vm_compute; f_equal; apply Qc_is_canon; reflexivity. Qed.

Lemma sample_wire_ok : quote_wire_ok sample_wire.
Proof.
  assert (H100 : (dec 0 0 <= Q2Qc 100)%Qc) by (vm_compute; congruence).
  assert (H90 : (dec 0 0 <= Q2Qc 90)%Qc) by (vm_compute; congruence).
  destruct sample_floats as [Ha Hb].
  split; cbn [sample_wire qw_segment qw_security_id qw_last_price qw_quantity qw_time qw_average qw_volume qw_sell
    qw_buy qw_open qw_close qw_high qw_low]; unfold uint32; try lia.
  - right; left.
  - repeat constructor; lia.
  - repeat constructor; lia.
  - repeat (constructor; [eexists; split; [first [exact Ha | exact Hb]|assumption]|]). constructor.
Qed.

Lemma quote_packet_roundtrip_witness : exists price ohlc,
  decode_standard_live_packet (quote_packet sample_wire) [sample_reference] = Ok [ETick {|
    tick_instrument := cash_equity "RELIANCE"; tick_event_timestamp := 1700000000 * second; last_price := price;
    tick_traded_quantity := Some 5; session_cumulative_volume := Some 1000; tick_session_ohlc := ohlc |}]
  /\ ohlc = Some {| pso_open_price := dec 90 0; pso_high_price := dec 100 0; pso_low_price := dec 90 0;
                    pso_close_price := dec 100 0 |}.
Proof.
  destruct (quote_packet_roundtrip sample_wire [sample_reference] sample_reference (Q2Qc 100))
    as (price & o & h & l & c & ohlc & _ & Ho & Hh & Hl & Hc & Hday & H); [apply sample_wire_ok|apply sample_floats|reflexivity|reflexivity|].
  exists price, ohlc. split; [exact H|]. destruct sample_floats as [Ha Hb]. cbn [sample_wire qw_open qw_high qw_low qw_close] in *.
  assert (E90 : float_decimal (FFinite (Q2Qc 90)) = DFinite (dec 90 0)) by (vm_compute; do 2 f_equal; by apply Qc_is_canon).
  assert (E100 : float_decimal (FFinite (Q2Qc 100)) = DFinite (dec 100 0)) by (vm_compute; do 2 f_equal; by apply Qc_is_canon).
  rewrite Hb, E90 in Ho, Hl. rewrite Ha, E100 in Hh, Hc. injection Ho as <-. injection Hh as <-. injection Hl as <-. injection Hc as <-.
  destruct Hday as [[_ ->]|[Hn _]]; [done|]. destruct Hn. split; vm_compute; congruence.
Defined.
