(* ===== verification/DhanNormalizer.v ===== *)
(** The Dhan normalizer, adapters/dhan/normalizer.py with models.py: the instrument master,
    the stock-derivative and live cash-equity universes derived from it, historical candles
    and session statistics.

    The master is what [csv.DictReader] reads, field names and rows, where a row that
    [csv] refuses is [None]; a payload is decoded JSON.  Texts are ASCII and expiries have
    the form [YYYY-MM-DD].  The errors a
    [try] turns into [NormalizationError] are a predicate, the others escape.

    The theorems say that the master is all or nothing and row by row, that a normalized
    row is a valid instrument, that both universes describe the same stock derivatives and
    the live one resolves an underlying to its only share of the same symbol, and that
    historical and session payloads become candles and observations entry by entry or the
    stated errors; they include the texts whose error escapes. *)
From S2P Require Import Prelude DecimalContext PyTime PyDate MarketData PyNumber DhanWire.

Local Open Scope Z_scope.

(** * JSON values *)

#[warnings="-register-all"] Inductive JsonValue : Type :=
| VNull
| VBool (b : bool)
| VInt (n : Z)
| VFloat (x : PyFloat)
| VText (s : string)
| VList (items : list JsonValue)
| VMap (fields : dict string JsonValue).

(** * The instrument master *)

Abbreviation Row := (dict string (option string)).

(** What [csv.DictReader] yields. *)
Record CsvTable : Type := {
  ct_fieldnames : list string;
  ct_rows : list (option Row);
}.

(** [_REQUIRED_INSTRUMENT_COLUMNS] *)
Definition REQUIRED_INSTRUMENT_COLUMNS : list string := [
  "EXCH_ID"; "SEGMENT"; "SECURITY_ID"; "INSTRUMENT"; "UNDERLYING_SYMBOL"; "SYMBOL_NAME"; "DISPLAY_NAME";
  "INSTRUMENT_TYPE"; "SERIES"; "SM_EXPIRY_DATE"; "STRIKE_PRICE"; "OPTION_TYPE"]%string.

(** [_EXCHANGE_SEGMENTS] and [_MARKET_SEGMENTS] *)
Definition EXCHANGE_SEGMENTS : dict (string * string) string := [
  (("NSE", "E"), "NSE_EQ"); (("NSE", "D"), "NSE_FNO"); (("NSE", "C"), "NSE_CURRENCY"); (("BSE", "E"), "BSE_EQ");
  (("BSE", "D"), "BSE_FNO"); (("BSE", "C"), "BSE_CURRENCY"); (("MCX", "M"), "MCX_COMM"); (("IDX", "I"), "IDX_I")]%string.
Definition MARKET_SEGMENTS : dict string MarketSegment := [
  ("E", EQUITY); ("D", DERIVATIVES); ("C", CURRENCY); ("M", COMMODITY); ("I", INDEX)]%string.

Definition is_derivative (c : InstrumentClass) : bool := match c with FUTURE | OPTION => true | _ => false end.

(** [_required_text] *)
Definition required_text (row : Row) (field : string) : result string :=
  match default None (dict_get field row) with
  | Some value => if is_empty (strip value) then Raise NormalizationError else Ok (strip value)
  | None => Raise NormalizationError
  end.

(** [_optional_text] *)
Definition optional_text (row : Row) (field : string) : option string :=
  match default None (dict_get field row) with
  | None => None
  | Some value =>
      let normalized := upper (strip value) in
      if negb (is_empty normalized) && negb (bool_decide (normalized ∈ ["NA"; "N/A"]%string)) then Some normalized
      else None
  end.

(** [_instrument_class] *)
Definition instrument_class_of (provider_instrument_type : string) : InstrumentClass :=
  if String.prefix "FUT" provider_instrument_type then FUTURE
  else if String.prefix "OPT" provider_instrument_type then OPTION
  else if bool_decide (provider_instrument_type = "EQUITY"%string) then CASH
  else OTHER.

(** [_canonical_listing_symbol] *)
Definition canonical_listing_symbol (row : Row) (c : InstrumentClass) : result string :=
  match c, optional_text row "UNDERLYING_SYMBOL" with
  | CASH, Some cash_listing_symbol => Ok cash_listing_symbol
  | _, _ => required_text row "SYMBOL_NAME"
  end.

(** [_derivative_expiry] *)
Definition derivative_expiry (row : Row) (c : InstrumentClass) : result (option date) :=
  if negb (is_derivative c) then Ok None
  else
    text ← required_text row "SM_EXPIRY_DATE";
    match fromisoformat text with
    | Ok d => Ok (Some d)
    | Raise (ValueError _) => Raise NormalizationError
    | Raise e => Raise e
    end.

(** [value <= 0] on a [Decimal] raises for a NaN. *)
Definition not_positive (value : PyDecimal) : result bool :=
  match value with
  | DFinite q => Ok (dec_leb q 0)
  | DInfinite negative => Ok negative
  | DNan => Raise InvalidOperation
  end.

(** [_option_strike] *)
Definition option_strike (row : Row) (c : InstrumentClass) : result (option PyDecimal) :=
  match c with
  | OPTION =>
      text ← required_text row "STRIKE_PRICE";
      match decimal_of_text text with
      | None => Raise NormalizationError
      | Some value =>
          bad ← not_positive value;
          _ ← raise_if bad NormalizationError;
          Ok (Some value)
      end
  | _ => Ok None
  end.

(** [_option_type] *)
Definition option_type_of (row : Row) (c : InstrumentClass) : result (option OptionType) :=
  match c with
  | OPTION =>
      text ← required_text row "OPTION_TYPE";
      if bool_decide (upper text = "CE"%string) then Ok (Some CALL)
      else if bool_decide (upper text = "PE"%string) then Ok (Some PUT)
      else Raise NormalizationError
  | _ => Ok None
  end.

(** A decimal field of a model admits finite values only. *)
Definition finite_field (value : option PyDecimal) : result (option Decimal) :=
  match value with
  | None => Ok None
  | Some (DFinite q) => Ok (Some q)
  | Some _ => Raise (ValidationError "finite_number")
  end.

(** [_normalize_instrument_row] *)
Definition normalize_instrument_row (row : Row) : result DhanInstrumentReference :=
  exchange_text ← required_text row "EXCH_ID";
  segment_text ← required_text row "SEGMENT";
  let exchange := upper exchange_text in
  let segment := upper segment_text in
  let exchange_segment := dict_get (exchange, segment) EXCHANGE_SEGMENTS in
  match dict_get segment MARKET_SEGMENTS with
  | None => Raise NormalizationError
  | Some market_segment =>
      type_text ← required_text row "INSTRUMENT";
      let provider_instrument_type := upper type_text in
      let instrument_class := instrument_class_of provider_instrument_type in
      underlying ←
        match is_derivative instrument_class, optional_text row "UNDERLYING_SYMBOL" with
        | true, Some underlying_symbol => u ← mk_underlying exchange underlying_symbol; Ok (Some u)
        | _, _ => Ok None
        end;
      symbol ← canonical_listing_symbol row instrument_class;
      expiry ← derivative_expiry row instrument_class;
      strike_value ← option_strike row instrument_class;
      option_type ← option_type_of row instrument_class;
      strike ← finite_field strike_value;
      instrument ← mk_instrument {|
        exchange := exchange; market_segment := market_segment; symbol := symbol;
        instrument_class := instrument_class; underlying := underlying;
        display_name := optional_text row "DISPLAY_NAME"; listing_type := optional_text row "INSTRUMENT_TYPE";
        series := optional_text row "SERIES"; expiry := expiry; strike_price := strike;
        option_type := option_type |};
      security_id ← required_text row "SECURITY_ID";
      underlying_security_id ←
        (if is_derivative instrument_class then t ← required_text row "UNDERLYING_SECURITY_ID"; Ok (Some t)
         else Ok None);
      Ok {| dr_instrument := instrument; dr_security_id := security_id;
            dr_underlying_security_id := underlying_security_id; dr_exchange_segment := exchange_segment;
            dr_provider_instrument_type := provider_instrument_type |}
  end.

(** [except (csv.Error, TypeError, ValueError): raise NormalizationError()] *)
Definition as_master_error {A} (r : result A) : result A :=
  match r with
  | Raise (TypeError _) | Raise (ValueError _) | Raise (ValidationError _) => Raise NormalizationError
  | _ => r
  end.

(** The loop over the rows. *)
Fixpoint read_rows (rows : list (option Row)) (by_instrument : dict Instrument DhanInstrumentReference)
    : result (dict Instrument DhanInstrumentReference) :=
  match rows with
  | [] => Ok by_instrument
  | None :: _ => Raise NormalizationError
  | Some row :: rows =>
      reference ← normalize_instrument_row row;
      _ ← raise_if (bool_decide (dr_instrument reference ∈ by_instrument.*1)) NormalizationError;
      read_rows rows (dict_set (dr_instrument reference) reference by_instrument)
  end.

(** [normalize_instrument_master] *)
Definition normalize_instrument_master (table : CsvTable) : result (list DhanInstrumentReference) :=
  as_master_error (
    _ ← raise_if (negb (forallb (fun c => bool_decide (c ∈ ct_fieldnames table)) REQUIRED_INSTRUMENT_COLUMNS))
      NormalizationError;
    by_instrument ← read_rows (ct_rows table) [];
    Ok by_instrument.*2).

(** * Universes *)

Record DhanFnoStockUniverse : Type := {
  fu_futures : list DhanInstrumentReference;
  fu_options : list DhanInstrumentReference;
  fu_underlyings : list UnderlyingInstrument;
}.

Record DhanCashEquityLiveUniverse : Type := {
  lu_underlyings : list UnderlyingInstrument;
  lu_cash_references : list DhanInstrumentReference;
  lu_missing_underlyings : list UnderlyingInstrument;
  lu_ambiguous_underlyings : list UnderlyingInstrument;
  lu_symbol_mismatches : list UnderlyingInstrument;
}.

(** [_is_nse_equity_share] *)
Definition is_nse_equity_share (reference : DhanInstrumentReference) : bool :=
  let instrument := dr_instrument reference in
  bool_decide (exchange instrument = "NSE"%string)
  && bool_decide (dr_exchange_segment reference = Some "NSE_EQ"%string)
  && bool_decide (dr_provider_instrument_type reference = "EQUITY"%string)
  && bool_decide (market_segment instrument = EQUITY)
  && bool_decide (instrument_class instrument = CASH)
  && bool_decide (listing_type instrument = Some "ES"%string).

(** [_is_nse_stock_derivative_candidate] *)
Definition is_nse_stock_derivative_candidate (reference : DhanInstrumentReference) : bool :=
  let instrument := dr_instrument reference in
  bool_decide (exchange instrument = "NSE"%string)
  && bool_decide (dr_exchange_segment reference = Some "NSE_FNO"%string)
  && bool_decide (dr_provider_instrument_type reference ∈ ["FUTSTK"; "OPTSTK"]%string)
  && is_not_none (underlying instrument)
  && is_not_none (dr_underlying_security_id reference).

(** [{reference.security_id: reference for reference in references}] *)
Definition by_security_id (references : list DhanInstrumentReference) : dict string DhanInstrumentReference :=
  foldl (fun d reference => dict_set (dr_security_id reference) reference d) [] references.

(** [_is_production_nse_stock_derivative] *)
Definition is_production_nse_stock_derivative (cash_equities : dict string DhanInstrumentReference)
    (reference : DhanInstrumentReference) : bool :=
  if negb (is_nse_stock_derivative_candidate reference) then false
  else match dr_underlying_security_id reference, underlying (dr_instrument reference) with
  | Some underlying_security_id, Some u =>
      match dict_get underlying_security_id cash_equities with
      | Some cash_equity => bool_decide (symbol (dr_instrument cash_equity) = und_symbol u)
      | None => false
      end
  | _, _ => false
  end.

(** [_reference_sort_key] *)
Definition master_sort_key (reference : DhanInstrumentReference) : list string :=
  let instrument := dr_instrument reference in
  [exchange instrument; symbol instrument; instrument_class_value (instrument_class instrument);
   match expiry instrument with Some d => isoformat d | None => ""%string end; dr_security_id reference].

Definition sort_references (l : list DhanInstrumentReference) : list DhanInstrumentReference :=
  py_sorted (fun a b => strings_leb (master_sort_key a) (master_sort_key b)) l.

(** [sorted(..., key=lambda underlying: (underlying.exchange, underlying.symbol))] *)
Definition underlying_leb (a b : UnderlyingInstrument) : bool :=
  strings_leb [und_exchange a; und_symbol a] [und_exchange b; und_symbol b].

Definition sort_underlyings (l : list UnderlyingInstrument) : list UnderlyingInstrument := py_sorted underlying_leb l.

(** [derive_equity_fno_universe]; a set is listed without repetitions. *)
Definition derive_equity_fno_universe (references : list DhanInstrumentReference) : DhanFnoStockUniverse :=
  let cash_equities := by_security_id (List.filter is_nse_equity_share references) in
  let stock_derivatives := List.filter (is_production_nse_stock_derivative cash_equities) references in
  let of_type t := List.filter (fun r => bool_decide (dr_provider_instrument_type r = t)) stock_derivatives in
  let futures := sort_references (of_type "FUTSTK"%string) in
  let options := sort_references (of_type "OPTSTK"%string) in
  {| fu_futures := futures; fu_options := options;
     fu_underlyings :=
       sort_underlyings (remove_dups (omap (fun r => underlying (dr_instrument r)) (futures ++ options))) |}.

(** The sets and the table of [resolve_nse_cash_equity_live_universe] while it runs. *)
Record Resolution : Type := {
  rs_references_by_underlying : dict UnderlyingInstrument (dict string DhanInstrumentReference);
  rs_missing : list UnderlyingInstrument;
  rs_mismatches : list UnderlyingInstrument;
}.

(** [s.add(x)] *)
Definition set_add (x : UnderlyingInstrument) (s : list UnderlyingInstrument) : list UnderlyingInstrument :=
  if bool_decide (x ∈ s) then s else s ++ [x].

(** One derivative of the loop. *)
Definition resolve_derivative (all cash_equities : dict string DhanInstrumentReference)
    (derivative : DhanInstrumentReference) (acc : Resolution) : result Resolution :=
  if negb (is_nse_stock_derivative_candidate derivative) then Ok acc
  else match underlying (dr_instrument derivative), dr_underlying_security_id derivative with
  | Some u, Some security_id =>
      match dict_get security_id all with
      | None => Ok {| rs_references_by_underlying := rs_references_by_underlying acc;
                      rs_missing := set_add u (rs_missing acc); rs_mismatches := rs_mismatches acc |}
      | Some _ =>
          match dict_get security_id cash_equities with
          | None => Ok acc
          | Some cash_reference =>
              if negb (bool_decide (symbol (dr_instrument cash_reference) = und_symbol u))
              then Ok {| rs_references_by_underlying := rs_references_by_underlying acc;
                         rs_missing := rs_missing acc; rs_mismatches := set_add u (rs_mismatches acc) |}
              else Ok {| rs_references_by_underlying :=
                           dict_set u (dict_set (dr_security_id cash_reference) cash_reference
                                         (default [] (dict_get u (rs_references_by_underlying acc))))
                             (rs_references_by_underlying acc);
                         rs_missing := rs_missing acc; rs_mismatches := rs_mismatches acc |}
          end
      end
  | _, _ => Raise NormalizationError
  end.

Fixpoint resolve_derivatives (all cash_equities : dict string DhanInstrumentReference)
    (derivatives : list DhanInstrumentReference) (acc : Resolution) : result Resolution :=
  match derivatives with
  | [] => Ok acc
  | derivative :: derivatives =>
      acc ← resolve_derivative all cash_equities derivative acc;
      resolve_derivatives all cash_equities derivatives acc
  end.

(** [next(iter(d.values()))] of a non-empty table. *)
Definition first_value (d : dict string DhanInstrumentReference) : result DhanInstrumentReference :=
  match d with (_, r) :: _ => Ok r | [] => Raise (RuntimeError "StopIteration") end.

(** [ambiguous_underlyings], and what is resolved of the table. *)
Definition ambiguous_in (table : dict UnderlyingInstrument (dict string DhanInstrumentReference))
    : list UnderlyingInstrument :=
  (List.filter (fun kv => negb (length kv.2 =? 1)%nat) table).*1.
Definition resolved_in (table : dict UnderlyingInstrument (dict string DhanInstrumentReference))
    (blocked : list UnderlyingInstrument) : list UnderlyingInstrument :=
  (List.filter (fun kv => negb (bool_decide (kv.1 ∈ blocked)) && (length kv.2 =? 1)%nat) table).*1.

(** [resolve_nse_cash_equity_live_universe] *)
Definition resolve_nse_cash_equity_live_universe (references : list DhanInstrumentReference)
    : result DhanCashEquityLiveUniverse :=
  let all := by_security_id references in
  let cash_equities := by_security_id (List.filter is_nse_equity_share references) in
  acc ← resolve_derivatives all cash_equities references
          {| rs_references_by_underlying := []; rs_missing := []; rs_mismatches := [] |};
  let table := rs_references_by_underlying acc in
  let ambiguous := ambiguous_in table in
  let resolved := sort_underlyings (resolved_in table (rs_missing acc ++ rs_mismatches acc ++ ambiguous)) in
  cash_references ← traverse (fun u => first_value (default [] (dict_get u table))) resolved;
  Ok {| lu_underlyings := resolved; lu_cash_references := cash_references;
        lu_missing_underlyings := sort_underlyings (rs_missing acc);
        lu_ambiguous_underlyings := sort_underlyings ambiguous;
        lu_symbol_mismatches := sort_underlyings (rs_mismatches acc) |}.

(** * Historical candles *)

(** [_decimal]: [Decimal(str(value))], [InvalidOperation] for a text that is no number. *)
Definition decimal_value (value : JsonValue) : result PyDecimal :=
  match value with
  | VInt n => Ok (DFinite (Q2Qc (inject_Z n)))
  | VFloat x => Ok (float_decimal x)
  | VText s => match decimal_of_text s with Some d => Ok d | None => Raise InvalidOperation end
  | _ => Raise NormalizationError
  end.

(** [_integral_number] *)
Definition integral_number (value : JsonValue) : result Z :=
  match value with
  | VInt n => Ok n
  | VFloat x => match float_integer x with Some n => Ok n | None => Raise NormalizationError end
  | _ => Raise NormalizationError
  end.

(** [_volume] *)
Definition volume (value : JsonValue) : result Z :=
  n ← integral_number value;
  _ ← raise_if (n <? 0) NormalizationError;
  Ok n.

(** The instants Python has, and one after the last. *)
Definition MIN_EPOCH_SECOND : Z := -62135596800.
Definition MAX_EPOCH_SECOND : Z := 253402300800.

(** [_epoch_timestamp] *)
Definition epoch_instant (value : JsonValue) : result instant :=
  n ← integral_number value;
  _ ← raise_if ((n <? MIN_EPOCH_SECOND) || (MAX_EPOCH_SECOND <=? n)) (ValueError "year is out of range");
  Ok (n * second).

(** [moment + interval] *)
Definition add_interval (at_ : instant) (interval : timedelta) : result instant :=
  let sum := at_ + interval in
  _ ← raise_if ((sum <? MIN_EPOCH_SECOND * second) || (MAX_EPOCH_SECOND * second <=? sum)) OverflowError;
  Ok sum.

(** A required decimal field of a model. *)
Definition finite_value (value : PyDecimal) : result Decimal :=
  match value with DFinite q => Ok q | _ => Raise (ValidationError "finite_number") end.

(** [_HISTORICAL_FIELDS] *)
Definition HISTORICAL_FIELDS : list string := ["open"; "high"; "low"; "close"; "volume"; "timestamp"]%string.

(** One round of the loop of [_historical_arrays]. *)
Definition historical_array (payload : dict string JsonValue) (field : string) : result (list JsonValue) :=
  match dict_get field payload with
  | Some (VList items) => Ok items
  | _ => Raise NormalizationError
  end.

(** [_historical_arrays] *)
Definition historical_arrays (payload : dict string JsonValue) : result (list (list JsonValue)) :=
  arrays ← traverse (historical_array payload) HISTORICAL_FIELDS;
  _ ← raise_if (negb (length (remove_dups (map length arrays)) =? 1)%nat) NormalizationError;
  Ok arrays.

(** One candle of the loop. *)
Definition historical_candle (request : HistoricalRequest) (values : list JsonValue) : result Candle :=
  match values with
  | [o; h; l; c; v; t] =>
      start ← epoch_instant t;
      stop ← add_interval start (req_interval request);
      open_value ← decimal_value o;
      high_value ← decimal_value h;
      low_value ← decimal_value l;
      close_value ← decimal_value c;
      traded ← volume v;
      open_price ← finite_value open_value;
      high_price ← finite_value high_value;
      low_price ← finite_value low_value;
      close_price ← finite_value close_value;
      mk_candle {| candle_instrument := req_instrument request; start_timestamp := start; end_timestamp := stop;
                   open_price := open_price; high_price := high_price; low_price := low_price;
                   close_price := close_price; traded_quantity := traded |}
  | _ => Raise (ValueError "zip() argument is shorter")
  end.

(** [zip( *arrays)] of six lists of one length. *)
Definition zip_rows (arrays : list (list JsonValue)) : list (list JsonValue) :=
  map (fun k => omap (fun a : list JsonValue => a !! k) arrays) (seq 0 (length (default [] (head arrays)))).

(** [except (InvalidOperation, OverflowError, TypeError, ValidationError, ValueError)] *)
Definition as_historical_error {A} (r : result A) : result A :=
  match r with
  | Raise InvalidOperation | Raise OverflowError | Raise (TypeError _) | Raise (ValidationError _)
  | Raise (ValueError _) => Raise NormalizationError
  | _ => r
  end.

(** [normalize_historical_payload] *)
Definition normalize_historical_payload (request : HistoricalRequest) (payload : dict string JsonValue)
    : result HistoricalResult :=
  arrays ← historical_arrays payload;
  as_historical_error (
    candles ← traverse (historical_candle request) (zip_rows arrays);
    mk_historical_result request candles).

(** * Session statistics *)

(** [ohlc[field]] as a decimal. *)
Definition ohlc_field (ohlc : dict string JsonValue) (field : string) : result PyDecimal :=
  match dict_get field ohlc with
  | None => Raise (KeyError field)
  | Some value => decimal_value value
  end.

(** The [try] of [_session_ohlc_from]. *)
Definition ohlc_of_fields (ohlc : dict string JsonValue) : result ProviderSessionOhlc :=
  o ← ohlc_field ohlc "open";
  h ← ohlc_field ohlc "high";
  l ← ohlc_field ohlc "low";
  c ← ohlc_field ohlc "close";
  open_price ← finite_value o;
  high_price ← finite_value h;
  low_price ← finite_value l;
  close_price ← finite_value c;
  mk_provider_session_ohlc open_price high_price low_price close_price.

(** [_session_ohlc_from] *)
Definition session_ohlc_from (ohlc : option JsonValue) : result (option ProviderSessionOhlc) :=
  match ohlc with
  | Some (VMap fields) =>
      match ohlc_of_fields fields with
      | Ok s => Ok (Some s)
      | Raise (KeyError _) | Raise NormalizationError | Raise (ValidationError _) => Ok None
      | Raise e => Raise e
      end
  | _ => Ok None
  end.

(** The [ohlc] object of a reference in the response data. *)
Definition response_item (data : dict string JsonValue) (reference : DhanInstrumentReference)
    : option (dict string JsonValue) :=
  match dr_exchange_segment reference with
  | Some segment =>
      match dict_get segment data with
      | Some (VMap segment_data) =>
          match dict_get (dr_security_id reference) segment_data with Some (VMap item) => Some item | _ => None end
      | _ => None
      end
  | None => None
  end.

(** One pair of the loop. *)
Definition session_observation (data : dict string JsonValue) (trading_date : date) (observed_at : instant)
    (pair : Instrument * DhanInstrumentReference) : result (option SessionStatisticsObservation) :=
  found ← match response_item data pair.2 with
          | Some item => session_ohlc_from (dict_get "ohlc"%string item)
          | None => Ok None
          end;
  Ok (match found with
      | Some session_ohlc =>
          Some {| obs_instrument := pair.1; obs_trading_date := trading_date; obs_observed_at := observed_at;
                  obs_session_ohlc := session_ohlc |}
      | None => None
      end).

(** The observations that were not withheld. *)
Definition held (found : list (option SessionStatisticsObservation)) : list SessionStatisticsObservation :=
  omap id found.

(** [normalize_session_statistics_payload] *)
Definition normalize_session_statistics_payload (payload : dict string JsonValue)
    (pairs : list (Instrument * DhanInstrumentReference)) (trading_date : date) (observed_at : instant)
    : result (list SessionStatisticsObservation) :=
  match dict_get "status"%string payload with
  | Some (VText status) =>
      if negb (bool_decide (status = "success"%string)) then Raise NormalizationError
      else match dict_get "data"%string payload with
      | Some (VMap data) =>
          found ← traverse (session_observation data trading_date observed_at) pairs;
          Ok (held found)
      | _ => Raise NormalizationError
      end
  | _ => Raise NormalizationError
  end.

(** * Lemmas *)

(** ** Rows *)

Lemma required_text_stripped row field text : required_text row field = Ok text ->
  strip text = text /\ is_empty text = false.
Proof.
  unfold required_text. destruct (default None _) as [value|]; [|done]. destruct (is_empty (strip value)) eqn:E; [done|].
  intros [= <-]. by rewrite strip_idem.
Qed.

(** A row whose strike is a NaN. *)
Definition nan_strike (row : Row) : Prop :=
  exists text, required_text row "STRIKE_PRICE" = Ok text /\ decimal_of_text text = Some DNan.

Definition row_error (row : Row) (e : exn) : Prop :=
  e = NormalizationError \/ (exists m, e = ValidationError m) \/ (e = InvalidOperation /\ nan_strike row).

Definition validation_error (e : exn) : Prop := exists m, e = ValidationError m.

Lemma yields_text row field : yields (row_error row)
  (fun text => strip text = text /\ is_empty text = false /\ required_text row field = Ok text) (required_text row field).
Proof.
  destruct (required_text row field) as [text|e] eqn:E; cbn.
  - destruct (required_text_stripped _ _ _ E). done.
  - left. unfold required_text in E. destruct (default None _) as [v|]; [|congruence]. destruct (is_empty _); congruence.
Qed.

Lemma yields_identity_component value :
  yields validation_error (fun v => v = upper (strip value) /\ is_empty (strip value) = false)
    (normalize_identity_component value).
Proof. unfold normalize_identity_component. apply yields_guard; [by eexists|done]. Qed.

Lemma yields_optional_component value :
  yields validation_error (fun _ => True) (normalize_optional_contract_component value).
Proof.
  destruct value as [value|]; [|done]. cbn. eapply yields_bind; [apply yields_identity_component|done].
Qed.

Lemma yields_contract self : yields validation_error (fun _ => True) (validate_contract_identity self).
Proof.
  unfold validate_contract_identity.
  destruct (instrument_class self); repeat (apply yields_guard; [by eexists|intros _]); (apply yields_raise_if; [by eexists|done]).
Qed.

Lemma yields_mk_instrument raw : yields validation_error
  (fun i => mk_instrument i = Ok i /\ instrument_class i = instrument_class raw
     /\ market_segment i = market_segment raw /\ exchange i = upper (strip (exchange raw))
     /\ underlying i = underlying raw)
  (mk_instrument raw).
Proof.
  destruct (mk_instrument raw) as [i|e] eqn:E; cbn.
  - split; [by eapply mk_instrument_idem|]. unfold mk_instrument in E.
    apply bind_ok in E as (e & He & E). apply bind_ok in E as (s & _ & E). apply bind_ok in E as (d & _ & E).
    apply bind_ok in E as (l & _ & E). apply bind_ok in E as (r & _ & E). apply bind_ok in E as (? & _ & E).
    apply bind_ok in E as (? & _ & E). injection E as <-. cbn. split_and!; try done.
    pose proof (yields_identity_component (exchange raw)) as H. rewrite He in H. by destruct H.
  - assert (H : yields validation_error (fun _ => True) (mk_instrument raw)); [|by rewrite E in H].
    unfold mk_instrument.
    eapply yields_bind; [apply yields_identity_component|]. intros ? _.
    eapply yields_bind; [apply yields_identity_component|]. intros ? _.
    repeat (eapply yields_bind; [apply yields_optional_component|]; intros ? _).
    apply yields_guard; [by eexists|]. intros _. eapply yields_bind; [apply yields_contract|done].
Qed.

(** What the rest of the adapter relies on of a normalized row. *)
Record reference_ok (r : DhanInstrumentReference) : Prop := {
  ro_valid : mk_instrument (dr_instrument r) = Ok (dr_instrument r);
  ro_class : instrument_class (dr_instrument r) = instrument_class_of (dr_provider_instrument_type r);
  ro_security : is_empty (dr_security_id r) = false;
  ro_linked : is_not_none (dr_underlying_security_id r) = is_derivative (instrument_class (dr_instrument r));
  ro_segment : forall s, dr_exchange_segment r = Some s -> exists letter,
    dict_get (exchange (dr_instrument r), letter) EXCHANGE_SEGMENTS = Some s
    /\ dict_get letter MARKET_SEGMENTS = Some (market_segment (dr_instrument r));
}.

Lemma yields_isoformat s : yields (fun e => exists m, e = ValueError m) (fun _ => True) (fromisoformat s).
Proof.
  unfold fromisoformat, py_date. destruct (read_iso s) as [[[y m] d]|]; [|by eexists].
  do 3 (apply yields_guard; [by eexists|intros _]). done.
Qed.

Lemma yields_weaken_text {A} row (Q : A -> Prop) r : yields validation_error Q r -> yields (row_error row) Q r.
Proof. intros H. eapply yields_mono; [exact H| |done]. intros e He. right. by left. Qed.

Lemma yields_option_strike row c : yields (row_error row) (fun _ => True) (option_strike row c).
Proof.
  destruct c; try done. cbn [option_strike]. eapply yields_bind; [apply yields_text|]. intros text (_ & _ & Ht).
  destruct (decimal_of_text text) as [[q|b|]|] eqn:E; [| | |by left]; cbn.
  - destruct (dec_leb q 0); [by left|done].
  - destruct b; [by left|done].
  - right; right. split; [done|]. by exists text.
Qed.

(** Normalizing a row: a valid reference, or one of three errors. *)
Lemma normalize_row_sound row : yields (row_error row) reference_ok (normalize_instrument_row row).
Proof.
  unfold normalize_instrument_row.
  eapply yields_bind; [apply yields_text|]. intros ex (Hex & _). eapply yields_bind; [apply yields_text|]. intros seg _.
  cbv zeta. destruct (dict_get (upper seg) MARKET_SEGMENTS) as [market|] eqn:Em; [|by left].
  eapply yields_bind; [apply yields_text|]. intros ty _.
  set (c := instrument_class_of (upper ty)).
  eapply (yields_bind _ (fun _ => True)).
  { destruct (is_derivative c); [|done]. destruct (optional_text row _) as [u|]; [|done].
    eapply (yields_bind _ (fun _ => True)); [|done]. apply yields_weaken_text. unfold mk_underlying.
    eapply yields_bind; [apply yields_identity_component|]. intros ? _.
    eapply yields_bind; [apply yields_identity_component|]. intros ? _. exact I. }
  intros u _. eapply (yields_bind _ (fun _ => True)).
  { assert (Hn : yields (row_error row) (fun _ => True) (required_text row "SYMBOL_NAME"))
      by (eapply yields_mono; [apply yields_text|done|done]).
    unfold canonical_listing_symbol. destruct c; try exact Hn. by destruct (optional_text row _). }
  intros sym _. eapply (yields_bind _ (fun _ => True)).
  { unfold derivative_expiry. destruct (negb _); [done|]. eapply yields_bind; [apply yields_text|]. intros t _.
    pose proof (yields_isoformat t) as Hi. destruct (fromisoformat t) as [d|e]; [done|]. destruct Hi as [m ->]. by left. }
  intros ed _. eapply yields_bind; [apply yields_option_strike|]. intros sv _.
  eapply (yields_bind _ (fun _ => True)).
  { destruct c; try done. cbn. eapply yields_bind; [apply yields_text|]. intros t _.
    case_bool_decide; [done|]. case_bool_decide; [done|by left]. }
  intros ot _. eapply (yields_bind _ (fun _ => True)).
  { destruct sv as [[q|b|]|]; cbn; [done|right; left; by eexists..|done]. }
  intros strike _. eapply yields_bind; [apply yields_weaken_text, yields_mk_instrument|].
  intros i (Hi & Hc & Hm & He & _). cbn [instrument_class market_segment exchange] in Hc, Hm, He. eapply yields_bind; [apply yields_text|]. intros sid (_ & Hsid & _).
  eapply (yields_bind _ (fun o => is_not_none o = is_derivative c)).
  { destruct (is_derivative c); [|done]. eapply yields_bind; [apply yields_text|]. done. }
  intros usid Husid. split; cbn [dr_instrument dr_security_id dr_underlying_security_id dr_exchange_segment
    dr_provider_instrument_type]; [done|exact Hc|done|by rewrite Hc|].
  intros s Hs. exists (upper seg). rewrite He, strip_upper, Hex, upper_idem, Hm. done.
Qed.

(** ** The master *)

Definition row_reads (row : option Row) (r : DhanInstrumentReference) : Prop :=
  exists fields, row = Some fields /\ normalize_instrument_row fields = Ok r.

Definition keyed (refs : list DhanInstrumentReference) : dict Instrument DhanInstrumentReference :=
  map (fun r => (dr_instrument r, r)) refs.

Lemma keyed_keys refs : (keyed refs).*1 = map dr_instrument refs.
Proof. unfold keyed. induction refs as [|r refs IH]; [done|]. cbn in *. by rewrite IH. Qed.

Lemma keyed_values refs : (keyed refs).*2 = refs.
Proof. unfold keyed. induction refs as [|r refs IH]; [done|]. cbn in *. by rewrite IH. Qed.

Lemma read_rows_ok rows done_ d : NoDup (map dr_instrument done_) ->
  read_rows rows (keyed done_) = Ok d <->
  exists refs, d = keyed (done_ ++ refs) /\ Forall2 row_reads rows refs /\ NoDup (map dr_instrument (done_ ++ refs)).
Proof.
  revert done_. induction rows as [|row rows IH]; intros done_ Hn; cbn [read_rows].
  { split.
    - intros [= <-]. exists []. by rewrite app_nil_r.
    - intros (refs & -> & Hr & _). inversion Hr; subst. by rewrite app_nil_r. }
  destruct row as [row|].
  2: { split; [done|]. intros (refs & _ & Hr & _). inversion Hr as [|? ? ? ? (f & Hf & _)]; subst. done. }
  rewrite bind_ok. split.
  - intros (r & Hr & H). apply bind_ok in H as ([] & Hb & H). apply raise_if_ok, bool_decide_eq_false in Hb.
    rewrite keyed_keys in Hb. rewrite dict_set_fresh in H by (by rewrite keyed_keys).
    change [(dr_instrument r, r)] with (keyed [r]) in H. unfold keyed in H. rewrite <- map_app in H.
    apply IH in H as (refs & -> & Hf & Hd).
    + exists (r :: refs). rewrite <- app_assoc in *. split_and!; [done| |done]. constructor; [by exists row|done].
    + rewrite map_app. apply NoDup_app. split_and!; [done|set_solver|apply NoDup_singleton].
  - intros (refs & -> & Hf & Hd). inversion Hf as [|? r ? refs' (f & Hff & Hr) Hf']; subst.
    injection Hff as <-. exists r. split; [done|].
    rewrite map_app in Hd. apply NoDup_app in Hd as Hd'. destruct Hd' as (_ & Hd1 & _).
    assert (Hb : dr_instrument r ∉ (keyed done_).*1) by (rewrite keyed_keys; intros Hin; apply (Hd1 _ Hin); left).
    rewrite bool_decide_false by done. cbn [raise_if mbind result_bind]. rewrite dict_set_fresh by done.
    change [(dr_instrument r, r)] with (keyed [r]). unfold keyed. rewrite <- map_app. apply IH.
    + rewrite map_app. apply NoDup_app. split_and!; [done|set_solver|apply NoDup_singleton].
    + exists refs'. rewrite <- app_assoc. split_and!; [done|done|]. by rewrite map_app.
Qed.

Lemma yields_read_rows rows acc :
  yields (fun e => exists fields, Some fields ∈ rows /\ row_error fields e \/ e = NormalizationError)
    (fun _ => True) (read_rows rows acc).
Proof.
  revert acc. induction rows as [|[row|] rows IH]; intros acc; cbn [read_rows]; [done| |by exists []; right].
  pose proof (normalize_row_sound row) as Hr. destruct (normalize_instrument_row row) as [r|e]; cbn [mbind result_bind].
  - destruct (bool_decide _); [by exists []; right|]. cbn [raise_if mbind result_bind].
    eapply yields_mono; [apply IH| |done]. intros e (f & [[Hf He]| ->]); exists f; [left; split; [by right|done]|by right].
  - exists row. left. split; [left|exact Hr].
Qed.

Lemma columns_present (names columns : list string) :
  forallb (fun c => bool_decide (c ∈ names)) columns = true <-> forall c, c ∈ columns -> c ∈ names.
Proof.
  rewrite forallb_forall. split.
  - intros H c Hc. eapply bool_decide_eq_true_1, H, list_elem_of_In, Hc.
  - intros H c Hc. apply bool_decide_eq_true, H, list_elem_of_In, Hc.
Qed.

(** The master normalizes to a list exactly when the columns are there, every row
    normalizes, in order, and no two rows name one instrument. *)
Lemma master_reads table refs : normalize_instrument_master table = Ok refs <->
  (forall c, c ∈ REQUIRED_INSTRUMENT_COLUMNS -> c ∈ ct_fieldnames table)
  /\ Forall2 row_reads (ct_rows table) refs /\ NoDup (map dr_instrument refs).
Proof.
  rewrite <- (columns_present (ct_fieldnames table) REQUIRED_INSTRUMENT_COLUMNS). unfold normalize_instrument_master.
  destruct (forallb _ _); cbn [negb raise_if mbind result_bind as_master_error]; [|by split; [|intros [? _]]].
  pose proof (read_rows_ok (ct_rows table) []) as Hr. change (keyed []) with (@nil (Instrument * DhanInstrumentReference)) in Hr.
  destruct (read_rows (ct_rows table) []) as [d|e].
  - cbn [mbind result_bind as_master_error]. destruct (Hr d ltac:(constructor)) as [Hr1 _].
    destruct (Hr1 eq_refl) as (refs0 & -> & Hf & Hn). cbn [app] in *. rewrite keyed_values. split.
    + intros [= <-]. done.
    + intros (_ & Hf' & Hn'). destruct (Hr (keyed refs) ltac:(constructor)) as [_ Hr2].
      assert (Hk : Ok (keyed refs0) = Ok (keyed refs)) by (apply Hr2; by exists refs). injection Hk as Hk.
      apply (f_equal (fun d => d.*2)) in Hk. rewrite !keyed_values in Hk. by rewrite Hk.
  - cbn [mbind result_bind]. split; [by destruct e|]. intros (_ & Hf & Hn). exfalso.
    destruct (Hr (keyed refs) ltac:(constructor)) as [_ Hr2]. assert (Raise e = Ok (keyed refs)) by (apply Hr2; by exists refs).
    done.
Qed.

(** A master that does not normalize is a [NormalizationError], but for an option row whose
    strike is a NaN, whose [InvalidOperation] escapes (to [load_instruments], which makes it
    a [NormalizationError]). *)
Lemma yields_master table :
  yields (fun e => e = NormalizationError
             \/ e = InvalidOperation /\ exists row, Some row ∈ ct_rows table /\ nan_strike row)
    (Forall reference_ok) (normalize_instrument_master table).
Proof.
  destruct (normalize_instrument_master table) as [refs|e] eqn:E; cbn.
  - apply master_reads in E as (_ & Hf & _). clear -Hf.
    induction Hf as [|row r rows refs (f & _ & Hr) _ IH]; constructor; [|done].
    pose proof (normalize_row_sound f) as Hs. by rewrite Hr in Hs.
  - unfold normalize_instrument_master in E. destruct (negb _); [injection E; auto|]. cbn [raise_if mbind result_bind] in E.
    pose proof (yields_read_rows (ct_rows table) []) as Hy. destruct (read_rows (ct_rows table) []) as [d|e']; [done|].
    destruct Hy as (f & [[Hin [->|[[m ->]|[-> Hn]]]]| ->]); cbn in E; try (injection E as <-; auto).
    right. split; [done|]. by exists f.
Qed.

(** The master is all or nothing: it normalizes to a list exactly when the columns are
    there, every row normalizes, in order, and no two rows name one instrument; every
    reference is then a valid instrument with its security id, class and segment.  Anything
    else is a [NormalizationError], but for an option row whose strike is a NaN, whose
    [InvalidOperation] escapes to [load_instruments]. *)
Theorem instrument_master_correct table :
  (forall refs, normalize_instrument_master table = Ok refs <->
     (forall c, c ∈ REQUIRED_INSTRUMENT_COLUMNS -> c ∈ ct_fieldnames table)
     /\ Forall2 row_reads (ct_rows table) refs /\ NoDup (map dr_instrument refs))
  /\ yields (fun e => e = NormalizationError
               \/ e = InvalidOperation /\ exists row, Some row ∈ ct_rows table /\ nan_strike row)
       (Forall reference_ok) (normalize_instrument_master table).
Proof. split; [intros refs; apply master_reads|apply yields_master]. Qed.

(** ** Universes *)

(** A stock derivative of an underlying whose link leads nowhere, to a share of another
    symbol, or to its share. *)
Definition links (d : DhanInstrumentReference) (u : UnderlyingInstrument) (security_id : string) : Prop :=
  is_nse_stock_derivative_candidate d = true /\ underlying (dr_instrument d) = Some u
  /\ dr_underlying_security_id d = Some security_id.

Definition lost (all : dict string DhanInstrumentReference) (d : DhanInstrumentReference) (u : UnderlyingInstrument)
    : Prop := exists sid, links d u sid /\ dict_get sid all = None.

Definition linked_share (cash : dict string DhanInstrumentReference) (d : DhanInstrumentReference)
    (u : UnderlyingInstrument) (r : DhanInstrumentReference) : Prop :=
  exists sid, links d u sid /\ dict_get sid cash = Some r.

Definition mismatched cash d u : Prop :=
  exists r, linked_share cash d u r /\ symbol (dr_instrument r) <> und_symbol u.

Definition anchored cash d u r : Prop :=
  linked_share cash d u r /\ symbol (dr_instrument r) = und_symbol u.

Lemma by_security_id_get refs sid :
  match dict_get sid (by_security_id refs) with
  | Some r => r ∈ refs /\ dr_security_id r = sid
  | None => sid ∉ map dr_security_id refs
  end.
Proof.
  unfold by_security_id. induction refs as [|r refs IH] using rev_ind; [by apply not_elem_of_nil|].
  rewrite foldl_app. cbn [foldl]. rewrite dict_get_set. destruct (decide (sid = dr_security_id r)) as [->|Hn].
  - split; [set_solver|done].
  - destruct (dict_get sid _) as [r'|]; [set_solver|]. rewrite map_app, not_elem_of_app. split; [done|]. cbn. set_solver.
Qed.

Lemma cash_known refs sid r : dict_get sid (by_security_id (List.filter is_nse_equity_share refs)) = Some r ->
  r ∈ refs /\ is_nse_equity_share r = true /\ dr_security_id r = sid /\ dict_get sid (by_security_id refs) <> None.
Proof.
  intros H. pose proof (by_security_id_get (List.filter is_nse_equity_share refs) sid) as Hc. rewrite H in Hc.
  destruct Hc as [Hin Hs]. apply list_elem_of_In, filter_In in Hin as [Hin Hr]. split_and!; [by apply list_elem_of_In|done|done|].
  pose proof (by_security_id_get refs sid) as Ha. intros E. rewrite E in Ha. apply Ha. rewrite <- Hs.
  apply list_elem_of_In, in_map. exact Hin.
Qed.

Lemma set_add_elem x y s : y ∈ set_add x s <-> y = x \/ y ∈ s.
Proof. unfold set_add. case_bool_decide; set_solver. Qed.

Lemma set_add_nodup x s : NoDup s -> NoDup (set_add x s).
Proof.
  unfold set_add. intros H. case_bool_decide; [done|]. apply NoDup_app. split_and!; [done|set_solver|apply NoDup_singleton].
Qed.

Record resolution_inv (all cash : dict string DhanInstrumentReference) (seen : list DhanInstrumentReference)
    (acc : Resolution) : Prop := {
  ri_missing : forall u, u ∈ rs_missing acc <-> exists d, d ∈ seen /\ lost all d u;
  ri_mismatches : forall u, u ∈ rs_mismatches acc <-> exists d, d ∈ seen /\ mismatched cash d u;
  ri_nodup : NoDup (rs_missing acc) /\ NoDup (rs_mismatches acc) /\ NoDup (rs_references_by_underlying acc).*1;
  ri_keys : forall u, u ∈ (rs_references_by_underlying acc).*1 <-> exists d r, d ∈ seen /\ anchored cash d u r;
  ri_inner : forall u t, dict_get u (rs_references_by_underlying acc) = Some t ->
    NoDup t.*1 /\ forall sid r, (sid, r) ∈ t <-> sid = dr_security_id r /\ exists d, d ∈ seen /\ anchored cash d u r;
}.

(** The seen derivatives and one more. *)
Lemma seen_snoc (P : DhanInstrumentReference -> Prop) seen d :
  (exists x, x ∈ seen ++ [d] /\ P x) <-> (exists x, x ∈ seen /\ P x) \/ P d.
Proof.
  split.
  - intros (x & Hx & Hp). apply elem_of_app in Hx as [Hx|Hx]; [left; by exists x|].
    apply list_elem_of_singleton in Hx as ->. by right.
  - intros [(x & Hx & Hp)|Hp]; [exists x|exists d]; (split; [set_solver|done]).
Qed.

Lemma links_functional d u u' sid sid' : links d u sid -> links d u' sid' -> u = u' /\ sid = sid'.
Proof. intros (_ & H1 & H2) (_ & H3 & H4). split; congruence. Qed.

(** A derivative that adds nothing. *)
Lemma resolution_inv_same all cash seen acc d : resolution_inv all cash seen acc ->
  (forall u, ~ lost all d u) -> (forall u, ~ mismatched cash d u) -> (forall u r, ~ anchored cash d u r) ->
  resolution_inv all cash (seen ++ [d]) acc.
Proof.
  intros [H1 H2 H3 H4 H5] N1 N2 N3. split.
  - intros u. rewrite seen_snoc, H1. specialize (N1 u). tauto.
  - intros u. rewrite seen_snoc, H2. specialize (N2 u). tauto.
  - done.
  - intros u. rewrite H4. split; [intros (x & r & ? & ?); exists x, r; split; [set_solver|done]|].
    intros (x & r & Hx & Hr). apply elem_of_app in Hx as [Hx|Hx]; [by exists x, r|].
    apply list_elem_of_singleton in Hx as ->. by apply N3 in Hr.
  - intros u t Ht. destruct (H5 u t Ht) as [Hn Hi]. split; [done|]. intros sid r. rewrite Hi, seen_snoc.
    specialize (N3 u r). tauto.
Qed.

(** A derivative whose link leads nowhere. *)
Lemma resolution_inv_missing all cash seen acc d u : resolution_inv all cash seen acc ->
  (forall u', lost all d u' <-> u' = u) -> (forall u', ~ mismatched cash d u') -> (forall u' r, ~ anchored cash d u' r) ->
  resolution_inv all cash (seen ++ [d])
    {| rs_references_by_underlying := rs_references_by_underlying acc; rs_missing := set_add u (rs_missing acc);
       rs_mismatches := rs_mismatches acc |}.
Proof.
  intros [H1 H2 (H3 & H4 & H5) H6 H7] N1 N2 N3.
  split; cbn [rs_references_by_underlying rs_missing rs_mismatches].
  - intros u'. rewrite set_add_elem, seen_snoc, H1, N1. tauto.
  - intros u'. rewrite seen_snoc, H2. specialize (N2 u'). tauto.
  - split_and!; [by apply set_add_nodup|done|done].
  - intros u'. rewrite H6. split; [intros (x & r & ? & ?); exists x, r; split; [set_solver|done]|].
    intros (x & r & Hx & Hr). apply elem_of_app in Hx as [Hx|Hx]; [by exists x, r|].
    apply list_elem_of_singleton in Hx as ->. by apply N3 in Hr.
  - intros u' t Ht. destruct (H7 u' t Ht) as [Hn Hi]. split; [done|]. intros sid r. rewrite Hi, seen_snoc.
    specialize (N3 u' r). tauto.
Qed.

(** A derivative of another symbol. *)
Lemma resolution_inv_mismatch all cash seen acc d u : resolution_inv all cash seen acc ->
  (forall u', ~ lost all d u') -> (forall u', mismatched cash d u' <-> u' = u) -> (forall u' r, ~ anchored cash d u' r) ->
  resolution_inv all cash (seen ++ [d])
    {| rs_references_by_underlying := rs_references_by_underlying acc; rs_missing := rs_missing acc;
       rs_mismatches := set_add u (rs_mismatches acc) |}.
Proof.
  intros [H1 H2 (H3 & H4 & H5) H6 H7] N1 N2 N3.
  split; cbn [rs_references_by_underlying rs_missing rs_mismatches].
  - intros u'. rewrite seen_snoc, H1. specialize (N1 u'). tauto.
  - intros u'. rewrite set_add_elem, seen_snoc, H2, N2. tauto.
  - split_and!; [done|by apply set_add_nodup|done].
  - intros u'. rewrite H6. split; [intros (x & r & ? & ?); exists x, r; split; [set_solver|done]|].
    intros (x & r & Hx & Hr). apply elem_of_app in Hx as [Hx|Hx]; [by exists x, r|].
    apply list_elem_of_singleton in Hx as ->. by apply N3 in Hr.
  - intros u' t Ht. destruct (H7 u' t Ht) as [Hn Hi]. split; [done|]. intros sid r. rewrite Hi, seen_snoc.
    specialize (N3 u' r). tauto.
Qed.

Lemma elem_dict_set {K V} `{EqDecision K} (k k' : K) (v v' : V) (d : dict K V) : NoDup d.*1 ->
  (k', v') ∈ dict_set k v d <-> (k' = k /\ v' = v) \/ (k' <> k /\ (k', v') ∈ d).
Proof.
  intros Hn. assert (He : forall k v (d : dict K V), NoDup d.*1 -> (k, v) ∈ d <-> dict_get k d = Some v).
  { intros. split; [by apply dict_elem_get|by apply dict_get_elem]. }
  rewrite !He by (done || by apply dict_set_NoDup). rewrite dict_get_set. destruct (decide (k' = k)) as [->|Hk].
  - split; [intros [= ->]; by left|]. intros [[_ ->]|[? _]]; done.
  - split; [by right|]. intros [[-> _]|[_ ?]]; done.
Qed.

(** A derivative of its share. *)
Lemma resolution_inv_share all cash seen acc d u r : resolution_inv all cash seen acc ->
  (forall u', ~ lost all d u') -> (forall u', ~ mismatched cash d u') ->
  (forall u' r', anchored cash d u' r' <-> u' = u /\ r' = r) ->
  (forall x u' r', anchored cash x u' r' -> dr_security_id r' = dr_security_id r -> r' = r) ->
  resolution_inv all cash (seen ++ [d])
    {| rs_references_by_underlying := dict_set u (dict_set (dr_security_id r) r
                                        (default [] (dict_get u (rs_references_by_underlying acc))))
                                        (rs_references_by_underlying acc);
       rs_missing := rs_missing acc; rs_mismatches := rs_mismatches acc |}.
Proof.
  intros [H1 H2 (H3 & H4 & H5) H6 H7] N1 N2 N3 N4. set (table := rs_references_by_underlying acc) in *.
  split; cbn [rs_references_by_underlying rs_missing rs_mismatches].
  - intros u'. rewrite seen_snoc, H1. specialize (N1 u'). tauto.
  - intros u'. rewrite seen_snoc, H2. specialize (N2 u'). tauto.
  - split_and!; [done|done|by apply dict_set_NoDup].
  - intros u'. assert (Hk : u' ∈ (dict_set u (dict_set (dr_security_id r) r (default [] (dict_get u table))) table).*1
      <-> u' = u \/ u' ∈ table.*1) by (rewrite dict_set_keys; case_decide; set_solver).
    rewrite Hk, H6. split.
    + intros [->|(x & r' & ? & ?)]; [exists d, r; split; [set_solver|by apply N3]|exists x, r'; split; [set_solver|done]].
    + intros (x & r' & Hx & Hr). apply elem_of_app in Hx as [Hx|Hx]; [right; by exists x, r'|left].
      apply list_elem_of_singleton in Hx as ->. by apply N3 in Hr as [-> _].
  - intros u' t. rewrite dict_get_set. destruct (decide (u' = u)) as [->|Hn]; intros Ht.
    2: { destruct (H7 u' t Ht) as [Hnd Hi]. split; [done|]. intros s r'. rewrite Hi, seen_snoc, N3. tauto. }
    injection Ht as <-. assert (Hold : NoDup (default [] (dict_get u table)).*1 /\ forall s r',
      (s, r') ∈ default [] (dict_get u table) <-> s = dr_security_id r' /\ exists x, x ∈ seen /\ anchored cash x u r').
    { destruct (dict_get u table) as [t|] eqn:Et; [exact (H7 u t Et)|]. cbn. split; [constructor|]. intros s r'.
      split; [intros Hx; by apply not_elem_of_nil in Hx|]. intros (_ & x & Hx & Hr). apply dict_get_none in Et.
      exfalso. apply Et, H6. by exists x, r'. }
    destruct Hold as [Hnd Hi]. split; [by apply dict_set_NoDup|]. intros s r'.
    rewrite seen_snoc, N3, elem_dict_set, Hi by done. split.
    + intros [[-> ->]|(_ & -> & Hx)]; [split; [done|by right]|split; [done|by left]].
    + intros [-> [(x & Hx & Hr)|[_ ->]]]; [|by left]. destruct (decide (dr_security_id r' = dr_security_id r)) as [Hs|Hs].
      * left. split; [done|by eapply N4].
      * right. split_and!; [done|done|by exists x].
Qed.

Lemma anchored_by_id refs x u r : anchored (by_security_id (List.filter is_nse_equity_share refs)) x u r ->
  dict_get (dr_security_id r) (by_security_id (List.filter is_nse_equity_share refs)) = Some r.
Proof. intros [(sid & _ & Hg) _]. by destruct (cash_known _ _ _ Hg) as (_ & _ & -> & _). Qed.

Lemma resolve_derivative_step refs seen acc d :
  let all := by_security_id refs in let cash := by_security_id (List.filter is_nse_equity_share refs) in
  resolution_inv all cash seen acc ->
  exists acc', resolve_derivative all cash d acc = Ok acc' /\ resolution_inv all cash (seen ++ [d]) acc'.
Proof.
  intros all cash Hinv. unfold resolve_derivative.
  destruct (is_nse_stock_derivative_candidate d) eqn:Hc; cbn [negb].
  2: { exists acc. split; [done|]. apply resolution_inv_same; [done|..].
       - intros u (sid & (Hd & _) & _). congruence.
       - intros u (r & (sid & (Hd & _) & _) & _). congruence.
       - intros u r ((sid & (Hd & _) & _) & _). congruence. }
  assert (Hsome : exists u sid, links d u sid).
  { pose proof Hc as Hc'. unfold is_nse_stock_derivative_candidate in Hc'. zbool. unfold links.
    destruct (underlying (dr_instrument d)) as [u|]; [|done]. destruct (dr_underlying_security_id d) as [sid|]; [|done]. eauto. }
  destruct Hsome as (u & sid & Hl). pose proof Hl as (_ & Hu & Hs). rewrite Hu, Hs.
  assert (Hlost : forall u', lost all d u' <-> u' = u /\ dict_get sid all = None).
  { intros u'. split; [|intros [-> ?]; by exists sid]. intros (sid' & Hl' & Hg).
    by destruct (links_functional _ _ _ _ _ Hl Hl') as [<- <-]. }
  assert (Hshare : forall u' r', linked_share cash d u' r' <-> u' = u /\ dict_get sid cash = Some r').
  { intros u' r'. split; [|intros [-> ?]; by exists sid]. intros (sid' & Hl' & Hg).
    by destruct (links_functional _ _ _ _ _ Hl Hl') as [<- <-]. }
  assert (Hknown : forall r, dict_get sid cash = Some r -> dict_get sid all <> None) by (intros r Hr; by destruct (cash_known _ _ _ Hr) as (_ & _ & _ & ?)).
  destruct (dict_get sid all) as [any|] eqn:Ea.
  2: { eexists. split; [reflexivity|]. apply resolution_inv_missing; [done|intros u'; rewrite Hlost; tauto| |].
       - intros u' (r & [_ Hr]%Hshare & _). by apply Hknown in Hr.
       - intros u' r [[_ Hr]%Hshare _]. by apply Hknown in Hr. }
  assert (Hl' : forall u', ~ lost all d u') by (intros u' [_ ?]%Hlost; done).
  destruct (dict_get sid cash) as [r|] eqn:Er.
  2: { exists acc. split; [done|]. apply resolution_inv_same; [done|done| |].
       - intros u' (r & [_ Hr]%Hshare & _). done.
       - intros u' r [[_ Hr]%Hshare _]. done. }
  destruct (decide (symbol (dr_instrument r) = und_symbol u)) as [Heq|Hne].
  - rewrite bool_decide_true by done. cbn [negb]. eexists. split; [reflexivity|]. apply resolution_inv_share; [done|done| | |].
    + intros u' (r' & [-> [= <-]]%Hshare & Hx). done.
    + intros u' r'. unfold anchored. rewrite Hshare. split; [intros [[? [= ->]] _]; done|intros [-> ->]; done].
    + intros x u' r' Hx%anchored_by_id Hid. destruct (cash_known _ _ _ Er) as (_ & _ & Hsid & _).
      rewrite Hid, Hsid in Hx. unfold cash in Er. congruence.
  - rewrite bool_decide_false by done. cbn [negb]. eexists. split; [reflexivity|]. apply resolution_inv_mismatch; [done|done| |].
    + intros u'. split; [intros (r' & [-> _]%Hshare & _); done|intros ->; exists r; split; [by apply Hshare|done]].
    + intros u' r' [[-> [= <-]]%Hshare Hx]. done.
Qed.

Lemma resolve_derivatives_spec refs ds seen acc :
  let all := by_security_id refs in let cash := by_security_id (List.filter is_nse_equity_share refs) in
  resolution_inv all cash seen acc ->
  exists acc', resolve_derivatives all cash ds acc = Ok acc' /\ resolution_inv all cash (seen ++ ds) acc'.
Proof.
  intros all cash. revert seen acc. induction ds as [|d ds IH]; intros seen acc Hinv; cbn [resolve_derivatives].
  { exists acc. by rewrite app_nil_r. }
  destruct (resolve_derivative_step refs seen acc d Hinv) as (acc1 & H1 & Hinv1). fold all cash in H1. rewrite H1.
  cbn [mbind result_bind]. destruct (IH _ _ Hinv1) as (acc2 & H2 & Hinv2). exists acc2. by rewrite <- app_assoc in Hinv2.
Qed.

Lemma underlying_leb_total a b : underlying_leb a b = true \/ underlying_leb b a = true.
Proof. apply strings_leb_total. Qed.

Lemma underlying_leb_trans a b c : underlying_leb a b = true -> underlying_leb b c = true -> underlying_leb a c = true.
Proof. apply strings_leb_trans. Qed.

Lemma underlying_leb_antisym a b : underlying_leb a b = true -> underlying_leb b a = true -> a = b.
Proof.
  intros H1 H2. assert (H := strings_leb_antisym [und_exchange a; und_symbol a] [und_exchange b; und_symbol b] eq_refl H1 H2).
  destruct a, b. by injection H as -> ->.
Qed.

Lemma sort_underlyings_sorted l : StronglySorted (fun a b => underlying_leb a b = true) (sort_underlyings l).
Proof. apply py_sorted_sorted; [intros; apply underlying_leb_total|intros ? ? ?; apply underlying_leb_trans]. Qed.

Lemma sort_underlyings_ext l1 l2 : NoDup l1 -> NoDup l2 -> (forall u, u ∈ l1 <-> u ∈ l2) ->
  sort_underlyings l1 = sort_underlyings l2.
Proof.
  intros H1 H2 He. apply py_sorted_unique;
    [intros; apply underlying_leb_total|intros ? ? ?; apply underlying_leb_trans| |by apply NoDup_Permutation].
  intros x y _ _. apply underlying_leb_antisym.
Qed.

Lemma filter_sort_underlyings (P : UnderlyingInstrument -> Prop) `{!forall x, Decision (P x)} l :
  NoDup l -> filter P (sort_underlyings l) = sort_underlyings (filter P l).
Proof.
  intros Hn. rewrite <- (py_sorted_id underlying_leb (filter P (sort_underlyings l)))
    by (apply StronglySorted_filter, sort_underlyings_sorted).
  apply sort_underlyings_ext.
  - apply NoDup_filter. unfold sort_underlyings. by rewrite py_sorted_perm.
  - by apply NoDup_filter.
  - intros u. rewrite !list_elem_of_filter. unfold sort_underlyings. by rewrite elem_of_py_sorted.
Qed.

Lemma production_anchored cash d u :
  (is_production_nse_stock_derivative cash d = true /\ underlying (dr_instrument d) = Some u)
  <-> exists r, anchored cash d u r.
Proof.
  unfold is_production_nse_stock_derivative. split.
  - intros [H Hu]. destruct (is_nse_stock_derivative_candidate d) eqn:Hc; [|done]. cbn [negb] in H.
    destruct (dr_underlying_security_id d) as [sid|] eqn:Hs; [|done]. rewrite Hu in H.
    destruct (dict_get sid cash) as [r|] eqn:Hr; [|done]. zbool. exists r. split; [|done]. by exists sid.
  - intros (r & (sid & (Hc & Hu & Hs) & Hr) & Hsym). rewrite Hc, Hu, Hs, Hr. cbn [negb]. by rewrite bool_decide_true.
Qed.

Lemma candidate_type d : is_nse_stock_derivative_candidate d = true ->
  dr_provider_instrument_type d = "FUTSTK"%string \/ dr_provider_instrument_type d = "OPTSTK"%string.
Proof. unfold is_nse_stock_derivative_candidate. intros H. zbool. set_solver. Qed.

(** The underlyings of the stock derivatives are those with an anchored derivative. *)
Lemma fno_underlyings_spec refs u : u ∈ fu_underlyings (derive_equity_fno_universe refs) <->
  exists d r, d ∈ refs /\ anchored (by_security_id (List.filter is_nse_equity_share refs)) d u r.
Proof.
  unfold derive_equity_fno_universe. cbn [fu_underlyings]. unfold sort_underlyings.
  rewrite elem_of_py_sorted, elem_of_remove_dups, list_elem_of_omap. unfold sort_references.
  set (cash := by_security_id _). split.
  - intros (d & Hd & Hu). rewrite elem_of_app, !elem_of_py_sorted, !list_elem_of_In in Hd.
    assert (Hf : In d refs /\ is_production_nse_stock_derivative cash d = true)
      by (destruct Hd as [Hd|Hd]; apply filter_In in Hd as [Hd _]; by apply filter_In in Hd).
    destruct Hf as [Hin Hp]. destruct (proj1 (production_anchored cash d u) (conj Hp Hu)) as [r Hr].
    exists d, r. split; [by apply list_elem_of_In|done].
  - intros (d & r & Hin & Hr). destruct (proj2 (production_anchored cash d u) (ex_intro _ r Hr)) as [Hp Hu].
    exists d. split; [|done]. rewrite elem_of_app, !elem_of_py_sorted, !list_elem_of_In, !filter_In.
    apply list_elem_of_In in Hin. destruct Hr as [(sid & (Hc & _) & _) _].
    destruct (candidate_type d Hc) as [->| ->]; [left|right]; by rewrite bool_decide_true.
Qed.

(** What the live universe promises. *)
Record live_universe_ok (refs : list DhanInstrumentReference) (lu : DhanCashEquityLiveUniverse) : Prop := {
  lo_underlyings : lu_underlyings lu = filter
    (fun u => u ∉ lu_missing_underlyings lu ++ lu_symbol_mismatches lu ++ lu_ambiguous_underlyings lu)
    (fu_underlyings (derive_equity_fno_universe refs));
  lo_references : Forall2 (fun u r => r ∈ refs /\ is_nse_equity_share r = true /\ symbol (dr_instrument r) = und_symbol u
      /\ forall d r', d ∈ refs -> anchored (by_security_id (List.filter is_nse_equity_share refs)) d u r' -> r' = r)
    (lu_underlyings lu) (lu_cash_references lu);
  lo_missing : forall u, u ∈ lu_missing_underlyings lu <-> exists d, d ∈ refs /\ lost (by_security_id refs) d u;
  lo_mismatches : forall u, u ∈ lu_symbol_mismatches lu <-> exists d, d ∈ refs
    /\ mismatched (by_security_id (List.filter is_nse_equity_share refs)) d u;
  lo_ambiguous : forall u, u ∈ lu_ambiguous_underlyings lu <-> exists d1 r1 d2 r2, d1 ∈ refs /\ d2 ∈ refs
    /\ anchored (by_security_id (List.filter is_nse_equity_share refs)) d1 u r1
    /\ anchored (by_security_id (List.filter is_nse_equity_share refs)) d2 u r2 /\ dr_security_id r1 <> dr_security_id r2;
}.

Lemma initial_resolution all cash :
  resolution_inv all cash [] {| rs_references_by_underlying := []; rs_missing := []; rs_mismatches := [] |}.
Proof.
  assert (Hnil : forall A (x : A) (P : Prop), (x ∈ [] <-> P) <-> ~ P) by (intros A x P; split; [intros H HP; by apply H, not_elem_of_nil in HP|intros H; split; [intros Hx; by apply not_elem_of_nil in Hx|done]]).
  split; cbn [rs_references_by_underlying rs_missing rs_mismatches].
  - intros u. apply Hnil. intros (d & Hd & _). by apply not_elem_of_nil in Hd.
  - intros u. apply Hnil. intros (d & Hd & _). by apply not_elem_of_nil in Hd.
  - split_and!; constructor.
  - intros u. apply Hnil. intros (d & r & Hd & _). by apply not_elem_of_nil in Hd.
  - done.
Qed.

(** The shares of a resolved underlying. *)
Lemma table_shares all cash refs acc u t : resolution_inv all cash refs acc ->
  dict_get u (rs_references_by_underlying acc) = Some t ->
  (length t =? 1)%nat = false <-> exists d1 r1 d2 r2, d1 ∈ refs /\ d2 ∈ refs
    /\ anchored cash d1 u r1 /\ anchored cash d2 u r2 /\ dr_security_id r1 <> dr_security_id r2.
Proof.
  intros Hinv Ht. destruct (ri_inner _ _ _ _ Hinv u t Ht) as [Hn Hi].
  assert (Hin : exists d r, d ∈ refs /\ anchored cash d u r).
  { apply (ri_keys _ _ _ _ Hinv). apply dict_get_elem in Ht. apply list_elem_of_fmap. by exists (u, t). }
  destruct Hin as (d & r & Hd & Hr). assert (Hmem : (dr_security_id r, r) ∈ t) by (apply Hi; split; [done|by exists d]).
  rewrite Nat.eqb_neq. destruct t as [|[s1 r1] [|[s2 r2] t]]; [by apply not_elem_of_nil in Hmem| |].
  - split; [done|]. intros (d1 & q1 & d2 & q2 & H1 & H2 & A1 & A2 & Hne). exfalso. apply Hne.
    assert (E1 : (dr_security_id q1, q1) ∈ [(s1, r1)]) by (apply Hi; split; [done|by exists d1]).
    assert (E2 : (dr_security_id q2, q2) ∈ [(s1, r1)]) by (apply Hi; split; [done|by exists d2]).
    apply list_elem_of_singleton in E1, E2. congruence.
  - split; [|done]. intros _. destruct (proj1 (Hi s1 r1) ltac:(left)) as (-> & d1 & H1 & A1).
    destruct (proj1 (Hi s2 r2) ltac:(right; left)) as (-> & d2 & H2 & A2).
    exists d1, r1, d2, r2. split_and!; try done. cbn in Hn. apply NoDup_cons in Hn as [Hn _]. intros E. apply Hn. rewrite E. left.
Qed.

Lemma filter_table_keys {V} (table : dict UnderlyingInstrument V) (p : UnderlyingInstrument * V -> bool) u :
  NoDup table.*1 -> u ∈ (List.filter p table).*1 <-> exists t, dict_get u table = Some t /\ p (u, t) = true.
Proof.
  intros Hn. rewrite list_elem_of_fmap. split.
  - intros ((u' & t) & -> & Hin). apply list_elem_of_In, filter_In in Hin as [Hin Hp]. exists t. split; [|done].
    apply dict_elem_get; [done|by apply list_elem_of_In].
  - intros (t & Ht & Hp). exists (u, t). split; [done|]. apply list_elem_of_In, filter_In. split; [|done].
    by apply list_elem_of_In, dict_get_elem.
Qed.

Lemma filter_table_nodup {V} (table : dict UnderlyingInstrument V) (p : UnderlyingInstrument * V -> bool) :
  NoDup table.*1 -> NoDup (List.filter p table).*1.
Proof.
  induction table as [|[u t] table IH]; [done|]. cbn [fmap list_fmap fst List.filter]. intros [Hu Hn]%NoDup_cons.
  destruct (p (u, t)); [|by apply IH]. cbn. apply NoDup_cons. split; [|by apply IH].
  intros Hin. apply Hu. apply list_elem_of_fmap in Hin as (kv & -> & Hin). apply list_elem_of_fmap. exists kv.
  split; [done|]. by apply list_elem_of_In, filter_In in Hin as [Hin%list_elem_of_In _].
Qed.

Section LiveUniverse.
Context (refs : list DhanInstrumentReference) (acc : Resolution).
Local Abbreviation all := (by_security_id refs).
Local Abbreviation cash := (by_security_id (List.filter is_nse_equity_share refs)).
Local Abbreviation table := (rs_references_by_underlying acc).
Hypothesis Hinv : resolution_inv all cash refs acc.

Lemma ambiguous_in_spec u : u ∈ ambiguous_in table <-> exists d1 r1 d2 r2, d1 ∈ refs /\ d2 ∈ refs
  /\ anchored cash d1 u r1 /\ anchored cash d2 u r2 /\ dr_security_id r1 <> dr_security_id r2.
Proof using Hinv.
  unfold ambiguous_in. rewrite filter_table_keys by apply (ri_nodup _ _ _ _ Hinv). split.
  - intros (t & Ht & Hp). apply (table_shares all cash refs acc u t Hinv Ht). by apply negb_true_iff in Hp.
  - intros H. pose proof H as (d1 & r1 & _ & _ & Hd & _ & Hr & _).
    assert (Hk : u ∈ table.*1) by (apply (ri_keys _ _ _ _ Hinv); by exists d1, r1).
    destruct (dict_get u table) as [t|] eqn:Ht; [|by apply dict_get_none in Ht]. exists t. split; [done|].
    apply negb_true_iff. by apply (table_shares all cash refs acc u t Hinv Ht).
Qed.

Lemma resolved_in_spec blocked u : (forall u, u ∈ ambiguous_in table -> u ∈ blocked) ->
  u ∈ resolved_in table blocked <-> u ∈ table.*1 /\ u ∉ blocked.
Proof using Hinv.
  intros Hb. unfold resolved_in. rewrite filter_table_keys by apply (ri_nodup _ _ _ _ Hinv). split.
  - intros (t & Ht & Hp). zbool. split; [|done]. apply dict_get_elem in Ht. apply list_elem_of_fmap. by exists (u, t).
  - intros [Hk Hu]. destruct (dict_get u table) as [t|] eqn:Ht; [|by apply dict_get_none in Ht]. exists t. split; [done|].
    cbn. rewrite bool_decide_false by done. cbn. destruct (length t =? 1)%nat eqn:El; [done|]. exfalso. apply Hu, Hb.
    apply ambiguous_in_spec. by apply (table_shares all cash refs acc u t Hinv Ht).
Qed.

(** The share of a resolved underlying is the only one. *)
Lemma first_value_spec u : u ∈ table.*1 -> u ∉ ambiguous_in table ->
  exists r, first_value (default [] (dict_get u table)) = Ok r
  /\ r ∈ refs /\ is_nse_equity_share r = true /\ symbol (dr_instrument r) = und_symbol u
  /\ forall d r', d ∈ refs -> anchored cash d u r' -> r' = r.
Proof using Hinv.
  intros Hk Ha. destruct (dict_get u table) as [t|] eqn:Ht; [|by apply dict_get_none in Ht].
  destruct (ri_inner _ _ _ _ Hinv u t Ht) as [_ Hi]. apply (ri_keys _ _ _ _ Hinv) in Hk as (d & r & Hd & Hr).
  assert (Hone : forall d' r', d' ∈ refs -> anchored cash d' u r' -> r' = r).
  { intros d' r' Hd' Hr'. destruct (decide (dr_security_id r' = dr_security_id r)) as [E|E].
    - apply anchored_by_id in Hr, Hr'. congruence.
    - exfalso. apply Ha, ambiguous_in_spec. by exists d', r', d, r. }
  cbn [default from_option id]. destruct t as [|[sid r0] t].
  { exfalso. apply (not_elem_of_nil (dr_security_id r, r)), Hi. split; [done|by exists d]. }
  destruct (proj1 (Hi sid r0) ltac:(left)) as (_ & d0 & Hd0 & Hr0). rewrite (Hone d0 r0 Hd0 Hr0). exists r.
  split; [done|]. destruct Hr as [(s & _ & Hg) Hsym]. destruct (cash_known _ _ _ Hg) as (? & ? & _ & _). by split_and!.
Qed.
End LiveUniverse.

(** [C30] The live universe never fails and is the stock-derivative universe less what is
    blocked: its underlyings are those of the futures and options in the same order but for
    the missing, mismatched and ambiguous ones, each with its one NSE share of the same
    symbol; missing are the underlyings with a link to no row, mismatched those with a link
    to a share of another symbol, ambiguous those linked to two shares. *)
Theorem live_universe_correct refs :
  exists lu, resolve_nse_cash_equity_live_universe refs = Ok lu /\ live_universe_ok refs lu.
Proof.
  unfold resolve_nse_cash_equity_live_universe. set (all := by_security_id refs).
  set (cash := by_security_id (List.filter is_nse_equity_share refs)).
  destruct (resolve_derivatives_spec refs refs [] _ (initial_resolution all cash)) as (acc & Ha & Hinv).
  fold all cash in Ha, Hinv. cbn [app] in Hinv. rewrite Ha. cbn [mbind result_bind]. cbv zeta.
  set (table := rs_references_by_underlying acc). set (ambiguous := ambiguous_in table).
  set (blocked := rs_missing acc ++ rs_mismatches acc ++ ambiguous).
  destruct (ri_nodup _ _ _ _ Hinv) as (Hn1 & Hn2 & Hn3).
  assert (Hres : forall u, u ∈ sort_underlyings (resolved_in table blocked) <-> u ∈ table.*1 /\ u ∉ blocked).
  { intros u. unfold sort_underlyings. rewrite elem_of_py_sorted. apply (resolved_in_spec refs acc Hinv).
    unfold blocked. intros u' Hu'. rewrite !elem_of_app. by right; right. }
  destruct (traverse_total (fun u => first_value (default [] (dict_get u table))) (fun u r => r ∈ refs
    /\ is_nse_equity_share r = true /\ symbol (dr_instrument r) = und_symbol u
    /\ forall d r', d ∈ refs -> anchored cash d u r' -> r' = r) (sort_underlyings (resolved_in table blocked)))
    as (shares & Hsh & Hok).
  { intros u [Hk Hb]%Hres. apply (first_value_spec refs acc Hinv u Hk). unfold blocked, ambiguous in Hb. set_solver. }
  rewrite Hsh. cbn [mbind result_bind]. eexists. split; [reflexivity|].
  split; cbn [lu_underlyings lu_cash_references lu_missing_underlyings lu_ambiguous_underlyings lu_symbol_mismatches].
  - unfold derive_equity_fno_universe at 1. cbn [fu_underlyings]. rewrite filter_sort_underlyings by apply NoDup_remove_dups.
    apply sort_underlyings_ext; [by apply filter_table_nodup|by apply NoDup_filter, NoDup_remove_dups|]. intros u.
    pose proof (fno_underlyings_spec refs u) as Hf. pose proof (Hres u) as Hu. unfold derive_equity_fno_universe in Hf.
    cbn [fu_underlyings] in Hf. unfold sort_underlyings in *. rewrite elem_of_py_sorted in Hf, Hu.
    rewrite list_elem_of_filter, Hf, Hu. rewrite !elem_of_app, !elem_of_py_sorted. unfold blocked. rewrite !elem_of_app.
    pose proof (ri_keys _ _ _ _ Hinv u) as Hk. fold table in Hk. rewrite Hk. tauto.
  - exact Hok.
  - intros u. unfold sort_underlyings. rewrite elem_of_py_sorted. apply (ri_missing _ _ _ _ Hinv).
  - intros u. unfold sort_underlyings. rewrite elem_of_py_sorted. apply (ri_mismatches _ _ _ _ Hinv).
  - intros u. unfold sort_underlyings. rewrite elem_of_py_sorted. apply (ambiguous_in_spec refs acc Hinv).
Qed.

(** ** Historical candles *)

(** The errors [normalize_historical_payload] turns into its own, and its own. *)
Definition historical_error (e : exn) : Prop :=
  match e with
  | NormalizationError | InvalidOperation | OverflowError | TypeError _ | ValidationError _ | ValueError _ => True
  | _ => False
  end.

Lemma yields_integral v : yields historical_error (fun n => integral_number v = Ok n) (integral_number v).
Proof. destruct v; try done. cbn. by destruct (float_integer x). Qed.

Lemma yields_decimal v : yields historical_error (fun d => decimal_value v = Ok d) (decimal_value v).
Proof. destruct v; try done. cbn. by destruct (decimal_of_text s). Qed.

Lemma yields_finite d : yields historical_error (fun q => d = DFinite q) (finite_value d).
Proof. by destruct d. Qed.

(** What a candle says of the entries it was made of. *)
Definition candle_of (request : HistoricalRequest) (values : list JsonValue) (c : Candle) : Prop :=
  candle_valid c /\ candle_instrument c = req_instrument request
  /\ end_timestamp c = start_timestamp c + req_interval request
  /\ exists o h l p v t n, values = [o; h; l; p; v; t]
     /\ decimal_value o = Ok (DFinite (open_price c)) /\ decimal_value h = Ok (DFinite (high_price c))
     /\ decimal_value l = Ok (DFinite (low_price c)) /\ decimal_value p = Ok (DFinite (close_price c))
     /\ integral_number v = Ok (traded_quantity c) /\ integral_number t = Ok n /\ start_timestamp c = n * second.

Lemma yields_historical_candle request values :
  yields historical_error (candle_of request values) (historical_candle request values).
Proof.
  destruct values as [|o [|h [|l [|p [|v [|t [|]]]]]]]; try done. cbn [historical_candle].
  apply (yields_bind _ (fun start => exists n, integral_number t = Ok n /\ start = n * second)).
  { unfold epoch_instant. eapply yields_bind; [apply yields_integral|]. intros n Hn. apply yields_guard; [done|].
    intros _. by exists n. }
  intros start (n & Hn & Hstart). apply (yields_bind _ (fun stop => stop = start + req_interval request)).
  { unfold add_interval. cbv zeta. by apply yields_guard. }
  intros stop Hstop.
  eapply yields_bind; [apply yields_decimal|]. intros ov Ho. eapply yields_bind; [apply yields_decimal|]. intros hv Hh.
  eapply yields_bind; [apply yields_decimal|]. intros lv Hl. eapply yields_bind; [apply yields_decimal|]. intros pv Hp.
  apply (yields_bind _ (fun q => integral_number v = Ok q)).
  { unfold volume. eapply yields_bind; [apply yields_integral|]. intros q Hq. by apply yields_guard. }
  intros q Hq.
  eapply yields_bind; [apply yields_finite|]. intros ? ->. eapply yields_bind; [apply yields_finite|]. intros ? ->.
  eapply yields_bind; [apply yields_finite|]. intros ? ->. eapply yields_bind; [apply yields_finite|]. intros ? ->.
  match goal with |- yields _ _ (mk_candle ?c) => set (raw := c) end.
  assert (He : yields historical_error (fun _ => True) (mk_candle raw)).
  { unfold mk_candle, validate_candle_interval_and_prices. apply yields_guard; [done|]. intros _.
    apply yields_guard; [done|]. intros _. apply (yields_bind _ (fun _ => True)); [|done].
    apply yields_guard; [done|]. intros _. apply yields_guard; [done|]. intros _. apply yields_guard; [done|]. intros _.
    by apply yields_raise_if. }
  destruct (mk_candle raw) as [c|e] eqn:E; [|exact He]. apply mk_candle_ok in E as [-> Hv]. cbn.
  split_and!; [done|done|done|]. exists o, h, l, p, v, t, n. by split_and!.
Qed.

Lemma one_length {A} (ls : list (list A)) (l : list A) :
  length (remove_dups (map length (l :: ls))) = 1%nat <-> Forall (fun a => length a = length l) ls.
Proof.
  assert (He : forall n, n ∈ remove_dups (map length (l :: ls)) <-> n ∈ map length (l :: ls)) by (intros; apply elem_of_remove_dups).
  assert (Hn := NoDup_remove_dups (map length (l :: ls))). revert He Hn.
  generalize (remove_dups (map length (l :: ls))). intros ds He Hn. split.
  - intros Hl. destruct ds as [|n [|]]; try done. apply Forall_forall. intros a Ha.
    assert (H1 : length l ∈ [n]) by (apply He; left).
    assert (H2 : length a ∈ [n]) by (apply He; right; apply list_elem_of_In, in_map, list_elem_of_In, Ha).
    apply list_elem_of_singleton in H1, H2. congruence.
  - intros Hf. assert (Hall : forall n, n ∈ ds -> n = length l).
    { intros n Hin. apply He in Hin. cbn in Hin. apply elem_of_cons in Hin as [->|Hin]; [done|].
      apply list_elem_of_In, in_map_iff in Hin as (a & <- & Ha%list_elem_of_In). rewrite Forall_forall in Hf. by apply Hf. }
    assert (Hin : length l ∈ ds) by (apply He; left).
    destruct ds as [|n [|m ds]]; [by apply not_elem_of_nil in Hin|done|exfalso].
    apply NoDup_cons in Hn as [Hn _]. apply Hn. rewrite (Hall n), (Hall m) by (by repeat constructor). left.
Qed.

(** The entries of one candle. *)
Definition column (arrays : list (list JsonValue)) (k : nat) : list JsonValue :=
  omap (fun a : list JsonValue => a !! k) arrays.

Definition field_arrays (payload : dict string JsonValue) (arrays : list (list JsonValue)) (n : nat) : Prop :=
  Forall2 (fun field a => dict_get field payload = Some (VList a)) HISTORICAL_FIELDS arrays
  /\ Forall (fun a => length a = n) arrays.

Lemma named_arrays_unique (payload : dict string JsonValue) (fields : list string) (arrays arrays' : list (list JsonValue)) :
  Forall2 (fun field a => dict_get field payload = Some (VList a)) fields arrays ->
  Forall2 (fun field a => dict_get field payload = Some (VList a)) fields arrays' -> arrays = arrays'.
Proof.
  intros Hf. revert arrays'. induction Hf as [|f b fs bs Hb _ IH]; intros arrays' Hf'; inversion Hf'; subst; [done|].
  f_equal; [congruence|by apply IH].
Qed.

Lemma historical_arrays_spec payload : match historical_arrays payload with
  | Ok arrays => field_arrays payload arrays (length (default [] (head arrays)))
  | Raise e => e = NormalizationError /\ forall arrays n, ~ field_arrays payload arrays n
  end.
Proof.
  unfold historical_arrays.
  assert (Hone : forall f a, historical_array payload f = Ok a <-> dict_get f payload = Some (VList a)).
  { intros f a. unfold historical_array. destruct (dict_get f payload) as [[]|]; split; congruence. }
  destruct (traverse (historical_array payload) HISTORICAL_FIELDS) as [arrays|e] eqn:Et; cbn [mbind result_bind].
  - apply traverse_ok in Et. assert (Hf : Forall2 (fun f a => dict_get f payload = Some (VList a)) HISTORICAL_FIELDS arrays).
    { eapply Forall2_impl; [exact Et|]. intros f a. apply Hone. }
    destruct arrays as [|a arrays]; [by apply Forall2_length in Hf|].
    destruct (negb _) eqn:E; cbn [raise_if mbind result_bind]; zbool.
    + split; [done|]. intros arrays' n [Hf' Hn]. apply Nat.eqb_neq in E. apply E, one_length.
      rewrite (named_arrays_unique payload _ _ _ Hf' Hf) in Hn. apply Forall_cons in Hn as [Ha Hn]. eapply Forall_impl; [exact Hn|]. cbn. congruence.
    + apply Nat.eqb_eq, one_length in E. split; [done|]. constructor; [done|exact E].
  - apply traverse_raise in Et as (f & Hf & He). split.
    + unfold historical_array in He. destruct (dict_get f payload) as [[]|]; congruence.
    + intros arrays n [Hf' _]. apply list_elem_of_lookup in Hf as (k & Hk).
      destruct (Forall2_lookup_l _ _ _ _ _ Hf' Hk) as (a & _ & Ha). apply Hone in Ha. congruence.
Qed.

Lemma field_arrays_unique payload arrays n arrays' : field_arrays payload arrays n ->
  field_arrays payload arrays' (length (default [] (head arrays'))) ->
  arrays = arrays' /\ n = length (default [] (head arrays')).
Proof.
  intros [Hf Hn] [Hf' _]. pose proof (named_arrays_unique payload _ _ _ Hf Hf') as Heq. subst arrays'. split; [done|].
  destruct arrays as [|a arrays]; [by apply Forall2_length in Hf|]. by apply Forall_cons in Hn as [Ha _].
Qed.

Lemma mk_result_ok request candles : Forall (fun c => candle_instrument c = req_instrument request) candles ->
  mk_historical_result request candles = Ok {| res_request := request; res_candles := candles |}.
Proof.
  intros H. unfold mk_historical_result. destruct (py_any _ _) eqn:E; [|done]. exfalso.
  apply existsb_exists in E as (c & Hc%list_elem_of_In & Hx). rewrite Forall_forall in H. apply H in Hc. zbool. done.
Qed.

(** A historical payload becomes exactly the candles of its columns, in order: it
    normalizes when it has the six lists with one length and every column is a valid
    candle, each candle carries the values of its column, starts at its second and lasts
    the interval asked for; anything else is a [NormalizationError]. *)
Theorem historical_payload_correct request payload :
  (forall res, normalize_historical_payload request payload = Ok res <->
     exists arrays n, field_arrays payload arrays n /\ res_request res = request
     /\ Forall2 (fun k c => historical_candle request (column arrays k) = Ok c) (seq 0 n) (res_candles res))
  /\ yields (eq NormalizationError) (fun res => forall k c, res_candles res !! k = Some c ->
       exists arrays n, field_arrays payload arrays n /\ candle_of request (column arrays k) c)
       (normalize_historical_payload request payload).
Proof.
  assert (Hcandle : forall ks arrays cs, Forall2 (fun k c => historical_candle request (column arrays k) = Ok c) ks cs ->
    Forall2 (fun k c => candle_of request (column arrays k) c) ks cs).
  { intros ks arrays cs H. eapply Forall2_impl; [exact H|]. intros k c Hk.
    pose proof (yields_historical_candle request (column arrays k)) as Hy. by rewrite Hk in Hy. }
  assert (Hinst : forall ks arrays cs, Forall2 (fun k c => historical_candle request (column arrays k) = Ok c) ks cs ->
    Forall (fun c => candle_instrument c = req_instrument request) cs).
  { intros ks arrays cs H%Hcandle. induction H as [|k c ks cs (_ & Hi & _) _ IH]; by constructor. }
  assert (Hzip : forall arrays cs, traverse (historical_candle request) (zip_rows arrays) = Ok cs <->
    Forall2 (fun k c => historical_candle request (column arrays k) = Ok c) (seq 0 (length (default [] (head arrays)))) cs).
  { intros arrays cs. rewrite traverse_ok. unfold zip_rows. by rewrite Forall2_fmap_l. }
  assert (Hiff : forall res, normalize_historical_payload request payload = Ok res <->
     exists arrays n, field_arrays payload arrays n /\ res_request res = request
     /\ Forall2 (fun k c => historical_candle request (column arrays k) = Ok c) (seq 0 n) (res_candles res)).
  { intros res. unfold normalize_historical_payload. pose proof (historical_arrays_spec payload) as Ha.
    destruct (historical_arrays payload) as [arrays|e]; cbn [mbind result_bind].
    2: { split; [done|]. intros (arrays & n & Hf & _). destruct Ha as [_ Ha]. by apply Ha in Hf. }
    split.
    - intros H. destruct (traverse _ _) as [cs|e] eqn:Et; cbn [mbind result_bind] in H; [|by destruct e].
      apply Hzip in Et. rewrite mk_result_ok in H by (by eapply Hinst). injection H as <-.
      exists arrays, (length (default [] (head arrays))). done.
    - intros (arrays' & n & Hf & Hreq & Hcs).
      assert (Heq : arrays' = arrays /\ n = length (default [] (head arrays))) by (by apply (field_arrays_unique payload)).
      destruct Heq as [-> ->]. pose proof Hcs as Hcs'. apply Hzip in Hcs'. rewrite Hcs'. cbn [mbind result_bind].
      rewrite mk_result_ok by (by eapply Hinst). destruct res. cbn in *. by subst. }
  split; [exact Hiff|]. destruct (normalize_historical_payload request payload) as [res|e] eqn:E.
  - destruct (proj1 (Hiff res) eq_refl) as (arrays & n & Hf & _ & Hcs). intros k c Hk. exists arrays, n. split; [done|].
    apply Hcandle in Hcs. destruct (Forall2_lookup_r _ _ _ _ _ Hcs Hk) as (k' & Hk' & Hc).
    apply lookup_seq in Hk' as [-> _]. exact Hc.
  - unfold normalize_historical_payload in E. pose proof (historical_arrays_spec payload) as Ha.
    destruct (historical_arrays payload) as [arrays|e']; cbn [mbind result_bind] in E; [|injection E as <-; symmetry; apply Ha].
    destruct (traverse _ _) as [cs|e'] eqn:Et; cbn [mbind result_bind] in E.
    + apply Hzip in Et. rewrite mk_result_ok in E by (by eapply Hinst). done.
    + apply traverse_raise in Et as (values & _ & He). pose proof (yields_historical_candle request values) as Hy.
      rewrite He in Hy. destruct e'; try done; by injection E as <-.
Qed.

(** ** Session statistics *)

(** A price of the [ohlc] object that is a text but no number. *)
Definition unreadable_price (data : dict string JsonValue) (pair : Instrument * DhanInstrumentReference) : Prop :=
  exists item fields field text, response_item data pair.2 = Some item
  /\ dict_get "ohlc"%string item = Some (VMap fields)
  /\ field ∈ ["open"; "high"; "low"; "close"]%string
  /\ dict_get field fields = Some (VText text) /\ decimal_of_text text = None.

Definition ohlc_error (fields : dict string JsonValue) (e : exn) : Prop :=
  (exists f, e = KeyError f) \/ e = NormalizationError \/ (exists m, e = ValidationError m)
  \/ e = InvalidOperation /\ exists field text, field ∈ ["open"; "high"; "low"; "close"]%string
       /\ dict_get field fields = Some (VText text) /\ decimal_of_text text = None.

Lemma yields_ohlc_field fields field : field ∈ ["open"; "high"; "low"; "close"]%string ->
  yields (ohlc_error fields) (fun _ => True) (ohlc_field fields field).
Proof.
  intros Hf. unfold ohlc_field. destruct (dict_get field fields) as [v|] eqn:E; [|left; by exists field].
  destruct v; try done; try (right; by left). cbn. destruct (decimal_of_text s) as [d|] eqn:Ed; [done|].
  right; right; right. split; [done|]. by exists field, s.
Qed.

Lemma yields_ohlc_finite fields d : yields (ohlc_error fields) (fun _ => True) (finite_value d).
Proof. destruct d; [done|right; right; left; by eexists..]. Qed.

Lemma yields_ohlc_of_fields fields : yields (ohlc_error fields) ohlc_valid (ohlc_of_fields fields).
Proof.
  unfold ohlc_of_fields.
  do 4 (eapply yields_bind; [apply yields_ohlc_field; set_solver|]; intros ? _).
  do 4 (eapply yields_bind; [apply yields_ohlc_finite|]; intros ? _).
  assert (Hv : forall o h l c, yields validation_error (fun _ => True) (mk_provider_session_ohlc o h l c)).
  { intros o h l c. unfold mk_provider_session_ohlc. apply yields_guard; [by eexists|]. intros _. cbv zeta.
    apply (yields_bind _ (fun _ => True)); [|done]. unfold validate_ohlc_structure.
    do 2 (apply yields_guard; [by eexists|intros _]). apply yields_raise_if; [by eexists|done]. }
  match goal with |- yields _ _ ?r => pose proof (Hv _ _ _ _ : yields validation_error _ r) as Hr; destruct r as [s|e] eqn:E end.
  - by eapply mk_provider_session_ohlc_ok.
  - right; right; left. exact Hr.
Qed.

(** A pair gives its observation, nothing, or an unreadable price. *)
Lemma yields_session_observation data day at_ pair :
  yields (fun e => e = InvalidOperation /\ unreadable_price data pair)
    (fun found => forall o, found = Some o -> obs_instrument o = pair.1 /\ obs_trading_date o = day
       /\ obs_observed_at o = at_ /\ ohlc_valid (obs_session_ohlc o)
       /\ exists item fields, response_item data pair.2 = Some item /\ dict_get "ohlc"%string item = Some (VMap fields)
          /\ ohlc_of_fields fields = Ok (obs_session_ohlc o))
    (session_observation data day at_ pair).
Proof.
  unfold session_observation. destruct (response_item data pair.2) as [item|] eqn:Ei; [|done].
  unfold session_ohlc_from. destruct (dict_get "ohlc"%string item) as [v|] eqn:Eo; [|done].
  destruct v as [| | | | | |fields]; try done. pose proof (yields_ohlc_of_fields fields) as Hy.
  destruct (ohlc_of_fields fields) as [s|e] eqn:Es.
  - cbn. intros o [= <-]. cbn. split_and!; try done. by exists item, fields.
  - destruct Hy as [[f ->]|[->|[[m ->]|[-> (field & text & Hf & Hg & Hd)]]]]; cbn; try done.
    split; [done|]. by exists item, fields, field, text.
Qed.

(** Session statistics are exact and selective: every requested pair whose entry of the
    response is a readable, structurally valid aggregate gives one observation of its
    instrument with those prices, in the order asked for, and every other pair is withheld;
    a response without success or data is refused, and the one other error is an
    [InvalidOperation] from a price that is a text but no number, which loses them all. *)
Theorem session_statistics_correct payload pairs day at_ :
  match normalize_session_statistics_payload payload pairs day at_ with
  | Ok observations => exists data found,
      dict_get "status"%string payload = Some (VText "success") /\ dict_get "data"%string payload = Some (VMap data)
      /\ observations = held found
      /\ Forall2 (fun pair f => match f with
           | Some o => obs_instrument o = pair.1 /\ obs_trading_date o = day /\ obs_observed_at o = at_
               /\ ohlc_valid (obs_session_ohlc o)
               /\ exists item fields, response_item data pair.2 = Some item
                  /\ dict_get "ohlc"%string item = Some (VMap fields) /\ ohlc_of_fields fields = Ok (obs_session_ohlc o)
           | None => forall item fields s, response_item data pair.2 = Some item ->
               dict_get "ohlc"%string item = Some (VMap fields) -> ohlc_of_fields fields <> Ok s
           end) pairs found
  | Raise NormalizationError => dict_get "status"%string payload <> Some (VText "success")
      \/ forall data, dict_get "data"%string payload <> Some (VMap data)
  | Raise InvalidOperation => exists data pair, dict_get "data"%string payload = Some (VMap data) /\ pair ∈ pairs
      /\ unreadable_price data pair
  | Raise _ => False
  end.
Proof.
  unfold normalize_session_statistics_payload.
  destruct (dict_get "status"%string payload) as [status|] eqn:Es; [|by left].
  destruct status as [| | | |status| |]; try (by left). case_bool_decide as Hs; cbn [negb]; [subst status|left; congruence].
  destruct (dict_get "data"%string payload) as [data|] eqn:Ed; [|right; congruence].
  destruct data as [| | | | | |data]; try (right; congruence).
  destruct (traverse (session_observation data day at_) pairs) as [found|e] eqn:Et; cbn [mbind result_bind].
  - exists data, found. split_and!; try done. apply traverse_ok in Et. eapply Forall2_impl; [exact Et|].
    intros pair f Hf. pose proof (yields_session_observation data day at_ pair) as Hy. rewrite Hf in Hy. cbn in Hy.
    destruct f as [o|]; [by apply Hy|]. intros item fields s Hi Ho Hok. unfold session_observation in Hf.
    rewrite Hi in Hf. unfold session_ohlc_from in Hf. rewrite Ho, Hok in Hf. done.
  - apply traverse_raise in Et as (pair & Hp & He). pose proof (yields_session_observation data day at_ pair) as Hy.
    rewrite He in Hy. destruct Hy as [-> Hu]. by exists data, pair.
Qed.

(** ** Texts that escape *)

Definition strike_row (strike : string) : Row := [
  ("EXCH_ID", Some "NSE"); ("SEGMENT", Some "D"); ("SECURITY_ID", Some "50001"); ("INSTRUMENT", Some "OPTSTK");
  ("UNDERLYING_SYMBOL", Some "RELIANCE"); ("SYMBOL_NAME", Some "RELIANCE-CE"); ("DISPLAY_NAME", Some "RELIANCE CALL");
  ("INSTRUMENT_TYPE", Some "OP"); ("SERIES", Some "NA"); ("SM_EXPIRY_DATE", Some "2026-07-28");
  ("STRIKE_PRICE", Some strike); ("OPTION_TYPE", Some "CE"); ("UNDERLYING_SECURITY_ID", Some "2885")]%string.

Definition master_of (rows : list Row) : CsvTable :=
  {| ct_fieldnames := (strike_row "100").*1; ct_rows := map Some rows |}.

(** One option row whose strike reads NaN makes the whole master raise [InvalidOperation]
    instead of the [NormalizationError] of other unreadable strikes. *)
Lemma nan_strike_escapes :
  (exists refs, normalize_instrument_master (master_of [strike_row "100"]) = Ok refs /\ length refs = 1%nat)
  /\ normalize_instrument_master (master_of [strike_row "100"; strike_row "NaN"]) = Raise InvalidOperation.
Proof. split; [eexists; split; vm_compute; reflexivity|vm_compute; reflexivity]. Qed.

Definition quote_item (price : JsonValue) : JsonValue :=
  VMap [("ohlc", VMap [("open", price); ("high", VInt 100); ("low", VInt 90); ("close", VInt 95)])]%string.
Definition quote_response (first second : JsonValue) : dict string JsonValue := [
  ("status", VText "success");
  ("data", VMap [("NSE_EQ", VMap [("1333", quote_item first); ("1594", quote_item second)])])]%string.
Definition quote_reference (name sid : string) : DhanInstrumentReference := {|
  dr_instrument := cash_equity name; dr_security_id := sid; dr_underlying_security_id := None;
  dr_exchange_segment := Some "NSE_EQ"%string; dr_provider_instrument_type := "EQUITY" |}.
Definition quote_pairs : list (Instrument * DhanInstrumentReference) :=
  [(cash_equity "RELIANCE", quote_reference "RELIANCE" "1333"); (cash_equity "INFY", quote_reference "INFY" "1594")]%string.

(** A null price is withheld and the rest of the batch survives; a price that is a text
    but no number loses the whole batch. *)
Lemma unreadable_price_loses_batch :
  (exists o, normalize_session_statistics_payload (quote_response VNull (VInt 92)) quote_pairs 0 0 = Ok [o])
  /\ normalize_session_statistics_payload (quote_response (VText "n/a") (VInt 92)) quote_pairs 0 0
     = Raise InvalidOperation.
Proof. split; [eexists; vm_compute; reflexivity|vm_compute; reflexivity]. Qed.
