(* ===== verification/PyText.v ===== *)
(** Text of dates, times and tables as the standard library reads it: [str.split], the
    [%H:%M] of [datetime.strptime], [date.fromisoformat] in all its forms and the
    scan of [re.findall] for a fixed shape, with [str.lower] and [part in text].  Texts are
    ASCII, their white space the usual one; a dash of another script is its UTF-8 bytes. *)
From Stdlib Require Import Ascii.
From S2P Require Import Prelude PyTime PyDate MarketData.

Local Open Scope Z_scope.

(** * Case and parts *)

Definition lower_ascii (c : ascii) : ascii :=
  let n := Ascii.nat_of_ascii c in
  if (65 <=? n)%nat && (n <=? 90)%nat then Ascii.ascii_of_nat (n + 32) else c.

(** [str.lower] *)
Fixpoint lower (s : string) : string :=
  match s with EmptyString => EmptyString | String c s => String (lower_ascii c) (lower s) end.

(** [part in text] *)
Fixpoint text_contains (part text : string) : bool :=
  String.prefix part text || match text with EmptyString => false | String _ text => text_contains part text end.

(** * Splitting *)

(** [re.split("[...]", s)] and, for one character, [s.split(c)]. *)
Fixpoint split_on (sep : ascii -> bool) (s : string) : list string :=
  match s with
  | EmptyString => [EmptyString]
  | String c s =>
      if sep c then EmptyString :: split_on sep s
      else match split_on sep s with part :: parts => String c part :: parts | [] => [String c EmptyString] end
  end.

(** What lies before and after the first [c]. *)
Fixpoint split_first (c : ascii) (s : string) : option (string * string) :=
  match s with
  | EmptyString => None
  | String x s =>
      if bool_decide (x = c) then Some (EmptyString, s)
      else '(before, after) ← split_first c s; Some (String x before, after)
  end.

(** * Times *)

(** One or two digits, at most [limit]. *)
Definition small_number (limit : Z) (s : string) : option Z :=
  match s with
  | String a EmptyString => digit_value a
  | String a (String b EmptyString) =>
      x ← digit_value a; y ← digit_value b;
      if 10 * x + y <=? limit then Some (10 * x + y) else None
  | _ => None
  end.

(** [datetime.strptime(s, "%H:%M").time()] *)
Definition strptime_hm (s : string) : result time :=
  match '(h, m) ← split_first ":" s; h ← small_number 23 h; m ← small_number 59 m; Some (h, m) with
  | Some (h, m) => Ok (hm h m)
  | None => Raise (ValueError "time data does not match format")
  end.

(** A time of day to the minute, [HH:MM]. *)
Definition hm_text (t : time) : string :=
  zfill 2 (t / us_per_minute / 60) (String ":" (zfill 2 (t / us_per_minute mod 60) "")).

Definition minute_time (t : time) : bool := valid_time t && (t mod us_per_minute =? 0).

(** * Dates *)

(** The Monday of the first ISO week of a year. *)
Definition iso_week1_monday (y : Z) : date :=
  let first := days_of_civil y 1 1 in
  let monday := first - weekday first in
  if 3 <? weekday first then monday + 7 else monday.

(** The date of a week and a day of the week. *)
Definition date_of_week (y w d : Z) : result date :=
  let first_weekday := weekday (days_of_civil y 1 1) in
  let long := (first_weekday =? 3) || ((first_weekday =? 2) && is_leap y) in
  _ ← raise_if (negb ((1 <=? y) && (y <=? 9999))) (ValueError "year is out of range");
  _ ← raise_if (negb ((1 <=? w) && ((w <? 53) || ((w =? 53) && long)))) (ValueError "Invalid week");
  _ ← raise_if (negb ((1 <=? d) && (d <=? 7))) (ValueError "Invalid weekday");
  let day := iso_week1_monday y + (w - 1) * 7 + d - 1 in
  _ ← raise_if (negb (date_ok day)) (ValueError "year is out of range");
  Ok day.

(** The parser of [date.fromisoformat]: year, then month and day or week and weekday, with
    dashes everywhere or nowhere. *)
Definition separated (dashes : bool) (s : string) : option string := if dashes then read_dash s else Some s.

Definition read_week (y : Z) (dashes : bool) (s : string) : option (result date) :=
  '(w, s) ← read_digits 2 0 s;
  if is_empty s then Some (date_of_week y w 1)
  else s ← separated dashes s; '(d, _) ← read_digits 1 0 s; Some (date_of_week y w d).

Definition read_month_day (y : Z) (dashes : bool) (s : string) : option (result date) :=
  '(m, s) ← read_digits 2 0 s;
  s ← separated dashes s;
  '(d, s) ← read_digits 2 0 s;
  if is_empty s then Some (py_date y m d) else None.

Definition read_isoformat (s : string) : option (result date) :=
  '(y, s) ← read_digits 4 0 s;
  let '(dashes, s) := match read_dash s with Some s => (true, s) | None => (false, s) end in
  match s with
  | EmptyString => None
  | String c rest => if bool_decide (c = "W"%char) then read_week y dashes rest else read_month_day y dashes s
  end.

(** [date.fromisoformat(s)] *)
Definition date_fromisoformat (s : string) : result date :=
  match if bool_decide (String.length s ∈ [7; 8; 10]%nat) then read_isoformat s else None with
  | Some r => r
  | None => Raise (ValueError "Invalid isoformat string")
  end.

(** * Scanning *)

(** Whether the text begins with the shape, in which [d] is a digit. *)
Fixpoint begins_with_shape (shape s : string) : bool :=
  match shape, s with
  | EmptyString, _ => true
  | String p shape, String c s =>
      (if bool_decide (p = "d"%char) then is_not_none (digit_value c) else bool_decide (p = c)) && begins_with_shape shape s
  | String _ _, EmptyString => false
  end.

(** [re.findall] for a shape of [length shape] characters, from the character after the
    next [skip] ones. *)
Fixpoint findall_shape (shape : string) (skip : nat) (s : string) : list string :=
  match s with
  | EmptyString => []
  | String c rest =>
      match skip with
      | S skip => findall_shape shape skip rest
      | O =>
          if begins_with_shape shape s
          then String.substring 0 (String.length shape) s :: findall_shape shape (String.length shape - 1) rest
          else findall_shape shape 0 rest
      end
  end.

(** * Lemmas *)

Lemma isoformat_length d : String.length (isoformat d) = 10%nat.
Proof.
  unfold isoformat. destruct (civil d) as [[y m] day]. rewrite zfill_length. cbn [String.length]. rewrite zfill_length.
  cbn [String.length]. by rewrite zfill_length.
Qed.

(** [date.fromisoformat] undoes [isoformat]. *)
Lemma date_fromisoformat_isoformat d : date_ok d = true -> date_fromisoformat (isoformat d) = Ok d.
Proof.
  intros Hok. unfold date_fromisoformat. rewrite isoformat_length, bool_decide_true by set_solver.
  unfold isoformat. destruct (civil d) as [[y m] day] eqn:Hciv.
  pose proof (civil_spec _ _ _ _ Hciv) as (_ & Hm & Hday). pose proof (days_in_month_le y m).
  pose proof Hok as Hy. unfold date_ok in Hy. rewrite Hciv in Hy. zbool.
  unfold read_isoformat. rewrite read_zfill_all by lia. cbn [mbind option_bind]. rewrite read_dash_dash. cbv beta iota.
  assert (Hw : forall s, read_digits 2 0 (String "W" s) = None) by reflexivity.
  pose proof (read_zfill_all 2 m (String "-" (zfill 2 day "")) ltac:(lia)) as Hmonth.
  destruct (zfill 2 m _) as [|c rest] eqn:Em; [discriminate|].
  rewrite bool_decide_false by (intros ->; rewrite Hw in Hmonth; discriminate).
  unfold read_month_day. rewrite Hmonth. cbn [mbind option_bind separated]. rewrite read_dash_dash. cbn [mbind option_bind].
  rewrite read_zfill_all by lia. cbn [mbind option_bind is_empty]. by apply py_date_civil.
Qed.

Lemma digits_of_two n : 0 <= n <= 99 -> 0 <= n / 10 mod 10 <= 9 /\ 0 <= n mod 10 <= 9 /\ 10 * (n / 10 mod 10) + n mod 10 = n.
Proof.
  intros Hn. pose proof (Z.div_mod n 10 ltac:(lia)). pose proof (Z.mod_pos_bound n 10 ltac:(lia)).
  rewrite (Z.mod_small (n / 10)) by (split; [apply Z.div_pos; lia|apply Z.div_lt_upper_bound; lia]).
  split; [split; [apply Z.div_pos; lia|]|lia]. apply Z.lt_succ_r, Z.div_lt_upper_bound; lia.
Qed.

Lemma digit_is_not n c : 0 <= n <= 9 -> digit_value c = None -> digit n <> c.
Proof. intros Hn Hc <-. by rewrite digit_value_digit in Hc. Qed.

Lemma split_first_zfill c n rest : 0 <= n <= 99 -> digit_value c = None ->
  split_first c (zfill 2 n (String c rest)) = Some (zfill 2 n "", rest).
Proof.
  intros Hn Hc. destruct (digits_of_two n Hn) as (H1 & H2 & _). cbn [zfill split_first].
  rewrite !bool_decide_false by (by apply digit_is_not). rewrite bool_decide_true by done. done.
Qed.

Lemma small_number_zfill limit n : 0 <= n <= limit -> limit <= 99 -> small_number limit (zfill 2 n "") = Some n.
Proof.
  intros Hn Hl. destruct (digits_of_two n ltac:(lia)) as (H1 & H2 & H3). cbn [zfill small_number].
  rewrite !digit_value_digit by lia. cbn [mbind option_bind]. rewrite H3. by rewrite (proj2 (Z.leb_le n limit)) by lia.
Qed.

(** [strptime] undoes the rendering of a time to the minute. *)
Lemma strptime_hm_text t : minute_time t = true -> strptime_hm (hm_text t) = Ok t.
Proof.
  unfold minute_time, valid_time. intros H. apply andb_true_iff in H as [H Hm]. apply andb_true_iff in H as [H0 H1].
  apply Z.leb_le in H0. apply Z.ltb_lt in H1. apply Z.eqb_eq in Hm. unfold strptime_hm, hm_text.
  assert (Hmin : 0 <= t / us_per_minute < 1440).
  { split; [by apply Z.div_pos|]. by apply Z.div_lt_upper_bound. }
  pose proof (Z.div_mod (t / us_per_minute) 60 ltac:(lia)) as Hd. pose proof (Z.mod_pos_bound (t / us_per_minute) 60 ltac:(lia)).
  assert (Hh : 0 <= t / us_per_minute / 60 <= 23) by (split; [apply Z.div_pos; lia|apply Z.lt_succ_r, Z.div_lt_upper_bound; lia]).
  rewrite split_first_zfill by (done || lia). cbn [mbind option_bind].
  rewrite small_number_zfill by lia. cbn [mbind option_bind]. rewrite small_number_zfill by lia. cbn [mbind option_bind].
  f_equal. unfold hm. pose proof (Z.div_mod t us_per_minute ltac:(done)). lia.
Qed.

(** ** Characters of a text *)

Fixpoint all_chars (f : ascii -> bool) (s : string) : bool :=
  match s with EmptyString => true | String c s => f c && all_chars f s end.

Lemma all_chars_app f s t : all_chars f (s ++ t) = all_chars f s && all_chars f t.
Proof.
  induction s as [|c s IH]; [done|]. change (String c s ++ t)%string with (String c (s ++ t))%string.
  cbn [all_chars]. by rewrite IH, andb_assoc.
Qed.

Lemma all_chars_mono (f g : ascii -> bool) s : (forall c, f c = true -> g c = true) -> all_chars f s = true -> all_chars g s = true.
Proof.
  intros H. induction s as [|c s IH]; [done|]. cbn. rewrite !andb_true_iff. intros [? ?]. split; auto.
Qed.

Lemma all_chars_zfill f width n s : (forall k, 0 <= k <= 9 -> f (digit k) = true) -> all_chars f s = true ->
  all_chars f (zfill width n s) = true.
Proof.
  intros Hf. revert n s. induction width as [|width IH]; intros n s Hs; [done|]. cbn [zfill]. apply IH. cbn.
  rewrite Hf, Hs; [done|]. pose proof (Z.mod_pos_bound n 10 ltac:(lia)). lia.
Qed.

Lemma digit_cases (f : ascii -> bool) : forallb f (map digit [0; 1; 2; 3; 4; 5; 6; 7; 8; 9]) = true ->
  forall k, 0 <= k <= 9 -> f (digit k) = true.
Proof.
  intros H k Hk. rewrite forallb_forall in H. apply H, in_map.
  assert (k = 0 \/ k = 1 \/ k = 2 \/ k = 3 \/ k = 4 \/ k = 5 \/ k = 6 \/ k = 7 \/ k = 8 \/ k = 9) by lia. cbn. naive_solver.
Qed.

(** A text without white space is its own strip. *)
Lemma strip_id s : all_chars (fun c => negb (is_space c)) s = true -> strip s = s.
Proof.
  intros H. assert (Hr : rstrip s = s).
  { induction s as [|c s IH]; [done|]. cbn in H |- *. apply andb_true_iff in H as [Hc Hs]. rewrite IH by done.
    destruct s; [|done]. by rewrite (proj1 (negb_true_iff _) Hc). }
  unfold strip. rewrite Hr. destruct s as [|c s]; [done|]. cbn in H |- *. apply andb_true_iff in H as [Hc _].
  by rewrite (proj1 (negb_true_iff _) Hc).
Qed.

(** ** Parts *)

Fixpoint join_with (sep : ascii) (parts : list string) : string :=
  match parts with
  | [] => EmptyString
  | [part] => part
  | part :: parts => (part ++ String sep (join_with sep parts))%string
  end.

Lemma split_on_app (f : ascii -> bool) s rest : all_chars (fun c => negb (f c)) s = true ->
  split_on f (s ++ rest) = match split_on f rest with p :: ps => (s ++ p)%string :: ps | [] => [s] end.
Proof.
  assert (Hne : split_on f rest <> []) by (destruct rest as [|c r]; [done|]; cbn; destruct (f c); [done|]; by destruct (split_on f r)).
  induction s as [|c s IH]; intros H.
  - change (EmptyString ++ rest)%string with rest. destruct (split_on f rest); [congruence|done].
  - change (String c s ++ rest)%string with (String c (s ++ rest))%string. cbn in H |- *.
    apply andb_true_iff in H as [Hc Hs]. rewrite (proj1 (negb_true_iff _) Hc), IH by done.
    destruct (split_on f rest); [congruence|done].
Qed.

Lemma append_empty s : (s ++ EmptyString)%string = s.
Proof.
  induction s as [|c s IH]; [done|]. change (String c s ++ "")%string with (String c (s ++ ""))%string. by rewrite IH.
Qed.

(** Splitting undoes joining when no part holds a separator. *)
Lemma split_on_join (f : ascii -> bool) sep parts : f sep = true -> parts <> [] ->
  Forall (fun part => all_chars (fun c => negb (f c)) part = true) parts -> split_on f (join_with sep parts) = parts.
Proof.
  intros Hsep Hne H. induction H as [|part parts Hp H IH]; [done|]. destruct parts as [|next parts].
  - cbn [join_with]. rewrite <- (append_empty part) at 1. rewrite split_on_app by done. cbn [split_on]. by rewrite append_empty.
  - change (join_with sep (part :: next :: parts)) with (part ++ String sep (join_with sep (next :: parts)))%string.
    rewrite split_on_app by done. cbn [split_on]. rewrite Hsep, IH by done. by rewrite append_empty.
Qed.

Definition text_char (c : ascii) : bool := negb (is_space c) && negb (bool_decide (c ∈ [";"; ","]%char)).

Lemma hm_text_chars t : all_chars text_char (hm_text t) = true.
Proof.
  unfold hm_text. apply all_chars_zfill; [apply digit_cases; reflexivity|]. cbn [all_chars]. apply andb_true_iff.
  split; [reflexivity|]. by apply all_chars_zfill; [apply digit_cases; reflexivity|].
Qed.

Lemma isoformat_all (f : ascii -> bool) d : forallb f (map digit [0; 1; 2; 3; 4; 5; 6; 7; 8; 9]) = true -> f "-"%char = true ->
  all_chars f (isoformat d) = true.
Proof.
  intros Hf Hd. pose proof (digit_cases f Hf) as Hdigit. unfold isoformat. destruct (civil d) as [[y m] day].
  do 2 (apply all_chars_zfill; [done|]; cbn [all_chars]; apply andb_true_iff; split; [done|]).
  by apply all_chars_zfill.
Qed.

Lemma isoformat_chars d : all_chars text_char (isoformat d) = true.
Proof. by apply isoformat_all. Qed.

Lemma split_first_app c before after : all_chars (fun x => negb (bool_decide (x = c))) before = true ->
  split_first c (before ++ String c after) = Some (before, after).
Proof.
  induction before as [|x before IH]; intros H.
  - change (EmptyString ++ String c after)%string with (String c after). cbn. by rewrite bool_decide_true.
  - change (String x before ++ String c after)%string with (String x (before ++ String c after))%string.
    cbn [all_chars split_first] in *. apply andb_true_iff in H as [Hx H]. apply negb_true_iff in Hx. by rewrite Hx, IH.
Qed.
