(* ===== verification/DhanRest.v ===== *)
(** The request side of the Dhan adapter, adapters/dhan/adapter.py: the windows and the
    payload of historical requests, market-quote batches, the mapping of HTTP errors, the
    request pacer and the instrument master.

    A request to the provider is a parameter that answers with a response, a time-out or a
    request error; a response is its status and its body as JSON, if it is JSON.  Clock
    readings are microseconds.  Access tokens and logging are left out.

    The theorems say that intraday windows tile the requested range in pieces the provider
    accepts and that loading them one by one is loading the range, that a market quote asks
    for each instrument once under its segment, how a failed response is reported, that
    paced requests keep their distance, and that loading the master never leaves half of
    one. *)
From Stdlib Require Import Ascii.
From S2P Require Import Prelude DecimalContext PyTime PyDate MarketData PyText PyNumber DhanWire DhanNormalizer.

Local Open Scope Z_scope.

(** * Historical requests *)

Inductive HistoricalEndpoint : Type := CHARTS_HISTORICAL | CHARTS_INTRADAY.

(** [_SUPPORTED_INTRADAY_INTERVALS] in minutes, and [_INTRADAY_MAX_RANGE] *)
Definition SUPPORTED_INTRADAY_INTERVALS : list Z := [1; 5; 15; 25; 60].
Definition INTRADAY_MAX_RANGE : timedelta := 90 * us_per_day.

(** [_historical_endpoint] *)
Definition historical_endpoint (interval : timedelta) : result HistoricalEndpoint :=
  if interval =? us_per_day then Ok CHARTS_HISTORICAL
  else if (interval mod us_per_minute =? 0)
          && bool_decide (interval / us_per_minute ∈ SUPPORTED_INTRADAY_INTERVALS)
  then Ok CHARTS_INTRADAY
  else Raise UnsupportedProviderRequestError.

(** The loop of [_partition_historical_request] from [start]. *)
Fixpoint partition_from (fuel : nat) (request : HistoricalRequest) (start : instant)
    : result (list HistoricalRequest) :=
  match fuel with
  | O => Ok []
  | S fuel =>
      if start <? req_end request then
        let stop := Z.min (start + INTRADAY_MAX_RANGE) (req_end request) in
        chunk ← mk_historical_request (req_instrument request) start stop (req_interval request);
        rest ← partition_from fuel request stop;
        Ok (chunk :: rest)
      else Ok []
  end.

(** [_partition_historical_request]; each round but the last takes ninety days. *)
Definition partition_historical_request (request : HistoricalRequest) (endpoint : HistoricalEndpoint)
    : result (list HistoricalRequest) :=
  match endpoint with
  | CHARTS_HISTORICAL => Ok [request]
  | CHARTS_INTRADAY =>
      partition_from (Z.to_nat ((req_end request - req_start request) / INTRADAY_MAX_RANGE + 2)) request
        (req_start request)
  end.

(** [_derivative_expiry_code] on the day [as_of]. *)
Definition derivative_expiry_code (reference : DhanInstrumentReference) (references : list DhanInstrumentReference)
    (as_of : date) : option Z :=
  let instrument := dr_instrument reference in
  match underlying instrument, expiry instrument with
  | Some u, Some e =>
      let active (candidate : DhanInstrumentReference) : option date :=
        let other := dr_instrument candidate in
        if bool_decide (exchange other = exchange instrument)
           && bool_decide (underlying other = Some u)
           && bool_decide (dr_provider_instrument_type candidate = dr_provider_instrument_type reference)
        then match expiry other with Some d => if as_of <=? d then Some d else None | None => None end
        else None in
      let expiries := py_sorted Z.leb (remove_dups (omap active references)) in
      match list_find (fun d => d = e) expiries with
      | Some (rank, _) => if (rank <? 3)%nat then Some (Z.of_nat rank) else None
      | None => None
      end
  | _, _ => None
  end.

(** [value.astimezone(Asia/Kolkata)] as [%Y-%m-%d] and [%Y-%m-%d %H:%M:%S]. *)
Definition market_date_text (value : instant) : string := isoformat (local_date kolkata value).
Definition market_time_text (value : instant) : string :=
  let seconds := local_time kolkata value / us_per_second in
  (market_date_text value ++ " " ++ zfill 2 (seconds / 3600)
     (":" ++ zfill 2 (seconds / 60 mod 60) (":" ++ zfill 2 (seconds mod 60) "")))%string.

(** [_historical_payload]; the number of minutes goes out as a text. *)
Definition historical_payload (reference : DhanInstrumentReference) (request : HistoricalRequest)
    (endpoint : HistoricalEndpoint) (expiry_code : option Z) : result (dict string JsonValue) :=
  match dr_exchange_segment reference with
  | None => Raise UnsupportedProviderRequestError
  | Some exchange_segment =>
      let common := [("securityId", VText (dr_security_id reference)); ("exchangeSegment", VText exchange_segment);
                     ("instrument", VText (dr_provider_instrument_type reference)); ("oi", VBool false)]%string in
      Ok (common ++ match endpoint with
        | CHARTS_HISTORICAL =>
            match expiry_code with Some code => [("expiryCode"%string, VInt code)] | None => [] end
            ++ [("fromDate", VText (market_date_text (req_start request)));
                ("toDate", VText (market_date_text (req_end request)))]%string
        | CHARTS_INTRADAY =>
            [("interval", VText (pretty (req_interval request / us_per_minute)));
             ("fromDate", VText (market_time_text (req_start request)));
             ("toDate", VText (market_time_text (req_end request)))]%string
        end)
  end.

Section Historical.
(** [_request_api_json("POST", endpoint, payload)]. *)
Context (post : HistoricalEndpoint -> dict string JsonValue -> result (dict string JsonValue)).

(** The loop of [load_historical_data]. *)
Fixpoint load_chunks (reference : DhanInstrumentReference) (endpoint : HistoricalEndpoint) (expiry_code : option Z)
    (chunks : list HistoricalRequest) : result (list Candle) :=
  match chunks with
  | [] => Ok []
  | chunk :: chunks =>
      payload ← historical_payload reference chunk endpoint expiry_code;
      response ← post endpoint payload;
      normalized ← normalize_historical_payload chunk response;
      rest ← load_chunks reference endpoint expiry_code chunks;
      Ok (res_candles normalized ++ rest)
  end.

(** [load_historical_data] *)
Definition load_historical_data (references : dict Instrument DhanInstrumentReference) (as_of : date)
    (request : HistoricalRequest) : result HistoricalResult :=
  endpoint ← historical_endpoint (req_interval request);
  match dict_get (req_instrument request) references with
  | None => Raise UnsupportedProviderRequestError
  | Some reference =>
      chunks ← partition_historical_request request endpoint;
      candles ← load_chunks reference endpoint (derivative_expiry_code reference references.*2 as_of) chunks;
      mk_historical_result request candles
  end.
End Historical.

(** * Market quotes *)

(** [_MARKET_QUOTE_MAX_INSTRUMENTS] *)
Definition MARKET_QUOTE_MAX_INSTRUMENTS : nat := 1000.

(** [list(dict.fromkeys(instruments))] *)
Definition unique_instruments (instruments : list Instrument) : list Instrument := from_keys [] instruments.

Definition quote_sort_key (i : Instrument) : list string := [exchange i; symbol i].

(** [_market_quote_pairs] *)
Definition market_quote_pairs (references : dict Instrument DhanInstrumentReference) (instruments : list Instrument)
    : result (list (Instrument * DhanInstrumentReference)) :=
  let unique := unique_instruments instruments in
  _ ← raise_if (MARKET_QUOTE_MAX_INSTRUMENTS <? length unique)%nat UnsupportedProviderRequestError;
  traverse (fun instrument =>
      match dict_get instrument references with
      | Some reference =>
          if is_not_none (dr_exchange_segment reference) then Ok (instrument, reference)
          else Raise UnsupportedProviderRequestError
      | None => Raise UnsupportedProviderRequestError
      end)
    (py_sorted (fun a b => strings_leb (quote_sort_key a) (quote_sort_key b)) unique).

(** [_market_quote_payload] *)
Fixpoint group_pairs (pairs : list (Instrument * DhanInstrumentReference)) (grouped : dict string (list Z))
    : result (dict string (list Z)) :=
  match pairs with
  | [] => Ok grouped
  | (_, reference) :: pairs =>
      match dr_exchange_segment reference with
      | None => Raise UnsupportedProviderRequestError
      | Some segment =>
          match int_of_text (dr_security_id reference) with
          | None => Raise NormalizationError
          | Some security_id =>
              group_pairs pairs (dict_set segment (default [] (dict_get segment grouped) ++ [security_id]) grouped)
          end
      end
  end.
Definition market_quote_payload (pairs : list (Instrument * DhanInstrumentReference)) : result (dict string (list Z)) :=
  group_pairs pairs [].

(** [load_session_statistics] *)
Definition load_session_statistics (references : dict Instrument DhanInstrumentReference) (client_id : bool)
    (post : dict string (list Z) -> result (dict string JsonValue)) (instruments : list Instrument)
    (trading_date : date) (observed_at : instant) : result (list SessionStatisticsObservation) :=
  pairs ← market_quote_pairs references instruments;
  if bool_decide (pairs = []) then Ok []
  else if negb client_id then Raise ProviderAuthenticationError
  else
    payload ← market_quote_payload pairs;
    response ← post payload;
    normalize_session_statistics_payload response pairs trading_date observed_at.

(** * Responses *)

Record HttpResponse : Type := {
  hr_status_code : Z;
  hr_json : option JsonValue;
}.

(** What a request to the provider ends with. *)
Inductive HttpOutcome : Type :=
| HResponse (response : HttpResponse)
| HTimeout
| HRequestError.

(** [response.is_success] *)
Definition is_success (response : HttpResponse) : bool :=
  (200 <=? hr_status_code response) && (hr_status_code response <=? 299).

Definition text_field (payload : dict string JsonValue) (field : string) : option string :=
  match dict_get field payload with Some (VText s) => Some (strip s) | _ => None end.

(** [_error_details] *)
Definition error_details (response : HttpResponse) : option string * option string * string :=
  match hr_json response with
  | Some (VMap payload) =>
      (text_field payload "errorCode", text_field payload "errorType", default ""%string (text_field payload "errorMessage"))
  | _ => (None, None, ""%string)
  end.

(** [_undocumented_client_id_required] *)
Definition undocumented_client_id_required (error_message : string) : bool :=
  let normalized := lower error_message in
  (text_contains "dhanclientid" normalized || text_contains "client id" normalized)
  && (text_contains "required" normalized || text_contains "mandatory" normalized).

(** The error-code tables. *)
Definition AUTHENTICATION_ERROR_CODES : list string :=
  ["DH-901"; "DH-902"; "806"; "807"; "808"; "809"; "810"]%string.
Definition RATE_LIMIT_ERROR_CODES : list string := ["DH-904"; "805"]%string.
Definition UNSUPPORTED_REQUEST_ERROR_CODES : list string :=
  ["DH-905"; "DH-907"; "811"; "812"; "813"; "814"]%string.
Definition TRANSIENT_ERROR_CODES : list string := ["DH-908"; "DH-909"; "800"]%string.

Definition code_in (code : option string) (codes : list string) : bool :=
  match code with Some c => bool_decide (c ∈ codes) | None => false end.

(** [_raise_for_error]; the discrepancy error is a [ProviderBoundaryError]. *)
Definition raise_for_error (live_smoke_enabled : bool) (response : HttpResponse) : result unit :=
  if is_success response then Ok tt
  else
    let '(error_code, _, error_message) := error_details response in
    let status := hr_status_code response in
    if live_smoke_enabled && undocumented_client_id_required error_message
    then Raise (ProviderBoundaryError "Dhan REST contract discrepancy")
    else if (status =? 429) || code_in error_code RATE_LIMIT_ERROR_CODES then Raise ProviderRateLimitError
    else if (status =? 401) || (status =? 403) || code_in error_code AUTHENTICATION_ERROR_CODES
    then Raise ProviderAuthenticationError
    else if status =? 408 then Raise ProviderTimeoutError
    else if (500 <=? status) || code_in error_code TRANSIENT_ERROR_CODES then Raise ProviderUnavailableError
    else if (status =? 400) || (status =? 404) || code_in error_code UNSUPPORTED_REQUEST_ERROR_CODES
    then Raise UnsupportedProviderRequestError
    else Raise (ProviderBoundaryError "Provider request was rejected").

(** [_request_api_json] once the token is there and the pacer has waited. *)
Definition request_api_json (connected live_smoke_enabled : bool) (outcome : HttpOutcome)
    : result (dict string JsonValue) :=
  _ ← raise_if (negb connected) ProviderContractViolationError;
  match outcome with
  | HTimeout => Raise ProviderTimeoutError
  | HRequestError => Raise ProviderNetworkError
  | HResponse response =>
      _ ← raise_for_error live_smoke_enabled response;
      match hr_json response with
      | Some (VMap payload) => Ok payload
      | _ => Raise NormalizationError
      end
  end.

(** What the master download ends with: a response and its table. *)
Inductive MasterOutcome : Type :=
| MResponse (response : HttpResponse) (table : CsvTable)
| MTimeout
| MRequestError.

(** [load_instruments]: the references the adapter holds afterwards, and the result. *)
Definition load_instruments (connected live_smoke_enabled : bool) (outcome : MasterOutcome)
    (held : dict Instrument DhanInstrumentReference)
    : dict Instrument DhanInstrumentReference * result (list Instrument) :=
  let loaded :=
    _ ← raise_if (negb connected) ProviderContractViolationError;
    match outcome with
    | MTimeout => Raise ProviderTimeoutError
    | MRequestError => Raise ProviderNetworkError
    | MResponse response table =>
        _ ← raise_for_error live_smoke_enabled response;
        match normalize_instrument_master table with
        | Ok references => Ok references
        | Raise _ => Raise NormalizationError
        end
    end in
  match loaded with
  | Raise e => (held, Raise e)
  | Ok references =>
      (foldl (fun d r => dict_set (dr_instrument r) r d) [] references, Ok (map dr_instrument references))
  end.

(** * The pacer *)

(** One [wait] of [DhanRequestPacer]: the first reading of its clock, and the reading when
    it is done; [asked] is what it sleeps. *)
Record PacerWait : Type := {
  pw_now : Z;
  pw_done : Z;
}.

Definition pacer_sleep (minimum_interval : Z) (last_request_at : option Z) (now : Z) : Z :=
  match last_request_at with
  | Some last =>
      let remaining := minimum_interval - (now - last) in
      if 0 <? remaining then remaining else 0
  | None => 0
  end.

(** [DhanRequestPacer.wait]: the new [_last_request_at]. *)
Definition pacer_wait (w : PacerWait) : option Z := Some (pw_done w).

(** Successive waits, which the lock serializes; the clock does not go back and a sleep
    lasts at least what was asked. *)
Inductive paced (minimum_interval : Z) : option Z -> list PacerWait -> Prop :=
| paced_nil last : paced minimum_interval last []
| paced_cons last w ws :
    (forall t, last = Some t -> t <= pw_now w) ->
    pw_now w + pacer_sleep minimum_interval last (pw_now w) <= pw_done w ->
    paced minimum_interval (pacer_wait w) ws ->
    paced minimum_interval last (w :: ws).

(** * Lemmas *)

(** ** Windows *)

(** Chunks of a request that tile a range. *)
Inductive tiles (request : HistoricalRequest) : instant -> instant -> list HistoricalRequest -> Prop :=
| tiles_nil at_ : tiles request at_ at_ []
| tiles_cons start next stop chunks :
    start < next -> next - start <= INTRADAY_MAX_RANGE ->
    (chunks <> [] -> next - start = INTRADAY_MAX_RANGE) ->
    tiles request next stop chunks ->
    tiles request start stop ({| req_instrument := req_instrument request; req_start := start; req_end := next;
                                 req_interval := req_interval request |} :: chunks).

Lemma intraday_range_pos : 0 < INTRADAY_MAX_RANGE.
Proof. reflexivity. Qed.

Lemma tiles_le request start stop chunks : tiles request start stop chunks -> start <= stop.
Proof. induction 1; lia. Qed.

Lemma tiles_nonempty request start stop chunks : tiles request start stop chunks -> chunks <> [] -> start < stop.
Proof.
  destruct 1 as [|start next stop chunks H1 _ _ Ht]; [done|]. intros _. apply tiles_le in Ht. lia.
Qed.

Lemma partition_from_tiles fuel request start : 0 < req_interval request -> start <= req_end request ->
  (start < req_end request -> (req_end request - start) / INTRADAY_MAX_RANGE + 1 <= Z.of_nat fuel) ->
  exists chunks, partition_from fuel request start = Ok chunks /\ tiles request start (req_end request) chunks.
Proof.
  intros Hi. pose proof intraday_range_pos as Hm. revert start. induction fuel as [|fuel IH]; intros start Hle Hf; cbn [partition_from].
  { destruct (Z.eq_dec start (req_end request)) as [->|Hn]; [exists []; split; [done|constructor]|].
    assert (0 <= (req_end request - start) / INTRADAY_MAX_RANGE) by (apply Z.div_pos; lia). lia. }
  destruct (Z.ltb_spec start (req_end request)) as [Hlt|Hge].
  2: { assert (start = req_end request) as -> by lia. exists []. split; [done|constructor]. }
  cbv zeta. set (next := Z.min (start + INTRADAY_MAX_RANGE) (req_end request)).
  unfold mk_historical_request. rewrite (proj2 (Z.leb_gt next start)) by (unfold next; lia).
  rewrite (proj2 (Z.leb_gt _ 0)) by lia. cbn [raise_if mbind result_bind].
  destruct (IH next) as (chunks & Hc & Ht); [unfold next; lia| |].
  { intros Hb. replace next with (start + INTRADAY_MAX_RANGE) in * by (unfold next in *; lia).
    replace (req_end request - (start + INTRADAY_MAX_RANGE))
      with (req_end request - start + (-1) * INTRADAY_MAX_RANGE) by lia. rewrite Z.div_add by lia. lia. }
  rewrite Hc. cbn [mbind result_bind]. eexists. split; [reflexivity|]. constructor; [unfold next; lia..| |done].
  intros Hne. apply (tiles_nonempty _ _ _ _ Ht) in Hne. unfold next in *. lia.
Qed.

Lemma partition_tiles request endpoint : 0 < req_interval request -> req_start request < req_end request ->
  exists chunks, partition_historical_request request endpoint = Ok chunks
  /\ match endpoint with
     | CHARTS_HISTORICAL => chunks = [request]
     | CHARTS_INTRADAY => tiles request (req_start request) (req_end request) chunks
     end.
Proof.
  intros Hi Hlt. destruct endpoint; [by exists [request]|]. pose proof intraday_range_pos as Hm.
  apply (partition_from_tiles _ request (req_start request) Hi); [lia|]. intros _. 
  assert (0 <= (req_end request - req_start request) / INTRADAY_MAX_RANGE) by (apply Z.div_pos; lia). lia.
Qed.

(** ** Windows on the wire *)

(** The instant without its fraction of a second. *)
Definition whole_second (t : instant) : instant := t - t mod us_per_second.

Definition read_char (c : ascii) (s : string) : option string :=
  match s with String x s => if bool_decide (x = c) then Some s else None | EmptyString => None end.

(** The instant a text YYYY-MM-DD HH:MM:SS of Indian time names. *)
Definition read_market_time (text : string) : option instant :=
  '(y, s) ← read_digits 4 0 text; s ← read_dash s;
  '(m, s) ← read_digits 2 0 s; s ← read_dash s;
  '(d, s) ← read_digits 2 0 s; s ← read_char " " s;
  '(hour, s) ← read_digits 2 0 s; s ← read_char ":" s;
  '(minute, s) ← read_digits 2 0 s; s ← read_char ":" s;
  '(seconds, s) ← read_digits 2 0 s;
  if is_empty s
  then Some (wall_to_utc kolkata
               (combine (days_of_civil y m d) ((hour * 3600 + minute * 60 + seconds) * us_per_second)))
  else None.

(** Years that [%Y] writes with four digits. *)
Definition four_digit_year (day : date) : bool :=
  let '(y, _, _) := civil day in (1000 <=? y) && (y <=? 9999).

(** A window's time on the wire names its whole second. *)
Lemma read_market_time_text t : four_digit_year (local_date kolkata t) = true ->
  read_market_time (market_time_text t) = Some (whole_second t).
Proof.
  intros Hy. unfold market_time_text, market_date_text, isoformat. set (day := local_date kolkata t) in *.
  unfold four_digit_year in Hy. destruct (civil day) as [[y m] d] eqn:Hciv.
  pose proof (civil_spec _ _ _ _ Hciv) as (Hday & Hm & Hd). pose proof (days_in_month_le y m). zbool.
  set (seconds := local_time kolkata t / us_per_second).
  assert (Hs : 0 <= seconds < 86400).
  { pose proof (Z.mod_pos_bound (utc_to_wall kolkata t) us_per_day eq_refl) as Hb. unfold seconds, local_time, wall_time.
    split; [apply Z.div_pos; [lia|reflexivity]|]. apply Z.div_lt_upper_bound; [reflexivity|].
    change (us_per_second * 86400) with us_per_day. lia. }
  assert (Happ : forall width n s s', (zfill width n s ++ s')%string = zfill width n (s ++ s')%string).
  { clear. intros width. induction width as [|width IH]; intros n s s'; [done|]. cbn [zfill]. by rewrite IH. }
  assert (Hcons : forall c s s', (String c s ++ s')%string = String c (s ++ s')%string) by done.
  assert (Hnil : forall s, ("" ++ s)%string = s) by done.
  unfold read_market_time. repeat first [rewrite Happ | rewrite Hcons | rewrite Hnil].
  assert (Hchar : forall c s, read_char c (String c s) = Some s) by (intros c s; cbn; by rewrite bool_decide_true).
  assert (0 <= seconds / 3600 < 100 /\ 0 <= seconds / 60 mod 60 < 60 /\ 0 <= seconds mod 60 < 60) as (? & ? & ?)
    by (Z.to_euclidean_division_equations; lia).
  do 6 (rewrite read_zfill_all by lia; cbn [mbind option_bind]; rewrite ?read_dash_dash, ?Hchar; cbn [mbind option_bind]).
  cbn [is_empty]. f_equal.
  rewrite Hday. replace (seconds / 3600 * 3600 + seconds / 60 mod 60 * 60 + seconds mod 60) with seconds
    by (Z.to_euclidean_division_equations; lia).
  unfold seconds, day, local_date, local_time, wall_date, wall_time, combine, whole_second, kolkata, utc_to_wall, wall_to_utc.
  change us_per_day with (86400 * us_per_second). change us_per_second with 1000000.
  Z.to_euclidean_division_equations; lia.
Qed.

(** ** A provider with a fixed series *)

(** Bars of the provider: the six entries of a row and the candle they are. *)
Abbreviation Bar := (list JsonValue * Candle)%type (only parsing).

Definition starting_in (start stop : instant) (series : list Bar) : list Bar :=
  List.filter (fun bar => (start <=? start_timestamp bar.2) && (start_timestamp bar.2 <? stop)) series.

Definition in_order (series : list Bar) : Prop :=
  StronglySorted (fun a b => start_timestamp a.2 <= start_timestamp b.2) series.

(** Rows that are candles of the instrument and interval of a request, at times Python has. *)
Definition bars_for (request : HistoricalRequest) (series : list Bar) : Prop :=
  Forall (fun bar => candle_of request bar.1 bar.2 /\ MIN_EPOCH_SECOND * second <= start_timestamp bar.2
                     /\ start_timestamp bar.2 < MAX_EPOCH_SECOND * second
                     /\ MIN_EPOCH_SECOND * second <= end_timestamp bar.2
                     /\ end_timestamp bar.2 < MAX_EPOCH_SECOND * second) series.

(** A response with the given rows, in columns. *)
Definition column_of (k : nat) (rows : list (list JsonValue)) : JsonValue :=
  VList (omap (fun row : list JsonValue => row !! k) rows).
Definition lists_rows (response : dict string JsonValue) (rows : list (list JsonValue)) : Prop :=
  dict_get "open"%string response = Some (column_of 0 rows) /\ dict_get "high"%string response = Some (column_of 1 rows)
  /\ dict_get "low"%string response = Some (column_of 2 rows) /\ dict_get "close"%string response = Some (column_of 3 rows)
  /\ dict_get "volume"%string response = Some (column_of 4 rows) /\ dict_get "timestamp"%string response = Some (column_of 5 rows).

(** What the provider documents of its intraday charts: asked for an instrument and an
    interval between two times of Indian time at most ninety days apart, it lists the bars
    that start there. *)
Definition serves (post : HistoricalEndpoint -> dict string JsonValue -> result (dict string JsonValue))
    (security_id segment instrument_type : string) (minutes : Z) (series : list Bar) : Prop :=
  forall payload from_text until_text from until,
    dict_get "securityId"%string payload = Some (VText security_id) ->
    dict_get "exchangeSegment"%string payload = Some (VText segment) ->
    dict_get "instrument"%string payload = Some (VText instrument_type) ->
    dict_get "interval"%string payload = Some (VText (pretty minutes)) ->
    dict_get "fromDate"%string payload = Some (VText from_text) -> read_market_time from_text = Some from ->
    dict_get "toDate"%string payload = Some (VText until_text) -> read_market_time until_text = Some until ->
    until - from <= 90 * us_per_day ->
    exists response, post CHARTS_INTRADAY payload = Ok response
    /\ lists_rows response (starting_in from until series).*1.

Lemma candle_of_historical request values c : candle_of request values c ->
  MIN_EPOCH_SECOND * second <= start_timestamp c -> start_timestamp c < MAX_EPOCH_SECOND * second ->
  MIN_EPOCH_SECOND * second <= end_timestamp c -> end_timestamp c < MAX_EPOCH_SECOND * second ->
  historical_candle request values = Ok c.
Proof.
  intros (Hv & Hi & He & o & h & l & p & v & t & n & -> & Ho & Hh & Hl & Hp & Hq & Hn & Hs) H1 H2 H3 H4.
  assert (0 < second) by reflexivity. cbn [historical_candle]. unfold epoch_instant. rewrite Hn. cbn [mbind result_bind].
  rewrite (proj2 (Z.ltb_ge n _)), (proj2 (Z.leb_gt _ n)) by nia. cbn [orb raise_if mbind result_bind].
  rewrite <- Hs. unfold add_interval. cbv zeta. rewrite <- He.
  rewrite (proj2 (Z.ltb_ge _ _)), (proj2 (Z.leb_gt _ _)) by lia. cbn [orb raise_if mbind result_bind].
  rewrite Ho, Hh, Hl, Hp. cbn [mbind result_bind]. unfold volume. rewrite Hq. cbn [mbind result_bind].
  rewrite (proj2 (Z.ltb_ge _ _)) by (by destruct Hv). cbn [raise_if mbind result_bind finite_value].
  apply mk_candle_ok. rewrite <- Hi. by destruct c.
Qed.

(** Six columns of rows of six are the rows. *)
Lemma columns_rows request (bars : list Bar) : bars_for request bars ->
  forall k, k ∈ [0; 1; 2; 3; 4; 5]%nat -> length (omap (fun row : list JsonValue => row !! k) bars.*1) = length bars
  /\ forall i, omap (fun row : list JsonValue => row !! k) bars.*1 !! i = bar ← bars !! i; bar.1 !! k.
Proof.
  intros Hb k Hk. assert (Hsome : Forall (fun bar : Bar => is_Some (bar.1 !! k)) bars).
  { eapply Forall_impl; [exact Hb|]. intros bar ((_ & _ & _ & o & h & l & p & v & t & n & -> & _) & _).
    repeat (apply elem_of_cons in Hk as [->|Hk]; [by eexists|]). by apply not_elem_of_nil in Hk. }
  clear Hb Hk. induction Hsome as [|[row c] bars [x Hx] _ [IH1 IH2]]; [done|]. cbn [fst] in Hx.
  cbn [fmap list_fmap omap list_omap fst]. rewrite Hx. split; [by f_equal/=|]. intros [|i]; [exact (eq_sym Hx)|]. apply IH2.
Qed.

Lemma rows_normalized request bars response : bars_for request bars -> lists_rows response bars.*1 ->
  normalize_historical_payload request response = Ok {| res_request := request; res_candles := bars.*2 |}.
Proof.
  intros Hb (H0 & H1 & H2 & H3 & H4 & H5). pose proof (columns_rows _ _ Hb) as Hcol.
  set (col := fun k => omap (fun row : list JsonValue => row !! k) bars.*1) in *.
  apply historical_payload_correct.
  exists [col 0%nat; col 1%nat; col 2%nat; col 3%nat; col 4%nat; col 5%nat], (length bars). split; [split|split; [done|]].
  - repeat constructor; done.
  - repeat constructor; apply Hcol; set_solver.
  - cbn [res_candles]. apply Forall2_same_length_lookup_2; [by rewrite length_seq, length_fmap|]. intros i k c Hk Hc.
    apply lookup_seq in Hk as [-> _]. cbn [Nat.add]. rewrite list_lookup_fmap in Hc.
    apply fmap_Some in Hc as (bar & Ei & ->).
    pose proof (Forall_lookup_1 _ _ _ _ Hb Ei) as (Hbar & ? & ? & ? & ?).
    replace (column _ i) with bar.1; [by apply candle_of_historical|].
    unfold column. assert (Hi : forall k, k ∈ [0; 1; 2; 3; 4; 5]%nat -> col k !! i = bar.1 !! k).
    { intros k Hk. destruct (Hcol k Hk) as [_ ->]. by rewrite Ei. }
    cbn [omap list_omap]. rewrite !Hi by set_solver.
    destruct Hbar as (_ & _ & _ & o & h & l & p & v & t & n & -> & _). reflexivity.
Qed.

Lemma starting_in_bars request start stop series : bars_for request series -> bars_for request (starting_in start stop series).
Proof.
  intros H. unfold bars_for in *. rewrite Forall_forall in *. intros bar Hin. apply H.
  apply list_elem_of_In, filter_In in Hin as [Hin _]. by apply list_elem_of_In.
Qed.

Lemma starting_in_empty series at_ : starting_in at_ at_ series = [].
Proof.
  unfold starting_in. induction series as [|bar series IH]; [done|]. cbn. rewrite IH.
  destruct (Z.leb_spec at_ (start_timestamp bar.2)), (Z.ltb_spec (start_timestamp bar.2) at_); (done || lia).
Qed.

Lemma starting_in_app series start next stop : in_order series -> start <= next -> next <= stop ->
  starting_in start stop series = starting_in start next series ++ starting_in next stop series.
Proof.
  intros Hs H1 H2. unfold starting_in. induction Hs as [|bar series Hs IH Hbar]; [done|]. cbn [List.filter]. rewrite IH.
  destruct (Z.leb_spec start (start_timestamp bar.2)) as [A|A], (Z.ltb_spec (start_timestamp bar.2) stop) as [B|B],
    (Z.ltb_spec (start_timestamp bar.2) next) as [C|C], (Z.leb_spec next (start_timestamp bar.2)) as [D|D];
    cbn [andb app]; try lia; try done.
  assert (Hnil : List.filter (fun d : Bar => (start <=? start_timestamp d.2) && (start_timestamp d.2 <? next)) series = []).
  { clear -Hbar C. induction Hbar as [|d series Hd _ IH]; [done|]. cbn. rewrite IH.
    destruct (Z.ltb_spec (start_timestamp d.2) next); [lia|]. by rewrite andb_false_r. }
  by rewrite Hnil.
Qed.

Lemma whole_second_mono a b : a <= b -> whole_second a <= whole_second b.
Proof. unfold whole_second, us_per_second. intros. Z.to_euclidean_division_equations; lia. Qed.

Lemma whole_second_range a b : b - a <= INTRADAY_MAX_RANGE -> whole_second b - whole_second a <= INTRADAY_MAX_RANGE.
Proof.
  unfold whole_second, INTRADAY_MAX_RANGE, us_per_day, us_per_second. intros. Z.to_euclidean_division_equations; lia.
Qed.

(** The windows of a tiling, loaded one by one. *)
Lemma load_chunks_app post reference segment code series request start stop chunks :
  dr_exchange_segment reference = Some segment -> in_order series -> bars_for request series ->
  serves post (dr_security_id reference) segment (dr_provider_instrument_type reference)
    (req_interval request / us_per_minute) series ->
  tiles request start stop chunks ->
  (forall day, local_date kolkata start <= day <= local_date kolkata stop -> four_digit_year day = true) ->
  load_chunks post reference CHARTS_INTRADAY code chunks
  = Ok (starting_in (whole_second start) (whole_second stop) series).*2.
Proof.
  intros Hseg Hs Hb Hserve Ht. induction Ht as [at_|start next stop chunks H1 H2 _ Ht IH]; intros Hy; cbn [load_chunks].
  { by rewrite starting_in_empty. }
  pose proof (tiles_le _ _ _ _ Ht) as Hle.
  assert (Hdates : forall a b, a <= b -> local_date kolkata a <= local_date kolkata b).
  { intros a b Hab. unfold local_date, wall_date, kolkata, utc_to_wall. apply Z.div_le_mono; [reflexivity|lia]. }
  assert (Hstart : local_date kolkata start <= local_date kolkata start <= local_date kolkata stop)
    by (split; [done|apply Hdates; lia]).
  assert (Hnext : local_date kolkata start <= local_date kolkata next <= local_date kolkata stop)
    by (split; apply Hdates; lia).
  unfold historical_payload. rewrite Hseg. cbn [mbind result_bind req_start req_end req_interval].
  edestruct Hserve as (response & Hpost & Hrows);
    [..|rewrite Hpost; cbn [mbind result_bind]]; [reflexivity..| | | | |].
  { apply read_market_time_text. by apply Hy. }
  { reflexivity. }
  { apply read_market_time_text. by apply Hy. }
  { by apply whole_second_range. }
  erewrite rows_normalized; [|by apply (starting_in_bars request)|exact Hrows]. cbn [mbind result_bind res_candles].
  rewrite IH; [|intros day Hday; apply Hy; lia]. cbn [mbind result_bind].
  rewrite (starting_in_app series (whole_second start) (whole_second next) (whole_second stop));
    [|done|apply whole_second_mono; lia|by apply whole_second_mono].
  f_equal. symmetry. apply fmap_app.
Qed.

Lemma historical_endpoint_intraday interval minutes : minutes ∈ [1; 5; 15; 25; 60] -> interval = minutes * us_per_minute ->
  historical_endpoint interval = Ok CHARTS_INTRADAY.
Proof.
  intros Hm ->. repeat (apply elem_of_cons in Hm as [->|Hm]; [reflexivity|]). by apply not_elem_of_nil in Hm.
Qed.

(** [C31] Loading an intraday range in windows is loading the range.  For an interval of 1, 5, 15,
    25 or 60 minutes of an instrument with a reference and a segment, and a range with
    four-digit years, the windows tile the range without gap or overlap, none longer than
    ninety days and all but the last exactly that long.  When the provider answers every
    request that names the instrument, the interval and two times at most ninety days apart
    with the bars of a fixed series that start between them, the load succeeds with exactly
    the candles of the series that start in the range, in order and once each; the range
    begins and ends at whole seconds, because fractions of a second do not go out. *)
Theorem historical_load_exact (post : HistoricalEndpoint -> dict string JsonValue -> result (dict string JsonValue))
    references as_of request reference segment minutes series :
  dict_get (req_instrument request) references = Some reference ->
  dr_exchange_segment reference = Some segment ->
  minutes ∈ [1; 5; 15; 25; 60] -> req_interval request = minutes * us_per_minute ->
  req_start request < req_end request ->
  (forall day, local_date kolkata (req_start request) <= day <= local_date kolkata (req_end request) ->
     four_digit_year day = true) ->
  in_order series -> bars_for request series ->
  serves post (dr_security_id reference) segment (dr_provider_instrument_type reference) minutes series ->
  exists chunks, partition_historical_request request CHARTS_INTRADAY = Ok chunks
  /\ tiles request (req_start request) (req_end request) chunks
  /\ load_historical_data post references as_of request
     = Ok {| res_request := request;
             res_candles := (starting_in (whole_second (req_start request)) (whole_second (req_end request)) series).*2 |}.
Proof.
  intros Hg Hseg Hm Hi Hlt Hy Hs Hb Hserve.
  assert (Hpos : 0 < minutes).
  { repeat (apply elem_of_cons in Hm as [->|Hm]; [done|]). by apply not_elem_of_nil in Hm. }
  assert (Hdiv : req_interval request / us_per_minute = minutes) by (rewrite Hi; by apply Z.div_mul).
  destruct (partition_tiles request CHARTS_INTRADAY) as (chunks & Hp & Ht); [rewrite Hi; unfold us_per_minute, us_per_second; lia|done|].
  exists chunks. split; [done|]. split; [done|]. unfold load_historical_data.
  rewrite (historical_endpoint_intraday _ minutes) by done. cbn [mbind result_bind].
  rewrite Hg, Hp. cbn [mbind result_bind].
  rewrite (load_chunks_app post reference segment _ series request (req_start request) (req_end request)); [|done..|by rewrite Hdiv|done|done].
  cbn [mbind result_bind]. apply mk_result_ok. apply Forall_fmap.
  eapply Forall_impl; [apply (starting_in_bars request); exact Hb|]. intros bar ((_ & ? & _) & _). done.
Qed.

(** A provider that keeps a series and reads the two times of a payload. *)
Definition columns_of (rows : list (list JsonValue)) : dict string JsonValue :=
  [("open", column_of 0 rows); ("high", column_of 1 rows); ("low", column_of 2 rows); ("close", column_of 3 rows);
   ("volume", column_of 4 rows); ("timestamp", column_of 5 rows)]%string.
Definition recorded_series (series : list Bar) (endpoint : HistoricalEndpoint) (payload : dict string JsonValue)
    : result (dict string JsonValue) :=
  match dict_get "fromDate"%string payload, dict_get "toDate"%string payload with
  | Some (VText a), Some (VText b) =>
      match read_market_time a, read_market_time b with
      | Some from, Some until => Ok (columns_of (starting_in from until series).*1)
      | _, _ => Raise UnsupportedProviderRequestError
      end
  | _, _ => Raise UnsupportedProviderRequestError
  end.

Lemma recorded_series_serves security_id segment instrument_type minutes series :
  serves (recorded_series series) security_id segment instrument_type minutes series.
Proof.
  intros payload from_text until_text from until _ _ _ _ Ha Hfrom Hb Huntil _. unfold recorded_series.
  rewrite Ha, Hb, Hfrom, Huntil. eexists. split; [reflexivity|]. by split_and!.
Qed.

(** A bar of five minutes. *)
Definition sample_bar (i : Instrument) (seconds : Z) : Bar :=
  let price n := Q2Qc (inject_Z n) in
  ([VInt 100; VInt 102; VInt 99; VInt 101; VInt 7; VInt seconds],
   {| candle_instrument := i; start_timestamp := seconds * second; end_timestamp := seconds * second + 5 * us_per_minute;
      open_price := price 100; high_price := price 102; low_price := price 99; close_price := price 101;
      traded_quantity := 7 |}).

Lemma sample_bar_for request seconds series : req_interval request = 5 * us_per_minute -> 0 <= seconds < 100000000 ->
  bars_for request series -> bars_for request (sample_bar (req_instrument request) seconds :: series).
Proof.
  intros Hi Hs. constructor; [|done]. unfold sample_bar. cbn [fst snd start_timestamp end_timestamp].
  unfold MIN_EPOCH_SECOND, MAX_EPOCH_SECOND, second, us_per_minute, us_per_second in *. split_and!; try lia.
  split_and!; try done; [|cbn; unfold us_per_minute, us_per_second; lia|].
  { constructor; cbn; try (vm_compute; done); try (vm_compute; discriminate); unfold us_per_minute, us_per_second; lia. }
  do 6 eexists. exists seconds. by split_and!.
Qed.

Lemma historical_load_exact_witness :
  let reliance := cash_equity "RELIANCE" in
  let reference := {| dr_instrument := reliance; dr_security_id := "2885"; dr_underlying_security_id := None;
    dr_exchange_segment := Some "NSE_EQ"%string; dr_provider_instrument_type := "EQUITY" |} in
  let request := {| req_instrument := reliance; req_start := 500000; req_end := 200 * us_per_day;
    req_interval := 5 * us_per_minute |} in
  let bar d := sample_bar reliance (d * 86400) in
  let series := [bar 0; bar 10; bar 90; bar 199; bar 200] in
  exists chunks, partition_historical_request request CHARTS_INTRADAY = Ok chunks
  /\ tiles request 500000 (200 * us_per_day) chunks
  /\ load_historical_data (recorded_series series) [(reliance, reference)] 0 request
     = Ok {| res_request := request; res_candles := [(bar 0).2; (bar 10).2; (bar 90).2; (bar 199).2] |}.
Proof.
  intros reliance reference request bar series.
  apply (historical_load_exact (recorded_series series) [(reliance, reference)] 0 request reference "NSE_EQ" 5 series).
  - reflexivity.
  - reflexivity.
  - right; left.
  - reflexivity.
  - reflexivity.
  - intros day Hday. apply (all_below_spec 201 0 four_digit_year day); [vm_compute; reflexivity|].
    change (local_date kolkata (req_start request)) with 0 in Hday.
    change (local_date kolkata (req_end request)) with 200 in Hday. lia.
  - unfold series, in_order. repeat constructor; cbn; unfold second; lia.
  - unfold series, bar. do 5 (apply (sample_bar_for request); [reflexivity|lia|]). constructor.
  - apply recorded_series_serves.
Defined.

(** ** Market quotes *)

(** The ids a payload lists under a segment. *)
Definition ids_under (segment : string) (pairs : list (Instrument * DhanInstrumentReference)) : list Z :=
  omap (fun p => if bool_decide (dr_exchange_segment p.2 = Some segment) then int_of_text (dr_security_id p.2) else None)
    pairs.

Lemma group_pairs_spec pairs grouped :
  Forall (fun p => is_Some (dr_exchange_segment p.2)) pairs ->
  (forall segment, dict_get segment grouped <> Some []) -> NoDup grouped.*1 ->
  match group_pairs pairs grouped with
  | Ok payload => NoDup payload.*1 /\ Forall (fun p => is_Some (int_of_text (dr_security_id p.2))) pairs
      /\ (forall segment, dict_get segment payload <> Some [])
      /\ forall segment, default [] (dict_get segment payload)
                       = default [] (dict_get segment grouped) ++ ids_under segment pairs
  | Raise e => e = NormalizationError /\ Exists (fun p => int_of_text (dr_security_id p.2) = None) pairs
  end.
Proof.
  revert grouped. induction pairs as [|[i r] pairs IH]; intros grouped Hs Hne Hn; cbn [group_pairs].
  { split_and!; [done|constructor|done|]. intros segment. by rewrite app_nil_r. }
  apply Forall_cons in Hs as [[segment Hseg] Hs]. cbn in Hseg. rewrite Hseg.
  destruct (int_of_text (dr_security_id r)) as [security_id|] eqn:Ei; [|split; [done|by left]].
  set (grouped' := dict_set segment _ grouped).
  assert (Hget : forall s, default [] (dict_get s grouped')
    = default [] (dict_get s grouped) ++ ids_under s [(i, r)]).
  { intros s. unfold grouped'. rewrite dict_get_set. cbn. rewrite Hseg, Ei.
    destruct (decide (s = segment)) as [->|Hd]; [by rewrite bool_decide_true|].
    rewrite bool_decide_false by congruence. by rewrite app_nil_r. }
  specialize (IH grouped' Hs). destruct (group_pairs pairs grouped') as [payload|e].
  - destruct IH as (H1 & H2 & H3 & H4).
    + intros s. unfold grouped'. rewrite dict_get_set. destruct (decide _); [|done]. intros [= Hx]. by destruct (default [] _).
    + by apply dict_set_NoDup.
    + split_and!; [done|constructor; [by eexists|done]|done|]. intros s. rewrite H4, Hget, <- app_assoc. f_equal.
      unfold ids_under. by rewrite <- omap_app.
  - destruct IH as (H1 & H2); [|by apply dict_set_NoDup|split; [done|by right]].
    intros s. unfold grouped'. rewrite dict_get_set. destruct (decide _); [|done]. intros [= Hx]. by destruct (default [] _).
Qed.

(** A market quote asks for each wanted instrument once: when there are at most a thousand
    of them and all are mapped, the pairs are the instruments without repetitions, sorted
    by exchange and symbol, each with its reference, and the payload lists under each
    segment exactly the security ids of its pairs in that order; otherwise the request is
    refused before anything is sent. *)
Theorem market_quote_exact references instruments :
  match market_quote_pairs references instruments with
  | Ok pairs =>
      NoDup pairs.*1 /\ (forall i, i ∈ pairs.*1 <-> i ∈ instruments) /\ (length pairs <= 1000)%nat
      /\ StronglySorted (fun a b => strings_leb (quote_sort_key a) (quote_sort_key b) = true) pairs.*1
      /\ Forall (fun p => dict_get p.1 references = Some p.2) pairs
      /\ match market_quote_payload pairs with
         | Ok payload => NoDup payload.*1 /\ (forall segment, dict_get segment payload <> Some [])
             /\ forall segment, default [] (dict_get segment payload) = ids_under segment pairs
         | Raise e => e = NormalizationError /\ Exists (fun p => int_of_text (dr_security_id p.2) = None) pairs
         end
  | Raise e => e = UnsupportedProviderRequestError
      /\ ((1000 < length (unique_instruments instruments))%nat
          \/ exists i, i ∈ instruments
             /\ forall r, dict_get i references = Some r -> dr_exchange_segment r = None)
  end.
Proof.
  unfold market_quote_pairs. cbv zeta.
  set (key := fun a b : Instrument => strings_leb (quote_sort_key a) (quote_sort_key b)).
  match goal with |- context [traverse ?g (py_sorted key _)] => set (f := g) end.
  destruct (Nat.ltb_spec MARKET_QUOTE_MAX_INSTRUMENTS (length (unique_instruments instruments))) as [Hl|Hl];
    cbn [raise_if mbind result_bind]; [split; [done|by left]|].
  destruct (traverse f _) as [pairs|e] eqn:Et.
  - apply traverse_ok in Et. assert (Hp : pairs.*1 = py_sorted key (unique_instruments instruments)
      /\ Forall (fun p => dict_get p.1 references = Some p.2) pairs
      /\ Forall (fun p => is_Some (dr_exchange_segment p.2)) pairs).
    { induction Et as [|i [i' r] l pairs Hi _ IH]; [done|]. destruct IH as (IH & H1 & H2). unfold f in Hi.
      destruct (dict_get i references) as [r'|] eqn:E; [|done]. destruct (dr_exchange_segment r') as [s|] eqn:Es; [|done].
      injection Hi as -> ->. split_and!; [cbn; by rewrite <- IH|by constructor|constructor; [by exists s|done]]. }
    destruct Hp as (Hp & Hr & Hs). rewrite Hp. split_and!.
    + rewrite py_sorted_perm. apply NoDup_from_keys.
    + intros i. rewrite elem_of_py_sorted. unfold unique_instruments. rewrite elem_of_from_keys. set_solver.
    + apply (f_equal length) in Hp. rewrite length_fmap, length_py_sorted in Hp. rewrite Hp. exact Hl.
    + apply py_sorted_sorted; [intros; apply strings_leb_total|intros; by eapply strings_leb_trans].
    + done.
    + pose proof (group_pairs_spec pairs [] Hs ltac:(done) ltac:(constructor)) as Hg. unfold market_quote_payload.
      destruct (group_pairs pairs []) as [payload|e]; [|done]. destruct Hg as (? & ? & ? & ?). done.
  - apply traverse_raise in Et as (i & Hi & He). rewrite elem_of_py_sorted in Hi. apply elem_of_from_keys in Hi as [Hi _].
    unfold f in He. destruct (dict_get i references) as [r|] eqn:E.
    + destruct (dr_exchange_segment r) as [s|] eqn:Es; cbn in He; [done|]. injection He as <-. split; [done|]. right. exists i. split; [done|].
      intros r' Hr'. congruence.
    + injection He as <-. split; [done|]. right. exists i. split; [done|]. congruence.
Qed.

(** ** The pacer *)

Lemma paced_next minimum_interval last ws k w : paced minimum_interval (Some last) ws -> ws !! k = Some w ->
  last + (Z.of_nat k + 1) * minimum_interval <= pw_done w.
Proof.
  revert last ws. induction k as [|k IH]; intros last ws Hp Hk; destruct ws as [|w' ws]; try done.
  - injection Hk as ->. inversion_clear Hp as [|? ? ? Hnow Hdone _]. specialize (Hnow _ eq_refl).
    unfold pacer_sleep in Hdone. destruct (Z.ltb_spec 0 (minimum_interval - (pw_now w - last))) in Hdone; lia.
  - inversion_clear Hp as [|? ? ? Hnow Hdone Hp']. specialize (Hnow _ eq_refl). specialize (IH _ _ Hp' Hk).
    unfold pacer_sleep in Hdone. destruct (Z.ltb_spec 0 (minimum_interval - (pw_now w' - last))); lia.
Qed.

(** Paced requests keep their distance: between the ends of two waits at least the minimum
    interval lies for every request from one to the other, so no window of the provider's
    clock holds more of them than its length allows. *)
Theorem paced_spaced minimum_interval last ws i j w w' : paced minimum_interval last ws -> (i < j)%nat ->
  ws !! i = Some w -> ws !! j = Some w' -> pw_done w + Z.of_nat (j - i) * minimum_interval <= pw_done w'.
Proof.
  intros Hp Hij. revert i j Hij. induction Hp as [|last w0 ws Hn Hd Hp IH]; intros i j Hij Hi Hj; [done|].
  destruct j as [|j]; [lia|]. cbn in Hj. destruct i as [|i]; cbn in Hi.
  - injection Hi as ->. pose proof (paced_next _ _ _ _ _ Hp Hj). lia.
  - apply (IH i j); [lia|done..].
Qed.

Lemma paced_spaced_witness :
  let ws := [{| pw_now := 0; pw_done := 0 |}; {| pw_now := 50; pw_done := 200 |}; {| pw_now := 210; pw_done := 400 |}] in
  paced 200 None ws /\ 0 + 2 * 200 <= 400.
Proof.
  intros ws. assert (paced 200 None ws) as Hp.
  { unfold ws. repeat first [apply paced_nil|apply paced_cons; [cbn; intros ? [=]; subst; lia|vm_compute; discriminate|]]. }
  split; [exact Hp|]. apply (paced_spaced 200 None ws 0 2 {| pw_now := 0; pw_done := 0 |} {| pw_now := 210; pw_done := 400 |} Hp);
    [lia|reflexivity|reflexivity].
Defined.

(** ** The instrument master *)

Lemma keyed_fold rows : NoDup (map dr_instrument rows) ->
  foldl (fun d r => dict_set (dr_instrument r) r d) [] rows = keyed rows.
Proof.
  intros Hn. rewrite <- (keyed_keys rows) in Hn. change (keyed rows) with ([] ++ keyed rows).
  rewrite <- (dict_fold_fresh (keyed rows) [] Hn).
  unfold keyed. generalize (@nil (Instrument * DhanInstrumentReference)). clear.
  induction rows as [|r rows IH]; intros d; [done|]. cbn. apply IH.
Qed.

(** Errors of the provider boundary, which the callers expect. *)
Definition boundary_error (e : exn) : Prop :=
  e = ProviderContractViolationError \/ e = ProviderTimeoutError \/ e = ProviderNetworkError
  \/ e = ProviderRateLimitError \/ e = ProviderAuthenticationError \/ e = ProviderUnavailableError
  \/ e = UnsupportedProviderRequestError \/ e = NormalizationError \/ exists m, e = ProviderBoundaryError m.

Lemma yields_raise_for_error live_smoke_enabled response :
  yields boundary_error (fun _ => is_success response = true) (raise_for_error live_smoke_enabled response).
Proof.
  unfold raise_for_error. destruct (is_success response); [done|].
  destruct (error_details response) as [[error_code error_type] error_message].
  unfold boundary_error. repeat (case_match; [cbn; try naive_solver; by eauto 12|]). cbn. eauto 12.
Qed.

(** Loading the master is all or nothing: it returns the instruments of the readable table
    of a successful response and the adapter then holds exactly their references, or it
    ends in an error of the provider boundary and the adapter keeps the references it had. *)
Theorem load_instruments_atomic connected live_smoke_enabled outcome held :
  match load_instruments connected live_smoke_enabled outcome held with
  | (references, Ok instruments) => exists response table rows,
      connected = true /\ outcome = MResponse response table /\ is_success response = true
      /\ normalize_instrument_master table = Ok rows /\ instruments = map dr_instrument rows /\ NoDup instruments
      /\ forall i r, dict_get i references = Some r <-> r ∈ rows /\ dr_instrument r = i
  | (references, Raise e) => references = held /\ boundary_error e
  end.
Proof.
  unfold load_instruments. destruct connected; cbn [negb raise_if mbind result_bind];
    [|split; [done|by left]].
  destruct outcome as [response table| |]; [|by split; [|unfold boundary_error; eauto 12]..].
  pose proof (yields_raise_for_error live_smoke_enabled response) as Hy.
  destruct (raise_for_error live_smoke_enabled response) as [u|e]; cbn [mbind result_bind]; [|done].
  destruct (normalize_instrument_master table) as [rows|e] eqn:E; [|split; [done|unfold boundary_error; eauto 12]].
  apply master_reads in E as (Hc & Hf & Hn). exists response, table, rows. rewrite keyed_fold by done.
  assert (Hk : NoDup (keyed rows).*1) by (by rewrite keyed_keys).
  assert (Hin : forall i r, (i, r) ∈ keyed rows <-> r ∈ rows /\ dr_instrument r = i).
  { intros i r. unfold keyed. rewrite list_elem_of_fmap. naive_solver. }
  split_and!; try done; [by apply master_reads|]. intros i r. rewrite <- Hin. split; [apply dict_get_elem|].
  by apply dict_elem_get.
Qed.
