(* ===== verification/DhanFeed.v ===== *)
(** The live subscription of the Dhan adapter, adapters/dhan/adapter.py with the planning
    part of live.py: the batches one provider connection carries for all consumers, the
    connection with its reconnects, the registration of consumers, and the fan-out of
    decoded events to their buffers.

    Consumers are objects the adapter registers by sequence number; a stream keeps its
    object after the adapter forgets it, so objects and registrations are separate.  Every
    awaited call (token, connect, send, close, the wait before an attempt) takes the next of a list of replies:
    [None] when it returns, the exception otherwise; an exhausted list returns.  The trace
    holds what the provider saw and the continuity facts in order.  A cancelled call raises
    [CancelledError], which [except Exception] does not catch.  Clock readings are numbers
    of microseconds.  The continuity sink does not raise, and log lines and the delays
    between attempts are left out.

    The theorems say that a plan holds the requested references in order and in bounded
    batches whatever the order of the requests, that the batches the adapter believes
    active are the ones the provider holds, that a reconnect restores the desired plan or
    gives up after its attempts, that requests are counted as long as no registration is
    cancelled, that every consumer gets each matching event of the frames read since it
    registered exactly once and in order, except that a disconnect packet takes the events of
    its message with it, and when a silent feed is given up. *)
From S2P Require Import Prelude PyTime MarketData PyNumber DhanWire.

Local Open Scope Z_scope.

(** * Requests *)

Inductive MarketDataKind : Type := TICK | QUOTE | DEPTH | CANDLE.

(** A [frozenset] of kinds. *)
Record KindSet : Type := {
  ks_tick : bool;
  ks_quote : bool;
  ks_depth : bool;
  ks_candle : bool;
}.

Definition kind_in (k : MarketDataKind) (s : KindSet) : bool :=
  match k with TICK => ks_tick s | QUOTE => ks_quote s | DEPTH => ks_depth s | CANDLE => ks_candle s end.

Definition kinds_union (a b : KindSet) : KindSet :=
  {| ks_tick := ks_tick a || ks_tick b; ks_quote := ks_quote a || ks_quote b;
     ks_depth := ks_depth a || ks_depth b; ks_candle := ks_candle a || ks_candle b |}.

Definition no_kinds : KindSet :=
  {| ks_tick := false; ks_quote := false; ks_depth := false; ks_candle := false |}.

Record SubscriptionRequest : Type := {
  sr_instruments : list Instrument;
  sr_data_types : KindSet;
}.

#[global] Instance KindSet_eq_dec : EqDecision KindSet.
Proof. solve_decision. Defined.
#[global] Instance SubscriptionRequest_eq_dec : EqDecision SubscriptionRequest.
Proof. solve_decision. Defined.

(** [SubscriptionRequest(...)] *)
Definition mk_subscription_request (instruments : list Instrument) (data_types : KindSet)
    : result SubscriptionRequest :=
  _ ← raise_if (bool_decide (instruments = [])) (ValidationError "too_short");
  _ ← raise_if (negb (bool_decide (NoDup instruments)))
    (ValidationError "subscription instruments must be unique");
  _ ← raise_if (bool_decide (data_types = no_kinds)) (ValidationError "too_short");
  Ok {| sr_instruments := instruments; sr_data_types := data_types |}.

(** * Plans *)

Inductive DhanLiveFeedMode : Type := QUOTE_MODE | FULL_MODE.

Record DhanLiveSubscriptionBatch : Type := {
  lb_feed_mode : DhanLiveFeedMode;
  lb_references : list DhanInstrumentReference;
}.

Record DhanLiveSubscriptionPlan : Type := {
  lp_feed_mode : DhanLiveFeedMode;
  lp_batches : list DhanLiveSubscriptionBatch;
}.

#[global] Instance DhanLiveFeedMode_eq_dec : EqDecision DhanLiveFeedMode.
Proof. solve_decision. Defined.
#[global] Instance DhanLiveSubscriptionBatch_eq_dec : EqDecision DhanLiveSubscriptionBatch.
Proof. solve_decision. Defined.
#[global] Instance DhanLiveSubscriptionPlan_eq_dec : EqDecision DhanLiveSubscriptionPlan.
Proof. solve_decision. Defined.

(** [_SUBSCRIBE_REQUEST_CODES] and [_UNSUBSCRIBE_REQUEST_CODES] *)
Definition subscribe_code (m : DhanLiveFeedMode) : Z :=
  match m with QUOTE_MODE => 17 | FULL_MODE => 21 end.
Definition unsubscribe_code (m : DhanLiveFeedMode) : Z :=
  match m with QUOTE_MODE => 18 | FULL_MODE => 22 end.

(** The JSON request: its code, its instrument count and its instrument list. *)
Record LiveRequestPayload : Type := {
  rp_request_code : Z;
  rp_instrument_count : nat;
  rp_instrument_list : list (option string * string);
}.

(** [DhanLiveSubscriptionBatch.as_request_payload] *)
Definition as_request_payload (unsubscribe : bool) (self : DhanLiveSubscriptionBatch) : LiveRequestPayload :=
  {| rp_request_code := (if unsubscribe then unsubscribe_code else subscribe_code) (lb_feed_mode self);
     rp_instrument_count := length (lb_references self);
     rp_instrument_list :=
       map (fun reference => (dr_exchange_segment reference, dr_security_id reference)) (lb_references self) |}.

(** [_feed_mode_for] *)
Definition feed_mode_for (request : SubscriptionRequest) : result DhanLiveFeedMode :=
  let types := sr_data_types request in
  if bool_decide (types = {| ks_tick := true; ks_quote := false; ks_depth := false; ks_candle := false |})
  then Ok QUOTE_MODE
  else if negb (ks_candle types) then Ok FULL_MODE
  else Raise UnsupportedProviderRequestError.

(** [_reference_sort_key] *)
Definition reference_sort_key (reference : DhanInstrumentReference) : list string :=
  [exchange (dr_instrument reference); symbol (dr_instrument reference); dr_security_id reference].

Definition MAXIMUM_INSTRUMENTS_PER_REQUEST : nat := 100.

(** [xs[start : start + n] for start in range(0, len(xs), n)] *)
Definition slices {A} (n : nat) (xs : list A) : list (list A) :=
  map (fun k => take n (drop (k * n) xs)) (seq 0 ((length xs + n - 1) / n)).

(** [references_by_instrument] *)
Definition references_by_instrument (cash_references : list DhanInstrumentReference)
    : dict Instrument DhanInstrumentReference :=
  foldl (fun d reference => dict_set (dr_instrument reference) reference d) [] cash_references.

(** [plan_live_subscription_batches] *)
Definition plan_live_subscription_batches (maximum : nat) (request : SubscriptionRequest)
    (cash_references : list DhanInstrumentReference) : result DhanLiveSubscriptionPlan :=
  _ ← raise_if (negb ((1 <=? maximum)%nat && (maximum <=? MAXIMUM_INSTRUMENTS_PER_REQUEST)%nat))
    ProviderContractViolationError;
  mode ← feed_mode_for request;
  let by_instrument := references_by_instrument cash_references in
  _ ← raise_if (negb (length by_instrument =? length cash_references)%nat) ProviderContractViolationError;
  requested ← traverse (fun instrument =>
      match dict_get instrument by_instrument with
      | Some reference => Ok reference
      | None => Raise UnsupportedProviderRequestError
      end) (sr_instruments request);
  let ordered := py_sorted (fun a b => strings_leb (reference_sort_key a) (reference_sort_key b)) requested in
  Ok {| lp_feed_mode := mode;
        lp_batches := map (fun references => {| lb_feed_mode := mode; lb_references := references |})
                        (slices maximum ordered) |}.

(** [_effective_live_plan]; the set of instruments is listed without repetitions. *)
Definition effective_live_plan (desired : list SubscriptionRequest)
    (cash_references : list DhanInstrumentReference) : result DhanLiveSubscriptionPlan :=
  let key instrument :=
    [exchange instrument; symbol instrument; instrument_class_value (instrument_class instrument)] in
  let instruments := py_sorted (fun a b => strings_leb (key a) (key b))
                       (remove_dups (concat (map sr_instruments desired))) in
  let data_types := foldl kinds_union no_kinds (map sr_data_types desired) in
  request ← mk_subscription_request instruments data_types;
  plan_live_subscription_batches MAXIMUM_INSTRUMENTS_PER_REQUEST request cash_references.

(** * The connection *)

Inductive ProviderStatus : Type := UNKNOWN | HEALTHY | DEGRADED | DOWN.

(** What happens at the provider's side and what the continuity sink hears. *)
Inductive Effect : Type :=
| EConnect
| ESend (payload : LiveRequestPayload)
| ESendFailed
| EDisconnectRequest
| EClose
| EContinuity (status : FeedContinuity).

Record Link : Type := {
  k_socket : bool;
  k_active : list DhanLiveSubscriptionBatch;
  k_status : option ProviderStatus;
  k_replies : list (option exn);
  k_trace : list Effect;
}.

Definition set_socket (b : bool) (k : Link) : Link :=
  {| k_socket := b; k_active := k_active k; k_status := k_status k; k_replies := k_replies k; k_trace := k_trace k |}.
Definition set_active (l : list DhanLiveSubscriptionBatch) (k : Link) : Link :=
  {| k_socket := k_socket k; k_active := l; k_status := k_status k; k_replies := k_replies k; k_trace := k_trace k |}.
Definition set_status (s : ProviderStatus) (k : Link) : Link :=
  {| k_socket := k_socket k; k_active := k_active k; k_status := Some s; k_replies := k_replies k;
     k_trace := k_trace k |}.
Definition log_effect (e : Effect) (k : Link) : Link :=
  {| k_socket := k_socket k; k_active := k_active k; k_status := k_status k; k_replies := k_replies k;
     k_trace := k_trace k ++ [e] |}.

(** The reply to the next call. *)
Definition next_reply (k : Link) : Link * option exn :=
  match k_replies k with
  | [] => (k, None)
  | r :: rest => ({| k_socket := k_socket k; k_active := k_active k; k_status := k_status k; k_replies := rest;
                     k_trace := k_trace k |}, r)
  end.

(** [except Exception] does not catch a cancellation. *)
Definition caught (e : exn) : bool := negb (bool_decide (e = CancelledError)).

(** [socket.send(...)] *)
Definition send (payload : LiveRequestPayload) (k : Link) : Link * option exn :=
  let '(k, r) := next_reply k in
  (log_effect (match r with None => ESend payload | Some _ => ESendFailed end) k, r).

Record FeedConfig : Type := {
  fc_client_id : bool;
  fc_maximum_attempts : nat;
  fc_stale_timeout : option Z;
  fc_hard_stale_timeout : option Z;
  fc_session_predicate : bool;
}.

(** [_connect_live_socket]; [fc_client_id] says whether a client id is configured. *)
Definition connect_live_socket (config : FeedConfig) (k : Link) : Link * result unit :=
  if k_socket k then (k, Ok tt)
  else if negb (fc_client_id config) then (k, Raise ProviderAuthenticationError)
  else
    let '(k, token) := next_reply k in
    match token with
    | Some e => (k, Raise e)
    | None =>
        let '(k, connected) := next_reply k in
        match connected with
        | Some e => if caught e then (set_status DOWN k, Raise ProviderNetworkError) else (k, Raise e)
        | None => (log_effect (EContinuity CONNECTED) (log_effect EConnect (set_socket true k)), Ok tt)
        end
    end.

(** The loop of [_unsubscribe_live_plan]. *)
Fixpoint unsubscribe_batches (batches : list DhanLiveSubscriptionBatch) (k : Link) : Link * result unit :=
  match batches with
  | [] => (k, Ok tt)
  | batch :: batches =>
      let '(k, r) := send (as_request_payload true batch) k in
      match r with
      | None => unsubscribe_batches batches k
      | Some e => if caught e then (set_status DEGRADED k, Ok tt) else (k, Raise e)
      end
  end.

(** [_unsubscribe_live_plan] *)
Definition unsubscribe_live_plan (k : Link) : Link * result unit :=
  let active_batches := k_active k in
  let k := set_active [] k in
  if k_socket k then unsubscribe_batches active_batches k else (k, Ok tt).

(** The loop of [_reconcile_live_subscriptions]: what was sent, and the exception that
    ended it. *)
Fixpoint subscribe_batches (batches active : list DhanLiveSubscriptionBatch) (k : Link)
    : Link * list DhanLiveSubscriptionBatch * option exn :=
  match batches with
  | [] => (k, active, None)
  | batch :: batches =>
      if bool_decide (batch ∈ active) then subscribe_batches batches active k
      else
        let '(k, r) := send (as_request_payload false batch) k in
        match r with
        | None => subscribe_batches batches (active ++ [batch]) k
        | Some e => (k, active, Some e)
        end
  end.

(** [_reconcile_live_subscriptions] *)
Definition reconcile_live_subscriptions (plan : DhanLiveSubscriptionPlan) (k : Link) : Link * result unit :=
  if negb (k_socket k) then (k, Raise ProviderContractViolationError)
  else
    let stale := negb (bool_decide (k_active k = [])) && negb (bool_decide (k_active k = lp_batches plan)) in
    let '(k, r) := if stale then unsubscribe_live_plan k else (k, Ok tt) in
    match r with
    | Raise e => (k, Raise e)
    | Ok _ =>
        let '(k, active, failed) := subscribe_batches (lp_batches plan) (k_active k) k in
        match failed with
        | Some e =>
            if caught e then (set_status DEGRADED (set_active active k), Raise ProviderNetworkError)
            else (k, Raise e)
        | None => (set_status HEALTHY (set_active active k), Ok tt)
        end
    end.

(** [_mark_live_connection_lost]; the freshness of the feed is reset with it. *)
Definition mark_live_connection_lost (k : Link) : Link * result unit :=
  let socket := k_socket k in
  let k := set_status DEGRADED (set_active [] (set_socket false k)) in
  if socket then
    let '(k, r) := next_reply (log_effect EClose (log_effect (EContinuity CONTINUITY_LOST) k)) in
    (k, match r with Some e => if caught e then Ok tt else Raise e | None => Ok tt end)
  else (k, Ok tt).

(** One attempt of [_reconnect_live_subscription]. *)
Definition reconnect_attempt (config : FeedConfig) (plan : option DhanLiveSubscriptionPlan) (k : Link)
    : Link * result unit :=
  match connect_live_socket config k with
  | (k, Raise e) => (k, Raise e)
  | (k, Ok _) =>
      match plan with
      | None => (k, Ok tt)
      | Some plan =>
          match reconcile_live_subscriptions plan k with
          | (k, Raise e) => (k, Raise e)
          | (k, Ok _) => (log_effect (EContinuity RECONNECTED) k, Ok tt)
          end
      end
  end.

(** The attempts; the wait before one can only be cancelled. *)
Fixpoint reconnect_attempts (config : FeedConfig) (plan : option DhanLiveSubscriptionPlan) (attempts : nat)
    (k : Link) : Link * result unit :=
  match attempts with
  | O => (k, Raise ProviderUnavailableError)
  | S attempts =>
      let '(k, slept) := next_reply k in
      match slept with
      | Some _ => (k, Raise CancelledError)
      | None =>
          let '(k, r) := reconnect_attempt config plan k in
          match r with
          | Ok _ => (k, Ok tt)
          | Raise e =>
              if caught e then
                let '(k, lost) := mark_live_connection_lost k in
                match lost with Ok _ => reconnect_attempts config plan attempts k | Raise e => (k, Raise e) end
              else (k, Raise e)
          end
      end
  end.

(** [_reconnect_live_subscription] *)
Definition reconnect_live_subscription (config : FeedConfig) (plan : option DhanLiveSubscriptionPlan) (k : Link)
    : Link * result unit :=
  let '(k, lost) := mark_live_connection_lost k in
  match lost with
  | Ok _ => reconnect_attempts config plan (fc_maximum_attempts config) k
  | Raise e => (k, Raise e)
  end.

(** The socket part of [_close_live_socket]. *)
Definition close_live_socket (k : Link) : Link * result unit :=
  let socket := k_socket k in
  let k := set_active [] (set_socket false k) in
  let down k := match k_status k with Some _ => set_status DOWN k | None => k end in
  if socket then
    let '(k, sent) := next_reply k in
    let k := log_effect (match sent with None => EDisconnectRequest | Some _ => ESendFailed end) k in
    if match sent with Some e => negb (caught e) | None => false end then (k, Raise CancelledError)
    else
      let k := match sent with Some _ => set_status DEGRADED k | None => k end in
      let '(k, closed) := next_reply (log_effect EClose k) in
      match closed with
      | Some e => (k, Raise (if caught e then ProviderNetworkError else e))
      | None => (down k, Ok tt)
      end
  else (down k, Ok tt).

(** * The adapter *)

Record LiveConsumer : Type := {
  co_sequence : Z;
  co_request : SubscriptionRequest;
  co_buffer : list MarketEvent;
}.

(** The live part of [DhanRestAdapter]; [f_objects] are the consumers ever made. *)
Record Feed : Type := {
  f_link : Link;
  f_desired : dict SubscriptionRequest Z;
  f_plan : option DhanLiveSubscriptionPlan;
  f_objects : dict Z LiveConsumer;
  f_consumers : list Z;
  f_sequence : Z;
  f_cash_references : list DhanInstrumentReference;
  f_counters : DecodeCounters;
  f_ltt : RawLttRecorder;
  f_last_valid_event_at : option Z;
  f_suspect_stale_logged : bool;
}.

Definition set_link (k : Link) (f : Feed) : Feed :=
  {| f_link := k; f_desired := f_desired f; f_plan := f_plan f; f_objects := f_objects f;
     f_consumers := f_consumers f; f_sequence := f_sequence f; f_cash_references := f_cash_references f;
     f_counters := f_counters f; f_ltt := f_ltt f; f_last_valid_event_at := f_last_valid_event_at f;
     f_suspect_stale_logged := f_suspect_stale_logged f |}.
Definition set_desired (d : dict SubscriptionRequest Z) (plan : option DhanLiveSubscriptionPlan) (f : Feed) : Feed :=
  {| f_link := f_link f; f_desired := d; f_plan := plan; f_objects := f_objects f;
     f_consumers := f_consumers f; f_sequence := f_sequence f; f_cash_references := f_cash_references f;
     f_counters := f_counters f; f_ltt := f_ltt f; f_last_valid_event_at := f_last_valid_event_at f;
     f_suspect_stale_logged := f_suspect_stale_logged f |}.
Definition set_consumers (l : list Z) (objects : dict Z LiveConsumer) (f : Feed) : Feed :=
  {| f_link := f_link f; f_desired := f_desired f; f_plan := f_plan f; f_objects := objects;
     f_consumers := l; f_sequence := f_sequence f; f_cash_references := f_cash_references f;
     f_counters := f_counters f; f_ltt := f_ltt f; f_last_valid_event_at := f_last_valid_event_at f;
     f_suspect_stale_logged := f_suspect_stale_logged f |}.
Definition set_decoder (c : DecodeCounters) (l : RawLttRecorder) (f : Feed) : Feed :=
  {| f_link := f_link f; f_desired := f_desired f; f_plan := f_plan f; f_objects := f_objects f;
     f_consumers := f_consumers f; f_sequence := f_sequence f; f_cash_references := f_cash_references f;
     f_counters := c; f_ltt := l; f_last_valid_event_at := f_last_valid_event_at f;
     f_suspect_stale_logged := f_suspect_stale_logged f |}.
Definition set_freshness (at_ : option Z) (suspect : bool) (f : Feed) : Feed :=
  {| f_link := f_link f; f_desired := f_desired f; f_plan := f_plan f; f_objects := f_objects f;
     f_consumers := f_consumers f; f_sequence := f_sequence f; f_cash_references := f_cash_references f;
     f_counters := f_counters f; f_ltt := f_ltt f; f_last_valid_event_at := at_;
     f_suspect_stale_logged := suspect |}.

(** ** Decoding and fan-out *)

(** A WebSocket message. *)
Inductive Message : Type := MBytes (bytes : Bytes) | MText (text : string).

(** [_DECODE_FAILURE_KINDS] *)
Definition decode_failure_kind (e : exn) : option DecodeKind :=
  match e with
  | NormalizationError => Some KNormalization
  | UnsupportedProviderRequestError => Some KUnsupportedCode
  | UnknownProviderReferenceError => Some KUnknownReference
  | _ => None
  end.

(** [_decode_one_packet]; [at_] is the reading of the wall clock. *)
Definition decode_one_packet (packet : Bytes) (at_ : instant) (f : Feed) : Feed * result (list MarketEvent) :=
  let ltt := fst (ltt_observe (f_ltt f) packet at_) in
  match decode_standard_live_packet packet (f_cash_references f) with
  | Ok events => (set_decoder (record_decode packet KDecoded (f_counters f)) ltt f, Ok events)
  | Raise e =>
      match decode_failure_kind e with
      | Some kind => (set_decoder (record_decode packet kind (f_counters f)) ltt f, Ok [])
      | None => (set_decoder (f_counters f) ltt f, Raise e)
      end
  end.

(** The loop over the packets of one message; packet [n] is decoded at [wall n]. *)
Fixpoint decode_packets (packets : list Bytes) (wall : nat -> instant) (n : nat) (f : Feed)
    : Feed * result (list MarketEvent) :=
  match packets with
  | [] => (f, Ok [])
  | packet :: packets =>
      let '(f, r) := decode_one_packet packet (wall n) f in
      match r with
      | Raise e => (f, Raise e)
      | Ok events =>
          let '(f, r) := decode_packets packets wall (S n) f in
          (f, rest ← r; Ok (events ++ rest))
      end
  end.

(** [_decode_live_frame] *)
Definition decode_live_frame (message : Message) (wall : nat -> instant) (f : Feed)
    : Feed * result (option (list MarketEvent)) :=
  let f := set_decoder (record_message (f_counters f)) (f_ltt f) f in
  match message with
  | MText _ => (set_decoder (record_non_binary (f_counters f)) (f_ltt f) f, Ok None)
  | MBytes bytes =>
      let '(packets, failed) := iter_standard_live_packets bytes in
      let '(f, r) := decode_packets packets wall 0 f in
      match r with
      | Raise e => (f, Raise e)
      | Ok events =>
          (if failed then set_decoder (record_framing_failure (f_counters f)) (f_ltt f) f else f, Ok (Some events))
      end
  end.

(** [_event_matches_request] *)
Definition event_matches_request (event : MarketEvent) (request : SubscriptionRequest) : bool :=
  let instrument := match event with
    | ETick t => tick_instrument t | EQuote q => quote_instrument q
    | EDepth d => ds_instrument d | EReference r => ref_instrument r end in
  if negb (bool_decide (instrument ∈ sr_instruments request)) then false
  else match event with
  | ETick _ => kind_in TICK (sr_data_types request)
  | EQuote _ => kind_in QUOTE (sr_data_types request)
  | EDepth _ => kind_in DEPTH (sr_data_types request)
  | EReference _ => false
  end.

(** [consumer.buffer.append(event)] *)
Definition append_event (event : MarketEvent) (c : LiveConsumer) : LiveConsumer :=
  {| co_sequence := co_sequence c; co_request := co_request c; co_buffer := co_buffer c ++ [event] |}.

Definition offer_event (objects : dict Z LiveConsumer) (event : MarketEvent) (sequence : Z) : dict Z LiveConsumer :=
  match dict_get sequence objects with
  | Some c => if event_matches_request event (co_request c) then dict_set sequence (append_event event c) objects
              else objects
  | None => objects
  end.

(** The two loops of [_distribute_live_packet]. *)
Definition distribute_events (consumers : list Z) (events : list MarketEvent) (objects : dict Z LiveConsumer)
    : dict Z LiveConsumer :=
  foldl (fun objects event => foldl (fun objects sequence => offer_event objects event sequence) objects consumers)
    objects events.

(** [_distribute_live_packet]; [now] is the reading of the live clock. *)
Definition distribute_live_packet (message : Message) (wall : nat -> instant) (now : Z) (f : Feed)
    : Feed * result unit :=
  let '(f, r) := decode_live_frame message wall f in
  match r with
  | Raise e => (f, Raise e)
  | Ok None => (f, Ok tt)
  | Ok (Some events) =>
      let f := if bool_decide (events = []) then f else set_freshness (Some now) false f in
      (set_consumers (f_consumers f) (distribute_events (f_consumers f) events (f_objects f)) f, Ok tt)
  end.

(** ** Consumers *)

(** [_discard_desired_live_request] on the counts. *)
Definition discard_desired (request : SubscriptionRequest) (desired : dict SubscriptionRequest Z)
    : dict SubscriptionRequest Z :=
  let count := default 0 (dict_get request desired) in
  if count <=? 1 then dict_pop request desired else dict_set request (count - 1) desired.

(** The body of the [try] of [_register_live_consumer]. *)
Definition establish_plan (config : FeedConfig) (cash_references : list DhanInstrumentReference) (f : Feed)
    : Feed * result unit :=
  match effective_live_plan (f_desired f).*1 cash_references with
  | Raise e => (f, Raise e)
  | Ok plan =>
      let f := set_desired (f_desired f) (Some plan) f in
      let '(k, r) := connect_live_socket config (f_link f) in
      match r with
      | Raise e => (set_link k f, Raise e)
      | Ok _ => let '(k, r) := reconcile_live_subscriptions plan k in (set_link k f, r)
      end
  end.

(** [_register_live_consumer] *)
Definition register_live_consumer (config : FeedConfig) (request : SubscriptionRequest)
    (cash_references : list DhanInstrumentReference) (f : Feed) : Feed * result Z :=
  let sequence := f_sequence f in
  let f := {| f_link := f_link f;
              f_desired := dict_set request (default 0 (dict_get request (f_desired f)) + 1) (f_desired f);
              f_plan := f_plan f;
              f_objects := dict_set sequence
                {| co_sequence := sequence; co_request := request; co_buffer := [] |} (f_objects f);
              f_consumers := f_consumers f ++ [sequence]; f_sequence := sequence + 1;
              f_cash_references := cash_references; f_counters := f_counters f; f_ltt := f_ltt f;
              f_last_valid_event_at := f_last_valid_event_at f;
              f_suspect_stale_logged := f_suspect_stale_logged f |} in
  let '(f, r) := establish_plan config cash_references f in
  match r with
  | Ok _ => (f, Ok sequence)
  | Raise e =>
      if caught e then
        let f := set_consumers (filter (fun s => s <> sequence) (f_consumers f)) (f_objects f) f in
        let desired := discard_desired request (f_desired f) in
        let f := set_desired desired (f_plan f) f in
        if bool_decide (desired = []) then (set_desired desired None f, Raise e)
        else match effective_live_plan desired.*1 cash_references with
             | Ok plan => (set_desired desired (Some plan) f, Raise e)
             | Raise e' => (f, Raise e')
             end
      else (f, Raise e)
  end.

(** [_unregister_live_consumer] *)
Definition unregister_live_consumer (sequence : Z) (request : SubscriptionRequest)
    (cash_references : list DhanInstrumentReference) (f : Feed) : Feed * result unit :=
  let f := set_consumers (filter (fun s => s <> sequence) (f_consumers f)) (f_objects f) f in
  let desired := discard_desired request (f_desired f) in
  if bool_decide (desired = []) then
    let f := set_desired desired None f in
    let '(k, r) := unsubscribe_live_plan (f_link f) in (set_link k f, r)
  else
    let f := set_desired desired (f_plan f) f in
    match effective_live_plan desired.*1 cash_references with
    | Raise e => (f, Raise e)
    | Ok plan =>
        let f := set_desired desired (Some plan) f in
        let '(k, r) := reconcile_live_subscriptions plan (f_link f) in (set_link k f, r)
    end.

(** [_close_live_socket] *)
Definition close_feed (f : Feed) : Feed * result unit :=
  let f := set_desired [] None (set_consumers [] (f_objects f) f) in
  let '(k, r) := close_live_socket (f_link f) in (set_link k f, r).

(** ** Receiving *)

(** What [socket.recv()] does. *)
Inductive Arrival : Type :=
| AMessage (message : Message)
| ATimeout
| AError (e : exn).

(** The readings of one turn of the receive loop: whether the session predicate holds
    before and after, what the first and a second [recv] do, and the clocks. *)
Record Turn : Type := {
  tu_in_session : bool;
  tu_now : Z;
  tu_arrival : Arrival;
  tu_still_in_session : bool;
  tu_second_arrival : Arrival;
  tu_wall : nat -> instant;
  tu_decoded_at : Z;
}.

Definition plain_arrival (a : Arrival) : result Message :=
  match a with
  | AMessage m => Ok m
  | ATimeout => Raise TimeoutError
  | AError e => Raise e
  end.

(** [_stale_watchdog_active] *)
Definition stale_watchdog_active (config : FeedConfig) (in_session : bool) : bool :=
  is_not_none (fc_stale_timeout config) && fc_session_predicate config && in_session.

(** [_note_suspect_stale]: the flag after it. *)
Definition note_suspect_stale (elapsed soft : Z) (logged : bool) : bool :=
  if logged || (elapsed <? soft) then logged else true.

(** [_receive_live_frame] *)
Definition receive_live_frame (config : FeedConfig) (t : Turn) (f : Feed) : Feed * result Message :=
  if negb (k_socket (f_link f)) then (f, Raise ProviderContractViolationError)
  else match fc_stale_timeout config with
  | None => (f, plain_arrival (tu_arrival t))
  | Some soft =>
      if negb (stale_watchdog_active config (tu_in_session t)) then (f, plain_arrival (tu_arrival t))
      else
        let hard := default soft (fc_hard_stale_timeout config) in
        let last_valid := default (tu_now t) (f_last_valid_event_at f) in
        let f := set_freshness (Some last_valid) (f_suspect_stale_logged f) f in
        let elapsed := tu_now t - last_valid in
        if hard <=? elapsed then (f, Raise LiveFeedStaleError)
        else
          let f := set_freshness (Some last_valid) (note_suspect_stale elapsed soft (f_suspect_stale_logged f)) f in
          match tu_arrival t with
          | AMessage m => (f, Ok m)
          | AError e => (f, Raise e)
          | ATimeout =>
              if stale_watchdog_active config (tu_still_in_session t) then (f, Raise LiveFeedStaleError)
              else (set_freshness None false f, plain_arrival (tu_second_arrival t))
          end
  end.

(** [(ConnectionError, OSError, TimeoutError)] and [_LiveFeedStaleError] *)
Definition reconnects (e : exn) : bool :=
  match e with ConnectionError | DhanFeedDisconnectedError | TimeoutError | LiveFeedStaleError => true | _ => false end.

(** [_reconnect_live_subscription] of the adapter. *)
Definition reconnect_feed (config : FeedConfig) (f : Feed) : Feed * result unit :=
  let '(k, r) := reconnect_live_subscription config (f_plan f) (f_link f) in
  (set_link k (set_freshness None false f), r).

(** One turn of the loop of [_next_live_event]. *)
Definition receive_turn (config : FeedConfig) (t : Turn) (f : Feed) : Feed * result unit :=
  let '(f, r) :=
    match receive_live_frame config t f with
    | (f, Raise e) => (f, Raise e)
    | (f, Ok message) => distribute_live_packet message (tu_wall t) (tu_decoded_at t) f
    end in
  match r with
  | Ok _ => (f, Ok tt)
  | Raise e => if reconnects e then reconnect_feed config f else (f, Raise e)
  end.

(** [consumer.buffer.popleft()], when there is an event. *)
Definition pop_event (sequence : Z) (f : Feed) : option (Feed * MarketEvent) :=
  match dict_get sequence (f_objects f) with
  | Some c =>
      match co_buffer c with
      | event :: rest =>
          Some (set_consumers (f_consumers f)
                  (dict_set sequence {| co_sequence := co_sequence c; co_request := co_request c; co_buffer := rest |}
                     (f_objects f)) f, event)
      | [] => None
      end
  | None => None
  end.

(** [_next_live_event] over the turns that come; [None] while it waits for the next. *)
Fixpoint next_live_event (config : FeedConfig) (sequence : Z) (turns : list Turn) (f : Feed)
    : Feed * option (result MarketEvent) :=
  match pop_event sequence f with
  | Some (f, event) => (f, Some (Ok event))
  | None =>
      match turns with
      | [] => (f, None)
      | t :: turns =>
          let '(f, r) := receive_turn config t f in
          match r with
          | Ok _ => next_live_event config sequence turns f
          | Raise e => (f, Some (Raise e))
          end
      end
  end.

(** [ProviderBoundaryError] and its subclasses. *)
Definition provider_boundary_error (e : exn) : bool :=
  match e with
  | NormalizationError | UnknownProviderReferenceError | UnsupportedProviderRequestError
  | ProviderContractViolationError | ProviderNetworkError | ProviderUnavailableError
  | ProviderAuthenticationError | ProviderTimeoutError | ProviderRateLimitError | ProviderBoundaryError _ => true
  | _ => false
  end.

(** The handlers of [stream_market_data]: the error a stream ends with. *)
Definition stream_failure (e : exn) (f : Feed) : Feed * exn :=
  if negb (caught e) then (f, e)
  else (set_link (set_status DEGRADED (f_link f)) f,
        if provider_boundary_error e then e else ProviderNetworkError).

(** ** Runs *)

Inductive FeedOp : Type :=
| ORegister (request : SubscriptionRequest) (cash_references : list DhanInstrumentReference)
| OUnregister (sequence : Z) (cash_references : list DhanInstrumentReference)
| ORead (turn : Turn)
| OPop (sequence : Z)
| OClose.

(** What happened: a message read, with the consumers and the references of the moment, or
    an event taken from a stream. *)
Inductive FeedEntry : Type :=
| LFrame (consumers : list Z) (references : list DhanInstrumentReference) (message : Message)
| LTaken (sequence : Z) (event : MarketEvent).

Definition feed_step (config : FeedConfig) (op : FeedOp) (f : Feed) : Feed * list FeedEntry :=
  match op with
  | ORegister request refs => (fst (register_live_consumer config request refs f), [])
  | OUnregister sequence refs =>
      match dict_get sequence (f_objects f) with
      | Some c => (fst (unregister_live_consumer sequence (co_request c) refs f), [])
      | None => (f, [])
      end
  | ORead t => (fst (receive_turn config t f),
      match snd (receive_live_frame config t f) with
      | Ok message => [LFrame (f_consumers f) (f_cash_references f) message]
      | Raise _ => []
      end)
  | OPop sequence =>
      match pop_event sequence f with Some (f, event) => (f, [LTaken sequence event]) | None => (f, []) end
  | OClose => (fst (close_feed f), [])
  end.

Fixpoint feed_run (config : FeedConfig) (ops : list FeedOp) (f : Feed) : Feed * list FeedEntry :=
  match ops with
  | [] => (f, [])
  | op :: ops =>
      let '(f, entries) := feed_step config op f in
      let '(f, rest) := feed_run config ops f in (f, entries ++ rest)
  end.

(** The adapter after [__init__]. *)
Definition initial_feed (replies : list (option exn)) (ltt : RawLttDiagnosticConfig) : Feed :=
  {| f_link := {| k_socket := false; k_active := []; k_status := None; k_replies := replies; k_trace := [] |};
     f_desired := []; f_plan := None; f_objects := []; f_consumers := []; f_sequence := 0; f_cash_references := [];
     f_counters := no_decode_counts; f_ltt := mk_ltt_recorder ltt; f_last_valid_event_at := None;
     f_suspect_stale_logged := false |}.

(** * Lemmas *)

(** ** Plans *)

Definition reference_leb (a b : DhanInstrumentReference) : bool :=
  strings_leb (reference_sort_key a) (reference_sort_key b).

Lemma slices_cons {A} n (xs : list A) : (0 < n)%nat -> xs <> [] ->
  slices n xs = take n xs :: slices n (drop n xs).
Proof.
  intros Hn Hx. unfold slices. destruct xs as [|x xs]; [done|]. clear Hx.
  assert (Hq : ((length (x :: xs) + n - 1) / n = S ((length (drop n (x :: xs)) + n - 1) / n))%nat).
  { rewrite length_drop. cbn [length]. destruct (decide (n <= S (length xs))%nat) as [Hle|Hgt].
    - replace (S (length xs) + n - 1)%nat with (S (length xs) - n + n - 1 + 1 * n)%nat by lia.
      rewrite Nat.div_add by lia. lia.
    - replace (S (length xs) - n)%nat with 0%nat by lia.
      rewrite (Nat.div_small (0 + n - 1)) by lia.
      replace (S (length xs) + n - 1)%nat with (length xs + 1 * n)%nat by lia.
      rewrite Nat.div_add, Nat.div_small by lia. done. }
  rewrite Hq. cbn [seq map Nat.mul]. rewrite drop_0. f_equal.
  rewrite <- seq_shift, map_map. apply map_ext. intros k. rewrite drop_drop. by f_equal; f_equal; lia.
Qed.

Lemma slices_nil {A} n : (0 < n)%nat -> slices n ([] : list A) = [].
Proof. intros Hn. unfold slices. cbn [length]. by rewrite Nat.div_small by lia. Qed.

(** Slices put back together are the list, none is empty, and none but the last is short. *)
Lemma slices_spec {A} n (xs : list A) : (0 < n)%nat ->
  concat (slices n xs) = xs /\ Forall (fun s => s <> [] /\ (length s <= n)%nat) (slices n xs)
  /\ forall k s, slices n xs !! k = Some s -> S k <> length (slices n xs) -> length s = n.
Proof.
  intros Hn. remember (length xs) as m eqn:Hm. revert xs Hm. induction (lt_wf m) as [m _ IH]. intros xs ->.
  destruct xs as [|x xs]; [by rewrite slices_nil|]. rewrite slices_cons by done.
  destruct (IH (length (drop n (x :: xs)))) with (xs := drop n (x :: xs)) as (H1 & H2 & H3);
    [rewrite length_drop; cbn; lia|done|]. split_and!.
  - cbn [concat]. by rewrite H1, take_drop.
  - constructor; [|done]. split; [by destruct n|]. rewrite length_take. lia.
  - intros [|k] s Hk Hlen; cbn in Hk, Hlen.
    + injection Hk as <-. rewrite length_take. destruct (decide (n <= length (x :: xs))%nat); [lia|].
      exfalso. apply Hlen. rewrite drop_ge by lia. by rewrite slices_nil.
    + eapply H3; [exact Hk|lia].
Qed.

Lemma references_by_instrument_get refs : NoDup (map dr_instrument refs) ->
  references_by_instrument refs = map (fun r => (dr_instrument r, r)) refs.
Proof.
  intros Hn. unfold references_by_instrument.
  enough (H : forall base, NoDup (base.*1 ++ map dr_instrument refs) ->
    foldl (fun d r => dict_set (dr_instrument r) r d) base refs = base ++ map (fun r => (dr_instrument r, r)) refs)
    by (by apply H).
  clear Hn. induction refs as [|r refs IH]; intros base Hb; cbn [foldl map]; [by rewrite app_nil_r|].
  cbn in Hb. rewrite dict_set_fresh.
  - rewrite IH, <- app_assoc; [done|]. rewrite fmap_app, <- app_assoc. exact Hb.
  - apply NoDup_app in Hb as (_ & Hb & _). intros Hx. apply (Hb _ Hx). left.
Qed.

Lemma references_by_instrument_length refs :
  (length (references_by_instrument refs) = length refs <-> NoDup (map dr_instrument refs)).
Proof.
  split; [|intros H; rewrite references_by_instrument_get by done; apply length_map].
  unfold references_by_instrument.
  enough (H : forall base, NoDup base.*1 ->
    (length (foldl (fun d r => dict_set (dr_instrument r) r d) base refs) <= length base + length refs)%nat
    /\ (length (foldl (fun d r => dict_set (dr_instrument r) r d) base refs) = (length base + length refs)%nat ->
        NoDup (base.*1 ++ map dr_instrument refs))).
  { intros Hl. destruct (H [] ltac:(constructor)) as [_ H']. by apply H'. }
  induction refs as [|r refs IH]; intros base Hb; cbn [foldl map].
  { cbn. split; [lia|]. intros _. by rewrite app_nil_r. }
  pose proof (dict_set_keys (dr_instrument r) r base) as Hk.
  destruct (IH (dict_set (dr_instrument r) r base)) as [IH1 IH2]; [by apply dict_set_NoDup|].
  assert (Hlen : length (dict_set (dr_instrument r) r base)
    = if decide (dr_instrument r ∈ base.*1) then length base else S (length base)).
  { apply (f_equal length) in Hk. rewrite length_fmap in Hk. rewrite Hk.
    case_decide; rewrite ?length_app, length_fmap; cbn; lia. }
  rewrite Hlen in IH1, IH2. cbn [length]. case_decide as Hin; [split; [lia|intros; lia]|].
  split; [lia|]. intros Hl. rewrite Hk in IH2. rewrite <- app_assoc in IH2. apply IH2. lia.
Qed.

(** The reference of an instrument. *)
Definition lookup_reference (refs : list DhanInstrumentReference) (instrument : Instrument)
    : result DhanInstrumentReference :=
  match dict_get instrument (references_by_instrument refs) with
  | Some reference => Ok reference
  | None => Raise UnsupportedProviderRequestError
  end.

Lemma lookup_reference_spec refs instrument : NoDup (map dr_instrument refs) ->
  match lookup_reference refs instrument with
  | Ok r => r ∈ refs /\ dr_instrument r = instrument
  | Raise e => e = UnsupportedProviderRequestError /\ instrument ∉ map dr_instrument refs
  end.
Proof.
  intros Hn. unfold lookup_reference. rewrite references_by_instrument_get by done.
  destruct (dict_get _ _) as [r|] eqn:E.
  - apply dict_get_elem, list_elem_of_In, in_map_iff in E as (r' & [= <- <-] & Hr).
    split; [by apply list_elem_of_In|done].
  - split; [done|]. apply dict_get_none in E. intros Hin. apply E. clear E. induction refs as [|r refs IH]; [done|].
    cbn in *. apply NoDup_cons in Hn as [_ Hn]. apply elem_of_cons in Hin as [->|Hin]; [left|right; by apply IH].
Qed.

(** What a plan promises of the references it was asked for. *)
Record plan_ok (maximum : nat) (request : SubscriptionRequest) (refs : list DhanInstrumentReference)
    (plan : DhanLiveSubscriptionPlan) : Prop := {
  po_mode : feed_mode_for request = Ok (lp_feed_mode plan);
  po_modes : Forall (fun b => lb_feed_mode b = lp_feed_mode plan) (lp_batches plan);
  po_instruments : map dr_instrument (concat (map lb_references (lp_batches plan))) ≡ₚ sr_instruments request;
  po_known : concat (map lb_references (lp_batches plan)) ⊆ refs;
  po_sorted : StronglySorted (fun a b => reference_leb a b = true) (concat (map lb_references (lp_batches plan)));
  po_bounded : Forall (fun b => lb_references b <> [] /\ (length (lb_references b) <= maximum)%nat) (lp_batches plan);
  po_full : forall k b, lp_batches plan !! k = Some b -> S k <> length (lp_batches plan) ->
              length (lb_references b) = maximum;
}.

(** Planning: the requested references, once each, in order of exchange, symbol and
    security id, cut into batches of the maximum, all in the mode of the request's kinds; it
    fails with a contract violation for a bad maximum or two references of one instrument,
    and is unsupported for candles or for an instrument without a reference. *)
Theorem plan_correct maximum request refs :
  match plan_live_subscription_batches maximum request refs with
  | Ok plan => (1 <= maximum <= 100)%nat /\ NoDup (map dr_instrument refs) /\ plan_ok maximum request refs plan
  | Raise ProviderContractViolationError => ~ (1 <= maximum <= 100)%nat \/ ~ NoDup (map dr_instrument refs)
  | Raise UnsupportedProviderRequestError =>
      kind_in CANDLE (sr_data_types request) = true
      \/ exists i, i ∈ sr_instruments request /\ i ∉ map dr_instrument refs
  | Raise _ => False
  end.
Proof.
  unfold plan_live_subscription_batches. destruct (negb (_ && _)) eqn:Em; cbn [raise_if mbind result_bind].
  { left. zbool. unfold MAXIMUM_INSTRUMENTS_PER_REQUEST in Em.
    destruct Em as [Em|Em]; apply Nat.leb_gt in Em; lia. }
  zbool. match goal with H : (1 <=? _)%nat = true |- _ => apply Nat.leb_le in H as H1 end.
  match goal with H : (_ <=? MAXIMUM_INSTRUMENTS_PER_REQUEST)%nat = true |- _ => apply Nat.leb_le in H as H2 end.
  destruct (feed_mode_for request) as [mode|e] eqn:Ef; cbn [mbind result_bind].
  2: { unfold feed_mode_for in Ef. case_bool_decide; [done|]. destruct (ks_candle _) eqn:Ec; [|done].
       cbn in Ef. injection Ef as <-. by left. }
  destruct (negb (length _ =? _)%nat) eqn:El; cbn [raise_if mbind result_bind].
  { right. zbool. apply Nat.eqb_neq in El. intros Hn. apply El, references_by_instrument_length, Hn. }
  zbool. apply Nat.eqb_eq, references_by_instrument_length in El.
  change (fun instrument => match dict_get instrument (references_by_instrument refs) with
    | Some reference => Ok reference | None => Raise UnsupportedProviderRequestError end) with (lookup_reference refs).
  destruct (traverse _ _) as [requested|e] eqn:Et; cbn [mbind result_bind].
  2: { apply traverse_raise in Et as (i & Hi & He). pose proof (lookup_reference_spec refs i El) as Hs. rewrite He in Hs.
       destruct Hs as [-> Hs]. right. by exists i. }
  split; [done|]. split; [done|]. apply traverse_ok in Et.
  set (ordered := py_sorted _ requested). assert (Hr : map dr_instrument requested = sr_instruments request /\ requested ⊆ refs).
  { clear -Et El. induction Et as [|i r instruments found Hi _ [IH1 IH2]]; [split; [done|set_solver]|].
    pose proof (lookup_reference_spec refs i El) as Hs. rewrite Hi in Hs. destruct Hs as [Hs <-].
    cbn. rewrite IH1. set_solver. }
  destruct Hr as [Hr1 Hr2]. destruct (slices_spec maximum ordered ltac:(lia)) as (S1 & S2 & S3).
  assert (Hm : concat (map lb_references (map (fun references =>
      {| lb_feed_mode := mode; lb_references := references |}) (slices maximum ordered))) = ordered).
  { rewrite map_map. cbn. by rewrite map_id. }
  assert (Hp : ordered ≡ₚ requested) by apply py_sorted_perm.
  split; cbn [lp_feed_mode lp_batches]; rewrite ?Hm; try done.
  - apply Forall_map, Forall_true. done.
  - rewrite <- Hr1. by apply Permutation_map.
  - intros r. rewrite Hp. apply Hr2.
  - apply py_sorted_sorted; [intros; apply strings_leb_total|intros ? ? ?; apply strings_leb_trans].
  - apply Forall_map. exact S2.
  - intros k b. rewrite length_map, list_lookup_fmap. destruct (slices maximum ordered !! k) as [s|] eqn:E; [|done].
    intros [= <-]. by apply S3.
Qed.

Lemma kinds_ext a b : (forall k, kind_in k a = kind_in k b) -> a = b.
Proof.
  destruct a, b. intros H. pose proof (H TICK). pose proof (H QUOTE). pose proof (H DEPTH). pose proof (H CANDLE).
  cbn in *. congruence.
Qed.

Lemma kind_in_union k a l : kind_in k (foldl kinds_union a l) = kind_in k a || existsb (kind_in k) l.
Proof.
  revert a. induction l as [|b l IH]; intros a; cbn [foldl existsb]; [by rewrite orb_false_r|].
  rewrite IH, orb_assoc. f_equal. by destruct k.
Qed.

Lemma traverse_permutation {A B} (f : A -> result B) l1 l2 ys1 : l1 ≡ₚ l2 -> traverse f l1 = Ok ys1 ->
  exists ys2, ys1 ≡ₚ ys2 /\ traverse f l2 = Ok ys2.
Proof.
  intros Hp H. apply traverse_ok in H. revert ys1 H.
  induction Hp as [|x l1 l2 Hp IH|x y l|l1 l2 l3 Hp1 IH1 Hp2 IH2]; intros ys1 H.
  - inversion H; subst. by exists [].
  - inversion H as [|? y ? ys Hy Hys]; subst. destruct (IH ys Hys) as (zs & Hz & Ht). exists (y :: zs).
    split; [by constructor|]. cbn. rewrite Hy. cbn. by rewrite Ht.
  - inversion H as [|? u ? us Hu Hus]; subst. inversion Hus as [|? v ? vs Hv Hvs]; subst. exists (v :: u :: vs).
    split; [constructor|]. apply traverse_ok. by repeat constructor.
  - destruct (IH1 _ H) as (ys2 & Hy2 & Ht2%traverse_ok). destruct (IH2 _ Ht2) as (ys3 & Hy3 & Ht3).
    exists ys3. split; [by etransitivity|done].
Qed.

Lemma lookup_reference_known refs i r : lookup_reference refs i = Ok r -> r ∈ refs.
Proof.
  unfold lookup_reference. destruct (dict_get i (references_by_instrument refs)) as [r'|] eqn:E; [|done]. intros [= <-].
  apply dict_get_elem in E. unfold references_by_instrument in E.
  enough (H : forall base, (forall j s, (j, s) ∈ base -> s ∈ refs) -> forall rest, rest ⊆ refs -> forall j s,
    (j, s) ∈ foldl (fun d r => dict_set (dr_instrument r) r d) base rest -> s ∈ refs)
    by (eapply (H []); [by set_solver| |exact E]; done).
  clear E. intros base Hb rest. revert base Hb. induction rest as [|s rest IH]; intros base Hb Hr; [apply Hb|].
  apply IH; [|set_solver]. intros j t Ht.
  assert (Ht' : (j, t) ∈ base \/ t = s).
  { clear -Ht. induction base as [|[k u] base IH]; cbn in Ht; [set_solver|]. case_decide; set_solver. }
  destruct Ht' as [Ht'| ->]; [by eapply Hb|set_solver].
Qed.

Lemma plan_permutation maximum kinds l1 l2 refs : NoDup (map reference_sort_key refs) -> l1 ≡ₚ l2 ->
  plan_live_subscription_batches maximum {| sr_instruments := l1; sr_data_types := kinds |} refs
  = plan_live_subscription_batches maximum {| sr_instruments := l2; sr_data_types := kinds |} refs.
Proof.
  intros Hn Hp. unfold plan_live_subscription_batches. destruct (raise_if _ _) as [[]|e]; cbn [mbind result_bind]; [|done].
  change (feed_mode_for {| sr_instruments := l2; sr_data_types := kinds |})
    with (feed_mode_for {| sr_instruments := l1; sr_data_types := kinds |}).
  destruct (feed_mode_for _) as [mode|e]; cbn [mbind result_bind]; [|done].
  destruct (raise_if _ _) as [[]|e]; cbn [mbind result_bind sr_instruments]; [|done].
  change (fun instrument => match dict_get instrument (references_by_instrument refs) with
    | Some reference => Ok reference | None => Raise UnsupportedProviderRequestError end) with (lookup_reference refs).
  assert (He : forall i e, lookup_reference refs i = Raise e -> e = UnsupportedProviderRequestError)
    by (intros i e; unfold lookup_reference; destruct (dict_get _ _); congruence).
  destruct (traverse (lookup_reference refs) l1) as [ys1|e1] eqn:E1.
  - destruct (traverse_permutation _ _ _ _ Hp E1) as (ys2 & Hy & ->). cbn [mbind result_bind].
    assert (Hs : py_sorted (fun a b => strings_leb (reference_sort_key a) (reference_sort_key b)) ys1
      = py_sorted (fun a b => strings_leb (reference_sort_key a) (reference_sort_key b)) ys2); [|by rewrite Hs].
    assert (Hk : forall r, r ∈ ys1 -> r ∈ refs).
    { apply traverse_ok in E1. intros r Hr. apply list_elem_of_lookup in Hr as (k & Hr).
      destruct (Forall2_lookup_r _ _ _ _ _ E1 Hr) as (i & _ & Hi). by eapply lookup_reference_known. }
    apply py_sorted_unique; [intros; apply strings_leb_total|intros x y z; apply strings_leb_trans| |done].
    intros x y Hx Hy' H1 H2. eapply (NoDup_fmap_eq reference_sort_key refs); [exact Hn|by apply Hk|by apply Hk|].
    by apply strings_leb_antisym.
  - destruct (traverse (lookup_reference refs) l2) as [ys2|e2] eqn:E2.
    + destruct (traverse_permutation _ _ _ _ (Permutation_sym Hp) E2) as (ys1 & _ & E1'). congruence.
    + apply traverse_raise in E1 as (? & _ & ->%He). by apply traverse_raise in E2 as (? & _ & ->%He).
Qed.

(** The plan of all consumers depends only on which instruments and which kinds some
    request names, not on how many requests there are or in what order they came. *)
Theorem effective_plan_order_independent desired1 desired2 refs : NoDup (map reference_sort_key refs) ->
  (forall i, i ∈ concat (map sr_instruments desired1) <-> i ∈ concat (map sr_instruments desired2)) ->
  (forall k, existsb (kind_in k) (map sr_data_types desired1) = existsb (kind_in k) (map sr_data_types desired2)) ->
  effective_live_plan desired1 refs = effective_live_plan desired2 refs.
Proof.
  intros Hn Hi Hk. unfold effective_live_plan. cbv zeta.
  assert (Hkinds : foldl kinds_union no_kinds (map sr_data_types desired1)
    = foldl kinds_union no_kinds (map sr_data_types desired2)).
  { apply kinds_ext. intros k. rewrite !kind_in_union. by rewrite Hk. }
  rewrite Hkinds. set (leb := fun a b : Instrument => strings_leb _ _).
  assert (Hp : py_sorted leb (remove_dups (concat (map sr_instruments desired1)))
    ≡ₚ py_sorted leb (remove_dups (concat (map sr_instruments desired2)))).
  { rewrite !py_sorted_perm. apply NoDup_Permutation; [apply NoDup_remove_dups..|].
    intros i. by rewrite !elem_of_remove_dups. }
  revert Hp. generalize (py_sorted leb (remove_dups (concat (map sr_instruments desired1)))).
  generalize (py_sorted leb (remove_dups (concat (map sr_instruments desired2)))). intros l2 l1 Hp.
  unfold mk_subscription_request.
  rewrite (bool_decide_ext (l1 = []) (l2 = [])).
  2: { split; intros ->; [by apply Permutation_nil|by apply Permutation_nil, Permutation_sym]. }
  rewrite (bool_decide_ext (NoDup l1) (NoDup l2)) by (by rewrite Hp).
  repeat (destruct (raise_if _ _) as [[]|]; cbn [mbind result_bind]; [|done]). by apply plan_permutation.
Qed.

(** ** What the provider holds *)

Abbreviation Entry := (DhanLiveFeedMode * list (option string * string))%type.

Definition batch_entry (b : DhanLiveSubscriptionBatch) : Entry :=
  (lb_feed_mode b, rp_instrument_list (as_request_payload false b)).

(** The provider reads the request code: what is subscribed on the connection. *)
Definition apply_request (p : LiveRequestPayload) (view : list Entry) : list Entry :=
  let subscribed m := view ++ [(m, rp_instrument_list p)] in
  let unsubscribed m := filter (fun entry => entry <> (m, rp_instrument_list p)) view in
  if rp_request_code p =? 17 then subscribed QUOTE_MODE
  else if rp_request_code p =? 21 then subscribed FULL_MODE
  else if rp_request_code p =? 18 then unsubscribed QUOTE_MODE
  else if rp_request_code p =? 22 then unsubscribed FULL_MODE
  else view.

Definition view_step (view : list Entry) (e : Effect) : list Entry :=
  match e with
  | EConnect | EClose | EDisconnectRequest => []
  | ESend p => apply_request p view
  | ESendFailed | EContinuity _ => view
  end.

Definition provider_view (trace : list Effect) : list Entry := foldl view_step [] trace.

(** No send failed on the present connection. *)
Definition clean_step (clean : bool) (e : Effect) : bool :=
  match e with EConnect => true | ESendFailed => false | _ => clean end.

Definition clean (trace : list Effect) : bool := foldl clean_step true trace.

Record link_ok (k : Link) : Prop := {
  lk_closed : k_socket k = false -> k_active k = [];
  lk_held : k_socket k = true -> map batch_entry (k_active k) ⊆ provider_view (k_trace k);
  lk_exact : k_socket k = true -> clean (k_trace k) = true ->
               provider_view (k_trace k) = map batch_entry (k_active k);
}.

Lemma provider_view_snoc t e : provider_view (t ++ [e]) = view_step (provider_view t) e.
Proof. unfold provider_view. by rewrite foldl_app. Qed.

Lemma clean_snoc t e : clean (t ++ [e]) = clean_step (clean t) e.
Proof. unfold clean. by rewrite foldl_app. Qed.

Lemma apply_subscribe b view : apply_request (as_request_payload false b) view = view ++ [batch_entry b].
Proof. unfold batch_entry. by destruct b as [[] ?]. Qed.

Lemma apply_unsubscribe b view :
  apply_request (as_request_payload true b) view = filter (fun entry => entry <> batch_entry b) view.
Proof. unfold batch_entry. by destruct b as [[] ?]. Qed.

Lemma next_reply_frame k k' r : next_reply k = (k', r) ->
  k_socket k' = k_socket k /\ k_active k' = k_active k /\ k_status k' = k_status k /\ k_trace k' = k_trace k.
Proof. unfold next_reply. destruct (k_replies k); intros [= <- <-]; done. Qed.

Lemma send_frame p k k' r : send p k = (k', r) ->
  k_socket k' = k_socket k /\ k_active k' = k_active k /\ k_status k' = k_status k
  /\ k_trace k' = k_trace k ++ [match r with None => ESend p | Some _ => ESendFailed end].
Proof.
  unfold send. destruct (next_reply k) as [k1 r1] eqn:E. intros [= <- <-].
  apply next_reply_frame in E as (? & ? & ? & ?). cbn. by rewrite H2.
Qed.

Lemma link_ok_frame k k' : link_ok k -> k_socket k' = k_socket k -> k_active k' = k_active k ->
  provider_view (k_trace k') = provider_view (k_trace k) -> clean (k_trace k') = clean (k_trace k) -> link_ok k'.
Proof. intros [H1 H2 H3] Hs Ha Hv Hc. split; rewrite ?Hs, ?Ha, ?Hv, ?Hc; done. Qed.

Lemma unsubscribe_batches_spec batches k k' r : unsubscribe_batches batches k = (k', r) ->
  k_socket k' = k_socket k /\ k_active k' = k_active k
  /\ (clean (k_trace k') = true -> clean (k_trace k) = true /\ r = Ok tt
        /\ provider_view (k_trace k') = filter (fun entry => entry ∉ map batch_entry batches) (provider_view (k_trace k)))
  /\ match r with Ok _ => True | Raise e => caught e = false end.
Proof.
  revert k. induction batches as [|b batches IH]; intros k; cbn [unsubscribe_batches].
  { intros [= <- <-]. split_and!; try done. intros Hc. split_and!; try done. symmetry.
    apply filter_keeps. intros x _. apply not_elem_of_nil. }
  destruct (send _ k) as [k1 r1] eqn:E. apply send_frame in E as (E1 & E2 & E3 & E4). destruct r1 as [e|].
  - assert (Hc : clean (k_trace k1) = false) by (by rewrite E4, clean_snoc).
    destruct (caught e) eqn:Ec; intros [= <- <-]; cbn [set_status k_socket k_active k_trace];
      rewrite ?Hc; split_and!; done.
  - intros H. apply IH in H as (H1 & H2 & H3 & H4). split_and!; [congruence|congruence| |done].
    intros Hc. destruct (H3 Hc) as (H5 & H6 & H7). rewrite E4, clean_snoc in H5. split_and!; [done|done|].
    rewrite H7, E4, provider_view_snoc. cbn [view_step map]. rewrite apply_unsubscribe, list_filter_filter.
    apply list_filter_iff. intros entry. set_solver.
Qed.

Lemma subscribe_batches_spec batches active k k' active' failed : subscribe_batches batches active k = (k', active', failed) ->
  k_socket k' = k_socket k /\ k_active k' = k_active k
  /\ (map batch_entry active ⊆ provider_view (k_trace k) -> map batch_entry active' ⊆ provider_view (k_trace k'))
  /\ (clean (k_trace k') = true -> clean (k_trace k) = true /\ failed = None
        /\ (provider_view (k_trace k) = map batch_entry active -> provider_view (k_trace k') = map batch_entry active'))
  /\ (failed = None -> NoDup (active ++ batches) -> active' = active ++ batches)
  /\ (batches ⊆ active -> active' = active) /\ active ⊆ active'.
Proof.
  revert active k. induction batches as [|b batches IH]; intros active k; cbn [subscribe_batches].
  { intros [= <- <- <-]. split_and!; try done. intros _ _. by rewrite app_nil_r. }
  case_bool_decide as Hb.
  - intros H. apply IH in H as (H1 & H2 & H3 & H4 & H5 & H6 & H7). split_and!; try done; [|set_solver].
    intros Hf Hd. exfalso. apply NoDup_app in Hd as (_ & Hd & _). apply (Hd b Hb). left.
  - destruct (send _ k) as [k1 r1] eqn:E. apply send_frame in E as (E1 & E2 & E3 & E4). destruct r1 as [e|].
    + intros [= <- <- <-]. rewrite E4, clean_snoc, provider_view_snoc. cbn. split_and!; done.
    + intros H. apply IH in H as (H1 & H2 & H3 & H4 & H5 & H6 & H7). rewrite E4, provider_view_snoc in H3, H4.
      rewrite clean_snoc in H4. cbn [view_step clean_step] in H3, H4. rewrite apply_subscribe, map_app in H3, H4.
      cbn [map] in H3, H4. split_and!; try congruence.
      * intros Hs. apply H3. set_solver.
      * intros Hc. destruct (H4 Hc) as (? & ? & Hv). split_and!; try done. intros Hq. apply Hv. by rewrite Hq.
      * intros Hf Hd. rewrite H5; [by rewrite <- app_assoc|done|by rewrite <- app_assoc].
      * intros Hs. exfalso. apply Hb, Hs. left.
      * set_solver.
Qed.

Lemma closed_link_ok k : k_socket k = false -> k_active k = [] -> link_ok k.
Proof. intros Hs Ha. split; [done|intros; congruence..]. Qed.

Lemma connect_spec config k k' r : connect_live_socket config k = (k', r) -> link_ok k ->
  link_ok k' /\ (r = Ok tt -> k_socket k' = true) /\ (forall e, r = Raise e -> k_socket k' = false).
Proof.
  unfold connect_live_socket. intros H Hok. destruct (k_socket k) eqn:Es; [by injection H as <- <-|].
  assert (Ha : k_active k = []) by (by apply Hok).
  destruct (negb _); [injection H as <- <-; by rewrite Es|].
  destruct (next_reply k) as [k1 [e|]] eqn:E1; apply next_reply_frame in E1 as (A1 & A2 & A3 & A4).
  { injection H as <- <-. split_and!; [apply closed_link_ok; congruence|done|congruence]. }
  destruct (next_reply k1) as [k2 [e|]] eqn:E2; apply next_reply_frame in E2 as (B1 & B2 & B3 & B4).
  { destruct (caught e); injection H as <- <-; cbn [set_status k_socket];
      (split_and!; [apply closed_link_ok; cbn; congruence|done|congruence]). }
  injection H as <- <-. cbn. split_and!; [|done|done]. split; cbn; [done| |];
    rewrite !provider_view_snoc, B2, A2, Ha; done.
Qed.

Lemma unsubscribe_spec k k' r : unsubscribe_live_plan k = (k', r) -> link_ok k ->
  link_ok k' /\ k_socket k' = k_socket k /\ k_active k' = [] /\ match r with Ok _ => True | Raise e => caught e = false end.
Proof.
  unfold unsubscribe_live_plan. cbn [set_active k_socket]. intros H Hok. destruct (k_socket k) eqn:Es.
  - apply unsubscribe_batches_spec in H as (H1 & H2 & H3 & H4). cbn in H1, H2. split_and!; [|congruence|congruence|done].
    split; [congruence|rewrite H2; set_solver|]. intros _ Hc. destruct (H3 Hc) as (Hc' & _ & ->). cbn [set_active k_trace] in *.
    rewrite (lk_exact k Hok Es Hc'), H2. apply filter_none. intros x Hx Hn. by apply Hn.
  - injection H as <- <-. split_and!; [by apply closed_link_ok|done..].
Qed.

Lemma reconcile_spec plan k k' r : reconcile_live_subscriptions plan k = (k', r) -> link_ok k ->
  link_ok k' /\ k_socket k' = k_socket k
  /\ (r = Ok tt -> NoDup (lp_batches plan) ->
        k_socket k' = true /\ k_active k' = lp_batches plan /\ k_status k' = Some HEALTHY).
Proof.
  unfold reconcile_live_subscriptions. intros H Hok. destruct (k_socket k) eqn:Es; cbn [negb] in H.
  2: { injection H as <- <-. by split_and!. }
  assert (Hu : exists k1 r1, (if negb (bool_decide (k_active k = [])) && negb (bool_decide (k_active k = lp_batches plan))
      then unsubscribe_live_plan k else (k, Ok tt)) = (k1, r1) /\ link_ok k1 /\ k_socket k1 = true
      /\ (k_active k1 = [] \/ k_active k1 = lp_batches plan)).
  { destruct (_ && _) eqn:E.
    - destruct (unsubscribe_live_plan k) as [k1 r1] eqn:Eu. apply unsubscribe_spec in Eu as (U1 & U2 & U3 & _); [|done].
      exists k1, r1. split_and!; [done|done|congruence|by left].
    - exists k, (Ok tt). split_and!; [done|done|done|]. destruct (decide (k_active k = [])) as [|Hn]; [by left|right].
      rewrite bool_decide_false in E by done. cbn in E. by apply negb_false_iff, bool_decide_eq_true in E. }
  destruct Hu as (k1 & r1 & Hu & Hok1 & Hs1 & Ha1). rewrite Hu in H. clear Hu.
  destruct r1 as [[]|e]; [|by injection H as <- <-].
  destruct (subscribe_batches _ _ k1) as [[k2 active] failed] eqn:E.
  apply subscribe_batches_spec in E as (S1 & S2 & S3 & S4 & S5 & S6 & S7).
  assert (Hv : map batch_entry active ⊆ provider_view (k_trace k2)) by (by apply S3, lk_held).
  destruct failed as [e|].
  - assert (Hc : clean (k_trace k2) = true -> False) by (intros Hc; by apply S4 in Hc as (_ & ? & _)).
    destruct (caught e); injection H as <- <-; cbn; (split_and!; [|congruence|done]);
      (split; cbn; [congruence| |by intros _ Hc']); intros _; [done|]. rewrite S2.
    intros x Hx. apply Hv. clear -Hx S7. induction (k_active k1); set_solver.
  - injection H as <- <-. cbn. split_and!; [|congruence|].
    + split; cbn; [congruence|done|]. intros _ Hc. apply S4 in Hc as (Hc & _ & Hx). apply Hx. by apply lk_exact.
    + intros _ Hn. split_and!; [congruence| |done]. destruct Ha1 as [Ha1|Ha1]; rewrite Ha1 in *.
      * by apply S5.
      * by apply S6.
Qed.

Lemma mark_lost_spec k k' r : mark_live_connection_lost k = (k', r) ->
  k_socket k' = false /\ k_active k' = [] /\ k_status k' = Some DEGRADED
  /\ match r with Ok _ => True | Raise e => caught e = false end
  /\ k_trace k' = k_trace k ++ (if k_socket k then [EContinuity CONTINUITY_LOST; EClose] else []).
Proof.
  unfold mark_live_connection_lost. destruct (k_socket k).
  - destruct (next_reply _) as [k1 r1] eqn:E. apply next_reply_frame in E as (E1 & E2 & E3 & E4). cbn in *.
    intros [= <- <-]. rewrite E4, <- app_assoc. split_and!; try done. destruct r1 as [e|]; [|done]. by destruct (caught e) eqn:?.
  - intros [= <- <-]. cbn. by rewrite app_nil_r.
Qed.

Lemma reconnect_attempt_spec config plan k k' r : reconnect_attempt config plan k = (k', r) -> link_ok k ->
  link_ok k' /\ (r = Ok tt -> k_socket k' = true
    /\ forall p, plan = Some p -> NoDup (lp_batches p) ->
         k_active k' = lp_batches p /\ k_status k' = Some HEALTHY
         /\ last (k_trace k') = Some (EContinuity RECONNECTED)).
Proof.
  unfold reconnect_attempt. intros H Hok. destruct (connect_live_socket config k) as [k1 r1] eqn:E1.
  apply connect_spec in E1 as (C1 & C2 & C3); [|done].
  destruct r1 as [[]|e]; [|injection H as <- <-; by split].
  destruct plan as [plan|]; [|injection H as <- <-; split; [done|]; intros _; split; [by apply C2|done]].
  destruct (reconcile_live_subscriptions plan k1) as [k2 r2] eqn:E2.
  apply reconcile_spec in E2 as (R1 & R2 & R3); [|done].
  destruct r2 as [[]|e]; injection H as <- <-; [|by split].
  split.
  - eapply link_ok_frame; [exact R1|done|done| |]; cbn; by rewrite ?provider_view_snoc, ?clean_snoc.
  - intros _. cbn. split; [rewrite R2; by apply C2|]. intros p [= <-] Hn. destruct (R3 eq_refl Hn) as (_ & ? & ?).
    split_and!; [done|done|]. by rewrite last_snoc.
Qed.

Lemma uncaught e : caught e = false -> e = CancelledError.
Proof. unfold caught. intros H. by apply negb_false_iff, bool_decide_eq_true in H. Qed.

(** What a finished reconnect leaves. *)
Definition reconnected (plan : option DhanLiveSubscriptionPlan) (k : Link) (r : result unit) : Prop :=
  match r with
  | Ok _ => k_socket k = true /\ forall p, plan = Some p -> NoDup (lp_batches p) ->
      k_active k = lp_batches p /\ k_status k = Some HEALTHY /\ last (k_trace k) = Some (EContinuity RECONNECTED)
  | Raise e => e = CancelledError
      \/ e = ProviderUnavailableError /\ k_socket k = false /\ k_active k = [] /\ k_status k = Some DEGRADED
  end.

Lemma reconnect_attempts_spec config plan n k k' r : reconnect_attempts config plan n k = (k', r) ->
  k_socket k = false -> k_active k = [] -> k_status k = Some DEGRADED -> link_ok k' /\ reconnected plan k' r.
Proof.
  revert k. induction n as [|n IH]; intros k H Hs Ha Hd; cbn [reconnect_attempts] in H.
  { injection H as <- <-. split; [by apply closed_link_ok|]. by right. }
  destruct (next_reply k) as [k0 slept] eqn:E0. apply next_reply_frame in E0 as (N1 & N2 & N3 & N4).
  assert (Hok0 : link_ok k0) by (apply closed_link_ok; congruence).
  destruct slept as [e|]; [injection H as <- <-; split; [done|by left]|].
  destruct (reconnect_attempt config plan k0) as [k1 r1] eqn:E1.
  apply reconnect_attempt_spec in E1 as (A1 & A2); [|done].
  destruct r1 as [[]|e]; [injection H as <- <-; split; [done|by apply A2]|].
  destruct (caught e) eqn:Ec; [|injection H as <- <-; split; [done|left; by apply uncaught]].
  destruct (mark_live_connection_lost k1) as [k2 r2] eqn:E2. apply mark_lost_spec in E2 as (M1 & M2 & M3 & M4 & _).
  destruct r2 as [[]|e']; [by apply (IH k2)|].
  injection H as <- <-. split; [by apply closed_link_ok|left; by apply uncaught].
Qed.

Lemma reconnect_spec config plan k k' r : reconnect_live_subscription config plan k = (k', r) ->
  link_ok k' /\ reconnected plan k' r.
Proof.
  unfold reconnect_live_subscription. destruct (mark_live_connection_lost k) as [k1 r1] eqn:E1.
  apply mark_lost_spec in E1 as (M1 & M2 & M3 & M4 & _). destruct r1 as [[]|e].
  - intros H. by apply reconnect_attempts_spec in H.
  - intros [= <- <-]. split; [by apply closed_link_ok|left; by apply uncaught].
Qed.

Lemma close_spec k k' r : close_live_socket k = (k', r) -> k_socket k' = false /\ k_active k' = [].
Proof.
  unfold close_live_socket. cbv zeta. destruct (k_socket k).
  - destruct (next_reply _) as [k1 r1] eqn:E1. apply next_reply_frame in E1 as (A1 & A2 & _ & _). cbn in A1, A2.
    destruct (match r1 with Some e => negb (caught e) | None => false end).
    { intros [= <- <-]. cbn. by rewrite A1, A2. }
    set (k2 := match r1 with Some _ => _ | None => _ end).
    assert (Hk2 : k_socket k2 = false /\ k_active k2 = []) by (unfold k2; by destruct r1).
    destruct (next_reply (log_effect EClose k2)) as [k3 r3] eqn:E3. apply next_reply_frame in E3 as (B1 & B2 & _ & _).
    cbn in B1, B2. destruct Hk2 as [H1 H2]. rewrite H1 in B1. rewrite H2 in B2.
    destruct r3 as [e|]; intros [= <- <-]; [done|]. by destruct (k_status k3).
  - intros [= <- <-]. cbn. by destruct (k_status k).
Qed.

(** A provider that answers every call. *)
Lemma subscribe_quiet batches active k : k_replies k = [] ->
  exists k' active', subscribe_batches batches active k = (k', active', None).
Proof.
  revert active k. induction batches as [|b batches IH]; intros active k Hk; cbn [subscribe_batches]; [eauto|].
  case_bool_decide; [by apply IH|]. unfold send, next_reply. rewrite Hk. by apply IH.
Qed.

Lemma unsubscribe_quiet batches k : k_replies k = [] ->
  exists k', unsubscribe_batches batches k = (k', Ok tt) /\ k_replies k' = [].
Proof.
  revert k. induction batches as [|b batches IH]; intros k Hk; cbn [unsubscribe_batches]; [eauto|].
  unfold send, next_reply. rewrite Hk. by apply IH.
Qed.

Lemma reconcile_quiet plan k : k_replies k = [] -> k_socket k = true ->
  exists k', reconcile_live_subscriptions plan k = (k', Ok tt).
Proof.
  intros Hk Hs. unfold reconcile_live_subscriptions. rewrite Hs. cbn [negb].
  destruct (_ && _).
  - unfold unsubscribe_live_plan. cbn [set_active k_socket]. rewrite Hs.
    destruct (unsubscribe_quiet (k_active k) (set_active [] k) Hk) as (k1 & -> & Hk1).
    destruct (subscribe_quiet (lp_batches plan) (k_active k1) k1 Hk1) as (k2 & active & ->). eauto.
  - destruct (subscribe_quiet (lp_batches plan) (k_active k) k Hk) as (k2 & active & ->). eauto.
Qed.

Lemma reconnect_quiet config plan k : k_replies k = [] -> fc_client_id config = true ->
  (0 < fc_maximum_attempts config)%nat -> exists k', reconnect_live_subscription config plan k = (k', Ok tt).
Proof.
  intros Hk Hc Hm. unfold reconnect_live_subscription.
  assert (Hl : exists k1, mark_live_connection_lost k = (k1, Ok tt) /\ k_replies k1 = [] /\ k_socket k1 = false).
  { unfold mark_live_connection_lost, next_reply. cbn. destruct (k_socket k); rewrite ?Hk; eauto. }
  destruct Hl as (k1 & -> & Hk1 & Hs1). destruct (fc_maximum_attempts config) as [|n]; [lia|].
  cbn [reconnect_attempts]. unfold next_reply at 1. rewrite Hk1. unfold reconnect_attempt, connect_live_socket.
  rewrite Hs1, Hc. cbn [negb]. unfold next_reply at 1. rewrite Hk1. unfold next_reply at 1. rewrite Hk1.
  set (k2 := log_effect _ _).
  destruct plan as [plan|]; [|eauto]. destruct (reconcile_quiet plan k2) as (k3 & ->); [done|done|]. eauto.
Qed.

(** What the wire saw of a reconnect that succeeded: a new connection and, when there is a
    plan, its batches and nothing else, then the report. *)
Definition restored_by (plan : option DhanLiveSubscriptionPlan) : list Effect :=
  [EConnect; EContinuity CONNECTED] ++ match plan with
  | Some plan => map (fun batch => ESend (as_request_payload false batch)) (lp_batches plan) ++ [EContinuity RECONNECTED]
  | None => []
  end.

Definition plan_batches (plan : option DhanLiveSubscriptionPlan) : list DhanLiveSubscriptionBatch :=
  match plan with Some plan => lp_batches plan | None => [] end.

Lemma subscribe_sent batches active k k' active' : subscribe_batches batches active k = (k', active', None) ->
  NoDup (active ++ batches) ->
  k_trace k' = k_trace k ++ map (fun batch => ESend (as_request_payload false batch)) batches.
Proof.
  revert active k. induction batches as [|b batches IH]; intros active k; cbn [subscribe_batches map].
  { intros [= -> ->] _. by rewrite app_nil_r. }
  intros H Hn. case_bool_decide as Hb.
  { exfalso. apply NoDup_app in Hn as (_ & Hd & _). apply (Hd b Hb). left. }
  destruct (send _ k) as [k1 [e|]] eqn:E; [done|]. apply send_frame in E as (_ & _ & _ & E).
  rewrite (IH _ _ H) by by rewrite <- app_assoc. by rewrite E, <- app_assoc.
Qed.

(** A successful connection of a closed socket. *)
Lemma connect_sent config k k' : connect_live_socket config k = (k', Ok tt) -> k_socket k = false ->
  k_socket k' = true /\ k_active k' = k_active k /\ k_status k' = k_status k
  /\ k_trace k' = k_trace k ++ [EConnect; EContinuity CONNECTED].
Proof.
  unfold connect_live_socket. intros H Hs. rewrite Hs in H. destruct (negb _); [done|].
  destruct (next_reply k) as [k1 [e|]] eqn:E1; [done|]. destruct (next_reply k1) as [k2 [e|]] eqn:E2; [by destruct (caught e)|].
  apply next_reply_frame in E1 as (_ & A1 & A2 & A3). apply next_reply_frame in E2 as (_ & B1 & B2 & B3).
  injection H as <-. cbn. rewrite <- app_assoc, B3, A3. split_and!; [done|congruence|congruence|done].
Qed.

(** A successful attempt. *)
Lemma attempt_sent config plan k k' : reconnect_attempt config plan k = (k', Ok tt) ->
  k_socket k = false -> k_active k = [] -> NoDup (plan_batches plan) ->
  k_socket k' = true /\ k_active k' = plan_batches plan
  /\ k_status k' = match plan with Some _ => Some HEALTHY | None => k_status k end
  /\ k_trace k' = k_trace k ++ restored_by plan.
Proof.
  unfold reconnect_attempt. intros H Hs Ha Hn. destruct (connect_live_socket config k) as [k1 [[]|e]] eqn:E1; [|done].
  apply connect_sent in E1 as (C1 & C2 & C3 & C4); [|done]. destruct plan as [plan|].
  2: { injection H as <-. cbn. rewrite C4. split_and!; [done|congruence|done|done]. }
  destruct (reconcile_live_subscriptions plan k1) as [k2 [[]|e]] eqn:E2; [|done]. injection H as <-.
  unfold reconcile_live_subscriptions in E2. rewrite C1, C2, Ha in E2. cbn [negb] in E2.
  rewrite (bool_decide_true (([] : list DhanLiveSubscriptionBatch) = []) eq_refl) in E2. cbn [negb andb] in E2. rewrite C2, Ha in E2.
  destruct (subscribe_batches (lp_batches plan) [] k1) as [[k3 active] [e|]] eqn:E3; [by destruct (caught e)|].
  injection E2 as <-. pose proof (subscribe_sent _ _ _ _ _ E3 Hn) as Ht.
  apply subscribe_batches_spec in E3 as (S1 & S2 & _ & _ & S5 & _). cbn.
  split_and!; [congruence|by apply S5|done|]. rewrite Ht, C4. unfold restored_by. by rewrite <- !app_assoc.
Qed.

Lemma attempts_sent config plan n k k' : reconnect_attempts config plan n k = (k', Ok tt) ->
  k_socket k = false -> k_active k = [] -> k_status k = Some DEGRADED -> NoDup (plan_batches plan) ->
  k_socket k' = true /\ k_active k' = plan_batches plan
  /\ k_status k' = Some (match plan with Some _ => HEALTHY | None => DEGRADED end)
  /\ exists before, k_trace k' = before ++ restored_by plan.
Proof.
  revert k. induction n as [|n IH]; intros k H Hs Ha Hd Hn; cbn [reconnect_attempts] in H; [done|].
  destruct (next_reply k) as [k0 [e|]] eqn:E0; [done|]. apply next_reply_frame in E0 as (N1 & N2 & N3 & N4).
  destruct (reconnect_attempt config plan k0) as [k1 [[]|e]] eqn:E1.
  - injection H as <-. apply attempt_sent in E1 as (A1 & A2 & A3 & A4); [|congruence|congruence|done].
    split_and!; [done|done| |by eexists]. rewrite A3, N3, Hd. by destruct plan.
  - destruct (caught e); [|done]. destruct (mark_live_connection_lost k1) as [k2 [[]|e']] eqn:E2; [|done].
    apply mark_lost_spec in E2 as (M1 & M2 & M3 & _). by apply (IH k2).
Qed.

Lemma provider_view_fresh before effects : provider_view (before ++ EConnect :: effects) = provider_view (EConnect :: effects).
Proof. unfold provider_view. by rewrite foldl_app. Qed.

Lemma provider_view_restored before plan :
  provider_view (before ++ restored_by plan) = map batch_entry (plan_batches plan).
Proof.
  unfold restored_by. cbn [app]. rewrite provider_view_fresh. destruct plan as [plan|]; [|done]. cbn [plan_batches].
  assert (H : forall batches view, foldl view_step view (map (fun batch => ESend (as_request_payload false batch)) batches)
    = view ++ map batch_entry batches).
  { induction batches as [|b batches IH]; intros view; cbn [map foldl]; [by rewrite app_nil_r|].
    rewrite IH. cbn [view_step]. by rewrite apply_subscribe, <- app_assoc. }
  unfold provider_view. cbn [foldl view_step]. by rewrite foldl_app, H.
Qed.

(** [C26] A reconnect of a plan without repeated batches, from any state and whatever the
    provider does.  If it succeeds, the wire saw at the end a new connection, one request
    for each batch of the plan in order, every one of them sent, and the report, so that the
    provider holds exactly the plan and so the adapter believes, with the status healthy;
    without a plan only the connection is made.  Otherwise the attempts were used up, it
    raises [ProviderUnavailableError] and nothing is believed subscribed on a closed socket
    with the status degraded, or it was cancelled.  With an attempt to make, a client id and
    a provider that answers every call, it succeeds. *)
Theorem reconnect_restores config plan k : NoDup (plan_batches plan) ->
  let '(k', r) := reconnect_live_subscription config plan k in
  match r with
  | Ok _ => k_socket k' = true /\ k_active k' = plan_batches plan
            /\ provider_view (k_trace k') = map batch_entry (plan_batches plan)
            /\ (exists before, k_trace k' = before ++ restored_by plan)
            /\ k_status k' = Some (match plan with Some _ => HEALTHY | None => DEGRADED end)
  | Raise e => e = CancelledError
      \/ e = ProviderUnavailableError /\ k_socket k' = false /\ k_active k' = [] /\ k_status k' = Some DEGRADED
  end
  /\ (k_replies k = [] -> fc_client_id config = true -> (0 < fc_maximum_attempts config)%nat -> r = Ok tt).
Proof.
  intros Hn. destruct (reconnect_live_subscription _ _ k) as [k' r] eqn:E.
  pose proof (reconnect_spec _ _ _ _ _ E) as [_ Hr]. split.
  - destruct r as [[]|e]; [|exact Hr]. unfold reconnect_live_subscription in E.
    destruct (mark_live_connection_lost k) as [k1 [[]|e]] eqn:E1; [|done]. apply mark_lost_spec in E1 as (M1 & M2 & M3 & _).
    apply attempts_sent in E as (A1 & A2 & A3 & before & A4); [|done..]. split_and!; [done|done| |by eexists|done].
    by rewrite A4, provider_view_restored.
  - intros Hk Hc Hm. destruct (reconnect_quiet config plan k Hk Hc Hm) as (k2 & E2). rewrite E in E2. by injection E2.
Qed.

(** ** Fan-out *)

(** Everything of the adapter but its decoder and freshness. *)
Definition feed_core (f : Feed) :=
  (f_link f, f_desired f, f_plan f, f_objects f, f_consumers f, f_sequence f).

Lemma decode_packets_core packets wall n f : feed_core (fst (decode_packets packets wall n f)) = feed_core f.
Proof.
  revert n f. induction packets as [|packet packets IH]; intros n f; cbn [decode_packets]; [done|].
  destruct (decode_one_packet packet (wall n) f) as [f1 r1] eqn:E1.
  assert (H1 : feed_core f1 = feed_core f).
  { unfold decode_one_packet in E1. destruct (decode_standard_live_packet _ _) as [|e]; [by injection E1 as <- _|].
    destruct (decode_failure_kind e); by injection E1 as <- _. }
  destruct r1 as [events|e]; [|done]. specialize (IH (S n) f1).
  destruct (decode_packets packets wall (S n) f1) as [f2 r2]. cbn in *. congruence.
Qed.

Lemma decode_live_frame_core message wall f : feed_core (fst (decode_live_frame message wall f)) = feed_core f.
Proof.
  unfold decode_live_frame. destruct message as [bytes|]; [|done].
  destruct (iter_standard_live_packets bytes) as [packets failed].
  set (f0 := set_decoder _ _ f). pose proof (decode_packets_core packets wall 0 f0) as H.
  destruct (decode_packets packets wall 0 f0) as [f1 [events|e]]; cbn in H |- *; [|exact H].
  destruct failed; exact H.
Qed.

Lemma receive_live_frame_core config t f : feed_core (fst (receive_live_frame config t f)) = feed_core f.
Proof.
  unfold receive_live_frame. destruct (negb _); [done|]. destruct (fc_stale_timeout config); [|done].
  destruct (negb _); [done|]. cbv zeta. destruct (_ <=? _); [done|]. destruct (tu_arrival t); [done| |done].
  by destruct (stale_watchdog_active _ _).
Qed.

Lemma receive_live_frame_references config t f :
  f_cash_references (fst (receive_live_frame config t f)) = f_cash_references f.
Proof.
  unfold receive_live_frame. destruct (negb _); [done|]. destruct (fc_stale_timeout config); [|done].
  destruct (negb _); [done|]. cbv zeta. destruct (_ <=? _); [done|]. destruct (tu_arrival t); [done| |done].
  by destruct (stale_watchdog_active _ _).
Qed.

(** What a request asks for: ticks, quotes or depth of its instruments.  No request asks
    for references. *)
Definition asks_for (request : SubscriptionRequest) (event : MarketEvent) : Prop :=
  match event with
  | ETick t => tick_instrument t ∈ sr_instruments request /\ ks_tick (sr_data_types request) = true
  | EQuote q => quote_instrument q ∈ sr_instruments request /\ ks_quote (sr_data_types request) = true
  | EDepth d => ds_instrument d ∈ sr_instruments request /\ ks_depth (sr_data_types request) = true
  | EReference _ => False
  end.

#[export] Instance asks_for_dec request event : Decision (asks_for request event).
Proof. destruct event; cbn; apply _. Defined.

Lemma event_matches_request_spec event request :
  event_matches_request event request = bool_decide (asks_for request event).
Proof.
  apply eq_true_iff_eq. rewrite bool_decide_eq_true. unfold event_matches_request, kind_in.
  destruct event as [x|x|x|x]; cbn [asks_for];
    match goal with |- context [negb (bool_decide ?P)] =>
      destruct (decide P) as [H|H]; [rewrite (bool_decide_true _ H)|rewrite (bool_decide_false _ H)] end; cbn [negb];
    split; intros; (done || tauto).
Qed.

Definition matching (request : SubscriptionRequest) (events : list MarketEvent) : list MarketEvent :=
  filter (asks_for request) events.

#[local] Arguments matching : simpl never.

Lemma matching_one request event :
  matching request [event] = if bool_decide (asks_for request event) then [event] else [].
Proof. unfold matching. rewrite filter_cons, filter_nil. by repeat case_bool_decide || case_decide. Qed.

(** The events of one packet: those it decodes to, none when it cannot be decoded. *)
Definition packet_events (references : list DhanInstrumentReference) (packet : Bytes) : list MarketEvent :=
  match decode_standard_live_packet packet references with Ok events => events | Raise _ => [] end.

(** The events a message delivers.  It is a stack of packets, possibly followed by bytes
    that cannot be delimited; a disconnect packet anywhere in it takes the events of the
    whole message with it, and a text message carries none. *)
Inductive message_delivers (references : list DhanInstrumentReference) : Message -> list MarketEvent -> Prop :=
| text_delivers text : message_delivers references (MText text) []
| packets_deliver packets rest : Forall well_framed packets -> rest = [] \/ undelimitable rest ->
    Forall (fun packet => ~ disconnect_packet packet) packets ->
    message_delivers references (MBytes (concat packets ++ rest)) (concat (map (packet_events references) packets))
| disconnect_delivers packets rest : Forall well_framed packets -> rest = [] \/ undelimitable rest ->
    Exists disconnect_packet packets ->
    message_delivers references (MBytes (concat packets ++ rest)) [].

(** The same as a function. *)
Definition disconnects (references : list DhanInstrumentReference) (packet : Bytes) : bool :=
  match decode_standard_live_packet packet references with Raise DhanFeedDisconnectedError => true | _ => false end.
Definition message_events (references : list DhanInstrumentReference) (message : Message) : list MarketEvent :=
  match message with
  | MText _ => []
  | MBytes bytes =>
      let packets := (iter_standard_live_packets bytes).1 in
      if existsb (disconnects references) packets then [] else concat (map (packet_events references) packets)
  end.

Lemma disconnects_spec references packet : disconnects references packet = true <-> disconnect_packet packet.
Proof.
  rewrite <- (disconnect_decoded packet references). unfold disconnects.
  destruct (decode_standard_live_packet packet references) as [events|e]; [done|].
  split; [by destruct e|by intros [= ->]].
Qed.

Lemma message_events_exact references message events :
  message_delivers references message events <-> events = message_events references message.
Proof.
  assert (Hno : forall packets, Forall (fun packet => ~ disconnect_packet packet) packets ->
    existsb (disconnects references) packets = false).
  { intros packets H. apply not_true_iff_false. intros (p & Hp & Hd)%existsb_exists.
    apply list_elem_of_In in Hp. rewrite Forall_forall in H. apply (H p Hp). by eapply disconnects_spec. }
  split.
  - destruct 1 as [text|packets rest Hp Hr Hd|packets rest Hp Hr Hd]; [done|..];
      unfold message_events, iter_standard_live_packets; rewrite iter_packets_exact by (done || lia); cbn [fst].
    + by rewrite Hno.
    + apply Exists_exists in Hd as (p & Hin & Hd). replace (existsb _ packets) with true; [done|].
      symmetry. apply existsb_exists. exists p. split; [by apply list_elem_of_In|by apply disconnects_spec].
  - intros ->. destruct message as [bytes|text]; [|constructor].
    destruct (iter_packets_splits (S (length bytes)) bytes) as (rest & H1 & H2 & H3); [lia|].
    unfold message_events, iter_standard_live_packets. set (packets := (iter_packets (S (length bytes)) bytes).1) in *.
    rewrite H1 at 1. destruct (existsb (disconnects references) packets) eqn:E.
    + apply disconnect_delivers; [done|done|]. apply existsb_exists in E as (p & Hp & Hd). apply Exists_exists.
      exists p. split; [by apply list_elem_of_In|by eapply disconnects_spec].
    + apply packets_deliver; [done|done|]. apply Forall_forall. intros p Hp Hd. apply (disconnects_spec references) in Hd.
      apply not_true_iff_false in E. apply E. apply existsb_exists. exists p. split; [by apply list_elem_of_In|done].
Qed.

Lemma decode_one_packet_events packet at_ f : let '(f', r) := decode_one_packet packet at_ f in
  f_cash_references f' = f_cash_references f
  /\ match r with
     | Ok events => disconnects (f_cash_references f) packet = false /\ events = packet_events (f_cash_references f) packet
     | Raise _ => disconnects (f_cash_references f) packet = true
     end.
Proof.
  unfold decode_one_packet, disconnects, packet_events. pose proof (yields_decode packet (f_cash_references f)) as Hy.
  destruct (decode_standard_live_packet packet (f_cash_references f)) as [events|e]; [done|].
  destruct Hy as [->|[->|[->|[-> _]]]]; done.
Qed.

Lemma decode_packets_events packets wall n f : let '(f', r) := decode_packets packets wall n f in
  match r with
  | Ok events => existsb (disconnects (f_cash_references f)) packets = false
      /\ events = concat (map (packet_events (f_cash_references f)) packets)
  | Raise _ => existsb (disconnects (f_cash_references f)) packets = true
  end.
Proof.
  revert n f. induction packets as [|packet packets IH]; intros n f; [done|]. cbn [decode_packets existsb map concat].
  pose proof (decode_one_packet_events packet (wall n) f) as H1. destruct (decode_one_packet packet (wall n) f) as [f1 [events|e]].
  - destruct H1 as (Hr & -> & ->). specialize (IH (S n) f1). rewrite Hr in IH.
    destruct (decode_packets packets wall (S n) f1) as [f2 [rest|e]]; [|done]. destruct IH as [-> ->]. done.
  - destruct H1 as [_ ->]. done.
Qed.

Lemma decode_live_frame_events message wall f :
  match snd (decode_live_frame message wall f) with Ok (Some events) => events | _ => [] end
  = message_events (f_cash_references f) message.
Proof.
  unfold decode_live_frame, message_events. destruct message as [bytes|]; [|done].
  destruct (iter_standard_live_packets bytes) as [packets failed]. cbn [fst].
  set (f0 := set_decoder _ _ f). pose proof (decode_packets_events packets wall 0 f0) as H.
  change (f_cash_references f0) with (f_cash_references f) in H.
  destruct (decode_packets packets wall 0 f0) as [f1 [events|e]]; cbn in H |- *; [destruct H as [-> ->]|by rewrite H].
  by destruct failed.
Qed.

Definition with_events (events : list MarketEvent) (c : LiveConsumer) : LiveConsumer :=
  {| co_sequence := co_sequence c; co_request := co_request c; co_buffer := co_buffer c ++ events |}.

Lemma offer_all_get objects event consumers s : NoDup consumers ->
  dict_get s (foldl (fun objects sequence => offer_event objects event sequence) objects consumers)
  = (fun c => if bool_decide (s ∈ consumers) then with_events (matching (co_request c) [event]) c else c)
      <$> dict_get s objects.
Proof.
  assert (Hw : forall c, with_events [] c = c) by (intros []; unfold with_events; cbn; by rewrite app_nil_r).
  revert objects. induction consumers as [|x consumers IH]; intros objects; cbn [foldl].
  { intros _. destruct (dict_get s objects); [|done]. cbn. by rewrite bool_decide_false by set_solver. }
  intros [Hx Hn]%NoDup_cons. rewrite IH by done.
  assert (Ho : dict_get s (offer_event objects event x)
    = (fun c => if bool_decide (s = x) then with_events (matching (co_request c) [event]) c else c) <$> dict_get s objects).
  { unfold offer_event. destruct (decide (s = x)) as [->|Hs].
    - destruct (dict_get x objects) as [c|] eqn:E; [|by rewrite E]. cbn. rewrite bool_decide_true by done.
      rewrite event_matches_request_spec, matching_one.
      destruct (bool_decide (asks_for (co_request c) event)).
      + by rewrite dict_get_set, decide_True.
      + by rewrite E, Hw.
    - destruct (dict_get s objects) as [c'|] eqn:E'.
      + cbn. rewrite bool_decide_false by done. destruct (dict_get x objects) as [c|]; [|done].
        destruct (event_matches_request _ _); [|done]. by rewrite dict_get_set, decide_False.
      + cbn. destruct (dict_get x objects) as [c|]; [|done].
        destruct (event_matches_request _ _); [|done]. by rewrite dict_get_set, decide_False. }
  rewrite Ho. destruct (dict_get s objects) as [c|]; [|done]. cbn. f_equal.
  destruct (decide (s = x)) as [->|Hs].
  - rewrite !(bool_decide_true (x = x)), bool_decide_false, bool_decide_true by (done || set_solver). done.
  - rewrite (bool_decide_false (s = x)) by done. by rewrite (bool_decide_ext (s ∈ x :: consumers) (s ∈ consumers)) by set_solver.
Qed.

Lemma distribute_events_get consumers events objects s : NoDup consumers ->
  dict_get s (distribute_events consumers events objects)
  = (fun c => if bool_decide (s ∈ consumers) then with_events (matching (co_request c) events) c else c)
      <$> dict_get s objects.
Proof.
  intros Hn. unfold distribute_events. revert objects. induction events as [|event events IH]; intros objects; cbn [foldl].
  { destruct (dict_get s objects) as [c|]; [|done]. cbn. case_bool_decide; [|done]. unfold with_events. rewrite app_nil_r.
    by destruct c. }
  rewrite IH, offer_all_get by done. destruct (dict_get s objects) as [c|]; [|done]. cbn. f_equal.
  case_bool_decide; [|done]. unfold with_events. cbn. f_equal. rewrite <- app_assoc. f_equal.
  unfold matching. rewrite <- filter_app. done.
Qed.

(** The events of the frame a turn reads. *)
Definition turn_events (config : FeedConfig) (t : Turn) (f : Feed) : list MarketEvent :=
  match snd (receive_live_frame config t f) with
  | Ok message => message_events (f_cash_references f) message
  | Raise _ => []
  end.

(** A turn of the receive loop changes the buffers by the frame it read and nothing else of
    the registrations. *)
Lemma receive_turn_core config t f : let f' := fst (receive_turn config t f) in
  f_desired f' = f_desired f /\ f_plan f' = f_plan f /\ f_consumers f' = f_consumers f /\ f_sequence f' = f_sequence f
  /\ f_objects f' = distribute_events (f_consumers f) (turn_events config t f) (f_objects f)
  /\ (link_ok (f_link f) -> link_ok (f_link f')).
Proof.
  assert (Hnone : forall objects, distribute_events (f_consumers f) [] objects = objects) by done.
  assert (Hcore : forall f1 : Feed, feed_core f1 = feed_core f -> forall r : result unit, let f' := fst (match r with
      | Ok _ => (f1, Ok tt) | Raise e => if reconnects e then reconnect_feed config f1 else (f1, Raise e) end) in
    f_desired f' = f_desired f /\ f_plan f' = f_plan f /\ f_consumers f' = f_consumers f /\ f_sequence f' = f_sequence f
    /\ f_objects f' = f_objects f /\ (link_ok (f_link f) -> link_ok (f_link f'))).
  { intros f1 H [x|e]; unfold feed_core in H; injection H as H1 H2 H3 H4 H5 H6; cbn; [by rewrite H1|].
    destruct (reconnects e); [|by cbn; rewrite H1]. unfold reconnect_feed.
    destruct (reconnect_live_subscription _ _ _) as [k r] eqn:E. cbn. split_and!; try done. intros _.
    by apply reconnect_spec in E as [? _]. }
  unfold receive_turn, turn_events. pose proof (receive_live_frame_core config t f) as Hr.
  pose proof (receive_live_frame_references config t f) as Href.
  destruct (receive_live_frame config t f) as [f1 [message|e]]; cbn [fst snd] in Hr, Href |- *.
  2: { specialize (Hcore f1 Hr (Raise e : result unit)). cbn zeta in *. rewrite Hnone. exact Hcore. }
  unfold distribute_live_packet. pose proof (decode_live_frame_core message (tu_wall t) f1) as Hd.
  pose proof (decode_live_frame_events message (tu_wall t) f1) as He. rewrite Href in He.
  destruct (decode_live_frame message (tu_wall t) f1) as [f2 [[events|]|e]]; cbn [fst snd] in Hd, He; rewrite <- He; clear He.
  - rewrite Hr in Hd. unfold feed_core in Hd. injection Hd as H1 H2 H3 H4 H5 H6. cbn.
    destruct (bool_decide (events = [])); cbn; by rewrite H1, H2, H3, H4, H5, H6.
  - rewrite Hr in Hd. specialize (Hcore f2 Hd (Ok tt)). rewrite Hnone. exact Hcore.
  - rewrite Hr in Hd. specialize (Hcore f2 Hd (Raise e : result unit)). rewrite Hnone. exact Hcore.
Qed.

Lemma establish_plan_spec config refs f : let '(f', r) := establish_plan config refs f in
  f_desired f' = f_desired f /\ f_objects f' = f_objects f /\ f_consumers f' = f_consumers f
  /\ f_sequence f' = f_sequence f /\ (link_ok (f_link f) -> link_ok (f_link f'))
  /\ (r = Ok tt -> exists plan, effective_live_plan (f_desired f).*1 refs = Ok plan /\ f_plan f' = Some plan
        /\ (link_ok (f_link f) -> NoDup (lp_batches plan) -> k_socket (f_link f') = true
            /\ k_active (f_link f') = lp_batches plan /\ k_status (f_link f') = Some HEALTHY)).
Proof.
  unfold establish_plan. destruct (effective_live_plan _ refs) as [plan|e] eqn:Ep; [|by split_and!].
  cbn [set_desired f_link]. destruct (connect_live_socket config (f_link f)) as [k r] eqn:E1.
  destruct r as [[]|e].
  - destruct (reconcile_live_subscriptions plan k) as [k2 r2] eqn:E2. cbn. split_and!; try done.
    + intros Hok. apply connect_spec in E1 as (C1 & _); [|done]. by apply reconcile_spec in E2 as (R1 & _).
    + intros ->. exists plan. split_and!; try done. intros Hok Hn. apply connect_spec in E1 as (C1 & _); [|done].
      by apply reconcile_spec in E2 as (_ & _ & R3); [apply R3|].
  - cbn. split_and!; try done. intros Hok. by apply connect_spec in E1 as (C1 & _).
Qed.

(** What registering a consumer does to the registrations, on every path. *)
Lemma register_spec config request refs f : let '(f', r) := register_live_consumer config request refs f in
  let desired := dict_set request (default 0 (dict_get request (f_desired f)) + 1) (f_desired f) in
  f_sequence f' = f_sequence f + 1
  /\ f_objects f' = dict_set (f_sequence f)
       {| co_sequence := f_sequence f; co_request := request; co_buffer := [] |} (f_objects f)
  /\ (link_ok (f_link f) -> link_ok (f_link f'))
  /\ match r with
     | Ok s => s = f_sequence f /\ f_consumers f' = f_consumers f ++ [s] /\ f_desired f' = desired
         /\ exists plan, effective_live_plan desired.*1 refs = Ok plan /\ f_plan f' = Some plan
            /\ (link_ok (f_link f) -> NoDup (lp_batches plan) -> k_socket (f_link f') = true
                /\ k_active (f_link f') = lp_batches plan /\ k_status (f_link f') = Some HEALTHY)
     | Raise e =>
         (e = CancelledError /\ f_consumers f' = f_consumers f ++ [f_sequence f] /\ f_desired f' = desired)
         \/ (f_consumers f' = filter (fun s => s <> f_sequence f) (f_consumers f ++ [f_sequence f])
             /\ f_desired f' = discard_desired request desired)
     end.
Proof.
  unfold register_live_consumer. set (f0 := Build_Feed _ _ _ _ _ _ _ _ _ _ _).
  pose proof (establish_plan_spec config refs f0) as H. destruct (establish_plan config refs f0) as [f1 r1].
  destruct H as (H1 & H2 & H3 & H4 & H5 & H6). cbn in H1, H2, H3, H4, H5, H6. destruct r1 as [[]|e].
  - split_and!; try done. destruct (H6 eq_refl) as (plan & Hp & Hf & Hl). by exists plan.
  - destruct (caught e) eqn:Ec.
    + cbv zeta. cbn [set_consumers f_consumers f_objects f_desired f_plan]. rewrite H1, H3.
      destruct (bool_decide _).
      * cbn. split_and!; try done. by right.
      * clear H6. destruct (effective_live_plan _ _) as [plan|e']; cbn; (split_and!; [done|done|done|by right]).
    + apply uncaught in Ec as ->. split_and!; try done. by left.
Qed.

Lemma unregister_spec s request refs f : let '(f', r) := unregister_live_consumer s request refs f in
  f_sequence f' = f_sequence f /\ f_objects f' = f_objects f /\ (link_ok (f_link f) -> link_ok (f_link f'))
  /\ f_consumers f' = filter (fun x => x <> s) (f_consumers f) /\ f_desired f' = discard_desired request (f_desired f).
Proof.
  unfold unregister_live_consumer. cbv zeta. cbn [set_consumers f_desired f_plan]. destruct (bool_decide _).
  - cbn [set_desired f_link]. destruct (unsubscribe_live_plan _) as [k r] eqn:E. cbn in *. split_and!; try done.
    intros Hok. by apply unsubscribe_spec in E as [? _].
  - destruct (effective_live_plan _ _) as [plan|e]; [|done]. cbn [set_desired f_link].
    destruct (reconcile_live_subscriptions _ _) as [k r] eqn:E. cbn in *. split_and!; try done.
    intros Hok. by apply reconcile_spec in E as [? _].
Qed.

Lemma close_feed_spec f : let '(f', r) := close_feed f in
  f_sequence f' = f_sequence f /\ f_objects f' = f_objects f /\ link_ok (f_link f') /\ f_consumers f' = []
  /\ f_desired f' = [].
Proof.
  unfold close_feed. destruct (close_live_socket _) as [k r] eqn:E. apply close_spec in E as [? ?]. cbn.
  split_and!; try done. by apply closed_link_ok.
Qed.

(** The events a consumer's stream has taken. *)
Definition taken (s : Z) (log : list FeedEntry) : list MarketEvent :=
  omap (fun entry => match entry with
    | LTaken x event => if bool_decide (x = s) then Some event else None | LFrame _ _ _ => None end) log.

(** The events of its request in the messages read while it was registered. *)
Definition delivered (s : Z) (request : SubscriptionRequest) (log : list FeedEntry) : list MarketEvent :=
  concat (map (fun entry => match entry with
    | LFrame consumers references message =>
        if bool_decide (s ∈ consumers) then matching request (message_events references message) else []
    | LTaken _ _ => [] end) log).

(** The same as a relation over what the messages are made of. *)
Inductive deliveries (s : Z) (request : SubscriptionRequest) : list FeedEntry -> list MarketEvent -> Prop :=
| no_deliveries : deliveries s request [] []
| taking_delivers_nothing x event log events : deliveries s request log events ->
    deliveries s request (LTaken x event :: log) events
| registered_deliveries consumers references message own log events : s ∈ consumers ->
    message_delivers references message own -> deliveries s request log events ->
    deliveries s request (LFrame consumers references message :: log) (filter (asks_for request) own ++ events)
| unregistered_deliveries consumers references message log events : s ∉ consumers ->
    deliveries s request log events -> deliveries s request (LFrame consumers references message :: log) events.

Lemma deliveries_exact s request log events : deliveries s request log events <-> events = delivered s request log.
Proof.
  split.
  - induction 1 as [|x event log events _ ->|consumers references message own log events Hs Hm _ ->
      |consumers references message log events Hs _ ->]; unfold delivered; cbn [map concat]; [done|done| |].
    + rewrite bool_decide_true by done. by apply message_events_exact in Hm as ->.
    + by rewrite bool_decide_false.
  - intros ->. induction log as [|[consumers references message|x event] log IH]; unfold delivered; cbn [map concat];
      [constructor| |by constructor].
    case_bool_decide as Hs; [|by constructor]. apply registered_deliveries; [done|by apply message_events_exact|exact IH].
Qed.

Record feed_inv (f : Feed) (log : list FeedEntry) : Prop := {
  fi_nodup : NoDup (f_consumers f);
  fi_registered : forall s, s ∈ f_consumers f -> s < f_sequence f;
  fi_objects : forall s c, dict_get s (f_objects f) = Some c -> s < f_sequence f
    /\ taken s log ++ co_buffer c = delivered s (co_request c) log;
  fi_log : forall s, f_sequence f <= s -> taken s log = [] /\ forall request, delivered s request log = [];
  fi_link : link_ok (f_link f);
}.

Lemma taken_app s l1 l2 : taken s (l1 ++ l2) = taken s l1 ++ taken s l2.
Proof. apply omap_app. Qed.

Lemma delivered_app s request l1 l2 : delivered s request (l1 ++ l2) = delivered s request l1 ++ delivered s request l2.
Proof. unfold delivered. by rewrite map_app, concat_app. Qed.

(** A step that reads and takes nothing and only forgets consumers. *)
Lemma feed_inv_forget f f' log : feed_inv f log -> f_sequence f' = f_sequence f -> f_objects f' = f_objects f ->
  (exists l : list Z, f_consumers f' = filter (fun x => x ∉ l) (f_consumers f)) -> link_ok (f_link f') -> feed_inv f' log.
Proof.
  intros [H1 H2 H3 H4 H5] Hs Ho [l Hc] Hl. split; rewrite ?Hs, ?Ho; try done.
  - rewrite Hc. by apply NoDup_filter.
  - intros s. rewrite Hc, list_elem_of_filter. intros [_ ?]. by apply H2.
Qed.

Lemma feed_inv_register f f' log request : feed_inv f log -> f_sequence f' = f_sequence f + 1 ->
  f_objects f' = dict_set (f_sequence f)
    {| co_sequence := f_sequence f; co_request := request; co_buffer := [] |} (f_objects f) ->
  f_consumers f' = f_consumers f ++ [f_sequence f] \/ f_consumers f' = f_consumers f ->
  link_ok (f_link f') -> feed_inv f' log.
Proof.
  intros [H1 H2 H3 H4 H5] Hs Ho Hc Hl.
  assert (Hnew : f_sequence f ∉ f_consumers f) by (intros Hin; apply H2 in Hin; lia).
  split; rewrite ?Hs; [| | | |done].
  - destruct Hc as [->| ->]; [|done]. apply NoDup_app. split_and!; [done|set_solver|apply NoDup_singleton].
  - intros s Hin. assert (Hs' : s = f_sequence f \/ s ∈ f_consumers f)
      by (clear -Hc Hin; destruct Hc as [Hc|Hc]; rewrite Hc in Hin; set_solver).
    destruct Hs' as [->|Hin'%H2]; lia.
  - intros s c. rewrite Ho, dict_get_set. destruct (decide (s = f_sequence f)) as [->|Hn].
    + intros [= <-]. destruct (H4 (f_sequence f) ltac:(lia)) as [Ht Hd]. cbn. rewrite Ht, Hd. split; [lia|done].
    + intros Hg. destruct (H3 s c Hg). split; [lia|done].
  - intros s Hle. apply H4. lia.
Qed.

Lemma feed_step_inv config op f log : feed_inv f log ->
  let '(f', entries) := feed_step config op f in feed_inv f' (log ++ entries).
Proof.
  intros Hinv. pose proof Hinv as [H1 H2 H3 H4 H5]. destruct op as [request refs|s refs|t|s|]; cbn [feed_step].
  - pose proof (register_spec config request refs f) as H. destruct (register_live_consumer _ _ _ _) as [f' r].
    cbn [fst]. rewrite app_nil_r. destruct H as (Hs & Ho & Hl & Hr).
    apply (feed_inv_register f f' log request); [done|done|done| |by apply Hl].
    destruct r as [s|e]; [left; by destruct Hr as (-> & -> & _)|]. destruct Hr as [(_ & -> & _)|[-> _]]; [by left|right].
    rewrite filter_app, filter_cons, decide_False, filter_nil, app_nil_r by (intros ?; done).
    apply filter_keeps. intros x Hx ->. apply H2 in Hx. lia.
  - destruct (dict_get s (f_objects f)) as [c|]; [|by rewrite app_nil_r].
    pose proof (unregister_spec s (co_request c) refs f) as H. destruct (unregister_live_consumer _ _ _ _) as [f' r].
    cbn [fst]. rewrite app_nil_r. destruct H as (Hs & Ho & Hl & Hc & _).
    apply (feed_inv_forget f); [done|done|done| |by apply Hl]. exists [s]. rewrite Hc. apply list_filter_iff. set_solver.
  - pose proof (receive_turn_core config t f) as H. cbv zeta in H. destruct (receive_turn config t f) as [f' r].
    cbn [fst] in *. destruct H as (_ & _ & Hc & Hs & Ho & Hl). unfold turn_events in Ho.
    destruct (snd (receive_live_frame config t f)) as [message|e].
    2: { rewrite app_nil_r. apply (feed_inv_forget f); [done|done|done| |by apply Hl]. exists []. rewrite Hc.
         symmetry. apply filter_keeps. intros x _ Hx. by apply not_elem_of_nil in Hx. }
    set (events := message_events _ message) in *.
    split; rewrite ?Hc, ?Hs; [done|done| | |by apply Hl].
    + intros x c. rewrite Ho, distribute_events_get by done. destruct (dict_get x (f_objects f)) as [c0|] eqn:E; [|done].
      cbn. intros [= <-]. destruct (H3 x c0 E) as [Hx Hd]. split; [done|].
      rewrite taken_app, delivered_app. cbn. rewrite app_nil_r. case_bool_decide.
      * cbn. by rewrite <- Hd, <- app_assoc, app_nil_r.
      * by rewrite Hd, !app_nil_r.
    + intros x Hx. destruct (H4 x Hx) as [Ht Hd]. rewrite taken_app, Ht. split; [done|]. intros request.
      rewrite delivered_app, Hd. cbn. rewrite bool_decide_false; [done|]. intros Hin. apply H2 in Hin. lia.
  - unfold pop_event. destruct (dict_get s (f_objects f)) as [c|] eqn:E; [|by rewrite app_nil_r].
    destruct (co_buffer c) as [|event rest] eqn:Eb; [by rewrite app_nil_r|].
    split; cbn [set_consumers f_consumers f_objects f_sequence f_link]; [done|done| | |done].
    + intros x c'. rewrite dict_get_set, taken_app, delivered_app. cbn. destruct (decide (x = s)) as [->|Hx].
      * intros [= <-]. destruct (H3 s c E) as [Hs Hd]. split; [done|]. rewrite bool_decide_true by done. cbn.
        by rewrite <- app_assoc, app_nil_r, <- Hd, Eb.
      * intros Hg. destruct (H3 x c' Hg) as [Hs Hd]. split; [done|]. rewrite bool_decide_false by done. cbn.
        by rewrite !app_nil_r.
    + intros x Hx. destruct (H4 x Hx) as [Ht Hd]. rewrite taken_app, Ht. destruct (H3 s c E) as [Hs _]. split.
      * cbn. rewrite bool_decide_false by lia. done.
      * intros request. rewrite delivered_app, Hd. done.
  - pose proof (close_feed_spec f) as H. destruct (close_feed f) as [f' r]. cbn [fst]. rewrite app_nil_r.
    destruct H as (Hs & Ho & Hl & Hc & _). apply (feed_inv_forget f); [done|done|done| |done].
    exists (f_consumers f). rewrite Hc. symmetry. apply filter_none. set_solver.
Qed.

Lemma feed_run_inv config ops f log : feed_inv f log ->
  let '(f', entries) := feed_run config ops f in feed_inv f' (log ++ entries).
Proof.
  revert f log. induction ops as [|op ops IH]; intros f log Hinv; cbn [feed_run]; [by rewrite app_nil_r|].
  pose proof (feed_step_inv config op f log Hinv) as H. destruct (feed_step config op f) as [f1 e1].
  specialize (IH f1 _ H). destruct (feed_run config ops f1) as [f2 e2]. by rewrite <- app_assoc in IH.
Qed.

Lemma initial_feed_inv replies ltt : feed_inv (initial_feed replies ltt) [].
Proof. split; [apply NoDup_nil_2|intros s Hs; by apply not_elem_of_nil in Hs|done|done|by apply closed_link_ok]. Qed.

(** [C25] Fan-out, in any run of registrations, removals, messages (whichever consumer's turn
    read them), reconnects and closes, each taken as one step, whatever the provider
    replies: each consumer's stream has taken, and its buffer still holds, once each and in
    order, the events it asks for of the messages read while it was registered, where a
    message has the events its packets decode to, or none when one of its packets is a
    disconnect. *)
Theorem fan_out_exact config replies ltt ops :
  let '(f, log) := feed_run config ops (initial_feed replies ltt) in
  forall s c, dict_get s (f_objects f) = Some c ->
    forall events, deliveries s (co_request c) log events <-> events = taken s log ++ co_buffer c.
Proof.
  pose proof (feed_run_inv config ops _ _ (initial_feed_inv replies ltt)) as H.
  destruct (feed_run config ops _) as [f log]. cbn in H. intros s c Hg events.
  destruct (fi_objects f log H s c Hg) as [_ ->]. apply deliveries_exact.
Qed.

(** Subscriptions: in any such run the batches the adapter believes active are held by the
    provider, there are none without a connection, and as long as no send failed on the
    present connection they are exactly what the provider holds, in order. *)
Theorem active_batches_faithful config replies ltt ops :
  let k := f_link (fst (feed_run config ops (initial_feed replies ltt))) in
  (k_socket k = false -> k_active k = [])
  /\ (k_socket k = true -> map batch_entry (k_active k) ⊆ provider_view (k_trace k))
  /\ (k_socket k = true -> clean (k_trace k) = true -> provider_view (k_trace k) = map batch_entry (k_active k)).
Proof.
  pose proof (feed_run_inv config ops _ _ (initial_feed_inv replies ltt)) as H.
  destruct (feed_run config ops _) as [f log]. cbn in H. destruct (fi_link f log H) as [? ? ?]. done.
Qed.

(** ** Requests *)

(** How many registered consumers carry a request. *)
Definition registered_with (f : Feed) (request : SubscriptionRequest) : nat :=
  length (filter (fun s => co_request <$> dict_get s (f_objects f) = Some request) (f_consumers f)).

Definition counts_ok (f : Feed) : Prop := forall request,
  default 0 (dict_get request (f_desired f)) = Z.of_nat (registered_with f request)
  /\ dict_get request (f_desired f) <> Some 0.

(** A step no cancellation cut short, and removals of registered consumers only. *)
Definition settled (config : FeedConfig) (op : FeedOp) (f : Feed) : Prop :=
  match op with
  | ORegister request refs => snd (register_live_consumer config request refs f) <> Raise CancelledError
  | OUnregister s _ => s ∈ f_consumers f
  | _ => True
  end.

Fixpoint settled_run (config : FeedConfig) (ops : list FeedOp) (f : Feed) : Prop :=
  match ops with
  | [] => True
  | op :: ops => settled config op f /\ settled_run config ops (fst (feed_step config op f))
  end.

Lemma discard_desired_get request request' desired :
  dict_get request' (discard_desired request desired)
  = if decide (request' = request)
    then if default 0 (dict_get request desired) <=? 1 then None else Some (default 0 (dict_get request desired) - 1)
    else dict_get request' desired.
Proof. unfold discard_desired. destruct (_ <=? 1); rewrite ?dict_get_pop, ?dict_get_set; by case_decide. Qed.

Lemma counts_same f f' : (forall request, dict_get request (f_desired f') = dict_get request (f_desired f)) ->
  (forall request, registered_with f' request = registered_with f request) -> counts_ok f -> counts_ok f'.
Proof. intros Hd Hr H request. rewrite Hd, Hr. apply H. Qed.

Lemma registered_with_ext f f' : f_consumers f' = f_consumers f ->
  (forall s, s ∈ f_consumers f -> co_request <$> dict_get s (f_objects f') = co_request <$> dict_get s (f_objects f)) ->
  forall request, registered_with f' request = registered_with f request.
Proof.
  intros Hc Ho request. unfold registered_with. rewrite Hc. clear Hc.
  induction (f_consumers f) as [|s l IH]; [done|]. rewrite !filter_cons.
  rewrite (Ho s) by left. assert (IH' := IH ltac:(intros x Hx; apply Ho; by right)). by case_decide; cbn; rewrite IH'.
Qed.

Lemma length_filter_remove (P : Z -> Prop) `{!forall x, Decision (P x)} (s : Z) l : NoDup l -> s ∈ l ->
  length (filter P l) = (length (filter P (filter (fun x => x <> s) l)) + (if decide (P s) then 1 else 0))%nat.
Proof.
  induction l as [|x l IH]; [set_solver|]. intros [Hx Hn]%NoDup_cons [->|Hin]%elem_of_cons; rewrite !filter_cons.
  - rewrite (decide_False (P := x <> x)) by (intros H'; by apply H'). rewrite (filter_keeps (fun y => y <> x)) by (intros y Hy ->; done).
    case_decide; cbn; lia.
  - assert (x <> s) by (intros ->; done). rewrite (decide_True (P := x <> s)) by done. rewrite filter_cons. specialize (IH Hn Hin).
    destruct (decide (P x)); cbn [length]; lia.
Qed.

Lemma counts_register config request refs f log : feed_inv f log -> counts_ok f ->
  snd (register_live_consumer config request refs f) <> Raise CancelledError ->
  counts_ok (fst (register_live_consumer config request refs f)).
Proof.
  intros Hinv Hok. pose proof (register_spec config request refs f) as H.
  destruct (register_live_consumer _ _ _ _) as [f' r]. cbn [fst snd]. destruct H as (Hs & Ho & _ & Hr). intros Hnc.
  assert (Hold : forall s, s ∈ f_consumers f ->
    co_request <$> dict_get s (f_objects f') = co_request <$> dict_get s (f_objects f)).
  { intros s Hin. apply (fi_registered f log Hinv) in Hin. by rewrite Ho, dict_get_set, decide_False by lia. }
  destruct r as [s|e].
  - destruct Hr as (-> & Hc & Hd & _). intros r. destruct (Hok r) as [H1 H2].
    rewrite Hd, dict_get_set. unfold registered_with. rewrite Hc, filter_app, length_app.
    assert (Hf : filter (fun s => co_request <$> dict_get s (f_objects f') = Some r) (f_consumers f)
      = filter (fun s => co_request <$> dict_get s (f_objects f) = Some r) (f_consumers f)).
    { clear -Hold. induction (f_consumers f) as [|x l IH]; [done|]. rewrite !filter_cons, (Hold x) by left.
      rewrite IH; [done|]. intros y Hy. apply Hold. by right. }
    rewrite Hf, filter_cons, filter_nil, Ho, dict_get_set, (decide_True (P := f_sequence f = f_sequence f))
      by done. cbn [fmap option_fmap option_map co_request].
    destruct (decide (r = request)) as [->|Hn].
    + rewrite decide_True by done. unfold registered_with in H1. cbn [default from_option id length]. rewrite H1.
      split; [lia|]. intros [=]. lia.
    + rewrite decide_False by congruence. unfold registered_with in H1. cbn. split; [lia|done].
  - destruct Hr as [(-> & _)|[Hc Hd]]; [done|]. eapply counts_same; [| |exact Hok].
    + intros r. rewrite Hd, discard_desired_get, !dict_get_set. case_decide as Hr; [subst|done].
      rewrite decide_True by done. cbn [default from_option id]. destruct (Hok request) as [H1 H2].
      destruct (dict_get request (f_desired f)) as [n|]; cbn in H1 |- *; [|done].
      destruct (n + 1 <=? 1) eqn:E; zbool; [exfalso; apply H2; f_equal; lia|]. f_equal. lia.
    + apply registered_with_ext; [|exact Hold]. rewrite Hc, filter_app, filter_cons, decide_False, filter_nil, app_nil_r
        by (intros H'; by apply H'). apply filter_keeps. intros x Hx ->. apply (fi_registered f log Hinv) in Hx. lia.
Qed.

Lemma counts_unregister s c refs f log : feed_inv f log -> counts_ok f -> s ∈ f_consumers f ->
  dict_get s (f_objects f) = Some c -> counts_ok (fst (unregister_live_consumer s (co_request c) refs f)).
Proof.
  intros Hinv Hok Hin Hg. pose proof (unregister_spec s (co_request c) refs f) as H.
  destruct (unregister_live_consumer _ _ _ _) as [f' r]. cbn [fst]. destruct H as (_ & Ho & _ & Hc & Hd).
  intros r0. destruct (Hok r0) as [H1 H2]. rewrite Hd, discard_desired_get. unfold registered_with in *. rewrite Ho, Hc.
  rewrite (length_filter_remove _ s) in H1 by (done || apply Hinv). rewrite Hg in H1. cbn [fmap option_fmap option_map] in H1.
  destruct (decide (r0 = co_request c)) as [->|Hn].
  - rewrite decide_True in H1 by done. rewrite H1.
    destruct (_ <=? 1) eqn:E; zbool; cbn; split; try lia; try done. intros [=]. lia.
  - rewrite decide_False in H1 by congruence. split; [lia|done].
Qed.

(** Reference counts: as long as no registration is cancelled and only registered consumers
    are removed, the adapter wants each request exactly as often as registered consumers
    carry it, through failed registrations, reconnects and closes. *)
Theorem requests_counted config replies ltt ops : settled_run config ops (initial_feed replies ltt) ->
  forall request, let f := fst (feed_run config ops (initial_feed replies ltt)) in
    default 0 (dict_get request (f_desired f)) = Z.of_nat (registered_with f request).
Proof.
  enough (H : forall ops f log, feed_inv f log -> counts_ok f -> settled_run config ops f ->
    counts_ok (fst (feed_run config ops f))).
  { intros Hs request. eapply H; [apply initial_feed_inv| |exact Hs]. intros r. by split. }
  clear ops. induction ops as [|op ops IH]; intros f log Hinv Hok Hset; [done|]. destruct Hset as [Hop Hset].
  cbn [feed_run]. pose proof (feed_step_inv config op f log Hinv) as Hinv'.
  assert (Hok' : counts_ok (fst (feed_step config op f))).
  { destruct op as [request refs|s refs|t|s|]; cbn [feed_step settled] in *.
    - by eapply counts_register.
    - destruct (dict_get s (f_objects f)) as [c|] eqn:E; [by eapply counts_unregister|done].
    - pose proof (receive_turn_core config t f) as (Hd & _ & Hc & _ & Ho & _). cbn [fst].
      eapply counts_same; [by rewrite Hd| |exact Hok]. apply registered_with_ext; [done|]. intros x Hx.
      rewrite Ho, distribute_events_get by apply Hinv. destruct (dict_get x (f_objects f)); [|done]. cbn. by case_bool_decide.
    - unfold pop_event. destruct (dict_get s (f_objects f)) as [c|] eqn:E; [|done]. destruct (co_buffer c); [done|].
      cbn [fst]. apply (counts_same f); [done| |exact Hok]. apply registered_with_ext; [done|]. intros x Hx.
      cbn [set_consumers f_objects]. rewrite dict_get_set. case_decide; [subst; by rewrite E|done].
    - pose proof (close_feed_spec f) as H. destruct (close_feed f) as [f' r]. destruct H as (_ & _ & _ & Hc & Hd). cbn [fst].
      intros r0. rewrite Hd. unfold registered_with. by rewrite Hc. }
  destruct (feed_step config op f) as [f1 e1]. cbn [fst] in *. specialize (IH f1 _ Hinv' Hok' Hset).
  by destruct (feed_run config ops f1).
Qed.

(** ** What is lost *)

(** A reference matches no request, so no stream ever takes a previous close. *)
Theorem previous_close_never_delivered config replies ltt ops s r :
  let '(f, log) := feed_run config ops (initial_feed replies ltt) in
  dict_get s (f_objects f) <> None -> EReference r ∉ taken s log.
Proof.
  pose proof (feed_run_inv config ops _ _ (initial_feed_inv replies ltt)) as H.
  destruct (feed_run config ops _) as [f log]. cbn in H. intros Hs Hin.
  destruct (dict_get s (f_objects f)) as [c|] eqn:E; [|done]. destruct (fi_objects f log H s c E) as [_ Hd].
  assert (Hm : EReference r ∈ delivered s (co_request c) log) by (rewrite <- Hd; set_solver).
  clear -Hm. unfold delivered in Hm. induction log as [|entry log IH]; [by apply not_elem_of_nil in Hm|].
  cbn in Hm. apply elem_of_app in Hm as [Hm|Hm]; [|by apply IH].
  destruct entry as [consumers references message|]; [|by apply not_elem_of_nil in Hm].
  case_bool_decide; [|by apply not_elem_of_nil in Hm].
  by apply list_elem_of_filter in Hm as [Hm _].
Qed.

Definition tick_only : KindSet := {| ks_tick := true; ks_quote := false; ks_depth := false; ks_candle := false |}.
Definition sample_request : SubscriptionRequest :=
  {| sr_instruments := [cash_equity "RELIANCE"]; sr_data_types := tick_only |}.
Definition sample_config : FeedConfig := {|
  fc_client_id := true; fc_maximum_attempts := 3; fc_stale_timeout := None; fc_hard_stale_timeout := None;
  fc_session_predicate := false |}.
Definition no_ltt : RawLttDiagnosticConfig := {|
  lc_enabled := false; lc_max_samples := 100; lc_min_interval := second; lc_allowed_security_ids := [];
  lc_max_future_skew := 0 |}.

(** A cancellation while a consumer is being registered leaves it registered and its
    request wanted, though no stream holds it. *)
Lemma cancelled_registration_leaks :
  let '(f, r) := register_live_consumer sample_config sample_request [sample_reference]
                   (initial_feed [Some CancelledError] no_ltt) in
  r = Raise CancelledError /\ f_consumers f = [0] /\ dict_get sample_request (f_desired f) = Some 1.
Proof. by vm_compute. Qed.

(** A stream that ends after the adapter was closed takes the request of a later stream
    with it: the later consumer stays registered and nothing is subscribed. *)
Lemma late_unregister_drops_request :
  let f := fst (feed_run sample_config
    [ORegister sample_request [sample_reference]; OClose; ORegister sample_request [sample_reference];
     OUnregister 0 [sample_reference]] (initial_feed [] no_ltt)) in
  f_consumers f = [1] /\ f_desired f = [] /\ k_socket (f_link f) = true
  /\ provider_view (k_trace (f_link f)) = [].
Proof. by vm_compute. Qed.

Definition disconnect_packet_sample : Bytes := [50; 10; 0; 1; 0; 0; 0; 0; 0; 0].

(** A disconnect packet stacked behind a valid one takes the decoded tick with it. *)
Lemma stacked_disconnect_loses_events :
  let f := fst (register_live_consumer sample_config sample_request [sample_reference] (initial_feed [] no_ltt)) in
  snd (decode_live_frame (MBytes (quote_packet sample_wire ++ disconnect_packet_sample)) (fun _ => 0) f)
    = Raise DhanFeedDisconnectedError
  /\ dc_decoded_total (f_counters (fst
       (decode_live_frame (MBytes (quote_packet sample_wire ++ disconnect_packet_sample)) (fun _ => 0) f))) = 1
  /\ co_buffer <$> dict_get 0 (f_objects (fst
       (distribute_live_packet (MBytes (quote_packet sample_wire ++ disconnect_packet_sample)) (fun _ => 0) 0 f))) = Some [].
Proof. split_and!; vm_compute; reflexivity. Qed.

(** ** Witnesses *)

Definition second_reference : DhanInstrumentReference := {|
  dr_instrument := cash_equity "INFY"; dr_security_id := "1594"; dr_underlying_security_id := None;
  dr_exchange_segment := Some "NSE_EQ"%string; dr_provider_instrument_type := "EQUITY" |}.
Definition second_request : SubscriptionRequest :=
  {| sr_instruments := [cash_equity "INFY"; cash_equity "RELIANCE"]; sr_data_types := tick_only |}.

Lemma effective_plan_order_independent_witness :
  effective_live_plan [sample_request; second_request] [sample_reference; second_reference]
  = effective_live_plan [second_request] [sample_reference; second_reference].
Proof.
  apply effective_plan_order_independent.
  - vm_compute. apply NoDup_cons. split; [|apply NoDup_singleton]. intros H. by apply list_elem_of_singleton in H.
  - intros i. cbn. set_solver.
  - by intros [].
Defined.

Definition sample_plan : DhanLiveSubscriptionPlan := {|
  lp_feed_mode := QUOTE_MODE;
  lp_batches := [{| lb_feed_mode := QUOTE_MODE; lb_references := [sample_reference] |}] |}.
Definition sample_link : Link :=
  {| k_socket := true; k_active := []; k_status := None; k_replies := []; k_trace := [EConnect] |}.

Lemma reconnect_restores_witness : exists k',
  reconnect_live_subscription sample_config (Some sample_plan) sample_link = (k', Ok tt)
  /\ k_active k' = lp_batches sample_plan.
Proof.
  pose proof (reconnect_restores sample_config (Some sample_plan) sample_link ltac:(apply NoDup_singleton)) as H.
  destruct (reconnect_live_subscription _ _ sample_link) as [k' r]. destruct H as [H1 H2].
  rewrite (H2 eq_refl eq_refl ltac:(cbn; lia)) in H1. destruct H1 as (_ & Ha & _). exists k'.
  by rewrite (H2 eq_refl eq_refl ltac:(cbn; lia)).
Defined.

Lemma requests_counted_witness :
  let ops := [ORegister sample_request [sample_reference]; ORegister sample_request [sample_reference];
              OUnregister 0 [sample_reference]] in
  default 0 (dict_get sample_request (f_desired (fst (feed_run sample_config ops (initial_feed [] no_ltt))))) = 1.
Proof.
  pose proof (requests_counted sample_config [] no_ltt
    [ORegister sample_request [sample_reference]; ORegister sample_request [sample_reference];
     OUnregister 0 [sample_reference]]) as H.
  etransitivity; [apply (H ltac:(vm_compute; split_and!; [congruence|congruence|left|done]) sample_request)|].
  by vm_compute.
Defined.

Lemma previous_close_never_delivered_witness : forall r,
  EReference r ∉ taken 0 (snd (feed_run sample_config [ORegister sample_request [sample_reference]] (initial_feed [] no_ltt))).
Proof.
  intros r. pose proof (previous_close_never_delivered sample_config [] no_ltt
    [ORegister sample_request [sample_reference]] 0 r) as H.
  destruct (feed_run _ _ _) as [f log] eqn:E. apply H. injection E as <- _. by vm_compute.
Defined.
