(* ===== verification/EventBus.v ===== *)
(** The in-process event bus, events/bus.py, and how its clients attach to it.

    Event types and handlers are parameters with decidable equality, the identity of the
    handler object.  A handler runs on a state the bus is part of, so it may subscribe,
    unsubscribe and publish while it is called.

    The theorems say what a history of subscriptions leaves registered, and that a
    publication reaches exactly the handlers registered when it began, in order, up to the
    first that raises. *)
From S2P Require Import Prelude.

(** * The bus *)

Section Bus.
Context {EventType Handler : Type} `{EqDecision EventType} `{EqDecision Handler}.

Record Subscription : Type := {
  sub_event_type : EventType;
  sub_handler : Handler;
}.

(** [_subscribers] *)
Definition EventBus : Type := dict EventType (list Handler).

Definition mk_event_bus : EventBus := [].

(** [self._subscribers.get(event_type, [])] *)
Definition handlers_of (self : EventBus) (event_type : EventType) : list Handler :=
  default [] (dict_get event_type self).

Definition subscribe (self : EventBus) (event_type : EventType) (handler : Handler) : EventBus * Subscription :=
  (dict_set event_type (handlers_of self event_type ++ [handler]) self,
   {| sub_event_type := event_type; sub_handler := handler |}).

Definition unsubscribe (self : EventBus) (subscription : Subscription) : EventBus :=
  match dict_get (sub_event_type subscription) self with
  | None => self
  | Some handlers =>
      dict_set (sub_event_type subscription) (filter (fun h => h <> sub_handler subscription) handlers) self
  end.

(** [subscribe] of a client that keeps its subscriptions in [_subscriptions] and wants the
    pairs [wanted], as the strategy manager, the scanner and the observers do. *)
Definition attach (wanted : list (EventType * Handler)) (self : EventBus) (subscriptions : list Subscription)
    : EventBus * list Subscription :=
  if bool_decide (length subscriptions <> 0)%nat then (self, subscriptions)
  else foldl (fun acc w => let '(bus, s) := subscribe acc.1 w.1 w.2 in (bus, acc.2 ++ [s])) (self, []) wanted.

(** [unsubscribe] of such a client. *)
Definition detach (self : EventBus) (subscriptions : list Subscription) : EventBus * list Subscription :=
  (foldl unsubscribe self subscriptions, []).

Section Publish.
Context {State Event : Type} (bus : State -> EventBus) (type_of : Event -> EventType).
(** A call of a handler: the state it leaves and what it raised. *)
Context (call : Handler -> Event -> State -> State * option exn).

(** The loop of [publish] over the copied list. *)
Fixpoint deliver (handlers : list Handler) (event : Event) (s : State) : State * option exn :=
  match handlers with
  | [] => (s, None)
  | handler :: handlers =>
      let '(s, raised) := call handler event s in
      match raised with
      | None => deliver handlers event s
      | Some e => (s, Some e)
      end
  end.

Definition publish (event : Event) (s : State) : State * option exn :=
  deliver (handlers_of (bus s) (type_of event)) event s.
End Publish.

(** * Lemmas *)

Lemma handlers_subscribe self t h t' :
  handlers_of (subscribe self t h).1 t' = if decide (t' = t) then handlers_of self t ++ [h] else handlers_of self t'.
Proof. unfold handlers_of, subscribe. cbn. rewrite dict_get_set. by destruct (decide _). Qed.

Lemma handlers_unsubscribe self s t :
  handlers_of (unsubscribe self s) t
  = if decide (t = sub_event_type s) then filter (fun h => h <> sub_handler s) (handlers_of self t)
    else handlers_of self t.
Proof.
  unfold handlers_of, unsubscribe. destruct (dict_get (sub_event_type s) self) as [l|] eqn:E.
  - rewrite dict_get_set. destruct (decide _) as [->|]; [by rewrite E|done].
  - destruct (decide _) as [->|]; [by rewrite E|done].
Qed.

(** ** Histories *)

Inductive BusOperation : Type :=
| OpSubscribe (t : EventType) (h : Handler)
| OpUnsubscribe (t : EventType) (h : Handler).

Definition bus_step (self : EventBus) (op : BusOperation) : EventBus :=
  match op with
  | OpSubscribe t h => (subscribe self t h).1
  | OpUnsubscribe t h => unsubscribe self {| sub_event_type := t; sub_handler := h |}
  end.

#[export] Instance BusOperation_eq_dec : EqDecision BusOperation.
Proof. solve_decision. Defined.

(** The handlers whose subscription to [t] no later operation cancels, in order. *)
Fixpoint surviving (t : EventType) (ops : list BusOperation) : list Handler :=
  match ops with
  | [] => []
  | OpSubscribe t' h :: ops =>
      if decide (t' = t /\ OpUnsubscribe t h ∉ ops) then h :: surviving t ops else surviving t ops
  | OpUnsubscribe _ _ :: ops => surviving t ops
  end.

Lemma surviving_subscribe t ops t' h :
  surviving t (ops ++ [OpSubscribe t' h]) = surviving t ops ++ (if decide (t' = t) then [h] else []).
Proof.
  induction ops as [|op ops IH]; cbn [surviving app].
  - destruct (decide (t' = t)) as [->|Hn]; [by rewrite decide_True by set_solver|].
    rewrite decide_False by naive_solver. done.
  - destruct op as [u g|u g]; [|done]. rewrite IH.
    assert (Hc : OpUnsubscribe t g ∉ ops ++ [OpSubscribe t' h] <-> OpUnsubscribe t g ∉ ops) by set_solver.
    destruct (decide (u = t /\ OpUnsubscribe t g ∉ ops)) as [Hd|Hd].
    + rewrite decide_True by (by rewrite Hc). done.
    + rewrite decide_False by (by rewrite Hc). done.
Qed.

Lemma surviving_unsubscribe t ops t' h :
  surviving t (ops ++ [OpUnsubscribe t' h])
  = if decide (t' = t) then filter (fun g => g <> h) (surviving t ops) else surviving t ops.
Proof.
  induction ops as [|op ops IH]; cbn [surviving app]; [by destruct (decide _)|].
  destruct op as [u g|u g]; [|done]. rewrite IH.
  destruct (decide (t' = t)) as [->|Hn].
  - destruct (decide (u = t /\ OpUnsubscribe t g ∉ ops)) as [[-> Hd]|Hd].
    + destruct (decide (g = h)) as [->|Hg].
      * rewrite decide_False by set_solver. rewrite filter_cons_False by naive_solver. done.
      * rewrite decide_True by set_solver. by rewrite filter_cons_True.
    + rewrite decide_False by set_solver. done.
  - assert (Hc : OpUnsubscribe t g ∉ ops ++ [OpUnsubscribe t' h] <-> OpUnsubscribe t g ∉ ops) by set_solver.
    destruct (decide (u = t /\ OpUnsubscribe t g ∉ ops)) as [Hd|Hd].
    + rewrite decide_True by (by rewrite Hc). done.
    + rewrite decide_False by (by rewrite Hc). done.
Qed.

(** After any history of subscriptions and removals the handlers of an event type are those
    whose subscription no later removal of the same handler cancels, in subscription order
    and as often as they were subscribed. *)
Theorem subscriptions_exact ops t : handlers_of (foldl bus_step mk_event_bus ops) t = surviving t ops.
Proof.
  induction ops as [|op ops IH] using rev_ind; [done|]. rewrite foldl_snoc. destruct op as [u h|u h]; cbn [bus_step].
  - rewrite handlers_subscribe, surviving_subscribe. destruct (decide (t = u)) as [->|Hn].
    + by rewrite IH, decide_True.
    + rewrite decide_False by done. by rewrite app_nil_r.
  - rewrite handlers_unsubscribe, surviving_unsubscribe. cbn. rewrite IH.
    destruct (decide (t = u)) as [->|Hn]; [by rewrite decide_True|by rewrite decide_False].
Qed.

(** ** Clients *)

(** What a client adds to the handlers of an event type. *)
Definition wanted_for (wanted : list (EventType * Handler)) (t : EventType) : list Handler :=
  omap (fun w => if decide (w.1 = t) then Some w.2 else None) wanted.

Lemma attach_loop wanted bus subs :
  let '(bus', subs') := foldl (fun acc w => let '(b, s) := subscribe acc.1 w.1 w.2 in (b, acc.2 ++ [s])) (bus, subs) wanted in
  subs' = subs ++ map (fun w => {| sub_event_type := w.1; sub_handler := w.2 |}) wanted
  /\ forall t, handlers_of bus' t = handlers_of bus t ++ wanted_for wanted t.
Proof.
  revert bus subs. induction wanted as [|[u h] wanted IH]; intros bus subs; cbn [foldl].
  { split; [by rewrite app_nil_r|]. intros t. by rewrite app_nil_r. }
  specialize (IH (subscribe bus u h).1 (subs ++ [(subscribe bus u h).2])). cbn in IH |- *.
  destruct (foldl _ _ wanted) as [bus' subs'] eqn:E. destruct IH as [-> Hh]. split; [by rewrite <- app_assoc|].
  intros t. rewrite Hh. pose proof (handlers_subscribe bus u h t) as Hs. cbn in Hs. rewrite Hs.
  unfold wanted_for. cbn. destruct (decide (t = u)) as [->|Hn].
  - rewrite decide_True by done. by rewrite <- app_assoc.
  - by rewrite decide_False by congruence.
Qed.

Lemma handlers_detach_loop bus subs t :
  handlers_of (foldl unsubscribe bus subs) t
  = filter (fun h => (t, h) ∉ map (fun s => (sub_event_type s, sub_handler s)) subs) (handlers_of bus t).
Proof.
  revert bus. induction subs as [|s subs IH]; intros bus; cbn [foldl map].
  { rewrite filter_keeps; [done|]. intros h _. apply not_elem_of_nil. }
  rewrite IH, handlers_unsubscribe. destruct (decide (t = sub_event_type s)) as [->|Hn].
  - rewrite list_filter_filter. apply list_filter_iff. intros h. rewrite not_elem_of_cons. naive_solver.
  - apply list_filter_iff. intros h. rewrite not_elem_of_cons. naive_solver.
Qed.

(** A client whose handlers are not registered yet leaves every event type as it found it
    when it detaches, however often it attached. *)
Lemma detach_restores wanted bus :
  (forall t h, (t, h) ∈ wanted -> h ∉ handlers_of bus t) ->
  let '(bus1, subs1) := attach wanted bus [] in
  let '(bus2, subs2) := attach wanted bus1 subs1 in
  (wanted <> [] -> bus2 = bus1 /\ subs2 = subs1)
  /\ forall t, handlers_of bus1 t = handlers_of bus t ++ wanted_for wanted t
  /\ handlers_of (detach bus1 subs1).1 t = handlers_of bus t.
Proof.
  intros Hfresh. unfold attach at 1. rewrite bool_decide_false by (cbn; lia).
  pose proof (attach_loop wanted bus []) as Hl. destruct (foldl _ (bus, []) wanted) as [bus1 subs1].
  destruct Hl as [-> Hl]. cbn [app]. destruct (attach wanted bus1 _) as [bus2 subs2] eqn:E. split.
  - intros Hw. unfold attach in E. rewrite bool_decide_true in E; [by injection E as <- <-|].
    rewrite length_map. by destruct wanted.
  - intros t. split; [apply Hl|]. unfold detach. cbn [fst]. rewrite handlers_detach_loop, Hl, filter_app.
    rewrite map_map. cbn. rewrite filter_keeps, filter_none; [by rewrite app_nil_r| |].
    + intros h Hh. unfold wanted_for in Hh. apply list_elem_of_omap in Hh as ([u g] & Hin & Hg). cbn in Hg.
      destruct (decide (u = t)) as [->|]; [|done]. injection Hg as ->. intros Hn. apply Hn.
      apply list_elem_of_fmap. by exists (t, h).
    + intros h Hh Hin. apply list_elem_of_fmap in Hin as ([u g] & [= -> ->] & Hin). by apply (Hfresh _ _ Hin).
Qed.

(** ** Publications *)

Section Publication.
Context {State Event : Type} (bus : State -> EventBus) (type_of : Event -> EventType).
Context (call : Handler -> Event -> State -> State * option exn).

(** A call that notes the handler it calls. *)
Definition noted (handler : Handler) (event : Event) (s : State * list Handler)
    : (State * list Handler) * option exn :=
  let '(s', raised) := call handler event s.1 in ((s', s.2 ++ [handler]), raised).

Lemma deliver_noted handlers event s log :
  exists k, let '((s', log'), raised) := deliver noted handlers event (s, log) in
  deliver call handlers event s = (s', raised) /\ log' = log ++ take k handlers
  /\ (k <= length handlers)%nat
  /\ match raised with
     | None => k = length handlers
     | Some e => exists h s0, handlers !! pred k = Some h /\ (0 < k)%nat /\ call h event s0 = (s', Some e)
     end.
Proof.
  revert s log. induction handlers as [|h hs IH]; intros s log; cbn [deliver].
  { exists 0%nat. by rewrite app_nil_r. }
  unfold noted at 1. cbn [fst snd]. destruct (call h event s) as [s1 [e|]] eqn:Ec.
  - exists 1%nat. cbn. split_and!; [done|by rewrite take_0|lia|]. exists h, s. split_and!; [done|lia|done].
  - destruct (IH s1 (log ++ [h])) as (k & Hk). exists (S k).
    destruct (deliver noted hs event _) as [[s' log'] raised]. destruct Hk as (H1 & -> & Hk & H2).
    rewrite H1. split_and!; [done|by rewrite <- app_assoc|cbn; lia|]. destruct raised as [e|].
    + destruct H2 as (g & s0 & Hg & Hpos & Hc). exists g, s0. split_and!; [|lia|done]. cbn.
      destruct k; [lia|]. exact Hg.
    + cbn. by rewrite H2.
Qed.

(** A publication calls the handlers that were registered for its type when it began, each
    in subscription order, whatever they do to the bus while they are called; it stops at
    the first that raises, and raises that. *)
Theorem publish_snapshot event s :
  exists k, let handlers := handlers_of (bus s) (type_of event) in
  let '((s', called), raised) := publish (fun p => bus p.1) type_of noted event (s, []) in
  publish bus type_of call event s = (s', raised) /\ called = take k handlers
  /\ match raised with
     | None => called = handlers
     | Some e => exists h s0, last called = Some h /\ call h event s0 = (s', Some e)
     end.
Proof.
  unfold publish. cbn [fst]. destruct (deliver_noted (handlers_of (bus s) (type_of event)) event s []) as (k & Hk).
  exists k. cbv zeta. destruct (deliver noted _ event _) as [[s' called] raised]. destruct Hk as (H1 & -> & Hk & H2).
  cbn [app]. split_and!; [done|done|]. destruct raised as [e|].
  - destruct H2 as (h & s0 & Hh & Hpos & Hc). exists h, s0. split; [|done].
    destruct k as [|k]; [lia|]. cbn in Hh. erewrite take_S_r by done. apply last_snoc.
  - subst k. apply firstn_all.
Qed.
End Publication.
End Bus.

Arguments EventBus : clear implicits.
Arguments Subscription : clear implicits.

(** Subscribing a handler twice gives two equal handles; giving one back cancels both. *)
Lemma one_handle_cancels_both :
  let '(bus, first) := subscribe mk_event_bus "created"%string 1%nat in
  let '(bus, second) := subscribe bus "created"%string 1%nat in
  first = second /\ handlers_of bus "created"%string = [1; 1]%nat
  /\ handlers_of (unsubscribe bus first) "created"%string = [].
Proof. cbn. split_and!; reflexivity. Qed.
