(* ===== verification/Ingestion.v ===== *)
(** The supervised live ingestion of services/market_runtime.py: the recovery policy, one
    run over the provider's stream, the dispatch to the tick engine, the shadow publisher
    and the supervisor that restarts a run that ends.

    The supervisor is a state machine over what it waits for: its first turn, the next
    datum, the session poll or the back-off.  An input resumes it with the clock readings
    and the random number it will use until it waits again.  Delays are exact seconds, with
    the overflow of Python's conversion to a float; the stream yields what the adapter
    decodes.  The tick engine's bus is its parameter, the shadow publisher a class.

    The theorems bound the delays, say that the engine has processed exactly the data
    received while streaming, in order, whatever fails around it, and when the supervisor
    can end. *)
From S2P Require Import Prelude DecimalContext PyTime MarketData Session SessionStatistics TickEngine DhanWire.

Local Open Scope Z_scope.

(** * The recovery policy *)

Inductive IngestionState : Type := STOPPED | STARTING | RUNNING | RECOVERING | WAITING_FOR_SESSION.

#[global] Instance IngestionState_eq_dec : EqDecision IngestionState.
Proof. solve_decision. Defined.

(** [_INGESTION_ACTIVE_STATES] *)
Definition INGESTION_ACTIVE_STATES : list MarketState := [PRE_OPEN; OPENING_AUCTION; LIVE_SESSION; CLOSING_SESSION].

Record IngestionRecoveryPolicy : Type := {
  initial_delay_seconds : Decimal;
  maximum_delay_seconds : Decimal;
  jitter_ratio : Decimal;
  session_poll_seconds : Decimal;
}.

(** [__post_init__] *)
Definition mk_recovery_policy (p : IngestionRecoveryPolicy) : result IngestionRecoveryPolicy :=
  _ ← raise_if (dec_ltb (initial_delay_seconds p) 0 || dec_ltb (maximum_delay_seconds p) (initial_delay_seconds p))
    (ValueError "recovery delays must be non-negative and ordered");
  _ ← raise_if (negb (dec_leb 0 (jitter_ratio p) && dec_leb (jitter_ratio p) 1))
    (ValueError "recovery jitter ratio must be between zero and one");
  _ ← raise_if (dec_leb (session_poll_seconds p) 0) (ValueError "session poll interval must be positive");
  Ok p.

(** The field defaults. *)
Definition default_recovery_policy : IngestionRecoveryPolicy := {|
  initial_delay_seconds := dec 1 0; maximum_delay_seconds := dec 30 0; jitter_ratio := dec 2 1;
  session_poll_seconds := dec 30 0 |}.

(** [2 ** exponent] as an exact number. *)
Definition power_of_two (exponent : Z) : Decimal := Q2Qc (inject_Z (2 ^ exponent)).

(** [delay_for_failure]: the float product converts [2 ** exponent], which has no float from
    exponent 1024 on. *)
Definition delay_for_failure (self : IngestionRecoveryPolicy) (consecutive_failures : Z) (random_value : Decimal)
    : result Decimal :=
  let exponent := Z.max 0 (consecutive_failures - 1) in
  _ ← raise_if (1024 <=? exponent) OverflowError;
  let base := dec_min (maximum_delay_seconds self) (initial_delay_seconds self * power_of_two exponent)%Qc in
  Ok (base * (1 - jitter_ratio self + jitter_ratio self * random_value))%Qc.

(** [timedelta(seconds=delay)] *)
Definition seconds_delta (delay : Decimal) : timedelta := round_half_even (delay * dec us_per_second 0)%Qc.

(** * State *)

(** [_last_failure_type]: a run that returned, or the class of its error. *)
Inductive FailureType : Type := FReturned | FError (e : exn).

(** The ingestion fields of [LiveMarketRuntime]. *)
Record Ingestion : Type := {
  ig_state : IngestionState;
  ig_error : option exn;
  ig_failed : bool;
  ig_last_rx_at : option instant;
  ig_rx_since_start : bool;
  ig_last_failure_at : option instant;
  ig_last_failure_type : option FailureType;
  ig_recovery_attempts : Z;
  ig_successful_recoveries : Z;
  ig_consecutive_failures : Z;
  ig_last_recovery_attempt_at : option instant;
  ig_next_recovery_not_before : option instant;
}.

Definition initial_ingestion : Ingestion := {|
  ig_state := STOPPED; ig_error := None; ig_failed := false; ig_last_rx_at := None; ig_rx_since_start := false;
  ig_last_failure_at := None; ig_last_failure_type := None; ig_recovery_attempts := 0;
  ig_successful_recoveries := 0; ig_consecutive_failures := 0; ig_last_recovery_attempt_at := None;
  ig_next_recovery_not_before := None |}.

Definition set_state (s : IngestionState) (self : Ingestion) : Ingestion := {|
  ig_state := s; ig_error := ig_error self; ig_failed := ig_failed self; ig_last_rx_at := ig_last_rx_at self;
  ig_rx_since_start := ig_rx_since_start self; ig_last_failure_at := ig_last_failure_at self;
  ig_last_failure_type := ig_last_failure_type self; ig_recovery_attempts := ig_recovery_attempts self;
  ig_successful_recoveries := ig_successful_recoveries self; ig_consecutive_failures := ig_consecutive_failures self;
  ig_last_recovery_attempt_at := ig_last_recovery_attempt_at self;
  ig_next_recovery_not_before := ig_next_recovery_not_before self |}.

Definition set_received (at_ : option instant) (since_start : bool) (self : Ingestion) : Ingestion := {|
  ig_state := ig_state self; ig_error := ig_error self; ig_failed := ig_failed self; ig_last_rx_at := at_;
  ig_rx_since_start := since_start; ig_last_failure_at := ig_last_failure_at self;
  ig_last_failure_type := ig_last_failure_type self; ig_recovery_attempts := ig_recovery_attempts self;
  ig_successful_recoveries := ig_successful_recoveries self; ig_consecutive_failures := ig_consecutive_failures self;
  ig_last_recovery_attempt_at := ig_last_recovery_attempt_at self;
  ig_next_recovery_not_before := ig_next_recovery_not_before self |}.

(** [_record_ingestion_end] *)
Definition record_ingestion_end (error : option exn) (now : instant) (self : Ingestion) : Ingestion := {|
  ig_state := ig_state self; ig_error := error; ig_failed := ig_failed self; ig_last_rx_at := ig_last_rx_at self;
  ig_rx_since_start := ig_rx_since_start self; ig_last_failure_at := Some now;
  ig_last_failure_type := Some (match error with None => FReturned | Some e => FError e end);
  ig_recovery_attempts := ig_recovery_attempts self;
  ig_successful_recoveries :=
    if ig_rx_since_start self then ig_successful_recoveries self + 1 else ig_successful_recoveries self;
  ig_consecutive_failures := if ig_rx_since_start self then 0 else ig_consecutive_failures self + 1;
  ig_last_recovery_attempt_at := ig_last_recovery_attempt_at self;
  ig_next_recovery_not_before := ig_next_recovery_not_before self |}.

Definition record_attempt (now : instant) (delay : Decimal) (self : Ingestion) : Ingestion := {|
  ig_state := ig_state self; ig_error := ig_error self; ig_failed := ig_failed self; ig_last_rx_at := ig_last_rx_at self;
  ig_rx_since_start := ig_rx_since_start self; ig_last_failure_at := ig_last_failure_at self;
  ig_last_failure_type := ig_last_failure_type self; ig_recovery_attempts := ig_recovery_attempts self + 1;
  ig_successful_recoveries := ig_successful_recoveries self; ig_consecutive_failures := ig_consecutive_failures self;
  ig_last_recovery_attempt_at := Some now; ig_next_recovery_not_before := Some (now + seconds_delta delay) |}.

(** [_on_ingestion_done] for a task that was not cancelled. *)
Definition record_fatal (error : option exn) (self : Ingestion) : Ingestion := {|
  ig_state := ig_state self; ig_error := error; ig_failed := true; ig_last_rx_at := ig_last_rx_at self;
  ig_rx_since_start := ig_rx_since_start self; ig_last_failure_at := ig_last_failure_at self;
  ig_last_failure_type := ig_last_failure_type self; ig_recovery_attempts := ig_recovery_attempts self;
  ig_successful_recoveries := ig_successful_recoveries self; ig_consecutive_failures := ig_consecutive_failures self;
  ig_last_recovery_attempt_at := ig_last_recovery_attempt_at self;
  ig_next_recovery_not_before := ig_next_recovery_not_before self |}.

(** How a task ended. *)
Inductive TaskEnd : Type := TaskCancelled | TaskFinished (error : option exn).

(** What the supervisor waits for. *)
Inductive SupervisorPoint : Type :=
| BeforeFirstTurn
| Streaming
| PollingSession
| BackingOff (delay : Decimal)
| Ended (how : TaskEnd).

(** * The shadow publisher *)

(** [MarketEventPublisher] as the runtime uses it. *)
Class ShadowPublisher (P : Type) : Type := {
  shadow_start : P -> P * option exn;
  shadow_publish : P -> MarketEvent -> P * option exn;
}.

(** A handler of [except Exception] does not catch a cancellation. *)
Definition is_cancellation (raised : option exn) : bool := bool_decide (raised = Some CancelledError).

Section Supervisor.
Context (publish : ContextEvent -> option exn).
Context {P : Type} `{!ShadowPublisher P}.
Context (policy : IngestionRecoveryPolicy) (session : option MarketSessionClassifier).

Record Supervisor : Type := {
  sv_ingestion : Ingestion;
  sv_point : SupervisorPoint;
  sv_engine : TickEngine;
  sv_publisher : option P;
  sv_published : list ContextEvent;
}.

Definition with_ingestion (i : Ingestion) (point : SupervisorPoint) (self : Supervisor) : Supervisor := {|
  sv_ingestion := i; sv_point := point; sv_engine := sv_engine self; sv_publisher := sv_publisher self;
  sv_published := sv_published self |}.

(** [_start_market_event_publisher] *)
Definition start_market_event_publisher (publisher : option P) : option P :=
  match publisher with
  | None => None
  | Some p => let '(p, raised) := shadow_start p in if is_not_none raised then None else Some p
  end.

(** [_publish_shadow]: the publisher and whether the task was cancelled in it. *)
Definition publish_shadow (publisher : option P) (datum : MarketEvent) : option P * bool :=
  match publisher with
  | None => (None, false)
  | Some p => let '(p, raised) := shadow_publish p datum in (Some p, is_cancellation raised)
  end.

(** What [TickEngine.process] takes. *)
Definition engine_input (datum : MarketEvent) : option MarketInput :=
  match datum with
  | ETick t => Some (InDatum (ATick t))
  | EQuote q => Some (InDatum (AQuote q))
  | EReference r => Some (InReference r)
  | EDepth _ => None
  end.

(** [_dispatch] with the readings of the receipt, of [process] and of its publication. *)
Definition dispatch (datum : MarketEvent) (received_at now observed_at : instant) (self : Supervisor)
    : Supervisor * result unit :=
  let i := set_received (Some received_at) true (sv_ingestion self) in
  match engine_input datum with
  | Some x =>
      let '(engine, events, res) := process publish (sv_engine self) x now observed_at in
      ({| sv_ingestion := i; sv_point := sv_point self; sv_engine := engine; sv_publisher := sv_publisher self;
          sv_published := sv_published self ++ events |},
       match res with Ok _ => Ok tt | Raise e => Raise e end)
  | None => (with_ingestion i (sv_point self) self, Raise UnsupportedLiveDatumError)
  end.

(** What the supervisor reads between the end of a run and its next wait. *)
Record Readings : Type := {
  rd_failed_at : instant;
  rd_checked_at : instant;
  rd_random : Decimal;
  rd_attempt_at : instant;
}.

(** [_session_expects_ingestion] *)
Definition session_expects_ingestion (now : instant) : bool :=
  match session with
  | None => true
  | Some cls => bool_decide (market_state (classify_session cls now false) ∈ INGESTION_ACTIVE_STATES)
  end.

(** The task ends: the [finally] of [_supervise_ingestion], then [_on_ingestion_done]. *)
Definition end_task (how : TaskEnd) (self : Supervisor) : Supervisor :=
  let i := set_state STOPPED (sv_ingestion self) in
  with_ingestion (match how with TaskCancelled => i | TaskFinished error => record_fatal error i end) (Ended how) self.

(** [_wait_before_recovery] up to its next sleep. *)
Definition wait_before_recovery (rd : Readings) (self : Supervisor) : Supervisor :=
  if negb (session_expects_ingestion (rd_checked_at rd))
  then with_ingestion (set_state WAITING_FOR_SESSION (sv_ingestion self)) PollingSession self
  else
    let i := set_state RECOVERING (sv_ingestion self) in
    match delay_for_failure policy (ig_consecutive_failures i) (rd_random rd) with
    | Raise e => end_task (TaskFinished (Some e)) (with_ingestion i (sv_point self) self)
    | Ok delay => with_ingestion (record_attempt (rd_attempt_at rd) delay i) (BackingOff delay) self
    end.

(** A run begins. *)
Definition begin_run (self : Supervisor) : Supervisor :=
  let i := set_state RUNNING (sv_ingestion self) in
  with_ingestion (set_received (ig_last_rx_at i) false i) Streaming self.

(** A run ends with an error or because the stream returned. *)
Definition end_run (error : option exn) (rd : Readings) (self : Supervisor) : Supervisor :=
  if is_cancellation error then end_task TaskCancelled self
  else wait_before_recovery rd
         (with_ingestion (record_ingestion_end error (rd_failed_at rd) (sv_ingestion self)) (sv_point self) self).

(** What resumes the supervisor. *)
Inductive SupervisorInput : Type :=
| FirstTurn
| Received (datum : MarketEvent) (received_at now observed_at : instant) (rd : Readings)
| StreamEnds (error : option exn) (rd : Readings)
| Awake (rd : Readings)
| Cancel.

(** [_supervise_ingestion] and [_run_ingestion] from one wait to the next; an input the
    supervisor does not wait for changes nothing.  A task cancelled before its first turn
    never enters its body. *)
Definition supervise (self : Supervisor) (input : SupervisorInput) : Supervisor :=
  match sv_point self, input with
  | BeforeFirstTurn, FirstTurn => begin_run self
  | BeforeFirstTurn, Cancel => with_ingestion (sv_ingestion self) (Ended TaskCancelled) self
  | Streaming, Received datum received_at now observed_at rd =>
      let '(self, res) := dispatch datum received_at now observed_at self in
      match res with
      | Raise e => end_run (Some e) rd self
      | Ok _ =>
          let '(publisher, cancelled) := publish_shadow (sv_publisher self) datum in
          let self := {| sv_ingestion := sv_ingestion self; sv_point := Streaming; sv_engine := sv_engine self;
                         sv_publisher := publisher; sv_published := sv_published self |} in
          if cancelled then end_task TaskCancelled self else self
      end
  | Streaming, StreamEnds error rd => end_run error rd self
  | PollingSession, Awake rd => wait_before_recovery rd self
  | BackingOff _, Awake rd => begin_run self
  | (Streaming | PollingSession | BackingOff _), Cancel => end_task TaskCancelled self
  | _, _ => self
  end.

(** [start] makes the task. *)
Definition start_ingestion (engine : TickEngine) (publisher : option P) (i : Ingestion) : Supervisor := {|
  sv_ingestion := set_state STARTING i; sv_point := BeforeFirstTurn; sv_engine := engine;
  sv_publisher := publisher; sv_published := [] |}.

Definition supervise_all (self : Supervisor) (inputs : list SupervisorInput) : Supervisor := foldl supervise self inputs.
End Supervisor.

(** * Lemmas *)

(** ** Delays *)

(** The delay before the jitter. *)
Definition base_delay (p : IngestionRecoveryPolicy) (consecutive_failures : Z) : Decimal :=
  dec_min (maximum_delay_seconds p) (initial_delay_seconds p * power_of_two (Z.max 0 (consecutive_failures - 1)))%Qc.

Record policy_ok (p : IngestionRecoveryPolicy) : Prop := {
  pok_initial : (0 <= initial_delay_seconds p)%Qc;
  pok_maximum : (initial_delay_seconds p <= maximum_delay_seconds p)%Qc;
  pok_jitter : (0 <= jitter_ratio p <= 1)%Qc;
  pok_poll : (0 < session_poll_seconds p)%Qc;
}.

Lemma mk_recovery_policy_ok raw p : mk_recovery_policy raw = Ok p -> p = raw /\ policy_ok p.
Proof.
  unfold mk_recovery_policy. intros H.
  apply bind_ok in H as ([] & H1%raise_if_ok & H). apply bind_ok in H as ([] & H2%raise_if_ok & H).
  apply bind_ok in H as ([] & H3%raise_if_ok & H). injection H as ->. split; [done|].
  apply orb_false_iff in H1 as [Ha Hb]. apply negb_false_iff, andb_true_iff in H2 as [Hc Hd].
  unfold dec_ltb, dec_leb in *. rewrite bool_decide_eq_false in Ha, Hb, H3. rewrite bool_decide_eq_true in Hc, Hd.
  apply Qcnot_lt_le in Ha, Hb. apply Qcnot_le_lt in H3. done.
Qed.

Lemma power_of_two_q n : (this (power_of_two n) == inject_Z (2 ^ n))%Q.
Proof. unfold power_of_two. cbn [this Q2Qc]. apply Qred_correct. Qed.

Lemma power_of_two_S n : 0 <= n -> power_of_two (n + 1) = (dec 2 0 * power_of_two n)%Qc.
Proof.
  intros Hn. apply Qc_is_canon. unfold Qcmult. cbn [this Q2Qc]. rewrite Qred_correct, !power_of_two_q.
  replace (2 ^ (n + 1)) with (2 * 2 ^ n) by (rewrite Z.pow_add_r by lia; lia). rewrite inject_Z_mult. reflexivity.
Qed.

Lemma power_of_two_ge n : 0 <= n -> (1 <= power_of_two n)%Qc.
Proof.
  intros Hn. unfold Qcle. rewrite power_of_two_q. change (this 1%Qc) with (inject_Z 1). rewrite <- Zle_Qle.
  pose proof (Z.pow_pos_nonneg 2 n ltac:(lia) Hn). lia.
Qed.

Lemma base_delay_bounds p n : policy_ok p ->
  (initial_delay_seconds p <= base_delay p n)%Qc /\ (base_delay p n <= maximum_delay_seconds p)%Qc.
Proof.
  intros [Hi Hm _ _]. pose proof (power_of_two_ge (Z.max 0 (n - 1)) ltac:(lia)) as Hp. unfold base_delay. split; [|apply dec_min_lb_l].
  assert (initial_delay_seconds p <= initial_delay_seconds p * power_of_two (Z.max 0 (n - 1)))%Qc.
  { rewrite <- (Qcmult_1_r (initial_delay_seconds p)) at 1. rewrite !(Qcmult_comm (initial_delay_seconds p)).
    by apply Qcmult_le_compat_r. }
  destruct (dec_min_case (maximum_delay_seconds p) (initial_delay_seconds p * power_of_two (Z.max 0 (n - 1)))%Qc) as [-> | ->]; done.
Qed.

Lemma base_delay_doubles p n : policy_ok p -> 1 <= n ->
  base_delay p (n + 1) = dec_min (maximum_delay_seconds p) (dec 2 0 * base_delay p n)%Qc.
Proof.
  intros [Hi Hm _ _] Hn. unfold base_delay. replace (Z.max 0 (n + 1 - 1)) with (n - 1 + 1) by lia.
  replace (Z.max 0 (n - 1)) with (n - 1) by lia. rewrite power_of_two_S by lia.
  set (x := power_of_two (n - 1)). set (m := maximum_delay_seconds p) in *. set (i := initial_delay_seconds p) in *.
  replace (i * (dec 2 0 * x))%Qc with (dec 2 0 * (i * x))%Qc by ring. set (y := (i * x)%Qc).
  assert (Hm0 : (0 <= m)%Qc) by (eapply Qcle_trans; eassumption). clearbody y. clear -Hm0.
  assert (H2 : forall z : Qc, (this (dec 2 0 * z)%Qc == 2 * this z)%Q).
  { intros z. unfold Qcmult. cbn [this Q2Qc]. rewrite Qred_correct. reflexivity. }
  pose proof (H2 y) as Hy. pose proof (H2 m) as Hmm. unfold dec_min. 
  destruct (dec_ltb y m) eqn:E2; [done|].
  apply bool_decide_eq_false, Qcnot_lt_le in E2. change (this 0%Qc) with 0%Q in Hm0. unfold Qcle in *. unfold dec_ltb.
  rewrite !bool_decide_false; [done| |]; unfold Qclt; rewrite ?Hy, ?Hmm; change (this 0%Qc) with 0%Q in Hm0; lra.
Qed.

Lemma jitter_bounds (b j r : Qc) : (0 <= b)%Qc -> (0 <= j <= 1)%Qc -> (0 <= r <= 1)%Qc ->
  (b * (1 - j) <= b * (1 - j + j * r))%Qc /\ (b * (1 - j + j * r) <= b)%Qc.
Proof.
  intros Hb [Hj0 Hj1] [Hr0 Hr1].
  assert (Hjr : (0 <= j * r)%Qc) by (rewrite <- (Qcmult_0_l r); by apply Qcmult_le_compat_r).
  assert (Hjr1 : (j * r <= j)%Qc).
  { rewrite <- (Qcmult_1_r j) at 2. rewrite !(Qcmult_comm j). by apply Qcmult_le_compat_r. }
  split.
  - rewrite !(Qcmult_comm b). apply Qcmult_le_compat_r; [|done].
    rewrite <- (Qcplus_0_r (1 - j)) at 1. by apply Qcplus_le_compat; [apply Qcle_refl|].
  - rewrite <- (Qcmult_1_r b) at 2. rewrite !(Qcmult_comm b). apply Qcmult_le_compat_r; [|done].
    replace 1%Qc with (1 - j + j)%Qc at 2 by ring. by apply Qcplus_le_compat; [apply Qcle_refl|].
Qed.

(** The recovery delays of an accepted policy back off and stay bounded: before the jitter
    the first is the initial delay, each further failure doubles it up to the maximum, and
    the jitter takes away at most its share; up to 1024 consecutive failures there is a
    delay, and from 1025 on the computation overflows. *)
Theorem recovery_delay_bounded raw policy n r : mk_recovery_policy raw = Ok policy -> (0 <= r <= 1)%Qc ->
  match delay_for_failure policy n r with
  | Ok delay => n <= 1024
      /\ (base_delay policy n * (1 - jitter_ratio policy) <= delay)%Qc /\ (delay <= base_delay policy n)%Qc
      /\ (initial_delay_seconds policy <= base_delay policy n)%Qc
      /\ (base_delay policy n <= maximum_delay_seconds policy)%Qc
      /\ (n <= 1 -> base_delay policy n = initial_delay_seconds policy)
      /\ (1 <= n -> base_delay policy (n + 1)
                    = dec_min (maximum_delay_seconds policy) (dec 2 0 * base_delay policy n)%Qc)
  | Raise e => e = OverflowError /\ 1024 < n
  end.
Proof.
  intros [-> Hok]%mk_recovery_policy_ok Hr. unfold delay_for_failure.
  destruct (Z.leb_spec 1024 (Z.max 0 (n - 1))); cbn [raise_if mbind result_bind]; [split; [done|lia]|].
  destruct (base_delay_bounds raw n Hok) as [Hl Hu]. assert (Hb : (0 <= base_delay raw n)%Qc).
  { destruct Hok. eapply Qcle_trans; eassumption. }
  destruct (jitter_bounds (base_delay raw n) (jitter_ratio raw) r Hb ltac:(apply Hok) Hr) as [Hjl Hju].
  split_and!; [lia|exact Hjl|exact Hju|done|done| |by apply base_delay_doubles].
  intros Hn. unfold base_delay. replace (Z.max 0 (n - 1)) with 0 by lia.
  replace (power_of_two 0) with 1%Qc by (apply Qc_is_canon; reflexivity). rewrite Qcmult_1_r.
  destruct Hok as [_ Hm _ _]. unfold dec_min, dec_ltb. case_bool_decide as Hd; [done|].
  apply Qcnot_lt_le in Hd. by apply Qcle_antisym.
Qed.

Lemma recovery_delay_bounded_witness :
  delay_for_failure default_recovery_policy 3 (dec 5 1) = Ok (dec 36 1)
  /\ (dec 36 1 <= base_delay default_recovery_policy 3)%Qc.
Proof.
  split; [by vm_compute|].
  pose proof (recovery_delay_bounded default_recovery_policy default_recovery_policy 3 (dec 5 1) eq_refl
    ltac:(split; vm_compute; discriminate)) as H.
  replace (delay_for_failure default_recovery_policy 3 (dec 5 1)) with (@Ok Decimal (dec 36 1)) in H by (by vm_compute).
  apply H.
Defined.

(** ** Runs *)

Section Runs.
Context (publish : ContextEvent -> option exn).
Context {P : Type} `{!ShadowPublisher P}.
Context (policy : IngestionRecoveryPolicy) (session : option MarketSessionClassifier).

Local Abbreviation Supervisor := (@Supervisor P).
Local Abbreviation step := (supervise publish policy session).
Local Abbreviation run := (supervise_all publish policy session).

(** What one input makes the engine process. *)
Definition dispatched_in (self : Supervisor) (input : SupervisorInput) : list (MarketInput * instant * instant) :=
  match sv_point self, input with
  | Streaming, Received datum _ now observed_at _ =>
      match engine_input datum with Some x => [(x, now, observed_at)] | None => [] end
  | _, _ => []
  end.

(** Whether one input ends a run, and if so whether the run had received anything. *)
Definition ended_in (self : Supervisor) (input : SupervisorInput) : list bool :=
  match sv_point self, input with
  | Streaming, StreamEnds error _ => if is_cancellation error then [] else [ig_rx_since_start (sv_ingestion self)]
  | Streaming, Received datum received_at now observed_at _ =>
      match (dispatch publish datum received_at now observed_at self).2 with
      | Raise e => if is_cancellation (Some e) then [] else [true]
      | Ok _ => []
      end
  | _, _ => []
  end.

(** The same along a list of inputs. *)
Fixpoint along {A} (f : Supervisor -> SupervisorInput -> list A) (self : Supervisor) (inputs : list SupervisorInput)
    : list A :=
  match inputs with
  | [] => []
  | input :: inputs => f self input ++ along f (step self input) inputs
  end.

Lemma along_snoc {A} (f : Supervisor -> SupervisorInput -> list A) self inputs input :
  along f self (inputs ++ [input]) = along f self inputs ++ f (run self inputs) input.
Proof.
  revert self. induction inputs as [|i inputs IH]; intros self; cbn [along app]; [by rewrite app_nil_r|].
  by rewrite IH, app_assoc.
Qed.

Lemma run_snoc self inputs input : run self (inputs ++ [input]) = step (run self inputs) input.
Proof. unfold supervise_all. by rewrite foldl_snoc. Qed.

(** Waiting leaves the engine alone. *)
Definition same_engine (a b : Supervisor) : Prop := sv_engine a = sv_engine b /\ sv_published a = sv_published b.

Lemma same_engine_end how (self : Supervisor) : same_engine (end_task how self) self.
Proof. by destruct how. Qed.

Lemma same_engine_wait rd (self : Supervisor) : same_engine (wait_before_recovery policy session rd self) self.
Proof.
  unfold wait_before_recovery. destruct (negb _); [done|]. destruct (delay_for_failure _ _ _); [done|].
  by destruct (same_engine_end (TaskFinished (Some error)) (with_ingestion (set_state RECOVERING (sv_ingestion self)) (sv_point self) self)).
Qed.

Lemma same_engine_end_run error rd (self : Supervisor) : same_engine (end_run policy session error rd self) self.
Proof.
  unfold end_run. destruct (is_cancellation error); [apply same_engine_end|].
  match goal with |- same_engine (wait_before_recovery _ _ _ ?s) _ => by destruct (same_engine_wait rd s) end.
Qed.

Lemma step_engine self input :
  let '(engine, events) := process_all publish (sv_engine self) (dispatched_in self input) in
  sv_engine (step self input) = engine /\ sv_published (step self input) = sv_published self ++ events.
Proof.
  assert (Hsame : forall s : Supervisor, same_engine s self ->
    sv_engine s = sv_engine self /\ sv_published s = sv_published self ++ []) by (intros s [-> ->]; by rewrite app_nil_r).
  unfold dispatched_in, supervise. destruct (sv_point self) eqn:Ep; destruct input as [|d rx now ob rd|error rd|rd|];
    try (apply Hsame; first [done|apply same_engine_end|apply same_engine_wait|apply same_engine_end_run]).
  unfold dispatch. destruct (engine_input d) as [x|].
  - unfold process_all. cbn [fold_left fst snd]. destruct (process publish (sv_engine self) x now ob) as [[engine events] res].
    cbn [app]. destruct res as [pr|e].
    + cbn. destruct (publish_shadow _ d) as [p [|]]; done.
    + match goal with |- context [end_run policy session (Some e) rd ?s] =>
        destruct (same_engine_end_run (Some e) rd s) as [-> ->] end. done.
  - apply Hsame. match goal with |- context [end_run policy session ?e rd ?s] =>
      destruct (same_engine_end_run e rd s) as [H1 H2] end. split; [by rewrite H1|by rewrite H2].
Qed.

(** [C7] The engine processes exactly the data the supervisor receives while it streams, in
    order and once each: whatever runs fail, are retried, polled for, cancelled or
    published to the shadow, the engine and its events are those of feeding it that
    sequence. *)
Theorem ingestion_feeds_engine engine publisher ingestion inputs :
  let self := start_ingestion engine publisher ingestion in
  process_all publish engine (along dispatched_in self inputs)
  = (sv_engine (run self inputs), sv_published (run self inputs)).
Proof.
  cbv zeta. induction inputs as [|input inputs IH] using rev_ind; [done|].
  rewrite along_snoc, run_snoc. pose proof (step_engine (run (start_ingestion engine publisher ingestion) inputs) input) as Hs.
  destruct (dispatched_in (run (start_ingestion engine publisher ingestion) inputs) input) as [|x [|y ys]] eqn:Ed.
  - cbn in Hs. rewrite app_nil_r in Hs. destruct Hs as [-> ->]. by rewrite app_nil_r.
  - rewrite process_all_snoc, IH. unfold process_all in Hs. cbn [fold_left fst snd] in Hs. unfold processed.
    destruct (process publish _ x.1.1 x.1.2 x.2) as [[e evs] r]. cbn in Hs |- *. destruct Hs as [-> ->]. done.
  - unfold dispatched_in in Ed. repeat case_match; discriminate.
Qed.

(** ** The shadow *)

(** The supervisor without its shadow publisher. *)
Definition without_shadow (self : Supervisor) : Supervisor := {|
  sv_ingestion := sv_ingestion self; sv_point := sv_point self; sv_engine := sv_engine self; sv_publisher := None;
  sv_published := sv_published self |}.

Lemma without_shadow_end how self : without_shadow (end_task how self) = end_task how (without_shadow self).
Proof. by destruct how. Qed.

Lemma without_shadow_wait rd self :
  without_shadow (wait_before_recovery policy session rd self) = wait_before_recovery policy session rd (without_shadow self).
Proof. unfold wait_before_recovery. cbn. destruct (negb _); [done|]. by destruct (delay_for_failure _ _ _). Qed.

Lemma without_shadow_end_run error rd self :
  without_shadow (end_run policy session error rd self) = end_run policy session error rd (without_shadow self).
Proof. unfold end_run. destruct (is_cancellation error); [apply without_shadow_end|apply without_shadow_wait]. Qed.

(** The shadow publisher is powerless: as long as it does not cancel the task, it may start,
    publish or raise as it likes, and every state of the supervisor is the one without it. *)
Theorem shadow_isolated engine publisher ingestion inputs :
  (forall p datum, (shadow_publish p datum).2 <> Some CancelledError) ->
  without_shadow (run (start_ingestion engine publisher ingestion) inputs)
  = run (start_ingestion engine None ingestion) inputs.
Proof.
  intros Hsafe. induction inputs as [|input inputs IH] using rev_ind; [done|].
  rewrite !run_snoc, <- IH. generalize (run (start_ingestion engine publisher ingestion) inputs). intros self. clear IH.
  unfold supervise. cbn [without_shadow sv_point].
  destruct (sv_point self) eqn:Ep; destruct input as [|datum rx now observed_at rd|error rd|rd|]; try reflexivity;
    try apply without_shadow_end; try apply without_shadow_end_run; try apply without_shadow_wait.
  unfold dispatch. cbn [without_shadow sv_engine sv_ingestion sv_point sv_published sv_publisher].
  destruct (engine_input datum) as [x|].
  - destruct (process publish (sv_engine self) x now observed_at) as [[e evs] [pr|err]].
    + cbn. unfold publish_shadow. destruct (sv_publisher self) as [p|]; [|done].
      pose proof (Hsafe p datum) as Hs. destruct (shadow_publish p datum) as [p' raised]. cbn in Hs.
      unfold is_cancellation. rewrite bool_decide_false by done. done.
    + rewrite without_shadow_end_run. done.
  - rewrite without_shadow_end_run. done.
Qed.

(** ** The supervisor's books *)

(** Whether one input begins a run. *)
Definition begun_in (self : Supervisor) (input : SupervisorInput) : list unit :=
  match sv_point self, input with
  | BeforeFirstTurn, FirstTurn | BackingOff _, Awake _ => [tt]
  | _, _ => []
  end.

Definition is_backing_off (point : SupervisorPoint) : bool := match point with BackingOff _ => true | _ => false end.

(** The last [streak] ended runs received nothing, the one before them did. *)
Definition silent_streak (ended : list bool) (streak : Z) : Prop :=
  0 <= streak /\ exists before, ended = before ++ replicate (Z.to_nat streak) false /\ last before <> Some false.

Record supervisor_ok (self : Supervisor) (begun : list unit) (ended : list bool) : Prop := {
  sok_point : let i := sv_ingestion self in
    match sv_point self with
    | BeforeFirstTurn => ig_state i = STARTING /\ begun = [] /\ ended = []
    | Streaming => ig_state i = RUNNING /\ length begun = S (length ended)
    | PollingSession => ig_state i = WAITING_FOR_SESSION /\ length begun = length ended /\ begun <> []
    | BackingOff _ => ig_state i = RECOVERING /\ length begun = length ended /\ begun <> []
    | Ended TaskCancelled => ig_state i = STOPPED \/ ig_state i = STARTING /\ begun = []
    | Ended (TaskFinished error) =>
        ig_state i = STOPPED /\ ig_error i = error /\ error = Some OverflowError /\ 1024 < ig_consecutive_failures i
    end;
  sok_failed : ig_failed (sv_ingestion self) = true <-> exists error, sv_point self = Ended (TaskFinished error);
  sok_successful : ig_successful_recoveries (sv_ingestion self) = Z.of_nat (length (filter (fun b => b = true) ended));
  sok_consecutive : silent_streak ended (ig_consecutive_failures (sv_ingestion self));
  sok_attempts : (forall how, sv_point self <> Ended how) ->
    ig_recovery_attempts (sv_ingestion self) + (if bool_decide (begun = []) then 0 else 1)
    = Z.of_nat (length begun) + (if is_backing_off (sv_point self) then 1 else 0);
}.

Lemma silent_streak_snoc ended streak b : silent_streak ended streak ->
  silent_streak (ended ++ [b]) (if b then 0 else streak + 1).
Proof.
  intros [Hs (before & -> & Hl)]. destruct b.
  - split; [lia|]. exists ((before ++ replicate (Z.to_nat streak) false) ++ [true]).
    cbn. rewrite app_nil_r. split; [done|]. by rewrite last_snoc.
  - split; [lia|]. exists before. split; [|done]. replace (Z.to_nat (streak + 1)) with (Z.to_nat streak + 1)%nat by lia.
    by rewrite replicate_add, app_assoc.
Qed.

(** A supervisor between two runs, before it decides what to wait for. *)
Record between_runs (self : Supervisor) (begun : list unit) (ended : list bool) : Prop := {
  btw_runs : length begun = length ended /\ begun <> [];
  btw_failed : ig_failed (sv_ingestion self) = false;
  btw_successful : ig_successful_recoveries (sv_ingestion self) = Z.of_nat (length (filter (fun b => b = true) ended));
  btw_consecutive : silent_streak ended (ig_consecutive_failures (sv_ingestion self));
  btw_attempts : ig_recovery_attempts (sv_ingestion self) + 1 = Z.of_nat (length begun);
}.

Lemma wait_ok rd (self : Supervisor) begun ended : between_runs self begun ended ->
  supervisor_ok (wait_before_recovery policy session rd self) begun ended.
Proof.
  intros [[Hr Hne] Hf Hs Hc Ha]. unfold wait_before_recovery.
  assert (Hb : bool_decide (begun = []) = false) by (by apply bool_decide_eq_false).
  destruct (negb _).
  - split; cbn; [done| |done|done|intros _; rewrite Hb; lia]. rewrite Hf. split; [done|]. by intros [error ?].
  - destruct (delay_for_failure _ _ _) as [delay|e] eqn:Ed; cbn in Ed.
    + split; cbn; [done| |done|done|intros _; rewrite Hb; lia]. rewrite Hf. split; [done|]. by intros [error ?].
    + unfold delay_for_failure in Ed.
      destruct (Z.leb_spec 1024 (Z.max 0 (ig_consecutive_failures (sv_ingestion self) - 1))) as [Hl|Hl]; [|done].
      injection Ed as <-. split; cbn; [split_and!; try done; lia| |done|done|intros Hx; by destruct (Hx (TaskFinished (Some OverflowError)))].
      split; [intros _; by eexists|done].
Qed.

Lemma end_run_ok error rd (self : Supervisor) begun ended : sv_point self = Streaming -> supervisor_ok self begun ended ->
  supervisor_ok (end_run policy session error rd self) begun
    (ended ++ if is_cancellation error then [] else [ig_rx_since_start (sv_ingestion self)]).
Proof.
  intros Hp [H1 H2 H3 H4 H5]. rewrite Hp in *. destruct H1 as [H1 Hr]. unfold end_run.
  assert (Hne : begun <> []) by (by destruct begun). rewrite bool_decide_false in H5 by done. specialize (H5 ltac:(done)).
  assert (Hnf : ig_failed (sv_ingestion self) = false).
  { destruct (ig_failed (sv_ingestion self)); [|done]. by destruct (proj1 H2 eq_refl) as [? ?]. }
  destruct (is_cancellation error).
  - rewrite app_nil_r. split; cbn; [by left| |done|done|intros Hx; by destruct (Hx TaskCancelled)].
    rewrite Hnf. split; [done|]. by intros [? ?].
  - apply wait_ok. split; cbn.
    + split; [rewrite length_app; cbn; lia|done].
    + done.
    + rewrite filter_app, length_app, H3. destruct (ig_rx_since_start _);
        [rewrite filter_cons_True by done|rewrite filter_cons_False by done]; cbn; lia.
    + by apply silent_streak_snoc.
    + cbn in H5. lia.
Qed.

Lemma begin_run_ok self begun ended : length begun = length ended ->
  ig_failed (sv_ingestion self) = false ->
  ig_successful_recoveries (sv_ingestion self) = Z.of_nat (length (filter (fun b => b = true) ended)) ->
  silent_streak ended (ig_consecutive_failures (sv_ingestion self)) ->
  ig_recovery_attempts (sv_ingestion self) = Z.of_nat (length begun) ->
  supervisor_ok (begin_run self) (begun ++ [tt]) ended.
Proof.
  intros Hr Hf Hs Hc Ha. split; cbn.
  - split; [done|]. rewrite length_app. cbn. lia.
  - rewrite Hf. split; [done|]. by intros [? ?].
  - done.
  - done.
  - intros _. rewrite bool_decide_false by (by destruct begun). rewrite length_app. cbn. lia.
Qed.

Lemma not_failed self begun ended : supervisor_ok self begun ended ->
  (forall error, sv_point self <> Ended (TaskFinished error)) -> ig_failed (sv_ingestion self) = false.
Proof.
  intros [_ H2 _ _ _] Hn. destruct (ig_failed (sv_ingestion self)); [|done].
  destruct (proj1 H2 eq_refl) as [error ?]. by destruct (Hn error).
Qed.

Lemma step_ok self input begun ended : supervisor_ok self begun ended ->
  supervisor_ok (step self input) (begun ++ begun_in self input) (ended ++ ended_in self input).
Proof.
  intros Hok. pose proof (not_failed _ _ _ Hok) as Hnf. pose proof Hok as [H1 H2 H3 H4 H5].
  unfold supervise, begun_in, ended_in.
  destruct (sv_point self) as [| | |delay|how] eqn:Ep; destruct input as [|datum rx now observed_at rd|error rd|rd|];
    rewrite ?app_nil_r; try exact Hok; try specialize (Hnf ltac:(done)).
  - destruct H1 as (_ & -> & ->). specialize (H5 ltac:(done)). apply (begin_run_ok self [] []); try done. rewrite bool_decide_true in H5 by done.
    cbn in H5 |- *. lia.
  - split; cbn; [right; by destruct H1 as (? & ? & _)| |done|done|intros Hx; by destruct (Hx TaskCancelled)]. rewrite Hnf. split; [done|]. by intros [? ?].
  - destruct (dispatch publish datum rx now observed_at self) as [self' res] eqn:Ed.
    assert (Hd : sv_point self' = Streaming /\ ig_rx_since_start (sv_ingestion self') = true
      /\ supervisor_ok self' begun ended).
    { unfold dispatch in Ed. destruct (engine_input datum) as [x|].
      - destruct (process publish (sv_engine self) x now observed_at) as [[e evs] r]. injection Ed as <- _. cbn. rewrite Ep.
        split_and!; [done..|]. split; cbn; rewrite ?Ep; done.
      - injection Ed as <- _. cbn. rewrite Ep. split_and!; [done..|]. split; cbn; rewrite ?Ep; done. }
    destruct Hd as (Hp' & Hrx & Hok'). cbn [snd]. destruct res as [[]|e].
    + rewrite app_nil_r. destruct (publish_shadow (sv_publisher self') datum) as [p [|]].
      * pose proof (end_run_ok (Some CancelledError) rd self' begun ended Hp' Hok') as He. cbn in He.
        rewrite app_nil_r in He. destruct He as [E1 E2 E3 E4 E5]. split; done.
      * destruct Hok' as [E1 E2 E3 E4 E5]. rewrite Hp' in *. split; done.
    + pose proof (end_run_ok (Some e) rd self' begun ended Hp' Hok') as He. rewrite Hrx in He. exact He.
  - exact (end_run_ok error rd self begun ended Ep Hok).
  - pose proof (end_run_ok (Some CancelledError) {| rd_failed_at := 0; rd_checked_at := 0; rd_random := 0%Qc; rd_attempt_at := 0 |}
      self begun ended Ep Hok) as He. cbn in He. by rewrite app_nil_r in He.
  - apply wait_ok. destruct H1 as (_ & Hr & Hne). split; try done. specialize (H5 ltac:(done)). rewrite bool_decide_false in H5 by done. cbn in H5. lia.
  - destruct H1 as (Hst & Hr & Hne). split; cbn; [by left| |done|done|intros Hx; by destruct (Hx TaskCancelled)]. rewrite Hnf. split; [done|]. by intros [? ?].
  - destruct H1 as (_ & Hr & Hne). apply begin_run_ok; try done. specialize (H5 ltac:(done)). rewrite bool_decide_false in H5 by done. cbn in H5. lia.
  - destruct H1 as (Hst & Hr & Hne). specialize (H5 ltac:(done)). rewrite bool_decide_false in H5 by done. cbn in H5.
    split; cbn; [by left| |done|done|intros Hx; by destruct (Hx TaskCancelled)]. rewrite Hnf. split; [done|]. by intros [? ?].
Qed.

(** [C8] At every point of supervised ingestion exactly one run is open while it streams and none
    otherwise, the reported state is what the supervisor waits for, the ended runs that had
    received something are the successful recoveries and those that received nothing since
    the last one are the consecutive failures, every run but the first is one recovery
    attempt, and the supervisor ends on its own only by the overflow of its back-off after
    more than 1024 consecutive failures, which is what the fatal flag reports. *)
Theorem supervisor_invariant engine publisher inputs :
  let self := start_ingestion engine publisher initial_ingestion in
  supervisor_ok (run self inputs) (along begun_in self inputs) (along ended_in self inputs).
Proof.
  cbv zeta. induction inputs as [|input inputs IH] using rev_ind.
  - split; cbn; [done| |done| |done].
    + split; [done|by intros [? ?]].
    + split; [lia|]. by exists [].
  - rewrite !along_snoc, run_snoc. by apply step_ok.
Qed.

(** An input that ends a run other than by a cancellation: the stream ends or raises, or
    the dispatch of a datum raises.  It carries the readings of the supervisor's next wait
    and whether the run had received anything. *)
Inductive ends_run (self : Supervisor) : SupervisorInput -> Readings -> bool -> Prop :=
| stream_over error rd : sv_point self = Streaming -> is_cancellation error = false ->
    ends_run self (StreamEnds error rd) rd (ig_rx_since_start (sv_ingestion self))
| dispatch_raises datum received_at now observed_at rd e : sv_point self = Streaming ->
    (dispatch publish datum received_at now observed_at self).2 = Raise e -> e <> CancelledError ->
    ends_run self (Received datum received_at now observed_at rd) rd true.

(** The failures in a row and the recovery attempts a supervisor has counted. *)
Definition counted (self : Supervisor) : Z * Z :=
  (ig_consecutive_failures (sv_ingestion self), ig_recovery_attempts (sv_ingestion self)).

Lemma ended_run_waits self ending rd received : ends_run self ending rd received ->
  exists ended, step self ending = wait_before_recovery policy session rd ended
  /\ counted ended = (if received then 0 else (counted self).1 + 1, (counted self).2)
  /\ same_engine ended (step self ending).
Proof.
  intros H. assert (exists ended, step self ending = wait_before_recovery policy session rd ended
    /\ counted ended = (if received then 0 else (counted self).1 + 1, (counted self).2)) as (ended & Hs & Hc).
  { destruct H as [error rd Hp Hc|datum rx now ob rd e Hp Hd He]; unfold supervise; rewrite Hp.
    - unfold end_run. rewrite Hc. eexists. split; [reflexivity|]. unfold counted. cbn. by destruct (ig_rx_since_start _).
    - destruct (dispatch publish datum rx now ob self) as [self' res] eqn:Ed. cbn in Hd. subst res.
      unfold end_run. unfold is_cancellation. rewrite bool_decide_false by congruence.
      eexists. split; [reflexivity|]. unfold dispatch in Ed. destruct (engine_input datum) as [x|].
      + destruct (process publish (sv_engine self) x now ob) as [[engine events] r]. by injection Ed as <- _.
      + by injection Ed as <- _. }
  exists ended. split_and!; [done|done|]. rewrite Hs. destruct (same_engine_wait rd ended). by split.
Qed.

(** From a wait the supervisor polls the readings that find the session closed. *)
Lemma polls_until_opened closed : forall (self : Supervisor) rd later opened,
  rd :: later = closed ++ [opened] ->
  Forall (fun rd => session_expects_ingestion session (rd_checked_at rd) = false) closed ->
  let waits n := run (wait_before_recovery policy session rd self) (map Awake (take n later)) in
  (forall n, (n < length closed)%nat -> sv_point (waits n) = PollingSession)
  /\ exists before, run (wait_before_recovery policy session rd self) (map Awake later)
       = wait_before_recovery policy session opened before
     /\ counted before = counted self /\ same_engine before self.
Proof.
  induction closed as [|c closed IH]; intros self rd later opened Hl Hr; cbn [app] in Hl; injection Hl as -> ->.
  - split; [intros n Hn; cbn in Hn; lia|]. by exists self.
  - apply Forall_cons in Hr as [Hc Hr].
    set (polling := with_ingestion (set_state WAITING_FOR_SESSION (sv_ingestion self)) PollingSession self).
    assert (Hw : wait_before_recovery policy session c self = polling) by (unfold wait_before_recovery; by rewrite Hc).
    rewrite Hw. destruct (closed ++ [opened]) as [|rd later] eqn:El; [by destruct closed|].
    destruct (IH polling rd later opened (eq_sym El) Hr) as (Hpoll & before & Hb & Hcount & He1 & He2).
    assert (Hstep : forall inputs, run polling (Awake rd :: inputs)
      = run (wait_before_recovery policy session rd polling) inputs) by done.
    split; [|exists before; by split_and!].
    intros [|n] Hn; [done|]. cbn [take map]. rewrite Hstep. apply Hpoll. cbn in Hn. lia.
Qed.

(** Between two runs an open session leads to the back-off. *)
Lemma opened_backs_off rd (self : Supervisor) : session_expects_ingestion session (rd_checked_at rd) = true ->
  ig_consecutive_failures (sv_ingestion self) <= 1024 ->
  exists delay, delay_for_failure policy (ig_consecutive_failures (sv_ingestion self)) (rd_random rd) = Ok delay
  /\ wait_before_recovery policy session rd self
     = with_ingestion (record_attempt (rd_attempt_at rd) delay (set_state RECOVERING (sv_ingestion self)))
         (BackingOff delay) self.
Proof.
  intros Hw Hn.
  assert (Hd : exists delay, delay_for_failure policy (ig_consecutive_failures (sv_ingestion self)) (rd_random rd) = Ok delay).
  { unfold delay_for_failure.
    destruct (Z.leb_spec 1024 (Z.max 0 (ig_consecutive_failures (sv_ingestion self) - 1))); [lia|]. by eexists. }
  destruct Hd as [delay Hd]. exists delay. split; [done|]. unfold wait_before_recovery. rewrite Hw.
  cbn [negb set_state ig_consecutive_failures]. by rewrite Hd.
Qed.

(** ... or, after more than 1024 failures, to the overflow. *)
Lemma opened_overflows rd (self : Supervisor) : session_expects_ingestion session (rd_checked_at rd) = true ->
  1024 < ig_consecutive_failures (sv_ingestion self) ->
  wait_before_recovery policy session rd self
  = end_task (TaskFinished (Some OverflowError))
      (with_ingestion (set_state RECOVERING (sv_ingestion self)) (sv_point self) self).
Proof.
  intros Hw Hn. unfold wait_before_recovery. rewrite Hw. cbn [negb set_state ig_consecutive_failures].
  unfold delay_for_failure. by rewrite (proj2 (Z.leb_le 1024 _)) by lia.
Qed.

(** [C9] A run that ends is retried, whether its stream ended or raised or the dispatch of
    a datum raised, unless it was cancelled: the supervisor polls while the session expects
    no data and, at the first reading that does, has counted one more failure, or none if
    the run had received anything; it then backs off by the delay of the policy for that
    count and streams again with the engine the run left, except that a silent run after
    1024 or more failures in a row ends the supervisor with the overflow of the back-off. *)
Theorem failed_run_retried (self : Supervisor) ending rd received later closed opened woken :
  ends_run self ending rd received -> rd :: later = closed ++ [opened] ->
  Forall (fun rd => session_expects_ingestion session (rd_checked_at rd) = false) closed ->
  session_expects_ingestion session (rd_checked_at opened) = true ->
  let failures := if received then 0 else ig_consecutive_failures (sv_ingestion self) + 1 in
  let waiting := run self (ending :: map Awake later) in
  let again := step waiting (Awake woken) in
  (forall n, (n < length closed)%nat ->
     sv_point (run self (ending :: map Awake (take n later))) = PollingSession)
  /\ ig_consecutive_failures (sv_ingestion waiting) = failures
  /\ same_engine again (step self ending)
  /\ if failures <=? 1024
     then (exists delay, sv_point waiting = BackingOff delay
           /\ delay_for_failure policy failures (rd_random opened) = Ok delay)
          /\ sv_point again = Streaming /\ ig_state (sv_ingestion again) = RUNNING
          /\ ig_recovery_attempts (sv_ingestion again) = ig_recovery_attempts (sv_ingestion self) + 1
     else sv_point again = Ended (TaskFinished (Some OverflowError)).
Proof.
  intros He Hl Hr Hw. cbv zeta. destruct (ended_run_waits _ _ _ _ He) as (ended & Hs & [= Hc Ha] & E1 & E2).
  destruct (polls_until_opened closed ended rd later opened Hl Hr) as (Hpoll & before & Hb & [= Hc' Ha'] & E3 & E4).
  assert (Hrun : forall inputs, run self (ending :: inputs) = run (wait_before_recovery policy session rd ended) inputs).
  { intros inputs. by rewrite <- Hs. }
  rewrite Hrun, Hb. set (failures := if received then 0 else _) in *.
  split; [intros n Hn; rewrite Hrun; by apply Hpoll|]. destruct (Z.leb_spec failures 1024) as [Hle|Hgt].
  - destruct (opened_backs_off opened before Hw ltac:(lia)) as (delay & Hd & ->). cbn.
    split_and!; [lia|split; cbn; congruence| |done|done|lia]. exists delay. split; [done|]. by rewrite <- Hd, Hc', Hc.
  - rewrite (opened_overflows opened before Hw ltac:(lia)). cbn. split_and!; [lia|split; cbn; congruence|done].
Qed.
End Runs.

(** ** At concrete runs *)

(** A shadow publisher that raises whatever it is asked. *)
#[export] Instance broken_publisher : ShadowPublisher unit := {
  shadow_start := fun p => (p, Some RedisPublishError);
  shadow_publish := fun p _ => (p, Some RedisPublishError);
}.

Definition no_engine : TickEngine := mk_tick_engine (mk_registry []) None None
  {| staged_observation_verified := false; tick_aggregate_verified := false |}.

Definition at_second (n : Z) : Readings := {|
  rd_failed_at := n * us_per_second; rd_checked_at := n * us_per_second; rd_random := 0%Qc;
  rd_attempt_at := n * us_per_second |}.

Lemma shadow_isolated_witness :
  without_shadow (supervise_all (fun _ => None) default_recovery_policy None
    (start_ingestion no_engine (Some tt) initial_ingestion) [FirstTurn; StreamEnds None (at_second 1); Awake (at_second 2)])
  = supervise_all (fun _ => None) default_recovery_policy None
    (start_ingestion no_engine None initial_ingestion) [FirstTurn; StreamEnds None (at_second 1); Awake (at_second 2)].
Proof. apply (shadow_isolated (fun _ => None) default_recovery_policy None). by intros [] datum. Defined.

(** The dispatch of a depth update raises, on a weekend; the session opens at the fourth reading. *)
Definition unsupported_datum : MarketEvent :=
  EDepth {| ds_instrument := cash_equity "RELIANCE"; ds_event_timestamp := 0; ds_bids := []; ds_asks := [] |}.

Lemma failed_run_retried_witness :
  let weekend := at_second (2 * 86400) in
  let self := {| sv_ingestion := initial_ingestion; sv_point := Streaming; sv_engine := no_engine;
                 sv_publisher := @None unit; sv_published := [] |} in
  let opened := at_second (5 * 86400 + 4 * 3600) in
  let ending := Received unsupported_datum 0 0 0 weekend in
  let step := supervise (fun _ => None) default_recovery_policy (Some nse_classifier) in
  let waiting := supervise_all (fun _ => None) default_recovery_policy (Some nse_classifier) self
    (ending :: map Awake [weekend; weekend; opened]) in
  let again := step waiting (Awake opened) in
  (exists delay, sv_point waiting = BackingOff delay /\ delay_for_failure default_recovery_policy 0 0 = Ok delay)
  /\ sv_point again = Streaming /\ same_engine again (step self ending).
Proof.
  intros weekend self opened ending step waiting again.
  assert (Hends : ends_run (fun _ => None) self ending weekend true) by by eapply dispatch_raises.
  pose proof (failed_run_retried (fun _ => None) default_recovery_policy (Some nse_classifier) self
    ending weekend true [weekend; weekend; opened] [weekend; weekend; weekend] opened opened Hends eq_refl
    ltac:(repeat constructor; by vm_compute) ltac:(by vm_compute)) as H.
  clearbody self. destruct H as (_ & _ & He & Hd & Hp & _). split; [exact Hd|]. split; [exact Hp|exact He].
Defined.

(** A stream that never delivers anything ends the supervisor for good: its 1025th failure
    in a row needs a float of two to the 1024. *)
Definition dead_stream (failures : nat) : list SupervisorInput :=
  FirstTurn :: concat (repeat [StreamEnds (Some ProviderUnavailableError) (at_second 0); Awake (at_second 0)] failures).

Lemma overflow_ends_supervisor :
  let after n := supervise_all (fun _ => None) default_recovery_policy None
    (start_ingestion no_engine (@None unit) initial_ingestion) (dead_stream n) in
  sv_point (after 1024%nat) = Streaming
  /\ sv_point (after 1025%nat) = Ended (TaskFinished (Some OverflowError))
  /\ ig_failed (sv_ingestion (after 1025%nat)) = true.
Proof. cbv zeta. split_and!; vm_compute; reflexivity. Qed.
