(* ===== verification/MarketRuntime.v ===== *)
(** The live-market runtime, services/market_runtime.py: the tasks and subscriptions
    [LiveMarketRuntime] owns, its start and shutdown, its status and diagnostics.

    Ingestion is the supervisor of [Ingestion]; the other tasks (the refresh driver, the
    calendar monitor, the evidence observer and the sector shadow) are known by whether
    they still run and how they ended.  The bus is [EventBus] with the handlers of the
    clients as identities; what a handler does is its component's.  [start] is split where
    it waits and [shutdown] at the end of every task it cancels, and both interleave with
    each other, with ingestion, with the ends of the drivers and with continuity reports.

    The theorems say what is subscribed and running in each lifecycle phase, that a shutdown
    leaves nothing behind whatever fails in it, and which interleaving leaves tasks. *)
From S2P Require Import Prelude EventBus PyTime MarketData Session SessionStatistics TickEngine DhanWire Ingestion.

Local Open Scope Z_scope.

(** * State *)

Inductive RuntimeState : Type := NOT_STARTED | STARTED | SHUTDOWN.

#[global] Instance RuntimeState_eq_dec : EqDecision RuntimeState.
Proof. solve_decision. Defined.

(** The event types and handlers of the clients on the bus. *)
Inductive RuntimeEvent : Type := CONTEXT_CREATED | CONTEXT_UPDATED | RESULTS_PUBLISHED.
Inductive RuntimeHandler : Type :=
| MANAGER_ON_CREATED | MANAGER_ON_UPDATED | SCANNER_HANDLE | OBSERVER_ON_CONTEXT | SHADOW_ON_CONTEXT.

#[global] Instance RuntimeEvent_eq_dec : EqDecision RuntimeEvent.
Proof. solve_decision. Defined.
#[global] Instance RuntimeHandler_eq_dec : EqDecision RuntimeHandler.
Proof. solve_decision. Defined.

Definition manager_handlers : list (RuntimeEvent * RuntimeHandler) :=
  [(CONTEXT_CREATED, MANAGER_ON_CREATED); (CONTEXT_UPDATED, MANAGER_ON_UPDATED)].
Definition scanner_handlers : list (RuntimeEvent * RuntimeHandler) := [(RESULTS_PUBLISHED, SCANNER_HANDLE)].
Definition observer_handlers : list (RuntimeEvent * RuntimeHandler) :=
  [(CONTEXT_CREATED, OBSERVER_ON_CONTEXT); (CONTEXT_UPDATED, OBSERVER_ON_CONTEXT)].
Definition shadow_handlers : list (RuntimeEvent * RuntimeHandler) :=
  [(CONTEXT_CREATED, SHADOW_ON_CONTEXT); (CONTEXT_UPDATED, SHADOW_ON_CONTEXT)].

Inductive RuntimeClient : Type := MANAGER | SCANNER | EVIDENCE_OBSERVER | SECTOR_SHADOW.

#[global] Instance RuntimeClient_eq_dec : EqDecision RuntimeClient.
Proof. solve_decision. Defined.

Definition handlers_wanted (c : RuntimeClient) : list (RuntimeEvent * RuntimeHandler) :=
  match c with
  | MANAGER => manager_handlers
  | SCANNER => scanner_handlers
  | EVIDENCE_OBSERVER => observer_handlers
  | SECTOR_SHADOW => shadow_handlers
  end.

(** The tasks besides ingestion. *)
Inductive DriverTask : Type := REFRESH_DRIVER | CALENDAR_MONITOR | OBSERVER_TASK | SHADOW_TASK.

#[global] Instance DriverTask_eq_dec : EqDecision DriverTask.
Proof. solve_decision. Defined.

Inductive TaskState : Type := Pending | Done (how : TaskEnd).

(** What the constructor is given, as far as the lifecycle uses it. *)
Record RuntimeConfig : Type := {
  cf_instruments : list Instrument;
  cf_live_market_data : bool;
  cf_session_statistics_refresh : bool;
  cf_calendar_monitor : bool;
  cf_evidence_observer : bool;
  cf_sector_shadow : bool;
  cf_autostart_strategy_ids : list string;
  cf_recovery_policy : IngestionRecoveryPolicy;
  cf_session : MarketSessionClassifier;
}.

Section Runtime.
Context (publish : ContextEvent -> option exn).
Context {P : Type} `{!ShadowPublisher P}.
Context (config : RuntimeConfig).

Local Abbreviation Supervisor := (@Supervisor P).
Local Abbreviation Bus := (EventBus RuntimeEvent RuntimeHandler).
Local Abbreviation Handle := (Subscription RuntimeEvent RuntimeHandler).

(** [LiveMarketRuntime]; the ingestion task is there when its supervisor is. *)
Record LiveMarketRuntime : Type := {
  rt_state : RuntimeState;
  rt_manager_subscribed : bool;
  rt_bus : Bus;
  rt_subscriptions : RuntimeClient -> list Handle;
  rt_engine : TickEngine;
  rt_publisher : option P;
  rt_supervisor : option Supervisor;
  rt_drivers : DriverTask -> option TaskState;
  rt_refresh_driver_failed : bool;
  rt_calendar_monitor_failed : bool;
}.

(** The constructor. *)
Definition mk_runtime (engine : TickEngine) (publisher : option P) : LiveMarketRuntime := {|
  rt_state := NOT_STARTED; rt_manager_subscribed := false; rt_bus := mk_event_bus; rt_subscriptions := fun _ => [];
  rt_engine := engine; rt_publisher := publisher; rt_supervisor := None; rt_drivers := fun _ => None;
  rt_refresh_driver_failed := false; rt_calendar_monitor_failed := false |}.

Definition with_lifecycle (state : RuntimeState) (subscribed : bool) (self : LiveMarketRuntime) : LiveMarketRuntime := {|
  rt_state := state; rt_manager_subscribed := subscribed; rt_bus := rt_bus self;
  rt_subscriptions := rt_subscriptions self; rt_engine := rt_engine self; rt_publisher := rt_publisher self;
  rt_supervisor := rt_supervisor self; rt_drivers := rt_drivers self;
  rt_refresh_driver_failed := rt_refresh_driver_failed self;
  rt_calendar_monitor_failed := rt_calendar_monitor_failed self |}.

Definition with_client (c : RuntimeClient) (bus : Bus) (handles : list Handle) (self : LiveMarketRuntime)
    : LiveMarketRuntime := {|
  rt_state := rt_state self; rt_manager_subscribed := rt_manager_subscribed self; rt_bus := bus;
  rt_subscriptions := fun c' => if decide (c' = c) then handles else rt_subscriptions self c';
  rt_engine := rt_engine self; rt_publisher := rt_publisher self; rt_supervisor := rt_supervisor self;
  rt_drivers := rt_drivers self; rt_refresh_driver_failed := rt_refresh_driver_failed self;
  rt_calendar_monitor_failed := rt_calendar_monitor_failed self |}.

Definition with_ingestion_task (publisher : option P) (supervisor : option Supervisor) (self : LiveMarketRuntime)
    : LiveMarketRuntime := {|
  rt_state := rt_state self; rt_manager_subscribed := rt_manager_subscribed self; rt_bus := rt_bus self;
  rt_subscriptions := rt_subscriptions self; rt_engine := rt_engine self; rt_publisher := publisher;
  rt_supervisor := supervisor; rt_drivers := rt_drivers self;
  rt_refresh_driver_failed := rt_refresh_driver_failed self;
  rt_calendar_monitor_failed := rt_calendar_monitor_failed self |}.

(** A task is created or ends; the done callbacks flag an end of the refresh driver or the
    monitor that is no cancellation, and only log the others. *)
Definition with_driver (t : DriverTask) (task : TaskState) (self : LiveMarketRuntime) : LiveMarketRuntime :=
  let fatal := match task with Done (TaskFinished _) => true | _ => false end in {|
  rt_state := rt_state self; rt_manager_subscribed := rt_manager_subscribed self; rt_bus := rt_bus self;
  rt_subscriptions := rt_subscriptions self; rt_engine := rt_engine self; rt_publisher := rt_publisher self;
  rt_supervisor := rt_supervisor self;
  rt_drivers := fun t' => if decide (t' = t) then Some task else rt_drivers self t';
  rt_refresh_driver_failed := rt_refresh_driver_failed self || bool_decide (t = REFRESH_DRIVER) && fatal;
  rt_calendar_monitor_failed := rt_calendar_monitor_failed self || bool_decide (t = CALENDAR_MONITOR) && fatal |}.

(** [subscribe] and [unsubscribe] of a client. *)
Definition subscribe_client (c : RuntimeClient) (self : LiveMarketRuntime) : LiveMarketRuntime :=
  let '(bus, handles) := attach (handlers_wanted c) (rt_bus self) (rt_subscriptions self c) in
  with_client c bus handles self.
Definition unsubscribe_client (c : RuntimeClient) (self : LiveMarketRuntime) : LiveMarketRuntime :=
  let '(bus, handles) := detach (rt_bus self) (rt_subscriptions self c) in with_client c bus handles self.

(** * Start *)

(** [start] up to its first wait; [None] when the runtime runs already. *)
Definition start_begin (self : LiveMarketRuntime) : result (option LiveMarketRuntime) :=
  match rt_state self with
  | SHUTDOWN => Raise RuntimeLifecycleError
  | STARTED => Ok None
  | NOT_STARTED =>
      let self := subscribe_client SCANNER (subscribe_client MANAGER self) in
      let self := if cf_evidence_observer config
                  then with_driver OBSERVER_TASK Pending (subscribe_client EVIDENCE_OBSERVER self) else self in
      let self := if cf_sector_shadow config
                  then with_driver SHADOW_TASK Pending (subscribe_client SECTOR_SHADOW self) else self in
      Ok (Some (with_lifecycle STARTED true self))
  end.

(** The autostart loop with what each [manager.start] raises: [_start_strategy] drops every
    error but a cancellation. *)
Fixpoint start_strategies (strategy_ids : list string) (manager_start : string -> option exn) : result unit :=
  match strategy_ids with
  | [] => Ok tt
  | strategy_id :: strategy_ids =>
      match manager_start strategy_id with
      | Some CancelledError => Raise CancelledError
      | _ => start_strategies strategy_ids manager_start
      end
  end.

(** The rest of [start]. *)
Definition start_finish (self : LiveMarketRuntime) : LiveMarketRuntime :=
  let publisher := start_market_event_publisher (rt_publisher self) in
  let supervisor :=
    if cf_live_market_data config && bool_decide (cf_instruments config <> [])
    then Some (start_ingestion (rt_engine self) publisher initial_ingestion) else rt_supervisor self in
  let self := with_ingestion_task publisher supervisor self in
  let self := if cf_session_statistics_refresh config then with_driver REFRESH_DRIVER Pending self else self in
  if cf_calendar_monitor config then with_driver CALENDAR_MONITOR Pending self else self.

(** [start] without interruption. *)
Definition start (manager_start : string -> option exn) (self : LiveMarketRuntime)
    : LiveMarketRuntime * result unit :=
  match start_begin self with
  | Raise e => (self, Raise e)
  | Ok None => (self, Ok tt)
  | Ok (Some begun) =>
      match start_strategies (cf_autostart_strategy_ids config) manager_start with
      | Raise e => (begun, Raise e)
      | Ok _ => (start_finish begun, Ok tt)
      end
  end.

(** * Shutdown *)

(** What can go wrong: how the cancelled drivers end, and [finalize_session]. *)
Record ShutdownFaults : Type := {
  sf_cancel : DriverTask -> TaskEnd;
  sf_finalize : option exn;
}.

Definition task_done (point : SupervisorPoint) : bool := match point with Ended _ => true | _ => false end.

(** [_cancel_task] on the ingestion task. *)
Definition cancel_ingestion (self : LiveMarketRuntime) : LiveMarketRuntime :=
  match rt_supervisor self with
  | Some sv => with_ingestion_task (rt_publisher self)
                 (Some (supervise publish (cf_recovery_policy config) (Some (cf_session config)) sv Cancel)) self
  | None => self
  end.

(** [_cancel_task] on another task: an error it ends with is collected. *)
Definition cancel_driver (faults : ShutdownFaults) (acc : LiveMarketRuntime * list exn) (t : DriverTask)
    : LiveMarketRuntime * list exn :=
  let '(self, errors) := acc in
  match rt_drivers self t with
  | Some Pending =>
      let how := sf_cancel faults t in
      (with_driver t (Done how) self,
       match how with TaskFinished (Some e) => errors ++ [e] | _ => errors end)
  | _ => (self, errors)
  end.

(** [shutdown] up to its first wait: nothing new is accepted from here on. *)
Definition shutdown_begin (self : LiveMarketRuntime) : LiveMarketRuntime :=
  with_lifecycle SHUTDOWN (rt_manager_subscribed self) self.

(** [shutdown] after its last wait: the clients are detached and the first error raised. *)
Definition shutdown_end (faults : ShutdownFaults) (acc : LiveMarketRuntime * list exn)
    : LiveMarketRuntime * result unit :=
  let '(self, errors) := acc in
  let '(self, errors) :=
    if cf_evidence_observer config
    then (unsubscribe_client EVIDENCE_OBSERVER self, errors ++ option_list (sf_finalize faults)) else (self, errors) in
  let self := if cf_sector_shadow config then unsubscribe_client SECTOR_SHADOW self else self in
  let self := unsubscribe_client MANAGER (unsubscribe_client SCANNER self) in
  (with_lifecycle SHUTDOWN false self, match errors with [] => Ok tt | e :: _ => Raise e end).

(** [shutdown] without interruption. *)
Definition shutdown (faults : ShutdownFaults) (self : LiveMarketRuntime) : LiveMarketRuntime * result unit :=
  if bool_decide (rt_state self = SHUTDOWN) then (self, Ok tt)
  else shutdown_end faults (foldl (cancel_driver faults) (cancel_ingestion (shutdown_begin self), [])
         [REFRESH_DRIVER; CALENDAR_MONITOR; OBSERVER_TASK; SHADOW_TASK]).

(** The tasks of the tuple [shutdown] goes through, ingestion first, that exist when it
    makes it. *)
Definition owned_tasks (self : LiveMarketRuntime) : list (option DriverTask) :=
  (if is_not_none (rt_supervisor self) then [None] else [])
  ++ map Some (List.filter (fun t => is_not_none (rt_drivers self t))
       [REFRESH_DRIVER; CALENDAR_MONITOR; OBSERVER_TASK; SHADOW_TASK]).

(** One turn of its loop. *)
Definition cancel_task (faults : ShutdownFaults) (acc : LiveMarketRuntime * list exn) (task : option DriverTask)
    : LiveMarketRuntime * list exn :=
  match task with
  | None => (cancel_ingestion acc.1, acc.2)
  | Some t => cancel_driver faults acc t
  end.

(** * Status *)

Definition ingestion_of (self : LiveMarketRuntime) : Ingestion :=
  match rt_supervisor self with Some sv => sv_ingestion sv | None => initial_ingestion end.

Definition ingestion_alive (self : LiveMarketRuntime) : bool :=
  match rt_supervisor self with Some sv => negb (task_done (sv_point sv)) | None => false end.

Definition driver_running (self : LiveMarketRuntime) (t : DriverTask) : bool :=
  match rt_drivers self t with Some Pending => true | _ => false end.

(** The task fields of [RuntimeStatus]. *)
Record RuntimeStatus : Type := {
  st_state : RuntimeState;
  st_manager_subscribed : bool;
  st_known_instrument_count : nat;
  st_ingestion_configured : bool;
  st_ingestion_running : bool;
  st_fatal_ingestion_error : bool;
  st_refresh_driver_configured : bool;
  st_refresh_driver_running : bool;
  st_fatal_refresh_driver_error : bool;
  st_calendar_monitor_configured : bool;
  st_calendar_monitor_running : bool;
  st_fatal_calendar_monitor_error : bool;
}.

(** [status] *)
Definition status (self : LiveMarketRuntime) : RuntimeStatus := {|
  st_state := rt_state self; st_manager_subscribed := rt_manager_subscribed self;
  st_known_instrument_count := length (cf_instruments config);
  st_ingestion_configured := cf_live_market_data config;
  st_ingestion_running := ingestion_alive self && bool_decide (ig_state (ingestion_of self) ∈ [STARTING; RUNNING]);
  st_fatal_ingestion_error := ig_failed (ingestion_of self);
  st_refresh_driver_configured := cf_session_statistics_refresh config;
  st_refresh_driver_running := driver_running self REFRESH_DRIVER;
  st_fatal_refresh_driver_error := rt_refresh_driver_failed self;
  st_calendar_monitor_configured := cf_calendar_monitor config;
  st_calendar_monitor_running := driver_running self CALENDAR_MONITOR;
  st_fatal_calendar_monitor_error := rt_calendar_monitor_failed self |}.

(** The task fields of [ingestion_diagnostics]. *)
Definition ingestion_task_running (self : LiveMarketRuntime) : bool :=
  ingestion_alive self && bool_decide (ig_state (ingestion_of self) = RUNNING).
Definition recovery_task_running (self : LiveMarketRuntime) : bool :=
  ingestion_alive self && bool_decide (ig_state (ingestion_of self) ∈ [RECOVERING; WAITING_FOR_SESSION]).

(** [on_feed_continuity] on the engine. *)
Definition runtime_on_feed_continuity (event : FeedContinuityEvent) (self : LiveMarketRuntime) : LiveMarketRuntime :=
  match rt_supervisor self with
  | Some sv => with_ingestion_task (rt_publisher self)
      (Some {| sv_ingestion := sv_ingestion sv; sv_point := sv_point sv; sv_engine := on_feed_continuity (sv_engine sv) event;
               sv_publisher := sv_publisher sv; sv_published := sv_published sv |}) self
  | None => {| rt_state := rt_state self; rt_manager_subscribed := rt_manager_subscribed self; rt_bus := rt_bus self;
      rt_subscriptions := rt_subscriptions self; rt_engine := on_feed_continuity (rt_engine self) event;
      rt_publisher := rt_publisher self; rt_supervisor := None; rt_drivers := rt_drivers self;
      rt_refresh_driver_failed := rt_refresh_driver_failed self;
      rt_calendar_monitor_failed := rt_calendar_monitor_failed self |}
  end.

(** * Lemmas *)

(** ** What is subscribed *)

Definition handles_for (c : RuntimeClient) : list Handle :=
  map (fun w => {| sub_event_type := w.1; sub_handler := w.2 |}) (handlers_wanted c).

(** The clients a started runtime has on the bus, in order of subscription. *)
Definition clients : list RuntimeClient :=
  [MANAGER; SCANNER] ++ (if cf_evidence_observer config then [EVIDENCE_OBSERVER] else [])
  ++ (if cf_sector_shadow config then [SECTOR_SHADOW] else []).

Definition subscribed_bus : Bus :=
  foldl (fun bus c => (attach (handlers_wanted c) bus []).1) mk_event_bus clients.

Lemma subscribed_handlers t : handlers_of subscribed_bus t = concat (map (fun c => wanted_for (handlers_wanted c) t) clients).
Proof.
  unfold subscribed_bus, clients. destruct (cf_evidence_observer config), (cf_sector_shadow config), t; reflexivity.
Qed.

Lemma all_detached t :
  handlers_of (foldl (fun bus c => (detach bus (handles_for c)).1) subscribed_bus
    ((if cf_evidence_observer config then [EVIDENCE_OBSERVER] else [])
     ++ (if cf_sector_shadow config then [SECTOR_SHADOW] else []) ++ [SCANNER; MANAGER])) t = [].
Proof.
  unfold subscribed_bus, clients. destruct (cf_evidence_observer config), (cf_sector_shadow config), t; reflexivity.
Qed.

(** ** The invariant *)

Definition supervisor_alive (o : option Supervisor) : Prop := exists sv, o = Some sv /\ task_done (sv_point sv) = false.

Record runtime_ok (self : LiveMarketRuntime) : Prop := {
  rok_subscribed : rt_manager_subscribed self = bool_decide (rt_state self = STARTED);
  rok_handlers : forall t, handlers_of (rt_bus self) t
    = match rt_state self with STARTED => concat (map (fun c => wanted_for (handlers_wanted c) t) clients) | _ => [] end;
  rok_bus : match rt_state self with STARTED => rt_bus self = subscribed_bus | NOT_STARTED => rt_bus self = mk_event_bus | SHUTDOWN => True end;
  rok_handles : forall c, rt_subscriptions self c
    = match rt_state self with STARTED => if decide (c ∈ clients) then handles_for c else [] | _ => [] end;
  rok_quiet : rt_state self <> STARTED ->
    (forall t, rt_drivers self t <> Some Pending) /\ ~ supervisor_alive (rt_supervisor self);
  rok_fresh : rt_state self = NOT_STARTED -> rt_supervisor self = None /\ forall t, rt_drivers self t = None;
  rok_configured : forall t, rt_drivers self t <> None ->
    match t with
    | REFRESH_DRIVER => cf_session_statistics_refresh config
    | CALENDAR_MONITOR => cf_calendar_monitor config
    | OBSERVER_TASK => cf_evidence_observer config
    | SHADOW_TASK => cf_sector_shadow config
    end = true;
  rok_supervisor : forall sv, rt_supervisor self = Some sv ->
    cf_live_market_data config = true /\ cf_instruments config <> []
    /\ exists begun ended, supervisor_ok sv begun ended;
  rok_refresh : rt_refresh_driver_failed self = true
    <-> exists error, rt_drivers self REFRESH_DRIVER = Some (Done (TaskFinished error));
  rok_monitor : rt_calendar_monitor_failed self = true
    <-> exists error, rt_drivers self CALENDAR_MONITOR = Some (Done (TaskFinished error));
}.

Lemma mk_runtime_ok engine publisher : runtime_ok (mk_runtime engine publisher).
Proof.
  split; cbn; try done; try (split; [done|by intros [? ?]]). intros _. split; [done|]. by intros [? [? _]].
Qed.

(** ** Clients *)

Lemma subscribe_client_spec c self : rt_subscriptions self c = [] ->
  subscribe_client c self = with_client c (attach (handlers_wanted c) (rt_bus self) []).1 (handles_for c) self.
Proof. intros Hc. unfold subscribe_client. rewrite Hc. by destruct c. Qed.

Lemma unsubscribe_client_spec c self : rt_subscriptions self c = handles_for c ->
  unsubscribe_client c self = with_client c (detach (rt_bus self) (handles_for c)).1 [] self.
Proof. intros Hc. unfold unsubscribe_client. by rewrite Hc. Qed.

(** ** Start *)

Lemma runtime_start_begin_ok self : runtime_ok self -> rt_state self = NOT_STARTED ->
  exists begun, start_begin self = Ok (Some begun) /\ runtime_ok begun /\ rt_state begun = STARTED
  /\ rt_supervisor begun = None /\ rt_engine begun = rt_engine self /\ rt_publisher begun = rt_publisher self
  /\ (forall t, rt_drivers begun t
       = match t with
         | OBSERVER_TASK => if cf_evidence_observer config then Some Pending else None
         | SHADOW_TASK => if cf_sector_shadow config then Some Pending else None
         | _ => None
         end).
Proof.
  intros [H1 H2 H3 H4 H5 H6 H7 H8 H9 H10] Hst. rewrite Hst in *. destruct (H6 eq_refl) as [Hsv Hdr].
  assert (Hrf : rt_refresh_driver_failed self = false).
  { destruct (rt_refresh_driver_failed self); [|done]. destruct (proj1 H9 eq_refl) as [? Hx]. by rewrite Hdr in Hx. }
  assert (Hmf : rt_calendar_monitor_failed self = false).
  { destruct (rt_calendar_monitor_failed self); [|done]. destruct (proj1 H10 eq_refl) as [? Hx]. by rewrite Hdr in Hx. }
  unfold start_begin. rewrite Hst. rewrite (subscribe_client_spec MANAGER) by apply H4.
  rewrite (subscribe_client_spec SCANNER) by (cbn; apply H4). cbn [rt_bus with_client].
  eexists. split; [reflexivity|].
  assert (Hall : forall c, rt_subscriptions self c = []) by apply H4.
  destruct (cf_evidence_observer config) eqn:Eo, (cf_sector_shadow config) eqn:Es;
    rewrite ?(subscribe_client_spec EVIDENCE_OBSERVER) by (cbn; apply H4);
    rewrite ?(subscribe_client_spec SECTOR_SHADOW) by (cbn; apply H4);
    (split; [|split_and!; [reflexivity|exact Hsv|reflexivity|reflexivity|intros []; cbn; rewrite ?Hdr; reflexivity]]).
  all: split; cbn; rewrite ?H3; unfold clients, subscribed_bus, clients; rewrite ?Eo, ?Es; cbn; try reflexivity; try done.
  all: try (intros []; cbn; rewrite ?H4, ?Hdr, ?Eo, ?Es; cbn; try reflexivity; try done).
  all: try (rewrite ?Hrf, ?Hmf, ?Hdr; cbn; split; [done|by intros [? ?]]).
  all: try (rewrite ?Hsv; by intros ? ?).
Qed.

(** A driver is created, or ends. *)
Lemma with_driver_ok t task self : runtime_ok self -> rt_state self = STARTED ->
  match t with
  | REFRESH_DRIVER => cf_session_statistics_refresh config
  | CALENDAR_MONITOR => cf_calendar_monitor config
  | OBSERVER_TASK => cf_evidence_observer config
  | SHADOW_TASK => cf_sector_shadow config
  end = true ->
  match task with Pending => rt_drivers self t = None | Done _ => rt_drivers self t = Some Pending end ->
  runtime_ok (with_driver t task self).
Proof.
  intros [H1 H2 H3 H4 H5 H6 H7 H8 H9 H10] Hst Hc Ht.
  assert (Hflag : forall flag t', (flag = true <-> exists error, rt_drivers self t' = Some (Done (TaskFinished error))) ->
    (flag || bool_decide (t = t') && match task with Done (TaskFinished _) => true | _ => false end = true
     <-> exists error, (if decide (t' = t) then Some task else rt_drivers self t') = Some (Done (TaskFinished error)))).
  { intros flag t' Hf. destruct (decide (t' = t)) as [->|Hn].
    - rewrite bool_decide_true by done. destruct flag; cbn.
      + destruct (proj1 Hf eq_refl) as [error Hx]. rewrite Hx in Ht. by destruct task.
      + destruct task as [|[|error]]; split; try done; [by intros [? ?]|by intros [? ?]|]. intros _. by exists error.
    - rewrite bool_decide_false by done. by rewrite orb_false_r. }
  split; cbn; try done.
  - rewrite Hst. by intros.
  - intros t'. destruct (decide (t' = t)) as [->|Hn]; [by intros _|apply H7].
  - apply Hflag, H9.
  - apply Hflag, H10.
Qed.

Lemma with_supervisor_ok publisher sv self : runtime_ok self -> rt_state self = STARTED ->
  cf_live_market_data config = true -> cf_instruments config <> [] ->
  (exists begun ended, supervisor_ok sv begun ended) ->
  runtime_ok (with_ingestion_task publisher (Some sv) self).
Proof.
  intros [H1 H2 H3 H4 H5 H6 H7 H8 H9 H10] Hst Hl Hi Hs. split; cbn; try done; rewrite ?Hst; try done.
  intros sv' [= <-]. done.
Qed.

(** A successful start of a new runtime. *)
Lemma start_finish_ok begun : runtime_ok begun -> rt_state begun = STARTED -> rt_supervisor begun = None ->
  rt_drivers begun REFRESH_DRIVER = None -> rt_drivers begun CALENDAR_MONITOR = None ->
  runtime_ok (start_finish begun) /\ rt_state (start_finish begun) = STARTED
  /\ (forall t, rt_drivers (start_finish begun) t
       = match t with
         | REFRESH_DRIVER => if cf_session_statistics_refresh config then Some Pending else None
         | CALENDAR_MONITOR => if cf_calendar_monitor config then Some Pending else None
         | t => rt_drivers begun t
         end)
  /\ rt_supervisor (start_finish begun)
     = if cf_live_market_data config && bool_decide (cf_instruments config <> [])
       then Some (start_ingestion (rt_engine begun) (start_market_event_publisher (rt_publisher begun)) initial_ingestion)
       else None.
Proof.
  intros Hok Hst Hsv Hr Hm. unfold start_finish. rewrite Hsv.
  set (publisher := start_market_event_publisher (rt_publisher begun)).
  assert (Hbase : forall sv, (sv = if cf_live_market_data config && bool_decide (cf_instruments config <> [])
      then Some (start_ingestion (rt_engine begun) publisher initial_ingestion) else None) ->
    runtime_ok (with_ingestion_task publisher sv begun)).
  { intros sv ->. destruct (cf_live_market_data config) eqn:El; cbn [andb].
    - case_bool_decide as Hi.
      + apply with_supervisor_ok; try done. exists [], []. split; cbn; [done| |done| |done].
        * split; [done|by intros [? ?]].
        * split; [lia|]. by exists [].
      + destruct Hok as [H1 H2 H3 H4 H5 H6 H7 H8 H9 H10]. split; cbn; try done; rewrite ?Hst; done.
    - destruct Hok as [H1 H2 H3 H4 H5 H6 H7 H8 H9 H10]. split; cbn; try done; rewrite ?Hst; done. }
  specialize (Hbase _ eq_refl). set (base := with_ingestion_task publisher _ begun) in *.
  assert (Hrb : rt_drivers base REFRESH_DRIVER = None /\ rt_drivers base CALENDAR_MONITOR = None /\ rt_state base = STARTED) by done.
  destruct Hrb as (Hrb & Hmb & Hsb).
  destruct (cf_session_statistics_refresh config) eqn:Er.
  - assert (Hok1 : runtime_ok (with_driver REFRESH_DRIVER Pending base)) by (apply with_driver_ok; done).
    destruct (cf_calendar_monitor config) eqn:Em.
    + split_and!; [apply with_driver_ok; done|done|by intros []|done].
    + split_and!; [done|done|by intros []|done].
  - destruct (cf_calendar_monitor config) eqn:Em.
    + split_and!; [apply with_driver_ok; done|done|by intros []|done].
    + split_and!; [done|done|by intros []|done].
Qed.

(** ** Steps *)

(** How far the call of [shutdown] is: not made, at its loop with the tasks still to cancel
    and the errors so far, or returned. *)
Inductive ShutdownPhase : Type :=
| NotCalled
| Cancelling (remaining : list (option DriverTask)) (errors : list exn)
| Returned (res : result unit).

(** A runtime with the calls under way.  [w_late] records that a start still waiting was
    resumed after the shutdown had begun. *)
Record RuntimeWorld : Type := {
  w_runtime : LiveMarketRuntime;
  w_start_waits : bool;
  w_late : bool;
  w_shutdown : ShutdownPhase;
}.

Definition with_runtime (self : LiveMarketRuntime) (w : RuntimeWorld) : RuntimeWorld := {|
  w_runtime := self; w_start_waits := w_start_waits w; w_late := w_late w; w_shutdown := w_shutdown w |}.

(** Everything that happens to a runtime between two waits: a start begins, is resumed
    after its last wait or is cancelled in one; a shutdown begins, has awaited its next task
    or ends; the supervisor is resumed; a driver ends on its own; the feed reports its
    continuity. *)
Inductive runtime_step : RuntimeWorld -> RuntimeWorld -> Prop :=
| step_start_begins w begun : start_begin (w_runtime w) = Ok (Some begun) ->
    runtime_step w {| w_runtime := begun; w_start_waits := true; w_late := w_late w; w_shutdown := w_shutdown w |}
| step_start_resumes w : w_start_waits w = true ->
    runtime_step w {| w_runtime := start_finish (w_runtime w); w_start_waits := false;
      w_late := bool_decide (rt_state (w_runtime w) = SHUTDOWN); w_shutdown := w_shutdown w |}
| step_start_cancelled w : w_start_waits w = true ->
    runtime_step w {| w_runtime := w_runtime w; w_start_waits := false; w_late := w_late w;
      w_shutdown := w_shutdown w |}
| step_shutdown_begins w : rt_state (w_runtime w) <> SHUTDOWN ->
    runtime_step w {| w_runtime := shutdown_begin (w_runtime w); w_start_waits := w_start_waits w;
      w_late := w_late w; w_shutdown := Cancelling (owned_tasks (w_runtime w)) [] |}
| step_task_cancelled w faults task remaining errors : w_shutdown w = Cancelling (task :: remaining) errors ->
    runtime_step w {| w_runtime := (cancel_task faults (w_runtime w, errors) task).1;
      w_start_waits := w_start_waits w; w_late := w_late w;
      w_shutdown := Cancelling remaining (cancel_task faults (w_runtime w, errors) task).2 |}
| step_shutdown_ends w faults errors : w_shutdown w = Cancelling [] errors ->
    runtime_step w {| w_runtime := (shutdown_end faults (w_runtime w, errors)).1;
      w_start_waits := w_start_waits w; w_late := w_late w;
      w_shutdown := Returned (shutdown_end faults (w_runtime w, errors)).2 |}
| step_supervise w sv input : rt_supervisor (w_runtime w) = Some sv ->
    runtime_step w (with_runtime (with_ingestion_task (rt_publisher (w_runtime w))
      (Some (supervise publish (cf_recovery_policy config) (Some (cf_session config)) sv input)) (w_runtime w)) w)
| step_driver w t how : rt_drivers (w_runtime w) t = Some Pending ->
    runtime_step w (with_runtime (with_driver t (Done how) (w_runtime w)) w)
| step_continuity w event :
    runtime_step w (with_runtime (runtime_on_feed_continuity event (w_runtime w)) w).

Definition new_world (engine : TickEngine) (publisher : option P) : RuntimeWorld := {|
  w_runtime := mk_runtime engine publisher; w_start_waits := false; w_late := false; w_shutdown := NotCalled |}.

Inductive runtime_reachable : RuntimeWorld -> Prop :=
| reachable_new engine publisher : runtime_reachable (new_world engine publisher)
| reachable_step w w' : runtime_reachable w -> runtime_step w w' -> runtime_reachable w'.

(** ** Shutdown *)

(** A pending task is cancelled. *)
Definition settled (faults : ShutdownFaults) (t : DriverTask) (task : option TaskState) : option TaskState :=
  match task with Some Pending => Some (Done (sf_cancel faults t)) | task => task end.

Definition all_drivers : list DriverTask := [REFRESH_DRIVER; CALENDAR_MONITOR; OBSERVER_TASK; SHADOW_TASK].

(** The error a cancelled task ends with, and all of them in order. *)
Definition cancel_error (faults : ShutdownFaults) (self : LiveMarketRuntime) (t : DriverTask) : option exn :=
  match rt_drivers self t, sf_cancel faults t with
  | Some Pending, TaskFinished (Some e) => Some e
  | _, _ => None
  end.
Definition cancel_errors (faults : ShutdownFaults) (self : LiveMarketRuntime) : list exn :=
  omap (cancel_error faults self) all_drivers.

(** The runtime with every driver settled. *)
Definition settle (faults : ShutdownFaults) (self : LiveMarketRuntime) : LiveMarketRuntime :=
  foldl (fun self t => match rt_drivers self t with
                       | Some Pending => with_driver t (Done (sf_cancel faults t)) self
                       | _ => self
                       end) self all_drivers.

Lemma cancel_drivers_spec faults self :
  foldl (cancel_driver faults) (self, []) all_drivers = (settle faults self, cancel_errors faults self).
Proof.
  assert (Hloop : forall ts s errors, NoDup ts ->
    foldl (cancel_driver faults) (s, errors) ts
    = (foldl (fun s t => match rt_drivers s t with
                         | Some Pending => with_driver t (Done (sf_cancel faults t)) s
                         | _ => s
                         end) s ts,
       errors ++ omap (cancel_error faults s) ts)).
  { induction ts as [|t ts IH]; intros s errors Hn; cbn [foldl]; [by rewrite app_nil_r|].
    apply NoDup_cons in Hn as [Ht Hn].
    assert (Hsame : forall task, omap (cancel_error faults (with_driver t task s)) ts = omap (cancel_error faults s) ts).
    { intros task. clear -Ht. induction ts as [|u ts IHts]; [done|]. apply not_elem_of_cons in Ht as [Hu Ht].
      cbn. rewrite (IHts Ht). unfold cancel_error. cbn. by rewrite decide_False. }
    assert (Hcons : omap (cancel_error faults s) (t :: ts)
      = option_list (cancel_error faults s t) ++ omap (cancel_error faults s) ts).
    { cbn. by destruct (cancel_error faults s t). }
    rewrite Hcons. clear Hcons. unfold cancel_driver at 2.
    destruct (rt_drivers s t) as [[|how]|] eqn:Ed.
    - rewrite IH by done. rewrite Hsame. unfold cancel_error at 2. rewrite Ed. rewrite app_assoc.
      destruct (sf_cancel faults t) as [|[e|]]; cbn; by rewrite ?app_nil_r.
    - rewrite IH by done. unfold cancel_error at 2. rewrite Ed. done.
    - rewrite IH by done. unfold cancel_error at 2. rewrite Ed. done. }
  unfold settle, cancel_errors. rewrite Hloop; [done|]. unfold all_drivers. repeat constructor; set_solver.
Qed.

Lemma settle_ok faults self : runtime_ok self -> rt_state self = STARTED ->
  runtime_ok (settle faults self) /\ rt_state (settle faults self) = STARTED
  /\ rt_bus (settle faults self) = rt_bus self /\ rt_subscriptions (settle faults self) = rt_subscriptions self
  /\ rt_supervisor (settle faults self) = rt_supervisor self
  /\ forall t, rt_drivers (settle faults self) t = settled faults t (rt_drivers self t).
Proof.
  intros Hok Hst. unfold settle.
  assert (Hloop : forall ts s, NoDup ts -> runtime_ok s -> rt_state s = STARTED ->
    let s' := foldl (fun s t => match rt_drivers s t with
                         | Some Pending => with_driver t (Done (sf_cancel faults t)) s
                         | _ => s
                         end) s ts in
    runtime_ok s' /\ rt_state s' = STARTED /\ rt_bus s' = rt_bus s /\ rt_subscriptions s' = rt_subscriptions s
    /\ rt_supervisor s' = rt_supervisor s
    /\ forall t, rt_drivers s' t = if decide (t ∈ ts) then settled faults t (rt_drivers s t) else rt_drivers s t).
  { induction ts as [|t ts IH]; intros s Hn Hs Hss; cbn [foldl].
    { split_and!; try done. }
    apply NoDup_cons in Hn as [Ht Hn].
    set (s1 := match rt_drivers s t with Some Pending => with_driver t (Done (sf_cancel faults t)) s | _ => s end).
    assert (H1 : runtime_ok s1 /\ rt_state s1 = STARTED /\ rt_bus s1 = rt_bus s /\ rt_subscriptions s1 = rt_subscriptions s
      /\ rt_supervisor s1 = rt_supervisor s
      /\ forall t', rt_drivers s1 t' = if decide (t' = t) then settled faults t (rt_drivers s t) else rt_drivers s t').
    { unfold s1. destruct (rt_drivers s t) as [[|how]|] eqn:Ed.
      - split_and!; try done. apply with_driver_ok; try done. apply (rok_configured _ Hs). by rewrite Ed.
      - split_and!; try done. intros t'. destruct (decide (t' = t)) as [->|]; [by rewrite Ed|done].
      - split_and!; try done. intros t'. destruct (decide (t' = t)) as [->|]; [by rewrite Ed|done]. }
    destruct H1 as (Hok1 & Hst1 & <- & <- & <- & Hd1). destruct (IH s1 Hn Hok1 Hst1) as (G1 & G2 & G3 & G4 & G5 & G6).
    split_and!; try done. intros t'. rewrite G6, Hd1. destruct (decide (t' = t)) as [->|Hne].
    - rewrite decide_False by done. rewrite decide_True by left. done.
    - destruct (decide (t' ∈ ts)) as [Hin|Hin]; [rewrite decide_True by (by right); done|].
      rewrite decide_False by (intros [|]%elem_of_cons; done). done. }
  destruct (Hloop all_drivers self ltac:(unfold all_drivers; repeat constructor; set_solver) Hok Hst)
    as (G1 & G2 & G3 & G4 & G5 & G6).
  split_and!; try done. intros t. rewrite G6. rewrite decide_True; [done|]. destruct t; set_solver.
Qed.

Lemma settle_with_lifecycle faults state subscribed self :
  settle faults (with_lifecycle state subscribed self) = with_lifecycle state subscribed (settle faults self).
Proof.
  unfold settle. generalize all_drivers. intros ts. revert self. induction ts as [|t ts IH]; intros self; [done|].
  cbn [foldl]. rewrite <- IH. f_equal. cbn. by destruct (rt_drivers self t) as [[|how]|].
Qed.

Lemma settle_idle faults self : (forall t, rt_drivers self t = None) -> settle faults self = self.
Proof. intros Hd. unfold settle, all_drivers. cbn [foldl]. by rewrite !Hd. Qed.

Lemma cancel_errors_idle faults self : (forall t, rt_drivers self t = None) -> cancel_errors faults self = [].
Proof. intros Hd. unfold cancel_errors, all_drivers, cancel_error. cbn. by rewrite !Hd. Qed.

Lemma cancelled_done policy session (sv : Supervisor) : task_done (sv_point (supervise publish policy session sv Cancel)) = true.
Proof. unfold supervise. by destruct (sv_point sv) eqn:E; cbn; rewrite ?E. Qed.

Lemma cancel_ingestion_ok self : runtime_ok self -> rt_state self = STARTED ->
  runtime_ok (cancel_ingestion self) /\ rt_state (cancel_ingestion self) = STARTED
  /\ rt_bus (cancel_ingestion self) = rt_bus self
  /\ rt_subscriptions (cancel_ingestion self) = rt_subscriptions self
  /\ rt_drivers (cancel_ingestion self) = rt_drivers self
  /\ forall sv, rt_supervisor (cancel_ingestion self) = Some sv -> task_done (sv_point sv) = true.
Proof.
  intros Hok Hst. unfold cancel_ingestion. destruct (rt_supervisor self) as [sv|] eqn:Es; [|split_and!; try done; congruence].
  destruct (rok_supervisor _ Hok sv Es) as (Hl & Hi & begun & ended & Hs).
  split_and!; try done.
  - apply with_supervisor_ok; try done. do 2 eexists. by apply step_ok.
  - cbn. intros sv' [= <-]. apply cancelled_done.
Qed.

(** The clients give their subscriptions back. *)
Lemma unsubscribe_all_ok self : runtime_ok self -> rt_state self = STARTED ->
  let observed := if cf_evidence_observer config then unsubscribe_client EVIDENCE_OBSERVER self else self in
  let shadowed := if cf_sector_shadow config then unsubscribe_client SECTOR_SHADOW observed else observed in
  let detached := unsubscribe_client MANAGER (unsubscribe_client SCANNER shadowed) in
  (forall t, handlers_of (rt_bus detached) t = []) /\ (forall c, rt_subscriptions detached c = [])
  /\ rt_drivers detached = rt_drivers self /\ rt_supervisor detached = rt_supervisor self
  /\ rt_refresh_driver_failed detached = rt_refresh_driver_failed self
  /\ rt_calendar_monitor_failed detached = rt_calendar_monitor_failed self.
Proof.
  intros [_ _ H3 H4 _ _ _ _ _ _] Hst. rewrite Hst in *.
  assert (Hc : forall c, c ∈ clients -> rt_subscriptions self c = handles_for c).
  { intros c Hin. rewrite H4. by rewrite decide_True. }
  assert (Hnc : forall c, c ∉ clients -> rt_subscriptions self c = []).
  { intros c Hin. rewrite H4. by rewrite decide_False. }
  pose proof all_detached as Ha. clear H4. unfold clients in Hc, Hnc. unfold subscribed_bus, clients in H3, Ha.
  destruct (cf_evidence_observer config) eqn:Eo, (cf_sector_shadow config) eqn:Es; cbv zeta;
    rewrite ?(unsubscribe_client_spec EVIDENCE_OBSERVER) by (cbn; apply Hc; set_solver);
    rewrite ?(unsubscribe_client_spec SECTOR_SHADOW) by (cbn; apply Hc; set_solver);
    rewrite (unsubscribe_client_spec SCANNER) by (cbn; apply Hc; set_solver);
    rewrite (unsubscribe_client_spec MANAGER) by (cbn; apply Hc; set_solver);
    (split; [intros t; cbn [rt_bus with_client]; rewrite H3; destruct t; reflexivity|split; [|split_and!; reflexivity]]).
  all: intros []; cbn; try reflexivity; apply Hnc; set_solver.
Qed.

Lemma unsubscribe_nothing c self : (forall c, rt_subscriptions self c = []) ->
  rt_bus (unsubscribe_client c self) = rt_bus self /\ (forall c', rt_subscriptions (unsubscribe_client c self) c' = [])
  /\ rt_drivers (unsubscribe_client c self) = rt_drivers self /\ rt_supervisor (unsubscribe_client c self) = rt_supervisor self
  /\ rt_refresh_driver_failed (unsubscribe_client c self) = rt_refresh_driver_failed self
  /\ rt_calendar_monitor_failed (unsubscribe_client c self) = rt_calendar_monitor_failed self.
Proof.
  intros Hs. unfold unsubscribe_client. rewrite Hs. cbn. split_and!; try done. intros c'. by destruct (decide _).
Qed.

(** Everything [shutdown] detaches. *)
Definition detach_clients (self : LiveMarketRuntime) : LiveMarketRuntime :=
  let observed := if cf_evidence_observer config then unsubscribe_client EVIDENCE_OBSERVER self else self in
  let shadowed := if cf_sector_shadow config then unsubscribe_client SECTOR_SHADOW observed else observed in
  unsubscribe_client MANAGER (unsubscribe_client SCANNER shadowed).

Lemma detach_clients_ok self : runtime_ok self -> rt_state self <> SHUTDOWN ->
  (forall t, handlers_of (rt_bus (detach_clients self)) t = []) /\ (forall c, rt_subscriptions (detach_clients self) c = [])
  /\ rt_drivers (detach_clients self) = rt_drivers self /\ rt_supervisor (detach_clients self) = rt_supervisor self
  /\ rt_refresh_driver_failed (detach_clients self) = rt_refresh_driver_failed self
  /\ rt_calendar_monitor_failed (detach_clients self) = rt_calendar_monitor_failed self.
Proof.
  intros Hok Hn. destruct (rt_state self) eqn:Est; [|by apply unsubscribe_all_ok|done].
  pose proof (rok_bus _ Hok) as Hb. pose proof (rok_handles _ Hok) as Hs. rewrite Est in Hb, Hs. unfold detach_clients.
  set (observed := if cf_evidence_observer config then unsubscribe_client EVIDENCE_OBSERVER self else self).
  assert (Ho : rt_bus observed = rt_bus self /\ (forall c', rt_subscriptions observed c' = [])
      /\ rt_drivers observed = rt_drivers self /\ rt_supervisor observed = rt_supervisor self
      /\ rt_refresh_driver_failed observed = rt_refresh_driver_failed self
      /\ rt_calendar_monitor_failed observed = rt_calendar_monitor_failed self).
  { unfold observed. destruct (cf_evidence_observer config); [by apply unsubscribe_nothing|done]. }
  destruct Ho as (Ho1 & Ho & Ho3 & Ho4 & Ho5 & Ho6).
  set (shadowed := if cf_sector_shadow config then unsubscribe_client SECTOR_SHADOW observed else observed).
  assert (Hw : rt_bus shadowed = rt_bus observed /\ (forall c', rt_subscriptions shadowed c' = [])
      /\ rt_drivers shadowed = rt_drivers observed /\ rt_supervisor shadowed = rt_supervisor observed
      /\ rt_refresh_driver_failed shadowed = rt_refresh_driver_failed observed
      /\ rt_calendar_monitor_failed shadowed = rt_calendar_monitor_failed observed).
  { unfold shadowed. destruct (cf_sector_shadow config); [by apply unsubscribe_nothing|done]. }
  destruct Hw as (Hw1 & Hw & Hw3 & Hw4 & Hw5 & Hw6).
  destruct (unsubscribe_nothing SCANNER shadowed Hw) as (Hc1 & Hc & Hc3 & Hc4 & Hc5 & Hc6).
  destruct (unsubscribe_nothing MANAGER (unsubscribe_client SCANNER shadowed) Hc) as (Hm1 & Hm & Hm3 & Hm4 & Hm5 & Hm6).
  split_and!; [|done|congruence..]. intros t. rewrite Hm1, Hc1, Hw1. by rewrite Ho1, Hb.
Qed.

(** The tasks are all cancelled. *)
Lemma cancel_all_ok faults self : runtime_ok self -> rt_state self <> SHUTDOWN ->
  let stopped := settle faults (cancel_ingestion self) in
  runtime_ok stopped /\ rt_state stopped = rt_state self /\ (forall t, rt_drivers stopped t <> Some Pending)
  /\ ~ supervisor_alive (rt_supervisor stopped).
Proof.
  intros Hok Hn. cbv zeta. destruct (rt_state self) eqn:Est; [| |done].
  - destruct (rok_fresh _ Hok Est) as [Hsv Hdr]. unfold cancel_ingestion. rewrite Hsv. rewrite settle_idle by done.
    split_and!; try done; [by intros t; rewrite Hdr|by rewrite Hsv; intros [? [? _]]].
  - destruct (cancel_ingestion_ok self Hok Est) as (H1 & H2 & H3 & H4 & H5 & H6).
    destruct (settle_ok faults _ H1 H2) as (G1 & G2 & G3 & G4 & G5 & G6). split_and!; try done.
    + intros t. rewrite G6. by destruct (rt_drivers (cancel_ingestion self) t) as [[|how]|].
    + rewrite G5. intros [sv [Hsv Hp]]. rewrite (H6 _ Hsv) in Hp. done.
Qed.

(** [shutdown] as the composition of its three parts. *)
Lemma shutdown_shape faults self : rt_state self <> SHUTDOWN ->
  shutdown faults self = (with_lifecycle SHUTDOWN false (detach_clients (settle faults (cancel_ingestion self))),
    match cancel_errors faults self ++ (if cf_evidence_observer config then option_list (sf_finalize faults) else [])
    with [] => Ok tt | e :: _ => Raise e end).
Proof.
  intros Hn. unfold shutdown, shutdown_begin. rewrite bool_decide_false by done.
    assert (Hlc : forall state subscribed s, cancel_ingestion (with_lifecycle state subscribed s)
      = with_lifecycle state subscribed (cancel_ingestion s)).
    { intros state subscribed s. unfold cancel_ingestion. cbn. by destruct (rt_supervisor s). }
    rewrite Hlc. fold all_drivers. rewrite cancel_drivers_spec, settle_with_lifecycle.
    assert (Herr : cancel_errors faults (with_lifecycle SHUTDOWN (rt_manager_subscribed self) (cancel_ingestion self))
      = cancel_errors faults self).
    { unfold cancel_errors, cancel_error. cbn. unfold cancel_ingestion. by destruct (rt_supervisor self). }
    rewrite Herr. unfold detach_clients, shutdown_end.
    destruct (cf_evidence_observer config), (cf_sector_shadow config); rewrite ?app_nil_r; reflexivity.
Qed.

(** A shutdown of a runtime that has not been shut down. *)
Lemma shutdown_ok faults self : runtime_ok self -> rt_state self <> SHUTDOWN ->
  let errors := cancel_errors faults self ++ (if cf_evidence_observer config then option_list (sf_finalize faults) else []) in
  runtime_ok (shutdown faults self).1 /\ rt_state (shutdown faults self).1 = SHUTDOWN
  /\ (shutdown faults self).2 = match errors with [] => Ok tt | e :: _ => Raise e end.
Proof.
  intros Hok Hn. cbv zeta.
  rewrite (shutdown_shape faults self Hn). cbn [fst snd]. split; [|by split].
  destruct (cancel_all_ok faults self Hok Hn) as (H1 & H2 & H3 & H4). set (stopped := settle faults (cancel_ingestion self)) in *.
  destruct (detach_clients_ok stopped H1 ltac:(by rewrite H2)) as (G1 & G2 & G3 & G4 & G5 & G6).
  pose proof H1 as [A1 A2 A3 A4 A5 A6 A7 A8 A9 A10].
  clearbody stopped. set (gone := detach_clients stopped) in *. clearbody gone.
  split; cbn; rewrite ?G3, ?G4, ?G5, ?G6; done.
Qed.

(** ** Interleavings *)

(** The runtime as it was before its shutdown began. *)
Definition relabel (st : RuntimeState) (self : LiveMarketRuntime) : LiveMarketRuntime :=
  with_lifecycle st (bool_decide (st = STARTED)) self.

Lemma relabel_same self : runtime_ok self -> relabel (rt_state self) self = self.
Proof. intros Hok. unfold relabel, with_lifecycle. rewrite <- (rok_subscribed _ Hok). by destruct self. Qed.

Lemma start_begin_fresh self begun : start_begin self = Ok (Some begun) -> rt_state self = NOT_STARTED.
Proof. unfold start_begin. by destruct (rt_state self). Qed.

Lemma supervised_ok self sv input : runtime_ok self -> rt_supervisor self = Some sv ->
  runtime_ok (with_ingestion_task (rt_publisher self)
    (Some (supervise publish (cf_recovery_policy config) (Some (cf_session config)) sv input)) self).
Proof.
  intros Hok Hsv. destruct (rok_supervisor _ Hok sv Hsv) as (Hl & Hi & begun & ended & Hs). destruct (rt_state self) eqn:Est.
  - destruct (rok_fresh _ Hok Est) as [Hx _]. congruence.
  - apply with_supervisor_ok; try done. do 2 eexists. by apply step_ok.
  - destruct (rok_quiet _ Hok) as [Hq Hdead]; [by rewrite Est|].
    assert (Hend : exists how, sv_point sv = Ended how).
    { destruct (sv_point sv) as [| | |?|how] eqn:Ep; [..|by exists how]; destruct Hdead; exists sv; by rewrite Ep. }
    destruct Hend as [how Hp]. assert (Hsame : supervise publish (cf_recovery_policy config) (Some (cf_session config)) sv input = sv).
    { unfold supervise. rewrite Hp. by destruct input. }
    rewrite Hsame. destruct Hok as [A1 A2 A3 A4 A5 A6 A7 A8 A9 A10]. rewrite Est in *.
    split; cbn; rewrite ?Est; try done; rewrite <- ?Hsv; done.
Qed.

Lemma driver_ends_ok self t how : runtime_ok self -> rt_drivers self t = Some Pending ->
  runtime_ok (with_driver t (Done how) self).
Proof.
  intros Hok Ht. apply with_driver_ok; try done; [|by apply (rok_configured _ Hok); rewrite Ht].
  destruct (decide (rt_state self = STARTED)) as [|Hns]; [done|]. destruct (rok_quiet _ Hok Hns) as [Hq _]. by destruct (Hq t).
Qed.

Lemma continuity_ok self event : runtime_ok self -> runtime_ok (runtime_on_feed_continuity event self).
Proof.
  intros Hok. unfold runtime_on_feed_continuity. destruct Hok as [A1 A2 A3 A4 A5 A6 A7 A8 A9 A10].
  destruct (rt_supervisor self) as [sv|] eqn:Es.
  - split; cbn; try done.
    + intros Hns. destruct (A5 Hns) as [Hq Hd]. split; [done|]. intros (sv' & [= <-] & Hp). apply Hd. exists sv. done.
    + intros Hns. by destruct (A6 Hns).
    + intros sv' [= <-]. destruct (A8 sv eq_refl) as (Hl & Hi & begun & ended & [B1 B2 B3 B4 B5]).
      split_and!; try done. exists begun, ended. split; done.
  - split; cbn; try done.
Qed.

(** Of the tasks, only the given ones may still run. *)
Definition only_running (tasks : list (option DriverTask)) (self : LiveMarketRuntime) : Prop :=
  (forall t, rt_drivers self t = Some Pending -> Some t ∈ tasks)
  /\ (supervisor_alive (rt_supervisor self) -> None ∈ tasks).

(** No client is on the bus, and nobody holds a subscription. *)
Definition detached (self : LiveMarketRuntime) : Prop :=
  rt_state self = SHUTDOWN /\ rt_manager_subscribed self = false
  /\ (forall t, handlers_of (rt_bus self) t = []) /\ forall c, rt_subscriptions self c = [].

(** What a start that waits will make does not exist yet. *)
Definition before_ingestion (self : LiveMarketRuntime) : Prop :=
  rt_supervisor self = None /\ rt_drivers self REFRESH_DRIVER = None /\ rt_drivers self CALENDAR_MONITOR = None.

(** The invariant of a runtime under way, by the phase of its shutdown. *)
Definition world_ok (w : RuntimeWorld) : Prop :=
  let self := w_runtime w in
  (w_start_waits w = true -> before_ingestion self /\ rt_state self <> NOT_STARTED)
  /\ match w_shutdown w with
     | NotCalled => runtime_ok self /\ rt_state self <> SHUTDOWN /\ w_late w = false
     | Cancelling remaining _ => rt_state self = SHUTDOWN
         /\ (exists st, st <> SHUTDOWN /\ runtime_ok (relabel st self) /\ (w_start_waits w = true -> st = STARTED))
         /\ (w_late w = false -> only_running remaining self)
     | Returned _ => detached self /\ (w_late w = false -> only_running [] self)
     end.

Lemma owned_tasks_all self : only_running (owned_tasks self) self.
Proof.
  unfold owned_tasks. split.
  - intros t Ht. apply elem_of_app. right. apply list_elem_of_In, in_map, List.filter_In.
    rewrite Ht. split; [|done]. destruct t; cbn; tauto.
  - intros (sv & -> & _). left.
Qed.

(** A cancelled task has ended; the others are as they were. *)
Lemma cancel_task_running faults task remaining self errors :
  only_running (task :: remaining) self -> only_running remaining (cancel_task faults (self, errors) task).1.
Proof.
  intros [Hd Hs]. destruct task as [t|]; cbn [cancel_task].
  - unfold cancel_driver. destruct (rt_drivers self t) as [[|how]|] eqn:Et; cbn; (split; cbn;
      [intros t'|by intros Ha%Hs; apply elem_of_cons in Ha as [|]]).
    + case_decide; [done|]. intros Hx%Hd. apply elem_of_cons in Hx as [[= ->]|]; done.
    + intros Hx. pose proof (Hd _ Hx) as Hin. apply elem_of_cons in Hin as [[= ->]|]; [congruence|done].
    + intros Hx. pose proof (Hd _ Hx) as Hin. apply elem_of_cons in Hin as [[= ->]|]; [congruence|done].
  - cbn. unfold cancel_ingestion. destruct (rt_supervisor self) as [sv|] eqn:Es; (split; cbn;
      [intros t Hx%Hd; by apply elem_of_cons in Hx as [|]|intros (sv' & Hsv & Hp)]).
    + injection Hsv as <-. by rewrite cancelled_done in Hp.
    + congruence.
Qed.

Lemma cancel_task_ok faults task self errors : runtime_ok self -> runtime_ok (cancel_task faults (self, errors) task).1.
Proof.
  intros Hok. destruct task as [t|]; cbn [cancel_task fst].
  - unfold cancel_driver. destruct (rt_drivers self t) as [[|how]|] eqn:Et; [by apply driver_ends_ok|done|done].
  - unfold cancel_ingestion. destruct (rt_supervisor self) as [sv|] eqn:Es; [by apply supervised_ok|done].
Qed.

Lemma cancel_task_relabel faults task st self errors :
  (cancel_task faults (relabel st self, errors) task).1 = relabel st (cancel_task faults (self, errors) task).1.
Proof.
  destruct task as [t|]; cbn [cancel_task fst]; unfold cancel_driver, cancel_ingestion; cbn.
  - by destruct (rt_drivers self t) as [[|how]|].
  - by destruct (rt_supervisor self).
Qed.

Lemma cancel_task_frame faults task self errors :
  rt_state (cancel_task faults (self, errors) task).1 = rt_state self
  /\ (before_ingestion self -> before_ingestion (cancel_task faults (self, errors) task).1).
Proof.
  destruct task as [t|]; cbn [cancel_task fst]; unfold cancel_driver, cancel_ingestion.
  - destruct (rt_drivers self t) as [[|how]|] eqn:Et; [|done..]. split; [done|]. intros (H1 & H2 & H3).
    unfold before_ingestion. cbn. split_and!; [done|case_decide; congruence..].
  - destruct (rt_supervisor self) eqn:Es; [|done]. split; [done|]. intros (H1 & _). congruence.
Qed.

Lemma shutdown_end_ok faults st self errors : st <> SHUTDOWN -> runtime_ok (relabel st self) ->
  let stopped := (shutdown_end faults (self, errors)).1 in
  detached stopped /\ rt_drivers stopped = rt_drivers self /\ rt_supervisor stopped = rt_supervisor self.
Proof.
  intros Hst Hok. destruct (detach_clients_ok _ Hok Hst) as (G1 & G2 & G3 & G4 & _ & _).
  assert (Hc : detach_clients (relabel st self) = relabel st (detach_clients self)).
  { unfold detach_clients. by destruct (cf_evidence_observer config), (cf_sector_shadow config). }
  rewrite Hc in *. cbv zeta.
  assert (He : (shutdown_end faults (self, errors)).1 = with_lifecycle SHUTDOWN false (detach_clients self)).
  { unfold shutdown_end, detach_clients. by destruct (cf_evidence_observer config), (cf_sector_shadow config). }
  rewrite He. split; [|by split]. split; [done|]. split; [done|]. by split.
Qed.

(** A start that resumes. *)
Lemma start_finish_relabel st self : start_finish (relabel st self) = relabel st (start_finish self).
Proof. unfold start_finish. by destruct (cf_session_statistics_refresh config), (cf_calendar_monitor config). Qed.

Lemma start_finish_frame self : rt_state (start_finish self) = rt_state self
  /\ rt_manager_subscribed (start_finish self) = rt_manager_subscribed self
  /\ rt_bus (start_finish self) = rt_bus self /\ rt_subscriptions (start_finish self) = rt_subscriptions self.
Proof. unfold start_finish. by destruct (cf_session_statistics_refresh config), (cf_calendar_monitor config). Qed.

Lemma resumed_ok self : runtime_ok self -> rt_state self = STARTED -> before_ingestion self ->
  runtime_ok (start_finish self).
Proof. intros Hok Hst (H1 & H2 & H3). by apply start_finish_ok. Qed.

(** A change of the runtime that starts no task and leaves the lifecycle and the clients
    alone keeps the invariant of every phase. *)
Lemma quiet_change_ok w self : world_ok w ->
  rt_state self = rt_state (w_runtime w) ->
  rt_manager_subscribed self = rt_manager_subscribed (w_runtime w) ->
  rt_bus self = rt_bus (w_runtime w) -> rt_subscriptions self = rt_subscriptions (w_runtime w) ->
  (forall st, runtime_ok (relabel st (w_runtime w)) -> runtime_ok (relabel st self)) ->
  (runtime_ok (w_runtime w) -> runtime_ok self) ->
  (forall t, rt_drivers self t = Some Pending -> rt_drivers (w_runtime w) t = Some Pending) ->
  (supervisor_alive (rt_supervisor self) -> supervisor_alive (rt_supervisor (w_runtime w))) ->
  (before_ingestion (w_runtime w) -> before_ingestion self) ->
  world_ok (with_runtime self w).
Proof.
  intros [Hw Hp] E1 E2 E3 E4 Hr Hok Hd Hs Hb. split; cbn [w_runtime with_runtime w_start_waits].
  - intros Hx. destruct (Hw Hx) as [Hx1 Hx2]. split; [auto|]. by rewrite E1.
  - cbn. destruct (w_shutdown w) as [|remaining errors|res].
    + destruct Hp as (H1 & H2 & H3). split_and!; [auto|by rewrite E1|done].
    + destruct Hp as (H1 & (st & Hst & Hx & Hy) & H3). split_and!; [by rewrite E1|exists st; by auto|].
      intros Hl. destruct (H3 Hl) as [G1 G2]. split; auto.
    + destruct Hp as ((H1 & H2 & H3 & H4) & H5). unfold detached. rewrite E1, E2, E3, E4. split; [done|].
      intros Hl. destruct (H5 Hl) as [G1 G2]. split; auto.
Qed.

Lemma supervise_dead policy session (sv : Supervisor) input :
  task_done (sv_point (supervise publish policy session sv input)) = false -> task_done (sv_point sv) = false.
Proof. unfold supervise. destruct (sv_point sv) eqn:E; cbn; try done. destruct input; by rewrite ?E. Qed.

Lemma continuity_world w event : world_ok w ->
  world_ok (with_runtime (runtime_on_feed_continuity event (w_runtime w)) w).
Proof.
  intros Hw. assert (Hc : forall st self, relabel st (runtime_on_feed_continuity event self)
    = runtime_on_feed_continuity event (relabel st self)).
  { intros st self. unfold runtime_on_feed_continuity. cbn. by destruct (rt_supervisor self). }
  apply quiet_change_ok; try done.
  1-4: unfold runtime_on_feed_continuity; by destruct (rt_supervisor _).
  - intros st Hok. rewrite Hc. by apply continuity_ok.
  - apply continuity_ok.
  - intros t. unfold runtime_on_feed_continuity. by destruct (rt_supervisor _).
  - unfold runtime_on_feed_continuity. destruct (rt_supervisor (w_runtime w)) as [sv|] eqn:Es; cbn; [|by intros [? [? _]]].
    intros (sv' & [= <-] & Hp). by exists sv.
  - intros (H1 & H2 & H3). unfold runtime_on_feed_continuity, before_ingestion. by rewrite H1.
Qed.

(** The shutdown takes its next step. *)
Lemma shutdown_step_ok w w' : world_ok w ->
  (exists faults task remaining errors, w_shutdown w = Cancelling (task :: remaining) errors
    /\ w' = {| w_runtime := (cancel_task faults (w_runtime w, errors) task).1; w_start_waits := w_start_waits w;
               w_late := w_late w; w_shutdown := Cancelling remaining (cancel_task faults (w_runtime w, errors) task).2 |})
  \/ (exists faults errors, w_shutdown w = Cancelling [] errors
    /\ w' = {| w_runtime := (shutdown_end faults (w_runtime w, errors)).1; w_start_waits := w_start_waits w;
               w_late := w_late w; w_shutdown := Returned (shutdown_end faults (w_runtime w, errors)).2 |}) ->
  world_ok w'.
Proof.
  intros [Hw Hp] [(faults & task & remaining & errors & Hx & ->)|(faults & errors & Hx & ->)]; rewrite Hx in Hp.
  - destruct Hp as (H1 & (st & Hst & Hok & Hy) & H3).
    destruct (cancel_task_frame faults task (w_runtime w) errors) as [F1 F2]. split; cbn.
    + intros Hs. destruct (Hw Hs) as [Hb _]. split; [auto|]. by rewrite F1, H1.
    + split_and!; [by rewrite F1| |].
      * exists st. split_and!; [done| |done]. rewrite <- cancel_task_relabel. by apply cancel_task_ok.
      * intros Hl. by apply cancel_task_running, H3.
  - destruct Hp as (H1 & (st & Hst & Hok & Hy) & H3).
    destruct (shutdown_end_ok faults st (w_runtime w) errors Hst Hok) as (D1 & D2 & D3).
    split; cbn [w_runtime w_start_waits w_shutdown w_late].
    + intros Hs. destruct (Hw Hs) as [Hb _]. unfold before_ingestion. rewrite D2, D3. split; [done|].
      destruct D1 as (-> & _). done.
    + split; [done|]. intros Hl. unfold only_running. rewrite D2, D3. by apply H3.
Qed.

(** A start begins, resumes or is cancelled. *)
Lemma start_begins_ok w begun : world_ok w -> start_begin (w_runtime w) = Ok (Some begun) ->
  world_ok {| w_runtime := begun; w_start_waits := true; w_late := w_late w; w_shutdown := w_shutdown w |}.
Proof.
  intros [_ Hp] Hb. pose proof (start_begin_fresh _ _ Hb) as Hst.
  destruct (w_shutdown w) as [|remaining errors|res] eqn:Es; [|destruct Hp as [Hx _]; congruence|].
  2: { destruct Hp as [(Hx & _) _]. congruence. }
  destruct Hp as (Hok & _ & Hl).
  destruct (runtime_start_begin_ok _ Hok Hst) as (begun' & Hb' & Hok' & Hst' & Hsv & _ & _ & Hd).
  assert (begun' = begun) as -> by congruence. split; cbn.
  - intros _. split; [|by rewrite Hst']. unfold before_ingestion. by rewrite !Hd.
  - rewrite ?Es. split_and!; [done|by rewrite Hst'|done].
Qed.

Lemma start_resumes_ok w : world_ok w -> w_start_waits w = true ->
  world_ok {| w_runtime := start_finish (w_runtime w); w_start_waits := false;
    w_late := bool_decide (rt_state (w_runtime w) = SHUTDOWN); w_shutdown := w_shutdown w |}.
Proof.
  intros [Hw Hp] Hs. destruct (Hw Hs) as [Hb Hn]. destruct (start_finish_frame (w_runtime w)) as (F1 & F2 & F3 & F4).
  split; [done|]. cbn. destruct (w_shutdown w) as [|remaining errors|res].
  - destruct Hp as (Hok & Hns & Hl).
    assert (Hst : rt_state (w_runtime w) = STARTED) by (by destruct (rt_state (w_runtime w))).
    split_and!; [by apply resumed_ok|by rewrite F1|by rewrite Hst].
  - destruct Hp as (H1 & (st & Hst & Hok & Hy) & H3). rewrite H1, bool_decide_true by done.
    split; [by rewrite F1|split; [|done]]. exists STARTED. split; [done|split; [|done]].
    rewrite <- start_finish_relabel. rewrite (Hy Hs) in Hok. by apply resumed_ok.
  - destruct Hp as ((H1 & H2 & H3 & H4) & H5). rewrite H1, bool_decide_true by done. split; [|done].
    unfold detached. by rewrite F1, F2, F3, F4.
Qed.

Lemma world_step_ok w w' : world_ok w -> runtime_step w w' -> world_ok w'.
Proof.
  intros Hok Hstep. destruct Hstep as [w begun Hb|w Hs|w Hs|w Hn|w faults task remaining errors Hx|w faults errors Hx
    |w sv input Hsv|w t how Ht|w event].
  - by apply start_begins_ok.
  - by apply start_resumes_ok.
  - destruct Hok as [_ Hp]. split; [done|]. cbn. destruct (w_shutdown w); [done| |done].
    destruct Hp as (H1 & (st & Hst & Hr & _) & H3). split_and!; [done|by exists st|done].
  - destruct Hok as [Hw Hp]. split; cbn.
    + intros Hx. destruct (Hw Hx) as [Hb _]. by split.
    + destruct (w_shutdown w); [|by destruct Hp|by destruct Hp as [(? & _) _]]. destruct Hp as (Hr & _ & _).
      split_and!; [done| |intros _; exact (owned_tasks_all (w_runtime w))]. exists (rt_state (w_runtime w)). split_and!; [done| |].
      * change (runtime_ok (relabel (rt_state (w_runtime w)) (w_runtime w))). by rewrite relabel_same.
      * intros Hx. destruct (Hw Hx) as [_ Hst]. by destruct (rt_state (w_runtime w)).
  - eapply shutdown_step_ok; [exact Hok|]. left. eauto 6.
  - eapply shutdown_step_ok; [exact Hok|]. right. eauto.
  - apply quiet_change_ok; try done.
    + intros st Hr. by apply (supervised_ok (relabel st (w_runtime w)) sv input Hr).
    + intros Hr. by apply supervised_ok.
    + intros (sv' & [= <-] & Hp). exists sv. split; [done|]. by eapply supervise_dead.
    + intros (Hx & _). congruence.
  - apply quiet_change_ok; try done.
    + intros st Hr. by apply (driver_ends_ok (relabel st (w_runtime w)) t how Hr).
    + intros Hr. by apply driver_ends_ok.
    + intros t'. cbn. case_decide; [done|]. done.
    + intros (H1 & H2 & H3). unfold before_ingestion. cbn. split_and!; [done|case_decide; congruence..].
  - by apply continuity_world.
Qed.

Lemma runtime_reachable_ok w : runtime_reachable w -> world_ok w.
Proof.
  induction 1 as [engine publisher|w w' _ IH Hstep]; [|by eapply world_step_ok].
  split; [done|]. cbn. split_and!; [apply mk_runtime_ok|done|done].
Qed.

Lemma not_started_ok w : runtime_reachable w -> rt_state (w_runtime w) = NOT_STARTED -> runtime_ok (w_runtime w).
Proof.
  intros [_ Hp]%runtime_reachable_ok Hst. destruct (w_shutdown w); [apply Hp|destruct Hp as [Hx _]; congruence|].
  destruct Hp as [(Hx & _) _]. congruence.
Qed.

(** ** Fatal flags *)

Definition fatal_kept (a b : LiveMarketRuntime) : Prop :=
  (rt_refresh_driver_failed a = true -> rt_refresh_driver_failed b = true)
  /\ (ig_failed (ingestion_of a) = true -> ig_failed (ingestion_of b) = true).

Lemma wait_keeps_failed rd (sv : Supervisor) policy session : ig_failed (sv_ingestion sv) = true ->
  ig_failed (sv_ingestion (wait_before_recovery policy session rd sv)) = true.
Proof.
  intros H. unfold wait_before_recovery. destruct (negb _); [done|]. by destruct (delay_for_failure _ _ _).
Qed.

Lemma end_run_keeps_failed error rd (sv : Supervisor) policy session : ig_failed (sv_ingestion sv) = true ->
  ig_failed (sv_ingestion (end_run policy session error rd sv)) = true.
Proof. intros H. unfold end_run. destruct (is_cancellation error); [done|]. by apply wait_keeps_failed. Qed.

Lemma supervise_keeps_failed policy session (sv : Supervisor) input : ig_failed (sv_ingestion sv) = true ->
  ig_failed (sv_ingestion (supervise publish policy session sv input)) = true.
Proof.
  intros H. unfold supervise. destruct (sv_point sv), input as [|datum rx now ob rd|error rd|rd|];
    try exact H; try (by apply end_run_keeps_failed); try (by apply wait_keeps_failed).
  assert (Hd : ig_failed (sv_ingestion (dispatch publish datum rx now ob sv).1) = true).
  { unfold dispatch. destruct (engine_input datum) as [x|]; [|done]. by destruct (process _ _ _ _ _) as [[? ?] ?]. }
  destruct (dispatch publish datum rx now ob sv) as [sv' [[]|e]]; [|by apply end_run_keeps_failed].
  by destruct (publish_shadow _ _) as [p [|]].
Qed.

Lemma cancel_task_keeps_fatal faults task self errors : fatal_kept self (cancel_task faults (self, errors) task).1.
Proof.
  destruct task as [t|]; cbn [cancel_task fst]; unfold cancel_driver, cancel_ingestion.
  - destruct (rt_drivers self t) as [[|how]|]; try done. split; [|done]. cbn. by intros ->.
  - destruct (rt_supervisor self) as [sv|] eqn:Es; [|done]. split; [done|].
    unfold ingestion_of. rewrite Es. cbn. apply supervise_keeps_failed.
Qed.

Lemma shutdown_end_keeps_fatal faults self errors : fatal_kept self (shutdown_end faults (self, errors)).1.
Proof.
  assert (Hu : forall c s, fatal_kept s (unsubscribe_client c s)).
  { intros c s. unfold unsubscribe_client. by destruct (detach _ _). }
  unfold shutdown_end. destruct (cf_evidence_observer config), (cf_sector_shadow config); cbn; (split;
    [unfold unsubscribe_client; by repeat destruct (detach _ _)|unfold ingestion_of, unsubscribe_client; by repeat destruct (detach _ _)]).
Qed.

(** A fatal flag is never taken back. *)
Lemma fatal_sticks w w' : world_ok w -> runtime_step w w' -> fatal_kept (w_runtime w) (w_runtime w').
Proof.
  intros [Hw _] Hstep. destruct Hstep as [w begun Hb|w Hs|w Hs|w Hn|w faults task remaining errors Hx|w faults errors Hx
    |w sv input Hsv|w t how Ht|w event]; cbn [w_runtime with_runtime]; try done.
  - unfold start_begin in Hb. destruct (rt_state (w_runtime w)); [|done..]. injection Hb as <-.
    unfold fatal_kept, ingestion_of, subscribe_client.
    destruct (cf_evidence_observer config), (cf_sector_shadow config);
      repeat destruct (attach _ _ _); cbn; rewrite ?orb_false_r; done.
  - destruct (Hw Hs) as [(H1 & H2 & H3) _]. unfold fatal_kept, ingestion_of. rewrite H1. split; [|done].
    unfold start_finish. destruct (cf_session_statistics_refresh config), (cf_calendar_monitor config); cbn; rewrite ?orb_false_r; done.
  - apply cancel_task_keeps_fatal.
  - apply shutdown_end_keeps_fatal.
  - split; [done|]. unfold ingestion_of. rewrite Hsv. cbn. apply supervise_keeps_failed.
  - split; [|done]. cbn. by intros ->.
  - unfold runtime_on_feed_continuity, fatal_kept, ingestion_of. by destruct (rt_supervisor (w_runtime w)) as [sv|].
Qed.

(** However start, ingestion and the drivers interleave, until a shutdown begins: the bus
    carries exactly the configured clients from the beginning of the start on and nobody
    before it; tasks exist only where they are configured and after the start has begun;
    ingestion keeps its books; and the fatal flags are set exactly by an end that was no
    cancellation. *)
Theorem runtime_invariant w : runtime_reachable w -> w_shutdown w = NotCalled -> runtime_ok (w_runtime w).
Proof. intros [_ Hp]%runtime_reachable_ok Hs. rewrite Hs in Hp. apply Hp. Qed.

(** [C10] Shutting down leaves nothing behind, whatever its tasks and observers raise.  A
    shutdown that runs through from any reachable state, also in the middle of a start,
    detaches every client, ends every task, and raises the first error after everything is
    cleaned up.  A shutdown whose waits are interleaved with anything else has, from the
    moment it returns on, detached every client; a second shutdown does nothing, a start is
    refused, and no task runs unless a start that was still waiting when the shutdown began
    was resumed after that. *)
Theorem shutdown_leaves_nothing w : runtime_reachable w ->
  let self := w_runtime w in
  (forall faults, w_shutdown w = NotCalled ->
     let '(stopped, res) := shutdown faults self in
     detached stopped /\ only_running [] stopped
     /\ res = match cancel_errors faults self
                    ++ (if cf_evidence_observer config then option_list (sf_finalize faults) else [])
              with [] => Ok tt | e :: _ => Raise e end)
  /\ (forall res, w_shutdown w = Returned res ->
     detached self /\ (w_late w = false -> only_running [] self)
     /\ (forall faults, shutdown faults self = (self, Ok tt))
     /\ forall manager_start, start manager_start self = (self, Raise RuntimeLifecycleError)).
Proof.
  intros [_ Hp]%runtime_reachable_ok. cbv zeta. split.
  - intros faults Hs. rewrite Hs in Hp. destruct Hp as (Hok & Hn & _). rewrite (shutdown_shape faults _ Hn).
    destruct (cancel_all_ok faults _ Hok Hn) as (H1 & H2 & H3 & H4).
    destruct (detach_clients_ok _ H1 ltac:(by rewrite H2)) as (G1 & G2 & G3 & G4 & _).
    split; [split; [done|split; [done|by split]]|split; [|done]].
    split; cbn [with_lifecycle rt_drivers rt_supervisor]; rewrite ?G3, ?G4; [by intros t Ht%H3|by intros Ha%H4].
  - intros res Hs. rewrite Hs in Hp. destruct Hp as [Hd Hq]. pose proof Hd as (Hst & _).
    split; [exact Hd|split; [exact Hq|split]].
    + intros faults. unfold shutdown. by rewrite bool_decide_true.
    + intros manager_start. unfold start, start_begin. by rewrite Hst.
Qed.

(** A start that is not cancelled runs what is configured: every client is subscribed before
    any task exists, and the ingestion supervisor (when there is a source and a universe)
    and each configured driver are pending. *)
Theorem start_runs_everything manager_start w : let self := w_runtime w in runtime_reachable w -> rt_state self = NOT_STARTED ->
  start_strategies (cf_autostart_strategy_ids config) manager_start = Ok tt ->
  let '(started, res) := start manager_start self in
  res = Ok tt /\ rt_state started = STARTED
  /\ (forall t, rt_drivers started t
       = if match t with
            | REFRESH_DRIVER => cf_session_statistics_refresh config
            | CALENDAR_MONITOR => cf_calendar_monitor config
            | OBSERVER_TASK => cf_evidence_observer config
            | SHADOW_TASK => cf_sector_shadow config
            end then Some Pending else None)
  /\ (st_ingestion_running (status started) = true
       <-> cf_live_market_data config = true /\ cf_instruments config <> []).
Proof.
  intros self Hr Hst Hms. pose proof (not_started_ok w Hr Hst) as Hok. fold self in Hok.
  unfold start. destruct (runtime_start_begin_ok self Hok Hst) as (begun & -> & Hb & Hsb & Hsv & _ & _ & Hd). rewrite Hms.
  destruct (start_finish_ok begun Hb Hsb Hsv ltac:(by rewrite Hd) ltac:(by rewrite Hd)) as (H1 & H2 & H3 & H4).
  split_and!; [done|done| |].
  - intros t. rewrite H3. destruct t; rewrite ?Hd; done.
  - cbn. unfold ingestion_alive, ingestion_of. rewrite H4. destruct (cf_live_market_data config); cbn [andb].
    + case_bool_decide; cbn; [|split; [done|by intros [_ ?]]]. split; [done|]. intros _. apply bool_decide_eq_true. left.
    + split; [done|by intros [? _]].
Qed.
End Runtime.

(** ** At a concrete runtime *)

Definition sample_config : RuntimeConfig := {|
  cf_instruments := [cash_equity "RELIANCE"]; cf_live_market_data := true; cf_session_statistics_refresh := true;
  cf_calendar_monitor := true; cf_evidence_observer := true; cf_sector_shadow := true;
  cf_autostart_strategy_ids := ["narrow_cpr"%string]; cf_recovery_policy := default_recovery_policy;
  cf_session := nse_classifier |}.

Definition new_runtime : LiveMarketRuntime := mk_runtime no_engine (@None unit).
Definition started_runtime : LiveMarketRuntime :=
  (start sample_config (fun _ => Some (StrategyNotFoundError "narrow_cpr")) new_runtime).1.
Definition no_faults : ShutdownFaults := {| sf_cancel := fun _ => TaskCancelled; sf_finalize := None |}.

(** The runtime of the sample configuration after a start. *)
Definition started_world : RuntimeWorld := {|
  w_runtime := started_runtime; w_start_waits := false; w_late := false; w_shutdown := NotCalled |}.

Lemma started_reachable : runtime_reachable (fun _ => None) sample_config started_world.
Proof.
  eapply reachable_step; [eapply reachable_step; [apply (reachable_new _ _ no_engine None)|]|].
  - by eapply step_start_begins.
  - exact (step_start_resumes _ sample_config {| w_runtime := _; w_start_waits := true; w_late := false; w_shutdown := NotCalled |} eq_refl).
Qed.

Lemma runtime_invariant_witness : runtime_ok sample_config started_runtime.
Proof. apply (runtime_invariant (fun _ => None) sample_config started_world); [exact started_reachable|done]. Defined.

Lemma shutdown_leaves_nothing_witness :
  let faults := {| sf_cancel := fun t => match t with REFRESH_DRIVER => TaskFinished (Some InvalidOperation) | _ => TaskCancelled end;
                   sf_finalize := Some OSError |} in
  let '(stopped, res) := shutdown (fun _ => None) sample_config faults started_runtime in
  res = Raise InvalidOperation /\ detached stopped /\ only_running [] stopped.
Proof.
  intros faults. destruct (shutdown_leaves_nothing (fun _ => None) sample_config started_world started_reachable) as [H _].
  specialize (H faults eq_refl). cbn [started_world w_runtime] in H.
  destruct (shutdown (fun _ => None) sample_config faults started_runtime) as [stopped res].
  destruct H as (H1 & H2 & ->). split_and!; [reflexivity|exact H1|exact H2].
Defined.

Lemma start_runs_everything_witness :
  rt_state started_runtime = STARTED /\ forall t, rt_drivers started_runtime t = Some Pending.
Proof.
  pose proof (start_runs_everything (fun _ => None) sample_config (fun _ => Some (StrategyNotFoundError "narrow_cpr"))
    (new_world no_engine None) (reachable_new _ _ _ _) eq_refl eq_refl) as H.
  unfold started_runtime, new_runtime. cbn [new_world w_runtime] in H.
  destruct (start _ _ _) as [started res]. destruct H as (_ & H2 & H3 & _).
  split; [done|]. intros t. rewrite H3. by destruct t.
Defined.

(** A shutdown that falls into a start, while it waits for a strategy to warm up, takes away
    nothing the start creates afterwards: the runtime is shut down and its ingestion and
    drivers run on. *)
Lemma shutdown_during_start_leaks :
  exists begun, start_begin sample_config new_runtime = Ok (Some begun)
  /\ let stopped := (shutdown (fun _ => None) sample_config no_faults begun).1 in
     let resumed := start_finish sample_config stopped in
     rt_state resumed = SHUTDOWN /\ ingestion_alive resumed = true
     /\ driver_running resumed REFRESH_DRIVER = true /\ driver_running resumed CALENDAR_MONITOR = true
     /\ shutdown (fun _ => None) sample_config no_faults resumed = (resumed, Ok tt).
Proof. eexists. split; [reflexivity|]. cbv zeta. split_and!; vm_compute; reflexivity. Qed.
