(* ===== verification/SessionRefresh.v ===== *)
(** Refreshing session statistics during the session: services/session_statistics_refresh.py
    (one batch), session_statistics_activation.py (demand and cadence) and
    session_statistics_driver.py (the session gate).

    The source is an argument that answers with observations or raises; observations are
    staged into the registry of [TickEngine].  Concurrent calls of [refresh_if_due] are a
    step relation over the lock; the driver, which calls it alone, is a function of the
    clock readings.  The coordinator is the [RefreshControl] the strategy manager configures.

    The theorems say what a batch stages, that refreshes keep the cadence whatever calls,
    failures and cancellations interleave, and what a driver cycle does in each phase. *)
From S2P Require Import Prelude PyTime PyDate MarketData Session SessionStatistics TickEngine StrategyManager PyNumber DhanWire DhanNormalizer DhanRest.

Local Open Scope Z_scope.

(** * One batch *)

Record SessionStatisticsRefreshOutcome : Type := {
  ro_trading_date : date;
  ro_observed_at : instant;
  ro_requested_count : nat;
  ro_observation_count : nat;
  ro_staged_count : nat;
}.

(** [_deduplicated_ordered] *)
Definition deduplicated_ordered (instruments : list Instrument) : list Instrument :=
  py_sorted (fun a b => strings_leb [exchange a; symbol a] [exchange b; symbol b]) (from_keys [] instruments).

(** The loop of [_validate_source_result]. *)
Fixpoint validate_observations (requested : list Instrument) (trading_date : date) (seen : list Instrument)
    (observations : list SessionStatisticsObservation) : result unit :=
  match observations with
  | [] => Ok tt
  | o :: observations =>
      _ ← raise_if (negb (bool_decide (obs_instrument o ∈ requested))) ProviderContractViolationError;
      _ ← raise_if (bool_decide (obs_instrument o ∈ seen)) ProviderContractViolationError;
      _ ← raise_if (negb (obs_trading_date o =? trading_date)) ProviderContractViolationError;
      validate_observations requested trading_date (obs_instrument o :: seen) observations
  end.

(** [_validate_source_result] *)
Definition validate_source_result (observations : list SessionStatisticsObservation) (requested : list Instrument)
    (trading_date : date) : result unit := validate_observations requested trading_date [] observations.

(** The staging loop; an error leaves what was staged before it. *)
Fixpoint stage_all (observations : list SessionStatisticsObservation) (registry : InstrumentStateRegistry)
    : InstrumentStateRegistry * result unit :=
  match observations with
  | [] => (registry, Ok tt)
  | o :: observations =>
      let '(registry, res) := stage_session_statistics_observation registry (obs_instrument o) o in
      match res with Ok _ => stage_all observations registry | Raise e => (registry, Raise e) end
  end.

Definition observation_leb (a b : SessionStatisticsObservation) : bool :=
  strings_leb [exchange (obs_instrument a); symbol (obs_instrument a)] [exchange (obs_instrument b); symbol (obs_instrument b)].

(** [load_session_statistics] of a [SessionStatisticsSource]. *)
Abbreviation StatisticsSource := (list Instrument -> date -> instant -> result (list SessionStatisticsObservation)).

(** [SessionStatisticsRefreshService.refresh]; [observed_at] is its clock reading. *)
Definition refresh (source : StatisticsSource) (registry : InstrumentStateRegistry) (instruments : list Instrument)
    (trading_date : date) (observed_at : instant)
    : InstrumentStateRegistry * result SessionStatisticsRefreshOutcome :=
  let requested := deduplicated_ordered instruments in
  let outcome count := {| ro_trading_date := trading_date; ro_observed_at := observed_at;
    ro_requested_count := length requested; ro_observation_count := count; ro_staged_count := count |} in
  if bool_decide (requested = []) then (registry, Ok (outcome 0%nat))
  else match source requested trading_date observed_at with
  | Raise e => (registry, Raise e)
  | Ok observations =>
      match validate_source_result observations requested trading_date with
      | Raise e => (registry, Raise e)
      | Ok _ =>
          let '(registry, res) := stage_all (py_sorted observation_leb observations) registry in
          (registry, match res with Ok _ => Ok (outcome (length observations)) | Raise e => Raise e end)
      end
  end.

(** * Demand and cadence *)

Record SessionStatisticsRefreshCoordinator : Type := {
  sr_instruments : list Instrument;
  sr_max_age : option timedelta;
  sr_last_reference : option instant;
}.

Definition mk_refresh_coordinator (instruments : list Instrument) : SessionStatisticsRefreshCoordinator :=
  {| sr_instruments := instruments; sr_max_age := None; sr_last_reference := None |}.

(** [configure] *)
Definition configure_refresh (max_age : option timedelta) (self : SessionStatisticsRefreshCoordinator)
    : SessionStatisticsRefreshCoordinator :=
  {| sr_instruments := sr_instruments self; sr_max_age := max_age; sr_last_reference := sr_last_reference self |}.

(** The port the strategy manager drives. *)
#[export] Instance refresh_coordinator_control : RefreshControl SessionStatisticsRefreshCoordinator :=
  fun self max_age => Ok (configure_refresh max_age self).

Definition set_last_reference (reference : option instant) (self : SessionStatisticsRefreshCoordinator)
    : SessionStatisticsRefreshCoordinator :=
  {| sr_instruments := sr_instruments self; sr_max_age := sr_max_age self; sr_last_reference := reference |}.

(** [_is_due] *)
Definition is_due (self : SessionStatisticsRefreshCoordinator) (reference : instant) : bool :=
  match sr_max_age self, sr_last_reference self with
  | None, _ => false
  | Some _, None => true
  | Some max_age, Some last => max_age <=? reference - last
  end.

(** [refresh_if_due] while nobody else calls it. *)
Definition refresh_if_due (source : StatisticsSource) (reference : instant) (trading_date : date) (observed_at : instant)
    (self : SessionStatisticsRefreshCoordinator) (registry : InstrumentStateRegistry)
    : SessionStatisticsRefreshCoordinator * InstrumentStateRegistry * result bool :=
  if negb (is_due self reference) then (self, registry, Ok false)
  else
    let previous := sr_last_reference self in
    let advanced := set_last_reference (Some reference) self in
    let '(registry, res) := refresh source registry (sr_instruments self) trading_date observed_at in
    match res with
    | Ok _ => (advanced, registry, Ok true)
    | Raise CancelledError => (set_last_reference previous advanced, registry, Raise CancelledError)
    | Raise e => (advanced, registry, Raise e)
    end.

(** How an awaited refresh ends. *)
Inductive RefreshEnd : Type := Refreshed | RefreshFailed | RefreshCancelled.

(** Concurrent calls: those that wait for the lock, the one that holds it with the slot it
    found and its reference, and the refreshes begun and not cancelled with the demand they
    were begun under. *)
Record RefreshCalls : Type := {
  rc_coordinator : SessionStatisticsRefreshCoordinator;
  rc_waiting : list instant;
  rc_in_flight : option (option instant * instant * timedelta);
  rc_log : list (instant * timedelta);
}.

(** What the caller that gets the lock does: check again and begin, or leave. *)
Definition enter_lock (reference : instant) (waiting : list instant) (self : RefreshCalls) : RefreshCalls :=
  let c := rc_coordinator self in
  match sr_max_age c with
  | Some max_age =>
      if is_due c reference
      then {| rc_coordinator := set_last_reference (Some reference) c; rc_waiting := waiting;
              rc_in_flight := Some (sr_last_reference c, reference, max_age); rc_log := rc_log self |}
      else {| rc_coordinator := c; rc_waiting := waiting; rc_in_flight := None; rc_log := rc_log self |}
  | None => {| rc_coordinator := c; rc_waiting := waiting; rc_in_flight := None; rc_log := rc_log self |}
  end.

Definition finish_refresh (how : RefreshEnd) (self : RefreshCalls) : RefreshCalls :=
  match rc_in_flight self with
  | None => self
  | Some (previous, reference, max_age) =>
      match how with
      | RefreshCancelled => {| rc_coordinator := set_last_reference previous (rc_coordinator self);
          rc_waiting := rc_waiting self; rc_in_flight := None; rc_log := rc_log self |}
      | _ => {| rc_coordinator := rc_coordinator self; rc_waiting := rc_waiting self; rc_in_flight := None;
                rc_log := rc_log self ++ [(reference, max_age)] |}
      end
  end.

(** One step of concurrent callers: a call begins, gets the lock, gives up while it waits,
    or its refresh ends; the demand changes. *)
Inductive refresh_step : RefreshCalls -> RefreshCalls -> Prop :=
| call_refused self reference : is_due (rc_coordinator self) reference = false -> refresh_step self self
| call_waits self reference : is_due (rc_coordinator self) reference = true ->
    refresh_step self {| rc_coordinator := rc_coordinator self; rc_waiting := rc_waiting self ++ [reference];
                         rc_in_flight := rc_in_flight self; rc_log := rc_log self |}
| call_enters self before reference after : rc_waiting self = before ++ reference :: after -> rc_in_flight self = None ->
    refresh_step self (enter_lock reference (before ++ after) self)
| call_gives_up self before reference after : rc_waiting self = before ++ reference :: after ->
    refresh_step self {| rc_coordinator := rc_coordinator self; rc_waiting := before ++ after;
                         rc_in_flight := rc_in_flight self; rc_log := rc_log self |}
| call_ends self how : refresh_step self (finish_refresh how self)
| demand_changes self max_age :
    refresh_step self {| rc_coordinator := configure_refresh max_age (rc_coordinator self);
                         rc_waiting := rc_waiting self; rc_in_flight := rc_in_flight self; rc_log := rc_log self |}.

Inductive refresh_reachable : RefreshCalls -> Prop :=
| refresh_new instruments : refresh_reachable
    {| rc_coordinator := mk_refresh_coordinator instruments; rc_waiting := []; rc_in_flight := None; rc_log := [] |}
| refresh_next self self' : refresh_reachable self -> refresh_step self self' -> refresh_reachable self'.

(** * The driver *)

(** [_cycle] at [reference]. *)
Definition driver_cycle (classifier : MarketSessionClassifier) (source : StatisticsSource)
    (reference observed_at : instant) (self : SessionStatisticsRefreshCoordinator) (registry : InstrumentStateRegistry)
    : SessionStatisticsRefreshCoordinator * InstrumentStateRegistry * result bool :=
  let session := classify_session classifier reference false in
  if negb (bool_decide (market_state session = LIVE_SESSION)) then (self, registry, Ok false)
  else
    let '(self, registry, res) := refresh_if_due source reference (ctx_trading_date session) observed_at self registry in
    (self, registry, match res with
                     | Raise e => if is_provider_boundary_error e then Ok false else Raise e
                     | Ok done_ => Ok done_
                     end).

(** [run]: the cycles at successive clock readings until one raises. *)
Fixpoint driver_run (classifier : MarketSessionClassifier) (source : instant -> StatisticsSource)
    (readings : list (instant * instant)) (self : SessionStatisticsRefreshCoordinator)
    (registry : InstrumentStateRegistry)
    : SessionStatisticsRefreshCoordinator * InstrumentStateRegistry * option exn :=
  match readings with
  | [] => (self, registry, None)
  | (reference, observed_at) :: readings =>
      let '(self, registry, res) := driver_cycle classifier (source reference) reference observed_at self registry in
      match res with
      | Ok _ => driver_run classifier source readings self registry
      | Raise e => (self, registry, Some e)
      end
  end.

(** * Lemmas *)

(** ** Validation and staging *)

Definition valid_observations (requested : list Instrument) (trading_date : date)
    (observations : list SessionStatisticsObservation) : Prop :=
  (forall o, o ∈ observations -> obs_instrument o ∈ requested /\ obs_trading_date o = trading_date)
  /\ NoDup (map obs_instrument observations).

Lemma validate_spec requested trading_date observations :
  match validate_source_result observations requested trading_date with
  | Ok _ => valid_observations requested trading_date observations
  | Raise e => e = ProviderContractViolationError /\ ~ valid_observations requested trading_date observations
  end.
Proof.
  assert (Hgen : forall seen, match validate_observations requested trading_date seen observations with
    | Ok _ => valid_observations requested trading_date observations /\ (forall o, o ∈ observations -> obs_instrument o ∉ seen)
    | Raise e => e = ProviderContractViolationError
        /\ ~ (valid_observations requested trading_date observations /\ (forall o, o ∈ observations -> obs_instrument o ∉ seen))
    end).
  { induction observations as [|o observations IH]; intros seen; cbn [validate_observations].
    { split; [split; [by intros o ?%not_elem_of_nil|constructor]|by intros o ?%not_elem_of_nil]. }
    destruct (decide (obs_instrument o ∈ requested)) as [H1|H1];
      [rewrite (bool_decide_true _ H1)|rewrite (bool_decide_false _ H1)]; cbn [negb raise_if mbind result_bind].
    2: { split; [done|]. intros [[Hv _] _]. apply H1, Hv. left. }
    destruct (decide (obs_instrument o ∈ seen)) as [H2|H2];
      [rewrite (bool_decide_true _ H2)|rewrite (bool_decide_false _ H2)]; cbn [raise_if mbind result_bind].
    { split; [done|]. intros [_ Hs]. by apply (Hs o); [left|]. }
    destruct (Z.eqb_spec (obs_trading_date o) trading_date) as [H3|H3]; cbn [negb raise_if mbind result_bind].
    2: { split; [done|]. intros [[Hv _] _]. apply H3, Hv. left. }
    specialize (IH (obs_instrument o :: seen)). destruct (validate_observations _ _ _ _) as [u|e].
    - destruct IH as [[Hv Hn] Hs]. split; [split|].
      + intros o' [->|Ho]%elem_of_cons; [done|by apply Hv].
      + cbn. constructor; [|done]. intros (o' & Heq & Ho)%list_elem_of_fmap. apply (Hs o' Ho). rewrite Heq. left.
      + intros o' [->|Ho]%elem_of_cons; [done|]. intros Hin. apply (Hs o' Ho). by right.
    - destruct IH as [-> IH]. split; [done|]. intros [[Hv Hn] Hs]. apply IH. cbn in Hn. apply NoDup_cons in Hn as [Hx Hn].
      split; [split; [|done]|].
      + intros o' Ho. apply Hv. by right.
      + intros o' Ho [Heq|Hin]%elem_of_cons; [|by apply (Hs o'); [right|]]. apply Hx. rewrite <- Heq.
        apply list_elem_of_fmap. by exists o'. }
  specialize (Hgen []). unfold validate_source_result. destruct (validate_observations _ _ _ _) as [u|e]; [by destruct Hgen|].
  destruct Hgen as [-> Hn]. split; [done|]. intros Hv. apply Hn. split; [done|]. intros o _. apply not_elem_of_nil.
Qed.

(** The staged observation of an instrument, and its state without it. *)
Definition staged_of (registry : InstrumentStateRegistry) (i : Instrument) : option SessionStatisticsObservation :=
  is_staged (default (fresh_instrument i) (get registry i)).
Definition unstaged (registry : InstrumentStateRegistry) (i : Instrument) : InstrumentState :=
  let st := default (fresh_instrument i) (get registry i) in {|
  is_instrument := is_instrument st; is_latest_tick := is_latest_tick st; is_latest_quote := is_latest_quote st;
  is_last_event_timestamp := is_last_event_timestamp st; is_last_sequence := is_last_sequence st;
  is_context := is_context st; is_historical := is_historical st; is_session_statistics := is_session_statistics st;
  is_staged := None |}.

(** The observation that stays when [o] arrives, and the one it contradicts. *)
Definition newest_of (current : option SessionStatisticsObservation) (o : SessionStatisticsObservation)
    : SessionStatisticsObservation :=
  match current with Some c => if obs_observed_at o <? obs_observed_at c then c else o | None => o end.
Definition contradicts (current : option SessionStatisticsObservation) (o : SessionStatisticsObservation) : Prop :=
  exists c, current = Some c /\ obs_observed_at o = obs_observed_at c /\ o <> c.

Lemma stage_one registry o :
  let '(registry', res) := stage_session_statistics_observation registry (obs_instrument o) o in
  (forall j, j <> obs_instrument o -> staged_of registry' j = staged_of registry j)
  /\ (forall j, unstaged registry' j = unstaged registry j)
  /\ match res with
     | Ok _ => ~ contradicts (staged_of registry (obs_instrument o)) o
         /\ staged_of registry' (obs_instrument o) = Some (newest_of (staged_of registry (obs_instrument o)) o)
     | Raise e => (exists m, e = ValueError m) /\ contradicts (staged_of registry (obs_instrument o)) o
         /\ staged_of registry' (obs_instrument o) = staged_of registry (obs_instrument o)
     end.
Proof.
  unfold stage_session_statistics_observation. rewrite bool_decide_true by done. cbn [negb].
  set (i := obs_instrument o). pose proof (ensure_spec registry i) as (Hst & Hget & _).
  destruct (ensure registry i) as [reg st]. cbn [fst snd] in *.
  assert (Hdef : default (fresh_instrument i) (get reg i) = st) by (rewrite Hget, decide_True by done; done).
  assert (Hframe : forall j, staged_of reg j = staged_of registry j /\ unstaged reg j = unstaged registry j).
  { intros j. unfold staged_of, unstaged. rewrite Hget. destruct (decide (j = i)) as [->|]; [|done]. cbn. by rewrite Hst. }
  assert (Hsti : staged_of registry i = is_staged st).
  { destruct (Hframe i) as [<- _]. unfold staged_of. by rewrite Hdef. }
  assert (Hput : let reg' := put reg i (with_staged st o) in
    (forall j, j <> i -> staged_of reg' j = staged_of registry j) /\ (forall j, unstaged reg' j = unstaged registry j)
    /\ staged_of reg' i = Some o).
  { cbv zeta. split_and!.
    - intros j Hj. destruct (Hframe j) as [<- _]. unfold staged_of. by rewrite get_put, decide_False.
    - intros j. destruct (Hframe j) as [_ <-]. unfold unstaged. rewrite get_put.
      destruct (decide (j = i)) as [->|]; [|done]. by rewrite Hdef.
    - unfold staged_of. by rewrite get_put, decide_True. }
  destruct Hput as (Hp1 & Hp2 & Hp3).
  assert (Hkeep : (forall j, j <> i -> staged_of reg j = staged_of registry j) /\ (forall j, unstaged reg j = unstaged registry j)).
  { split; intros; apply Hframe. }
  destruct Hkeep as [Hk1 Hk2]. rewrite Hsti. destruct (is_staged st) as [c|] eqn:Ec.
  - destruct (Z.ltb_spec (obs_observed_at o) (obs_observed_at c)) as [Hlt|Hge].
    + split_and!; [done|done| |].
      * intros (c' & [= <-] & Heq & _). lia.
      * destruct (Hframe i) as [-> _]. rewrite Hsti. cbn. by rewrite (proj2 (Z.ltb_lt _ _) Hlt).
    + assert (Hnew : newest_of (Some c) o = o) by (cbn; by rewrite (proj2 (Z.ltb_ge _ _) Hge)).
      destruct (Z.eqb_spec (obs_observed_at o) (obs_observed_at c)) as [Heq|Hne]; cbn [andb].
      * case_bool_decide as Hoc; cbn [negb].
        -- rewrite Hnew. split_and!; try done. by intros (c' & [= <-] & _ & ?).
        -- split_and!; [done|done|by eexists|by exists c|]. destruct (Hframe i) as [-> _]. by rewrite Hsti.
      * rewrite Hnew. split_and!; try done. by intros (c' & [= <-] & ? & _).
  - split_and!; try done. by intros (c & ? & _).
Qed.

(** Each of the observations was staged over what its instrument had, contradicting nothing,
    and no other instrument's staged observation changed. *)
Definition staged_newest (registry registry' : InstrumentStateRegistry)
    (observations : list SessionStatisticsObservation) : Prop :=
  (forall o, o ∈ observations -> ~ contradicts (staged_of registry (obs_instrument o)) o
     /\ staged_of registry' (obs_instrument o) = Some (newest_of (staged_of registry (obs_instrument o)) o))
  /\ forall j, j ∉ map obs_instrument observations -> staged_of registry' j = staged_of registry j.

Lemma staged_newest_nil registry : staged_newest registry registry [].
Proof. split; [by intros o ?%not_elem_of_nil|done]. Qed.

Lemma staged_newest_cons registry registry1 registry2 o observations :
  obs_instrument o ∉ map obs_instrument observations ->
  ~ contradicts (staged_of registry (obs_instrument o)) o ->
  staged_of registry1 (obs_instrument o) = Some (newest_of (staged_of registry (obs_instrument o)) o) ->
  (forall j, j <> obs_instrument o -> staged_of registry1 j = staged_of registry j) ->
  staged_newest registry1 registry2 observations -> staged_newest registry registry2 (o :: observations).
Proof.
  intros Hx Hc Hs Hother [H1 H2]. split.
  - intros o' [->|Ho']%elem_of_cons; [split; [done|]; by rewrite H2|].
    rewrite <- (Hother (obs_instrument o')); [by apply H1|]. intros Heq. apply Hx. rewrite <- Heq.
    apply list_elem_of_fmap. by exists o'.
  - intros j [Hj1 Hj2]%not_elem_of_cons. rewrite H2 by done. by apply Hother.
Qed.

(** Staging goes up to the first observation that contradicts what is staged. *)
Lemma stage_all_spec observations registry : NoDup (map obs_instrument observations) ->
  let '(registry', res) := stage_all observations registry in
  (forall j, unstaged registry' j = unstaged registry j)
  /\ match res with
     | Ok _ => staged_newest registry registry' observations
     | Raise e => (exists m, e = ValueError m)
         /\ exists before o after, observations = before ++ o :: after
            /\ contradicts (staged_of registry (obs_instrument o)) o
            /\ staged_newest registry registry' before
     end.
Proof.
  revert registry. induction observations as [|o observations IH]; intros registry Hn; cbn [stage_all].
  { split; [done|apply staged_newest_nil]. }
  cbn in Hn. apply NoDup_cons in Hn as [Hx Hn]. pose proof (stage_one registry o) as Ho.
  destruct (stage_session_statistics_observation registry (obs_instrument o) o) as [reg1 [u|e]].
  2: { destruct Ho as (Hother & Hu & He & Hc & Hsame). split; [done|]. split; [done|]. exists [], o, observations.
       split_and!; [done|done|]. split; [by intros o' ?%not_elem_of_nil|]. intros j _.
       destruct (decide (j = obs_instrument o)) as [->|Hj]; [done|by apply Hother]. }
  destruct Ho as (Hother & Hu & Hc & Hs). specialize (IH reg1 Hn). destruct (stage_all observations reg1) as [reg2 res].
  destruct IH as [Hu2 IH]. split; [intros j; by rewrite Hu2, Hu|]. destruct res as [u'|e].
  - by eapply staged_newest_cons.
  - destruct IH as [He (before & o' & after & -> & Hc' & Hb)]. split; [done|].
    rewrite map_app in Hx. cbn in Hx. apply not_elem_of_app in Hx as [Hxb [Hxo _]%not_elem_of_cons].
    exists (o :: before), o', after. split_and!; [done| |by eapply staged_newest_cons].
    by rewrite <- (Hother (obs_instrument o')).
Qed.

(** The canonical order of instruments: by exchange, then by symbol. *)
Definition canonically_before (a b : Instrument) : Prop :=
  exchange a <> exchange b /\ String.leb (exchange a) (exchange b) = true
  \/ exchange a = exchange b /\ String.leb (symbol a) (symbol b) = true.

Lemma instrument_order a b :
  strings_leb [exchange a; symbol a] [exchange b; symbol b] = true <-> canonically_before a b.
Proof.
  unfold canonically_before. cbn. destruct (decide (exchange a = exchange b)) as [E|E];
    [rewrite (bool_decide_true _ E)|rewrite (bool_decide_false _ E)]; [|naive_solver].
  destruct (decide (symbol a = symbol b)) as [S|S]; [rewrite (bool_decide_true _ S)|rewrite (bool_decide_false _ S)].
  - split; [|done]. intros _. right. split; [done|]. rewrite S. by destruct (string_leb_total (symbol b) (symbol b)).
  - naive_solver.
Qed.

Lemma sorted_canonically {A} (f : A -> Instrument) (l : list A) :
  StronglySorted (fun a b => canonically_before (f a) (f b))
    (py_sorted (fun a b => strings_leb [exchange (f a); symbol (f a)] [exchange (f b); symbol (f b)]) l).
Proof.
  pose proof (py_sorted_sorted (fun a b => strings_leb [exchange (f a); symbol (f a)] [exchange (f b); symbol (f b)])
    ltac:(intros; apply strings_leb_total) ltac:(intros ? ? ?; apply strings_leb_trans) l) as H.
  induction H as [|x m Hs IH Hall]; constructor; [done|].
  eapply Forall_impl; [exact Hall|]. intros y. apply instrument_order.
Qed.

(** [C12] A refresh is one checked batch.  It asks for the distinct instruments in canonical
    order, by exchange and symbol, and, when every observation that comes back was asked for,
    is of the trading date and comes once, stages for each instrument the newer of the
    observation and what it had, touching nothing else of any instrument.  A source that
    raises or breaks the contract stages nothing.  The only other error is an observation
    that contradicts a staged one of the same instant: the observations canonically before
    the first such one stay staged, the others are not. *)
Theorem refresh_correct source registry instruments trading_date observed_at :
  let requested := deduplicated_ordered instruments in
  (NoDup requested /\ (forall i, i ∈ requested <-> i ∈ instruments) /\ StronglySorted canonically_before requested)
  /\ match refresh source registry instruments trading_date observed_at with
     | (registry', Ok outcome) => exists observations,
         (requested = [] /\ observations = [] \/ requested <> [] /\ source requested trading_date observed_at = Ok observations)
         /\ valid_observations requested trading_date observations
         /\ outcome = {| ro_trading_date := trading_date; ro_observed_at := observed_at;
              ro_requested_count := length requested; ro_observation_count := length observations;
              ro_staged_count := length observations |}
         /\ (forall i, unstaged registry' i = unstaged registry i)
         /\ staged_newest registry registry' observations
     | (registry', Raise e) =>
         registry' = registry /\ source requested trading_date observed_at = Raise e
         \/ registry' = registry /\ e = ProviderContractViolationError
            /\ (exists observations, source requested trading_date observed_at = Ok observations
                /\ ~ valid_observations requested trading_date observations)
         \/ (exists m, e = ValueError m) /\ (forall i, unstaged registry' i = unstaged registry i)
            /\ exists observations before o after, source requested trading_date observed_at = Ok observations
               /\ valid_observations requested trading_date observations
               /\ before ++ o :: after ≡ₚ observations
               /\ StronglySorted (fun a b => canonically_before (obs_instrument a) (obs_instrument b)) (before ++ o :: after)
               /\ contradicts (staged_of registry (obs_instrument o)) o
               /\ staged_newest registry registry' before
     end.
Proof.
  cbv zeta. split.
  { unfold deduplicated_ordered. split_and!; [rewrite py_sorted_perm; apply NoDup_from_keys| |apply (sorted_canonically id)].
    intros i. rewrite elem_of_py_sorted, elem_of_from_keys. set_solver. }
  unfold refresh. set (requested := deduplicated_ordered instruments). case_bool_decide as Hr.
  { exists []. split; [by left|]. split; [split; [by intros o ?%not_elem_of_nil|constructor]|].
    split; [done|split; [done|apply staged_newest_nil]]. }
  destruct (source requested trading_date observed_at) as [observations|e] eqn:Es; [|by left].
  pose proof (validate_spec requested trading_date observations) as Hv.
  destruct (validate_source_result _ _ _) as [u|e].
  2: { destruct Hv as [-> Hv]. right; left. split_and!; [done|done|]. by exists observations. }
  assert (Hperm : py_sorted observation_leb observations ≡ₚ observations) by apply py_sorted_perm.
  assert (Hn : NoDup (map obs_instrument (py_sorted observation_leb observations))).
  { change (NoDup (obs_instrument <$> py_sorted observation_leb observations)). rewrite Hperm. apply Hv. }
  pose proof (stage_all_spec _ registry Hn) as Hs.
  destruct (stage_all (py_sorted observation_leb observations) registry) as [registry' [u'|e]].
  - destruct Hs as (Hu & Hin & Hout). exists observations. split; [by right|]. split; [done|]. split; [done|].
    split; [done|]. split.
    + intros o Ho. apply Hin. by rewrite elem_of_py_sorted.
    + intros i Hi. apply Hout. change (i ∉ obs_instrument <$> py_sorted observation_leb observations). by rewrite Hperm.
  - destruct Hs as (Hu & He & before & o & after & Hl & Hc & Hb). right; right. split_and!; [done|done|].
    exists observations, before, o, after. rewrite <- Hl. split_and!; try done. apply (sorted_canonically obs_instrument).
Qed.

(** ** Cadence *)

(** Each entry of a log is at least its demand after the one before it. *)
Definition spaced (log : list (instant * timedelta)) : Prop :=
  forall k a b, log !! k = Some a -> log !! S k = Some b -> b.2 <= b.1 - a.1.

Lemma spaced_log_snoc log b : spaced log -> (forall a, last log = Some a -> b.2 <= b.1 - a.1) -> spaced (log ++ [b]).
Proof.
  intros Hs Hb k x y Hx Hy. destruct (decide (S k = length log)) as [Hk|Hk].
  - rewrite lookup_app_r in Hy by lia. replace (S k - length log)%nat with 0%nat in Hy by lia. injection Hy as <-.
    apply Hb. rewrite last_lookup. rewrite lookup_app_l in Hx by lia. by rewrite <- Hk.
  - assert (Hlt : (S k < length log)%nat).
    { apply lookup_lt_Some in Hy. rewrite length_app in Hy. cbn in Hy. lia. }
    rewrite lookup_app_l in Hx, Hy by lia. by apply (Hs k).
Qed.

Record calls_ok (self : RefreshCalls) : Prop := {
  cok_spaced : spaced (rc_log self);
  cok_slot : match rc_in_flight self with
    | None => sr_last_reference (rc_coordinator self) = fst <$> last (rc_log self)
    | Some (previous, reference, max_age) =>
        sr_last_reference (rc_coordinator self) = Some reference /\ previous = fst <$> last (rc_log self)
        /\ forall l, previous = Some l -> max_age <= reference - l
    end;
}.

Lemma refresh_step_ok self self' : calls_ok self -> refresh_step self self' -> calls_ok self'.
Proof.
  intros [Hs Hl] Hstep. destruct Hstep as [self reference Hd|self reference Hd|self before reference after Hw Hf
    |self before reference after Hw|self how|self max_age].
  - by split.
  - by split.
  - rewrite Hf in Hl. unfold enter_lock, is_due. destruct (sr_max_age (rc_coordinator self)) as [m|] eqn:Em; [|by split].
    destruct (sr_last_reference (rc_coordinator self)) as [l|] eqn:El.
    + destruct (Z.leb_spec m (reference - l)); [|by split; cbn; rewrite ?El]. split; cbn; [done|].
      split_and!; [done|done|]. intros l' [= <-]. done.
    + split; cbn; [done|]. split_and!; done.
  - by split.
  - unfold finish_refresh. destruct (rc_in_flight self) as [[[previous reference] m]|] eqn:Ef.
    2: { split; [done|]. by rewrite Ef. }
    destruct Hl as (Hl & -> & Hd).
    assert (Hkept : spaced (rc_log self ++ [(reference, m)])).
    { apply spaced_log_snoc; [done|]. intros [l ml] Ha. cbn. apply Hd. by rewrite Ha. }
    destruct how; split; cbn; try done; rewrite ?last_snoc; done.
  - split; done.
Qed.

(** [C13] Refreshes keep the cadence: whatever calls, waits, cancellations, failures and changes of
    demand interleave, at most one refresh runs, and between two successive refreshes that
    were begun and not cancelled lies at least the age demanded when the later one began; a
    cancelled refresh gives its slot back. *)
Theorem refreshes_keep_cadence self : refresh_reachable self ->
  spaced (rc_log self)
  /\ match rc_in_flight self with
     | None => sr_last_reference (rc_coordinator self) = fst <$> last (rc_log self)
     | Some (previous, reference, max_age) =>
         previous = fst <$> last (rc_log self) /\ (forall l, previous = Some l -> max_age <= reference - l)
         /\ sr_last_reference (rc_coordinator (finish_refresh RefreshCancelled self)) = fst <$> last (rc_log self)
     end.
Proof.
  intros Hr. assert (Hok : calls_ok self).
  { induction Hr as [instruments|self self' _ IH Hstep]; [|by eapply refresh_step_ok].
    split; cbn; [|done]. by intros k a b Ha. }
  destruct Hok as [Hs Hl]. split; [done|]. destruct (rc_in_flight self) as [[[previous reference] m]|] eqn:Ef; [|done].
  destruct Hl as (H1 & H2 & H3). split_and!; [done|done|]. unfold finish_refresh. rewrite Ef. cbn. done.
Qed.

(** ** The driver over the Dhan source *)

Lemma boundary_error_class e : boundary_error e -> is_provider_boundary_error e = true.
Proof. unfold boundary_error. intros H. repeat destruct H as [->|H]; try done. by destruct H as [m ->]. Qed.

(** [DhanRestAdapter.load_session_statistics] over what the provider answers. *)
Definition dhan_source (references : dict Instrument DhanInstrumentReference) (client_id connected live_smoke_enabled : bool)
    (answer : dict string (list Z) -> HttpOutcome) : StatisticsSource := fun requested trading_date observed_at =>
  load_session_statistics references client_id
    (fun payload => request_api_json connected live_smoke_enabled (answer payload)) requested trading_date observed_at.

(** The errors a source may raise without ending the driver, and the one of an unreadable
    price. *)
Definition survivable (e : exn) : Prop := is_provider_boundary_error e = true \/ e = InvalidOperation.

Lemma yields_request connected live_smoke_enabled outcome :
  yields survivable (fun _ => True) (request_api_json connected live_smoke_enabled outcome).
Proof.
  unfold request_api_json. apply yields_guard; [by left|]. intros _. destruct outcome as [response| |]; [|by left..].
  apply (yields_bind _ (fun _ => True)).
  - eapply yields_mono; [apply yields_raise_for_error| |done]. intros e He. left. by apply boundary_error_class.
  - intros [] _. destruct (hr_json response) as [[]|]; try (by left); done.
Qed.

Lemma yields_session_payload payload pairs trading_date observed_at :
  yields survivable (fun _ => True) (normalize_session_statistics_payload payload pairs trading_date observed_at).
Proof.
  unfold normalize_session_statistics_payload. destruct (dict_get "status"%string payload) as [status|]; [|by left].
  destruct status; try by left. case_bool_decide; cbn [negb]; [|by left].
  destruct (dict_get "data"%string payload) as [data|]; [|by left]. destruct data; try by left.
  apply (yields_bind _ (fun _ => True)); [|done].
  eapply yields_mono; [apply (yields_traverse survivable (fun _ _ => True))|done|done]. intros pair _.
  eapply yields_mono; [apply yields_session_observation| |done]. intros e [-> _]. by right.
Qed.

Lemma yields_dhan_source references client_id connected live_smoke_enabled answer requested trading_date observed_at :
  yields survivable (fun _ => True)
    (dhan_source references client_id connected live_smoke_enabled answer requested trading_date observed_at).
Proof.
  unfold dhan_source, load_session_statistics. apply (yields_bind _ (fun _ => True)).
  { unfold market_quote_pairs. apply yields_guard; [by left|]. intros _. eapply yields_mono; [apply (yields_traverse survivable (fun _ _ => True))|done|done]. intros i _. destruct (dict_get i references) as [r|]; [|by left].
    destruct (is_not_none _); [done|by left]. }
  intros pairs _. case_bool_decide as Hp; [done|]. clear Hp. destruct client_id; cbn [negb]; [|by left].
  apply (yields_bind _ (fun _ => True)).
  { unfold market_quote_payload. generalize (@nil (string * list Z)). induction pairs as [|[i r] pairs IH]; intros grouped; [done|].
    cbn [group_pairs]. destruct (dr_exchange_segment r) as [s|]; [|by left].
    destruct (int_of_text (dr_security_id r)) as [n|]; [|by left].
    apply IH. }
  intros payload _. apply (yields_bind _ (fun _ => True)); [apply yields_request|]. intros response _.
  apply yields_session_payload.
Qed.

(** An observation the source returns may still contradict a staged one. *)
Lemma yields_refresh source registry instruments trading_date observed_at :
  (forall requested, yields survivable (fun _ => True) (source requested trading_date observed_at)) ->
  yields (fun e => survivable e \/ exists m, e = ValueError m) (fun _ => True)
    (refresh source registry instruments trading_date observed_at).2.
Proof.
  intros Hs. unfold refresh. case_bool_decide; [done|]. specialize (Hs (deduplicated_ordered instruments)).
  destruct (source _ _ _) as [observations|e]; [|by left]. pose proof (validate_spec (deduplicated_ordered instruments) trading_date observations) as Hv.
  destruct (validate_source_result _ _ _) as [u|e]; [|left; left; by destruct Hv as [-> _]].
  assert (Hstage : forall l reg, yields (fun e => exists m, e = ValueError m) (fun _ => True) (stage_all l reg).2).
  { induction l as [|o l IH]; intros reg; [done|]. cbn [stage_all]. pose proof (stage_one reg o) as Ho.
    destruct (stage_session_statistics_observation reg _ o) as [reg1 [u'|e]]; [apply IH|]. cbn. apply Ho. }
  specialize (Hstage (py_sorted observation_leb observations) registry).
  destruct (stage_all _ registry) as [registry' [u'|e]]; cbn in *; [done|by right].
Qed.

(** Over the Dhan source the driver survives every failure the provider boundary reports, in
    any number of cycles, whatever the provider answers: it ends only by the
    [InvalidOperation] of a price that is a text but no number, or by an observation that
    contradicts a staged one of the same instant; and outside the live session it asks for
    nothing. *)
Theorem driver_ends_only_for classifier references client_id connected live_smoke_enabled answer readings self registry :
  let run := driver_run classifier
    (fun reference => dhan_source references client_id connected live_smoke_enabled (answer reference)) readings self registry in
  (forall e, run.2 = Some e -> e = InvalidOperation \/ exists m, e = ValueError m)
  /\ (Forall (fun r => market_state (classify_session classifier r.1 false) <> LIVE_SESSION) readings ->
      run = (self, registry, None)).
Proof.
  cbv zeta. revert self registry. induction readings as [|[reference observed_at] readings IH]; intros self registry; [done|].
  cbn [driver_run]. unfold driver_cycle. split.
  - case_bool_decide as Hlive; cbn [negb]; [|apply IH]. unfold refresh_if_due.
    destruct (is_due self reference); cbn [negb]; [|apply IH].
    match goal with |- context [refresh ?s registry ?is_ ?td ?at_] =>
      pose proof (yields_refresh s registry is_ td at_) as Hy; destruct (refresh s registry is_ td at_) as [registry' res] end.
    cbn [snd] in Hy. specialize (Hy (fun requested => yields_dhan_source _ _ _ _ _ requested _ _)).
    destruct res as [outcome|e]; [apply IH|]. cbn in Hy.
    assert (He : match e with CancelledError => False | _ => True end).
    { destruct Hy as [[Hb| ->]|[m ->]]; [by destruct e|done|done]. }
    assert (Hend : is_provider_boundary_error e = false -> e = InvalidOperation \/ exists m, e = ValueError m).
    { intros Hb. destruct Hy as [[Hb'|He']|Hm]; [congruence|by left|by right]. }
    destruct e; try done; cbn [is_provider_boundary_error] in *; try apply IH; cbn [snd]; intros e' [= <-]; by apply Hend.
  - intros Hclosed. apply Forall_cons in Hclosed as [Hc Hclosed]. cbn in Hc. rewrite bool_decide_false by done. cbn [negb].
    by apply IH.
Qed.

(** ** At concrete inputs *)

Definition reliance_quote (price : JsonValue) : dict string (list Z) -> HttpOutcome := fun _ =>
  HResponse {| hr_status_code := 200; hr_json := Some (VMap [("status", VText "success");
    ("data", VMap [("NSE_EQ", VMap [("1333", quote_item price)])])]%string) |}.
Definition quote_references : dict Instrument DhanInstrumentReference :=
  [(cash_equity "RELIANCE"%string, quote_reference "RELIANCE" "1333")].
Definition demanding : SessionStatisticsRefreshCoordinator :=
  configure_refresh (Some (30 * us_per_second)) (mk_refresh_coordinator [cash_equity "RELIANCE"%string]).
Definition live_at : instant := 5 * us_per_day + 4 * 3600 * us_per_second + 1800 * us_per_second.

(** In the live session a readable quote is staged; a price that is a text but no number
    ends the driver with nothing staged. *)
Lemma unreadable_price_ends_driver :
  let source price reference := dhan_source quote_references true true false (reliance_quote price) in
  let run price := driver_run nse_classifier (source price) [(live_at, live_at)] demanding (mk_registry [cash_equity "RELIANCE"%string]) in
  (run (VInt 95)).2 = None /\ is_not_none (staged_of (run (VInt 95)).1.2 (cash_equity "RELIANCE"%string)) = true
  /\ (run (VText "n/a")).2 = Some InvalidOperation
  /\ staged_of (run (VText "n/a")).1.2 (cash_equity "RELIANCE"%string) = None.
Proof. cbv zeta. split_and!; vm_compute; reflexivity. Qed.

(** A demand that is withdrawn and comes back does not refresh at once: the slot of the last
    activation still counts. *)
Lemma reactivation_waits :
  let active := set_last_reference (Some live_at) demanding in
  let reactivated := configure_refresh (Some (30 * us_per_second)) (configure_refresh None active) in
  is_due reactivated (live_at + us_per_second) = false.
Proof. reflexivity. Qed.

Lemma refreshes_keep_cadence_witness :
  let begun := enter_lock live_at [] {| rc_coordinator := demanding; rc_waiting := [live_at]; rc_in_flight := None; rc_log := [] |} in
  refresh_reachable begun
  /\ match rc_in_flight begun with
     | None => False
     | Some (previous, reference, max_age) => previous = None /\ reference = live_at
     end.
Proof.
  intros begun. assert (Hr : refresh_reachable begun).
  { eapply refresh_next; [|apply (call_enters {| rc_coordinator := demanding; rc_waiting := [live_at]; rc_in_flight := None;
      rc_log := [] |} [] live_at [] eq_refl eq_refl)].
    eapply refresh_next; [|apply (call_waits {| rc_coordinator := demanding; rc_waiting := []; rc_in_flight := None; rc_log := [] |}
      live_at); reflexivity].
    eapply refresh_next; [apply (refresh_new [cash_equity "RELIANCE"%string])|].
    apply (demand_changes {| rc_coordinator := mk_refresh_coordinator [cash_equity "RELIANCE"%string]; rc_waiting := [];
      rc_in_flight := None; rc_log := [] |} (Some (30 * us_per_second))). }
  split; [exact Hr|]. pose proof (refreshes_keep_cadence begun Hr) as [_ H]. cbn in H |- *. by destruct H.
Defined.
