(* ===== verification/AppLifecycle.v ===== *)
(** Starting and stopping the application: core/lifecycle.py ([ApplicationLifecycle]),
    adapters/base/provider_coordinator.py ([ProviderCoordinator]) and the composition of the
    live-market runtime over the Dhan provider, services/dhan_runtime_composition.py.

    What the database, the cache and the adapter answer is an argument, one answer per
    operation, and the operations called are logged; an operation that outlasts its bound
    answers [TimeoutError].  The constructors of the composition that do no I/O are one
    argument that answers with the runtime or raises.

    The theorems say how a start fails and what it cleans up (nothing when it is cancelled), that every connection the
    coordinator opens is closed once, that readiness is reported as probed, and when the
    composed provider is healthy; the last lemmas show connections that stay open. *)
From S2P Require Import Prelude EventBus PyTime MarketData TickEngine DhanWire DhanNormalizer DhanFeed Ingestion MarketRuntime.

Local Open Scope Z_scope.

(** * The provider coordinator *)

#[export] Instance ProviderStatus_eq_dec : EqDecision ProviderStatus.
Proof. solve_decision. Defined.

Inductive AdapterCall : Type := CONNECT | GET_HEALTH | DISCONNECT.

#[global] Instance AdapterCall_eq_dec : EqDecision AdapterCall.
Proof. solve_decision. Defined.

Record ProviderCoordinator : Type := {
  pc_adapter : bool;
  pc_timeout_seconds : option Z;
  pc_connect_attempted : bool;
  pc_started : bool;
}.

Definition mk_coordinator (adapter : bool) : ProviderCoordinator :=
  {| pc_adapter := adapter; pc_timeout_seconds := None; pc_connect_attempted := false; pc_started := false |}.

(** [_run_with_timeout]: the call made, if any, and its result. *)
Definition run_with_timeout {A} (self : ProviderCoordinator) (call : AdapterCall) (answer : result A)
    : list AdapterCall * result A :=
  match pc_timeout_seconds self with
  | None => ([], Raise ProviderLifecycleError)
  | Some _ => ([call], match answer with Raise TimeoutError => Raise ProviderOperationTimeoutError | r => r end)
  end.

(** [verify_health] *)
Definition coordinator_verify_health (self : ProviderCoordinator) (health : result ProviderStatus)
    : list AdapterCall * result ProviderStatus :=
  if negb (pc_adapter self) then ([], Raise ProviderHealthCheckError)
  else
    let '(calls, res) := run_with_timeout self GET_HEALTH health in
    (calls, match res with
            | Ok status => Ok status
            | Raise ProviderOperationTimeoutError => Raise ProviderOperationTimeoutError
            | Raise e => if is_exception e then Raise ProviderHealthCheckError else Raise e
            end).

(** [start] *)
Definition coordinator_start (timeout_seconds : Z) (connect : result unit) (health : result ProviderStatus)
    (self : ProviderCoordinator) : ProviderCoordinator * list AdapterCall * result unit :=
  if pc_started self then (self, [], Ok tt)
  else if negb (pc_adapter self) then (self, [], Raise ProviderConfigurationError)
  else
    let self := {| pc_adapter := pc_adapter self; pc_timeout_seconds := Some timeout_seconds;
                   pc_connect_attempted := true; pc_started := false |} in
    let '(calls, connected) := run_with_timeout self CONNECT connect in
    match connected with
    | Raise ProviderOperationTimeoutError => (self, calls, Raise ProviderOperationTimeoutError)
    | Raise e => (self, calls, if is_exception e then Raise ProviderInitializationError else Raise e)
    | Ok _ =>
        let '(more, checked) := coordinator_verify_health self health in
        match checked with
        | Raise ProviderOperationTimeoutError => (self, calls ++ more, Raise ProviderOperationTimeoutError)
        | Raise e => (self, calls ++ more,
                      if is_provider_lifecycle_error e then Raise ProviderInitializationError else Raise e)
        | Ok status =>
            if bool_decide (status = HEALTHY)
            then ({| pc_adapter := pc_adapter self; pc_timeout_seconds := pc_timeout_seconds self;
                     pc_connect_attempted := true; pc_started := true |}, calls ++ more, Ok tt)
            else (self, calls ++ more, Raise ProviderInitializationError)
        end
    end.

(** [shutdown] *)
Definition coordinator_shutdown (disconnect : result unit) (self : ProviderCoordinator)
    : ProviderCoordinator * list AdapterCall * result unit :=
  let should_disconnect := pc_connect_attempted self in
  let self := {| pc_adapter := pc_adapter self; pc_timeout_seconds := pc_timeout_seconds self;
                 pc_connect_attempted := false; pc_started := false |} in
  if negb (pc_adapter self) || negb should_disconnect then (self, [], Ok tt)
  else
    let '(calls, res) := run_with_timeout self DISCONNECT disconnect in
    (self, calls, match res with
                  | Ok _ => Ok tt
                  | Raise e => if is_exception e then Raise ProviderCleanupError else Raise e
                  end).

(** * The application *)

Inductive LifecycleState : Type := APP_STARTING | APP_STARTED | APP_FAILED | APP_SHUTTING_DOWN | APP_STOPPED.
Inductive DependencyState : Type := DEP_UNKNOWN | DEP_HEALTHY | DEP_UNHEALTHY.

#[global] Instance LifecycleState_eq_dec : EqDecision LifecycleState.
Proof. solve_decision. Defined.
#[global] Instance DependencyState_eq_dec : EqDecision DependencyState.
Proof. solve_decision. Defined.

(** The calls on the dependencies. *)
Inductive DependencyCall : Type :=
| DB_INITIALIZE | DB_VERIFY | DB_DISPOSE | REDIS_INITIALIZE | REDIS_VERIFY | REDIS_CLOSE
| PROVIDER_START | PROVIDER_HEALTH | PROVIDER_SHUTDOWN.

#[global] Instance DependencyCall_eq_dec : EqDecision DependencyCall.
Proof. solve_decision. Defined.

Record ApplicationLifecycle : Type := {
  al_provider : bool;
  al_state : LifecycleState;
  al_database_state : DependencyState;
  al_redis_state : DependencyState;
  al_provider_state : DependencyState;
}.

Definition mk_application (provider : bool) : ApplicationLifecycle := {|
  al_provider := provider; al_state := APP_STARTING; al_database_state := DEP_UNKNOWN;
  al_redis_state := DEP_UNKNOWN; al_provider_state := DEP_UNKNOWN |}.

Definition with_states (state : LifecycleState) (database redis provider : DependencyState) (self : ApplicationLifecycle)
    : ApplicationLifecycle := {|
  al_provider := al_provider self; al_state := state; al_database_state := database; al_redis_state := redis;
  al_provider_state := provider |}.

(** What each call answers: nothing, or what it raises; a health probe answers a status. *)
Record Answers : Type := {
  answer_to : DependencyCall -> option exn;
  answer_health : ProviderStatus;
}.

(** Calls in order up to the first that raises. *)
Fixpoint call_all (a : Answers) (calls : list DependencyCall) : list DependencyCall * option exn :=
  match calls with
  | [] => ([], None)
  | c :: calls =>
      match answer_to a c with
      | Some e => ([c], Some e)
      | None => let '(made, raised) := call_all a calls in (c :: made, raised)
      end
  end.

(** The loop of [_release_dependencies]: every error but a cancellation is kept, the first
    one returned. *)
Fixpoint release_all (a : Answers) (calls : list DependencyCall) (cleanup_error : option exn)
    : list DependencyCall * result (option exn) :=
  match calls with
  | [] => ([], Ok cleanup_error)
  | c :: calls =>
      match answer_to a c with
      | None => let '(made, res) := release_all a calls cleanup_error in (c :: made, res)
      | Some e =>
          if is_exception e
          then let '(made, res) := release_all a calls (match cleanup_error with None => Some e | kept => kept end) in
               (c :: made, res)
          else ([c], Raise e)
      end
  end.

(** [_release_dependencies] *)
Definition release_dependencies (a : Answers) (self : ApplicationLifecycle)
    : list DependencyCall * result (option exn) :=
  release_all a ((if al_provider self then [PROVIDER_SHUTDOWN] else []) ++ [REDIS_CLOSE; DB_DISPOSE]) None.

(** What the [try] of [start] calls for each dependency. *)
Definition database_calls : list DependencyCall := [DB_INITIALIZE; DB_VERIFY].
Definition redis_calls : list DependencyCall := [REDIS_INITIALIZE; REDIS_VERIFY].

Definition unless_healthy (s : DependencyState) : DependencyState :=
  match s with DEP_HEALTHY => DEP_HEALTHY | _ => DEP_UNHEALTHY end.

(** The [try] of [start]: the states it reaches and what it raises. *)
Definition start_dependencies (a : Answers) (self : ApplicationLifecycle)
    : list DependencyCall * (DependencyState * DependencyState * DependencyState) * option exn :=
  let '(made, raised) := call_all a database_calls in
  match raised with
  | Some e => (made, (DEP_UNKNOWN, DEP_UNKNOWN, DEP_UNKNOWN), Some e)
  | None =>
      let '(more, raised) := call_all a redis_calls in
      match raised with
      | Some e => (made ++ more, (DEP_HEALTHY, DEP_UNKNOWN, DEP_UNKNOWN), Some e)
      | None =>
          if al_provider self then
            match answer_to a PROVIDER_START with
            | Some e => (made ++ more ++ [PROVIDER_START], (DEP_HEALTHY, DEP_HEALTHY, DEP_UNKNOWN), Some e)
            | None => (made ++ more ++ [PROVIDER_START], (DEP_HEALTHY, DEP_HEALTHY, DEP_HEALTHY), None)
            end
          else (made ++ more, (DEP_HEALTHY, DEP_HEALTHY, DEP_UNKNOWN), None)
      end
  end.

(** The [except] clause of [start]. *)
Definition start_failed (a : Answers) (made : list DependencyCall) (database redis provider : DependencyState) (e : exn)
    (self : ApplicationLifecycle) : ApplicationLifecycle * list DependencyCall * result unit :=
  if is_exception e then
    let provider := if al_provider self then unless_healthy provider else provider in
    let '(released, cleanup) := release_dependencies a self in
    let failed := with_states APP_FAILED (unless_healthy database) (unless_healthy redis) provider self in
    match cleanup with
    | Ok None => (failed, made ++ released, Raise (ApplicationStartupError "Application startup is blocked because a mandatory dependency is unavailable"))
    | Ok (Some _) => (failed, made ++ released, Raise (ApplicationStartupError "Application startup failed and partial dependency cleanup failed"))
    | Raise c => (with_states APP_STARTING (unless_healthy database) (unless_healthy redis) provider self,
                  made ++ released, Raise c)
    end
  else (with_states APP_STARTING database redis provider self, made, Raise e).

(** [start] *)
Definition app_start (a : Answers) (self : ApplicationLifecycle)
    : ApplicationLifecycle * list DependencyCall * result unit :=
  match al_state self with
  | APP_STARTED => (self, [], Ok tt)
  | APP_SHUTTING_DOWN => (self, [], Raise (ApplicationStartupError "Application startup is blocked while shutdown is in progress"))
  | _ =>
      let '(made, (database, redis, provider), raised) := start_dependencies a self in
      match raised with
      | None => (with_states APP_STARTED database redis provider self, made, Ok tt)
      | Some e => start_failed a made database redis provider e self
      end
  end.

(** [shutdown] *)
Definition app_shutdown (a : Answers) (self : ApplicationLifecycle)
    : ApplicationLifecycle * list DependencyCall * result unit :=
  if bool_decide (al_state self ∈ [APP_SHUTTING_DOWN; APP_STOPPED]) then (self, [], Ok tt)
  else
    let to state := with_states state (al_database_state self) (al_redis_state self) (al_provider_state self) self in
    let '(made, cleanup) := release_dependencies a self in
    match cleanup with
    | Ok None => (to APP_STOPPED, made, Ok tt)
    | Ok (Some _) => (to APP_STOPPED, made, Raise ApplicationShutdownError)
    | Raise e => (to APP_SHUTTING_DOWN, made, Raise e)
    end.

(** [HealthSnapshot] of readiness. *)
Record HealthSnapshot : Type := {
  hs_status : string;
  hs_startup : LifecycleState;
  hs_dependencies : list (string * DependencyState);
}.

(** [_readiness_response] *)
Definition readiness_response (self : ApplicationLifecycle) : HealthSnapshot :=
  let is_ready := bool_decide (al_state self = APP_STARTED) && bool_decide (al_database_state self = DEP_HEALTHY)
    && bool_decide (al_redis_state self = DEP_HEALTHY)
    && (negb (al_provider self) || bool_decide (al_provider_state self = DEP_HEALTHY)) in
  {| hs_status := if is_ready then "ready" else "not_ready"; hs_startup := al_state self;
     hs_dependencies := [("database"%string, al_database_state self); ("redis"%string, al_redis_state self)]
       ++ if al_provider self then [("provider"%string, al_provider_state self)] else [] |}.

(** [_probe_database], [_probe_redis] and [_probe_provider] *)
Definition probe_state (a : Answers) (c : DependencyCall) : DependencyState :=
  match answer_to a c with None => DEP_HEALTHY | Some _ => DEP_UNHEALTHY end.
Definition probe_provider (a : Answers) : DependencyState :=
  match answer_to a PROVIDER_HEALTH with
  | None => if bool_decide (answer_health a = HEALTHY) then DEP_HEALTHY else DEP_UNHEALTHY
  | Some _ => DEP_UNHEALTHY
  end.

(** [readiness_snapshot], when no probe is cancelled. *)
Definition readiness_snapshot (a : Answers) (self : ApplicationLifecycle) : ApplicationLifecycle * HealthSnapshot :=
  if negb (bool_decide (al_state self = APP_STARTED)) then (self, readiness_response self)
  else
    let self := with_states (al_state self) (probe_state a DB_VERIFY) (probe_state a REDIS_VERIFY)
      (if al_provider self then probe_provider a else al_provider_state self) self in
    (self, readiness_response self).

(** * The composition *)

(** [_canonical_cash_equity_universe] *)
Definition canonical_cash_equity_universe (live : DhanCashEquityLiveUniverse) : result (list Instrument) :=
  let instruments := map dr_instrument (lu_cash_references live) in
  _ ← raise_if (bool_decide (instruments = [])) UniverseResolutionError;
  _ ← raise_if (negb (bool_decide (length (from_keys [] instruments) = length instruments))) UniverseResolutionError;
  Ok instruments.

(** [_resolve_calendar_dataset] when the packaged dataset is loaded. *)
Definition resolve_calendar_dataset {D} (loaded : result D) : result D :=
  match loaded with
  | Raise (ValidationError _) | Raise OSError | Raise FileNotFoundError | Raise UnicodeDecodeError =>
      Raise AuthoritativeCalendarUnavailableError
  | r => r
  end.

Section Composition.
Context (publish : ContextEvent -> option exn).
Context {P : Type} `{!ShadowPublisher P}.

Local Abbreviation Runtime := (@LiveMarketRuntime P).

(** What composing meets: the adapter's answers, the packaged dataset, the enabled catalogue
    entries, and the constructors that run once those are there. *)
Record ComposeAnswers : Type := {
  ca_connect : result unit;
  ca_health : result ProviderStatus;
  ca_disconnect : result unit;
  ca_load_instruments : result unit;
  ca_live_universe : result DhanCashEquityLiveUniverse;
  ca_dataset : result unit;
  ca_entries : result (list string);
  ca_construct : list Instrument -> list string -> result (RuntimeConfig * Runtime);
}.

(** [RuntimeComposition] with the configuration the runtime was built with. *)
Record RuntimeComposition : Type := {
  cp_config : RuntimeConfig;
  cp_runtime : Runtime;
  cp_provider_coordinator : option ProviderCoordinator;
}.

(** The [try] of [compose_market_runtime] after the coordinator's start. *)
Definition prepare (a : ComposeAnswers) : result (list Instrument * list string) :=
  _ ← ca_load_instruments a;
  live ← ca_live_universe a;
  instruments ← canonical_cash_equity_universe live;
  _ ← resolve_calendar_dataset (ca_dataset a);
  entries ← ca_entries a;
  Ok (instruments, entries).

(** [_safe_shutdown], then the error is raised again unless the cleanup is cancelled. *)
Definition unwind {A} (a : ComposeAnswers) (coordinator : ProviderCoordinator) (e : exn) : list AdapterCall * result A :=
  let '(_, calls, cleanup) := coordinator_shutdown (ca_disconnect a) coordinator in
  (calls, match cleanup with
          | Raise c => if is_exception c then Raise e else Raise c
          | Ok _ => Raise e
          end).

(** [compose_market_runtime] with the provider enabled. *)
Definition compose_market_runtime (timeout_seconds : Z) (a : ComposeAnswers)
    : list AdapterCall * result RuntimeComposition :=
  let '(coordinator, calls, started) := coordinator_start timeout_seconds (ca_connect a) (ca_health a) (mk_coordinator true) in
  match (_ ← started; prepare a) with
  | Raise e => let '(more, res) := unwind a coordinator e in (calls ++ more, res)
  | Ok (instruments, entries) =>
      match ca_construct a instruments entries with
      | Raise e => (calls, Raise e)
      | Ok (config, runtime) =>
          (calls, Ok {| cp_config := config; cp_runtime := runtime; cp_provider_coordinator := Some coordinator |})
      end
  end.

(** [RuntimeComposition.shutdown] *)
Definition composition_shutdown (faults : ShutdownFaults) (disconnect : result unit) (self : RuntimeComposition)
    : RuntimeComposition * list AdapterCall * result unit :=
  let '(runtime, stopped) := shutdown publish (cp_config self) faults (cp_runtime self) in
  let self := {| cp_config := cp_config self; cp_runtime := runtime;
                 cp_provider_coordinator := cp_provider_coordinator self |} in
  match stopped, cp_provider_coordinator self with
  | Raise e, _ => (self, [], Raise e)
  | Ok _, None => (self, [], Ok tt)
  | Ok _, Some coordinator =>
      let '(coordinator, calls, res) := coordinator_shutdown disconnect coordinator in
      ({| cp_config := cp_config self; cp_runtime := runtime; cp_provider_coordinator := Some coordinator |}, calls, res)
  end.

(** [LiveMarketRuntimeDependency] is its [_composition]. *)
Abbreviation LiveMarketRuntimeDependency := (option RuntimeComposition).

(** [start] *)
Definition dependency_start (timeout_seconds : Z) (a : ComposeAnswers) (manager_start : string -> option exn)
    (faults : ShutdownFaults) (self : LiveMarketRuntimeDependency)
    : LiveMarketRuntimeDependency * list AdapterCall * result unit :=
  match self with
  | Some _ => (self, [], Ok tt)
  | None =>
      let '(calls, composed) := compose_market_runtime timeout_seconds a in
      match composed with
      | Raise e => (None, calls, Raise e)
      | Ok composition =>
          let '(runtime, res) := start (cp_config composition) manager_start (cp_runtime composition) in
          let composition := {| cp_config := cp_config composition; cp_runtime := runtime;
                                cp_provider_coordinator := cp_provider_coordinator composition |} in
          match res with
          | Ok _ => (Some composition, calls, Ok tt)
          | Raise e =>
              let '(_, more, cleanup) := composition_shutdown faults (ca_disconnect a) composition in
              (None, calls ++ more, match cleanup with Ok _ => Raise e | Raise c => Raise c end)
          end
      end
  end.

(** [shutdown] *)
Definition dependency_shutdown (faults : ShutdownFaults) (disconnect : result unit) (self : LiveMarketRuntimeDependency)
    : LiveMarketRuntimeDependency * list AdapterCall * result unit :=
  match self with
  | None => (None, [], Ok tt)
  | Some composition =>
      let '(_, calls, res) := composition_shutdown faults disconnect composition in (None, calls, res)
  end.

(** [verify_health] *)
Definition dependency_verify_health (health : result ProviderStatus) (self : LiveMarketRuntimeDependency)
    : result ProviderStatus :=
  match self with
  | None => Ok UNKNOWN
  | Some composition =>
      provider_healthy ←
        match cp_provider_coordinator composition with
        | None => Ok true
        | Some coordinator =>
            status ← (coordinator_verify_health coordinator health).2; Ok (bool_decide (status = HEALTHY))
        end;
      let status := status (cp_config composition) (cp_runtime composition) in
      Ok (if provider_healthy && st_ingestion_running status && negb (st_fatal_ingestion_error status)
             && negb (st_fatal_refresh_driver_error status) then HEALTHY else DOWN)
  end.

(** [scanner_read_available] *)
Definition scanner_read_available (self : LiveMarketRuntimeDependency) : bool :=
  match self with
  | None => false
  | Some composition =>
      let status := status (cp_config composition) (cp_runtime composition) in
      bool_decide (st_state status = STARTED)
      && negb (st_fatal_ingestion_error status || st_fatal_refresh_driver_error status
               || st_fatal_calendar_monitor_error status)
  end.

(** [sector_shadow_read_available] *)
Definition sector_shadow_read_available (self : LiveMarketRuntimeDependency) : bool :=
  match self with
  | None => false
  | Some composition => bool_decide (st_state (status (cp_config composition) (cp_runtime composition)) = STARTED)
  end.
End Composition.

(** * Lemmas *)

(** ** The coordinator *)

(** What can be asked of a coordinator, with the adapter's answers. *)
Inductive CoordinatorOperation : Type :=
| OpStart (timeout_seconds : Z) (connect : result unit) (health : result ProviderStatus)
| OpVerify (health : result ProviderStatus)
| OpShutdown (disconnect : result unit).

Definition provider_step (acc : ProviderCoordinator * list AdapterCall) (op : CoordinatorOperation)
    : ProviderCoordinator * list AdapterCall :=
  let '(self, log) := acc in
  match op with
  | OpStart timeout connect health =>
      let '(self, calls, _) := coordinator_start timeout connect health self in (self, log ++ calls)
  | OpVerify health => (self, log ++ (coordinator_verify_health self health).1)
  | OpShutdown disconnect => let '(self, calls, _) := coordinator_shutdown disconnect self in (self, log ++ calls)
  end.

(** Whether a call log leaves a connection attempt that no disconnect followed, when no
    disconnect comes without one. *)
Fixpoint open_attempt (attempted : bool) (log : list AdapterCall) : option bool :=
  match log with
  | [] => Some attempted
  | CONNECT :: log => open_attempt true log
  | GET_HEALTH :: log => if attempted then open_attempt true log else open_attempt attempted log
  | DISCONNECT :: log => if attempted then open_attempt false log else None
  end.

Lemma open_attempt_app attempted log more :
  open_attempt attempted (log ++ more) = (b ← open_attempt attempted log; open_attempt b more).
Proof.
  revert attempted. induction log as [|c log IH]; intros attempted; [done|]. cbn. destruct c; [apply IH| |].
  - destruct attempted; apply IH.
  - destruct attempted; [apply IH|done].
Qed.

Record coordinator_ok (self : ProviderCoordinator) (log : list AdapterCall) : Prop := {
  cook_attempt : open_attempt false log = Some (pc_connect_attempted self);
  cook_started : pc_started self = true -> pc_connect_attempted self = true;
  cook_timeout : pc_connect_attempted self = true -> is_Some (pc_timeout_seconds self);
  cook_adapter : pc_connect_attempted self = true -> pc_adapter self = true;
}.

Lemma health_calls self health attempted : open_attempt attempted (coordinator_verify_health self health).1 = Some attempted.
Proof.
  unfold coordinator_verify_health, run_with_timeout. destruct (pc_adapter self); [|done]. cbn [negb].
  destruct (pc_timeout_seconds self); [|done]. cbn. by destruct attempted.
Qed.

Lemma provider_step_ok acc op : coordinator_ok acc.1 acc.2 ->
  coordinator_ok (provider_step acc op).1 (provider_step acc op).2.
Proof.
  destruct acc as [self log]. intros [H1 H2 H3 H4]. cbn in *. destruct op as [timeout connect health|health|disconnect].
  - unfold coordinator_start. destruct (pc_started self) eqn:Es; [split; cbn; rewrite ?app_nil_r, ?Es; auto|].
    destruct (pc_adapter self) eqn:Ea; cbn [negb]; [|split; cbn; rewrite ?app_nil_r, ?Es, ?Ea; auto].
    cbn [run_with_timeout pc_timeout_seconds].
    set (tried := {| pc_adapter := true; pc_timeout_seconds := Some timeout; pc_connect_attempted := true; pc_started := false |}).
    assert (Hconn : open_attempt false (log ++ [CONNECT]) = Some true).
    { rewrite open_attempt_app, H1. cbn. done. }
    assert (Htry : forall more, open_attempt true more = Some true -> coordinator_ok tried (log ++ [CONNECT] ++ more)).
    { intros more Hm. split; [|done..]. rewrite app_assoc, open_attempt_app, Hconn. exact Hm. }
    assert (Hfail : coordinator_ok tried (log ++ [CONNECT])) by (apply (Htry []); done).
    destruct connect as [[]|e]; with_strategy opaque [coordinator_verify_health] cbn.
    + pose proof (health_calls tried health true) as Hh. destruct (coordinator_verify_health tried health) as [more checked].
      cbn in Hh. specialize (Htry more Hh). destruct checked as [status|e].
      * case_bool_decide; [|exact Htry]. destruct Htry as [G1 G2 G3 G4]. split; cbn in *; done.
      * destruct e; exact Htry.
    + destruct e; exact Hfail.
  - split; with_strategy opaque [coordinator_verify_health] cbn; try done.
    rewrite open_attempt_app, H1. apply health_calls.
  - unfold coordinator_shutdown. cbn. destruct (pc_adapter self) eqn:Ea; cbn [negb orb].
    + destruct (pc_connect_attempted self) eqn:Ec; cbn [negb].
      * destruct (H3 eq_refl) as [timeout Ht]. unfold run_with_timeout. cbn. rewrite Ht. cbn.
        split; cbn; try done. rewrite open_attempt_app, H1. done.
      * split; cbn; try done. by rewrite app_nil_r.
    + split; cbn; try done. rewrite app_nil_r, H1. destruct (pc_connect_attempted self) eqn:Ec; [|done].
      discriminate (H4 eq_refl).
Qed.

(** Connections are balanced: whatever the adapter answers or raises and in whatever order
    the coordinator is started, probed and shut down, a disconnect only follows a connection
    attempt that none followed before, a started provider has one open, and a shutdown
    leaves none. *)
Theorem coordinator_balanced adapter ops :
  let '(self, log) := foldl provider_step (mk_coordinator adapter, []) ops in
  open_attempt false log = Some (pc_connect_attempted self)
  /\ (pc_started self = true -> pc_connect_attempted self = true)
  /\ forall disconnect, let '(self', calls, _) := coordinator_shutdown disconnect self in
     open_attempt false (log ++ calls) = Some false /\ pc_started self' = false
     /\ calls = (if pc_connect_attempted self then [DISCONNECT] else []).
Proof.
  assert (Hok : forall acc, coordinator_ok acc.1 acc.2 ->
    coordinator_ok (foldl provider_step acc ops).1 (foldl provider_step acc ops).2).
  { induction ops as [|op ops IH]; intros acc Ha; [done|]. cbn [foldl]. apply IH. by apply provider_step_ok. }
  specialize (Hok (mk_coordinator adapter, []) ltac:(by split)). destruct (foldl _ _ ops) as [self log]. cbn [fst snd] in Hok.
  pose proof Hok as [H1 H2 H3 H4]. split_and!; [done|done|]. intros disconnect.
  pose proof (provider_step_ok (self, log) (OpShutdown disconnect) Hok) as [G1 _ _ _]. cbn in G1.
  unfold coordinator_shutdown in *. cbn in *. destruct (pc_adapter self) eqn:Ea; cbn [negb orb] in *.
  - destruct (pc_connect_attempted self) eqn:Ec; cbn [negb] in *.
    + destruct (H3 eq_refl) as [timeout Ht]. unfold run_with_timeout in *. cbn in *. rewrite Ht in *. cbn in *. done.
    + done.
  - destruct (pc_connect_attempted self) eqn:Ec; [discriminate (H4 eq_refl)|]. done.
Qed.

(** ** Starting the application *)

(** What a start calls, and what a release calls. *)
Definition needed_calls (self : ApplicationLifecycle) : list DependencyCall :=
  database_calls ++ redis_calls ++ (if al_provider self then [PROVIDER_START] else []).
Definition release_calls (self : ApplicationLifecycle) : list DependencyCall :=
  (if al_provider self then [PROVIDER_SHUTDOWN] else []) ++ [REDIS_CLOSE; DB_DISPOSE].

(** A call that does not end in a cancellation. *)
Definition not_cancelled (a : Answers) (c : DependencyCall) : Prop :=
  forall e, answer_to a c = Some e -> is_exception e = true.

Definition answers (a : Answers) (c : DependencyCall) : Prop := answer_to a c = None.

Lemma release_all_cases a calls kept :
  (Forall (not_cancelled a) calls
   /\ release_all a calls kept
      = (calls, Ok (match kept with Some e => Some e | None => head (omap (answer_to a) calls) end)))
  \/ exists released c rest e, calls = released ++ c :: rest /\ Forall (not_cancelled a) released
     /\ answer_to a c = Some e /\ is_exception e = false
     /\ release_all a calls kept = (released ++ [c], Raise e).
Proof.
  revert kept. induction calls as [|c calls IH]; intros kept; cbn [release_all]; [left; split; [done|by destruct kept]|].
  destruct (answer_to a c) as [e|] eqn:Ea.
  - destruct (is_exception e) eqn:He.
    + assert (Hc : not_cancelled a c) by (intros e' ?; congruence).
      destruct (IH (match kept with None => Some e | kept => kept end)) as [[Hall ->]|(released & r & rest & e' & -> & Hall & Hr & He' & ->)].
      * left. split; [by constructor|]. cbn. rewrite Ea. by destruct kept.
      * right. exists (c :: released), r, rest, e'. split_and!; [done|by constructor|done..].
    + right. exists [], c, calls, e. by split_and!.
  - assert (Hc : not_cancelled a c) by (intros e' ?; congruence).
    destruct (IH kept) as [[Hall ->]|(released & r & rest & e' & -> & Hall & Hr & He' & ->)].
    * left. split; [by constructor|]. cbn. by rewrite Ea.
    * right. exists (c :: released), r, rest, e'. split_and!; [done|by constructor|done..].
Qed.

Definition startup_blocked : exn :=
  ApplicationStartupError "Application startup is blocked because a mandatory dependency is unavailable".
Definition startup_cleanup_failed : exn :=
  ApplicationStartupError "Application startup failed and partial dependency cleanup failed".

(** How a start ends that the error [error] of one of the calls [made] stopped: a
    cancellation goes through at once, nothing is released and the application stays
    STARTING; any other error releases the dependencies, and the application is failed,
    unless a release is cancelled, which again goes through at once. *)
Inductive stopped_start (a : Answers) (self : ApplicationLifecycle) (made : list DependencyCall) (error : exn)
    : LifecycleState -> list DependencyCall -> exn -> Prop :=
| start_cancelled : is_exception error = false -> stopped_start a self made error APP_STARTING made error
| start_released : is_exception error = true -> Forall (not_cancelled a) (release_calls self) ->
    Forall (answers a) (release_calls self) ->
    stopped_start a self made error APP_FAILED (made ++ release_calls self) startup_blocked
| start_release_failed : is_exception error = true -> Forall (not_cancelled a) (release_calls self) ->
    Exists (fun c => ~ answers a c) (release_calls self) ->
    stopped_start a self made error APP_FAILED (made ++ release_calls self) startup_cleanup_failed
| start_release_cancelled released c rest e : is_exception error = true ->
    release_calls self = released ++ c :: rest -> Forall (not_cancelled a) released ->
    answer_to a c = Some e -> is_exception e = false ->
    stopped_start a self made error APP_STARTING (made ++ released ++ [c]) e.

Lemma all_answer a calls : match head (omap (answer_to a) calls) with
  | None => Forall (answers a) calls
  | Some _ => Exists (fun c => ~ answers a c) calls
  end.
Proof.
  induction calls as [|c calls IH]; cbn; [done|]. unfold answers at 1 2. destruct (answer_to a c) as [e|] eqn:Ea; cbn.
  - left. unfold answers. by rewrite Ea.
  - destruct (head (omap (answer_to a) calls)); [by right|by constructor].
Qed.

Lemma unless_healthy_iff s : unless_healthy s = DEP_HEALTHY <-> s = DEP_HEALTHY.
Proof. by destruct s. Qed.

Lemma start_failed_spec a made database redis provider e self : provider <> DEP_HEALTHY ->
  let '(self', calls, res) := start_failed a made database redis provider e self in
  al_provider self' = al_provider self
  /\ (exists raised, res = Raise raised /\ stopped_start a self made e (al_state self') calls raised)
  /\ (al_database_state self' = DEP_HEALTHY <-> database = DEP_HEALTHY)
  /\ (al_redis_state self' = DEP_HEALTHY <-> redis = DEP_HEALTHY)
  /\ al_provider_state self' <> DEP_HEALTHY.
Proof.
  intros Hp. unfold start_failed. destruct (is_exception e) eqn:He.
  2: { cbn. split_and!; try done. eexists. split; [done|]. by apply start_cancelled. }
  assert (Hp' : (if al_provider self then unless_healthy provider else provider) <> DEP_HEALTHY).
  { destruct (al_provider self); [by rewrite unless_healthy_iff|done]. }
  pose proof (unless_healthy_iff database) as Hd. pose proof (unless_healthy_iff redis) as Hr.
  unfold release_dependencies. fold (release_calls self).
  destruct (release_all_cases a (release_calls self) None) as [[Hall ->]|(released & c & rest & e' & Hc & Hall & Ha & He' & ->)].
  - pose proof (all_answer a (release_calls self)) as Hans.
    destruct (head (omap (answer_to a) (release_calls self))); cbn; split_and!; try done;
      (eexists; split; [done|]); by constructor.
  - cbn. split_and!; try done. eexists. split; [done|]. by eapply start_release_cancelled.
Qed.

(** The start failed at a call: what was called before it and what it raised. *)
Local Ltac stopped_at before c rest error E :=
  lazymatch goal with |- context [start_failed ?a ?made ?d ?r ?p ?e ?self] =>
    pose proof (start_failed_spec a made d r p e self ltac:(done)) as H;
    destruct (start_failed a made d r p e self) as [[self' calls] res];
    destruct H as (Hpr & (raised & -> & Hst) & Hd & Hr & Hp);
    split; [congruence|]; exists before, c, rest, error;
    split; [done|]; split; [by repeat constructor|]; split; [exact E|]; split; [exact Hst|];
    split; [rewrite Hd; cbn; split; intros; (done || lia)|];
    split; [rewrite Hr; cbn; split; intros; (done || lia)|exact Hp]
  end.

(** [C11] A start that nothing interleaves.  A started application answers at once, one
    that shuts down refuses.  In any other state the dependencies are called in order,
    database, cache, provider.  If every call answers, the application is started with all
    of them healthy.  Otherwise the start stops at the first call that raises: every
    dependency is released, whatever the releases answer, the application is failed and
    the error says whether a release failed; but a call, or a release, that is cancelled
    ends the start there: nothing, or nothing more, is released and the application stays
    STARTING. *)
Theorem app_start_correct a self :
  let '(self', calls, res) := app_start a self in
  match al_state self with
  | APP_STARTED => self' = self /\ calls = [] /\ res = Ok tt
  | APP_SHUTTING_DOWN => self' = self /\ calls = []
      /\ res = Raise (ApplicationStartupError "Application startup is blocked while shutdown is in progress")
  | _ => al_provider self' = al_provider self
      /\ match res with
         | Ok _ => calls = needed_calls self /\ Forall (answers a) (needed_calls self)
             /\ al_state self' = APP_STARTED
             /\ al_database_state self' = DEP_HEALTHY /\ al_redis_state self' = DEP_HEALTHY
             /\ (al_provider self = true -> al_provider_state self' = DEP_HEALTHY)
         | Raise raised => exists before c after error,
             needed_calls self = before ++ c :: after
             /\ Forall (answers a) before /\ answer_to a c = Some error
             /\ stopped_start a self (before ++ [c]) error (al_state self') calls raised
             /\ (al_database_state self' = DEP_HEALTHY <-> (2 <= length before)%nat)
             /\ (al_redis_state self' = DEP_HEALTHY <-> (4 <= length before)%nat)
             /\ al_provider_state self' <> DEP_HEALTHY
         end
  end.
Proof.
  unfold app_start. destruct (al_state self) eqn:Est; [..|done|]; [|done|..].
  all: unfold start_dependencies, needed_calls, database_calls, redis_calls; cbn [call_all app].
  all: destruct (answer_to a DB_INITIALIZE) as [e|] eqn:E1;
    [stopped_at (@nil DependencyCall) DB_INITIALIZE ([DB_VERIFY; REDIS_INITIALIZE; REDIS_VERIFY] ++ (if al_provider self then [PROVIDER_START] else [])) e E1|].
  all: destruct (answer_to a DB_VERIFY) as [e|] eqn:E2;
    [stopped_at [DB_INITIALIZE] DB_VERIFY ([REDIS_INITIALIZE; REDIS_VERIFY] ++ (if al_provider self then [PROVIDER_START] else [])) e E2|].
  all: destruct (answer_to a REDIS_INITIALIZE) as [e|] eqn:E3;
    [stopped_at [DB_INITIALIZE; DB_VERIFY] REDIS_INITIALIZE ([REDIS_VERIFY] ++ (if al_provider self then [PROVIDER_START] else [])) e E3|].
  all: destruct (answer_to a REDIS_VERIFY) as [e|] eqn:E4;
    [stopped_at [DB_INITIALIZE; DB_VERIFY; REDIS_INITIALIZE] REDIS_VERIFY (if al_provider self then [PROVIDER_START] else []) e E4|].
  all: destruct (al_provider self) eqn:Ep;
    [destruct (answer_to a PROVIDER_START) as [e|] eqn:E5;
       [stopped_at [DB_INITIALIZE; DB_VERIFY; REDIS_INITIALIZE; REDIS_VERIFY] PROVIDER_START (@nil DependencyCall) e E5|]|].
  all: cbn; split_and!; try done; repeat constructor; done.
Qed.

(** ** Readiness *)

Lemma readiness_truthful a self :
  hs_status (readiness_snapshot a self).2 = "ready" <->
  al_state self = APP_STARTED /\ answer_to a DB_VERIFY = None /\ answer_to a REDIS_VERIFY = None
  /\ (al_provider self = true -> answer_to a PROVIDER_HEALTH = None /\ answer_health a = HEALTHY).
Proof.
  unfold readiness_snapshot, readiness_response, with_states, probe_state, probe_provider.
  destruct self as [provider state database redis prov]. cbn.
  destruct (decide (state = APP_STARTED)) as [->|Hs].
  - cbn. destruct (answer_to a DB_VERIFY), (answer_to a REDIS_VERIFY), provider, (answer_to a PROVIDER_HEALTH);
      cbn; try (destruct (answer_health a); cbn); split; intros; naive_solver.
  - destruct state; try done; cbn; naive_solver.
Qed.

(** ** The composition *)

Section CompositionLemmas.
Context (publish : ContextEvent -> option exn).
Context {P : Type} `{!ShadowPublisher P}.

Local Abbreviation Runtime := (@LiveMarketRuntime P).

(** A coordinator's start from fresh: it has attempted, and the connection it opened is
    still to close; it is started when the provider connects and answers healthy. *)
Lemma fresh_start timeout connect health :
  let '(self, calls, res) := coordinator_start timeout connect health (mk_coordinator true) in
  open_attempt false calls = Some true /\ pc_adapter self = true /\ pc_connect_attempted self = true
  /\ pc_timeout_seconds self = Some timeout /\ (res = Ok tt <-> connect = Ok tt /\ health = Ok HEALTHY)
  /\ pc_started self = bool_decide (res = Ok tt).
Proof.
  unfold coordinator_start, mk_coordinator. cbn.
  destruct connect as [[]|e].
  - destruct health as [status|e]; cbn.
    + destruct status; cbn; split_and!; try done; naive_solver.
    + destruct e; cbn; split_and!; try done; naive_solver.
  - destruct e; cbn; split_and!; try done; naive_solver.
Qed.

Lemma universe_of_cash live instruments : canonical_cash_equity_universe live = Ok instruments ->
  instruments = map dr_instrument (lu_cash_references live) /\ instruments <> [] /\ NoDup instruments.
Proof.
  unfold canonical_cash_equity_universe. intros H.
  destruct (decide (map dr_instrument (lu_cash_references live) = [])) as [E|E]; [by rewrite (bool_decide_true _ E) in H|].
  rewrite (bool_decide_false _ E) in H. cbn in H.
  case_bool_decide as Hl; cbn in H; [|discriminate]. injection H as <-. split_and!; [done|done|].
  by apply from_keys_length.
Qed.

Lemma prepared a instruments entries : prepare a = Ok (instruments, entries) ->
  ca_load_instruments (P := P) a = Ok tt /\ ca_dataset a = Ok tt /\ ca_entries a = Ok entries
  /\ exists live, ca_live_universe a = Ok live /\ canonical_cash_equity_universe live = Ok instruments.
Proof.
  unfold prepare. intros H. destruct (ca_load_instruments a) as [[]|e]; [|done]. cbn in H.
  destruct (ca_live_universe a) as [live|e]; [|done]. cbn in H.
  destruct (canonical_cash_equity_universe live) as [found|e] eqn:Eu; [|done]. cbn in H.
  destruct (ca_dataset a) as [[]|e]; [|by destruct e]. cbn in H. destruct (ca_entries a) as [x|e]; [|done]. cbn in H.
  injection H as <- <-. split_and!; try done. by exists live.
Qed.

Lemma unwind_spec {A} (a : ComposeAnswers (P := P)) self e timeout :
  pc_adapter self = true -> pc_connect_attempted self = true -> pc_timeout_seconds self = Some timeout ->
  exists e', @unwind P A a self e = ([DISCONNECT], Raise e').
Proof.
  intros H1 H2 H3. unfold unwind, coordinator_shutdown. rewrite H1, H2. cbn. unfold run_with_timeout. cbn. rewrite H3. cbn.
  destruct (ca_disconnect a) as [|d]; cbn; [by eexists|]. by destruct d; eexists.
Qed.

(** Composing the runtime either hands out a connected, healthy provider with a runtime
    over a non-empty universe without repetition, or raises, and then the connection it
    attempted is closed, unless everything was there and only a constructor raised. *)
Theorem compose_cleans_up timeout (a : ComposeAnswers (P := P)) :
  let '(calls, res) := compose_market_runtime timeout a in
  match res with
  | Ok composition =>
      open_attempt false calls = Some true /\ ca_connect a = Ok tt /\ ca_health a = Ok HEALTHY
      /\ (exists coordinator, cp_provider_coordinator composition = Some coordinator
           /\ pc_started coordinator = true /\ pc_connect_attempted coordinator = true)
      /\ exists live instruments entries, ca_live_universe a = Ok live
           /\ instruments = map dr_instrument (lu_cash_references live) /\ instruments <> [] /\ NoDup instruments
           /\ ca_entries a = Ok entries
           /\ ca_construct a instruments entries = Ok (cp_config composition, cp_runtime composition)
  | Raise e =>
      open_attempt false calls = Some false
      \/ exists instruments entries, prepare a = Ok (instruments, entries) /\ ca_construct a instruments entries = Raise e
  end.
Proof.
  unfold compose_market_runtime.
  pose proof (fresh_start timeout (ca_connect a) (ca_health a)) as Hs.
  destruct (coordinator_start timeout (ca_connect a) (ca_health a) (mk_coordinator true)) as [[self calls] res].
  destruct Hs as (H1 & H2 & H3 & H4 & H5 & H6).
  assert (Hundo : forall e, let '(calls, res) := let '(more, res) := @unwind P (RuntimeComposition (P := P)) a self e in (calls ++ more, res) in
    (exists e', res = Raise e') /\ open_attempt false calls = Some false).
  { intros e. destruct (unwind_spec (A := RuntimeComposition (P := P)) a self e timeout H2 H3 H4) as [e' ->].
    split; [by eexists|]. by rewrite open_attempt_app, H1. }
  destruct res as [[]|e]; cbn [mbind].
  - destruct (prepare a) as [[instruments entries]|e] eqn:Ep; cbn.
    + destruct (ca_construct a instruments entries) as [[config runtime]|e] eqn:Ec; [|right; by exists instruments, entries].
      destruct (proj1 H5 eq_refl) as [Hc Hh]. destruct (prepared _ _ _ Ep) as (_ & _ & He & live & Hl & Hu).
      destruct (universe_of_cash _ _ Hu) as (Hi & Hne & Hnd).
      split_and!; try done; [exists self; by rewrite H6|]. by exists live, instruments, entries.
    + specialize (Hundo e). destruct (unwind a self e) as [more res]. destruct Hundo as [[e' ->] Hq]. by left.
  - cbn. specialize (Hundo e). destruct (unwind a self e) as [more res]. destruct Hundo as [[e' ->] Hq]. by left.
Qed.

(** Whatever else happens to the runtime. *)
Lemma fatal_stays config (w w' : RuntimeWorld (P := P)) : runtime_reachable publish config w ->
  rtc (runtime_step publish config) w w' -> fatal_kept (w_runtime w) (w_runtime w').
Proof.
  intros Hr Hs. induction Hs as [x|x y z Hxy Hyz IH]; [done|].
  destruct (fatal_sticks publish config x y (runtime_reachable_ok publish config x Hr) Hxy) as [A1 A2].
  destruct (IH (reachable_step publish config x y Hr Hxy)) as [B1 B2]. split; auto.
Qed.

(** A fatal end of the ingestion or of the refresh driver is not forgotten: once the runtime
    has one, whatever happens to it after, the provider dependency never answers healthy and
    the scanner's results are never served. *)
Theorem fatal_task_stays_down config (w w' : RuntimeWorld (P := P)) coordinator health :
  let runtime := w_runtime w in
  let runtime' := w_runtime w' in
  runtime_reachable publish config w ->
  rt_refresh_driver_failed runtime || ig_failed (ingestion_of runtime) = true ->
  rtc (runtime_step publish config) w w' ->
  let self := Some {| cp_config := config; cp_runtime := runtime'; cp_provider_coordinator := coordinator |} in
  dependency_verify_health health self <> Ok HEALTHY /\ scanner_read_available self = false.
Proof.
  intros runtime runtime' Hr Hf Hs. destruct (fatal_stays config w w' Hr Hs) as [H1 H2].
  fold runtime runtime' in H1, H2.
  assert (Hfatal : ig_failed (ingestion_of runtime') || rt_refresh_driver_failed runtime' = true).
  { apply orb_true_iff in Hf as [Hf|Hf]; [rewrite (H1 Hf); apply orb_true_r|by rewrite (H2 Hf)]. }
  cbn [dependency_verify_health scanner_read_available cp_provider_coordinator cp_config cp_runtime status
       st_ingestion_running st_fatal_ingestion_error st_fatal_refresh_driver_error st_state st_fatal_calendar_monitor_error].
  split.
  - assert (Hnone : forall b r, (if b && r && negb (ig_failed (ingestion_of runtime')) && negb (rt_refresh_driver_failed runtime')
                                then HEALTHY else DOWN) = DOWN).
    { intros b r. apply orb_true_iff in Hfatal as [->| ->]; cbn; by rewrite ?andb_false_r. }
    destruct coordinator as [c|]; cbn; [|by rewrite Hnone].
    destruct (coordinator_verify_health c health).2 as [s|e]; cbn; [by rewrite Hnone|done].
  - rewrite Hfatal. cbn. by rewrite andb_false_r.
Qed.
End CompositionLemmas.

(** ** At concrete answers *)

(** The database answers and the cache does not. *)
Definition cache_down : Answers := {|
  answer_to := fun c => match c with REDIS_VERIFY => Some OSError | _ => None end; answer_health := HEALTHY |}.

Lemma cache_down_fails :
  let '(self, calls, res) := app_start cache_down (mk_application true) in
  al_state self = APP_FAILED /\ res = Raise startup_blocked
  /\ calls = [DB_INITIALIZE; DB_VERIFY; REDIS_INITIALIZE; REDIS_VERIFY; PROVIDER_SHUTDOWN; REDIS_CLOSE; DB_DISPOSE].
Proof. vm_compute. done. Qed.

(** The connection to the cache is cancelled: the database stays open. *)
Lemma cancelled_start_releases_nothing :
  let a := {| answer_to := fun c => match c with REDIS_INITIALIZE => Some CancelledError | _ => None end;
              answer_health := HEALTHY |} in
  let '(self, calls, res) := app_start a (mk_application true) in
  al_state self = APP_STARTING /\ res = Raise CancelledError
  /\ calls = [DB_INITIALIZE; DB_VERIFY; REDIS_INITIALIZE].
Proof. vm_compute. done. Qed.

(** The refresh driver of the sample runtime ends by itself; a shutdown then begins. *)
Definition driverless_world : RuntimeWorld :=
  with_runtime (with_driver REFRESH_DRIVER (Done (TaskFinished (Some InvalidOperation))) started_runtime) started_world.

Lemma fatal_task_stays_down_witness :
  let self := Some {| cp_config := sample_config; cp_runtime := shutdown_begin (w_runtime driverless_world);
    cp_provider_coordinator := None |} in
  dependency_verify_health (Ok HEALTHY) self <> Ok HEALTHY /\ scanner_read_available self = false.
Proof.
  apply (fatal_task_stays_down (fun _ => None) sample_config driverless_world
    {| w_runtime := shutdown_begin (w_runtime driverless_world); w_start_waits := false; w_late := false;
       w_shutdown := Cancelling (owned_tasks (w_runtime driverless_world)) [] |}).
  - eapply reachable_step; [apply started_reachable|]. by apply step_driver.
  - reflexivity.
  - eapply rtc_l; [by apply step_shutdown_begins|apply rtc_refl].
Defined.

(** Everything a composition asks for is there, and a constructor raises. *)
Definition constructor_raises (e : exn) : ComposeAnswers (P := unit) := {|
  ca_connect := Ok tt; ca_health := Ok HEALTHY; ca_disconnect := Ok tt; ca_load_instruments := Ok tt;
  ca_live_universe := Ok {| lu_underlyings := []; lu_cash_references := [sample_reference]; lu_missing_underlyings := [];
    lu_ambiguous_underlyings := []; lu_symbol_mismatches := [] |};
  ca_dataset := Ok tt; ca_entries := Ok []; ca_construct := fun _ _ => Raise e |}.

(** A constructor that raises, such as the one that reads the sector dataset, leaves the
    provider connected: nothing holds the coordinator any more. *)
Lemma constructor_error_leaks e timeout :
  compose_market_runtime timeout (constructor_raises e) = ([CONNECT; GET_HEALTH], Raise e)
  /\ open_attempt false [CONNECT; GET_HEALTH] = Some true.
Proof. split; reflexivity. Qed.

(** A driver that ends with an error when it is shut down, as the evidence observer does when
    its last write fails, leaves the provider connected, and the dependency holds nothing
    that could still disconnect it. *)
Lemma shutdown_error_leaks e disconnect coordinator :
  let faults := {| sf_cancel := fun _ => TaskCancelled; sf_finalize := Some e |} in
  dependency_shutdown (fun _ => None) faults disconnect
    (Some {| cp_config := sample_config; cp_runtime := started_runtime; cp_provider_coordinator := Some coordinator |})
  = (None, [], Raise e).
Proof. vm_compute. reflexivity. Qed.
