(* ===== verification/CalendarDataset.v ===== *)
(** The governed trading-calendar dataset, market_engine/calendar_data/dataset.py, with the
    schedule and calendar built from settings (services/market_runtime.py,
    [_schedule_and_calendar]) and the live classifier built from the dataset
    (services/dhan_runtime_composition.py, [_live_session_classifier]).

    A raw dataset is what the JSON file holds once its fields have their types; the
    constructors validate it as pydantic runs the validators, every [ValueError] of theirs
    becoming a [ValidationError].  The theorems say which datasets are accepted and what
    the projections of an accepted one answer; the packaged NSE 2026 dataset is the
    concrete input. *)
From Stdlib Require Import Ascii.
From S2P Require Import Prelude PyTime PyDate MarketData Session PyText.

Local Open Scope Z_scope.

(** * The dataset *)

Record CalendarProvenance : Type := {
  pv_circular_id : string;
  pv_circular_date : date;
  pv_segment : string;
  pv_fact : string;
}.

Record IntervalSpec : Type := {
  is_start : time;
  is_end : time;
}.

Record SessionOverrideSpec : Type := {
  so_trading_date : date;
  so_intervals : list IntervalSpec;
}.

Record TradingCalendarDataset : Type := {
  ds_dataset_id : string;
  ds_version : string;
  ds_segment : string;
  ds_coverage_start : date;
  ds_coverage_end : date;
  ds_closed_dates : list date;
  ds_open_sessions : list date;
  ds_session_overrides : list SessionOverrideSpec;
  ds_provenance : list CalendarProvenance;
}.

(** What a validator raises is reported as a validation error. *)
Definition as_validation {A} (r : result A) : result A :=
  match r with Raise (ValueError m) => Raise (ValidationError m) | _ => r end.

(** [_require_non_empty] *)
Definition require_non_empty (value : string) : result unit :=
  raise_if (is_empty (strip value)) (ValueError "field must be a non-empty string").

(** [CalendarProvenance(...)] *)
Definition mk_provenance (raw : CalendarProvenance) : result CalendarProvenance :=
  as_validation
    (_ ← require_non_empty (pv_circular_id raw);
     _ ← require_non_empty (pv_segment raw);
     _ ← require_non_empty (pv_fact raw);
     Ok raw).

(** ** Projections *)

(** [calendar_coverage] *)
Definition calendar_coverage (self : TradingCalendarDataset) : result CalendarCoverage :=
  mk_coverage (ds_coverage_start self) (ds_coverage_end self).

(** [trading_calendar] *)
Definition trading_calendar (self : TradingCalendarDataset) : result TradingCalendar :=
  mk_calendar [] (ds_closed_dates self) (ds_open_sessions self) default_weekend.

Definition interval_of_spec (iv : IntervalSpec) : result TradingInterval := mk_interval (is_start iv) (is_end iv).

Definition override_of_spec (spec : SessionOverrideSpec) : result TradingSessionOverride :=
  intervals ← traverse interval_of_spec (so_intervals spec);
  mk_override (so_trading_date spec) intervals.

(** [session_overrides_domain] *)
Definition session_overrides_domain (self : TradingCalendarDataset) : result (list TradingSessionOverride) :=
  traverse override_of_spec (ds_session_overrides self).

(** [effective_schedule] *)
Definition effective_schedule (self : TradingCalendarDataset) (default_schedule : SessionSchedule) : result EffectiveSchedule :=
  overrides ← session_overrides_domain self; mk_effective default_schedule overrides.

(** ** Validation *)

Definition override_dates (self : TradingCalendarDataset) : list date := map so_trading_date (ds_session_overrides self).

(** [len(set(days)) != len(days)] *)
Definition has_duplicates (days : list date) : bool := negb (length (from_keys [] days) =? length days)%nat.

(** [_validate_unique] *)
Definition validate_unique (self : TradingCalendarDataset) : result unit :=
  _ ← raise_if (has_duplicates (ds_closed_dates self)) (ValueError "duplicate closed dates are not permitted");
  _ ← raise_if (has_duplicates (ds_open_sessions self)) (ValueError "duplicate open dates are not permitted");
  raise_if (has_duplicates (override_dates self)) (ValueError "duplicate session override dates are not permitted").

Definition outside_coverage (label : string) (coverage : CalendarCoverage) (day : date) : result unit :=
  raise_if (negb (contains coverage day)) (ValueError (label ++ " date " ++ isoformat day ++ " lies outside coverage")).

(** [_validate_within_coverage] *)
Definition validate_within_coverage (coverage : CalendarCoverage) (self : TradingCalendarDataset) : result unit :=
  _ ← for_each (outside_coverage "closed" coverage) (ds_closed_dates self);
  _ ← for_each (outside_coverage "open" coverage) (ds_open_sessions self);
  for_each (outside_coverage "override" coverage) (override_dates self).

(** [_validate_overrides_reference_open] *)
Definition validate_overrides_reference_open (self : TradingCalendarDataset) : result unit :=
  for_each (fun day => raise_if (negb (bool_decide (day ∈ ds_open_sessions self)))
              (ValueError ("session override " ++ isoformat day ++ " is not a declared open session")))
    (override_dates self).

(** [_ISO_DATE.findall] *)
Definition iso_dates_in (fact : string) : list string := findall_shape "dddd-dd-dd" 0 fact.

Definition attested_dates (self : TradingCalendarDataset) : result (list date) :=
  traverse date_fromisoformat (flat_map (fun entry => iso_dates_in (pv_fact entry)) (ds_provenance self)).

(** [required - attested], sorted. *)
Definition missing_attestations (self : TradingCalendarDataset) (attested : list date) : list date :=
  py_sorted Z.leb (from_keys [] (filter (fun day => day ∉ attested)
    (ds_closed_dates self ++ ds_open_sessions self ++ override_dates self))).

Definition joined_dates (days : list date) : string :=
  match map isoformat days with
  | [] => ""
  | day :: days => fold_left (fun text day => (text ++ ", " ++ day)%string) days day
  end.

(** [_validate_provenance] *)
Definition validate_provenance (self : TradingCalendarDataset) : result unit :=
  _ ← raise_if (bool_decide (ds_provenance self = [])) (ValueError "dataset requires at least one provenance entry");
  attested ← attested_dates self;
  let missing := missing_attestations self attested in
  raise_if (negb (bool_decide (missing = [])))
    (ValueError ("missing provenance attestation for dates: " ++ joined_dates missing)).

(** [_validate] *)
Definition validate_dataset (self : TradingCalendarDataset) : result unit :=
  coverage ← calendar_coverage self;
  _ ← validate_unique self;
  _ ← validate_within_coverage coverage self;
  _ ← validate_overrides_reference_open self;
  _ ← trading_calendar self;
  _ ← session_overrides_domain self;
  validate_provenance self.

(** [TradingCalendarDataset(...)] *)
Definition mk_dataset (raw : TradingCalendarDataset) : result TradingCalendarDataset :=
  as_validation
    (_ ← require_non_empty (ds_dataset_id raw);
     _ ← require_non_empty (ds_version raw);
     _ ← require_non_empty (ds_segment raw);
     _ ← traverse mk_provenance (ds_provenance raw);
     _ ← validate_dataset raw;
     Ok raw).

(** * From settings *)

(** The session texts of [Settings]. *)
Record SessionSettings : Type := {
  nse_pre_open_start : string;
  nse_opening_auction_start : string;
  nse_regular_open : string;
  nse_regular_close : string;
  nse_closing_end : string;
  nse_holidays : string;
}.

(** [validate_session_time] *)
Definition validate_session_time (value : string) : result string :=
  let normalized := strip value in
  match strptime_hm normalized with
  | Ok _ => Ok normalized
  | Raise _ => Raise (ValueError "session boundary times must be formatted as HH:MM")
  end.

(** The entries of [nse_holidays]. *)
Definition holiday_entries (value : string) : list string :=
  filter (fun entry => is_empty entry = false) (map strip (split_on (fun c => bool_decide (c = ","%char)) value)).

(** [validate_holidays] *)
Definition validate_holidays (value : string) : result string :=
  match for_each (fun entry => _ ← date_fromisoformat entry; Ok tt) (holiday_entries value) with
  | Ok _ => Ok value
  | Raise _ => Raise (ValueError "NSE_HOLIDAYS entries must be ISO dates (YYYY-MM-DD)")
  end.

(** The session texts as [Settings] validates them. *)
Definition mk_session_settings (raw : SessionSettings) : result SessionSettings :=
  as_validation
    (pre_open ← validate_session_time (nse_pre_open_start raw);
     auction ← validate_session_time (nse_opening_auction_start raw);
     open ← validate_session_time (nse_regular_open raw);
     close ← validate_session_time (nse_regular_close raw);
     closing ← validate_session_time (nse_closing_end raw);
     holidays ← validate_holidays (nse_holidays raw);
     Ok {| nse_pre_open_start := pre_open; nse_opening_auction_start := auction; nse_regular_open := open;
           nse_regular_close := close; nse_closing_end := closing; nse_holidays := holidays |}).

(** [_parse_time] *)
Definition parse_time (value : string) : result time := strptime_hm (strip value).

(** [_schedule_and_calendar] *)
Definition schedule_and_calendar (settings : SessionSettings) : result (SessionSchedule * TradingCalendar) :=
  pre_open ← parse_time (nse_pre_open_start settings);
  auction ← parse_time (nse_opening_auction_start settings);
  open ← parse_time (nse_regular_open settings);
  close ← parse_time (nse_regular_close settings);
  closing ← parse_time (nse_closing_end settings);
  schedule ← mk_schedule {| pre_open_start := pre_open; opening_auction_start := auction; regular_open := open;
                            regular_close := close; closing_end := closing |};
  holidays ← traverse date_fromisoformat (holiday_entries (nse_holidays settings));
  calendar ← mk_calendar holidays [] [] default_weekend;
  Ok (schedule, calendar).

(** [_live_session_classifier] *)
Definition live_session_classifier (settings : SessionSettings) (timezone : ZoneInfo) (dataset : TradingCalendarDataset)
    : result MarketSessionClassifier :=
  '(schedule, _) ← schedule_and_calendar settings;
  calendar ← trading_calendar dataset;
  coverage ← calendar_coverage dataset;
  Ok {| cls_schedule := schedule; cls_calendar := calendar; cls_timezone := timezone; cls_coverage := Some coverage |}.

(** * Lemmas *)

Lemma raise_if_pass b e : raise_if b e = Ok tt <-> b = false.
Proof. by destruct b. Qed.

Lemma bind_pass (r : result unit) {B} (k : result B) b : (_ ← r; k) = Ok b <-> r = Ok tt /\ k = Ok b.
Proof. destruct r as [[]|e]; cbn; [tauto|]. split; [done|by intros [? _]]. Qed.

Lemma as_validation_ok {A} (r : result A) a : as_validation r = Ok a <-> r = Ok a.
Proof. destruct r as [x|e]; [done|]. by destruct e. Qed.

Lemma non_empty_pass value : require_non_empty value = Ok tt <-> strip value <> EmptyString.
Proof. unfold require_non_empty. rewrite raise_if_pass. destruct (strip value); cbn; [|done]. split; [done|]. by intros []. Qed.

Lemma no_duplicates days : has_duplicates days = false <-> NoDup days.
Proof.
  unfold has_duplicates. rewrite negb_false_iff, Nat.eqb_eq. apply from_keys_length.
Qed.

(** ** Which overrides are accepted *)

Definition interval_ok (iv : IntervalSpec) : Prop := is_start iv < is_end iv.

(** Intervals follow each other with a gap. *)
Fixpoint gapped (intervals : list IntervalSpec) : Prop :=
  match intervals with
  | a :: (b :: _) as rest => is_end a < is_start b /\ gapped rest
  | _ => True
  end.

Definition override_ok (spec : SessionOverrideSpec) : Prop :=
  so_intervals spec <> [] /\ Forall interval_ok (so_intervals spec) /\ gapped (so_intervals spec).

Definition domain_interval (iv : IntervalSpec) : TradingInterval := {| interval_start := is_start iv; interval_end := is_end iv |}.
Definition domain_override (spec : SessionOverrideSpec) : TradingSessionOverride :=
  {| override_date := so_trading_date spec; live_intervals := map domain_interval (so_intervals spec) |}.

Lemma interval_of_spec_ok iv d : interval_of_spec iv = Ok d <-> interval_ok iv /\ d = domain_interval iv.
Proof.
  unfold interval_of_spec, mk_interval, interval_ok. destruct (is_end iv <=? is_start iv) eqn:E; cbn.
  - apply Z.leb_le in E. split; [done|]. intros [? _]. lia.
  - apply Z.leb_gt in E. split; [by intros [= <-]|]. by intros [_ ->].
Qed.

Lemma gap_check intervals :
  py_any (fun p => interval_start (snd p) <=? interval_end (fst p)) (pairwise (map domain_interval intervals)) = false
  <-> gapped intervals.
Proof.
  unfold pairwise. induction intervals as [|a [|b l] IH]; [done|done|].
  cbn [map drop zip zip_with py_any existsb fst snd gapped] in *. unfold py_any in *. rewrite orb_false_iff, IH.
  cbn. by rewrite Z.leb_gt.
Qed.

Lemma traverse_exact {A B} (f : A -> result B) (P : A -> Prop) (g : A -> B) xs ys :
  (forall x y, f x = Ok y <-> P x /\ y = g x) -> traverse f xs = Ok ys <-> Forall P xs /\ ys = map g xs.
Proof.
  intros Hf. rewrite traverse_ok. revert ys. induction xs as [|x xs IH]; intros ys; cbn.
  - split; [inversion 1; done|]. by intros [_ ->].
  - rewrite Forall_cons. split.
    + inversion 1 as [|? y ? ys' Hy Hys]; subst. apply Hf in Hy as [? ->]. apply IH in Hys as [? ->]. done.
    + intros [[? ?] ->]. constructor; [by apply Hf|]. by apply IH.
Qed.

Lemma override_of_spec_ok spec d : override_of_spec spec = Ok d <-> override_ok spec /\ d = domain_override spec.
Proof.
  unfold override_of_spec, override_ok. split.
  - intros (ivs & Hi & Hm)%bind_ok. apply (traverse_exact _ interval_ok domain_interval) in Hi as [Hi ->]; [|apply interval_of_spec_ok].
    unfold mk_override in Hm. apply bind_pass in Hm as [Hne Hm]. apply bind_pass in Hm as [Hg [= <-]].
    apply raise_if_pass, gap_check in Hg. split; [|done]. split_and!; try done. intros Hn. by rewrite Hn in Hne.
  - intros [(Hne & Hi & Hg) ->]. rewrite (proj2 (traverse_exact _ interval_ok domain_interval (so_intervals spec) _ interval_of_spec_ok) (conj Hi eq_refl)).
    cbn. unfold mk_override. apply gap_check in Hg. destruct (so_intervals spec) as [|iv l] eqn:E; [done|].
    rewrite <- E in *. rewrite Hg. unfold domain_override. by rewrite E.
Qed.

(** ** Which datasets are accepted *)

Definition governed_dates (self : TradingCalendarDataset) : list date :=
  ds_closed_dates self ++ ds_open_sessions self ++ override_dates self.

(** The text of a date in the fact of an entry attests it. *)
Definition attested (self : TradingCalendarDataset) (day : date) : Prop :=
  exists entry text, entry ∈ ds_provenance self /\ text ∈ iso_dates_in (pv_fact entry) /\ date_fromisoformat text = Ok day.

Record dataset_ok (self : TradingCalendarDataset) : Prop := {
  dok_named : strip (ds_dataset_id self) <> EmptyString /\ strip (ds_version self) <> EmptyString
    /\ strip (ds_segment self) <> EmptyString;
  dok_coverage : ds_coverage_start self <= ds_coverage_end self;
  dok_closed : NoDup (ds_closed_dates self);
  dok_open : NoDup (ds_open_sessions self);
  dok_override_dates : NoDup (override_dates self);
  dok_covered : Forall (fun day => ds_coverage_start self <= day <= ds_coverage_end self) (governed_dates self);
  dok_overrides_open : forall day, day ∈ override_dates self -> day ∈ ds_open_sessions self;
  dok_disjoint : forall day, day ∈ ds_closed_dates self -> day ∉ ds_open_sessions self;
  dok_overrides : Forall override_ok (ds_session_overrides self);
  dok_provenance : ds_provenance self <> [];
  dok_entries : Forall (fun entry => strip (pv_circular_id entry) <> EmptyString /\ strip (pv_segment entry) <> EmptyString
    /\ strip (pv_fact entry) <> EmptyString) (ds_provenance self);
  dok_facts : forall entry text, entry ∈ ds_provenance self -> text ∈ iso_dates_in (pv_fact entry) ->
    exists day, date_fromisoformat text = Ok day;
  dok_attested : forall day, day ∈ governed_dates self -> attested self day;
}.

Lemma mk_provenance_ok raw entry : mk_provenance raw = Ok entry <->
  (strip (pv_circular_id raw) <> EmptyString /\ strip (pv_segment raw) <> EmptyString /\ strip (pv_fact raw) <> EmptyString)
  /\ entry = raw.
Proof.
  unfold mk_provenance. rewrite as_validation_ok, !bind_pass, !non_empty_pass. split.
  - intros (? & ? & ? & [= <-]). done.
  - intros [(? & ? & ?) ->]. done.
Qed.

Lemma dataset_coverage_ok self coverage : calendar_coverage self = Ok coverage <->
  ds_coverage_start self <= ds_coverage_end self
  /\ coverage = {| cov_start_date := ds_coverage_start self; cov_end_date := ds_coverage_end self |}.
Proof.
  unfold calendar_coverage, mk_coverage. rewrite bind_pass, raise_if_pass, Z.ltb_ge. split.
  - by intros [? [= <-]].
  - by intros [? ->].
Qed.

Lemma calendar_ok self calendar : trading_calendar self = Ok calendar <->
  (forall day, day ∈ ds_closed_dates self -> day ∉ ds_open_sessions self)
  /\ calendar = {| closed_dates := list_to_set (ds_closed_dates self); open_sessions := list_to_set (ds_open_sessions self);
                   weekend_days := list_to_set default_weekend |}.
Proof.
  unfold trading_calendar, mk_calendar. cbn [list_to_set]. rewrite bind_pass, raise_if_pass, negb_false_iff, bool_decide_eq_true.
  cbn [closed_dates open_sessions]. rewrite (left_id_L ∅ (∪)). split.
  - intros [Hd [= <-]]. split; [|done]. intros day Hc Ho. apply (not_elem_of_empty (C := gset Z) day).
    rewrite <- Hd, elem_of_intersection, !elem_of_list_to_set. done.
  - intros [Hd ->]. split; [|done]. apply leibniz_equiv. intros day. rewrite elem_of_intersection, !elem_of_list_to_set.
    split; [|by intros ?%not_elem_of_empty]. intros [? ?]. by destruct (Hd day).
Qed.

Lemma within_coverage_ok self coverage : validate_within_coverage coverage self = Ok tt <->
  Forall (fun day => cov_start_date coverage <= day <= cov_end_date coverage) (governed_dates self).
Proof.
  assert (Hday : forall label days, for_each (outside_coverage label coverage) days = Ok tt <->
    Forall (fun day => cov_start_date coverage <= day <= cov_end_date coverage) days).
  { intros label days. rewrite for_each_ok. apply Forall_iff. intros day. unfold outside_coverage, contains.
    rewrite raise_if_pass, negb_false_iff, andb_true_iff, !Z.leb_le. done. }
  unfold validate_within_coverage, governed_dates. rewrite !bind_pass, !Hday, !Forall_app. done.
Qed.

Lemma attested_dates_ok self days : attested_dates self = Ok days -> forall day, day ∈ days <-> attested self day.
Proof.
  unfold attested_dates. intros H day. apply traverse_ok in H. split.
  - intros Hd. apply list_elem_of_lookup in Hd as [i Hi]. destruct (Forall2_lookup_r _ _ _ _ _ H Hi) as (text & Ht & He).
    apply list_elem_of_lookup_2 in Ht. apply list_elem_of_In, in_flat_map in Ht as (entry & Hin & Hf).
    exists entry, text. split_and!; try (by apply list_elem_of_In); done.
  - intros (entry & text & Hin & Hf & He). assert (Ht : text ∈ flat_map (fun entry => iso_dates_in (pv_fact entry)) (ds_provenance self)).
    { apply list_elem_of_In, in_flat_map. exists entry. split; by apply list_elem_of_In. }
    apply list_elem_of_lookup in Ht as [i Hi]. destruct (Forall2_lookup_l _ _ _ _ _ H Hi) as (day' & Hd & He').
    rewrite He in He'. injection He' as ->. by apply list_elem_of_lookup_2 in Hd.
Qed.

Lemma attested_dates_total self :
  (exists days, attested_dates self = Ok days) <->
  forall entry text, entry ∈ ds_provenance self -> text ∈ iso_dates_in (pv_fact entry) -> exists day, date_fromisoformat text = Ok day.
Proof.
  unfold attested_dates. split.
  - intros [days H] entry text He Ht. apply traverse_ok in H.
    assert (Hin : text ∈ flat_map (fun entry => iso_dates_in (pv_fact entry)) (ds_provenance self)).
    { apply list_elem_of_In, in_flat_map. exists entry. split; by apply list_elem_of_In. }
    apply list_elem_of_lookup in Hin as [i Hi]. destruct (Forall2_lookup_l _ _ _ _ _ H Hi) as (day & _ & ?). by exists day.
  - intros H. destruct (traverse_total date_fromisoformat (fun _ _ => True)
      (flat_map (fun entry => iso_dates_in (pv_fact entry)) (ds_provenance self))) as (days & Hd & _).
    + intros text Ht. apply list_elem_of_In, in_flat_map in Ht as (entry & He & Ht). apply list_elem_of_In in He, Ht.
      destruct (H entry text He Ht) as [day Hd]. by exists day.
    + by exists days.
Qed.

Lemma provenance_ok self : validate_provenance self = Ok tt <->
  ds_provenance self <> []
  /\ (forall entry text, entry ∈ ds_provenance self -> text ∈ iso_dates_in (pv_fact entry) -> exists day, date_fromisoformat text = Ok day)
  /\ forall day, day ∈ governed_dates self -> attested self day.
Proof.
  unfold validate_provenance. rewrite bind_pass, raise_if_pass, bool_decide_eq_false, <- attested_dates_total.
  apply and_iff_compat_l. destruct (attested_dates self) as [days|e] eqn:Ea; cbn; [|split; [done|by intros [[? ?] _]]].
  rewrite raise_if_pass, negb_false_iff, bool_decide_eq_true. unfold missing_attestations. fold (governed_dates self).
  pose proof (attested_dates_ok self days Ea) as Hd. split.
  - intros Hm. split; [by exists days|]. intros day Hg. apply Hd. destruct (decide (day ∈ days)) as [|Hn]; [done|exfalso].
    assert (Hin : day ∈ py_sorted Z.leb (from_keys [] (filter (fun day => day ∉ days) (governed_dates self)))).
    { rewrite elem_of_py_sorted, elem_of_from_keys, list_elem_of_filter. split; [done|set_solver]. }
    rewrite Hm in Hin. set_solver.
  - intros [_ Hg]. destruct (py_sorted Z.leb _) as [|day l] eqn:E; [done|exfalso].
    assert (Hin : day ∈ py_sorted Z.leb (from_keys [] (filter (fun day => day ∉ days) (governed_dates self)))) by (rewrite E; by left).
    rewrite elem_of_py_sorted, elem_of_from_keys, list_elem_of_filter in Hin. destruct Hin as [[Hn Hin] _]. by apply Hn, Hd, Hg.
Qed.

Lemma validate_unique_ok self : validate_unique self = Ok tt <->
  NoDup (ds_closed_dates self) /\ NoDup (ds_open_sessions self) /\ NoDup (override_dates self).
Proof. unfold validate_unique. by rewrite !bind_pass, !raise_if_pass, !no_duplicates. Qed.

Lemma reference_open_ok self : validate_overrides_reference_open self = Ok tt <->
  forall day, day ∈ override_dates self -> day ∈ ds_open_sessions self.
Proof.
  unfold validate_overrides_reference_open. rewrite for_each_ok, Forall_forall. apply forall_proper. intros day.
  by rewrite raise_if_pass, negb_false_iff, bool_decide_eq_true.
Qed.

Lemma domain_ok self overrides : session_overrides_domain self = Ok overrides <->
  Forall override_ok (ds_session_overrides self) /\ overrides = map domain_override (ds_session_overrides self).
Proof. apply (traverse_exact _ override_ok domain_override), override_of_spec_ok. Qed.

(** [C21] A dataset is accepted exactly when it is well formed: named, over an ordered coverage,
    with unique dates inside it, overrides only on open sessions, no date both open and
    closed, intervals that are increasing and separated, and an entry of the provenance
    that attests every governed date; and then it is taken as it is, nothing repaired. *)
Theorem dataset_accepted raw self : mk_dataset raw = Ok self <-> self = raw /\ dataset_ok raw.
Proof.
  unfold mk_dataset. rewrite as_validation_ok, !bind_pass, !non_empty_pass.
  assert (Hrest : (traverse mk_provenance (ds_provenance raw) ≫= (fun _ => _ ← validate_dataset raw; Ok raw)) = Ok self <->
    Forall (fun entry => strip (pv_circular_id entry) <> EmptyString /\ strip (pv_segment entry) <> EmptyString
      /\ strip (pv_fact entry) <> EmptyString) (ds_provenance raw)
    /\ validate_dataset raw = Ok tt /\ self = raw).
  { split.
    - intros (entries & He & [Hv [= <-]]%bind_pass)%bind_ok.
      destruct (proj1 (traverse_exact _ _ id _ _ mk_provenance_ok) He) as [? _]. done.
    - intros (He & Hv & ->). rewrite (proj2 (traverse_exact _ _ id (ds_provenance raw) _ mk_provenance_ok) (conj He eq_refl)).
      cbn. by rewrite Hv. }
  rewrite Hrest. unfold validate_dataset. split.
  - intros (H1 & H2 & H3 & H4 & (coverage & [Hc ->]%dataset_coverage_ok & Hv)%bind_ok & ->). split; [done|].
    apply bind_pass in Hv as [(? & ? & ?)%validate_unique_ok Hv]. apply bind_pass in Hv as [Hw%within_coverage_ok Hv].
    apply bind_pass in Hv as [Ho (calendar & [Hd _]%calendar_ok & Hv)%bind_ok].
    pose proof (proj1 (reference_open_ok raw) Ho). apply bind_ok in Hv as (overrides & [Hs _]%domain_ok & (? & ? & ?)%provenance_ok). by split.
  - intros [-> [? ? ? ? ? ? ? ? ? ? ? ? ?]]. split_and!; try tauto. apply bind_ok.
    eexists. split; [by apply dataset_coverage_ok|]. apply bind_pass. split; [by apply validate_unique_ok|].
    apply bind_pass. split; [by apply within_coverage_ok|]. apply bind_pass. split; [by apply reference_open_ok|].
    apply bind_ok. eexists. split; [by apply calendar_ok|]. apply bind_ok. eexists. split; [by apply domain_ok|]. by apply provenance_ok.
Qed.

(** ** What an accepted dataset projects to *)

Lemma index_overrides_spec overrides m : NoDup (map override_date overrides) ->
  (forall o, o ∈ overrides -> m !! override_date o = None) ->
  exists m', index_overrides overrides m = Ok m'
  /\ (forall o, o ∈ overrides -> m' !! override_date o = Some o)
  /\ (forall d, d ∉ map override_date overrides -> m' !! d = m !! d).
Proof.
  revert m. induction overrides as [|o overrides IH]; intros m Hnd Hm; cbn.
  { exists m. split_and!; [done|by intros ? ?%elem_of_nil|done]. }
  apply NoDup_cons in Hnd as [Hn Hnd]. rewrite (Hm o) by (by left). cbn.
  destruct (IH (<[override_date o := o]> m) Hnd) as (m' & Hi & H1 & H2).
  { intros o' Ho'. assert (Hne : override_date o' <> override_date o).
    { intros E. apply Hn. rewrite <- E. by apply (list_elem_of_fmap_2 override_date). }
    rewrite lookup_insert_ne by done. apply Hm. by right. }
  exists m'. split_and!; [done| |].
  - intros o' [->|Ho']%elem_of_cons; [|by apply H1]. rewrite H2 by done. apply lookup_insert_eq.
  - intros d [Hd Hd']%not_elem_of_cons. rewrite H2 by done. by rewrite lookup_insert_ne.
Qed.

(** The projections of an accepted dataset never raise: its coverage is the one it names,
    its calendar trades on the open sessions and on the weekdays that are not closed, and
    its schedule has the intervals of the override on a date that has one and the default
    bounds on every other. *)
Theorem dataset_projections self default_schedule : dataset_ok self ->
  exists coverage calendar effective,
    calendar_coverage self = Ok coverage
    /\ (forall day, (contains coverage day = true) <-> (ds_coverage_start self <= day <= ds_coverage_end self))
    /\ trading_calendar self = Ok calendar
    /\ (forall day, (is_trading_day calendar day = true)
          <-> (day ∈ ds_open_sessions self \/ ((weekday day ∉ default_weekend) /\ (day ∉ ds_closed_dates self))))
    /\ effective_schedule self default_schedule = Ok effective
    /\ (forall spec, spec ∈ ds_session_overrides self ->
          intervals_for effective (so_trading_date spec) = map domain_interval (so_intervals spec))
    /\ (forall day, day ∉ override_dates self -> intervals_for effective day = [bounds default_schedule]).
Proof.
  intros Hok. eexists _, _.
  assert (Hdates : map override_date (map domain_override (ds_session_overrides self)) = override_dates self)
    by (rewrite map_map; reflexivity).
  destruct (index_overrides_spec (map domain_override (ds_session_overrides self)) ∅) as (m & Hm & H1 & H2).
  { rewrite Hdates. apply Hok. }
  { intros o _. apply lookup_empty. }
  exists {| eff_default := default_schedule; eff_overrides := m |}.
  split; [apply dataset_coverage_ok; split; [apply Hok|reflexivity]|]. split.
  { intros day. unfold contains. cbn. by rewrite andb_true_iff, !Z.leb_le. }
  split; [apply calendar_ok; split; [apply Hok|reflexivity]|]. split_and!.
  - intros day. unfold is_trading_day. cbn [open_sessions weekend_days closed_dates].
    repeat case_bool_decide; rewrite ?elem_of_list_to_set in *; split; naive_solver.
  - unfold effective_schedule. apply bind_ok. eexists. split; [by apply domain_ok; split; [apply Hok|]|].
    unfold mk_effective. by rewrite Hm.
  - intros spec Hs. unfold intervals_for. cbn. pose proof (H1 (domain_override spec) ltac:(by apply list_elem_of_fmap_2)) as E.
    cbn in E. by rewrite E.
  - intros day Hd. unfold intervals_for. cbn. rewrite H2 by (by rewrite Hdates). by rewrite lookup_empty.
Qed.

(** ** The live classifier *)

(** What the classifier built from an accepted dataset says: a date outside the coverage is
    unavailable, before anything else; a closed date is a holiday, and so is a day of the
    weekend that is no open session; otherwise the phase of the schedule, or a halt. *)
Theorem live_classification settings timezone dataset schedule calendar : dataset_ok dataset ->
  schedule_and_calendar settings = Ok (schedule, calendar) ->
  exists classifier, live_session_classifier settings timezone dataset = Ok classifier
  /\ forall i halt, let day := local_date timezone i in
     market_state (classify_session classifier i halt)
     = if negb ((ds_coverage_start dataset <=? day) && (day <=? ds_coverage_end dataset)) then CALENDAR_UNAVAILABLE
       else if bool_decide (day ∈ ds_closed_dates dataset)
            || bool_decide (weekday day ∈ default_weekend) && negb (bool_decide (day ∈ ds_open_sessions dataset)) then HOLIDAY
       else if halt then EMERGENCY_HALT else phase_for schedule (local_time timezone i).
Proof.
  intros Hok Hs. eexists. split.
  { unfold live_session_classifier. rewrite Hs. cbn. apply bind_ok. eexists. split; [by apply calendar_ok; split; [apply Hok|]|].
    apply bind_ok. eexists. split; [by apply dataset_coverage_ok; split; [apply Hok|]|]. reflexivity. }
  intros i halt. unfold classify_session, state_for, contains, is_trading_day.
  cbn [market_state cls_timezone cls_coverage cls_calendar cls_schedule cov_start_date cov_end_date open_sessions weekend_days closed_dates].
  set (day := local_date timezone i). cbv zeta. destruct (negb _); [done|].
  pose proof (dok_disjoint _ Hok day) as Hdis.
  repeat case_bool_decide; rewrite ?elem_of_list_to_set in *; cbn; try done; naive_solver.
Qed.

(** ** Settings *)

Lemma validated_time value v : validate_session_time value = Ok v -> exists t, parse_time v = Ok t.
Proof.
  unfold validate_session_time, parse_time. destruct (strptime_hm (strip value)) as [t|] eqn:E; [|done].
  intros [= <-]. exists t. by rewrite strip_idem.
Qed.

Lemma validated_holidays value v : validate_holidays value = Ok v ->
  exists days, traverse date_fromisoformat (holiday_entries v) = Ok days.
Proof.
  unfold validate_holidays. destruct (for_each _ (holiday_entries value)) as [[]|] eqn:E; [|done]. intros [= <-].
  apply for_each_ok in E. destruct (traverse_total date_fromisoformat (fun _ _ => True) (holiday_entries value)) as (days & ? & _);
    [|by exists days].
  intros entry He. rewrite Forall_forall in E. specialize (E entry He). cbn in E.
  destruct (date_fromisoformat entry) as [day|]; [by exists day|done].
Qed.

(** Settings that are accepted are read without error, but for session boundaries out of
    order. *)
Lemma validated_settings raw settings : mk_session_settings raw = Ok settings ->
  yields (fun e => exists m, e = ValidationError m) (fun _ => True) (schedule_and_calendar settings).
Proof.
  unfold mk_session_settings. rewrite as_validation_ok.
  intros (t1 & [x1 H1]%validated_time & (t2 & [x2 H2]%validated_time & (t3 & [x3 H3]%validated_time & (t4 & [x4 H4]%validated_time
    & (t5 & [x5 H5]%validated_time & (h & [days Hd]%validated_holidays & [= <-])%bind_ok)%bind_ok)%bind_ok)%bind_ok)%bind_ok)%bind_ok.
  unfold schedule_and_calendar. cbn [nse_pre_open_start nse_opening_auction_start nse_regular_open nse_regular_close nse_closing_end nse_holidays].
  rewrite H1, H2, H3, H4, H5. cbn [mbind result_bind].
  apply (yields_bind _ (fun _ => True)).
  { unfold mk_schedule. apply yields_guard; [by eexists|done]. }
  intros schedule _. rewrite Hd. cbn [mbind result_bind]. unfold mk_calendar.
  cbn [open_sessions list_to_set]. rewrite bool_decide_true by set_solver. done.
Qed.

(** * The packaged dataset *)

Definition in_2026 (m d : Z) : date := days_of_civil 2026 m d.

(** nse_cm_2026.json *)
Definition nse_cm_2026 : TradingCalendarDataset := {|
  ds_dataset_id := "nse_cm_2026"; ds_version := "2026.1.0"; ds_segment := "NSE_EQ";
  ds_coverage_start := in_2026 1 1; ds_coverage_end := in_2026 12 31;
  ds_closed_dates := [in_2026 1 15; in_2026 1 26; in_2026 3 3; in_2026 3 26; in_2026 3 31; in_2026 4 3; in_2026 4 14; in_2026 5 1;
    in_2026 5 28; in_2026 6 26; in_2026 9 14; in_2026 10 2; in_2026 10 20; in_2026 11 10; in_2026 11 24; in_2026 12 25];
  ds_open_sessions := [in_2026 2 1; in_2026 11 8];
  ds_session_overrides := [{| so_trading_date := in_2026 2 1; so_intervals := [{| is_start := hm 9 15; is_end := hm 15 30 |}] |}];
  ds_provenance := [
    {| pv_circular_id := "NSE/CMTR/71775"; pv_circular_date := days_of_civil 2025 12 12; pv_segment := "Capital Market";
       pv_fact := "2026 Capital Market trading-holiday list (weekday closures 2026-01-26, 2026-03-03, 2026-03-26, 2026-03-31, 2026-04-03, 2026-04-14, 2026-05-01, 2026-05-28, 2026-06-26, 2026-09-14, 2026-10-02, 2026-10-20, 2026-11-10, 2026-11-24, 2026-12-25) and Muhurat Trading exceptional OPEN on Sunday 2026-11-08 (timing to be notified subsequently; intraday NOT_PROVEN)." |};
    {| pv_circular_id := "NSE/CMTR/72260"; pv_circular_date := in_2026 1 12; pv_segment := "Capital Market";
       pv_fact := "Amendment adding Thursday 2026-01-15 as a Capital Market trading holiday (Maharashtra municipal corporation elections)." |};
    {| pv_circular_id := "NSE/CMTR/72349"; pv_circular_date := in_2026 1 16; pv_segment := "Capital Market";
       pv_fact := "Live Trading Session (Union Budget) exceptional OPEN on Sunday 2026-02-01 with one continuous normal-market interval 09:15-15:30 IST." |}] |}.

Lemma packaged_dataset_accepted : mk_dataset nse_cm_2026 = Ok nse_cm_2026.
Proof. vm_compute. reflexivity. Qed.

Lemma packaged_dataset_ok : dataset_ok nse_cm_2026.
Proof. apply (dataset_accepted nse_cm_2026 nse_cm_2026). exact packaged_dataset_accepted. Qed.

(** The settings' defaults. *)
Definition default_settings : SessionSettings := {|
  nse_pre_open_start := "09:00"; nse_opening_auction_start := "09:08"; nse_regular_open := "09:15";
  nse_regular_close := "15:30"; nse_closing_end := "15:40"; nse_holidays := "" |}.

(** The budget session on a Sunday in February trades its own interval. *)
Lemma dataset_projections_witness :
  exists effective, effective_schedule nse_cm_2026 nse_schedule = Ok effective
  /\ intervals_for effective (in_2026 2 1) = [{| interval_start := hm 9 15; interval_end := hm 15 30 |}]
  /\ intervals_for effective (in_2026 2 2) = [bounds nse_schedule].
Proof.
  destruct (dataset_projections nse_cm_2026 nse_schedule packaged_dataset_ok)
    as (_ & _ & effective & _ & _ & _ & _ & He & Hs & Hd).
  exists effective. split; [done|]. split.
  - apply (Hs {| so_trading_date := in_2026 2 1; so_intervals := [{| is_start := hm 9 15; is_end := hm 15 30 |}] |}). by left.
  - apply Hd. intros Hin. cbn in Hin. apply list_elem_of_singleton in Hin. discriminate.
Defined.

Lemma live_classification_witness :
  exists classifier, live_session_classifier default_settings kolkata nse_cm_2026 = Ok classifier
  /\ market_state (classify_session classifier (wall_to_utc kolkata (combine (in_2026 1 26) (hm 10 0))) false) = HOLIDAY.
Proof.
  assert (exists schedule calendar, schedule_and_calendar default_settings = Ok (schedule, calendar)) as (schedule & calendar & E)
    by (eexists _, _; reflexivity).
  destruct (live_classification default_settings kolkata nse_cm_2026 schedule calendar packaged_dataset_ok E) as (classifier & Hc & Hs).
  exists classifier. split; [done|]. rewrite Hs. vm_compute. reflexivity.
Defined.
