(* ===== verification/CalendarParser.v ===== *)
(** The parser of the secondary calendar page, adapters/dhan/calendar_monitor_parser.py: the
    collector of tables, the recognition of the holiday table and the reduction of its rows
    to observed dates.

    [html.parser] is an argument: the events it calls the collector with for a page.  A
    failure to read the page, [_ParseFailureError], is [None] up to [parse], which reports
    it.  The theorems say what a successful observation is, that what cannot be read fails
    the whole parse, and that a rendered table is read back. *)
From Stdlib Require Import Ascii.
From S2P Require Import Prelude PyTime PyDate MarketData PyText.

Local Open Scope Z_scope.

(** * Observations *)

Inductive CalendarObservationParseStatus : Type := PARSE_OK | PARSE_FAILURE.
Inductive ObservedDateStatus : Type := CLOSED | OPEN.

#[global] Instance CalendarObservationParseStatus_eq_dec : EqDecision CalendarObservationParseStatus.
Proof. solve_decision. Defined.
#[global] Instance ObservedDateStatus_eq_dec : EqDecision ObservedDateStatus.
Proof. solve_decision. Defined.

Record ObservedInterval : Type := {
  oi_start : time;
  oi_end : time;
}.

Record ObservedCalendarDate : Type := {
  od_observed_date : date;
  od_status : ObservedDateStatus;
  od_intervals : list ObservedInterval;
}.

Record DhanCalendarObservation : Type := {
  ob_source : string;
  ob_source_year : option Z;
  ob_parse_status : CalendarObservationParseStatus;
  ob_dates : list ObservedCalendarDate;
}.

(** [ObservedInterval(...)] *)
Definition mk_observed_interval (start end_ : time) : result ObservedInterval :=
  _ ← raise_if (end_ <=? start) (ValidationError "observed interval requires start < end");
  Ok {| oi_start := start; oi_end := end_ |}.

(** * The collector *)

(** The calls of [html.parser] on the collector. *)
Inductive HtmlEvent : Type :=
| StartTag (tag : string)
| EndTag (tag : string)
| Data (data : string).

Definition Row : Type := bool * list string.
Definition Table : Type := list Row.

(** [_HolidayTableParser] *)
Record HolidayTableParser : Type := {
  ht_tables : list Table;
  ht_table : option Table;
  ht_row : option (list string);
  ht_cell : option (list string);
  ht_row_is_header : bool;
}.

Definition mk_collector : HolidayTableParser :=
  {| ht_tables := []; ht_table := None; ht_row := None; ht_cell := None; ht_row_is_header := false |}.

Definition is_cell (tag : string) : bool := bool_decide (tag ∈ ["td"; "th"]%string).

(** [handle_starttag] *)
Definition handle_starttag (self : HolidayTableParser) (tag : string) : HolidayTableParser :=
  if bool_decide (tag = "table"%string) then
    {| ht_tables := ht_tables self; ht_table := Some []; ht_row := ht_row self; ht_cell := ht_cell self;
       ht_row_is_header := ht_row_is_header self |}
  else if bool_decide (tag = "tr"%string) && is_not_none (ht_table self) then
    {| ht_tables := ht_tables self; ht_table := ht_table self; ht_row := Some []; ht_cell := ht_cell self;
       ht_row_is_header := false |}
  else if is_cell tag && is_not_none (ht_row self) then
    {| ht_tables := ht_tables self; ht_table := ht_table self; ht_row := ht_row self; ht_cell := Some [];
       ht_row_is_header := if bool_decide (tag = "th"%string) then true else ht_row_is_header self |}
  else self.

(** [handle_endtag] *)
Definition handle_endtag (self : HolidayTableParser) (tag : string) : HolidayTableParser :=
  match is_cell tag, ht_cell self, ht_row self with
  | true, Some cell, Some row =>
      {| ht_tables := ht_tables self; ht_table := ht_table self;
         ht_row := Some (row ++ [strip (String.concat "" cell)]); ht_cell := None;
         ht_row_is_header := ht_row_is_header self |}
  | _, _, _ =>
      match bool_decide (tag = "tr"%string), ht_row self, ht_table self with
      | true, Some row, Some table =>
          {| ht_tables := ht_tables self; ht_table := Some (table ++ [(ht_row_is_header self, row)]); ht_row := None;
             ht_cell := ht_cell self; ht_row_is_header := ht_row_is_header self |}
      | _, _, _ =>
          match bool_decide (tag = "table"%string), ht_table self with
          | true, Some table =>
              {| ht_tables := ht_tables self ++ [table]; ht_table := None; ht_row := ht_row self; ht_cell := ht_cell self;
                 ht_row_is_header := ht_row_is_header self |}
          | _, _ => self
          end
      end
  end.

(** [handle_data] *)
Definition handle_data (self : HolidayTableParser) (data : string) : HolidayTableParser :=
  match ht_cell self with
  | Some cell => {| ht_tables := ht_tables self; ht_table := ht_table self; ht_row := ht_row self;
                    ht_cell := Some (cell ++ [data]); ht_row_is_header := ht_row_is_header self |}
  | None => self
  end.

Definition handle (self : HolidayTableParser) (event : HtmlEvent) : HolidayTableParser :=
  match event with
  | StartTag tag => handle_starttag self tag
  | EndTag tag => handle_endtag self tag
  | Data data => handle_data self data
  end.

(** [feed] and [close] *)
Definition collect (events : list HtmlEvent) : list Table := ht_tables (foldl handle mk_collector events).

(** * Columns *)

Definition DATE_HEADERS : list string := ["date"; "trading date"; "holiday date"]%string.
Definition SEGMENT_HEADERS : list string := ["segment"; "exchange"; "exchange segment"; "exchange/segment"; "market"]%string.
Definition STATUS_HEADERS : list string := ["status"; "type"]%string.
Definition TIMING_HEADERS : list string := ["timings"; "timing"; "session timings"; "hours"; "session hours"]%string.

Record Columns : Type := {
  col_date : nat;
  col_segment : nat;
  col_status : nat;
  col_timings : option nat;
}.

(** The first row that holds a header cell, else the first row: its index and its cells. *)
Fixpoint first_header (index : nat) (table : Table) : option (nat * list string) :=
  match table with
  | [] => None
  | (is_header, cells) :: table => if (is_header : bool) then Some (index, cells) else first_header (S index) table
  end.

(** [_find_header] *)
Definition find_header (table : Table) : option (nat * list string) :=
  match first_header 0 table with
  | Some found => Some found
  | None => match table with (_, cells) :: _ => Some (0%nat, cells) | [] => None end
  end.

(** [_index_of] *)
Fixpoint index_of (normalized names : list string) : option nat :=
  match normalized with
  | [] => None
  | value :: normalized => if bool_decide (value ∈ names) then Some 0%nat else S <$> index_of normalized names
  end.

(** [_column_map] *)
Definition column_map (header : list string) : option Columns :=
  let normalized := map (fun cell => lower (strip cell)) header in
  date_i ← index_of normalized DATE_HEADERS;
  segment_i ← index_of normalized SEGMENT_HEADERS;
  status_i ← index_of normalized STATUS_HEADERS;
  Some {| col_date := date_i; col_segment := segment_i; col_status := status_i;
          col_timings := index_of normalized TIMING_HEADERS |}.

(** * Cells *)

Definition NSE_EQUITY_SEGMENTS : list string :=
  ["nse"; "nse eq"; "nse_eq"; "nse equity"; "nse cm"; "nse cash"; "capital market"; "equity"]%string.
Definition NSE_EQUITY_TOKENS : list string := ["equity"; "cash"; " eq"; "capital market"]%string.
Definition NON_NSE_TOKENS : list string := ["mcx"; "currency"; "cds"; "clearing"; "bse"; "commodity"]%string.
Definition CLOSED_STATUSES : list string := ["closed"; "close"; "holiday"; "trading holiday"]%string.
Definition OPEN_STATUSES : list string :=
  ["open"; "muhurat"; "muhurat trading"; "special"; "special session"; "live"; "live session"]%string.

(** [_is_nse_equity_segment] *)
Definition is_nse_equity_segment (segment : string) : bool :=
  let normalized := lower (strip segment) in
  bool_decide (normalized ∈ NSE_EQUITY_SEGMENTS)
  || text_contains "nse" normalized && py_any (fun token => text_contains token normalized) NSE_EQUITY_TOKENS.

(** [_is_non_nse_equity_segment] *)
Definition is_non_nse_equity_segment (segment : string) : bool :=
  let normalized := lower (strip segment) in
  if is_nse_equity_segment normalized then false
  else py_any (fun token => text_contains token normalized) NON_NSE_TOKENS.

(** [_parse_status] *)
Definition parse_status (text : string) : option ObservedDateStatus :=
  let normalized := lower (strip text) in
  if bool_decide (normalized ∈ CLOSED_STATUSES) then Some CLOSED
  else if bool_decide (normalized ∈ OPEN_STATUSES) then Some OPEN
  else None.

Definition value_of {A} (r : result A) : option A := match r with Ok a => Some a | Raise _ => None end.

(** [_parse_iso_date] *)
Definition parse_iso_date (text : string) : option date := value_of (date_fromisoformat (strip text)).

(** One clock time of the interval pattern, [\d{1,2}:\d{2}], and the text after it. *)
Definition read_clock (s : string) : option (string * string) :=
  '(h, rest) ← split_first ":" s;
  _ ← small_number 99 h;
  match rest with
  | String a (String b rest) =>
      _ ← digit_value a; _ ← digit_value b;
      Some ((h ++ String ":" (String a (String b EmptyString)))%string, rest)
  | _ => None
  end.

(** One of the three dashes. *)
Definition dashes : list string :=
  [String "-" EmptyString; String "226" (String "128" (String "147" EmptyString));
   String "226" (String "128" (String "148" EmptyString))].
Definition read_dash_of (s : string) : option string :=
  match List.find (fun dash => String.prefix dash s) dashes with
  | Some dash => Some (String.substring (String.length dash) (String.length s - String.length dash) s)
  | None => None
  end.

(** [_INTERVAL_PATTERN.fullmatch]: the texts of the two times. *)
Definition match_interval (candidate : string) : option (string * string) :=
  '(start, s) ← read_clock candidate;
  s ← read_dash_of (lstrip s);
  '(end_, s) ← read_clock (lstrip s);
  if is_empty s then Some (start, end_) else None.

(** [_build_interval] *)
Definition build_interval (start_text end_text : string) : option ObservedInterval :=
  start ← value_of (strptime_hm start_text);
  end_ ← value_of (strptime_hm end_text);
  value_of (mk_observed_interval start end_).

(** The loop of [_parse_intervals]. *)
Fixpoint parse_parts (parts : list string) : option (list ObservedInterval) :=
  match parts with
  | [] => Some []
  | part :: parts =>
      let candidate := strip part in
      if is_empty candidate then parse_parts parts
      else
        '(start, end_) ← match_interval candidate;
        interval ← build_interval start end_;
        intervals ← parse_parts parts;
        Some (interval :: intervals)
  end.

Definition is_interval_separator (c : ascii) : bool := bool_decide (c ∈ [";"; ","]%char).

(** [_parse_intervals] *)
Definition parse_intervals (text : string) : option (list ObservedInterval) :=
  let stripped := strip text in
  if is_empty stripped then Some []
  else
    intervals ← parse_parts (split_on is_interval_separator stripped);
    match intervals with [] => None | _ => Some intervals end.

(** * Rows *)

(** [_row_intervals] *)
Definition row_intervals (row : list string) (columns : Columns) (status : ObservedDateStatus) : option (list ObservedInterval) :=
  match status, col_timings columns with
  | OPEN, Some i => text ← row !! i; parse_intervals text
  | _, _ => Some []
  end.

(** [_row_to_observed]: [Some None] is a row of another segment. *)
Definition row_to_observed (row : list string) (columns : Columns) : option (option ObservedCalendarDate) :=
  segment ← row !! col_segment columns;
  status_text ← row !! col_status columns;
  date_text ← row !! col_date columns;
  if is_non_nse_equity_segment segment then Some None
  else if negb (is_nse_equity_segment segment) then None
  else
    status ← parse_status status_text;
    day ← parse_iso_date date_text;
    intervals ← row_intervals row columns status;
    Some (Some {| od_observed_date := day; od_status := status; od_intervals := intervals |}).

(** [_rows_to_dates] *)
Fixpoint rows_to_dates (columns : Columns) (seen : list date) (rows : list (list string)) : option (list ObservedCalendarDate) :=
  match rows with
  | [] => Some []
  | row :: rows =>
      found ← row_to_observed row columns;
      match found with
      | None => rows_to_dates columns seen rows
      | Some entry =>
          if bool_decide (od_observed_date entry ∈ seen) then None
          else
            observed ← rows_to_dates columns (od_observed_date entry :: seen) rows;
            Some (entry :: observed)
      end
  end.

(** The rows but the one at [index]. *)
Fixpoint data_rows (index : nat) (table : Table) : list (list string) :=
  match table, index with
  | [], _ => []
  | _ :: table, O => map snd table
  | (_, row) :: table, S index => row :: data_rows index table
  end.

(** [_extract_nse_equity_dates] *)
Fixpoint extract_nse_equity_dates (tables : list Table) : option (list ObservedCalendarDate) :=
  match tables with
  | [] => None
  | table :: tables =>
      match find_header table with
      | None => extract_nse_equity_dates tables
      | Some (header_index, header) =>
          match column_map header with
          | None => extract_nse_equity_dates tables
          | Some columns => rows_to_dates columns [] (data_rows header_index table)
          end
      end
  end.

(** [_single_year] *)
Definition year_of (entry : ObservedCalendarDate) : Z := (civil (od_observed_date entry)).1.1.
Definition single_year (dates : list ObservedCalendarDate) : option Z :=
  match from_keys [] (map year_of dates) with [year] => Some year | _ => None end.

(** [DhanMarketHolidayParser.parse] *)
Definition parse (html_events : string -> list HtmlEvent) (html source : string) : DhanCalendarObservation :=
  match extract_nse_equity_dates (collect (html_events html)) with
  | None => {| ob_source := source; ob_source_year := None; ob_parse_status := PARSE_FAILURE; ob_dates := [] |}
  | Some dates => {| ob_source := source; ob_source_year := single_year dates; ob_parse_status := PARSE_OK; ob_dates := dates |}
  end.

(** * Lemmas *)

(** ** Rows *)

Lemma rows_read_once columns rows found found' :
  Forall2 (fun row f => row_to_observed row columns = Some f) rows found ->
  Forall2 (fun row f => row_to_observed row columns = Some f) rows found' -> found = found'.
Proof.
  intros Hf. revert found'. induction Hf as [|row f rows found H1 H2 IH]; intros found' Hf'; inversion Hf'; subst; [done|].
  f_equal; [congruence|by apply IH].
Qed.

Lemma rows_to_dates_spec columns seen rows observed : rows_to_dates columns seen rows = Some observed <->
  exists found, Forall2 (fun row f => row_to_observed row columns = Some f) rows found
  /\ observed = omap id found /\ NoDup (map od_observed_date observed)
  /\ Forall (fun e => od_observed_date e ∉ seen) observed.
Proof.
  revert seen observed. induction rows as [|row rows IH]; intros seen observed; cbn [rows_to_dates].
  { split.
    - intros [= <-]. exists []. split_and!; constructor.
    - intros (found & Hf & -> & _). by inversion Hf. }
  destruct (row_to_observed row columns) as [f|] eqn:Er; cbn [mbind option_bind].
  2: { split; [done|]. intros (found & Hf & _). inversion Hf; subst. congruence. }
  assert (Hcons : forall P : list (option ObservedCalendarDate) -> Prop,
    (exists found, Forall2 (fun row f => row_to_observed row columns = Some f) (row :: rows) found /\ P found)
    <-> exists found, Forall2 (fun row f => row_to_observed row columns = Some f) rows found /\ P (f :: found)).
  { intros P. split.
    - intros (found & Hf & Hp). inversion Hf as [|? f' ? found' H1 H2]; subst. rewrite Er in H1. injection H1 as <-. by exists found'.
    - intros (found & Hf & Hp). exists (f :: found). split; [by constructor|done]. }
  rewrite Hcons. destruct f as [entry|]; [|apply IH].
  case_bool_decide as Hs.
  - split; [done|]. intros (found & _ & -> & _ & Ha). apply Forall_cons in Ha as [? _]. done.
  - destruct (rows_to_dates columns (od_observed_date entry :: seen) rows) as [rest|] eqn:Ed; cbn [mbind option_bind].
    + apply IH in Ed as (found & Hf & -> & Hn & Ha). split.
      * intros [= <-]. exists found. split_and!; [done|done| |].
        -- cbn. constructor; [|done]. intros (e & He & Hin)%list_elem_of_fmap. rewrite Forall_forall in Ha.
           specialize (Ha e Hin). apply Ha. rewrite <- He. by left.
        -- constructor; [done|]. eapply Forall_impl; [exact Ha|]. intros e He Hin. apply He. by right.
      * intros (found' & Hf' & -> & _). cbn. do 2 f_equal.
        by rewrite (rows_read_once _ _ _ _ Hf' Hf).
    + split; [done|]. intros (found & Hf & -> & Hn & Ha). cbn in Hn, Ha. apply NoDup_cons in Hn as [Hn1 Hn2].
      apply Forall_cons in Ha as [_ Ha].
      assert (rows_to_dates columns (od_observed_date entry :: seen) rows = Some (omap id found)); [|congruence].
      apply IH. exists found. split_and!; try done. apply Forall_forall. intros e He [E|Hin]%elem_of_cons.
      * apply Hn1. rewrite <- E. by apply list_elem_of_fmap_2.
      * rewrite Forall_forall in Ha. by apply (Ha e He).
Qed.

(** Why rows cannot be read: one cannot, or two that can give the same date. *)
Lemma rows_to_dates_fail columns rows : rows_to_dates columns [] rows = None <->
  Exists (fun row => row_to_observed row columns = None) rows
  \/ exists found, Forall2 (fun row f => row_to_observed row columns = Some f) rows found
     /\ ~ NoDup (map od_observed_date (omap id found)).
Proof.
  assert (Htotal : Exists (fun row => row_to_observed row columns = None) rows
    \/ exists found, Forall2 (fun row f => row_to_observed row columns = Some f) rows found).
  { induction rows as [|row rows [IH|(found & IH)]]; [right; exists []; constructor|left; by right|].
    destruct (row_to_observed row columns) as [f|] eqn:Er; [right; exists (f :: found); by constructor|left; by left]. }
  assert (Hexcl : forall found, Forall2 (fun row f => row_to_observed row columns = Some f) rows found ->
    ~ Exists (fun row => row_to_observed row columns = None) rows).
  { intros found Hf He. apply Exists_exists in He as (row & Hin & Hr). apply list_elem_of_lookup in Hin as [i Hi].
    destruct (Forall2_lookup_l _ _ _ _ _ Hf Hi) as (f & _ & ?). congruence. }
  destruct (rows_to_dates columns [] rows) as [observed|] eqn:Ed.
  - split; [done|]. apply rows_to_dates_spec in Ed as (found & Hf & -> & Hn & _). intros [He|(found' & Hf' & Hd)].
    + by destruct (Hexcl found Hf).
    + destruct Hd. by rewrite (rows_read_once _ _ _ _ Hf' Hf).
  - split; [|done]. intros _. destruct Htotal as [He|[found Hf]]; [by left|right]. exists found. split; [done|]. intros Hn.
    assert (rows_to_dates columns [] rows = Some (omap id found)); [|congruence].
    apply rows_to_dates_spec. exists found. split_and!; try done. apply Forall_forall. intros e _. apply not_elem_of_nil.
Qed.

(** ** Entries *)

Definition interval_read_ok (iv : ObservedInterval) : Prop :=
  minute_time (oi_start iv) = true /\ minute_time (oi_end iv) = true /\ oi_start iv < oi_end iv.

Lemma small_number_bound limit s n : small_number limit s = Some n -> 9 <= limit -> 0 <= n <= limit.
Proof.
  assert (Hdigit : forall c k, digit_value c = Some k -> 0 <= k <= 9).
  { intros c k. unfold digit_value. destruct (_ && _) eqn:E; [|done]. intros [= <-]. apply andb_true_iff in E as [?%Z.leb_le ?%Z.leb_le]. lia. }
  destruct s as [|a [|b [|c s]]]; cbn; [done| | |done].
  - intros H%Hdigit Hl. lia.
  - destruct (digit_value a) as [x|] eqn:Ea; [|done]. destruct (digit_value b) as [y|] eqn:Eb; [|done]. cbn.
    destruct (10 * x + y <=? limit) eqn:E; [|done]. intros [= <-] _. apply Hdigit in Ea, Eb. apply Z.leb_le in E. lia.
Qed.

Lemma strptime_minute s t : strptime_hm s = Ok t -> minute_time t = true.
Proof.
  unfold strptime_hm. destruct (split_first ":" s) as [[h m]|]; [|done]. cbn.
  destruct (small_number 23 h) as [hh|] eqn:Eh; [|done]. destruct (small_number 59 m) as [mm|] eqn:Em; [|done]. cbn. intros [= <-].
  apply small_number_bound in Eh; [|lia]. apply small_number_bound in Em; [|lia].
  unfold minute_time, valid_time, hm. apply andb_true_iff. split.
  - apply andb_true_iff. unfold us_per_minute, us_per_day, us_per_second. rewrite Z.leb_le, Z.ltb_lt. lia.
  - apply Z.eqb_eq. replace (hh * 60 * us_per_minute + mm * us_per_minute) with ((hh * 60 + mm) * us_per_minute) by lia.
    by apply Z.mod_mul.
Qed.

Lemma build_interval_ok a b iv : build_interval a b = Some iv -> interval_read_ok iv.
Proof.
  unfold build_interval. destruct (strptime_hm a) as [s|] eqn:Ea; [|done]. destruct (strptime_hm b) as [e|] eqn:Eb; [|done]. cbn.
  unfold mk_observed_interval. destruct (e <=? s) eqn:E; cbn; [done|]. intros [= <-]. apply Z.leb_gt in E.
  split_and!; cbn; [by eapply strptime_minute|by eapply strptime_minute|done].
Qed.

Lemma parse_parts_ok parts ivs : parse_parts parts = Some ivs -> Forall interval_read_ok ivs.
Proof.
  revert ivs. induction parts as [|part parts IH]; intros ivs; cbn; [by intros [= <-]|].
  destruct (is_empty (strip part)); [apply IH|].
  destruct (match_interval (strip part)) as [[a b]|]; [|done]. cbn. destruct (build_interval a b) as [iv|] eqn:Eb; [|done]. cbn.
  destruct (parse_parts parts) as [rest|]; [|done]. cbn. intros [= <-]. constructor; [by eapply build_interval_ok|by apply IH].
Qed.

(** What an entry is: from a row of the NSE cash segment, on a date the row names, closed
    without intervals or open with readable ones. *)
Definition entry_ok (columns : Columns) (row : list string) (entry : ObservedCalendarDate) : Prop :=
  (exists segment, row !! col_segment columns = Some segment /\ is_nse_equity_segment segment = true)
  /\ (exists text, row !! col_date columns = Some text /\ date_fromisoformat (strip text) = Ok (od_observed_date entry))
  /\ (exists text, row !! col_status columns = Some text /\ parse_status text = Some (od_status entry))
  /\ (od_status entry = CLOSED -> od_intervals entry = []) /\ Forall interval_read_ok (od_intervals entry).

Lemma row_entry_ok row columns entry : row_to_observed row columns = Some (Some entry) -> entry_ok columns row entry.
Proof.
  unfold row_to_observed. destruct (row !! col_segment columns) as [segment|] eqn:Es; [|done].
  destruct (row !! col_status columns) as [status_text|] eqn:Et; [|done]. destruct (row !! col_date columns) as [date_text|] eqn:Ed; [|done].
  cbn [mbind option_bind]. destruct (is_non_nse_equity_segment segment); [done|].
  destruct (is_nse_equity_segment segment) eqn:En; cbn [negb]; [|done].
  destruct (parse_status status_text) as [status|] eqn:Ep; [|done]. cbn [mbind option_bind].
  unfold parse_iso_date. destruct (date_fromisoformat (strip date_text)) as [day|] eqn:Ey; [|done]. cbn [value_of mbind option_bind].
  destruct (row_intervals row columns status) as [ivs|] eqn:Ei; [|done]. cbn [mbind option_bind]. intros [= <-].
  unfold row_intervals in Ei. split_and!; cbn; [by exists segment|by exists date_text|by exists status_text| |].
  - intros ->. by injection Ei.
  - destruct status; [by injection Ei as <-|]. destruct (col_timings columns) as [i|]; [|by injection Ei as <-].
    destruct (row !! i) as [text|]; [|done]. cbn in Ei. unfold parse_intervals in Ei. destruct (is_empty _); [by injection Ei as <-|].
    destruct (parse_parts _) as [parsed|] eqn:Epp; [|done]. cbn in Ei. apply parse_parts_ok in Epp.
    destruct parsed; [done|]. by injection Ei as <-.
Qed.

(** ** The page *)

Definition recognised (table : Table) : option (Columns * list (list string)) :=
  '(header_index, header) ← find_header table;
  columns ← column_map header;
  Some (columns, data_rows header_index table).

Lemma extract_spec tables : extract_nse_equity_dates tables =
  match head (omap recognised tables) with
  | None => None
  | Some (columns, rows) => rows_to_dates columns [] rows
  end.
Proof.
  induction tables as [|table tables IH]; [done|]. cbn [extract_nse_equity_dates omap list_omap]. unfold recognised at 1.
  destruct (find_header table) as [[i header]|]; cbn [mbind option_bind]; [|exact IH].
  destruct (column_map header) as [columns|]; cbn [mbind option_bind]; [done|exact IH].
Qed.

(** The parser reads the first table that names the required columns, and either the whole
    of it or nothing.  It succeeds exactly when every row of that table is one of another
    segment or a readable one of the NSE cash segment, and no date comes twice; the
    observation then has one well-formed entry per row of the segment, in order.  When a
    row cannot be read, a date comes twice or there is no such table, the observation is a
    failure and carries no date at all. *)
Theorem parse_exact html_events html source :
  let observation := parse html_events html source in
  ob_source observation = source
  /\ match head (omap recognised (collect (html_events html))) with
     | None => observation = {| ob_source := source; ob_source_year := None; ob_parse_status := PARSE_FAILURE; ob_dates := [] |}
     | Some (columns, rows) =>
         (ob_parse_status observation = PARSE_OK /\ ob_source_year observation = single_year (ob_dates observation)
          /\ NoDup (map od_observed_date (ob_dates observation))
          /\ exists found, Forall2 (fun row f => row_to_observed row columns = Some f
                 /\ match f with None => True | Some entry => entry_ok columns row entry end) rows found
             /\ ob_dates observation = omap id found)
         \/ (ob_parse_status observation = PARSE_FAILURE /\ ob_source_year observation = None /\ ob_dates observation = []
             /\ (Exists (fun row => row_to_observed row columns = None) rows
                 \/ exists found, Forall2 (fun row f => row_to_observed row columns = Some f) rows found
                    /\ ~ NoDup (map od_observed_date (omap id found))))
     end.
Proof.
  unfold parse. rewrite extract_spec. destruct (head (omap recognised _)) as [[columns rows]|]; [|done].
  destruct (rows_to_dates columns [] rows) as [observed|] eqn:Er; cbv zeta; (split; [done|]).
  - left. cbn [ob_parse_status ob_source_year ob_dates]. apply rows_to_dates_spec in Er as (found & Hf & -> & Hn & _).
    split_and!; [done|done|done|]. exists found. split; [|done]. eapply Forall2_impl; [exact Hf|]. intros row f Hr.
    split; [done|]. destruct f; [by apply row_entry_ok|done].
  - right. by apply rows_to_dates_fail in Er.
Qed.

(** ** Rendering a page *)

Definition cell_events (tag text : string) : list HtmlEvent := [StartTag tag; Data text; EndTag tag].
Definition row_events (tag : string) (cells : list string) : list HtmlEvent :=
  StartTag "tr" :: flat_map (cell_events tag) cells ++ [EndTag "tr"].

Definition interval_text (iv : ObservedInterval) : string := (hm_text (oi_start iv) ++ String "-" (hm_text (oi_end iv)))%string.
Definition status_text (status : ObservedDateStatus) : string := match status with CLOSED => "Closed" | OPEN => "Open" end.
Definition entry_cells (entry : ObservedCalendarDate) : list string :=
  [isoformat (od_observed_date entry); "NSE"%string; status_text (od_status entry);
   join_with "," (map interval_text (od_intervals entry))].

(** A row of the page: an entry, or the cells of another segment. *)
Inductive PageRow : Type := Observed (entry : ObservedCalendarDate) | Foreign (cells : list string).

Definition page_header : list string := ["Date"; "Segment"; "Status"; "Timings"]%string.
Definition page_cells (row : PageRow) : list string := match row with Observed entry => entry_cells entry | Foreign cells => cells end.
Definition page_entry (row : PageRow) : option ObservedCalendarDate := match row with Observed entry => Some entry | Foreign _ => None end.
Definition page_events (rows : list PageRow) : list HtmlEvent :=
  StartTag "table" :: row_events "th" page_header ++ flat_map (fun row => row_events "td" (page_cells row)) rows ++ [EndTag "table"].

(** What a page may show. *)
Definition page_row_ok (row : PageRow) : Prop :=
  match row with
  | Observed entry => date_ok (od_observed_date entry) = true
      /\ (od_status entry = CLOSED -> od_intervals entry = []) /\ Forall interval_read_ok (od_intervals entry)
  | Foreign cells => exists day segment status rest, cells = day :: segment :: status :: rest
      /\ is_non_nse_equity_segment segment = true
  end.

Lemma collect_cells tag cells self row : is_cell tag = true -> ht_row self = Some row -> ht_cell self = None ->
  foldl handle self (flat_map (cell_events tag) cells)
  = {| ht_tables := ht_tables self; ht_table := ht_table self; ht_row := Some (row ++ map strip cells); ht_cell := None;
       ht_row_is_header := bool_decide (tag = "th"%string) && bool_decide (cells <> []) || ht_row_is_header self |}.
Proof.
  intros Ht. revert self row. induction cells as [|cell cells IH]; intros self row Hr Hc.
  { cbn. rewrite app_nil_r, andb_false_r, <- Hr, <- Hc. by destruct self. }
  cbn [flat_map]. rewrite foldl_app. cbn [cell_events foldl handle].
  assert (Hstart : handle_starttag self tag = {| ht_tables := ht_tables self; ht_table := ht_table self; ht_row := ht_row self;
    ht_cell := Some []; ht_row_is_header := if bool_decide (tag = "th"%string) then true else ht_row_is_header self |}).
  { unfold handle_starttag. rewrite Ht, Hr. unfold is_cell in Ht. apply bool_decide_eq_true in Ht.
    rewrite !bool_decide_false by (intros ->; set_solver). done. }
  rewrite Hstart. cbn [handle_data ht_cell handle_endtag ht_row ht_tables ht_table ht_row_is_header].
  unfold handle_endtag at 1. rewrite Ht. cbn [ht_cell ht_row ht_tables ht_table ht_row_is_header]. rewrite Hr.
  rewrite (IH _ (row ++ [strip (String.concat "" ([] ++ [cell]))])) by done. cbn [ht_tables ht_table ht_row_is_header app String.concat map].
  rewrite <- app_assoc. cbn [app]. f_equal. rewrite (bool_decide_true (cell :: cells <> [])) by done.
  destruct (bool_decide (tag = "th"%string)); cbn; [by rewrite orb_true_r|done].
Qed.

Lemma collect_row tag cells self table : is_cell tag = true -> ht_table self = Some table -> ht_cell self = None ->
  foldl handle self (row_events tag cells)
  = {| ht_tables := ht_tables self; ht_table := Some (table ++ [(bool_decide (tag = "th"%string) && bool_decide (cells <> []), map strip cells)]);
       ht_row := None; ht_cell := None;
       ht_row_is_header := bool_decide (tag = "th"%string) && bool_decide (cells <> []) |}.
Proof.
  intros Ht Htab Hc. unfold row_events. cbn [foldl handle]. rewrite foldl_app.
  assert (Hstart : handle_starttag self "tr" = {| ht_tables := ht_tables self; ht_table := ht_table self; ht_row := Some [];
    ht_cell := ht_cell self; ht_row_is_header := false |}) by (unfold handle_starttag; by rewrite Htab).
  rewrite Hstart, (collect_cells tag cells _ []) by done. cbn [foldl handle ht_tables ht_table ht_row_is_header app].
  unfold handle_endtag. cbn. rewrite Htab. by rewrite orb_false_r.
Qed.

Lemma end_table self table : ht_table self = Some table -> ht_tables (handle_endtag self "table") = ht_tables self ++ [table].
Proof.
  intros Ht. unfold handle_endtag. change (is_cell "table") with false.
  change (bool_decide ("table"%string = "tr"%string)) with false. change (bool_decide ("table"%string = "table"%string)) with true.
  by rewrite Ht.
Qed.

Lemma collect_rows rows self table : ht_table self = Some table -> ht_cell self = None ->
  let self' := foldl handle self (flat_map (fun row => row_events "td" (page_cells row)) rows) in
  ht_tables self' = ht_tables self /\ ht_table self' = Some (table ++ map (fun row => (false, map strip (page_cells row))) rows).
Proof.
  revert self table. induction rows as [|row rows IH]; intros self table Ht Hc; [by rewrite app_nil_r|].
  cbn [flat_map]. rewrite foldl_app, (collect_row "td" _ _ table) by done.
  match goal with |- context [foldl handle ?s _] => destruct (IH s (table ++ [(false, map strip (page_cells row))])) as [IH1 IH2]; [done|done|] end.
  cbv zeta in *. split; [exact IH1|]. by rewrite IH2, <- app_assoc.
Qed.

Lemma collect_page rows : collect (page_events rows)
  = [(true, page_header) :: map (fun row => (false, map strip (page_cells row))) rows].
Proof.
  unfold collect, page_events. change (foldl handle mk_collector (StartTag "table" :: ?l)) with
    (foldl handle {| ht_tables := []; ht_table := Some []; ht_row := None; ht_cell := None; ht_row_is_header := false |} l).
  rewrite foldl_app, (collect_row "th" page_header _ []) by done. rewrite foldl_app.
  match goal with |- context [foldl handle ?s (flat_map _ rows)] =>
    destruct (collect_rows rows s [(true, page_header)]) as [H1 H2]; [reflexivity|done|] end.
  cbn [foldl handle]. rewrite (end_table _ _ H2). cbv zeta in H1. by rewrite H1.
Qed.

(** ** Reading it back *)

Lemma read_clock_text t rest : minute_time t = true -> read_clock (hm_text t ++ rest) = Some (hm_text t, rest).
Proof.
  unfold minute_time, valid_time. intros H. apply andb_true_iff in H as [H Hm]. apply andb_true_iff in H as [H0 H1].
  apply Z.leb_le in H0. apply Z.ltb_lt in H1.
  assert (Hmin : 0 <= t / us_per_minute < 1440) by (split; [by apply Z.div_pos|by apply Z.div_lt_upper_bound]).
  assert (Hh : 0 <= t / us_per_minute / 60 <= 99) by (split; [apply Z.div_pos; lia|apply Z.lt_succ_r, Z.div_lt_upper_bound; lia]).
  assert (Hmm : 0 <= t / us_per_minute mod 60 <= 99) by (pose proof (Z.mod_pos_bound (t / us_per_minute) 60 ltac:(lia)); lia).
  set (h := t / us_per_minute / 60) in *. set (m := t / us_per_minute mod 60) in *.
  assert (Htext : (hm_text t ++ rest)%string = zfill 2 h (String ":" (zfill 2 m rest))) by reflexivity.
  rewrite Htext. unfold read_clock. rewrite split_first_zfill by done. cbn [mbind option_bind].
  rewrite (small_number_zfill 99 h) by lia. cbn [mbind option_bind zfill].
  destruct (digits_of_two m Hmm) as (H2 & H3 & _). rewrite !digit_value_digit by lia. reflexivity.
Qed.

Lemma lstrip_dash s : lstrip (String "-" s) = String "-" s.
Proof. reflexivity. Qed.

Lemma read_plain_dash s : read_dash_of (String "-" s) = Some s.
Proof.
  unfold read_dash_of. cbn [List.find dashes]. change (String.prefix (String "-" "") (String "-" s)) with (String.prefix "" s).
  assert (Hp : String.prefix "" s = true) by (by destruct s). rewrite Hp. cbn [String.length Nat.sub]. f_equal.
  rewrite Nat.sub_0_r. cbn [String.substring]. clear Hp. induction s as [|c s IH]; [done|]. cbn. by rewrite IH.
Qed.

Lemma lstrip_hm_text t : lstrip (hm_text t) = hm_text t.
Proof.
  unfold hm_text. cbn [zfill lstrip]. set (d := t / us_per_minute / 60 / 10 mod 10).
  assert (Hd : is_space (digit d) = false).
  { apply negb_true_iff. apply (digit_cases (fun c => negb (is_space c))); [reflexivity|].
    pose proof (Z.mod_pos_bound (t / us_per_minute / 60 / 10) 10 ltac:(lia)). unfold d. lia. }
  by rewrite Hd.
Qed.

Lemma read_interval iv : interval_read_ok iv ->
  match_interval (interval_text iv) = Some (hm_text (oi_start iv), hm_text (oi_end iv))
  /\ build_interval (hm_text (oi_start iv)) (hm_text (oi_end iv)) = Some iv.
Proof.
  intros (Hs & He & Hlt). split.
  - unfold match_interval, interval_text. rewrite read_clock_text by done. cbn [mbind option_bind].
    rewrite lstrip_dash, read_plain_dash. cbn [mbind option_bind].
    rewrite lstrip_hm_text. rewrite <- (append_empty (hm_text (oi_end iv))) at 1. rewrite read_clock_text by done. reflexivity.
  - unfold build_interval. rewrite !strptime_hm_text by done. cbn [value_of mbind option_bind]. unfold mk_observed_interval.
    rewrite (proj2 (Z.leb_gt _ _) Hlt). by destruct iv.
Qed.

Lemma interval_text_chars iv : all_chars text_char (interval_text iv) = true.
Proof. unfold interval_text. rewrite all_chars_app. cbn [all_chars]. by rewrite !hm_text_chars. Qed.

Definition no_space (c : ascii) : bool := negb (is_space c).

Lemma text_no_space s : all_chars text_char s = true -> all_chars no_space s = true.
Proof. apply all_chars_mono. intros c. unfold text_char. by intros [? _]%andb_true_iff. Qed.

Lemma timings_chars ivs : all_chars no_space (join_with "," (map interval_text ivs)) = true.
Proof.
  induction ivs as [|iv ivs IH]; [done|]. destruct ivs as [|next ivs].
  - apply text_no_space, interval_text_chars.
  - change (join_with "," (map interval_text (iv :: next :: ivs)))
      with (interval_text iv ++ String "," (join_with "," (map interval_text (next :: ivs))))%string.
    rewrite all_chars_app. apply andb_true_iff. split; [apply text_no_space, interval_text_chars|].
    cbn [all_chars]. apply andb_true_iff. by split.
Qed.

Lemma read_parts ivs : Forall interval_read_ok ivs -> parse_parts (map interval_text ivs) = Some ivs.
Proof.
  induction 1 as [|iv ivs Hi H IH]; [done|]. cbn [map parse_parts].
  rewrite strip_id by (apply text_no_space, interval_text_chars).
  assert (He : is_empty (interval_text iv) = false) by reflexivity. rewrite He.
  destruct (read_interval iv Hi) as [-> Hb]. cbn [mbind option_bind]. rewrite Hb. cbn [mbind option_bind]. by rewrite IH.
Qed.

Lemma read_timings ivs : Forall interval_read_ok ivs -> parse_intervals (join_with "," (map interval_text ivs)) = Some ivs.
Proof.
  intros H. unfold parse_intervals. rewrite strip_id by apply timings_chars. destruct ivs as [|iv ivs]; [done|].
  assert (He : is_empty (join_with "," (map interval_text (iv :: ivs))) = false) by (by destruct ivs).
  rewrite He. rewrite split_on_join; [|done|done|].
  - rewrite read_parts by done. reflexivity.
  - apply Forall_map, Forall_true. intros x. eapply all_chars_mono; [|apply (interval_text_chars x)].
    intros c. unfold text_char, is_interval_separator. by intros [_ ?]%andb_true_iff.
Qed.

Definition page_columns : Columns := {| col_date := 0; col_segment := 1; col_status := 2; col_timings := Some 3%nat |}.

Lemma read_page_row row : page_row_ok row -> row_to_observed (map strip (page_cells row)) page_columns = Some (page_entry row).
Proof.
  destruct row as [entry|cells]; cbn [page_row_ok page_cells page_entry].
  - intros (Hd & Hc & Hi). unfold row_to_observed, entry_cells, page_columns, row_intervals.
    cbn [map lookup list_lookup col_date col_segment col_status col_timings mbind option_bind].
    assert (Hn : is_non_nse_equity_segment (strip "NSE") = false) by reflexivity.
    assert (Hy : is_nse_equity_segment (strip "NSE") = true) by reflexivity. rewrite Hn, Hy. cbn [negb].
    assert (Hs : parse_status (strip (status_text (od_status entry))) = Some (od_status entry)) by (by destruct (od_status entry)).
    rewrite Hs. cbn [mbind option_bind]. unfold parse_iso_date. rewrite strip_idem.
    rewrite (strip_id (isoformat _)) by (apply text_no_space, isoformat_chars). rewrite date_fromisoformat_isoformat by done.
    cbn [value_of mbind option_bind]. destruct entry as [day status ivs]. cbn [od_status od_intervals od_observed_date] in *. destruct status.
    + cbn [mbind option_bind]. by rewrite Hc.
    + unfold parse_intervals. rewrite (strip_id (join_with _ _)) by apply timings_chars. pose proof (read_timings ivs Hi) as Hr.
      unfold parse_intervals in Hr. rewrite Hr. done.
  - intros (day & segment & status & rest & -> & Hf). unfold row_to_observed, page_columns.
    cbn [map lookup list_lookup col_date col_segment col_status mbind option_bind].
    unfold is_non_nse_equity_segment in Hf |- *. rewrite strip_idem. by rewrite Hf.
Qed.

(** [C14] A rendered page is read back: the entries of its rows, in order, with the rows of other
    segments left out. *)
Theorem parse_rendered html_events html source rows : html_events html = page_events rows ->
  Forall page_row_ok rows -> NoDup (map od_observed_date (omap page_entry rows)) ->
  parse html_events html source
  = {| ob_source := source; ob_source_year := single_year (omap page_entry rows); ob_parse_status := PARSE_OK;
       ob_dates := omap page_entry rows |}.
Proof.
  intros He Hok Hn. unfold parse. rewrite He, collect_page, extract_spec. cbn [omap list_omap head].
  assert (Hrec : recognised ((true, page_header) :: map (fun row => (false, map strip (page_cells row))) rows)
    = Some (page_columns, map (fun row => map strip (page_cells row)) rows)).
  { unfold recognised, find_header. cbn [first_header mbind option_bind]. change (column_map page_header) with (Some page_columns).
    cbn [mbind option_bind data_rows]. by rewrite map_map. }
  rewrite Hrec. cbn [head].
  assert (Hrows : rows_to_dates page_columns [] (map (fun row => map strip (page_cells row)) rows) = Some (omap page_entry rows)).
  { apply rows_to_dates_spec. exists (map page_entry rows). split_and!.
    - clear -Hok. induction Hok as [|row rows Hr H IH]; [constructor|]. constructor; [by apply read_page_row|done].
    - clear. induction rows as [|row rows IH]; [done|]. cbn. by rewrite IH.
    - done.
    - apply Forall_forall. intros e _. apply not_elem_of_nil. }
  by rewrite Hrows.
Qed.

(** ** A concrete page *)

Definition budget_session : ObservedCalendarDate := {|
  od_observed_date := days_of_civil 2026 2 1; od_status := OPEN;
  od_intervals := [{| oi_start := hm 9 15; oi_end := hm 10 0 |}; {| oi_start := hm 11 30; oi_end := hm 15 30 |}] |}.
Definition republic_day : ObservedCalendarDate := {|
  od_observed_date := days_of_civil 2026 1 26; od_status := CLOSED; od_intervals := [] |}.
Definition sample_page : list PageRow :=
  [Observed republic_day; Foreign ["2026-01-26"; "MCX"; "Closed"]%string; Observed budget_session].

Lemma parse_rendered_witness :
  parse (fun _ => page_events sample_page) "" "dhan_market_holiday"
  = {| ob_source := "dhan_market_holiday"; ob_source_year := Some 2026; ob_parse_status := PARSE_OK;
       ob_dates := [republic_day; budget_session] |}.
Proof.
  rewrite (parse_rendered (fun _ => page_events sample_page) "" "dhan_market_holiday" sample_page eq_refl).
  - reflexivity.
  - repeat constructor; cbn; try done; try (by exists "2026-01-26"%string, "MCX"%string, "Closed"%string, []).
  - apply (bool_decide_unpack _). vm_compute. done.
Defined.

(** A date need not have dashes, nor be a date of a month: the compact form and the form
    with a week are read as well. *)
Lemma other_date_forms_read :
  parse_iso_date "20260126" = Some (days_of_civil 2026 1 26) /\ parse_iso_date "2026-W05-1" = Some (days_of_civil 2026 1 26).
Proof. split; vm_compute; reflexivity. Qed.
