(* ===== verification/CalendarMonitor.v ===== *)
(** The secondary calendar monitor, services/calendar_monitor.py, over the page source of
    adapters/dhan/calendar_monitor_source.py: the comparison of an observation with the
    authoritative dataset, the service with its bounded state, and the daily driver.

    SHA-256 is an argument, from text to hexadecimal text; so are the events [html.parser]
    makes of a page and what the request for it meets.  The theorems say when an
    observation matches, what the signature of a discrepancy tells apart, what a check
    leaves behind and how often the driver runs one. *)
From Stdlib Require Import Ascii.
From S2P Require Import Prelude PyTime PyDate MarketData Session PyText CalendarDataset CalendarParser.

Local Open Scope Z_scope.

(** * The comparison *)

Inductive CalendarComparisonStatus : Type :=
| MATCH | DHAN_NEW_CLOSED_DATE | DHAN_NEW_OPEN_DATE | DHAN_DATE_STATUS_CONFLICT | DHAN_SESSION_TIMING_CHANGE
| DHAN_PARSE_FAILURE | DHAN_FETCH_FAILURE | AUTHORITATIVE_COVERAGE_MISSING.

#[global] Instance CalendarComparisonStatus_eq_dec : EqDecision CalendarComparisonStatus.
Proof. solve_decision. Defined.

Definition status_value (s : CalendarComparisonStatus) : string :=
  match s with
  | MATCH => "match" | DHAN_NEW_CLOSED_DATE => "dhan_new_closed_date" | DHAN_NEW_OPEN_DATE => "dhan_new_open_date"
  | DHAN_DATE_STATUS_CONFLICT => "dhan_date_status_conflict" | DHAN_SESSION_TIMING_CHANGE => "dhan_session_timing_change"
  | DHAN_PARSE_FAILURE => "dhan_parse_failure" | DHAN_FETCH_FAILURE => "dhan_fetch_failure"
  | AUTHORITATIVE_COVERAGE_MISSING => "authoritative_coverage_missing"
  end.

Inductive CalendarMonitorParseStatus : Type := MONITOR_OK | MONITOR_PARSE_FAILURE | NOT_ATTEMPTED.

Definition SEVERITY_ORDER : list CalendarComparisonStatus :=
  [DHAN_DATE_STATUS_CONFLICT; DHAN_NEW_OPEN_DATE; DHAN_NEW_CLOSED_DATE; DHAN_SESSION_TIMING_CHANGE;
   AUTHORITATIVE_COVERAGE_MISSING].

Definition IntervalPairs : Type := list (time * time).

Record AuthorityView : Type := {
  av_coverage : CalendarCoverage;
  av_calendar : TradingCalendar;
  av_open_set : list date;
  av_closed_set : list date;
  av_overrides : dict date IntervalPairs;
}.

Record DateFacts : Type := {
  df_day : date;
  df_open_explicit : bool;
  df_closed_explicit : bool;
  df_trading : bool;
}.

Record DateComparison : Type := {
  dc_observed_date : date;
  dc_status : CalendarComparisonStatus;
}.

Record CalendarComparison : Type := {
  cc_overall_status : CalendarComparisonStatus;
  cc_date_results : list DateComparison;
  cc_difference_count : nat;
  cc_signature : string;
}.

Definition spec_pairs (spec : SessionOverrideSpec) : IntervalPairs := map (fun iv => (is_start iv, is_end iv)) (so_intervals spec).

(** [_override_pairs] *)
Definition override_pairs (dataset : TradingCalendarDataset) : dict date IntervalPairs :=
  fold_left (fun pairs spec => dict_set (so_trading_date spec) (spec_pairs spec) pairs) (ds_session_overrides dataset) [].

(** [_overall_status] *)
Definition overall_status (results : list DateComparison) : CalendarComparisonStatus :=
  match List.find (fun s => bool_decide (s ∈ map dc_status results)) SEVERITY_ORDER with Some s => s | None => MATCH end.

(** [_compare_closed] *)
Definition compare_closed (facts : DateFacts) : CalendarComparisonStatus :=
  if df_open_explicit facts then DHAN_DATE_STATUS_CONFLICT
  else if negb (df_trading facts) then MATCH
  else DHAN_NEW_CLOSED_DATE.

(** [_compare_open_timing] *)
Definition compare_open_timing (entry : ObservedCalendarDate) (day : date) (overrides : dict date IntervalPairs)
    : CalendarComparisonStatus :=
  match od_intervals entry with
  | [] => MATCH
  | intervals =>
      if bool_decide (dict_get day overrides = Some (map (fun iv => (oi_start iv, oi_end iv)) intervals)) then MATCH
      else DHAN_SESSION_TIMING_CHANGE
  end.

(** [_compare_open] *)
Definition compare_open (entry : ObservedCalendarDate) (facts : DateFacts) (overrides : dict date IntervalPairs)
    : CalendarComparisonStatus :=
  if df_closed_explicit facts then DHAN_DATE_STATUS_CONFLICT
  else if df_open_explicit facts then compare_open_timing entry (df_day facts) overrides
  else if negb (df_trading facts) then DHAN_NEW_OPEN_DATE
  else MATCH.

(** [_compare_date] *)
Definition compare_date (entry : ObservedCalendarDate) (authority : AuthorityView) : DateComparison :=
  let day := od_observed_date entry in
  {| dc_observed_date := day;
     dc_status :=
       if negb (contains (av_coverage authority) day) then AUTHORITATIVE_COVERAGE_MISSING
       else
         let facts := {| df_day := day; df_open_explicit := bool_decide (day ∈ av_open_set authority);
                         df_closed_explicit := bool_decide (day ∈ av_closed_set authority);
                         df_trading := is_trading_day (av_calendar authority) day |} in
         match od_status entry with
         | CLOSED => compare_closed facts
         | OPEN => compare_open entry facts (av_overrides authority)
         end |}.

Definition is_match (r : DateComparison) : bool := bool_decide (dc_status r = MATCH).
Definition differences (results : list DateComparison) : list DateComparison := filter (fun r => is_match r = false) results.

(** The key of a difference in the signature, and the canonical text. *)
Definition difference_key (r : DateComparison) : string * string := (isoformat (dc_observed_date r), status_value (dc_status r)).
Definition key_leb (a b : string * string) : bool := strings_leb [a.1; a.2] [b.1; b.2].
Definition sorted_differences (results : list DateComparison) : list (string * string) :=
  py_sorted key_leb (map difference_key (differences results)).
Definition key_text (key : string * string) : string := (key.1 ++ String ":" key.2)%string.
Definition canonical_text (overall : CalendarComparisonStatus) (results : list DateComparison) : string :=
  (status_value overall ++ String "|" (join_with "|" (map key_text (sorted_differences results))))%string.

Section Monitor.
Context (sha256_hexdigest : string -> string) (html_events : string -> list HtmlEvent).

(** [_signature] *)
Definition signature (overall : CalendarComparisonStatus) (results : list DateComparison) : string :=
  if bool_decide (overall = MATCH) then "match" else sha256_hexdigest (canonical_text overall results).

(** [_failure_comparison] *)
Definition failure_comparison (status : CalendarComparisonStatus) : CalendarComparison :=
  {| cc_overall_status := status; cc_date_results := []; cc_difference_count := 0; cc_signature := signature status [] |}.

(** [compare] *)
Definition compare (observation : DhanCalendarObservation) (dataset : option TradingCalendarDataset) : result CalendarComparison :=
  if bool_decide (ob_parse_status observation = PARSE_FAILURE) then Ok (failure_comparison DHAN_PARSE_FAILURE)
  else
    match dataset with
    | None => Ok (failure_comparison AUTHORITATIVE_COVERAGE_MISSING)
    | Some dataset =>
        coverage ← calendar_coverage dataset;
        calendar ← trading_calendar dataset;
        let authority := {| av_coverage := coverage; av_calendar := calendar; av_open_set := ds_open_sessions dataset;
                            av_closed_set := ds_closed_dates dataset; av_overrides := override_pairs dataset |} in
        let results := map (fun entry => compare_date entry authority) (ob_dates observation) in
        let overall := overall_status results in
        Ok {| cc_overall_status := overall; cc_date_results := results; cc_difference_count := length (differences results);
              cc_signature := signature overall results |}
    end.

(** * The service *)

Record CalendarMonitorState : Type := {
  ms_last_attempt_at : option instant;
  ms_last_success_at : option instant;
  ms_source : option string;
  ms_source_year : option Z;
  ms_status : option CalendarComparisonStatus;
  ms_difference_count : nat;
  ms_parse_status : CalendarMonitorParseStatus;
  ms_signature : option string;
}.

(** [CalendarMonitorService] *)
Record CalendarMonitorService : Type := {
  cm_dataset : option TradingCalendarDataset;
  cm_state : CalendarMonitorState;
}.

Definition mk_monitor (dataset : option TradingCalendarDataset) : CalendarMonitorService := {|
  cm_dataset := dataset;
  cm_state := {| ms_last_attempt_at := None; ms_last_success_at := None; ms_source := None; ms_source_year := None;
                 ms_status := None; ms_difference_count := 0; ms_parse_status := NOT_ATTEMPTED; ms_signature := None |} |}.

(** What the request for the page meets: a time-out, another transport error, or a status
    and a text. *)
Inductive PageOutcome : Type := PageTimeout | PageError | PageResponse (status_code : Z) (text : string).

(** [DhanMarketHolidaySource.fetch] *)
Definition fetch (page : PageOutcome) : result string :=
  match page with
  | PageTimeout => Raise (ProviderBoundaryError "calendar monitor page request timed out")
  | PageError => Raise (ProviderBoundaryError "calendar monitor page request failed")
  | PageResponse status_code text =>
      _ ← raise_if (negb ((200 <=? status_code) && (status_code <? 300))) (ProviderBoundaryError "calendar monitor page returned HTTP");
      Ok text
  end.

(** [_fetch_failure_state] *)
Definition fetch_failure_state (prior : CalendarMonitorState) (reference : instant) : CalendarMonitorState := {|
  ms_last_attempt_at := Some reference; ms_last_success_at := ms_last_success_at prior; ms_source := ms_source prior;
  ms_source_year := ms_source_year prior; ms_status := Some DHAN_FETCH_FAILURE; ms_difference_count := 0;
  ms_parse_status := NOT_ATTEMPTED; ms_signature := Some (signature DHAN_FETCH_FAILURE []) |}.

(** [_success_state] *)
Definition success_state (reference : instant) (observation : DhanCalendarObservation) (comparison : CalendarComparison)
    : CalendarMonitorState := {|
  ms_last_attempt_at := Some reference; ms_last_success_at := Some reference; ms_source := Some (ob_source observation);
  ms_source_year := ob_source_year observation; ms_status := Some (cc_overall_status comparison);
  ms_difference_count := cc_difference_count comparison;
  ms_parse_status := match ob_parse_status observation with PARSE_OK => MONITOR_OK | PARSE_FAILURE => MONITOR_PARSE_FAILURE end;
  ms_signature := Some (cc_signature comparison) |}.

(** [_evaluate] *)
Definition evaluate (page : PageOutcome) (reference : instant) (self : CalendarMonitorService) : result CalendarMonitorState :=
  match fetch page with
  | Raise e => if is_provider_boundary_error e then Ok (fetch_failure_state (cm_state self) reference) else Raise e
  | Ok html =>
      let observation := parse html_events html "dhan_market_holiday" in
      comparison ← compare observation (cm_dataset self);
      Ok (success_state reference observation comparison)
  end.

(** [check], with whether its log line is at the level of a change. *)
Definition check (page : PageOutcome) (reference : instant) (self : CalendarMonitorService)
    : result (CalendarMonitorService * bool) :=
  state ← evaluate page reference self;
  Ok ({| cm_dataset := cm_dataset self; cm_state := state |},
      negb (bool_decide (ms_signature state = ms_signature (cm_state self)))).

(** * The driver *)

Record CalendarMonitorDriver : Type := {
  dv_monitor : CalendarMonitorService;
  dv_last_run_date : option date;
}.

Context (timezone : ZoneInfo) (run_time : time).

(** [_maybe_check], with the instant a check ran at. *)
Definition maybe_check (now : instant) (page : PageOutcome) (self : CalendarMonitorDriver)
    : result (CalendarMonitorDriver * list instant) :=
  let day := local_date timezone now in
  if negb (bool_decide (Some day = dv_last_run_date self)) && (run_time <=? local_time timezone now) then
    '(monitor, _) ← check page now (dv_monitor self);
    Ok ({| dv_monitor := monitor; dv_last_run_date := Some day |}, [now])
  else Ok (self, []).

(** [run] over the readings of the clock, until an error ends it. *)
Fixpoint run (readings : list (instant * PageOutcome)) (self : CalendarMonitorDriver)
    : CalendarMonitorDriver * list instant * option exn :=
  match readings with
  | [] => (self, [], None)
  | (now, page) :: readings =>
      match maybe_check now page self with
      | Raise e => (self, [], Some e)
      | Ok (self, ran) => let '(self, more, e) := run readings self in (self, ran ++ more, e)
      end
  end.
End Monitor.

(** * Lemmas *)

(** ** Agreement *)

(** The dataset trades on a date. *)
Definition trades (dataset : TradingCalendarDataset) (day : date) : Prop :=
  day ∈ ds_open_sessions dataset \/ ((weekday day ∉ default_weekend) /\ (day ∉ ds_closed_dates dataset)).

Definition observed_pairs (entry : ObservedCalendarDate) : IntervalPairs := map (fun iv => (oi_start iv, oi_end iv)) (od_intervals entry).

(** An entry agrees with the dataset: its date is covered, it is open exactly when the
    dataset trades, and the timings it states for an exceptional session are those of the
    override. *)
Definition agrees (dataset : TradingCalendarDataset) (entry : ObservedCalendarDate) : Prop :=
  let day := od_observed_date entry in
  ds_coverage_start dataset <= day <= ds_coverage_end dataset
  /\ (od_status entry = OPEN <-> trades dataset day)
  /\ (od_status entry = OPEN -> day ∈ ds_open_sessions dataset -> od_intervals entry <> [] ->
      exists spec, spec ∈ ds_session_overrides dataset /\ so_trading_date spec = day /\ spec_pairs spec = observed_pairs entry).

Lemma override_pairs_spec dataset day pairs : NoDup (override_dates dataset) ->
  dict_get day (override_pairs dataset) = Some pairs
  <-> exists spec, spec ∈ ds_session_overrides dataset /\ so_trading_date spec = day /\ spec_pairs spec = pairs.
Proof.
  unfold override_pairs, override_dates. generalize (ds_session_overrides dataset) as specs. intros specs.
  assert (Hgen : forall acc, NoDup (map so_trading_date specs) ->
    dict_get day (fold_left (fun p spec => dict_set (so_trading_date spec) (spec_pairs spec) p) specs acc) = Some pairs
    <-> (exists spec, spec ∈ specs /\ so_trading_date spec = day /\ spec_pairs spec = pairs)
        \/ ((day ∉ map so_trading_date specs) /\ dict_get day acc = Some pairs)).
  { induction specs as [|spec specs IH]; intros acc Hn; cbn [fold_left map].
    - split; [intros H; right; split; [apply not_elem_of_nil|done]|]. intros [(? & H & _)|[_ ?]]; [by apply elem_of_nil in H|done].
    - cbn in Hn. apply NoDup_cons in Hn as [Hn1 Hn2]. rewrite IH by done. rewrite dict_get_set. destruct (decide (day = so_trading_date spec)) as [->|Hne].
      + split.
        * intros [(s & Hs & E & _)|[_ [= <-]]]; [|left; exists spec; split_and!; [by left|done|done]].
          destruct Hn1. rewrite <- E. by apply list_elem_of_fmap_2.
        * intros [(s & [->|Hs]%elem_of_cons & E & Hp)|[Hd _]]; [right; split; [done|by rewrite Hp]| |].
          -- destruct Hn1. rewrite <- E. by apply list_elem_of_fmap_2.
          -- destruct Hd. by left.
      + split.
        * intros [(s & Hs & E & Hp)|[Hd Hg]]; [left; exists s; split_and!; [by right|done|done]|].
          right. split; [by apply not_elem_of_cons|done].
        * intros [(s & [->|Hs]%elem_of_cons & E & Hp)|[Hd Hg]]; [done|left; by exists s|].
          right. apply not_elem_of_cons in Hd as [_ ?]. done. }
  intros Hn. rewrite Hgen by done. split; [intros [?|[_ ?]]; done|]. by left.
Qed.

Definition view_of (dataset : TradingCalendarDataset) (coverage : CalendarCoverage) (calendar : TradingCalendar) : AuthorityView :=
  {| av_coverage := coverage; av_calendar := calendar; av_open_set := ds_open_sessions dataset;
     av_closed_set := ds_closed_dates dataset; av_overrides := override_pairs dataset |}.

Lemma timing_spec dataset entry : dataset_ok dataset ->
  compare_open_timing entry (od_observed_date entry) (override_pairs dataset) = MATCH
  <-> (od_intervals entry <> [] -> exists spec, spec ∈ ds_session_overrides dataset
        /\ so_trading_date spec = od_observed_date entry /\ spec_pairs spec = observed_pairs entry).
Proof.
  intros Hok. unfold compare_open_timing, observed_pairs. destruct (od_intervals entry) as [|iv ivs]; [split; [by intros _ []|done]|].
  rewrite <- override_pairs_spec by apply Hok. case_bool_decide as Hd; (split; [|done || (intros H; by destruct Hd; apply H)]); done.
Qed.

Lemma verdict dataset coverage calendar entry : dataset_ok dataset ->
  calendar_coverage dataset = Ok coverage -> trading_calendar dataset = Ok calendar ->
  let r := compare_date entry (view_of dataset coverage calendar) in
  dc_observed_date r = od_observed_date entry
  /\ (dc_status r = MATCH <-> agrees dataset entry)
  /\ dc_status r ∈ MATCH :: SEVERITY_ORDER.
Proof.
  intros Hok Hcov Hcal. cbv zeta. unfold compare_date, view_of.
  cbn [dc_observed_date dc_status av_coverage av_calendar av_open_set av_closed_set av_overrides]. split; [done|].
  set (day := od_observed_date entry).
  destruct (dataset_projections dataset nse_schedule Hok) as (cov & cal & eff & Hcov' & Hcontains & Hcal' & Htrading & _).
  rewrite Hcov in Hcov'. injection Hcov' as <-. rewrite Hcal in Hcal'. injection Hcal' as <-.
  specialize (Hcontains day). specialize (Htrading day). pose proof (timing_spec dataset entry Hok) as Htime.
  pose proof (dok_disjoint _ Hok day) as Hdis. fold day in Htime.
  assert (Hno : forall st, st <> MATCH -> st ∈ SEVERITY_ORDER -> ~ agrees dataset entry ->
    (st = MATCH <-> agrees dataset entry) /\ st ∈ MATCH :: SEVERITY_ORDER).
  { intros st H1 H2 H3. split; [split; [done|by intros ?]|by right]. }
  assert (Hyes : agrees dataset entry -> (MATCH = MATCH <-> agrees dataset entry) /\ MATCH ∈ MATCH :: SEVERITY_ORDER).
  { intros H. split; [done|by left]. }
  unfold agrees in Hno, Hyes |- *. fold day in Hno, Hyes |- *. unfold trades in Hno, Hyes |- *.
  destruct (contains coverage day) eqn:Ec; cbn [negb].
  2: { apply Hno; [done|by apply (bool_decide_unpack _)|]. intros [Hin _]. apply Hcontains in Hin. done. }
  assert (Hin : ds_coverage_start dataset <= day <= ds_coverage_end dataset) by (by apply Hcontains).
  destruct (od_status entry) eqn:Es.
  - unfold compare_closed. cbn [df_open_explicit df_trading].
    destruct (decide (day ∈ ds_open_sessions dataset)) as [Ho|Ho].
    { rewrite (bool_decide_true _ Ho). apply Hno; [done|by apply (bool_decide_unpack _)|]. naive_solver. }
    rewrite (bool_decide_false _ Ho). destruct (is_trading_day calendar day) eqn:Et; cbn [negb].
    + apply Hno; [done|by apply (bool_decide_unpack _)|]. naive_solver.
    + apply Hyes. naive_solver.
  - unfold compare_open. cbn [df_open_explicit df_closed_explicit df_trading df_day].
    destruct (decide (day ∈ ds_closed_dates dataset)) as [Hc|Hc].
    { rewrite (bool_decide_true _ Hc). apply Hno; [done|by apply (bool_decide_unpack _)|]. naive_solver. }
    rewrite (bool_decide_false _ Hc). destruct (decide (day ∈ ds_open_sessions dataset)) as [Ho|Ho].
    + rewrite (bool_decide_true _ Ho). destruct (decide (compare_open_timing entry day (override_pairs dataset) = MATCH)) as [Ht|Ht].
      * rewrite Ht. apply Hyes. rewrite Htime in Ht. naive_solver.
      * apply Hno; [done| |]; [|rewrite Htime in Ht; naive_solver]. revert Ht. unfold compare_open_timing.
        destruct (od_intervals entry); [done|]. case_bool_decide; [done|]. by apply (bool_decide_unpack _).
    + rewrite (bool_decide_false _ Ho). destruct (is_trading_day calendar day) eqn:Et; cbn [negb].
      * apply Hyes. naive_solver.
      * apply Hno; [done|by apply (bool_decide_unpack _)|]. naive_solver.
Qed.

(** ** Severity *)

(** The place of a status in the order of severity; a match comes last. *)
Definition severity (s : CalendarComparisonStatus) : nat :=
  match s with
  | DHAN_DATE_STATUS_CONFLICT => 0 | DHAN_NEW_OPEN_DATE => 1 | DHAN_NEW_CLOSED_DATE => 2
  | DHAN_SESSION_TIMING_CHANGE => 3 | AUTHORITATIVE_COVERAGE_MISSING => 4 | _ => 5
  end.

Lemma overall_spec results : Forall (fun r => dc_status r ∈ MATCH :: SEVERITY_ORDER) results ->
  (overall_status results = MATCH <-> Forall (fun r => dc_status r = MATCH) results)
  /\ (overall_status results <> MATCH -> exists r, r ∈ results /\ dc_status r = overall_status results)
  /\ Forall (fun r => (severity (overall_status results) <= severity (dc_status r))%nat) results.
Proof.
  intros Hall.
  assert (Hmem : forall s, s ∈ map dc_status results <-> exists r, r ∈ results /\ dc_status r = s).
  { intros s. rewrite list_elem_of_fmap. split; intros (r & ? & ?); exists r; done. }
  assert (Hfind : exists s, overall_status results = s /\ (s = MATCH \/ s ∈ map dc_status results)
    /\ forall s', s' ∈ map dc_status results -> s' ∈ MATCH :: SEVERITY_ORDER -> (severity s <= severity s')%nat).
  { unfold overall_status, SEVERITY_ORDER. cbn [List.find]. eexists. split; [reflexivity|].
    repeat case_bool_decide; (split; [auto|]); intros s' Hs' Hin;
      repeat (apply elem_of_cons in Hin as [->|Hin]; [cbn; (lia || done)|]); by apply elem_of_nil in Hin. }
  destruct Hfind as (s & -> & Hs & Hle). rewrite Forall_forall in Hall.
  assert (Hsev : Forall (fun r => (severity s <= severity (dc_status r))%nat) results).
  { apply Forall_forall. intros r Hr. apply Hle; [by apply list_elem_of_fmap_2|by apply Hall]. }
  split_and!; [|intros Hn; destruct Hs as [?|Hs]; [done|by apply Hmem]|done]. split.
  - intros ->. apply Forall_forall. intros r Hr. rewrite Forall_forall in Hsev. specialize (Hsev r Hr). cbn in Hsev.
    specialize (Hall r Hr). unfold SEVERITY_ORDER in Hall.
    repeat (apply elem_of_cons in Hall as [E|Hall]; [rewrite E in Hsev |- *; cbn in Hsev; (done || lia)|]). by apply elem_of_nil in Hall.
  - intros Hm. destruct Hs as [?|Hs]; [done|]. apply Hmem in Hs as (r & Hr & <-). rewrite Forall_forall in Hm. by apply Hm.
Qed.

Lemma no_differences results : length (differences results) = 0%nat <-> Forall (fun r => dc_status r = MATCH) results.
Proof.
  unfold differences, is_match. induction results as [|r results IH]; [by split|]. rewrite Forall_cons, <- IH, filter_cons.
  destruct (decide (bool_decide (dc_status r = MATCH) = false)) as [E|E].
  - apply bool_decide_eq_false in E. cbn. split; [done|by intros [? _]].
  - rewrite bool_decide_eq_false in E. destruct (decide (dc_status r = MATCH)); [|done]. tauto.
Qed.

Section MonitorLemmas.
Context (sha256_hexdigest : string -> string) (html_events : string -> list HtmlEvent).

(** [C15] Comparing an observation with an accepted dataset never fails and gives one result per
    observed date, in order; a date matches exactly when the entry agrees with the dataset;
    the outcome is a match, with no differences and the fixed signature, exactly when all
    entries agree, and otherwise the most severe of the differences found. *)
Theorem compare_correct dataset observation : dataset_ok dataset -> ob_parse_status observation = PARSE_OK ->
  exists comparison, compare sha256_hexdigest observation (Some dataset) = Ok comparison
  /\ Forall2 (fun entry r => dc_observed_date r = od_observed_date entry /\ (dc_status r = MATCH <-> agrees dataset entry))
       (ob_dates observation) (cc_date_results comparison)
  /\ (cc_overall_status comparison = MATCH <-> Forall (agrees dataset) (ob_dates observation))
  /\ (cc_difference_count comparison = 0%nat <-> cc_overall_status comparison = MATCH)
  /\ (cc_overall_status comparison = MATCH -> cc_signature comparison = "match"%string)
  /\ (cc_overall_status comparison <> MATCH ->
        exists r, r ∈ cc_date_results comparison /\ dc_status r = cc_overall_status comparison)
  /\ Forall (fun r => (severity (cc_overall_status comparison) <= severity (dc_status r))%nat) (cc_date_results comparison).
Proof.
  intros Hok Hp. destruct (dataset_projections dataset nse_schedule Hok) as (coverage & calendar & _ & Hcov & _ & Hcal & _).
  unfold compare. rewrite bool_decide_false by (by rewrite Hp). rewrite Hcov, Hcal. cbn [mbind result_bind].
  eexists. split; [reflexivity|]. cbn [cc_overall_status cc_date_results cc_difference_count cc_signature].
  fold (view_of dataset coverage calendar). set (results := map _ (ob_dates observation)).
  pose proof (fun entry => verdict dataset coverage calendar entry Hok Hcov Hcal) as Hv. cbv zeta in Hv.
  assert (Hall : Forall (fun r => dc_status r ∈ MATCH :: SEVERITY_ORDER) results).
  { apply Forall_forall. intros r (entry & -> & _)%list_elem_of_fmap. apply Hv. }
  destruct (overall_spec results Hall) as (H1 & H2 & H3).
  assert (Hagree : Forall (fun r => dc_status r = MATCH) results <-> Forall (agrees dataset) (ob_dates observation)).
  { unfold results. rewrite Forall_map. apply Forall_iff. intros entry. apply Hv. }
  split_and!; try done.
  - unfold results. clear -Hv. induction (ob_dates observation) as [|entry entries IH]; [constructor|].
    constructor; [|exact IH]. destruct (Hv entry) as (? & ? & _). done.
  - by rewrite H1.
  - rewrite no_differences. by rewrite H1.
  - intros E. unfold signature. by rewrite bool_decide_true.
Qed.

(** ** The signature *)

Definition key_char (c : ascii) : bool := negb (bool_decide (c = "|"%char)) && negb (bool_decide (c = ":"%char)).

Lemma value_chars s : all_chars key_char (status_value s) = true.
Proof. by destruct s. Qed.

Lemma key_text_chars r : all_chars (fun c => negb (bool_decide (c = "|"%char))) (key_text (difference_key r)) = true.
Proof.
  assert (Hmono : forall s, all_chars key_char s = true -> all_chars (fun c => negb (bool_decide (c = "|"%char))) s = true).
  { intros s. apply all_chars_mono. intros c. unfold key_char. by intros [? _]%andb_true_iff. }
  unfold key_text, difference_key. cbn [fst snd]. rewrite all_chars_app. apply andb_true_iff. split.
  - apply Hmono. by apply isoformat_all.
  - cbn [all_chars]. apply andb_true_iff. split; [done|]. apply Hmono, value_chars.
Qed.

Lemma key_text_inj a b : key_text (difference_key a) = key_text (difference_key b) -> difference_key a = difference_key b.
Proof.
  assert (Hread : forall r, split_first ":" (key_text (difference_key r)) = Some (difference_key r)).
  { intros r. unfold key_text, difference_key. cbn [fst snd]. apply split_first_app. by apply isoformat_all. }
  intros H. apply (f_equal (split_first ":")) in H. rewrite !Hread in H. congruence.
Qed.

Lemma sorted_key results key : key ∈ sorted_differences results -> exists r, key = difference_key r.
Proof. unfold sorted_differences. rewrite elem_of_py_sorted, list_elem_of_fmap. intros (r & -> & _). by exists r. Qed.

Lemma keys_read overall results :
  split_on (fun c => bool_decide (c = "|"%char)) (canonical_text overall results)
  = status_value overall :: match sorted_differences results with [] => [EmptyString] | keys => map key_text keys end.
Proof.
  unfold canonical_text. rewrite split_on_app.
  2: { eapply all_chars_mono; [|apply value_chars]. intros c. unfold key_char. by intros [? _]%andb_true_iff. }
  cbn [split_on]. rewrite bool_decide_true by done. rewrite append_empty. f_equal.
  pose proof (sorted_key results) as Hk. destruct (sorted_differences results) as [|key keys]; [done|].
  apply split_on_join; [done|done|]. apply Forall_map, Forall_forall. intros k Hin. destruct (Hk k Hin) as [r ->]. apply key_text_chars.
Qed.

Lemma key_sorted_perm l l' : py_sorted key_leb l = py_sorted key_leb l' <-> l ≡ₚ l'.
Proof.
  split.
  - intros H. rewrite <- (py_sorted_perm key_leb l), H. apply py_sorted_perm.
  - intros H. apply py_sorted_unique.
    + intros a b. apply strings_leb_total.
    + intros a b c. apply strings_leb_trans.
    + intros [a1 a2] [b1 b2] _ _ H1 H2. assert ([a1; a2] = [b1; b2]) as [= -> ->]; [|done].
      by apply strings_leb_antisym.
    + done.
Qed.

Lemma keys_unique l l' : map key_text l = map key_text l' ->
  (forall k, k ∈ l -> exists r, k = difference_key r) -> (forall k, k ∈ l' -> exists r, k = difference_key r) -> l = l'.
Proof.
  revert l'. induction l as [|k l IH]; intros [|k' l'] H K1 K2; try done.
  cbn [map] in H. assert (E : key_text k = key_text k') by congruence.
  destruct (K1 k) as [r ->]; [by left|]. destruct (K2 k') as [r' ->]; [by left|]. rewrite (key_text_inj r r' E). f_equal.
  apply IH; [congruence|intros ? ?; apply K1; by right|intros ? ?; apply K2; by right].
Qed.

(** The text that is signed tells discrepancies apart by their overall status and by which
    dates differ how, and by nothing else: two comparisons have the same text exactly when
    those are the same, in whatever order the page had them. *)
Theorem canonical_text_exact overall overall' results results' :
  canonical_text overall results = canonical_text overall' results'
  <-> overall = overall' /\ map difference_key (differences results) ≡ₚ map difference_key (differences results').
Proof.
  rewrite <- key_sorted_perm. fold (sorted_differences results) (sorted_differences results'). split.
  - intros H. apply (f_equal (split_on (fun c => bool_decide (c = "|"%char)))) in H. rewrite !keys_read in H.
    injection H as Hv Hk. split; [by destruct overall, overall'|].
    pose proof (sorted_key results) as K1. pose proof (sorted_key results') as K2.
    assert (Hne : forall key keys, [EmptyString] <> map key_text (key :: keys)).
    { intros [[|c k] v] keys [=]. }
    revert K1 K2 Hk. destruct (sorted_differences results) as [|k1 l1], (sorted_differences results') as [|k2 l2];
      intros K1 K2 Hk; [done|by destruct (Hne k2 l2)|by destruct (Hne k1 l1)|].
    by apply keys_unique.
  - intros [-> H]. unfold canonical_text. by rewrite H.
Qed.

(** ** Checks *)

Definition monitor_ok (self : CalendarMonitorService) : Prop :=
  match cm_dataset self with Some dataset => dataset_ok dataset | None => True end.

Lemma fetch_boundary page e : fetch page = Raise e -> is_provider_boundary_error e = true.
Proof.
  destruct page as [| |status_code text]; cbn; [by intros [= <-]|by intros [= <-]|].
  destruct (negb _); cbn; [by intros [= <-]|done].
Qed.

Lemma compare_total dataset observation : match dataset with Some dataset => dataset_ok dataset | None => True end ->
  exists comparison, compare sha256_hexdigest observation dataset = Ok comparison.
Proof.
  intros Hok. destruct (decide (ob_parse_status observation = PARSE_FAILURE)) as [Hp|Hp].
  { unfold compare. rewrite bool_decide_true by done. by eexists. }
  destruct dataset as [dataset|].
  - destruct (compare_correct dataset observation Hok) as (c & Hc & _); [by destruct (ob_parse_status observation)|]. by exists c.
  - unfold compare. rewrite bool_decide_false by done. by eexists.
Qed.

(** A check never fails, whatever the page request meets and whatever the page holds, and
    never touches the dataset.  A failed request is recorded as such and keeps what the
    last success said about its source; a page that came is recorded as the success of
    this instant with the outcome of the comparison; and the check is at the level of a
    change exactly when the signature is another one than before. *)
Theorem check_correct page reference self : monitor_ok self ->
  exists self' changed, check sha256_hexdigest html_events page reference self = Ok (self', changed)
  /\ cm_dataset self' = cm_dataset self /\ ms_last_attempt_at (cm_state self') = Some reference
  /\ changed = negb (bool_decide (ms_signature (cm_state self') = ms_signature (cm_state self)))
  /\ match fetch page with
     | Raise _ => ms_status (cm_state self') = Some DHAN_FETCH_FAILURE /\ ms_parse_status (cm_state self') = NOT_ATTEMPTED
         /\ ms_last_success_at (cm_state self') = ms_last_success_at (cm_state self)
         /\ ms_source (cm_state self') = ms_source (cm_state self)
     | Ok html => let observation := parse html_events html "dhan_market_holiday" in
         ms_last_success_at (cm_state self') = Some reference
         /\ exists comparison, compare sha256_hexdigest observation (cm_dataset self) = Ok comparison
            /\ ms_status (cm_state self') = Some (cc_overall_status comparison)
            /\ ms_difference_count (cm_state self') = cc_difference_count comparison
            /\ ms_signature (cm_state self') = Some (cc_signature comparison)
            /\ (ms_parse_status (cm_state self') = MONITOR_OK <-> ob_parse_status observation = PARSE_OK)
     end.
Proof.
  intros Hok. unfold check, evaluate. destruct (fetch page) as [html|e] eqn:Ef.
  - destruct (compare_total (cm_dataset self) (parse html_events html "dhan_market_holiday") Hok) as [c Hc].
    rewrite Hc. cbn [mbind result_bind]. eexists _, _. split; [reflexivity|]. split_and!; try done.
    exists c. split_and!; try done. cbn. by destruct (ob_parse_status _).
  - rewrite (fetch_boundary page e Ef). cbn [mbind result_bind]. eexists _, _. split; [reflexivity|]. by split_and!.
Qed.

(** ** The driver *)

Context (timezone : ZoneInfo) (offset : timedelta) `{!FixedOffset timezone offset} (run_time : time).

Lemma local_date_mono a b : a <= b -> local_date timezone a <= local_date timezone b.
Proof using FixedOffset0.
  intros H. unfold local_date, wall_date. rewrite !(fixed_to_wall (tz := timezone) (offset := offset)). apply Z.div_le_mono; [done|lia].
Qed.

Local Abbreviation runs := (run sha256_hexdigest html_events timezone run_time).

Lemma run_from readings self : monitor_ok (dv_monitor self) -> StronglySorted Z.le (map fst readings) ->
  (forall r, r ∈ readings -> forall day, dv_last_run_date self = Some day -> day <= local_date timezone r.1) ->
  let '(_, ran, e) := runs readings self in
  e = None /\ StronglySorted Z.lt (map (local_date timezone) ran)
  /\ Forall (fun i => i ∈ map fst readings /\ run_time <= local_time timezone i
       /\ forall day, dv_last_run_date self = Some day -> day < local_date timezone i) ran
  /\ forall r, r ∈ readings -> run_time <= local_time timezone r.1 ->
       dv_last_run_date self = Some (local_date timezone r.1) \/ local_date timezone r.1 ∈ map (local_date timezone) ran.
Proof using FixedOffset0.
  revert self. induction readings as [|[now page] readings IH]; intros self Hok Hs Hlast; cbn [run].
  { split_and!; [done|constructor|constructor|by intros ? ?%elem_of_nil]. }
  cbn [map fst] in Hs. apply StronglySorted_inv in Hs as [Hs Hle]. rewrite Forall_forall in Hle.
  unfold maybe_check. set (day := local_date timezone now).
  destruct (negb (bool_decide (Some day = dv_last_run_date self)) && (run_time <=? local_time timezone now)) eqn:Edue.
  - apply andb_true_iff in Edue as [Hnew Htime]. apply negb_true_iff, bool_decide_eq_false in Hnew. apply Z.leb_le in Htime.
    destruct (check_correct page now (dv_monitor self) Hok) as (monitor & changed & Hc & Hd & _). rewrite Hc. cbn [mbind result_bind].
    specialize (IH {| dv_monitor := monitor; dv_last_run_date := Some day |}).
    destruct (runs readings {| dv_monitor := monitor; dv_last_run_date := Some day |}) as [[self' ran] e] eqn:Er.
    destruct IH as (He & Hsort & Hran & Hcover); [unfold monitor_ok; cbn; by rewrite Hd|done| |].
    { intros r Hr d [= <-]. cbn. apply local_date_mono, Hle. by apply list_elem_of_fmap_2. }
    assert (Hnow : forall d, dv_last_run_date self = Some d -> d < day).
    { intros d Hd'. pose proof (Hlast (now, page) ltac:(by left) d Hd') as H. cbn in H. fold day in H.
      assert (d <> day) by (intros ->; by rewrite Hd' in Hnew). lia. }
    split_and!; [done| | |].
    + cbn. constructor; [done|]. apply Forall_map. eapply Forall_impl; [exact Hran|]. intros i (_ & _ & Hi). by apply Hi.
    + cbn. constructor; [split_and!; [by left|done|done]|]. eapply Forall_impl; [exact Hran|]. intros i (Hi & Ht & Hlt). cbn in Hlt.
      split_and!; [by right|done|]. intros d Hd'. specialize (Hnow d Hd'). specialize (Hlt day eq_refl). lia.
    + intros r [->|Hr]%elem_of_cons Ht; [right; by left|].
      destruct (Hcover r Hr Ht) as [[= E]|Hin]; right; [rewrite <- E; by left|by right].
  - specialize (IH self Hok Hs ltac:(intros r Hr; apply Hlast; by right)). destruct (runs readings self) as [[self' ran] e] eqn:Er.
    destruct IH as (He & Hsort & Hran & Hcover). split_and!; [done|done| |].
    + eapply Forall_impl; [exact Hran|]. intros i (Hi & ? & ?). split_and!; [by right|done|done].
    + intros r [->|Hr]%elem_of_cons Ht; [|by apply Hcover]. cbn in Ht. left. apply andb_false_iff in Edue as [Hd|Hd].
      * apply negb_false_iff, bool_decide_eq_true in Hd. by rewrite <- Hd.
      * apply Z.leb_gt in Hd. lia.
Qed.

(** [C16] Over any readings of a clock that does not go back, the driver never ends, whatever the
    page requests meet: it checks at most once on each local date, only at or after the run
    time, and on every date of which it reads the clock at or after the run time. *)
Theorem driver_runs_daily readings dataset : match dataset with Some dataset => dataset_ok dataset | None => True end ->
  StronglySorted Z.le (map fst readings) ->
  let '(_, ran, e) := runs readings {| dv_monitor := mk_monitor dataset; dv_last_run_date := None |} in
  e = None /\ StronglySorted Z.lt (map (local_date timezone) ran)
  /\ Forall (fun i => i ∈ map fst readings /\ run_time <= local_time timezone i) ran
  /\ forall r, r ∈ readings -> run_time <= local_time timezone r.1 -> local_date timezone r.1 ∈ map (local_date timezone) ran.
Proof using FixedOffset0.
  intros Hok Hs. pose proof (run_from readings {| dv_monitor := mk_monitor dataset; dv_last_run_date := None |} Hok Hs ltac:(done)) as H.
  destruct (runs readings _) as [[self' ran] e]. destruct H as (H1 & H2 & H3 & H4). split_and!; [done|done| |].
  - eapply Forall_impl; [exact H3|]. by intros i (? & ? & _).
  - intros r Hr Ht. by destruct (H4 r Hr Ht) as [|].
Qed.
End MonitorLemmas.

(** ** At concrete inputs *)

Definition sample_observation : DhanCalendarObservation := {|
  ob_source := "dhan_market_holiday"; ob_source_year := Some 2026; ob_parse_status := PARSE_OK;
  ob_dates := [republic_day; budget_session] |}.

(** The page splits the budget session, which the dataset has as one interval. *)
Lemma compare_correct_witness :
  exists comparison, compare id sample_observation (Some nse_cm_2026) = Ok comparison
  /\ cc_overall_status comparison = DHAN_SESSION_TIMING_CHANGE /\ cc_difference_count comparison <> 0%nat.
Proof.
  destruct (compare_correct id nse_cm_2026 sample_observation packaged_dataset_ok eq_refl) as (c & Hc & _ & _ & Hcount & _).
  exists c. split; [done|]. assert (E : cc_overall_status c = DHAN_SESSION_TIMING_CHANGE).
  { assert (Hr : match compare id sample_observation (Some nse_cm_2026) with
                 | Ok c => cc_overall_status c | Raise _ => MATCH end = DHAN_SESSION_TIMING_CHANGE) by (vm_compute; reflexivity).
    by rewrite Hc in Hr. }
  split; [done|]. intros H. apply Hcount in H. congruence.
Defined.

Lemma check_correct_witness :
  exists self' changed, check id (fun _ => []) PageTimeout 7 (mk_monitor (Some nse_cm_2026)) = Ok (self', changed)
  /\ ms_status (cm_state self') = Some DHAN_FETCH_FAILURE.
Proof.
  destruct (check_correct id (fun _ => []) PageTimeout 7 (mk_monitor (Some nse_cm_2026)) packaged_dataset_ok)
    as (self' & changed & Hc & _ & _ & _ & Hs & _).
  exists self', changed. by split.
Defined.

(** Two polls on one evening and one on the next: two checks. *)
Definition evening (d : Z) (t : time) : instant := wall_to_utc kolkata (combine (in_2026 1 d) t).
Lemma driver_runs_daily_witness :
  let readings := [(evening 5 (hm 17 59), PageTimeout); (evening 5 (hm 18 0), PageTimeout); (evening 5 (hm 18 1), PageError);
                   (evening 6 (hm 19 0), PageResponse 200 "")] in
  let '(_, ran, e) := run id (fun _ => []) kolkata (hm 18 0) readings
    {| dv_monitor := mk_monitor (Some nse_cm_2026); dv_last_run_date := None |} in
  e = None /\ ran = [evening 5 (hm 18 0); evening 6 (hm 19 0)].
Proof.
  intros readings.
  pose proof (driver_runs_daily id (fun _ => []) kolkata (19800 * us_per_second) (hm 18 0) readings (Some nse_cm_2026) packaged_dataset_ok) as H.
  assert (Hs : StronglySorted Z.le (map fst readings)) by (repeat constructor; vm_compute; congruence).
  specialize (H Hs). assert (Hran : (run id (fun _ => []) kolkata (hm 18 0) readings
    {| dv_monitor := mk_monitor (Some nse_cm_2026); dv_last_run_date := None |}).1.2 = [evening 5 (hm 18 0); evening 6 (hm 19 0)])
    by (vm_compute; reflexivity).
  destruct (run id (fun _ => []) kolkata (hm 18 0) readings _) as [[self' ran] e]. destruct H as [H _]. by split.
Defined.

(** A page that changes the timings of a session again is no change to the signature: only
    that they differ is signed. *)
Lemma timing_change_unsigned :
  let other := {| od_observed_date := od_observed_date budget_session; od_status := OPEN;
                  od_intervals := [{| oi_start := hm 18 0; oi_end := hm 19 0 |}] |} in
  let observed entry := {| ob_source := "dhan_market_holiday"; ob_source_year := Some 2026; ob_parse_status := PARSE_OK; ob_dates := [entry] |} in
  forall digest, compare digest (observed budget_session) (Some nse_cm_2026) = compare digest (observed other) (Some nse_cm_2026).
Proof. intros other observed digest. vm_compute. reflexivity. Qed.
