(* ===== verification/Evidence.v ===== *)
(** Evidence of the provider's session OHLC, tools/session_ohlc_evidence: the records
    ([models.py]), the comparison of prices through their binary32 form ([canonical.py]),
    the verdict and the combination of records ([evaluate.py]), and the assembly of a
    collection run ([collect.py]).

    A reason is the value its text shows.  A Decimal is finite and has no signed zero, so
    the only price without a binary64 is one that overflows it.  The streams and requests of
    a run are arguments, what they yield before they end.

    The theorems say that a price keeps its wire form through decoding, which records each
    verdict is given to, when the observations of an instrument are monotone, and what a
    combination holds; the last lemmas show verdicts the evidence does not support. *)
From S2P Require Import Prelude DecimalContext PyTime PyDate MarketData PyNumber FloatText Universe.

Local Open Scope Z_scope.

(** [not xs] *)
Definition not_any {A} (xs : list A) : bool := match xs with [] => true | _ => false end.

(** * Models *)

Inductive Classification : Type := MATCH | PROTOCOL_EQUIVALENT | DRIFT | INDETERMINATE | MISMATCH.
Inductive VerdictOutcome : Type := ACCEPTED | REJECTED | INCONCLUSIVE.
Inductive LateStartKind : Type := PROVIDER_LATE_SUBSCRIPTION | OBSERVER_LATE_ATTACH.

#[global] Instance Classification_eq_dec : EqDecision Classification.
Proof. solve_decision. Defined.
#[global] Instance VerdictOutcome_eq_dec : EqDecision VerdictOutcome.
Proof. solve_decision. Defined.
#[global] Instance LateStartKind_eq_dec : EqDecision LateStartKind.
Proof. solve_decision. Defined.

Record OhlcObservation : Type := {
  ob_source : string;
  ob_window : string;
  ob_observed_at : instant;
  ob_trading_date : option date;
  ob_open_price : option Decimal;
  ob_high_price : option Decimal;
  ob_low_price : option Decimal;
}.

Record OracleComparison : Type := {
  oc_window : string;
  oc_field : string;
  oc_ws_value : option Decimal;
  oc_rest_value : option Decimal;
  oc_tick_size : option Decimal;
  oc_classification : Classification;
  oc_method : string;
  oc_ws_float32_bits : option string;
  oc_rest_float32_bits : option string;
}.

(** One entry of [violations]. *)
Inductive Violation : Type :=
| OpenChanged (first seen : Decimal) (window : string)
| HighRegressed (prev seen : Decimal) (window : string)
| LowRegressed (prev seen : Decimal) (window : string).

Record MonotonicityResult : Type := {
  open_stable : bool;
  high_non_decreasing : bool;
  low_non_increasing : bool;
  violations : list Violation;
}.

Record InstrumentEvidence : Type := {
  ie_exchange : string;
  ie_symbol : string;
  ie_security_id : string;
  ie_trading_date : date;
  ie_ws_observations : list OhlcObservation;
  ie_rest_observations : list OhlcObservation;
  ie_oracle_comparisons : list OracleComparison;
  ie_monotonicity : option MonotonicityResult;
}.

(** [InstrumentEvidence.identity] *)
Definition evidence_identity (self : InstrumentEvidence) : string :=
  (ie_exchange self ++ ":" ++ ie_symbol self)%string.

Record LateStartEvidence : Type := {
  ls_observed : bool;
  ls_kind : LateStartKind;
  ls_observer_attach_timestamp : option instant;
  ls_prior_observed_at : option instant;
  ls_prior_open : option Decimal;
  ls_prior_high : option Decimal;
  ls_prior_low : option Decimal;
  ls_first_observed_at : option instant;
  ls_first_open : option Decimal;
  ls_first_high : option Decimal;
  ls_first_low : option Decimal;
}.

Record ReconnectEvidence : Type := {
  re_observed : bool;
  re_pre : option OhlcObservation;
  re_post : option OhlcObservation;
}.

Record EvidenceRecord : Type := {
  er_collector_version : string;
  er_source_sha : string;
  er_production_image : option string;
  er_provider : string;
  er_trading_date : date;
  er_session_identity : string;
  er_collection_start : instant;
  er_collection_end : instant;
  er_expected_instruments : list string;
  er_pending_instruments : list string;
  er_required_windows : list string;
  er_sample_windows : list string;
  er_instruments : list InstrumentEvidence;
  er_late_start : option LateStartEvidence;
  er_reconnect : option ReconnectEvidence;
  er_csoa16_required : bool;
  er_oracle_available : bool;
}.

Inductive Reason : Type :=
| OpenMismatches (count : nat)
| MonotonicityViolations (count : nat)
| HighLowMismatches (count : nat)
| LateStartLost (lost : list string)
| ReconnectNewSession
| ReconnectLost (lost : list string)
| OracleUnavailable
| NoInstruments
| DuplicateInstruments
| ExpectedNotObserved (count : nat)
| UnexpectedObserved (count : nat)
| MissingWindows (windows : list string)
| NoReconnectEvidence
| ReconnectIncomplete
| NoLateStartEvidence
| LateStartIncomplete
| ProviderLateStartNotProven
| HighLowIndeterminate (count : nat)
| AllSatisfied.

Record Verdict : Type := {
  ve_outcome : VerdictOutcome;
  ve_reasons : list Reason;
  ve_open_mismatches : nat;
  ve_monotonicity_violations : nat;
  ve_protocol_equivalent : nat;
  ve_high_low_drift : nat;
  ve_high_low_indeterminate : nat;
  ve_high_low_mismatch : nat;
}.

(** * Canonical prices *)

(** [math.isfinite(float(value))] *)
Definition is_finite_price (value : Decimal) : bool :=
  dec_ltb (dec_abs (to_binary64 value)) (Q2Qc (pow2 1024)).

Definition hex_byte (b : Z) : string :=
  String (hex_digit (Z.to_nat (b / 16))) (String (hex_digit (Z.to_nat (b mod 16))) EmptyString).

(** [bytes.hex()] of four little-endian bytes. *)
Definition hex_bits (bits : Z) : string :=
  (hex_byte (bits mod 256) ++ hex_byte (bits / 256 mod 256) ++ hex_byte (bits / 65536 mod 256)
   ++ hex_byte (bits / 16777216 mod 256))%string.

Definition float32_hex (value : option Decimal) : option string :=
  match value with
  | None => None
  | Some v => if is_finite_price v then hex_bits <$> pack_float32 (to_binary64 v) else None
  end.

Definition float32_equivalent (left right : option Decimal) : bool :=
  let left_bits := float32_hex left in
  let right_bits := float32_hex right in
  is_not_none left_bits && bool_decide (left_bits = right_bits).

(** * Evaluation *)

Definition classify_price (ws_value rest_value : option Decimal) (tick_size : option Decimal) (exact : bool)
    : Classification :=
  match ws_value, rest_value with
  | Some ws, Some rest =>
      if negb (is_finite_price ws && is_finite_price rest) then MISMATCH
      else if dec_eqb ws rest then MATCH
      else if float32_equivalent ws_value rest_value then PROTOCOL_EQUIVALENT
      else if negb (is_not_none (float32_hex ws_value)) || negb (is_not_none (float32_hex rest_value)) then MISMATCH
      else if exact then MISMATCH
      else match tick_size with
           | None => INDETERMINATE
           | Some tick => if dec_leb (ctx_abs (ctx_sub ws rest)) tick then DRIFT else MISMATCH
           end
  | _, _ => MISMATCH
  end.

(** ** Monotonicity *)

(** The loops of [_open_violations], [_high_violations] and [_low_violations]. *)
Fixpoint open_violations_from (first : option Decimal) (observations : list OhlcObservation) : list Violation :=
  match observations with
  | [] => []
  | o :: observations =>
      match ob_open_price o with
      | None => open_violations_from first observations
      | Some p =>
          match first with
          | None => open_violations_from (Some p) observations
          | Some f => (if dec_eqb p f then [] else [OpenChanged f p (ob_window o)]) ++ open_violations_from first observations
          end
      end
  end.

Fixpoint high_violations_from (prev : option Decimal) (observations : list OhlcObservation) : list Violation :=
  match observations with
  | [] => []
  | o :: observations =>
      match ob_high_price o with
      | None => high_violations_from prev observations
      | Some p =>
          match prev with
          | None => high_violations_from (Some p) observations
          | Some q => (if dec_ltb p q then [HighRegressed q p (ob_window o)] else [])
                      ++ high_violations_from (Some (dec_max q p)) observations
          end
      end
  end.

Fixpoint low_violations_from (prev : option Decimal) (observations : list OhlcObservation) : list Violation :=
  match observations with
  | [] => []
  | o :: observations =>
      match ob_low_price o with
      | None => low_violations_from prev observations
      | Some p =>
          match prev with
          | None => low_violations_from (Some p) observations
          | Some q => (if dec_ltb q p then [LowRegressed q p (ob_window o)] else [])
                      ++ low_violations_from (Some (dec_min q p)) observations
          end
      end
  end.

Definition open_violations (observations : list OhlcObservation) : list Violation := open_violations_from None observations.
Definition high_violations (observations : list OhlcObservation) : list Violation := high_violations_from None observations.
Definition low_violations (observations : list OhlcObservation) : list Violation := low_violations_from None observations.

Definition evaluate_monotonicity (observations : list OhlcObservation) : MonotonicityResult :=
  let open_v := open_violations observations in
  let high_v := high_violations observations in
  let low_v := low_violations observations in
  {| open_stable := not_any open_v;
     high_non_decreasing := not_any high_v;
     low_non_increasing := not_any low_v;
     violations := open_v ++ high_v ++ low_v |}.

(** ** Signals *)

Record Counts : Type := {
  open_mismatch : nat;
  mono : nat;
  proto : nat;
  hl_drift : nat;
  hl_indeterminate : nat;
  hl_mismatch : nat;
}.

Definition zero_counts : Counts := {| open_mismatch := 0; mono := 0; proto := 0; hl_drift := 0; hl_indeterminate := 0; hl_mismatch := 0 |}.

(** The key a comparison is counted under. *)
Inductive Signal : Type := SOpenMismatch | SProto | SDrift | SIndeterminate | SMismatch.

Definition signal_of (comparison : OracleComparison) : option Signal :=
  let cls := oc_classification comparison in
  let is_open := bool_decide (oc_field comparison = "open"%string) in
  if bool_decide (cls = PROTOCOL_EQUIVALENT) then Some SProto
  else if is_open && bool_decide (cls = MISMATCH) then Some SOpenMismatch
  else if bool_decide (cls = DRIFT) then Some SDrift
  else if bool_decide (cls = INDETERMINATE) then Some SIndeterminate
  else if negb is_open && bool_decide (cls = MISMATCH) then Some SMismatch
  else None.

(** [counts[key] += 1] *)
Definition count_signal (signal : option Signal) (c : Counts) : Counts :=
  let '(Build_Counts o m p d i h) := c in
  match signal with
  | Some SOpenMismatch => Build_Counts (S o) m p d i h
  | Some SProto => Build_Counts o m (S p) d i h
  | Some SDrift => Build_Counts o m p (S d) i h
  | Some SIndeterminate => Build_Counts o m p d (S i) h
  | Some SMismatch => Build_Counts o m p d i (S h)
  | None => c
  end.

Definition tally (comparison : OracleComparison) (counts : Counts) : Counts := count_signal (signal_of comparison) counts.

Definition count_violations (n : nat) (c : Counts) : Counts :=
  {| open_mismatch := open_mismatch c; mono := mono c + n; proto := proto c; hl_drift := hl_drift c;
     hl_indeterminate := hl_indeterminate c; hl_mismatch := hl_mismatch c |}.

Definition count_instrument (counts : Counts) (inst : InstrumentEvidence) : Counts :=
  let counts := fold_left (fun counts comparison => tally comparison counts) (ie_oracle_comparisons inst) counts in
  match ie_monotonicity inst with
  | Some m => count_violations (length (violations m)) counts
  | None => counts
  end.

Definition count_signals (record : EvidenceRecord) : Counts := fold_left count_instrument (er_instruments record) zero_counts.

(** ** Reasons *)

Definition all_present (values : list (option Decimal)) : bool := forallb is_not_none values.

(** [["open"] if ... ] and so on: what the later values lost of the earlier ones. *)
Definition lost_extrema (open high low open' high' low' : Decimal) : list string :=
  (if dec_eqb open' open then [] else ["open"%string])
  ++ (if dec_ltb high' high then ["high"%string] else [])
  ++ (if dec_ltb low low' then ["low"%string] else []).

Definition late_start_rejections (ev : option LateStartEvidence) : list Reason :=
  match ev with
  | Some ev =>
      if negb (ls_observed ev) then []
      else match ls_prior_open ev, ls_prior_high ev, ls_prior_low ev, ls_first_open ev, ls_first_high ev, ls_first_low ev with
           | Some o, Some h, Some l, Some o', Some h', Some l' =>
               match lost_extrema o h l o' h' l' with [] => [] | lost => [LateStartLost lost] end
           | _, _, _, _, _, _ => []
           end
  | None => []
  end.

Definition reconnect_rejections (ev : option ReconnectEvidence) : list Reason :=
  match ev with
  | Some {| re_observed := true; re_pre := Some pre; re_post := Some post |} =>
      match ob_open_price pre, ob_high_price pre, ob_low_price pre, ob_open_price post, ob_high_price post, ob_low_price post with
      | Some o, Some h, Some l, Some o', Some h', Some l' =>
          if is_not_none (ob_trading_date pre) && negb (bool_decide (ob_trading_date post = ob_trading_date pre))
          then [ReconnectNewSession]
          else match lost_extrema o h l o' h' l' with [] => [] | lost => [ReconnectLost lost] end
      | _, _, _, _, _, _ => []
      end
  | _ => []
  end.

(** [if n: reasons.append(...)] *)
Definition when_positive (n : nat) (reason : nat -> Reason) : list Reason := if bool_decide (n = 0%nat) then [] else [reason n].

Definition rejection_reasons (record : EvidenceRecord) (counts : Counts) : list Reason :=
  when_positive (open_mismatch counts) OpenMismatches
  ++ when_positive (mono counts) MonotonicityViolations
  ++ when_positive (hl_mismatch counts) HighLowMismatches
  ++ late_start_rejections (er_late_start record)
  ++ reconnect_rejections (er_reconnect record).

Definition coverage_reasons (record : EvidenceRecord) : list Reason :=
  match er_instruments record with
  | [] => [NoInstruments]
  | _ =>
      let observed_ids := evidence_identity <$> er_instruments record in
      let observed_set : gset string := list_to_set observed_ids in
      let expected_set : gset string := list_to_set (er_expected_instruments record) in
      (if bool_decide (length observed_ids = size observed_set) then [] else [DuplicateInstruments])
      ++ when_positive (size (expected_set ∖ observed_set)) ExpectedNotObserved
      ++ when_positive (size (observed_set ∖ expected_set)) UnexpectedObserved
  end.

Definition window_reasons (record : EvidenceRecord) : list Reason :=
  let missing : gset string := list_to_set (er_required_windows record) ∖ list_to_set (er_sample_windows record) in
  if bool_decide (missing = ∅) then [] else [MissingWindows (py_sorted String.leb (elements missing))].

Definition late_start_incomplete (ev : option LateStartEvidence) : list Reason :=
  match ev with
  | None => [NoLateStartEvidence]
  | Some ev =>
      if negb (ls_observed ev) then [NoLateStartEvidence]
      else if negb (all_present [ls_prior_open ev; ls_prior_high ev; ls_prior_low ev;
                                 ls_first_open ev; ls_first_high ev; ls_first_low ev]) then [LateStartIncomplete]
      else if bool_decide (ls_kind ev = OBSERVER_LATE_ATTACH) then [ProviderLateStartNotProven]
      else []
  end.

Definition reconnect_incomplete (record : EvidenceRecord) : list Reason :=
  let observed := match er_reconnect record with Some ev => re_observed ev | None => false end in
  if er_csoa16_required record && negb observed then [NoReconnectEvidence]
  else match er_reconnect record with
       | Some ev => if re_observed ev && negb (is_not_none (re_pre ev) && is_not_none (re_post ev))
                    then [ReconnectIncomplete] else []
       | None => []
       end.

Definition inconclusive_reasons (record : EvidenceRecord) (counts : Counts) : list Reason :=
  (if er_oracle_available record then [] else [OracleUnavailable])
  ++ coverage_reasons record
  ++ window_reasons record
  ++ reconnect_incomplete record
  ++ late_start_incomplete (er_late_start record)
  ++ when_positive (hl_indeterminate counts) HighLowIndeterminate.

Definition evaluate_record (record : EvidenceRecord) : Verdict :=
  let counts := count_signals record in
  match rejection_reasons record counts with
  | [] =>
      match inconclusive_reasons record counts with
      | [] => {| ve_outcome := ACCEPTED; ve_reasons := [AllSatisfied]; ve_open_mismatches := 0;
                 ve_monotonicity_violations := 0; ve_protocol_equivalent := proto counts;
                 ve_high_low_drift := hl_drift counts; ve_high_low_indeterminate := 0; ve_high_low_mismatch := 0 |}
      | inconclusive =>
          {| ve_outcome := INCONCLUSIVE; ve_reasons := inconclusive; ve_open_mismatches := 0;
             ve_monotonicity_violations := 0; ve_protocol_equivalent := proto counts;
             ve_high_low_drift := hl_drift counts; ve_high_low_indeterminate := hl_indeterminate counts;
             ve_high_low_mismatch := 0 |}
      end
  | rejections =>
      {| ve_outcome := REJECTED; ve_reasons := rejections; ve_open_mismatches := open_mismatch counts;
         ve_monotonicity_violations := mono counts; ve_protocol_equivalent := proto counts;
         ve_high_low_drift := hl_drift counts; ve_high_low_indeterminate := hl_indeterminate counts;
         ve_high_low_mismatch := hl_mismatch counts |}
  end.

(** ** Combination *)

(** The key of [sorted(ws, key=lambda o: (o.window, o.observed_at))]. *)
Definition observation_leb (a b : OhlcObservation) : bool :=
  if bool_decide (ob_window a = ob_window b) then ob_observed_at a <=? ob_observed_at b
  else String.leb (ob_window a) (ob_window b).

Definition with_merged (ws rest : list OhlcObservation) (comparisons : list OracleComparison) (self : InstrumentEvidence)
    : InstrumentEvidence :=
  {| ie_exchange := ie_exchange self; ie_symbol := ie_symbol self; ie_security_id := ie_security_id self;
     ie_trading_date := ie_trading_date self; ie_ws_observations := ws; ie_rest_observations := rest;
     ie_oracle_comparisons := comparisons; ie_monotonicity := Some (evaluate_monotonicity ws) |}.

(** [_merge_instrument] *)
Definition merge_instrument (items : list InstrumentEvidence) : result InstrumentEvidence :=
  match items with
  | [] => Raise IndexError
  | first :: _ =>
      let ws := py_sorted observation_leb (items ≫= ie_ws_observations) in
      Ok (with_merged ws (items ≫= ie_rest_observations) (items ≫= ie_oracle_comparisons) first)
  end.

(** [min(xs, key=f)] and [max(xs, key=f)]: the first extreme element. *)
Section Extremes.
Context {A : Type} (f : A -> Z).
Definition first_least (x : A) (l : list A) : A := fold_left (fun best y => if f y <? f best then y else best) l x.
Definition first_greatest (x : A) (l : list A) : A := fold_left (fun best y => if f best <? f y then y else best) l x.
End Extremes.

(** [[f(r) for r in records if f(r)]] *)
Definition collect_some {A B} (f : A -> option B) (l : list A) : list B := omap f l.

Definition observed_late_start (r : EvidenceRecord) : option LateStartEvidence :=
  match er_late_start r with Some ev => if ls_observed ev then Some ev else None | None => None end.

Definition captured_late_start (r : EvidenceRecord) : option LateStartEvidence :=
  ev ← observed_late_start r; if is_not_none (ls_first_observed_at ev) then Some ev else None.

Definition merge_late_start (records : list EvidenceRecord) : option LateStartEvidence :=
  match collect_some captured_late_start records with
  | [] => head (collect_some observed_late_start records)
  | ev :: observed => Some (first_least (fun ev => default 0 (ls_first_observed_at ev)) ev observed)
  end.

Definition observed_reconnect (r : EvidenceRecord) : option ReconnectEvidence :=
  match er_reconnect r with Some ev => if re_observed ev then Some ev else None | None => None end.

Definition merge_reconnect (records : list EvidenceRecord) : option ReconnectEvidence :=
  match collect_some observed_reconnect records with
  | [] => None
  | ev :: _ as observed =>
      match collect_some re_pre observed, collect_some re_post observed with
      | pre :: pres, post :: posts =>
          Some {| re_observed := true; re_pre := Some (first_least ob_observed_at pre pres);
                  re_post := Some (first_greatest ob_observed_at post posts) |}
      | _, _ => Some ev
      end
  end.

(** The loop over [seen_windows]. *)
Fixpoint check_windows (seen : gset string) (records : list EvidenceRecord) : result unit :=
  match records with
  | [] => Ok tt
  | r :: records =>
      let windows : gset string := list_to_set (er_sample_windows r) in
      _ ← raise_if (negb (bool_decide (seen ∩ windows = ∅))) (ValueError "duplicate sample window(s) across records");
      check_windows (seen ∪ windows) records
  end.

(** [tuple(sorted({...}))] *)
Definition sorted_set (xs : gset string) : list string := py_sorted String.leb (elements xs).

Definition record_key (r : EvidenceRecord) : date * string * string :=
  (er_trading_date r, er_session_identity r, er_source_sha r).

Definition combine_records (records : list EvidenceRecord) : result EvidenceRecord :=
  match records with
  | [] => Raise (ValueError "combine_records requires at least one record")
  | r0 :: rest =>
      _ ← raise_if (negb (forallb (fun r => bool_decide (record_key r = record_key r0)) rest))
            (ValueError "cannot combine records across different trading_date/session/source");
      _ ← check_windows ∅ records;
      let by_identity := group_by evidence_identity (records ≫= er_instruments) in
      merged ← traverse merge_instrument by_identity.*2;
      let observed : gset string := list_to_set (evidence_identity <$> merged) in
      let expected : gset string := list_to_set (records ≫= er_expected_instruments) in
      Ok {| er_collector_version := er_collector_version r0; er_source_sha := er_source_sha r0;
            er_production_image := er_production_image r0; er_provider := er_provider r0;
            er_trading_date := er_trading_date r0; er_session_identity := er_session_identity r0;
            er_collection_start := fold_left Z.min (er_collection_start <$> rest) (er_collection_start r0);
            er_collection_end := fold_left Z.max (er_collection_end <$> rest) (er_collection_end r0);
            er_expected_instruments := sorted_set expected;
            er_pending_instruments := sorted_set (expected ∖ observed);
            er_required_windows := er_required_windows r0;
            er_sample_windows := sorted_set (list_to_set (records ≫= er_sample_windows));
            er_instruments := merged;
            er_late_start := merge_late_start records; er_reconnect := merge_reconnect records;
            er_csoa16_required := er_csoa16_required r0; er_oracle_available := er_oracle_available r0 |}
  end.

(** * Collection *)

Definition METHOD_BY_CLASS (c : Classification) : string :=
  match c with
  | MATCH => "exact" | PROTOCOL_EQUIVALENT => "float32" | DRIFT => "tick" | INDETERMINATE => "unknown_tick" | MISMATCH => "none"
  end.

Definition oracle_fields (ws rest : OhlcObservation) : list (string * option Decimal * option Decimal * bool) :=
  [("open"%string, ob_open_price ws, ob_open_price rest, true);
   ("high"%string, ob_high_price ws, ob_high_price rest, false);
   ("low"%string, ob_low_price ws, ob_low_price rest, false)].

(** [_comparisons] of collect.py. *)
Definition comparisons (window : string) (ws rest : OhlcObservation) (tick_size : option Decimal) : list OracleComparison :=
  (fun '(name, ws_v, rest_v, exact) =>
     let classification := classify_price ws_v rest_v tick_size exact in
     {| oc_window := window; oc_field := name; oc_ws_value := ws_v; oc_rest_value := rest_v;
        oc_tick_size := if exact : bool then None else tick_size; oc_classification := classification;
        oc_method := METHOD_BY_CLASS classification; oc_ws_float32_bits := float32_hex ws_v;
        oc_rest_float32_bits := float32_hex rest_v |}) <$> oracle_fields ws rest.

(** The values of a dictionary in the order of its sorted keys. *)
Definition by_sorted_key {A} (d : dict string A) : list A := snd <$> py_sorted (fun a b => String.leb a.1 b.1) d.

Definition build_instrument_evidence (instrument : Instrument) (security_id : string) (trading_date : date)
    (ws_by_window rest_by_window : dict string OhlcObservation) (tick_size : option Decimal) : InstrumentEvidence :=
  let ws_obs := by_sorted_key ws_by_window in
  let common : gset string := list_to_set ws_by_window.*1 ∩ list_to_set rest_by_window.*1 in
  let compare window := match dict_get window ws_by_window, dict_get window rest_by_window with
                        | Some ws, Some rest => comparisons window ws rest tick_size
                        | _, _ => []
                        end in
  {| ie_exchange := exchange instrument; ie_symbol := symbol instrument; ie_security_id := security_id;
     ie_trading_date := trading_date; ie_ws_observations := ws_obs;
     ie_rest_observations := by_sorted_key rest_by_window;
     ie_oracle_comparisons := sorted_set common ≫= compare;
     ie_monotonicity := Some (evaluate_monotonicity ws_obs) |}.

(** [_key] *)
Definition evidence_key (instrument : Instrument) : string := (exchange instrument ++ ":" ++ symbol instrument)%string.

(** [_ws_observation] of a datum that is a tick. *)
Definition ws_observation (tick : Tick) (window : string) : option OhlcObservation :=
  ohlc ← tick_session_ohlc tick;
  Some {| ob_source := "ws"; ob_window := window; ob_observed_at := tick_event_timestamp tick; ob_trading_date := None;
          ob_open_price := Some (pso_open_price ohlc); ob_high_price := Some (pso_high_price ohlc);
          ob_low_price := Some (pso_low_price ohlc) |}.

(** The loop of [sample_ws] over what the stream yields before the deadline; a datum that is
    no tick is [None]. *)
Fixpoint sample_ws (window : string) (expected : nat) (stream : list (option Tick)) (out : dict string OhlcObservation)
    : dict string OhlcObservation :=
  match stream with
  | [] => out
  | datum :: stream =>
      match tick ← datum; obs ← ws_observation tick window; Some (evidence_key (tick_instrument tick), obs) with
      | None => sample_ws window expected stream out
      | Some (key, obs) =>
          let out := dict_set key obs out in
          if (expected <=? length out)%nat then out else sample_ws window expected stream out
      end
  end.

Definition rest_observation (window : string) (obs : SessionStatisticsObservation) : OhlcObservation :=
  let ohlc := obs_session_ohlc obs in
  {| ob_source := "rest"; ob_window := window; ob_observed_at := obs_observed_at obs;
     ob_trading_date := Some (obs_trading_date obs); ob_open_price := Some (pso_open_price ohlc);
     ob_high_price := Some (pso_high_price ohlc); ob_low_price := Some (pso_low_price ohlc) |}.

(** [{key(obs): ... for obs in observations}] *)
Definition rest_by_key (window : string) (observations : list SessionStatisticsObservation) : dict string OhlcObservation :=
  fold_left (fun d obs => dict_set (evidence_key (obs_instrument obs)) (rest_observation window obs) d) observations [].

(** One window of [run_collect]: what the stream yields until the deadline or the error it
    raises, and what the request answers. *)
Record WindowReplies : Type := {
  wr_window : string;
  wr_stream : result (list (option Tick));
  wr_rest : result (list SessionStatisticsObservation);
}.

(** [for key, obs in found.items(): acc.setdefault(key, {})[window] = obs] *)
Definition accumulate (window : string) (found : dict string OhlcObservation)
    (acc : dict string (dict string OhlcObservation)) : dict string (dict string OhlcObservation) :=
  fold_left (fun acc '(key, obs) => dict_set key (dict_set window obs (default [] (dict_get key acc))) acc) found acc.

Definition collect_window (expected : nat) (replies : WindowReplies)
    (accs : dict string (dict string OhlcObservation) * dict string (dict string OhlcObservation))
    : result (dict string (dict string OhlcObservation) * dict string (dict string OhlcObservation)) :=
  let window := wr_window replies in
  stream ← wr_stream replies;
  let ws := sample_ws window expected stream [] in
  rest ← wr_rest replies;
  Ok (accumulate window ws accs.1, accumulate window (rest_by_key window rest) accs.2).

Fixpoint collect_windows (expected : nat) (windows : list WindowReplies)
    (accs : dict string (dict string OhlcObservation) * dict string (dict string OhlcObservation))
    : result (dict string (dict string OhlcObservation) * dict string (dict string OhlcObservation)) :=
  match windows with
  | [] => Ok accs
  | w :: windows => accs ← collect_window expected w accs; collect_windows expected windows accs
  end.

Definition unobserved_late_start (kind : LateStartKind) (attach : option instant) : LateStartEvidence :=
  {| ls_observed := false; ls_kind := kind; ls_observer_attach_timestamp := attach; ls_prior_observed_at := None;
     ls_prior_open := None; ls_prior_high := None; ls_prior_low := None; ls_first_observed_at := None;
     ls_first_open := None; ls_first_high := None; ls_first_low := None |}.

Definition unobserved_reconnect : ReconnectEvidence := {| re_observed := false; re_pre := None; re_post := None |}.

(** [capture_late_start]: the request before the subscription and the first tick after it. *)
Definition capture_late_start (instrument : Instrument) (rest : list SessionStatisticsObservation)
    (stream : list (option Tick)) : LateStartEvidence :=
  match dict_get (evidence_key instrument) (rest_by_key "prior" rest),
        dict_get (evidence_key instrument) (sample_ws "first" 1 stream []) with
  | Some prior, Some first =>
      {| ls_observed := true; ls_kind := PROVIDER_LATE_SUBSCRIPTION; ls_observer_attach_timestamp := None;
         ls_prior_observed_at := Some (ob_observed_at prior); ls_prior_open := ob_open_price prior;
         ls_prior_high := ob_high_price prior; ls_prior_low := ob_low_price prior;
         ls_first_observed_at := Some (ob_observed_at first); ls_first_open := ob_open_price first;
         ls_first_high := ob_high_price first; ls_first_low := ob_low_price first |}
  | _, _ => unobserved_late_start PROVIDER_LATE_SUBSCRIPTION None
  end.

(** [capture_reconnect]: what two subscriptions in a row yield. *)
Definition capture_reconnect (instrument : Instrument) (stream stream' : list (option Tick)) : ReconnectEvidence :=
  match dict_get (evidence_key instrument) (sample_ws "pre" 1 stream []),
        dict_get (evidence_key instrument) (sample_ws "post" 1 stream' []) with
  | Some pre, Some post => {| re_observed := true; re_pre := Some pre; re_post := Some post |}
  | _, _ => unobserved_reconnect
  end.

(** What [run_collect] is called with, and the readings of its clock around the run. *)
Record CollectionRun : Type := {
  run_trading_date : date;
  run_session_identity : string;
  run_source_sha : string;
  run_start : instant;
  run_end : instant;
}.

(** The universe a run covers: instruments with their provider identifiers. *)
Abbreviation EvidenceUniverse := (list (Instrument * string)).

Definition collected_record (run : CollectionRun) (expected pending windows : list string)
    (instruments : list InstrumentEvidence) (late : option LateStartEvidence) (reconnect : option ReconnectEvidence)
    : EvidenceRecord :=
  {| er_collector_version := "2.0.0"; er_source_sha := run_source_sha run; er_production_image := None;
     er_provider := "dhan"; er_trading_date := run_trading_date run; er_session_identity := run_session_identity run;
     er_collection_start := run_start run; er_collection_end := run_end run; er_expected_instruments := expected;
     er_pending_instruments := pending; er_required_windows := ["early"; "mid"; "late"]%string;
     er_sample_windows := windows; er_instruments := instruments; er_late_start := late; er_reconnect := reconnect;
     er_csoa16_required := true; er_oracle_available := true |}.

Definition partial_record (run : CollectionRun) (universe : EvidenceUniverse) (late : option LateStartEvidence)
    (reconnect : option ReconnectEvidence) : EvidenceRecord :=
  let expected := (fun ref => evidence_key ref.1) <$> universe in
  collected_record run expected expected [] [] late reconnect.

Definition assemble (run : CollectionRun) (universe : EvidenceUniverse) (windows : list string)
    (ws_acc rest_acc : dict string (dict string OhlcObservation)) (tick_size : option Decimal) : EvidenceRecord :=
  let expected := (fun ref => evidence_key ref.1) <$> universe in
  let evidence ref :=
    let key := evidence_key ref.1 in
    match dict_get key ws_acc, dict_get key rest_acc with
    | None, None => None
    | ws, rest => Some (build_instrument_evidence ref.1 ref.2 (run_trading_date run) (default [] ws) (default [] rest) tick_size)
    end in
  collected_record run expected (filter (fun key => dict_get key ws_acc = None) expected) windows (omap evidence universe)
    (Some (unobserved_late_start PROVIDER_LATE_SUBSCRIPTION None)) (Some unobserved_reconnect).

Definition run_collect (run : CollectionRun) (universe : EvidenceUniverse) (windows : list WindowReplies)
    (tick_size : option Decimal) : result EvidenceRecord :=
  accs ← collect_windows (length universe) windows ([], []);
  Ok (assemble run universe (wr_window <$> windows) accs.1 accs.2 tick_size).

(** * Prices of the wire *)

(** [C17] A price that arrives as binary32 keeps its four bytes through decoding, so the comparison
    with the oracle reports a match exactly when the oracle's price has the same bytes on the wire. *)
Theorem wire_prices_compared bits q d rest tick_size exact :
  0 <= bits < 2 ^ 32 -> float32_of_bits bits = FFinite q -> q <> dec 0 0 -> float_decimal (FFinite q) = DFinite d ->
  is_finite_price rest = true ->
  float32_hex (Some d) = Some (hex_bits bits)
  /\ (classify_price (Some d) (Some rest) tick_size exact = MATCH
      \/ classify_price (Some d) (Some rest) tick_size exact = PROTOCOL_EQUIVALENT
      <-> float32_hex (Some rest) = Some (hex_bits bits)).
Proof.
  intros Hb Hq H0 Hd Hr. destruct (wire_text bits q d Hb Hq H0 Hd) as [Hread Hpack].
  assert (Hf : is_finite_price d = true).
  { unfold is_finite_price, dec_ltb. apply bool_decide_true. unfold Qclt. rewrite dec_abs_value, Hread, this_Q2Qc.
    by apply (binary32_bound bits). }
  assert (Hx : float32_hex (Some d) = Some (hex_bits bits)) by (cbn [float32_hex]; rewrite Hf, Hpack; reflexivity).
  split; [done|]. unfold classify_price. rewrite Hf, Hr. cbn [andb negb].
  destruct (dec_eqb d rest) eqn:E; [apply dec_eqb_eq in E as ->; split; [done|by left]|].
  unfold float32_equivalent. rewrite Hx. cbn [is_not_none andb].
  case_bool_decide as Hs; [rewrite <- Hs; split; [done|by right]|].
  split; [|intros H; by rewrite H in Hs]. generalize (float32_hex (Some rest)) as h. intros h.
  destruct h; cbn [is_not_none negb orb]; [|intros [|]; discriminate]. destruct exact; [intros [|]; discriminate|].
  destruct tick_size; [|intros [|]; discriminate]. destruct (dec_leb _ _); intros [|]; discriminate.
Qed.

(** The price 212.37 of the wire and of the oracle. *)
Example wire_prices_compared_witness : exists q d,
  float32_of_bits 1129602744 = FFinite q /\ float_decimal (FFinite q) = DFinite d /\ d <> dec 21237 2
  /\ (classify_price (Some d) (Some (dec 21237 2)) None true = MATCH
      \/ classify_price (Some d) (Some (dec 21237 2)) None true = PROTOCOL_EQUIVALENT).
Proof.
  exists (Q2Qc (13917880 # 65536)), (Q2Qc (2123699951171875 # 10000000000000)).
  assert (H1 : float32_of_bits 1129602744 = FFinite (Q2Qc (13917880 # 65536))) by (vm_compute; reflexivity).
  assert (H2 : float_decimal (FFinite (Q2Qc (13917880 # 65536))) = DFinite (Q2Qc (2123699951171875 # 10000000000000)))
    by (vm_compute; reflexivity).
  split; [exact H1|]. split; [exact H2|]. split; [discriminate|].
  apply (wire_prices_compared 1129602744 _ _ (dec 21237 2) None true ltac:(lia) H1 ltac:(discriminate) H2); vm_compute; reflexivity.
Defined.

(** * Monotonicity *)

Definition opens (obs : list OhlcObservation) : list Decimal := omap ob_open_price obs.
Definition highs (obs : list OhlcObservation) : list Decimal := omap ob_high_price obs.
Definition lows (obs : list OhlcObservation) : list Decimal := omap ob_low_price obs.

Lemma not_any_nil {A} (l : list A) : not_any l = true <-> l = [].
Proof. by destruct l. Qed.

Lemma open_violations_from_spec f obs : open_violations_from (Some f) obs = [] <-> Forall (fun p => p = f) (opens obs).
Proof.
  induction obs as [|o obs IH]; [by split; [constructor|]|]. unfold opens in *. cbn [open_violations_from omap list_omap].
  destruct (ob_open_price o) as [p|]; [|done]. rewrite Forall_cons, <- IH.
  destruct (dec_eqb p f) eqn:E; [apply dec_eqb_eq in E as ->; cbn; naive_solver|].
  assert (p <> f) by (intros ->; unfold dec_eqb in E; rewrite bool_decide_true in E by done; done). cbn. naive_solver.
Qed.

Lemma high_violations_from_spec q obs : high_violations_from (Some q) obs = [] <-> StronglySorted Qcle (q :: highs obs).
Proof.
  revert q. induction obs as [|o obs IH]; intros q; [split; [repeat constructor|done]|].
  unfold highs in *. cbn [high_violations_from omap list_omap]. destruct (ob_high_price o) as [p|]; [|apply IH].
  destruct (dec_ltb p q) eqn:E.
  - apply dec_ltb_lt in E. split; [done|]. intros [_ [Hq _]%Forall_cons]%StronglySorted_inv. exfalso. dec_order.
  - assert (Hqp : (q <= p)%Qc) by (apply Qcnot_lt_le; intros H; apply dec_ltb_lt in H; congruence).
    assert (dec_max q p = p) as ->.
    { unfold dec_max. destruct (dec_ltb q p) eqn:E'; [done|]. apply Qcle_antisym; [done|]. apply Qcnot_lt_le. intros H. apply dec_ltb_lt in H. congruence. }
    cbn [app]. rewrite IH. split.
    + intros H. constructor; [done|]. apply StronglySorted_inv in H as [_ Hf]. constructor; [done|].
      eapply Forall_impl; [exact Hf|]. intros x Hx. by eapply Qcle_trans.
    + by intros [H _]%StronglySorted_inv.
Qed.

Lemma low_violations_from_spec q obs : low_violations_from (Some q) obs = [] <-> StronglySorted (flip Qcle) (q :: lows obs).
Proof.
  revert q. induction obs as [|o obs IH]; intros q; [split; [repeat constructor|done]|].
  unfold lows in *. cbn [low_violations_from omap list_omap]. destruct (ob_low_price o) as [p|]; [|apply IH].
  destruct (dec_ltb q p) eqn:E.
  - apply dec_ltb_lt in E. split; [done|]. intros [_ [Hq _]%Forall_cons]%StronglySorted_inv. unfold flip in Hq. exfalso. dec_order.
  - assert (Hqp : (p <= q)%Qc) by (apply Qcnot_lt_le; intros H; apply dec_ltb_lt in H; congruence).
    assert (dec_min q p = p) as ->.
    { unfold dec_min. destruct (dec_ltb p q) eqn:E'; [done|]. apply Qcle_antisym; [|done]. apply Qcnot_lt_le. intros H. apply dec_ltb_lt in H. congruence. }
    cbn [app]. rewrite IH. split.
    + intros H. constructor; [done|]. apply StronglySorted_inv in H as [_ Hf]. constructor; [done|].
      eapply Forall_impl; [exact Hf|]. intros x Hx. unfold flip in *. by eapply Qcle_trans.
    + by intros [H _]%StronglySorted_inv.
Qed.

(** What a session's observations have to satisfy: one open, a rising high, a falling low. *)
Definition monotone (obs : list OhlcObservation) : Prop :=
  (forall p p', p ∈ opens obs -> p' ∈ opens obs -> p = p') /\ StronglySorted Qcle (highs obs)
  /\ StronglySorted (flip Qcle) (lows obs).

Lemma open_violations_spec obs : open_violations obs = [] <-> forall p p', p ∈ opens obs -> p' ∈ opens obs -> p = p'.
Proof.
  unfold open_violations. induction obs as [|o obs IH]; [set_solver|]. unfold opens in *. cbn [open_violations_from omap list_omap].
  destruct (ob_open_price o) as [p|]; [|done]. rewrite open_violations_from_spec, Forall_forall. split.
  - intros H a b Ha Hb. set_unfold. assert (forall x, x = p \/ x ∈ opens obs -> x = p) as Hx by naive_solver.
    rewrite (Hx a), (Hx b); auto.
  - intros H a Ha. apply H; [by right|by left].
Qed.

Lemma high_violations_spec obs : high_violations obs = [] <-> StronglySorted Qcle (highs obs).
Proof.
  unfold high_violations. induction obs as [|o obs IH]; [by split; [constructor|]|]. unfold highs in *.
  cbn [high_violations_from omap list_omap]. destruct (ob_high_price o); [apply high_violations_from_spec|done].
Qed.

Lemma low_violations_spec obs : low_violations obs = [] <-> StronglySorted (flip Qcle) (lows obs).
Proof.
  unfold low_violations. induction obs as [|o obs IH]; [by split; [constructor|]|]. unfold lows in *.
  cbn [low_violations_from omap list_omap]. destruct (ob_low_price o); [apply low_violations_from_spec|done].
Qed.

(** The result has no violation exactly for monotone observations, and its flags tell the three
    conditions apart. *)
Lemma evaluate_monotonicity_spec obs : let m := evaluate_monotonicity obs in
  (violations m = [] <-> monotone obs)
  /\ (open_stable m = true <-> forall p p', p ∈ opens obs -> p' ∈ opens obs -> p = p')
  /\ (high_non_decreasing m = true <-> StronglySorted Qcle (highs obs))
  /\ (low_non_increasing m = true <-> StronglySorted (flip Qcle) (lows obs)).
Proof.
  cbn. unfold monotone. rewrite <- open_violations_spec, <- high_violations_spec, <- low_violations_spec, !not_any_nil.
  split_and!; [|done..]. split.
  - intros [H [H' H'']%app_eq_nil]%app_eq_nil. done.
  - intros (-> & -> & ->). done.
Qed.

(** * Verdicts *)

#[global] Instance Signal_eq_dec : EqDecision Signal.
Proof. solve_decision. Defined.

Definition comparisons_of (record : EvidenceRecord) : list OracleComparison := er_instruments record ≫= ie_oracle_comparisons.

Definition violations_of (record : EvidenceRecord) : list Violation :=
  er_instruments record ≫= (fun inst => default [] (violations <$> ie_monotonicity inst)).

Definition signal_count (signal : Signal) (cs : list OracleComparison) : nat :=
  length (filter (fun c => signal_of c = Some signal) cs).

Definition add_counts (a b : Counts) : Counts :=
  {| open_mismatch := open_mismatch a + open_mismatch b; mono := mono a + mono b; proto := proto a + proto b;
     hl_drift := hl_drift a + hl_drift b; hl_indeterminate := hl_indeterminate a + hl_indeterminate b;
     hl_mismatch := hl_mismatch a + hl_mismatch b |}.

Definition counts_in (cs : list OracleComparison) (vs : list Violation) : Counts :=
  {| open_mismatch := signal_count SOpenMismatch cs; mono := length vs; proto := signal_count SProto cs;
     hl_drift := signal_count SDrift cs; hl_indeterminate := signal_count SIndeterminate cs; hl_mismatch := signal_count SMismatch cs |}.

Lemma tally_counts cs counts :
  fold_left (fun counts c => tally c counts) cs counts = add_counts counts (counts_in cs []).
Proof.
  revert counts. induction cs as [|c cs IH]; intros [o m p d i h]; [unfold add_counts; cbn; by rewrite !Nat.add_0_r|].
  cbn [fold_left]. rewrite IH. unfold counts_in, signal_count, tally, add_counts. rewrite !filter_cons.
  destruct (signal_of c) as [[]|]; repeat case_decide; try discriminate; try done; cbn; f_equal; lia.
Qed.

Lemma signal_count_app s cs cs' : signal_count s (cs ++ cs') = (signal_count s cs + signal_count s cs')%nat.
Proof. unfold signal_count. by rewrite filter_app, length_app. Qed.

(** The counters are the numbers of comparisons of each kind and of violations. *)
Lemma count_signals_exact record : count_signals record = counts_in (comparisons_of record) (violations_of record).
Proof.
  unfold count_signals, comparisons_of, violations_of.
  assert (H : forall insts counts, fold_left count_instrument insts counts = add_counts counts
    (counts_in (insts ≫= ie_oracle_comparisons) (insts ≫= (fun inst => default [] (violations <$> ie_monotonicity inst))))).
  { induction insts as [|inst insts IH]; intros [o m p d i h]; [unfold add_counts; cbn; by rewrite !Nat.add_0_r|].
    cbn [fold_left mbind list_bind]. rewrite IH. unfold count_instrument. rewrite tally_counts.
    unfold counts_in, add_counts, count_violations. rewrite !signal_count_app, length_app.
    destruct (ie_monotonicity inst); cbn; f_equal; lia. }
  rewrite H. unfold add_counts, zero_counts, counts_in. cbn. done.
Qed.

Lemma signal_count_zero s cs : signal_count s cs = 0%nat <-> forall c, c ∈ cs -> signal_of c <> Some s.
Proof.
  unfold signal_count. rewrite length_zero_iff_nil. split.
  - intros H c Hc Hs. assert (Hin : c ∈ filter (fun c => signal_of c = Some s) cs) by by apply list_elem_of_filter.
    rewrite H in Hin. by apply elem_of_nil in Hin.
  - intros H. by apply filter_none.
Qed.

Lemma signal_mismatch c : oc_classification c = MISMATCH <-> signal_of c = Some SOpenMismatch \/ signal_of c = Some SMismatch.
Proof. unfold signal_of. destruct (bool_decide (oc_field c = _)), (oc_classification c); vm_compute; naive_solver. Qed.

Lemma signal_indeterminate c : oc_classification c = INDETERMINATE <-> signal_of c = Some SIndeterminate.
Proof. unfold signal_of. destruct (bool_decide (oc_field c = _)), (oc_classification c); vm_compute; naive_solver. Qed.

(** What later values keep of earlier ones. *)
Definition retains (o h l o' h' l' : Decimal) : Prop := o' = o /\ (h <= h')%Qc /\ (l' <= l)%Qc.

Lemma unless_nil {A} (b : bool) (x : A) : (if b then [] else [x]) = [] <-> b = true.
Proof. by destruct b. Qed.

Lemma when_nil {A} (b : bool) (x : A) : (if b then [x] else []) = [] <-> b = false.
Proof. by destruct b. Qed.

Lemma dec_ltb_ge a b : dec_ltb a b = false <-> (b <= a)%Qc.
Proof.
  split; intros H.
  - apply Qcnot_lt_le. intros Hlt%dec_ltb_lt. congruence.
  - apply not_true_iff_false. rewrite dec_ltb_lt. by apply Qcle_not_lt.
Qed.

Lemma lost_extrema_nil o h l o' h' l' : lost_extrema o h l o' h' l' = [] <-> retains o h l o' h' l'.
Proof. unfold lost_extrema, retains. by rewrite !app_nil, unless_nil, !when_nil, dec_eqb_eq, !dec_ltb_ge. Qed.

(** Complete late-start and reconnect evidence, in the order of [lost_extrema]. *)
Definition late_start_values (ev : LateStartEvidence) (o h l o' h' l' : Decimal) : Prop :=
  ls_observed ev = true /\ ls_prior_open ev = Some o /\ ls_prior_high ev = Some h /\ ls_prior_low ev = Some l
  /\ ls_first_open ev = Some o' /\ ls_first_high ev = Some h' /\ ls_first_low ev = Some l'.

Definition reconnect_values (ev : ReconnectEvidence) (pre post : OhlcObservation) (o h l o' h' l' : Decimal) : Prop :=
  re_observed ev = true /\ re_pre ev = Some pre /\ re_post ev = Some post
  /\ ob_open_price pre = Some o /\ ob_high_price pre = Some h /\ ob_low_price pre = Some l
  /\ ob_open_price post = Some o' /\ ob_high_price post = Some h' /\ ob_low_price post = Some l'.

Definition late_start_lost (record : EvidenceRecord) : Prop :=
  exists ev o h l o' h' l', er_late_start record = Some ev /\ late_start_values ev o h l o' h' l'
    /\ ~ retains o h l o' h' l'.

Definition reconnect_lost (record : EvidenceRecord) : Prop :=
  exists ev pre post o h l o' h' l', er_reconnect record = Some ev /\ reconnect_values ev pre post o h l o' h' l'
    /\ ((ob_trading_date pre <> None /\ ob_trading_date post <> ob_trading_date pre) \/ ~ retains o h l o' h' l').

(** The grounds for rejection and the evidence acceptance asks for. *)
Definition rejected (record : EvidenceRecord) : Prop :=
  (exists c, c ∈ comparisons_of record /\ oc_classification c = MISMATCH)
  \/ violations_of record <> [] \/ late_start_lost record \/ reconnect_lost record.

Definition covered (record : EvidenceRecord) : Prop :=
  let ids := evidence_identity <$> er_instruments record in
  er_instruments record <> [] /\ NoDup ids /\ (forall id, id ∈ ids <-> id ∈ er_expected_instruments record)
  /\ er_required_windows record ⊆ er_sample_windows record.

Definition conclusive (record : EvidenceRecord) : Prop :=
  er_oracle_available record = true /\ covered record
  /\ (er_csoa16_required record = true -> exists ev, er_reconnect record = Some ev /\ re_observed ev = true)
  /\ (forall ev, er_reconnect record = Some ev -> re_observed ev = true -> re_pre ev <> None /\ re_post ev <> None)
  /\ (exists ev o h l o' h' l', er_late_start record = Some ev /\ late_start_values ev o h l o' h' l'
      /\ ls_kind ev = PROVIDER_LATE_SUBSCRIPTION)
  /\ (forall c, c ∈ comparisons_of record -> oc_classification c <> INDETERMINATE).

Lemma retains_dec o h l o' h' l' : retains o h l o' h' l' \/ ~ retains o h l o' h' l'.
Proof. rewrite <- lost_extrema_nil. destruct (lost_extrema _ _ _ _ _ _); [by left|by right]. Qed.

(** A list of reasons that is empty exactly when [P] does not hold. *)
Definition reports (reasons : list Reason) (P : Prop) : Prop := (reasons = [] /\ ~ P) \/ (reasons <> [] /\ P).

Lemma reports_app rs rs' (P P' : Prop) : reports rs P -> reports rs' P' -> reports (rs ++ rs') (P \/ P').
Proof. intros [[-> ?]|[? ?]] [[-> ?]|[? ?]]; [left; naive_solver|right; naive_solver|right..]; (split; [by destruct rs|naive_solver]). Qed.

Lemma reports_iff rs (P P' : Prop) : (P <-> P') -> reports rs P -> reports rs P'.
Proof. unfold reports. tauto. Qed.

Lemma reports_positive n reason : reports (when_positive n reason) (n <> 0%nat).
Proof. unfold reports, when_positive. case_bool_decide; [left|right]; naive_solver. Qed.

(** Evidence that is not complete is never lost. *)
Ltac no_evidence :=
  left; split; [done | intros Hlost; decompose [ex and] Hlost; simplify_eq/=; congruence].

Lemma late_start_reported record : reports (late_start_rejections (er_late_start record)) (late_start_lost record).
Proof.
  unfold late_start_lost, late_start_rejections, late_start_values. destruct (er_late_start record) as [ev|]; [|no_evidence].
  destruct (ls_observed ev) eqn:?; cbn [negb]; [|no_evidence].
  destruct (ls_prior_open ev) as [o|] eqn:?; [|no_evidence]. destruct (ls_prior_high ev) as [h|] eqn:?; [|no_evidence].
  destruct (ls_prior_low ev) as [l|] eqn:?; [|no_evidence]. destruct (ls_first_open ev) as [o'|] eqn:?; [|no_evidence].
  destruct (ls_first_high ev) as [h'|] eqn:?; [|no_evidence]. destruct (ls_first_low ev) as [l'|] eqn:?; [|no_evidence].
  pose proof (lost_extrema_nil o h l o' h' l') as Hl. destruct (lost_extrema o h l o' h' l') as [|x xs].
  - left. split; [done|]. intros Hlost. decompose [ex and] Hlost. simplify_eq.
    match goal with H : ~ retains _ _ _ _ _ _ |- _ => apply H; by apply Hl end.
  - right. split; [done|]. exists ev, o, h, l, o', h', l'. split_and!; try done. intros H. by apply Hl in H.
Qed.

Lemma reconnect_reported record : reports (reconnect_rejections (er_reconnect record)) (reconnect_lost record).
Proof.
  unfold reconnect_lost, reconnect_rejections, reconnect_values. destruct (er_reconnect record) as [[obs pre post]|]; [|no_evidence].
  destruct obs; [|no_evidence]. destruct pre as [pre|]; [|no_evidence]. destruct post as [post|]; [|no_evidence].
  destruct (ob_open_price pre) as [o|] eqn:?; [|no_evidence]. destruct (ob_high_price pre) as [h|] eqn:?; [|no_evidence].
  destruct (ob_low_price pre) as [l|] eqn:?; [|no_evidence]. destruct (ob_open_price post) as [o'|] eqn:?; [|no_evidence].
  destruct (ob_high_price post) as [h'|] eqn:?; [|no_evidence]. destruct (ob_low_price post) as [l'|] eqn:?; [|no_evidence].
  pose proof (lost_extrema_nil o h l o' h' l') as Hl. set (lost := lost_extrema o h l o' h' l') in *.
  destruct (is_not_none (ob_trading_date pre) && negb (bool_decide (ob_trading_date post = ob_trading_date pre))) eqn:E.
  - right. split; [done|]. zbool. eexists _, pre, post, o, h, l, o', h', l'. split_and!; try done.
    left. split; [by destruct (ob_trading_date pre)|done].
  - assert (Hnew : ~ (ob_trading_date pre <> None /\ ob_trading_date post <> ob_trading_date pre)).
    { intros [H1 H2]. destruct (ob_trading_date pre); [|done]. rewrite bool_decide_false in E by done. done. }
    destruct lost as [|x xs].
    + left. split; [done|].
      intros (ev & a & b & o1 & h1 & l1 & o2 & h2 & l2 & [= <-] & Hv & [Hn|Hn]); decompose [and] Hv; cbn in *; simplify_eq; [done|].
      apply Hn. by apply Hl.
    + right. split; [done|]. eexists _, pre, post, o, h, l, o', h', l'. split_and!; try done. right. intros H. by apply Hl in H.
Qed.

Lemma signal_count_some s cs : signal_count s cs <> 0%nat <-> exists c, c ∈ cs /\ signal_of c = Some s.
Proof.
  unfold signal_count. destruct (filter _ cs) as [|c l] eqn:E.
  - split; [done|]. intros (c & Hc & Hs). assert (Hin : c ∈ filter (fun c => signal_of c = Some s) cs) by by apply list_elem_of_filter.
    rewrite E in Hin. by apply elem_of_nil in Hin.
  - split; [|done]. intros _. exists c. assert (Hin : c ∈ c :: l) by left. rewrite <- E in Hin. apply list_elem_of_filter in Hin. tauto.
Qed.

Lemma rejection_reported record : reports (rejection_reasons record (count_signals record)) (rejected record).
Proof.
  unfold rejection_reasons. rewrite count_signals_exact. cbn [open_mismatch mono hl_mismatch counts_in].
  eapply reports_iff; [|repeat apply reports_app;
    [apply reports_positive|apply reports_positive|apply reports_positive|apply late_start_reported|apply reconnect_reported]].
  unfold rejected. rewrite !signal_count_some, length_zero_iff_nil. split.
  - intros [(c & Hc & Hs)|[H|[(c & Hc & Hs)|H]]]; [|tauto| |tauto]; left; exists c; rewrite signal_mismatch; tauto.
  - intros [(c & Hc & [Hs|Hs]%signal_mismatch)|H]; [left; eauto|right; right; left; eauto|tauto].
Qed.

Lemma when_positive_nil n reason : when_positive n reason = [] <-> n = 0%nat.
Proof. unfold when_positive. case_bool_decide; naive_solver. Qed.

Lemma size_zero (X : gset string) : size X = 0%nat <-> X = ∅.
Proof. split; [intros H; by apply leibniz_equiv, size_empty_inv|intros ->; apply size_empty]. Qed.

Lemma difference_nil (xs ys : list string) :
  (list_to_set xs : gset string) ∖ list_to_set ys = ∅ <-> xs ⊆ ys.
Proof.
  split.
  - intros H x Hx. destruct (decide (x ∈ ys)) as [|Hn]; [done|]. assert (x ∈ (list_to_set xs : gset string) ∖ list_to_set ys) by set_solver.
    set_solver.
  - intros H. apply leibniz_equiv. intros x. set_solver.
Qed.

Lemma coverage_reasons_nil record : coverage_reasons record = [] <->
  let ids := evidence_identity <$> er_instruments record in
  er_instruments record <> [] /\ NoDup ids /\ forall id, id ∈ ids <-> id ∈ er_expected_instruments record.
Proof.
  unfold coverage_reasons. cbv zeta. destruct (er_instruments record) as [|inst insts]; [by split; [|intros [? _]]|].
  rewrite !app_nil, unless_nil, !when_positive_nil, !size_zero, !difference_nil, bool_decide_eq_true.
  set (ids := evidence_identity <$> inst :: insts).
  assert (Hsize : length ids = size (list_to_set ids : gset string) <-> NoDup ids).
  { pose proof (NoDup_size_list_to_set ids). split; intros Hx; [apply H; congruence|]. symmetry. by apply size_list_to_set. }
  rewrite Hsize. split.
  - intros (Hn & H1 & H2). split_and!; [done|done|]. intros id. split; [apply H2|apply H1].
  - intros (_ & Hn & H). split_and!; [done| |]; intros id; apply H.
Qed.

Lemma late_start_incomplete_nil record : late_start_incomplete (er_late_start record) = [] <->
  exists ev o h l o' h' l', er_late_start record = Some ev /\ late_start_values ev o h l o' h' l'
    /\ ls_kind ev = PROVIDER_LATE_SUBSCRIPTION.
Proof.
  unfold late_start_incomplete, late_start_values. destruct (er_late_start record) as [ev|]; [|naive_solver].
  destruct (ls_observed ev) eqn:E; cbn [negb].
  2: { split; [done|]. intros H. decompose [ex and] H. congruence. }
  destruct (all_present _) eqn:Ep; cbn [negb].
  - case_bool_decide as Hk; split; try done.
    + intros H. decompose [ex and] H. congruence.
    + intros _. cbn in Ep. destruct (ls_prior_open ev) as [o|] eqn:?, (ls_prior_high ev) as [h|] eqn:?, (ls_prior_low ev) as [l|] eqn:?,
        (ls_first_open ev) as [o'|] eqn:?, (ls_first_high ev) as [h'|] eqn:?, (ls_first_low ev) as [l'|] eqn:?; try discriminate.
      exists ev, o, h, l, o', h', l'. split_and!; try done. by destruct (ls_kind ev).
  - split; [done|]. intros H. decompose [ex and] H. simplify_eq. cbn in Ep.
    repeat match goal with H : _ = Some _ |- _ => rewrite H in Ep; clear H end. discriminate.
Qed.

Lemma reconnect_incomplete_nil record : reconnect_incomplete record = [] <->
  (er_csoa16_required record = true -> exists ev, er_reconnect record = Some ev /\ re_observed ev = true)
  /\ (forall ev, er_reconnect record = Some ev -> re_observed ev = true -> re_pre ev <> None /\ re_post ev <> None).
Proof.
  unfold reconnect_incomplete. destruct (er_reconnect record) as [[obs pre post]|]; cbn.
  - destruct obs; cbn; rewrite ?andb_false_r, ?andb_true_r.
    + destruct pre, post; cbn; split; try done.
      * intros _. split; [eauto|]. by intros ev [= <-].
      * intros [_ H]. by destruct (H _ eq_refl eq_refl).
      * intros [_ H]. by destruct (H _ eq_refl eq_refl).
      * intros [_ H]. by destruct (H _ eq_refl eq_refl).
    + destruct (er_csoa16_required record); split; try done.
      * intros [H _]. by destruct (H eq_refl) as (? & [= <-] & ?).
      * intros _. split; [done|]. by intros ev [= <-].
  - rewrite andb_true_r. destruct (er_csoa16_required record); split; try done.
    intros [H _]. by destruct (H eq_refl) as (? & ? & ?).
Qed.

Lemma inconclusive_reasons_nil record : inconclusive_reasons record (count_signals record) = [] <-> conclusive record.
Proof.
  unfold inconclusive_reasons, conclusive, covered, window_reasons. rewrite count_signals_exact. cbn [hl_indeterminate counts_in].
  rewrite !app_nil, !unless_nil, coverage_reasons_nil, late_start_incomplete_nil, reconnect_incomplete_nil, when_positive_nil,
    signal_count_zero, bool_decide_eq_true, difference_nil.
  assert (Hi : (forall c, c ∈ comparisons_of record -> signal_of c <> Some SIndeterminate)
    <-> forall c, c ∈ comparisons_of record -> oc_classification c <> INDETERMINATE).
  { split; intros H c Hc; specialize (H c Hc); by rewrite signal_indeterminate in * || rewrite <- signal_indeterminate. }
  cbv zeta. rewrite Hi. tauto.
Qed.

(** The numbers of comparisons of a classification, and of mismatches of the open and of
    the other prices. *)
Definition classified (cls : Classification) (record : EvidenceRecord) : nat :=
  length (filter (fun c => oc_classification c = cls) (comparisons_of record)).
Definition open_mismatches (record : EvidenceRecord) : nat :=
  length (filter (fun c => oc_classification c = MISMATCH /\ oc_field c = "open"%string) (comparisons_of record)).
Definition other_mismatches (record : EvidenceRecord) : nat :=
  length (filter (fun c => oc_classification c = MISMATCH /\ oc_field c <> "open"%string) (comparisons_of record)).

Lemma signal_counts (P : OracleComparison -> Prop) `{forall c, Decision (P c)} s cs :
  (forall c, signal_of c = Some s <-> P c) -> signal_count s cs = length (filter P cs).
Proof. intros HP. unfold signal_count. f_equal. by apply list_filter_iff. Qed.

(** The counters of a record, by what they count. *)
Lemma count_signals_classified record : count_signals record = {|
  open_mismatch := open_mismatches record; mono := length (violations_of record);
  proto := classified PROTOCOL_EQUIVALENT record; hl_drift := classified DRIFT record;
  hl_indeterminate := classified INDETERMINATE record; hl_mismatch := other_mismatches record |}.
Proof.
  rewrite count_signals_exact. unfold counts_in, open_mismatches, other_mismatches, classified.
  f_equal; apply signal_counts; intros c; unfold signal_of;
    destruct (decide (oc_field c = "open"%string)) as [E|E];
    [rewrite (bool_decide_true _ E)|rewrite (bool_decide_false _ E)| | | | | | | |];
    try (rewrite (bool_decide_true _ E)); try (rewrite (bool_decide_false _ E));
    destruct (oc_classification c); cbn; naive_solver.
Qed.

Lemma when_positive_app_nil n reason rest : when_positive n reason ++ rest = [] -> n = 0%nat /\ rest = [].
Proof. intros [H%when_positive_nil ?]%app_eq_nil. done. Qed.

(** [C18] A record is rejected exactly for a mismatch with the oracle, a value that moves the wrong
    way within the session, or extrema a late start or a reconnect loses; it is accepted exactly
    when there is none and the evidence is complete; it is inconclusive otherwise.  Whatever
    the outcome, the six counts reported are the numbers of mismatches of the open,
    monotonicity violations, protocol equivalences, drifts, indeterminate comparisons and
    mismatches of the other prices. *)
Theorem evaluate_correct record : let v := evaluate_record record in
  (ve_outcome v = REJECTED <-> rejected record)
  /\ (ve_outcome v = ACCEPTED <-> ~ rejected record /\ conclusive record)
  /\ (ve_outcome v = INCONCLUSIVE <-> ~ rejected record /\ ~ conclusive record)
  /\ ve_reasons v <> []
  /\ ve_open_mismatches v = open_mismatches record
  /\ ve_monotonicity_violations v = length (violations_of record)
  /\ ve_protocol_equivalent v = classified PROTOCOL_EQUIVALENT record
  /\ ve_high_low_drift v = classified DRIFT record
  /\ ve_high_low_indeterminate v = classified INDETERMINATE record
  /\ ve_high_low_mismatch v = other_mismatches record.
Proof.
  unfold evaluate_record. cbv zeta. pose proof (rejection_reported record) as Hr. pose proof (inconclusive_reasons_nil record) as Hi.
  destruct (rejection_reasons record (count_signals record)) as [|r rs] eqn:Er.
  - destruct Hr as [[_ Hn]|[? _]]; [|done].
    unfold rejection_reasons in Er. rewrite count_signals_classified in Er.
    apply when_positive_app_nil in Er as [Ho Er]. apply when_positive_app_nil in Er as [Hm Er].
    apply when_positive_app_nil in Er as [Hx _]. cbn in Ho, Hm, Hx.
    destruct (inconclusive_reasons record (count_signals record)) as [|i ris] eqn:Ei; cbn; rewrite count_signals_classified; cbn.
    + assert (conclusive record) by by apply Hi.
      assert (classified INDETERMINATE record = 0%nat).
      { unfold inconclusive_reasons in Ei. rewrite count_signals_classified in Ei.
        repeat (apply app_eq_nil in Ei as [_ Ei]). by apply when_positive_nil in Ei. }
      naive_solver.
    + assert (~ conclusive record) by (intros H; by apply Hi in H). naive_solver.
  - destruct Hr as [[? _]|[_ Hj]]; [done|]. cbn. rewrite count_signals_classified. cbn. naive_solver.
Qed.

(** * Combination *)

Definition windows_disjoint (a b : EvidenceRecord) : Prop :=
  forall w, w ∈ er_sample_windows a -> w ∈ er_sample_windows b -> False.

(** Records one combination may hold: one date, session and source, and no window twice. *)
Definition combinable (records : list EvidenceRecord) : Prop :=
  records <> [] /\ (forall r r', r ∈ records -> r' ∈ records -> record_key r = record_key r')
  /\ StronglySorted windows_disjoint records.

Lemma check_windows_spec seen records :
  (check_windows seen records = Ok tt <->
    StronglySorted windows_disjoint records /\ forall r w, r ∈ records -> w ∈ er_sample_windows r -> w ∉ seen)
  /\ (check_windows seen records <> Ok tt -> exists msg, check_windows seen records = Raise (ValueError msg)).
Proof.
  revert seen. induction records as [|r records IH]; intros seen.
  { split; [|done]. split; [|done]. intros _. split; [constructor|]. intros r w Hr. by apply elem_of_nil in Hr. }
  cbn [check_windows]. unfold raise_if. destruct (bool_decide (seen ∩ list_to_set (er_sample_windows r) = ∅)) eqn:E; cbn.
  - zbool. destruct (IH (seen ∪ list_to_set (er_sample_windows r))) as [H1 H2]. split; [|exact H2]. rewrite H1. clear H1 H2 IH.
    assert (Hr : forall w, w ∈ er_sample_windows r -> w ∉ seen) by set_solver. clear E. split.
    + intros [Hs Hw]. split.
      * constructor; [done|]. apply Forall_forall. intros r' Hr' w Hw1 Hw2. specialize (Hw r' w Hr' Hw2). set_solver.
      * intros r' w [->|Hr']%elem_of_cons Hw'; [by apply Hr|]. specialize (Hw r' w Hr' Hw'). set_solver.
    + intros [[Hs Hf]%StronglySorted_inv Hw]. split; [done|]. intros r' w Hr' Hw'. rewrite Forall_forall in Hf.
      pose proof (Hf r' Hr' w) as Hd. pose proof (Hw r' w (list_elem_of_further _ _ _ Hr') Hw') as Hn. set_solver.
  - zbool. split; [|by eauto]. split; [done|]. intros [_ H]. destruct E. apply leibniz_equiv. intros w. split; [|set_solver].
    intros [Hw1 Hw2]%elem_of_intersection. exfalso. apply (H r w); [by left|set_solver|done].
Qed.

Lemma observation_leb_total a b : observation_leb a b = true \/ observation_leb b a = true.
Proof.
  unfold observation_leb. destruct (decide (ob_window a = ob_window b)) as [E|E].
  - rewrite !bool_decide_true by congruence. lia.
  - rewrite !bool_decide_false by congruence. apply string_leb_total.
Qed.

Lemma observation_leb_trans a b c : observation_leb a b = true -> observation_leb b c = true -> observation_leb a c = true.
Proof.
  unfold observation_leb. intros H1 H2. destruct (decide (ob_window a = ob_window b)) as [E|E].
  - rewrite bool_decide_true in H1 by done. rewrite E. case_bool_decide; [lia|done].
  - rewrite bool_decide_false in H1 by done. destruct (decide (ob_window b = ob_window c)) as [E'|E'].
    + rewrite bool_decide_false by congruence. by rewrite <- E'.
    + rewrite (bool_decide_false _ E') in H2. rewrite bool_decide_false; [by eapply string_leb_trans|].
      intros E2. apply E. rewrite E2 in *. by apply String.leb_antisym.
Qed.

(** The merged evidence of the identity [id] over [items]. *)
Definition merged_of (items : list InstrumentEvidence) (id : string) (inst : InstrumentEvidence) : Prop :=
  let own := filter (fun it => evidence_identity it = id) items in
  own <> [] /\ evidence_identity inst = id
  /\ ie_ws_observations inst = py_sorted observation_leb (own ≫= ie_ws_observations)
  /\ ie_rest_observations inst = own ≫= ie_rest_observations
  /\ ie_oracle_comparisons inst = own ≫= ie_oracle_comparisons
  /\ ie_monotonicity inst = Some (evaluate_monotonicity (ie_ws_observations inst)).

Lemma group_by_elem (items : list InstrumentEvidence) id own : (id, own) ∈ group_by evidence_identity items ->
  own = filter (fun it => evidence_identity it = id) items /\ own <> [].
Proof.
  intros H. pose proof (dict_elem_get _ _ _ (group_by_NoDup evidence_identity items) H) as Hg.
  pose proof (group_by_get evidence_identity id items) as Hd. rewrite Hg in Hd. cbn in Hd. split; [done|].
  assert (Hk : id ∈ (group_by evidence_identity items).*1) by by apply (list_elem_of_fmap_2 fst) in H.
  apply group_by_keys in Hk as (it & Hit & Hid). subst own. intros Hn.
  assert (Hin : it ∈ filter (fun it => evidence_identity it = id) items) by by apply list_elem_of_filter.
  rewrite Hn in Hin. by apply elem_of_nil in Hin.
Qed.

Lemma merge_groups (items : list InstrumentEvidence) groups :
  (forall id own, (id, own) ∈ groups -> own = filter (fun it => evidence_identity it = id) items /\ own <> []) ->
  exists merged, traverse merge_instrument groups.*2 = Ok merged
    /\ evidence_identity <$> merged = groups.*1
    /\ Forall (fun inst => merged_of items (evidence_identity inst) inst) merged.
Proof.
  induction groups as [|[id own] groups IH]; intros H; [by exists []|].
  destruct (H id own) as [Hown Hne]; [by left|]. destruct IH as (merged & Hm & Hid & Hf); [intros id' own' Hin; apply H; by right|].
  destruct own as [|first own]; [done|]. cbn [fmap list_fmap snd traverse merge_instrument]. rewrite bind_value.
  change (traverse merge_instrument (list_fmap _ _ snd groups)) with (traverse merge_instrument groups.*2). rewrite Hm, bind_value.
  eexists. split; [done|]. assert (Hfirst : evidence_identity first = id).
  { assert (Hin : first ∈ first :: own) by left. rewrite Hown in Hin. by apply list_elem_of_filter in Hin as [? _]. }
  set (inst := with_merged _ _ _ first). assert (Hi : evidence_identity inst = id) by done. split.
  - cbn [fmap list_fmap fst]. change (list_fmap _ _ evidence_identity merged) with (evidence_identity <$> merged).
    rewrite Hi. f_equal. exact Hid.
  - constructor; [|done]. rewrite Hi. unfold merged_of. rewrite <- Hown. by split_and!.
Qed.

(** What a combination holds. *)
Definition combination (records : list EvidenceRecord) (r : EvidenceRecord) : Prop :=
  let items := records ≫= er_instruments in
  let ids := evidence_identity <$> er_instruments r in
  NoDup ids /\ (forall id, id ∈ ids <-> exists it, it ∈ items /\ evidence_identity it = id)
  /\ Forall (fun inst => merged_of items (evidence_identity inst) inst) (er_instruments r)
  /\ (forall id, id ∈ er_expected_instruments r <-> exists r', r' ∈ records /\ id ∈ er_expected_instruments r')
  /\ (forall id, id ∈ er_pending_instruments r <-> id ∈ er_expected_instruments r /\ id ∉ ids)
  /\ (forall w, w ∈ er_sample_windows r <-> exists r', r' ∈ records /\ w ∈ er_sample_windows r')
  /\ er_late_start r = merge_late_start records /\ er_reconnect r = merge_reconnect records
  /\ (forall r', r' ∈ records -> er_collection_start r <= er_collection_start r' /\ er_collection_end r' <= er_collection_end r
      /\ record_key r' = record_key r).

Lemma fold_min_bound l x : fold_left Z.min l x <= x /\ forall y, y ∈ l -> fold_left Z.min l x <= y.
Proof.
  revert x. induction l as [|z l IH]; intros x; cbn; [split; [done|set_solver]|].
  destruct (IH (Z.min x z)) as [H1 H2]. split; [lia|]. intros y [->|Hy]%elem_of_cons; [lia|auto].
Qed.

Lemma fold_max_bound l x : x <= fold_left Z.max l x /\ forall y, y ∈ l -> y <= fold_left Z.max l x.
Proof.
  revert x. induction l as [|z l IH]; intros x; cbn; [split; [done|set_solver]|].
  destruct (IH (Z.max x z)) as [H1 H2]. split; [lia|]. intros y [->|Hy]%elem_of_cons; [lia|auto].
Qed.

Lemma elem_of_sorted_set X x : x ∈ sorted_set X <-> x ∈ X.
Proof. unfold sorted_set. by rewrite elem_of_py_sorted, elem_of_elements. Qed.

Lemma combine_combinable records : combinable records -> exists r, combine_records records = Ok r /\ combination records r.
Proof.
  intros (Hne & Hkey & Hw). destruct records as [|r0 rest] eqn:Er; [done|]. rewrite <- Er in *.
  unfold combine_records. rewrite Er. rewrite <- Er.
  assert (Hk : forallb (fun r => bool_decide (record_key r = record_key r0)) rest = true).
  { apply forallb_forall. intros r Hr. apply bool_decide_true. apply Hkey; rewrite Er; [right; by apply list_elem_of_In|left]. }
  rewrite Hk. cbn [negb raise_if]. rewrite bind_value.
  destruct (check_windows_spec ∅ records) as [[_ Hc] _]. rewrite Hc by (split; [done|set_solver]). rewrite bind_value.
  set (items := records ≫= er_instruments). cbv zeta.
  destruct (merge_groups items (group_by evidence_identity items)) as (merged & Hm & Hid & Hf); [apply group_by_elem|].
  rewrite Hm, bind_value. eexists. split; [done|]. unfold combination. fold items. cbn. rewrite Hid. split_and!; try done.
  - apply group_by_NoDup.
  - intros id. apply group_by_keys.
  - intros id. rewrite elem_of_sorted_set, elem_of_list_to_set, list_elem_of_bind. set_solver.
  - intros id. rewrite !elem_of_sorted_set, elem_of_difference, !elem_of_list_to_set. done.
  - intros w. rewrite elem_of_sorted_set, elem_of_list_to_set, list_elem_of_bind. set_solver.
  - intros r' Hr'. rewrite Er in Hr'.
    pose proof (fold_min_bound (er_collection_start <$> rest) (er_collection_start r0)) as [Hmin1 Hmin2].
    pose proof (fold_max_bound (er_collection_end <$> rest) (er_collection_end r0)) as [Hmax1 Hmax2].
    apply elem_of_cons in Hr' as [->|Hr']; [done|]. split_and!.
    + apply Hmin2. by apply list_elem_of_fmap_2.
    + apply Hmax2. by apply list_elem_of_fmap_2.
    + change (record_key r' = record_key r0). apply Hkey; rewrite Er; [by right|by left].
Qed.

(** Records combine exactly when they share their date, session and source and no window occurs
    in two of them; the combination has each instrument once with all its observations in the order
    of window and time, and the union of the windows and of the expected instruments. *)
Theorem combine_correct records :
  (combinable records -> exists r, combine_records records = Ok r /\ combination records r)
  /\ (~ combinable records -> exists msg, combine_records records = Raise (ValueError msg)).
Proof.
  split; [apply combine_combinable|]. intros Hn. unfold combine_records. destruct records as [|r0 rest] eqn:Er; [eauto|].
  rewrite <- Er in *. destruct (forallb (fun r => bool_decide (record_key r = record_key r0)) rest) eqn:Ek; cbn [negb raise_if].
  2: { eexists. reflexivity. }
  rewrite bind_value. destruct (check_windows_spec ∅ records) as [Hc He].
  destruct (check_windows ∅ records) as [[]|e] eqn:E.
  - exfalso. apply Hn. split; [by rewrite Er|]. split; [|by apply Hc].
    assert (Hall : forall r, r ∈ records -> record_key r = record_key r0).
    { intros r Hr. rewrite Er in Hr. apply elem_of_cons in Hr as [->|Hr]; [done|].
      rewrite forallb_forall in Ek. specialize (Ek r). rewrite bool_decide_eq_true in Ek. apply Ek. by apply list_elem_of_In. }
    intros r r' Hr Hr'. by rewrite (Hall r), (Hall r').
  - destruct He as [msg He]; [done|]. exists msg. injection He as ->. done.
Qed.

(** ** A session of three windows *)

Definition sample_observation (window : string) (at_ : instant) (high : Z) : OhlcObservation :=
  {| ob_source := "ws"; ob_window := window; ob_observed_at := at_; ob_trading_date := Some 20468;
     ob_open_price := Some (dec 100 0); ob_high_price := Some (dec high 0); ob_low_price := Some (dec 99 0) |}.

Definition sample_evidence (obs : list OhlcObservation) : InstrumentEvidence :=
  {| ie_exchange := "NSE"; ie_symbol := "TCS"; ie_security_id := "11536"; ie_trading_date := 20468;
     ie_ws_observations := obs; ie_rest_observations := []; ie_oracle_comparisons := [];
     ie_monotonicity := Some (evaluate_monotonicity obs) |}.

Definition sample_late_start : LateStartEvidence :=
  {| ls_observed := true; ls_kind := PROVIDER_LATE_SUBSCRIPTION; ls_observer_attach_timestamp := None;
     ls_prior_observed_at := Some 1; ls_prior_open := Some (dec 100 0); ls_prior_high := Some (dec 101 0);
     ls_prior_low := Some (dec 99 0); ls_first_observed_at := Some 2; ls_first_open := Some (dec 100 0);
     ls_first_high := Some (dec 101 0); ls_first_low := Some (dec 99 0) |}.

Definition sample_reconnect (pre post : OhlcObservation) : ReconnectEvidence :=
  {| re_observed := true; re_pre := Some pre; re_post := Some post |}.

Definition sample_run : CollectionRun :=
  {| run_trading_date := 20468; run_session_identity := "regular"; run_source_sha := "sha"; run_start := 1; run_end := 9 |}.

Definition sample_window (window : string) (at_ : instant) (high : Z) : EvidenceRecord :=
  collected_record sample_run ["NSE:TCS"%string] [] [window] [sample_evidence [sample_observation window at_ high]]
    (Some sample_late_start) (Some (sample_reconnect (sample_observation "pre" 3 101) (sample_observation "post" 4 101))).

(** A high that rises from 101 at noon to [late_high] in the afternoon. *)
Definition sample_session (late_high : Z) : list EvidenceRecord :=
  [sample_window "early" 10 100; sample_window "mid" 20 101; sample_window "late" 30 late_high].

Lemma combine_correct_witness : combinable (sample_session 101) /\
  exists r, combine_records (sample_session 101) = Ok r /\ combination (sample_session 101) r.
Proof.
  assert (H : combinable (sample_session 101)).
  { split; [done|]. split.
    - assert (Hall : Forall (fun r => record_key r = (20468, "regular", "sha")%string) (sample_session 101)) by repeat constructor.
      rewrite Forall_forall in Hall. intros r r' Hr Hr'. by rewrite (Hall r Hr), (Hall r' Hr').
    - repeat constructor; intros w; set_solver. }
  split; [exact H|]. exact (proj1 (combine_correct (sample_session 101)) H).
Defined.

(** The windows are merged in the order of their names, [late] before [mid]: a session whose high
    only rises is rejected for a regression. *)
Lemma rising_session_rejected :
  let observations := (sample_session 102 ≫= er_instruments) ≫= ie_ws_observations in
  monotone observations /\ StronglySorted (fun a b => ob_observed_at a < ob_observed_at b) observations
  /\ exists r, combine_records (sample_session 102) = Ok r /\ ve_outcome (evaluate_record r) = REJECTED
       /\ ve_reasons (evaluate_record r) = [MonotonicityViolations 1].
Proof.
  split; [|split].
  - apply evaluate_monotonicity_spec. vm_compute. reflexivity.
  - repeat constructor.
  - eexists. split; [reflexivity|]. split; vm_compute; reflexivity.
Qed.

Example session_accepted : exists r, combine_records (sample_session 101) = Ok r /\ ve_outcome (evaluate_record r) = ACCEPTED.
Proof. eexists. split; [reflexivity|]. vm_compute. reflexivity. Qed.

(** No comparison with the oracle was made and the record says the oracle was available. *)
Lemma accepted_without_oracle : exists r, combine_records (sample_session 101) = Ok r
  /\ comparisons_of r = [] /\ ve_outcome (evaluate_record r) = ACCEPTED.
Proof. eexists. split; [reflexivity|]. split; vm_compute; reflexivity. Qed.

Definition no_prices (window : string) : OhlcObservation :=
  {| ob_source := "ws"; ob_window := window; ob_observed_at := 3; ob_trading_date := Some 20468;
     ob_open_price := None; ob_high_price := None; ob_low_price := None |}.

(** A reconnect observed without prices counts as evidence of continuity, unlike a late start
    without prices. *)
Lemma reconnect_without_prices_accepted : exists record,
  er_reconnect record = Some (sample_reconnect (no_prices "pre") (no_prices "post"))
  /\ er_csoa16_required record = true /\ ve_outcome (evaluate_record record) = ACCEPTED.
Proof.
  exists (collected_record sample_run ["NSE:TCS"%string] [] ["early"; "mid"; "late"]%string
    [sample_evidence [sample_observation "early" 10 100]] (Some sample_late_start)
    (Some (sample_reconnect (no_prices "pre") (no_prices "post")))).
  split; [reflexivity|]. split; [reflexivity|]. vm_compute. reflexivity.
Qed.

(** An instrument observed twice makes a record inconclusive, and stops doing so once the record is
    combined, alone or with others. *)
Lemma combination_hides_duplicates record :
  (record = collected_record sample_run ["NSE:TCS"%string] [] ["early"; "mid"; "late"]%string
     [sample_evidence [sample_observation "early" 10 100]; sample_evidence [sample_observation "mid" 20 101]]
     (Some sample_late_start) (Some (sample_reconnect (sample_observation "pre" 3 101) (sample_observation "post" 4 101)))) ->
  ve_outcome (evaluate_record record) = INCONCLUSIVE
  /\ exists r, combine_records [record] = Ok r /\ ve_outcome (evaluate_record r) = ACCEPTED.
Proof. intros ->. split; [vm_compute; reflexivity|]. eexists. split; [reflexivity|]. vm_compute. reflexivity. Qed.

(** * What a client of the verdict relies on *)

Lemma accepted_conclusive record : ve_outcome (evaluate_record record) = ACCEPTED -> conclusive record.
Proof.
  intros H. apply inconclusive_reasons_nil. revert H. unfold evaluate_record. cbv zeta.
  destruct (rejection_reasons _ _); [|done]. by destruct (inconclusive_reasons _ _).
Qed.

Lemma first_least_in {A} (f : A -> Z) x l : first_least f x l ∈ x :: l.
Proof.
  unfold first_least. revert x. induction l as [|y l IH]; intros x; [by left|]. cbn [fold_left].
  destruct (f y <? f x); [right; apply IH|]. specialize (IH x). apply elem_of_cons in IH as [->|H]; [left|by right; right].
Qed.

Lemma observed_late_start_some r ev : observed_late_start r = Some ev -> er_late_start r = Some ev.
Proof. unfold observed_late_start. destruct (er_late_start r) as [e|]; [|done]. by destruct (ls_observed e). Qed.

Lemma captured_late_start_some r ev : captured_late_start r = Some ev -> er_late_start r = Some ev.
Proof.
  unfold captured_late_start. destruct (observed_late_start r) as [e|] eqn:E; [|done]. cbn.
  destruct (is_not_none _); [|done]. intros [= <-]. by apply observed_late_start_some.
Qed.

Lemma collected_in {A B} (f : A -> option B) l b : b ∈ collect_some f l -> exists a, a ∈ l /\ f a = Some b.
Proof. unfold collect_some. intros H. by apply list_elem_of_omap in H. Qed.

Lemma merge_late_start_in records ev : merge_late_start records = Some ev -> exists r, r ∈ records /\ er_late_start r = Some ev.
Proof.
  unfold merge_late_start. destruct (collect_some captured_late_start records) as [|x l] eqn:E.
  - intros H. destruct (collect_some observed_late_start records) as [|y l] eqn:E'; [done|]. injection H as ->.
    destruct (collected_in observed_late_start records ev) as (r & ? & ?); [rewrite E'; left|].
    exists r. split; [done|]. by apply observed_late_start_some.
  - intros [= <-]. destruct (collected_in captured_late_start records (first_least (fun ev => default 0 (ls_first_observed_at ev)) x l)) as (r & ? & ?);
      [rewrite E; apply first_least_in|]. exists r. split; [done|]. by apply captured_late_start_some.
Qed.

(** * A run *)

(** A straight run leaves the late start unobserved, so it is never accepted; an instrument is
    pending exactly when no window observed it. *)
Lemma straight_run run universe windows tick_size record : run_collect run universe windows tick_size = Ok record ->
  ve_outcome (evaluate_record record) <> ACCEPTED
  /\ er_sample_windows record = wr_window <$> windows
  /\ exists ws rest, collect_windows (length universe) windows ([], []) = Ok (ws, rest)
     /\ forall key, key ∈ er_pending_instruments record <-> key ∈ er_expected_instruments record /\ key ∉ ws.*1.
Proof.
  unfold run_collect. destruct (collect_windows _ windows _) as [[ws rest]|e] eqn:E; [|done]. rewrite bind_value. intros [= <-].
  split; [|split; [done|]].
  - intros (_ & _ & _ & _ & (ev & o & h & l & o' & h' & l' & He & Hv & _) & _)%accepted_conclusive. cbn in He. injection He as <-.
    destruct Hv as [Hv _]. done.
  - exists ws, rest. split; [done|]. intros key. cbn. rewrite list_elem_of_filter, dict_get_none. tauto.
Qed.

(** A late start captured in two steps is what the evaluator derives continuity from: it is
    observed exactly when both sides are there. *)
Lemma capture_late_start_observed instrument rest stream :
  ls_observed (capture_late_start instrument rest stream) = true <->
  dict_get (evidence_key instrument) (rest_by_key "prior" rest) <> None
  /\ dict_get (evidence_key instrument) (sample_ws "first" 1 stream []) <> None.
Proof. unfold capture_late_start. destruct (dict_get _ _), (dict_get _ _); cbn; naive_solver. Qed.

(** Sampling a window keeps the last observation of each instrument up to the one that completes
    the expected number. *)
Lemma sample_ws_stops window expected stream out : (length out < expected)%nat ->
  (length (sample_ws window expected stream out) <= expected)%nat.
Proof.
  revert out. induction stream as [|datum stream IH]; intros out Hlen; cbn [sample_ws]; [lia|].
  destruct (tick ← datum; _) as [[key obs]|]; [|by apply IH].
  assert (Hset : (length (dict_set key obs out) <= S (length out))%nat).
  { rewrite <- (length_fmap fst), <- (length_fmap fst out). rewrite dict_set_keys. case_decide; rewrite ?length_app; cbn; lia. }
  destruct (Nat.leb_spec expected (length (dict_set key obs out))); [lia|]. by apply IH.
Qed.
