(* ===== verification/EvidenceObserver.v ===== *)
(** The session-OHLC evidence observer, services/session_ohlc_evidence_observer.py: it copies
    the session OHLC off every published context, collects the three windows of a session,
    compares them with the provider's statistics and reports a verdict at the close.

    The driver waits only for the statistics of a window; contexts and continuity facts that
    arrive meanwhile are part of the answer.  The classifier is an argument, clock readings
    and the outcome of every write are inputs of a poll.  An artifact is what its text
    renders.

    The theorems say what the observer remembers of the contexts it saw, that a session's
    windows can always be combined and never lead to acceptance, and that windows are
    committed by their deadline; the last lemmas show prices of an earlier day, a report
    that misses later windows, and a false regression. *)
From S2P Require Import Prelude PyTime MarketData Session Context Samples EventBus Evidence.

Local Open Scope Z_scope.

(** * State *)

Inductive WindowPhase : Type := COLLECTING | FINALIZED.

#[global] Instance WindowPhase_eq_dec : EqDecision WindowPhase.
Proof. solve_decision. Defined.

(** [_Snapshot] *)
Record Snapshot : Type := {
  sn_identity : string;
  sn_exchange : string;
  sn_symbol : string;
  sn_trading_date : option date;
  sn_event_timestamp : instant;
  sn_observed_at : instant;
  sn_version : Z;
  sn_open_price : option Decimal;
  sn_high_price : option Decimal;
  sn_low_price : option Decimal;
}.

Record WindowResult : Type := {
  wn_window : string;
  wn_executed : bool;
  wn_reason : string;
  wn_observed : nat;
  wn_pending : nat;
}.

(** What the observer is constructed with. *)
Record ObserverConfig : Type := {
  ec_universe : list Instrument;
  ec_source_sha : string;
  ec_production_image : option string;
  ec_exchange_timezone : ZoneInfo;
  ec_session_identity : string;
  ec_per_window : timedelta;
}.

(** A file the observer commits: a window's record, or the session's record with its verdict
    and whether the Markdown was written after the JSON. *)
Inductive Artifact : Type :=
| WindowArtifact (trading_date : date) (window : string) (record : EvidenceRecord)
| CombinedArtifact (trading_date : date) (record : EvidenceRecord) (verdict : Verdict) (markdown : bool).

Record Observer : Type := {
  eo_latest : gmap string Snapshot;
  eo_partials : list EvidenceRecord;
  eo_window_phase : dict string WindowPhase;
  eo_window_deadline : gmap string instant;
  eo_session_trading_date : option date;
  eo_frozen_universe : option (list string);
  eo_attach_timestamp : option instant;
  eo_continuity : list FeedContinuityEvent;
  eo_pre_reconnect : option (gmap string Snapshot);
  eo_reconnect : option ReconnectEvidence;
  eo_finalized : bool;
  eo_artifacts : list Artifact;
}.

Definition mk_observer : Observer :=
  {| eo_latest := ∅; eo_partials := []; eo_window_phase := []; eo_window_deadline := ∅; eo_session_trading_date := None;
     eo_frozen_universe := None; eo_attach_timestamp := None; eo_continuity := []; eo_pre_reconnect := None;
     eo_reconnect := None; eo_finalized := false; eo_artifacts := [] |}.

Definition with_latest latest (self : Observer) : Observer :=
  {| eo_latest := latest; eo_partials := eo_partials self; eo_window_phase := eo_window_phase self;
     eo_window_deadline := eo_window_deadline self; eo_session_trading_date := eo_session_trading_date self;
     eo_frozen_universe := eo_frozen_universe self; eo_attach_timestamp := eo_attach_timestamp self;
     eo_continuity := eo_continuity self; eo_pre_reconnect := eo_pre_reconnect self; eo_reconnect := eo_reconnect self;
     eo_finalized := eo_finalized self; eo_artifacts := eo_artifacts self |}.

Definition set_feed continuity pre reconnect (self : Observer) : Observer :=
  {| eo_latest := eo_latest self; eo_partials := eo_partials self; eo_window_phase := eo_window_phase self;
     eo_window_deadline := eo_window_deadline self; eo_session_trading_date := eo_session_trading_date self;
     eo_frozen_universe := eo_frozen_universe self; eo_attach_timestamp := eo_attach_timestamp self;
     eo_continuity := continuity; eo_pre_reconnect := pre; eo_reconnect := reconnect;
     eo_finalized := eo_finalized self; eo_artifacts := eo_artifacts self |}.

Definition set_windows partials phase deadline finalized artifacts (self : Observer) : Observer :=
  {| eo_latest := eo_latest self; eo_partials := partials; eo_window_phase := phase;
     eo_window_deadline := deadline; eo_session_trading_date := eo_session_trading_date self;
     eo_frozen_universe := eo_frozen_universe self; eo_attach_timestamp := eo_attach_timestamp self;
     eo_continuity := eo_continuity self; eo_pre_reconnect := eo_pre_reconnect self; eo_reconnect := eo_reconnect self;
     eo_finalized := finalized; eo_artifacts := artifacts |}.

(** * Subscription *)

(** The event types the observer subscribes to. *)
Inductive ContextEventType : Type := MarketContextCreated | MarketContextUpdated.

Definition set_attach (now : instant) (self : Observer) : Observer :=
  {| eo_latest := eo_latest self; eo_partials := eo_partials self; eo_window_phase := eo_window_phase self;
     eo_window_deadline := eo_window_deadline self; eo_session_trading_date := eo_session_trading_date self;
     eo_frozen_universe := eo_frozen_universe self; eo_attach_timestamp := Some now;
     eo_continuity := eo_continuity self; eo_pre_reconnect := eo_pre_reconnect self; eo_reconnect := eo_reconnect self;
     eo_finalized := eo_finalized self; eo_artifacts := eo_artifacts self |}.

(** [subscribe] on the bus and the subscriptions it keeps; [now] is the reading of the clock. *)
Definition subscribe_observer {EventType Handler : Type} `{EqDecision EventType} `{EqDecision Handler}
    (type_of : ContextEventType -> EventType) (on_context : Handler) (now : instant) (bus : EventBus EventType Handler)
    (subscriptions : list (Subscription EventType Handler)) (self : Observer)
    : EventBus EventType Handler * list (Subscription EventType Handler) * Observer :=
  let wanted := [(type_of MarketContextCreated, on_context); (type_of MarketContextUpdated, on_context)] in
  let '(bus, subs) := attach wanted bus subscriptions in
  (bus, subs, if bool_decide (length subscriptions <> 0)%nat then self else set_attach now self).

(** * Contexts and continuity *)

(** [_record_snapshot]: only a tick with session OHLC counts. *)
Definition record_snapshot (context : MarketContext) (self : Observer) : Observer :=
  match tick ← mc_latest_tick context; tick_session_ohlc tick with
  | None => self
  | Some ohlc =>
      let identity := evidence_key (mc_instrument context) in
      with_latest (<[identity := {|
        sn_identity := identity; sn_exchange := exchange (mc_instrument context); sn_symbol := symbol (mc_instrument context);
        sn_trading_date := ctx_trading_date <$> mc_session context; sn_event_timestamp := mc_event_timestamp context;
        sn_observed_at := mc_observed_at context; sn_version := mc_version context;
        sn_open_price := Some (pso_open_price ohlc); sn_high_price := Some (pso_high_price ohlc);
        sn_low_price := Some (pso_low_price ohlc) |}]> (eo_latest self)) self
  end.

(** [_to_observation] *)
Definition to_observation (snapshot : Snapshot) (window : string) : OhlcObservation :=
  {| ob_source := "ws"; ob_window := window; ob_observed_at := sn_event_timestamp snapshot;
     ob_trading_date := sn_trading_date snapshot; ob_open_price := sn_open_price snapshot;
     ob_high_price := sn_high_price snapshot; ob_low_price := sn_low_price snapshot |}.

(** [sorted(d)] *)
Definition sorted_keys {A} (d : gmap string A) : list string := py_sorted String.leb (elements (dom d)).

(** The loop of [_capture_reconnect]. *)
Fixpoint first_on_both_sides (pre post : gmap string Snapshot) (keys : list string) : option ReconnectEvidence :=
  match keys with
  | [] => None
  | key :: keys =>
      match post !! key, pre !! key with
      | Some b, Some a => Some {| re_observed := true; re_pre := Some (to_observation a "pre");
                                  re_post := Some (to_observation b "post") |}
      | _, _ => first_on_both_sides pre post keys
      end
  end.

Definition on_feed_continuity (event : FeedContinuityEvent) (self : Observer) : Observer :=
  let continuity := eo_continuity self ++ [event] in
  match feed_status event, eo_pre_reconnect self with
  | DISCONNECTED, _ => set_feed continuity (Some (eo_latest self)) (eo_reconnect self) self
  | RECONNECTED, Some pre =>
      let found := first_on_both_sides pre (eo_latest self) (sorted_keys pre) in
      set_feed continuity None (match found with Some r => Some r | None => eo_reconnect self end) self
  | _, pre => set_feed continuity pre (eo_reconnect self) self
  end.

(** What reaches the observer between two turns of its driver. *)
Inductive ObserverEvent : Type :=
| ContextPublished (context : MarketContext)
| ContinuityReported (event : FeedContinuityEvent).

(** [_on_context] and [on_feed_continuity]; neither raises. *)
Definition on_event (self : Observer) (event : ObserverEvent) : Observer :=
  match event with
  | ContextPublished context => record_snapshot context self
  | ContinuityReported event => on_feed_continuity event self
  end.

(** * Windows *)

Definition WINDOW_CADENCE : list (string * time * time) :=
  [("early"%string, hm 9 20, hm 9 35); ("mid"%string, hm 12 0, hm 12 30); ("late"%string, hm 15 0, hm 15 20)].

Definition due_window (local : time) : option string :=
  (fun band => band.1.1) <$> List.find (fun '(_, start, stop) => (start <=? local) && (local <=? stop)) WINDOW_CADENCE.

Definition begin_collecting (config : ObserverConfig) (window : string) (now : instant) (self : Observer) : Observer :=
  set_windows (eo_partials self) (dict_set window COLLECTING (eo_window_phase self))
    (<[window := now + ec_per_window config]> (eo_window_deadline self)) (eo_finalized self) (eo_artifacts self) self.

Definition coverage_complete (self : Observer) : bool :=
  match default [] (eo_frozen_universe self) with
  | [] => false
  | frozen => forallb (fun key => bool_decide (is_Some (eo_latest self !! key))) frozen
  end.

(** [_roll_session] *)
Definition roll_session (config : ObserverConfig) (trading_date : date) (self : Observer) : Observer :=
  if bool_decide (eo_session_trading_date self = Some trading_date) then self
  else
    let rolled := is_not_none (eo_session_trading_date self) in
    let frozen := Some (py_sorted String.leb (evidence_key <$> ec_universe config)) in
    {| eo_latest := if rolled then ∅ else eo_latest self;
       eo_partials := if rolled then [] else eo_partials self;
       eo_window_phase := if rolled then [] else eo_window_phase self;
       eo_window_deadline := if rolled then ∅ else eo_window_deadline self;
       eo_session_trading_date := Some trading_date; eo_frozen_universe := frozen;
       eo_attach_timestamp := eo_attach_timestamp self; eo_continuity := eo_continuity self;
       eo_pre_reconnect := if rolled then None else eo_pre_reconnect self;
       eo_reconnect := if rolled then None else eo_reconnect self;
       eo_finalized := if rolled then false else eo_finalized self; eo_artifacts := eo_artifacts self |}.

(** [_comparisons] *)
Definition observer_comparisons (window : string) (ws : OhlcObservation) (rest : option OhlcObservation) : list OracleComparison :=
  match rest with
  | None => []
  | Some rest =>
      (fun '(name, ws_v, rest_v, exact) =>
         let classification := classify_price ws_v rest_v None exact in
         {| oc_window := window; oc_field := name; oc_ws_value := ws_v; oc_rest_value := rest_v; oc_tick_size := None;
            oc_classification := classification; oc_method := METHOD_BY_CLASS classification;
            oc_ws_float32_bits := None; oc_rest_float32_bits := None |}) <$> oracle_fields ws rest
  end.

(** [_late_start_for] *)
Definition late_start_for (window : string) (rest : dict string OhlcObservation) (self : Observer) : option LateStartEvidence :=
  if negb (bool_decide (window = "early"%string)) then None
  else match key ← head (sorted_keys (eo_latest self)); eo_latest self !! key with
       | None => Some (unobserved_late_start OBSERVER_LATE_ATTACH (eo_attach_timestamp self))
       | Some first =>
           let prior := dict_get (sn_identity first) rest in
           Some {| ls_observed := true; ls_kind := OBSERVER_LATE_ATTACH;
                   ls_observer_attach_timestamp := eo_attach_timestamp self;
                   ls_prior_observed_at := ob_observed_at <$> prior; ls_prior_open := prior ≫= ob_open_price;
                   ls_prior_high := prior ≫= ob_high_price; ls_prior_low := prior ≫= ob_low_price;
                   ls_first_observed_at := Some (sn_event_timestamp first); ls_first_open := sn_open_price first;
                   ls_first_high := sn_high_price first; ls_first_low := sn_low_price first |}
       end.

(** [_build_partial]; [now] is its clock reading. *)
Definition build_partial (config : ObserverConfig) (window : string) (trading_date : date) (expected : list string)
    (ws_snapshots : gmap string Snapshot) (rest : dict string OhlcObservation) (now : instant) (self : Observer)
    : EvidenceRecord :=
  let evidence key :=
    snap ← ws_snapshots !! key;
    let ws_obs := to_observation snap window in
    Some {| ie_exchange := sn_exchange snap; ie_symbol := sn_symbol snap; ie_security_id := key;
            ie_trading_date := trading_date; ie_ws_observations := [ws_obs];
            ie_rest_observations := option_list (dict_get key rest);
            ie_oracle_comparisons := observer_comparisons window ws_obs (dict_get key rest);
            ie_monotonicity := Some (evaluate_monotonicity [ws_obs]) |} in
  {| er_collector_version := "3.0.0"; er_source_sha := ec_source_sha config;
     er_production_image := ec_production_image config; er_provider := "dhan"; er_trading_date := trading_date;
     er_session_identity := ec_session_identity config; er_collection_start := now; er_collection_end := now;
     er_expected_instruments := expected;
     er_pending_instruments := filter (fun key => ws_snapshots !! key = None) expected;
     er_required_windows := ["early"; "mid"; "late"]%string; er_sample_windows := [window];
     er_instruments := omap evidence (sorted_keys ws_snapshots);
     er_late_start := late_start_for window rest self; er_reconnect := None;
     er_csoa16_required := true; er_oracle_available := true |}.

(** What finalizing one window meets: the answer for its statistics, the events before it, the
    clock reading after it, and what the write raises. *)
Record WindowAnswer : Type := {
  wa_rest : result (list SessionStatisticsObservation);
  wa_events : list ObserverEvent;
  wa_now : instant;
  wa_write : result unit;
}.

(** [_finalize_window] *)
Definition finalize_window (config : ObserverConfig) (window : string) (trading_date : date) (answer : WindowAnswer)
    (self : Observer) : Observer * result unit :=
  if bool_decide (dict_get window (eo_window_phase self) = Some FINALIZED) then (self, Ok tt)
  else
    let ws_snapshots := eo_latest self in
    let self := fold_left on_event (wa_events answer) self in
    let commit rest :=
      let record := build_partial config window trading_date (default [] (eo_frozen_universe self)) ws_snapshots rest
                      (wa_now answer) self in
      match wa_write answer with
      | Raise e => (self, Raise e)
      | Ok _ => (set_windows (eo_partials self ++ [record]) (dict_set window FINALIZED (eo_window_phase self))
                   (eo_window_deadline self) (eo_finalized self)
                   (eo_artifacts self ++ [WindowArtifact trading_date window record]) self, Ok tt)
      end in
    match wa_rest answer with
    | Ok observations => commit (rest_by_key "rest" observations)
    | Raise e => if is_exception e then commit [] else (self, Raise e)
    end.

Definition collecting_windows (self : Observer) : list string :=
  fst <$> filter (fun p => p.2 = COLLECTING) (eo_window_phase self).

(** The loop over the collecting windows; [due] is what lets one be finalized.  Every window
    finalized takes the next answer. *)
Fixpoint finalize_due (config : ObserverConfig) (due : string -> Observer -> bool) (trading_date : date)
    (windows : list string) (answers : list WindowAnswer) (self : Observer) : Observer * result unit :=
  match windows with
  | [] => (self, Ok tt)
  | window :: windows =>
      if negb (due window self) then finalize_due config due trading_date windows answers self
      else match answers with
           | [] => (self, Raise CancelledError)
           | answer :: answers =>
               match finalize_window config window trading_date answer self with
               | (self, Ok _) => finalize_due config due trading_date windows answers self
               | (self, Raise e) => (self, Raise e)
               end
           end
  end.

Definition window_due (now : instant) (window : string) (self : Observer) : bool :=
  coverage_complete self || (default now (eo_window_deadline self !! window) <=? now).

Definition advance_collecting (config : ObserverConfig) (trading_date : date) (now : instant) (answers : list WindowAnswer)
    (self : Observer) : Observer * result unit :=
  finalize_due config (window_due now) trading_date (collecting_windows self) answers self.

Definition finalize_all_collecting (config : ObserverConfig) (answers : list WindowAnswer) (self : Observer)
    : Observer * result unit :=
  match eo_session_trading_date self with
  | None => (self, Ok tt)
  | Some trading_date => finalize_due config (fun _ _ => true) trading_date (collecting_windows self) answers self
  end.

(** * The session's report *)

Definition with_reconnect (reconnect : ReconnectEvidence) (r : EvidenceRecord) : EvidenceRecord :=
  {| er_collector_version := er_collector_version r; er_source_sha := er_source_sha r;
     er_production_image := er_production_image r; er_provider := er_provider r; er_trading_date := er_trading_date r;
     er_session_identity := er_session_identity r; er_collection_start := er_collection_start r;
     er_collection_end := er_collection_end r; er_expected_instruments := er_expected_instruments r;
     er_pending_instruments := er_pending_instruments r; er_required_windows := er_required_windows r;
     er_sample_windows := er_sample_windows r; er_instruments := er_instruments r; er_late_start := er_late_start r;
     er_reconnect := Some reconnect; er_csoa16_required := er_csoa16_required r;
     er_oracle_available := er_oracle_available r |}.

Definition add_artifact (artifact : Artifact) (self : Observer) : Observer :=
  set_windows (eo_partials self) (eo_window_phase self) (eo_window_deadline self) (eo_finalized self)
    (eo_artifacts self ++ [artifact]) self.

(** [finalize_session]; [json] and [markdown] are what the two writes raise. *)
Definition finalize_session (json markdown : result unit) (self : Observer) : Observer * result (option EvidenceRecord) :=
  match eo_partials self, eo_session_trading_date self with
  | _ :: _, Some trading_date =>
      match combine_records (eo_partials self) with
      | Raise e => (self, Raise e)
      | Ok combined =>
          let combined := with_reconnect (default unobserved_reconnect (eo_reconnect self)) combined in
          let verdict := evaluate_record combined in
          match json, markdown with
          | Raise e, _ => (self, Raise e)
          | Ok _, Raise e => (add_artifact (CombinedArtifact trading_date combined verdict false) self, Raise e)
          | Ok _, Ok _ => (add_artifact (CombinedArtifact trading_date combined verdict true) self, Ok (Some combined))
          end
      end
  | _, _ => (self, Ok None)
  end.

Definition mark_finalized (self : Observer) : Observer :=
  set_windows (eo_partials self) (eo_window_phase self) (eo_window_deadline self) true (eo_artifacts self) self.

(** * The driver *)

(** What one poll meets: its two clock readings, the answers of the windows it finalizes and the
    outcome of the two writes of the report. *)
Record PollInputs : Type := {
  pi_reference : instant;
  pi_now : instant;
  pi_answers : list WindowAnswer;
  pi_json : result unit;
  pi_markdown : result unit;
}.

Section Driver.
Context (config : ObserverConfig) (classify : instant -> SessionContext).

(** [_tick_once] *)
Definition tick_once (inputs : PollInputs) (self : Observer) : Observer * result unit :=
  let session := classify (pi_reference inputs) in
  if negb (bool_decide (market_state session = LIVE_SESSION)) then
    match finalize_all_collecting config (pi_answers inputs) self with
    | (self, Raise e) => (self, Raise e)
    | (self, Ok _) =>
        if existsb (fun p => bool_decide (p.2 = FINALIZED)) (eo_window_phase self) && negb (eo_finalized self) then
          match finalize_session (pi_json inputs) (pi_markdown inputs) self with
          | (self, Raise e) => (self, Raise e)
          | (self, Ok _) => (mark_finalized self, Ok tt)
          end
        else (self, Ok tt)
    end
  else
    let trading_date := ctx_trading_date session in
    let self := roll_session config trading_date self in
    let now := pi_now inputs in
    match advance_collecting config trading_date now (pi_answers inputs) self with
    | (self, Raise e) => (self, Raise e)
    | (self, Ok _) =>
        match due_window (local_time (ec_exchange_timezone config) now) with
        | Some band => (if bool_decide (band ∈ (eo_window_phase self).*1) then self else begin_collecting config band now self, Ok tt)
        | None => (self, Ok tt)
        end
    end.

(** One turn of the loop in [run]: what is raised and not a cancellation is logged. *)
Definition run_turn (inputs : PollInputs) (self : Observer) : Observer * option exn :=
  match tick_once inputs self with
  | (self, Ok _) => (self, None)
  | (self, Raise e) => (self, if is_exception e then None else Some e)
  end.

(** [capture_window] *)
Definition capture_window (window : string) (reference : instant) (answer : WindowAnswer) (self : Observer)
    : Observer * result WindowResult :=
  let refused reason := {| wn_window := window; wn_executed := false; wn_reason := reason; wn_observed := 0; wn_pending := 0 |} in
  let session := classify reference in
  if negb (bool_decide (market_state session = LIVE_SESSION)) then (self, Ok (refused "not LIVE_SESSION"%string))
  else
    let self := roll_session config (ctx_trading_date session) self in
    if bool_decide (dict_get window (eo_window_phase self) = Some FINALIZED)
    then (self, Ok (refused "window already captured"%string))
    else match finalize_window config window (ctx_trading_date session) answer self with
         | (self, Raise e) => (self, Raise e)
         | (self, Ok _) =>
             match last (eo_partials self) with
             | None => (self, Raise IndexError)
             | Some record => (self, Ok {| wn_window := window; wn_executed := true; wn_reason := "captured";
                                           wn_observed := length (er_instruments record);
                                           wn_pending := length (er_pending_instruments record) |})
             end
         end.

(** Everything that changes the observer. *)
Inductive observer_step : Observer -> Observer -> Prop :=
| step_subscribe self now : observer_step self (set_attach now self)
| step_event self event : observer_step self (on_event self event)
| step_poll self inputs : observer_step self (tick_once inputs self).1
| step_capture self window reference answer : observer_step self (capture_window window reference answer self).1
| step_shutdown self json markdown : observer_step self (finalize_session json markdown self).1.

Inductive observer_reachable : Observer -> Prop :=
| reachable_new : observer_reachable mk_observer
| reachable_step self self' : observer_reachable self -> observer_step self self' -> observer_reachable self'.

End Driver.

(** * Frames *)

(** Events change what is remembered, never the windows. *)
Definition same_windows (a b : Observer) : Prop :=
  eo_partials a = eo_partials b /\ eo_window_phase a = eo_window_phase b /\ eo_window_deadline a = eo_window_deadline b
  /\ eo_session_trading_date a = eo_session_trading_date b /\ eo_frozen_universe a = eo_frozen_universe b
  /\ eo_finalized a = eo_finalized b /\ eo_artifacts a = eo_artifacts b.

Lemma same_windows_refl a : same_windows a a.
Proof. by repeat split. Qed.

Lemma same_windows_trans a b c : same_windows a b -> same_windows b c -> same_windows a c.
Proof. unfold same_windows. intros (?&?&?&?&?&?&?) (?&?&?&?&?&?&?). repeat split; congruence. Qed.

Lemma on_event_windows self event : same_windows (on_event self event) self.
Proof.
  destruct event as [context|event]; cbn.
  - unfold record_snapshot. by destruct (tick ← _; _).
  - unfold on_feed_continuity. by destruct (feed_status event), (eo_pre_reconnect self).
Qed.

Lemma events_windows events self : same_windows (fold_left on_event events self) self.
Proof.
  revert self. induction events as [|e events IH]; intros self; [apply same_windows_refl|]. cbn.
  eapply same_windows_trans; [apply IH|apply on_event_windows].
Qed.

(** * What the observer remembers *)

(** The snapshot a context leaves, if it carries session OHLC. *)
Definition context_snapshot (context : MarketContext) : option (string * Snapshot) :=
  let self := record_snapshot context mk_observer in
  let identity := evidence_key (mc_instrument context) in
  (fun s => (identity, s)) <$> eo_latest self !! identity.

Definition snapshots_of (events : list ObserverEvent) : list (string * Snapshot) :=
  omap (fun e => match e with ContextPublished context => context_snapshot context | ContinuityReported _ => None end) events.

Lemma record_snapshot_latest context self :
  eo_latest (record_snapshot context self) = match context_snapshot context with Some (k, s) => <[k := s]> (eo_latest self) | None => eo_latest self end.
Proof.
  unfold context_snapshot, record_snapshot. destruct (tick ← _; _) as [ohlc|]; cbn; [|by rewrite lookup_empty].
  by rewrite lookup_insert_eq.
Qed.

(** The observer remembers for every instrument the last context with session OHLC among those it
    saw, and a context without keeps the earlier one. *)
Theorem latest_exact events self id :
  eo_latest (fold_left on_event events self) !! id
  = match last (filter (fun p => p.1 = id) (snapshots_of events)) with Some p => Some p.2 | None => eo_latest self !! id end.
Proof.
  induction events as [|e events IH] using rev_ind; [done|]. rewrite fold_left_app. cbn [fold_left].
  unfold snapshots_of. rewrite omap_app, filter_app. fold (snapshots_of events).
  destruct e as [context|event]; cbn [on_event omap list_omap].
  - rewrite record_snapshot_latest. destruct (context_snapshot context) as [[k s]|]; [|by rewrite filter_nil, app_nil_r].
    rewrite filter_cons, filter_nil. cbn [fst]. destruct (decide (k = id)) as [->|Hk].
    + by rewrite lookup_insert_eq, last_snoc.
    + by rewrite lookup_insert_ne, app_nil_r by done.
  - rewrite filter_nil, app_nil_r, <- IH. set (seen := fold_left on_event events self).
    unfold on_feed_continuity. by destruct (feed_status event), (eo_pre_reconnect seen).
Qed.

(** * The invariant *)

Section Invariant.
Context (config : ObserverConfig) (classify : instant -> SessionContext).

Definition session_key (d : date) : date * string * string := (d, ec_session_identity config, ec_source_sha config).

Record windows_ok (self : Observer) : Prop := {
  wo_keys : NoDup (eo_window_phase self).*1;
  wo_partials : exists ws, er_sample_windows <$> eo_partials self = (fun w => [w]) <$> ws /\ NoDup ws
    /\ forall w, w ∈ ws <-> dict_get w (eo_window_phase self) = Some FINALIZED;
  wo_key : Forall (fun r => exists d, eo_session_trading_date self = Some d /\ record_key r = session_key d) (eo_partials self);
  wo_late : Forall (fun r => forall ev, er_late_start r = Some ev -> ls_kind ev = OBSERVER_LATE_ATTACH) (eo_partials self);
  wo_committed : Forall (fun r => exists d w, eo_session_trading_date self = Some d /\ er_sample_windows r = [w]
    /\ WindowArtifact d w r ∈ eo_artifacts self) (eo_partials self);
  wo_fresh : eo_session_trading_date self = None -> eo_window_phase self = [];
  wo_frozen : forall d, eo_session_trading_date self = Some d ->
    eo_frozen_universe self = Some (py_sorted String.leb (evidence_key <$> ec_universe config));
  wo_deadline : forall w, dict_get w (eo_window_phase self) = Some COLLECTING -> is_Some (eo_window_deadline self !! w);
  wo_finalized : eo_finalized self = true -> eo_session_trading_date self <> None;
}.

Lemma windows_ok_same a b : same_windows a b -> windows_ok b -> windows_ok a.
Proof. intros (E1&E2&E3&E4&E5&E6&E7) []. split; rewrite ?E1, ?E2, ?E3, ?E4, ?E5, ?E6, ?E7; done. Qed.

Lemma mk_observer_ok : windows_ok mk_observer.
Proof.
  split; cbn; try done; try constructor. exists []. split_and!; [done|constructor|]. intros w. split; [by intros ?%elem_of_nil|done].
Qed.

Lemma late_start_kind window rest self ev : late_start_for window rest self = Some ev -> ls_kind ev = OBSERVER_LATE_ATTACH.
Proof.
  unfold late_start_for. destruct (negb _); [done|]. destruct (_ ← _; _); by intros [= <-].
Qed.

(** Committing a window that is not final yet. *)
Lemma commit_ok self d window rest ws now :
  windows_ok self -> eo_session_trading_date self = Some d -> dict_get window (eo_window_phase self) <> Some FINALIZED ->
  let record := build_partial config window d (default [] (eo_frozen_universe self)) ws rest now self in
  windows_ok (set_windows (eo_partials self ++ [record]) (dict_set window FINALIZED (eo_window_phase self))
    (eo_window_deadline self) (eo_finalized self) (eo_artifacts self ++ [WindowArtifact d window record]) self).
Proof.
  intros [Hk (wss & Hs & Hn & Hw) Hkey Hlate Hcomm Hfresh Hfrozen Hdead Hfin] Hd Hwin record.
  split; cbn [set_windows eo_latest eo_partials eo_window_phase eo_window_deadline eo_session_trading_date eo_frozen_universe eo_finalized eo_artifacts].
  - by apply dict_set_NoDup.
  - exists (wss ++ [window]). rewrite !fmap_app, Hs. split_and!; [done| |].
    + apply NoDup_app. split_and!; [done| |apply NoDup_singleton]. intros w Hin ->%list_elem_of_singleton. by apply Hw in Hin.
    + intros w. rewrite elem_of_app, list_elem_of_singleton, dict_get_set, Hw. case_decide; naive_solver.
  - rewrite Forall_app, Forall_singleton. split; [done|]. exists d. done.
  - rewrite Forall_app, Forall_singleton. split; [done|]. intros ev. apply late_start_kind.
  - rewrite Forall_app, Forall_singleton. split.
    + eapply Forall_impl; [exact Hcomm|]. intros r (d' & w & ? & ? & ?). exists d', w. split_and!; [done..|]. apply elem_of_app. by left.
    + exists d, window. split_and!; [done..|]. apply elem_of_app. right. by left.
  - intros E. congruence.
  - exact Hfrozen.
  - intros w. rewrite dict_get_set. case_decide; [done|]. apply Hdead.
  - exact Hfin.
Qed.

Lemma finalize_window_ok self d window answer : windows_ok self -> eo_session_trading_date self = Some d ->
  let '(self', res) := finalize_window config window d answer self in
  windows_ok self' /\ eo_session_trading_date self' = Some d
  /\ (res = Ok tt -> dict_get window (eo_window_phase self') = Some FINALIZED).
Proof.
  intros Hok Hd. unfold finalize_window. case_bool_decide as Hf; [by split_and!|].
  pose proof (events_windows (wa_events answer) self) as Hsame. set (self1 := fold_left on_event (wa_events answer) self) in *.
  assert (Hok1 : windows_ok self1) by by eapply windows_ok_same.
  assert (Hd1 : eo_session_trading_date self1 = Some d) by (destruct Hsame as (_&_&_&->&_); done).
  assert (Hf1 : dict_get window (eo_window_phase self1) <> Some FINALIZED) by (destruct Hsame as (_&->&_); done).
  assert (Hcommit : forall rest, let '(self', res) := match wa_write answer with
      | Raise e => (self1, Raise e)
      | Ok _ => (set_windows (eo_partials self1 ++ [build_partial config window d (default [] (eo_frozen_universe self1)) (eo_latest self) rest (wa_now answer) self1])
          (dict_set window FINALIZED (eo_window_phase self1)) (eo_window_deadline self1) (eo_finalized self1)
          (eo_artifacts self1 ++ [WindowArtifact d window (build_partial config window d (default [] (eo_frozen_universe self1)) (eo_latest self) rest (wa_now answer) self1)]) self1, Ok tt)
      end in windows_ok self' /\ eo_session_trading_date self' = Some d
        /\ (res = Ok tt -> dict_get window (eo_window_phase self') = Some FINALIZED)).
  { intros rest. destruct (wa_write answer) as [[]|e]; [|by split_and!]. split_and!; [by apply commit_ok|done|]. intros _. cbn. by rewrite dict_get_set, decide_True. }
  destruct (wa_rest answer) as [observations|e]; [apply Hcommit|]. destruct (is_exception e); [apply Hcommit|by split_and!].
Qed.

Lemma finalize_due_ok due d windows answers self : windows_ok self -> eo_session_trading_date self = Some d ->
  let '(self', res) := finalize_due config due d windows answers self in
  windows_ok self' /\ eo_session_trading_date self' = Some d.
Proof.
  revert answers self. induction windows as [|w windows IH]; intros answers self Hok Hd; [by split|].
  cbn [finalize_due]. destruct (due w self); cbn [negb]; [|by apply IH]. destruct answers as [|answer answers]; [by split|].
  pose proof (finalize_window_ok self d w answer Hok Hd) as H. destruct (finalize_window _ _ _ _ _) as [self1 [[]|e]]; destruct H as (H1 & H2 & _); [|by split].
  by apply IH.
Qed.

Lemma roll_session_ok d self : windows_ok self -> windows_ok (roll_session config d self) /\ eo_session_trading_date (roll_session config d self) = Some d.
Proof.
  intros Hok. unfold roll_session. case_bool_decide as Hd; [done|]. split; [|done].
  destruct (eo_session_trading_date self) as [d0|] eqn:E; cbn [is_not_none].
  - destruct Hok. split; cbn; try done; try constructor. exists []. split_and!; [done|constructor|]. intros w. split; [by intros ?%elem_of_nil|done].
  - destruct Hok as [Hk Hp Hkey Hlate Hcomm Hfresh Hfrozen Hdead Hfin]. assert (Hnil : eo_partials self = []).
    { destruct (eo_partials self) as [|r l]; [done|]. apply Forall_cons in Hkey as [(d' & H & _) _]. congruence. }
    split; cbn; rewrite ?Hnil; try done; try constructor. by rewrite Hnil in Hp.
Qed.

Lemma begin_collecting_ok window now self : windows_ok self -> eo_session_trading_date self <> None ->
  window ∉ (eo_window_phase self).*1 -> windows_ok (begin_collecting config window now self).
Proof.
  intros [Hk (wss & Hs & Hn & Hw) Hkey Hlate Hcomm Hfresh Hfrozen Hdead Hfin] Hd Hwin.
  split; cbn [begin_collecting set_windows eo_latest eo_partials eo_window_phase eo_window_deadline eo_session_trading_date eo_frozen_universe eo_finalized eo_artifacts]; try done.
  - by apply dict_set_NoDup.
  - exists wss. split_and!; [done|done|]. intros w. rewrite Hw, dict_get_set. case_decide as E; [|done]. subst w.
    apply dict_get_none in Hwin. rewrite Hwin. split; discriminate.
  - intros w. rewrite dict_get_set. destruct (decide (w = window)) as [->|Hne]; [by rewrite lookup_insert_eq|].
    rewrite lookup_insert_ne by done. apply Hdead.
Qed.

Lemma set_windows_artifact_ok artifact self : windows_ok self -> windows_ok (add_artifact artifact self).
Proof.
  intros []. split; cbn; try done. eapply Forall_impl; [eassumption|]. intros r (d' & w & ? & ? & ?).
  exists d', w. split_and!; [done..|]. apply elem_of_app. by left.
Qed.

Lemma finalize_session_ok json markdown self : windows_ok self ->
  windows_ok (finalize_session json markdown self).1
  /\ same_windows (set_windows (eo_partials self) (eo_window_phase self) (eo_window_deadline self) (eo_finalized self)
       (eo_artifacts (finalize_session json markdown self).1) self) (finalize_session json markdown self).1.
Proof.
  intros Hok. unfold finalize_session. destruct (eo_partials self) eqn:Ep; [split; [done|by rewrite <- Ep; repeat split]|].
  destruct (eo_session_trading_date self) eqn:Ed; [|split; [done|by rewrite <- Ep; repeat split]].
  rewrite <- Ep. destruct (combine_records _); [|split; [done|by repeat split]].
  destruct json, markdown; cbn [fst]; try (split; [done|by repeat split]); (split; [by apply set_windows_artifact_ok|by repeat split]).
Qed.

Lemma tick_once_ok inputs self : windows_ok self -> windows_ok (tick_once config classify inputs self).1.
Proof.
  intros Hok. unfold tick_once. case_bool_decide as Hlive; cbn [negb].
  - destruct (roll_session_ok (ctx_trading_date (classify (pi_reference inputs))) self Hok) as [Hok1 Hd1].
    set (d := ctx_trading_date _) in *. set (self1 := roll_session _ _ _) in *. unfold advance_collecting.
    pose proof (finalize_due_ok (window_due (pi_now inputs)) d (collecting_windows self1) (pi_answers inputs) self1 Hok1 Hd1) as H.
    destruct (finalize_due _ _ _ _ _ _) as [self2 [[]|e]]; destruct H as [H1 H2]; [|done].
    destruct (due_window _) as [band|]; [|done]. case_bool_decide; [done|]. apply begin_collecting_ok; [done|congruence|done].
  - assert (H : windows_ok (finalize_all_collecting config (pi_answers inputs) self).1).
    { unfold finalize_all_collecting. destruct (eo_session_trading_date self) as [d|] eqn:Ed; [|done].
      pose proof (finalize_due_ok (fun _ _ => true) d (collecting_windows self) (pi_answers inputs) self Hok Ed) as H.
      destruct (finalize_due _ _ _ _ _ _). apply H. }
    destruct (finalize_all_collecting _ _ _) as [self1 [[]|e]]; cbn [fst] in H; [|done].
    destruct (existsb _ _ && negb (eo_finalized self1)) eqn:E; [|done].
    destruct (finalize_session_ok (pi_json inputs) (pi_markdown inputs) self1 H) as [Hf Hsame].
    destruct (finalize_session _ _ _) as [self2 [r|e]]; cbn [fst] in *; [|done].
    assert (Hdate : eo_session_trading_date self2 <> None).
    { zbool. intros Hn. apply existsb_exists in H0 as (p & Hp & _). destruct Hsame as (_ & Hph & _ & Hdt & _). cbn in Hph, Hdt.
      destruct H. rewrite wo_fresh0 in Hp by congruence. done. }
    destruct Hf. by split.
Qed.

Lemma capture_window_ok window reference answer self : windows_ok self ->
  windows_ok (capture_window config classify window reference answer self).1.
Proof.
  intros Hok. unfold capture_window. case_bool_decide; cbn [negb]; [|done].
  destruct (roll_session_ok (ctx_trading_date (classify reference)) self Hok) as [Hok1 Hd1].
  case_bool_decide; [done|].
  pose proof (finalize_window_ok _ _ window answer Hok1 Hd1) as Hw. destruct (finalize_window _ _ _ _ _) as [self2 [[]|e]]; destruct Hw as (Hw & _ & _); [|done].
  by destruct (last _).
Qed.

Lemma observer_invariant self : observer_reachable config classify self -> windows_ok self.
Proof.
  induction 1 as [|self self' _ IH Hstep]; [apply mk_observer_ok|]. destruct Hstep.
  - destruct IH. by split.
  - eapply windows_ok_same; [apply on_event_windows|done].
  - by apply tick_once_ok.
  - by apply capture_window_ok.
  - by apply finalize_session_ok.
Qed.

(** * The session's report *)

Lemma partials_combinable self : windows_ok self -> eo_partials self <> [] -> combinable (eo_partials self).
Proof.
  intros [_ (ws & Hs & Hn & _) Hkey _ _ _ _ _ _] Hne. split; [done|]. split.
  - rewrite Forall_forall in Hkey. intros r r' Hr Hr'. destruct (Hkey r Hr) as (d & Hd & ->), (Hkey r' Hr') as (d' & Hd' & ->). congruence.
  - clear Hkey Hne. revert ws Hs Hn. induction (eo_partials self) as [|r rs IH]; intros ws Hs Hn; [constructor|].
    destruct ws as [|w ws]; [done|]. cbn in Hs. injection Hs as Hr Hrs. apply NoDup_cons in Hn as [Hw Hn].
    constructor; [by apply (IH ws)|]. apply Forall_forall. intros r' Hr' x Hx Hx'. rewrite Hr in Hx. apply list_elem_of_singleton in Hx as ->.
    assert (Hin : er_sample_windows r' ∈ er_sample_windows <$> rs) by by apply list_elem_of_fmap_2.
    change (list_fmap EvidenceRecord (list string) er_sample_windows rs) with (er_sample_windows <$> rs) in Hrs. rewrite Hrs in Hin.
    apply list_elem_of_fmap in Hin as (w' & E & Hw'). rewrite E in Hx'. by apply list_elem_of_singleton in Hx' as ->.
Qed.

(** [C19] Whatever the observer went through, the windows it committed can be combined, the report of the
    session is written, and its verdict is never acceptance: an observer that attaches to a live
    subscription cannot prove what the provider sends to a new one. *)
Theorem report_never_accepts self : observer_reachable config classify self -> eo_partials self <> [] ->
  exists d r, combine_records (eo_partials self) = Ok r /\ combination (eo_partials self) r
    /\ let combined := with_reconnect (default unobserved_reconnect (eo_reconnect self)) r in
       finalize_session (Ok tt) (Ok tt) self
         = (add_artifact (CombinedArtifact d combined (evaluate_record combined) true) self, Ok (Some combined))
       /\ ve_outcome (evaluate_record combined) <> ACCEPTED.
Proof.
  intros Hreach Hne. apply observer_invariant in Hreach as Hok. pose proof (partials_combinable self Hok Hne) as Hc.
  destruct (combine_combinable _ Hc) as (r & Hr & Hcomb). destruct Hok as [_ _ Hkey Hlate _ _ _ _ _].
  destruct (eo_partials self) as [|p ps] eqn:Ep; [done|]. rewrite <- Ep in *.
  assert (Hd : exists d, eo_session_trading_date self = Some d) by (rewrite Ep in Hkey; apply Forall_cons in Hkey as [(d & ? & _) _]; eauto).
  destruct Hd as [d Hd]. exists d, r. split; [done|]. split; [done|]. cbv zeta. split.
  - unfold finalize_session. rewrite Hr, Hd. by rewrite Ep.
  - intros Ha. apply accepted_conclusive in Ha as (_ & _ & _ & _ & (ev & o & h & l & o' & h' & l' & He & _ & Hk) & _).
    cbn in He. destruct Hcomb as (_ & _ & _ & _ & _ & _ & Hls & _). rewrite Hls in He.
    apply merge_late_start_in in He as (r' & Hr' & He). rewrite Forall_forall in Hlate. specialize (Hlate r' Hr' ev He). congruence.
Qed.

(** * Deadlines *)

(** An answer with which a window is committed. *)
Definition commits (answer : WindowAnswer) : Prop :=
  wa_write answer = Ok tt /\ match wa_rest answer with Ok _ => True | Raise e => is_exception e = true end.

Lemma finalize_window_commits self d window answer : commits answer ->
  exists self', finalize_window config window d answer self = (self', Ok tt)
    /\ dict_get window (eo_window_phase self') = Some FINALIZED
    /\ eo_window_deadline self' = eo_window_deadline self /\ eo_finalized self' = eo_finalized self
    /\ (forall w, dict_get w (eo_window_phase self) = Some FINALIZED -> dict_get w (eo_window_phase self') = Some FINALIZED)
    /\ (forall a, a ∈ eo_artifacts self -> a ∈ eo_artifacts self').
Proof.
  intros [Hw Hr]. unfold finalize_window. case_bool_decide as Hf; [by exists self|].
  pose proof (events_windows (wa_events answer) self) as (E1 & E2 & E3 & E4 & E5 & E6 & E7). set (self1 := fold_left on_event _ _) in *.
  rewrite Hw. assert (Hall : forall rest, exists self', (let record := build_partial config window d (default [] (eo_frozen_universe self1)) (eo_latest self) rest (wa_now answer) self1 in
      (set_windows (eo_partials self1 ++ [record]) (dict_set window FINALIZED (eo_window_phase self1)) (eo_window_deadline self1)
        (eo_finalized self1) (eo_artifacts self1 ++ [WindowArtifact d window record]) self1, Ok tt)) = (self', Ok tt)
      /\ dict_get window (eo_window_phase self') = Some FINALIZED
      /\ eo_window_deadline self' = eo_window_deadline self /\ eo_finalized self' = eo_finalized self
      /\ (forall w, dict_get w (eo_window_phase self) = Some FINALIZED -> dict_get w (eo_window_phase self') = Some FINALIZED)
      /\ (forall a, a ∈ eo_artifacts self -> a ∈ eo_artifacts self')).
  { intros rest. eexists. split; [reflexivity|]. cbn. rewrite E2, E3, E6, E7. split_and!; [by rewrite dict_get_set, decide_True|done|done| |].
    - intros w Hfin. rewrite dict_get_set. by case_decide.
    - intros a Ha. apply elem_of_app. by left. }
  destruct (wa_rest answer) as [observations|e]; [apply Hall|]. rewrite Hr. apply Hall.
Qed.

Lemma finalize_due_commits due d windows answers self (must : string -> Prop) :
  (forall w s, must w -> eo_window_deadline s = eo_window_deadline self -> due w s = true) ->
  Forall commits answers -> (length windows <= length answers)%nat ->
  exists self', finalize_due config due d windows answers self = (self', Ok tt)
    /\ eo_window_deadline self' = eo_window_deadline self /\ eo_finalized self' = eo_finalized self
    /\ (forall w, dict_get w (eo_window_phase self) = Some FINALIZED -> dict_get w (eo_window_phase self') = Some FINALIZED)
    /\ (forall w, w ∈ windows -> must w -> dict_get w (eo_window_phase self') = Some FINALIZED)
    /\ (forall a, a ∈ eo_artifacts self -> a ∈ eo_artifacts self').
Proof.
  revert answers self. induction windows as [|w windows IH]; intros answers self Hdue Hall Hlen.
  { exists self. cbn. split_and!; try done. intros w Hw. by apply elem_of_nil in Hw. }
  cbn [finalize_due]. destruct (due w self) eqn:E; cbn [negb].
  - destruct answers as [|answer answers]; [cbn in Hlen; lia|]. apply Forall_cons in Hall as [Ha Hall].
    destruct (finalize_window_commits self d w answer Ha) as (self1 & -> & H1 & H2 & H3 & H4 & H5).
    destruct (IH answers self1) as (self' & H & D & F & K & M & A); [by rewrite H2|done|cbn in Hlen; lia|].
    exists self'. split_and!; [done|congruence|congruence|auto| |auto]. intros w' [->|Hw']%elem_of_cons Hm; [by apply K|by apply M].
  - destruct (IH answers self) as (self' & H & D & F & K & M & A); [done|done|cbn in Hlen; lia|].
    exists self'. split_and!; try done. intros w' [->|Hw']%elem_of_cons Hm; [|by apply M]. rewrite Hdue in E by done. done.
Qed.

Lemma elem_of_collecting w self : NoDup (eo_window_phase self).*1 ->
  w ∈ collecting_windows self <-> dict_get w (eo_window_phase self) = Some COLLECTING.
Proof.
  intros Hn. unfold collecting_windows. rewrite list_elem_of_fmap. split.
  - intros ([w' p] & -> & [Hp Hin]%list_elem_of_filter). cbn in *. subst p. by apply dict_elem_get.
  - intros H. exists (w, COLLECTING). split; [done|]. apply list_elem_of_filter. split; [done|]. by apply dict_get_elem.
Qed.

Lemma report_written self w : windows_ok self -> dict_get w (eo_window_phase self) = Some FINALIZED ->
  exists d r v, finalize_session (Ok tt) (Ok tt) self = (add_artifact (CombinedArtifact d r v true) self, Ok (Some r)).
Proof.
  intros Hok Hw. assert (Hne : eo_partials self <> []).
  { destruct Hok as [_ (ws & Hs & _ & Hws) _ _ _ _ _ _ _]. apply Hws in Hw. intros E. rewrite E in Hs. destruct ws; [|done]. by apply elem_of_nil in Hw. }
  destruct (combine_combinable _ (partials_combinable self Hok Hne)) as (r & Hr & _). pose proof (wo_key _ Hok) as Hkey.
  destruct (eo_partials self) as [|p ps] eqn:Ep; [done|]. apply Forall_cons in Hkey as [(d & Hd & _) _].
  exists d. unfold finalize_session. rewrite Ep, Hd, Hr. eauto.
Qed.

(** What a poll makes of the windows it finds. *)
Lemma poll_finalizes inputs self :
  observer_reachable config classify self -> Forall commits (pi_answers inputs) ->
  (length (collecting_windows self) <= length (pi_answers inputs))%nat -> pi_json inputs = Ok tt -> pi_markdown inputs = Ok tt ->
  let session := classify (pi_reference inputs) in
  exists self', tick_once config classify inputs self = (self', Ok tt)
    /\ (market_state session = LIVE_SESSION -> eo_session_trading_date self = Some (ctx_trading_date session) ->
        forall w deadline, dict_get w (eo_window_phase self) = Some COLLECTING -> eo_window_deadline self !! w = Some deadline ->
          deadline <= pi_now inputs -> dict_get w (eo_window_phase self') = Some FINALIZED)
    /\ (market_state session = LIVE_SESSION -> eo_session_trading_date self <> Some (ctx_trading_date session) ->
        eo_partials self' = [] /\ eo_artifacts self' = eo_artifacts self
        /\ forall w, dict_get w (eo_window_phase self') <> Some FINALIZED)
    /\ (market_state session <> LIVE_SESSION ->
        (forall w, w ∈ (eo_window_phase self).*1 -> dict_get w (eo_window_phase self') = Some FINALIZED)
        /\ (eo_window_phase self <> [] -> eo_finalized self' = true
            /\ (eo_finalized self = false -> exists d record verdict, CombinedArtifact d record verdict true ∈ eo_artifacts self'))).
Proof.
  intros Hreach Hans Hlen Hjson Hmd. apply observer_invariant in Hreach as Hok. cbv zeta. unfold tick_once.
  destruct (decide (market_state (classify (pi_reference inputs)) = LIVE_SESSION)) as [Hlive|Hlive].
  - rewrite (bool_decide_true _ Hlive). cbn [negb]. set (d := ctx_trading_date _) in *.
    destruct (roll_session_ok d self Hok) as [Hok1 Hd1]. set (self1 := roll_session config d self) in *.
    assert (Hroll : (length (collecting_windows self1) <= length (pi_answers inputs))%nat).
    { unfold self1, roll_session. case_bool_decide; [done|]. unfold collecting_windows. cbn. destruct (is_not_none _); [cbn; lia|done]. }
    destruct (finalize_due_commits (window_due (pi_now inputs)) d (collecting_windows self1) (pi_answers inputs) self1
      (fun w => exists deadline, eo_window_deadline self1 !! w = Some deadline /\ deadline <= pi_now inputs)) as (self2 & H & D & F & K & M & A); [|done|done|].
    { intros w s (deadline & Hw & Hle) E. unfold window_due. rewrite E, Hw. cbn. apply orb_true_iff. right. lia. }
    unfold advance_collecting. rewrite H.
    assert (Hgoal : eo_session_trading_date self = Some d -> forall w deadline, dict_get w (eo_window_phase self) = Some COLLECTING ->
      eo_window_deadline self !! w = Some deadline -> deadline <= pi_now inputs -> dict_get w (eo_window_phase self2) = Some FINALIZED).
    { intros Hd w deadline Hw Hdl Hle. assert (E1 : self1 = self) by (unfold self1, roll_session; by rewrite (bool_decide_true _ Hd)).
      rewrite E1 in M. apply M; [|by exists deadline]. apply elem_of_collecting; [apply Hok|done]. }
    assert (Hother : eo_session_trading_date self <> Some d ->
      self2 = self1 /\ eo_partials self1 = [] /\ eo_artifacts self1 = eo_artifacts self /\ eo_window_phase self1 = []).
    { intros Hne. assert (Hw : eo_window_phase self1 = [] /\ eo_partials self1 = [] /\ eo_artifacts self1 = eo_artifacts self).
      { unfold self1, roll_session. rewrite (bool_decide_false _ Hne). cbn. destruct (eo_session_trading_date self) eqn:Ed; cbn; [done|].
        pose proof (wo_fresh _ Hok Ed) as Hf. split_and!; [done| |done]. destruct (wo_partials _ Hok) as (ws & Hs & _ & Hws).
        destruct ws as [|w ws]; [by destruct (eo_partials self)|]. pose proof (proj1 (Hws w) ltac:(by left)) as Hx. by rewrite Hf in Hx. }
      destruct Hw as (Hw & Hp & Ha). split_and!; [|done..]. unfold collecting_windows in H. rewrite Hw in H. cbn in H. congruence. }
    destruct (due_window _) as [band|].
    2: { exists self2. split; [done|]. split; [done|]. split; [|done]. intros _ Hne. destruct (Hother Hne) as (-> & Hp & Ha & Hw).
         rewrite Hw. by split_and!. }
    case_bool_decide as Hb.
    { exists self2. split; [done|]. split; [done|]. split; [|done]. intros _ Hne. destruct (Hother Hne) as (-> & Hp & Ha & Hw).
      rewrite Hw. by split_and!. }
    eexists. split; [done|]. split; [|split; [|done]].
    2: { intros _ Hne. destruct (Hother Hne) as (-> & Hp & Ha & Hw). cbn. rewrite Hw. split_and!; [done|done|].
         intros w. rewrite dict_get_set. by case_decide. }
    intros _ Hd w deadline Hw Hdl Hle. cbn. rewrite dict_get_set. case_decide as E; [|by eapply Hgoal]. subst w.
    specialize (Hgoal Hd band deadline Hw Hdl Hle). destruct Hb. apply dict_get_elem in Hgoal. by apply (list_elem_of_fmap_2 fst) in Hgoal.
  - rewrite (bool_decide_false _ Hlive). cbn [negb].
    assert (Hfin : exists self1, finalize_all_collecting config (pi_answers inputs) self = (self1, Ok tt) /\ eo_finalized self1 = eo_finalized self
      /\ (forall w, w ∈ (eo_window_phase self).*1 -> dict_get w (eo_window_phase self1) = Some FINALIZED) /\ windows_ok self1).
    { unfold finalize_all_collecting. destruct (eo_session_trading_date self) as [d|] eqn:Ed.
      - destruct (finalize_due_commits (fun _ _ => true) d (collecting_windows self) (pi_answers inputs) self (fun _ => True)) as (self1 & H & D & F & K & M & A); [done..|].
        exists self1. split_and!; [done|done| |].
        + intros w Hw. destruct (dict_get w (eo_window_phase self)) as [[]|] eqn:E; [|by apply K|by apply dict_get_none in E].
          apply M; [|done]. apply elem_of_collecting; [apply Hok|done].
        + pose proof (finalize_due_ok (fun _ _ => true) d (collecting_windows self) (pi_answers inputs) self Hok Ed) as Hf. rewrite H in Hf. apply Hf.
      - exists self. split_and!; [done|done| |done]. intros w Hw. destruct Hok. rewrite wo_fresh0 in Hw by done. by apply elem_of_nil in Hw. }
    destruct Hfin as (self1 & -> & Hf1 & Hw1 & Hok1).
    destruct (existsb _ (eo_window_phase self1) && negb (eo_finalized self1)) eqn:E.
    + zbool. apply existsb_exists in H as ([w p] & Hp%list_elem_of_In & Hfin). cbn in Hfin. zbool. subst p.
      destruct (report_written self1 w Hok1 (dict_elem_get _ _ _ (wo_keys _ Hok1) Hp)) as (d & r & v & Hr).
      rewrite Hjson, Hmd, Hr. eexists. split; [done|]. split; [done|]. split; [done|]. intros _. split; [exact Hw1|]. intros _. split; [done|].
      intros _. exists d, r, v. cbn. apply elem_of_app. right. by left.
    + exists self1. split; [done|]. split; [done|]. split; [done|]. intros _. split; [done|]. intros Hne.
      destruct (eo_window_phase self) as [|[w p] ws] eqn:Ep; [done|]. specialize (Hw1 w ltac:(by left)).
      assert (Hex : existsb (fun p => bool_decide (p.2 = FINALIZED)) (eo_window_phase self1) = true).
      { apply existsb_exists. exists (w, FINALIZED). split; [|by apply bool_decide_true]. apply list_elem_of_In. by apply dict_get_elem. }
      rewrite Hex in E. cbn in E. apply negb_false_iff in E. split; [done|]. congruence.
Qed.

(** The window [w] is committed: it is finalized and its record of the session written. *)
Definition committed (w : string) (self : Observer) : Prop :=
  dict_get w (eo_window_phase self) = Some FINALIZED
  /\ exists d record, eo_session_trading_date self = Some d /\ er_sample_windows record = [w]
     /\ record ∈ eo_partials self /\ WindowArtifact d w record ∈ eo_artifacts self.

Lemma finalized_committed w self : windows_ok self ->
  dict_get w (eo_window_phase self) = Some FINALIZED -> committed w self.
Proof.
  intros Hok Hw. split; [done|]. destruct (wo_partials _ Hok) as (ws & Hs & _ & Hws). apply Hws in Hw.
  assert (Hin : [w] ∈ er_sample_windows <$> eo_partials self).
  { rewrite Hs. apply list_elem_of_fmap. by exists w. }
  apply list_elem_of_fmap in Hin as (record & Hr & Hin). pose proof (wo_committed _ Hok) as Hc.
  rewrite Forall_forall in Hc. destruct (Hc record Hin) as (d & w' & Hd & Hw' & Ha). exists d, record.
  assert (w' = w) as -> by congruence. done.
Qed.

(** [C20] A poll commits what is due when its statistics and writes do not fail.  During the
    session whose windows the observer holds, every window whose deadline has passed is
    finalized and its record written; outside the session every window still collecting,
    and, unless it was written before, the report.  The first poll during a session of
    another date commits nothing: it forgets the windows and records of the date before,
    passed deadlines or not. *)
Theorem poll_commits_windows inputs self :
  observer_reachable config classify self -> Forall commits (pi_answers inputs) ->
  (length (collecting_windows self) <= length (pi_answers inputs))%nat -> pi_json inputs = Ok tt -> pi_markdown inputs = Ok tt ->
  let session := classify (pi_reference inputs) in
  exists self', tick_once config classify inputs self = (self', Ok tt)
    /\ (market_state session = LIVE_SESSION -> eo_session_trading_date self = Some (ctx_trading_date session) ->
        forall w deadline, dict_get w (eo_window_phase self) = Some COLLECTING -> eo_window_deadline self !! w = Some deadline ->
          deadline <= pi_now inputs -> committed w self')
    /\ (market_state session = LIVE_SESSION -> eo_session_trading_date self <> Some (ctx_trading_date session) ->
        eo_partials self' = [] /\ eo_artifacts self' = eo_artifacts self
        /\ forall w, dict_get w (eo_window_phase self') <> Some FINALIZED)
    /\ (market_state session <> LIVE_SESSION ->
        (forall w, w ∈ (eo_window_phase self).*1 -> committed w self')
        /\ (eo_window_phase self <> [] -> eo_finalized self' = true
            /\ (eo_finalized self = false -> exists d record verdict, CombinedArtifact d record verdict true ∈ eo_artifacts self'))).
Proof.
  intros Hreach Hans Hlen Hjson Hmd. cbv zeta.
  destruct (poll_finalizes inputs self Hreach Hans Hlen Hjson Hmd) as (self' & E & Hlive & Hroll & Hout).
  assert (Hok : windows_ok self').
  { apply observer_invariant. eapply reachable_step; [exact Hreach|]. pose proof (step_poll config classify self inputs) as Hp.
    by rewrite E in Hp. }
  exists self'. split; [done|]. split; [|split; [done|]].
  - intros H1 H2 w deadline Hw Hd Hle. eapply finalized_committed; [done|]. by eapply Hlive.
  - intros H1. destruct (Hout H1) as [G1 G2]. split; [|done]. intros w Hw. apply finalized_committed; auto.
Qed.

End Invariant.

(** * A session *)

Definition sample_config : ObserverConfig :=
  {| ec_universe := [reliance]; ec_source_sha := "sha"; ec_production_image := None; ec_exchange_timezone := kolkata;
     ec_session_identity := "regular"; ec_per_window := 300 * us_per_second |}.

Definition sample_classifier : MarketSessionClassifier :=
  {| cls_schedule := {| pre_open_start := hm 9 0; opening_auction_start := hm 9 8; regular_open := hm 9 15;
                        regular_close := hm 15 30; closing_end := hm 15 40 |};
     cls_calendar := {| closed_dates := ∅; open_sessions := ∅; weekend_days := ∅ |};
     cls_timezone := kolkata; cls_coverage := None |}.

Definition sample_classify (i : instant) : SessionContext := classify_session sample_classifier i false.

Definition sample_ohlc (high : Z) : ProviderSessionOhlc :=
  {| pso_open_price := dec 100 0; pso_high_price := dec high 0; pso_low_price := dec 99 0; pso_close_price := dec 100 0 |}.

(** A context of the day [d] whose tick carries the session's high so far. *)
Definition sample_published (d : date) (at_ : instant) (high : Z) : ObserverEvent :=
  ContextPublished (initial reliance 1 at_ at_
    (Some {| tick_instrument := reliance; tick_event_timestamp := at_; last_price := dec 100 0; tick_traded_quantity := None;
             session_cumulative_volume := None; tick_session_ohlc := Some (sample_ohlc high) |})
    None [] (Some {| ctx_trading_date := d; market_state := LIVE_SESSION; exchange_timezone := "Asia/Kolkata" |}) None None None).

(** An answer with the provider's high, or a failed request. *)
Definition sample_answer (at_ : instant) (high : option Z) : WindowAnswer :=
  {| wa_rest := match high with
                | Some high => Ok [{| obs_instrument := reliance; obs_trading_date := sample_date; obs_observed_at := at_;
                                      obs_session_ohlc := sample_ohlc high |}]
                | None => Raise ProviderNetworkError
                end;
     wa_events := []; wa_now := at_; wa_write := Ok tt |}.

Definition sample_poll (at_ : instant) (high : option Z) : PollInputs :=
  {| pi_reference := at_; pi_now := at_; pi_answers := [sample_answer at_ high]; pi_json := Ok tt; pi_markdown := Ok tt |}.

(** What drives the observer through a day. *)
Inductive SampleStep : Type := Seen (event : ObserverEvent) | Polled (inputs : PollInputs).

Definition sample_step (self : Observer) (step : SampleStep) : Observer :=
  match step with
  | Seen event => on_event self event
  | Polled inputs => (tick_once sample_config sample_classify inputs self).1
  end.

Lemma observer_sample_reachable steps : observer_reachable sample_config sample_classify (fold_left sample_step steps mk_observer).
Proof.
  induction steps as [|step steps IH] using rev_ind; [constructor|]. rewrite fold_left_app. cbn [fold_left].
  eapply reachable_step; [exact IH|]. destruct step; constructor.
Qed.

(** A price seen before the open, a poll in the first band and the state it leaves. *)
Definition sample_open (d : date) (high : Z) : list SampleStep :=
  [Seen (sample_published d (at_local 9 0) high); Polled (sample_poll (at_local 9 20) None)].

Definition sample_collecting : Observer := fold_left sample_step (sample_open sample_date 101) mk_observer.

Lemma poll_commits_windows_witness :
  dict_get "early"%string (eo_window_phase sample_collecting) = Some COLLECTING
  /\ dict_get "early"%string (eo_window_phase (tick_once sample_config sample_classify (sample_poll (at_local 9 30) None) sample_collecting).1)
     = Some FINALIZED.
Proof.
  split; [vm_compute; reflexivity|].
  destruct (poll_commits_windows sample_config sample_classify (sample_poll (at_local 9 30) None) sample_collecting) as (self' & E & Hlive & _).
  - apply observer_sample_reachable.
  - repeat constructor.
  - vm_compute. lia.
  - reflexivity.
  - reflexivity.
  - rewrite E. apply (Hlive ltac:(vm_compute; reflexivity) ltac:(vm_compute; reflexivity) "early"%string (at_local 9 25));
      [vm_compute; reflexivity..|]. vm_compute. discriminate.
Defined.

(** The first window committed: the report is written and inconclusive. *)
Definition sample_committed (d : date) (high : Z) (rest : option Z) : Observer :=
  fold_left sample_step (sample_open d high ++ [Polled (sample_poll (at_local 9 21) rest)]) mk_observer.

Lemma report_never_accepts_witness : exists d combined verdict,
  finalize_session (Ok tt) (Ok tt) (sample_committed sample_date 101 (Some 101))
    = (add_artifact (CombinedArtifact d combined verdict true) (sample_committed sample_date 101 (Some 101)), Ok (Some combined))
  /\ ve_outcome verdict <> ACCEPTED.
Proof.
  destruct (report_never_accepts sample_config sample_classify (sample_committed sample_date 101 (Some 101))) as (d & r & _ & _ & Hf & Hv).
  - apply observer_sample_reachable.
  - vm_compute. discriminate.
  - eexists d, _, _. split; [exact Hf|exact Hv].
Defined.

(** A price seen before the first poll of the first session is kept, whatever day it is of: it
    completes the coverage and is committed as that day's early window. *)
Lemma prior_day_price_committed : exists record inst obs,
  WindowArtifact sample_date "early" record ∈ eo_artifacts (sample_committed (sample_date - 1) 250 None)
  /\ inst ∈ er_instruments record /\ obs ∈ ie_ws_observations inst
  /\ er_trading_date record = sample_date /\ er_pending_instruments record = []
  /\ ob_trading_date obs = Some (sample_date - 1) /\ ob_high_price obs = Some (dec 250 0).
Proof.
  set (self := sample_committed (sample_date - 1) 250 None).
  assert (H : exists record, eo_artifacts self = [WindowArtifact sample_date "early" record]
    /\ exists inst, er_instruments record = [inst] /\ exists obs, ie_ws_observations inst = [obs]
    /\ er_trading_date record = sample_date /\ er_pending_instruments record = []
    /\ ob_trading_date obs = Some (sample_date - 1) /\ ob_high_price obs = Some (dec 250 0)).
  { eexists. split; [vm_compute; reflexivity|]. eexists. split; [vm_compute; reflexivity|]. eexists.
    split; [vm_compute; reflexivity|]. split_and!; vm_compute; reflexivity. }
  destruct H as (record & -> & inst & Hi & obs & Ho & H). exists record, inst, obs. rewrite Hi, Ho.
  split_and!; try apply H; by left.
Qed.

(** The prior values of the late start are loaded after the first observation: a high made in
    between is reported as lost and the session rejected. *)
Lemma new_high_reported_lost : exists d combined verdict self,
  finalize_session (Ok tt) (Ok tt) (sample_committed sample_date 101 (Some 102)) = (self, Ok (Some combined))
  /\ eo_artifacts self = eo_artifacts (sample_committed sample_date 101 (Some 102)) ++ [CombinedArtifact d combined verdict true]
  /\ ve_outcome verdict = REJECTED /\ ve_reasons verdict = [LateStartLost ["high"%string]].
Proof.
  exists sample_date. eexists _, _, _. split; [vm_compute; reflexivity|]. split; [vm_compute; reflexivity|]. split; vm_compute; reflexivity.
Qed.
